(* ===== verification/_CoqProject ===== *)
-Q . S2P
Prelude.v
GoStrings.v
Breaker.v
Bolt.v
SendQueue.v
SendQueueFacts.v
SendQueueProps.v
Wire.v
Tagger.v
Scheduler.v
SchedulerProps.v
Processing.v
ProcessingProps.v
Usage.v
GoFloat.v
Sampler.v
SamplerProps.v
Latency.v
Concentrator.v
L7.v
L7Props.v
Http2.v
CriTailer.v
CriTailerProps.v
Eff.v
Otlp.v
OtlpProps.v
Stamp.v
OtlpHttp.v
OtlpHttpFacts.v
OtlpExample.v
StampProps.v
OtlpHttpProps.v
OtlpSamplingProps.v
Apm.v
Pipeline.v
PipelineProps.v
PipelineRulesProps.v
Ingest.v
IngestProps.v
IngestPolicyProps.v
IngestQueueProps.v
Logs.v
LogsProps.v
SendQueueRace.v
ConfigPull.v
ConfigPullProps.v
RateWindow.v
DockerLogs.v
DockerLogsProps.v
SqlText.v
QueryStats.v
QueryStatsProps.v
DatabaseMonitor.v
Bridge.v
BridgeProps.v
Webhook.v
WebhookProps.v
Snmp.v
SnmpProps.v
Lldp.v
Prom.v
Kubelet.v
KubeletProps.v
Cgroup.v
Resolvers.v
ResolversProps.v
ClusterAgent.v
ClusterProps.v
Journald.v
HostSystem.v
HostProps.v
Jobs.v
Collector.v
Catalog.v
DatabaseChecks.v
LangDetect.v
ExternalChecks.v
Probes.v
Discovery.v
