(* ===== verification/Prelude.v ===== *)
(** * Telvyn agent: verification library (root file)

    The Telvyn agent is a monitoring collector written in Go.  It runs periodic checks
    against hosts and services, receives traces and metrics of applications, observes
    the network protocols of uninstrumented programs through eBPF, tails logs, watches
    hosts, containers, databases and clusters, runs commands on devices, puts agents into
    pods as they are created, and posts everything to a server through queues that survive
    outages.  This library models the logic of those parts as Rocq definitions
    that can be evaluated, one Module per component, and proves what makes each of them
    correct.

    ** How the parts interact

    The configuration that is pulled from the server drives the rest: the checks that the
    scheduler runs, the rules of the APM pipeline, the monitors of databases, the profiles of
    SNMP devices.  A check's failures are held back by its circuit breaker, its metrics pass
    the cardinality budget of the tagger, and its batches leave through the ingest exporter,
    which sends each signal only where the policy of the server entitles it, over a send
    queue.

    Applications post traces to the OTLP receiver, which stamps the metadata it can verify,
    applies the rules, gives the spans to the concentrator and the accounting of usage, and
    passes on what the sampler keeps; [Pipeline] is this composition as main wires it, with
    the forwarder of the statistics at its end.  Kernel events go to the bridge, which keeps
    the connections and their protocol parsers, asks the registry of monitors which database
    a request belongs to, and pushes spans to the concentrator.  Two tailers read the logs of
    containers and the logs exporter sends them.  The webhook answers the API server about
    each new pod.  The agent of a cluster asks its API server for what there is and reports
    what is meant to be shown; jobs that the server hands out reach devices over SSH; checks
    that come in packages are programs that run once their signature is verified.

    Files require each other in the same way: [Pipeline] uses [OtlpHttp], [Concentrator],
    [Sampler], [Usage] and [Apm]; [Ingest] and [Logs] are written over [SendQueue], and that
    over the interface of [Bolt]; [ConfigPull] is written over an interface [Applier] that
    [Scheduler] implements; [Bridge] asks interfaces of resolvers, one of which
    [DatabaseMonitor] implements; everything uses [Wire] for messages.

    ** Files, and the code they model (paths under src/internal)

    - [Prelude]: results, machine integers, time, tactics, sums over lists and maps.
      [GoStrings]: byte strings and the functions of package strings that the code uses.
      [GoFloat]: float64, as the binary64 operations of SpecFloat.  [Eff]: a state monad
      with panics.  [Wire]: the protobuf messages, proto/v1/collector.proto.
    - [Breaker]: checks/circuit_breaker.go; [allow], [failure], [success], and [step1],
      the atomic accesses of [allow] for concurrent callers.
    - [Bolt]: the interface of the embedded database as a class [KV] with its laws
      [KVLaws], transactions that may fail, and an instance on ordered lists.
    - [SendQueue]: sendbuf/sendbuf.go, durable.go, observability.go; the queue in memory
      and on disk: [Offer], [OfferDurable], [Flush], [FlushBatch], [Snapshot].
      [SendQueueFacts] holds its invariant and lemmas, [SendQueueProps] the theorems, and
      [SendQueueRace] the queue as a step relation of concurrent callers.
    - [Scheduler], [SchedulerProps]: checks/scheduler.go and check.go; [ApplyDelta],
      [RetryFailedStarts], [Reload], and [runOnce], one whole run of a check.
    - [Tagger]: checks/tagger.go; [Filter] and the window of series per host.
    - [ConfigPull], [ConfigPullProps]: configpull/configpull.go; one poll with its reports
      and acknowledgements, and the loop of polls.
    - [Ingest]: otlp/ingest.go, database_contract.go and the policy of signals; offers,
      flushes and the limits of native bodies.  Theorems in [IngestProps],
      [IngestPolicyProps] and [IngestQueueProps].
    - [Logs], [LogsProps]: otlp/logs.go; batches, splits and retries.
    - [Otlp], [OtlpProps]: otlp/, the conversion of messages, the gRPC receiver and the
      forwarder of spans.  [Stamp], [StampProps]: the metadata that is verified.
    - [OtlpHttp]: otlp/http.go; the handlers of the HTTP receiver as computations of [Eff].
      [OtlpHttpFacts], [OtlpHttpProps] and [OtlpSamplingProps] hold the theorems,
      [OtlpExample] a small instance of their surroundings.
    - [Processing], [ProcessingProps]: apm/processing/processing.go and processing_json.go;
      the redaction of attributes on protobuf messages and on JSON.
    - [Usage]: apm/usage/usage.go; [Observe], [Flush] in two halves ([flush_begin],
      [flush_end]) so that observations can come between them.
    - [Sampler], [SamplerProps]: apm/sampler/sampler.go and adaptive.go; [KeepForScope], the
      two adaptive modes, the policies.
    - [Latency]: latency/sketch.go; [Add], [MergeWith], [Encode], [Decode].
    - [Concentrator]: apm/concentrator/concentrator.go and the keys of
      apm/primarytags/metadata.go.
    - [Apm]: apm/obfuscate, apm/statsfwd.
    - [Pipeline], [PipelineProps], [PipelineRulesProps]: the wiring in
      cmd/collector/main.go of the five components above with the receiver.
    - [L7], [L7Props], [Http2]: ebpf/l7; the parsers of request payloads, their maps of
      prepared statements, and the frames and streams of HTTP/2.
    - [DatabaseMonitor]: ebpf/database_monitor.go.
    - [Bridge], [BridgeProps]: ebpf/bridge.go; connections, parsers and spans.
    - [CriTailer], [CriTailerProps]: logs/cri_tailer.go, cursor.go and the helpers of
      docker_tailer.go.  [DockerLogs], [DockerLogsProps]: logs/json_reader.go and
      docker_tailer.go; [RateWindow] is the limit of rates they share with [QueryStats].
    - [SqlText]: checks/; the texts of statements that are sent and the test
      of what is a read.  [QueryStats], [QueryStatsProps]: checks/postgres_queries.go and the
      statistics of the other databases.
    - [Catalog]: checks/database_identity.go, the catalogs of PostgreSQL, MySQL, SQL Server and
      Oracle, and the pools of connections that checks share.  [DatabaseChecks]:
      checks/postgres_server.go with its _capabilities, _diagnostics, _extended, _objects and
      _limits, and redis_server.go; which queries a server of some version is asked, and
      what a run reports.
    - [Snmp], [SnmpProps]: snmp/ and checks/snmp_generic.go; profiles, the choice among them,
      collection, the identity of a device, and the check.
      [Lldp]: checks/lldp.go; the neighbours of a device and their details.
    - [HostSystem], [HostProps]: checks/linux_system.go, node_system.go, linux_processes.go,
      docker_host.go and svcagg/; what a host, its services and its containers use.
      [Journald]: checks/journald.go; the subscribers of the journal and their channels.
    - [Probes]: checks/http_get.go, http_throughput.go, ssl_cert.go, dns_lookup.go,
      tcp_connect.go, mtr.go, icmp_ping.go and icmp_rtt.go; the probes of links.
      [Discovery]: discovery/snmp_scan.go, checks/snmp_autodiscover.go and icmp_scan.go.
    - [ExternalChecks]: checkpackages/verify.go, checks/external_python.go,
      external_response.go, otlp/external_inventory.go; checks that packages bring.
    - [Jobs]: tools/ssh.go and jobpull/jobpull.go; commands on devices, and the loop that
      pulls jobs and posts their results.
    - [Collector]: cmd/collector/main.go, host_services.go, tagger_budget.go; the identity and
      the life of the process, its heartbeat, and what starts under which profile.
    - [Prom]: quarkus/scraper.go; the text format of metrics and the scraper of
      instrumented pods.  [Kubelet], [KubeletProps]: checks/k8s_kubelet.go with its
      _operational, k8s_cgroup_memory.go and k8s_runtime_images.go; a run of the node's check.
    - [Cgroup]: ebpf/cgroup; the container that a control group tells, and its statistics.
      [Resolvers], [ResolversProps]: ebpf/podresolver.go and containerresolver.go; the pods
      and services of processes and addresses, with their caches.
      [LangDetect]: langdetect/detector.go; the languages of pods and containers.
    - [ClusterAgent], [ClusterProps]: clusteragent/; events, inventory, the states and the
      metrics of the objects of a cluster, page by page.
    - [Webhook], [WebhookProps]: webhook/, k8smeta/, k8sidentity/; the decision about a pod,
      the patches, the policies that are polled.

    ** Conventions

    Data are as the code has them: records for structs, [gmap] for maps, byte strings for
    strings, [Z] for integers with the wrap-around written out ([i64], [u64], [u32])
    where arithmetic can leave the width.  A time is a number of nanoseconds and every
    read of the clock is an argument.  A pointer that may be nil is an option; an
    operation that can panic returns an option or an error.  Empty and nil slices are one
    list, except where the code asks.  Log output is left out.
    Where the code enumerates a map, the order is an argument of the definition, or a
    theorem shows that it does not matter.  What the outside decides (the response to a
    POST, a transaction that fails, the answer of a factory, the contents of a file) is
    an argument too, and the theorems hold for all of its values.

    One request, poll, run or event is one step of its component, except in [Breaker] and
    [SendQueueRace], which interleave the atomic accesses.  The paths of HTTP requests are
    those that the multiplexer of the standard library has cleaned.

    What is not under src is an argument: protobuf and JSON text, gzip, the hash functions,
    RFC 3339 times, the Unicode case tables and folding, the resolution and parsing of
    addresses, the decoders of BSON and of ClickHouse, YAML, the regular expressions of
    configurations, the logarithm, and every client of a network, whose answers are numbered
    by attempt or threaded through a state.  The hypotheses on them are stated where they are
    used and have instances in the witnesses.

    ** What the theorems show

    - APM pipeline: exceptions reach the server, statistics are complete however traces are
      sampled, its state stays valid; traces are kept whole; metadata that is reserved cannot
      be forged by an application in the protobuf messages that are forwarded.
    - Send queue: no payload is lost by flushes, single or batched, after any rounds of them and
      under any failures of the disk; flushes keep the order; an offer refines an abstract
      bounded queue; with concurrent callers, however the critical sections of one flusher and of
      any number of offers come between each other, nothing leaves that was not answered.
    - Exporters: metrics that the disk accepts are kept until they are answered, nothing leaves without its
      module, bodies are cut into parts that lose nothing; logs are sent at least once, and
      their retries refine an abstract one.
    - Scheduler: the running checks follow the deliveries of the server (a refinement of
      the map of last configurations), and with [ConfigPull] they follow what it answered;
      a retry asks for each failed start again; what a completed run hands over.  Ids of checks
      are such as the factories keep: not empty, and without white space around them.
    - Processing: JSON and protobuf redaction agree; redaction is complete on the attributes of
      resources and spans, and touches nothing else.  Usage:
      acknowledgement forgets only what was sent.  Sampler: bounded memory and no panic over
      all histories.  Concentrator: a flush reports exactly the spans added.  Latency: the
      binary format is exact.
    - Protocols: statements are tracked through prepare and close, HTTP/2 parsing returns,
      and the exact inputs on which the MySQL parser panics.  Bridge: a span of a monitored
      database is of a request that reached it, the address of a peer is the one that was
      opened last, and the loop runs to the end of its channel exactly without such inputs.
    - Logs of containers: each line of a growing file is read once, and a restart resumes
      where the cursor was.
    - Databases: calls are counted once across resets, plans that are sent have no fields but those
      allowed, and the text that is sent for a statement does not depend on its numbers, literals
      and comments, where these can be told apart.
    - SNMP: the longest prefix chooses the profile, the metrics of a table are exactly the
      numbers of its walk, and a run reports on itself whatever the device does.  LLDP: each
      neighbour that names itself is one edge, or there are none at all.
    - Kubernetes: a line of the text format is read back whatever valid UTF-8 its labels hold; the CPU of
      a container is the difference to the summary that was read last, and to nothing else;
      a process has the pod of a container it was in lately.
    - Webhook: a patch applies to its pod, and its result is the pod with what it installs and
      otherwise as it was; a pod that
      nothing selects is left alone.
    - Cluster agent: what is reported of an object depends on nothing but the fields that are
      meant to be shown.  Languages: a pod has the language of the first of its processes of
      the highest rank, and a container is ambiguous exactly when its processes differ.
    - Hosts: every record of the journal that is scanned was received or is counted as dropped; the shares of
      processors and disks are between two runs.
    - Databases: catalogs have one fingerprint exactly when they have one structure, in which
      lists of labels stand as one text; parts of
      shared pools are of open pools; a query reads only what its server has.
    - Outside programs: all that reaches a device for a job is one connection to its own host, with its
      own user, secret and key, and at most its own command, of the allowlist of its vendor; results are kept until they are acknowledged.  The program of a package
      runs only when its manifest is signed and its files are those of the manifest, and what
      it answers is taken only for its own host and instance.
    - Discovery: a scan over SNMP asks each host of its networks once, and a scan over ICMP
      always ends writing its networks out.
    - Process: an agent of databases begins to collect under one identity; a pinger measures
      exactly the answers to what is outstanding.

    Examples and lemmas without a claim number at the ends of the files are observations on
    the code, such as inputs on which it does not do what a comment says.

    ** Bounds and fuel

    Loops are structural where the code's are.  The others have fuel, and theorems state
    how much is enough: [SendQueue.flush_rounds] is a number of rounds of the loop of a flush,
    and what holds of it holds after any number of them; a flush returns when the disk fails
    finitely often, with one unit per payload plus one per outcome of a transaction
    ([enough]), and does not while the removals go on failing; [flush_batch_loop]
    returns when the disk fails, and takes at least a payload otherwise; the HTTP/2 frame loop needs one unit per byte
    ([http2_parse_returns]); the eviction loop one per entry; splitting a body of logs one
    per record; the scan of a statement's comments and quotes one per byte; the decimal
    digits of an index twenty, which is the buffer of the code.  Lists of a cluster end after
    ten pages and are cut there, as the code does; writing a network out for ICMP needs three
    units per address that is kept, and six ([enough]).  The string functions take
    the length of their input.  The number of attempts of an export, of rounds of a scan and
    of lines of a poll are the constants of the code.

    ** Not modelled

    HTTP, gRPC and Kubernetes clients, kernel programs and the reading of /proc, most of the
    checks of databases other than PostgreSQL and Redis (clients of third-party protocols that
    turn answers into metrics), the catalogs of MongoDB and ClickHouse, the CPU profiler, the scanner of images, the instrumentation agents for other
    languages, generated code.  Within modelled components: the registry of queues and
    their file names, the loop that samples running queries, the files of cursors and
    certificates, and the loops on timers, which only call modelled operations.
    What is left apart calls the kernel, a driver or another program for each of its decisions,
    and a model of it would state only what those answer. *)

From Stdlib Require Export ZArith Lia Sorted.
From stdpp Require Export base numbers list gmap strings.

#[global] Open Scope Z_scope.

(** ** Results and errors

    A Go function returning [(T, error)] is modelled by [res T]; the string is
    the message of the error, or the identifying part of it. *)

Inductive res (A : Type) : Type :=
  | Ok (a : A)
  | Err (e : string).
Arguments Ok {A} a.
Arguments Err {A} e.

#[export] Instance res_ret : MRet res := fun A a => Ok a.
#[export] Instance res_bind : MBind res :=
  fun A B f m => match m with Ok a => f a | Err e => Err e end.

Definition is_ok {A} (r : res A) : bool :=
  match r with Ok _ => true | Err _ => false end.

Lemma res_bind_ok {A B} (f : A -> res B) (m : res A) (b : B) :
  m ≫= f = Ok b <-> exists a, m = Ok a /\ f a = Ok b.
Proof.
  destruct m as [a|e]; cbn; split.
  - intros H. by exists a.
  - by intros (a' & [= <-] & H).
  - done.
  - by intros (a' & H & _).
Qed.

(** ** Machine integers

    Go integers are kept at their width: [u64 z] and [i64 z] are the values that
    a conversion, an addition or a subtraction at that width produces. *)

Definition wrap (w z : Z) : Z := z mod 2 ^ w.
Definition swrap (w z : Z) : Z := (z + 2 ^ (w - 1)) mod 2 ^ w - 2 ^ (w - 1).

Abbreviation u16 := (wrap 16).
Abbreviation u32 := (wrap 32).
Abbreviation u64 := (wrap 64).
Abbreviation i32 := (swrap 32).
Abbreviation i64 := (swrap 64).

Definition max_i64 : Z := 2 ^ 63 - 1.
Definition min_i64 : Z := - 2 ^ 63.

Definition in_u64 (z : Z) : Prop := 0 <= z < 2 ^ 64.
Definition in_i64 (z : Z) : Prop := - 2 ^ 63 <= z < 2 ^ 63.
Definition in_i32 (z : Z) : Prop := - 2 ^ 31 <= z < 2 ^ 31.

Lemma wrap_range w z : 0 <= w -> 0 <= wrap w z < 2 ^ w.
Proof. intros Hw. apply Z.mod_pos_bound. by apply Z.pow_pos_nonneg. Qed.

Lemma wrap_small w z : 0 <= z < 2 ^ w -> wrap w z = z.
Proof. apply Z.mod_small. Qed.

Lemma swrap_range w z : 0 < w -> - 2 ^ (w - 1) <= swrap w z < 2 ^ (w - 1).
Proof.
  intros Hw. unfold swrap.
  assert (2 ^ w = 2 * 2 ^ (w - 1)) as E.
  { rewrite <- Z.pow_succ_r by lia. f_equal. lia. }
  pose proof (Z.mod_pos_bound (z + 2 ^ (w - 1)) (2 ^ w)
    ltac:(apply Z.pow_pos_nonneg; lia)). lia.
Qed.

Lemma swrap_small w z : 0 < w -> - 2 ^ (w - 1) <= z < 2 ^ (w - 1) -> swrap w z = z.
Proof.
  intros Hw Hz. unfold swrap.
  assert (2 ^ w = 2 * 2 ^ (w - 1)) as E.
  { rewrite <- Z.pow_succ_r by lia. f_equal. lia. }
  rewrite Z.mod_small; lia.
Qed.

Lemma u64_range z : in_u64 (u64 z).
Proof. apply (wrap_range 64); lia. Qed.
Lemma u64_small z : in_u64 z -> u64 z = z.
Proof. apply (wrap_small 64). Qed.
Lemma i64_range z : in_i64 (i64 z).
Proof. apply (swrap_range 64); lia. Qed.
Lemma i64_small z : in_i64 z -> i64 z = z.
Proof. apply (swrap_small 64); lia. Qed.
Lemma i32_range z : in_i32 (i32 z).
Proof. apply (swrap_range 32); lia. Qed.
Lemma i32_small z : in_i32 z -> i32 z = z.
Proof. apply (swrap_small 32); lia. Qed.

Lemma wrap_add_l w a b : wrap w (wrap w a + b) = wrap w (a + b).
Proof. apply Zplus_mod_idemp_l. Qed.
Lemma wrap_add_r w a b : wrap w (a + wrap w b) = wrap w (a + b).
Proof. apply Zplus_mod_idemp_r. Qed.

Lemma swrap_add_l w a b : swrap w (swrap w a + b) = swrap w (a + b).
Proof.
  unfold swrap. f_equal.
  replace ((a + 2 ^ (w - 1)) mod 2 ^ w - 2 ^ (w - 1) + b + 2 ^ (w - 1))
    with ((a + 2 ^ (w - 1)) mod 2 ^ w + b) by lia.
  rewrite Zplus_mod_idemp_l. f_equal. lia.
Qed.

Lemma swrap_add_r w a b : swrap w (a + swrap w b) = swrap w (a + b).
Proof. rewrite Z.add_comm, swrap_add_l. f_equal. lia. Qed.

(** ** Time

    [time.Time] is a number of nanoseconds since the Unix epoch, and
    [time.Duration] a number of nanoseconds.  [Time.Sub] saturates at the bounds
    of [int64], which matters for the zero [time.Time]. *)

Definition nanosecond : Z := 1.
Definition millisecond : Z := 1000000.
Definition second : Z := 1000000000.
Definition minute : Z := 60 * second.
Definition hour : Z := 60 * minute.

(** The zero [time.Time]: January 1, year 1, 00:00:00 UTC. *)
Definition zero_time : Z := - 62135596800 * second.

Definition is_zero_time (t : Z) : bool := t =? zero_time.

Definition time_sub (t u : Z) : Z := Z.max min_i64 (Z.min max_i64 (t - u)).

Lemma time_sub_exact t u : in_i64 (t - u) -> time_sub t u = t - u.
Proof. unfold in_i64, time_sub, max_i64, min_i64. lia. Qed.

Lemma time_sub_nonneg t u : u <= t -> 0 <= time_sub t u.
Proof. unfold time_sub, max_i64, min_i64. lia. Qed.

Lemma time_sub_lt t u d : d <= max_i64 -> min_i64 < d -> time_sub t u < d <-> t - u < d.
Proof. unfold time_sub, max_i64, min_i64. lia. Qed.

(** ** Automation *)

(** Splits every boolean test and option match of the goal and hypotheses, keeps
    the equations, and closes what arithmetic and congruence close. *)
Ltac split_tests :=
  repeat (case_match; simplify_eq/=; try done).

(** Turns boolean comparisons on [Z] and the connectives around them into
    propositions, everywhere. *)
Ltac to_prop :=
  repeat match goal with
  | H : (_ && _)%bool = true |- _ => apply andb_prop in H as [? ?]
  | H : (_ || _)%bool = false |- _ => apply orb_false_elim in H as [? ?]
  | H : (_ && _)%bool = false |- _ => apply andb_false_iff in H
  | H : (_ || _)%bool = true |- _ => apply orb_true_iff in H
  | H : negb _ = true |- _ => apply negb_true_iff in H
  | H : negb _ = false |- _ => apply negb_false_iff in H
  | H : bool_decide _ = true |- _ => apply bool_decide_eq_true in H
  | H : bool_decide _ = false |- _ => apply bool_decide_eq_false in H
  | H : String.eqb _ _ = true |- _ => apply String.eqb_eq in H
  | H : String.eqb _ _ = false |- _ => apply String.eqb_neq in H
  end.

Create HintDb telvyn.
#[export] Hint Resolve wrap_range u64_range i64_range i32_range : telvyn.
#[export] Hint Resolve time_sub_nonneg : telvyn.

(** ** Generic list lemmas *)

Lemma sum_list_with_Z_app {A} (f : A -> Z) (l k : list A) :
  foldr (fun x n => f x + n) 0 (l ++ k) =
  foldr (fun x n => f x + n) 0 l + foldr (fun x n => f x + n) 0 k.
Proof. induction l as [|x l IH]; cbn; lia. Qed.

(** Sum of a measure over a list, as a [Z]. *)
Definition sumZ {A} (f : A -> Z) (l : list A) : Z := foldr (fun x n => f x + n) 0 l.

Lemma sumZ_app {A} (f : A -> Z) l k : sumZ f (l ++ k) = sumZ f l + sumZ f k.
Proof. apply sum_list_with_Z_app. Qed.

Lemma sumZ_nonneg {A} (f : A -> Z) l : (forall x, 0 <= f x) -> 0 <= sumZ f l.
Proof. intros Hf. induction l as [|x l IH]; cbn; [lia|]. specialize (Hf x). unfold sumZ in IH. lia. Qed.

Lemma sumZ_perm {A} (f : A -> Z) l k : l ≡ₚ k -> sumZ f l = sumZ f k.
Proof. induction 1; unfold sumZ in *; cbn; lia. Qed.

#[export] Hint Resolve sumZ_nonneg : telvyn.

(** Lists sorted by a strict order are equal when they have the same elements. *)
Lemma StronglySorted_ext {A} (R : relation A) `{!StrictOrder R} (l k : list A) :
  StronglySorted R l -> StronglySorted R k -> (forall x, x ∈ l <-> x ∈ k) -> l = k.
Proof.
  revert k. induction l as [|x l IH]; intros k Hl Hk Hlk.
  { destruct k as [|y k]; [done|]. by destruct (not_elem_of_nil y); apply Hlk; left. }
  destruct k as [|y k].
  { by destruct (not_elem_of_nil x); apply Hlk; left. }
  inversion Hl as [|? ? Hl' Hx]; subst. inversion Hk as [|? ? Hk' Hy]; subst.
  rewrite Forall_forall in Hx, Hy.
  assert (x = y) as ->.
  { assert (x ∈ y :: k) as [|H1]%elem_of_cons by (apply Hlk; left); [done|].
    assert (y ∈ x :: l) as [|H2]%elem_of_cons by (apply Hlk; left); [done|].
    exfalso. eapply (irreflexivity R x). etrans; [apply Hx, H2 | apply Hy, H1]. }
  f_equal. apply IH; [done | done |]. intros z. split; intros Hz.
  - assert (z ∈ y :: k) as [->|]%elem_of_cons by (apply Hlk; by right); [|done].
    exfalso. by eapply (irreflexivity R y), Hx.
  - assert (z ∈ y :: l) as [->|]%elem_of_cons by (apply Hlk; by right); [|done].
    exfalso. by eapply (irreflexivity R y), Hy.
Qed.

(** ** Sums over finite maps *)

Section map_sum.
Context {K V : Type} `{Countable K}.
Implicit Types (f : K -> V -> Z) (m : gmap K V).

Definition map_sum f m : Z := map_fold (fun k x n => f k x + n) 0 m.

Lemma map_sum_empty f : map_sum f ∅ = 0.
Proof. apply map_fold_empty. Qed.

Lemma map_sum_insert_new f m k x :
  m !! k = None -> map_sum f (<[k := x]> m) = f k x + map_sum f m.
Proof. intros Hk. unfold map_sum. rewrite map_fold_insert_L; [done | lia | done]. Qed.

Lemma map_sum_delete f m k x :
  m !! k = Some x -> map_sum f m = f k x + map_sum f (delete k m).
Proof.
  intros Hk. rewrite <- (insert_delete_id m k x Hk) at 1.
  apply map_sum_insert_new, lookup_delete_eq.
Qed.

Lemma map_sum_insert f m k x : map_sum f (<[k := x]> m) = f k x + map_sum f (delete k m).
Proof. rewrite <- insert_delete_eq. apply map_sum_insert_new, lookup_delete_eq. Qed.

Lemma map_sum_insert_any f m k x :
  map_sum f (<[k := x]> m) = map_sum f m - match m !! k with Some y => f k y | None => 0 end + f k x.
Proof.
  destruct (m !! k) as [y|] eqn:Hk; [|rewrite map_sum_insert_new by done; lia].
  rewrite map_sum_insert, (map_sum_delete f m k y Hk). lia.
Qed.

(** Maps that agree wherever the measure is not zero have the same sum. *)
Lemma map_sum_ext_on f m m' :
  (forall k, m !! k = m' !! k \/
     (default 0 (f k <$> m !! k) = 0 /\ default 0 (f k <$> m' !! k) = 0)) ->
  map_sum f m = map_sum f m'.
Proof.
  revert m'. induction m as [|k x m Hk IH] using map_ind; intros m' Heq.
  - rewrite map_sum_empty. induction m' as [|k x m' Hk IH] using map_ind; [by rewrite map_sum_empty|].
    rewrite map_sum_insert_new by done. pose proof (Heq k) as Hx.
    rewrite lookup_empty, lookup_insert_eq in Hx. cbn in Hx. destruct Hx as [?|[_ Hx]]; [done|].
    rewrite Hx, <- IH; [done|]. intros k'. specialize (Heq k'). rewrite lookup_empty in *.
    destruct (decide (k = k')) as [<-|Hne]; [rewrite Hk; by left|]. by rewrite lookup_insert_ne in Heq.
  - rewrite map_sum_insert_new by done. pose proof (Heq k) as Hx. rewrite lookup_insert_eq in Hx. cbn in Hx.
    assert (forall k', m !! k' = delete k m' !! k' \/
      (default 0 (f k' <$> m !! k') = 0 /\ default 0 (f k' <$> delete k m' !! k') = 0)) as Hd.
    { intros k'. specialize (Heq k'). destruct (decide (k = k')) as [<-|Hne].
      - left. by rewrite Hk, lookup_delete_eq.
      - by rewrite lookup_insert_ne, lookup_delete_ne in *. }
    rewrite (IH _ Hd). destruct (m' !! k) as [y|] eqn:Ey.
    + rewrite (map_sum_delete f m' k y Ey). cbn in Hx. destruct Hx as [[= ->]|[-> ->]]; done.
    + cbn in Hx. destruct Hx as [?|[-> _]]; [done|]. by rewrite (delete_id m' k).
Qed.

(** Replacing a value changes the sum by the difference. *)
Lemma map_sum_replace f m k x y :
  m !! k = Some x -> map_sum f (<[k := y]> m) = map_sum f m - f k x + f k y.
Proof. intros Hk. rewrite map_sum_insert, (map_sum_delete f m k x Hk). lia. Qed.

Lemma map_sum_nonneg f m : (forall k x, 0 <= f k x) -> 0 <= map_sum f m.
Proof.
  intros Hf. induction m as [|k x m Hk IH] using map_ind; [by rewrite map_sum_empty|].
  rewrite map_sum_insert_new by done. specialize (Hf k x). lia.
Qed.

End map_sum.
