(* ===== verification/GoStrings.v ===== *)
(** * Byte strings and the parts of Go's standard library the agent uses on them

    Go strings and [[]byte] values are Rocq [string]s, one [ascii] per byte, so
    literals read as in the source.  This file models the functions of packages
    strings, bytes, strconv, unicode and encoding/binary that the modelled code
    calls, with the lemmas its components share.

    The Unicode predicates are decided on the bytes: the lead bytes of the UTF-8
    encodings of white space and control characters (C2, E1, E2, E3) and the
    ASCII bytes are never continuation bytes, so an occurrence of an encoding in
    a byte string is always decoded as that rune, whatever surrounds it. *)

From stdpp Require Export pretty.
From S2P Require Import Prelude.

(** ** Bytes *)

Definition byte_of (c : Ascii.ascii) : Z := Z.of_N (Ascii.N_of_ascii c).
Definition chr (z : Z) : Ascii.ascii := Ascii.ascii_of_N (Z.to_N (wrap 8 z)).
Definition str1 (z : Z) : string := String (chr z) "".

Definition str_len (s : string) : Z := Z.of_nat (String.length s).

Fixpoint str_drop (n : nat) (s : string) : string :=
  match n, s with
  | O, _ => s
  | S n, String _ s => str_drop n s
  | S _, EmptyString => EmptyString
  end.

Fixpoint str_take (n : nat) (s : string) : string :=
  match n, s with
  | S n, String c s => String c (str_take n s)
  | _, _ => EmptyString
  end.

(** The byte at an index; [None] where Go's index expression panics. *)
Definition byte_at (i : nat) (s : string) : option Z := byte_of <$> String.get i s.

(** The bytes of a string as numbers, and back. *)
Definition bytes_of (s : string) : list Z := byte_of <$> String.list_ascii_of_string s.
Definition of_bytes (l : list Z) : string := String.string_of_list_ascii (chr <$> l).

(** ** Prefixes, suffixes and substrings *)

(** [strings.HasPrefix] and [bytes.HasPrefix]. *)
Definition has_prefix (p s : string) : bool := String.prefix p s.

(** [strings.HasSuffix]. *)
Definition has_suffix (p s : string) : bool :=
  (String.length p <=? String.length s)%nat &&
  String.eqb (str_drop (String.length s - String.length p) s) p.

(** [strings.TrimSuffix] and [strings.TrimPrefix]. *)
Definition trim_suffix (p s : string) : string :=
  if has_suffix p s then str_take (String.length s - String.length p) s else s.
Definition trim_prefix (p s : string) : string :=
  if has_prefix p s then str_drop (String.length p) s else s.

(** The first occurrence of [sep], as the parts before and after it. *)
Fixpoint cut_at (sep s : string) : option (string * string) :=
  if String.prefix sep s then Some ("", str_drop (String.length sep) s)
  else match s with
       | EmptyString => None
       | String c s' =>
           match cut_at sep s' with
           | Some (a, b) => Some (String c a, b)
           | None => None
           end
       end.

(** [strings.Cut] and [bytes.Cut]: (before, after, found). *)
Definition cut (sep s : string) : string * string * bool :=
  match cut_at sep s with
  | Some (a, b) => (a, b, true)
  | None => (s, "", false)
  end.

(** [strings.Contains]. *)
Definition contains (sub s : string) : bool :=
  match cut_at sub s with Some _ => true | None => false end.

(** [strings.SplitN] with [n >= 1] pieces at most and a non-empty separator. *)
Fixpoint split_n (n : nat) (sep s : string) : list string :=
  match n with
  | O => [s]
  | S O => [s]
  | S n => match cut_at sep s with
           | Some (a, b) => a :: split_n n sep b
           | None => [s]
           end
  end.

(** [strings.Split] with a non-empty separator: no more pieces than bytes, plus one. *)
Definition split (sep s : string) : list string := split_n (S (String.length s)) sep s.

(** [strings.Join]. *)
Fixpoint join (sep : string) (l : list string) : string :=
  match l with
  | [] => ""
  | [s] => s
  | s :: l => s +:+ sep +:+ join sep l
  end.

(** [strings.TrimLeft] and [TrimRight] of slashes. *)
Fixpoint trim_left_slashes (s : string) : string :=
  match s with String c r => if byte_of c =? 47 then trim_left_slashes r else s | "" => "" end.
Definition trim_right_slashes (s : string) : string :=
  String.string_of_list_ascii (reverse (String.list_ascii_of_string
    (trim_left_slashes (String.string_of_list_ascii (reverse (String.list_ascii_of_string s)))))).

(** ** White space and control characters *)

(** The UTF-8 encodings of the runes for which [unicode.IsSpace] holds. *)
Definition space_encodings : list string :=
  (of_bytes <$>
   [[9]; [10]; [11]; [12]; [13]; [32]; [194; 133]; [194; 160]; [225; 154; 128]] ++
   ((fun k => [226; 128; 128 + k]) <$> seqZ 0 11) ++
   [[226; 128; 168]; [226; 128; 169]; [226; 128; 175]; [226; 129; 159]; [227; 128; 128]])%list.

(** The length of the white-space encoding in [encs] a string starts with. *)
Fixpoint space_len (encs : list string) (s : string) : nat :=
  match encs with
  | [] => O
  | e :: encs => if String.prefix e s then String.length e else space_len encs s
  end.

Fixpoint trim_left_with (encs : list string) (fuel : nat) (s : string) : string :=
  match fuel with
  | O => s
  | S fuel => match space_len encs s with
              | O => s
              | n => trim_left_with encs fuel (str_drop n s)
              end
  end.

Definition str_rev (s : string) : string :=
  String.string_of_list_ascii (reverse (String.list_ascii_of_string s)).

Definition trim_left_space (s : string) : string :=
  trim_left_with space_encodings (String.length s) s.
Definition trim_right_space (s : string) : string :=
  str_rev (trim_left_with (str_rev <$> space_encodings) (String.length s) (str_rev s)).

(** [strings.TrimSpace] and [bytes.TrimSpace]. *)
Definition trim_space (s : string) : string := trim_right_space (trim_left_space s).

(** Splits at white space; [acc] holds the bytes of the current field, reversed. *)
Fixpoint fields_go (fuel : nat) (acc s : string) : list string :=
  let flush := if String.eqb acc "" then [] else [str_rev acc] in
  match fuel with
  | O => flush
  | S fuel =>
      match s with
      | EmptyString => flush
      | String c s' =>
          match space_len space_encodings s with
          | O => fields_go fuel (String c acc) s'
          | n => (flush ++ fields_go fuel "" (str_drop n s))%list
          end
      end
  end.

(** [strings.Fields]. *)
Definition fields (s : string) : list string := fields_go (S (String.length s)) "" s.

(** [strings.IndexFunc(s, unicode.IsControl) >= 0]: an ASCII control byte, or the
    encoding C2 80 .. C2 9F of a C1 control. *)
Fixpoint has_control (s : string) : bool :=
  match s with
  | EmptyString => false
  | String c s' =>
      (byte_of c <? 32) || (byte_of c =? 127) ||
      ((byte_of c =? 194) &&
       match s' with
       | String d _ => (128 <=? byte_of d) && (byte_of d <=? 159)
       | EmptyString => false
       end) || has_control s'
  end.

(** ** ASCII case *)

Definition is_ascii (s : string) : bool := forallb (fun z => z <? 128) (bytes_of s).
Definition lower_byte (z : Z) : Z := if (65 <=? z) && (z <=? 90) then z + 32 else z.
Definition upper_byte (z : Z) : Z := if (97 <=? z) && (z <=? 122) then z - 32 else z.

Fixpoint map_bytes (f : Z -> Z) (s : string) : string :=
  match s with
  | EmptyString => EmptyString
  | String c s => String (chr (f (byte_of c))) (map_bytes f s)
  end.

(** ** Decimal numbers *)

Definition is_digit (z : Z) : bool := (48 <=? z) && (z <=? 57).

(** The value of a string of decimal digits; [None] on any other byte. *)
Fixpoint digits_value (acc : Z) (s : string) : option Z :=
  match s with
  | EmptyString => Some acc
  | String c s => if is_digit (byte_of c) then digits_value (10 * acc + (byte_of c - 48)) s
                  else None
  end.

(** [strconv.ParseUint(s, 10, bits)]; [None] is a syntax or range error. *)
Definition parse_uint (bits : Z) (s : string) : option Z :=
  if String.eqb s "" then None
  else match digits_value 0 s with
       | Some v => if v <? 2 ^ bits then Some v else None
       | None => None
       end.

(** [strconv.Atoi] (and [ParseInt] in base 10) at 64 bits. *)
Definition atoi (s : string) : option Z :=
  let '(neg, d) := match s with
                   | String c s' => if byte_of c =? 45 then (true, s')
                                    else if byte_of c =? 43 then (false, s') else (false, s)
                   | EmptyString => (false, s)
                   end in
  if String.eqb d "" then None
  else match digits_value 0 d with
       | Some v => if neg then if v <=? 2 ^ 63 then Some (- v) else None
                   else if v <? 2 ^ 63 then Some v else None
       | None => None
       end.

(** The first result of [strconv.Atoi] whatever its error: zero when the syntax is
    wrong, the nearest bound when the value is out of range. *)
Definition atoi_value (s : string) : Z :=
  let '(neg, d) := match s with
                   | String c s' => if byte_of c =? 45 then (true, s')
                                    else if byte_of c =? 43 then (false, s') else (false, s)
                   | EmptyString => (false, s)
                   end in
  if String.eqb d "" then 0
  else match digits_value 0 d with
       | Some v => Z.max min_i64 (Z.min max_i64 (if neg then - v else v))
       | None => 0
       end.

(** [strconv.Itoa] and [strconv.FormatUint(_, 10)]. *)
Definition itoa (z : Z) : string := pretty z.

(** ** encoding/binary *)

(** The big-endian value of a list of bytes. *)
Fixpoint be_value (acc : Z) (l : list Z) : Z :=
  match l with
  | [] => acc
  | b :: l => be_value (256 * acc + b) l
  end.

(** The [n] low bytes of [z], most significant first. *)
Fixpoint be_bytes (n : nat) (z : Z) : list Z :=
  match n with
  | O => []
  | S n => (z / 256 ^ Z.of_nat n) mod 256 :: be_bytes n z
  end.

(** [binary.BigEndian.Uint32(s[i:])] and [binary.LittleEndian.Uint32(s[i:])];
    [None] where the slice is too short and Go panics. *)
Definition be_uint32 (i : nat) (s : string) : option Z :=
  let l := bytes_of (str_take 4 (str_drop i s)) in
  if (length l =? 4)%nat then Some (be_value 0 l) else None.
Definition le_uint32 (i : nat) (s : string) : option Z :=
  let l := bytes_of (str_take 4 (str_drop i s)) in
  if (length l =? 4)%nat then Some (be_value 0 (reverse l)) else None.

(** ** Lemmas *)

Lemma byte_of_range c : 0 <= byte_of c < 256.
Proof.
  unfold byte_of. pose proof (Ascii.N_ascii_bounded c). lia.
Qed.

Lemma chr_byte_of c : chr (byte_of c) = c.
Proof.
  unfold chr. rewrite wrap_small by apply byte_of_range.
  unfold byte_of. rewrite N2Z.id. apply Ascii.ascii_N_embedding.
Qed.

Lemma byte_of_chr z : byte_of (chr z) = wrap 8 z.
Proof.
  unfold byte_of, chr. pose proof (wrap_range 8 z ltac:(lia)).
  rewrite Ascii.N_ascii_embedding by lia. lia.
Qed.

Lemma of_bytes_of s : of_bytes (bytes_of s) = s.
Proof.
  unfold of_bytes, bytes_of. rewrite <- list_fmap_compose.
  rewrite (list_fmap_ext _ id) by (intros; apply chr_byte_of).
  by rewrite list_fmap_id, String.string_of_list_ascii_of_string.
Qed.

Lemma bytes_of_bytes l : Forall (fun z => 0 <= z < 256) l -> bytes_of (of_bytes l) = l.
Proof.
  intros H. unfold of_bytes, bytes_of. rewrite String.list_ascii_of_string_of_list_ascii.
  rewrite <- list_fmap_compose.
  induction H as [|z l Hz Hl IH]; cbn; [done|]. rewrite IH. f_equal.
  rewrite byte_of_chr. by apply wrap_small.
Qed.

Lemma str_app_nil_l s : "" +:+ s = s.
Proof. done. Qed.

Lemma str_app_cons c s t : String c s +:+ t = String c (s +:+ t).
Proof. done. Qed.

Ltac str_simpl := rewrite ?str_app_nil_l, ?str_app_cons in *.

Lemma str_app_nil_r s : s +:+ "" = s.
Proof. induction s as [|c s IH]; [done|]. by rewrite str_app_cons, IH. Qed.

Lemma str_app_assoc s t u : (s +:+ t) +:+ u = s +:+ (t +:+ u).
Proof. induction s as [|c s IH]; [done|]. by rewrite !str_app_cons, IH. Qed.

Lemma str_length_app s t : String.length (s +:+ t) = (String.length s + String.length t)%nat.
Proof. induction s as [|c s IH]; [done|]. rewrite str_app_cons; cbn. lia. Qed.

Lemma str_len_app s t : str_len (s +:+ t) = str_len s + str_len t.
Proof. unfold str_len. rewrite str_length_app. lia. Qed.

Lemma str_len_nonneg s : 0 <= str_len s.
Proof. unfold str_len. lia. Qed.

Lemma str_drop_app s t : str_drop (String.length s) (s +:+ t) = t.
Proof. induction s as [|c s IH]; [done|]. apply IH. Qed.

Lemma str_take_app s t : str_take (String.length s) (s +:+ t) = s.
Proof. induction s as [|c s IH]; rewrite ?str_app_cons; cbn; congruence. Qed.

Lemma str_take_drop n s : str_take n s +:+ str_drop n s = s.
Proof.
  revert s. induction n as [|n IH]; intros s; cbn; [done|].
  destruct s as [|c s]; [done|]. cbn. by rewrite str_app_cons, IH.
Qed.

Lemma str_length_take n s : String.length (str_take n s) = Nat.min n (String.length s).
Proof.
  revert s. induction n as [|n IH]; intros s; [done|].
  destruct s as [|c s]; cbn; [done|]. by rewrite IH.
Qed.

Lemma str_length_drop n s : String.length (str_drop n s) = (String.length s - n)%nat.
Proof.
  revert s. induction n as [|n IH]; intros s; cbn; [lia|].
  destruct s as [|c s]; cbn; [done|]. by rewrite IH.
Qed.

Lemma str_take_ge n s : (String.length s <= n)%nat -> str_take n s = s.
Proof.
  revert s. induction n as [|n IH]; intros s H; destruct s as [|c s]; cbn in *; try done; try lia.
  rewrite IH; [done | lia].
Qed.

Lemma prefix_app p s : String.prefix p (p +:+ s) = true.
Proof.
  induction p as [|c p IH]; [by destruct s|]. rewrite str_app_cons; cbn.
  destruct (Ascii.ascii_dec c c); [done | congruence].
Qed.

Lemma prefix_spec p s : String.prefix p s = true <-> exists t, s = p +:+ t.
Proof.
  split.
  - revert s. induction p as [|c p IH]; intros s H; [by exists s|].
    destruct s as [|d s]; cbn in H; [done|].
    destruct (Ascii.ascii_dec c d) as [<-|]; [|done].
    apply IH in H as [t ->]. by exists t.
  - intros [t ->]. apply prefix_app.
Qed.

Lemma prefix_drop p s : String.prefix p s = true -> s = p +:+ str_drop (String.length p) s.
Proof. intros [t ->]%prefix_spec. by rewrite str_drop_app. Qed.

(** A cut finds the separator, and only splits the string. *)
Lemma cut_at_Some sep s a b : cut_at sep s = Some (a, b) -> s = a +:+ sep +:+ b.
Proof.
  revert a. induction s as [|c s IH]; intros a; cbn [cut_at].
  - destruct (String.prefix sep "") eqn:E; [|done].
    intros [= <- <-]. by apply prefix_drop.
  - destruct (String.prefix sep (String c s)) eqn:E.
    + intros [= <- <-]. by apply prefix_drop.
    + destruct (cut_at sep s) as [[a' b']|]; [|done].
      intros [= <- <-]. rewrite str_app_cons. f_equal. by apply IH.
Qed.

Lemma cut_at_length sep s a b :
  cut_at sep s = Some (a, b) ->
  String.length s = (String.length a + String.length sep + String.length b)%nat.
Proof. intros ->%cut_at_Some. rewrite !str_length_app. lia. Qed.

(** A one-byte separator: the equation of [cut_at], and the first occurrence in [a ++ sep ++ b] is the one
    after [a] when [a] does not hold the byte. *)
Lemma cut_at_char_cons c d s :
  cut_at (String c "") (String d s) =
  if Ascii.ascii_dec c d then Some ("", s)
  else match cut_at (String c "") s with
       | Some (a, b) => Some (String d a, b)
       | None => None
       end.
Proof.
  cbn. destruct (Ascii.ascii_dec c d); [|done]. by destruct s.
Qed.

Lemma cut_at_app_char c a b :
  contains (String c "") a = false ->
  cut_at (String c "") (a +:+ String c b) = Some (a, b).
Proof.
  unfold contains. induction a as [|d a IH]; intros H.
  - rewrite str_app_nil_l, cut_at_char_cons. by destruct (Ascii.ascii_dec c c).
  - rewrite str_app_cons. rewrite cut_at_char_cons in *.
    destruct (Ascii.ascii_dec c d); [done|].
    rewrite IH; [done|]. by destruct (cut_at (String c "") a) as [[]|].
Qed.

Lemma be_value_bound acc l n :
  Forall (fun z => 0 <= z < 256) l -> 0 <= acc < 256 ^ n -> 0 <= n ->
  0 <= be_value acc l < 256 ^ (n + Z.of_nat (length l)).
Proof.
  intros H. revert acc n. induction H as [|b l Hb Hl IH]; intros acc n Ha Hn; cbn [be_value length].
  - by rewrite Z.add_0_r.
  - assert (0 <= 256 * acc + b < 256 ^ (n + 1)) as Hacc.
    { rewrite Z.pow_add_r by lia. nia. }
    specialize (IH _ (n + 1) Hacc ltac:(lia)).
    replace (n + Z.of_nat (S (length l))) with (n + 1 + Z.of_nat (length l)) by lia. done.
Qed.

Lemma be_bytes_length n z : length (be_bytes n z) = n.
Proof. induction n; cbn; congruence. Qed.

Lemma be_bytes_range n z : Forall (fun b => 0 <= b < 256) (be_bytes n z).
Proof.
  induction n; cbn; constructor; [|done]. apply Z.mod_pos_bound. lia.
Qed.

Lemma be_value_bytes n z acc :
  be_value acc (be_bytes n z) = acc * 256 ^ Z.of_nat n + z mod 256 ^ Z.of_nat n.
Proof.
  revert acc. induction n as [|n IH]; intros acc; cbn [be_bytes be_value].
  - cbn. rewrite Z.mod_1_r. lia.
  - rewrite IH. replace (Z.of_nat (S n)) with (Z.of_nat n + 1) by lia.
    rewrite Z.pow_add_r, Z.pow_1_r by lia.
    rewrite (Z.rem_mul_r z (256 ^ Z.of_nat n) 256) by lia. lia.
Qed.
