(* ===== verification/Breaker.v ===== *)
(** * The circuit breaker of a check (internal/checks/circuit_breaker.go)

    [Breaker] holds the breaker's two atomics and its three methods; [allow] is
    given both as one call and as the sequence of atomic accesses it performs, so
    that concurrent callers can interleave between the loads and the
    compare-and-swap. *)

From S2P Require Import Prelude.

Module Breaker.

(** The shortest gap between probe runs. *)
Definition circuitBreakCooldownFloor : Z := minute.

(** Number of consecutive errors before a check is circuit-broken. *)
Definition circuitBreakThreshold : Z := 5.

Record circuitBreaker := mk_breaker {
  threshold : Z;       (* int32 *)
  cooldown : Z;        (* time.Duration *)
  errors : Z;          (* atomic.Int32 *)
  lastAttempt : Z;     (* atomic.Int64, unix nanoseconds *)
}.

Definition newCircuitBreaker (threshold interval : Z) : circuitBreaker :=
  let cooldown := interval in
  let cooldown := if cooldown <? circuitBreakCooldownFloor
                  then circuitBreakCooldownFloor else cooldown in
  mk_breaker threshold cooldown 0 0.

Definition set_errors (n : Z) (b : circuitBreaker) : circuitBreaker :=
  mk_breaker (threshold b) (cooldown b) n (lastAttempt b).
Definition set_lastAttempt (t : Z) (b : circuitBreaker) : circuitBreaker :=
  mk_breaker (threshold b) (cooldown b) (errors b) t.

(** Whether a probe is refused because the last attempt is too recent; the
    difference is an [int64] subtraction. *)
Definition too_soon (b : circuitBreaker) (last now : Z) : bool :=
  i64 (now - last) <? cooldown b.

(** [CompareAndSwap(last, now)] on [lastAttempt]. *)
Definition compareAndSwap (last now : Z) (b : circuitBreaker) : bool * circuitBreaker :=
  if lastAttempt b =? last then (true, set_lastAttempt now b) else (false, b).

(** One uninterrupted call of [allow]. *)
Definition allow (now : Z) (b : circuitBreaker) : bool * circuitBreaker :=
  if errors b <? threshold b then (true, b)
  else
    let last := lastAttempt b in
    if too_soon b last now then (false, b)
    else compareAndSwap last now b.

Definition failure (now : Z) (b : circuitBreaker) : Z * circuitBreaker :=
  let b := set_lastAttempt now b in
  let n := i32 (errors b + 1) in
  (n, set_errors n b).

Definition success (b : circuitBreaker) : bool * circuitBreaker :=
  (threshold b <=? errors b, set_errors 0 b).

Definition is_open (b : circuitBreaker) : bool := threshold b <=? errors b.

(** ** Runs of a check: sequences of attempts *)

(** What one tick of a check does with the breaker: skipped by [allow], or run
    and failed, or run and succeeded. *)
Inductive outcome := Skipped | Failed | Succeeded.

(** One tick at time [now]; [good] is whether the run, if it is started,
    succeeds. *)
Definition tick (now : Z) (good : bool) (b : circuitBreaker) : outcome * circuitBreaker :=
  let '(ok, b) := allow now b in
  if ok then
    if good then (Succeeded, (success b).2) else (Failed, (failure now b).2)
  else (Skipped, b).

Fixpoint ticks (l : list (Z * bool)) (b : circuitBreaker) : list outcome * circuitBreaker :=
  match l with
  | [] => ([], b)
  | (now, good) :: l =>
      let '(o, b) := tick now good b in
      let '(os, b) := ticks l b in
      (o :: os, b)
  end.

(** ** Interleaved calls of [allow]

    The program counter of a goroutine inside [allow]: it has not started, it
    has read [lastAttempt], or it has returned. *)
Inductive pc :=
  | AtStart (now : Z)
  | HasRead (now last : Z)
  | Returned (admitted : bool).

(** One atomic access of one goroutine.  The second component tells whether
    the access is a successful swap, and at which time. *)
Definition step1 (b : circuitBreaker) (p : pc) : circuitBreaker * pc * option Z :=
  match p with
  | AtStart now =>
      if errors b <? threshold b then (b, Returned true, None)
      else
        let last := lastAttempt b in
        if too_soon b last now then (b, Returned false, None)
        else (b, HasRead now last, None)
  | HasRead now last =>
      let '(ok, b) := compareAndSwap last now b in
      (b, Returned ok, if ok then Some now else None)
  | Returned r => (b, Returned r, None)
  end.

(** The state of the breaker shared by numbered goroutines, with the times of
    the probes admitted so far, the latest first. *)
Record shared := mk_shared {
  brk : circuitBreaker;
  pcs : gmap nat pc;
  admitted : list Z;
}.

Inductive astep : shared -> shared -> Prop :=
  | astep_call s g now :
      pcs s !! g = None ->
      astep s (mk_shared (brk s) (<[g := AtStart now]> (pcs s)) (admitted s))
  | astep_access s g p b' p' adm :
      pcs s !! g = Some p ->
      step1 (brk s) p = (b', p', adm) ->
      astep s (mk_shared b' (<[g := p']> (pcs s))
                 (match adm with Some t => t :: admitted s | None => admitted s end)).

(** Consecutive elements, latest first, are at least [d] apart (as the [int64]
    difference the code computes). *)
Fixpoint spaced (d : Z) (l : list Z) : Prop :=
  match l with
  | t :: ((u :: _) as l') => d <= i64 (t - u) /\ spaced d l'
  | _ => True
  end.

(** ** Lemmas *)

Lemma allow_closed now b : errors b < threshold b -> allow now b = (true, b).
Proof. intros H. unfold allow. by rewrite (proj2 (Z.ltb_lt _ _) H). Qed.

Lemma allow_open now b :
  threshold b <= errors b ->
  allow now b = if i64 (now - lastAttempt b) <? cooldown b then (false, b)
                else (true, set_lastAttempt now b).
Proof.
  intros H. unfold allow, too_soon, compareAndSwap.
  rewrite (proj2 (Z.ltb_ge _ _) H), Z.eqb_refl. done.
Qed.

Lemma new_cooldown_floor thr i :
  circuitBreakCooldownFloor <= cooldown (newCircuitBreaker thr i).
Proof. unfold newCircuitBreaker; cbn. case_match; lia. Qed.

(** The invariant of interleaved calls while the breaker is open and nothing is
    reported: a pending swap carries a value that was too old for its caller. *)
Definition open_inv (thr cd last0 : Z) (s : shared) : Prop :=
  threshold (brk s) = thr /\ cooldown (brk s) = cd /\
  threshold (brk s) <= errors (brk s) /\
  lastAttempt (brk s) = default last0 (head (admitted s)) /\
  spaced cd (admitted s ++ [last0]) /\
  (forall g now last, pcs s !! g = Some (HasRead now last) -> cd <= i64 (now - last)).

Lemma open_inv_step thr cd last0 s s' :
  open_inv thr cd last0 s -> astep s s' -> open_inv thr cd last0 s'.
Proof.
  intros (Ht & Hc & Ho & Hl & Hs & Hp) Hstep.
  destruct Hstep as [s g now Hg | s g p b' p' adm Hg Hst].
  - repeat split; try done; cbn. intros g' now' last'.
    rewrite lookup_insert. case_decide; [done | apply Hp].
  - destruct p as [now | now last | r]; cbn in Hst.
    + rewrite (proj2 (Z.ltb_ge _ _) Ho) in Hst. unfold too_soon in Hst.
      case_match eqn:E; simplify_eq/=; repeat split; try done; cbn;
        intros g' now' last'; rewrite lookup_insert; case_decide; try apply Hp; try done.
      intros [= <- <-]. apply Z.ltb_ge in E. lia.
    + unfold compareAndSwap in Hst.
      destruct (lastAttempt (brk s) =? last) eqn:E; simplify_eq/=.
      * apply Z.eqb_eq in E. specialize (Hp _ _ _ Hg) as Hgap.
        repeat split; try done; cbn.
        -- rewrite Hl in E. destruct (admitted s) as [|u l]; cbn in *; [by subst|].
           split; [by subst | done].
        -- intros g' now' last'. rewrite lookup_insert. case_decide; [done | apply Hp].
      * repeat split; try done; cbn. intros g' now' last'.
        rewrite lookup_insert. case_decide; [done | apply Hp].
    + simplify_eq/=. repeat split; try done; cbn. intros g' now' last'.
      rewrite lookup_insert. case_decide; [done | apply Hp].
Qed.

Lemma open_inv_steps thr cd last0 s s' :
  open_inv thr cd last0 s -> rtc astep s s' -> open_inv thr cd last0 s'.
Proof. intros Hi Hr. induction Hr; eauto using open_inv_step. Qed.

(** Failing ticks of a closed breaker are all run, and counted. *)
Lemma failing_ticks l b :
  0 <= errors b -> errors b + Z.of_nat (length l) <= threshold b ->
  threshold b <= 2 ^ 31 - 1 ->
  Forall (fun x => x.2 = false) l ->
  (ticks l b).1 = replicate (length l) Failed /\
  errors (ticks l b).2 = errors b + Z.of_nat (length l) /\
  threshold (ticks l b).2 = threshold b.
Proof.
  revert b. induction l as [|[now good] l IH]; intros b H0 Hlen Hthr Hall; cbn.
  { split_and!; [done | lia | done]. }
  inversion Hall as [|? ? Hg Hall']; subst; cbn in Hg; subst good.
  cbn [length] in Hlen. unfold tick. rewrite allow_closed by lia. cbn.
  assert (i32 (errors b + 1) = errors b + 1) as E by (apply i32_small; unfold in_i32; lia).
  rewrite E. set (b' := set_errors _ _).
  destruct (ticks l b') as [os b''] eqn:Et.
  specialize (IH b' ltac:(cbn; lia) ltac:(cbn; lia) Hthr Hall').
  rewrite Et in IH. cbn in *. destruct IH as (-> & He & Hth).
  split_and!; [done | lia | done].
Qed.

(** ** Properties *)

(** A check that fails [threshold] times in a row is run each of those times
    and then has its breaker open; while it is open, a tick less than one
    cooldown after the last attempt is skipped and changes nothing, a tick after
    the cooldown is run, and a run that succeeds closes the breaker. *)
Theorem breaker_opens_and_recovers (thr interval : Z) (l : list (Z * bool)) (now : Z) :
  0 < thr <= 2 ^ 31 - 1 ->
  Z.of_nat (length l) = thr ->
  Forall (fun x => x.2 = false) l ->
  let '(os, b) := ticks l (newCircuitBreaker thr interval) in
  os = replicate (length l) Failed /\
  is_open b = true /\
  (i64 (now - lastAttempt b) < cooldown b -> forall good, tick now good b = (Skipped, b)) /\
  (cooldown b <= i64 (now - lastAttempt b) ->
     (tick now false b).1 = Failed /\ (tick now true b).1 = Succeeded /\
     is_open (tick now true b).2 = false).
Proof.
  intros Hthr Hlen Hall.
  pose proof (failing_ticks l (newCircuitBreaker thr interval)) as H.
  destruct (ticks l _) as [os b]. cbn in H.
  destruct H as (-> & He & Ht); try done; try lia.
  assert (is_open b = true) as Ho by (unfold is_open; apply Z.leb_le; lia).
  split_and!; try done.
  - intros Hsoon good. unfold tick. rewrite allow_open by lia.
    by rewrite (proj2 (Z.ltb_lt _ _) Hsoon).
  - intros Hlate. unfold tick. rewrite allow_open by lia.
    rewrite (proj2 (Z.ltb_ge _ _) Hlate). cbn. unfold is_open; cbn.
    split_and!; try done. apply Z.leb_gt. lia.
Qed.

Lemma breaker_opens_and_recovers_witness :
  let l := replicate 5 (7, false) in
  let '(os, b) := ticks l (newCircuitBreaker 5 second) in
  os = replicate (length l) Failed /\
  is_open b = true /\
  (i64 (8 - lastAttempt b) < cooldown b -> forall good, tick 8 good b = (Skipped, b)) /\
  (cooldown b <= i64 (8 - lastAttempt b) ->
     (tick 8 false b).1 = Failed /\ (tick 8 true b).1 = Succeeded /\
     is_open (tick 8 true b).2 = false).
Proof.
  apply (breaker_opens_and_recovers 5 second (replicate 5 (7, false)) 8).
  - lia.
  - reflexivity.
  - repeat constructor.
Defined.

(** However concurrent calls of [allow] interleave on an open breaker, and
    as long as no run reports its result, the probes that are admitted are at
    least one cooldown apart, the first of them from the last recorded attempt. *)
Theorem breaker_probes_spaced (b : circuitBreaker) (s : shared) :
  threshold b <= errors b ->
  rtc astep (mk_shared b ∅ []) s ->
  spaced (cooldown b) (admitted s ++ [lastAttempt b]).
Proof.
  intros Ho Hr.
  eapply (open_inv_steps (threshold b) (cooldown b) (lastAttempt b)) in Hr.
  - apply Hr.
  - by repeat split.
Qed.

(** Two goroutines that both read the old attempt: only one of them wins. *)
Definition race_start : shared :=
  mk_shared (mk_breaker 5 minute 5 0) ∅ [].
Definition race_end : shared :=
  mk_shared (mk_breaker 5 minute 5 (2 * minute))
    (<[2%nat := Returned false]> (<[1%nat := Returned true]>
      (<[2%nat := HasRead (2 * minute) 0]> (<[2%nat := AtStart (2 * minute)]>
      (<[1%nat := HasRead (2 * minute) 0]> (<[1%nat := AtStart (2 * minute)]> ∅))))))
    [2 * minute].

Lemma breaker_probes_spaced_witness :
  rtc astep race_start race_end /\ spaced minute [2 * minute; 0].
Proof.
  assert (rtc astep race_start race_end) as Hr.
  { eapply rtc_l; [by apply (astep_call _ 1%nat (2 * minute))|].
    eapply rtc_l; [by eapply (astep_access _ 1%nat)|].
    eapply rtc_l; [by apply (astep_call _ 2%nat (2 * minute))|].
    eapply rtc_l; [by eapply (astep_access _ 2%nat)|].
    eapply rtc_l; [by eapply (astep_access _ 1%nat)|].
    eapply rtc_l; [by eapply (astep_access _ 2%nat)|]. apply rtc_refl. }
  split; [exact Hr|].
  exact (breaker_probes_spaced (mk_breaker 5 minute 5 0) race_end
           ltac:(cbn; lia) Hr).
Defined.

End Breaker.
