(* ===== verification/Bolt.v ===== *)
(** * The embedded key-value store the durable queues rely on

    internal/sendbuf keeps its queues in go.etcd.io/bbolt, which is not part of
    the repository.  [KV] is the interface of a bucket as the queue uses it, and
    [KVLaws] the documented behaviour the queue relies on: byte-ordered keys, and
    puts and deletes that only touch their key.  [Bolt] adds the transactions: a
    read-write transaction either commits as a whole or leaves the database as it
    was, and the environment decides which ([io]).  [MemKV] is an implementation
    that satisfies the laws, used by the witnesses. *)

From stdpp Require Import sorting.
From S2P Require Import Prelude GoStrings.
#[local] Open Scope Z_scope.

(** ** Byte order of strings *)

Fixpoint bytes_ltb (l k : list Z) : bool :=
  match l, k with
  | [], [] => false
  | [], _ :: _ => true
  | _ :: _, [] => false
  | a :: l, b :: k => (a <? b) || ((a =? b) && bytes_ltb l k)
  end.

Definition str_ltb (s t : string) : bool := bytes_ltb (bytes_of s) (bytes_of t).
Definition str_lt (s t : string) : Prop := str_ltb s t = true.
Definition str_le (s t : string) : Prop := str_ltb t s = false.

Lemma bytes_ltb_irrefl l : bytes_ltb l l = false.
Proof. induction l as [|a l IH]; cbn; [done|]. rewrite IH, Z.ltb_irrefl. by destruct (a =? a). Qed.

Lemma bytes_ltb_cons a l b k :
  bytes_ltb (a :: l) (b :: k) = true <-> a < b \/ (a = b /\ bytes_ltb l k = true).
Proof. cbn. rewrite orb_true_iff, andb_true_iff, Z.ltb_lt, Z.eqb_eq. done. Qed.

Lemma bytes_ltb_trans l k m :
  bytes_ltb l k = true -> bytes_ltb k m = true -> bytes_ltb l m = true.
Proof.
  revert k m. induction l as [|a l IH]; intros [|b k] [|c m]; try done.
  rewrite !bytes_ltb_cons. intros [?|[-> ?]] [?|[-> ?]]; try (left; lia).
  right. eauto.
Qed.

Lemma bytes_ltb_total l k : bytes_ltb l k = false -> bytes_ltb k l = false -> l = k.
Proof.
  revert k. induction l as [|a l IH]; intros [|b k]; try done. cbn.
  rewrite !orb_false_iff, !Z.ltb_ge. intros [? H1] [? H2].
  assert (a = b) as -> by lia. rewrite Z.eqb_refl in *. f_equal. by apply IH.
Qed.

Lemma bytes_of_inj s t : bytes_of s = bytes_of t -> s = t.
Proof. intros H. by rewrite <- (of_bytes_of s), H, of_bytes_of. Qed.

Lemma str_lt_irrefl s : ~ str_lt s s.
Proof. unfold str_lt, str_ltb. by rewrite bytes_ltb_irrefl. Qed.

#[export] Instance str_lt_trans : Transitive str_lt.
Proof. intros s t u. apply bytes_ltb_trans. Qed.

Lemma str_lt_le s t : str_lt s t -> str_le s t.
Proof.
  unfold str_le. intros H. destruct (str_ltb t s) eqn:E; [|done].
  exfalso. eapply str_lt_irrefl. etrans; [exact H | exact E].
Qed.

#[export] Instance str_le_dec : RelDecision str_le.
Proof. intros s t. apply bool_eq_dec. Defined.

Lemma str_lt_le_trans s t u : str_lt s t -> str_le t u -> str_lt s u.
Proof.
  intros Hst Htu. unfold str_lt. destruct (str_ltb s u) eqn:E; [done|]. exfalso.
  destruct (str_ltb u s) eqn:E1.
  - unfold str_le in Htu. assert (str_lt u t) as Hut by (etrans; [exact E1 | exact Hst]).
    unfold str_lt in Hut. congruence.
  - pose proof (bytes_of_inj _ _ (bytes_ltb_total _ _ E1 E)) as ->.
    unfold str_le, str_lt in *. congruence.
Qed.

#[export] Instance str_le_trans : Transitive str_le.
Proof.
  intros s t u Hst Htu. unfold str_le. destruct (str_ltb u s) eqn:E; [|done].
  pose proof (str_lt_le_trans u s t E Hst) as H. unfold str_lt, str_le in *. congruence.
Qed.

#[export] Instance str_le_total : Total str_le.
Proof.
  intros s t. unfold str_le. destruct (str_ltb t s) eqn:E; [right|by left].
  by apply str_lt_le.
Qed.

Lemma str_le_antisymm s t : str_le s t -> str_le t s -> s = t.
Proof. intros H1 H2. apply bytes_of_inj, bytes_ltb_total; done. Qed.

Lemma str_le_ne_lt s t : str_le s t -> s <> t -> str_lt s t.
Proof.
  intros Hle Hne. unfold str_lt. destruct (str_ltb s t) eqn:E; [done|].
  exfalso. apply Hne. by apply str_le_antisymm.
Qed.

#[export] Instance str_lt_strict : StrictOrder str_lt.
Proof. split; [intros s; apply str_lt_irrefl | apply str_lt_trans]. Qed.

(** ** Buckets *)

Class KV (B : Type) := {
  kv_empty : B;
  kv_get : B -> string -> option string;
  kv_put : string -> string -> B -> res B;
  kv_delete : string -> B -> res B;
  kv_entries : B -> list (string * string);    (* what a cursor walks, in order *)
}.

(** bbolt's MaxKeySize and MaxValueSize. *)
Definition max_key_size : Z := 32768.
Definition max_value_size : Z := 2 ^ 31 - 2.

Definition kv_valid (k v : string) : Prop :=
  0 < str_len k <= max_key_size /\ str_len v <= max_value_size.

Class KVLaws (B : Type) `{KV B} := {
  kv_get_empty k : kv_get kv_empty k = None;
  kv_put_total k v b : kv_valid k v -> exists b', kv_put k v b = Ok b';
  kv_get_put k v b b' k' :
    kv_put k v b = Ok b' -> kv_get b' k' = if decide (k = k') then Some v else kv_get b k';
  kv_delete_total k b : exists b', kv_delete k b = Ok b';
  kv_get_delete k b b' k' :
    kv_delete k b = Ok b' -> kv_get b' k' = if decide (k = k') then None else kv_get b k';
  kv_entries_get b k v : (k, v) ∈ kv_entries b <-> kv_get b k = Some v;
  kv_entries_sorted b : StronglySorted str_lt (kv_entries b).*1;
}.

(** [Cursor.First]. *)
Definition kv_first `{KV B} (b : B) : option (string * string) := head (kv_entries b).

(** ** Transactions *)

Section bolt.
Context {B : Type} `{KV B}.

(** The two buckets of a queue's database; [io] holds the outcomes of the
    transactions to come, chosen by the environment: [Some e] is a transaction
    that fails to begin or commit with [e], and a list that has run out means no
    more failures. *)
Record boltdb := mk_db {
  payloads : option B;
  meta : option B;
  io : list (option string);
}.

Definition set_payloads (b : B) (d : boltdb) : boltdb := mk_db (Some b) (meta d) (io d).
Definition set_meta (b : B) (d : boltdb) : boltdb := mk_db (payloads d) (Some b) (io d).

Definition begin_tx (d : boltdb) : option string * boltdb :=
  match io d with
  | [] => (None, d)
  | o :: l => (o, mk_db (payloads d) (meta d) l)
  end.

(** [DB.Update]: the effects of [f] are kept only when it returns no error and
    the transaction commits. *)
Definition db_update {A} (f : boltdb -> res (A * boltdb)) (d : boltdb) : res A * boltdb :=
  let '(o, d) := begin_tx d in
  match f d with
  | Err e => (Err e, d)
  | Ok (a, d') => match o with
                  | Some e => (Err e, d)
                  | None => (Ok a, d')
                  end
  end.

(** [DB.View]. *)
Definition db_view {A} (f : boltdb -> res A) (d : boltdb) : res A * boltdb :=
  let '(o, d) := begin_tx d in
  match o with
  | Some e => (Err e, d)
  | None => (f d, d)
  end.

(** The stored content, without the environment's choices. *)
Definition content (d : boltdb) : option B * option B := (payloads d, meta d).

Lemma begin_tx_content d : content (begin_tx d).2 = content d.
Proof. unfold begin_tx. by destruct (io d). Qed.

Lemma begin_tx_io d o d' :
  begin_tx d = (o, d') ->
  (io d = [] /\ o = None /\ d' = d) \/ (io d = o :: io d' /\ content d' = content d).
Proof. unfold begin_tx. destruct (io d) as [|o' l]; intros [= <- <-]; [by left | by right]. Qed.

(** A transaction that reports an error has not changed what is stored. *)
Lemma db_update_err {A} (f : boltdb -> res (A * boltdb)) d e d' :
  db_update f d = (Err e, d') -> content d' = content d.
Proof.
  unfold db_update. pose proof (begin_tx_content d) as Hc.
  destruct (begin_tx d) as [o d1]. cbn in Hc.
  destruct (f d1) as [[a d2]|?]; [destruct o|]; intros [= <- <-]; done.
Qed.

Lemma db_view_content {A} (f : boltdb -> res A) d r d' :
  db_view f d = (r, d') -> content d' = content d.
Proof.
  unfold db_view. pose proof (begin_tx_content d) as Hc.
  destruct (begin_tx d) as [o d1]. cbn in Hc. destruct o; by intros [= <- <-].
Qed.

End bolt.

Arguments boltdb : clear implicits.

(** ** Entries under puts and deletes *)

Section entries.
Context {B : Type} `{KVLaws B}.

Lemma kv_key_entries b k : k ∈ (kv_entries b).*1 <-> is_Some (kv_get b k).
Proof.
  rewrite list_elem_of_fmap. split.
  - intros ([k' v] & -> & Hin). apply kv_entries_get in Hin. by eexists.
  - intros [v Hv]. exists (k, v). split; [done|]. by apply kv_entries_get.
Qed.

Lemma sorted_keys_pairs (l : list (string * string)) :
  StronglySorted str_lt l.*1 -> StronglySorted (fun p q => str_lt p.1 q.1) l.
Proof.
  induction l as [|p l IH]; cbn; inversion 1 as [|? ? Hs Hall]; subst; constructor; [by apply IH|].
  rewrite Forall_fmap in Hall. exact Hall.
Qed.

#[local] Instance key_lt_strict : StrictOrder (fun p q : string * string => str_lt p.1 q.1).
Proof.
  split.
  - intros p. apply str_lt_irrefl.
  - intros p q r. apply str_lt_trans.
Qed.

(** Entries are determined by the lookups. *)
Lemma kv_entries_ext b (l : list (string * string)) :
  StronglySorted str_lt l.*1 ->
  (forall k v, (k, v) ∈ l <-> kv_get b k = Some v) ->
  kv_entries b = l.
Proof.
  intros Hs Hl. eapply (StronglySorted_ext (fun p q => str_lt p.1 q.1)).
  - apply sorted_keys_pairs, kv_entries_sorted.
  - by apply sorted_keys_pairs.
  - intros [k v]. by rewrite Hl, kv_entries_get.
Qed.

Lemma sorted_keys_app (l : list (string * string)) k v :
  StronglySorted str_lt l.*1 -> Forall (fun p => str_lt p.1 k) l ->
  StronglySorted str_lt (l ++ [(k, v)]).*1.
Proof.
  induction l as [|p l IH]; cbn; intros Hs Hall; [repeat constructor|].
  inversion Hs as [|? ? Hs' Hp]; subst. inversion Hall as [|? ? Hk Hall']; subst.
  constructor; [by apply IH|].
  rewrite fmap_app. apply Forall_app. split; [done|]. cbn. by constructor.
Qed.

(** A put under a key above all others appends an entry. *)
Lemma kv_entries_put_last b b' k v :
  kv_put k v b = Ok b' ->
  Forall (fun p => str_lt p.1 k) (kv_entries b) ->
  kv_entries b' = (kv_entries b ++ [(k, v)])%list.
Proof.
  intros Hput Hall. apply kv_entries_ext.
  - apply sorted_keys_app; [apply kv_entries_sorted | done].
  - intros k' v'. rewrite (kv_get_put _ _ _ _ k' Hput), elem_of_app, list_elem_of_singleton.
    rewrite kv_entries_get. case_decide as Hk; [subst k'|].
    + split; [|intros [= ->]; by right].
      intros [Hg|[= ->]]; [|done]. apply kv_entries_get in Hg.
      rewrite Forall_forall in Hall. apply Hall in Hg. by apply str_lt_irrefl in Hg.
    + split; [intros [?|[= ]]; [done | congruence] | by left].
Qed.

(** Deleting the first key removes the first entry. *)
Lemma kv_entries_delete_first b b' k v l :
  kv_entries b = (k, v) :: l -> kv_delete k b = Ok b' -> kv_entries b' = l.
Proof.
  intros Hb Hdel. pose proof (kv_entries_sorted b) as Hs. rewrite Hb in Hs. cbn in Hs.
  inversion Hs as [|? ? Hs' Hk]; subst. rewrite Forall_forall in Hk.
  apply kv_entries_ext; [done|]. intros k' v'.
  rewrite (kv_get_delete _ _ _ k' Hdel).
  case_decide as E; [subst k' | rewrite <- (kv_entries_get b), Hb, elem_of_cons].
  - split; [|done]. intros Hin. exfalso. apply (str_lt_irrefl k), Hk.
    apply list_elem_of_fmap. by exists (k, v').
  - split; [by right|]. intros [[= ? ?]|?]; [congruence | done].
Qed.

(** Puts and deletes of one key leave the lookups of others. *)
Lemma kv_get_put_ne k k' v b b' :
  kv_put k v b = Ok b' -> k <> k' -> kv_get b' k' = kv_get b k'.
Proof. intros Hp Hne. rewrite (kv_get_put _ _ _ _ k' Hp). by case_decide. Qed.

Lemma kv_get_put_eq k v b b' : kv_put k v b = Ok b' -> kv_get b' k = Some v.
Proof. intros Hp. rewrite (kv_get_put _ _ _ _ k Hp). by case_decide. Qed.

End entries.

(** ** An implementation of the interface: an association list *)

Module MemKV.

Definition key_le (p q : string * string) : Prop := str_le p.1 q.1.

#[export] Instance key_le_dec : RelDecision key_le.
Proof. intros p q. apply (str_le_dec p.1 q.1). Defined.
#[export] Instance key_le_total : Total key_le.
Proof. intros p q. apply (str_le_total p.1 q.1). Qed.
#[export] Instance key_le_trans : Transitive key_le.
Proof. intros p q r. apply (str_le_trans p.1 q.1 r.1). Qed.

(** A bucket is an association list in which the latest binding of a key counts. *)
Definition bucket : Type := list (string * string).

Fixpoint assoc (k : string) (b : bucket) : option string :=
  match b with
  | [] => None
  | (k', v) :: b => if String.eqb k' k then Some v else assoc k b
  end.

Fixpoint without (k : string) (b : bucket) : bucket :=
  match b with
  | [] => []
  | (k', v) :: b => if String.eqb k' k then without k b else (k', v) :: without k b
  end.

Definition mem_put (k v : string) (b : bucket) : res bucket :=
  if str_len k =? 0 then Err "key required"
  else if max_key_size <? str_len k then Err "key too large"
  else if max_value_size <? str_len v then Err "value too large"
  else Ok ((k, v) :: without k b).

(** The bindings that count, in no particular order. *)
Fixpoint bindings (b : bucket) : bucket :=
  match b with
  | [] => []
  | (k, v) :: b => (k, v) :: without k (bindings b)
  end.

#[export] Instance mem_kv : KV bucket := {
  kv_empty := [];
  kv_get b k := assoc k b;
  kv_put := mem_put;
  kv_delete k b := Ok (without k b);
  kv_entries b := merge_sort key_le (bindings b);
}.

Lemma assoc_without k b k' : assoc k' (without k b) = if decide (k = k') then None else assoc k' b.
Proof.
  induction b as [|[k1 v1] b IH]; cbn; [by case_decide|].
  destruct (String.eqb k1 k) eqn:E; cbn; rewrite IH.
  - apply String.eqb_eq in E as ->. case_decide; [done|]. by rewrite (proj2 (String.eqb_neq _ _)).
  - apply String.eqb_neq in E. case_decide; [subst|done].
    by rewrite (proj2 (String.eqb_neq _ _) E).
Qed.

Lemma elem_of_without k b e : e ∈ without k b <-> e ∈ b /\ e.1 <> k.
Proof.
  induction b as [|[k1 v1] b IH]; cbn; [split; [by intros ?%not_elem_of_nil | by intros [?%not_elem_of_nil _]]|].
  destruct (String.eqb k1 k) eqn:E; rewrite !elem_of_cons, ?IH.
  - apply String.eqb_eq in E as ->. split; [tauto|]. intros [[->|?] Hn]; [done | tauto].
  - apply String.eqb_neq in E. split; [|tauto]. intros [->|[? ?]]; [by split; [left|] | tauto].
Qed.

Lemma bindings_assoc b k v : (k, v) ∈ bindings b <-> assoc k b = Some v.
Proof.
  induction b as [|[k1 v1] b IH]; cbn; [set_solver|].
  rewrite elem_of_cons, elem_of_without, IH. cbn.
  destruct (String.eqb k1 k) eqn:E.
  - apply String.eqb_eq in E as ->. split; [|intros [= ->]; by left]. intros [[= ->]|[_ ?]]; done.
  - apply String.eqb_neq in E. split; [intros [[= ? ?]|[? _]]; [congruence | done]|].
    intros ?. right. split; [done | congruence].
Qed.

Lemma bindings_nodup b : NoDup (bindings b).*1.
Proof.
  assert (forall k l, NoDup l.*1 -> NoDup (without k l).*1) as Hw.
  { intros k l. induction l as [|[k1 v1] l IH]; cbn; [done|]. rewrite NoDup_cons. intros [Hn Hd].
    destruct (String.eqb k1 k); [auto|]. cbn. rewrite NoDup_cons. split; [|auto].
    rewrite list_elem_of_fmap. intros ([k2 v2] & -> & [Hin _]%elem_of_without).
    apply Hn. by apply (list_elem_of_fmap_2 fst l (k2, v2)). }
  induction b as [|[k v] b IH]; cbn; [constructor|]. rewrite NoDup_cons. split; [|auto].
  rewrite list_elem_of_fmap. intros ([k2 v2] & -> & [_ Hne]%elem_of_without). done.
Qed.

Lemma sorted_nodup_keys (l : bucket) :
  StronglySorted key_le l -> NoDup l.*1 -> StronglySorted str_lt l.*1.
Proof.
  induction l as [|p l IH]; cbn; inversion 1 as [|? ? Hs' Hp]; subst; [constructor|].
  rewrite NoDup_cons. intros [Hnin Hn]. constructor; [by apply IH|].
  rewrite Forall_fmap. rewrite Forall_forall in Hp |- *. intros q Hq. cbn.
  apply str_le_ne_lt; [by apply Hp|]. intros E. apply Hnin. rewrite E.
  by apply list_elem_of_fmap_2.
Qed.

#[export] Instance mem_kv_laws : KVLaws bucket.
Proof.
  constructor; cbn.
  - done.
  - intros k v b [[H0 H1] H2]. exists ((k, v) :: without k b). unfold mem_put.
    rewrite (proj2 (Z.eqb_neq _ _)), !(proj2 (Z.ltb_ge _ _)) by lia. done.
  - intros k v b b' k'. unfold mem_put. do 3 (case_match; [done|]). intros [= <-]. cbn.
    rewrite assoc_without. case_decide as E; [subst; by rewrite String.eqb_refl|].
    by rewrite (proj2 (String.eqb_neq _ _)).
  - eauto.
  - intros k b b' k' [= <-]. apply assoc_without.
  - intros b k v. rewrite (merge_sort_Permutation _ (bindings b)). apply bindings_assoc.
  - intros b. apply sorted_nodup_keys; [apply (StronglySorted_merge_sort key_le)|].
    rewrite (merge_sort_Permutation _ (bindings b)). apply bindings_nodup.
Qed.

End MemKV.
