(* ===== verification/SendQueue.v ===== *)
(** * The send queue (internal/sendbuf/sendbuf.go, durable.go, observability.go)

    An outbox of payloads that are retained until a POST is acknowledged, in
    memory or, once [NewPersistent] has opened its database, on disk.  This file
    holds the state and every operation; SendQueueFacts.v holds the theorems.

    Each call of [time.Now] inside one step of an operation returns that step's
    [now].  The outcome of a POST, and the time at which it returns, are given by
    the caller as a function of the number of POSTs made before and of the body.
    Log calls are left out, except where preparing their arguments reads the
    database. *)

From stdpp Require Import sorting.
From S2P Require Import Prelude GoStrings Bolt.
#[local] Open Scope Z_scope.

Module SendQueue.

(** ** Errors *)

(** An [error] as the queue inspects it: a [*StatusError], another error, or an
    error that wraps one with [%w]. *)
Inductive goerr :=
  | StatusError (code : Z)
  | OtherErr (msg : string)
  | Wrapped (msg : string) (e : goerr).

(** [err.Error()]. *)
Fixpoint Error (e : goerr) : string :=
  match e with
  | StatusError code => "HTTP " +:+ itoa code
  | OtherErr msg => msg
  | Wrapped msg e => msg +:+ Error e
  end.

(** [errors.As(err, &se)] on a possibly nil error: the code of the first
    [*StatusError] of the chain. *)
Fixpoint as_status (e : goerr) : option Z :=
  match e with
  | StatusError code => Some code
  | OtherErr _ => None
  | Wrapped _ e => as_status e
  end.

(** ** State *)

Definition authCooldown : Z := minute.
Definition budgetCooldown : Z := 5 * minute.
Definition logInterval : Z := minute.

Definition metaNext : string := "next".
Definition metaCount : string := "count".
Definition metaBytes : string := "bytes".
Definition metaRetained : string := "retained".
Definition metaRetries : string := "retries".
Definition metaRetryOK : string := "retry_ok".
Definition metaDropped : string := "dropped".

Record Stats := mk_stats {
  Pending : Z;
  Bytes : Z;
  RetainedTotal : Z;
  RetryAttempts : Z;
  RetrySuccesses : Z;
  DroppedTotal : Z;
  IsBlocked : bool;
}.
Definition no_stats : Stats := mk_stats 0 0 0 0 0 0 false.

Record Delivery := mk_delivery {
  LastError : string;
  LastErrorAt : Z;
  FailingSince : Z;
  LastSuccessAt : Z;
}.
Definition no_delivery : Delivery := mk_delivery "" zero_time zero_time zero_time.

Section queue.
Context {B : Type} `{KV B}.

Record Queue := mk_queue {
  name : string;
  maxBytes : Z;   (* int *)
  items : list string;
  bytes : Z;   (* int *)
  blockedTil : Z;   (* time.Time *)
  lastAuthLog : Z;
  retained : Z;   (* int64 *)
  retryCalls : Z;
  retryOK : Z;
  dropped : Z;
  unflushedOffers : Z;   (* int, offers of the current cycle *)
  db : option (boltdb B);   (* nil: the queue is in memory *)
  delivery : Delivery;   (* under dmu *)
  lastStats : Stats;   (* under dmu *)
}.

Definition set_items (x : list string) (q : Queue) : Queue :=
  mk_queue (name q) (maxBytes q) x (bytes q) (blockedTil q) (lastAuthLog q) (retained q) (retryCalls q) (retryOK q) (dropped q) (unflushedOffers q) (db q) (delivery q) (lastStats q).
Definition set_bytes (x : Z) (q : Queue) : Queue :=
  mk_queue (name q) (maxBytes q) (items q) x (blockedTil q) (lastAuthLog q) (retained q) (retryCalls q) (retryOK q) (dropped q) (unflushedOffers q) (db q) (delivery q) (lastStats q).
Definition set_blockedTil (x : Z) (q : Queue) : Queue :=
  mk_queue (name q) (maxBytes q) (items q) (bytes q) x (lastAuthLog q) (retained q) (retryCalls q) (retryOK q) (dropped q) (unflushedOffers q) (db q) (delivery q) (lastStats q).
Definition set_lastAuthLog (x : Z) (q : Queue) : Queue :=
  mk_queue (name q) (maxBytes q) (items q) (bytes q) (blockedTil q) x (retained q) (retryCalls q) (retryOK q) (dropped q) (unflushedOffers q) (db q) (delivery q) (lastStats q).
Definition set_retained (x : Z) (q : Queue) : Queue :=
  mk_queue (name q) (maxBytes q) (items q) (bytes q) (blockedTil q) (lastAuthLog q) x (retryCalls q) (retryOK q) (dropped q) (unflushedOffers q) (db q) (delivery q) (lastStats q).
Definition set_retryCalls (x : Z) (q : Queue) : Queue :=
  mk_queue (name q) (maxBytes q) (items q) (bytes q) (blockedTil q) (lastAuthLog q) (retained q) x (retryOK q) (dropped q) (unflushedOffers q) (db q) (delivery q) (lastStats q).
Definition set_retryOK (x : Z) (q : Queue) : Queue :=
  mk_queue (name q) (maxBytes q) (items q) (bytes q) (blockedTil q) (lastAuthLog q) (retained q) (retryCalls q) x (dropped q) (unflushedOffers q) (db q) (delivery q) (lastStats q).
Definition set_dropped (x : Z) (q : Queue) : Queue :=
  mk_queue (name q) (maxBytes q) (items q) (bytes q) (blockedTil q) (lastAuthLog q) (retained q) (retryCalls q) (retryOK q) x (unflushedOffers q) (db q) (delivery q) (lastStats q).
Definition set_unflushedOffers (x : Z) (q : Queue) : Queue :=
  mk_queue (name q) (maxBytes q) (items q) (bytes q) (blockedTil q) (lastAuthLog q) (retained q) (retryCalls q) (retryOK q) (dropped q) x (db q) (delivery q) (lastStats q).
Definition set_db (x : option (boltdb B)) (q : Queue) : Queue :=
  mk_queue (name q) (maxBytes q) (items q) (bytes q) (blockedTil q) (lastAuthLog q) (retained q) (retryCalls q) (retryOK q) (dropped q) (unflushedOffers q) x (delivery q) (lastStats q).
Definition set_delivery (x : Delivery) (q : Queue) : Queue :=
  mk_queue (name q) (maxBytes q) (items q) (bytes q) (blockedTil q) (lastAuthLog q) (retained q) (retryCalls q) (retryOK q) (dropped q) (unflushedOffers q) (db q) x (lastStats q).
Definition set_lastStats (x : Stats) (q : Queue) : Queue :=
  mk_queue (name q) (maxBytes q) (items q) (bytes q) (blockedTil q) (lastAuthLog q) (retained q) (retryCalls q) (retryOK q) (dropped q) (unflushedOffers q) (db q) (delivery q) x.

(** ** Construction *)

Definition New (name : string) (maxBytes : Z) : Queue :=
  let maxBytes := if maxBytes <? 0 then 0 else maxBytes in
  mk_queue name maxBytes [] 0 zero_time zero_time 0 0 0 0 0 None no_delivery no_stats.

(** The transaction that creates the buckets. *)
Definition create_buckets (d : boltdb B) : res (unit * boltdb B) :=
  Ok (tt, mk_db (Some (default kv_empty (payloads d)))
                (Some (default kv_empty (meta d))) (io d)).

(** [opened] is what [os.MkdirAll] and [bolt.Open] give: no database on failure. *)
Definition NewPersistent (name : string) (maxBytes : Z) (dir : string)
    (opened : option (boltdb B)) : Queue :=
  let q := New name maxBytes in
  if String.eqb (trim_space dir) "" then q
  else match opened with
       | None => q
       | Some d => match db_update create_buckets d with
                   | (Err _, _) => q
                   | (Ok _, d) => set_db (Some d) q
                   end
       end.

Definition NewDurable (name : string) (maxBytes : Z) (dir : string)
    (opened : option (boltdb B)) : res Queue :=
  let q := NewPersistent name maxBytes dir opened in
  match db q with
  | None => Err "durable queue unavailable"
  | Some _ => Ok q
  end.

Definition Close (q : Queue) : Queue := set_db None q.

(** ** Metadata *)

(** The 8-byte big-endian key or value. *)
Definition u64key (value : Z) : string := of_bytes (be_bytes 8 value).

Definition readMeta (bucket : B) (key : string) : Z :=
  match kv_get bucket key with
  | Some value => if str_len value =? 8 then be_value 0 (bytes_of value) else 0
  | None => 0
  end.

Definition writeMeta (bucket : B) (key : string) (value : Z) : res B :=
  kv_put key (u64key value) bucket.

(** [q.db.View] and [q.db.Update] on the queue's database. *)
Definition view {A} (f : boltdb B -> res A) (q : Queue) (d : boltdb B) : res A * Queue :=
  let '(r, d) := db_view f d in (r, set_db (Some d) q).
Definition update {A} (f : boltdb B -> res (A * boltdb B)) (q : Queue) (d : boltdb B) : res A * Queue :=
  let '(r, d) := db_update f d in (r, set_db (Some d) q).

(** ** Reading the queue *)

Definition Blocked (now : Z) (q : Queue) : bool := now <? blockedTil q.

Definition pendingLocked (q : Queue) : Z * Queue :=
  match db q with
  | None => (Z.of_nat (length (items q)), q)
  | Some d =>
      let '(r, q) := view (fun d => match meta d with
                                    | None => Err "meta bucket ausente"
                                    | Some m => Ok (readMeta m metaCount)
                                    end) q d in
      match r with Ok n => (i64 n, q) | Err _ => (0, q) end
  end.

Definition stats_of (blocked : bool) (m : B) : Stats :=
  mk_stats (i64 (readMeta m metaCount)) (i64 (readMeta m metaBytes))
    (i64 (readMeta m metaRetained)) (i64 (readMeta m metaRetries))
    (i64 (readMeta m metaRetryOK)) (i64 (readMeta m metaDropped)) blocked.

Definition snapshotPersistentLocked (now : Z) (q : Queue) (d : boltdb B) : Stats * Queue :=
  let blocked := now <? blockedTil q in
  let '(r, q) := view (fun d => match meta d with
                                | None => Err "meta bucket ausente"
                                | Some m => Ok (stats_of blocked m)
                                end) q d in
  match r with
  | Ok s => (s, q)
  | Err _ => (mk_stats 0 0 0 0 0 0 blocked, q)
  end.

Definition snapshotMemory (now : Z) (q : Queue) : Stats :=
  mk_stats (Z.of_nat (length (items q))) (bytes q) (retained q) (retryCalls q)
    (retryOK q) (dropped q) (now <? blockedTil q).

Definition Snapshot (now : Z) (q : Queue) : Stats * Queue :=
  match db q with
  | Some d => snapshotPersistentLocked now q d
  | None => (snapshotMemory now q, q)
  end.

Definition pending (now : Z) (q : Queue) : Z * Queue :=
  let '(s, q) := Snapshot now q in (Pending s, q).

(** [append([]byte(nil), value...)] of an empty value is nil, so a durable queue
    reports an empty oldest payload like an empty queue. *)
Definition peek (q : Queue) : option string * Queue :=
  match db q with
  | None => (head (items q), q)
  | Some d =>
      let '(r, q) := view (fun d => match payloads d with
                                    | None => Err "payload bucket ausente"
                                    | Some b => Ok (match kv_first b with
                                                    | Some (_, value) => value
                                                    | None => ""
                                                    end)
                                    end) q d in
      match r with
      | Ok body => (if String.eqb body "" then None else Some body, q)
      | Err _ => (None, q)
      end
  end.

(** ** Counters *)

Definition bump (key : string) (d : boltdb B) : res (unit * boltdb B) :=
  match meta d with
  | None => Err "meta bucket ausente"
  | Some m => m ← writeMeta m key (u64 (readMeta m key + 1)); Ok (tt, set_meta m d)
  end.

Definition updateCounterLocked (key : string) (q : Queue) (d : boltdb B) : Queue :=
  (update (bump key) q d).2.

Definition incrementRetry (q : Queue) : Queue :=
  match db q with
  | None => set_retryCalls (retryCalls q + 1) q
  | Some d => updateCounterLocked metaRetries q d
  end.

Definition incrementRetrySuccess (q : Queue) : Queue :=
  match db q with
  | None => set_retryOK (retryOK q + 1) q
  | Some d => updateCounterLocked metaRetryOK q d
  end.

Definition incrementDroppedLocked (q : Queue) : Queue :=
  match db q with
  | None => set_dropped (dropped q + 1) q
  | Some d => updateCounterLocked metaDropped q d
  end.

(** ** Terminal responses *)

(** [shouldLog] and the update of [lastAuthLog]. *)
Definition note_log (now : Z) (q : Queue) : Queue :=
  if logInterval <=? time_sub now (lastAuthLog q) then set_lastAuthLog now q else q.

Definition noteTerminal (now : Z) (err : option goerr) (q : Queue) : bool * Queue :=
  match err ≫= as_status with
  | None => (false, q)
  | Some code =>
      if code =? 401 then (true, note_log now (set_blockedTil (now + authCooldown) q))
      else if code =? 403 then (true, note_log now q)
      else if code =? 429 then (true, note_log now (set_blockedTil (now + budgetCooldown) q))
      else (false, q)
  end.

Definition NoteAuthFailure (now code : Z) (q : Queue) : Queue :=
  (noteTerminal now (Some (StatusError code)) q).2.

(** ** Delivery health *)

Definition maxDeliveryErrorLen : nat := 200.

Definition truncateError (message : string) : string :=
  let message := join " " (fields message) in
  if (maxDeliveryErrorLen <? String.length message)%nat
  then str_take maxDeliveryErrorLen message else message.

Definition record_delivery (now : Z) (err : option goerr) (d : Delivery) : Delivery :=
  match err with
  | None => mk_delivery (LastError d) (LastErrorAt d) zero_time now
  | Some e =>
      mk_delivery (truncateError (Error e)) now
        (if is_zero_time (FailingSince d) then now else FailingSince d) (LastSuccessAt d)
  end.

Definition recordDelivery (now : Z) (err : option goerr) (q : Queue) : Queue :=
  set_delivery (record_delivery now err (delivery q)) q.

(** [q.mu.TryLock()] is [locked]: whether this goroutine got the lock. *)
Definition snapshotNoWait (locked : bool) (now : Z) (q : Queue) : Stats * Queue :=
  if locked then
    let '(stats, q) := Snapshot now q in (stats, set_lastStats stats q)
  else (lastStats q, q).

(** ** Offering *)

(** Drops the oldest payloads while the bytes exceed the limit and more than one
    payload is left: (items, bytes, dropped). *)
Fixpoint drop_oldest (maxBytes : Z) (items : list string) (bytes dropped : Z)
    : list string * Z * Z :=
  match items with
  | it :: ((_ :: _) as rest) =>
      if maxBytes <? bytes then drop_oldest maxBytes rest (bytes - str_len it) (dropped + 1)
      else (items, bytes, dropped)
  | _ => (items, bytes, dropped)
  end.

Definition offerMemory (body : string) (fresh : bool) (q : Queue) : Queue :=
  let q := set_items (items q ++ [body])%list q in
  let q := if fresh then set_unflushedOffers (unflushedOffers q + 1) q else q in
  let q := set_bytes (bytes q + str_len body) q in
  let q := set_retained (retained q + 1) q in
  let '(its, bs, n) := drop_oldest (maxBytes q) (items q) (bytes q) 0 in
  let q := set_items its (set_bytes bs q) in
  if 0 <? n then set_dropped (dropped q + n) q else q.

(** The eviction loop of [offerPersistentLocked]: (payloads, bytes, count,
    dropped).  A bucket loses one key per round, so its number of entries is
    enough fuel. *)
Fixpoint evict_loop (fuel : nat) (maxBytes : Z) (b : B) (bytes count dropped : Z)
    : res (B * Z * Z * Z) :=
  match fuel with
  | O => Ok (b, bytes, count, dropped)
  | S fuel =>
      if (maxBytes <? bytes) && (1 <? count) then
        match kv_first b with
        | None => Ok (b, bytes, count, dropped)
        | Some (key, value) =>
            b ← kv_delete key b;
            evict_loop fuel maxBytes b (u64 (bytes - str_len value)) (u64 (count - 1))
              (u64 (dropped + 1))
        end
      else Ok (b, bytes, count, dropped)
  end.

(** The transaction of [offerPersistentLocked]. *)
Definition offer_tx (maxBytes : Z) (body : string) (d : boltdb B) : res (Z * boltdb B) :=
  match payloads d, meta d with
  | Some p, Some m =>
      let next := readMeta m metaNext in
      p ← kv_put (u64key next) body p;
      m ← writeMeta m metaNext (u64 (next + 1));
      let bytes := u64 (readMeta m metaBytes + str_len body) in
      let count := u64 (readMeta m metaCount + 1) in
      let retained := u64 (readMeta m metaRetained + 1) in
      '(p, bytes, count, dropped) ←
        evict_loop (S (length (kv_entries p))) (u64 maxBytes) p bytes count 0;
      m ← writeMeta m metaBytes bytes;
      m ← writeMeta m metaCount count;
      m ← writeMeta m metaRetained retained;
      m ← writeMeta m metaDropped (u64 (readMeta m metaDropped + dropped));
      Ok (dropped, mk_db (Some p) (Some m) (io d))
  | _, _ => Err "buckets da fila ausentes"
  end.

Definition offerPersistentLocked (now : Z) (body : string) (fresh : bool) (q : Queue)
    (d : boltdb B) : res unit * Queue :=
  let '(r, q) := update (offer_tx (maxBytes q) body) q d in
  match r with
  | Err e => (Err e, q)
  | Ok _ =>
      let q := if fresh then set_unflushedOffers (unflushedOffers q + 1) q else q in
      match db q with
      | Some d => (Ok tt, (snapshotPersistentLocked now q d).2)   (* for the log line *)
      | None => (Ok tt, q)
      end
  end.

Definition is_nil (err : option goerr) : bool :=
  match err with None => true | Some _ => false end.

Definition Offer (now : Z) (body : string) (err : option goerr) (q : Queue) : res unit * Queue :=
  let '(terminal, q) := noteTerminal now err q in
  if terminal then (Ok tt, incrementDroppedLocked q)
  else match db q with
       | Some d => offerPersistentLocked now body (is_nil err) q d
       | None => (Ok tt, offerMemory body (is_nil err) q)
       end.

Definition OfferDurable (now : Z) (body : string) (q : Queue) : res unit * Queue :=
  match db q with
  | None => (Err "durable queue closed", q)
  | Some d =>
      let '(stats, q) := snapshotPersistentLocked now q d in
      if maxBytes q <? i64 (Bytes stats + str_len body) then (Err "durable queue full", q)
      else match db q with
           | Some d => offerPersistentLocked now body true q d
           | None => (Err "durable queue closed", q)
           end
  end.

(** ** Removing *)

(** The transaction of [popFront]. *)
Definition pop_tx (was_dropped : bool) (d : boltdb B) : res (unit * boltdb B) :=
  match payloads d, meta d with
  | Some p, Some m =>
      match kv_first p with
      | None => Ok (tt, d)
      | Some (key, value) =>
          p ← kv_delete key p;
          let bytes := readMeta m metaBytes in
          let bytes := if bytes <=? str_len value then 0 else u64 (bytes - str_len value) in
          let count := readMeta m metaCount in
          let count := if 0 <? count then count - 1 else count in
          m ← writeMeta m metaBytes bytes;
          m ← writeMeta m metaCount count;
          m ← (if was_dropped then writeMeta m metaDropped (u64 (readMeta m metaDropped + 1))
               else Ok m);
          Ok (tt, mk_db (Some p) (Some m) (io d))
      end
  | _, _ => Err "buckets da fila ausentes"
  end.

Definition popFront (was_dropped : bool) (q : Queue) : Queue :=
  match db q with
  | Some d => (update (pop_tx was_dropped) q d).2
  | None =>
      match items q with
      | [] => q
      | it :: rest =>
          let q := if was_dropped then set_dropped (dropped q + 1) q else q in
          set_items rest (set_bytes (bytes q - str_len it) q)
      end
  end.

(** ** Flushing *)

(** The outcome of a POST, from the number of POSTs made before it and the
    body: nil or an error, and the time at which it returns. *)
Definition poster : Type := nat -> string -> option goerr * Z.

(** At most [fuel] rounds of the loop of [Flush], with the bodies posted so far, the
    latest first: how the loop ended ([None]: it goes on), and the state it is in. *)
Fixpoint flush_rounds (fuel : nat) (post : poster) (now retainedToLog retainedLogged sent : Z)
    (q : Queue) (posted : list string) : option (option goerr) * Queue * list string :=
  match fuel with
  | O => (None, q, posted)
  | S fuel =>
      match peek q with
      | (None, q) => (Some None, q, posted)
      | (Some body, q) =>
          let isRetry := sent <? retainedToLog in
          let sent := sent + 1 in
          let q := if isRetry then incrementRetry q else q in
          let '(err, now) := post (length posted) body in
          let posted := body :: posted in
          let q := recordDelivery now err q in
          match err with
          | Some e =>
              let '(terminal, q) := noteTerminal now err q in
              (Some err, if terminal then popFront true q else q, posted)
          | None =>
              let q := if isRetry then incrementRetrySuccess q else q in
              let q := popFront false q in
              let '(retainedLogged, q) :=
                if retainedLogged <? retainedToLog
                then (retainedLogged + 1, (pending now q).2)
                else (retainedLogged, q) in
              flush_rounds fuel post now retainedToLog retainedLogged sent q posted
          end
      end
  end.

(** [Flush], watched for at most [fuel] rounds of its loop. *)
Definition FlushRounds (fuel : nat) (post : poster) (now : Z) (q : Queue)
    : option (option goerr) * Queue * list string :=
  if Blocked now q then (Some None, q, [])
  else
    let unflushed := unflushedOffers q in
    let q := set_unflushedOffers 0 q in
    let '(initialPending, q) := pendingLocked q in
    let retainedToLog := initialPending - unflushed in
    let retainedToLog := if retainedToLog <? 0 then 0 else retainedToLog in
    flush_rounds fuel post now retainedToLog 0 0 q [].

(** The call of [Flush] when it returns within [fuel] rounds. *)
Definition Flush (fuel : nat) (post : poster) (now : Z) (q : Queue)
    : option (option goerr * Queue * list string) :=
  match FlushRounds fuel post now q with
  | (Some err, q, posted) => Some (err, q, posted)
  | (None, _, _) => None
  end.

(** The outcome of a batch POST. *)
Definition batch_poster : Type := nat -> list string -> option goerr * Z.

Fixpoint delete_keys (keys : list string) (b : B) : res B :=
  match keys with
  | [] => Ok b
  | k :: keys => b ← kv_delete k b; delete_keys keys b
  end.

(** The transaction that removes an acknowledged batch. *)
Definition ack_tx (keys : list string) (size : Z) (isRetry : bool) (d : boltdb B)
    : res (unit * boltdb B) :=
  match payloads d, meta d with
  | Some p, Some m =>
      p ← delete_keys keys p;
      m ← writeMeta m metaCount (u64 (readMeta m metaCount - Z.of_nat (length keys)));
      m ← writeMeta m metaBytes (u64 (readMeta m metaBytes - size));
      m ← (if isRetry then writeMeta m metaRetryOK (u64 (readMeta m metaRetryOK + 1)) else Ok m);
      Ok (tt, mk_db (Some p) (Some m) (io d))
  | _, _ => Err "nil bucket"
  end.

(** The oldest [limit] entries. *)
Definition front (limit : nat) (d : boltdb B) : res (list (string * string)) :=
  match payloads d with None => Err "nil bucket" | Some p => Ok (take limit (kv_entries p)) end.

(** The loop of [FlushBatch]; [ctx_err] is [ctx.Err()] before each batch. *)
Fixpoint flush_batch_loop (fuel : nat) (ctx_err : nat -> option goerr) (limit : nat)
    (post : batch_poster) (retained : Z) (q : Queue) (d : boltdb B)
    (posted : list (list string)) : option (option goerr * Queue * list (list string)) :=
  match fuel with
  | O => None
  | S fuel =>
      match ctx_err (length posted) with
      | Some e => Some (Some e, q, posted)
      | None =>
          let '(r, q) := view (front limit) q d in
          match r, db q with
          | Err e, _ => Some (Some (OtherErr e), q, posted)
          | Ok _, None => Some (Some (OtherErr "closed"), q, posted)
          | Ok [], Some d => Some (None, q, posted)
          | Ok batch, Some d =>
              let keys := batch.*1 in
              let bodies := batch.*2 in
              let size := sumZ str_len bodies in
              let isRetry := 0 <? retained in
              let retained := retained - Z.of_nat (length bodies) in
              let q := if isRetry then updateCounterLocked metaRetries q d else q in
              let '(err, now) := post (length posted) bodies in
              let posted := bodies :: posted in
              let q := recordDelivery now err q in
              match err, db q with
              | Some e, _ => Some (Some e, q, posted)
              | None, None => Some (Some (OtherErr "closed"), q, posted)
              | None, Some d =>
                  let '(r, q) := update (ack_tx keys size isRetry) q d in
                  match r, db q with
                  | Err e, _ => Some (Some (OtherErr e), q, posted)
                  | Ok _, None => Some (Some (OtherErr "closed"), q, posted)
                  | Ok _, Some d => flush_batch_loop fuel ctx_err limit post retained q d posted
                  end
              end
          end
      end
  end.

Definition FlushBatch (fuel : nat) (ctx_err : nat -> option goerr) (limit : Z)
    (post : batch_poster) (now : Z) (q : Queue)
    : option (option goerr * Queue * list (list string)) :=
  match db q with
  | None => Some (Some (OtherErr "durable queue closed"), q, [])
  | Some d =>
      if limit <? 1 then Some (Some (OtherErr "invalid batch size"), q, [])
      else
        let '(stats, q) := snapshotPersistentLocked now q d in
        let retained := Pending stats - unflushedOffers q in
        let q := set_unflushedOffers 0 q in
        match db q with
        | None => Some (Some (OtherErr "closed"), q, [])
        | Some d => flush_batch_loop fuel ctx_err (Z.to_nat limit) post retained q d []
        end
  end.

End queue.

Arguments Queue : clear implicits.

End SendQueue.
