(* ===== verification/SendQueueFacts.v ===== *)
(** * Theorems about the send queue

    The abstract specification of a queue is the list of its payloads, oldest
    first: an offer appends and then drops the oldest while the bytes exceed the
    limit, a removal takes the oldest.  [Inv] ties the representation, in memory
    or on disk, to that list and to its counters. *)

From S2P Require Import Prelude GoStrings Bolt SendQueue.
#[local] Open Scope Z_scope.

Module SendQueueFacts.
Import SendQueue.

(** ** Keys: the byte order of the 8-byte keys is the order of their numbers *)

Lemma bytes_ltb_app l k m : bytes_ltb (l ++ k) (l ++ m) = bytes_ltb k m.
Proof. induction l as [|a l IH]; cbn; [done|]. by rewrite IH, Z.ltb_irrefl, Z.eqb_refl. Qed.

Lemma be_bytes_lt n x y :
  0 <= x -> x < y -> y < 256 ^ Z.of_nat n -> bytes_ltb (be_bytes n x) (be_bytes n y) = true.
Proof.
  assert (forall n z, be_bytes n z = be_bytes n (z mod 256 ^ Z.of_nat n)) as Hmod.
  { clear. induction n as [|n IH]; intros z; [done|].
    change (be_bytes (S n) z) with ((z / 256 ^ Z.of_nat n) mod 256 :: be_bytes n z).
    change (be_bytes (S n) (z mod 256 ^ Z.of_nat (S n))) with
      ((z mod 256 ^ Z.of_nat (S n) / 256 ^ Z.of_nat n) mod 256 ::
       be_bytes n (z mod 256 ^ Z.of_nat (S n))).
    replace (Z.of_nat (S n)) with (Z.of_nat n + 1) by lia.
    rewrite Z.pow_add_r, Z.pow_1_r by lia.
    assert (0 < 256 ^ Z.of_nat n) by (apply Z.pow_pos_nonneg; lia).
    set (p := 256 ^ Z.of_nat n) in *.
    pose proof (Z.mod_pos_bound z p ltac:(lia)).
    rewrite (Z.rem_mul_r z p 256) by lia. f_equal.
    - replace (z mod p + p * ((z / p) mod 256)) with (((z / p) mod 256) * p + z mod p) by lia.
      rewrite Z.div_add_l by lia. rewrite (Z.div_small (z mod p) p) by lia.
      by rewrite Z.add_0_r, Z.mod_mod by lia.
    - rewrite (IH (_ + _)), (IH z). f_equal. fold p.
      replace (z mod p + p * ((z / p) mod 256)) with (z mod p + ((z / p) mod 256) * p) by lia.
      by rewrite Z_mod_plus_full, Z.mod_mod by lia. }
  revert x y. induction n as [|n IH]; intros x y H0 Hlt Hmax; [cbn in Hmax; lia|].
  set (p := 256 ^ Z.of_nat n) in *.
  assert (0 < p) by (apply Z.pow_pos_nonneg; lia).
  assert (256 ^ Z.of_nat (S n) = p * 256) as Ep.
  { replace (Z.of_nat (S n)) with (Z.of_nat n + 1) by lia.
    by rewrite Z.pow_add_r, Z.pow_1_r by lia. }
  change (be_bytes (S n) x) with ((x / p) mod 256 :: be_bytes n x).
  change (be_bytes (S n) y) with ((y / p) mod 256 :: be_bytes n y).
  apply bytes_ltb_cons. rewrite !Z.mod_small.
  2-3: split; [apply Z.div_pos; lia | apply Z.div_lt_upper_bound; lia].
  pose proof (Z.div_mod x p ltac:(lia)). pose proof (Z.div_mod y p ltac:(lia)).
  pose proof (Z.mod_pos_bound x p ltac:(lia)). pose proof (Z.mod_pos_bound y p ltac:(lia)).
  destruct (Z.lt_trichotomy (x / p) (y / p)) as [|[E|]]; [by left | right | nia].
  split; [done|]. rewrite (Hmod n x), (Hmod n y). apply IH; fold p; nia.
Qed.

Lemma u64key_lt x y : 0 <= x -> x < y -> in_u64 y -> str_lt (u64key x) (u64key y).
Proof.
  intros. unfold str_lt, str_ltb, u64key. rewrite !bytes_of_bytes by apply be_bytes_range.
  apply be_bytes_lt; unfold in_u64 in *; lia.
Qed.

Lemma str_len_of_bytes l : str_len (of_bytes l) = Z.of_nat (length l).
Proof. unfold str_len, of_bytes. induction l as [|b l IH]; cbn in *; lia. Qed.

Lemma u64key_len x : str_len (u64key x) = 8.
Proof. unfold u64key. by rewrite str_len_of_bytes, be_bytes_length. Qed.

Section facts.
Context {B : Type} `{KVLaws B}.
Implicit Types (p m : B) (d : boltdb B) (q : Queue B).

(** ** Metadata *)

Definition meta_key (k : string) : Prop := 0 < str_len k <= 8.

Lemma writeMeta_ok m k v : meta_key k -> exists m', writeMeta m k v = Ok m'.
Proof.
  intros Hk. apply kv_put_total. unfold kv_valid, max_key_size, max_value_size, meta_key in *.
  rewrite u64key_len. lia.
Qed.

Lemma readMeta_write m m' k v k' :
  writeMeta m k v = Ok m' -> in_u64 v ->
  readMeta m' k' = if decide (k = k') then v else readMeta m k'.
Proof.
  intros Hw Hv. unfold readMeta. rewrite (kv_get_put _ _ _ _ k' Hw).
  case_decide; [|done]. rewrite u64key_len. cbn [Z.eqb Pos.eqb].
  unfold u64key. rewrite bytes_of_bytes by apply be_bytes_range.
  rewrite be_value_bytes. unfold in_u64 in Hv. rewrite Z.mod_small; [lia|].
  change (256 ^ Z.of_nat 8) with (2 ^ 64). lia.
Qed.

Lemma readMeta_range m k : in_u64 (readMeta m k).
Proof.
  unfold readMeta, in_u64. destruct (kv_get m k) as [v|]; [|lia].
  destruct (str_len v =? 8) eqn:E; [|lia]. apply Z.eqb_eq in E.
  pose proof (be_value_bound 0 (bytes_of v) 0) as Hb.
  assert (length (bytes_of v) = String.length v) as Hl.
  { clear. unfold bytes_of. induction v; cbn in *; congruence. }
  assert (Forall (fun z => 0 <= z < 256) (bytes_of v)) as Hr.
  { unfold bytes_of. apply Forall_fmap, Forall_true. intros. apply byte_of_range. }
  unfold str_len in E. rewrite Hl, E in Hb. specialize (Hb Hr ltac:(lia) ltac:(lia)).
  change (256 ^ (0 + 8)) with (2 ^ 64) in Hb. lia.
Qed.

(** ** The abstract queue *)

Definition size (l : list string) : Z := sumZ str_len l.

(** Drops the oldest payloads while the bytes exceed [max] and more than one is left. *)
Fixpoint evict (max : Z) (l : list string) : list string :=
  match l with
  | _ :: ((_ :: _) as rest) => if max <? size l then evict max rest else l
  | _ => l
  end.

Definition contents q : list string :=
  match db q with
  | None => items q
  | Some d => match payloads d with Some p => (kv_entries p).*2 | None => [] end
  end.

(** A cumulative counter of a queue: the field in memory, the metadata on disk. *)
Definition counter (field : Queue B -> Z) (key : string) q : Z :=
  match db q with
  | None => field q
  | Some d => match meta d with Some m => readMeta m key | None => 0 end
  end.
Definition dropped_total : Queue B -> Z := counter (@dropped B) metaDropped.
Definition retained_total : Queue B -> Z := counter (@retained B) metaRetained.

(** The key of an entry is a number that the queue has already handed out. *)
Definition key_below (next : Z) (e : string * string) : Prop :=
  exists n, e.1 = u64key n /\ 0 <= n < next.

Definition durable_ok (d : boltdb B) : Prop :=
  exists p m, payloads d = Some p /\ meta d = Some m /\
    Forall (key_below (readMeta m metaNext)) (kv_entries p) /\
    readMeta m metaCount = Z.of_nat (length (kv_entries p)) /\
    readMeta m metaBytes = size (kv_entries p).*2.

Definition Inv q : Prop :=
  0 <= maxBytes q < 2 ^ 63 /\
  match db q with
  | None => bytes q = size (items q)
  | Some d => durable_ok d
  end.

(** No transaction to come fails. *)
Definition quiet q : Prop :=
  match db q with None => True | Some d => Forall (eq None) (io d) end.

Definition io_left q : nat := match db q with None => O | Some d => length (io d) end.

Lemma size_nonneg l : 0 <= size l.
Proof. apply sumZ_nonneg, str_len_nonneg. Qed.

Lemma size_app l k : size (l ++ k) = size l + size k.
Proof. apply sumZ_app. Qed.

Lemma size_cons b l : size (b :: l) = str_len b + size l.
Proof. done. Qed.

Lemma evict_cons2 max b c l :
  evict max (b :: c :: l) = if max <? size (b :: c :: l) then evict max (c :: l) else b :: c :: l.
Proof. done. Qed.

Lemma evict_suffix max l : exists k, l = (k ++ evict max l)%list.
Proof.
  induction l as [|b l IH]; [by exists []|]. destruct l as [|c l]; [by exists []|].
  rewrite evict_cons2. case_match; [|by exists []].
  destruct IH as [k Hk]. exists (b :: k). cbn. by f_equal.
Qed.

(** What is left fits the limit, unless it is the new payload alone. *)
Lemma evict_bound max l b : size (evict max (l ++ [b])) <= Z.max max (str_len b).
Proof.
  induction l as [|a l IH]; cbn [app]; [unfold size; cbn; lia|].
  destruct (l ++ [b])%list as [|c k] eqn:E; [by destruct l|].
  rewrite evict_cons2. case_match eqn:Hm; [done|]. apply Z.ltb_ge in Hm. lia.
Qed.

Lemma evict_fits max l : size l <= max -> evict max l = l.
Proof.
  destruct l as [|a [|b l]]; [done|done|]. intros Hs. rewrite evict_cons2.
  by rewrite (proj2 (Z.ltb_ge _ _) Hs).
Qed.

(** ** Transactions *)

Lemma evict_loop_spec fuel max p bytes count n :
  let es := kv_entries p in
  (length es < fuel)%nat ->
  bytes = size es.*2 -> in_u64 bytes ->
  count = Z.of_nat (length es) -> 0 <= n -> in_u64 (n + count) ->
  exists p' gone,
    es = (gone ++ kv_entries p')%list /\
    (kv_entries p').*2 = evict max es.*2 /\
    evict_loop fuel max p bytes count n =
      Ok (p', size (kv_entries p').*2, Z.of_nat (length (kv_entries p')),
          n + Z.of_nat (length gone)).
Proof.
  revert p bytes count n. induction fuel as [|fuel IH]; intros p bytes count n; [lia|].
  cbn zeta. intros Hf -> Hb -> Hn Hc. cbn [evict_loop]. unfold kv_first.
  destruct (kv_entries p) as [|[k v] [|[k2 v2] es]] eqn:Ep; cbn in Hf.
  - rewrite andb_false_r. exists p, []. rewrite Ep. split_and!; [done..|].
    repeat f_equal; cbn; lia.
  - rewrite andb_false_r. exists p, []. rewrite Ep. split_and!; [done..|].
    repeat f_equal; cbn; lia.
  - rewrite !fmap_cons in *. cbn [snd] in *. rewrite evict_cons2.
    rewrite (proj2 (Z.ltb_lt 1 _)) by (cbn; lia). rewrite andb_true_r.
    destruct (max <? _) eqn:E.
    + cbn [head]. destruct (kv_delete_total k p) as [p1 Hp1]. rewrite Hp1.
      cbn [mbind res_bind].
      pose proof (kv_entries_delete_first _ _ _ _ _ Ep Hp1) as Ep1.
      unfold in_u64 in *. rewrite !size_cons in *.
      pose proof (str_len_nonneg v). pose proof (str_len_nonneg v2).
      pose proof (size_nonneg es.*2). cbn [length] in *.
      rewrite !u64_small by (unfold in_u64; lia).
      destruct (IH p1 (size (v2 :: es.*2)) (Z.of_nat (S (length es))) (n + 1))
        as (p' & gone & Hes & Hev & Hl);
        rewrite ?Ep1, ?size_cons; unfold in_u64; cbn [length fmap list_fmap snd]; try lia; [done|].
      exists p', ((k, v) :: gone). rewrite Ep1 in *. split_and!.
      * cbn. by rewrite Hes.
      * done.
      * rewrite size_cons in Hl. replace (str_len v + (str_len v2 + size es.*2) - str_len v)
          with (str_len v2 + size es.*2) by lia.
        replace (Z.of_nat (S (S (length es))) - 1) with (Z.of_nat (S (length es))) by lia.
        rewrite Hl. cbn [length]. do 2 f_equal. lia.
    + exists p, []. rewrite Ep. split_and!; [done..|]. cbn [length]. by rewrite Z.add_0_r.
Qed.

(** The counters of the database have not reached the width of a [uint64], and
    the value is not too large for the store. *)
Definition room (body : string) (d : boltdb B) : Prop :=
  str_len body <= max_value_size /\
  forall m, meta d = Some m ->
    readMeta m metaNext + 1 < 2 ^ 64 /\
    readMeta m metaBytes + str_len body < 2 ^ 64 /\
    readMeta m metaRetained + 1 < 2 ^ 64 /\
    readMeta m metaDropped + readMeta m metaCount + 1 < 2 ^ 64.

Definition bodies (d : boltdb B) : list string :=
  match payloads d with Some p => (kv_entries p).*2 | None => [] end.
Definition count_of (key : string) (d : boltdb B) : Z :=
  match meta d with Some m => readMeta m key | None => 0 end.

(** A write to the metadata succeeds, and later reads of it are known. *)
Ltac meta_write Hm :=
  match goal with
  | |- context [writeMeta ?m ?k ?v] =>
      let m' := fresh "m" in
      destruct (writeMeta_ok m k v) as [m' Hm]; [by vm_compute|];
      rewrite Hm; cbn [mbind res_bind]
  end.

Lemma key_below_mono n n' es :
  n <= n' -> Forall (key_below n) es -> Forall (key_below n') es.
Proof.
  intros Hn Hall. eapply Forall_impl; [exact Hall|]. intros e (x & He & Hx). exists x. split; [done | lia].
Qed.

Lemma key_below_sorted n es :
  in_u64 n -> Forall (key_below n) es -> Forall (fun e => str_lt e.1 (u64key n)) es.
Proof.
  intros Hn Hall. eapply Forall_impl; [exact Hall|]. intros e (x & -> & Hx). apply u64key_lt; lia || done.
Qed.

(** What the transaction of an offer writes. *)
Lemma offer_tx_run max body (d : boltdb B) p m :
  0 <= max < 2 ^ 63 -> room body d -> payloads d = Some p -> meta d = Some m ->
  Forall (key_below (readMeta m metaNext)) (kv_entries p) ->
  readMeta m metaCount = Z.of_nat (length (kv_entries p)) ->
  readMeta m metaBytes = size (kv_entries p).*2 ->
  exists p' m' gone,
    offer_tx max body d = Ok (Z.of_nat (length gone), mk_db (Some p') (Some m') (io d)) /\
    (kv_entries p ++ [(u64key (readMeta m metaNext), body)] = gone ++ kv_entries p')%list /\
    (kv_entries p').*2 = evict max ((kv_entries p).*2 ++ [body]) /\
    forall k, readMeta m' k =
      if decide (metaDropped = k) then readMeta m metaDropped + Z.of_nat (length gone)
      else if decide (metaRetained = k) then readMeta m metaRetained + 1
      else if decide (metaCount = k) then Z.of_nat (length (kv_entries p'))
      else if decide (metaBytes = k) then size (kv_entries p').*2
      else if decide (metaNext = k) then readMeta m metaNext + 1
      else readMeta m k.
Proof.
  intros Hmax [Hlen Hroom] Hp Hm Hkeys Hcount Hbytes.
  specialize (Hroom m Hm) as (Hnext & Hb & Hr & Hd).
  pose proof (str_len_nonneg body) as Hlb.
  pose proof (fun k => readMeta_range m k) as Hrange. unfold in_u64 in Hrange.
  pose proof (Hrange metaNext). pose proof (Hrange metaDropped). pose proof (Hrange metaBytes).
  pose proof (Hrange metaRetained). pose proof (Hrange metaCount).
  unfold offer_tx. rewrite Hp, Hm.
  destruct (kv_put_total (u64key (readMeta m metaNext)) body p) as [p1 Hp1].
  { unfold kv_valid, max_key_size. rewrite u64key_len. lia. }
  rewrite Hp1. cbn [mbind res_bind].
  pose proof (kv_entries_put_last _ _ _ _ Hp1
    (key_below_sorted _ _ (readMeta_range m metaNext) Hkeys)) as He1.
  meta_write Hm0.
  assert (length (kv_entries p1) = S (length (kv_entries p))) as Hl1
    by (rewrite He1, length_app; cbn; lia).
  assert (size (kv_entries p1).*2 = size (kv_entries p).*2 + str_len body) as Hs1
    by (rewrite He1, fmap_app, size_app; unfold size; cbn; lia).
  rewrite !(readMeta_write _ _ _ _ _ Hm0) by (rewrite u64_small; unfold in_u64; lia).
  rewrite !decide_False by done. rewrite !(u64_small (_ + _)), (u64_small max) by (unfold in_u64; lia).
  destruct (evict_loop_spec (S (length (kv_entries p1))) max p1
     (readMeta m metaBytes + str_len body) (readMeta m metaCount + 1) 0)
    as (p2 & gone & Hgone & Hev & Hloop); unfold in_u64; try lia.
  rewrite Hloop. cbn [mbind res_bind]. rewrite He1 in Hgone, Hev. rewrite fmap_app in Hev.
  pose proof (f_equal length Hgone) as Hlg. rewrite !length_app in Hlg. cbn in Hlg.
  assert (size (kv_entries p2).*2 <= size (kv_entries p1).*2) as Hsz.
  { rewrite He1, Hgone, fmap_app, size_app. pose proof (size_nonneg gone.*2). lia. }
  pose proof (size_nonneg (kv_entries p2).*2).
  meta_write Hm1. meta_write Hm2. meta_write Hm3.
  assert (forall k, readMeta m3 k = if decide (metaRetained = k) then readMeta m metaRetained + 1
      else if decide (metaCount = k) then Z.of_nat (length (kv_entries p2))
      else if decide (metaBytes = k) then size (kv_entries p2).*2
      else if decide (metaNext = k) then readMeta m metaNext + 1 else readMeta m k) as Hr3.
  { intros k. rewrite (readMeta_write _ _ _ _ _ Hm3), (readMeta_write _ _ _ _ _ Hm2),
      (readMeta_write _ _ _ _ _ Hm1), (readMeta_write _ _ _ _ _ Hm0);
      rewrite ?u64_small; unfold in_u64; try lia; done. }
  pose proof (Hr3 metaDropped) as Hr3d. rewrite !decide_False in Hr3d by done.
  rewrite Hr3d, Z.add_0_l, u64_small by (unfold in_u64; lia). meta_write Hm4.
  exists p2, m4, gone. split_and!; [done.. |].
  intros k. rewrite (readMeta_write _ _ _ _ _ Hm4), Hr3; [done | unfold in_u64; lia].
Qed.

Lemma offer_tx_spec max body (d : boltdb B) :
  0 <= max < 2 ^ 63 -> durable_ok d -> room body d ->
  exists n d', offer_tx max body d = Ok (n, d') /\ durable_ok d' /\ io d' = io d /\
    bodies d' = evict max (bodies d ++ [body]) /\
    count_of metaDropped d' = count_of metaDropped d + n /\
    n = Z.of_nat (length (bodies d)) + 1 - Z.of_nat (length (bodies d')) /\
    count_of metaRetained d' = count_of metaRetained d + 1.
Proof.
  intros Hmax (p & m & Hp & Hm & Hkeys & Hcount & Hbytes) Hroom.
  destruct (offer_tx_run max body d p m) as (p' & m' & gone & Hrun & Hgone & Hev & Hmeta); try done.
  eexists _, _. split; [exact Hrun|]. unfold bodies, count_of.
  cbn [payloads meta io]. rewrite Hp, Hm, !Hmeta. cbn.
  pose proof (f_equal length Hgone) as Hlg. rewrite !length_app in Hlg. cbn in Hlg.
  split_and!; try done.
  - exists p', m'. rewrite !Hmeta. split_and!; try done. cbn.
    pose proof (readMeta_range m metaNext) as Hn. unfold in_u64 in Hn.
    assert (Forall (key_below (readMeta m metaNext + 1)) (gone ++ kv_entries p')) as Hk.
    { rewrite <- Hgone. apply Forall_app. split; [eapply key_below_mono; [|done]; lia|].
      constructor; [|constructor]. exists (readMeta m metaNext). cbn. split; [done | lia]. }
    by apply Forall_app in Hk as [_ Hk].
  - rewrite !length_fmap. lia.
Qed.

Lemma pop_tx_spec wd (d : boltdb B) :
  durable_ok d ->
  exists d', pop_tx wd d = Ok (tt, d') /\ durable_ok d' /\ io d' = io d /\
    bodies d' = tail (bodies d).
Proof.
  intros (p & m & Hp & Hm & Hkeys & Hcount & Hbytes).
  pose proof (readMeta_range m metaBytes) as Hrb. pose proof (readMeta_range m metaCount) as Hrc.
  unfold pop_tx, bodies, kv_first. rewrite Hp, Hm.
  destruct (kv_entries p) as [|[k v] es] eqn:Ep; cbn [head].
  { exists d. rewrite Hp, Ep. split_and!; [done | | done..]. exists p, m. by rewrite Ep. }
  cbn in Hcount. rewrite fmap_cons in Hbytes. cbn [snd] in Hbytes. rewrite size_cons in Hbytes.
  destruct (kv_delete_total k p) as [p1 Hp1]. rewrite Hp1. cbn [mbind res_bind].
  pose proof (kv_entries_delete_first _ _ _ _ _ Ep Hp1) as Ep1.
  pose proof (size_nonneg es.*2). pose proof (str_len_nonneg v). unfold in_u64 in *.
  assert ((if readMeta m metaBytes <=? str_len v then 0
           else u64 (readMeta m metaBytes - str_len v)) = size es.*2) as ->.
  { case_match; [lia|]. rewrite u64_small by (unfold in_u64; lia). lia. }
  assert ((if 0 <? readMeta m metaCount then readMeta m metaCount - 1
           else readMeta m metaCount) = Z.of_nat (length es)) as -> by (case_match; lia).
  meta_write Hm1. meta_write Hm2.
  assert (exists m3, (if wd then writeMeta m1 metaDropped (u64 (readMeta m1 metaDropped + 1))
     else Ok m1) = Ok m3 /\ forall k, k <> metaDropped -> readMeta m3 k = readMeta m1 k)
    as (m3 & -> & Hm3).
  { destruct wd; [|by eexists]. destruct (writeMeta_ok m1 metaDropped
      (u64 (readMeta m1 metaDropped + 1))) as [m3 Hm3]; [by vm_compute|]. exists m3. split; [done|].
    intros k' Hk'. rewrite (readMeta_write _ _ _ _ _ Hm3) by apply u64_range.
    by rewrite decide_False. }
  cbn [mbind res_bind]. eexists. split; [done|]. cbn [payloads meta io].
  rewrite Ep1. split_and!; [|done..]. exists p1, m3.
  rewrite !Hm3, !(readMeta_write _ _ _ _ _ Hm2), !(readMeta_write _ _ _ _ _ Hm1) by (unfold in_u64; done || lia).
  rewrite Ep1. split_and!; try done. cbn. by inversion Hkeys.
Qed.

(** Bumping a counter other than the three that describe the payloads. *)
Definition plain_counter (key : string) : Prop :=
  meta_key key /\ key <> metaNext /\ key <> metaCount /\ key <> metaBytes.

Lemma bump_spec key (d : boltdb B) :
  plain_counter key -> durable_ok d ->
  exists d', bump key d = Ok (tt, d') /\ durable_ok d' /\ io d' = io d /\ bodies d' = bodies d.
Proof.
  intros (Hk & H1 & H2 & H3) (p & m & Hp & Hm & Hkeys & Hcount & Hbytes).
  unfold bump, bodies. rewrite Hm.
  destruct (writeMeta_ok m key (u64 (readMeta m key + 1))) as [m1 Hm1]; [done|]. rewrite Hm1.
  eexists. split; [done|]. cbn. rewrite Hp. split_and!; [|done..]. exists p, m1.
  rewrite !(readMeta_write _ _ _ _ _ Hm1) by apply u64_range. by rewrite !decide_False.
Qed.

(** ** Steps that keep the payloads *)

(** [q'] holds the same payloads as [q], and its environment has not gained
    failures. *)
Definition frame q q' : Prop :=
  contents q' = contents q /\ maxBytes q' = maxBytes q /\ (Inv q -> Inv q') /\
  (io_left q' <= io_left q)%nat /\ (quiet q -> quiet q') /\ (db q = None -> db q' = None).

#[export] Instance frame_preorder : PreOrder frame.
Proof.
  split; [intros q; unfold frame; split_and!; done || lia|].
  intros q1 q2 q3 (E & M & I & L & Q & D) (E' & M' & I' & L' & Q' & D').
  split_and!; [congruence | congruence | auto | lia | auto | auto].
Qed.

Lemma bodies_contents q (d : boltdb B) : db q = Some d -> contents q = bodies d.
Proof. intros Hq. unfold contents. by rewrite Hq. Qed.

(** Settings of fields that are not part of the representation. *)
Lemma frame_field q q' :
  db q' = db q -> items q' = items q -> bytes q' = bytes q -> maxBytes q' = maxBytes q -> frame q q'.
Proof.
  intros E1 E2 E3 E4. unfold frame, contents, Inv, io_left, quiet. by rewrite E1, E2, E3, E4.
Qed.

Lemma durable_content (d d' : boltdb B) : content d' = content d -> durable_ok d -> durable_ok d'.
Proof.
  intros [= E1 E2] (p & m & H1 & H2 & Hr). exists p, m.
  split; [congruence|]. split; [congruence | exact Hr].
Qed.

Lemma bodies_content (d d' : boltdb B) : content d' = content d -> bodies d' = bodies d.
Proof. intros [= E1 E2]. unfold bodies. by rewrite E1. Qed.

(** A transaction whose body succeeds with [R]: it is committed, or the
    environment fails it and the content is unchanged. *)
Lemma update_spec {A} (R : A -> boltdb B -> Prop) (f : boltdb B -> res (A * boltdb B)) q (d : boltdb B) r q' :
  db q = Some d ->
  (forall d1, content d1 = content d -> exists a d', f d1 = Ok (a, d') /\ io d' = io d1 /\ R a d') ->
  update f q d = (r, q') ->
  exists d', q' = set_db (Some d') q /\ (io_left q' <= io_left q)%nat /\ (quiet q -> quiet q') /\
    match r with
    | Ok a => R a d'
    | Err _ => content d' = content d /\ (io_left q' < io_left q)%nat /\ ~ quiet q
    end.
Proof.
  intros Hq Hf. unfold update, db_update. pose proof (begin_tx_content d) as Hc.
  destruct (begin_tx d) as [o d1] eqn:Eb. cbn in Hc.
  destruct (Hf d1 Hc) as (a & d2 & -> & Hio & HR).
  apply begin_tx_io in Eb as [(E1 & -> & ->) | (E1 & E2)].
  - intros [= <- <-]. exists d2. unfold io_left, quiet. cbn. rewrite Hq, Hio, E1. done.
  - destruct o as [e|]; intros [= <- <-]; eexists; unfold io_left, quiet; cbn; rewrite Hq, ?Hio, E1;
      (split; [done|]); (split; [cbn; lia|]); (split; [by inversion 1|]); [|done].
    split; [done|]. split; [cbn; lia|]. inversion 1; congruence.
Qed.

(** A transaction that only reads. *)
Lemma view_spec {A} (f : boltdb B -> res A) q (d : boltdb B) r q' :
  db q = Some d -> view f q d = (r, q') ->
  exists d', q' = set_db (Some d') q /\ content d' = content d /\
    (io_left q' <= io_left q)%nat /\ (quiet q -> quiet q') /\
    match r with
    | Ok a => exists d1, content d1 = content d /\ f d1 = Ok a
    | Err _ => ~ quiet q \/ exists d1 e, content d1 = content d /\ f d1 = Err e
    end.
Proof.
  intros Hq. unfold view, db_view. pose proof (begin_tx_content d) as Hc.
  destruct (begin_tx d) as [o d1] eqn:Eb. cbn in Hc.
  apply begin_tx_io in Eb as [(E1 & -> & ->) | (E1 & E2)].
  - intros [= <- <-]. exists d. unfold io_left, quiet; cbn. rewrite Hq. split_and!; try done.
    destruct (f d) eqn:Ef; [by exists d | right; by exists d, e].
  - unfold io_left, quiet. rewrite Hq, E1. destruct o as [e|]; intros [= <- <-]; exists d1; cbn;
      (split; [done|]); (split; [done|]); (split; [lia|]); (split; [by inversion 1|]).
    + left. inversion 1; congruence.
    + destruct (f d1) eqn:Ef; [by exists d1 | right; by exists d1, e].
Qed.

Lemma frame_view {A} (f : boltdb B -> res A) q (d : boltdb B) r q' :
  db q = Some d -> view f q d = (r, q') -> frame q q'.
Proof.
  intros Hq Hv. destruct (view_spec _ _ _ _ _ Hq Hv) as (d' & -> & Hc & Hl & Hqu & _).
  unfold frame. rewrite (bodies_contents _ d Hq), (bodies_contents _ d') by done.
  rewrite (bodies_content _ _ Hc). split_and!; try done; [|by rewrite Hq].
  unfold Inv; cbn. rewrite Hq. intros [? ?]. split; [done | by eapply durable_content].
Qed.

Lemma frame_bump key q (d : boltdb B) :
  plain_counter key -> db q = Some d -> Inv q -> frame q (updateCounterLocked key q d).
Proof.
  intros Hk Hq Hi. unfold updateCounterLocked. destruct (update _ q d) as [r q'] eqn:Eu. cbn.
  pose proof Hi as [_ Hd]. rewrite Hq in Hd.
  eapply (update_spec (fun _ d' => durable_ok d' /\ bodies d' = bodies d)) in Eu
    as (d' & -> & Hl & Hqu & HR); [|exact Hq|].
  2: { intros d1 Hd1. destruct (bump_spec key d1 Hk) as (d2 & ? & ? & ? & Hb);
      [by eapply durable_content|]. rewrite (bodies_content _ _ Hd1) in Hb. by eexists _, d2. }
  unfold frame. rewrite (bodies_contents _ d Hq), (bodies_contents _ d') by done.
  unfold Inv; cbn. rewrite Hq.
  destruct r as [u|e].
  - destruct HR as [HR1 HR2]. rewrite HR2. split_and!; try done. by intros [? _].
  - destruct HR as [Hc _]. rewrite (bodies_content _ _ Hc). split_and!; try done.
    intros [? ?]. split; [done | by eapply durable_content].
Qed.

Lemma metaRetries_plain : plain_counter metaRetries.
Proof. by repeat split. Qed.
Lemma metaRetryOK_plain : plain_counter metaRetryOK.
Proof. by repeat split. Qed.
Lemma metaDropped_plain : plain_counter metaDropped.
Proof. by repeat split. Qed.

Lemma frame_incrementRetry q : Inv q -> frame q (incrementRetry q).
Proof.
  intros Hi. unfold incrementRetry. destruct (db q) as [d|] eqn:Hq.
  - by apply frame_bump; [apply metaRetries_plain | |].
  - by apply frame_field.
Qed.

Lemma frame_incrementRetrySuccess q : Inv q -> frame q (incrementRetrySuccess q).
Proof.
  intros Hi. unfold incrementRetrySuccess. destruct (db q) as [d|] eqn:Hq.
  - by apply frame_bump; [apply metaRetryOK_plain | |].
  - by apply frame_field.
Qed.

Lemma frame_incrementDropped q : Inv q -> frame q (incrementDroppedLocked q).
Proof.
  intros Hi. unfold incrementDroppedLocked. destruct (db q) as [d|] eqn:Hq.
  - by apply frame_bump; [apply metaDropped_plain | |].
  - by apply frame_field.
Qed.

Lemma frame_recordDelivery now err q : frame q (recordDelivery now err q).
Proof. by apply frame_field. Qed.

Lemma frame_note_log now q : frame q (note_log now q).
Proof. unfold note_log. by case_match; apply frame_field. Qed.

Lemma frame_noteTerminal now err q : frame q (noteTerminal now err q).2.
Proof.
  unfold noteTerminal. destruct (err ≫= as_status) as [code|]; [|done].
  repeat case_match; try done; cbn [snd]; (etrans; [|apply frame_note_log]); by apply frame_field.
Qed.

Lemma frame_snapshotPersistent now q (d : boltdb B) :
  db q = Some d -> frame q (snapshotPersistentLocked now q d).2.
Proof.
  intros Hq. unfold snapshotPersistentLocked.
  destruct (view _ q d) as [[s|e] q'] eqn:Ev; cbn; by eapply frame_view.
Qed.

Lemma frame_Snapshot now q : frame q (Snapshot now q).2.
Proof.
  unfold Snapshot. destruct (db q) as [d|] eqn:Hq; [|done]. by apply frame_snapshotPersistent.
Qed.

Lemma frame_pending now q : frame q (pending now q).2.
Proof. unfold pending. pose proof (frame_Snapshot now q) as Hf. by destruct (Snapshot now q). Qed.

Lemma frame_pendingLocked q : frame q (pendingLocked q).2.
Proof.
  unfold pendingLocked. destruct (db q) as [d|] eqn:Hq; [|done].
  destruct (view _ q d) as [[s|e] q'] eqn:Ev; cbn; by eapply frame_view.
Qed.

(** ** Peeking and popping *)

(** What [peek] gives: the oldest payload, when there is one and it can be read. *)
Lemma peek_spec q r q' :
  Inv q -> peek q = (r, q') ->
  frame q q' /\
  match r with
  | Some body => exists l, contents q = body :: l
  | None => quiet q -> Forall (fun b => b <> "") (contents q) \/ db q = None -> contents q = []
  end.
Proof.
  intros [Hmax Hi]. unfold peek. destruct (db q) as [d|] eqn:Hq.
  - destruct (view _ q d) as [r' q1] eqn:Ev. pose proof (frame_view _ _ _ _ _ Hq Ev) as Hfr.
    destruct (view_spec _ _ _ _ _ Hq Ev) as (d' & -> & Hc & _ & _ & Hr).
    destruct Hi as (p & m & Hp & _).
    assert (contents q = (kv_entries p).*2) as Hcont.
    { rewrite (bodies_contents _ _ Hq). unfold bodies. by rewrite Hp. }
    destruct r' as [body|e].
    + destruct Hr as (d1 & [= Hd1 _] & Hf). rewrite Hd1, Hp in Hf. unfold kv_first in Hf.
      rewrite Hcont. destruct (kv_entries p) as [|[k v] es]; cbn in Hf; injection Hf as <-; cbn.
      * intros [= <- <-]. done.
      * case_match eqn:E; intros [= <- <-]; split; [done | | done | by eexists].
        apply String.eqb_eq in E as ->. intros _ [Hall|?]; [by inversion Hall | done].
    + intros [= <- <-]. split; [done|]. intros Hqu. destruct Hr as [?|(d1 & e' & [= Hd1 _] & Hf)]; [done|].
      by rewrite Hd1, Hp in Hf.
  - intros [= <- <-]. split; [done|]. unfold contents. rewrite Hq.
    destruct (items q) as [|b l]; cbn; [done | by eexists].
Qed.

(** [popFront] removes the oldest payload, unless its transaction fails. *)
Lemma popFront_spec wd q :
  Inv q -> Inv (popFront wd q) /\ maxBytes (popFront wd q) = maxBytes q /\
    (db q = None -> db (popFront wd q) = None) /\
    (quiet q -> quiet (popFront wd q)) /\ (io_left (popFront wd q) <= io_left q)%nat /\
    ((contents (popFront wd q) = tail (contents q)) \/
     (contents (popFront wd q) = contents q /\ ~ quiet q /\
      (io_left (popFront wd q) < io_left q)%nat)).
Proof.
  intros Hinv. pose proof Hinv as [Hmax Hi]. unfold popFront. destruct (db q) as [d|] eqn:Hq.
  - destruct (update _ q d) as [r q'] eqn:Eu. cbn.
    eapply (update_spec (fun _ d' => durable_ok d' /\ bodies d' = tail (bodies d))) in Eu
      as (d' & -> & Hl & Hqu & HR); [|exact Hq|].
    2: { intros d1 Hd1. destruct (pop_tx_spec wd d1) as (d2 & ? & ? & ? & Hb);
         [by eapply durable_content|]. rewrite (bodies_content _ _ Hd1) in Hb. by eexists _, d2. }
    rewrite (bodies_contents _ d Hq), (bodies_contents _ d') by done. unfold Inv; cbn.
    destruct r as [u|e].
    + destruct HR as [HR1 HR2]. rewrite HR2. split_and!; try done; try lia; by left.
    + destruct HR as (Hc & Hlt & Hnq). rewrite (bodies_content _ _ Hc).
      split_and!; try done; try lia; [by eapply durable_content | by right].
  - unfold contents. rewrite Hq. destruct (items q) as [|it rest] eqn:Ei.
    { rewrite Hq, Ei. split_and!; try done. by left. }
    rewrite size_cons in Hi. destruct wd; cbn; rewrite ?Hq; unfold Inv, quiet, io_left; cbn; rewrite ?Hq.
    all: split_and!; try done; try lia; try by left.
    all: change (bytes q - str_len it = size rest); lia.
Qed.

(** ** One round of the loop of [Flush] *)

(** The responses after which the queue does not retry the payload. *)
Definition terminal (e : goerr) : bool :=
  match as_status e with
  | Some code => (code =? 401) || (code =? 403) || (code =? 429)
  | None => false
  end.

Lemma noteTerminal_terminal now e q : (noteTerminal now (Some e) q).1 = terminal e.
Proof.
  unfold noteTerminal, terminal. cbn. destruct (as_status e) as [code|]; [|done].
  destruct (code =? 401), (code =? 403), (code =? 429); done.
Qed.

(** A durable queue reports an empty oldest payload as an empty queue. *)
Definition peekable q : Prop := Forall (fun b => b <> "") (contents q) \/ db q = None.

Definition same_env q q' : Prop :=
  Inv q' /\ maxBytes q' = maxBytes q /\ (quiet q -> quiet q') /\
  (io_left q' <= io_left q)%nat /\ (db q = None -> db q' = None).

Lemma frame_env q q' : Inv q -> frame q q' -> same_env q q'.
Proof. intros Hi (E & M & I & L & Q & D). by split_and!; auto. Qed.

Lemma popFront_env wd q : Inv q -> same_env q (popFront wd q).
Proof. intros Hi. destruct (popFront_spec wd q Hi) as (? & ? & ? & ? & ? & _). by split_and!. Qed.

#[export] Instance same_env_trans : Transitive same_env.
Proof.
  intros q1 q2 q3 (I & M & Q & L & D) (I' & M' & Q' & L' & D').
  split_and!; [done | congruence | auto | lia | auto].
Qed.

(** The payload at the head is gone, unless a transaction failed. *)
Definition popped q q' : Prop :=
  contents q' = tail (contents q) \/
  (contents q' = contents q /\ ~ quiet q /\ (io_left q' < io_left q)%nat).

Lemma popFront_popped wd q q' :
  Inv q -> frame q q' -> popped q (popFront wd q') /\ same_env q (popFront wd q').
Proof.
  intros Hi Hf. pose proof (frame_env _ _ Hi Hf) as He. pose proof He as (Hi' & _).
  split; [|etrans; [exact He | by apply popFront_env]].
  destruct Hf as (E & M & I & L & Q & D).
  destruct (popFront_spec wd q' Hi') as (_ & _ & _ & _ & _ & [Hc|(Hc & Hq & Hl)]);
    unfold popped; rewrite Hc, E; [by left | right]. split_and!; [done | tauto | lia].
Qed.

(** The three ways a round ends: nothing to send, a failed POST, or an
    acknowledged one after which the loop goes on. *)
Lemma flush_round fuel post now rt rl sent q posted :
  Inv q ->
  (exists q', flush_rounds (S fuel) post now rt rl sent q posted = (Some None, q', posted) /\
     frame q q' /\ (quiet q -> peekable q -> contents q = [])) \/
  exists body l, contents q = body :: l /\
    match (post (length posted) body).1 with
    | Some e => exists q',
        flush_rounds (S fuel) post now rt rl sent q posted = (Some (Some e), q', body :: posted) /\
        same_env q q' /\ (if terminal e then popped q q' else contents q' = contents q)
    | None => exists q' now' rl' sent',
        flush_rounds (S fuel) post now rt rl sent q posted =
          flush_rounds fuel post now' rt rl' sent' q' (body :: posted) /\
        same_env q q' /\ popped q q'
    end.
Proof.
  intros Hi. cbn [flush_rounds]. destruct (peek q) as [[body|] q1] eqn:Ep.
  2: { left. destruct (peek_spec _ _ _ Hi Ep) as [Hf Hc]. exists q1.
       split_and!; [done | done |]. intros Hqu Hpk. by apply Hc. }
  right. destruct (peek_spec _ _ _ Hi Ep) as [Hf (l & Hl)]. exists body, l. split; [done|].
  assert (Inv q1) as Hi1 by (by apply Hf).
  set (q2 := if sent <? rt then incrementRetry q1 else q1).
  assert (frame q q2) as Hf2.
  { etrans; [exact Hf|]. unfold q2. case_match; [by apply frame_incrementRetry | done]. }
  destruct (post (length posted) body) as [[e|] now'] eqn:Epost; cbn [fst].
  - pose proof (noteTerminal_terminal now' e (recordDelivery now' (Some e) q2)) as Ht.
    pose proof (frame_noteTerminal now' (Some e) (recordDelivery now' (Some e) q2)) as Hft.
    destruct (noteTerminal now' (Some e) _) as [t q3]. cbn in Ht, Hft. subst t.
    assert (frame q q3) as Hf3.
    { etrans; [exact Hf2|]. etrans; [|exact Hft]. apply frame_recordDelivery. }
    eexists. split; [done|]. destruct (terminal e).
    + destruct (popFront_popped true q q3 Hi Hf3). done.
    + split; [by apply frame_env | apply Hf3].
  - set (q3 := recordDelivery now' None q2).
    assert (frame q q3) as Hf3 by (etrans; [exact Hf2 | apply frame_recordDelivery]).
    set (q4 := if sent <? rt then incrementRetrySuccess q3 else q3).
    assert (frame q q4) as Hf4.
    { etrans; [exact Hf3|]. unfold q4. case_match; [|done].
      apply frame_incrementRetrySuccess. by apply Hf3. }
    destruct (popFront_popped false q q4 Hi Hf4) as [Hp He].
    pose proof (frame_pending now' (popFront false q4)) as Hfp.
    destruct (rl <? rt); [|by eexists _, _, _, _].
    eexists _, _, _, _. split; [done|]. destruct Hfp as (E & M & I & L & Q & D).
    destruct He as (I' & M' & Q' & L' & D'). split.
    + split_and!; [auto | congruence | auto | lia | auto].
    + unfold popped in *. rewrite E. destruct Hp as [Hp|(Hp & Hq & Hlt)]; [by left | right].
      split_and!; [done | done | lia].
Qed.

(** The payload was posted, and the response was a success or a final refusal. *)
Definition settled (post : poster) (posted : list string) (b : string) : Prop :=
  exists i, reverse posted !! i = Some b /\
    match (post i b).1 with None => True | Some e => terminal e = true end.

Lemma settled_head post posted b :
  match (post (length posted) b).1 with None => True | Some e => terminal e = true end ->
  settled post (b :: posted) b.
Proof.
  intros Hp. exists (length posted). rewrite reverse_cons. split; [|done].
  by apply list_lookup_middle; rewrite length_reverse.
Qed.

Lemma settled_app post k posted b : settled post posted b -> settled post (k ++ posted) b.
Proof.
  intros (i & Hi & Hp). exists i. split; [|done]. rewrite reverse_app.
  rewrite lookup_app_l; [done|]. by eapply lookup_lt_Some.
Qed.

(** Enough fuel for the loop: every round uses up a transaction outcome of the
    environment or takes a payload. *)
Definition enough (fuel : nat) q : Prop := (io_left q + length (contents q) < fuel)%nat.

Lemma popped_fuel q q' body l :
  contents q = body :: l -> same_env q q' -> popped q q' ->
  (io_left q' + length (contents q') < io_left q + length (contents q))%nat.
Proof.
  intros E (_ & _ & _ & L & _) [Hp|(Hp & _ & Hlt)]; rewrite Hp; rewrite ?E in *; cbn; lia.
Qed.

(** Whatever transactions fail, and however many rounds the loop has made. *)
Lemma flush_rounds_safe fuel post now rt rl sent q posted :
  Inv q ->
  exists outcome q' k gone,
    flush_rounds fuel post now rt rl sent q posted = (outcome, q', (k ++ posted)%list) /\
    same_env q q' /\ contents q = (gone ++ contents q')%list /\
    Forall (settled post (k ++ posted)) gone /\
    (outcome = None -> (fuel + io_left q' + length (contents q') <= io_left q + length (contents q))%nat).
Proof.
  revert now rl sent q posted. induction fuel as [|fuel IH]; intros now rl sent q posted Hi.
  { exists None, q, [], []. split_and!; [done|by apply frame_env|done..|intros _; lia]. }
  destruct (flush_round fuel post now rt rl sent q posted Hi)
    as [(q' & Hr & Hfr & _)|(body & l & Hl & Hr)].
  { exists (Some None), q', [], []. destruct (Hfr) as (E & _). rewrite E.
    split_and!; [done | by apply frame_env | done..]. }
  destruct (post (length posted) body).1 as [e|] eqn:Ep.
  - destruct Hr as (q' & Hr & He & Hp). exists (Some (Some e)), q', [body].
    destruct (terminal e) eqn:Et; [destruct Hp as [Hp|(Hp & _)]|]; rewrite Hp, Hl; cbn [tail].
    + exists [body]. split_and!; [done..| |done]. constructor; [|done].
      apply settled_head. by rewrite Ep.
    + by exists [].
    + by exists [].
  - destruct Hr as (q' & now' & rl' & sent' & Hr & He & Hp).
    destruct (IH now' rl' sent' q' (body :: posted)) as (outcome & q2 & k & gone & Hk & He2 & Hc & Hg & Hn).
    { apply He. }
    pose proof (popped_fuel _ _ _ _ Hl He Hp) as Hlt.
    replace (k ++ body :: posted)%list with ((k ++ [body]) ++ posted)%list in * by (by rewrite <- app_assoc).
    exists outcome, q2, (k ++ [body])%list. rewrite Hr.
    assert (outcome = None -> (S fuel + io_left q2 + length (contents q2) <= io_left q + length (contents q))%nat)
      as Hn' by (intros Eo; specialize (Hn Eo); lia).
    destruct Hp as [Hp|(Hp & _)]; rewrite Hp, Hl in Hc; cbn [tail] in Hc.
    + exists (body :: gone). split_and!; [done | by etrans | by rewrite Hl, Hc | | done].
      constructor; [|done]. rewrite <- app_assoc. apply settled_app, settled_head. by rewrite Ep.
    + exists gone. split_and!; [done | by etrans | by rewrite Hl | done..].
Qed.

Lemma peekable_tail q q' : peekable q -> contents q' = tail (contents q) -> same_env q q' -> peekable q'.
Proof.
  intros [Hp|Hp] E (_ & _ & _ & _ & Hd); [left | right; auto].
  rewrite E. by destruct Hp.
Qed.

(** With a disk that works, the POSTs are the payloads in order. *)
Lemma flush_rounds_fifo fuel post now rt rl sent q posted err q' posted' :
  Inv q -> quiet q -> peekable q ->
  flush_rounds fuel post now rt rl sent q posted = (Some err, q', posted') ->
  match err with
  | None => contents q' = [] /\ reverse posted' = (reverse posted ++ contents q)%list
  | Some e => exists acked b rest,
      contents q = (acked ++ b :: rest)%list /\
      reverse posted' = (reverse posted ++ acked ++ [b])%list /\
      (post (length posted + length acked)%nat b).1 = Some e /\
      contents q' = if terminal e then rest else b :: rest
  end.
Proof.
  revert now rl sent q posted. induction fuel as [|fuel IH]; intros now rl sent q posted Hi Hqu Hpk; [done|].
  destruct (flush_round fuel post now rt rl sent q posted Hi)
    as [(q1 & Hr & Hfr & Hc)|(body & l & Hl & Hr)].
  { rewrite Hr. intros [= <- <- <-]. destruct Hfr as (E & _). rewrite E, Hc by done.
    by rewrite app_nil_r. }
  destruct (post (length posted) body).1 as [e|] eqn:Ep.
  - destruct Hr as (q1 & Hr & He & Hp). rewrite Hr. intros [= <- <- <-].
    exists [], body, l. rewrite Nat.add_0_r, reverse_cons. split_and!; try done.
    destruct (terminal e); [|by rewrite Hp]. destruct Hp as [Hp|(_ & Hn & _)]; [|done].
    by rewrite Hp, Hl.
  - destruct Hr as (q1 & now' & rl' & sent' & Hr & He & Hp). rewrite Hr. intros Hloop.
    destruct Hp as [Hp|(_ & Hn & _)]; [|done].
    pose proof He as (Hi1 & _ & Hq1 & _).
    specialize (IH _ _ _ _ _ Hi1 (Hq1 Hqu) (peekable_tail _ _ Hpk Hp He) Hloop).
    rewrite Hp, Hl, reverse_cons in IH. cbn [tail] in IH. rewrite Hl.
    destruct err as [e|].
    + destruct IH as (acked & b & rest & -> & Hrev & Hpost & Hc).
      exists (body :: acked), b, rest. split_and!; [done | | | done].
      * by rewrite Hrev, <- app_assoc.
      * rewrite <- Hpost. cbn [length]. do 2 f_equal. lia.
    + destruct IH as [Hc Hrev]. split; [done|]. by rewrite Hrev, <- app_assoc.
Qed.

(** ** Batches *)

Lemma delete_keys_prefix es1 es2 p :
  kv_entries p = (es1 ++ es2)%list ->
  exists p', delete_keys es1.*1 p = Ok p' /\ kv_entries p' = es2.
Proof.
  revert p. induction es1 as [|[k v] es1 IH]; intros p Hp; cbn; [by exists p|].
  destruct (kv_delete_total k p) as [p1 Hp1]. rewrite Hp1. cbn [mbind res_bind].
  apply IH. by eapply kv_entries_delete_first.
Qed.

Lemma ack_tx_spec (es : list (string * string)) isRetry (d : boltdb B) p es2 :
  durable_ok d -> payloads d = Some p -> kv_entries p = (es ++ es2)%list ->
  exists d', ack_tx es.*1 (size es.*2) isRetry d = Ok (tt, d') /\ durable_ok d' /\
    io d' = io d /\ bodies d' = es2.*2.
Proof.
  intros (p0 & m & Hp0 & Hm & Hkeys & Hcount & Hbytes) Hp Hes.
  assert (p0 = p) as -> by congruence.
  pose proof (readMeta_range m metaBytes) as Hrb. pose proof (readMeta_range m metaCount) as Hrc.
  unfold ack_tx. rewrite Hp, Hm.
  destruct (delete_keys_prefix es es2 p Hes) as (p1 & -> & Hp1). cbn [mbind res_bind].
  rewrite Hes, length_app in Hcount. rewrite Hes, fmap_app, size_app in Hbytes.
  pose proof (size_nonneg es.*2). pose proof (size_nonneg es2.*2). unfold in_u64 in *.
  rewrite length_fmap, (u64_small (_ - Z.of_nat _)) by (unfold in_u64; lia).
  meta_write Hm1. rewrite (readMeta_write _ _ _ _ _ Hm1) by (unfold in_u64; lia).
  rewrite decide_False, (u64_small (_ - size _)) by (done || unfold in_u64; lia).
  meta_write Hm2.
  assert (exists m3, (if isRetry then writeMeta m1 metaRetryOK (u64 (readMeta m1 metaRetryOK + 1))
     else Ok m1) = Ok m3 /\ forall k, k <> metaRetryOK -> readMeta m3 k = readMeta m1 k)
    as (m3 & -> & Hm3).
  { destruct isRetry; [|by eexists]. destruct (writeMeta_ok m1 metaRetryOK
      (u64 (readMeta m1 metaRetryOK + 1))) as [m3 Hm3]; [by vm_compute|]. exists m3. split; [done|].
    intros k' Hk'. rewrite (readMeta_write _ _ _ _ _ Hm3) by apply u64_range.
    by rewrite decide_False. }
  cbn [mbind res_bind]. eexists. split; [done|]. unfold bodies. cbn [payloads meta io].
  rewrite Hp1. split_and!; [|done..]. exists p1, m3.
  rewrite !Hm3, !(readMeta_write _ _ _ _ _ Hm2), !(readMeta_write _ _ _ _ _ Hm1) by (unfold in_u64; done || lia).
  rewrite Hp1. rewrite ?(decide_False (P := metaBytes = _)), ?(decide_False (P := metaCount = _)),
    !decide_True by done.
  split_and!; [done | done | | lia | lia].
  rewrite Hes in Hkeys. by apply Forall_app in Hkeys as [_ ?].
Qed.

(** The payload was in a batch that was acknowledged. *)
Definition batch_acked (post : batch_poster) (posted : list (list string)) (b : string) : Prop :=
  exists i batch, reverse posted !! i = Some batch /\ b ∈ batch /\ (post i batch).1 = None.

Lemma batch_acked_head post posted batch :
  (post (length posted) batch).1 = None -> Forall (batch_acked post (batch :: posted)) batch.
Proof.
  intros Hp. apply Forall_forall. intros b Hb. exists (length posted), batch.
  rewrite reverse_cons. split_and!; [|done..]. by apply list_lookup_middle; rewrite length_reverse.
Qed.

Lemma batch_acked_app post k posted b : batch_acked post posted b -> batch_acked post (k ++ posted) b.
Proof.
  intros (i & batch & Hi & Hp). exists i, batch. split; [|done]. rewrite reverse_app.
  rewrite lookup_app_l; [done|]. by eapply lookup_lt_Some.
Qed.

(** A batch is not empty, within the limit and made of pending payloads. *)
Definition batch_ok (limit : nat) q (batch : list string) : Prop :=
  (0 < length batch <= limit)%nat /\ forall b, b ∈ batch -> b ∈ contents q.

(** What one call leaves behind: payloads are gone from the front, each of them
    acknowledged in a batch; every batch is within the limit. *)
Definition batch_result (limit : nat) (post : batch_poster) q (posted : list (list string))
    (r : option (option goerr * Queue B * list (list string))) : Prop :=
  exists err q' k gone, r = Some (err, q', (k ++ posted)%list) /\ Inv q' /\
    contents q = (gone ++ contents q')%list /\
    Forall (batch_acked post (k ++ posted)) gone /\
    Forall (batch_ok limit q) k /\
    (err = None -> contents q' = []).

Lemma batch_result_stop limit post q q' posted err :
  Inv q' -> contents q' = contents q -> err = None \/ err <> None ->
  (err = None -> contents q' = []) ->
  batch_result limit post q posted (Some (err, q', posted)).
Proof. intros Hi E _ Hn. exists err, q', [], []. rewrite E in *. by split_and!. Qed.

(** Reading the first [limit] entries. *)
Lemma front_view limit q (d : boltdb B) r q' :
  Inv q -> db q = Some d -> view (front limit) q d = (r, q') ->
  frame q q' /\ exists d' p, db q' = Some d' /\ payloads d' = Some p /\
    contents q = (kv_entries p).*2 /\
    match r with Ok es => es = take limit (kv_entries p) | Err _ => True end.
Proof.
  intros [_ Hi] Hq Hv. rewrite Hq in Hi. destruct Hi as (p & m & Hp & _).
  split; [by eapply frame_view|].
  destruct (view_spec _ _ _ _ _ Hq Hv) as (d' & -> & [= Hc _] & _ & _ & Hr).
  exists d', p. rewrite (bodies_contents _ _ Hq). unfold bodies. cbn. rewrite Hc, Hp.
  split_and!; [done..|]. destruct r as [es|e]; [|done].
  destruct Hr as (d1 & [= Hc1 _] & Hf). unfold front in Hf. rewrite Hc1, Hp in Hf. by injection Hf.
Qed.

Lemma bump_payloads key q (d : boltdb B) :
  exists d', updateCounterLocked key q d = set_db (Some d') q /\ payloads d' = payloads d.
Proof.
  unfold updateCounterLocked, update, db_update. pose proof (begin_tx_content d) as Hc.
  destruct (begin_tx d) as [o d1]. injection Hc as Hc _. unfold bump.
  destruct (meta d1) as [m|]; [|by exists d1].
  destruct (writeMeta m key _); cbn; [|by exists d1]. destruct o; cbn; eexists; done.
Qed.

(** Removing an acknowledged batch. *)
Lemma ack_update es es2 isRetry q (d : boltdb B) p r q' :
  Inv q -> db q = Some d -> payloads d = Some p -> kv_entries p = (es ++ es2)%list -> es <> [] ->
  update (ack_tx es.*1 (size es.*2) isRetry) q d = (r, q') ->
  Inv q' /\ (exists d', db q' = Some d') /\
  match r with
  | Ok _ => contents q' = es2.*2 /\ (io_left q' + length (contents q') < io_left q + length (contents q))%nat
  | Err _ => contents q' = contents q
  end.
Proof.
  intros [Hmax Hi] Hq Hp Hes Hne Eu. rewrite Hq in Hi.
  eapply (update_spec (fun _ d' => durable_ok d' /\ bodies d' = es2.*2)) in Eu
    as (d' & -> & Hl & _ & HR); [|exact Hq|].
  2: { intros d1 Hd1. pose proof Hd1 as [= Hp1 _].
       destruct (ack_tx_spec es isRetry d1 p es2) as (d2 & ? & ? & ? & Hb); try congruence.
       - by eapply durable_content.
       - by eexists _, d2. }
  rewrite (bodies_contents _ d Hq), (bodies_contents _ d') by done.
  unfold Inv; cbn [db set_db maxBytes].
  destruct r as [u|e].
  - destruct HR as [HR1 HR2]. split_and!; try done; try lia; [by eexists|]. rewrite HR2.
    unfold bodies. rewrite Hp, Hes, !length_fmap, length_app. destruct es; [done|]. cbn [length]. lia.
  - destruct HR as (Hc & _). split_and!; try done; try lia; [|by eexists | by apply bodies_content].
    by eapply durable_content.
Qed.

Lemma take_sub {A} n (l : list A) x : x ∈ take n l -> x ∈ l.
Proof. rewrite <- (take_drop n l) at 2. rewrite elem_of_app. by left. Qed.

(** One more batch was posted: failed or not removed, or removed and followed by
    the batches of the rest of the call. *)
Lemma batch_result_failed limit post q q' posted batch e :
  Inv q' -> contents q' = contents q -> batch_ok limit q batch ->
  batch_result limit post q posted (Some (Some e, q', batch :: posted)).
Proof.
  intros Hi E Hb. exists (Some e), q', [batch], []. rewrite E. split_and!; try done.
  by constructor.
Qed.

Lemma batch_result_more limit post q q' posted batch r :
  contents q = (batch ++ contents q')%list -> batch_ok limit q batch ->
  (post (length posted) batch).1 = None ->
  batch_result limit post q' (batch :: posted) r -> batch_result limit post q posted r.
Proof.
  intros E Hb Hp (err & q2 & k & gone & Hr & Hi & Hc & Hg & Hk & Hn).
  assert (k ++ batch :: posted = (k ++ [batch]) ++ posted)%list as Ek by (by rewrite <- app_assoc).
  exists err, q2, (k ++ [batch])%list, (batch ++ gone)%list. rewrite <- Ek.
  split_and!; [done | done | by rewrite E, Hc, app_assoc | | | done].
  - apply Forall_app. split; [|done]. rewrite Forall_forall. intros b Hin.
    apply batch_acked_app. by eapply Forall_forall in Hin; [|by apply batch_acked_head].
  - apply Forall_app. split; [|by constructor]. eapply Forall_impl; [exact Hk|].
    intros b [Hl Hin]. split; [done|]. intros x Hx. rewrite E. apply elem_of_app. right. auto.
Qed.

Lemma flush_batch_safe fuel ctx_err limit post ret q (d : boltdb B) posted :
  Inv q -> db q = Some d -> (0 < limit)%nat -> enough fuel q ->
  batch_result limit post q posted (flush_batch_loop fuel ctx_err limit post ret q d posted).
Proof.
  revert ret q d posted. induction fuel as [|fuel IH]; intros ret q d posted Hi Hq Hlim Hf;
    [unfold enough in Hf; lia|].
  cbn [flush_batch_loop]. destruct (ctx_err (length posted)) as [e|].
  { apply batch_result_stop; auto; done. }
  destruct (view (front limit) q d) as [r q1] eqn:Ev.
  destruct (front_view _ _ _ _ _ Hi Hq Ev) as [Hfr (d1 & p & Hd1 & Hp & Hc & Hr)].
  rewrite Hd1. pose proof Hfr as (E & M & I & L & Q & D). specialize (I Hi).
  destruct r as [es|e]; [|by apply batch_result_stop; auto].
  assert (es = [] \/ exists e0 es0, es = e0 :: es0) as [->|(e0 & es0 & Ees)]
    by (destruct es; eauto).
  { apply batch_result_stop; auto. intros _. rewrite E, Hc.
    destruct (kv_entries p); [done|]. by destruct limit; [lia|]. }
  assert (es <> []) as Hne by (by rewrite Ees).
  match goal with |- batch_result _ _ _ _ (match es with [] => _ | _ :: _ => ?t end) =>
    replace (match es with [] => _ | _ :: _ => t end) with t by (by rewrite Ees) end.
  clear e0 es0 Ees.
  set (q2 := if 0 <? ret then updateCounterLocked metaRetries q1 d1 else q1).
  assert (frame q1 q2 /\ exists d2, db q2 = Some d2 /\ payloads d2 = Some p) as [Hf2 (d2 & Hd2 & Hp2)].
  { unfold q2. case_match; [|split; [done | by exists d1]]. split.
    - by apply frame_bump; [apply metaRetries_plain|..].
    - destruct (bump_payloads metaRetries q1 d1) as (d2 & -> & Hd2). exists d2. cbn. by rewrite Hd2. }
  destruct (post (length posted) es.*2) as [err now] eqn:Ep.
  set (q3 := recordDelivery now err q2).
  assert (frame q q3) as Hf3 by (etrans; [exact Hfr | etrans; [exact Hf2 | apply frame_recordDelivery]]).
  pose proof Hf3 as (E3 & _ & I3 & L3 & _). specialize (I3 Hi).
  assert (db q3 = Some d2) as Hd3 by done. rewrite Hd3.
  assert (batch_ok limit q es.*2) as Hb.
  { subst es. unfold batch_ok. rewrite Hc, length_fmap, length_take. split.
    - destruct (kv_entries p); [by destruct limit|]. cbn [length]. lia.
    - intros b. rewrite fmap_take. apply take_sub. }
  destruct err as [e|]; [by apply batch_result_failed|].
  destruct (update _ q3 d2) as [r q4] eqn:Eu.
  destruct (ack_update es (drop limit (kv_entries p)) (0 <? ret) q3 d2 p r q4)
    as (I4 & (d4 & Hd4) & Hr4); try done; [by rewrite Hr, take_drop|].
  rewrite Hd4. destruct r as [u|e]; [|apply batch_result_failed; [done | congruence | done]].
  destruct Hr4 as [Hc4 Hl4]. eapply batch_result_more; [|exact Hb | by rewrite Ep |].
  - by rewrite Hc, Hc4, Hr, <- fmap_app, take_drop.
  - apply IH; try done. unfold enough in *. rewrite E3 in Hl4. lia.
Qed.

End facts.
End SendQueueFacts.
