(* ===== verification/SendQueueProps.v ===== *)
(** * What the send queue promises

    The properties of offers, flushes, batches, restarts and cool-downs, stated
    on the payloads a queue holds, for both representations, with the failures
    of the disk chosen by the environment.  Witnesses run on [MemKV]. *)

From S2P Require Import Prelude GoStrings Bolt SendQueue SendQueueFacts.
#[local] Open Scope Z_scope.

Module SendQueueProps.
Import SendQueue SendQueueFacts MemKV.

Section offers.
Context {B : Type} `{KVLaws B}.
Implicit Types (q : Queue B) (d : boltdb B).

(** The queue can count one more payload: no limit in memory, [room] on disk. *)
Definition has_room (body : string) q : Prop :=
  match db q with None => True | Some d => room body d end.

(** What one accepted payload does to the abstract queue. *)
Definition accepted (body : string) q q' : Prop :=
  contents q' = evict (maxBytes q) (contents q ++ [body]) /\
  dropped_total q' = dropped_total q + (Z.of_nat (length (contents q)) + 1 - Z.of_nat (length (contents q'))) /\
  retained_total q' = retained_total q + 1.

Definition rejected q q' : Prop :=
  contents q' = contents q /\ dropped_total q' = dropped_total q /\ retained_total q' = retained_total q.

Lemma room_content body d d' : content d' = content d -> room body d -> room body d'.
Proof. intros [= E1 E2] [Hl Hr]. split; [done|]. intros m Hm. apply Hr. congruence. Qed.

Lemma count_content key d d' : content d' = content d -> count_of key d' = count_of key d.
Proof. intros [= E1 E2]. unfold count_of. by rewrite E2. Qed.

Lemma durable_totals q d :
  db q = Some d ->
  contents q = bodies d /\ dropped_total q = count_of metaDropped d /\
  retained_total q = count_of metaRetained d.
Proof. intros Hq. unfold contents, dropped_total, retained_total, counter. by rewrite Hq. Qed.

Lemma Inv_maxBytes q q' d' :
  Inv q -> maxBytes q' = maxBytes q -> db q' = Some d' -> durable_ok d' -> Inv q'.
Proof. intros [? _] E Hq Hd. unfold Inv. by rewrite E, Hq. Qed.

Lemma snapshot_totals now q d s q' :
  Inv q -> db q = Some d -> snapshotPersistentLocked now q d = (s, q') ->
  Inv q' /\ maxBytes q' = maxBytes q /\ rejected q q' /\
  unflushedOffers q' = unflushedOffers q /\ blockedTil q' = blockedTil q /\
  (quiet q -> Bytes s = i64 (size (contents q))) /\
  exists d', db q' = Some d' /\ content d' = content d.
Proof.
  intros Hi Hq. unfold snapshotPersistentLocked. pose proof Hi as [_ Hd]. rewrite Hq in Hd.
  destruct (view _ q d) as [r q1] eqn:Ev.
  destruct (view_spec _ _ _ _ _ Hq Ev) as (d' & -> & Hc & _ & Hqu & Hr).
  assert (durable_ok d') as Hd' by (by eapply durable_content).
  destruct (durable_totals q d Hq) as (E1 & E2 & E3).
  destruct (durable_totals (set_db (Some d') q) d' eq_refl) as (F1 & F2 & F3).
  rewrite (bodies_content _ _ Hc) in F1. rewrite (count_content _ _ _ Hc) in F2. rewrite (count_content _ _ _ Hc) in F3.
  assert (rejected q (set_db (Some d') q)) as Hrej by (unfold rejected; split_and!; congruence).
  assert (Inv (set_db (Some d') q)) by (by eapply Inv_maxBytes).
  destruct r as [st|e]; intros [= <- <-]; split_and!; try done; try (by exists d').
  - intros _. destruct Hr as (d1 & [= Hd1 Hd2] & Hf).
    destruct Hd as (p & m & Hp & Hm & _ & _ & Hb). rewrite Hd2, Hm in Hf.
    injection Hf as <-. cbn. by rewrite Hb, E1; unfold bodies; rewrite Hp.
  - intros Hquiet. destruct Hr as [?|(d1 & e' & [= Hd1 Hd2] & Hf)]; [done|].
    destruct Hd as (p & m & Hp & Hm & _). by rewrite Hd2, Hm in Hf.
Qed.

Lemma offerPersistent_spec now body fresh q d r q' :
  Inv q -> db q = Some d -> room body d ->
  offerPersistentLocked now body fresh q d = (r, q') ->
  Inv q' /\ maxBytes q' = maxBytes q /\
  unflushedOffers q' = unflushedOffers q + (if fresh && is_ok r then 1 else 0) /\
  (if is_ok r then accepted body q q' else rejected q q' /\ ~ quiet q).
Proof.
  intros Hi Hq Hroom. unfold offerPersistentLocked.
  destruct (update _ q d) as [r1 q1] eqn:Eu. pose proof Hi as [Hmax Hd]. rewrite Hq in Hd.
  eapply (update_spec (fun n d' => durable_ok d' /\ bodies d' = evict (maxBytes q) (bodies d ++ [body]) /\
      count_of metaDropped d' = count_of metaDropped d + n /\
      n = Z.of_nat (length (bodies d)) + 1 - Z.of_nat (length (bodies d')) /\
      count_of metaRetained d' = count_of metaRetained d + 1)) in Eu
    as (d1 & -> & _ & _ & HR); [|exact Hq|].
  2: { intros d1 Hd1. destruct (offer_tx_spec (maxBytes q) body d1) as (n & d2 & Ht & ? & ? & Hrest).
       - done. - by eapply durable_content. - by eapply room_content.
       - rewrite (bodies_content _ _ Hd1), !(count_content _ _ _ Hd1) in Hrest. by exists n, d2. }
  destruct (durable_totals q d Hq) as (E1 & E2 & E3).
  destruct r1 as [n|e].
  - destruct HR as (Hd1 & Hb & Hdr & Hn & Hre).
    set (q1 := if fresh then _ else _).
    assert (db q1 = Some d1 /\ maxBytes q1 = maxBytes q /\
      unflushedOffers q1 = unflushedOffers q + (if fresh then 1 else 0)) as (Hq1 & Hm1 & Hu1)
      by (subst q1; destruct fresh; cbn; split_and!; done || lia).
    rewrite Hq1. destruct (durable_totals q1 d1 Hq1) as (F1 & F2 & F3).
    assert (Inv q1) as Hi1 by (by eapply Inv_maxBytes).
    destruct (snapshotPersistentLocked now q1 d1) as [s q2] eqn:Es.
    destruct (snapshot_totals _ _ _ _ _ Hi1 Hq1 Es) as (Hi2 & Hm2 & (C1 & C2 & C3) & Hu2 & _).
    intros [= <- <-]. cbn. rewrite andb_true_r. split_and!; [done | congruence | by rewrite Hu2 |].
    unfold accepted. split_and!; congruence.
  - destruct HR as (Hc & _ & Hnq). intros [= <- <-].
    destruct (durable_totals (set_db (Some d1) q) d1 eq_refl) as (F1 & F2 & F3).
    rewrite (bodies_content _ _ Hc) in F1. rewrite (count_content _ _ _ Hc) in F2. rewrite (count_content _ _ _ Hc) in F3.
    cbn. rewrite andb_false_r, Z.add_0_r. unfold rejected. split_and!; try done; try congruence.
    eapply Inv_maxBytes; [done..| by eapply durable_content].
Qed.

Lemma drop_oldest_evict max l bs n :
  bs = size l ->
  drop_oldest max l bs n =
    (evict max l, size (evict max l), n + (Z.of_nat (length l) - Z.of_nat (length (evict max l)))).
Proof.
  revert bs n. induction l as [|a l IH]; intros bs n ->; [cbn; by rewrite Z.add_0_r|].
  destruct l as [|b l]; [cbn; do 2 f_equal; lia|].
  rewrite evict_cons2. change (drop_oldest max (a :: b :: l) (size (a :: b :: l)) n) with
    (if max <? size (a :: b :: l) then drop_oldest max (b :: l) (size (a :: b :: l) - str_len a) (n + 1)
     else (a :: b :: l, size (a :: b :: l), n)).
  case_match; [|f_equal; lia].
  rewrite IH by (rewrite (size_cons a); lia). f_equal. cbn [length]. lia.
Qed.

Lemma offerMemory_spec body fresh q :
  Inv q -> db q = None ->
  let q' := offerMemory body fresh q in
  Inv q' /\ maxBytes q' = maxBytes q /\
  unflushedOffers q' = unflushedOffers q + (if fresh then 1 else 0) /\ accepted body q q'.
Proof.
  intros [Hmax Hb] Hq. rewrite Hq in Hb.
  assert (bytes q + str_len body = size (items q ++ [body])) as Es.
  { rewrite size_app, Hb. unfold size; cbn; lia. }
  pose proof (evict_suffix (maxBytes q) (items q ++ [body])) as [k Hk].
  apply (f_equal length) in Hk. rewrite !length_app in Hk. cbn [length] in Hk.
  unfold offerMemory, accepted, dropped_total, retained_total, counter, Inv, contents.
  destruct fresh; cbn; rewrite drop_oldest_evict by done; rewrite length_app; cbn [length];
    (destruct (0 <? _) eqn:E; cbn; rewrite !Hq; cbn; split_and!; try done; try lia).
  all: apply Z.ltb_ge in E; rewrite ?Nat2Z.inj_add in *; lia.
Qed.

(** The part of an offer that follows the classification of the error. *)
Lemma Offer_retained now body err q r q' :
  Inv q -> has_room body q -> (noteTerminal now err q).1 = false ->
  Offer now body err q = (r, q') ->
  Inv q' /\ maxBytes q' = maxBytes q /\
  (if is_ok r then accepted body q q' /\
     unflushedOffers q' = unflushedOffers q + (if is_nil err then 1 else 0)
   else rejected q q' /\ ~ quiet q).
Proof.
  intros Hi Hroom Hnt. unfold Offer.
  assert ((noteTerminal now err q).2 = q) as Hq2.
  { unfold noteTerminal in *. destruct (err ≫= as_status); [|done]. by repeat case_match. }
  destruct (noteTerminal now err q) as [t q1]. cbn in Hnt, Hq2. subst t q1.
  unfold has_room in Hroom. destruct (db q) as [d|] eqn:Hq.
  - intros Ho. destruct (offerPersistent_spec _ _ _ _ _ _ _ Hi Hq Hroom Ho) as (? & ? & Hu & Hr).
    destruct r; cbn in *; rewrite ?andb_true_r in Hu; done.
  - intros [= <- <-]. destruct (offerMemory_spec body (is_nil err) q Hi Hq) as (? & ? & ? & ?). done.
Qed.

(** An offer uses up outcomes of transactions, it adds none. *)
Lemma Offer_io now body err q :
  Inv q -> has_room body q -> (io_left (Offer now body err q).2 <= io_left q)%nat.
Proof.
  intros Hi Hroom. unfold Offer.
  assert (db (noteTerminal now err q).2 = db q /\ maxBytes (noteTerminal now err q).2 = maxBytes q) as [Hd Hm].
  { unfold noteTerminal, note_log. repeat case_match; done. }
  pose proof (frame_noteTerminal now err q) as (_ & _ & I1 & L1 & _). specialize (I1 Hi).
  destruct (noteTerminal now err q) as [t q1]. cbn [snd] in *. destruct t.
  { cbn. pose proof (frame_incrementDropped q1 I1) as (_ & _ & _ & L & _). lia. }
  unfold has_room in Hroom. rewrite Hd. destruct (db q) as [d|] eqn:Hq.
  2: { unfold offerMemory. cbn [snd]. destruct (drop_oldest _ _ _ _) as [[x y] z].
       unfold io_left. rewrite Hq. destruct (is_nil err), (0 <? z); cbn; by rewrite Hd. }
  unfold offerPersistentLocked. destruct (update _ q1 d) as [r q2] eqn:Eu.
  pose proof Hi as [_ Hok]. rewrite Hq in Hok.
  eapply (update_spec (fun _ _ => True)) in Eu as (d2 & -> & L2 & _); [|exact Hd|].
  2: { intros d1 Hd1. destruct (offer_tx_spec (maxBytes q1) body d1) as (n & d2 & ? & _ & ? & _).
       - rewrite Hm. by destruct Hi. - by eapply durable_content. - by eapply room_content.
       - by exists n, d2. }
  destruct r as [n|e]; [|cbn in *; lia].
  set (q3 := if is_nil err then _ else _).
  assert (db q3 = Some d2 /\ io_left q3 = io_left (set_db (Some d2) q1)) as [Hq3 L3]
    by (subst q3; by destruct (is_nil err)).
  rewrite Hq3. pose proof (frame_snapshotPersistent now q3 d2 Hq3) as (_ & _ & _ & L4 & _). cbn [snd]. lia.
Qed.

(** What a flush has done after any number of rounds, whatever fails. *)
Lemma FlushRounds_safe fuel (post : poster) now q :
  Inv q ->
  exists outcome q' posted gone,
    FlushRounds fuel post now q = (outcome, q', posted) /\ same_env q q' /\
    contents q = (gone ++ contents q')%list /\ Forall (settled post posted) gone /\
    (outcome = None -> (fuel + io_left q' + length (contents q') <= io_left q + length (contents q))%nat).
Proof.
  intros Hi. unfold FlushRounds. destruct (Blocked now q).
  { exists (Some None), q, [], []. by split_and!; [|apply frame_env| | |]. }
  set (q0 := set_unflushedOffers 0 q).
  assert (frame q q0) as Hf0 by (by apply frame_field).
  pose proof (frame_pendingLocked q0) as Hp. destruct (pendingLocked q0) as [n q1]. cbn in Hp.
  assert (frame q q1) as Hq1 by (by etrans). pose proof Hq1 as (E & M & I & L & _).
  destruct (flush_rounds_safe fuel post now
    (if n - unflushedOffers q <? 0 then 0 else n - unflushedOffers q) 0 0 q1 [] (I Hi))
    as (outcome & q' & k & gone & Hr & He & Hc & Hg & Hn).
  rewrite app_nil_r in Hr, Hg. exists outcome, q', k, gone. rewrite <- E. split_and!; try done.
  - etrans; [by apply frame_env|done].
  - intros Eo. specialize (Hn Eo). lia.
Qed.

(** A flush that returns, and why one would not. *)
Lemma Flush_safe fuel (post : poster) now q :
  Inv q ->
  match Flush fuel post now q with
  | Some (err, q', posted) => exists gone, same_env q q' /\
      contents q = (gone ++ contents q')%list /\ Forall (settled post posted) gone
  | None => ~ enough fuel q
  end.
Proof.
  intros Hi. unfold Flush.
  destruct (FlushRounds_safe fuel post now q Hi) as ([err|] & q' & posted & gone & -> & He & Hc & Hg & Hn).
  - by exists gone.
  - specialize (Hn eq_refl). unfold enough. lia.
Qed.

(** What a batched flush leaves behind, whatever fails. *)
Lemma FlushBatch_safe fuel (ctx_err : nat -> option goerr) limit post now q d :
  Inv q -> db q = Some d -> 0 < limit -> enough fuel q ->
  batch_result (Z.to_nat limit) post q [] (FlushBatch fuel ctx_err limit post now q).
Proof.
  intros Hi Hq Hl Hf. unfold FlushBatch. rewrite Hq.
  destruct (limit <? 1) eqn:El; [apply Z.ltb_lt in El; lia|].
  pose proof (frame_snapshotPersistent now q d Hq) as (E & M & I & L & _).
  destruct (snapshotPersistentLocked now q d) as [s q1] eqn:Es. cbn in E, M, I, L.
  destruct (snapshot_totals _ _ _ _ _ Hi Hq Es) as (_ & _ & _ & _ & _ & _ & (d1 & Hq1 & _)).
  set (q2 := set_unflushedOffers 0 q1).
  change (db q2) with (db q1). rewrite Hq1.
  assert (frame q1 q2) as (E2 & _ & I2 & L2 & _) by (by apply frame_field).
  destruct (flush_batch_safe fuel ctx_err (Z.to_nat limit) post (Pending s - unflushedOffers q1)
    q2 d1 []) as (err & q' & k & gone & Hr & Hi' & Hc & Hg & Hk & Hn); auto; try lia.
  { unfold enough in *. rewrite E2, E. lia. }
  exists err, q', k, gone. rewrite <- E, <- E2. unfold batch_ok in *. by rewrite <- E, <- E2.
Qed.

End offers.

Section properties.
Context {B : Type} `{KVLaws B}.
Implicit Types (q : Queue B) (d : boltdb B).

(** C5: an offer of a payload that is not terminally refused implements the
    abstract queue, in memory and on disk: it appends the payload and drops the
    oldest ones while the bytes exceed the limit, keeps the representation
    invariant, counts what it retained and dropped, and leaves the queue within
    its byte limit or with the new payload alone; an offer that returns an error
    (only when a transaction failed) has changed neither payloads nor counters. *)
Theorem offer_refines now body err q r q' :
  Inv q -> has_room body q ->
  match err with Some e => terminal e = false | None => True end ->
  Offer now body err q = (r, q') ->
  Inv q' /\ maxBytes q' = maxBytes q /\
  match r with
  | Ok _ =>
      contents q' = evict (maxBytes q) (contents q ++ [body]) /\
      size (contents q') <= Z.max (maxBytes q) (str_len body) /\
      dropped_total q' = dropped_total q +
        (Z.of_nat (length (contents q)) + 1 - Z.of_nat (length (contents q'))) /\
      retained_total q' = retained_total q + 1
  | Err _ =>
      contents q' = contents q /\ dropped_total q' = dropped_total q /\
      retained_total q' = retained_total q /\ ~ quiet q
  end.
Proof.
  intros Hi Hroom Hnt Ho.
  assert ((noteTerminal now err q).1 = false) as Hn
    by (destruct err; [by rewrite noteTerminal_terminal | done]).
  destruct (Offer_retained _ _ _ _ _ _ Hi Hroom Hn Ho) as (Hi' & Hm & Hr).
  split_and!; [done | done |]. destruct r as [u|e]; cbn in Hr.
  - destruct Hr as [(Hc & Hd & Hre) _]. split_and!; try done.
    rewrite Hc. apply evict_bound.
  - destruct Hr as [(? & ? & ?) ?]. done.
Qed.

(** C4: after any number of rounds of its loop, and whatever transactions have failed on
    disk, a flush has kept the invariant, and a payload has left the queue only from its
    front and only after a POST of that payload succeeded or was refused with a status that
    retrying cannot mend.  Every round that does not return has taken a payload or used up
    an outcome of the disk, so a flush returns once the disk has stopped failing; while
    the disk goes on failing, so does the flush ([flush_resends_on_disk_failure]). *)
Theorem flush_loses_nothing fuel (post : poster) now q :
  Inv q ->
  exists outcome q' posted gone,
    FlushRounds fuel post now q = (outcome, q', posted) /\ Inv q' /\
    contents q = (gone ++ contents q')%list /\
    Forall (settled post posted) gone /\
    match outcome with
    | Some err => Flush fuel post now q = Some (err, q', posted)
    | None => (fuel + io_left q' + length (contents q') <= io_left q + length (contents q))%nat
    end.
Proof.
  intros Hi. destruct (FlushRounds_safe fuel post now q Hi) as (o & q' & posted & gone & E & (? & _) & ? & ? & Hn).
  exists o, q', posted, gone. split_and!; try done. unfold Flush. rewrite E. destruct o; [done|by apply Hn].
Qed.

(** When no transaction fails, a flush outside a cool-down posts the payloads
    oldest first: it ends with nil when all were acknowledged and the queue is
    empty, and otherwise at the first failed POST, having removed the
    acknowledged ones, and the failed one only if its response was terminal. *)
Theorem flush_in_order fuel (post : poster) now q err q' posted :
  Inv q -> quiet q -> peekable q -> Blocked now q = false ->
  Flush fuel post now q = Some (err, q', posted) ->
  match err with
  | None => contents q' = [] /\ reverse posted = contents q
  | Some e => exists acked b rest,
      contents q = (acked ++ b :: rest)%list /\ reverse posted = (acked ++ [b])%list /\
      (post (length acked) b).1 = Some e /\
      contents q' = if terminal e then rest else b :: rest
  end.
Proof.
  intros Hi Hqu Hpk Hbl. unfold Flush, FlushRounds. rewrite Hbl.
  set (q0 := set_unflushedOffers 0 q).
  assert (frame q q0) as Hf0 by (by apply frame_field).
  pose proof (frame_pendingLocked q0) as Hp. destruct (pendingLocked q0) as [n q1]. cbn in Hp.
  assert (frame q q1) as (E & M & I & L & Q & D) by (by etrans).
  destruct (flush_rounds _ _ _ _ _ _ _ _) as [[[o|] qf] pf] eqn:Hloop; [|done]. intros [= -> -> ->].
  apply flush_rounds_fifo in Hloop; [|auto | auto |].
  - rewrite E in Hloop. destruct err; [|done].
    destruct Hloop as (acked & b & rest & ? & ? & ? & ?). by exists acked, b, rest.
  - destruct Hpk as [Hpk|Hpk]; [left; by rewrite E | right; auto].
Qed.

(** A durable offer never evicts: it appends the payload and stays within the
    byte limit, or it returns an error and the queue keeps what it had; with a
    disk that works it is refused exactly when the payload does not fit. *)
Theorem durable_offer_keeps now body q d r q' :
  Inv q -> db q = Some d -> room body d -> size (contents q) + str_len body < 2 ^ 63 ->
  quiet q -> OfferDurable now body q = (r, q') ->
  Inv q' /\
  match r with
  | Ok _ => contents q' = (contents q ++ [body])%list /\ dropped_total q' = dropped_total q /\
            size (contents q') <= maxBytes q
  | Err _ => contents q' = contents q /\ maxBytes q < size (contents q) + str_len body
  end.
Proof.
  intros Hi Hq Hroom Hsz Hqu. unfold OfferDurable. rewrite Hq.
  destruct (snapshotPersistentLocked now q d) as [s q1] eqn:Es.
  destruct (snapshot_totals _ _ _ _ _ Hi Hq Es)
    as (Hi1 & Hm & (C1 & C2 & C3) & _ & _ & Hb & (d1 & Hq1 & Hc)).
  pose proof (size_nonneg (contents q)). pose proof (str_len_nonneg body).
  rewrite (Hb Hqu), (i64_small (size _)), (i64_small (_ + _)) by (unfold in_i64; lia).
  rewrite Hm. destruct (maxBytes q <? _) eqn:E.
  { intros [= <- <-]. apply Z.ltb_lt in E. done. }
  apply Z.ltb_ge in E. rewrite Hq1. intros Ho.
  destruct (offerPersistent_spec _ _ _ _ _ _ _ Hi1 Hq1 (room_content _ _ _ Hc Hroom) Ho)
    as (Hi' & _ & _ & Hr).
  split; [done|]. destruct r as [u|e]; cbn in Hr.
  - destruct Hr as (Hc' & Hd' & _). rewrite Hm, C1 in Hc'.
    assert (size (contents q ++ [body]) <= maxBytes q) as Hfit
      by (rewrite size_app; unfold size at 2; cbn; lia).
    rewrite evict_fits in Hc' by done. rewrite Hc' in *. split_and!; try done.
    rewrite length_app in Hd'. cbn in Hd'. rewrite C1, C2 in Hd'. lia.
  - destruct Hr as [_ Hnq]. exfalso. apply Hnq.
    unfold snapshotPersistentLocked in Es. destruct (view _ q d) as [r2 q2] eqn:Ev.
    apply frame_view in Ev as (_ & _ & _ & _ & Hq2 & _); [|done].
    destruct r2; injection Es as _ <-; auto.
Qed.

(** A batched flush returns, keeps the invariant, posts batches of at most
    [limit] pending payloads, and removes payloads only from the front and only
    after a POST of a batch that holds them succeeded, whatever transactions fail
    and whenever the context is cancelled; it returns nil only when the queue is
    empty. *)
Theorem flush_batch_at_least_once fuel (ctx_err : nat -> option goerr) limit post now q d :
  Inv q -> db q = Some d -> 0 < limit -> enough fuel q ->
  batch_result (Z.to_nat limit) post q [] (FlushBatch fuel ctx_err limit post now q).
Proof.
  apply FlushBatch_safe.
Qed.

(** The queue a restarted process opens on the same database. *)
Lemma reopen_spec name max dir d :
  String.eqb (trim_space dir) "" = false -> durable_ok d -> Forall (eq None) (io d) ->
  exists d', db (NewPersistent name max dir (Some d)) = Some d' /\ content d' = content d.
Proof.
  intros Hdir (p & m & Hp & Hm & _) Hio. unfold NewPersistent. rewrite Hdir.
  unfold db_update, begin_tx. destruct Hio as [|o l <- Hio]; cbn.
  - unfold create_buckets. rewrite Hp, Hm. eexists. split; [done|]. unfold content; cbn. congruence.
  - rewrite Hp, Hm. eexists. split; [done|]. unfold content; cbn. congruence.
Qed.

(** A restart loses nothing that was on disk: the queue opened on the database
    of a durable queue, with any name and limit, satisfies the invariant and holds
    the same payloads in the same order and the same cumulative counters. *)
Theorem restart_keeps q d name max dir now :
  Inv q -> db q = Some d -> max < 2 ^ 63 ->
  Forall (eq None) (io d) -> String.eqb (trim_space dir) "" = false ->
  let q' := NewPersistent name max dir (Some d) in
  Inv q' /\ contents q' = contents q /\
  dropped_total q' = dropped_total q /\ retained_total q' = retained_total q /\
  unflushedOffers q' = 0 /\ Blocked now q' = (now <? zero_time).
Proof.
  intros [_ Hi] Hq Hmax Hio Hdir. rewrite Hq in Hi. cbn zeta.
  destruct (reopen_spec name max dir d Hdir Hi Hio) as (d' & Hd' & Hc).
  set (q' := NewPersistent name max dir (Some d)) in *.
  destruct (durable_totals q d Hq) as (E1 & E2 & E3).
  destruct (durable_totals q' d' Hd') as (F1 & F2 & F3).
  rewrite (bodies_content _ _ Hc) in F1. rewrite (count_content _ _ _ Hc) in F2.
  rewrite (count_content _ _ _ Hc) in F3.
  assert (maxBytes q' = (if max <? 0 then 0 else max) /\ unflushedOffers q' = 0 /\
    blockedTil q' = zero_time) as (Hm & Hu & Hb).
  { unfold q', NewPersistent, New. by repeat (case_match; cbn). }
  split_and!; try congruence.
  - unfold Inv. rewrite Hd', Hm. split; [case_match eqn:E; [lia|]; apply Z.ltb_ge in E; lia|].
    by eapply durable_content.
  - unfold Blocked. by rewrite Hb.
Qed.

(** A 401 stops every flush for one minute and a 429 for five, without a POST
    and without touching the payloads; any other status leaves the cool-down in
    force as it is. *)
Theorem cooldown_blocks now e code q :
  as_status e = Some code ->
  let q' := (noteTerminal now (Some e) q).2 in
  contents q' = contents q /\
  (forall t, Blocked t q' =
     if code =? 401 then t <? now + minute
     else if code =? 429 then t <? now + 5 * minute
     else Blocked t q) /\
  (forall fuel post t, Blocked t q' = true -> Flush fuel post t q' = Some (None, q', [])).
Proof.
  intros Hc. cbn zeta. split; [apply frame_noteTerminal|]. split.
  - intros t. unfold noteTerminal. cbn [mbind option_bind]. rewrite Hc. unfold note_log.
    destruct (code =? 401); [by case_match|]. destruct (code =? 403) eqn:E.
    + apply Z.eqb_eq in E as ->. cbn. by case_match.
    + destruct (code =? 429); [by case_match | done].
  - intros fuel post t Hb. unfold Flush, FlushRounds. by rewrite Hb.
Qed.

End properties.

(** ** Delivery health *)

(** The state after a log of POST results, the latest last. *)
Definition health (l : list (Z * option goerr)) : Delivery :=
  foldl (fun d x => record_delivery x.1 x.2 d) no_delivery l.

Definition failed (x : Z * option goerr) : bool := negb (is_nil x.2).

(** The failures since the last success, the latest first. *)
Fixpoint take_failures (l : list (Z * option goerr)) : list (Z * option goerr) :=
  match l with
  | x :: l => if failed x then x :: take_failures l else []
  | [] => []
  end.

(** The time of the first result that satisfies [p]. *)
Fixpoint first_time (p : Z * option goerr -> bool) (l : list (Z * option goerr)) : Z :=
  match l with
  | x :: l => if p x then x.1 else first_time p l
  | [] => zero_time
  end.

Lemma truncateError_bound s : (String.length (truncateError s) <= maxDeliveryErrorLen)%nat.
Proof.
  unfold truncateError. case_match eqn:E; [rewrite str_length_take; lia|].
  apply Nat.ltb_ge in E. done.
Qed.

Lemma take_failures_last_zero l :
  Forall (fun x => x.1 <> zero_time) l ->
  is_zero_time (default zero_time (fst <$> last (take_failures l))) =
  match take_failures l with [] => true | _ => false end.
Proof.
  intros Hl. destruct (take_failures l) as [|x k] eqn:E; [done|].
  destruct (last (x :: k)) as [y|] eqn:Ey; [|by apply last_None in Ey].
  cbn. apply Z.eqb_neq. rewrite Forall_forall in Hl. apply Hl.
  assert (forall l', take_failures l' ⊆ l') as Hsub.
  { clear. induction l' as [|z l' IH]; [done|]. cbn. case_match; [|apply list_subseteq_nil].
    by apply list_subseteq_skip. }
  apply Hsub. rewrite E. by apply last_Some_elem_of.
Qed.

(** The delivery health of a queue tells the time of the first failure since
    the last success (and nothing when the last POST succeeded), the times of the
    last success and of the last failure, and an error text of at most 200 bytes. *)
Theorem delivery_health l :
  Forall (fun x => x.1 <> zero_time) l ->
  let d := health l in
  FailingSince d = default zero_time (fst <$> last (take_failures (reverse l))) /\
  LastSuccessAt d = first_time (fun x => negb (failed x)) (reverse l) /\
  LastErrorAt d = first_time failed (reverse l) /\
  (String.length (LastError d) <= 200)%nat.
Proof.
  cbn zeta. unfold health. induction l as [|[now err] l IH] using rev_ind; intros Hl.
  { split_and!; try done. cbn. lia. }
  apply Forall_app in Hl as [Hl Hnow]. specialize (IH Hl) as (I1 & I2 & I3 & I4).
  inversion Hnow as [|? ? Hz _]; subst. cbn in Hz.
  pose proof (take_failures_last_zero (reverse l) ltac:(by apply Forall_reverse)) as Hzero.
  rewrite foldl_snoc, reverse_snoc. set (d := foldl _ _ l) in *. cbn [take_failures].
  cbn [first_time]. destruct err as [e|]; unfold record_delivery; cbn; [|done]. split_and!; try done.
  - rewrite I1, Hzero. by destruct (take_failures (reverse l)) as [|y k].
  - apply truncateError_bound.
Qed.

(** ** Witnesses *)

(** A fresh durable queue and one that holds two payloads. *)
Definition wdb : boltdb bucket := mk_db None None [].
Definition wfresh : Queue bucket := NewPersistent "w" 5 "/state" (Some wdb).
Definition woffered : Queue bucket :=
  (Offer 0 "de" None (Offer 0 "abc" None wfresh).2).2.

(** Two payloads in memory. *)
Definition wmem : Queue bucket :=
  set_items ["abc"; "de"] (set_bytes 5 (New "w" 5)).

(** Refuses the second payload with a given error, at time 7. *)
Definition wpost (e : goerr) : poster :=
  fun i _ => (if Nat.eqb i 1 then Some e else None, 7).

Definition wdb_offered : boltdb bucket :=
  Eval vm_compute in default wdb (db woffered).

Lemma woffered_db : db woffered = Some wdb_offered.
Proof. vm_compute. reflexivity. Qed.

Lemma wdb_offered_ok : durable_ok wdb_offered.
Proof.
  assert (kv_entries (default kv_empty (payloads wdb_offered)) = [(u64key 0, "abc"); (u64key 1, "de")])
    as E by (vm_compute; reflexivity).
  exists (default kv_empty (payloads wdb_offered)), (default kv_empty (meta wdb_offered)).
  rewrite E. split; [vm_compute; reflexivity|]. split; [vm_compute; reflexivity|].
  split; [|split; vm_compute; reflexivity].
  assert (readMeta (default kv_empty (meta wdb_offered)) metaNext = 2) as -> by (vm_compute; reflexivity).
  constructor; [exists 0; split; [done | lia]|].
  constructor; [exists 1; split; [done | lia] | constructor].
Qed.

Lemma woffered_inv : Inv woffered.
Proof. split; [by vm_compute|]. rewrite woffered_db. exact wdb_offered_ok. Qed.

Lemma woffered_room : room "f" wdb_offered.
Proof. split; [by vm_compute|]. intros m [= <-]. by vm_compute. Qed.
Lemma woffered_size : size (contents woffered) + str_len "f" < 2 ^ 63.
Proof. by vm_compute. Qed.
Lemma woffered_quiet : quiet woffered.
Proof. unfold quiet. rewrite woffered_db. constructor. Qed.

Lemma offer_refines_witness :
  let q' := (Offer 0 "abcdef" None woffered).2 in
  Inv q' /\ contents q' = evict 5 (contents woffered ++ ["abcdef"]) /\
  evict 5 (contents woffered ++ ["abcdef"]) = ["abcdef"].
Proof.
  assert (has_room "abcdef" woffered) as Hr.
  { unfold has_room. rewrite woffered_db. split; [by vm_compute|]. intros m [= <-]. by vm_compute. }
  assert (Offer 0 "abcdef" None woffered = (Ok tt, (Offer 0 "abcdef" None woffered).2)) as E
    by (vm_compute; reflexivity).
  destruct (offer_refines 0 "abcdef" None woffered (Ok tt) _ woffered_inv Hr I E) as (Hi & _ & Hc & _).
  split; [exact Hi|]. split; [exact Hc | vm_compute; reflexivity].
Defined.

(** A disk that refuses to commit every removal, and one that refuses two. *)
Definition refusing (n : nat) : Queue bucket :=
  set_db (Some (mk_db (payloads wdb_offered) (meta wdb_offered)
    (None :: concat (repeat [None; Some "disk full"] n)))) woffered.

Lemma refusing_inv n : Inv (refusing n).
Proof. split; [by vm_compute|]. unfold refusing. cbn [db set_db].
  apply (durable_content wdb_offered); [reflexivity|exact wdb_offered_ok].
Qed.

Lemma flush_loses_nothing_witness :
  (exists outcome q' posted gone,
    FlushRounds 5 (fun _ _ => (None, 7)) 0 (refusing 2) = (outcome, q', posted) /\ Inv q' /\
    contents (refusing 2) = (gone ++ contents q')%list /\
    Forall (settled (fun _ _ => (None, 7)) posted) gone /\
    match outcome with
    | Some err => Flush 5 (fun _ _ => (None, 7)) 0 (refusing 2) = Some (err, q', posted)
    | None => (5 + io_left q' + length (contents q') <= io_left (refusing 2) + length (contents (refusing 2)))%nat
    end) /\
  (exists q', Flush 5 (fun _ _ => (None, 7)) 0 (refusing 2) = Some (None, q', ["de"; "abc"; "abc"; "abc"])) /\
  Flush 30 (fun _ _ => (None, 7)) 0 (refusing 30) = None.
Proof.
  split; [apply (flush_loses_nothing 5 (fun _ _ => (None, 7)) 0 (refusing 2) (refusing_inv 2))|].
  split; [eexists|]; vm_compute; reflexivity.
Defined.

Lemma flush_in_order_witness :
  exists acked b rest,
    ["abc"; "de"] = (acked ++ b :: rest)%list /\ ["abc"; "de"] = (acked ++ [b])%list /\
    (wpost (StatusError 401) (length acked) b).1 = Some (StatusError 401) /\
    @nil string = if terminal (StatusError 401) then rest else b :: rest.
Proof.
  assert (exists q', Flush 5 (wpost (StatusError 401)) 0 wmem =
    Some (Some (StatusError 401), q', ["de"; "abc"]) /\ contents q' = []) as (q' & E & E')
    by (eexists; split; [vm_compute|]; reflexivity).
  assert (Inv wmem) as Hi by (by split).
  pose proof (flush_in_order 5 (wpost (StatusError 401)) 0 wmem _ q' _ Hi I (or_intror eq_refl) eq_refl E)
    as (acked & b & rest & H).
  exists acked, b, rest. rewrite E' in H. exact H.
Defined.

Lemma durable_offer_keeps_witness :
  OfferDurable 0 "f" woffered = (Err "durable queue full", (OfferDurable 0 "f" woffered).2) /\
  contents (OfferDurable 0 "f" woffered).2 = contents woffered /\ 5 < size (contents woffered) + 1.
Proof.
  assert (OfferDurable 0 "f" woffered = (Err "durable queue full", (OfferDurable 0 "f" woffered).2)) as E
    by (vm_compute; reflexivity).
  split; [exact E|].
  destruct (durable_offer_keeps 0 "f" woffered wdb_offered _ _ woffered_inv woffered_db
    woffered_room woffered_size woffered_quiet E) as [_ Hc].
  exact Hc.
Defined.

Lemma flush_batch_at_least_once_witness :
  batch_result 2 (fun _ _ => (None, 7)) woffered []
    (FlushBatch 5 (fun _ => None) 2 (fun _ _ => (None, 7)) 0 woffered).
Proof.
  apply (flush_batch_at_least_once 5 (fun _ => None) 2 (fun _ _ => (None, 7)) 0 woffered wdb_offered
    woffered_inv woffered_db); [lia | vm_compute; lia].
Defined.

Lemma restart_keeps_witness :
  contents (NewPersistent "again" 9 "/state" (Some wdb_offered)) = contents woffered /\
  contents woffered = ["abc"; "de"].
Proof.
  split; [|vm_compute; reflexivity].
  exact (proj1 (proj2 (restart_keeps woffered wdb_offered "again" 9 "/state" 0 woffered_inv woffered_db
    ltac:(lia) ltac:(constructor) eq_refl))).
Defined.

Lemma cooldown_blocks_witness :
  Blocked 4 (noteTerminal 3 (Some (Wrapped "post: " (StatusError 401))) wmem).2 = (4 <? 3 + minute).
Proof.
  exact (proj1 (proj2 (cooldown_blocks 3 (Wrapped "post: " (StatusError 401)) 401 wmem eq_refl)) 4).
Defined.

Lemma delivery_health_witness :
  FailingSince (health [(5, None); (9, Some (StatusError 500)); (12, Some (OtherErr "eof"))]) = 9.
Proof.
  exact (proj1 (delivery_health [(5, None); (9, Some (StatusError 500)); (12, Some (OtherErr "eof"))]
    ltac:(repeat constructor; discriminate))).
Defined.

(** ** What the model shows *)

(** When the disk refuses to commit the removals, a flush posts the same payload
    again, as often as the disk fails. *)
Lemma flush_resends_on_disk_failure :
  let full := set_db (Some (mk_db (payloads (default wdb (db woffered)))
                (meta (default wdb (db woffered)))
                [None; None; Some "disk full"; None; Some "disk full"; None; Some "disk full"])) woffered in
  exists q', Flush 9 (fun _ _ => (None, 7)) 0 full =
    Some (None, q', ["de"; "abc"; "abc"; "abc"; "abc"]).
Proof. eexists. vm_compute. reflexivity. Qed.

(** An empty payload at the head of a durable queue hides the ones behind it: a
    flush reports success, posts nothing, and they stay. *)
Lemma empty_payload_blocks :
  let q := (Offer 0 "abc" None (Offer 0 "" None wfresh).2).2 in
  exists q', Flush 9 (fun _ _ => (None, 7)) 0 q = Some (None, q', []) /\
    contents q = [""; "abc"] /\ contents q' = [""; "abc"].
Proof. eexists. split; [vm_compute; reflexivity|]. split; vm_compute; reflexivity. Qed.

(** The lock is not held between reading the oldest payload and removing it: an
    offer of another goroutine that evicts it in between makes the removal take
    a payload that was never posted. *)
Lemma flush_races_with_eviction :
  let q := (Offer 0 "abc" None (New "w" 5 : Queue bucket)).2 in
  let q := (Offer 0 "de" None q).2 in
  (peek q).1 = Some "abc" /\
  let q := (Offer 1 "fgh" None q).2 in
  contents q = ["de"; "fgh"] /\ contents (popFront false q) = ["fgh"].
Proof. vm_compute. split_and!; reflexivity. Qed.

End SendQueueProps.
