(* ===== verification/Wire.v ===== *)
(** * Messages of the collector protocol (proto/v1/collector.proto)

    The protobuf messages the modelled components pass to each other, with the
    fields of the schema.  The generated accessors return a field as it is, so a
    record projection stands for both the field and its getter. *)

From Stdlib Require Export SpecFloat.
From S2P Require Import Prelude GoStrings.
#[local] Open Scope Z_scope.

(** [double]: an IEEE 754 binary64 value. *)
Definition f64 : Type := spec_float.
Definition f64_zero : f64 := S754_zero false.
Definition f64_one : f64 := S754_finite false 4503599627370496 (-52).

Abbreviation tagmap := (gmap string string).

(** A map index expression on a string map: the zero value when the key is absent. *)
Definition tag (k : string) (m : tagmap) : string := default "" (m !! k).

Record Metric := mk_metric {
  Metric_Time : option Z;   (* as UnixNano; nil without one *)
  HostId : string;
  MetricName : string;
  Value : f64;
  InterfaceName : string;
  PeerId : string;
  Tags : tagmap;
  Source : string;
}.

Record Span := mk_span {
  TraceId : string;
  SpanId : string;
  ParentSpanId : string;
  ServiceName : string;
  Name : string;
  Kind : Z;
  StartUnixNano : Z;
  EndUnixNano : Z;
  StatusCode : Z;
  StatusMessage : string;
  Namespace : string;
  Pod : string;
  Attributes : tagmap;
}.

Definition set_span_name (n : string) (s : Span) : Span :=
  mk_span (TraceId s) (SpanId s) (ParentSpanId s) (ServiceName s) n (Kind s) (StartUnixNano s)
    (EndUnixNano s) (StatusCode s) (StatusMessage s) (Namespace s) (Pod s) (Attributes s).
Definition set_attributes (a : tagmap) (s : Span) : Span :=
  mk_span (TraceId s) (SpanId s) (ParentSpanId s) (ServiceName s) (Name s) (Kind s) (StartUnixNano s)
    (EndUnixNano s) (StatusCode s) (StatusMessage s) (Namespace s) (Pod s) a.

Record CheckConfig := mk_check_config {
  CheckId : string;
  CheckType : string;
  Interval : Z;
  Params : tagmap;
  StaticTags : tagmap;
  CheckHostId : string;
  Enabled : bool;
  TemplateId : string;
}.
