(* ===== verification/Tagger.v ===== *)
(** * The cardinality budget (internal/checks/tagger.go)

    [Filter] admits at most [budget] live series per host and replaces the rest
    by drop metrics.  The map from hosts to series is shared by all checks of a
    runtime; a call holds the lock throughout, so it is one step, with one [now].
    The order in which Go enumerates a map of tags is an argument of the key. *)

From stdpp Require Import sorting.
From S2P Require Import Prelude GoStrings Bolt Wire.
#[local] Open Scope Z_scope.

Module Tagger.

Definition defaultTaggerBudget : Z := 10000.
Definition taggerSlidingWindow : Z := 24 * hour.
Definition metaMetricPrefixTagger : string := "telvyn.tagger.".
Definition metaMetricPrefixCheck : string := "telvyn.check.".

(** [budget] and [seen]. *)
Record Tagger := mk_tagger {
  budget : Z;
  seen : gmap string (gmap string Z);
}.

Definition NewTagger (budget : Z) : Tagger :=
  mk_tagger (if budget <=? 0 then defaultTaggerBudget else budget) ∅.

Definition Budget (t : Tagger) : Z := budget t.

(** [sort.Strings]. *)
Definition sort_strings (l : list string) : list string := merge_sort str_le l.

(** The loop over the tags, in the order in which they are enumerated. *)
Definition key_pairs (order : list (string * string)) : list string :=
  omap (fun kv => let '(k, v) := kv in
          if String.eqb k "host" || String.eqb k "host_id" then None
          else Some (k +:+ "=" +:+ v)) order.

Definition seriesKey_in (order : list (string * string)) (m : Metric) : string :=
  match order with
  | [] => MetricName m
  | _ => MetricName m +:+ "|" +:+ join "," (sort_strings (key_pairs order))
  end.

Definition seriesKey (m : Metric) : string := seriesKey_in (map_to_list (Tags m)) m.

Definition gc (now : Z) (hostMap : gmap string Z) : gmap string Z :=
  filter (fun e => ~ e.2 < now - taggerSlidingWindow) hostMap.

Definition makeDropMetric (hostID metricName : string) (now : Z) : Metric :=
  mk_metric (Some now) hostID "telvyn.tagger.dropped" f64_one "" ""
    {[ "host" := hostID; "metric" := metricName ]} "tagger".

Definition fast_path (name : string) : bool :=
  has_prefix metaMetricPrefixTagger name || has_prefix metaMetricPrefixCheck name.

(** One host's map and one series: the map afterwards, and whether the series is
    admitted. *)
Definition admit_series (budget now : Z) (key : string) (hostMap : gmap string Z) : bool * gmap string Z :=
  match hostMap !! key with
  | Some _ => (true, <[key := now]> hostMap)
  | None =>
      let full m := budget <=? Z.of_nat (size m) in
      let hostMap := if full hostMap then gc now hostMap else hostMap in
      if full hostMap then (false, hostMap)
      else (true, <[key := now]> hostMap)
  end.

(** One round of the loop of [Filter]: the metric kept, or the drop metric. *)
Definition filter_one (now : Z) (m : Metric) (t : Tagger) : (Metric + Metric) * Tagger :=
  let name := MetricName m in
  if fast_path name then (inl m, t)
  else
    let host := HostId m in
    let '(ok, hostMap) := admit_series (budget t) now (seriesKey m) (default ∅ (seen t !! host)) in
    let t := mk_tagger (budget t) (<[host := hostMap]> (seen t)) in
    (if ok then inl m else inr (makeDropMetric host name now), t).

Fixpoint filter_all (now : Z) (l : list Metric) (t : Tagger) : list (Metric + Metric) * Tagger :=
  match l with
  | [] => ([], t)
  | m :: l =>
      let '(r, t) := filter_one now m t in
      let '(rs, t) := filter_all now l t in
      (r :: rs, t)
  end.

Definition Filter (now : Z) (l : list Metric) (t : Tagger) : list Metric * list Metric * Tagger :=
  let '(rs, t) := filter_all now l t in
  (omap (fun r => match r with inl m => Some m | inr _ => None end) rs,
   omap (fun r => match r with inl _ => None | inr d => Some d end) rs, t).

(** ** Lemmas *)

Lemma StronglySorted_perm_eq (l k : list string) :
  StronglySorted str_le l -> StronglySorted str_le k -> l ≡ₚ k -> l = k.
Proof.
  intros Hl Hk Hp. eapply (Sorted_unique_strong str_le); [|by apply StronglySorted_Sorted..|done].
  intros x y _ _. apply str_le_antisymm.
Qed.

Lemma sort_strings_perm l k : l ≡ₚ k -> sort_strings l = sort_strings k.
Proof.
  intros Hp. apply StronglySorted_perm_eq; [apply (StronglySorted_merge_sort str_le)..|].
  unfold sort_strings. by rewrite !merge_sort_Permutation.
Qed.

Lemma gc_size now m : (size (gc now m) <= size m)%nat.
Proof. apply map_size_filter. Qed.

(** The admission keeps the size of the map within a budget it was within. *)
Lemma admit_size budget now key m :
  0 < budget -> Z.of_nat (size m) <= budget ->
  Z.of_nat (size (admit_series budget now key m).2) <= budget.
Proof.
  intros Hb Hm. unfold admit_series. destruct (m !! key) as [ts|] eqn:Hk; cbn.
  - by rewrite map_size_insert, Hk.
  - destruct (budget <=? Z.of_nat (size m)) eqn:E1.
    + pose proof (gc_size now m). destruct (budget <=? Z.of_nat (size (gc now m))) eqn:E2; cbn; [lia|].
      apply Z.leb_gt in E2. rewrite map_size_insert. case_match; cbn; lia.
    + rewrite E1. cbn. apply Z.leb_gt in E1. rewrite map_size_insert, Hk. lia.
Qed.

Definition within_budget (t : Tagger) : Prop :=
  0 < budget t /\ map_Forall (fun _ m => Z.of_nat (size m) <= budget t) (seen t).

Lemma filter_one_within now m t : within_budget t -> within_budget (filter_one now m t).2.
Proof.
  intros [Hb Hs]. unfold filter_one. destruct (fast_path _); [done|].
  pose proof (admit_size (budget t) now (seriesKey m) (default ∅ (seen t !! HostId m)) Hb) as Ha.
  destruct (admit_series _ _ _ _) as [ok hm]. cbn in *. split; [done|]. cbn.
  apply map_Forall_insert_2; [|done]. apply Ha.
  destruct (seen t !! HostId m) eqn:E; cbn; [by apply (Hs (HostId m)) | rewrite map_size_empty; lia].
Qed.

Lemma filter_all_within now l t : within_budget t -> within_budget (filter_all now l t).2.
Proof.
  revert t. induction l as [|m l IH]; intros t Ht; cbn; [done|].
  pose proof (filter_one_within now m t Ht) as H1. destruct (filter_one now m t) as [r t1].
  specialize (IH t1 H1). by destruct (filter_all now l t1).
Qed.

(** What one metric leaves of the entries of another host. *)
Lemma filter_one_other now m t h :
  HostId m <> h -> seen (filter_one now m t).2 !! h = seen t !! h.
Proof.
  intros Hne. unfold filter_one. destruct (fast_path _); [done|].
  destruct (admit_series _ _ _ _) as [ok hm]. cbn. by rewrite lookup_insert_ne.
Qed.

Lemma filter_one_budget now m t : budget (filter_one now m t).2 = budget t.
Proof.
  unfold filter_one. destruct (fast_path _); [done|]. by destruct (admit_series _ _ _ _).
Qed.

Lemma filter_all_budget now l t : budget (filter_all now l t).2 = budget t.
Proof.
  revert t. induction l as [|m l IH]; intros t; cbn; [done|].
  pose proof (filter_one_budget now m t) as H1. destruct (filter_one now m t) as [r t1].
  specialize (IH t1). destruct (filter_all now l t1). cbn in *. congruence.
Qed.

(** The verdict on a metric and the next entries of its host depend only on the
    budget and on that host's entries. *)
Lemma filter_one_same_host now m t u :
  budget t = budget u -> seen t !! HostId m = seen u !! HostId m ->
  (filter_one now m t).1 = (filter_one now m u).1 /\
  seen (filter_one now m t).2 !! HostId m = seen (filter_one now m u).2 !! HostId m.
Proof.
  intros Eb Es. unfold filter_one. destruct (fast_path _); [done|]. rewrite Eb, Es.
  destruct (admit_series _ _ _ _) as [ok hm]. cbn. by rewrite !lookup_insert_eq.
Qed.

(** The host a verdict is about: the drop metric carries the dropped metric's host. *)
Definition result_host (r : Metric + Metric) : string :=
  match r with inl m => HostId m | inr d => HostId d end.

Lemma filter_one_host now m t : result_host (filter_one now m t).1 = HostId m.
Proof.
  unfold filter_one. destruct (fast_path _); [done|]. by destruct (admit_series _ _ _ _) as [[] hm].
Qed.

Definition of_host (h : string) (m : Metric) : Prop := HostId m = h.
Definition about_host (h : string) (r : Metric + Metric) : Prop := result_host r = h.
#[local] Instance of_host_dec h m : Decision (of_host h m).
Proof. unfold of_host. apply _. Defined.
#[local] Instance about_host_dec h r : Decision (about_host h r).
Proof. unfold about_host. apply _. Defined.

Lemma filter_all_isolated now l h t u :
  budget t = budget u -> seen t !! h = seen u !! h ->
  filter (about_host h) (filter_all now l t).1 = (filter_all now (filter (of_host h) l) u).1 /\
  seen (filter_all now l t).2 !! h = seen (filter_all now (filter (of_host h) l) u).2 !! h.
Proof.
  revert t u. induction l as [|m l IH]; intros t u Eb Es; cbn [filter_all]; [done|].
  pose proof (filter_one_host now m t) as Hh. pose proof (filter_one_budget now m t) as Hb.
  destruct (decide (HostId m = h)) as [<-|Hne].
  - rewrite (filter_cons_True (of_host (HostId m))) by done. cbn [filter_all].
    pose proof (filter_one_same_host now m t u Eb Es) as [E1 E2].
    pose proof (filter_one_budget now m u) as Hb'.
    destruct (filter_one now m t) as [r t1], (filter_one now m u) as [r' u1]. cbn [fst snd] in *. subst r'.
    destruct (IH t1 u1) as [IH1 IH2]; [congruence | done |].
    destruct (filter_all now l t1), (filter_all now _ u1). cbn [fst snd] in *.
    rewrite filter_cons_True by done. by rewrite IH1.
  - rewrite (filter_cons_False (of_host h)) by done.
    pose proof (filter_one_other now m t h Hne) as Ho.
    destruct (filter_one now m t) as [r t1]. cbn [fst snd] in *.
    destruct (IH t1 u) as [IH1 IH2]; [congruence | congruence |].
    destruct (filter_all now l t1). cbn [fst snd] in *.
    rewrite filter_cons_False; [done|]. unfold about_host. congruence.
Qed.

(** A series that was seen within the window of [now]. *)
Definition live (now : Z) (h key : string) (t : Tagger) : Prop :=
  exists hm ts, seen t !! h = Some hm /\ hm !! key = Some ts /\ now - taggerSlidingWindow <= ts.

Lemma admit_live budget now key key' hm ts :
  hm !! key = Some ts -> now - taggerSlidingWindow <= ts ->
  exists ts', (admit_series budget now key' hm).2 !! key = Some ts' /\ now - taggerSlidingWindow <= ts'.
Proof.
  intros Hk Hts. assert (gc now hm !! key = Some ts) as Hg.
  { apply map_lookup_filter_Some. split; [done|]. cbn. lia. }
  assert (now - taggerSlidingWindow <= now) as Hnow by (unfold taggerSlidingWindow, hour, minute, second; lia).
  assert (forall m : gmap string Z, m !! key = Some ts -> exists ts', <[key' := now]> m !! key = Some ts' /\
    now - taggerSlidingWindow <= ts') as Hins.
  { intros m Hm. destruct (decide (key' = key)) as [->|Hne].
    - exists now. by rewrite lookup_insert_eq.
    - exists ts. by rewrite lookup_insert_ne. }
  unfold admit_series. destruct (hm !! key') eqn:E; cbn; [by apply Hins|].
  destruct (budget <=? Z.of_nat (size hm)); cbn; [|].
  - destruct (budget <=? _); cbn; [by exists ts | by apply Hins].
  - destruct (budget <=? _); cbn; [by exists ts | by apply Hins].
Qed.

Lemma filter_one_live now m h key t : live now h key t -> live now h key (filter_one now m t).2.
Proof.
  intros (hm & ts & Hs & Hk & Hts). destruct (decide (HostId m = h)) as [<-|Hne].
  - unfold filter_one. destruct (fast_path _); [by exists hm, ts|]. rewrite Hs. cbn [default].
    destruct (admit_live (budget t) now key (seriesKey m) hm ts Hk Hts) as (ts' & Hk' & Hts').
    destruct (admit_series _ _ _ _) as [ok hm']. cbn in *. exists hm', ts'. cbn. by rewrite lookup_insert_eq.
  - exists hm, ts. by rewrite filter_one_other.
Qed.

Lemma filter_one_keeps_live now m t :
  live now (HostId m) (seriesKey m) t -> (filter_one now m t).1 = inl m.
Proof.
  intros (hm & ts & Hs & Hk & _). unfold filter_one. destruct (fast_path _); [done|].
  rewrite Hs. cbn. unfold admit_series. by rewrite Hk.
Qed.

Lemma filter_all_live now l h key t :
  live now h key t ->
  live now h key (filter_all now l t).2 /\
  forall i m, l !! i = Some m -> HostId m = h -> seriesKey m = key ->
    (filter_all now l t).1 !! i = Some (inl m).
Proof.
  revert t. induction l as [|m l IH]; intros t Hl; cbn; [done|].
  pose proof (filter_one_live now m h key t Hl) as Hl1.
  pose proof (filter_one_keeps_live now m t) as Hkeep.
  destruct (filter_one now m t) as [r t1]. destruct (IH t1 Hl1) as [IH1 IH2].
  destruct (filter_all now l t1) as [rs t2]. cbn in *. split; [done|].
  intros [|i] m' Hi Eh Ek; cbn in *; [|by apply IH2].
  injection Hi as ->. subst. by rewrite Hkeep.
Qed.

(** A run of a runtime's tagger: batches at successive times. *)
Fixpoint run (l : list (Z * list Metric)) (t : Tagger) : Tagger :=
  match l with
  | [] => t
  | (now, batch) :: l => run l (Filter now batch t).2
  end.

Lemma Filter_state now l t : (Filter now l t).2 = (filter_all now l t).2.
Proof. unfold Filter. by destruct (filter_all now l t). Qed.

(** ** Properties *)

(** After any sequence of batches, no host has more than the budget of series,
    whatever its metrics are; a configured budget of zero or less is the default. *)
Theorem budget_respected b l h hm :
  seen (run l (NewTagger b)) !! h = Some hm ->
  Z.of_nat (size hm) <= (if b <=? 0 then defaultTaggerBudget else b).
Proof.
  intros Hh.
  assert (forall t, within_budget t -> within_budget (run l t) /\ budget (run l t) = budget t) as Hrun.
  { clear Hh. induction l as [|[now batch] l IH]; intros t Ht; cbn; [done|].
    rewrite Filter_state. destruct (IH _ (filter_all_within now batch t Ht)) as [? E].
    split; [done|]. by rewrite E, filter_all_budget. }
  destruct (Hrun (NewTagger b)) as [[_ Hs] E].
  - split; [|apply map_Forall_empty]. unfold NewTagger; cbn. unfold defaultTaggerBudget.
    case_match eqn:E; [lia|]. apply Z.leb_gt in E. lia.
  - specialize (Hs _ _ Hh). rewrite E in Hs. exact Hs.
Qed.

(** Hosts do not interfere: what a batch keeps and drops of a host's metrics,
    and the series it leaves for that host, are those of the batch reduced to that
    host, in the same order. *)
Theorem hosts_isolated now l h t :
  let '(rs, t') := filter_all now l t in
  let '(rs_h, t_h) := filter_all now (filter (of_host h) l) t in
  filter (about_host h) rs = rs_h /\ seen t' !! h = seen t_h !! h.
Proof.
  pose proof (filter_all_isolated now l h t t eq_refl eq_refl) as Hi.
  destruct (filter_all now l t), (filter_all now _ t). exact Hi.
Qed.

(** A series of a host that was seen within the sliding window is never
    dropped nor forgotten by a batch, however full the budget and whatever else
    the batch holds. *)
Theorem live_series_kept now l t m kept drops t' :
  live now (HostId m) (seriesKey m) t -> m ∈ l ->
  Filter now l t = (kept, drops, t') ->
  m ∈ kept /\ live now (HostId m) (seriesKey m) t'.
Proof.
  intros Hl (i & Hi)%list_elem_of_lookup HF.
  destruct (filter_all_live now l _ _ t Hl) as [Hl' Hkeep]. specialize (Hkeep i m Hi eq_refl eq_refl).
  unfold Filter in HF. destruct (filter_all now l t) as [rs t1]. injection HF as <- <- <-.
  split; [|done]. apply list_elem_of_omap. exists (inl m). split; [|done].
  by eapply list_elem_of_lookup_2.
Qed.

(** The key of a series does not depend on the order in which the map of its
    tags is enumerated. *)
Theorem seriesKey_order_independent order m :
  order ≡ₚ map_to_list (Tags m) -> seriesKey_in order m = seriesKey m.
Proof.
  intros Hp. unfold seriesKey, seriesKey_in.
  assert (sort_strings (key_pairs order) = sort_strings (key_pairs (map_to_list (Tags m)))) as ->.
  { apply sort_strings_perm. unfold key_pairs. by rewrite Hp. }
  destruct order as [|e order]; [by apply Permutation_nil_l in Hp as <-|].
  destruct (map_to_list (Tags m)); [by apply Permutation_nil_r in Hp|done].
Qed.

(** ** Witnesses *)

Definition wmetric (h n : string) : Metric := mk_metric (Some 0) h n f64_zero "" "" ∅ "".

Lemma budget_respected_witness :
  exists hm, seen (run [(5, [wmetric "h" "a"; wmetric "h" "b"; wmetric "h" "c"])] (NewTagger 2)) !! "h" = Some hm /\
    Z.of_nat (size hm) <= 2.
Proof.
  destruct (seen (run [(5, [wmetric "h" "a"; wmetric "h" "b"; wmetric "h" "c"])] (NewTagger 2)) !! "h")
    as [hm|] eqn:E; [|vm_compute in E; discriminate].
  exists hm. split; [done|]. exact (budget_respected 2 _ "h" hm E).
Defined.

Definition wtagger : Tagger := mk_tagger 1 {[ "h" := {[ "a" := 5 ]} ]}.

Lemma live_series_kept_witness :
  wmetric "h" "a" ∈ (Filter 9 [wmetric "h" "z"; wmetric "h" "a"] wtagger).1.1.
Proof.
  destruct (Filter 9 [wmetric "h" "z"; wmetric "h" "a"] wtagger) as [[kept drops] t'] eqn:E.
  refine (proj1 (live_series_kept 9 _ wtagger (wmetric "h" "a") kept drops t' _ _ E)).
  - exists {[ "a" := 5 ]}, 5. split; [reflexivity|]. split; [reflexivity|].
    unfold taggerSlidingWindow, hour, minute, second. lia.
  - right. left.
Defined.

Lemma seriesKey_order_independent_witness :
  let m := mk_metric (Some 0) "h" "cpu" f64_one "" "" {[ "core" := "1"; "mode" := "idle" ]} "" in
  seriesKey_in [("mode", "idle"); ("core", "1")] m = seriesKey m.
Proof.
  apply (seriesKey_order_independent [("mode", "idle"); ("core", "1")]).
  etrans; [|symmetry; apply map_to_list_insert; reflexivity].
  etrans; [apply Permutation_swap|]. constructor. by rewrite map_to_list_singleton.
Defined.

(** ** What the model shows *)

(** Two different sets of tags with one key: a value may hold the separators. *)
Lemma seriesKey_collision :
  let m1 := mk_metric (Some 0) "h" "cpu" f64_one "" "" {[ "a" := "1,b=2" ]} "" in
  let m2 := mk_metric (Some 0) "h" "cpu" f64_one "" "" {[ "a" := "1"; "b" := "2" ]} "" in
  Tags m1 <> Tags m2 /\ seriesKey m1 = seriesKey m2.
Proof. split; [by vm_compute | vm_compute; reflexivity]. Qed.

End Tagger.
