(* ===== verification/Scheduler.v ===== *)
(** * The check scheduler (internal/checks/scheduler.go, check.go)

    The registry of factories, the runtime that starts and stops one goroutine per
    check, and the body of that goroutine.

    A factory talks to the outside (it may open a database connection), so it is a
    function of the number of the call as well as of the configuration.  A goroutine
    is a number; [live] holds those whose context is not cancelled.  What a check
    observes during one run is a value of a type [W], and what it produces for its
    dedicated channel (statistics, catalogue, plan) is a value of a type [Data] that
    the scheduler only carries. *)

From S2P Require Import Prelude GoStrings Wire Breaker Tagger.
#[local] Open Scope Z_scope.

Module Scheduler.

(** ** Duration.String *)

(** The fraction of a unit of [10^prec], without trailing zeros. *)
Fixpoint frac_digits (prec : nat) (v : Z) (print : bool) (acc : string) : string :=
  match prec with
  | O => if print then "." +:+ acc else acc
  | S p =>
      let d := v mod 10 in
      let print := print || negb (d =? 0) in
      frac_digits p (v / 10) print (if print then itoa d +:+ acc else acc)
  end.
Definition with_frac (prec : nat) (v : Z) : string :=
  itoa (v / 10 ^ Z.of_nat prec) +:+ frac_digits prec (v mod 10 ^ Z.of_nat prec) false "".

Definition duration_string (d : Z) : string :=
  let u := Z.abs d in
  let s :=
    if u =? 0 then "0s"
    else if u <? 1000 then itoa u +:+ "ns"
    else if u <? millisecond then with_frac 3 u +:+ str1 194 +:+ str1 181 +:+ "s"
    else if u <? second then with_frac 6 u +:+ "ms"
    else
      let secs := with_frac 9 (u mod minute) +:+ "s" in
      if u <? minute then secs
      else
        let mins := itoa ((u / minute) mod 60) +:+ "m" +:+ secs in
        if u <? hour then mins else itoa (u / hour) +:+ "h" +:+ mins in
  if d <? 0 then "-" +:+ s else s.

Section scheduler.
Context {W Data : Type}.

(** ** Checks *)

Record error := mk_error {
  Error : string;
  is_deadline : bool;   (* errors.Is(err, context.DeadlineExceeded) *)
}.

Record DatabaseQueryStats := mk_query_stats {
  Queries : list Data;
  Samples : list Data;
}.

(** The fields of a report that the scheduler changes, and the others. *)
Record Snapshot := mk_snapshot {
  Complete : bool;
  Resources : list Data;
  SnapshotRest : Data;
}.

(** The interface [Check] and the optional interfaces a check may implement: None
    when the type assertion fails. *)
Record Check := mk_check {
  ID : string;
  CheckInterval : Z;
  CheckTags : tagmap;
  Run : W -> list Metric * option error;
  RunExplain : option (W -> option Data * option error);
  RunInstanceDiscovery : option (W -> option Data * option error);
  RunQueryStats : option (W -> option DatabaseQueryStats * option error);
  RunCatalog : option (W -> option Data * option error);
  RunDiagnostics : option (W -> option Data * option error);
  ExplainFailure : option (error -> Data);
  InventoryReport : option (W -> option Snapshot);
  InitialRunAt : option Z;
  Kind : option string;
  is_snmp_generic : bool;
}.

Definition Factory : Type := nat -> CheckConfig -> res Check.

(** ** The registry (check.go) *)

Definition Registry : Type := gmap string Factory.

Definition NewRegistry : Registry := ∅.
Definition Register (checkType : string) (f : Factory) (r : Registry) : Registry := <[checkType := f]> r.
Definition Get (checkType : string) (r : Registry) : option Factory := r !! checkType.

(** ** The runtime *)

Definition defaultGenerationStopTimeout : Z := 10 * second.
Definition defaultMinCheckRunTimeout : Z := 15 * second.
Definition defaultMaxCheckRunTimeout : Z := 2 * minute.

Record ExecutionReport := mk_report {
  CheckID : string;
  CheckSignal : string;
  ReportTags : tagmap;
  OK : bool;
  TimedOut : bool;
  Message : string;
  Duration : Z;
  At : Z;
}.

(** A goroutine's number stands for its context and its done channel. *)
Record runningCheck := mk_running {
  goroutine : nat;
  check : Check;
}.

(** What the setters install: which consumers are present, the pools and the jitter. *)
Record Options := mk_options {
  statusReporter : bool;
  executionReporter : bool;
  queryStatsPusher : bool;
  catalogPusher : bool;
  diagnosticsPusher : bool;
  explainPusher : bool;
  instanceDiscoveryPusher : bool;
  externalInventoryPusher : bool;
  snmpSem : option Z;
  icmpSem : option Z;
  jitterMs : Z;
  stopTimeout : Z;
  minRunTimeout : Z;
  maxRunTimeout : Z;
}.

Record Runtime := mk_runtime {
  parent : bool;   (* the parent context is not nil *)
  registry : Registry;
  options : Options;
  checks : gmap string runningCheck;
  pendingStarts : gmap string CheckConfig;
  generation : option (list nat);   (* cancel and wg of the last Reload *)
  live : gmap nat Check;
  next_goroutine : nat;
  factory_calls : nat;
  reports : list ExecutionReport;   (* sent to the execution reporter, the last first *)
}.

Definition default_options : Options :=
  mk_options false false false false false false false false None None 0
    defaultGenerationStopTimeout defaultMinCheckRunTimeout defaultMaxCheckRunTimeout.

Definition New (parent : bool) (registry : Registry) : Runtime :=
  mk_runtime parent registry default_options ∅ ∅ None ∅ 0 0 [].

(** [make(chan struct{}, n)] when the limit is positive. *)
Definition SetWorkerPools (snmp icmp : Z) (o : Options) : Options :=
  mk_options (statusReporter o) (executionReporter o) (queryStatsPusher o) (catalogPusher o)
    (diagnosticsPusher o) (explainPusher o) (instanceDiscoveryPusher o) (externalInventoryPusher o)
    (if 0 <? snmp then Some snmp else snmpSem o) (if 0 <? icmp then Some icmp else icmpSem o)
    (jitterMs o) (stopTimeout o) (minRunTimeout o) (maxRunTimeout o).
Definition SetJitter (jitter : Z) (o : Options) : Options :=
  mk_options (statusReporter o) (executionReporter o) (queryStatsPusher o) (catalogPusher o)
    (diagnosticsPusher o) (explainPusher o) (instanceDiscoveryPusher o) (externalInventoryPusher o)
    (snmpSem o) (icmpSem o) (if 0 <? jitter then jitter else jitterMs o)
    (stopTimeout o) (minRunTimeout o) (maxRunTimeout o).

Definition set_pending (p : gmap string CheckConfig) (r : Runtime) : Runtime :=
  mk_runtime (parent r) (registry r) (options r) (checks r) p (generation r) (live r)
    (next_goroutine r) (factory_calls r) (reports r).

(** One call of a factory. *)
Definition call_factory (f : Factory) (cfg : CheckConfig) (r : Runtime) : res Check * Runtime :=
  (f (factory_calls r) cfg,
   mk_runtime (parent r) (registry r) (options r) (checks r) (pendingStarts r) (generation r) (live r)
     (next_goroutine r) (S (factory_calls r)) (reports r)).

Definition reportExecution (rep : ExecutionReport) (r : Runtime) : Runtime :=
  if executionReporter (options r) then
    mk_runtime (parent r) (registry r) (options r) (checks r) (pendingStarts r) (generation r) (live r)
      (next_goroutine r) (factory_calls r) (rep :: reports r)
  else r.

(** [go r.runOneCheck(ctx, c)] under the check's own context. *)
Definition startCheck (c : Check) (r : Runtime) : Runtime :=
  if negb (parent r) then r
  else
    let g := next_goroutine r in
    mk_runtime (parent r) (registry r) (options r) (<[ID c := mk_running g c]> (checks r))
      (pendingStarts r) (generation r) (<[g := c]> (live r)) (S g) (factory_calls r) (reports r).

(** Cancels a context; the wait that follows is bounded by [stopTimeout]. *)
Definition stopCheck (id : string) (r : Runtime) : bool * Runtime :=
  match checks r !! id with
  | None => (false, r)
  | Some rc =>
      (true, mk_runtime (parent r) (registry r) (options r) (delete id (checks r)) (pendingStarts r)
               (generation r) (delete (goroutine rc) (live r)) (next_goroutine r) (factory_calls r)
               (reports r))
  end.

Definition countRunning (r : Runtime) : Z := Z.of_nat (size (checks r)).
Definition ActiveCheckCount (r : Runtime) : Z := countRunning r.

(** *** ApplyDelta *)

Definition apply_deleted (id : string) (st : Z * Runtime) : Z * Runtime :=
  let '(removedCount, r) := st in
  let r := set_pending (delete id (pendingStarts r)) r in
  let '(stopped, r) := stopCheck id r in
  (if stopped then removedCount + 1 else removedCount, r).

Definition start_failure (now : Z) (cfg : CheckConfig) (e : string) : ExecutionReport :=
  mk_report (CheckId cfg) "" ∅ false false e 0 now.

(** One configuration of the delta; the counters are of those added and removed. *)
Definition apply_added (now : Z) (cfg : CheckConfig) (st : Z * Z * Runtime) : Z * Z * Runtime :=
  let '(addedCount, removedCount, r) := st in
  let id := CheckId cfg in
  let r := set_pending (delete id (pendingStarts r)) r in
  if negb (Enabled cfg) then
    let '(stopped, r) := stopCheck id r in
    (addedCount, if stopped then removedCount + 1 else removedCount, r)
  else
    match Get (CheckType cfg) (registry r) with
    | None => (addedCount, removedCount, r)
    | Some factory =>
        let '(result, r) := call_factory factory cfg r in
        match result with
        | Err e =>
            let r := set_pending (<[id := cfg]> (pendingStarts r)) r in
            (addedCount, removedCount, reportExecution (start_failure now cfg e) r)
        | Ok c =>
            let r := (stopCheck id r).2 in
            (addedCount + 1, removedCount, startCheck c r)
        end
    end.

Definition ApplyDelta (now : Z) (added : list CheckConfig) (deletedIDs : list string) (r : Runtime)
    : Z * Z * Runtime :=
  let '(removedCount, r) := foldl (fun st id => apply_deleted id st) (0, r) deletedIDs in
  foldl (fun st cfg => apply_added now cfg st) (0, removedCount, r) added.

(** *** RetryFailedStarts *)

Definition retry_one (id : string) (cfg : CheckConfig) (st : Z * Runtime) : Z * Runtime :=
  let '(started, r) := st in
  match Get (CheckType cfg) (registry r) with
  | None => (started, r)
  | Some factory =>
      let '(result, r) := call_factory factory cfg r in
      match result with
      | Err _ => (started, r)
      | Ok c =>
          let r := startCheck c (stopCheck id r).2 in
          (started + 1, set_pending (delete id (pendingStarts r)) r)
      end
  end.

(** [order] is the order in which the map is enumerated. *)
Definition RetryFailedStarts (order : list (string * CheckConfig)) (r : Runtime) : Z * Runtime :=
  foldl (fun st e => retry_one e.1 e.2 st) (0, r) order.

(** *** Reload *)

Definition set_generation (g : option (list nat)) (r : Runtime) : Runtime :=
  mk_runtime (parent r) (registry r) (options r) (checks r) (pendingStarts r) g (live r)
    (next_goroutine r) (factory_calls r) (reports r).

Definition stopCurrentGeneration (r : Runtime) : Runtime :=
  match generation r with
  | None => r
  | Some gs =>
      mk_runtime (parent r) (registry r) (options r) (checks r) (pendingStarts r) None
        (foldl (fun m g => delete g m) (live r) gs) (next_goroutine r) (factory_calls r) (reports r)
  end.

(** [go r.runCheck(ctx, wg, check)] under the context of the generation. *)
Definition start_in_generation (c : Check) (r : Runtime) : nat * Runtime :=
  let g := next_goroutine r in
  (g, mk_runtime (parent r) (registry r) (options r) (checks r) (pendingStarts r) (generation r)
        (<[g := c]> (live r)) (S g) (factory_calls r) (reports r)).

Fixpoint start_generation (cfgs : list CheckConfig) (r : Runtime) : list nat * Runtime :=
  match cfgs with
  | [] => ([], r)
  | cfg :: cfgs =>
      if negb (Enabled cfg) then start_generation cfgs r
      else
        match Get (CheckType cfg) (registry r) with
        | None => start_generation cfgs r
        | Some factory =>
            let '(result, r) := call_factory factory cfg r in
            match result with
            | Err _ => start_generation cfgs r
            | Ok c =>
                let '(g, r) := start_in_generation c r in
                let '(gs, r) := start_generation cfgs r in
                (g :: gs, r)
            end
        end
  end.

(** None is the panic of [context.WithCancel] on a nil parent. *)
Definition Reload (cfgs : list CheckConfig) (r : Runtime) : option Runtime :=
  let r := stopCurrentGeneration r in
  match cfgs with
  | [] => Some r
  | _ =>
      if negb (parent r) then None
      else
        let '(gs, r) := start_generation cfgs r in
        Some (set_generation (Some gs) r)
  end.

Definition ReloadServerDriven (cfgs : list CheckConfig) (r : Runtime) : option Runtime :=
  match cfgs with
  | [] => Some r
  | _ => Reload cfgs r
  end.

(** ** One check's goroutine *)

Definition runTimeout (interval : Z) (o : Options) : Z :=
  let timeout := i64 (interval * 2) in
  let timeout := if timeout <=? 0 then 30 * second else timeout in
  let minTimeout := if minRunTimeout o <=? 0 then defaultMinCheckRunTimeout else minRunTimeout o in
  let maxTimeout := if maxRunTimeout o <=? 0 then defaultMaxCheckRunTimeout else maxRunTimeout o in
  if timeout <? minTimeout then minTimeout
  else if maxTimeout <? timeout then maxTimeout
  else timeout.

Definition startsWith (s prefix : string) : bool :=
  (str_len prefix <=? str_len s) && String.eqb (str_take (String.length prefix) s) prefix.

(** The pool of a check, with its capacity. *)
Inductive pool := Snmp (capacity : Z) | Icmp (capacity : Z).

Definition select_sem (c : Check) (o : Options) : option pool :=
  let sem :=
    match Kind c with
    | Some k => if String.eqb k "snmp" then Snmp <$> snmpSem o
                else if String.eqb k "icmp" then Icmp <$> icmpSem o else None
    | None => None
    end in
  match sem with
  | Some p => Some p
  | None => if startsWith (ID c) "snmp." then Snmp <$> snmpSem o
            else if startsWith (ID c) "icmp." then Icmp <$> icmpSem o else None
  end.

Definition databaseCheckSignal (c : Check) : string :=
  match RunExplain c with Some _ => "explain_plan" | None =>
  match RunInstanceDiscovery c with Some _ => "instance_discovery" | None =>
  match RunQueryStats c with Some _ => "query_metrics" | None =>
  match RunCatalog c with Some _ => "catalog_snapshot" | None =>
  match RunDiagnostics c with Some _ => "diagnostics_snapshot" | None => "" end end end end end.

Definition report_tags (c : Check) : tagmap :=
  foldl (fun m key =>
      let value := trim_space (tag key (CheckTags c)) in
      if String.eqb value "" then m else <[key := value]> m) ∅ ["installation_id"; "database_id"].

Definition databaseExecutionReport (c : Check) (ok timedOut : bool) (message : string) (duration now : Z)
    : ExecutionReport :=
  let signal := databaseCheckSignal c in
  mk_report (ID c) signal (if String.eqb signal "" then ∅ else report_tags c)
    ok timedOut message duration now.

Definition check_error_tags (c : Check) : tagmap :=
  let tags := foldl (fun m key =>
      let value := tag key (CheckTags c) in
      if String.eqb value "" then m else <[key := value]> m) {[ "check_id" := ID c ]}
      ["installation_id"; "database_id"; "db_monitor_id"] in
  if String.eqb (tag "database_id" tags) "" && negb (String.eqb (tag "db_monitor_id" tags) "")
  then <["database_id" := tag "db_monitor_id" tags]> tags
  else tags.

Definition check_error_metric (c : Check) (now : Z) : Metric :=
  mk_metric (Some now) "" "telvyn.check.errors" f64_one "" "" (check_error_tags c) "checks".

(** What a run hands over, in the order in which it does.  A push stands for the call of
    the consumer, which the code makes in a goroutine of its own; what the consumer
    answers (logged, or told to the check of an EXPLAIN) comes later and is not part of
    the run. *)
Inductive effect :=
  | Status (id : string) (ok : bool) (message : string)
  | Execution (rep : ExecutionReport)
  | Emit (metrics : list Metric)
  | PushQueryStats (stats : DatabaseQueryStats)
  | PushCatalog (d : Data)
  | PushDiagnostics (d : Data)
  | PushExplain (d : Data)
  | PushInstanceDiscovery (d : Data)
  | PushInventory (s : Snapshot).

Definition when {A} (b : bool) (x : A) : list A := if b then [x] else [].

Definition reportStatus (o : Options) (id : string) (ok : bool) (message : string) : list effect :=
  when (statusReporter o) (Status id ok message).
Definition execution_effect (o : Options) (rep : ExecutionReport) : list effect :=
  when (executionReporter o) (Execution rep).
Definition pushQueryStats (o : Options) (has_parent : bool) (stats : DatabaseQueryStats) : list effect :=
  when (queryStatsPusher o && has_parent &&
        negb ((Z.of_nat (length (Queries stats)) =? 0) && (Z.of_nat (length (Samples stats)) =? 0)))
    (PushQueryStats stats).
Definition pushCatalog (o : Options) (has_parent : bool) (d : Data) : list effect :=
  when (catalogPusher o && has_parent) (PushCatalog d).
Definition pushDiagnostics (o : Options) (has_parent : bool) (d : Data) : list effect :=
  when (diagnosticsPusher o && has_parent) (PushDiagnostics d).
Definition pushExplain (o : Options) (has_parent : bool) (d : Data) : list effect :=
  when (explainPusher o && has_parent) (PushExplain d).
Definition pushInstanceDiscovery (o : Options) (has_parent : bool) (d : Data) : list effect :=
  when (instanceDiscoveryPusher o && has_parent) (PushInstanceDiscovery d).
Definition pushExternalInventory (o : Options) (s : Snapshot) : list effect :=
  when (externalInventoryPusher o) (PushInventory s).

(** [r.emit] and [r.emitCheckError]; what becomes of the batch is [emit] below. *)
Definition emitCheckError (c : Check) (now : Z) : list effect := [Emit [check_error_metric c now]].

(** The variables of the closure. *)
Record Loop := mk_loop {
  breaker : Breaker.circuitBreaker;
  reportadoOK : option bool;
  reportadaMsg : string;
}.

Definition reportar (o : Options) (c : Check) (ok : bool) (msg : string) (l : Loop) : list effect * Loop :=
  if bool_decide (reportadoOK l = Some ok) && String.eqb (reportadaMsg l) msg then ([], l)
  else (reportStatus o (ID c) ok msg, mk_loop (breaker l) (Some ok) msg).

Definition set_breaker (b : Breaker.circuitBreaker) (l : Loop) : Loop :=
  mk_loop b (reportadoOK l) (reportadaMsg l).

(** What one tick meets: the clock at its reads, whether a place in the pool is got
    before the context ends, what the check observes, whether its own context passed
    its deadline, and whether the goroutine's context is cancelled by then. *)
Record Tick := mk_tick {
  t_allow : Z;
  acquired : bool;
  t_start : Z;
  t_end : Z;
  world : W;
  deadline : bool;
  cancelled : bool;
}.

Record Collected := mk_collected {
  metrics : list Metric;
  queryStats : option DatabaseQueryStats;
  catalog : option Data;
  diagnostics : option Data;
  explain : option Data;
  instanceDiscovery : option Data;
  err : option error;
}.

(** The method that is run: the first of the optional interfaces, else [Run]. *)
Definition collect (c : Check) (w : W) : Collected :=
  match RunExplain c with
  | Some f => let '(d, e) := f w in mk_collected [] None None None d None e
  | None =>
      match RunInstanceDiscovery c with
      | Some f => let '(d, e) := f w in mk_collected [] None None None None d e
      | None =>
          match RunQueryStats c with
          | Some f => let '(d, e) := f w in mk_collected [] d None None None None e
          | None =>
              match RunCatalog c with
              | Some f => let '(d, e) := f w in mk_collected [] None d None None None e
              | None =>
                  match RunDiagnostics c with
                  | Some f => let '(d, e) := f w in mk_collected [] None None d None None e
                  | None => let '(m, e) := Run c w in mk_collected m None None None None None e
                  end
              end
          end
      end
  end.

Definition some_effects {A} (f : A -> list effect) (x : option A) : list effect :=
  match x with Some a => f a | None => [] end.

(** The report on an inventory is emptied when the run failed. *)
Definition inventory_effects (o : Options) (c : Check) (w : W) (failed : bool) : list effect :=
  match InventoryReport c with
  | None => []
  | Some f =>
      some_effects (fun s =>
        pushExternalInventory o (if failed then mk_snapshot false [] (SnapshotRest s) else s)) (f w)
  end.

Definition runOnce (o : Options) (has_parent : bool) (c : Check) (t : Tick) (l : Loop)
    : list effect * Loop :=
  let '(ok, b) := Breaker.allow (t_allow t) (breaker l) in
  let l := set_breaker b l in
  if negb ok then ([], l)
  else
    if negb (acquired t) && (match select_sem c o with Some _ => true | None => false end) then ([], l)
    else
      let runTimeout := runTimeout (if CheckInterval c <=? 0 then 30 * second else CheckInterval c) o in
      let r := collect c (world t) in
      let duration := time_sub (t_end t) (t_start t) in
      if cancelled t then ([], l)
      else
        let timedOut := deadline t || match err r with Some e => is_deadline e | None => false end in
        let failed := timedOut || match err r with Some _ => true | None => false end in
        let inventory := inventory_effects o c (world t) failed in
        match err r with
        | Some e =>
            let diagnostics := when (is_snmp_generic c && negb (Z.of_nat (length (metrics r)) =? 0))
                                 (Emit (metrics r)) in
            let failure := some_effects (fun f => pushExplain o has_parent (f e)) (ExplainFailure c) in
            let '(_, b) := Breaker.failure (t_end t) (breaker l) in
            let '(status, l) := reportar o c false (Error e) (set_breaker b l) in
            (inventory ++ diagnostics ++ failure ++ emitCheckError c (t_end t) ++ status ++
             execution_effect o (databaseExecutionReport c false timedOut (Error e) duration (t_end t)), l)
        | None =>
            if timedOut then
              let msg := "sem resposta em " +:+ duration_string runTimeout in
              let '(_, b) := Breaker.failure (t_end t) (breaker l) in
              let '(status, l) := reportar o c false msg (set_breaker b l) in
              (inventory ++ emitCheckError c (t_end t) ++ status ++
               execution_effect o (databaseExecutionReport c false true msg duration (t_end t)), l)
            else
              let '(_, b) := Breaker.success (breaker l) in
              let '(status, l) := reportar o c true "" (set_breaker b l) in
              (inventory ++ status ++
               execution_effect o (databaseExecutionReport c true false "" duration (t_end t)) ++
               some_effects (pushQueryStats o has_parent) (queryStats r) ++
               some_effects (pushCatalog o has_parent) (catalog r) ++
               some_effects (pushDiagnostics o has_parent) (diagnostics r) ++
               some_effects (pushExplain o has_parent) (explain r) ++
               some_effects (pushInstanceDiscovery o has_parent) (instanceDiscovery r) ++
               when (negb (Z.of_nat (length (metrics r)) =? 0)) (Emit (metrics r)), l)
        end.

(** The loop: one run at the start, then one per tick. *)
Fixpoint run_ticks (o : Options) (has_parent : bool) (c : Check) (ts : list Tick) (l : Loop)
    : list (list effect) * Loop :=
  match ts with
  | [] => ([], l)
  | t :: ts =>
      let '(es, l) := runOnce o has_parent c t l in
      let '(ess, l) := run_ticks o has_parent c ts l in
      (es :: ess, l)
  end.

(** The delays before the first run: the jitter, with [rand.Intn(jitterMs)] given,
    then the wait for [InitialRunAt]. *)
Definition initial_delays (o : Options) (rand now : Z) (c : Check) : Z * Z :=
  let jitter := if 0 <? jitterMs o then i64 (rand * millisecond) else 0 in
  let wait := match InitialRunAt c with
              | Some at_ => Z.max 0 (time_sub at_ (now + jitter))
              | None => 0
              end in
  (jitter, wait).

Definition start_loop (c : Check) : Loop :=
  let interval := if CheckInterval c <=? 0 then 30 * second else CheckInterval c in
  mk_loop (Breaker.newCircuitBreaker Breaker.circuitBreakThreshold interval) None "".

Definition runCheckCore (o : Options) (has_parent : bool) (c : Check) (ts : list Tick)
    : list (list effect) :=
  (run_ticks o has_parent c ts (start_loop c)).1.
End scheduler.

(** ** Emission: the tagger, then a channel that never blocks *)

Record Out := mk_out {
  capacity : Z;
  queued : list (list Metric);
}.

Definition send (batch : list Metric) (ch : Out) : Out :=
  if Z.of_nat (length (queued ch)) <? capacity ch
  then mk_out (capacity ch) (queued ch ++ [batch]) else ch.

Definition emit (now : Z) (metrics : list Metric) (tagger : option Tagger.Tagger) (ch : Out)
    : option Tagger.Tagger * Out :=
  let '(metrics, tagger) :=
    match tagger with
    | Some t => let '(kept, drops, t) := Tagger.Filter now metrics t in (kept ++ drops, Some t)
    | None => (metrics, None)
    end in
  (tagger, if Z.of_nat (length metrics) =? 0 then ch else send metrics ch).
End Scheduler.
