(* ===== verification/SchedulerProps.v ===== *)
(** * The check scheduler: properties

    The set of running checks follows the deliveries of the server whatever the order
    of deltas, retries and reloads, without losing a configuration or a goroutine;
    failed starts recover; a run reports its outcome once and its status when it
    changes; the time limit of a run is bounded. *)

From S2P Require Import Prelude GoStrings Wire Breaker Tagger Scheduler.
#[local] Open Scope Z_scope.

Module SchedulerProps.
Import Scheduler.

Section fleet.
Context {W Data : Type}.
Abbreviation Check := (@Check W Data).
Abbreviation Runtime := (@Runtime W Data).
Abbreviation Registry := (@Registry W Data).
Implicit Types (r : Runtime) (c : Check) (id : string) (cfg : CheckConfig).

(** ** Goroutines and handles *)

(** Every handle is that of a live goroutine; a live goroutine has its handle or
    belongs to the generation of the last reload, and not both. *)
Record handles (r : Runtime) : Prop := {
  h_parent : parent r = true;
  h_check : forall id rc, checks r !! id = Some rc ->
    ID (check rc) = id /\ live r !! goroutine rc = Some (check rc);
  h_live : forall g c, live r !! g = Some c ->
    (g < next_goroutine r)%nat /\
    (g ∉ default [] (generation r) -> checks r !! ID c = Some (mk_running g c));
  h_generation : forall id rc, checks r !! id = Some rc -> goroutine rc ∉ default [] (generation r);
  h_old : forall g, g ∈ default [] (generation r) -> (g < next_goroutine r)%nat;
}.

(** Steps that touch neither handles nor goroutines. *)
Definition same_handles (r r' : Runtime) : Prop :=
  parent r' = parent r /\ checks r' = checks r /\ live r' = live r /\
  generation r' = generation r /\ next_goroutine r' = next_goroutine r.

Lemma handles_same r r' : same_handles r r' -> handles r -> handles r'.
Proof.
  intros (E1 & E2 & E3 & E4 & E5) [Hp Hc Hl Hg Ho].
  split; rewrite ?E1, ?E2, ?E3, ?E4, ?E5; done.
Qed.

Lemma stopCheck_handles id r : handles r -> handles (stopCheck id r).2.
Proof.
  intros [Hp Hc Hl Hg Ho]. unfold stopCheck. destruct (checks r !! id) as [rc|] eqn:E; [|by split].
  destruct (Hc id rc E) as [Eid El].
  split; cbn; [done | | | |done].
  - intros id' rc' [Hne E']%lookup_delete_Some. destruct (Hc id' rc' E') as [Eid' El'].
    split; [done|]. rewrite lookup_delete_ne; [done|]. intros Eg.
    rewrite Eg, El' in El. injection El as El. congruence.
  - intros g c [Hne E']%lookup_delete_Some. destruct (Hl g c E') as [Hlt Hh]. split; [done|].
    intros Hgen. specialize (Hh Hgen). rewrite lookup_delete_ne; [done|].
    intros ->. rewrite Hh in E. by injection E as <-.
  - intros id' rc' [Hne E']%lookup_delete_Some. by eapply Hg.
Qed.

Lemma startCheck_handles c r : handles r -> checks r !! ID c = None -> handles (startCheck c r).
Proof.
  intros [Hp Hc Hl Hg Ho] Hnone. unfold startCheck. rewrite Hp. cbn [negb].
  assert (live r !! next_goroutine r = None) as Hfresh.
  { destruct (live r !! next_goroutine r) as [c'|] eqn:E; [|done]. apply Hl in E as [? _]. lia. }
  split; cbn; [done| | | |].
  - intros id rc [[<- <-]|[Hne E]]%lookup_insert_Some; cbn; [by rewrite lookup_insert_eq|].
    destruct (Hc id rc E) as [Eid El]. split; [done|]. rewrite lookup_insert_ne; [done|]. congruence.
  - intros g c' [[<- <-]|[Hne E]]%lookup_insert_Some.
    + split; [lia|]. intros _. by rewrite lookup_insert_eq.
    + destruct (Hl g c' E) as [Hlt Hh]. split; [lia|]. intros Hgen. specialize (Hh Hgen).
      rewrite lookup_insert_ne; [done|]. congruence.
  - intros id rc [[<- <-]|[Hne E]]%lookup_insert_Some; cbn; [|by eapply Hg].
    intros Hin%Ho. lia.
  - intros g Hin%Ho. lia.
Qed.

(** ** What the server delivered *)

(** The last enabled configuration of each check that has not been deleted since. *)
Definition deliver_one (m : gmap string CheckConfig) cfg : gmap string CheckConfig :=
  if Enabled cfg then <[CheckId cfg := cfg]> m else delete (CheckId cfg) m.
Definition deliver (added : list CheckConfig) (deleted : list string) (m : gmap string CheckConfig)
    : gmap string CheckConfig :=
  foldl deliver_one (foldl (fun m id => delete id m) m deleted) added.

Variable reg : Registry.

(** The check [id] stands as its delivered configuration asks: running one built from
    it, or waiting for its factory; not at all when there is no configuration. *)
Definition stands (want : option CheckConfig) id r : Prop :=
  match want with
  | None => checks r !! id = None /\ pendingStarts r !! id = None
  | Some cfg =>
      CheckId cfg = id /\ Enabled cfg = true /\
      match Get (CheckType cfg) reg with
      | None => pendingStarts r !! id = None
      | Some f =>
          pendingStarts r !! id = Some cfg \/
          (pendingStarts r !! id = None /\
           exists rc n, checks r !! id = Some rc /\ f n cfg = Ok (check rc))
      end
  end.

(** An id that every factory keeps: not empty and without white space around it. *)
Definition well_named id : Prop := id <> "" /\ trim_space id = id.

Definition well_named_checks (cfgs : list CheckConfig) : Prop := Forall (fun cfg => well_named (CheckId cfg)) cfgs.

Record follows (m : gmap string CheckConfig) r : Prop := {
  f_named : forall id, is_Some (m !! id) -> well_named id;
  f_handles : handles r;
  f_registry : registry r = reg;
  f_stands : forall id, stands (m !! id) id r;
}.

(** What the factories make of the id of a configuration: they keep it, or put another one
    for an empty id, some of them after trimming it. *)
Definition or_else (fallback id : string) : string := if String.eqb id "" then fallback else id.
Definition named_by cfg id : Prop :=
  id = CheckId cfg \/
  (exists fallback, id = or_else fallback (CheckId cfg)) \/
  (exists fallback, id = or_else fallback (trim_space (CheckId cfg))).

Definition names_checks : Prop :=
  forall ty f n cfg c, Get ty reg = Some f -> f n cfg = Ok c -> named_by cfg (ID c).
Context (Hnames : names_checks).

Lemma named_well ty f n cfg c :
  well_named (CheckId cfg) -> Get ty reg = Some f -> f n cfg = Ok c -> ID c = CheckId cfg.
Proof.
  intros [Hne Ht] Ef Ec. apply String.eqb_neq in Hne.
  destruct (Hnames ty f n cfg c Ef Ec) as [->|[[b ->]|[b ->]]]; [done|unfold or_else..].
  - by rewrite Hne.
  - by rewrite Ht, Hne.
Qed.

Lemma stands_other want id r r' :
  checks r' !! id = checks r !! id -> pendingStarts r' !! id = pendingStarts r !! id ->
  stands want id r -> stands want id r'.
Proof. unfold stands. intros -> ->. done. Qed.

Lemma stopCheck_fields id r :
  (stopCheck id r).2 = (stopCheck id r).2 /\
  pendingStarts (stopCheck id r).2 = pendingStarts r /\
  checks (stopCheck id r).2 = delete id (checks r) /\
  registry (stopCheck id r).2 = registry r /\ parent (stopCheck id r).2 = parent r.
Proof.
  unfold stopCheck. destruct (checks r !! id) eqn:E; cbn; split_and!; try done.
  by rewrite delete_id.
Qed.

Lemma reportExecution_same rep r :
  same_handles r (reportExecution rep r) /\ pendingStarts (reportExecution rep r) = pendingStarts r /\
  registry (reportExecution rep r) = registry r.
Proof. unfold reportExecution, same_handles. by case_match. Qed.

Lemma apply_deleted_follows m id n r :
  follows m r -> follows (delete id m) (apply_deleted id (n, r)).2.
Proof.
  intros [Hw Hh Hr Hs]. unfold apply_deleted.
  set (r1 := set_pending _ r).
  assert (handles r1) as Hh1 by (by apply (handles_same r)).
  pose proof (stopCheck_handles id r1 Hh1) as Hh2.
  pose proof (stopCheck_fields id r1) as (_ & Ep & Ec & Er & _).
  destruct (stopCheck id r1) as [b r2]. cbn [snd] in *.
  split; [intros id' [c [_ Hc]%lookup_delete_Some]; by eapply Hw|done | by rewrite Er |].
  intros id'. destruct (decide (id' = id)) as [->|Hne].
  - rewrite lookup_delete_eq. cbn. by rewrite Ec, Ep; cbn; rewrite !lookup_delete_eq.
  - rewrite lookup_delete_ne by done. eapply stands_other, Hs.
    + by rewrite Ec, lookup_delete_ne.
    + by rewrite Ep; cbn; rewrite lookup_delete_ne.
Qed.

Lemma insert_named (m : gmap string CheckConfig) id cfg :
  well_named id -> (forall id', is_Some (m !! id') -> well_named id') ->
  forall id', is_Some (<[id := cfg]> m !! id') -> well_named id'.
Proof. intros Hid Hw id' [c [[<- _]|[_ Hc]]%lookup_insert_Some]; [done|by eapply Hw]. Qed.

Lemma apply_added_follows now m cfg n n' r :
  well_named (CheckId cfg) -> follows m r -> follows (deliver_one m cfg) (apply_added now cfg (n, n', r)).2.
Proof.
  intros Hid [Hw Hh Hr Hs]. unfold apply_added, deliver_one.
  pose proof (insert_named m (CheckId cfg) cfg Hid Hw) as Hw'.
  set (id := CheckId cfg) in *. set (r1 := set_pending _ r).
  assert (handles r1) as Hh1 by (by apply (handles_same r)).
  destruct (Enabled cfg) eqn:Een; cbn [negb].
  - change (registry r1) with (registry r). rewrite Hr.
    destruct (Get (CheckType cfg) reg) as [f|] eqn:Ef.
    + unfold call_factory. set (r2 := mk_runtime _ _ _ _ _ _ _ _ _ _).
      assert (handles r2) as Hh2 by (by apply (handles_same r1)).
      destruct (f (factory_calls r1) cfg) as [c|e] eqn:Ec.
      * assert (ID c = id) as Eid by (by eapply named_well).
        pose proof (stopCheck_handles id r2 Hh2) as Hh3.
        pose proof (stopCheck_fields id r2) as (_ & Ep & Eck & Er & Epar).
        destruct (stopCheck id r2) as [b r3]. cbn [snd] in *.
        assert (handles (startCheck c r3)) as Hh4.
        { apply startCheck_handles; [done|]. by rewrite Eid, Eck, lookup_delete_eq. }
        assert (parent r3 = true) as Hp by apply Hh3.
        unfold startCheck in *. rewrite Hp in *. cbn [negb] in *.
        split; [exact Hw'|done|by cbn; rewrite Er|]. intros id'.
        destruct (decide (id' = id)) as [->|Hne].
        -- rewrite lookup_insert_eq. unfold stands. rewrite Ef. split_and!; [done|done|]. right.
           rewrite Ep; cbn; rewrite lookup_delete_eq. split; [done|].
           eexists _, _. rewrite Eid, lookup_insert_eq. split; [done|exact Ec].
        -- rewrite lookup_insert_ne by done. eapply stands_other, Hs; cbn.
           ++ by rewrite lookup_insert_ne, Eck, lookup_delete_ne by congruence.
           ++ by rewrite Ep; cbn; rewrite lookup_delete_ne.
      * pose proof (reportExecution_same (start_failure now cfg e)
          (set_pending (<[id := cfg]> (pendingStarts r2)) r2)) as (Hsame & Ep & Er).
        set (r3 := reportExecution _ _) in *. cbn [snd].
        split; [exact Hw'|by apply (handles_same _ _ Hsame), (handles_same r2) | by rewrite Er |].
        destruct Hsame as (_ & Ec' & _). intros id'.
        destruct (decide (id' = id)) as [->|Hne].
        -- rewrite lookup_insert_eq. unfold stands. rewrite Ef. split_and!; [done|done|]. left.
           rewrite Ep; cbn. by rewrite lookup_insert_eq.
        -- rewrite lookup_insert_ne by done. eapply stands_other, Hs; [by rewrite Ec'|].
           rewrite Ep; cbn. by rewrite lookup_insert_ne, lookup_delete_ne.
    + split; [exact Hw'|done|done|]. intros id'. destruct (decide (id' = id)) as [->|Hne].
      * rewrite lookup_insert_eq. unfold stands. rewrite Ef. split_and!; [done|done|]. cbn. by rewrite lookup_delete_eq.
      * rewrite lookup_insert_ne by done. eapply stands_other, Hs; [done|]. cbn. by rewrite lookup_delete_ne.
  - pose proof (apply_deleted_follows m id 0 r (Build_follows _ _ Hw Hh Hr Hs)) as H.
    unfold apply_deleted in H. fold r1 in H. destruct (stopCheck id r1) as [b r2]. exact H.
Qed.

Lemma ApplyDelta_follows now added deleted m r :
  well_named_checks added -> follows m r -> follows (deliver added deleted m) (ApplyDelta now added deleted r).2.
Proof.
  intros Hadd Hf. unfold ApplyDelta, deliver.
  assert (forall n, follows (foldl (fun m id => delete id m) m deleted)
    (foldl (fun st id => apply_deleted id st) (n, r) deleted).2) as Hdel.
  { revert m r Hf. induction deleted as [|id deleted IH]; intros m r Hf n; [done|]. cbn [foldl].
    pose proof (apply_deleted_follows m id n r Hf) as Hf'.
    destruct (apply_deleted id (n, r)) as [n' r']. by apply IH. }
  specialize (Hdel 0). destruct (foldl _ (0, r) deleted) as [n1 r1]. cbn [snd] in Hdel.
  clear Hf. revert Hdel. generalize (foldl (fun m id => delete id m) m deleted). generalize 0. clear m r.
  revert n1 r1. induction Hadd as [|cfg added Hid Hadd IH]; intros n1 r1 n m Hf; [done|]. cbn [foldl].
  pose proof (apply_added_follows now m cfg n n1 r1 Hid Hf) as Hf'.
  destruct (apply_added now cfg (n, n1, r1)) as [[n' n1'] r']. by apply IH.
Qed.

Lemma retry_one_follows m id cfg n r :
  follows m r -> pendingStarts r !! id = Some cfg ->
  follows m (retry_one id cfg (n, r)).2 /\
  (forall id', id' <> id -> pendingStarts (retry_one id cfg (n, r)).2 !! id' = pendingStarts r !! id').
Proof.
  intros [Hw Hh Hr Hs] Hp. unfold retry_one. rewrite Hr.
  destruct (Get (CheckType cfg) reg) as [f|] eqn:Ef; [|by split; [split|]].
  assert (CheckId cfg = id /\ m !! id = Some cfg) as [Eid Em].
  { specialize (Hs id). unfold stands in Hs. destruct (m !! id) as [cfg'|]; [|destruct Hs; congruence].
    destruct Hs as (E1 & _ & Hs). case_match; [|congruence].
    destruct Hs as [E|[E _]]; [|congruence]. split; congruence. }
  unfold call_factory. set (r2 := mk_runtime _ _ _ _ _ _ _ _ _ _).
  assert (handles r2) as Hh2 by (by apply (handles_same r)).
  destruct (f (factory_calls r) cfg) as [c|e] eqn:Ec; [|by split; [split|]].
  assert (ID c = id) as Ecid.
  { rewrite <- Eid. eapply named_well; [|done..]. rewrite Eid. by apply Hw; eexists. }
  pose proof (stopCheck_handles id r2 Hh2) as Hh3.
  pose proof (stopCheck_fields id r2) as (_ & Ep & Eck & Er & _).
  destruct (stopCheck id r2) as [b r3]. cbn [snd] in *.
  assert (handles (startCheck c r3)) as Hh4.
  { apply startCheck_handles; [done|]. by rewrite Ecid, Eck, lookup_delete_eq. }
  assert (parent r3 = true) as Hpar by apply Hh3.
  unfold startCheck in *. rewrite Hpar in *. cbn [negb] in *.
  split.
  - split; [exact Hw|by eapply handles_same, Hh4|by cbn; rewrite Er|]. intros id'.
    destruct (decide (id' = id)) as [->|Hne].
    + rewrite Em. unfold stands. rewrite Ef. split_and!; [done| |].
      { specialize (Hs id). unfold stands in Hs. rewrite Em in Hs. apply Hs. }
      right. cbn. rewrite Ep; cbn; rewrite lookup_delete_eq. split; [done|].
      eexists _, _. rewrite Ecid, lookup_insert_eq. split; [done|exact Ec].
    + eapply stands_other, Hs; cbn.
      * by rewrite lookup_insert_ne, Eck, lookup_delete_ne by congruence.
      * by rewrite Ep; cbn; rewrite lookup_delete_ne.
  - intros id' Hne. cbn. rewrite Ep. cbn. by rewrite lookup_delete_ne.
Qed.

Lemma Retry_follows order m n r :
  follows m r -> NoDup order.*1 -> (forall e, e ∈ order -> pendingStarts r !! e.1 = Some e.2) ->
  follows m (foldl (fun st e => retry_one e.1 e.2 st) (n, r) order).2.
Proof.
  revert n r. induction order as [|[id cfg] order IH]; intros n r Hf Hnd Ho; [done|]. cbn [foldl fst snd].
  destruct (retry_one_follows m id cfg n r Hf (Ho (id, cfg) ltac:(left))) as [Hf' Hother].
  destruct (retry_one id cfg (n, r)) as [n' r']. cbn [snd] in *.
  cbn in Hnd. apply NoDup_cons in Hnd as [Hnin Hnd]. apply IH; [done|done|].
  intros e He. rewrite Hother; [by apply Ho; right|]. intros <-.
  by apply Hnin, list_elem_of_fmap_2.
Qed.

Lemma lookup_delete_all (gs : list nat) (m : gmap nat Check) g :
  foldl (fun m g => delete g m) m gs !! g = if decide (g ∈ gs) then None else m !! g.
Proof.
  revert m. induction gs as [|g' gs IH]; intros m; cbn [foldl].
  { rewrite decide_False; [done|]. apply not_elem_of_nil. }
  rewrite IH. destruct (decide (g ∈ gs)) as [Hin|Hnin].
  - by rewrite decide_True by (by right).
  - destruct (decide (g = g')) as [->|Hne].
    + rewrite lookup_delete_eq, decide_True; [done|left].
    + rewrite lookup_delete_ne by done. rewrite decide_False; [done|].
      intros [?|?]%elem_of_cons; done.
Qed.

Lemma stopCurrentGeneration_follows m r :
  follows m r -> follows m (stopCurrentGeneration r) /\ generation (stopCurrentGeneration r) = None.
Proof.
  intros Hf. unfold stopCurrentGeneration. destruct (generation r) as [gs|] eqn:Egs; [|by split].
  destruct Hf as [Hw [Hp Hc Hl Hg Ho] Hr Hs]. rewrite Egs in *. cbn [default] in *.
  split; [|done]. split; [done| |done|]; [split; cbn|].
  - done.
  - intros id rc E. destruct (Hc id rc E) as [Eid El]. split; [done|].
    rewrite lookup_delete_all, decide_False; [done|]. by eapply Hg.
  - intros g c E. rewrite lookup_delete_all in E. case_decide as Hin; [done|].
    destruct (Hl g c E) as [Hlt Hh]. split; [done|]. intros _. by apply Hh.
  - intros id rc E. apply not_elem_of_nil.
  - by intros g ?%elem_of_nil.
  - intros id. eapply stands_other, Hs; done.
Qed.

Lemma start_generation_handles cfgs acc r :
  handles (set_generation (Some acc) r) ->
  let '(gs, r') := start_generation cfgs r in
  handles (set_generation (Some (acc ++ gs)) r') /\
  checks r' = checks r /\ pendingStarts r' = pendingStarts r /\ registry r' = registry r.
Proof.
  revert acc r. induction cfgs as [|cfg cfgs IH]; intros acc r Hh; cbn [start_generation].
  { by rewrite app_nil_r. }
  destruct (Enabled cfg); cbn [negb]; [|by apply IH].
  destruct (Get _ _) as [f|]; [|by apply IH].
  unfold call_factory. set (r2 := mk_runtime _ _ _ _ _ _ _ _ _ _).
  assert (handles (set_generation (Some acc) r2)) as Hh2 by (by eapply handles_same, Hh).
  destruct (f _ _) as [c|e]; [|exact (IH acc r2 Hh2)].
  cbn [start_in_generation]. set (r3 := mk_runtime _ _ _ _ _ _ (<[_ := c]> _) _ _ _).
  assert (handles (set_generation (Some (acc ++ [next_goroutine r2])) r3)) as Hh3.
  { destruct Hh2 as [Hp Hc Hl Hg Ho]. cbn in *. split; cbn; [done| | | |].
    - intros id rc E. destruct (Hc id rc E) as [Eid El]. split; [done|].
      rewrite lookup_insert_ne; [done|]. apply Hl in El as [? _]. lia.
    - intros g c' [[<- <-]|[Hne E]]%lookup_insert_Some.
      + split; [lia|]. intros Hin. destruct Hin. apply elem_of_app. right. left.
      + destruct (Hl g c' E) as [Hlt Hgen]. split; [lia|]. intros Hin. apply Hgen.
        intros ?. apply Hin, elem_of_app. by left.
    - intros id rc E [Hin|Hin]%elem_of_app; [by eapply Hg|].
      apply list_elem_of_singleton in Hin. destruct (Hc id rc E) as [_ El].
      apply Hl in El as [? _]. lia.
    - intros g [Hin|Hin]%elem_of_app; [apply Ho in Hin; lia|].
      apply list_elem_of_singleton in Hin. lia. }
  specialize (IH (acc ++ [next_goroutine r2]) r3 Hh3).
  destruct (start_generation cfgs r3) as [gs r4].
  destruct IH as (H1 & H2 & H3 & H4). by rewrite <- app_assoc in H1.
Qed.

Lemma Reload_follows cfgs m r r' : follows m r -> Reload cfgs r = Some r' -> follows m r'.
Proof.
  intros Hf. unfold Reload. apply stopCurrentGeneration_follows in Hf as [Hf Hgen].
  destruct (stopCurrentGeneration r) eqn:E. rewrite <- E in *. clear E.
  destruct cfgs as [|cfg cfgs]; [by intros [= <-]|].
  destruct Hf as [Hw Hh Hr Hs]. rewrite (h_parent _ Hh). cbn [negb].
  set (r1 := stopCurrentGeneration r) in *.
  assert (handles (set_generation (Some []) r1)) as Hh1.
  { destruct Hh as [Hp Hc Hl Hg Ho]. rewrite Hgen in *. by split. }
  pose proof (start_generation_handles (cfg :: cfgs) [] r1 Hh1) as H.
  destruct (start_generation (cfg :: cfgs) r1) as [gs r2]. destruct H as (H1 & H2 & H3 & H4).
  intros [= <-]. cbn [app] in H1. split; [done|done | by cbn; rewrite H4 |].
  intros id. eapply stands_other, Hs; cbn; by rewrite ?H2, ?H3.
Qed.

(** ** Reachable states *)

Inductive op :=
  | ODelta (now : Z) (added : list CheckConfig) (deleted : list string)
  | ORetry (order : list (string * CheckConfig))
  | OReload (cfgs : list CheckConfig)
  | OServerReload (cfgs : list CheckConfig).

(** The map of failed starts is enumerated in any order. *)
Inductive step : Runtime -> op -> Runtime -> Prop :=
  | step_delta r now added deleted : step r (ODelta now added deleted) (ApplyDelta now added deleted r).2
  | step_retry r order : order ≡ₚ map_to_list (pendingStarts r) ->
      step r (ORetry order) (RetryFailedStarts order r).2
  | step_reload r cfgs r' : Reload cfgs r = Some r' -> step r (OReload cfgs) r'
  | step_server r cfgs r' : ReloadServerDriven cfgs r = Some r' -> step r (OServerReload cfgs) r'.

Inductive steps : Runtime -> list op -> Runtime -> Prop :=
  | steps_nil r : steps r [] r
  | steps_cons r o r' os r'' : step r o r' -> steps r' os r'' -> steps r (o :: os) r''.

Definition delivered_by (m : gmap string CheckConfig) (o : op) : gmap string CheckConfig :=
  match o with ODelta _ added deleted => deliver added deleted m | _ => m end.
Definition delivered (os : list op) : gmap string CheckConfig := foldl delivered_by ∅ os.

(** The deliveries name their checks well. *)
Definition well_named_op (o : op) : Prop :=
  match o with ODelta _ added _ => well_named_checks added | _ => True end.

Lemma step_follows m r o r' : well_named_op o -> follows m r -> step r o r' -> follows (delivered_by m o) r'.
Proof.
  intros Hn Hf Hstep. destruct Hstep as [r now added deleted|r order Ho|r cfgs r' E|r cfgs r' E]; cbn.
  - by apply ApplyDelta_follows.
  - apply Retry_follows; [done| |].
    + rewrite Ho. apply NoDup_fst_map_to_list.
    + intros [id cfg] He. rewrite Ho in He. by apply elem_of_map_to_list in He.
  - by eapply Reload_follows.
  - unfold ReloadServerDriven in E. destruct cfgs; [by injection E as <-|]. by eapply Reload_follows.
Qed.

Lemma steps_follow m r os r' :
  Forall well_named_op os -> follows m r -> steps r os r' -> follows (foldl delivered_by m os) r'.
Proof.
  intros Hn Hf Hs. revert m Hf. induction Hs as [|r o r1 os r2 Hst _ IH]; intros m Hf; [done|].
  apply Forall_cons in Hn as [Hn1 Hn]. apply IH; [done|]. by eapply step_follows.
Qed.

Lemma New_follows o : follows ∅ (mk_runtime true reg o ∅ ∅ None ∅ 0 0 []).
Proof.
  split; [intros id; rewrite lookup_empty; by intros [? ?]|split; cbn|done|].
  - done.
  - intros id rc. by rewrite lookup_empty.
  - intros g c. by rewrite lookup_empty.
  - intros id rc. by rewrite lookup_empty.
  - by intros g ?%elem_of_nil.
  - intros id. rewrite lookup_empty. by cbn; rewrite !lookup_empty.
Qed.

Definition configured (o : Options) : Runtime := mk_runtime true reg o ∅ ∅ None ∅ 0 0 [].

Lemma configured_steps o os r :
  Forall well_named_op os -> steps (configured o) os r -> follows (delivered os) r.
Proof. intros Hn Hs. eapply steps_follow; [exact Hn|apply New_follows | exact Hs]. Qed.


Lemma pending_registered m id cfg r :
  follows m r -> pendingStarts r !! id = Some cfg ->
  m !! id = Some cfg /\ exists f, Get (CheckType cfg) reg = Some f.
Proof.
  intros [_ _ _ Hs] Hp. specialize (Hs id). unfold stands in Hs.
  destruct (m !! id) as [cfg'|]; [|destruct Hs; congruence].
  destruct Hs as (_ & _ & Hs). destruct (Get (CheckType cfg') reg) as [f|] eqn:Ef; [|congruence].
  destruct Hs as [E|[E _]]; [|congruence]. rewrite Hp in E. injection E as ->. by eauto.
Qed.

(** What became of the check [id] that waited with [cfg]: the answer of its factory. *)
Definition decided (answer : res Check) id cfg r : Prop :=
  match answer with
  | Ok c => pendingStarts r !! id = None /\ exists rc, checks r !! id = Some rc /\ check rc = c
  | Err _ => pendingStarts r !! id = Some cfg
  end.

Definition accepted (answer : res Check) : Z := if is_ok answer then 1 else 0.

Lemma retry_one_decides m id cfg f n r :
  follows m r -> pendingStarts r !! id = Some cfg -> Get (CheckType cfg) reg = Some f ->
  let st := retry_one id cfg (n, r) in
  st.1 = n + accepted (f (factory_calls r) cfg) /\
  factory_calls st.2 = S (factory_calls r) /\
  decided (f (factory_calls r) cfg) id cfg st.2 /\
  forall id', id' <> id -> checks st.2 !! id' = checks r !! id'.
Proof.
  intros Hf Hp Ef. destruct (pending_registered m id cfg r Hf Hp) as [Em _].
  assert (CheckId cfg = id) as Eid.
  { pose proof (f_stands _ _ Hf id) as Hs. rewrite Em in Hs. apply Hs. }
  assert (well_named (CheckId cfg)) as Hw by (rewrite Eid; apply (f_named _ _ Hf); by eexists).
  cbn zeta. unfold retry_one. rewrite (f_registry _ _ Hf), Ef. unfold call_factory, accepted, decided.
  destruct (f (factory_calls r) cfg) as [c|e] eqn:Ec; cbn [is_ok]; [|by rewrite Z.add_0_r].
  set (r2 := mk_runtime _ _ _ _ _ _ _ _ _ _).
  pose proof (stopCheck_fields id r2) as (_ & Ep & Eck & _ & Epar).
  assert (factory_calls (stopCheck id r2).2 = S (factory_calls r)) as Ecalls.
  { unfold stopCheck. by case_match. }
  destruct (stopCheck id r2) as [b r3]. cbn [snd] in *.
  assert (parent r3 = true) as Hpar by (rewrite Epar; apply (h_parent _ (f_handles _ _ Hf))).
  pose proof (named_well _ _ _ _ _ Hw Ef Ec) as Ecid. rewrite Eid in Ecid.
  unfold startCheck. rewrite Hpar. cbn. rewrite Ep, Ecid. cbn. split_and!; [done|done| | |].
  - apply lookup_delete_eq.
  - eexists. split; [apply lookup_insert_eq|done].
  - intros id' Hne. by rewrite lookup_insert_ne, Eck, lookup_delete_ne.
Qed.

(** The calls that one retry makes, each with the check that waited. *)
Definition retried (order : list (string * CheckConfig)) (calls : nat) : list (string * CheckConfig * res Check) :=
  omap (fun e : nat * (string * CheckConfig) =>
          f ← Get (CheckType e.2.2) reg; Some (e.2, f e.1 e.2.2))
    (zip (seq calls (length order)) order).

Lemma Retry_decides order m n r :
  follows m r -> NoDup order.*1 -> (forall e, e ∈ order -> pendingStarts r !! e.1 = Some e.2) ->
  let st := foldl (fun st e => retry_one e.1 e.2 st) (n, r) order in
  (forall e, e ∈ retried order (factory_calls r) -> decided e.2 e.1.1 e.1.2 st.2) /\
  st.1 = n + sumZ (fun e => accepted e.2) (retried order (factory_calls r)) /\
  (retried order (factory_calls r)).*1 = order /\
  forall id, id ∉ order.*1 -> pendingStarts st.2 !! id = pendingStarts r !! id /\ checks st.2 !! id = checks r !! id.
Proof.
  revert n r. induction order as [|[id cfg] order IH]; intros n r Hf Hnd Ho; cbn zeta.
  { cbn. split_and!; [by intros e ?%elem_of_nil|lia|done|done]. }
  cbn [foldl fst snd]. cbn in Hnd. apply NoDup_cons in Hnd as [Hnin Hnd].
  pose proof (Ho (id, cfg) ltac:(left)) as Hp. cbn in Hp.
  destruct (pending_registered m id cfg r Hf Hp) as [_ [f Ef]].
  destruct (retry_one_follows m id cfg n r Hf Hp) as [Hf' Hother].
  destruct (retry_one_decides m id cfg f n r Hf Hp Ef) as (En & Ecalls & Hd & Hchecks).
  destruct (retry_one id cfg (n, r)) as [n' r']. cbn [fst snd] in *.
  assert (retried ((id, cfg) :: order) (factory_calls r) =
    (id, cfg, f (factory_calls r) cfg) :: retried order (factory_calls r')) as ->
    by (unfold retried; rewrite Ecalls; cbn; by rewrite Ef).
  destruct (IH n' r' Hf' Hnd) as (H1 & H2 & H3 & H4).
  { intros e He. rewrite Hother; [by apply Ho; right|]. intros <-. by apply Hnin, list_elem_of_fmap_2. }
  destruct (H4 id Hnin) as [E1 E2]. split_and!.
  - intros e [->|He]%elem_of_cons; [|by apply H1]. cbn [fst snd]. unfold decided in *.
    by destruct (f _ _); rewrite E1, ?E2.
  - rewrite H2, En. unfold sumZ. cbn. lia.
  - cbn. by rewrite H3.
  - intros id' [Hne Hnin']%not_elem_of_cons. destruct (H4 id' Hnin') as [-> ->].
    by rewrite Hother, Hchecks.
Qed.

Lemma sumZ_all {A} (f : A -> Z) l : Forall (fun x => f x = 1) l -> sumZ f l = Z.of_nat (length l).
Proof. induction 1 as [|x l Hx _ IH]; [done|]. change (f x + sumZ f l = Z.of_nat (S (length l))). rewrite IH, Hx. lia. Qed.

(** C12: One retry asks the factory of every check that waits, once, and its answer decides:
    a check that is accepted runs, as the one the factory has just built from the last
    configuration delivered, and no longer waits; one that is refused goes on waiting with
    its configuration; the count returned is the number accepted.  Hence, when the
    factories accept what is waiting, one retry without any new delivery recovers all:
    nothing waits and every delivered check of a known type runs as one built from its last
    configuration.  (For deliveries whose ids are not empty and have no white space around
    them, which the factories keep.) *)
Theorem failed_starts_recover (o : Options) (os : list op) (r : Runtime)
    (order : list (string * CheckConfig)) :
  Forall well_named_op os -> steps (configured o) os r ->
  order ≡ₚ map_to_list (pendingStarts r) ->
  let calls := retried order (factory_calls r) in let st := RetryFailedStarts order r in
  calls.*1 = order /\
  (forall e, e ∈ calls -> delivered os !! e.1.1 = Some e.1.2 /\ decided e.2 e.1.1 e.1.2 st.2) /\
  st.1 = sumZ (fun e => accepted e.2) calls /\
  (Forall (fun e => is_ok e.2 = true) calls ->
   st.1 = Z.of_nat (size (pendingStarts r)) /\ pendingStarts st.2 = ∅ /\
   forall id cfg f, delivered os !! id = Some cfg -> Get (CheckType cfg) reg = Some f ->
     exists rc n, checks st.2 !! id = Some rc /\ f n cfg = Ok (check rc)).
Proof.
  intros Hn Hsteps Ho calls st. pose proof (configured_steps _ _ _ Hn Hsteps) as Hf.
  assert (forall e, e ∈ order -> pendingStarts r !! e.1 = Some e.2) as Hp.
  { intros [id cfg] He. rewrite Ho in He. by apply elem_of_map_to_list in He. }
  assert (NoDup order.*1) as Hnd by (rewrite Ho; apply NoDup_fst_map_to_list).
  destruct (Retry_decides order _ 0 r Hf Hnd Hp) as (Hd & En & Eo & Hother).
  fold calls in Hd, En, Eo. change (foldl _ _ _) with st in Hd, En, Hother. rewrite Z.add_0_l in En.
  split_and!; [done| |done|].
  - intros e He. split; [|by apply Hd].
    assert (e.1 ∈ order) as Hin by (rewrite <- Eo; by apply list_elem_of_fmap_2).
    exact (proj1 (pending_registered _ _ _ _ Hf (Hp _ Hin))).
  - intros Hall. assert (pendingStarts st.2 = ∅) as Hempty.
    { apply map_empty. intros id. destruct (decide (id ∈ order.*1)) as [Hin|Hin].
      - rewrite <- Eo in Hin. apply list_elem_of_fmap in Hin as ([id1 c1] & -> & Hin).
        apply list_elem_of_fmap in Hin as (e & E & Hin). specialize (Hd e Hin).
        rewrite Forall_forall in Hall. specialize (Hall e Hin). rewrite <- E in Hd. cbn in Hd.
        destruct e as [[id2 c2] [c|er]]; [|done]. cbn in *. by destruct Hd.
      - destruct (Hother id Hin) as [-> _]. destruct (pendingStarts r !! id) as [cfg|] eqn:E; [|done].
        destruct Hin. rewrite Ho. apply (list_elem_of_fmap_2 fst _ (id, cfg)). by apply elem_of_map_to_list. }
    split_and!; [|exact Hempty|].
    + rewrite En, sumZ_all.
      * assert (length calls = length order) as -> by (rewrite <- Eo; by rewrite length_fmap).
        by rewrite Ho, length_map_to_list.
      * eapply Forall_impl; [exact Hall|]. intros e He. unfold accepted. by rewrite He.
    + intros id cfg f Ed Ef. pose proof (Retry_follows order _ 0 r Hf Hnd Hp) as [_ _ _ Hs].
      specialize (Hs id). unfold stands in Hs. rewrite Ed, Ef in Hs. destruct Hs as (_ & _ & [E|[_ H]]); [|exact H].
      change (foldl _ _ _) with st in E. by rewrite Hempty, lookup_empty in E.
Qed.
End fleet.

(** ** Runs *)

Section runs.
Context {W Data : Type}.
Abbreviation Check := (@Check W Data).
Abbreviation effect := (@effect Data).
Abbreviation Tick := (@Tick W).
Implicit Types (c : Check) (es : list effect) (t : Tick) (o : Options) (l : Loop).

Definition outcome : Type := bool * string.

Definition statuses es : list outcome :=
  omap (fun e => match e with Status _ ok msg => Some (ok, msg) | _ => None end) es.
Definition executions es : list ExecutionReport :=
  omap (fun e => match e with Execution rep => Some rep | _ => None end) es.
Definition outcome_of (rep : ExecutionReport) : outcome := (OK rep, Message rep).

(** The elements that differ from the one before, starting after [last]. *)
Fixpoint changes (prev : option outcome) (l : list outcome) : list outcome :=
  match l with
  | [] => []
  | x :: l => if decide (prev = Some x) then changes prev l else x :: changes (Some x) l
  end.

Lemma changes_cons prev x (l : list outcome) : changes prev (x :: l) = changes prev [x] ++ changes (Some x) l.
Proof. cbn [changes]. case_decide as Hd; [by rewrite <- Hd | done]. Qed.

(** The effects that are neither a status nor an execution report. *)
Definition silent es : Prop := statuses es = [] /\ executions es = [].

Lemma silent_app es fs : silent es -> silent fs -> silent (es ++ fs).
Proof. unfold silent, statuses, executions. intros [H1 H2] [H3 H4]. by rewrite !omap_app, H1, H2, H3, H4. Qed.
Lemma silent_nil : silent [].
Proof. done. Qed.
Lemma silent_when b (e : effect) : silent [e] -> silent (when b e).
Proof. by destruct b. Qed.
Lemma silent_some {A} (f : A -> list effect) x : (forall a, silent (f a)) -> silent (some_effects f x).
Proof. intros H. destruct x; [apply H | done]. Qed.
Lemma silent_inventory o c w b : silent (inventory_effects o c w b).
Proof.
  unfold inventory_effects. case_match; [|done]. apply silent_some. intros s. by apply silent_when.
Qed.

(** The pushes and the emissions. *)
Lemma silent_pushes o p :
  (forall x, silent (pushQueryStats o p x)) /\ (forall x, silent (pushCatalog o p x)) /\
  (forall x, silent (pushDiagnostics o p x)) /\ (forall x, silent (pushExplain o p x)) /\
  (forall x, silent (pushInstanceDiscovery o p x)).
Proof. split_and!; intros x; by apply silent_when. Qed.

Create HintDb runs.
#[local] Hint Resolve silent_app silent_nil silent_when silent_some silent_inventory : runs.
#[local] Hint Extern 1 (silent (cons _ _)) => done : runs.
#[local] Hint Extern 1 (silent (emitCheckError _ _)) => done : runs.
#[local] Hint Extern 2 (silent _) => apply silent_pushes : runs.

Lemma statuses_app es fs : statuses (es ++ fs) = statuses es ++ statuses fs.
Proof. apply omap_app. Qed.
Lemma executions_app es fs : executions (es ++ fs) = executions es ++ executions fs.
Proof. apply omap_app. Qed.

Definition last_outcome l : option outcome := (fun ok => (ok, reportadaMsg l)) <$> reportadoOK l.

Lemma reportar_changes o c ok msg l :
  statusReporter o = true ->
  statuses (reportar o c ok msg l).1 = changes (last_outcome l) [(ok, msg)] /\
  executions (reportar o c ok msg l).1 = [] /\
  last_outcome (reportar o c ok msg l).2 = Some (ok, msg) /\
  breaker (reportar o c ok msg l).2 = breaker l.
Proof.
  intros Ho. unfold reportar, reportStatus, last_outcome. rewrite Ho. cbn [changes].
  destruct (bool_decide (reportadoOK l = Some ok)) eqn:E1; cbn [andb].
  - to_prop. rewrite E1. cbn. destruct (String.eqb_spec (reportadaMsg l) msg) as [Em|Hne].
    + rewrite decide_True by (by rewrite Em). cbn. by rewrite E1; cbn; rewrite Em.
    + rewrite decide_False by congruence. done.
  - to_prop. rewrite decide_False; [done|]. destruct (reportadoOK l); cbn; congruence.
Qed.

(** A run reports: one execution, and its status when it changed. *)
Definition reports_once l es (l' : Loop) : Prop :=
  (statuses es = [] /\ executions es = [] /\ last_outcome l' = last_outcome l) \/
  (exists rep, executions es = [rep] /\ statuses es = changes (last_outcome l) [outcome_of rep] /\
     last_outcome l' = Some (outcome_of rep)).

Lemma reports_silent_l pre l es l' : silent pre -> reports_once l es l' -> reports_once l (pre ++ es) l'.
Proof.
  intros [P1 P2] H. unfold reports_once. by rewrite statuses_app, executions_app, P1, P2.
Qed.

Lemma report_parts o c rep l b post es l' :
  statusReporter o = true -> executionReporter o = true -> silent post ->
  reportar o c (OK rep) (Message rep) (set_breaker b l) = (es, l') ->
  reports_once l (es ++ execution_effect o rep ++ post) l'.
Proof.
  intros Hs He [Q1 Q2] E. right. exists rep.
  pose proof (reportar_changes o c (OK rep) (Message rep) (set_breaker b l) Hs) as (E1 & E2 & E3 & _).
  rewrite E in E1, E2, E3. cbn [fst snd] in *.
  change (last_outcome (set_breaker b l)) with (last_outcome l) in *.
  unfold execution_effect. rewrite He. cbn [when].
  rewrite !statuses_app, !executions_app, Q1, Q2, E1, E2. cbn [app].
  split_and!; [done | by rewrite !app_nil_r | done].
Qed.

Lemma runOnce_reports o has_parent c t l :
  statusReporter o = true -> executionReporter o = true ->
  reports_once l (runOnce o has_parent c t l).1 (runOnce o has_parent c t l).2.
Proof.
  intros Hs He. unfold runOnce. destruct (Breaker.allow _ _) as [ok b].
  set (l1 := set_breaker b l).
  assert (forall es l', reports_once l1 es l' -> reports_once l es l') as Hl1 by done.
  destruct ok; cbn [negb]; [|by left].
  destruct (negb (acquired t) && _); [by left|]. destruct (cancelled t); [by left|].
  apply Hl1. set (r := collect c (world t)).
  destruct (err r) as [e|] eqn:Ee; [|case_match];
    [destruct (Breaker.failure _ _) as [n b2] | destruct (Breaker.failure _ _) as [n b2]
    | destruct (Breaker.success _) as [n b2]];
    destruct (reportar _ _ _ _ _) as [st l2] eqn:Er; cbn [fst snd];
    repeat (apply reports_silent_l; [solve [auto 8 with runs]|]).
  - rewrite <- (app_nil_r (execution_effect _ _)). by eapply report_parts.
  - rewrite <- (app_nil_r (execution_effect _ _)). by eapply report_parts.
  - eapply report_parts; [done|done| |exact Er]. auto 12 with runs.
Qed.

Lemma run_ticks_reports o has_parent c ts l :
  statusReporter o = true -> executionReporter o = true ->
  statuses (concat (run_ticks o has_parent c ts l).1) =
  changes (last_outcome l) (outcome_of <$> executions (concat (run_ticks o has_parent c ts l).1)) /\
  Forall (fun es => (length (executions es) <= 1)%nat) (run_ticks o has_parent c ts l).1.
Proof.
  intros Hs He. revert l. induction ts as [|t ts IH]; intros l; cbn [run_ticks]; [done|].
  pose proof (runOnce_reports o has_parent c t l Hs He) as H.
  destruct (runOnce o has_parent c t l) as [es l1]. cbn [fst snd] in H.
  destruct (IH l1) as [IH1 IH2].
  destruct (run_ticks o has_parent c ts l1) as [ess l2]. cbn [fst snd concat] in *.
  rewrite statuses_app, executions_app, fmap_app, IH1.
  destruct H as [(E1 & E2 & E3)|(rep & E1 & E2 & E3)].
  - rewrite E1, E2, E3. split; [done|]. constructor; [by rewrite E2; cbn; lia|done].
  - rewrite E1, E2, E3. cbn [fmap list_fmap app]. split; [symmetry; apply changes_cons|].
    constructor; [rewrite E1; cbn; lia|done].
Qed.

(** Over the whole life of a check's goroutine, the statuses reported are exactly
    the changes of outcome in the sequence of executions, in order: a status is sent
    when the outcome or the message differs from the last execution's, and not
    otherwise; and a tick reports at most one execution. *)
Theorem statuses_are_changes o has_parent c (ts : list Tick) :
  statusReporter o = true -> executionReporter o = true ->
  let effects := runCheckCore o has_parent c ts in
  statuses (concat effects) = changes None (outcome_of <$> executions (concat effects)) /\
  Forall (fun es => (length (executions es) <= 1)%nat) effects.
Proof. intros Hs He. apply (run_ticks_reports o has_parent c ts (start_loop c) Hs He). Qed.

(** ** One run that ends *)

(** The run is admitted, gets its place in the pool, and ends before its context. *)
Definition completes o c t l : Prop :=
  (Breaker.allow (t_allow t) (breaker l)).1 = true /\
  (acquired t = true \/ select_sem c o = None) /\ cancelled t = false.

(** It failed: the check returned an error, or its deadline passed. *)
Definition run_failed c t : bool :=
  match err (collect c (world t)) with Some _ => true | None => deadline t end.

(** What a failed run may hand over besides its reports: the error metric, the
    diagnostics of an SNMP collection, the failure of an EXPLAIN, and an inventory that
    claims nothing. *)
Definition failure_effect c t (e : effect) : Prop :=
  match e with
  | Emit m => m = [check_error_metric c (t_end t)] \/
              (is_snmp_generic c = true /\ m = metrics (collect c (world t)))
  | PushExplain d => exists f er, ExplainFailure c = Some f /\ err (collect c (world t)) = Some er /\ d = f er
  | PushInventory s => Complete s = false /\ Resources s = []
  | Status _ ok _ => ok = false
  | Execution rep => OK rep = false
  | _ => False
  end.

Lemma elem_when {A} b (x y : A) : y ∈ when b x <-> b = true /\ y = x.
Proof.
  destruct b; unfold when.
  - rewrite list_elem_of_singleton. split; [done | by intros [_ ?]].
  - split; [intros []%elem_of_nil | intros [Hf _]; discriminate Hf].
Qed.

Lemma elem_some {A} (f : A -> list effect) x y :
  y ∈ some_effects f x <-> exists a, x = Some a /\ y ∈ f a.
Proof.
  destruct x as [a|]; cbn; [|split; [by intros ?%elem_of_nil|by intros (? & ? & _)]].
  split; [by exists a|]. by intros (? & [= ->] & ?).
Qed.

Lemma reportar_effects o c ok msg l e :
  e ∈ (reportar o c ok msg l).1 -> e = Status (ID c) ok msg.
Proof.
  unfold reportar, reportStatus. case_match; [by intros ?%elem_of_nil|].
  by intros [_ ->]%elem_when.
Qed.

Lemma inventory_failed o c w e :
  e ∈ inventory_effects o c w true -> exists s, e = PushInventory s /\ Complete s = false /\ Resources s = [].
Proof.
  unfold inventory_effects. case_match; [|by intros ?%elem_of_nil].
  intros (s & _ & [_ ->]%elem_when)%elem_some. by eexists.
Qed.

Lemma reportar_breaker o c ok msg l : breaker (reportar o c ok msg l).2 = breaker l.
Proof. unfold reportar. by case_match. Qed.

(** What a run that succeeded has to hand over: each product whose consumer is there. *)
Definition product o (has_parent : bool) c t (e : effect) : Prop :=
  let r := collect c (world t) in
  match e with
  | Emit m => m = metrics r /\ m <> []
  | PushQueryStats s => queryStatsPusher o = true /\ has_parent = true /\ queryStats r = Some s /\
                        (Queries s <> [] \/ Samples s <> [])
  | PushCatalog d => catalogPusher o = true /\ has_parent = true /\ catalog r = Some d
  | PushDiagnostics d => diagnosticsPusher o = true /\ has_parent = true /\ diagnostics r = Some d
  | PushExplain d => explainPusher o = true /\ has_parent = true /\ explain r = Some d
  | PushInstanceDiscovery d => instanceDiscoveryPusher o = true /\ has_parent = true /\
                               instanceDiscovery r = Some d
  | Execution rep => executionReporter o = true /\ exists d, rep = databaseExecutionReport c true false "" d (t_end t) /\
                       d = time_sub (t_end t) (t_start t)
  | _ => False
  end.

Lemma nonempty_test {A} (l : list A) : l <> [] -> negb (Z.of_nat (length l) =? 0) = true.
Proof. by destruct l. Qed.

Lemma product_delivered o has_parent c t e (pre : list effect) :
  product o has_parent c t e ->
  let r := collect c (world t) in
  e ∈ pre ++
    execution_effect o (databaseExecutionReport c true false "" (time_sub (t_end t) (t_start t)) (t_end t)) ++
    some_effects (pushQueryStats o has_parent) (queryStats r) ++
    some_effects (pushCatalog o has_parent) (catalog r) ++
    some_effects (pushDiagnostics o has_parent) (diagnostics r) ++
    some_effects (pushExplain o has_parent) (explain r) ++
    some_effects (pushInstanceDiscovery o has_parent) (instanceDiscovery r) ++
    when (negb (Z.of_nat (length (metrics r)) =? 0)) (Emit (metrics r)).
Proof.
  intros H r. rewrite !elem_of_app. unfold product in H. fold r in H.
  unfold execution_effect, pushQueryStats, pushCatalog, pushDiagnostics, pushExplain, pushInstanceDiscovery.
  destruct e; try done.
  - destruct H as [-> (d & -> & ->)]. right; left. by apply elem_when.
  - destruct H as [-> Hne]. do 7 right. apply elem_when. split; [by apply nonempty_test|done].
  - destruct H as (-> & -> & -> & Hne). right; right; left. apply elem_some. exists stats. split; [done|].
    apply elem_when. split; [|done]. apply negb_true_iff, andb_false_iff.
    destruct Hne as [Hne|Hne]; [left|right]; by apply negb_true_iff, nonempty_test.
  - destruct H as (-> & -> & ->). do 3 right; left. apply elem_some. exists d. cbn beta. by rewrite elem_when.
  - destruct H as (-> & -> & ->). do 4 right; left. apply elem_some. exists d. cbn beta. by rewrite elem_when.
  - destruct H as (-> & -> & ->). do 5 right; left. apply elem_some. exists d. cbn beta. by rewrite elem_when.
  - destruct H as (-> & -> & ->). do 6 right; left. apply elem_some. exists d. cbn beta. by rewrite elem_when.
Qed.

Lemma allow_errors now b : Breaker.errors (Breaker.allow now b).2 = Breaker.errors b.
Proof. unfold Breaker.allow, Breaker.compareAndSwap. by repeat case_match. Qed.

(** A run that ends before its context is cancelled, and only such a run, decides:
    if the check failed or overran its deadline, the error counter of the breaker grows
    by one, one error metric is emitted, and nothing else than the failure is handed
    over (no statistics, catalogue or metrics of the failed run, and an inventory only
    if it claims nothing); if it succeeded, the breaker is closed and every product
    whose consumer is installed is handed over. *)
Theorem completed_run_decides o has_parent c t l :
  completes o c t l ->
  let es := (runOnce o has_parent c t l).1 in
  let errors' := Breaker.errors (breaker (runOnce o has_parent c t l).2) in
  if run_failed c t
  then errors' = i32 (Breaker.errors (breaker l) + 1) /\
       Emit [check_error_metric c (t_end t)] ∈ es /\
       forall e, e ∈ es -> failure_effect c t e
  else errors' = 0 /\ forall e, product o has_parent c t e -> e ∈ es.
Proof.
  intros (Hallow & Hpool & Hcan). cbv zeta. unfold runOnce, run_failed.
  pose proof (allow_errors (t_allow t) (breaker l)) as Herr.
  destruct (Breaker.allow _ _) as [ok b]. cbn [fst snd] in Hallow, Herr. rewrite Hallow, Hcan. cbn [negb].
  assert ((negb (acquired t) && match select_sem c o with Some _ => true | None => false end)%bool = false) as ->.
  { destruct Hpool as [->| ->]; [done | apply andb_false_r]. }
  unfold failure_effect.
  destruct (err (collect c (world t))) as [e|] eqn:Ee; [|rewrite orb_false_r; destruct (deadline t)].
  - rewrite orb_true_r. unfold Breaker.failure.
    set (l2 := set_breaker _ _).
    pose proof (reportar_breaker o c false (Error e) l2) as Hb.
    pose proof (reportar_effects o c false (Error e) l2) as Hst.
    destruct (reportar o c false (Error e) l2) as [st l3]. cbn [fst snd] in *.
    split_and!; [by rewrite Hb; cbn; rewrite Herr | unfold emitCheckError; rewrite !elem_of_app; do 3 right; left; left |].
    intros x. rewrite !elem_of_app, elem_when.
    intros [Hx|[[Hs ->]|[Hx|[Hx|[Hx|Hx]]]]].
    + by destruct (inventory_failed _ _ _ _ Hx) as (s & -> & ? & ?).
    + right. split; [|done]. by apply andb_prop in Hs as [? _].
    + apply elem_some in Hx as (f & Ef & [_ ->]%elem_when). by exists f, e.
    + apply list_elem_of_singleton in Hx as ->. by left.
    + by rewrite (Hst _ Hx).
    + by apply elem_when in Hx as [_ ->].
  - cbn [orb]. unfold Breaker.failure. set (l2 := set_breaker _ _). set (msg := "sem resposta em " +:+ _).
    pose proof (reportar_breaker o c false msg l2) as Hb.
    pose proof (reportar_effects o c false msg l2) as Hst.
    destruct (reportar o c false msg l2) as [st l3]. cbn [fst snd] in *.
    split_and!; [by rewrite Hb; cbn; rewrite Herr | unfold emitCheckError; rewrite !elem_of_app; right; left; left |].
    intros x. rewrite !elem_of_app. intros [Hx|[Hx|[Hx|Hx]]].
    + by destruct (inventory_failed _ _ _ _ Hx) as (s & -> & ? & ?).
    + apply list_elem_of_singleton in Hx as ->. by left.
    + by rewrite (Hst _ Hx).
    + by apply elem_when in Hx as [_ ->].
  - cbn [orb]. unfold Breaker.success. set (l2 := set_breaker _ _).
    pose proof (reportar_breaker o c true "" l2) as Hb.
    destruct (reportar o c true "" l2) as [st l3]. cbn [fst snd] in *.
    split; [by rewrite Hb|]. intros x Hx. rewrite app_assoc. by apply product_delivered.
Qed.
End runs.

(** The time limit of a run: twice the interval, held between the smallest and the
    largest limit, and within them also when the interval is zero, negative or so long
    that doubling it overflows; with the defaults it is between 15 seconds and two
    minutes. *)
Theorem run_timeout_bounded (o : Options) (interval : Z) :
  0 < minRunTimeout o <= maxRunTimeout o ->
  minRunTimeout o <= runTimeout interval o <= maxRunTimeout o /\
  (minRunTimeout o <= 2 * interval <= maxRunTimeout o -> maxRunTimeout o <= max_i64 ->
     runTimeout interval o = 2 * interval) /\
  15 * second <= runTimeout interval default_options <= 2 * minute.
Proof.
  intros Hm. split; [|split].
  - unfold runTimeout. generalize (i64 (interval * 2)). intros d. repeat case_match; lia.
  - unfold max_i64. intros Hi Hx. unfold runTimeout.
    rewrite (i64_small (interval * 2)) by (unfold in_i64; lia).
    repeat case_match; lia.
  - unfold runTimeout. cbn [minRunTimeout maxRunTimeout default_options].
    unfold defaultMinCheckRunTimeout, defaultMaxCheckRunTimeout, minute, second.
    generalize (i64 (interval * 2)). intros d. repeat case_match; lia.
Qed.

Lemma run_timeout_bounded_witness :
  0 < minRunTimeout default_options <= maxRunTimeout default_options /\
  minRunTimeout default_options <= runTimeout (20 * second) default_options <= maxRunTimeout default_options.
Proof.
  assert (0 < minRunTimeout default_options <= maxRunTimeout default_options) as H
    by (cbn; unfold defaultMinCheckRunTimeout, defaultMaxCheckRunTimeout, minute, second; lia).
  split; [exact H|]. exact (proj1 (run_timeout_bounded default_options (20 * second) H)).
Defined.

(** ** A concrete fleet *)

Abbreviation ucheck := (@Check unit unit).

Definition plain_check (id : string) (e : option error) : ucheck :=
  mk_check id minute ∅ (fun _ => ([], e)) None None None None None None None None None false.

(** A factory whose first call fails, and that puts another id for an empty one; and one
    that trims the id first. *)
Definition flaky : @Factory unit unit :=
  fun n cfg => if (n =? 0)%nat then Err "connection refused"
               else Ok (plain_check (or_else ("tcp.connect-" +:+ CheckHostId cfg) (CheckId cfg)) None).
Definition trimming : @Factory unit unit := fun _ cfg =>
  Ok (plain_check (or_else ("postgres.diagnostics-" +:+ CheckHostId cfg) (trim_space (CheckId cfg))) None).
Definition example_registry : @Registry unit unit := Register "pg" trimming (Register "tcp" flaky NewRegistry).

Lemma Get_example ty f : Get ty example_registry = Some f -> f = flaky \/ f = trimming.
Proof.
  intros H.
  change (<["pg" := trimming]> (<["tcp" := flaky]> (∅ : gmap string (@Factory unit unit))) !! ty = Some f) in H.
  apply lookup_insert_Some in H as [[_ <-]|[_ [[_ <-]|[_ E]]%lookup_insert_Some]]; [by right|by left|].
  by rewrite lookup_empty in E.
Qed.

Lemma example_names : names_checks example_registry.
Proof.
  intros ty f n cfg c [-> | ->]%Get_example.
  - unfold flaky. destruct n as [|n]; [done|]. intros [= <-]. right; left. by eexists.
  - intros [= <-]. right; right. by eexists.
Qed.

Definition example_cfg : CheckConfig := mk_check_config "c1" "tcp" minute ∅ ∅ "h" true "".
Definition diagnostics_cfg : CheckConfig := mk_check_config "c2" "pg" minute ∅ ∅ "h" true "".
Definition example_ops : list op := [ODelta 0 [example_cfg; diagnostics_cfg] []].
Definition example_state : @Runtime unit unit :=
  (ApplyDelta 0 [example_cfg; diagnostics_cfg] [] (configured example_registry default_options)).2.

Lemma example_well_named : Forall well_named_op example_ops.
Proof. repeat constructor; discriminate. Qed.

Lemma example_steps : steps (configured example_registry default_options) example_ops example_state.
Proof. eapply steps_cons; [apply step_delta | apply steps_nil]. Qed.


Lemma failed_starts_recover_witness :
  (RetryFailedStarts [("c1", example_cfg)] example_state).1 = 1 /\
  pendingStarts (RetryFailedStarts [("c1", example_cfg)] example_state).2 = ∅.
Proof.
  assert ([("c1", example_cfg)] ≡ₚ map_to_list (pendingStarts example_state)) as Ho.
  { assert (map_to_list (pendingStarts example_state) = [("c1", example_cfg)]) as E by (vm_compute; reflexivity).
    rewrite E. reflexivity. }
  assert (Forall (fun e => is_ok e.2 = true)
    (retried example_registry [("c1", example_cfg)] (factory_calls example_state))) as Hok
    by (vm_compute; repeat constructor).
  destruct (proj2 (proj2 (proj2 (failed_starts_recover example_registry example_names default_options
      example_ops example_state [("c1", example_cfg)] example_well_named example_steps Ho))) Hok) as (En & Ep & _).
  split; [|exact Ep]. rewrite En. vm_compute. reflexivity.
Defined.

Definition reporting_options : Options :=
  mk_options true true true true true true true true None None 0 (10 * second) (15 * second) (2 * minute).
Definition example_tick (t : Z) : @Tick unit := mk_tick t true t (t + 1) tt false false.

Lemma statuses_are_changes_witness :
  let effects := runCheckCore reporting_options true (plain_check "c1" (Some (mk_error "refused" false)))
                   [example_tick 1; example_tick 2] in
  statuses (concat effects) = [(false, "refused")] /\
  statuses (concat effects) = changes None (outcome_of <$> executions (concat effects)).
Proof.
  refine (conj _ _); [vm_compute; reflexivity|].
  exact (proj1 (statuses_are_changes reporting_options true
    (plain_check "c1" (Some (mk_error "refused" false))) [example_tick 1; example_tick 2] eq_refl eq_refl)).
Defined.

Lemma completed_run_decides_witness :
  Emit [check_error_metric (plain_check "c1" (Some (mk_error "refused" false))) 2]
    ∈ (runOnce reporting_options true (plain_check "c1" (Some (mk_error "refused" false)))
         (example_tick 1) (start_loop (plain_check "c1" None))).1.
Proof.
  refine (proj1 (proj2 (completed_run_decides reporting_options true
    (plain_check "c1" (Some (mk_error "refused" false))) (example_tick 1)
    (start_loop (plain_check "c1" None)) _))).
  refine (conj _ (conj (or_introl _) _)); vm_compute; reflexivity.
Defined.

(** ** Two observations *)

(** Reload without checks does not stop the checks started by deltas. *)
Lemma reload_nil_keeps_delta_checks {W Data : Type} (r : @Runtime W Data) :
  exists r', Reload [] r = Some r' /\ checks r' = checks r.
Proof.
  eexists. split; [done|]. unfold stopCurrentGeneration. by case_match.
Qed.

(** A factory that trims the id of its configuration, as those of PostgreSQL do: an
    update of the check leaves the first goroutine running without a handle. *)
Definition padded_cfg : CheckConfig := mk_check_config " c1" "pg" minute ∅ ∅ "h" true "".

Lemma replaced_check_keeps_running :
  let r0 := configured (Register "pg" trimming NewRegistry) default_options in
  let r := (ApplyDelta 1 [padded_cfg] [] (ApplyDelta 0 [padded_cfg] [] r0).2).2 in
  size (live r) = 2%nat /\ size (checks r) = 1%nat.
Proof. split; vm_compute; reflexivity. Qed.
End SchedulerProps.
