(* ===== verification/Processing.v ===== *)
(** * APM processing rules (internal/apm/processing)

    Ordered rules rewrite the attributes of a trace request, before statistics and
    sampling.  The request comes as protobuf or as JSON, and the two are processed
    by different code: [process] on the message and [process_doc] on the tree of
    the document.

    Decoders and encoders (google.golang.org/protobuf, encoding/json) are arguments.
    The parts of a message the rules do not touch are values of a type parameter.
    Message trees have no sharing, so updating them in place is modelled by the
    updated tree. *)

From S2P Require Import Prelude GoStrings Wire.
#[local] Open Scope Z_scope.

Module Processing.

(** ** Rules and their validation (processing.go) *)

Record Rule := mk_rule {
  RuleName : string;
  RuleEnabled : option bool;
  RuleService : option string;
  RuleEnv : option string;
  Action : string;
  Key : option string;
  RuleValue : option string;
}.

Record Policy := mk_policy {
  Version : Z;
  Rules : list Rule;
}.

(** The two atomic pointers. *)
Record Processor := mk_processor {
  policy : option Policy;
  remote : option (list Rule);
}.

Definition protected (key : string) : bool :=
  existsb (String.eqb key)
    ["service.name"; "deployment.environment"; "deployment.environment.name"; "telvyn.source"; "resource.name"].

Definition valid (value : string) (max : Z) (empty : bool) : bool :=
  (str_len value <=? max) && (empty || negb (String.eqb (trim_space value) "")) && negb (has_control value).

Definition optionalValid (value : option string) (max : Z) : bool :=
  match value with None => true | Some v => valid v max true end.

(** A key that a rule may name: present, valid and not protected. *)
Definition key_ok (k : option string) : bool :=
  match k with None => false | Some k => valid k 256 false && negb (protected k) end.

Definition remote_rule_ok (r : Rule) : bool :=
  String.eqb (Action r) "set_attribute" && key_ok (Key r) &&
  match RuleValue r with None => false | Some v => valid v 512 true end &&
  optionalValid (RuleService r) 255 && optionalValid (RuleEnv r) 200.

Definition UpdateRemote (rules : list Rule) (p : Processor) : res unit * Processor :=
  if 500 <? Z.of_nat (length rules) then (Err "invalid remote tags", p)
  else if forallb remote_rule_ok rules then (Ok tt, mk_processor (policy p) (Some rules))
  else (Err "invalid remote tag", p).

(** The loop of [Update]: the error of the first rule that is refused. *)
Definition check_rule (r : Rule) : res unit :=
  if negb (valid (RuleName r) 100 false) || negb (optionalValid (RuleService r) 255) ||
     negb (optionalValid (RuleEnv r) 200)
  then Err "invalid processing condition"
  else if String.eqb (Action r) "mask_attribute" || String.eqb (Action r) "remove_attribute" then
    if negb (key_ok (Key r)) || match RuleValue r with Some _ => true | None => false end
    then Err "invalid attribute processor" else Ok tt
  else if String.eqb (Action r) "remap_service" || String.eqb (Action r) "remap_resource" then
    let limit := if String.eqb (Action r) "remap_service" then 255 else 512 in
    if match Key r with Some _ => true | None => false end ||
       negb (match RuleValue r with None => false | Some v => valid v limit false end)
    then Err "invalid remapping processor" else Ok tt
  else Err "unsupported processing action".

Fixpoint check_rules (l : list Rule) : res unit :=
  match l with
  | [] => Ok tt
  | r :: l => _ ← check_rule r; check_rules l
  end.

Definition Update (pol : Policy) (p : Processor) : res unit * Processor :=
  if negb (Version pol =? 1) || (50 <? Z.of_nat (length (Rules pol)))
  then (Err "invalid processing policy", p)
  else match check_rules (Rules pol) with
       | Err e => (Err e, p)
       | Ok _ => (Ok tt, mk_processor (Some pol) (remote p))
       end.

(** The rules in force: those of the policy, then the remote ones. *)
Definition rules_in_force (p : Processor) : list Rule :=
  (from_option Rules [] (policy p) ++ default [] (remote p))%list.

Definition disabled (r : Rule) : bool :=
  match RuleEnabled r with Some b => negb b | None => false end.

(** Whether a condition excludes a resource. *)
Definition differs (cond : option string) (v : string) : bool :=
  match cond with Some c => negb (String.eqb c v) | None => false end.

(** A pointer the rule's validation has made sure is there. *)
Definition deref (o : option string) : string := default "" o.

(** ** Protobuf requests *)

Section messages.
(** Attribute values of other kinds than strings, the fields of a span besides its
    attributes, and the fields of the other messages that no rule touches. *)
Context {V S A : Type}.
(** The remaining fields of a message that was just created. *)
Variable no_fields : A.

(** An attribute value: a string, or a value of another kind (or none). *)
Inductive AnyValue :=
  | StringValue (s : string)
  | OtherValue (v : V).

Definition GetStringValue (v : AnyValue) : string :=
  match v with StringValue s => s | OtherValue _ => "" end.

Record KeyValue := mk_kv {
  kv_key : string;
  kv_value : AnyValue;
  kv_rest : A;
}.

(** Slices of pointers, which may be nil. *)
Definition Attributes : Type := list (option KeyValue).

Record SpanMsg := mk_span_msg { span_attrs : Attributes; span_rest : S }.
Record ScopeSpans := mk_scope { scope_spans : list (option SpanMsg); scope_rest : A }.
Record Resource := mk_resource { res_attrs : Attributes; res_rest : A }.
Record ResourceSpans := mk_rs {
  rs_resource : option Resource;
  rs_scopes : list (option ScopeSpans);
  rs_rest : A;
}.
Record Request := mk_request { resource_spans : list (option ResourceSpans); req_rest : A }.

Definition has_key (key : string) (attr : option KeyValue) : bool :=
  match attr with Some kv => String.eqb (kv_key kv) key | None => false end.

Fixpoint attribute (attrs : Attributes) (key : string) : string :=
  match attrs with
  | [] => ""
  | Some kv :: attrs =>
      if String.eqb (kv_key kv) key then GetStringValue (kv_value kv) else attribute attrs key
  | None :: attrs => attribute attrs key
  end.

Definition set_value (v : string) (attr : option KeyValue) : option KeyValue :=
  match attr with
  | Some kv => Some (mk_kv (kv_key kv) (StringValue v) (kv_rest kv))
  | None => None
  end.

Definition setAttribute (attrs : Attributes) (key value : string) : Attributes :=
  let out := (fun a => if has_key key a then set_value value a else a) <$> attrs in
  if existsb (has_key key) attrs then out
  else (out ++ [Some (mk_kv key (StringValue value) no_fields)])%list.

Definition redacted : string := "[REDACTED]".

Definition processAttribute (attrs : Attributes) (key action : string) : Attributes :=
  omap (fun a => if has_key key a
                 then if String.eqb action "remove_attribute" then None
                      else Some (set_value redacted a)
                 else Some a) attrs.

Definition is_attribute_action (action : string) : bool :=
  String.eqb action "remove_attribute" || String.eqb action "mask_attribute".

Definition apply_to_resource (r : Rule) (attrs : Attributes) : Attributes :=
  if String.eqb (Action r) "remap_service" then setAttribute attrs "service.name" (deref (RuleValue r))
  else if is_attribute_action (Action r) then processAttribute attrs (deref (Key r)) (Action r)
  else attrs.

Definition apply_to_span (r : Rule) (attrs : Attributes) : Attributes :=
  if String.eqb (Action r) "remap_resource" then setAttribute attrs "resource.name" (deref (RuleValue r))
  else if is_attribute_action (Action r) then processAttribute attrs (deref (Key r)) (Action r)
  else if String.eqb (Action r) "set_attribute"
       then setAttribute attrs (deref (Key r)) (deref (RuleValue r))
  else attrs.

Definition service_of (attrs : Attributes) : string := attribute attrs "service.name".
Definition env_of (attrs : Attributes) : string :=
  let env := attribute attrs "deployment.environment" in
  if String.eqb env "" then attribute attrs "deployment.environment.name" else env.

Definition matches (r : Rule) (attrs : Attributes) : bool :=
  negb (differs (RuleService r) (service_of attrs) || differs (RuleEnv r) (env_of attrs)).

Definition apply_rule_rs (r : Rule) (rs : ResourceSpans) : ResourceSpans :=
  let res := default (mk_resource [] no_fields) (rs_resource rs) in
  let attrs := res_attrs res in
  if negb (matches r attrs) then mk_rs (Some res) (rs_scopes rs) (rs_rest rs)
  else
    mk_rs (Some (mk_resource (apply_to_resource r attrs) (res_rest res)))
      ((fmap (M := option) (fun sc => mk_scope
          ((fmap (M := option) (fun sp => mk_span_msg (apply_to_span r (span_attrs sp)) (span_rest sp)))
             <$> scope_spans sc) (scope_rest sc))) <$> rs_scopes rs)
      (rs_rest rs).

Definition apply_rule (r : Rule) (req : Request) : Request :=
  if disabled r then req
  else mk_request ((fmap (M := option) (apply_rule_rs r)) <$> resource_spans req) (req_rest req).

Definition process (rules : list Rule) (req : Request) : Request :=
  foldl (fun req r => apply_rule r req) req rules.
End messages.

Arguments AnyValue : clear implicits.
Arguments KeyValue : clear implicits.
Arguments Attributes : clear implicits.
Arguments SpanMsg : clear implicits.
Arguments ScopeSpans : clear implicits.
Arguments Resource : clear implicits.
Arguments ResourceSpans : clear implicits.
Arguments Request : clear implicits.

(** ** JSON requests (processing_json.go) *)

(** A decoded document; [UseNumber] keeps numbers as their text. *)
#[warnings="-automation"]
Inductive json :=
  | JNull
  | JBool (b : bool)
  | JNumber (text : string)
  | JString (s : string)
  | JArray (l : list json)
  | JObject (m : gmap string json).

Abbreviation jobject := (gmap string json).

(** The objects of an array; null and a missing key are an empty array. *)
Fixpoint as_objects (key : string) (l : list json) : res (list jobject) :=
  match l with
  | [] => Ok []
  | JObject m :: l => ms ← as_objects key l; Ok (m :: ms)
  | _ :: _ => Err ("invalid OTLP JSON entry: " +:+ key)
  end.

Definition objects (parent : jobject) (key : string) : res (list jobject) :=
  match parent !! key with
  | None | Some JNull => Ok []
  | Some (JArray l) => as_objects key l
  | Some _ => Err ("invalid OTLP JSON array: " +:+ key)
  end.

Definition of_objects (l : list jobject) : json := JArray (JObject <$> l).

(** [attr["key"] == key]. *)
Definition json_has_key (key : string) (attr : jobject) : bool :=
  match attr !! "key" with Some (JString k) => String.eqb k key | _ => false end.

Definition json_string_value (attr : jobject) : string :=
  match attr !! "value" with
  | Some (JObject v) => match v !! "stringValue" with Some (JString s) => s | _ => "" end
  | _ => ""
  end.

(** The first attribute of the key that holds an object as its value decides. *)
Fixpoint jsonAttribute (attrs : list jobject) (key : string) : string :=
  match attrs with
  | [] => ""
  | attr :: attrs =>
      if json_has_key key attr then
        match attr !! "value" with
        | Some (JObject _) => json_string_value attr
        | _ => jsonAttribute attrs key
        end
      else jsonAttribute attrs key
  end.

Definition string_value (s : string) : json := JObject {[ "stringValue" := JString s ]}.

Definition setJSONAttribute (attrs : list jobject) (key value : string) : list jobject :=
  let out := (fun a => if json_has_key key a then <["value" := string_value value]> a else a) <$> attrs in
  if existsb (json_has_key key) attrs then out
  else (out ++ [<["key" := JString key]> {[ "value" := string_value value ]}])%list.

Definition processJSONAttribute (attrs : list jobject) (key action : string) : list jobject :=
  omap (fun a => if json_has_key key a
                 then if String.eqb action "remove_attribute" then None
                      else Some (<["value" := string_value redacted]> a)
                 else Some a) attrs.

Definition json_apply_to_resource (r : Rule) (attrs : list jobject) (resource : jobject) : jobject :=
  if String.eqb (Action r) "remap_service"
  then <["attributes" := of_objects (setJSONAttribute attrs "service.name" (deref (RuleValue r)))]> resource
  else if is_attribute_action (Action r)
  then <["attributes" := of_objects (processJSONAttribute attrs (deref (Key r)) (Action r))]> resource
  else resource.

Definition json_apply_to_span (r : Rule) (span : jobject) : res jobject :=
  attrs ← objects span "attributes";
  Ok (if String.eqb (Action r) "remap_resource"
      then <["attributes" := of_objects (setJSONAttribute attrs "resource.name" (deref (RuleValue r)))]> span
      else if is_attribute_action (Action r)
      then <["attributes" := of_objects (processJSONAttribute attrs (deref (Key r)) (Action r))]> span
      else if String.eqb (Action r) "set_attribute"
      then <["attributes" := of_objects (setJSONAttribute attrs (deref (Key r)) (deref (RuleValue r)))]> span
      else span).

Fixpoint map_res {X Y} (f : X -> res Y) (l : list X) : res (list Y) :=
  match l with
  | [] => Ok []
  | x :: l => y ← f x; ys ← map_res f l; Ok (y :: ys)
  end.

(** Maps over an array of objects in place: the array is left alone when its key is
    missing or null. *)
Definition over_objects (f : jobject -> res jobject) (key : string) (parent : jobject) : res jobject :=
  l ← objects parent key;
  l' ← map_res f l;
  Ok match l with [] => parent | _ => <[key := of_objects l']> parent end.

Definition json_scope (r : Rule) (scope : jobject) : res jobject :=
  over_objects (json_apply_to_span r) "spans" scope.

Definition json_apply_rule_rs (r : Rule) (rs : jobject) : res jobject :=
  resource ← match rs !! "resource" with
             | Some (JObject m) => Ok m
             | None | Some JNull => Ok ∅
             | Some _ => Err "invalid resource"
             end;
  let rs := <["resource" := JObject resource]> rs in
  attrs ← objects resource "attributes";
  let env := jsonAttribute attrs "deployment.environment" in
  let env := if String.eqb env "" then jsonAttribute attrs "deployment.environment.name" else env in
  if differs (RuleService r) (jsonAttribute attrs "service.name") || differs (RuleEnv r) env
  then Ok rs
  else
    let rs := <["resource" := JObject (json_apply_to_resource r attrs resource)]> rs in
    over_objects (json_scope r) "scopeSpans" rs.

Definition json_apply_rule (r : Rule) (doc : jobject) : res jobject :=
  if disabled r then Ok doc
  else over_objects (json_apply_rule_rs r) "resourceSpans" doc.

Fixpoint json_rules (rules : list Rule) (doc : jobject) : res jobject :=
  match rules with
  | [] => Ok doc
  | r :: rules => doc ← json_apply_rule r doc; json_rules rules doc
  end.

(** [processJSON] on the decoded document. *)
Definition process_doc (rules : list Rule) (doc : jobject) : res jobject :=
  _ ← objects doc "resourceSpans";
  json_rules rules doc.

Section traces.
Context {V S A : Type} (no_fields : A).
(** [proto.Unmarshal] and [proto.Marshal]; decoding a body that holds exactly one
    JSON document, which is None for null; and [json.Marshal]. *)
Variables (unmarshal : string -> res (Request V S A)) (marshal : Request V S A -> res string).
Variables (decode : string -> res (option jobject)) (encode : jobject -> res string).

Definition processJSON (body : string) (rules : list Rule) : res string :=
  doc ← decode body;
  match doc with
  | None => Err "invalid OTLP JSON object"
  | Some doc => doc ← process_doc rules doc; encode doc
  end.

(** [strings.ToLower] of a content type; the letters of "json" are ASCII, and the only
    other letters that Go lowers to one of them (U+212A, U+0130) are not. *)
Definition is_json (contentType : string) : bool :=
  contains "json" (map_bytes lower_byte contentType).

Definition ProcessTraces (contentType body : string) (p : Processor) : res string :=
  match rules_in_force p with
  | [] => Ok body
  | rules =>
      if is_json contentType then processJSON body rules
      else req ← unmarshal body; marshal (process no_fields rules req)
  end.
End traces.

End Processing.
