(* ===== verification/ProcessingProps.v ===== *)
(** * What the processing rules promise

    The JSON path and the protobuf path do the same to the same request; stored
    rules are always valid; what a rule redacts or removes is gone. *)

From S2P Require Import Prelude GoStrings Wire Processing.
#[local] Open Scope Z_scope.

Module ProcessingProps.
Import Processing.

(** ** Reading a document as a request

    The request a JSON document stands for; the parts that no rule touches are kept
    as the JSON that remains. *)

Definition read_value (v : option json) (x : AnyValue json) : Prop :=
  exists m, v = Some (JObject m) /\
    x = match m !! "stringValue" with Some (JString s) => StringValue s | _ => OtherValue (JObject m) end.

Definition read_key (m : jobject) : string :=
  match m !! "key" with Some (JString k) => k | _ => "" end.

Definition read_attr (m : jobject) (a : option (KeyValue json json)) : Prop :=
  exists x, read_value (m !! "value") x /\
    a = Some (mk_kv (read_key m) x (JObject (delete "key" (delete "value" m)))).

Definition read_list {X} (R : jobject -> X -> Prop) (key : string) (m : jobject) (l : list X) : Prop :=
  exists objs, objects m key = Ok objs /\ Forall2 R objs l.

Definition read_span (m : jobject) (s : option (SpanMsg json json json)) : Prop :=
  exists attrs, read_list read_attr "attributes" m attrs /\
    s = Some (mk_span_msg attrs (JObject (delete "attributes" m))).

Definition read_scope (m : jobject) (s : option (ScopeSpans json json json)) : Prop :=
  exists spans, read_list read_span "spans" m spans /\
    s = Some (mk_scope spans (JObject (delete "spans" m))).

Definition read_resource (v : option json) (r : option (Resource json json)) : Prop :=
  match v with
  | None | Some JNull => r = None
  | Some (JObject m) => exists attrs, read_list read_attr "attributes" m attrs /\
      r = Some (mk_resource attrs (JObject (delete "attributes" m)))
  | _ => False
  end.

Definition read_rs (m : jobject) (rs : option (ResourceSpans json json json)) : Prop :=
  exists res scopes, read_resource (m !! "resource") res /\ read_list read_scope "scopeSpans" m scopes /\
    rs = Some (mk_rs res scopes (JObject (delete "resource" (delete "scopeSpans" m)))).

Definition read_doc (m : jobject) (req : Request json json json) : Prop :=
  exists rss, read_list read_rs "resourceSpans" m rss /\
    req = mk_request rss (JObject (delete "resourceSpans" m)).

Definition no_fields : json := JObject ∅.

(** ** Arrays of objects *)

Lemma as_objects_of key l : as_objects key (JObject <$> l) = Ok l.
Proof. induction l as [|m l IH]; cbn; [done|]. by rewrite IH. Qed.

Lemma objects_insert key l m : objects (<[key := of_objects l]> m) key = Ok l.
Proof. unfold objects. rewrite lookup_insert_eq. apply as_objects_of. Qed.

Lemma objects_insert_ne key key' v m : key' <> key -> objects (<[key' := v]> m) key = objects m key.
Proof. intros Hne. unfold objects. by rewrite lookup_insert_ne. Qed.

Lemma read_list_insert {X} (R : jobject -> X -> Prop) key l m k :
  Forall2 R l k -> read_list R key (<[key := of_objects l]> m) k.
Proof. intros Hl. exists l. split; [apply objects_insert | done]. Qed.

Lemma read_list_insert_ne {X} (R : jobject -> X -> Prop) key key' v m l :
  key' <> key -> read_list R key m l -> read_list R key (<[key' := v]> m) l.
Proof. intros Hne (objs & Ho & Hl). exists objs. by rewrite objects_insert_ne. Qed.

(** A step on objects that simulates a step on what they stand for. *)
Lemma over_objects_sim {X} (R : jobject -> X -> Prop) f g key m l :
  (forall o x, R o x -> exists o', f o = Ok o' /\ R o' (g x)) ->
  read_list R key m l ->
  exists m', over_objects f key m = Ok m' /\ read_list R key m' (g <$> l) /\
    delete key m' = delete key m /\ forall key', key' <> key -> m' !! key' = m !! key'.
Proof.
  intros Hfg (objs & Ho & Hl). unfold over_objects. rewrite Ho. cbn [mbind res_bind].
  assert (exists objs', map_res f objs = Ok objs' /\ Forall2 R objs' (g <$> l)) as (objs' & Hm & Hl').
  { clear Ho. induction Hl as [|o x objs l Hx Hl IH]; cbn; [by exists []|].
    destruct (Hfg _ _ Hx) as (o' & -> & Hx'). cbn. destruct IH as (objs' & -> & Hl').
    exists (o' :: objs'). split; [done|]. by constructor. }
  rewrite Hm. cbn [mbind res_bind]. eexists. split; [done|]. destruct objs as [|o objs].
  - inversion Hl; subst. split_and!; try done. by exists [].
  - split_and!; [by apply read_list_insert | by rewrite delete_insert_eq |].
    intros key' Hne. by rewrite lookup_insert_ne.
Qed.

(** ** Attributes *)

Lemma read_attr_has_key (key : string) m a : key <> "" -> read_attr m a -> json_has_key key m = has_key key a.
Proof.
  intros Hne (x & _ & ->). unfold json_has_key, has_key, read_key. cbn.
  destruct (m !! "key") as [[]|]; try done; symmetry; by apply String.eqb_neq.
Qed.

Lemma read_attr_set v m a :
  read_attr m a -> read_attr (<["value" := string_value v]> m) (set_value v a).
Proof.
  intros (x & _ & ->). exists (StringValue v). split.
  - rewrite lookup_insert_eq. eexists. split; [done|]. by rewrite lookup_singleton_eq.
  - cbn. unfold read_key. rewrite lookup_insert_ne by done.
    by rewrite delete_insert_eq.
Qed.

Lemma read_attr_new key v :
  read_attr (<["key" := JString key]> {["value" := string_value v]})
    (Some (mk_kv key (StringValue v) no_fields)).
Proof.
  exists (StringValue v). split.
  - rewrite lookup_insert_ne, lookup_singleton_eq by done. eexists. split; [done|].
    by rewrite lookup_singleton_eq.
  - unfold read_key. rewrite lookup_insert_eq. repeat f_equal.
Qed.

Lemma setAttribute_sim (key : string) v objs attrs :
  key <> "" -> Forall2 read_attr objs attrs ->
  Forall2 read_attr (setJSONAttribute objs key v) (setAttribute no_fields attrs key v).
Proof.
  intros Hne Hl. unfold setJSONAttribute, setAttribute.
  assert (existsb (json_has_key key) objs = existsb (has_key key) attrs) as ->.
  { induction Hl; cbn; [done|]. by erewrite read_attr_has_key, IHHl. }
  assert (Forall2 read_attr
    ((fun a => if json_has_key key a then <["value" := string_value v]> a else a) <$> objs)
    ((fun a => if has_key key a then set_value v a else a) <$> attrs)) as Hm.
  { apply Forall2_fmap. eapply Forall2_impl; [exact Hl|]. intros m a Ha.
    rewrite (read_attr_has_key key m a) by done. case_match; [by apply read_attr_set | done]. }
  case_match; [done|]. apply Forall2_app; [done|]. constructor; [apply read_attr_new | constructor].
Qed.

Lemma processAttribute_sim (key : string) action objs attrs :
  key <> "" -> Forall2 read_attr objs attrs ->
  Forall2 read_attr (processJSONAttribute objs key action) (processAttribute attrs key action).
Proof.
  intros Hne Hl. unfold processJSONAttribute, processAttribute.
  induction Hl as [|m a objs attrs Ha Hl IH]; cbn; [constructor|].
  rewrite (read_attr_has_key key m a) by done.
  destruct (has_key key a); [destruct (String.eqb action "remove_attribute")|]; cbn; [done| |];
    (constructor; [|done]); [by apply read_attr_set | done].
Qed.

Lemma attribute_sim (key : string) objs attrs :
  key <> "" -> Forall2 read_attr objs attrs -> jsonAttribute objs key = attribute attrs key.
Proof.
  intros Hne Hl. induction Hl as [|m a objs attrs Ha Hl IH]; cbn; [done|].
  pose proof (read_attr_has_key key m a Hne Ha) as Hk. rewrite Hk.
  destruct Ha as (x & (mv & Hv & ->) & ->). cbn. rewrite IH, Hv.
  unfold has_key; cbn. destruct (String.eqb (read_key m) key); [|done]. unfold json_string_value. rewrite Hv.
  by destruct (mv !! "stringValue") as [[]|].
Qed.

(** ** Valid rules *)

(** A rule that one of the two updates accepts. *)
Definition rule_ok (r : Rule) : Prop := check_rule r = Ok tt \/ remote_rule_ok r = true.

Lemma key_ok_spec k : key_ok k = true -> exists key, k = Some key /\ key <> "" /\ protected key = false.
Proof.
  unfold key_ok. destruct k as [key|]; [|done]. intros Hk. to_prop. exists key. split; [done|].
  split; [|done]. intros ->. done.
Qed.

(** The shape of a valid rule, by its action. *)
Lemma rule_ok_shape r :
  rule_ok r ->
  (is_attribute_action (Action r) = true /\ key_ok (Key r) = true) \/
  ((Action r = "remap_service" \/ Action r = "remap_resource") /\ is_Some (RuleValue r)) \/
  (Action r = "set_attribute" /\ key_ok (Key r) = true /\ is_Some (RuleValue r)).
Proof.
  intros [Hc|Hr].
  - unfold check_rule in Hc. destruct (_ || _ || _); [done|].
    destruct (String.eqb (Action r) "mask_attribute" || _) eqn:E1.
    + left. split; [unfold is_attribute_action; by rewrite orb_comm|].
      destruct (key_ok (Key r)); [done|]. done.
    + destruct (String.eqb (Action r) "remap_service" || _) eqn:E2; [|done]. right; left.
      apply orb_true_iff in E2 as [->%String.eqb_eq | ->%String.eqb_eq]; (split; [auto|]);
        destruct (Key r), (RuleValue r); cbn in Hc; try done; by eexists.
  - right; right. unfold remote_rule_ok in Hr. to_prop.
    split; [done|]. split; [done|]. destruct (RuleValue r); [by eexists | done].
Qed.

Lemma rule_ok_key r :
  rule_ok r -> is_attribute_action (Action r) = true \/ Action r = "set_attribute" ->
  deref (Key r) <> "" /\ protected (deref (Key r)) = false.
Proof.
  intros Hok Ha. destruct (rule_ok_shape r Hok) as [[_ Hk]|[[E _]|(_ & Hk & _)]].
  - destruct (key_ok_spec _ Hk) as (k & -> & ? & ?). done.
  - destruct E as [E|E]; rewrite E in Ha; destruct Ha; done.
  - destruct (key_ok_spec _ Hk) as (k & -> & ? & ?). done.
Qed.

(** ** The two paths *)

Lemma span_sim r m s :
  rule_ok r -> read_span m s ->
  exists m', json_apply_to_span r m = Ok m' /\
    read_span m' (fmap (M := option)
      (fun sp => mk_span_msg (apply_to_span no_fields r (span_attrs sp)) (span_rest sp)) s).
Proof.
  intros Hok (attrs & (objs & Ho & Hl) & ->). unfold json_apply_to_span. rewrite Ho. cbn [mbind res_bind].
  eexists. split; [done|]. cbn. unfold apply_to_span.
  assert (forall objs' attrs', Forall2 read_attr objs' attrs' ->
    read_span (<["attributes" := of_objects objs']> m)
      (Some (mk_span_msg attrs' (JObject (delete "attributes" m))))) as Hnew.
  { intros objs' attrs' Hl'. exists attrs'. split; [by apply read_list_insert|]. by rewrite delete_insert_eq. }
  destruct (String.eqb (Action r) "remap_resource") eqn:E1; [by apply Hnew, setAttribute_sim|].
  destruct (is_attribute_action (Action r)) eqn:E2.
  { apply Hnew, processAttribute_sim; [|done]. apply rule_ok_key; auto. }
  destruct (String.eqb (Action r) "set_attribute") eqn:E3.
  { apply Hnew, setAttribute_sim; [|done]. apply rule_ok_key; [done|]. right. by apply String.eqb_eq. }
  exists attrs. split; [by exists objs | done].
Qed.

Lemma scope_sim r m s :
  rule_ok r -> read_scope m s ->
  exists m', json_scope r m = Ok m' /\
    read_scope m' (fmap (M := option) (fun sc => mk_scope
      ((fmap (M := option) (fun sp => mk_span_msg (apply_to_span no_fields r (span_attrs sp)) (span_rest sp)))
         <$> scope_spans sc) (scope_rest sc)) s).
Proof.
  intros Hok (spans & Hl & ->). unfold json_scope.
  destruct (over_objects_sim read_span (json_apply_to_span r) _ "spans" m spans
    (fun o x Hx => span_sim r o x Hok Hx) Hl) as (m' & -> & Hl' & Hd & _).
  exists m'. split; [done|]. cbn. eexists. split; [exact Hl'|]. by rewrite Hd.
Qed.

(** The attributes of a resource, and the object that holds them, after a rule. *)
Lemma resource_sim r m objs attrs :
  rule_ok r -> objects m "attributes" = Ok objs -> Forall2 read_attr objs attrs ->
  read_resource (Some (JObject (json_apply_to_resource r objs m)))
    (Some (mk_resource (apply_to_resource no_fields r attrs) (JObject (delete "attributes" m)))).
Proof.
  intros Hok Ho Hl. unfold json_apply_to_resource, apply_to_resource.
  assert (forall objs' attrs', Forall2 read_attr objs' attrs' ->
    read_resource (Some (JObject (<["attributes" := of_objects objs']> m)))
      (Some (mk_resource attrs' (JObject (delete "attributes" m))))) as Hnew.
  { intros objs' attrs' Hl'. exists attrs'. split; [by apply read_list_insert|]. by rewrite delete_insert_eq. }
  destruct (String.eqb (Action r) "remap_service"); [by apply Hnew, setAttribute_sim|].
  destruct (is_attribute_action (Action r)) eqn:E2.
  { apply Hnew, processAttribute_sim; [|done]. apply rule_ok_key; auto. }
  exists attrs. split; [by exists objs | done].
Qed.

(** The resource object a rule works on, and the message it stands for. *)
Lemma read_resource_object v res :
  read_resource v res ->
  exists m attrs objs,
    match v with Some (JObject m) => Ok m | None | Some JNull => Ok ∅ | Some _ => Err "invalid resource" end = Ok m /\
    objects m "attributes" = Ok objs /\ Forall2 read_attr objs attrs /\
    default (mk_resource [] no_fields) res = mk_resource attrs (JObject (delete "attributes" m)).
Proof.
  destruct v as [[]|]; cbn; try done.
  - intros ->. exists ∅, [], []. split_and!; [done | done | constructor | done].
  - intros (attrs & (objs & Ho & Hl) & ->). by exists m, attrs, objs.
  - intros ->. exists ∅, [], []. split_and!; [done | done | constructor | done].
Qed.

Lemma rs_sim r m rs :
  rule_ok r -> read_rs m rs ->
  exists m', json_apply_rule_rs r m = Ok m' /\ read_rs m' (fmap (M := option) (apply_rule_rs no_fields r) rs).
Proof.
  intros Hok (res & scopes & Hres & Hsc & ->). unfold json_apply_rule_rs.
  destruct (read_resource_object _ _ Hres) as (resm & attrs & objs & Hm & Ho & Hl & Hdef).
  rewrite Hm. cbn [mbind res_bind]. rewrite Ho. cbn [mbind res_bind].
  rewrite !(attribute_sim _ objs attrs) by done.
  cbn [fmap option_fmap option_map]. unfold apply_rule_rs. cbn [rs_resource rs_scopes rs_rest].
  rewrite Hdef. cbn [res_attrs res_rest]. unfold matches, service_of, env_of.
  assert (forall m1 v, delete "resource" (delete "scopeSpans" (<["resource" := v]> m1)) =
    delete "resource" (delete "scopeSpans" m1 : jobject)) as Hdel.
  { intros m1 v. by rewrite delete_insert_ne, delete_insert_eq. }
  destruct (differs _ _ || differs _ _) eqn:Ed; cbn [negb].
  - eexists. split; [done|]. exists (Some (mk_resource attrs (JObject (delete "attributes" resm)))), scopes.
    rewrite Hdel. split_and!; [|by apply read_list_insert_ne | done].
    rewrite lookup_insert_eq. exists attrs. split; [by exists objs | done].
  - rewrite insert_insert_eq. set (m1 := <["resource" := _]> m).
    assert (read_list read_scope "scopeSpans" m1 scopes) as Hsc1 by (by apply read_list_insert_ne).
    destruct (over_objects_sim read_scope (json_scope r) _ "scopeSpans" m1 scopes
      (fun o x Hx => scope_sim r o x Hok Hx) Hsc1) as (m' & -> & Hl' & Hd & Hother).
    exists m'. split; [done|]. eexists _, _. split_and!; [|exact Hl' |].
    + rewrite Hother by done. unfold m1. rewrite lookup_insert_eq. by eapply resource_sim.
    + rewrite Hd. unfold m1. by rewrite Hdel.
Qed.

Lemma rule_sim r doc req :
  rule_ok r -> read_doc doc req ->
  exists doc', json_apply_rule r doc = Ok doc' /\ read_doc doc' (apply_rule no_fields r req).
Proof.
  intros Hok (rss & Hl & ->). unfold json_apply_rule, apply_rule.
  destruct (disabled r); [exists doc; split; [done | by exists rss]|].
  destruct (over_objects_sim read_rs (json_apply_rule_rs r) _ "resourceSpans" doc rss
    (fun o x Hx => rs_sim r o x Hok Hx) Hl) as (doc' & -> & Hl' & Hd & _).
  exists doc'. split; [done|]. cbn. eexists. split; [exact Hl'|]. by rewrite Hd.
Qed.

(** ** What is redacted stays redacted *)

Section clean.
Context {V S A : Type} (none : A).

(** No attribute of the key is left ([action] removes), or only the mark. *)
Definition clean (key action : string) (a : option (KeyValue V A)) : Prop :=
  has_key key a = true ->
  String.eqb action "remove_attribute" = false /\ fmap kv_value a = Some (StringValue redacted).

Definition clean_attrs key action (attrs : Attributes V A) : Prop := Forall (clean key action) attrs.

(** Every attribute of a request: those of its resources and of its spans. *)
Definition all_attrs (P : Attributes V A -> Prop) (req : Request V S A) : Prop :=
  forall rs, Some rs ∈ resource_spans req ->
    (forall res, rs_resource rs = Some res -> P (res_attrs res)) /\
    (forall sc sp, Some sc ∈ rs_scopes rs -> Some sp ∈ scope_spans sc -> P (span_attrs sp)).

Lemma clean_processed key action attrs : clean_attrs key action (processAttribute attrs key action).
Proof.
  unfold clean_attrs, processAttribute. induction attrs as [|a attrs IH]; cbn; [constructor|].
  destruct (has_key key a) eqn:E; [destruct (String.eqb action "remove_attribute") eqn:Ea|]; cbn; [done| |].
  - constructor; [|done]. intros _. split; [done|]. by destruct a.
  - constructor; [|done]. unfold clean. by rewrite E.
Qed.

Lemma clean_process_any key action key' action' attrs :
  clean_attrs key action attrs -> clean_attrs key action (processAttribute attrs key' action').
Proof.
  unfold clean_attrs, processAttribute. intros Hc. induction Hc as [|a attrs Ha Hc IH]; cbn; [constructor|].
  destruct (has_key key' a) eqn:E; [destruct (String.eqb action' "remove_attribute") eqn:Ea|]; cbn; [done| |];
    (constructor; [|done]); [|done].
  destruct a as [kv|]; [|done]. intros Hk. cbn in Hk. by destruct (Ha Hk).
Qed.

Lemma clean_set key action key' v attrs :
  key' <> key -> clean_attrs key action attrs -> clean_attrs key action (setAttribute none attrs key' v).
Proof.
  intros Hne Hc. unfold setAttribute.
  assert (clean_attrs key action ((fun a => if has_key key' a then set_value v a else a) <$> attrs)) as Hm.
  { apply Forall_fmap. eapply Forall_impl; [exact Hc|]. intros a Ha. cbn.
    destruct (has_key key' a) eqn:E; [|done]. destruct a as [kv|]; [|done].
    cbn in E. apply String.eqb_eq in E. intros Hk. cbn in Hk. apply String.eqb_eq in Hk. congruence. }
  case_match; [done|]. apply Forall_app. split; [done|]. constructor; [|constructor].
  intros Hk. cbn in Hk. apply String.eqb_eq in Hk. congruence.
Qed.

(** The rule does not set the key again. *)
Definition spares (key : string) (r : Rule) : Prop :=
  Action r = "set_attribute" -> deref (Key r) <> key.

Lemma clean_resource key action r attrs :
  protected key = false -> spares key r ->
  clean_attrs key action attrs -> clean_attrs key action (apply_to_resource none r attrs).
Proof.
  intros Hp Hs Hc. unfold apply_to_resource.
  case_match; [apply clean_set; [by intros <- | done]|]. case_match; [by apply clean_process_any | done].
Qed.

Lemma clean_span key action r attrs :
  protected key = false -> spares key r ->
  clean_attrs key action attrs -> clean_attrs key action (apply_to_span none r attrs).
Proof.
  intros Hp Hs Hc. unfold apply_to_span.
  case_match; [apply clean_set; [by intros <- | done]|]. case_match; [by apply clean_process_any|].
  case_match eqn:E; [|done]. apply clean_set; [|done]. by apply Hs, String.eqb_eq.
Qed.

Lemma all_attrs_impl (P : Attributes V A -> Prop) r req :
  (forall attrs, P attrs -> P (apply_to_resource none r attrs)) ->
  (forall attrs, P attrs -> P (apply_to_span none r attrs)) -> P [] ->
  all_attrs P req -> all_attrs P (apply_rule none r req).
Proof.
  intros Hres Hspan Hnil Hall. unfold apply_rule. destruct (disabled r); [done|].
  intros rs' Hin. cbn in Hin. apply list_elem_of_fmap in Hin as ([rs|] & Heq & Hin); [|done].
  injection Heq as ->. destruct (Hall rs Hin) as [H1 H2].
  assert (P (res_attrs (default (mk_resource [] none) (rs_resource rs)))) as Hdef.
  { destruct (rs_resource rs); [by apply H1 | done]. }
  unfold apply_rule_rs. destruct (negb _); cbn; split.
  - intros res [= <-]. done.
  - done.
  - intros res [= <-]. cbn. by apply Hres.
  - intros sc' sp' Hsc Hsp. apply list_elem_of_fmap in Hsc as ([sc|] & Heq & Hsc); [|done].
    injection Heq as ->. cbn in Hsp. apply list_elem_of_fmap in Hsp as ([sp|] & Heq & Hsp); [|done].
    injection Heq as ->. cbn. apply Hspan. by eapply H2.
Qed.

(** An unconditional rule establishes it everywhere. *)
Lemma all_attrs_redacted r key req :
  disabled r = false -> is_attribute_action (Action r) = true -> Key r = Some key ->
  RuleService r = None -> RuleEnv r = None ->
  all_attrs (clean_attrs key (Action r)) (apply_rule none r req).
Proof.
  intros Hd Ha Hk Hsv Henv. unfold apply_rule. rewrite Hd.
  intros rs' Hin. cbn in Hin. apply list_elem_of_fmap in Hin as ([rs|] & Heq & Hin); [|done].
  injection Heq as ->. unfold apply_rule_rs, matches. rewrite Hsv, Henv. cbn [differs orb negb].
  assert (String.eqb (Action r) "remap_service" = false /\ String.eqb (Action r) "remap_resource" = false) as [E1 E2].
  { unfold is_attribute_action in Ha. apply orb_true_iff in Ha as [->%String.eqb_eq | ->%String.eqb_eq]; done. }
  split.
  - intros res [= <-]. cbn. unfold apply_to_resource. rewrite E1, Ha, Hk. apply clean_processed.
  - intros sc' sp' Hsc Hsp. cbn in Hsc. apply list_elem_of_fmap in Hsc as ([sc|] & Heq & Hsc); [|done].
    injection Heq as ->. cbn in Hsp. apply list_elem_of_fmap in Hsp as ([sp|] & Heq & Hsp); [|done].
    injection Heq as ->. cbn. unfold apply_to_span. rewrite E2, Ha, Hk. apply clean_processed.
Qed.
(** A request without the attributes of its resources and spans: the attributes of scopes,
    events and links are in the rests. *)
Definition bare_rs (none : A) (rs : ResourceSpans V S A) : ResourceSpans V S A :=
  mk_rs (Some (mk_resource [] (res_rest (default (mk_resource [] none) (rs_resource rs)))))
    (fmap (M := option) (fun sc => mk_scope
       (fmap (M := option) (fun sp => mk_span_msg [] (span_rest sp)) <$> scope_spans sc) (scope_rest sc)) <$> rs_scopes rs)
    (rs_rest rs).
Definition bare (none : A) (req : Request V S A) : Request V S A :=
  mk_request (fmap (M := option) (bare_rs none) <$> resource_spans req) (req_rest req).

Lemma bare_rule r req : bare none (apply_rule none r req) = bare none req.
Proof.
  unfold apply_rule, bare. destruct (disabled r); [done|]. cbn. f_equal.
  rewrite <- list_fmap_compose. apply list_fmap_ext. intros _ [rs|] _; [|done]. cbn. f_equal.
  unfold apply_rule_rs, bare_rs. destruct (negb _); [done|]. cbn. f_equal.
  rewrite <- list_fmap_compose. apply list_fmap_ext. intros _ [sc|] _; [|done]. cbn. do 2 f_equal.
  rewrite <- list_fmap_compose. apply list_fmap_ext. by intros _ [sp|] _.
Qed.

Lemma bare_process rules req : bare none (process none rules req) = bare none req.
Proof.
  unfold process. revert req. induction rules as [|r rules IH]; intros req; [done|]. cbn [foldl].
  by rewrite IH, bare_rule.
Qed.
End clean.

(** ** Properties *)

(** C17: the two implementations agree: a JSON document that stands for a request is
    processed without error into a document that stands for the request the
    protobuf path computes, for any list of valid rules. *)
Theorem json_agrees_with_protobuf rules doc req :
  Forall rule_ok rules -> read_doc doc req ->
  exists doc', process_doc rules doc = Ok doc' /\ read_doc doc' (process no_fields rules req).
Proof.
  intros Hok Hr. unfold process_doc. pose proof Hr as (rss & (objs & Ho & _) & _).
  rewrite Ho. cbn [mbind res_bind]. unfold process. clear Ho. revert doc req Hr.
  induction Hok as [|r rules Hr0 Hok IH]; intros doc req Hr; cbn [json_rules foldl]; [by exists doc|].
  destruct (rule_sim r doc req Hr0 Hr) as (doc1 & -> & Hr1). cbn [mbind res_bind]. by apply IH.
Qed.

(** C18: what an unconditional rule redacts is redacted in the attributes of resources and
    spans: when a valid, enabled rule without conditions masks or removes a key and no later
    rule sets that key again, no attribute of any resource or span of the processed request
    carries the key with anything but the mark, and none at all if it was removed.  The
    attributes of scopes, events and links, and all the rest of the request, are as they
    were: rules do not reach them. *)
Theorem redaction_complete {V S A} (none : A) pre r post key (req : Request V S A) :
  rule_ok r -> disabled r = false -> is_attribute_action (Action r) = true -> Key r = Some key ->
  RuleService r = None -> RuleEnv r = None -> Forall (spares key) post ->
  all_attrs (clean_attrs key (Action r)) (process none (pre ++ r :: post) req) /\
  bare none (process none (pre ++ r :: post) req) = bare none req.
Proof.
  intros Hok Hd Ha Hk Hsv Henv Hpost. split; [|apply bare_process]. unfold process. rewrite foldl_app. cbn [foldl].
  pose proof (all_attrs_redacted none r key (foldl (fun (req : Request V S A) r => apply_rule none r req) req pre)
    Hd Ha Hk Hsv Henv) as Hall.
  revert Hall. generalize (apply_rule none r (foldl (fun (req : Request V S A) r => apply_rule none r req) req pre)).
  destruct (rule_ok_key r Hok (or_introl Ha)) as [_ Hprot]. rewrite Hk in Hprot. cbn in Hprot.
  induction Hpost as [|r' post Hr' Hpost IH]; intros req1 Hall; cbn [foldl]; [done|].
  apply IH, all_attrs_impl; [| | constructor | done].
  - intros attrs. by apply clean_resource.
  - intros attrs. by apply clean_span.
Qed.

(** Updates of a processor, and what they leave. *)
Inductive update_op := OPolicy (pol : Policy) | ORemote (rules : list Rule).
Definition run_update (p : Processor) (o : update_op) : res unit * Processor :=
  match o with OPolicy pol => Update pol p | ORemote rules => UpdateRemote rules p end.

Lemma check_rules_spec l : check_rules l = Ok tt <-> Forall (fun r => check_rule r = Ok tt) l.
Proof.
  induction l as [|r l IH]; cbn; [split; [constructor | done]|].
  rewrite res_bind_ok, Forall_cons, <- IH. split; [intros ([] & ? & ?); done|].
  intros [? ?]. by exists tt.
Qed.

(** Both halves of the rules are valid and bounded. *)
Record rules_valid (p : Processor) : Prop := {
  rv_policy : Forall rule_ok (from_option Rules [] (policy p));
  rv_remote : Forall rule_ok (default [] (remote p));
  rv_policy_len : Z.of_nat (length (from_option Rules [] (policy p))) <= 50;
  rv_remote_len : Z.of_nat (length (default [] (remote p))) <= 500;
}.

Lemma rules_valid_new : rules_valid (mk_processor None None).
Proof. split; cbn; constructor || lia. Qed.

Lemma run_update_spec p o :
  match run_update p o with
  | (Err _, p') => p' = p
  | (Ok _, p') => (rules_valid p -> rules_valid p') /\
                  match o with
                  | OPolicy pol => policy p' = Some pol /\ remote p' = remote p
                  | ORemote rules => remote p' = Some rules /\ policy p' = policy p
                  end
  end.
Proof.
  destruct o as [pol|rules]; cbn.
  - unfold Update. destruct (negb _ || _) eqn:E; [done|].
    destruct (check_rules (Rules pol)) as [[]|e] eqn:Ec; [|done]. split; [|done].
    intros [_ H2 _ H4]. apply check_rules_spec in Ec. to_prop. split; cbn; try done; [|lia].
    eapply Forall_impl; [exact Ec|]. intros r Hr. by left.
  - unfold UpdateRemote. destruct (500 <? _) eqn:E; [done|].
    destruct (forallb remote_rule_ok rules) eqn:Ef; [|done]. split; [|done].
    intros [H1 _ H3 _]. split; cbn; try done; [|lia].
    apply List.Forall_forall. intros r Hr. right. by apply (proj1 (List.forallb_forall _ _) Ef).
Qed.

Lemma run_update_valid p o : rules_valid p -> rules_valid (run_update p o).2.
Proof.
  intros Hp. pose proof (run_update_spec p o) as Hs. destruct (run_update p o) as [[u|e] p']; cbn; [by apply Hs|by subst].
Qed.

Lemma rules_valid_in_force p : rules_valid p -> Forall rule_ok (rules_in_force p).
Proof. intros []. by apply Forall_app. Qed.

(** An update that returns an error changes nothing, and one that succeeds
    replaces exactly its own half of the rules; after any updates all rules in
    force are valid (so none touches a protected key through its key, and the
    pointers they need are there), at most 50 from the policy and 500 remote. *)
Theorem updates_keep_rules_valid ops o :
  let p := foldl (fun p o => (run_update p o).2) (mk_processor None None) ops in
  Forall rule_ok (rules_in_force p) /\
  Forall (fun r => is_attribute_action (Action r) = true \/ Action r = "set_attribute" ->
            protected (deref (Key r)) = false) (rules_in_force p) /\
  Z.of_nat (length (rules_in_force p)) <= 550 /\
  match run_update p o with
  | (Err _, p') => p' = p
  | (Ok _, p') => match o with
                  | OPolicy pol => policy p' = Some pol /\ remote p' = remote p
                  | ORemote rules => remote p' = Some rules /\ policy p' = policy p
                  end
  end.
Proof.
  cbn zeta. set (p := foldl _ _ ops).
  assert (rules_valid p) as Hp.
  { subst p. pose proof rules_valid_new as H0. revert H0. generalize (mk_processor None None).
    induction ops as [|o' ops IH]; intros p Hp; cbn; [done|]. by apply IH, run_update_valid. }
  pose proof (rules_valid_in_force p Hp) as Hall. destruct Hp as [H1 H2 H3 H4].
  split_and!; [done | | unfold rules_in_force; rewrite length_app; lia |].
  - eapply Forall_impl; [exact Hall|]. intros r Hr Ha. by apply rule_ok_key.
  - pose proof (run_update_spec p o) as Hs. destruct (run_update p o) as [[u|e] p']; [apply Hs | done].
Qed.

(** ** Witnesses *)

Definition wrule (action : string) (key value : option string) : Rule :=
  mk_rule "r" None None None action key value.
Definition wattr (k v : string) : jobject := {[ "key" := JString k; "value" := string_value v ]}.
Definition wdoc : jobject :=
  {[ "resourceSpans" := of_objects
       [{[ "resource" := JObject {[ "attributes" := of_objects [wattr "service.name" "api"; wattr "token" "x"] ]} ]}] ]}.

Definition wreq : Request json json json :=
  mk_request [Some (mk_rs (Some (mk_resource
     [Some (mk_kv "service.name" (StringValue "api") no_fields);
      Some (mk_kv "token" (StringValue "x") no_fields)] no_fields)) [] no_fields)] no_fields.

Lemma wdoc_reads : read_doc wdoc wreq.
Proof.
  eexists. split; [eexists; split; [reflexivity|]|reflexivity].
  constructor; [|constructor]. eexists _, _. split_and!; [| |reflexivity].
  - eexists. split; [|reflexivity]. eexists. split; [reflexivity|].
    constructor; [|constructor; [|constructor]]; (eexists; split; [eexists; split; reflexivity | reflexivity]).
  - eexists. split; [reflexivity | constructor].
Qed.

Lemma json_agrees_with_protobuf_witness :
  exists doc', process_doc [wrule "mask_attribute" (Some "token") None] wdoc = Ok doc' /\
    read_doc doc' (process no_fields [wrule "mask_attribute" (Some "token") None] wreq).
Proof.
  apply (json_agrees_with_protobuf [wrule "mask_attribute" (Some "token") None] wdoc wreq).
  - constructor; [left; vm_compute; reflexivity | constructor].
  - exact wdoc_reads.
Defined.

Lemma redaction_complete_witness :
  all_attrs (clean_attrs "token" "remove_attribute")
    (process no_fields [wrule "remap_service" None (Some "web"); wrule "remove_attribute" (Some "token") None] wreq).
Proof.
  apply (proj1 (redaction_complete no_fields [wrule "remap_service" None (Some "web")]
    (wrule "remove_attribute" (Some "token") None) [] "token" wreq
    (or_introl eq_refl) eq_refl eq_refl eq_refl eq_refl eq_refl (List.Forall_nil _))).
Defined.

End ProcessingProps.
