(* ===== verification/Usage.v ===== *)
(** * Ingest accounting (internal/apm/usage/usage.go)

    [Observe] counts what a request brought and what was kept of it, per minute
    and per service, with the trace ids of each bucket deduplicated in sets whose
    total size is bounded; [Flush] sends absolute snapshots and forgets a bucket
    only when it is closed, was acknowledged and has not changed meanwhile.

    [Flush] releases the lock while it sends, so it is two steps, [flush_begin]
    and [flush_end], and observations may come in between.  A bucket is updated
    through a pointer held in the map of rows: the model updates the entry of its
    key.  Rows are rendered to JSON by the caller of [send], and the order in
    which the map of rows is enumerated is left to [map_to_list]. *)

From S2P Require Import Prelude GoStrings Wire.
#[local] Open Scope Z_scope.

Module Usage.

Definition maxBuckets : Z := 120.
Definition maxRows : Z := 2000.
Definition maxTraceIDs : Z := 20000.

Record Observation := mk_observation {
  Received : list (option Span);   (* a nil pointer is None *)
  Retained : list (option Span);
  ReceivedBytes : Z;
  ForwardedBytes : Z;
  ForwardFailed : bool;
  ParseFailed : bool;
  ProcessingRejected : bool;
}.

Record Row := mk_row {
  Minute : Z;
  Scope : string;
  Service : string;
  Env : string;
  Requests : Z;
  ReceivedSpans : Z;
  RetainedSpans : Z;
  DroppedSpans : Z;
  ReceivedTraces : Z;
  RetainedTraces : Z;
  RowReceivedBytes : Z;
  RowForwardedBytes : Z;
  ForwardFailures : Z;
  ParseFailures : Z;
  ProcessingRejections : Z;
  TraceCountsComplete : bool;
  ServiceCountsComplete : bool;
}.

Record key := mk_key {
  minute : Z;
  scope : string;
  service : string;
  env : string;
}.

#[export] Instance key_eq_dec : EqDecision key.
Proof. solve_decision. Defined.
#[export] Program Instance key_countable : Countable key :=
  inj_countable' (fun k => (minute k, scope k, service k, env k))
    (fun x => let '(m, s, sv, e) := x in mk_key m s sv e) _.
Next Obligation. by intros []. Qed.

Record bucket := mk_bucket {
  row : Row;
  received : gset string;
  retained : gset string;
  revision : Z;
}.

Record Aggregator := mk_aggregator {
  session : string;
  coverageFrom : Z;
  rows : gmap key bucket;
  traceIDs : Z;
  lostBuckets : Z;
  enabled : bool;
}.

(** The random session id and the creation time are arguments. *)
Definition New (session : string) (now : Z) : Aggregator :=
  mk_aggregator session now ∅ 0 0 true.

Definition SetEnabled (e : bool) (a : Aggregator) : Aggregator :=
  mk_aggregator (session a) (coverageFrom a) (rows a) (traceIDs a) (lostBuckets a) e.

Definition set_rows (r : gmap key bucket) (n : Z) (a : Aggregator) : Aggregator :=
  mk_aggregator (session a) (coverageFrom a) r n (lostBuckets a) (enabled a).

(** ** Rows *)

Definition empty_row (k : key) : Row :=
  mk_row (minute k) (scope k) (service k) (env k) 0 0 0 0 0 0 0 0 0 0 0 true true.

Definition collector : string := "collector".

(** [get]: whether the key has a bucket afterwards. *)
Definition get (k : key) (a : Aggregator) : bool * Aggregator :=
  match rows a !! k with
  | Some _ => (true, a)
  | None =>
      if (maxRows <=? Z.of_nat (size (rows a))) && negb (String.eqb (scope k) collector)
      then (false, a)
      else (true, set_rows (<[k := mk_bucket (empty_row k) ∅ ∅ 0]> (rows a)) (traceIDs a) a)
  end.

Definition set_row (r : Row) (b : bucket) : bucket :=
  mk_bucket r (received b) (retained b) (revision b).

Definition incomplete_traces (r : Row) : Row :=
  mk_row (Minute r) (Scope r) (Service r) (Env r) (Requests r) (ReceivedSpans r) (RetainedSpans r)
    (DroppedSpans r) (ReceivedTraces r) (RetainedTraces r) (RowReceivedBytes r) (RowForwardedBytes r)
    (ForwardFailures r) (ParseFailures r) (ProcessingRejections r) false (ServiceCountsComplete r).
Definition incomplete_services (r : Row) : Row :=
  mk_row (Minute r) (Scope r) (Service r) (Env r) (Requests r) (ReceivedSpans r) (RetainedSpans r)
    (DroppedSpans r) (ReceivedTraces r) (RetainedTraces r) (RowReceivedBytes r) (RowForwardedBytes r)
    (ForwardFailures r) (ParseFailures r) (ProcessingRejections r) (TraceCountsComplete r) false.
Definition count_span (kept : bool) (r : Row) : Row :=
  mk_row (Minute r) (Scope r) (Service r) (Env r) (Requests r)
    (if kept then ReceivedSpans r else ReceivedSpans r + 1)
    (if kept then RetainedSpans r + 1 else RetainedSpans r)
    (DroppedSpans r) (ReceivedTraces r) (RetainedTraces r) (RowReceivedBytes r) (RowForwardedBytes r)
    (ForwardFailures r) (ParseFailures r) (ProcessingRejections r) (TraceCountsComplete r)
    (ServiceCountsComplete r).
(** The part of [Observe] that counts the request itself. *)
Definition count_request (o : Observation) (r : Row) : Row :=
  mk_row (Minute r) (Scope r) (Service r) (Env r) (Requests r + 1) (ReceivedSpans r) (RetainedSpans r)
    (DroppedSpans r) (ReceivedTraces r) (RetainedTraces r)
    (i64 (RowReceivedBytes r + ReceivedBytes o)) (i64 (RowForwardedBytes r + ForwardedBytes o))
    (if ForwardFailed o then ForwardFailures r + 1 else ForwardFailures r)
    (if ParseFailed o then ParseFailures r + 1 else ParseFailures r)
    (if ProcessingRejected o then ProcessingRejections r + 1 else ProcessingRejections r)
    (if ParseFailed o then false else TraceCountsComplete r)
    (if ParseFailed o then false else ServiceCountsComplete r).

Definition update_row (k : key) (f : Row -> Row) (a : Aggregator) : Aggregator :=
  match rows a !! k with
  | Some b => set_rows (<[k := set_row (f (row b)) b]> (rows a)) (traceIDs a) a
  | None => a
  end.

(** [hex.DecodeString] succeeds. *)
Definition is_hex (s : string) : bool :=
  Nat.even (String.length s) &&
  forallb (fun z => is_digit z || ((97 <=? z) && (z <=? 102)) || ((65 <=? z) && (z <=? 70))) (bytes_of s).

(** [strings.ToLower] on the ASCII letters: an id with any other letter is refused
    by the test that follows, with or without its lower case. *)
Definition to_lower (s : string) : string := map_bytes lower_byte s.

Definition add (k : key) (traceID : string) (kept : bool) (a : Aggregator) : Aggregator :=
  match rows a !! k with
  | None => a
  | Some b =>
      let b := mk_bucket (count_span kept (row b)) (received b) (retained b) (revision b + 1) in
      let traceID := to_lower traceID in
      let abandon := set_rows (<[k := set_row (incomplete_traces (row b)) b]> (rows a)) (traceIDs a) a in
      if negb (str_len traceID =? 32) then abandon
      else if negb (is_hex traceID) then abandon
      else
        let set := if kept then retained b else received b in
        if bool_decide (traceID ∈ set) then set_rows (<[k := b]> (rows a)) (traceIDs a) a
        else if maxTraceIDs <=? traceIDs a then abandon
        else
          let b := if kept then mk_bucket (row b) (received b) ({[traceID]} ∪ set) (revision b)
                   else mk_bucket (row b) ({[traceID]} ∪ set) (retained b) (revision b) in
          set_rows (<[k := b]> (rows a)) (traceIDs a + 1) a
  end.

Definition weight (b : bucket) : Z :=
  Z.of_nat (size (received b)) + Z.of_nat (size (retained b)).

Definition remove (k : key) (a : Aggregator) : Aggregator :=
  match rows a !! k with
  | Some b => set_rows (delete k (rows a)) (traceIDs a - weight b) a
  | None => a
  end.

(** [prune]: the number of lost buckets counts distinct minutes. *)
Definition prune (min : Z) (a : Aggregator) : Aggregator :=
  let old := filter (fun k => minute k <= min - maxBuckets * 60) (map_to_list (rows a)).*1 in
  let a := foldr remove a old in
  let lost := list_to_set (C := gset Z) (minute <$> old) in
  mk_aggregator (session a) (coverageFrom a) (rows a) (traceIDs a)
    (lostBuckets a + Z.of_nat (size lost)) (enabled a).

(** ** Observing *)

Definition span_env (s : Span) : string :=
  let env := tag "deployment.environment" (Attributes s) in
  if String.eqb env "" then tag "deployment.environment.name" (Attributes s) else env.

Definition bad_identity (service env : string) : bool :=
  (255 <? str_len service) || (200 <? str_len env) || has_control service || has_control env.

(** One span of one direction. *)
Definition observe_span (min : Z) (kept : bool) (s : option Span) (a : Aggregator) : Aggregator :=
  let global := mk_key min collector "" "" in
  match s with
  | None => a
  | Some s =>
      let a := add global (TraceId s) kept a in
      let env := span_env s in
      let service := ServiceName s in
      if bad_identity service env then update_row global incomplete_services a
      else
        let k := mk_key min "service" service env in
        let '(ok, a) := get k a in
        if ok then add k (TraceId s) kept a else update_row global incomplete_services a
  end.

Definition bump_revision (k : key) (a : Aggregator) : Aggregator :=
  match rows a !! k with
  | Some b => set_rows (<[k := mk_bucket (row b) (received b) (retained b) (revision b + 1)]> (rows a))
                (traceIDs a) a
  | None => a
  end.

(** [now] is the Unix time in seconds. *)
Definition minute_of (now : Z) : Z := now ÷ 60 * 60.

Definition Observe (now : Z) (o : Observation) (a : Aggregator) : Aggregator :=
  if negb (enabled a) then a
  else
    let min := minute_of now in
    let a := prune min a in
    let global := mk_key min collector "" "" in
    let '(ok, a) := get global a in
    if negb ok then a
    else
      let a := update_row global (count_request o) a in
      let a := foldl (fun a s => observe_span min false s a) a (Received o) in
      let a := foldl (fun a s => observe_span min true s a) a (Retained o) in
      bump_revision global a.

(** ** Flushing *)

Record Payload := mk_payload {
  Session : string;
  CoverageFrom : Z;
  ObservedAt : Z;
  LostBuckets : Z;
  ByteDefinition : string;
  Rows : list Row;
}.

(** The row as it is sent. *)
Definition snapshot_row (b : bucket) : Row :=
  let r := row b in
  mk_row (Minute r) (Scope r) (Service r) (Env r) (Requests r) (ReceivedSpans r) (RetainedSpans r)
    (ReceivedSpans r - RetainedSpans r) (Z.of_nat (size (received b))) (Z.of_nat (size (retained b)))
    (RowReceivedBytes r) (RowForwardedBytes r) (ForwardFailures r) (ParseFailures r)
    (ProcessingRejections r) (TraceCountsComplete r) (ServiceCountsComplete r).

(** The part under the first lock: the payload and the revisions it holds. *)
Definition flush_begin (now : Z) (a : Aggregator) : Payload * gmap key Z * Aggregator :=
  let a := prune (minute_of now) a in
  (mk_payload (session a) (coverageFrom a) now (lostBuckets a)
     "decoded_request_and_forwarded_payload_bytes" (snapshot_row <$> (map_to_list (rows a)).*2),
   revision <$> rows a, a).

(** The part under the second lock, after the payload sent at [now] was acknowledged. *)
Definition flush_end (now : Z) (revisions : gmap key Z) (a : Aggregator) : Aggregator :=
  foldr (fun e a =>
    let '(k, rev) := e in
    if minute k <? minute_of now then
      match rows a !! k with
      | Some b => if revision b =? rev then remove k a else a
      | None => a
      end
    else a) a (map_to_list revisions).

(** A flush with no observation in between; [send] is the outcome of the request. *)
Definition Flush (now : Z) (send : Payload -> option string) (a : Aggregator)
    : option string * Aggregator :=
  if negb (enabled a) then (None, a)
  else
    let '(p, revisions, a) := flush_begin now a in
    match Rows p with
    | [] => (None, a)
    | _ => match send p with
           | Some e => (Some e, a)
           | None => (None, flush_end now revisions a)
           end
    end.

(** ** The bounds *)

Definition ids_held (a : Aggregator) : Z := map_sum (fun _ b => weight b) (rows a).
Definition is_service (k : key) : Z := if String.eqb (scope k) collector then 0 else 1.
Definition service_rows (a : Aggregator) : Z := map_sum (fun k _ => is_service k) (rows a).

Record bounded (a : Aggregator) : Prop := {
  ids_exact : traceIDs a = ids_held a;
  ids_bound : traceIDs a <= maxTraceIDs;
  rows_bound : service_rows a <= maxRows;
}.

Lemma weight_nonneg b : 0 <= weight b.
Proof. unfold weight. lia. Qed.

Lemma is_service_range k : 0 <= is_service k <= 1.
Proof. unfold is_service. case_match; lia. Qed.

(** An upper bound of the number of service rows. *)
Lemma service_rows_size (m : gmap key bucket) :
  map_sum (fun k _ => is_service k) m <= Z.of_nat (size m).
Proof.
  induction m as [|k x m Hk IH] using map_ind; [by rewrite map_sum_empty, map_size_empty|].
  rewrite map_sum_insert_new, map_size_insert, Hk by done. pose proof (is_service_range k). cbn. lia.
Qed.

(** Replacing the bucket of a key by one with [d] more ids. *)
Lemma bounded_replace a k b b' d :
  bounded a -> rows a !! k = Some b -> weight b' = weight b + d -> traceIDs a + d <= maxTraceIDs ->
  bounded (set_rows (<[k := b']> (rows a)) (traceIDs a + d) a).
Proof.
  intros [H1 H2 H3] Hk Hw Hd. unfold ids_held, service_rows in *.
  constructor; unfold ids_held, service_rows; cbn; [|done|];
    rewrite (map_sum_replace _ _ _ _ _ Hk); lia.
Qed.

Lemma bounded_same a k b b' :
  bounded a -> rows a !! k = Some b -> weight b' = weight b ->
  bounded (set_rows (<[k := b']> (rows a)) (traceIDs a) a).
Proof.
  intros Hb Hk Hw. rewrite <- (Z.add_0_r (traceIDs a)).
  apply (bounded_replace a k b); try done; [lia|]. destruct Hb. lia.
Qed.

Lemma bounded_update_row k f a : bounded a -> bounded (update_row k f a).
Proof.
  intros Hb. unfold update_row. destruct (rows a !! k) as [b|] eqn:Hk; [|done].
  by eapply bounded_same.
Qed.

Lemma bounded_bump k a : bounded a -> bounded (bump_revision k a).
Proof.
  intros Hb. unfold bump_revision. destruct (rows a !! k) as [b|] eqn:Hk; [|done].
  by eapply bounded_same.
Qed.

Lemma bounded_get k a : bounded a -> bounded (get k a).2.
Proof.
  intros Hb. unfold get. destruct (rows a !! k) as [b|] eqn:Hk; [done|].
  case_match eqn:E; [done|]. destruct Hb as [H1 H2 H3]. unfold ids_held, service_rows in *.
  constructor; cbn; [|done|]; unfold ids_held, service_rows; cbn;
    rewrite map_sum_insert_new by done.
  - unfold weight at 1. cbn. rewrite !size_empty. lia.
  - unfold is_service at 1. destruct (String.eqb (scope k) collector) eqn:Es; [lia|].
    rewrite andb_true_r in E. apply Z.leb_gt in E. pose proof (service_rows_size (rows a)). lia.
Qed.

Lemma size_add_new (x : string) (s : gset string) : x ∉ s -> size ({[x]} ∪ s) = S (size s).
Proof. intros Hx. rewrite size_union by set_solver. by rewrite size_singleton. Qed.

Lemma bounded_add k id kept a : bounded a -> bounded (add k id kept a).
Proof.
  intros Hb. unfold add. destruct (rows a !! k) as [b|] eqn:Hk; [|done].
  case_match; [by eapply bounded_same|]. case_match; [by eapply bounded_same|].
  case_bool_decide as Hin; [by eapply bounded_same|].
  destruct (maxTraceIDs <=? traceIDs a) eqn:El; [by eapply bounded_same|]. apply Z.leb_gt in El.
  eapply bounded_replace; [done.. | | lia].
  destruct kept; unfold weight; cbn in *; rewrite size_add_new by done; lia.
Qed.

Lemma bounded_remove k a : bounded a -> bounded (remove k a).
Proof.
  intros [H1 H2 H3]. unfold remove. destruct (rows a !! k) as [b|] eqn:Hk; [|done].
  unfold ids_held, service_rows in *. rewrite (map_sum_delete _ _ _ _ Hk) in H1.
  rewrite (map_sum_delete _ _ _ _ Hk) in H3. pose proof (weight_nonneg b). pose proof (is_service_range k).
  constructor; unfold ids_held, service_rows; cbn; lia.
Qed.

Lemma bounded_foldr_remove l a : bounded a -> bounded (foldr remove a l).
Proof. intros Hb. induction l; cbn; [done|]. by apply bounded_remove. Qed.

Lemma bounded_prune min a : bounded a -> bounded (prune min a).
Proof.
  intros Hb. unfold prune. set (l := filter _ _).
  destruct (bounded_foldr_remove l a Hb). by constructor.
Qed.

Lemma bounded_observe_span min kept s a : bounded a -> bounded (observe_span min kept s a).
Proof.
  intros Hb. unfold observe_span. destruct s as [s|]; [|done].
  set (a1 := add _ _ _ a). assert (bounded a1) as H1 by (by apply bounded_add).
  case_match; [by apply bounded_update_row|].
  pose proof (bounded_get (mk_key min "service" (ServiceName s) (span_env s)) a1 H1) as H2.
  destruct (get _ a1) as [ok a2]. destruct ok; [by apply bounded_add | by apply bounded_update_row].
Qed.

Lemma bounded_observe_spans min kept l a :
  bounded a -> bounded (foldl (fun a s => observe_span min kept s a) a l).
Proof. revert a. induction l as [|s l IH]; intros a Hb; cbn; [done|]. by apply IH, bounded_observe_span. Qed.

Lemma bounded_Observe now o a : bounded a -> bounded (Observe now o a).
Proof.
  intros Hb. unfold Observe. destruct (negb (enabled a)); [done|].
  pose proof (bounded_get (mk_key (minute_of now) collector "" "") _ (bounded_prune (minute_of now) a Hb)) as H1.
  destruct (get _ _) as [ok a1]. destruct (negb ok); [done|].
  by apply bounded_bump, bounded_observe_spans, bounded_observe_spans, bounded_update_row.
Qed.

Lemma bounded_flush_end now revs a : bounded a -> bounded (flush_end now revs a).
Proof.
  intros Hb. unfold flush_end. induction (map_to_list revs) as [|[k rev] l IH]; cbn; [done|].
  repeat case_match; try done. by apply bounded_remove.
Qed.

Lemma bounded_New s now : bounded (New s now).
Proof.
  constructor; unfold ids_held, service_rows, New; cbn; rewrite ?map_sum_empty; unfold maxTraceIDs, maxRows; lia.
Qed.


(** ** What an observation changes *)

Definition spans (kept : bool) (r : Row) : Z := if kept then RetainedSpans r else ReceivedSpans r.

(** Counting a span changes the counters of its direction by one and the revision. *)
Lemma add_effect k id kept a b :
  rows a !! k = Some b ->
  exists b' n, add k id kept a = set_rows (<[k := b']> (rows a)) n a /\
    revision b' = revision b + 1 /\
    ServiceCountsComplete (row b') = ServiceCountsComplete (row b) /\
    forall d, spans d (row b') = spans d (row b) + (if Bool.eqb d kept then 1 else 0).
Proof.
  intros Hk. unfold add. rewrite Hk.
  assert (forall b' n, revision b' = revision b + 1 ->
    (row b' = count_span kept (row b) \/ row b' = incomplete_traces (count_span kept (row b))) ->
    exists b2 n2, set_rows (<[k := b']> (rows a)) n a = set_rows (<[k := b2]> (rows a)) n2 a /\
    revision b2 = revision b + 1 /\
    ServiceCountsComplete (row b2) = ServiceCountsComplete (row b) /\
    forall d, spans d (row b2) = spans d (row b) + (if Bool.eqb d kept then 1 else 0)) as Hgen.
  { intros b' n Hr Hrow. exists b', n. split_and!; [done | done | by destruct Hrow as [-> | ->] |].
    intros d. destruct Hrow as [-> | ->]; destruct d, kept; cbn; lia. }
  repeat case_match; apply Hgen; cbn; auto.
Qed.

Definition global_key (min : Z) : key := mk_key min collector "" "".

(** Buckets of the minute may appear or change; a bucket that changes has a greater
    revision, except for that of the whole collector, whose revision is bumped at
    the end of the observation. *)
Definition grow (min : Z) (r r' : gmap key bucket) : Prop :=
  forall k, r' !! k = r !! k \/
    (minute k = min /\ exists b', r' !! k = Some b' /\
     forall b, r !! k = Some b ->
       if decide (k = global_key min) then revision b <= revision b' else revision b < revision b').

#[export] Instance grow_preorder min : PreOrder (grow min).
Proof.
  split; [by left|]. intros r1 r2 r3 H12 H23 k.
  destruct (H12 k) as [E1|(Hm & b2 & E2 & Hb2)], (H23 k) as [E3|(Hm' & b3 & E4 & Hb3)].
  - left. congruence.
  - right. split; [done|]. exists b3. split; [done|]. intros b Hb. apply Hb3. congruence.
  - right. split; [done|]. exists b2. split; [congruence | done].
  - right. split; [done|]. exists b3. split; [done|]. intros b Hb.
    specialize (Hb2 _ Hb). specialize (Hb3 _ E2). case_decide; lia.
Qed.

Lemma grow_insert r k b' :
  (forall b, r !! k = Some b ->
     if decide (k = global_key (minute k)) then revision b <= revision b' else revision b < revision b') ->
  grow (minute k) r (<[k := b']> r).
Proof.
  intros Hb k'. destruct (decide (k = k')) as [<-|Hne]; [right | left; by rewrite lookup_insert_ne].
  split; [done|]. exists b'. by rewrite lookup_insert_eq.
Qed.

Lemma grow_get k a : grow (minute k) (rows a) (rows (get k a).2).
Proof.
  unfold get. destruct (rows a !! k) eqn:Hk; [done|]. case_match; [done|].
  apply grow_insert. by rewrite Hk.
Qed.

Lemma grow_add k id kept a : grow (minute k) (rows a) (rows (add k id kept a)).
Proof.
  destruct (rows a !! k) as [b|] eqn:Hk.
  - destruct (add_effect k id kept a b Hk) as (b' & n & -> & Hr & _). cbn [rows set_rows].
    apply grow_insert. rewrite Hk. intros ? [= <-]. case_decide; lia.
  - unfold add. by rewrite Hk.
Qed.

Lemma grow_update_global min f a : grow min (rows a) (rows (update_row (global_key min) f a)).
Proof.
  unfold update_row. destruct (rows a !! _) as [b|] eqn:Hk; [|done]. cbn [rows set_rows].
  apply (grow_insert _ (global_key min)). rewrite Hk. intros ? [= <-]. rewrite decide_True by done.
  cbn. lia.
Qed.

Lemma grow_observe_span min kept s a : grow min (rows a) (rows (observe_span min kept s a)).
Proof.
  unfold observe_span. destruct s as [s|]; [|done]. fold (global_key min).
  etrans; [apply (grow_add (global_key min) (TraceId s) kept)|]. set (a1 := add _ _ _ a).
  case_match; [apply grow_update_global|].
  pose proof (grow_get (mk_key min "service" (ServiceName s) (span_env s)) a1) as Hg.
  destruct (get _ a1) as [ok a2]. etrans; [exact Hg|].
  destruct ok; [apply (grow_add (mk_key min _ _ _)) | apply grow_update_global].
Qed.

Lemma grow_observe_spans min kept l a :
  grow min (rows a) (rows (foldl (fun a s => observe_span min kept s a) a l)).
Proof.
  revert a. induction l as [|s l IH]; intros a; cbn; [done|].
  etrans; [apply grow_observe_span | apply IH].
Qed.

(** Buckets too old for the minute are gone, the others are as they were. *)
Lemma remove_lookup k k' a : rows (remove k a) !! k' = if decide (k = k') then None else rows a !! k'.
Proof.
  unfold remove. destruct (rows a !! k) as [b|] eqn:Hk; cbn; [apply lookup_delete|].
  case_decide; [by subst | done].
Qed.

Lemma foldr_remove_lookup l k a :
  rows (foldr remove a l) !! k = if decide (k ∈ l) then None else rows a !! k.
Proof.
  induction l as [|k' l IH]; cbn.
  - rewrite decide_False; [done | apply not_elem_of_nil].
  - rewrite remove_lookup, IH, (decide_ext (k ∈ k' :: l) (k = k' \/ k ∈ l)) by apply elem_of_cons.
    repeat case_decide; intuition congruence.
Qed.

Lemma prune_lookup min a k :
  rows (prune min a) !! k = if decide (minute k <= min - maxBuckets * 60) then None else rows a !! k.
Proof.
  unfold prune. cbn. rewrite foldr_remove_lookup.
  destruct (rows a !! k) as [b|] eqn:Hk; [|by repeat case_decide].
  assert (k ∈ filter (fun k => minute k <= min - maxBuckets * 60) (map_to_list (rows a)).*1
    <-> minute k <= min - maxBuckets * 60) as Hin.
  { rewrite list_elem_of_filter, list_elem_of_fmap. split; [by intros [? _]|]. intros Hle.
    split; [done|]. exists (k, b). split; [done|]. by apply elem_of_map_to_list. }
  repeat case_decide; tauto.
Qed.

Lemma get_some k a : (get k a).1 = true -> is_Some (rows (get k a).2 !! k).
Proof.
  unfold get. destruct (rows a !! k) eqn:Hk; cbn; [by rewrite Hk; eexists|].
  case_match; [done|]. cbn. rewrite lookup_insert_eq. by eexists.
Qed.

(** The state of an observation before the revision of the collector is bumped. *)
Definition observed (now : Z) (o : Observation) (a : Aggregator) : Aggregator :=
  let min := minute_of now in
  let a := (get (global_key min) (prune min a)).2 in
  let a := update_row (global_key min) (count_request o) a in
  let a := foldl (fun a s => observe_span min false s a) a (Received o) in
  foldl (fun a s => observe_span min true s a) a (Retained o).

Lemma get_global min a : (get (global_key min) a).1 = true.
Proof. unfold get. destruct (rows a !! _); [done|]. by rewrite andb_false_r. Qed.

Lemma Observe_observed now o a :
  Observe now o a = if enabled a then bump_revision (global_key (minute_of now)) (observed now o a) else a.
Proof.
  unfold Observe, observed. fold (global_key (minute_of now)).
  destruct (enabled a); cbn [negb]; [|done].
  pose proof (get_global (minute_of now) (prune (minute_of now) a)) as Hok.
  destruct (get _ _) as [ok a1]. cbn in Hok. by subst.
Qed.

Lemma grow_observed now o a :
  let a1 := (get (global_key (minute_of now)) (prune (minute_of now) a)).2 in
  grow (minute_of now) (rows (prune (minute_of now) a)) (rows (observed now o a)) /\
  is_Some (rows (observed now o a) !! global_key (minute_of now)).
Proof.
  unfold observed. set (min := minute_of now). set (g := global_key min). cbn zeta.
  assert (grow min (rows (get g (prune min a)).2) (rows (foldl (fun a s => observe_span min true s a)
    (foldl (fun a s => observe_span min false s a) (update_row g (count_request o) (get g (prune min a)).2)
       (Received o)) (Retained o)))) as Hg.
  { etrans; [apply grow_update_global | etrans; [apply grow_observe_spans | apply grow_observe_spans]]. }
  split; [etrans; [apply (grow_get g) | exact Hg]|].
  destruct (get_some g (prune min a) (get_global min _)) as [b Hb].
  destruct (Hg g) as [->|(_ & b' & -> & _)]; by eexists.
Qed.

(** One observation, seen from one key: the bucket is as it was, or was too old, or
    belongs to the current minute and has a greater revision than before. *)
Lemma Observe_key now o a k :
  rows (Observe now o a) !! k = rows a !! k \/
  (minute k <= minute_of now - maxBuckets * 60 /\ rows (Observe now o a) !! k = None) \/
  (minute k = minute_of now /\ exists b', rows (Observe now o a) !! k = Some b' /\
    forall b, rows a !! k = Some b -> revision b < revision b').
Proof.
  rewrite Observe_observed. destruct (enabled a); [|by left].
  set (min := minute_of now). set (g := global_key min).
  destruct (grow_observed now o a) as [Hg [bg Hbg]]. fold min g in Hg, Hbg.
  pose proof (prune_lookup min a k) as Hp. unfold bump_revision. rewrite Hbg. cbn.
  destruct (decide (g = k)) as [<-|Hne].
  - right; right. split; [done|]. eexists. split; [apply lookup_insert_eq|]. cbn. intros b Hb.
    rewrite decide_False in Hp by (cbn; unfold maxBuckets; lia).
    destruct (Hg g) as [E|(_ & b' & E & Hb')].
    + rewrite E, Hp, Hb in Hbg. injection Hbg as <-. lia.
    + specialize (Hb' b). rewrite Hp, decide_True in Hb' by done. specialize (Hb' Hb).
      rewrite E in Hbg. injection Hbg as ->. lia.
  - rewrite lookup_insert_ne by done. destruct (Hg k) as [->|(Hm & b' & E & Hb')].
    + rewrite Hp. case_decide; [by right; left | by left].
    + right; right. split; [done|]. exists b'. split; [done|]. intros b Hb. specialize (Hb' b).
      rewrite Hp, decide_False in Hb' by (unfold maxBuckets; lia).
      rewrite decide_False in Hb' by (intros ->; done). by apply Hb'.
Qed.

(** Observations at given times. *)
Fixpoint observe_all (l : list (Z * Observation)) (a : Aggregator) : Aggregator :=
  match l with
  | [] => a
  | (now, o) :: l => observe_all l (Observe now o a)
  end.

(** The bucket of [k] is as it was, has grown, or is gone for good at minute [t]. *)
Definition since (t : Z) (k : key) (b : bucket) (a : Aggregator) : Prop :=
  match rows a !! k with
  | Some b' => b' = b \/ revision b < revision b'
  | None => minute k < t
  end.

Lemma since_observe_all t k b l a :
  since t k b a ->
  Forall (fun x => t <= minute_of x.1) l -> StronglySorted (fun x y => minute_of x.1 <= minute_of y.1) l ->
  forall b', rows (observe_all l a) !! k = Some b' -> b' = b \/ revision b < revision b'.
Proof.
  revert t a. induction l as [|[now o] l IH]; intros t a Hs Ht Hsort b'; cbn.
  { unfold since in Hs. intros Hb'. by rewrite Hb' in Hs. }
  inversion Ht as [|? ? Ht1 Ht2]; subst. inversion Hsort as [|? ? Hsort' Hfirst]; subst.
  cbn in Ht1, Hfirst. apply (IH (minute_of now)); [|done|done].
  unfold since in *. destruct (Observe_key now o a k) as [->|[(Hm & ->)|(Hm & b1 & -> & Hb1)]].
  - destruct (rows a !! k); [done | lia].
  - unfold maxBuckets in Hm. lia.
  - destruct (rows a !! k) as [b0|]; [|lia]. specialize (Hb1 b0 eq_refl).
    destruct Hs as [->|?]; right; lia.
Qed.

(** What the acknowledgement removes. *)
Definition acked (now rev : Z) (k : key) (b : bucket) : bool :=
  (minute k <? minute_of now) && (revision b =? rev).

Definition end_step (now : Z) (e : key * Z) (a : Aggregator) : Aggregator :=
  let '(k, rev) := e in
  if minute k <? minute_of now then
    match rows a !! k with
    | Some b => if revision b =? rev then remove k a else a
    | None => a
    end
  else a.

Lemma end_step_lookup now k rev a k' :
  rows (end_step now (k, rev) a) !! k' =
    match rows a !! k' with
    | Some b => if decide (k = k') then if acked now rev k' b then None else Some b else Some b
    | None => None
    end.
Proof.
  unfold end_step, acked. destruct (minute k <? minute_of now) eqn:Em; cbn;
    destruct (rows a !! k) as [b0|] eqn:Hk;
    (destruct (decide (k = k')) as [<-|Hne]; [rewrite ?Hk, ?Em|]; try done; try (by case_match)).
  - destruct (revision b0 =? rev) eqn:Er; [by rewrite remove_lookup, decide_True | done].
  - destruct (revision b0 =? rev); [rewrite remove_lookup, decide_False by done|]; by case_match.
Qed.

Lemma flush_end_lookup now revs a k :
  rows (flush_end now revs a) !! k =
    match rows a !! k with
    | Some b => match revs !! k with
                | Some rev => if acked now rev k b then None else Some b
                | None => Some b
                end
    | None => None
    end.
Proof.
  change (flush_end now revs a) with (foldr (end_step now) a (map_to_list revs)).
  assert (forall l : list (key * Z), NoDup l.*1 ->
    rows (foldr (end_step now) a l) !! k =
    match rows a !! k with
    | Some b => match (list_to_map l : gmap key Z) !! k with
                | Some rev => if acked now rev k b then None else Some b
                | None => Some b
                end
    | None => None
    end) as Hl.
  { induction l as [|[k0 rev0] l IH]; cbn [foldr list_to_map fmap list_fmap fst];
      [intros _; rewrite lookup_empty; by case_match|].
    rewrite NoDup_cons. intros [Hnin Hnd]. rewrite end_step_lookup, IH by done.
    cbn. destruct (rows a !! k) as [b|]; [|done].
    destruct (decide (k0 = k)) as [->|Hne].
    - rewrite lookup_insert_eq, (not_elem_of_list_to_map_1 l k) by done. done.
    - rewrite lookup_insert_ne by done. by repeat case_match. }
  rewrite Hl by apply NoDup_fst_map_to_list. by rewrite list_to_map_to_list.
Qed.

(** ** Service counts add up *)

(** The spans of the service buckets of a minute. *)
Definition service_spans (m : Z) (d : bool) (k : key) (b : bucket) : Z :=
  if (minute k =? m) && negb (String.eqb (scope k) collector) then spans d (row b) else 0.
Definition service_total (m : Z) (d : bool) (a : Aggregator) : Z :=
  map_sum (service_spans m d) (rows a).

(** As long as the collector's bucket says that the service counts are complete,
    they add up to its own count, in both directions. *)
Definition balanced (m : Z) (a : Aggregator) : Prop :=
  match rows a !! global_key m with
  | Some b => ServiceCountsComplete (row b) = true ->
              forall d, service_total m d a = spans d (row b)
  | None => forall d, service_total m d a = 0
  end.

Lemma balanced_ext m a a' :
  (forall k, minute k = m -> rows a' !! k = rows a !! k) -> balanced m a -> balanced m a'.
Proof.
  intros Hk Hb. assert (forall d, service_total m d a' = service_total m d a) as Ht.
  { intros d. apply map_sum_ext_on. intros k. destruct (decide (minute k = m)) as [E|E]; [left; by apply Hk|].
    right. unfold service_spans. rewrite (proj2 (Z.eqb_neq _ _) E). cbn.
    by destruct (rows a' !! k), (rows a !! k). }
  unfold balanced in *. rewrite (Hk (global_key m)) by done.
  destruct (rows a !! global_key m); [intros H d|intros d]; rewrite Ht; [by apply Hb | apply Hb].
Qed.

Lemma balanced_prune m min a : balanced m a -> balanced m (prune min a).
Proof.
  intros Hb. destruct (decide (m <= min - maxBuckets * 60)) as [Hle|Hgt].
  - unfold balanced. rewrite prune_lookup, decide_True by done. intros d.
    unfold service_total. rewrite (map_sum_ext_on _ _ ∅); [apply map_sum_empty|]. intros k.
    rewrite prune_lookup. case_decide as Hk; [by left|]. right. rewrite lookup_empty. split; [|done].
    unfold service_spans. destruct (minute k =? m) eqn:E; [apply Z.eqb_eq in E; lia|].
    by destruct (rows a !! k).
  - eapply balanced_ext; [|exact Hb]. intros k <-. by rewrite prune_lookup, decide_False.
Qed.

(** Changing the collector's bucket does not change the services' total. *)
Lemma service_total_global m d b r n a :
  service_total m d (set_rows (<[global_key m := b]> r) n a) = map_sum (service_spans m d) r.
Proof.
  unfold service_total. cbn. rewrite map_sum_insert_any.
  assert (forall b, service_spans m d (global_key m) b = 0) as Hz
    by (intros; unfold service_spans; cbn; by rewrite andb_false_r).
  rewrite Hz. destruct (r !! global_key m); rewrite ?Hz; lia.
Qed.

Lemma balanced_get_global m a : balanced m a -> balanced m (get (global_key m) a).2.
Proof.
  unfold get. intros Hb. destruct (rows a !! global_key m) eqn:E; [done|].
  unfold balanced in Hb. rewrite E in Hb. case_match eqn:Em; cbn.
  { unfold balanced. by rewrite E. }
  unfold balanced. cbn. rewrite lookup_insert_eq. intros _ d.
  rewrite service_total_global. destruct d; apply Hb.
Qed.

Lemma balanced_update_global m f a :
  (forall r, (forall d, spans d (f r) = spans d r) /\
             (ServiceCountsComplete (f r) = true -> ServiceCountsComplete r = true)) ->
  balanced m a -> balanced m (update_row (global_key m) f a).
Proof.
  intros Hf Hb. unfold update_row. destruct (rows a !! global_key m) as [b|] eqn:E; [|done].
  unfold balanced in *. rewrite E in Hb. cbn. rewrite lookup_insert_eq. cbn. intros Hc d.
  rewrite service_total_global. destruct (Hf (row b)) as [-> Hc']. by apply Hb, Hc'.
Qed.

Lemma balanced_incomplete m a : is_Some (rows a !! global_key m) ->
  balanced m (update_row (global_key m) incomplete_services a).
Proof.
  intros [b Hb]. unfold update_row, balanced. rewrite Hb. cbn. by rewrite lookup_insert_eq.
Qed.

Lemma balanced_observe_span m kept s a :
  is_Some (rows a !! global_key m) -> balanced m a ->
  is_Some (rows (observe_span m kept s a) !! global_key m) /\ balanced m (observe_span m kept s a).
Proof.
  intros [bg Hbg] Hb. split.
  { destruct (grow_observe_span m kept s a (global_key m)) as [->|(_ & b' & -> & _)]; by eexists. }
  unfold observe_span. destruct s as [s|]; [|done]. fold (global_key m).
  destruct (add_effect (global_key m) (TraceId s) kept a bg Hbg) as (b1 & n1 & Ea & _ & Hc1 & Hs1).
  rewrite Ea. set (a1 := set_rows _ n1 a).
  assert (rows a1 !! global_key m = Some b1) as Hg1 by apply lookup_insert_eq.
  assert (forall d, service_total m d a1 = service_total m d a) as Ht1 by (intros; apply service_total_global).
  case_match; [apply balanced_incomplete; by eexists|].
  set (k := mk_key m "service" (ServiceName s) (span_env s)).
  assert (k <> global_key m) as Hkg by (intros [=]).
  unfold balanced in Hb. rewrite Hbg in Hb.
  destruct (get k a1) as [ok a2] eqn:Eg.
  assert (rows a2 !! global_key m = Some b1 /\ (forall d, service_total m d a2 = service_total m d a1) /\
    (ok = true -> is_Some (rows a2 !! k))) as (Hg2 & Ht2 & Hk2).
  { pose proof (get_some k a1) as Hks. rewrite Eg in Hks. cbn in Hks. revert Eg. unfold get.
    destruct (rows a1 !! k) as [bk|] eqn:Ek; [by intros [= <- <-]|].
    case_match; intros [= <- <-]; [done|]. cbn in *. rewrite lookup_insert_ne by done.
    split_and!; [done | | done]. intros d. unfold service_total. cbn.
    rewrite map_sum_insert_new by done. unfold service_spans at 1. rewrite andb_true_r. cbn.
    destruct d, (m =? m); cbn; lia. }
  destruct ok; [|apply balanced_incomplete; by eexists].
  destruct (Hk2 eq_refl) as [bk Hbk].
  destruct (add_effect k (TraceId s) kept a2 bk Hbk) as (b3 & n3 & -> & _ & _ & Hs3).
  unfold balanced. cbn. rewrite lookup_insert_ne, Hg2 by done. intros Hc d.
  unfold service_total. cbn. rewrite (map_sum_replace _ _ _ _ _ Hbk).
  fold (service_total m d a2). rewrite Ht2, Ht1, Hb, Hs1 by congruence.
  unfold service_spans. cbn [minute scope k]. rewrite Z.eqb_refl. cbn. rewrite Hs3. lia.
Qed.

Lemma balanced_observe_spans m kept l a :
  is_Some (rows a !! global_key m) -> balanced m a ->
  let a' := foldl (fun a s => observe_span m kept s a) a l in
  is_Some (rows a' !! global_key m) /\ balanced m a'.
Proof.
  revert a. induction l as [|s l IH]; intros a Hs Hb; cbn; [done|].
  destruct (balanced_observe_span m kept s a Hs Hb). by apply IH.
Qed.

Lemma balanced_bump m a : balanced m a -> balanced m (bump_revision (global_key m) a).
Proof.
  intros Hb. unfold bump_revision. destruct (rows a !! global_key m) as [b|] eqn:E; [|done].
  unfold balanced in *. rewrite E in Hb. cbn. rewrite lookup_insert_eq. cbn. intros Hc d.
  rewrite service_total_global. by apply Hb.
Qed.

Lemma update_row_some k f a : is_Some (rows a !! k) -> is_Some (rows (update_row k f a) !! k).
Proof. intros [b Hb]. unfold update_row. rewrite Hb. cbn. rewrite lookup_insert_eq. by eexists. Qed.

Lemma balanced_Observe m now o a : balanced m a -> balanced m (Observe now o a).
Proof.
  intros Hb. rewrite Observe_observed. destruct (enabled a); [|done].
  destruct (decide (m = minute_of now)) as [->|Hne].
  - apply balanced_bump. unfold observed. set (min := minute_of now) in *.
    set (a1 := (get _ _).2).
    assert (balanced min a1) as H1 by (by apply balanced_get_global, balanced_prune).
    assert (is_Some (rows a1 !! global_key min)) as S1 by (apply get_some, get_global).
    set (a2 := update_row _ _ a1).
    assert (balanced min a2) as H2.
    { apply balanced_update_global; [|done]. intros r. split; [by intros []|].
      cbn. by destruct (ParseFailed o). }
    assert (is_Some (rows a2 !! global_key min)) as S2 by (by apply update_row_some).
    destruct (balanced_observe_spans min false (Received o) a2 S2 H2) as [S3 H3].
    by apply balanced_observe_spans.
  - eapply balanced_ext; [|by apply (balanced_prune m (minute_of now))]. intros k Hk.
    destruct (grow_observed now o a) as [Hg _].
    assert (rows (observed now o a) !! k = rows (prune (minute_of now) a) !! k) as <-.
    { destruct (Hg k) as [->|(Hm & _)]; [done | congruence]. }
    unfold bump_revision. destruct (rows (observed now o a) !! _) as [b|] eqn:E; [|done].
    cbn. rewrite lookup_insert_ne; [done|]. intros <-. by cbn in Hk.
Qed.

(** ** Properties *)

(** Everything that happens to an aggregator. *)
Inductive event :=
  | EObserve (now : Z) (o : Observation)
  | ESetEnabled (e : bool)
  | EFlushBegin (now : Z)
  | EFlushEnd (now : Z) (revisions : gmap key Z).

Definition step (a : Aggregator) (e : event) : Aggregator :=
  match e with
  | EObserve now o => Observe now o a
  | ESetEnabled e => SetEnabled e a
  | EFlushBegin now => (flush_begin now a).2
  | EFlushEnd now revs => flush_end now revs a
  end.

(** Whatever is observed, at whatever times, and however flushes interleave,
    the counter of trace ids is exactly the number of ids held in the sets of the
    buckets, which stays within [maxTraceIDs], and there are at most [maxRows]
    service rows. *)
Theorem usage_bounded session now (l : list event) :
  let a := foldl step (New session now) l in
  traceIDs a = ids_held a /\ 0 <= ids_held a <= maxTraceIDs /\ service_rows a <= maxRows.
Proof.
  assert (forall a, bounded a -> bounded (foldl step a l)) as Hl.
  { induction l as [|e l IH]; intros a Ha; cbn; [done|]. apply IH. destruct e; cbn.
    - by apply bounded_Observe.
    - destruct Ha; by constructor.
    - by apply bounded_prune.
    - by apply bounded_flush_end. }
  destruct (Hl _ (bounded_New session now)) as [H1 H2 H3]. cbn zeta.
  split_and!; [done | | lia | done]. apply map_sum_nonneg. intros; apply weight_nonneg.
Qed.

(** C21: a flush forgets only what was delivered: when observations (with a clock
    that does not go back) come between the snapshot taken at [now] and its
    acknowledgement, every bucket the acknowledgement removes is closed and was
    sent with exactly its final contents, and every other bucket is untouched. *)
Theorem flush_forgets_only_acked now a l k p revs a1 :
  flush_begin now a = (p, revs, a1) ->
  Forall (fun x => minute_of now <= minute_of x.1) l ->
  StronglySorted (fun x y => minute_of x.1 <= minute_of y.1) l ->
  let a2 := observe_all l a1 in
  let a3 := flush_end now revs a2 in
  match rows a2 !! k with
  | None => rows a3 !! k = None
  | Some b =>
      (rows a3 !! k = Some b \/ rows a3 !! k = None) /\
      (rows a3 !! k = None -> minute k < minute_of now /\ snapshot_row b ∈ Rows p)
  end.
Proof.
  intros E Ht Hsort.
  assert (revs = revision <$> rows a1) as -> by (by unfold flush_begin in E; destruct (prune _ a); congruence).
  assert (Rows p = snapshot_row <$> (map_to_list (rows a1)).*2) as ->
    by (by unfold flush_begin in E; destruct (prune _ a); injection E as <- _ <-).
  clear E. cbn zeta. rewrite flush_end_lookup.
  destruct (rows (observe_all l a1) !! k) as [b|] eqn:Hb; [|done].
  rewrite lookup_fmap. destruct (rows a1 !! k) as [b1|] eqn:Hb1; cbn; [|split; [by left | done]].
  destruct (acked now (revision b1) k b) eqn:Ea; [|split; [by left | done]].
  split; [by right|]. intros _. apply andb_prop in Ea as [Em%Z.ltb_lt Er%Z.eqb_eq]. split; [done|].
  assert (since (minute_of now) k b1 a1) as Hs by (unfold since; rewrite Hb1; by left).
  destruct (since_observe_all _ _ _ _ _ Hs Ht Hsort _ Hb) as [->|?]; [|lia].
  apply list_elem_of_fmap_2, list_elem_of_fmap. exists (k, b1). split; [done|].
  by apply elem_of_map_to_list.
Qed.

(** After any observations, at any times, as long as the collector's row of a
    minute says that service counts are complete, the received spans and the
    retained spans of the service rows of that minute add up to its own. *)
Theorem service_counts_add_up session now (l : list (Z * Observation)) m b :
  let a := observe_all l (New session now) in
  rows a !! global_key m = Some b ->
  ServiceCountsComplete (row b) = true ->
  service_total m false a = ReceivedSpans (row b) /\ service_total m true a = RetainedSpans (row b).
Proof.
  assert (forall a, balanced m a -> balanced m (observe_all l a)) as Hl.
  { induction l as [|[t o] l IH]; intros a Ha; cbn; [done|]. by apply IH, balanced_Observe. }
  cbn zeta. intros Hb Hc.
  assert (balanced m (New session now)) as H0
    by (unfold balanced; cbn; rewrite lookup_empty; intros d; apply map_sum_empty).
  specialize (Hl _ H0). unfold balanced in Hl. rewrite Hb in Hl.
  split; [apply (Hl Hc false) | apply (Hl Hc true)].
Qed.

(** ** Witnesses *)

Definition wspan (sv : string) : option Span :=
  Some (mk_span "0123456789abcdef0123456789abcdef" "" "" sv "op" 2 0 0 0 "" "" "" ∅).
Definition wobs : Observation :=
  mk_observation [wspan "a"; None; wspan "b"] [wspan "a"] 10 5 false false false.

Definition wflush := flush_begin 130 (Observe 60 wobs (New "s" 0)).

Lemma flush_forgets_only_acked_witness :
  let a2 := observe_all [(131, wobs)] wflush.2 in
  match rows a2 !! global_key 60 with
  | None => False
  | Some b => rows (flush_end 130 wflush.1.2 a2) !! global_key 60 = None /\
              snapshot_row b ∈ Rows wflush.1.1
  end.
Proof.
  assert (flush_begin 130 (Observe 60 wobs (New "s" 0)) = (wflush.1.1, wflush.1.2, wflush.2)) as E
    by (unfold wflush; by destruct (flush_begin _ _) as [[? ?] ?]).
  pose proof (flush_forgets_only_acked 130 _ [(131, wobs)] (global_key 60) _ _ _ E
    ltac:(constructor; [vm_compute; discriminate | constructor]) ltac:(repeat constructor)) as H.
  cbv zeta in H |- *.
  assert (rows (flush_end 130 wflush.1.2 (observe_all [(131, wobs)] wflush.2)) !! global_key 60 = None) as Hn
    by (vm_compute; reflexivity).
  assert (is_Some (rows (observe_all [(131, wobs)] wflush.2) !! global_key 60)) as [b Hb]
    by (vm_compute; eexists; reflexivity).
  rewrite Hb in H |- *. split; [exact Hn | exact (proj2 (proj2 H Hn))].
Defined.

Lemma service_counts_add_up_witness :
  let a := observe_all [(61, wobs)] (New "s" 0) in
  service_total 60 false a = 2 /\ service_total 60 true a = 1.
Proof.
  cbv zeta.
  assert (exists b, rows (observe_all [(61, wobs)] (New "s" 0)) !! global_key 60 = Some b /\
    ServiceCountsComplete (row b) = true /\ ReceivedSpans (row b) = 2 /\ RetainedSpans (row b) = 1)
    as (b & E & H1 & H2 & H3) by (vm_compute; eexists; split_and!; reflexivity).
  destruct (service_counts_add_up "s" 0 [(61, wobs)] 60 b E H1) as [Ha Hb].
  rewrite H2 in Ha. rewrite H3 in Hb. exact (conj Ha Hb).
Defined.

End Usage.
