(* ===== verification/GoFloat.v ===== *)
(** * float64

    Go's float64 is IEEE 754 binary64 with rounding to nearest even: the operations
    are those of the Standard Library's SpecFloat at that format, executable inside
    Rocq. *)

From S2P Require Import Prelude GoStrings Wire.
#[local] Open Scope Z_scope.

Definition prec : Z := 53.
Definition emax : Z := 1024.

Definition fadd : f64 -> f64 -> f64 := SFadd prec emax.
Definition fsub : f64 -> f64 -> f64 := SFsub prec emax.
Definition fmul : f64 -> f64 -> f64 := SFmul prec emax.
Definition fdiv : f64 -> f64 -> f64 := SFdiv prec emax.
Definition flt : f64 -> f64 -> bool := SFltb.
Definition fle : f64 -> f64 -> bool := SFleb.
Definition feq : f64 -> f64 -> bool := SFeqb.

Definition is_nan (x : f64) : bool := match x with S754_nan => true | _ => false end.
Definition is_inf (x : f64) : bool := match x with S754_infinity _ => true | _ => false end.

(** [float64(z)] of an integer. *)
Definition f_of_Z (z : Z) : f64 := binary_normalize prec emax z 0 false.

(** The literal [m * 2^e]. *)
Definition f_lit (m e : Z) : f64 := binary_normalize prec emax m e false.

(** [uint64(x)] of a value that is in range: truncation towards zero. *)
Definition f_to_u64 (x : f64) : Z :=
  match x with
  | S754_finite false m e => if 0 <=? e then Z.pos m * 2 ^ e else Z.pos m / 2 ^ (- e)
  | _ => 0
  end.

(** [math.Max] and [math.Min]. *)
Definition fmax (x y : f64) : f64 :=
  match x, y with
  | S754_infinity false, _ | _, S754_infinity false => S754_infinity false
  | S754_nan, _ | _, S754_nan => S754_nan
  | S754_zero sx, S754_zero _ => if sx then y else x
  | _, _ => if flt y x then x else y
  end.
Definition fmin (x y : f64) : f64 :=
  match x, y with
  | S754_infinity true, _ | _, S754_infinity true => S754_infinity true
  | S754_nan, _ | _, S754_nan => S754_nan
  | S754_zero sx, S754_zero _ => if sx then x else y
  | _, _ => if flt x y then x else y
  end.

(** [Duration.Seconds]. *)
Definition seconds (d : Z) : f64 :=
  fadd (f_of_Z (d ÷ second)) (fdiv (f_of_Z (Z.rem d second)) (f_of_Z second)).
