(* ===== verification/Sampler.v ===== *)
(** * The trace sampler (internal/apm/sampler)

    Which traces keep their spans: a static deterministic rate, a rate per service
    set remotely, and two adaptive modes with a cache of decisions.

    A cached decision is held by the map of decisions and by a slot of the ring
    through the same pointer, and eviction compares pointers: an entry carries the
    number of its allocation, [ref], and a slot holds that number and the id.  The
    ring is a map from slots, nil slots being absent.

    [strings.ToLower] needs the Unicode case tables and is an argument. *)

From S2P Require Import Prelude GoStrings Wire GoFloat.
#[local] Open Scope Z_scope.

Module Sampler.

(** ** The hash of a trace id: FNV-1a, 64 bits (package hash/fnv) *)

Definition fnv_offset : Z := 14695981039346656037.
Definition fnv_prime : Z := 1099511628211.

Definition traceHash (traceID : string) : Z :=
  foldl (fun h b => u64 (Z.lxor h b * fnv_prime)) fnv_offset (bytes_of traceID).

(** [float64(traceHash(id)>>11)*0x1.0p-53]. *)
Definition hash_fraction (id : string) : f64 :=
  fmul (f_of_Z (Z.shiftr (traceHash id) 11)) (f_lit 1 (-53)).

(** [uint64(rate*float64(^uint64(0)))]. *)
Definition threshold (rate : f64) : Z := f_to_u64 (fmul rate (f_of_Z (2 ^ 64 - 1))).

(** ** State *)

Definition maxAdaptiveServices : Z := 128.
Definition maxAdaptiveDecisions : Z := 16384.
Definition adaptiveWindow : Z := 10 * second.
Definition decisionTTL : Z := minute.

Record serviceTraffic := mk_traffic {
  observed : Z;
  rate : f64;
  last : Z;
}.

Record traceDecision := mk_decision {
  ref : Z;
  keeps : bool;
  at_ : Z;
}.

Record adaptiveState := mk_adaptive {
  services : gmap string serviceTraffic;
  decisions : gmap string traceDecision;
  ring : gmap Z (Z * string);   (* slot: allocation and id *)
  next : Z;
  window : Z;
  timeTokens : Z;
  tokens : f64;
  rare : gmap string Z;
  allocs : Z;   (* entries allocated so far *)
}.

Definition new_adaptive : adaptiveState :=
  mk_adaptive ∅ ∅ ∅ 0 zero_time zero_time f64_zero ∅ 0.

Record Sampler := mk_sampler {
  baseRate : f64;
  slowThreshold : Z;
  mode : string;
  targetTPS : f64;
  adaptive : option adaptiveState;
  serviceRates : gmap string f64;
}.

Record Policy := mk_policy {
  Mode : string;
  BaseRate : f64;
  SlowThresholdMs : Z;
  TargetTracesPerSecond : f64;
  BudgetRevision : string;
}.

Record ServiceRate := mk_service_rate {
  SRService : string;
  SREnv : string;
  SRRate : f64;
}.

Definition New (rate : f64) (slow : Z) : Sampler :=
  let rate := if flt rate f64_zero then f64_zero else if flt f64_one rate then f64_one else rate in
  mk_sampler rate slow "" f64_zero None ∅.

(** ** Configuration *)

(** NaN, infinite or outside [0, 1]. *)
Definition bad_rate (r : f64) : bool :=
  is_nan r || is_inf r || flt r f64_zero || flt f64_one r.

Definition lower_hex (s : string) : bool :=
  forallb (fun z => is_digit z || ((97 <=? z) && (z <=? 102))) (bytes_of s).

(** The literal 0.1. *)
Definition tenth : f64 := fdiv f64_one (f_of_Z 10).

Definition policy_invalid (p : Policy) : bool :=
  (negb (String.eqb (Mode p) "static") && negb (String.eqb (Mode p) "adaptive_agent") &&
   negb (String.eqb (Mode p) "adaptive_monthly")) ||
  bad_rate (BaseRate p) ||
  (SlowThresholdMs p <? 0) || (600000 <? SlowThresholdMs p) ||
  (String.eqb (Mode p) "adaptive_agent" &&
   (is_nan (TargetTracesPerSecond p) || is_inf (TargetTracesPerSecond p) ||
    flt (TargetTracesPerSecond p) tenth || flt (f_of_Z 10000) (TargetTracesPerSecond p))) ||
  (String.eqb (Mode p) "adaptive_monthly" &&
   (negb (str_len (BudgetRevision p) =? 64) || negb (lower_hex (BudgetRevision p)))).

Definition ApplyPolicy (p : Policy) (s : Sampler) : res unit * Sampler :=
  let p := if String.eqb (Mode p) ""
           then mk_policy "static" (BaseRate p) (SlowThresholdMs p) (TargetTracesPerSecond p) (BudgetRevision p)
           else p in
  if policy_invalid p then (Err "invalid APM sampling policy", s)
  else
    let slow := i64 (SlowThresholdMs p * millisecond) in
    if String.eqb (mode s) (Mode p) && feq (baseRate s) (BaseRate p) && (slowThreshold s =? slow) &&
       (negb (String.eqb (Mode p) "adaptive_agent") || feq (targetTPS s) (TargetTracesPerSecond p))
    then (Ok tt, s)
    else
      let a := match adaptive s with
               | Some a => if String.eqb (mode s) (Mode p) then Some a else Some new_adaptive
               | None => Some new_adaptive
               end in
      (Ok tt, mk_sampler (BaseRate p) slow (Mode p) (TargetTracesPerSecond p) a (serviceRates s)).

Definition Apply (rate : f64) (slow : Z) (s : Sampler) : res unit * Sampler :=
  if bad_rate rate || (slow <? 0) || (10 * minute <? slow)
  then (Err "invalid APM sampling policy", s)
  else (Ok tt, mk_sampler rate slow "static" (targetTPS s) None (serviceRates s)).

Definition service_rate_invalid (r : ServiceRate) : bool :=
  String.eqb (SRService r) "" || (255 <? str_len (SRService r)) || (200 <? str_len (SREnv r)) ||
  is_nan (SRRate r) || flt (SRRate r) f64_zero || flt f64_one (SRRate r).

Definition scope_key (service env : string) : string := service +:+ "|" +:+ env.

Definition ApplyServiceRates (rates : list ServiceRate) (s : Sampler) : res unit * Sampler :=
  if existsb service_rate_invalid rates then (Err "invalid service sample rate", s)
  else
    let m := foldl (fun m r => <[scope_key (SRService r) (SREnv r) := SRRate r]> m) ∅ rates in
    (Ok tt, mk_sampler (baseRate s) (slowThreshold s) (mode s) (targetTPS s) (adaptive s) m).

(** ** Adaptive decisions *)

Section adaptive.
Variable ToLower : string -> string.

Definition trace_key (id : string) : string := str_take 128 (ToLower id).

(** A cached decision that has not expired. *)
Definition live_decision (now : Z) (id : string) (a : adaptiveState) : option traceDecision :=
  match decisions a !! id with
  | Some d => if time_sub now (at_ d) <? decisionTTL then Some d else None
  | None => None
  end.

Definition set_decisions (d : gmap string traceDecision) (a : adaptiveState) : adaptiveState :=
  mk_adaptive (services a) d (ring a) (next a) (window a) (timeTokens a) (tokens a) (rare a) (allocs a).

(** Caches a new decision in the next slot, forgetting the entry the slot held if it
    is still the one of its id. *)
Definition remember (id : string) (keep : bool) (now : Z) (a : adaptiveState) : adaptiveState :=
  let ds := match ring a !! next a with
            | Some (old_ref, old_id) =>
                match decisions a !! old_id with
                | Some d => if ref d =? old_ref then delete old_id (decisions a) else decisions a
                | None => decisions a
                end
            | None => decisions a
            end in
  mk_adaptive (services a) (<[id := mk_decision (allocs a) keep now]> ds)
    (<[next a := (allocs a, id)]> (ring a)) ((next a + 1) mod maxAdaptiveDecisions)
    (window a) (timeTokens a) (tokens a) (rare a) (allocs a + 1).

Definition clip (n : nat) (s : string) : string := str_take n s.

Definition rare_part (part : string) : string :=
  let part := clip 512 part in itoa (str_len part) +:+ ":" +:+ part.

Definition overflow : string := str1 0 +:+ "overflow".

(** Whether the fraction of the hash is below a rate. *)
Definition below (id : string) (r : f64) : bool := flt (hash_fraction id) r.

(** The key of the rare guarantee ("" when the kind has none). *)
Definition rare_key (service env resource : string) (kind : Z) (a : adaptiveState) : string :=
  if (kind =? 2) || (kind =? 5) then
    let key := rare_part service +:+ rare_part env +:+ rare_part resource in
    match rare a !! key with
    | Some _ => key
    | None => if 2047 <=? Z.of_nat (size (rare a)) then overflow else key
    end
  else "".

(** No kept trace of the key in the last five minutes. *)
Definition rare_due (key : string) (now : Z) (a : adaptiveState) : bool :=
  match rare a !! key with
  | Some last => 5 * minute <=? time_sub now last
  | None => true
  end.

Definition set_rare (key : string) (now : Z) (a : adaptiveState) : adaptiveState :=
  mk_adaptive (services a) (decisions a) (ring a) (next a) (window a) (timeTokens a) (tokens a)
    (<[key := now]> (rare a)) (allocs a).

Definition keepMonthly (id service env resource : string) (kind : Z) (preserve : bool) (rate : f64)
    (now : Z) (a : adaptiveState) : bool * adaptiveState :=
  let id := trace_key id in
  let key := rare_key service env resource kind a in
  let preserve := preserve || (((kind =? 2) || (kind =? 5)) && rare_due key now a) in
  let keep := preserve || fle f64_one rate || (flt f64_zero rate && below id rate) in
  let '(keep, a) :=
    match live_decision now id a with
    | Some old =>
        let k := keeps old || keep in
        (k, set_decisions (<[id := mk_decision (ref old) k (at_ old)]> (decisions a)) a)
    | None => (keep, remember id keep now a)
    end in
  (keep, if keep && negb (String.eqb key "") then set_rare key now a else a).

Definition set_services (m : gmap string serviceTraffic) (a : adaptiveState) : adaptiveState :=
  mk_adaptive m (decisions a) (ring a) (next a) (window a) (timeTokens a) (tokens a) (rare a) (allocs a).
Definition set_window (t : Z) (a : adaptiveState) : adaptiveState :=
  mk_adaptive (services a) (decisions a) (ring a) (next a) t (timeTokens a) (tokens a) (rare a) (allocs a).
Definition set_tokens (tk : f64) (t : Z) (a : adaptiveState) : adaptiveState :=
  mk_adaptive (services a) (decisions a) (ring a) (next a) (window a) t tk (rare a) (allocs a).

(** The start of the first window. *)
Definition open_window (target : f64) (now : Z) (a : adaptiveState) : adaptiveState :=
  if is_zero_time (window a)
  then set_tokens (fmax f64_one target) now (set_window now a)
  else a.

(** The end of a window: idle services are forgotten and the others get a rate. *)
Definition close_window (target : f64) (now : Z) (a : adaptiveState) : adaptiveState :=
  let elapsed := time_sub now (window a) in
  if adaptiveWindow <=? elapsed then
    let m := filter (fun e => ~ minute < time_sub now (last e.2)) (services a) in
    let share := fdiv target (fmax f64_one (f_of_Z (Z.of_nat (size m)))) in
    let m := (fun t => mk_traffic 0
        (fmin f64_one (fdiv share (fdiv (fmax f64_one (f_of_Z (observed t))) (seconds elapsed)))) (last t)) <$> m in
    set_window now (set_services m a)
  else a.

Definition service_slot (service : string) (a : adaptiveState) : string :=
  let service := clip 200 service in
  match services a !! service with
  | Some _ => service
  | None => if maxAdaptiveServices - 1 <=? Z.of_nat (size (services a)) then overflow else service
  end.

(** The tokens accrued since the last normal trace. *)
Definition refill (target : f64) (now : Z) (a : adaptiveState) : f64 :=
  fmin (fmax f64_one target)
    (fadd (tokens a) (fmul (fmax f64_zero (seconds (time_sub now (timeTokens a)))) target)).

Definition keep_adaptive (id service : string) (preserve : bool) (target : f64) (now : Z)
    (a : adaptiveState) : bool * adaptiveState :=
  let id := trace_key id in
  match live_decision now id a with
  | Some old =>
      let k := keeps old || preserve in
      (k, set_decisions (<[id := mk_decision (ref old) k (at_ old)]> (decisions a)) a)
  | None =>
      let a := close_window target now (open_window target now a) in
      let service := service_slot service a in
      let t := default (mk_traffic 0 f64_one zero_time) (services a !! service) in
      if preserve then
        let a := set_services (<[service := mk_traffic (observed t) (rate t) now]> (services a)) a in
        (true, remember id true now a)
      else
        let a := set_services (<[service := mk_traffic (observed t + 1) (rate t) now]> (services a)) a in
        let tk := refill target now a in
        let keep := (fle f64_one (rate t) || below id (rate t)) && fle f64_one tk in
        let a := set_tokens (if keep then fsub tk f64_one else tk) now a in
        (keep, remember id keep now a)
  end.

(** ** The decision *)

(** Errors and slow spans. *)
Definition exceptional (statusCode durationNano : Z) (s : Sampler) : bool :=
  (statusCode =? 2) || ((0 <? slowThreshold s) && (slowThreshold s <=? durationNano)).

Definition set_adaptive (a : adaptiveState) (s : Sampler) : Sampler :=
  mk_sampler (baseRate s) (slowThreshold s) (mode s) (targetTPS s) (Some a) (serviceRates s).

(** None is the panic of a nil adaptive state. *)
Definition KeepForScope (now : Z) (traceID service env resource : string)
    (statusCode kind durationNano : Z) (s : Sampler) : option (bool * Sampler) :=
  let exc := exceptional statusCode durationNano s in
  match serviceRates s !! scope_key service env with
  | Some rate =>
      Some (exc || fle f64_one rate || (flt f64_zero rate && (traceHash traceID <? threshold rate)), s)
  | None =>
      if String.eqb (mode s) "adaptive_monthly" then
        match adaptive s with
        | None => None
        | Some a => let '(k, a) := keepMonthly traceID service env resource kind exc (baseRate s) now a in
                    Some (k, set_adaptive a s)
        end
      else if String.eqb (mode s) "adaptive_agent" then
        match adaptive s with
        | None => None
        | Some a => let '(k, a) := keep_adaptive traceID service exc (targetTPS s) now a in
                    Some (k, set_adaptive a s)
        end
      else
        Some (exc || fle f64_one (baseRate s) ||
              (negb (fle (baseRate s) f64_zero) && (traceHash traceID <? threshold (baseRate s))), s)
  end.

Definition KeepForService (now : Z) (traceID service : string) (statusCode durationNano : Z)
    (s : Sampler) : option (bool * Sampler) :=
  KeepForScope now traceID service "" "" statusCode 0 durationNano s.

Definition KeepRaw (now : Z) (traceID : string) (statusCode durationNano : Z) (s : Sampler)
    : option (bool * Sampler) :=
  KeepForService now traceID "" statusCode durationNano s.

Definition Keep (now : Z) (span : option Span) (s : Sampler) : option (bool * Sampler) :=
  match span with
  | None => Some (false, s)
  | Some sp => KeepRaw now (TraceId sp) (StatusCode sp) (i64 (EndUnixNano sp - StartUnixNano sp)) s
  end.
End adaptive.
End Sampler.
