(* ===== verification/SamplerProps.v ===== *)
(** * The trace sampler: properties

    The memory of the adaptive modes is bounded under every sequence of policy
    updates and spans, no call panics, errors and slow spans are always kept, and the
    answer about a trace is stable for a minute while fewer than 16384 other
    decisions are taken. *)

From S2P Require Import Prelude GoStrings Wire GoFloat Sampler.
#[local] Open Scope Z_scope.

Module SamplerProps.
Import Sampler.

(** ** Sequences of calls *)

Record call := mk_call {
  c_now : Z;
  c_trace : string;
  c_service : string;
  c_env : string;
  c_resource : string;
  c_status : Z;
  c_kind : Z;
  c_duration : Z;
}.

Inductive op :=
  | OPolicy (p : Policy)
  | OApply (rate : f64) (slow : Z)
  | ORates (rates : list ServiceRate)
  | OKeep (c : call).

Section props.
Variable ToLower : string -> string.

Definition keep_call (c : call) (s : Sampler) : option (bool * Sampler) :=
  KeepForScope ToLower (c_now c) (c_trace c) (c_service c) (c_env c) (c_resource c)
    (c_status c) (c_kind c) (c_duration c) s.

Definition run_op (o : op) (s : Sampler) : option Sampler :=
  match o with
  | OPolicy p => Some (ApplyPolicy p s).2
  | OApply r slow => Some (Apply r slow s).2
  | ORates rs => Some (ApplyServiceRates rs s).2
  | OKeep c => snd <$> keep_call c s
  end.

(** None: some call panicked. *)
Fixpoint run_ops (os : list op) (s : Sampler) : option Sampler :=
  match os with
  | [] => Some s
  | o :: os => match run_op o s with Some s' => run_ops os s' | None => None end
  end.

(** ** The invariant *)

Record cache_inv (a : adaptiveState) : Prop := {
  inv_next : 0 <= next a < maxAdaptiveDecisions;
  inv_slots : forall i e, ring a !! i = Some e -> 0 <= i < maxAdaptiveDecisions /\ e.1 < allocs a;
  inv_held : forall id d, decisions a !! id = Some d -> exists i, ring a !! i = Some (ref d, id);
}.

Definition bounded (n : nat) {A} (m : gmap string A) : Prop := (size (delete overflow m) <= n)%nat.

Record adaptive_inv (a : adaptiveState) : Prop := {
  inv_cache : cache_inv a;
  inv_services : bounded 127 (services a);
  inv_rare : bounded 2047 (rare a);
}.

Definition sampler_inv (s : Sampler) : Prop :=
  match adaptive s with
  | Some a => adaptive_inv a
  | None => mode s <> "adaptive_agent" /\ mode s <> "adaptive_monthly"
  end.

Lemma bounded_size n {A} (m : gmap string A) : bounded n m -> (size m <= S n)%nat.
Proof. unfold bounded. pose proof (map_size_delete overflow m). destruct (m !! overflow); unfold id in *; lia. Qed.

Lemma bounded_insert n {A} (m : gmap string A) k x :
  bounded n m -> (is_Some (m !! k) \/ k = overflow \/ (size m < n)%nat) -> bounded n (<[k := x]> m).
Proof.
  unfold bounded. intros Hm Hk. destruct (decide (k = overflow)) as [->|Hne].
  { by rewrite delete_insert_eq. }
  rewrite delete_insert_ne by done. rewrite map_size_insert.
  pose proof (map_size_delete overflow m) as Hs. rewrite lookup_delete_ne by done.
  destruct Hk as [[y ->]|[?|Hk]]; [done|done|].
  destruct (m !! k); [done|]. destruct (m !! overflow); unfold id in *; lia.
Qed.

Lemma size_filter_le {A} (P : string * A -> Prop) `{!forall x, Decision (P x)} (m : gmap string A) :
  (size (filter P m) <= size m)%nat.
Proof.
  rewrite <- !size_dom. apply subseteq_size. apply (dom_filter_subseteq P).
Qed.

Lemma bounded_filter n {A} (P : string * A -> Prop) `{!forall x, Decision (P x)} (m : gmap string A) :
  bounded n m -> bounded n (filter P m).
Proof.
  unfold bounded. intros Hm. rewrite <- map_filter_delete.
  pose proof (size_filter_le P (delete overflow m)). lia.
Qed.

Lemma bounded_fmap n {A B} (f : A -> B) (m : gmap string A) : bounded n m -> bounded n (f <$> m).
Proof. unfold bounded. by rewrite <- fmap_delete, map_size_fmap. Qed.

(** ** The ring *)

Lemma size_list_to_set_le `{Countable B} (l : list B) : (size (list_to_set l : gset B) <= length l)%nat.
Proof.
  induction l as [|x l IH]; cbn; [by rewrite size_empty|].
  rewrite size_union_alt, size_singleton.
  pose proof (subseteq_size (list_to_set l ∖ {[x]}) (list_to_set l : gset B)
    (fun y Hy => proj1 (proj1 (elem_of_difference _ _ _) Hy))). lia.
Qed.

Lemma cache_inv_bound a : cache_inv a -> (size (decisions a) <= Z.to_nat maxAdaptiveDecisions)%nat.
Proof.
  intros [_ Hslots Hheld].
  assert (dom (decisions a) ⊆ list_to_set (snd <$> (map_to_list (ring a)).*2 : list string)) as Hsub.
  { intros id [d Hd]%elem_of_dom. apply elem_of_list_to_set.
    destruct (Hheld id d Hd) as [i Hi]. apply list_elem_of_fmap. exists (ref d, id). split; [done|].
    apply list_elem_of_fmap. exists (i, (ref d, id)). split; [done|]. by apply elem_of_map_to_list. }
  apply subseteq_size in Hsub. rewrite size_dom in Hsub. etrans; [exact Hsub|].
  assert (size (ring a) <= Z.to_nat maxAdaptiveDecisions)%nat as Hring.
  { rewrite <- size_dom.
    assert (dom (ring a) ⊆ list_to_set (seqZ 0 maxAdaptiveDecisions)) as Hd.
    { intros i [e He]%elem_of_dom. apply elem_of_list_to_set, elem_of_seqZ.
      apply Hslots in He as [? _]. lia. }
    apply subseteq_size in Hd. etrans; [exact Hd|].
    etrans; [apply size_list_to_set_le|]. rewrite length_seqZ. apply Nat.le_refl. }
  transitivity (length (snd <$> (map_to_list (ring a)).*2)).
  - apply size_list_to_set_le.
  - rewrite !length_fmap, length_map_to_list. exact Hring.
Qed.

(** ** Operations on the cache *)

Lemma remember_inv id k now a : cache_inv a -> cache_inv (remember id k now a).
Proof.
  intros [Hn Hslots Hheld]. split; cbn.
  - apply Z.mod_pos_bound. done.
  - intros i e. rewrite lookup_insert_Some. intros [[<- <-]|[_ Hi]]; cbn; [lia|].
    apply Hslots in Hi. lia.
  - intros id' d. rewrite lookup_insert_Some. intros [[<- <-]|[Hne Hd]]; cbn.
    + exists (next a). apply lookup_insert_eq.
    + assert (exists i, ring a !! i = Some (ref d, id') /\ i <> next a) as (i & Hi & Hin).
      { destruct (ring a !! next a) as [[r0 id0]|] eqn:E.
        - destruct (decide (id0 = id')) as [->|Hne0].
          + destruct (decisions a !! id') as [d0|] eqn:E0; [|by rewrite E0 in Hd].
            destruct (Z.eqb_spec (ref d0) r0) as [_|Hr]; [by rewrite lookup_delete_eq in Hd|].
            rewrite E0 in Hd. injection Hd as <-. destruct (Hheld id' d0 E0) as [i Hi].
            exists i. split; [done|]. intros ->. congruence.
          + assert (decisions a !! id' = Some d) as Hd'.
            { case_match; [|done]. case_match; [|done]. by rewrite lookup_delete_ne in Hd. }
            destruct (Hheld id' d Hd') as [i Hi]. exists i. split; [done|]. intros ->. congruence.
        - destruct (Hheld id' d Hd) as [i Hi]. exists i. split; [done|]. intros ->. congruence. }
      exists i. by rewrite lookup_insert_ne.
Qed.

(** Updating the answer of a cached decision keeps its allocation. *)
Lemma update_inv id d k a :
  cache_inv a -> decisions a !! id = Some d ->
  cache_inv (set_decisions (<[id := mk_decision (ref d) k (at_ d)]> (decisions a)) a).
Proof.
  intros [Hn Hslots Hheld] Hd. split; [done|done|]. cbn.
  intros id' d'. rewrite lookup_insert_Some. intros [[<- <-]|[_ Hd']]; [exact (Hheld id d Hd) | by apply Hheld].
Qed.

Lemma live_decision_some now id a d :
  live_decision now id a = Some d -> decisions a !! id = Some d /\ time_sub now (at_ d) < decisionTTL.
Proof. unfold live_decision. intros H. split_tests. split; [done|lia]. Qed.

Lemma keepMonthly_inv id service env resource kind preserve rate now a :
  adaptive_inv a ->
  adaptive_inv (keepMonthly ToLower id service env resource kind preserve rate now a).2.
Proof.
  intros [Hc Hs Hr]. unfold keepMonthly.
  set (tid := trace_key ToLower id). set (key := rare_key service env resource kind a).
  set (keep := (_ || _ || _)%bool).
  assert (forall a', cache_inv a' -> services a' = services a -> rare a' = rare a -> forall k,
    adaptive_inv (if k && negb (String.eqb key "") then set_rare key now a' else a')) as Hend.
  { intros a' Hc' Es Er k. destruct (k && negb (String.eqb key ""))%bool eqn:E.
    - to_prop. split; [by destruct Hc'|by cbn; rewrite Es|]. cbn. rewrite Er. apply bounded_insert; [done|].
      subst key. unfold rare_key in *. destruct ((kind =? 2) || (kind =? 5)); [|done].
      case_match eqn:El; [by left|]. destruct (2047 <=? _) eqn:Eo; [by right; left|].
      right; right. apply Z.leb_gt in Eo. lia.
    - split; [done | by rewrite Es | by rewrite Er]. }
  destruct (live_decision now tid a) as [old|] eqn:El; cbn [snd].
  - apply live_decision_some in El as [El _]. apply Hend; [|done|done]. by apply update_inv.
  - apply Hend; [|done|done]. by apply remember_inv.
Qed.

Lemma service_slot_fits service a :
  is_Some (services a !! service_slot service a) \/ service_slot service a = overflow \/
  (size (services a) < 127)%nat.
Proof.
  unfold service_slot, maxAdaptiveServices. case_match eqn:E; [by left; rewrite E|].
  case_match eqn:Eo; [by right; left|]. right; right. apply Z.leb_gt in Eo. lia.
Qed.

Lemma adaptive_inv_same a a' :
  adaptive_inv a -> next a' = next a -> ring a' = ring a -> decisions a' = decisions a ->
  allocs a' = allocs a -> rare a' = rare a -> bounded 127 (services a') -> adaptive_inv a'.
Proof.
  intros [[Hn Hsl Hh] Hs Hr] E1 E2 E3 E4 E5 Hs'.
  split; [split|done|]; rewrite ?E1, ?E2, ?E3, ?E4, ?E5; done.
Qed.

Lemma open_window_inv target now a : adaptive_inv a -> adaptive_inv (open_window target now a).
Proof.
  intros Ha. unfold open_window. case_match; [|done].
  apply (adaptive_inv_same a); try done. apply Ha.
Qed.

Lemma close_window_inv target now a : adaptive_inv a -> adaptive_inv (close_window target now a).
Proof.
  intros Ha. unfold close_window. case_match; [|done].
  apply (adaptive_inv_same a); try done. cbn.
  apply bounded_fmap, bounded_filter, Ha.
Qed.

Lemma set_services_inv service t a :
  adaptive_inv a -> adaptive_inv (set_services (<[service_slot service a := t]> (services a)) a).
Proof.
  intros Ha. apply (adaptive_inv_same a); try done.
  apply bounded_insert; [apply Ha | apply service_slot_fits].
Qed.

Lemma remember_adaptive_inv id k now a : adaptive_inv a -> adaptive_inv (remember id k now a).
Proof. intros [Hc Hs Hr]. split; [by apply remember_inv | done | done]. Qed.

Lemma set_tokens_inv tk now a : adaptive_inv a -> adaptive_inv (set_tokens tk now a).
Proof. intros [[] Hs Hr]. by split. Qed.

Create HintDb sampler.
#[local] Hint Resolve remember_adaptive_inv set_tokens_inv set_services_inv close_window_inv
  open_window_inv : sampler.

Lemma keep_adaptive_inv id service preserve target now a :
  adaptive_inv a -> adaptive_inv (keep_adaptive ToLower id service preserve target now a).2.
Proof.
  intros Ha. unfold keep_adaptive.
  destruct (live_decision now _ a) as [old|] eqn:El; cbn [snd].
  - apply live_decision_some in El as [El _]. destruct Ha. split; [by apply update_inv|done|done].
  - destruct preserve; cbn [snd]; auto 6 with sampler.
Qed.

Lemma keepMonthly_preserve id service env resource kind preserve rate now a :
  preserve = true -> (keepMonthly ToLower id service env resource kind preserve rate now a).1 = true.
Proof.
  intros ->. unfold keepMonthly. cbn [orb].
  destruct (live_decision now _ a) as [old|]; cbn [fst]; by rewrite ?orb_true_r.
Qed.

Lemma keep_adaptive_preserve id service preserve target now a :
  preserve = true -> (keep_adaptive ToLower id service preserve target now a).1 = true.
Proof.
  intros ->. unfold keep_adaptive.
  destruct (live_decision now _ a) as [old|]; cbn [fst]; by rewrite ?orb_true_r.
Qed.

(** ** Runs *)

Lemma apply_policy_inv p s : sampler_inv s -> sampler_inv (ApplyPolicy p s).2.
Proof.
  assert (adaptive_inv new_adaptive) as Hnew.
  { split; [split|..].
    - done.
    - intros i e. cbn. by rewrite lookup_empty.
    - intros id d. cbn. by rewrite lookup_empty.
    - unfold bounded. cbn. rewrite delete_empty, map_size_empty. lia.
    - unfold bounded. cbn. rewrite delete_empty, map_size_empty. lia. }
  intros Hs. unfold ApplyPolicy.
  set (p' := if String.eqb _ _ then _ else _). do 2 (case_match; [done|]).
  unfold sampler_inv in *. cbn. destruct (adaptive s); [destruct (String.eqb (mode s) (Mode p'))|]; done.
Qed.

Lemma keep_call_inv c s :
  sampler_inv s ->
  exists k s', keep_call c s = Some (k, s') /\ sampler_inv s' /\
    (exceptional (c_status c) (c_duration c) s = true -> k = true).
Proof.
  intros Hs. unfold keep_call, KeepForScope.
  set (exc := exceptional _ _ s).
  case_match; [eexists _, _; split_and!; [done|done|by intros ->]|].
  case_match eqn:Em; [|case_match eqn:Ea].
  - to_prop. unfold sampler_inv in *. destruct (adaptive s) as [a|]; [|by destruct Hs].
    pose proof (keepMonthly_inv (c_trace c) (c_service c) (c_env c) (c_resource c) (c_kind c) exc
      (baseRate s) (c_now c) a Hs) as Ha.
    pose proof (keepMonthly_preserve (c_trace c) (c_service c) (c_env c) (c_resource c) (c_kind c) exc
      (baseRate s) (c_now c) a) as Hk.
    destruct (keepMonthly _ _ _ _ _ _ _ _ _ a) as [k a']. by exists k, (set_adaptive a' s).
  - to_prop. unfold sampler_inv in *. destruct (adaptive s) as [a|]; [|by destruct Hs].
    pose proof (keep_adaptive_inv (c_trace c) (c_service c) exc (targetTPS s) (c_now c) a Hs) as Ha.
    pose proof (keep_adaptive_preserve (c_trace c) (c_service c) exc (targetTPS s) (c_now c) a) as Hk.
    destruct (keep_adaptive _ _ _ _ _ _ a) as [k a']. by exists k, (set_adaptive a' s).
  - eexists _, _; split_and!; [done|done|by intros ->].
Qed.

Lemma keep_call_frame c s k s' : keep_call c s = Some (k, s') -> slowThreshold s' = slowThreshold s.
Proof.
  unfold keep_call, KeepForScope. intros E. repeat case_match; by simplify_eq/=.
Qed.

Lemma run_ops_inv os s : sampler_inv s -> exists s', run_ops os s = Some s' /\ sampler_inv s'.
Proof.
  revert s. induction os as [|o os IH]; intros s Hs; [by exists s|].
  assert (exists s', run_op o s = Some s' /\ sampler_inv s') as (s' & E & Hs').
  { destruct o as [p|r slow|rs|c]; cbn.
    - eexists. split; [done|]. by apply apply_policy_inv.
    - eexists. split; [done|]. unfold Apply. by case_match.
    - eexists. split; [done|]. unfold ApplyServiceRates. by case_match.
    - destruct (keep_call_inv c s Hs) as (k & s' & -> & Hs' & _). by exists s'. }
  cbn [run_ops]. rewrite E. by apply IH.
Qed.

(** ** One entry of the cache over time *)

Definition same_trace (c c' : call) : Prop := trace_key ToLower (c_trace c) = trace_key ToLower (c_trace c').

(** The entry of [id] is allocation [r], answers [k] and is dated [t]; its slot is the
    one [n] slots before the last one written, and no other slot holds [r]. *)
Record tracks (id : string) (r t : Z) (k : bool) (n : Z) (a : adaptiveState) : Prop := {
  tr_entry : decisions a !! id = Some (mk_decision r k t);
  tr_fresh : r < allocs a;
  tr_slot : exists p, 0 <= p < maxAdaptiveDecisions /\
    next a = (p + 1 + n) mod maxAdaptiveDecisions /\
    forall i e, ring a !! i = Some e -> e.1 = r -> i = p;
}.

Lemma slot_not_reused p n :
  0 <= p < maxAdaptiveDecisions -> 0 <= n < maxAdaptiveDecisions - 1 ->
  (p + 1 + n) mod maxAdaptiveDecisions <> p.
Proof.
  unfold maxAdaptiveDecisions. intros Hp Hn E.
  pose proof (Z.div_mod (p + 1 + n) 16384 ltac:(lia)) as Hd. rewrite E in Hd.
  assert (16384 * ((p + 1 + n) / 16384) = n + 1) by lia. lia.
Qed.

Lemma remember_tracks_new id k now a :
  cache_inv a -> tracks id (allocs a) now k 0 (remember id k now a).
Proof.
  intros [Hn Hslots _]. split; cbn; [apply lookup_insert_eq | lia |].
  exists (next a). split; [done|]. rewrite Z.add_0_r. split; [done|].
  intros i e. rewrite lookup_insert_Some. intros [[<- _]|[_ Hi]]; [done|].
  apply Hslots in Hi. lia.
Qed.

Lemma remember_tracks_other id r t k n id' k' now a :
  cache_inv a -> tracks id r t k n a -> id' <> id -> 0 <= n < maxAdaptiveDecisions - 1 ->
  tracks id r t k (n + 1) (remember id' k' now a).
Proof.
  intros [Hn Hslots Hheld] [He Hf (p & Hp & Hnx & Hu)] Hne Hn'.
  pose proof (slot_not_reused p n Hp Hn') as Hpn. rewrite <- Hnx in Hpn.
  split; cbn.
  - rewrite lookup_insert_ne by done.
    destruct (ring a !! next a) as [[r0 id0]|] eqn:E; [|done].
    destruct (decide (id0 = id)) as [->|?].
    + rewrite He. cbn. destruct (Z.eqb_spec r r0) as [->|]; [|done].
      by destruct Hpn; apply (Hu _ _ E).
    + case_match; [|done]. case_match; [|done]. by rewrite lookup_delete_ne.
  - lia.
  - exists p. split; [done|]. split.
    + rewrite Hnx, Zplus_mod_idemp_l. f_equal. lia.
    + intros i e. rewrite lookup_insert_Some. intros [[<- <-]|[_ Hi]]; cbn; [lia | by apply Hu].
Qed.

Lemma update_tracks id r t k n id' d k' a :
  tracks id r t k n a -> decisions a !! id' = Some d ->
  tracks id r t (if decide (id' = id) then k' else k) n
    (set_decisions (<[id' := mk_decision (ref d) k' (at_ d)]> (decisions a)) a).
Proof.
  intros [He Hf Hs] Hd. split; cbn; [|done|done].
  case_decide as Hid.
  - subst id'. rewrite He in Hd. injection Hd as <-. apply lookup_insert_eq.
  - by rewrite lookup_insert_ne.
Qed.

Lemma tracks_same id r t k n a a' :
  tracks id r t k n a -> next a' = next a -> ring a' = ring a -> decisions a' = decisions a ->
  allocs a' = allocs a -> tracks id r t k n a'.
Proof. intros [He Hf Hs] E1 E2 E3 E4. split; rewrite ?E1, ?E2, ?E3, ?E4; done. Qed.

(** What a call does to the cache: it answers from a live entry, or caches one. *)
Inductive cache_step (id : string) (now : Z) (a : adaptiveState) : bool -> adaptiveState -> Prop :=
  | step_hit d k a' :
      live_decision now id a = Some d -> (keeps d = true -> k = true) ->
      decisions a' = <[id := mk_decision (ref d) k (at_ d)]> (decisions a) ->
      ring a' = ring a -> next a' = next a -> allocs a' = allocs a ->
      cache_step id now a k a'
  | step_miss b k a' :
      live_decision now id a = None ->
      next b = next a -> ring b = ring a -> decisions b = decisions a -> allocs b = allocs a ->
      decisions a' = decisions (remember id k now b) -> ring a' = ring (remember id k now b) ->
      next a' = next (remember id k now b) -> allocs a' = allocs (remember id k now b) ->
      cache_step id now a k a'.

Lemma keepMonthly_step id service env resource kind preserve rate now a :
  cache_step (trace_key ToLower id) now a
    (keepMonthly ToLower id service env resource kind preserve rate now a).1
    (keepMonthly ToLower id service env resource kind preserve rate now a).2.
Proof.
  unfold keepMonthly. set (key := rare_key _ _ _ _ _). set (keep := (_ || _ || _)%bool).
  destruct (live_decision now (trace_key ToLower id) a) as [old|] eqn:El; cbn [fst snd].
  - eapply (step_hit _ _ _ old); [exact El|by intros ->|..]; by case_match.
  - eapply (step_miss _ _ _ a); [exact El|done|done|done|done|..]; by case_match.
Qed.

Lemma close_window_same target now a :
  let b := close_window target now (open_window target now a) in
  next b = next a /\ ring b = ring a /\ decisions b = decisions a /\ allocs b = allocs a.
Proof.
  cbv zeta. unfold close_window, open_window. by repeat case_match.
Qed.

Lemma keep_adaptive_step id service preserve target now a :
  cache_step (trace_key ToLower id) now a
    (keep_adaptive ToLower id service preserve target now a).1
    (keep_adaptive ToLower id service preserve target now a).2.
Proof.
  unfold keep_adaptive.
  destruct (live_decision now (trace_key ToLower id) a) as [old|] eqn:El; cbn [fst snd].
  - by eapply (step_hit _ _ _ old); [exact El|intros ->|..].
  - pose proof (close_window_same target now a) as (E1 & E2 & E3 & E4).
    set (b := close_window target now (open_window target now a)) in *.
    set (sv := service_slot service b). set (t := default _ _).
    destruct preserve; cbn [fst snd].
    + by apply (step_miss _ _ _ (set_services (<[sv := mk_traffic (observed t) (rate t) now]> (services b)) b)).
    + set (b' := set_services (<[sv := mk_traffic (observed t + 1) (rate t) now]> (services b)) b).
      set (k := (_ && _)%bool).
      by apply (step_miss _ _ _ (set_tokens (if k then fsub (refill target now b') f64_one
                                             else refill target now b') now b')).
Qed.

(** In agent mode a live entry changes its answer only for an exception. *)
Lemma keep_adaptive_hit id service preserve target now a d :
  live_decision now (trace_key ToLower id) a = Some d ->
  (keep_adaptive ToLower id service preserve target now a).1 = keeps d || preserve.
Proof. intros E. unfold keep_adaptive. by rewrite E. Qed.

Lemma live_tracks id r t k n now a :
  tracks id r t k n a -> time_sub now t < decisionTTL ->
  live_decision now id a = Some (mk_decision r k t).
Proof.
  intros [He _ _] Ht. unfold live_decision. rewrite He. cbn.
  by apply Z.ltb_lt in Ht as ->.
Qed.

Lemma step_tracks id' now a k' a' id r t k n :
  cache_step id' now a k' a' -> cache_inv a -> tracks id r t k n a ->
  time_sub now t < decisionTTL -> 0 <= n < maxAdaptiveDecisions - 1 ->
  exists n', n <= n' <= n + 1 /\ tracks id r t (if decide (id' = id) then k' else k) n' a' /\
    (id' = id -> n' = n /\ (k = true -> k' = true)).
Proof.
  intros [d k0 a1 El Hk E1 E2 E3 E4|b k0 a1 El E1 E2 E3 E4 E5 E6 E7 E8] Hc Ht Hnow Hn.
  - exists n. split; [lia|]. split.
    + apply live_decision_some in El as [El _].
      eapply tracks_same; [by apply (update_tracks id r t k n id' d k0 a)|done..].
    + intros ->. split; [done|]. rewrite (live_tracks id r t k n now a Ht Hnow) in El.
      injection El as <-. by apply Hk.
  - destruct (decide (id' = id)) as [->|Hne].
    { by rewrite (live_tracks id r t k n now a Ht Hnow) in El. }
    exists (n + 1). split; [lia|]. split; [|done].
    eapply tracks_same; [apply (remember_tracks_other id r t k n id' k0 now b)|done..]; try done.
    + destruct Hc. split; rewrite ?E1, ?E2, ?E3, ?E4; done.
    + by apply (tracks_same id r t k n a).
Qed.

(** ** Sequences of decisions *)

Definition keep_all (cs : list call) (s : Sampler) : option Sampler := run_ops (OKeep <$> cs) s.

Definition adaptive_mode (s : Sampler) : Prop :=
  serviceRates s = ∅ /\ (mode s = "adaptive_agent" \/ mode s = "adaptive_monthly").

(** The errors and slow spans among the spans of [id]'s trace. *)
Definition exception_of (s : Sampler) (id : string) (c : call) : bool :=
  bool_decide (trace_key ToLower (c_trace c) = id) && exceptional (c_status c) (c_duration c) s.

Lemma keep_call_adaptive c s k s' :
  adaptive_mode s -> keep_call c s = Some (k, s') ->
  exists a a', adaptive s = Some a /\ s' = set_adaptive a' s /\
    cache_step (trace_key ToLower (c_trace c)) (c_now c) a k a' /\
    (mode s = "adaptive_agent" -> forall d,
       live_decision (c_now c) (trace_key ToLower (c_trace c)) a = Some d ->
       k = keeps d || exceptional (c_status c) (c_duration c) s).
Proof.
  intros [Hr Hm]. unfold keep_call, KeepForScope. rewrite Hr, lookup_empty.
  set (exc := exceptional _ _ s). destruct Hm as [Hm|Hm]; rewrite Hm; cbn [String.eqb Ascii.eqb Bool.eqb];
    (destruct (adaptive s) as [a|]; [|done]).
  - destruct (keep_adaptive _ _ _ _ _ _ a) as [k0 a'] eqn:E. intros [= <- <-].
    exists a, a'. split_and!; [done|done| |].
    + pose proof (keep_adaptive_step (c_trace c) (c_service c) exc (targetTPS s) (c_now c) a) as H.
      by rewrite E in H.
    + intros _ d Hd.
      pose proof (keep_adaptive_hit (c_trace c) (c_service c) exc (targetTPS s) (c_now c) a d Hd) as H.
      by rewrite E in H.
  - destruct (keepMonthly _ _ _ _ _ _ _ _ _ a) as [k0 a'] eqn:E. intros [= <- <-].
    exists a, a'. split_and!; [done|done| |done].
    pose proof (keepMonthly_step (c_trace c) (c_service c) (c_env c) (c_resource c) (c_kind c) exc
      (baseRate s) (c_now c) a) as H.
    by rewrite E in H.
Qed.

Lemma keep_all_tracks cs id r t k n s s' a :
  adaptive_mode s -> adaptive s = Some a -> adaptive_inv a -> tracks id r t k n a ->
  0 <= n -> n + Z.of_nat (length cs) < maxAdaptiveDecisions ->
  Forall (fun c => time_sub (c_now c) t < decisionTTL) cs ->
  keep_all cs s = Some s' ->
  exists a' k' n', adaptive s' = Some a' /\ adaptive_mode s' /\ mode s' = mode s /\
    slowThreshold s' = slowThreshold s /\ tracks id r t k' n' a' /\ (k = true -> k' = true) /\
    (mode s = "adaptive_agent" -> k' = k || existsb (exception_of s id) cs).
Proof.
  revert k n s a. induction cs as [|c cs IH]; intros k n s a Hm Ha Hi Ht Hn Hlen Hnow Hrun.
  { injection Hrun as <-. exists a, k, n. split_and!; try done. by rewrite orb_false_r. }
  inversion Hnow as [|? ? Hc Hcs]; subst. cbn [length] in Hlen.
  unfold keep_all in Hrun. cbn in Hrun.
  destruct (keep_call c s) as [[k1 s1]|] eqn:Ek; [|done]. cbn in Hrun.
  destruct (keep_call_adaptive c s k1 s1 Hm Ek) as (a0 & a1 & Ha0 & -> & Hstep & Hagent).
  rewrite Ha in Ha0. injection Ha0 as <-.
  destruct (step_tracks _ _ _ _ _ id r t k n Hstep (inv_cache a Hi) Ht Hc ltac:(lia))
    as (n1 & Hn1 & Ht1 & Hid).
  assert (adaptive_inv a1) as Hi1.
  { destruct (keep_call_inv c s) as (k2 & s2 & Ek2 & Hs2 & _); [unfold sampler_inv; by rewrite Ha|].
    rewrite Ek in Ek2. by injection Ek2 as <- <-. }
  destruct (IH _ n1 (set_adaptive a1 s) a1 Hm eq_refl Hi1 Ht1 ltac:(lia) ltac:(lia) Hcs Hrun)
    as (a' & k' & n' & Ha' & Hm' & Emode & Eslow & Ht' & Hk & Hag).
  exists a', k', n'. split_and!; try done.
  - intros Htrue. apply Hk. case_decide as Hd; [by apply Hid|done].
  - intros Hmode. rewrite (Hag Hmode). cbn [existsb]. rewrite orb_assoc.
    change (exception_of (set_adaptive a1 s) id) with (exception_of s id). f_equal.
    unfold exception_of at 1. case_decide as Hd.
    + rewrite bool_decide_eq_true_2 by done. cbn [andb].
      rewrite <- Hd in Ht. by rewrite (Hagent Hmode _ (live_tracks _ _ _ _ _ _ _ Ht Hc)).
    + rewrite bool_decide_eq_false_2 by done. cbn. by rewrite orb_false_r.
Qed.

Lemma hit_monotone id now a k a' r t k0 n :
  cache_step id now a k a' -> tracks id r t k0 n a -> time_sub now t < decisionTTL ->
  k0 = true -> k = true.
Proof.
  intros [d k1 a1 El Hk _ _ _ _|b k1 a1 El _ _ _ _ _ _ _ _] Ht Hnow;
    rewrite (live_tracks _ _ _ _ _ _ _ Ht Hnow) in El; [|done].
  injection El as <-. exact Hk.
Qed.

Lemma first_decision_tracks id now a k a' :
  cache_step id now a k a' -> adaptive_inv a -> live_decision now id a = None ->
  exists r, tracks id r now k 0 a'.
Proof.
  intros [d k1 a1 El|b k1 a1 El E1 E2 E3 E4 E5 E6 E7 E8] Hi Hnone; [congruence|].
  exists (allocs b). apply (tracks_same _ _ _ _ _ (remember id k1 now b)); try done.
  apply remember_tracks_new. destruct Hi as [[] _ _]. split; rewrite ?E1, ?E2, ?E3, ?E4; done.
Qed.

(** C22: From the initial state and after any sequence of policy updates, rate updates
    and spans, valid or not, no call panics; the adaptive state holds at most 16384
    decisions, 128 services and 2048 rare keys; and an error or a slow span is kept. *)
Theorem sampler_safe (rate0 : f64) (slow : Z) (os : list op) :
  exists s, run_ops os (New rate0 slow) = Some s /\
    (forall a, adaptive s = Some a ->
       (size (decisions a) <= Z.to_nat maxAdaptiveDecisions)%nat /\
       (size (services a) <= Z.to_nat maxAdaptiveServices)%nat /\
       (size (rare a) <= 2048)%nat) /\
    (forall c, exists k s', keep_call c s = Some (k, s') /\
       (exceptional (c_status c) (c_duration c) s = true -> k = true)).
Proof.
  destruct (run_ops_inv os (New rate0 slow)) as (s & Hrun & Hs); [done|].
  exists s. split; [exact Hrun|]. split.
  - unfold sampler_inv in Hs. intros a Ha. rewrite Ha in Hs. destruct Hs as [Hc Hsv Hr].
    split_and!; [by apply cache_inv_bound | exact (bounded_size 127 _ Hsv) | by apply bounded_size].
  - intros c. destruct (keep_call_inv c s Hs) as (k & s' & E & _ & He). by exists k, s'.
Qed.

(** In the adaptive modes the answer about a trace is stable.  Suppose that after
    any history the first decision about a trace is taken by the call [c], and that at
    most 16383 other decisions follow, all within the minute: if the trace was kept, a
    later span of it is kept; and in agent mode the later answer is exactly the first
    one, or true when the trace had an error or a slow span in between. *)
Theorem trace_decision_stable (rate0 : f64) (slow : Z) (os : list op) (s : Sampler) (c c' : call)
    (cs : list call) (k k' : bool) (s1 s2 s3 : Sampler) :
  run_ops os (New rate0 slow) = Some s ->
  adaptive_mode s ->
  (forall a, adaptive s = Some a -> live_decision (c_now c) (trace_key ToLower (c_trace c)) a = None) ->
  keep_call c s = Some (k, s1) ->
  keep_all cs s1 = Some s2 ->
  keep_call c' s2 = Some (k', s3) ->
  same_trace c c' ->
  Z.of_nat (length cs) < maxAdaptiveDecisions ->
  Forall (fun x => time_sub (c_now x) (c_now c) < decisionTTL) (cs ++ [c']) ->
  (k = true -> k' = true) /\
  (mode s = "adaptive_agent" ->
     k' = k || existsb (exception_of s (trace_key ToLower (c_trace c))) (cs ++ [c'])).
Proof.
  intros Hrun Hm Hnew Hc Hcs Hc' Hsame Hlen Hnow.
  destruct (run_ops_inv os (New rate0 slow)) as (s_ & Hrun_ & Hs); [done|].
  rewrite Hrun in Hrun_. injection Hrun_ as <-.
  destruct (keep_call_adaptive c s k s1 Hm Hc) as (a & a1 & Ha & -> & Hstep & _).
  assert (adaptive_inv a) as Hi by (by unfold sampler_inv in Hs; rewrite Ha in Hs).
  destruct (first_decision_tracks _ _ _ _ _ Hstep Hi (Hnew a Ha)) as [r Ht].
  assert (adaptive_inv a1) as Hi1.
  { destruct (keep_call_inv c s Hs) as (k2 & s2' & Ek2 & Hs2 & _).
    rewrite Hc in Ek2. by injection Ek2 as <- <-. }
  apply Forall_app in Hnow as [Hnow Hlast].
  apply Forall_cons in Hlast as [Hlast _].
  destruct (keep_all_tracks cs _ r (c_now c) k 0 (set_adaptive a1 s) s2 a1 Hm eq_refl Hi1 Ht
      ltac:(lia) ltac:(lia) Hnow Hcs)
    as (a2 & k2 & n2 & Ha2 & Hm2 & Emode & Eslow & Ht2 & Hk2 & Hag).
  destruct (keep_call_adaptive c' s2 k' s3 Hm2 Hc') as (a2' & a3 & Ha2' & -> & Hstep' & Hagent).
  rewrite Ha2 in Ha2'. injection Ha2' as <-. unfold same_trace in Hsame. rewrite <- Hsame in *.
  split.
  { intros Htrue. exact (hit_monotone _ _ _ _ _ _ _ _ _ Hstep' Ht2 Hlast (Hk2 Htrue)). }
  intros Hmode. cbn in Emode, Eslow. rewrite existsb_app. cbn [existsb].
  rewrite (Hagent ltac:(congruence) _ (live_tracks _ _ _ _ _ _ _ Ht2 Hlast)). cbn [keeps].
  rewrite (Hag Hmode), orb_false_r, orb_assoc. f_equal.
  unfold exception_of. rewrite bool_decide_eq_true_2 by done. cbn [andb].
  unfold exceptional. by rewrite Eslow.
Qed.
End props.

Definition example_policy : Policy := mk_policy "adaptive_agent" f64_one 1000 f64_one "".
Definition example_call (t : Z) (id : string) (status : Z) : call :=
  mk_call (1700000000 * second + t) id "checkout" "prod" "" status 2 1000.

Definition example_s : Sampler := (ApplyPolicy example_policy (New f64_one 0)).2.
Definition example_s1 : Sampler := match keep_call id (example_call 0 "a" 0) example_s with Some p => p.2 | None => example_s end.
Definition example_cs : list call := [example_call 1 "b" 0; example_call 2 "c" 2].
Definition example_s2 : Sampler := default example_s (keep_all id example_cs example_s1).

Lemma trace_decision_stable_witness :
  fst <$> keep_call id (example_call 3 "a" 0) example_s2 = Some true /\
  forall k' s3, keep_call id (example_call 3 "a" 0) example_s2 = Some (k', s3) -> k' = true.
Proof.
  refine (conj _ _).
  { vm_compute. reflexivity. } intros k' s3 H.
  refine (proj1 (trace_decision_stable id f64_one 0 [OPolicy example_policy] example_s
    (example_call 0 "a" 0) (example_call 3 "a" 0) example_cs true k' example_s1 example_s2 s3
    _ _ _ _ _ H _ _ _) _).
  - vm_compute. reflexivity.
  - refine (conj _ (or_introl _)); vm_compute; reflexivity.
  - intros a Ha. assert (adaptive example_s = Some new_adaptive) as E by (vm_compute; reflexivity).
    rewrite E in Ha. assert (a = new_adaptive) as -> by congruence. vm_compute. reflexivity.
  - vm_compute. reflexivity.
  - vm_compute. reflexivity.
  - vm_compute. reflexivity.
  - vm_compute. reflexivity.
  - repeat constructor; vm_compute; reflexivity.
  - reflexivity.
Defined.
End SamplerProps.
