(* ===== verification/Latency.v ===== *)
(** * Latency sketches (internal/latency/sketch.go)

    A distribution as counts in logarithmic bins, its merge, and the binary format
    shared with the backend, down to the varints of encoding/binary.

    The bin of a value, [int32(math.Ceil(math.Log(value)*multiplier))], needs the
    logarithm of the math library and is an argument. *)

From stdpp Require Import sorting.
From S2P Require Import Prelude GoStrings Wire GoFloat.
#[local] Open Scope Z_scope.

Module Latency.

(** ** Varints (encoding/binary) *)

(** [binary.AppendUvarint]: at most ten bytes for 64 bits. *)
Fixpoint uvarint_go (n : nat) (x : Z) : list Z :=
  match n with
  | O => []
  | S n => if x <? 128 then [x] else Z.lor (wrap 8 x) 128 :: uvarint_go n (Z.shiftr x 7)
  end.
Definition uvarint (x : Z) : list Z := uvarint_go 10 x.

(** [binary.Uvarint] with the bytes that follow; None is a count of bytes that is not
    positive. *)
Fixpoint read_uvarint_go (b : list Z) (i x s : Z) : option (Z * list Z) :=
  match b with
  | [] => None
  | c :: b =>
      if i =? 10 then None
      else if c <? 128 then
        if (i =? 9) && (1 <? c) then None else Some (Z.lor x (u64 (Z.shiftl c s)), b)
      else read_uvarint_go b (i + 1) (Z.lor x (u64 (Z.shiftl (Z.land c 127) s))) (s + 7)
  end.
Definition read_uvarint (b : list Z) : option (Z * list Z) := read_uvarint_go b 0 0 0.

(** [binary.AppendVarint] and [binary.Varint]: zig-zag. *)
Definition zigzag (x : Z) : Z :=
  let ux := u64 (Z.shiftl (u64 x) 1) in if x <? 0 then u64 (Z.lnot ux) else ux.
Definition unzigzag (ux : Z) : Z :=
  let x := i64 (Z.shiftr ux 1) in if Z.land ux 1 =? 0 then x else Z.lnot x.
Definition varint (x : Z) : list Z := uvarint (zigzag x).
Definition read_varint (b : list Z) : option (Z * list Z) :=
  match read_uvarint b with Some (ux, b) => Some (unzigzag ux, b) | None => None end.

(** ** Sketches *)

Definition magic : Z := 254.
Definition version : Z := 1.
(** The literal 1e-9. *)
Definition minValue : f64 := f_lit 4835703278458517 (-82).

Record Sketch := mk_sketch {
  bins : gmap Z Z;
  zeros : Z;
  count : Z;
}.

Definition New : Sketch := mk_sketch ∅ 0 0.

(** [m[i] += w] on 64-bit counts. *)
Definition bump (i w : Z) (m : gmap Z Z) : gmap Z Z := <[i := u64 (default 0 (m !! i) + w)]> m.

Definition Add (bin_of : f64 -> Z) (value : f64) (s : Sketch) : Sketch :=
  if is_nan value then s
  else
    let count := u64 (count s + 1) in
    if negb (flt minValue value) then mk_sketch (bins s) (u64 (zeros s + 1)) count
    else mk_sketch (bump (bin_of value) 1 (bins s)) (zeros s) count.

Definition Count (s : Sketch) : Z := count s.

Definition sortedIndexes (s : Sketch) : list Z := merge_sort Z.le (map_to_list (bins s)).*1.

Definition MergeWith (other s : Sketch) : Sketch :=
  mk_sketch (foldl (fun m e => bump e.1 e.2 m) (bins s) (map_to_list (bins other)))
    (u64 (zeros s + zeros other)) (u64 (count s + count other)).

(** The bins in order: the difference from the previous index, and the weight. *)
Fixpoint encode_bins (previous : Z) (indexes : list Z) (m : gmap Z Z) : list Z :=
  match indexes with
  | [] => []
  | index :: indexes =>
      varint (i64 (index - previous)) ++ uvarint (default 0 (m !! index)) ++
      encode_bins index indexes m
  end.

Definition Encode (s : Sketch) : list Z :=
  let indexes := sortedIndexes s in
  [magic; version] ++ uvarint (zeros s) ++ uvarint (Z.of_nat (length indexes)) ++
  encode_bins 0 indexes (bins s).

Fixpoint decode_bins (n : nat) (index : Z) (b : list Z) (s : Sketch) : res Sketch :=
  match n with
  | O => Ok s
  | S n =>
      match read_varint b with
      | None => Err "latency: resumo truncado"
      | Some (delta, b) =>
          match read_uvarint b with
          | None => Err "latency: resumo truncado"
          | Some (weight, b) =>
              let index := i64 (index + delta) in
              decode_bins n index b
                (mk_sketch (bump (i32 index) weight (bins s)) (zeros s) (u64 (count s + weight)))
          end
      end
  end.

Definition Decode (b : list Z) : res Sketch :=
  match b with
  | m :: v :: b =>
      if negb (m =? magic) || negb (v =? version) then Err "latency: resumo inválido"
      else
        match read_uvarint b with
        | None => Err "latency: resumo truncado"
        | Some (zeros, b) =>
            match read_uvarint b with
            | None => Err "latency: resumo corrompido"
            | Some (n, b') =>
                if Z.of_nat (length b) <? n then Err "latency: resumo corrompido"
                else decode_bins (Z.to_nat n) 0 b' (mk_sketch ∅ zeros zeros)
            end
        end
  | _ => Err "latency: resumo inválido"
  end.

(** [Quantile]: [valueOf] is the middle of a bin, which needs the power of the math
    library. *)
Fixpoint find_rank (valueOf : Z -> f64) (m : gmap Z Z) (rank seen : f64) (indexes : list Z)
    : option f64 :=
  match indexes with
  | [] => None
  | index :: indexes =>
      let seen := fadd seen (f_of_Z (default 0 (m !! index))) in
      if flt rank seen then Some (valueOf index) else find_rank valueOf m rank seen indexes
  end.

Definition Quantile (valueOf : Z -> f64) (q : f64) (s : Sketch) : f64 :=
  if flt q f64_zero || flt f64_one q || (count s =? 0) then S754_nan
  else
    let rank := fmul q (f_of_Z (u64 (count s - 1))) in
    if flt rank (f_of_Z (zeros s)) then f64_zero
    else
      let indexes := sortedIndexes s in
      match find_rank valueOf (bins s) rank (f_of_Z (zeros s)) indexes with
      | Some v => v
      | None => match last indexes with Some index => valueOf index | None => f64_zero end
      end.
End Latency.

(** * Latency sketches: properties

    What is encoded decodes to itself, and merging the sketches of two sequences of
    values gives the sketch of both, so that partial summaries can be merged. *)

Module LatencyProps.
Import Latency.

(** ** Varints *)

Lemma lor_add a b s : 0 <= s -> 0 <= a < 2 ^ s -> Z.lor a (Z.shiftl b s) = a + b * 2 ^ s.
Proof.
  intros Hs Ha. rewrite <- Z.shiftl_mul_pow2 by done.
  rewrite <- Z.add_lor_land.
  assert (Z.land a (Z.shiftl b s) = 0) as ->; [|lia].
  apply Z.bits_inj'. intros n Hn. rewrite Z.land_spec, Z.bits_0.
  destruct (Z.lt_ge_cases n s) as [Hlt|Hge].
  - by rewrite Z.shiftl_spec_low, andb_false_r.
  - rewrite <- (Z.mod_small a (2 ^ s)) by done. by rewrite Z.mod_pow2_bits_high by lia.
Qed.

Lemma low_byte z : 0 <= z < 256 -> Z.lor z 128 = 128 + z mod 128 /\ Z.land (128 + z mod 128) 127 = z mod 128.
Proof.
  intros Hz.
  assert (forallb (fun z => (Z.lor z 128 =? 128 + z mod 128) &&
                            (Z.land (128 + z mod 128) 127 =? z mod 128)) (seqZ 0 256) = true) as H
    by (vm_compute; reflexivity).
  rewrite forallb_forall in H. specialize (H z). rewrite <- list_elem_of_In, elem_of_seqZ in H.
  apply andb_prop in H as [?%Z.eqb_eq ?%Z.eqb_eq]; [done|lia].
Qed.

Lemma read_uvarint_go_spec n i x acc rest :
  0 <= i <= 9 -> 10 - i <= Z.of_nat n -> 0 <= x < 2 ^ (64 - 7 * i) -> 0 <= acc < 2 ^ (7 * i) ->
  read_uvarint_go (uvarint_go n x ++ rest) i acc (7 * i) = Some (acc + x * 2 ^ (7 * i), rest).
Proof.
  revert i x acc. induction n as [|n IH]; intros i x acc Hi Hn Hx Hacc; [lia|].
  assert (2 ^ 64 = 2 ^ (64 - 7 * i) * 2 ^ (7 * i)) as E64 by (rewrite <- Z.pow_add_r; f_equal; lia).
  pose proof (Z.pow_pos_nonneg 2 (7 * i) ltac:(lia) ltac:(lia)) as Hpos.
  cbn [uvarint_go]. destruct (x <? 128) eqn:E; cbn [app read_uvarint_go].
  - assert ((i =? 10) = false) as -> by (apply Z.eqb_neq; lia). rewrite E.
    assert (((i =? 9) && (1 <? x))%bool = false) as ->.
    { destruct (Z.eqb_spec i 9) as [->|]; [|done]. cbn in Hx. apply Z.ltb_ge. lia. }
    rewrite u64_small by (unfold in_u64; rewrite Z.shiftl_mul_pow2 by lia; nia).
    by rewrite lor_add by lia.
  - apply Z.ltb_ge in E. destruct (low_byte (wrap 8 x)) as [-> El]; [apply (wrap_range 8); lia|].
    assert (wrap 8 x mod 128 = x mod 128) as Em.
    { unfold wrap. change (2 ^ 8) with 256. Z.to_euclidean_division_equations. lia. }
    rewrite Em in *. pose proof (Z.mod_pos_bound x 128 ltac:(lia)) as Hm.
    assert ((i =? 10) = false) as -> by (apply Z.eqb_neq; lia).
    assert ((128 + x mod 128 <? 128) = false) as -> by (apply Z.ltb_ge; lia). rewrite El.
    assert (i < 9) as Hi9.
    { destruct (Z.eq_dec i 9) as [->|]; [cbn in Hx; lia | lia]. }
    assert (2 ^ (7 * (i + 1)) = 128 * 2 ^ (7 * i)) as E7.
    { replace (7 * (i + 1)) with (7 + 7 * i) by lia. by rewrite Z.pow_add_r by lia. }
    assert (2 ^ (64 - 7 * i) = 128 * 2 ^ (64 - 7 * (i + 1))) as E8.
    { replace (64 - 7 * i) with (7 + (64 - 7 * (i + 1))) by lia. by rewrite Z.pow_add_r by lia. }
    rewrite u64_small by (unfold in_u64; rewrite Z.shiftl_mul_pow2 by lia; nia).
    rewrite lor_add by lia. replace (7 * i + 7) with (7 * (i + 1)) by lia.
    rewrite Z.shiftr_div_pow2 by lia. change (2 ^ 7) with 128.
    pose proof (Z.div_mod x 128 ltac:(lia)) as Hd.
    rewrite IH; [|lia|lia| |nia].
    + f_equal. f_equal. rewrite E7. nia.
    + split; [apply Z.div_pos; lia|]. apply Z.div_lt_upper_bound; lia.
Qed.

Lemma read_uvarint_spec x rest : in_u64 x -> read_uvarint (uvarint x ++ rest) = Some (x, rest).
Proof.
  intros Hx. unfold read_uvarint, uvarint.
  pose proof (read_uvarint_go_spec 10 0 x 0 rest) as H. change (7 * 0) with 0 in H.
  rewrite H; [|lia|lia|exact Hx|lia]. do 2 f_equal. change (2 ^ 0) with 1. lia.
Qed.

Lemma uvarint_nonempty x : (1 <= length (uvarint x))%nat.
Proof. unfold uvarint. cbn [uvarint_go]. case_match; cbn; lia. Qed.

Lemma zigzag_range x : in_u64 (zigzag x).
Proof. unfold zigzag. case_match; apply u64_range. Qed.

Lemma unzigzag_zigzag x : in_i64 x -> unzigzag (zigzag x) = x.
Proof.
  unfold in_i64. intros Hx. unfold zigzag, unzigzag. rewrite !Z.shiftl_mul_pow2 by lia. change (2 ^ 1) with 2.
  destruct (x <? 0) eqn:E.
  - apply Z.ltb_lt in E.
    assert (u64 (u64 x * 2) = 2 ^ 64 + 2 * x) as ->.
    { unfold wrap. rewrite Zmult_mod_idemp_l. symmetry. apply (Z.mod_unique_pos _ _ (-1)); lia. }
    assert (u64 (Z.lnot (2 ^ 64 + 2 * x)) = - 2 * x - 1) as ->.
    { unfold Z.lnot, wrap. symmetry. apply (Z.mod_unique_pos _ _ (-1)); lia. }
    rewrite Z.shiftr_div_pow2 by lia. change (2 ^ 1) with 2.
    assert ((-2 * x - 1) / 2 = - x - 1) as -> by (symmetry; apply (Z.div_unique_pos _ _ _ 1); lia).
    rewrite i64_small by (unfold in_i64; lia).
    assert (Z.land (-2 * x - 1) 1 = 1) as ->.
    { change 1 with (Z.ones 1) at 2. rewrite Z.land_ones by lia. symmetry.
      apply (Z.mod_unique_pos _ _ (- x - 1)); lia. }
    cbn. unfold Z.lnot. lia.
  - apply Z.ltb_ge in E. rewrite (u64_small x) by (unfold in_u64; lia).
    rewrite u64_small by (unfold in_u64; lia).
    rewrite Z.shiftr_div_pow2 by lia. change (2 ^ 1) with 2. rewrite Z.div_mul by lia.
    rewrite i64_small by (unfold in_i64; lia).
    assert (Z.land (x * 2) 1 = 0) as ->; [|done].
    change 1 with (Z.ones 1). rewrite Z.land_ones by lia. change (2 ^ 1) with 2. by apply Z.mod_mul.
Qed.

Lemma read_varint_spec x rest : in_i64 x -> read_varint (varint x ++ rest) = Some (x, rest).
Proof.
  intros Hx. unfold read_varint, varint. rewrite read_uvarint_spec by apply zigzag_range.
  by rewrite unzigzag_zigzag.
Qed.

(** ** Round trip *)

Definition weight (m : gmap Z Z) (i : Z) : Z := default 0 (m !! i).

(** The counts are those of a sketch: 32-bit indexes, 64-bit weights, and a total that
    is the sum of the weights and the zeros. *)
Record well_formed (s : Sketch) : Prop := {
  wf_bins : forall i w, bins s !! i = Some w -> in_i32 i /\ in_u64 w;
  wf_size : Z.of_nat (size (bins s)) < 2 ^ 63;
  wf_zeros : in_u64 (zeros s);
  wf_count : count s = u64 (zeros s + map_sum (fun _ w => w) (bins s));
}.

Lemma sorted_indexes_perm s : sortedIndexes s ≡ₚ (map_to_list (bins s)).*1.
Proof. apply merge_sort_Permutation. Qed.

Lemma elem_of_indexes s i : i ∈ sortedIndexes s <-> is_Some (bins s !! i).
Proof.
  rewrite sorted_indexes_perm, list_elem_of_fmap. split.
  - intros ([i' w] & -> & H%elem_of_map_to_list). by exists w.
  - intros [w Hw]. exists (i, w). split; [done|]. by apply elem_of_map_to_list.
Qed.

Lemma weights_sum (m : gmap Z Z) : sumZ (weight m) (map_to_list m).*1 = map_sum (fun _ w => w) m.
Proof.
  unfold map_sum. rewrite map_fold_foldr.
  assert (forall l, (forall e, e ∈ l -> m !! e.1 = Some e.2) ->
    sumZ (weight m) l.*1 = foldr (uncurry (fun (_ : Z) w n => w + n)) 0 l) as H.
  { induction l as [|[i w] l IH]; intros Hl; [done|]. cbn [fmap list_fmap sumZ foldr uncurry fst].
    unfold sumZ in IH. rewrite IH by (intros e He; apply Hl; by right).
    pose proof (Hl (i, w) ltac:(left)) as E. cbn [fst snd] in E. unfold weight. by rewrite E. }
  apply H. intros [i w] He. by apply elem_of_map_to_list in He.
Qed.

Lemma encode_bins_length prev l m : (length l <= length (encode_bins prev l m))%nat.
Proof.
  revert prev. induction l as [|i l IH]; intros prev; cbn [encode_bins length]; [lia|].
  rewrite !length_app. specialize (IH i). pose proof (uvarint_nonempty (zigzag (i64 (i - prev)))).
  unfold varint. lia.
Qed.

Lemma decode_encode_bins m l prev (s : Sketch) :
  NoDup l -> (forall i, i ∈ l -> in_i32 i /\ in_u64 (weight m i) /\ bins s !! i = None) ->
  in_i32 prev -> in_u64 (count s) ->
  decode_bins (length l) prev (encode_bins prev l m) s =
  Ok (mk_sketch (foldl (fun b i => <[i := weight m i]> b) (bins s) l) (zeros s)
        (u64 (count s + sumZ (weight m) l))).
Proof.
  revert prev s. induction l as [|i l IH]; intros prev s Hnd Hl Hp Hc; cbn [length decode_bins encode_bins foldl].
  { cbn. rewrite Z.add_0_r, u64_small by done. by destruct s. }
  apply NoDup_cons in Hnd as [Hnin Hnd].
  destruct (Hl i ltac:(left)) as (Hi & Hw & Hnone).
  unfold in_i32 in *. rewrite (i64_small (i - prev)) by (unfold in_i64; lia).
  rewrite read_varint_spec by (unfold in_i64; lia).
  rewrite read_uvarint_spec by exact Hw. rewrite (i64_small (prev + (i - prev))) by (unfold in_i64; lia).
  replace (prev + (i - prev)) with i by lia. rewrite i32_small by (unfold in_i32; lia).
  assert (bump i (weight m i) (bins s) = <[i := weight m i]> (bins s)) as Eb.
  { unfold bump. rewrite Hnone. cbn [from_option id]. by rewrite u64_small. }
  fold (weight m i). rewrite Eb, IH; [|done| |lia|apply u64_range].
  - cbn [bins zeros count]. unfold sumZ. cbn [foldr]. rewrite wrap_add_l. do 3 f_equal. lia.
  - intros j Hj. destruct (Hl j ltac:(by right)) as (? & ? & Hjn). split_and!; [lia|lia|done|].
    cbn [bins]. rewrite lookup_insert_ne; [done|]. by intros ->.
Qed.

Lemma foldl_insert_lookup m l (b : gmap Z Z) k :
  foldl (fun b i => <[i := weight m i]> b) b l !! k = if decide (k ∈ l) then Some (weight m k) else b !! k.
Proof.
  revert b. induction l as [|i l IH]; intros b; cbn [foldl].
  { rewrite decide_False; [done | apply not_elem_of_nil]. }
  rewrite IH. destruct (decide (k ∈ l)) as [Hin|Hnin].
  - by rewrite decide_True by (by right).
  - destruct (decide (k = i)) as [->|Hne].
    + rewrite lookup_insert_eq, decide_True; [done|left].
    + rewrite lookup_insert_ne by done. rewrite decide_False; [done|].
      intros [?|?]%elem_of_cons; done.
Qed.

(** C20: The binary format is exact: decoding the encoding of a sketch gives the sketch,
    bins, zeros and total, through varints of up to ten bytes and signed differences of
    indexes. *)
Theorem sketch_roundtrip (s : Sketch) : well_formed s -> Decode (Encode s) = Ok s.
Proof.
  intros [Hb Hsize Hz Hc]. unfold Encode, Decode. cbn [app]. rewrite !Z.eqb_refl. cbn [negb orb].
  assert (length (sortedIndexes s) = size (bins s)) as Elen.
  { rewrite sorted_indexes_perm, length_fmap. apply length_map_to_list. }
  rewrite read_uvarint_spec by done.
  rewrite read_uvarint_spec by (unfold in_u64; lia).
  assert ((Z.of_nat (length (uvarint (Z.of_nat (length (sortedIndexes s))) ++
            encode_bins 0 (sortedIndexes s) (bins s))) <? Z.of_nat (length (sortedIndexes s))) = false) as ->.
  { apply Z.ltb_ge. rewrite length_app.
    pose proof (encode_bins_length 0 (sortedIndexes s) (bins s)). lia. }
  rewrite Nat2Z.id, decode_encode_bins.
  - cbn [bins zeros count]. rewrite (sumZ_perm _ _ _ (sorted_indexes_perm s)), weights_sum, <- Hc.
    destruct s as [b z c]. cbn [bins zeros count] in *. do 2 f_equal. apply map_eq. intros k.
    rewrite foldl_insert_lookup, lookup_empty. unfold weight. case_decide as Hk.
    + apply elem_of_indexes in Hk as [w Hw]. cbn in Hw. by rewrite Hw.
    + destruct (b !! k) as [w|] eqn:E; [|done]. destruct Hk. apply elem_of_indexes. by exists w.
  - rewrite sorted_indexes_perm. apply NoDup_fst_map_to_list.
  - intros i [w Hw]%elem_of_indexes. destruct (Hb i w Hw). unfold weight. rewrite Hw. cbn.
    by rewrite lookup_empty.
  - unfold in_i32. lia.
  - exact Hz.
Qed.

(** ** Merging *)

Lemma foldl_bump_lookup (l : list (Z * Z)) (b : gmap Z Z) k :
  NoDup l.*1 ->
  foldl (fun m e => bump e.1 e.2 m) b l !! k =
  match (list_to_map l : gmap Z Z) !! k with
  | Some w => Some (u64 (default 0 (b !! k) + w))
  | None => b !! k
  end.
Proof.
  revert b. induction l as [|[i w] l IH]; intros b Hnd; cbn [foldl fst snd].
  { cbn [list_to_map foldr]. by rewrite lookup_empty. }
  cbn in Hnd. apply NoDup_cons in Hnd as [Hnin Hnd]. rewrite (IH _ Hnd). cbn [list_to_map foldr fst snd].
  unfold bump. destruct (decide (i = k)) as [->|Hne].
  - assert ((list_to_map l : gmap Z Z) !! k = None) as -> by (by apply not_elem_of_list_to_map_1).
    by rewrite !lookup_insert_eq.
  - by rewrite !lookup_insert_ne.
Qed.

Lemma merge_bins (s t : Sketch) k :
  bins (MergeWith t s) !! k =
  match bins t !! k with Some w => Some (u64 (default 0 (bins s !! k) + w)) | None => bins s !! k end.
Proof.
  unfold MergeWith. cbn [bins]. rewrite foldl_bump_lookup by apply NoDup_fst_map_to_list.
  by rewrite list_to_map_to_list.
Qed.

Section values.
Variable bin_of : f64 -> Z.

Definition sketch_of (l : list f64) : Sketch := foldl (fun s v => Add bin_of v s) New l.

Lemma sketch_of_snoc l v : sketch_of (l ++ [v]) = Add bin_of v (sketch_of l).
Proof. unfold sketch_of. by rewrite foldl_app. Qed.

Lemma sketch_of_range l : in_u64 (zeros (sketch_of l)) /\ in_u64 (count (sketch_of l)).
Proof.
  induction l as [|v l IH] using rev_ind; [unfold in_u64; cbn; lia|]. rewrite sketch_of_snoc.
  unfold Add. case_match; [done|]. case_match; cbn [zeros count]; split; try apply u64_range; apply IH.
Qed.

Lemma Add_merge v s t : MergeWith (Add bin_of v t) s = Add bin_of v (MergeWith t s).
Proof.
  unfold Add. destruct (is_nan v); [done|].
  destruct (negb (flt minValue v)).
  - unfold MergeWith. cbn [bins zeros count]. by rewrite !wrap_add_r, !wrap_add_l, !Z.add_assoc.
  - set (i := bin_of v). set (t' := mk_sketch (bump i 1 (bins t)) (zeros t) (u64 (count t + 1))).
    assert (bins (MergeWith t' s) = bump i 1 (bins (MergeWith t s))) as Eb.
    { apply map_eq. intros k. rewrite merge_bins. unfold t'. cbn [bins]. unfold bump.
      destruct (decide (i = k)) as [<-|Hne].
      - rewrite !lookup_insert_eq, merge_bins. f_equal.
        destruct (bins t !! i) as [w|]; cbn [from_option id].
        + rewrite wrap_add_r, wrap_add_l. f_equal. lia.
        + by rewrite wrap_add_r.
      - rewrite !lookup_insert_ne by done. by rewrite merge_bins. }
    assert (count (MergeWith t' s) = u64 (count (MergeWith t s) + 1)) as Ec.
    { unfold MergeWith, t'. cbn [count]. rewrite wrap_add_r, wrap_add_l. f_equal. lia. }
    rewrite <- Eb, <- Ec. by destruct (MergeWith t' s) eqn:E; cbn; rewrite <- E in *; unfold MergeWith in *; cbn in *; congruence.
Qed.

(** Merging is exact: the merge of the sketches of two sequences of values is the
    sketch of the two sequences together, with the 64-bit counts wrapping the same
    way. *)
Theorem merge_is_concat (l k : list f64) :
  MergeWith (sketch_of k) (sketch_of l) = sketch_of (l ++ k).
Proof.
  induction k as [|v k IH] using rev_ind.
  - rewrite app_nil_r. destruct (sketch_of_range l) as [Hz Hc]. unfold MergeWith.
    cbn [sketch_of New bins zeros count foldl]. rewrite !Z.add_0_r, !u64_small by done.
    rewrite map_to_list_empty. cbn [foldl]. by destruct (sketch_of l).
  - by rewrite app_assoc, !sketch_of_snoc, Add_merge, IH.
Qed.

Lemma bump_sum (i : Z) (m : gmap Z Z) :
  u64 (map_sum (fun _ w => w) (bump i 1 m)) = u64 (map_sum (fun _ w => w) m + 1).
Proof.
  unfold bump. rewrite map_sum_insert_any.
  destruct (m !! i) as [w|]; cbn [from_option id]; rewrite wrap_add_r; f_equal; lia.
Qed.

(** Every sketch of values whose bins are 32-bit indexes is well formed. *)
Lemma sketch_of_well_formed (l : list f64) :
  (forall v, in_i32 (bin_of v)) -> Z.of_nat (length l) < 2 ^ 63 -> well_formed (sketch_of l).
Proof.
  intros Hbin Hlen.
  assert (size (bins (sketch_of l)) <= length l)%nat as Hsize.
  { clear Hlen. induction l as [|v l IH] using rev_ind; [done|].
    rewrite sketch_of_snoc, length_app. cbn [length]. unfold Add. case_match; [lia|].
    case_match; cbn [bins]; [lia|]. unfold bump. rewrite map_size_insert. case_match; unfold id; lia. }
  destruct (sketch_of_range l) as [Hz _].
  split; [|lia|done|]; clear Hlen Hsize.
  - induction l as [|v l IH] using rev_ind; [intros i w; cbn; by rewrite lookup_empty|].
    rewrite sketch_of_snoc. destruct (sketch_of_range l) as [Hz' _]. specialize (IH Hz').
    unfold Add. case_match; [done|]. case_match; [done|]. cbn [bins]. unfold bump.
    intros i w [[<- <-]|[_ Hi]]%lookup_insert_Some; [split; [apply Hbin | apply u64_range] | by apply IH].
  - induction l as [|v l IH] using rev_ind; [cbn; by rewrite map_sum_empty|].
    destruct (sketch_of_range l) as [Hz' _]. specialize (IH Hz'). revert Hz. rewrite sketch_of_snoc.
    unfold Add. case_match; [done|]. case_match; cbn [zeros count bins]; intros _; rewrite IH.
    + rewrite !wrap_add_l. f_equal. lia.
    + rewrite wrap_add_l, <- (wrap_add_r _ (zeros _) (map_sum _ (bump _ _ _))), bump_sum, wrap_add_r.
      f_equal. lia.
Qed.
End values.

(** The counts of the latencies 1, 2, 2, 5, 8, 30, 40, 40, 120 and 900 ms, whose
    encoding is fixed by both ends. *)
Definition example_sketch : Sketch :=
  mk_sketch (list_to_map [(691, 1); (726, 2); (772, 1); (795, 1); (861, 1); (876, 2); (931, 1); (1031, 1)]) 0 10.

Lemma example_encoding :
  Encode example_sketch =
  [254; 1; 0; 8; 230; 10; 1; 70; 2; 92; 1; 46; 1; 132; 1; 1; 30; 2; 110; 1; 200; 1; 1].
Proof. vm_compute. reflexivity. Qed.

Lemma sketch_roundtrip_witness :
  Decode (Encode (sketch_of (fun _ => 7) [f64_one; f64_zero; f64_one])) =
  Ok (sketch_of (fun _ => 7) [f64_one; f64_zero; f64_one]).
Proof.
  apply sketch_roundtrip. apply sketch_of_well_formed.
  - intros _. unfold in_i32. lia.
  - cbn. lia.
Defined.
End LatencyProps.
