(* ===== verification/Concentrator.v ===== *)
(** * The APM concentrator (internal/apm/concentrator, internal/apm/primarytags)

    Spans are counted in groups of ten seconds, before any sampling, with the latencies
    of each group in two sketches; a flush hands the groups over and starts again.

    The JSON encoding of the primary tags and the recognition of an unspecified IP
    address belong to the Standard Library and are arguments, like the bin of a value
    ([Latency]). *)

From S2P Require Import Prelude GoStrings Wire GoFloat Latency.
#[local] Open Scope Z_scope.

(** ** Keys of primary tags (primarytags/metadata.go) *)

Module PrimaryTags.

Definition alnum (z : Z) : bool :=
  is_digit z || ((65 <=? z) && (z <=? 90)) || ((97 <=? z) && (z <=? 122)).

(** [^[a-zA-Z0-9][a-zA-Z0-9_./-]*$]. *)
Definition keyPattern (s : string) : bool :=
  match bytes_of s with
  | [] => false
  | c :: l => alnum c && forallb (fun z => alnum z || (z =? 95) || (z =? 46) || (z =? 47) || (z =? 45)) l
  end.

Definition ValidKey (key : string) : bool :=
  if 384 <? str_len key then false
  else if existsb (String.eqb key) ["host"; "kube_cluster_name"; "kube_namespace"; "kube_node"] then true
  else
    let suffix := if has_prefix "host.tag." key then trim_prefix "host.tag." key
                  else if has_prefix "kube_label." key then trim_prefix "kube_label." key
                  else "" in
    keyPattern suffix.
End PrimaryTags.

Module Concentrator.

Definition BucketDuration : Z := 10 * second.
Definition SourceAttr : string := "telvyn.source".
Definition DatabaseMonitorIDAttr : string := "telvyn.database_monitor_id".
Definition PrimaryTagPrefix : string := "telvyn.verified_primary.".

Record GroupedStats := mk_grouped {
  BucketStartUnixNano : Z;
  Env : string;
  Service : string;
  Resource : string;
  Operation : string;
  SpanKind : Z;
  HTTPStatusCode : Z;
  Hits : Z;
  Errors : Z;
  DurationSumNano : Z;
  MaxDurationNano : Z;
  TopLevel : bool;
  GSource : string;
  DbSystem : string;
  DatabaseMonitorID : string;
  GNamespace : string;
  Peer : string;
  ServiceVersion : string;
  PrimaryTags : tagmap;
  OkSummary : option (list Z);
  ErrorSummary : option (list Z);
}.

Record bucketKey := mk_key {
  env : string;
  service : string;
  resource : string;
  operation : string;
  spanKind : Z;
  httpStatus : Z;
  source : string;
  dbSystem : string;
  databaseMonitorID : string;
  peer : string;
  serviceVersion : string;
  primaryTags : string;
}.

#[export] Instance bucketKey_eq_dec : EqDecision bucketKey.
Proof. solve_decision. Defined.
#[export] Program Instance bucketKey_countable : Countable bucketKey :=
  inj_countable'
    (fun k => (env k, service k, resource k, operation k, spanKind k, httpStatus k, source k, dbSystem k,
               databaseMonitorID k, peer k, serviceVersion k, primaryTags k))
    (fun x => let '(a, b, c, d, e, f, g, h, i, j, l, m) := x in mk_key a b c d e f g h i j l m) _.
Next Obligation. by intros []. Qed.

Record groupStats := mk_group {
  hits : Z;
  errors : Z;
  durationSumNano : Z;
  maxDurationNano : Z;
  topLevel : bool;
  namespace : string;
  okSketch : Latency.Sketch;
  errSketch : Latency.Sketch;
}.

Record Concentrator := mk_concentrator {
  buckets : gmap Z (gmap bucketKey groupStats);
  primaryKeys : list string;
}.

Definition New : Concentrator := mk_concentrator ∅ [].

Fixpoint check_keys (seen : gset string) (keys : list string) : res unit :=
  match keys with
  | [] => Ok tt
  | key :: keys =>
      if bool_decide (key ∈ seen) then Err "duplicate primary tag"
      else if negb (PrimaryTags.ValidKey key) then Err "unsupported primary tag"
      else check_keys ({[ key ]} ∪ seen) keys
  end.

Definition ApplyPrimaryTags (keys : list string) (c : Concentrator) : res unit * Concentrator :=
  if 2 <? Z.of_nat (length keys) then (Err "at most two primary tags", c)
  else match check_keys ∅ keys with
       | Err e => (Err e, c)
       | Ok _ => (Ok tt, mk_concentrator (buckets c) keys)
       end.

Definition PrimaryTagKeys (c : Concentrator) : list string := primaryKeys c.

(** ** The fields of a key *)

(** The first non-empty attribute among keys. *)
Fixpoint first_attr (keys : list string) (attrs : tagmap) : string :=
  match keys with
  | [] => ""
  | k :: keys => if String.eqb (tag k attrs) "" then first_attr keys attrs else tag k attrs
  end.

Definition resourceOf (s : Span) : string :=
  let attrs := Attributes s in
  if negb (String.eqb (tag "resource.name" attrs) "") then tag "resource.name" attrs
  else
    let method := first_attr ["http.request.method"; "http.method"] attrs in
    let route := tag "http.route" attrs in
    if negb (String.eqb method "") && negb (String.eqb route "") then method +:+ " " +:+ route
    else Name s.

Definition spanSource (s : Span) : string :=
  let v := tag SourceAttr (Attributes s) in if String.eqb v "" then "otlp" else v.

Definition httpStatusOf (attrs : tagmap) : Z :=
  let v := first_attr ["http.response.status_code"; "http.status_code"] attrs in
  if String.eqb v "" then 0 else match atoi v with Some n => i32 n | None => 0 end.

(** [net.JoinHostPort]. *)
Definition join_host_port (host port : string) : string :=
  if contains ":" host then "[" +:+ host +:+ "]:" +:+ port else host +:+ ":" +:+ port.

Definition isErr (s : Span) : bool := StatusCode s =? 2.
Definition entry_kind (kind : Z) : bool := (kind =? 2) || (kind =? 5).

Section concentrator.
Variable unspecified_ip : string -> bool.   (* an IP address that is the unspecified one *)
Variable marshal : tagmap -> string.        (* json.Marshal of a string map *)
Variable unmarshal : string -> tagmap.      (* json.Unmarshal into a string map *)
Variable bin_of : f64 -> Z.

Definition peerOf (s : Span) : string :=
  if negb (Kind s =? 3) && negb (Kind s =? 4) then ""
  else
    let attrs := Attributes s in
    let pod := first_attr ["server.pod"; "peer.service"] attrs in
    if negb (String.eqb pod "") then pod
    else
      let host := first_attr ["server.address"; "net.peer.name"; "net.peer.ip"] attrs in
      if String.eqb host "" then tag "db.system" attrs
      else if unspecified_ip host then ""
      else
        let port := first_attr ["server.port"; "net.peer.port"] attrs in
        if negb (String.eqb port "") && negb (String.eqb port "0") then join_host_port host port else host.

(** ** Add *)

Definition span_valid (s : Span) : bool :=
  negb (StartUnixNano s <=? 0) && negb (EndUnixNano s <? StartUnixNano s).

Definition duration (s : Span) : Z := EndUnixNano s - StartUnixNano s.
Definition bucketStart (s : Span) : Z := StartUnixNano s - Z.rem (StartUnixNano s) BucketDuration.

(** An outbound eBPF span is counted for the client that was observed. *)
Definition client_side (s : Span) : bool :=
  String.eqb (spanSource s) "ebpf" && (Kind s =? 3) &&
  negb (String.eqb (tag "client.pod" (Attributes s)) "").

Definition span_namespace (s : Span) : string :=
  if client_side s then tag "client.namespace" (Attributes s) else Namespace s.

Definition primary_tags (keys : list string) (s : Span) : tagmap :=
  foldl (fun tags key =>
      let value := tag (PrimaryTagPrefix +:+ key) (Attributes s) in
      if String.eqb value "" then tags else <[key := value]> tags) ∅ keys.

Definition key_of (keys : list string) (s : Span) : bucketKey :=
  let attrs := Attributes s in
  mk_key (first_attr ["deployment.environment"; "deployment.environment.name"] attrs)
    (if client_side s then tag "client.pod" attrs else ServiceName s)
    (resourceOf s) (Name s) (Kind s) (httpStatusOf attrs) (spanSource s) (tag "db.system" attrs)
    (tag DatabaseMonitorIDAttr attrs) (peerOf s) (tag "service.version" attrs)
    (marshal (primary_tags keys s)).

Definition new_group (s : Span) : groupStats :=
  mk_group 0 0 0 0 (entry_kind (Kind s)) (span_namespace s) Latency.New Latency.New.

(** The group the span is counted in, before it is counted. *)
Definition find_group (g : option groupStats) (s : Span) : groupStats :=
  match g with
  | None => new_group s
  | Some g =>
      if String.eqb (namespace g) "" && negb (String.eqb (span_namespace s) "")
      then mk_group (hits g) (errors g) (durationSumNano g) (maxDurationNano g) (topLevel g)
             (span_namespace s) (okSketch g) (errSketch g)
      else g
  end.

Definition count_span (s : Span) (g : groupStats) : groupStats :=
  let dur := duration s in
  let add := Latency.Add bin_of (f_of_Z dur) in
  mk_group (u64 (hits g + 1)) (if isErr s then u64 (errors g + 1) else errors g)
    (u64 (durationSumNano g + u64 dur))
    (if maxDurationNano g <? u64 dur then u64 dur else maxDurationNano g) (topLevel g) (namespace g)
    (if isErr s then okSketch g else add (okSketch g))
    (if isErr s then add (errSketch g) else errSketch g).

Definition Add (span : option Span) (c : Concentrator) : Concentrator :=
  match span with
  | None => c
  | Some s =>
      if negb (span_valid s) then c
      else
        let k := key_of (primaryKeys c) s in
        let groups := default ∅ (buckets c !! bucketStart s) in
        let g := count_span s (find_group (groups !! k) s) in
        mk_concentrator (<[bucketStart s := <[k := g]> groups]> (buckets c)) (primaryKeys c)
  end.

(** ** Flush *)

Definition encodeSketch (s : Latency.Sketch) : option (list Z) :=
  if Latency.Count s =? 0 then None else Some (Latency.Encode s).

Definition grouped (b : Z) (k : bucketKey) (g : groupStats) : GroupedStats :=
  mk_grouped b (env k) (service k) (resource k) (operation k) (spanKind k) (httpStatus k)
    (hits g) (errors g) (durationSumNano g) (maxDurationNano g) (topLevel g) (source k) (dbSystem k)
    (databaseMonitorID k) (namespace g) (peer k) (serviceVersion k) (unmarshal (primaryTags k))
    (encodeSketch (okSketch g)) (encodeSketch (errSketch g)).

(** The groups, in the order in which the two maps are enumerated. *)
Definition flush_groups (m : gmap Z (gmap bucketKey groupStats)) : list (Z * bucketKey * groupStats) :=
  map_to_list m ≫= (fun e => (fun kg => (e.1, kg.1, kg.2)) <$> map_to_list e.2).

Definition Flush (c : Concentrator) : list GroupedStats * Concentrator :=
  ((fun e => grouped e.1.1 e.1.2 e.2) <$> flush_groups (buckets c), mk_concentrator ∅ (primaryKeys c)).
End concentrator.
End Concentrator.

(** * The APM concentrator: properties

    The statistics of a flush are exact: one group per ten seconds and key, with the
    counts, sums, maxima and latency sketches of exactly the spans added. *)

Module ConcentratorProps.
Import Concentrator.

Section props.
Variable unspecified_ip : string -> bool.
Variable marshal : tagmap -> string.
Variable unmarshal : string -> tagmap.
Variable bin_of : f64 -> Z.
Implicit Types (s : Span) (l : list Span) (b : Z) (k : bucketKey).

Abbreviation key_of := (key_of unspecified_ip marshal).
Abbreviation Add := (Add unspecified_ip marshal bin_of).
Abbreviation count_span := (count_span bin_of).
Abbreviation sketch_of := (LatencyProps.sketch_of bin_of).

(** ** What the statistics of a group are *)

Definition latencies l : list f64 := (fun s => f_of_Z (duration s)) <$> l.

Fixpoint first_namespace l : string :=
  match l with
  | [] => ""
  | s :: l => if String.eqb (span_namespace s) "" then first_namespace l else span_namespace s
  end.

(** The statistics of the spans of one group. *)
Definition stats_of l : groupStats :=
  mk_group (u64 (Z.of_nat (length l))) (u64 (Z.of_nat (length (filter (fun s => isErr s = true) l))))
    (u64 (sumZ duration l)) (foldr Z.max 0 (duration <$> l))
    (match l with s :: _ => entry_kind (Kind s) | [] => false end) (first_namespace l)
    (sketch_of (latencies (filter (fun s => isErr s = false) l)))
    (sketch_of (latencies (filter (fun s => isErr s = true) l))).

(** The valid spans of a bucket and key. *)
Definition in_group (keys : list string) b k s : Prop :=
  span_valid s = true /\ bucketStart s = b /\ key_of keys s = k.
#[local] Instance in_group_dec keys b k s : Decision (in_group keys b k s) := ltac:(unfold in_group; apply _).

Definition members (keys : list string) l b k : list Span := filter (in_group keys b k) l.

Definition add_all l (c : Concentrator) : Concentrator := foldl (fun c s => Add (Some s) c) c l.

Definition lookup_group (c : Concentrator) b k : option groupStats := buckets c !! b ≫= fun g => g !! k.

(** ** One span *)

Lemma first_namespace_snoc l s :
  first_namespace (l ++ [s]) =
  if String.eqb (first_namespace l) "" then span_namespace s else first_namespace l.
Proof.
  induction l as [|s0 l IH]; cbn [app first_namespace].
  - cbn. destruct (String.eqb_spec (span_namespace s) ""); congruence.
  - destruct (String.eqb (span_namespace s0) "") eqn:E; [exact IH|]. by rewrite E.
Qed.

Lemma max_snoc l s :
  foldr Z.max 0 (duration <$> l ++ [s]) = Z.max (foldr Z.max 0 (duration <$> l)) (Z.max (duration s) 0).
Proof.
  rewrite fmap_app. induction (duration <$> l) as [|d ds IH]; cbn [app foldr fmap list_fmap] in *; [lia|].
  rewrite IH. lia.
Qed.

Lemma latencies_snoc l s : latencies (l ++ [s]) = latencies l ++ [f_of_Z (duration s)].
Proof. unfold latencies. by rewrite fmap_app. Qed.

Lemma valid_duration s : span_valid s = true -> 0 <= duration s /\ 0 < StartUnixNano s.
Proof. unfold span_valid, duration. intros H. apply andb_prop in H as [H1 H2]. lia. Qed.

(** Counting a span extends the statistics, the group existing or not. *)
Lemma count_span_stats keys b k l s :
  Forall (in_group keys b k) (l ++ [s]) -> in_i64 (EndUnixNano s) ->
  count_span s (find_group (match l with [] => None | _ => Some (stats_of l) end) s) = stats_of (l ++ [s]).
Proof.
  intros Hall Hend.
  assert (in_group keys b k s) as (Hv & _ & Hk).
  { rewrite Forall_forall in Hall. apply Hall, elem_of_app. right. left. }
  destruct (valid_duration s Hv) as [Hd Hst].
  assert (u64 (duration s) = duration s) as Ed.
  { apply u64_small. unfold in_u64, in_i64, duration in *. lia. }
  set (g := find_group _ s).
  assert (g = mk_group (u64 (Z.of_nat (length l))) (u64 (Z.of_nat (length (filter (fun s => isErr s = true) l))))
    (u64 (sumZ duration l)) (foldr Z.max 0 (duration <$> l))
    (topLevel (stats_of (l ++ [s]))) (first_namespace (l ++ [s]))
    (sketch_of (latencies (filter (fun s => isErr s = false) l)))
    (sketch_of (latencies (filter (fun s => isErr s = true) l)))) as ->.
  { unfold g. rewrite first_namespace_snoc. destruct l as [|s0 l].
    - cbn. done.
    - cbn [find_group app stats_of topLevel]. cbn [namespace stats_of].
      destruct (String.eqb (first_namespace (s0 :: l)) "") eqn:E1; cbn [andb]; [|done].
      destruct (String.eqb_spec (span_namespace s) "") as [E2|E2]; cbn [negb]; [|done].
      apply String.eqb_eq in E1. unfold stats_of. by rewrite E1, E2. }
  unfold Concentrator.count_span. cbn [hits errors durationSumNano maxDurationNano topLevel namespace okSketch errSketch].
  rewrite Ed. unfold stats_of at 2. cbn [topLevel].
  rewrite length_app, max_snoc, sumZ_app. cbn [length].
  rewrite !filter_app, !filter_cons, !filter_nil.
  unfold isErr in *. unfold sumZ at 3. cbn [foldr].
  f_equal.
  - rewrite wrap_add_l. f_equal. lia.
  - destruct (StatusCode s =? 2) eqn:Es.
    + rewrite decide_True by done. rewrite length_app, wrap_add_l. cbn [length]. f_equal. lia.
    + rewrite decide_False by done. by rewrite app_nil_r.
  - rewrite wrap_add_l. f_equal. lia.
  - case_match; lia.
  - destruct (StatusCode s =? 2) eqn:Es.
    + rewrite decide_False by done. by rewrite app_nil_r.
    + rewrite decide_True by done. by rewrite latencies_snoc, LatencyProps.sketch_of_snoc.
  - destruct (StatusCode s =? 2) eqn:Es.
    + rewrite decide_True by done. by rewrite latencies_snoc, LatencyProps.sketch_of_snoc.
    + rewrite decide_False by done. by rewrite app_nil_r.
Qed.

(** ** All the spans *)

Lemma members_snoc keys l s b k :
  members keys (l ++ [s]) b k = members keys l b k ++ (if decide (in_group keys b k s) then [s] else []).
Proof. unfold members. rewrite filter_app, filter_cons, filter_nil. by case_decide. Qed.

Lemma members_all keys l b k : Forall (in_group keys b k) (members keys l b k).
Proof. apply Forall_forall. intros s Hs. by apply list_elem_of_filter in Hs as [? _]. Qed.

Definition group_or_none (l : list Span) : option groupStats :=
  match l with [] => None | _ => Some (stats_of l) end.

Lemma add_all_keys l c : primaryKeys (add_all l c) = primaryKeys c.
Proof.
  unfold add_all. revert c. induction l as [|s l IH]; intros c; cbn [foldl]; [done|].
  rewrite IH. unfold Concentrator.Add. by case_match.
Qed.

Lemma lookup_Add s c b k :
  lookup_group (Add (Some s) c) b k =
  if decide (in_group (primaryKeys c) b k s)
  then Some (count_span s (find_group (lookup_group c b k) s)) else lookup_group c b k.
Proof.
  unfold Concentrator.Add, lookup_group. destruct (span_valid s) eqn:Ev; cbn [negb].
  - cbn [buckets]. destruct (decide (bucketStart s = b)) as [<-|Hb].
    + rewrite lookup_insert_eq. cbn [mbind option_bind].
      assert (forall k, (default ∅ (buckets c !! bucketStart s) : gmap bucketKey groupStats) !! k =
        (buckets c !! bucketStart s ≫= fun g => g !! k)) as Hdef.
      { intros k'. destruct (buckets c !! bucketStart s); cbn; [done|]. apply lookup_empty. }
      destruct (decide (key_of (primaryKeys c) s = k)) as [<-|Hk].
      * rewrite lookup_insert_eq, Hdef. by rewrite decide_True.
      * rewrite lookup_insert_ne, Hdef by done. rewrite decide_False; [done|]. by intros (_ & _ & ?).
    + rewrite lookup_insert_ne by done. rewrite decide_False; [done|]. by intros (_ & ? & _).
  - rewrite decide_False; [done|]. intros (? & _). congruence.
Qed.

(** Every span's end fits its field. *)
Definition typed l : Prop := Forall (fun s => in_i64 (EndUnixNano s)) l.

Lemma add_all_groups keys l b k :
  typed l ->
  lookup_group (add_all l (mk_concentrator ∅ keys)) b k = group_or_none (members keys l b k).
Proof.
  induction l as [|s l IH] using rev_ind; intros Ht.
  { unfold lookup_group. cbn. by rewrite lookup_empty. }
  apply Forall_app in Ht as [Ht Hs]. apply Forall_cons in Hs as [Hs _].
  unfold add_all. rewrite foldl_app. cbn [foldl]. fold (add_all l (mk_concentrator ∅ keys)).
  rewrite lookup_Add, add_all_keys, members_snoc, (IH Ht). cbn [primaryKeys].
  pose proof (members_all keys l b k) as Hall.
  case_decide as Hin; [|by rewrite app_nil_r].
  unfold group_or_none at 1. rewrite (count_span_stats keys b k); [|by apply Forall_app; split; [|constructor]|done].
  unfold group_or_none. by destruct (members keys l b k).
Qed.

(** No bucket is kept without a group. *)
Lemma elem_of_flush_groups (m : gmap Z (gmap bucketKey groupStats)) b k g :
  (b, k, g) ∈ flush_groups m <-> (m !! b ≫= fun gs => gs !! k) = Some g.
Proof.
  unfold flush_groups. rewrite list_elem_of_bind. split.
  - intros ([b' gs] & Hin & Hm). apply list_elem_of_fmap in Hin as ([k' g'] & [= -> -> ->] & Hk).
    apply elem_of_map_to_list in Hm, Hk. cbn [fst snd] in *. by rewrite Hm.
  - destruct (m !! b) as [gs|] eqn:E; cbn; [|done]. intros Hk. exists (b, gs).
    split; [|by apply elem_of_map_to_list]. apply list_elem_of_fmap. exists (k, g).
    split; [done|]. by apply elem_of_map_to_list.
Qed.

Lemma fmap_bind {A B C} (f : A -> list B) (h : B -> C) (l : list A) :
  h <$> (l ≫= f) = l ≫= (fun x => h <$> f x).
Proof. induction l as [|x l IH]; [done|]. by rewrite !bind_cons, fmap_app, IH. Qed.

Lemma NoDup_flush_groups m : NoDup (flush_groups m).*1.
Proof.
  unfold flush_groups. rewrite fmap_bind. apply NoDup_bind.
  - intros [b1 g1] [b2 g2] [b k] H1 H2 Hk1 Hk2.
    cbn in Hk1, Hk2. apply list_elem_of_fmap in Hk1 as ([[x1 y1] z1] & E1 & Hk1), Hk2 as ([[x2 y2] z2] & E2 & Hk2).
    apply list_elem_of_fmap in Hk1 as ([? ?] & E3 & _), Hk2 as ([? ?] & E4 & _).
    cbn in *. simplify_eq. apply elem_of_map_to_list in H1, H2. congruence.
  - intros [b g] _. cbn. rewrite <- list_fmap_compose.
    assert (NoDup ((fun k => (b, k)) <$> (map_to_list g).*1)) as H.
    { apply NoDup_fmap_2; [intros ? ? [=]; done | apply NoDup_fst_map_to_list]. }
    rewrite <- list_fmap_compose in H. exact H.
  - apply NoDup_map_to_list.
Qed.

(** C19: Statistics are exact.  After any spans, valid or not, have been added to an empty
    concentrator, a flush gives one report for each pair of a ten second bucket and a
    key that some valid span has, and no other; the report carries the number of those
    spans and of their errors, the sum and the maximum of their durations, and the
    encodings of the sketches of the latencies of those that succeeded and of those
    that failed, nothing sampled or counted twice; and the concentrator is empty
    again. *)
Theorem flush_is_exact (keys : list string) l :
  typed l ->
  let '(out, c') := Flush unmarshal (add_all l (mk_concentrator ∅ keys)) in
  buckets c' = ∅ /\ primaryKeys c' = keys /\
  exists groups : list (Z * bucketKey),
    NoDup groups /\
    (forall b k, (b, k) ∈ groups <-> members keys l b k <> []) /\
    out = (fun g => grouped unmarshal g.1 g.2 (stats_of (members keys l g.1 g.2))) <$> groups.
Proof.
  intros Ht. unfold Flush. set (c := add_all l (mk_concentrator ∅ keys)).
  split; [done|]. split; [unfold c; by rewrite add_all_keys|].
  exists (flush_groups (buckets c)).*1. split; [apply NoDup_flush_groups|].
  assert (forall b k g, (b, k, g) ∈ flush_groups (buckets c) <-> group_or_none (members keys l b k) = Some g) as Hg.
  { intros b k g. rewrite elem_of_flush_groups. change (_ ≫= _) with (lookup_group c b k).
    unfold c. by rewrite add_all_groups. }
  split.
  - intros b k. rewrite list_elem_of_fmap. split.
    + intros ([[b' k'] g] & [= -> ->] & H). apply Hg in H. unfold group_or_none in H.
      by destruct (members keys l b' k').
    + intros Hne. exists (b, k, stats_of (members keys l b k)). split; [done|]. apply Hg.
      unfold group_or_none. by destruct (members keys l b k).
  - rewrite <- list_fmap_compose. apply list_fmap_ext. intros i [[b k] g] Hi. cbn.
    apply list_elem_of_lookup_2, Hg in Hi. unfold group_or_none in Hi.
    destruct (members keys l b k); [done|]. by injection Hi as <-.
Qed.
End props.

(** ** A concrete flush *)

Definition example_span (start dur code : Z) : Span :=
  mk_span "4bf9" "00f0" "" "cart" "GET /cart" 2 start (start + dur) code "" "shop" "" ∅.
Definition example_spans : list Span :=
  [example_span 1700000000 2000 0; example_span 1700000001 3000 2; example_span (-5) 10 0].
Definition example_flush :=
  Flush (fun _ => ∅) (add_all (fun _ => false) (fun _ => "{}") (fun _ => 7) example_spans
                        (mk_concentrator ∅ ["host"])).

Lemma flush_is_exact_witness :
  (fun g => (Hits g, Errors g, DurationSumNano g, MaxDurationNano g)) <$> example_flush.1 = [(2, 1, 5000, 3000)] /\
  buckets example_flush.2 = ∅.
Proof.
  refine (conj _ _); [vm_compute; reflexivity|].
  pose proof (flush_is_exact (fun _ => false) (fun _ => "{}") (fun _ => ∅) (fun _ => 7) ["host"] example_spans) as H.
  assert (typed example_spans) as Ht by (repeat constructor; vm_compute; congruence).
  specialize (H Ht). unfold example_flush.
  destruct (Flush _ _) as [out c']. exact (proj1 H).
Defined.
End ConcentratorProps.
