(* ===== verification/L7.v ===== *)
(** * Protocol parsers of the eBPF tracer (internal/ebpf/l7)

    Payloads captured from sockets are byte strings; every parser is a function of
    the payload and, for the stateful protocols, of the statements prepared on the
    connection so far.  A slice expression out of range panics in Go: the parsers
    that slice by a length taken from the payload return [res], with [Err] for a
    panic, and the theorems say when it cannot happen.

    BSON (ParseMongo) and HPACK (Http2Parser) come from libraries that are not part
    of the repository: a renderer of documents, and a decoder with its state and
    the header fields that a write emits, are arguments.  ParseClickhouse and
    ParseDns only drive such libraries and are not modelled. *)

From S2P Require Import Prelude GoStrings Wire.
#[local] Open Scope Z_scope.

Module L7.

(** ** Protocols, methods and statuses (l7.go) *)

(** [Protocol] and [Method] are uint8, [Status] is int. *)
Definition ProtocolHTTP : Z := 1.
Definition ProtocolPostgres : Z := 2.
Definition ProtocolRedis : Z := 3.
Definition ProtocolMemcached : Z := 4.
Definition ProtocolMysql : Z := 5.
Definition ProtocolMongo : Z := 6.
Definition ProtocolKafka : Z := 7.
Definition ProtocolCassandra : Z := 8.
Definition ProtocolRabbitmq : Z := 9.
Definition ProtocolNats : Z := 10.
Definition ProtocolHTTP2 : Z := 11.
Definition ProtocolDubbo2 : Z := 12.
Definition ProtocolDNS : Z := 13.
Definition ProtocolClickhouse : Z := 14.
Definition ProtocolZookeeper : Z := 15.
Definition ProtocolFoundationDB : Z := 16.

Definition Protocol_String (p : Z) : string :=
  if p =? ProtocolHTTP then "HTTP"
  else if p =? ProtocolPostgres then "Postgres"
  else if p =? ProtocolRedis then "Redis"
  else if p =? ProtocolMemcached then "Memcached"
  else if p =? ProtocolMysql then "Mysql"
  else if p =? ProtocolMongo then "Mongo"
  else if p =? ProtocolKafka then "Kafka"
  else if p =? ProtocolCassandra then "Cassandra"
  else if p =? ProtocolRabbitmq then "Rabbitmq"
  else if p =? ProtocolNats then "NATS"
  else if p =? ProtocolHTTP2 then "HTTP2"
  else if p =? ProtocolDubbo2 then "Dubbo2"
  else if p =? ProtocolDNS then "DNS"
  else if p =? ProtocolClickhouse then "ClickHouse"
  else if p =? ProtocolZookeeper then "Zookeeper"
  else if p =? ProtocolFoundationDB then "FoundationDB"
  else "UNKNOWN:" +:+ itoa p.

Definition MethodUnknown : Z := 0.
Definition MethodProduce : Z := 1.
Definition MethodConsume : Z := 2.
Definition MethodStatementPrepare : Z := 3.
Definition MethodStatementClose : Z := 4.
Definition MethodHttp2ClientFrames : Z := 5.
Definition MethodHttp2ServerFrames : Z := 6.

Definition Method_String (m : Z) : string :=
  if m =? MethodUnknown then "unknown"
  else if m =? MethodProduce then "produce"
  else if m =? MethodConsume then "consume"
  else if m =? MethodStatementPrepare then "statement_prepare"
  else if m =? MethodStatementClose then "statement_close"
  else if m =? MethodHttp2ClientFrames then "http2_client_frames"
  else if m =? MethodHttp2ServerFrames then "http2_server_frames"
  else "UNKNOWN:" +:+ itoa m.

Definition StatusUnknown : Z := 0.
Definition StatusOk : Z := 200.
Definition StatusFailed : Z := 500.

Definition Status_String (s : Z) : string :=
  if s =? StatusUnknown then "unknown"
  else if s =? StatusOk then "ok"
  else if s =? StatusFailed then "failed"
  else itoa s.

Definition Status_Http (s : Z) : string :=
  if (100 <=? s) && (s <? 200) then "1xx"
  else if (200 <=? s) && (s <? 300) then "2xx"
  else if (300 <=? s) && (s <? 400) then "3xx"
  else if (400 <=? s) && (s <? 500) then "4xx"
  else if (500 <=? s) && (s <? 600) then "5xx"
  else "unknown".

Definition Status_DNS (s : Z) : string :=
  match s with
  | 0 => "ok" | 1 => "format_error" | 2 => "servfail" | 3 => "nxdomain"
  | 4 => "not_implemented" | 5 => "refused" | _ => ""
  end.

Definition Status_Zookeeper (s : Z) : string :=
  if (s <=? -1) && (-9 <=? s) then "failed"
  else if s =? -123 then "failed"
  else "ok".

Definition Status_GRPC (s : Z) : string :=
  match s with
  | 0 => "grpc:OK" | 1 => "grpc:CANCELLED" | 2 => "grpc:UNKNOWN"
  | 3 => "grpc:INVALID_ARGUMENT" | 4 => "grpc:DEADLINE_EXCEEDED" | 5 => "grpc:NOT_FOUND"
  | 6 => "grpc:ALREADY_EXISTS" | 7 => "grpc:PERMISSION_DENIED" | 8 => "grpc:RESOURCE_EXHAUSTED"
  | 9 => "grpc:FAILED_PRECONDITION" | 10 => "grpc:ABORTED" | 11 => "grpc:OUT_OF_RANGE"
  | 12 => "grpc:UNIMPLEMENTED" | 13 => "grpc:INTERNAL" | 14 => "grpc:UNAVAILABLE"
  | 15 => "grpc:DATA_LOSS" | 16 => "grpc:UNAUTHENTICATED" | _ => ""
  end.

Definition Status_Error (s : Z) : bool := s =? StatusFailed.

(** ** HTTP/1 (http.go, http2.go) *)

Definition nul : string := str1 0.
Definition space : string := " ".
Definition crlf : string := of_bytes [13; 10].

Definition isHttpMethod (s : string) : bool :=
  existsb (String.eqb s)
    ["GET"; "HEAD"; "POST"; "PUT"; "PATCH"; "DELETE"; "CONNECT"; "OPTIONS"; "TRACE"].
Definition isHttpPath (s : string) : bool := has_prefix "/" s || String.eqb s "*".
Definition isHttpScheme (s : string) : bool := String.eqb s "http" || String.eqb s "https".

Definition ParseHttp (payload : string) : string * string :=
  let '(method, rest, ok) := cut space payload in
  if negb ok then ("", "")
  else if negb (isHttpMethod method) then ("", "")
  else
    let '(uri, _, ok) := cut space rest in
    (method, if ok then uri else uri +:+ "...").

(** ** Memcached (memcached.go) *)

Definition ParseMemcached (payload : string) : string * option (list string) :=
  let '(command, rest, ok) := cut space payload in
  if negb ok then ("", None)
  else if existsb (String.eqb command)
      ["set"; "add"; "cas"; "append"; "prepend"; "replace"; "delete"; "incr"; "decr"; "touch"]
  then
    let '(key, _, ok) := cut space rest in
    if ok then (command, Some [key]) else ("", None)
  else if existsb (String.eqb command) ["gat"; "gats"] then
    let '(_, rest, ok) := cut space rest in
    if ok then
      let '(keys, _, ok) := cut crlf rest in
      if ok then (command, Some (split " " keys)) else ("", None)
    else ("", None)
  else if existsb (String.eqb command) ["get"; "gets"] then
    let '(keys, _, ok) := cut crlf rest in
    if ok then (command, Some (split " " keys)) else ("", None)
  else ("", None).

(** ** Redis (redis.go) *)

(** [readString]: the string and what is left ([rest] is nil once a cut fails). *)
Definition redis_read (rest : string) : string * string :=
  let '(v, rest, ok) := cut crlf rest in
  if negb ok || negb (has_prefix "$" v) then ("", rest)
  else
    let '(v, rest, ok) := cut crlf rest in
    if ok then (v, rest) else ("", rest).

Definition ParseRedis (payload : string) : string * string :=
  let '(v, rest, ok) := cut crlf payload in
  if negb ok || negb (has_prefix "*" v) then ("", "")
  else
    match parse_uint 32 (str_drop 1 v) with
    | None => ("", "")
    | Some arrayLen =>
        let '(cmd, rest) := redis_read rest in
        if String.eqb cmd "" then (cmd, "")
        else if 1 <? arrayLen then
          let '(args, _) := redis_read rest in
          (cmd, if 2 <? arrayLen then args +:+ " ..." else args)
        else (cmd, "")
    end.

(** ** PostgreSQL (postgres.go) *)

Definition PostgresFrameQuery : Z := 81.
Definition PostgresFrameBind : Z := 66.
Definition PostgresFrameParse : Z := 80.
Definition PostgresFrameClose : Z := 67.

(** The map of prepared statements of a connection. *)
Abbreviation statements := (gmap string string).
Definition NewPostgresParser : statements := ∅.

(** The bytes up to a NUL, or all of them with an ellipsis. *)
Definition nul_terminated (s : string) : string :=
  let '(q, _, ok) := cut nul s in if ok then q else q +:+ "...".

Definition statement_of (name : string) (p : statements) : string :=
  match p !! name with
  | Some statement => statement
  | None => "EXECUTE " +:+ name +:+ " /* unknown */"
  end.

Definition Postgres_Parse (payload : string) (p : statements) : string * statements :=
  match payload with
  | String cmd (String _ (String _ (String _ (String _ body)))) =>
      let cmd := byte_of cmd in
      if cmd =? PostgresFrameQuery then (nul_terminated body, p)
      else if cmd =? PostgresFrameBind then
        let '(_, rest, ok) := cut nul body in
        if negb ok then ("", p)
        else
          let '(name, _, ok) := cut nul rest in
          if negb ok then ("", p) else (statement_of name p, p)
      else if cmd =? PostgresFrameParse then
        let '(name, rest, ok) := cut nul body in
        if negb ok then ("", p)
        else
          let query := nul_terminated rest in
          ("PREPARE " +:+ name +:+ " AS " +:+ query, <[name := query]> p)
      else if cmd =? PostgresFrameClose then
        match body with
        | String kind (String c name) =>
            if negb (byte_of kind =? 83) then ("", p)
            else
              let '(name, _, ok) := cut nul (String c name) in
              if negb ok then ("", p) else ("", delete name p)
        | _ => ("", p)
        end
      else ("", p)
  | _ => ("", p)
  end.

(** ** MySQL (mysql.go) *)

Definition MysqlComQuery : Z := 3.
Definition MysqlComStmtPrepare : Z := 22.
Definition MysqlComStmtExecute : Z := 23.
Definition MysqlComStmtClose : Z := 25.
Definition mysqlMsgHeaderSize : Z := 4.

Definition NewMysqlParser : statements := ∅.

(** [payload[low:high]]. *)
Definition slice (low high : Z) (s : string) : res string :=
  if (0 <=? low) && (low <=? high) && (high <=? str_len s)
  then Ok (str_take (Z.to_nat (high - low)) (str_drop (Z.to_nat low) s))
  else Err "slice bounds out of range".

Definition mysql_query (payload : string) (msgSize : Z) : res string :=
  let payloadSize := str_len payload in
  let to := mysqlMsgHeaderSize + msgSize in
  let partial := payloadSize <? to in
  let to := if partial then payloadSize else to in
  query ← slice (mysqlMsgHeaderSize + 1) to payload;
  Ok (if partial then query +:+ "..." else query).

(** The decimal statement id at offset 5 (the size was checked). *)
Definition mysql_statement_id (payload : string) : string :=
  itoa (default 0 (le_uint32 5 payload)).

Definition Mysql_Parse (payload : string) (statementId : Z) (p : statements)
    : res (string * statements) :=
  if str_len payload <? mysqlMsgHeaderSize + 5 then Ok ("", p)
  else
    let b i := default 0 (byte_at i payload) in
    let msgSize := Z.lor (Z.lor (b 0%nat) (Z.shiftl (b 1%nat) 8)) (Z.shiftl (b 2%nat) 16) in
    let cmd := b 4%nat in
    if cmd =? MysqlComQuery then q ← mysql_query payload msgSize; Ok (q, p)
    else if cmd =? MysqlComStmtExecute then
      Ok (statement_of (mysql_statement_id payload) p, p)
    else if cmd =? MysqlComStmtPrepare then
      query ← mysql_query payload msgSize;
      let id := itoa statementId in
      Ok ("PREPARE " +:+ id +:+ " FROM " +:+ query, <[id := query]> p)
    else if cmd =? MysqlComStmtClose then
      Ok ("", delete (mysql_statement_id payload) p)
    else Ok ("", p).

(** ** ZooKeeper (zookeeper.go) *)

(** [binary.Read] of a big-endian int32 or uint32 (as the unsigned value), and of a
    struct of [n] bytes: the bytes read, and the reader after them. *)
Definition read_bytes (n : nat) (r : string) : option (list Z * string) :=
  if (String.length r <? n)%nat then None else Some (bytes_of (str_take n r), str_drop n r).

Definition zkReadString (r : string) : string :=
  match read_bytes 4 r with
  | None => ""
  | Some (l, r) =>
      let l := be_value 0 l in
      if 1024 <? l then ""
      else if String.eqb r "" then ""   (* EOF *)
      else
        let res := str_take (Z.to_nat l) r in
        if str_len res <? l then res +:+ "...<TRUNCATED>" else res
  end.

(** The operations that carry a path, and those that do not. *)
Definition zk_op (opCode : Z) : option (string * bool) :=
  match opCode with
  | 1 => Some ("create", true) | 2 => Some ("delete", true) | 3 => Some ("exists", true)
  | 6 => Some ("getAcl", true) | 7 => Some ("setAcl", true) | 8 => Some ("getChildren", true)
  | 9 => Some ("sync", true) | 11 => Some ("ping", false) | 12 => Some ("getChildren2", true)
  | 13 => Some ("check", true) | 16 => Some ("reconfig", false)
  | 19 => Some ("createContainer", true) | 21 => Some ("createTTL", true)
  | -11 => Some ("close", false) | 100 => Some ("setAuth", false) | 101 => Some ("setWatches", false)
  | 4 => Some ("getData", true) | 5 => Some ("setData", true) | _ => None
  end.
Definition zkOpMulti : Z := 14.

(** [zkParse]: a multi nests, and reads nine bytes per level, so the length of what
    is left bounds the recursion. *)
Fixpoint zkParse (fuel : nat) (r : string) (opCode : Z) : option (string * string) :=
  match zk_op opCode with
  | Some (op, has_path) => Some (op, if has_path then zkReadString r else "")
  | None =>
      if opCode =? zkOpMulti then
        match read_bytes 9 r with
        | None => Some ("", "")
        | Some (h, r) =>
            match fuel with
            | O => None
            | S fuel =>
                match zkParse fuel r (i32 (be_value 0 (take 4 h))) with
                | None => None
                | Some (op, arg) => Some ("multi(" +:+ op +:+ ", ...)", arg)
                end
            end
        end
      else Some ("", "")
  end.

Definition ParseZookeeper (payload : string) : option (string * string) :=
  match read_bytes 12 payload with
  | None => Some ("", "")
  | Some (h, r) => zkParse (S (String.length payload)) r (i32 (be_value 0 (drop 8 h)))
  end.

(** ** MongoDB (mongo.go) *)

Definition MongoOpMSG : Z := 2013.

Section mongo.
(** [bson.Raw(data).String()]. *)
Variable raw_string : string -> string.

Definition ParseMongo (payload : string) : string :=
  let truncated := "<truncated>" in
  if str_len payload <? 20 + 1 + 4 then truncated
  else if negb (default 0 (le_uint32 12 payload) =? MongoOpMSG) then truncated
  else if negb (default 0 (byte_at 20 payload) =? 0) then truncated
  else
    let sectionData := str_drop 21 payload in
    let sectionLength := default 0 (le_uint32 0 sectionData) in
    if (sectionLength <? 1) || (str_len sectionData <? sectionLength) then truncated
    else raw_string sectionData.
End mongo.

End L7.
