(* ===== verification/L7Props.v ===== *)
(** * What the protocol parsers promise

    Encoders for well-formed messages of each protocol (as the protocol documents
    them) and the theorems that the parsers recover what was encoded, track
    prepared statements, terminate, and when they would panic. *)

From S2P Require Import Prelude GoStrings Wire L7.
#[local] Open Scope Z_scope.

Module L7Props.
Import L7.

(** ** Cuts *)

Lemma cut_app_char c a b : contains (str1 c) a = false -> cut (str1 c) (a +:+ str1 c +:+ b) = (a, b, true).
Proof. intros Ha. unfold cut, str1 in *. by rewrite str_app_cons, str_app_nil_l, cut_at_app_char. Qed.

Lemma cut_none sep a : contains sep a = false -> cut sep a = (a, "", false).
Proof. unfold contains, cut. by destruct (cut_at sep a) as [[]|]. Qed.

(** A separator of two different bytes is found where it was put. *)
Lemma cut_at_app_two c d a b :
  c <> d -> contains (String c (String d "")) a = false ->
  cut_at (String c (String d "")) (a +:+ String c (String d b)) = Some (a, b).
Proof.
  intros Hne. unfold contains. induction a as [|e a IH]; intros Ha.
  - rewrite str_app_nil_l. cbn. destruct (Ascii.ascii_dec c c); [|done].
    by destruct (Ascii.ascii_dec d d); destruct b.
  - rewrite str_app_cons. cbn [cut_at] in *.
    destruct (String.prefix (String c (String d "")) (String e a)) eqn:Ep; [done|].
    assert (String.prefix (String c (String d "")) (String e (a +:+ String c (String d b))) = false) as ->.
    { cbn in *. destruct (Ascii.ascii_dec c e); [|done]. destruct a as [|e2 a].
      - rewrite str_app_nil_l. cbn. by destruct (Ascii.ascii_dec d c); [congruence|].
      - rewrite str_app_cons. cbn in *. destruct (Ascii.ascii_dec d e2); [by destruct a | done]. }
    rewrite IH; [done|]. by destruct (cut_at _ a) as [[]|].
Qed.

Lemma cut_app_crlf a b : contains crlf a = false -> cut crlf (a +:+ crlf +:+ b) = (a, b, true).
Proof.
  intros Ha. unfold cut. change crlf with (String (chr 13) (String (chr 10) "")) in *.
  rewrite !str_app_cons, str_app_nil_l, cut_at_app_two; done.
Qed.

(** ** Decimal numbers *)

Lemma pretty_N_char_value x : (x < 10)%N ->
  is_digit (byte_of (pretty_N_char x)) = true /\ byte_of (pretty_N_char x) - 48 = Z.of_N x.
Proof.
  intros Hx. assert (x = 0 \/ x = 1 \/ x = 2 \/ x = 3 \/ x = 4 \/ x = 5 \/ x = 6 \/ x = 7 \/ x = 8 \/ x = 9)%N
    as Hcases by lia.
  destruct Hcases as [->|[->|[->|[->|[->|[->|[->|[->|[->| ->]]]]]]]]]; done.
Qed.

Lemma digits_value_pretty x s :
  digits_value 0 (pretty_N_go x s) = digits_value (Z.of_N x) s.
Proof.
  revert s. induction (N.lt_wf_0 x) as [x _ IH]. intros s.
  destruct (decide (0 < x)%N) as [Hx|Hx].
  - rewrite pretty_N_go_step by done.
    rewrite IH by (apply N.div_lt; lia). cbn [digits_value].
    destruct (pretty_N_char_value (x mod 10)) as [-> Hv]; [by apply N.mod_lt|].
    rewrite Hv. f_equal. pose proof (N.div_mod' x 10). lia.
  - assert (x = 0%N) as -> by lia. by rewrite pretty_N_go_0.
Qed.

Lemma parse_uint_itoa n : 0 <= n < 2 ^ 32 -> parse_uint 32 (itoa n) = Some n.
Proof.
  intros Hn. unfold parse_uint, itoa, pretty, pretty_Z. destruct n as [|n|n]; [done| |lia].
  change (pretty n) with (pretty_N_go (N.pos n) ""). pose proof (digits_value_pretty (N.pos n) "") as Hd. cbn [digits_value] in Hd.
  rewrite Hd. cbn [Z.of_N]. rewrite (proj2 (Z.ltb_lt _ _)) by lia.
  destruct (String.eqb _ "") eqn:E; [|done]. apply String.eqb_eq in E. rewrite E in Hd. by injection Hd.
Qed.

(** ** PostgreSQL *)

(** A frame: the type, the length of four bytes and the body. *)
Definition pg_frame (cmd : Z) (body : string) : string :=
  str1 cmd +:+ of_bytes (be_bytes 4 (4 + str_len body)) +:+ body.
Definition pg_query (q : string) : string := pg_frame 81 (q +:+ nul).
Definition pg_parse (name q rest : string) : string := pg_frame 80 (name +:+ nul +:+ q +:+ nul +:+ rest).
Definition pg_bind (portal name rest : string) : string := pg_frame 66 (portal +:+ nul +:+ name +:+ nul +:+ rest).
Definition pg_close (name : string) : string := pg_frame 67 ("S" +:+ name +:+ nul).

Definition no_nul (s : string) : Prop := contains nul s = false.

Lemma cut_nul a b : no_nul a -> cut nul (a +:+ nul +:+ b) = (a, b, true).
Proof. apply cut_app_char. Qed.

Lemma pg_frame_shape cmd body :
  exists c1 c2 c3 c4, pg_frame cmd body = String (chr cmd) (String c1 (String c2 (String c3 (String c4 body)))).
Proof.
  unfold pg_frame, str1. rewrite str_app_cons, str_app_nil_l. cbn [be_bytes].
  eexists _, _, _, _. unfold of_bytes. cbn [fmap list_fmap String.string_of_list_ascii].
  rewrite !str_app_cons. rewrite str_app_nil_l. reflexivity.
Qed.

Ltac pg_step :=
  match goal with |- context [Postgres_Parse (pg_frame ?c ?b) ?p] =>
    destruct (pg_frame_shape c b) as (? & ? & ? & ? & ->) end;
  unfold Postgres_Parse; rewrite byte_of_chr;
  rewrite (wrap_small 8) by lia; cbn [Z.eqb Pos.eqb PostgresFrameQuery PostgresFrameBind PostgresFrameParse PostgresFrameClose].

Lemma pg_query_parse q p : no_nul q -> Postgres_Parse (pg_query q) p = (q, p).
Proof.
  intros Hq. unfold pg_query. pg_step. unfold nul_terminated.
  rewrite <- (str_app_nil_r nul), cut_nul; done.
Qed.

Lemma pg_parse_parse name q rest p : no_nul name -> no_nul q ->
  Postgres_Parse (pg_parse name q rest) p = ("PREPARE " +:+ name +:+ " AS " +:+ q, <[name := q]> p).
Proof.
  intros Hn Hq. unfold pg_parse. pg_step. rewrite cut_nul by done. cbn [negb].
  unfold nul_terminated. by rewrite cut_nul.
Qed.

Lemma pg_bind_parse portal name rest p : no_nul portal -> no_nul name ->
  Postgres_Parse (pg_bind portal name rest) p = (statement_of name p, p).
Proof.
  intros Hp Hn. unfold pg_bind. pg_step. rewrite cut_nul by done. cbn [negb].
  by rewrite cut_nul.
Qed.

Lemma pg_close_parse name p : no_nul name -> Postgres_Parse (pg_close name) p = ("", delete name p).
Proof.
  intros Hn. unfold pg_close. pg_step. change ("S" +:+ name +:+ nul) with (String (chr 83) (name +:+ nul)).
  destruct (name +:+ nul) as [|c s] eqn:E; [by destruct name|].
  change (negb (byte_of (chr 83) =? 83)) with false. cbv beta iota. rewrite <- E.
  rewrite <- (str_app_nil_r nul), cut_nul; done.
Qed.

(** ** MySQL *)

(** A packet: the length of the body in three little-endian bytes, a sequence
    number and the body. *)
Definition my_packet (seq : Z) (body : string) : string :=
  of_bytes (reverse (be_bytes 3 (str_len body))) +:+ str1 seq +:+ body.
Definition le_id (id : Z) : string := of_bytes (reverse (be_bytes 4 id)).

Lemma le3_value n :
  0 <= n < 2 ^ 24 ->
  Z.lor (Z.lor (n mod 256) (Z.shiftl ((n / 256) mod 256) 8)) (Z.shiftl ((n / 65536) mod 256) 16) = n.
Proof.
  intros Hn. apply Z.bits_inj'. intros i Hi.
  change 65536 with (2 ^ 16). change 256 with (2 ^ 8).
  rewrite !Z.lor_spec, !Z.shiftl_spec by lia.
  assert (Z.testbit n i = false \/ i < 24) as Hhigh.
  { destruct (Z.lt_ge_cases i 24); [by right | left].
    rewrite <- (Z.mod_small n (2 ^ 24)) by lia. by apply Z.mod_pow2_bits_high. }
  assert (forall k j, 0 <= k -> Z.testbit ((n / 2 ^ k) mod 2 ^ 8) j =
    if (0 <=? j) && (j <? 8) then Z.testbit n (j + k) else false) as Hbit.
  { intros k j Hk. destruct (Z.leb_spec 0 j); [|by rewrite Z.testbit_neg_r].
    destruct (Z.ltb_spec j 8); cbn.
    - rewrite Z.mod_pow2_bits_low, Z.div_pow2_bits by lia. done.
    - by apply Z.mod_pow2_bits_high. }
  pose proof (Hbit 0 i ltac:(lia)) as H0. rewrite Z.div_1_r, Z.add_0_r in H0.
  rewrite H0, (Hbit 8), (Hbit 16) by lia.
  replace (i - 8 + 8) with i by lia. replace (i - 16 + 16) with i by lia.
  destruct (Z.leb_spec 0 i), (Z.ltb_spec i 8), (Z.leb_spec 0 (i - 8)), (Z.ltb_spec (i - 8) 8),
    (Z.leb_spec 0 (i - 16)), (Z.ltb_spec (i - 16) 8); try lia; cbn;
    rewrite ?orb_false_r; try done; destruct Hhigh; done || lia.
Qed.

(** The fixed part of a packet, byte by byte. *)
Lemma my_packet_shape seq body :
  exists b0 b1 b2,
    my_packet seq body = String (chr b0) (String (chr b1) (String (chr b2) (String (chr seq) body))) /\
    b0 = str_len body mod 256 /\ b1 = (str_len body / 256) mod 256 /\ b2 = (str_len body / 65536) mod 256.
Proof.
  unfold my_packet, str1. cbn [be_bytes]. eexists _, _, _. split_and!.
  - cbn. unfold of_bytes. cbn. rewrite !str_app_cons, !str_app_nil_l. reflexivity.
  - cbn. by rewrite Z.div_1_r.
  - done.
  - done.
Qed.

Definition my_size (payload : string) : Z :=
  let b i := default 0 (byte_at i payload) in
  Z.lor (Z.lor (b 0%nat) (Z.shiftl (b 1%nat) 8)) (Z.shiftl (b 2%nat) 16).
Definition my_cmd (payload : string) : Z := default 0 (byte_at 4 payload).

Lemma my_packet_header seq cmd body k :
  let p := my_packet seq (String cmd body) in
  str_len (String cmd body) < 2 ^ 24 -> (5 <= k)%nat ->
  my_size (str_take k p) = str_len (String cmd body) /\ my_cmd (str_take k p) = byte_of cmd /\
  str_drop 5 p = body /\ str_len p = 4 + str_len (String cmd body).
Proof.
  cbn zeta. intros Hlen Hk. destruct (my_packet_shape seq (String cmd body)) as (b0 & b1 & b2 & -> & -> & -> & ->).
  do 5 (destruct k as [|k]; [lia|]). cbn [str_take str_drop]. split_and!.
  - unfold my_size, byte_at. cbn [String.get fmap option_fmap option_map from_option].
    unfold id. rewrite !byte_of_chr.
    unfold wrap. rewrite !(Z.mod_small (_ mod 256) (2 ^ 8)) by (apply Z.mod_pos_bound; lia).
    apply le3_value. split; [apply str_len_nonneg | done].
  - done.
  - done.
  - unfold str_len. cbn [String.length]. lia.
Qed.

Lemma Mysql_Parse_eq payload id p :
  9 <= str_len payload ->
  Mysql_Parse payload id p =
    (let cmd := my_cmd payload in
     if cmd =? MysqlComQuery then q ← mysql_query payload (my_size payload); Ok (q, p)
     else if cmd =? MysqlComStmtExecute then Ok (statement_of (mysql_statement_id payload) p, p)
     else if cmd =? MysqlComStmtPrepare then
       query ← mysql_query payload (my_size payload);
       Ok ("PREPARE " +:+ itoa id +:+ " FROM " +:+ query, <[itoa id := query]> p)
     else if cmd =? MysqlComStmtClose then Ok ("", delete (mysql_statement_id payload) p)
     else Ok ("", p)).
Proof.
  intros Hlen. unfold Mysql_Parse. rewrite (proj2 (Z.ltb_ge _ _)); [done | unfold mysqlMsgHeaderSize; lia].
Qed.

(** The query of a captured packet: a negative slice only for an empty body. *)
Lemma mysql_query_ok payload n :
  1 <= n -> 5 <= str_len payload -> exists q, mysql_query payload n = Ok q.
Proof.
  intros Hn Hp. unfold mysql_query, slice, mysqlMsgHeaderSize.
  destruct (str_len payload <? 4 + n) eqn:E.
  - rewrite (proj2 (Z.leb_le _ _)), (proj2 (Z.leb_le (4 + 1) _)), Z.leb_refl by lia. cbn. eauto.
  - apply Z.ltb_ge in E.
    rewrite (proj2 (Z.leb_le 0 (4 + 1))), (proj2 (Z.leb_le (4 + 1) _)), (proj2 (Z.leb_le (4 + n) _)) by lia.
    cbn. eauto.
Qed.

Lemma str_len_take k s : (k <= String.length s)%nat -> str_len (str_take k s) = Z.of_nat k.
Proof. intros. unfold str_len. rewrite str_length_take. lia. Qed.

(** The first [k] bytes of a packet give the first bytes of its query, with an
    ellipsis when something is missing. *)
Lemma mysql_query_captured seq cmd q k :
  str_len (String cmd q) < 2 ^ 24 -> (5 <= k <= 5 + String.length q)%nat ->
  mysql_query (str_take k (my_packet seq (String cmd q))) (str_len (String cmd q)) =
    Ok (if (k =? 5 + String.length q)%nat then q else str_take (k - 5) q +:+ "...").
Proof.
  intros Hlen Hk. destruct (my_packet_header seq cmd q k Hlen ltac:(lia)) as (_ & _ & Hdrop & Hplen).
  assert (String.length (my_packet seq (String cmd q)) = (5 + String.length q)%nat) as Hl.
  { unfold str_len in Hplen. cbn [String.length] in Hplen. lia. }
  assert (forall n, str_drop 5 (str_take (5 + n) (my_packet seq (String cmd q))) = str_take n q) as Hd.
  { intros n. destruct (my_packet_shape seq (String cmd q)) as (b0 & b1 & b2 & -> & _). done. }
  unfold mysql_query, slice, mysqlMsgHeaderSize. rewrite str_len_take by lia.
  change (Z.to_nat (4 + 1)) with 5%nat.
  assert (exists n, k = (5 + n)%nat) as [n ->] by (exists (k - 5)%nat; lia). rewrite Hd.
  replace (5 + n - 5)%nat with n by lia.
  assert (str_len (String cmd q) = 1 + Z.of_nat (String.length q)) as -> by (unfold str_len; cbn [String.length]; lia).
  destruct (Nat.eqb_spec (5 + n) (5 + String.length q)) as [E|E].
  - rewrite (proj2 (Z.ltb_ge _ _)) by lia.
    rewrite (proj2 (Z.leb_le 0 (4 + 1))), !(proj2 (Z.leb_le (4 + _) _)) by lia. cbn.
    rewrite !str_take_ge; [done | lia | ]. rewrite str_length_take. lia.
  - rewrite (proj2 (Z.ltb_lt _ _)) by lia.
    rewrite (proj2 (Z.leb_le 0 (4 + 1))), (proj2 (Z.leb_le (4 + 1) _)), Z.leb_refl by lia. cbn.
    rewrite (str_take_ge _ (str_take _ _)); [done|]. rewrite str_length_take. lia.
Qed.

Lemma mysql_id seq cmd id rest :
  0 <= id < 2 ^ 32 -> str_len (String cmd (le_id id +:+ rest)) < 2 ^ 24 ->
  mysql_statement_id (my_packet seq (String cmd (le_id id +:+ rest))) = itoa id.
Proof.
  intros Hid Hlen. unfold mysql_statement_id, le_uint32.
  destruct (my_packet_header seq cmd (le_id id +:+ rest) 5 Hlen ltac:(lia)) as (_ & _ & -> & _).
  assert (str_take 4 (le_id id +:+ rest) = le_id id) as -> by apply (str_take_app (le_id id)).
  unfold le_id. rewrite bytes_of_bytes by (apply Forall_reverse, be_bytes_range).
  rewrite length_reverse, be_bytes_length, reverse_involutive, be_value_bytes.
  change (256 ^ Z.of_nat 4) with (2 ^ 32). rewrite Z.mod_small by lia. done.
Qed.

(** ** Redis *)

(** A bulk string, and an array of them. *)
Definition bulk (s : string) : string := "$" +:+ itoa (str_len s) +:+ crlf +:+ s +:+ crlf.
Definition bulks (l : list string) : string := foldr (fun s acc => bulk s +:+ acc) "" l.
Definition resp (l : list string) : string := "*" +:+ itoa (Z.of_nat (length l)) +:+ crlf +:+ bulks l.

Definition no_crlf (s : string) : Prop := contains crlf s = false.

(** A string without a carriage return has no line end. *)
Lemma no_cr_no_crlf s : Forall (fun z => z <> 13) (bytes_of s) -> no_crlf s.
Proof.
  unfold no_crlf, contains. induction s as [|c s IH]; [done|]. intros Hs.
  change (bytes_of (String c s)) with (byte_of c :: bytes_of s) in Hs.
  inversion Hs as [|? ? Hc Hs']; subst. specialize (IH Hs').
  cbn [cut_at]. destruct (String.prefix crlf (String c s)) eqn:E.
  - apply prefix_spec in E as [t Et]. change crlf with (String (chr 13) (str1 10)) in Et.
    rewrite str_app_cons in Et. injection Et as -> _. by rewrite byte_of_chr in Hc.
  - by destruct (cut_at crlf s) as [[]|].
Qed.

Lemma bytes_of_app s t : bytes_of (s +:+ t) = (bytes_of s ++ bytes_of t)%list.
Proof. induction s as [|c s IH]; [done|]. rewrite str_app_cons. cbn. f_equal. exact IH. Qed.

Lemma digits_no_cr x s :
  Forall (fun z => z <> 13) (bytes_of s) -> Forall (fun z => z <> 13) (bytes_of (pretty_N_go x s)).
Proof.
  revert s. induction (N.lt_wf_0 x) as [x _ IH]. intros s Hs.
  destruct (decide (0 < x)%N) as [Hx|Hx].
  - rewrite pretty_N_go_step by done. apply IH; [apply N.div_lt; lia|].
    cbn. constructor; [|done].
    destruct (pretty_N_char_value (x mod 10)) as [Hd _]; [by apply N.mod_lt|].
    intros E. rewrite E in Hd. done.
  - assert (x = 0%N) as -> by lia. by rewrite pretty_N_go_0.
Qed.

Lemma itoa_no_crlf c n : c <> chr 13 -> 0 <= n -> no_crlf (String c (itoa n)).
Proof.
  intros Hc Hn. apply no_cr_no_crlf. constructor.
  - intros E. apply Hc. by rewrite <- (chr_byte_of c), E.
  - unfold itoa, pretty, pretty_Z. destruct n as [|n|n]; [by repeat constructor| |lia].
    change (pretty n) with (pretty_N_go (N.pos n) ""). by apply digits_no_cr.
Qed.

Lemma redis_read_bulk s rest : no_crlf s -> redis_read (bulk s +:+ rest) = (s, rest).
Proof.
  intros Hs. unfold redis_read, bulk.
  assert (("$" +:+ itoa (str_len s) +:+ crlf +:+ s +:+ crlf) +:+ rest =
    String (chr 36) (itoa (str_len s)) +:+ crlf +:+ (s +:+ crlf +:+ rest)) as ->
    by (change (String (chr 36) (itoa (str_len s))) with ("$" +:+ itoa (str_len s)); by rewrite !str_app_assoc).
  rewrite cut_app_crlf by (apply itoa_no_crlf; [done | apply str_len_nonneg]).
  assert (has_prefix "$" (String (chr 36) (itoa (str_len s))) = true) as -> by (cbn; by destruct (itoa _)).
  cbn [negb orb]. by rewrite cut_app_crlf.
Qed.

(** ** ZooKeeper *)

(** A request: its length, transaction id and operation, and the path as a string. *)
Definition be4 (n : Z) : string := of_bytes (be_bytes 4 n).
Definition zk_path (path : string) : string := be4 (str_len path) +:+ path.
Definition zk_request (xid op : Z) (body : string) : string := be4 (8 + str_len body) +:+ be4 xid +:+ be4 op +:+ body.

(** The operation and the body of a request inside [k] nested multis, whose headers
    hold the operation of the next level, a flag and an error code. *)
Definition zk_type (k : nat) (op : Z) : Z := match k with O => op | S _ => zkOpMulti end.
Fixpoint zk_body (k : nat) (op : Z) (body : string) : string :=
  match k with
  | O => body
  | S k => be4 (zk_type k op) +:+ str1 0 +:+ be4 (-1) +:+ zk_body k op body
  end.
Fixpoint zk_name (k : nat) (name : string) : string :=
  match k with O => name | S k => "multi(" +:+ zk_name k name +:+ ", ...)" end.

Lemma length_bytes_of s : length (bytes_of s) = String.length s.
Proof. unfold bytes_of. induction s; cbn in *; congruence. Qed.

Lemma str_drop_app_ge s t n : str_drop (String.length s + n) (s +:+ t) = str_drop n t.
Proof. induction s as [|c s IH]; [done|]. rewrite str_app_cons. cbn. exact IH. Qed.

Lemma be4_length n : String.length (be4 n) = 4%nat.
Proof. done. Qed.

Lemma bytes_of_be4 n : bytes_of (be4 n) = be_bytes 4 n.
Proof. apply bytes_of_bytes, be_bytes_range. Qed.

Lemma be4_value n : be_value 0 (be_bytes 4 n) = n mod 2 ^ 32.
Proof. by rewrite be_value_bytes. Qed.

Lemma i32_mod n : i32 (n mod 2 ^ 32) = i32 n.
Proof. unfold swrap. by rewrite Zplus_mod_idemp_l. Qed.

Lemma read_bytes_app n s t :
  String.length s = n -> read_bytes n (s +:+ t) = Some (bytes_of s, t).
Proof.
  intros <-. unfold read_bytes. rewrite str_length_app, str_take_app, str_drop_app.
  by rewrite (proj2 (Nat.ltb_ge _ _)) by lia.
Qed.

Lemma zkReadString_path path rest :
  str_len path <= 1024 -> zkReadString (zk_path path +:+ rest) = path.
Proof.
  intros Hlen. unfold zkReadString, zk_path. rewrite str_app_assoc.
  rewrite (read_bytes_app 4) by done. rewrite bytes_of_be4, be4_value.
  pose proof (str_len_nonneg path). rewrite Z.mod_small by lia.
  rewrite (proj2 (Z.ltb_ge _ _)) by lia.
  destruct (String.eqb (path +:+ rest) "") eqn:E.
  { apply String.eqb_eq in E. by destruct path. }
  assert (str_take (Z.to_nat (str_len path)) (path +:+ rest) = path) as ->.
  { unfold str_len. rewrite Nat2Z.id. apply str_take_app. }
  by rewrite Z.ltb_irrefl.
Qed.

Lemma zkParse_nested k fuel name path op hp rest :
  in_i32 op -> zk_op op = Some (name, hp) -> str_len path <= 1024 -> (k <= fuel)%nat ->
  zkParse fuel (zk_body k op (zk_path path +:+ rest)) (zk_type k op) =
    Some (zk_name k name, if hp then path else "").
Proof.
  intros Hop Hz Hlen. revert fuel. induction k as [|k IH]; intros fuel Hk.
  - cbn [zk_body zk_type zk_name]. destruct fuel; cbn [zkParse]; rewrite Hz;
      destruct hp; by rewrite ?zkReadString_path.
  - destruct fuel as [|fuel]; [lia|]. cbn [zk_body zk_name zk_type].
    change (zkParse (S fuel) ?r zkOpMulti) with
      (match read_bytes 9 r with
       | None => Some ("", "")
       | Some (h, r') => match zkParse fuel r' (i32 (be_value 0 (take 4 h))) with
                         | None => None
                         | Some (o, arg) => Some ("multi(" +:+ o +:+ ", ...)", arg)
                         end
       end).
    rewrite <- !str_app_assoc.
    rewrite (read_bytes_app 9) by done.
    rewrite !bytes_of_app, bytes_of_be4.
    assert (take 4 ((be_bytes 4 (zk_type k op) ++ bytes_of (str1 0)) ++ bytes_of (be4 (-1))) =
      be_bytes 4 (zk_type k op)) as -> by done.
    rewrite be4_value, i32_mod, i32_small by (destruct k; done).
    rewrite IH by lia. done.
Qed.

(** Reading a nested header shortens the reader, so its length is enough fuel. *)
Lemma zkParse_total fuel r op : (String.length r <= fuel)%nat -> is_Some (zkParse fuel r op).
Proof.
  revert r op. induction fuel as [|fuel IH]; intros r op Hf.
  - cbn [zkParse]. destruct (zk_op op) as [[name hp]|]; [by eexists|].
    destruct (op =? zkOpMulti); [|by eexists]. unfold read_bytes.
    rewrite (proj2 (Nat.ltb_lt _ _)) by lia. by eexists.
  - cbn [zkParse]. destruct (zk_op op) as [[name hp]|]; [by eexists|].
    destruct (op =? zkOpMulti); [|by eexists]. unfold read_bytes.
    destruct (String.length r <? 9)%nat eqn:E; [by eexists|]. apply Nat.ltb_ge in E.
    destruct (IH (str_drop 9 r) (i32 (be_value 0 (take 4 (bytes_of (str_take 9 r)))))) as [[op' arg] ->].
    { rewrite str_length_drop. lia. }
    by eexists.
Qed.

Lemma byte_at_nonneg i s : 0 <= default 0 (byte_at i s).
Proof. unfold byte_at. destruct (String.get i s) as [c|]; cbn; [apply byte_of_range | lia]. Qed.

Lemma my_size_nonneg payload : 0 <= my_size payload.
Proof.
  unfold my_size. rewrite !Z.lor_nonneg, !Z.shiftl_nonneg. split; [split|]; apply byte_at_nonneg.
Qed.

Lemma mysql_query_empty payload : 9 <= str_len payload -> mysql_query payload 0 = Err "slice bounds out of range".
Proof.
  intros Hlen. unfold mysql_query, slice, mysqlMsgHeaderSize. by rewrite (proj2 (Z.ltb_ge _ _)) by lia.
Qed.

(** ** Properties *)

(** Prepared statements of a PostgreSQL connection are tracked: a simple query
    is reported as it is; after a Parse message a Bind of that name is reported as
    its query, other names as before; after a Close the name is unknown. *)
Theorem pg_statements_tracked portal name name' q rest rest' p :
  no_nul portal -> no_nul name -> no_nul name' -> no_nul q -> name' <> name ->
  let '(desc, p1) := Postgres_Parse (pg_parse name q rest) p in
  desc = "PREPARE " +:+ name +:+ " AS " +:+ q /\
  (Postgres_Parse (pg_bind portal name rest') p1).1 = q /\
  (Postgres_Parse (pg_bind portal name' rest') p1).1 = (Postgres_Parse (pg_bind portal name' rest') p).1 /\
  (Postgres_Parse (pg_bind portal name rest') (Postgres_Parse (pg_close name) p1).2).1 =
    "EXECUTE " +:+ name +:+ " /* unknown */" /\
  Postgres_Parse (pg_query q) p = (q, p).
Proof.
  intros Hp Hn Hn' Hq Hne. rewrite pg_parse_parse by done.
  rewrite !pg_bind_parse, pg_close_parse, pg_query_parse by done. cbn [fst snd].
  unfold statement_of. rewrite lookup_insert_eq, lookup_insert_ne, lookup_delete_eq by done. done.
Qed.

(** Prepared statements of a MySQL connection are tracked across the prepare,
    execute and close packets, and a query is reported from any capture that holds
    at least nine bytes, with an ellipsis when the capture cuts it. *)
Theorem mysql_statements_tracked seq id q rest k p :
  0 <= id < 2 ^ 32 -> 4 <= str_len q -> str_len q + 1 < 2 ^ 24 -> str_len rest < 2 ^ 20 ->
  (9 <= k <= 5 + String.length q)%nat ->
  Mysql_Parse (str_take k (my_packet seq (String (chr 3) q))) 0 p =
    Ok (if (k =? 5 + String.length q)%nat then q else str_take (k - 5) q +:+ "...", p) /\
  exists p1,
    Mysql_Parse (my_packet seq (String (chr 22) q)) id p =
      Ok ("PREPARE " +:+ itoa id +:+ " FROM " +:+ q, p1) /\
    Mysql_Parse (my_packet seq (String (chr 23) (le_id id +:+ rest))) 0 p1 = Ok (q, p1) /\
    exists p2,
      Mysql_Parse (my_packet seq (String (chr 25) (le_id id +:+ rest))) 0 p1 = Ok ("", p2) /\
      Mysql_Parse (my_packet seq (String (chr 23) (le_id id +:+ rest))) 0 p2 =
        Ok ("EXECUTE " +:+ itoa id +:+ " /* unknown */", p2).
Proof.
  intros Hid Hq1 Hq2 Hrest Hk.
  assert (forall c, str_len (String c q) = str_len q + 1) as Hlq by (intros; unfold str_len; cbn [String.length]; lia).
  assert (forall c, str_len (String c (le_id id +:+ rest)) = 5 + str_len rest) as Hli.
  { intros. unfold str_len. cbn [String.length]. rewrite str_length_app. change (String.length (le_id id)) with 4%nat. lia. }
  pose proof (str_len_nonneg rest).
  assert (forall c s, str_len (String c s) < 2 ^ 24 -> my_size (my_packet seq (String c s)) = str_len (String c s) /\
    my_cmd (my_packet seq (String c s)) = byte_of c /\ str_len (my_packet seq (String c s)) = 4 + str_len (String c s)) as Hh.
  { intros c s Hs. destruct (my_packet_header seq c s (5 + String.length (my_packet seq (String c s))) Hs ltac:(lia))
      as (H1 & H2 & _ & H3). rewrite str_take_ge in H1, H2 by lia. done. }
  split.
  - destruct (my_packet_header seq (chr 3) q k) as (H1 & H2 & _ & H3); [rewrite Hlq; lia | lia |].
    rewrite Mysql_Parse_eq.
    2: { rewrite str_len_take; [lia|]. unfold str_len in H3. cbn [String.length] in H3. lia. }
    cbv zeta. rewrite H1, H2, mysql_query_captured by (rewrite ?Hlq; lia). done.
  - exists (<[itoa id := q]> p). split_and!; [| |exists (delete (itoa id) (<[itoa id := q]> p)); split].
    + destruct (Hh (chr 22) q) as (H1 & H2 & H3); [rewrite Hlq; lia|].
      rewrite Mysql_Parse_eq by (rewrite H3, Hlq; lia). cbv zeta. rewrite H1, H2.
      assert (str_len (my_packet seq (String (chr 22) q)) = Z.of_nat (5 + String.length q)) as Hl
        by (rewrite H3, Hlq; unfold str_len; lia).
      rewrite <- (str_take_ge (5 + String.length q) (my_packet seq (String (chr 22) q))) by (unfold str_len in Hl; lia).
      rewrite mysql_query_captured by (rewrite ?Hlq; lia). by rewrite Nat.eqb_refl.
    + destruct (Hh (chr 23) (le_id id +:+ rest)) as (H1 & H2 & H3); [rewrite Hli; lia|].
      rewrite Mysql_Parse_eq by (rewrite H3, Hli; lia). cbv zeta. rewrite H2, mysql_id by (rewrite ?Hli; lia).
      cbn. unfold statement_of. by rewrite lookup_insert_eq.
    + destruct (Hh (chr 25) (le_id id +:+ rest)) as (H1 & H2 & H3); [rewrite Hli; lia|].
      rewrite Mysql_Parse_eq by (rewrite H3, Hli; lia). cbv zeta. by rewrite H2, mysql_id by (rewrite ?Hli; lia).
    + destruct (Hh (chr 23) (le_id id +:+ rest)) as (H1 & H2 & H3); [rewrite Hli; lia|].
      rewrite Mysql_Parse_eq by (rewrite H3, Hli; lia). cbv zeta. rewrite H2, mysql_id by (rewrite ?Hli; lia).
      cbn. unfold statement_of. by rewrite lookup_delete_eq.
Qed.

(** The MySQL parser panics exactly on a capture of at least nine bytes that
    announces an empty body and carries a query or prepare command. *)
Theorem mysql_panics_iff payload id p :
  (exists e, Mysql_Parse payload id p = Err e) <->
  9 <= str_len payload /\ my_size payload = 0 /\
  (my_cmd payload = MysqlComQuery \/ my_cmd payload = MysqlComStmtPrepare).
Proof.
  destruct (Z.lt_ge_cases (str_len payload) 9) as [Hlt|Hge].
  { split; [intros [e He] | lia]. unfold Mysql_Parse in He.
    by rewrite (proj2 (Z.ltb_lt _ _)) in He by (unfold mysqlMsgHeaderSize; lia). }
  rewrite Mysql_Parse_eq by done. cbv zeta. pose proof (my_size_nonneg payload) as Hsz.
  destruct (Z.eqb_spec (my_cmd payload) MysqlComQuery) as [Ec|Ec];
    [|destruct (Z.eqb_spec (my_cmd payload) MysqlComStmtExecute) as [Ec2|Ec2];
      [|destruct (Z.eqb_spec (my_cmd payload) MysqlComStmtPrepare) as [Ec3|Ec3]]].
  2: { rewrite Ec2. split; [by intros []|]. by intros (_ & _ & [?|?]). }
  3: { split; [intros [e He]; by case_match|]. intros (_ & _ & [?|?]); done. }
  all: destruct (Z.eq_dec (my_size payload) 0) as [E|E]; [rewrite E, mysql_query_empty by done|].
  1, 3: split; [intros _; auto | intros _; by eexists].
  all: destruct (mysql_query_ok payload (my_size payload) ltac:(lia) ltac:(lia)) as [q ->];
    split; [by intros [] | by intros (_ & ? & _)].
Qed.

(** The command of a Redis request and its first argument are recovered, with an
    ellipsis for the arguments beyond it. *)
Theorem redis_command_recovered cmd args :
  cmd <> "" -> no_crlf cmd -> Forall no_crlf args -> Z.of_nat (length args) + 1 < 2 ^ 32 ->
  ParseRedis (resp (cmd :: args)) =
    (cmd, match args with
          | [] => ""
          | [a] => a
          | a :: _ => a +:+ " ..."
          end).
Proof.
  intros Hne Hcmd Hargs Hlen. unfold ParseRedis, resp.
  assert ("*" +:+ itoa (Z.of_nat (length (cmd :: args))) +:+ crlf +:+ bulks (cmd :: args) =
    String (chr 42) (itoa (Z.of_nat (length (cmd :: args)))) +:+ crlf +:+ bulks (cmd :: args)) as ->
    by (change (String (chr 42) ?s) with ("*" +:+ s); by rewrite !str_app_assoc).
  rewrite cut_app_crlf by (apply itoa_no_crlf; [done | lia]).
  assert (forall s, has_prefix "*" (String (chr 42) s) = true) as -> by (intros s; by destruct s).
  cbn [negb orb str_drop]. rewrite parse_uint_itoa by (cbn [length]; lia).
  cbn [bulks foldr]. rewrite redis_read_bulk by done. rewrite (proj2 (String.eqb_neq _ _)) by done.
  cbn [length]. destruct args as [|a args].
  { by rewrite (proj2 (Z.ltb_ge _ _)) by (cbn; lia). }
  inversion Hargs as [|? ? Ha _]; subst.
  rewrite (proj2 (Z.ltb_lt _ _)) by (cbn [length]; lia). cbn [bulks foldr].
  rewrite redis_read_bulk by done. destruct args as [|b args].
  - by rewrite (proj2 (Z.ltb_ge _ _)) by (cbn; lia).
  - by rewrite (proj2 (Z.ltb_lt _ _)) by (cbn [length]; lia).
Qed.

(** The ZooKeeper parser always returns (a nested multi shortens what is left),
    and recovers the operation and the path of a request, at any nesting of
    multis. *)
Theorem zookeeper_requests payload k xid op name hp path rest :
  is_Some (ParseZookeeper payload) /\
  (in_i32 op -> zk_op op = Some (name, hp) -> str_len path <= 1024 ->
   ParseZookeeper (zk_request xid (zk_type k op) (zk_body k op (zk_path path +:+ rest))) =
     Some (zk_name k name, if hp then path else "")).
Proof.
  split.
  - unfold ParseZookeeper, read_bytes. destruct (String.length payload <? 12)%nat; [by eexists|].
    apply zkParse_total. rewrite str_length_drop. lia.
  - intros Hop Hz Hlen. unfold ParseZookeeper, zk_request.
    set (body := zk_body k op _). rewrite <- !str_app_assoc. rewrite (read_bytes_app 12) by done.
    rewrite !bytes_of_app, !bytes_of_be4.
    assert (drop 8 ((be_bytes 4 (8 + str_len body) ++ be_bytes 4 xid) ++ be_bytes 4 (zk_type k op)) =
      be_bytes 4 (zk_type k op)) as -> by done.
    rewrite be4_value, i32_mod, i32_small by (destruct k; done).
    apply zkParse_nested; try done. rewrite str_length_app.
    assert (forall k, (k <= String.length (zk_body k op (zk_path path +:+ rest)))%nat) as Hk.
    { clear. induction k as [|k IH]; [lia|]. cbn [zk_body]. rewrite !str_length_app. cbn. lia. }
    specialize (Hk k). fold body in Hk. lia.
Qed.

(** ** Witnesses *)

Lemma pg_statements_tracked_witness :
  (Postgres_Parse (pg_bind "" "s1" "x") (Postgres_Parse (pg_parse "s1" "SELECT 1" "") ∅).2).1 = "SELECT 1".
Proof.
  assert (no_nul "" /\ no_nul "s1" /\ no_nul "s2" /\ no_nul "SELECT 1") as (H1 & H2 & H3 & H4)
    by (unfold no_nul; vm_compute; split_and!; reflexivity).
  pose proof (pg_statements_tracked "" "s1" "s2" "SELECT 1" "" "x" ∅ H1 H2 H3 H4
    ltac:(discriminate)) as H.
  destruct (Postgres_Parse (pg_parse "s1" "SELECT 1" "") ∅) as [desc p1]. exact (proj1 (proj2 H)).
Defined.

Lemma mysql_statements_tracked_witness :
  Mysql_Parse (str_take 11 (my_packet 0 (String (chr 3) "SELECT 1"))) 0 ∅ = Ok ("SELECT...", ∅).
Proof.
  exact (proj1 (mysql_statements_tracked 0 7 "SELECT 1" "" 11 ∅ ltac:(lia) ltac:(by vm_compute)
    ltac:(by vm_compute) ltac:(by vm_compute) ltac:(cbn; lia))).
Defined.

Lemma redis_command_recovered_witness :
  ParseRedis (resp ["SET"; "user:1"; "42"]) = ("SET", "user:1 ...").
Proof.
  apply (redis_command_recovered "SET" ["user:1"; "42"]); [discriminate | vm_compute; reflexivity | | by vm_compute].
  repeat constructor; vm_compute; reflexivity.
Defined.

Lemma zookeeper_requests_witness :
  ParseZookeeper (zk_request 7 14 (zk_body 2 1 (zk_path "/app" +:+ "data"))) =
    Some ("multi(multi(create, ...), ...)", "/app").
Proof.
  exact (proj2 (zookeeper_requests "" 2 7 1 "create" true "/app" "data")
    ltac:(unfold in_i32; lia) eq_refl ltac:(by vm_compute)).
Defined.

End L7Props.
