(* ===== verification/Http2.v ===== *)
(** * The HTTP/2 parser (internal/ebpf/l7/http2.go)

    [Parse] walks the frames of one captured payload.  Client header frames fill
    the active request of their stream, server header frames give it a status;
    at the end every stream that got one is reported and forgotten.

    The HPACK decoder and the constants of golang.org/x/net/http2 are not part of
    the repository: they are arguments.  [hpack_write] returns the header fields
    the write emits, whether it failed, and the decoder afterwards.  The parser
    stores a pointer to a request in its map and fills it in place: the model
    updates the entry of the stream. *)

From S2P Require Import Prelude GoStrings Wire L7.
#[local] Open Scope Z_scope.

Module Http2.
Import L7.

Definition http2FrameHeaderLength : nat := 9.
Definition http2DecoderGcInterval : Z := u64 (10 * minute).

Record Http2FrameHeader := mk_header {
  Type_ : Z;
  Flags : Z;
  Length : Z;
  StreamId : Z;
}.

Record Http2Request := mk_request {
  Method : string;
  Path : string;
  Scheme : string;
  Status : Z;
  GrpcStatus : Z;
  Duration : Z;
  kernelTime : Z;   (* uint64 *)
}.

Definition new_request (kt : Z) : Http2Request := mk_request "" "" "" 0 0 0 kt.

Section parser.
Context {D : Type}.
Variable hpack_write : string -> D -> list (string * string) * bool * D.
Variable hpack_close : D -> D.
Variable ClientPreface : string.
Variable FrameHeaders : Z.

Record Http2Parser := mk_parser {
  clientDecoder : D;
  serverDecoder : D;
  activeRequests : gmap Z Http2Request;
  lastGcTime : Z;   (* uint64 *)
}.

Definition NewHttp2Parser (hpack_new : D) : Http2Parser := mk_parser hpack_new hpack_new ∅ 0.

(** The frame header at the start of a string of at least nine bytes. *)
Definition frame_header (s : string) : Http2FrameHeader :=
  mk_header (default 0 (byte_at 3 s)) (default 0 (byte_at 4 s))
    (Z.shiftr (default 0 (be_uint32 0 s)) 8)
    (Z.land (default 0 (be_uint32 5 s)) (2 ^ 31 - 1)).

(** The emit function of a client header frame, applied to one field. *)
Definition client_field (r : Http2Request) (hf : string * string) : Http2Request :=
  let '(name, value) := hf in
  if String.eqb name ":method" then
    if String.eqb (Method r) "" && isHttpMethod value
    then mk_request value (Path r) (Scheme r) (Status r) (GrpcStatus r) (Duration r) (kernelTime r) else r
  else if String.eqb name ":path" then
    if String.eqb (Path r) "" && isHttpPath value
    then mk_request (Method r) value (Scheme r) (Status r) (GrpcStatus r) (Duration r) (kernelTime r) else r
  else if String.eqb name ":scheme" then
    if String.eqb (Scheme r) "" && isHttpScheme value
    then mk_request (Method r) (Path r) value (Status r) (GrpcStatus r) (Duration r) (kernelTime r) else r
  else r.

(** The emit function of a server header frame: the two maps of statuses. *)
Definition server_field (id : Z) (st : gmap Z Z * gmap Z Z) (hf : string * string)
    : gmap Z Z * gmap Z Z :=
  let '(statuses, grpc) := st in
  let '(name, value) := hf in
  if String.eqb name ":status" then (<[id := atoi_value value]> statuses, grpc)
  else if String.eqb name "grpc-status" then (statuses, <[id := atoi_value value]> grpc)
  else st.

(** What a call of [Parse] keeps while it walks the frames. *)
Record walk := mk_walk {
  dec : D;
  active : gmap Z Http2Request;
  statuses : gmap Z Z;
  grpcStatuses : gmap Z Z;
}.

(** A header frame whose block (cut at the end of the payload) is [block]: the walk
    afterwards, and whether the decoder failed. *)
Definition header_frame (client : bool) (kt : Z) (id : Z) (block : string) (w : walk) : walk * bool :=
  let '(fields, failed, d) := hpack_write block (dec w) in
  if client then
    let req := default (new_request kt) (active w !! id) in
    (mk_walk d (<[id := foldl client_field req fields]> (active w)) (statuses w) (grpcStatuses w), failed)
  else
    let sts := match statuses w !! id with
               | Some _ => statuses w
               | None => <[id := 0]> (statuses w)
               end in
    let '(sts, grpc) := foldl (server_field id) (sts, grpcStatuses w) fields in
    (mk_walk d (active w) sts grpc, failed).

(** The loop over the frames; [rest] is [payload[offset:]].  Every round consumes at
    least a frame header; [None] is out of fuel. *)
Fixpoint frames (fuel : nat) (client : bool) (kt : Z) (rest : string) (w : walk) : option walk :=
  match fuel with
  | O => None
  | S fuel =>
      if (String.length rest <? http2FrameHeaderLength)%nat then Some w
      else
        let h := frame_header rest in
        let rest := str_drop http2FrameHeaderLength rest in
        if negb (Type_ h =? FrameHeaders) then
          if str_len rest <? Length h then Some w
          else frames fuel client kt (str_drop (Z.to_nat (Length h)) rest) w
        else
          let '(w, failed) := header_frame client kt (StreamId h) (str_take (Z.to_nat (Length h)) rest) w in
          frames fuel client kt (if failed then rest else str_drop (Z.to_nat (Length h)) rest) w
  end.

(** One status of the report: the request it completes, if it is active. *)
Definition report_one (kt : Z) (grpc : gmap Z Z) (e : Z * Z)
    (acc : list Http2Request * gmap Z Http2Request) : list Http2Request * gmap Z Http2Request :=
  let '(id, status) := e in
  let '(res, act) := acc in
  match act !! id with
  | None => acc
  | Some r =>
      (mk_request (Method r) (Path r) (Scheme r) status (default (-1) (grpc !! id))
         (i64 (u64 (kt - kernelTime r))) (kernelTime r) :: res, delete id act)
  end.

Definition gc_active (kt : Z) (act : gmap Z Http2Request) : gmap Z Http2Request :=
  filter (fun e => ~ http2DecoderGcInterval < u64 (kt - kernelTime e.2)) act.

Definition Parse (fuel : nat) (method : Z) (payload : string) (kt : Z) (p : Http2Parser)
    : option (list Http2Request * Http2Parser) :=
  let client := method =? MethodHttp2ClientFrames in
  let payload := if client && has_prefix ClientPreface payload
                 then str_drop (String.length ClientPreface) payload else payload in
  if String.eqb payload "" then Some ([], p)
  else if negb client && negb (method =? MethodHttp2ServerFrames) then Some ([], p)
  else
    let w := mk_walk (if client then clientDecoder p else serverDecoder p) (activeRequests p) ∅ ∅ in
    match frames fuel client kt payload w with
    | None => None
    | Some w =>
        let d := hpack_close (dec w) in
        let '(res, act) :=
          foldr (report_one kt (grpcStatuses w)) ([], active w) (map_to_list (statuses w)) in
        let '(act, gc) :=
          if http2DecoderGcInterval <? u64 (kt - lastGcTime p)
          then (if 0 <? lastGcTime p then gc_active kt act else act, kt)
          else (act, lastGcTime p) in
        Some (res, if client then mk_parser d (serverDecoder p) act gc
                   else mk_parser (clientDecoder p) d act gc)
    end.


(** ** Lemmas *)

(** Every round consumes at least a frame header. *)
Lemma frames_total fuel client kt rest w :
  (String.length rest < fuel)%nat -> is_Some (frames fuel client kt rest w).
Proof.
  revert rest w. induction fuel as [|fuel IH]; intros rest w Hf; [lia|]. cbn [frames].
  destruct (String.length rest <? http2FrameHeaderLength)%nat eqn:E; [by eexists|].
  apply Nat.ltb_ge in E. unfold http2FrameHeaderLength in *.
  assert (forall n, (String.length (str_drop n (str_drop 9 rest)) < fuel)%nat) as Hd
    by (intros n; rewrite !str_length_drop; lia).
  case_match; [case_match; [by eexists | apply IH, Hd]|].
  destruct (header_frame _ _ _ _ _) as [w' failed]. apply IH.
  destruct failed; [apply (Hd 0%nat) | apply Hd].
Qed.

(** What a walk of server frames leaves of the active requests. *)
Lemma server_frames_active fuel kt rest w w' :
  frames fuel false kt rest w = Some w' -> active w' = active w.
Proof.
  revert rest w. induction fuel as [|fuel IH]; intros rest w; [done|]. cbn [frames].
  case_match; [by intros [= <-]|]. case_match; [case_match; [by intros [= <-] | apply IH]|].
  destruct (header_frame _ _ _ _ _) as [w1 failed] eqn:Eh. intros Hr. rewrite (IH _ _ Hr).
  unfold header_frame in Eh. destruct (hpack_write _ _) as [[fields fl] d].
  destruct (foldl _ _ fields). by injection Eh as <- _.
Qed.

(** A walk of client frames keeps the age of a request that was active. *)
Lemma client_fields_time fields r : kernelTime (foldl client_field r fields) = kernelTime r.
Proof.
  revert r. induction fields as [|[name value] fields IH]; intros r; cbn; [done|].
  rewrite IH. unfold client_field. by repeat case_match.
Qed.

Lemma client_frames_time fuel kt rest w w' id r :
  frames fuel true kt rest w = Some w' -> active w !! id = Some r ->
  exists r', active w' !! id = Some r' /\ kernelTime r' = kernelTime r.
Proof.
  revert rest w r. induction fuel as [|fuel IH]; intros rest w r; [done|]. cbn [frames].
  case_match; [intros [= <-]; eauto|]. case_match; [case_match; [intros [= <-]; eauto | apply IH]|].
  destruct (header_frame _ _ _ _ _) as [w1 failed] eqn:Eh. intros Hr Hact.
  unfold header_frame in Eh. destruct (hpack_write _ _) as [[fields fl] d].
  apply (f_equal fst) in Eh. cbn [fst] in Eh. subst w1. remember (StreamId (frame_header rest)) as id' eqn:Eid. clear Eid.
  destruct (decide (id' = id)) as [E|Hne].
  - destruct (IH _ _ (foldl client_field r fields) Hr) as (r' & Hr' & Ht).
    { cbn. by rewrite E, Hact, lookup_insert_eq. }
    exists r'. split; [done|]. by rewrite Ht, client_fields_time.
  - eapply IH; [exact Hr|]. cbn. by rewrite lookup_insert_ne.
Qed.

(** The request as it is reported. *)
Definition completed (kt status : Z) (grpc : option Z) (r r' : Http2Request) : Prop :=
  r' = mk_request (Method r) (Path r) (Scheme r) status (default (-1) grpc)
         (i64 (u64 (kt - kernelTime r))) (kernelTime r).

Lemma report_spec kt grpc (l : list (Z * Z)) act :
  NoDup l.*1 ->
  let '(res, act') := foldr (report_one kt grpc) ([], act) l in
  (forall id, act' !! id = if decide (id ∈ l.*1) then None else act !! id) /\
  res = omap (fun e => (fun r => mk_request (Method r) (Path r) (Scheme r) e.2 (default (-1) (grpc !! e.1))
          (i64 (u64 (kt - kernelTime r))) (kernelTime r)) <$> act !! e.1) l.
Proof.
  induction l as [|[id st] l IH]; cbn [foldr fmap list_fmap fst omap list_omap]; intros Hnd.
  { split; [intros id; by rewrite decide_False by apply not_elem_of_nil | done]. }
  inversion Hnd as [|? ? Hnin Hnd']; subst. specialize (IH Hnd').
  destruct (foldr _ _ l) as [res act']. destruct IH as [Hact Hres]. unfold report_one.
  rewrite (Hact id), decide_False by done. cbn [snd].
  destruct (act !! id) as [r|] eqn:Er; cbn [fmap option_fmap option_map].
  - split; [|by rewrite Hres]. intros id'.
    rewrite (decide_ext _ (id' = id \/ id' ∈ l.*1)) by apply elem_of_cons.
    destruct (decide (id = id')) as [<-|Hne]; [rewrite lookup_delete_eq, decide_True by auto; done|].
    rewrite lookup_delete_ne, Hact by done. repeat case_decide; intuition congruence.
  - split; [|done]. intros id'.
    rewrite (decide_ext _ (id' = id \/ id' ∈ l.*1)) by apply elem_of_cons.
    rewrite Hact. repeat case_decide; try done; intuition congruence.
Qed.

(** ** Properties *)

Abbreviation parse := (Parse hpack_write hpack_close ClientPreface FrameHeaders).

(** A call of [Parse] that gets past its early returns. *)
Lemma Parse_inv fuel method payload kt p res p' :
  Parse fuel method payload kt p = Some (res, p') ->
  (res = [] /\ p' = p) \/
  exists w rest act,
    let client := method =? MethodHttp2ClientFrames in
    (client = false -> method = MethodHttp2ServerFrames) /\
    frames fuel client kt rest
      (mk_walk (if client then clientDecoder p else serverDecoder p) (activeRequests p) ∅ ∅) = Some w /\
    foldr (report_one kt (grpcStatuses w)) ([], active w) (map_to_list (statuses w)) = (res, act) /\
    ((activeRequests p' = act /\ lastGcTime p' = lastGcTime p) \/
     (lastGcTime p' = kt /\
      activeRequests p' = if 0 <? lastGcTime p then gc_active kt act else act)).
Proof.
  unfold Parse. set (client := method =? MethodHttp2ClientFrames).
  set (rest := if _ : bool then str_drop _ payload else payload).
  destruct (String.eqb rest ""); [intros [= <- <-]; by left|].
  destruct (negb client && _) eqn:Em; [intros [= <- <-]; by left|].
  destruct (frames _ _ _ _ _) as [w|] eqn:Ef; [|done].
  destruct (foldr _ _ _) as [r act] eqn:Er. intros Hp. right. exists w, rest, act.
  assert (client = false -> method = MethodHttp2ServerFrames) as Hm.
  { intros E. rewrite E in Em. cbn in Em. apply negb_false_iff, Z.eqb_eq in Em. done. }
  destruct (http2DecoderGcInterval <? _); injection Hp as <- <-; split_and!; try done;
    destruct client; cbn; auto.
Qed.

(** No frame of a client carries a status. *)
Lemma client_frames_statuses fuel kt rest w w' :
  frames fuel true kt rest w = Some w' -> statuses w' = statuses w.
Proof.
  revert rest w. induction fuel as [|fuel IH]; intros rest w; [done|]. cbn [frames].
  case_match; [by intros [= <-]|]. case_match; [case_match; [by intros [= <-] | apply IH]|].
  destruct (header_frame _ _ _ _ _) as [w1 failed] eqn:Eh. intros Hr. rewrite (IH _ _ Hr).
  unfold header_frame in Eh. destruct (hpack_write _ _) as [[fields fl] d].
  apply (f_equal fst) in Eh. cbn [fst] in Eh. by subst w1.
Qed.

(** Parsing a capture always returns (each round consumes a frame header);
    client frames are never reported; and when the parser collects, no request
    older than the interval is left active. *)
Theorem http2_parse_returns method payload kt p :
  exists res p', Parse (S (String.length payload)) method payload kt p = Some (res, p') /\
    (method = MethodHttp2ClientFrames -> res = []) /\
    (lastGcTime p' <> lastGcTime p -> 0 < lastGcTime p ->
     map_Forall (fun _ r => u64 (kt - kernelTime r) <= http2DecoderGcInterval) (activeRequests p')).
Proof.
  assert (exists x, Parse (S (String.length payload)) method payload kt p = Some x) as [[res p'] Hp].
  { unfold Parse. set (rest := if _ : bool then str_drop _ payload else payload).
    destruct (String.eqb rest ""); [by eexists|]. destruct (negb _ && _); [by eexists|].
    set (w0 := mk_walk _ _ _ _). set (client := _ =? _).
    destruct (frames_total (S (String.length payload)) client kt rest w0) as [w ->].
    { subst rest. case_match; rewrite ?str_length_drop; lia. }
    destruct (foldr _ _ _). destruct (http2DecoderGcInterval <? _); by eexists. }
  exists res, p'. split; [done|]. apply Parse_inv in Hp as [[-> ->]|(w & rest & act & Hm & Hf & Hr & Hgc)].
  { done. }
  split.
  - intros ->. change (MethodHttp2ClientFrames =? MethodHttp2ClientFrames) with true in Hf.
    apply client_frames_statuses in Hf. cbn [statuses] in Hf. rewrite Hf, map_to_list_empty in Hr. by injection Hr.
  - intros Hne Hpos. destruct Hgc as [[_ ?]|[_ ->]]; [done|].
    rewrite (proj2 (Z.ltb_lt _ _) Hpos). intros id r Hid. apply map_lookup_filter_Some in Hid as [_ Hid].
    cbn in Hid. lia.
Qed.

(** A response is reported once: every request reported for a capture of server
    frames was active on its own stream, is reported with the method, path and
    scheme that were recorded and the time since its first frame, and is not active
    afterwards; no request becomes active. *)
Theorem http2_reports_once fuel payload kt p res p' :
  Parse fuel MethodHttp2ServerFrames payload kt p = Some (res, p') ->
  (exists ids, NoDup ids /\
     Forall2 (fun id r' => activeRequests p' !! id = None /\
       exists r status grpc, activeRequests p !! id = Some r /\ completed kt status grpc r r') ids res) /\
  activeRequests p' ⊆ activeRequests p.
Proof.
  intros Hp. apply Parse_inv in Hp as [[-> ->]|(w & rest & act & _ & Hf & Hr & Hgc)].
  { split; [|done]. exists []. split; [constructor | constructor]. }
  change (MethodHttp2ServerFrames =? MethodHttp2ClientFrames) with false in Hf.
  apply server_frames_active in Hf. cbn [active] in Hf.
  pose proof (report_spec kt (grpcStatuses w) (map_to_list (statuses w)) (active w)
    (NoDup_fst_map_to_list _)) as Hs.
  rewrite Hr, Hf in Hs. destruct Hs as [Hact ->].
  assert (forall id, activeRequests p' !! id = None \/ activeRequests p' !! id = act !! id) as Hle.
  { intros id. destruct Hgc as [[-> _]|[_ ->]]; [by right|]. case_match; [|by right].
    destruct (gc_active kt act !! id) as [r|] eqn:E; [right|by left].
    apply map_lookup_filter_Some in E as [E _]. done. }
  split.
  - exists (omap (fun e => match activeRequests p !! e.1 with Some _ => Some e.1 | None => None end) (map_to_list (statuses w))).
    assert (forall id, id ∈ (map_to_list (statuses w)).*1 -> activeRequests p' !! id = None) as Hnone.
    { intros id Hid. destruct (Hle id) as [?| ->]; [done|]. by rewrite Hact, decide_True. }
    pose proof (NoDup_fst_map_to_list (statuses w)) as Hnd. clear Hr Hact. revert Hnd Hnone.
    induction (map_to_list (statuses w)) as [|[id st] l IH]; cbn; intros Hnd Hnone;
      [split; constructor|].
    inversion Hnd as [|? ? Hnin Hnd']; subst.
    destruct IH as [IH1 IH2]; [exact Hnd' | intros; apply Hnone; by right |].
    destruct (activeRequests p !! id) as [r|] eqn:Er; cbn; [|done]. split.
    + constructor; [|done]. intros Hin. apply Hnin. apply list_elem_of_omap in Hin as ([id' st'] & Hin & Heq).
      cbn in Heq. destruct (activeRequests p !! id'); [|done]. injection Heq as ->.
      by apply (list_elem_of_fmap_2 fst) in Hin.
    + constructor; [|done]. split; [apply Hnone; by left|]. by eexists r, st, _.
  - apply map_subseteq_spec. intros id r Hid. destruct (Hle id) as [E|E]; rewrite E in Hid; [done|].
    rewrite Hact in Hid. by case_decide.
Qed.

End parser.

(** ** Witnesses *)

(** A decoder that emits two fields for every block, and one that fails on a block
    that does not start with an exclamation mark. *)
Definition wwrite (block : string) (d : unit) : list (string * string) * bool * unit :=
  ([(":status", "200"); ("grpc-status", "5")], false, d).
Definition wactive : Http2Parser (D := unit) :=
  mk_parser tt tt {[ 1 := mk_request "GET" "/a" "http" 0 0 0 100 ]} 0.
(** A header frame of stream 1 with an empty block. *)
Definition wframe : string := of_bytes [0; 0; 0; 1; 4; 0; 0; 0; 1].

Lemma http2_reports_once_witness :
  exists p', Parse wwrite id "PRI" 1 20 MethodHttp2ServerFrames wframe 350 wactive =
    Some ([mk_request "GET" "/a" "http" 200 5 250 100], p') /\
  activeRequests p' ⊆ activeRequests wactive.
Proof.
  assert (exists p', Parse wwrite id "PRI" 1 20 MethodHttp2ServerFrames wframe 350 wactive =
    Some ([mk_request "GET" "/a" "http" 200 5 250 100], p')) as [p' E]
    by (eexists; vm_compute; reflexivity).
  exists p'. split; [exact E|].
  exact (proj2 (http2_reports_once wwrite id "PRI" 1 20 wframe 350 wactive _ p' E)).
Defined.

(** ** What the model shows *)

(** After a block the decoder refuses, the parser goes on inside that block: bytes of
    the block are read as the next frame, here a header frame of stream 7 that was
    never sent. *)
Definition wfail (block : string) (d : unit) : list (string * string) * bool * unit :=
  if has_prefix wframe block || (str_len block =? 0) then ([], negb (str_len block =? 0), d) else ([], true, d).

Lemma refused_block_is_read_as_frames :
  let block := of_bytes [0; 0; 0; 1; 4; 0; 0; 0; 7] in
  let payload := of_bytes [0; 0; 9; 1; 4; 0; 0; 0; 1] +:+ block in
  exists res p', Parse wfail id "PRI" 1 20 MethodHttp2ClientFrames payload 5
    (NewHttp2Parser (D := unit) tt) = Some (res, p') /\ is_Some (activeRequests p' !! 7).
Proof. eexists _, _. split; [vm_compute; reflexivity | vm_compute; by eexists]. Qed.

End Http2.
