(* ===== verification/CriTailer.v ===== *)
(** * The tailer of pod logs (internal/logs: cri_tailer.go, cursor.go)

    The names derived from pods and files, the discovery of the files to follow, the
    incremental reading of a growing file and the parsing of its lines.

    A file is its inode and its bytes.  The parsers of the Standard Library for
    RFC 3339 times and JSON texts, the formatting of a float64 and the Unicode case
    mappings are arguments; JSON values are those of [Processing]. *)

From S2P Require Import Prelude GoStrings Wire Processing.
#[local] Open Scope Z_scope.

Module CriTailer.
Import Processing.

Definition criPodsDir : string := "/var/log/pods".
Definition criMaxReadPerPoll : Z := 4 * 1024 * 1024.
Definition criMaxLineBytes : Z := 256 * 1024.

(** ** Cursors (cursor.go), in memory *)

Record CursorEntry := mk_cursor {
  Offset : Z;
  Inode : Z;
}.

Definition CursorStore : Type := gmap string CursorEntry.

Definition cursor_get (id : string) (cs : CursorStore) : option CursorEntry := cs !! id.
Definition cursor_set (id : string) (e : CursorEntry) (cs : CursorStore) : CursorStore := <[id := e]> cs.
Definition cursor_remove (id : string) (cs : CursorStore) : CursorStore := delete id cs.

(** ** Names *)

Section names.
Variable ToLower : string -> string.

(** [strings.ReplaceAll(s, "_", "-")]. *)
Definition dashes (s : string) : string := map_bytes (fun z => if z =? 95 then 45 else z) s.

Definition name_byte (z : Z) : bool := ((97 <=? z) && (z <=? 122)) || is_digit z || (z =? 45).

Definition sanitizeName (s : string) : string :=
  let out := of_bytes (filter (fun z => name_byte z = true) (bytes_of (dashes (ToLower s)))) in
  if String.eqb out "" then "unknown" else out.

(** The name of a pod directory: namespace and pod. *)
Definition parsePodDirName (name : string) : option (string * string) :=
  let parts := split "_" name in
  if (length parts <? 3)%nat then None
  else
    let namespace := List.hd "" parts in
    let pod := join "_" (removelast (List.tl parts)) in
    if String.eqb namespace "" || String.eqb pod "" then None else Some (namespace, pod).

Definition isAllDigits (s : string) : bool := negb (String.eqb s "") && forallb is_digit (bytes_of s).

Definition looksLikeHash (s : string) : bool :=
  (4 <=? str_len s) && (str_len s <=? 10) &&
  forallb (fun z => is_digit z || ((97 <=? z) && (z <=? 122))) (bytes_of s) &&
  existsb is_digit (bytes_of s).

Definition deriveK8sServiceName (pod : string) : string :=
  let segs := split "-" pod in
  let n := length segs in
  let last := List.last segs "" in
  let upto k := sanitizeName (join "-" (take (n - k) segs)) in
  if (n <? 2)%nat then sanitizeName pod
  else if isAllDigits last then upto 1%nat
  else if (3 <=? n)%nat && looksLikeHash last && looksLikeHash (nth (n - 2) segs "") then upto 2%nat
  else if looksLikeHash last then upto 1%nat
  else sanitizeName pod.
End names.

(** The numeric log file of the highest number in a directory, given as the names and
    kinds of its entries in order. *)
Definition log_number (name : string) : option Z :=
  if has_suffix ".log" name then atoi (trim_suffix ".log" name) else None.

Definition better_log (best : Z * string) (e : string * bool) : Z * string :=
  let '(name, is_dir) := e in
  if is_dir then best
  else match log_number name with
       | Some n => if best.1 <? n then (n, name) else best
       | None => best
       end.

Definition highestLogFile (dir : string) (entries : option (list (string * bool))) : string :=
  match entries with
  | None => ""
  | Some es =>
      let best := (foldl better_log (-1, "") es).2 in
      if String.eqb best "" then "" else dir +:+ "/" +:+ best
  end.

(** ** Discovery *)

Record criFileInfo := mk_file_info {
  fi_namespace : string;
  fi_pod : string;
  fi_container : string;
}.

(** A pod directory: its name, whether it is a directory, and its container
    directories with their entries (None when a listing fails). *)
Record pod_entry := mk_pod_entry {
  pe_name : string;
  pe_is_dir : bool;
  pe_containers : option (list (string * bool * option (list (string * bool))));
}.

Record Tailer := mk_tailer {
  excludeNS : gset string;
  readers : gmap string criFileInfo;
  cursors : CursorStore;
}.

(** The listing of the root: missing, failed, or its entries. *)
Inductive listing := NotExist | Failed | Listed (pods : list pod_entry).

Definition active_in_pod (exclude : gset string) (active : gmap string criFileInfo) (pd : pod_entry)
    : gmap string criFileInfo :=
  if negb (pe_is_dir pd) then active
  else match parsePodDirName (pe_name pd) with
       | None => active
       | Some (namespace, pod) =>
           if bool_decide (namespace ∈ exclude) then active
           else
             foldl (fun active cd =>
                 let '(name, is_dir, entries) := cd in
                 if negb is_dir then active
                 else
                   let logFile := highestLogFile
                     (criPodsDir +:+ "/" +:+ pe_name pd +:+ "/" +:+ name) entries in
                   if String.eqb logFile "" then active
                   else <[logFile := mk_file_info namespace pod name]> active)
               active (default [] (pe_containers pd))
       end.

Definition active_files (exclude : gset string) (pods : list pod_entry) : gmap string criFileInfo :=
  foldl (active_in_pod exclude) ∅ pods.

(** Readers of files no longer active end, with their cursors; new files get one. *)
Definition discover (l : listing) (t : Tailer) : Tailer :=
  match l with
  | NotExist | Failed => t
  | Listed pods =>
      let active := active_files (excludeNS t) pods in
      let gone := filter (fun path => active !! path = None) ((map_to_list (readers t)).*1) in
      let kept := foldl (fun m path => delete path m) (readers t) gone in
      mk_tailer (excludeNS t) (kept ∪ active)
        (foldl (fun cs path => cursor_remove path cs) (cursors t) gone)
  end.

(** ** Lines *)

Definition newline : Ascii.ascii := chr 10.

(** The complete lines of some bytes, without their newlines, and what follows the
    last newline: the successive results of [ReadBytes] until the end. *)
Fixpoint complete_lines (l : list Ascii.ascii) : list (list Ascii.ascii) * list Ascii.ascii :=
  match l with
  | [] => ([], [])
  | c :: l =>
      let '(ls, rest) := complete_lines l in
      if Ascii.eqb c newline then ([] :: ls, rest)
      else match ls with
           | [] => ([], c :: rest)
           | x :: ls => ((c :: x) :: ls, rest)
           end
  end.

(** [strings.TrimRight(line, "\r\n")]. *)
Fixpoint trim_crlf (l : list Ascii.ascii) : list Ascii.ascii :=
  match l with
  | [] => []
  | c :: l =>
      match trim_crlf l with
      | [] => if Ascii.eqb c newline || Ascii.eqb c (chr 13) then [] else [c]
      | l' => c :: l'
      end
  end.

Record LogRecord := mk_log_record {
  TimestampUnixNano : Z;
  LogServiceName : string;
  Hostname : string;
  SeverityNumber : Z;
  SeverityText : string;
  Body : string;
  TraceID : string;
  SpanID : string;
  LogAttributes : tagmap;
}.

Definition streamToSeverity (stream : string) : Z * string :=
  if String.eqb stream "stderr" then (13, "WARN") else (9, "INFO").

(** The first non-empty value among keys. *)
Fixpoint firstField (m : tagmap) (keys : list string) : string :=
  match keys with
  | [] => ""
  | k :: keys => if String.eqb (tag k m) "" then firstField m keys else tag k m
  end.

Section parsing.
Variable ToUpper : string -> string.
Variable parse_time : string -> option Z.   (* time.Parse(time.RFC3339Nano, s), as UnixNano *)
Variable unmarshal : string -> option (gmap string json).   (* json.Unmarshal into a map *)
Variable format_number : string -> string.   (* strconv.FormatFloat(v, 'f', -1, 64) of a number *)

Definition levelToSeverity (lv : string) : option (Z * string) :=
  let l := ToUpper (trim_space lv) in
  let one_of := fun names => existsb (String.eqb l) names in
  if one_of ["TRACE"] then Some (1, "TRACE")
  else if one_of ["DEBUG"] then Some (5, "DEBUG")
  else if one_of ["INFO"; "INFORMATION"; "NOTICE"] then Some (9, "INFO")
  else if one_of ["WARN"; "WARNING"] then Some (13, "WARN")
  else if one_of ["ERROR"; "ERR"; "SEVERE"] then Some (17, "ERROR")
  else if one_of ["FATAL"; "CRITICAL"; "CRIT"; "EMERGENCY"; "ALERT"] then Some (21, "FATAL")
  else None.

(** A string field of "mdc" does not overwrite a field already there. *)
Definition flatten_mdc (out : tagmap) (e : string * json) : tagmap :=
  match e.2 with
  | JString s => match out !! e.1 with Some _ => out | None => <[e.1 := s]> out end
  | _ => out
  end.

Definition add_field (out : tagmap) (e : string * json) : tagmap :=
  let '(k, v) := e in
  match v with
  | JString s => <[k := s]> out
  | JNumber text => <[k := format_number text]> out
  | JBool b => <[k := if b then "true" else "false"]> out
  | JObject m => if String.eqb k "mdc" then foldl flatten_mdc out (map_to_list m) else out
  | _ => out
  end.

(** The fields of an object, enumerated in the order [order]. *)
Definition fields_in (order : list (string * json)) : tagmap := foldl add_field ∅ order.

Definition jsonLogFields (line : string) : option tagmap :=
  let s := trim_space line in
  match byte_at 0 s with
  | Some 123 => (fun m => fields_in (map_to_list m)) <$> unmarshal s
  | _ => None
  end.

Definition parseCRITime (now : Z) (s : string) : Z := default now (parse_time s).

Definition message_keys : list string := ["message"; "msg"; "body"; "log"; "@message"; "event"].
Definition trace_keys : list string := ["trace_id"; "traceId"; "traceID"; "otel.trace_id"].
Definition span_keys : list string := ["span_id"; "spanId"; "spanID"; "otel.span_id"].
Definition level_keys : list string := ["level"; "severity"; "severity_text"; "levelname"; "lvl"].

(** The record of a logical line. *)
Definition make_record (now : Z) (hostname : string) (meta : criFileInfo) (svc tsStr stream full : string)
    : LogRecord :=
  let '(sevNum, sevText) := streamToSeverity stream in
  let attrs : tagmap := {[ "k8s.namespace.name" := fi_namespace meta; "k8s.pod.name" := fi_pod meta;
                  "k8s.container.name" := fi_container meta; "stream" := stream; "source" := "k8s" ]} in
  match jsonLogFields full with
  | None => mk_log_record (parseCRITime now tsStr) svc hostname sevNum sevText full "" "" attrs
  | Some fields =>
      let m := firstField fields message_keys in
      let '(sevNum, sevText) := default (sevNum, sevText) (levelToSeverity (firstField fields level_keys)) in
      mk_log_record (parseCRITime now tsStr) svc hostname sevNum sevText
        (if String.eqb m "" then full else m)
        (firstField fields trace_keys) (firstField fields span_keys) attrs
  end.

(** One line of a file; [partial] is the text of the P lines so far. *)
Definition handleLine (now : Z) (hostname : string) (meta : criFileInfo) (svc line partial : string)
    : option LogRecord * string :=
  if String.eqb line "" then (None, partial)
  else
    match split_n 4 " " line with
    | tsStr :: stream :: tg :: more =>
        let msg := match more with m :: _ => m | [] => "" end in
        if String.eqb tg "P" then
          (None, if str_len partial <? criMaxLineBytes then partial +:+ msg else partial)
        else
          let '(full, partial) := if 0 <? str_len partial then (partial +:+ msg, "") else (msg, partial) in
          (Some (make_record now hostname meta svc tsStr stream full), partial)
    | _ => (None, partial)
    end.

Fixpoint handle_lines (now : Z) (hostname : string) (meta : criFileInfo) (svc : string)
    (lines : list string) (partial : string) : list LogRecord * string :=
  match lines with
  | [] => ([], partial)
  | line :: lines =>
      let '(r, partial) := handleLine now hostname meta svc line partial in
      let '(rs, partial) := handle_lines now hostname meta svc lines partial in
      (option_list r ++ rs, partial)
  end.

(** ** Incremental reading *)

Record Reader := mk_reader {
  offset : Z;
  inode : Z;
  partial : string;
}.

(** The start of a reader: the saved cursor, else the end of the file. *)
Definition start_reader (cursor : option CursorEntry) (stat : option (Z * Z)) : Reader :=
  match cursor with
  | Some c => mk_reader (Offset c) (Inode c) ""
  | None => match stat with
            | Some (ino, size) => mk_reader size ino ""
            | None => mk_reader 0 0 ""
            end
  end.

(** One poll: [stat] is the inode and size of the path, [content] the bytes of the file
    that is then opened.  The result is the cursor that is saved, when one is. *)
Definition readOnce (now : Z) (hostname : string) (meta : criFileInfo) (svc : string)
    (stat : option (Z * Z)) (content : option (list Ascii.ascii)) (r : Reader)
    : list LogRecord * option CursorEntry * Reader :=
  match stat with
  | None => ([], None, r)
  | Some (curInode, size) =>
      let r := if negb (curInode =? inode r) || (size <? offset r)
               then mk_reader 0 curInode "" else r in
      if size <=? offset r then ([], None, r)
      else
        match content with
        | None => ([], None, r)
        | Some bytes =>
            let limit := Z.min (size - offset r) criMaxReadPerPoll in
            let data := take (Z.to_nat limit) (drop (Z.to_nat (offset r)) bytes) in
            let '(lines, rest) := complete_lines data in
            let consumed := Z.of_nat (length data) - Z.of_nat (length rest) in
            let '(records, p) := handle_lines now hostname meta svc
              ((fun l => String.string_of_list_ascii (trim_crlf l)) <$> lines) (partial r) in
            let r := mk_reader (offset r + consumed) (inode r) p in
            (records, Some (mk_cursor (offset r) (inode r)), r)
        end
  end.
End parsing.
End CriTailer.
