(* ===== verification/CriTailerProps.v ===== *)
(** * The tailer of pod logs: properties

    Polling a growing file reads each of its complete lines once and in order,
    wherever the polls cut it; the lines that the kubelet splits are put together
    again; the fields of a JSON line do not depend on the order of enumeration. *)

From S2P Require Import Prelude GoStrings Wire Processing CriTailer.
#[local] Open Scope Z_scope.

Module CriTailerProps.
Import Processing CriTailer.

(** ** Lines of bytes *)

Abbreviation bytes := (list Ascii.ascii).

Definition unlines (ls : list bytes) : bytes := concat ((fun l => l ++ [newline]) <$> ls).

Lemma complete_lines_spec (l : bytes) ls rest :
  complete_lines l = (ls, rest) ->
  l = unlines ls ++ rest /\ Forall (fun x => newline ∉ x) ls /\ newline ∉ rest.
Proof.
  revert ls rest. induction l as [|c l IH]; intros ls rest; cbn [complete_lines].
  { intros [= <- <-]. split_and!; [done|done|apply not_elem_of_nil]. }
  destruct (complete_lines l) as [ls0 rest0] eqn:E. destruct (IH ls0 rest0 eq_refl) as (-> & Hls & Hr).
  destruct (Ascii.eqb_spec c newline) as [->|Hc].
  - intros [= <- <-]. split_and!; [done| |done]. constructor; [apply not_elem_of_nil|done].
  - destruct ls0 as [|x ls0]; intros [= <- <-].
    + split_and!; [done|done|]. rewrite not_elem_of_cons. split; [congruence|done].
    + inversion Hls as [|? ? Hx Hls']; subst. split_and!; [done| |done].
      constructor; [|done]. rewrite not_elem_of_cons. split; [congruence|done].
Qed.

Lemma complete_lines_none (l : bytes) : newline ∉ l -> complete_lines l = ([], l).
Proof.
  induction l as [|c l IH]; intros H; [done|]. cbn [complete_lines].
  apply not_elem_of_cons in H as [Hc Hl]. rewrite (IH Hl).
  destruct (Ascii.eqb_spec c newline) as [->|]; [done|done].
Qed.

Lemma complete_lines_unlines ls rest :
  Forall (fun x => newline ∉ x) ls -> newline ∉ rest ->
  complete_lines (unlines ls ++ rest) = (ls, rest).
Proof.
  intros Hls Hr. induction Hls as [|x ls Hx Hls IH]; [by apply complete_lines_none|].
  unfold unlines. cbn [fmap list_fmap concat]. fold (unlines ls). rewrite <- !app_assoc.
  induction x as [|c x IHx]; cbn [app complete_lines].
  - rewrite IH. destruct (Ascii.eqb_spec newline newline); [done|done].
  - apply not_elem_of_cons in Hx as [Hc Hx]. cbn [app] in IHx. rewrite (IHx Hx).
    destruct (Ascii.eqb_spec c newline) as [->|]; [done|done].
Qed.

Lemma unlines_app ls ks : unlines (ls ++ ks) = unlines ls ++ unlines ks.
Proof. unfold unlines. by rewrite fmap_app, concat_app. Qed.

(** ** One poll *)

Section polls.
Variable ToUpper : string -> string.
Variable parse_time : string -> option Z.
Variable unmarshal : string -> option (gmap string json).
Variable format_number : string -> string.
Variables (now : Z) (hostname : string) (meta : criFileInfo) (svc : string).

Definition handle (ls : list bytes) (p : string) : list LogRecord * string :=
  handle_lines ToUpper parse_time unmarshal format_number now hostname meta svc
    ((fun l => String.string_of_list_ascii (trim_crlf l)) <$> ls) p.

Lemma handle_lines_app ls ks p :
  handle_lines ToUpper parse_time unmarshal format_number now hostname meta svc (ls ++ ks) p =
  let '(rs, p) := handle_lines ToUpper parse_time unmarshal format_number now hostname meta svc ls p in
  let '(ts, p) := handle_lines ToUpper parse_time unmarshal format_number now hostname meta svc ks p in
  (rs ++ ts, p).
Proof.
  revert p. induction ls as [|l ls IH]; intros p; cbn [app handle_lines].
  { by destruct (handle_lines _ _ _ _ _ _ _ _ ks p). }
  destruct (handleLine _ _ _ _ _ _ _ _ l p) as [r p1]. rewrite IH.
  destruct (handle_lines _ _ _ _ _ _ _ _ ls p1) as [rs p2].
  destruct (handle_lines _ _ _ _ _ _ _ _ ks p2) as [ts p3]. by rewrite app_assoc.
Qed.

Definition poll (size : Z) (content : bytes) (r : Reader) : list LogRecord * Reader :=
  let '(records, _, r) := readOnce ToUpper parse_time unmarshal format_number now hostname meta svc
                            (Some (inode r, size)) (Some content) r in
  (records, r).

(** What one poll of a file that only grew does: it reads whole lines, and leaves no
    newline behind in the part it could read. *)
Lemma poll_spec c size content r :
  0 <= offset r <= size -> size <= Z.of_nat (length content) -> content `prefix_of` c ->
  exists ls, let '(records, r') := poll size content r in
    take (Z.to_nat (offset r' - offset r)) (drop (Z.to_nat (offset r)) c) = unlines ls /\
    Forall (fun x => newline ∉ x) ls /\
    (records, partial r') = handle ls (partial r) /\
    offset r <= offset r' <= size /\ inode r' = inode r /\
    forall k, offset r' <= k < Z.min size (offset r + criMaxReadPerPoll) ->
      c !! Z.to_nat k <> Some newline.
Proof.
  intros Ho Hsize [ext Hext]. unfold poll, readOnce. rewrite Z.eqb_refl. cbn [negb orb].
  assert ((size <? offset r) = false) as -> by (apply Z.ltb_ge; lia).
  destruct (size <=? offset r) eqn:Ele.
  { exists []. apply Z.leb_le in Ele. rewrite Z.sub_diag. cbn. split_and!; try done; try lia. }
  apply Z.leb_gt in Ele.
  set (limit := Z.min (size - offset r) criMaxReadPerPoll).
  assert (0 < limit) as Hl by (unfold limit, criMaxReadPerPoll; lia).
  set (data := take (Z.to_nat limit) (drop (Z.to_nat (offset r)) content)).
  assert (data = take (Z.to_nat limit) (drop (Z.to_nat (offset r)) c)) as Edata.
  { subst c. unfold data. rewrite drop_app_le by lia. rewrite take_app_le; [done|].
    rewrite length_drop. unfold limit. lia. }
  assert (length data = Z.to_nat limit) as Elen.
  { unfold data. rewrite length_take, length_drop. unfold limit. lia. }
  destruct (complete_lines data) as [ls rest] eqn:E.
  destruct (complete_lines_spec data ls rest E) as (Ed & Hls & Hrest).
  destruct (handle_lines _ _ _ _ _ _ _ _ _ (partial r)) as [records p] eqn:Eh.
  exists ls. cbn [offset partial inode].
  assert (length data = (length (unlines ls) + length rest)%nat) as Elen2 by (by rewrite Ed, length_app).
  split_and!; try done; try lia.
  - assert (Z.to_nat (offset r + (Z.of_nat (length data) - Z.of_nat (length rest)) - offset r)
            = length (unlines ls)) as -> by lia.
    assert (take (length (unlines ls)) data = unlines ls) as Et by (by rewrite Ed, take_app_length).
    rewrite <- Et at 2. rewrite Edata, take_take. f_equal. lia.
  - intros k Hk Hc.
    assert (rest !! (Z.to_nat k - Z.to_nat (offset r) - length (unlines ls))%nat = Some newline) as Hin.
    { assert (data !! (Z.to_nat k - Z.to_nat (offset r))%nat = Some newline) as Hd.
      { rewrite Edata, lookup_take_lt, lookup_drop by (unfold limit; lia).
        replace (Z.to_nat (offset r) + (Z.to_nat k - Z.to_nat (offset r)))%nat with (Z.to_nat k) by lia. done. }
      rewrite Ed in Hd. rewrite lookup_app_r in Hd by lia. done. }
    apply Hrest. by eapply list_elem_of_lookup_2.
Qed.

(** ** Sequences of polls *)

Fixpoint polls (ps : list (Z * bytes)) (r : Reader) : list LogRecord * Reader :=
  match ps with
  | [] => ([], r)
  | (size, content) :: ps =>
      let '(records, r) := poll size content r in
      let '(more, r) := polls ps r in
      (records ++ more, r)
  end.

(** The file only grows: the sizes seen do not decrease, and every content is a
    beginning of the last one. *)
Fixpoint grows (c : bytes) (from : Z) (ps : list (Z * bytes)) : Prop :=
  match ps with
  | [] => True
  | (size, content) :: ps =>
      from <= size <= Z.of_nat (length content) /\ content `prefix_of` c /\ grows c size ps
  end.

Lemma polls_spec c ps from r :
  grows c from ps -> 0 <= offset r <= from ->
  exists ls, let '(records, r') := polls ps r in
    take (Z.to_nat (offset r' - offset r)) (drop (Z.to_nat (offset r)) c) = unlines ls /\
    Forall (fun x => newline ∉ x) ls /\
    (records, partial r') = handle ls (partial r) /\ offset r <= offset r'.
Proof.
  revert from r. induction ps as [|[size content] ps IH]; intros from r Hg Ho; cbn [polls].
  { exists []. rewrite Z.sub_diag. by split_and!. }
  destruct Hg as (Hsize & Hc & Hg).
  destruct (poll_spec c size content r ltac:(lia) ltac:(lia) Hc) as [ls H].
  destruct (poll size content r) as [records r1]. destruct H as (E1 & Hls & Eh & Hr1 & _).
  destruct (IH size r1 Hg ltac:(lia)) as [ks H].
  destruct (polls ps r1) as [more r2]. destruct H as (E2 & Hks & Eh2 & Hr2).
  exists (ls ++ ks). split_and!; [| by apply Forall_app | | lia].
  - rewrite unlines_app, <- E1, <- E2.
    replace (Z.to_nat (offset r2 - offset r))
      with (Z.to_nat (offset r1 - offset r) + Z.to_nat (offset r2 - offset r1))%nat by lia.
    rewrite <- take_take_drop, drop_drop. do 3 f_equal. lia.
  - unfold handle in *. rewrite fmap_app, handle_lines_app, <- Eh, <- Eh2. done.
Qed.

(** C38: A pod's log file that only grows is read exactly once.  From any reader at an
    offset within the file, after any polls, wherever their sizes cut the file, the
    records are those of one pass over the complete lines between the first offset and
    the last one, in order, with the split lines carried across polls; the reader stands
    after a newline; and no newline is left unread in the four megabytes that the last
    poll could see. *)
Theorem polls_read_each_line_once c ps size content from r :
  grows c from (ps ++ [(size, content)]) -> 0 <= offset r <= from ->
  let r1 := (polls ps r).2 in
  let '(records, r2) := polls (ps ++ [(size, content)]) r in
  let read := take (Z.to_nat (offset r2 - offset r)) (drop (Z.to_nat (offset r)) c) in
  complete_lines read = ((complete_lines read).1, []) /\
  (records, partial r2) = handle (complete_lines read).1 (partial r) /\
  (forall k, offset r2 <= k < Z.min size (offset r1 + criMaxReadPerPoll) ->
     c !! Z.to_nat k <> Some newline).
Proof.
  intros Hg Ho. cbv zeta.
  destruct (polls_spec c _ from r Hg Ho) as [ls H].
  assert (polls (ps ++ [(size, content)]) r =
    ((polls ps r).1 ++ (poll size content (polls ps r).2).1, (poll size content (polls ps r).2).2)) as Elast.
  { clear. revert r. induction ps as [|[s b] ps IH]; intros r; cbn [polls app fst snd].
    - destruct (poll size content r) as [records r']. cbn. by rewrite app_nil_r.
    - destruct (poll s b r) as [records r1]. rewrite (IH r1).
      destruct (polls ps r1) as [more r2]. cbn. by rewrite app_assoc. }
  assert (0 <= offset (polls ps r).2 <= size /\ size <= Z.of_nat (length content) /\ content `prefix_of` c)
    as (Hr1 & Hs & Hc).
  { clear H Elast. revert from r Hg Ho. induction ps as [|[s b] ps IH]; intros from r Hg Ho; cbn [polls app] in *.
    - destruct Hg as (? & ? & _). cbn. split_and!; [lia|lia|lia|done].
    - destruct Hg as (H1 & H2 & Hg).
      destruct (poll_spec c s b r ltac:(lia) ltac:(lia) H2) as [ks H].
      destruct (poll s b r) as [records r1]. destruct H as (_ & _ & _ & Hr1 & _).
      specialize (IH s r1 Hg ltac:(lia)). destruct (polls ps r1). exact IH. }
  destruct (poll_spec c size content (polls ps r).2 ltac:(lia) Hs Hc) as [ks Hlast].
  rewrite Elast in *. destruct (poll size content (polls ps r).2) as [records r2]. cbn [fst snd] in *.
  destruct H as (E & Hls & Eh & _). destruct Hlast as (_ & _ & _ & _ & _ & Hk).
  rewrite E. rewrite <- (app_nil_r (unlines ls)).
  rewrite complete_lines_unlines by (done || apply not_elem_of_nil). split_and!; [done | exact Eh | exact Hk].
Qed.

(** A line longer than the limit of a poll stops the reader: as long as the four
    megabytes after the offset hold no newline, polls change nothing. *)
Lemma oversized_line_stalls size content r :
  0 <= offset r <= size -> size <= Z.of_nat (length content) ->
  newline ∉ take (Z.to_nat criMaxReadPerPoll) (drop (Z.to_nat (offset r)) content) ->
  poll size content r = ([], r).
Proof.
  intros Ho Hs Hn. unfold poll, readOnce. rewrite Z.eqb_refl. cbn [negb orb].
  assert ((size <? offset r) = false) as -> by (apply Z.ltb_ge; lia).
  destruct (size <=? offset r) eqn:Ele; [done|].
  rewrite complete_lines_none.
  - cbn [fmap list_fmap handle_lines]. rewrite Z.sub_diag, Z.add_0_r. by destruct r.
  - intros Hin. apply Hn. revert Hin. set (n := Z.to_nat (Z.min _ _)).
    set (m := Z.to_nat criMaxReadPerPoll). set (l := drop _ _).
    rewrite <- (take_drop n (take m l)), take_take.
    assert (n `min` m = n)%nat as -> by (unfold n, m; lia). intros Hin. apply elem_of_app. by left.
Qed.
End polls.

(** ** Split lines *)

Definition space : Ascii.ascii := chr 32.

Definition cri_line (ts stream tg msg : string) : string :=
  ts +:+ String space (stream +:+ String space (tg +:+ String space msg)).

(** A line of a container: the pieces in which the kubelet writes it. *)
Record entry := mk_entry {
  e_time : string;
  e_stream : string;
  e_chunks : list string;
  e_last : string;
}.

Definition entry_text (e : entry) : string := foldr String.append (e_last e) (e_chunks e).

Definition entry_lines (e : entry) : list string :=
  ((fun chunk => cri_line (e_time e) (e_stream e) "P" chunk) <$> e_chunks e) ++
  [cri_line (e_time e) (e_stream e) "F" (e_last e)].

Definition chunks_length (l : list string) : Z := sumZ str_len l.

(** No blank in the time or the stream, and less than 256 KiB before the last piece. *)
Definition well_formed (e : entry) : Prop :=
  contains (String space "") (e_time e) = false /\
  contains (String space "") (e_stream e) = false /\
  chunks_length (e_chunks e) < criMaxLineBytes.

Lemma split_cri_line ts stream tg msg :
  contains (String space "") ts = false -> contains (String space "") stream = false ->
  contains (String space "") tg = false ->
  split_n 4 " " (cri_line ts stream tg msg) = [ts; stream; tg; msg].
Proof.
  intros H1 H2 H3. unfold cri_line. change " " with (String space "").
  cbn [split_n]. by rewrite (cut_at_app_char _ _ _ H1), (cut_at_app_char _ _ _ H2), (cut_at_app_char _ _ _ H3).
Qed.

Lemma cri_line_not_empty ts stream tg msg : String.eqb (cri_line ts stream tg msg) "" = false.
Proof. apply String.eqb_neq. unfold cri_line. destruct ts; discriminate. Qed.

Section reassembly.
Variable ToUpper : string -> string.
Variable parse_time : string -> option Z.
Variable unmarshal : string -> option (gmap string json).
Variable format_number : string -> string.
Variables (now : Z) (hostname : string) (meta : criFileInfo) (svc : string).

Abbreviation hline := (handleLine ToUpper parse_time unmarshal format_number now hostname meta svc).
Abbreviation hlines := (handle_lines ToUpper parse_time unmarshal format_number now hostname meta svc).
Abbreviation record := (make_record ToUpper parse_time unmarshal format_number now hostname meta svc).

Lemma handle_partial ts stream msg p :
  contains (String space "") ts = false -> contains (String space "") stream = false ->
  str_len p < criMaxLineBytes ->
  hline (cri_line ts stream "P" msg) p = (None, p +:+ msg).
Proof.
  intros H1 H2 Hp. unfold handleLine. rewrite cri_line_not_empty, split_cri_line by done.
  cbn [String.eqb Ascii.eqb Bool.eqb andb]. by apply Z.ltb_lt in Hp as ->.
Qed.

Lemma handle_final ts stream msg p :
  contains (String space "") ts = false -> contains (String space "") stream = false ->
  hline (cri_line ts stream "F" msg) p = (Some (record ts stream (p +:+ msg)), "").
Proof.
  intros H1 H2. unfold handleLine. rewrite cri_line_not_empty, split_cri_line by done.
  cbn [String.eqb Ascii.eqb Bool.eqb andb].
  destruct p as [|ch p]; [by rewrite str_app_nil_l|].
  assert ((0 <? str_len (String ch p)) = true) as ->; [|done].
  apply Z.ltb_lt. unfold str_len. cbn [String.length]. lia.
Qed.

Lemma handle_entry e p :
  well_formed e -> str_len p + chunks_length (e_chunks e) < criMaxLineBytes ->
  hlines (entry_lines e) p = ([record (e_time e) (e_stream e) (p +:+ entry_text e)], "").
Proof.
  intros (H1 & H2 & _). unfold entry_lines, entry_text. revert p.
  induction (e_chunks e) as [|ch chs IH]; intros p Hp; cbn [fmap list_fmap app foldr handle_lines].
  - by rewrite handle_final.
  - unfold chunks_length, sumZ in *. cbn [foldr] in Hp.
    pose proof (sumZ_nonneg str_len chs str_len_nonneg) as Hn. unfold sumZ in Hn.
    pose proof (str_len_nonneg ch).
    rewrite handle_partial by (done || lia).
    rewrite IH by (rewrite str_len_app; lia). cbn [option_list app].
    by rewrite str_app_assoc.
Qed.

(** Lines that the container runtime split are put together again: from a reader
    with no text pending, the file lines of any sequence of entries, each a number of P
    pieces of less than 256 KiB in all and a last F piece, give exactly one record per
    entry, in order, of the pieces concatenated, and leave no text pending. *)
Theorem split_lines_reassembled (es : list entry) :
  Forall well_formed es ->
  hlines (concat (entry_lines <$> es)) "" =
  ((fun e => record (e_time e) (e_stream e) (entry_text e)) <$> es, "").
Proof.
  intros Hes. induction Hes as [|e es He Hes IH]; [done|]. cbn [fmap list_fmap concat].
  rewrite handle_lines_app, handle_entry; [|done|].
  - rewrite IH. by rewrite str_app_nil_l.
  - destruct He as (_ & _ & He). unfold str_len. cbn. lia.
Qed.
End reassembly.

(** ** Fields of a JSON line *)

Section fields.
Variable format_number : string -> string.

(** The text of a scalar. *)
Definition scalar (v : json) : option string :=
  match v with
  | JString s => Some s
  | JNumber text => Some (format_number text)
  | JBool b => Some (if b then "true" else "false")
  | _ => None
  end.

Definition mdc_string (m : gmap string json) (k : string) : option string :=
  match m !! "mdc" with
  | Some (JObject mm) => match mm !! k with Some (JString s) => Some s | _ => None end
  | _ => None
  end.

Lemma flatten_lookup (l : list (string * json)) (out : tagmap) k :
  NoDup l.*1 ->
  foldl flatten_mdc out l !! k =
  match out !! k with
  | Some s => Some s
  | None => match (list_to_map l : gmap string json) !! k with Some (JString s) => Some s | _ => None end
  end.
Proof.
  revert out. induction l as [|[k' v] l IH]; intros out Hnd; cbn [foldl].
  { cbn [list_to_map foldr]. rewrite lookup_empty. by destruct (out !! k). }
  cbn in Hnd. apply NoDup_cons in Hnd as [Hnin Hnd]. rewrite (IH _ Hnd). cbn [list_to_map foldr fst snd].
  unfold flatten_mdc. cbn [fst snd].
  destruct (decide (k' = k)) as [->|Hne].
  - rewrite lookup_insert_eq.
    assert ((list_to_map l : gmap string json) !! k = None) as -> by (by apply not_elem_of_list_to_map_1).
    destruct v; try (by destruct (out !! k)).
    destruct (out !! k) eqn:E; [by rewrite E|]. by rewrite lookup_insert_eq.
  - rewrite lookup_insert_ne by done. destruct v; try done.
    destruct (out !! k'); [done|]. by rewrite lookup_insert_ne.
Qed.

Lemma fields_lookup (order : list (string * json)) k :
  NoDup order.*1 ->
  fields_in format_number order !! k =
  match (list_to_map order : gmap string json) !! k ≫= scalar with
  | Some s => Some s
  | None => mdc_string (list_to_map order) k
  end.
Proof.
  unfold fields_in. induction order as [|[k' v] l IH] using rev_ind; intros Hnd.
  { cbn [foldl list_to_map foldr]. rewrite !lookup_empty. unfold mdc_string. by rewrite lookup_empty. }
  rewrite foldl_app. cbn [foldl]. rewrite fmap_app, NoDup_app in Hnd.
  destruct Hnd as (Hnd & Hnin & _). specialize (IH Hnd).
  assert (k' ∉ l.*1) as Hk' by (intros Hin; apply (Hnin _ Hin); left).
  assert ((list_to_map (l ++ [(k', v)]) : gmap string json) = <[k' := v]> (list_to_map l)) as ->.
  { rewrite list_to_map_snoc by done. done. }
  assert ((list_to_map l : gmap string json) !! k' = None) as Hnone by (by apply not_elem_of_list_to_map_1).
  set (m := list_to_map l : gmap string json) in *. set (out := foldl _ _ l) in *.
  destruct (decide (k' = "mdc")) as [->|Hmdc].
  - assert (mdc_string m k = None) as Hold by (unfold mdc_string; by rewrite Hnone).
    rewrite Hold in IH. destruct v as [|b|t|s|a|mm].
    6: { cbn [add_field]. rewrite String.eqb_refl, flatten_lookup by apply NoDup_fst_map_to_list.
         rewrite list_to_map_to_list. unfold mdc_string. rewrite lookup_insert_eq, IH.
         destruct (decide ("mdc" = k)) as [<-|Hne]; [rewrite Hnone, lookup_insert_eq|rewrite lookup_insert_ne by done].
         all: cbn; repeat case_match; congruence. }
    all: unfold mdc_string; rewrite lookup_insert_eq; cbn [add_field];
      destruct (decide ("mdc" = k)) as [<-|Hne];
      rewrite ?lookup_insert_eq, ?lookup_insert_ne, ?IH, ?Hnone by done; cbn; try done; by case_match.
  - assert (mdc_string (<[k' := v]> m) k = mdc_string m k) as ->
      by (unfold mdc_string; by rewrite lookup_insert_ne by done).
    destruct (decide (k' = k)) as [<-|Hne].
    + rewrite Hnone in IH. cbn in IH. rewrite lookup_insert_eq.
      destruct v; cbn; rewrite ?lookup_insert_eq, ?IH; try done.
      by destruct (String.eqb_spec k' "mdc").
    + rewrite (lookup_insert_ne m) by done.
      destruct v; cbn [add_field]; rewrite ?lookup_insert_ne by done; try done.
      by destruct (String.eqb_spec k' "mdc").
Qed.

(** The fields of a structured log line do not depend on the order in which its
    JSON object is enumerated: a field is the scalar of the top level, and a string of
    "mdc" only where the top level has none. *)
Theorem fields_order_independent (m : gmap string json) (order : list (string * json)) k :
  order ≡ₚ map_to_list m ->
  fields_in format_number order !! k =
  match m !! k ≫= scalar with Some s => Some s | None => mdc_string m k end.
Proof.
  intros Ho. assert (NoDup order.*1) as Hnd by (rewrite Ho; apply NoDup_fst_map_to_list).
  rewrite fields_lookup by done. rewrite (list_to_map_proper order (map_to_list m)) by done.
  by rewrite list_to_map_to_list.
Qed.
End fields.

(** ** Concrete inputs *)

Definition example_file : bytes :=
  String.list_ascii_of_string ("t stdout P ab" +:+ str1 10 +:+ "t stdout F cd" +:+ str1 10 +:+ "t std").
Definition example_reader : Reader := mk_reader 0 7 "".
Definition example_meta : criFileInfo := mk_file_info "shop" "cart-0" "app".
Definition example_poll := poll id (fun _ => Some 1) (fun _ => None) id 0 "node" example_meta "cart".
Definition example_polls := polls id (fun _ => Some 1) (fun _ => None) id 0 "node" example_meta "cart".

Lemma polls_read_each_line_once_witness :
  (Body <$> (example_polls [(16, take 20 example_file); (33, example_file)] example_reader).1) = ["abcd"] /\
  forall k, 28 <= k < 33 -> example_file !! Z.to_nat k <> Some newline.
Proof.
  refine (conj _ _); [vm_compute; reflexivity|].
  pose proof (polls_read_each_line_once id (fun _ => Some 1) (fun _ => None) id 0 "node" example_meta "cart"
    example_file [(16, take 20 example_file)] 33 example_file 0 example_reader) as H.
  assert (grows example_file 0 [(16, take 20 example_file); (33, example_file)]) as Hg.
  { cbn [grows]. split; [vm_compute; split; discriminate|].
    split; [exists (drop 20 example_file); symmetry; apply take_drop|].
    split; [vm_compute; split; discriminate|]. split; [done|exact I]. }
  specialize (H Hg ltac:(vm_compute; split; [discriminate | discriminate])). cbv zeta in H.
  assert (offset (polls id (fun _ => Some 1) (fun _ => None) id 0 "node" example_meta "cart"
    [(16, take 20 example_file)] example_reader).2 = 14) as E1 by (vm_compute; reflexivity).
  assert (offset (example_polls [(16, take 20 example_file); (33, example_file)] example_reader).2 = 28) as E2
    by (vm_compute; reflexivity).
  unfold example_polls in E2. cbn [app] in H.
  destruct (polls id (fun _ => Some 1) (fun _ => None) id 0 "node" example_meta "cart"
    [(16, take 20 example_file); (33, example_file)] example_reader) as [records r2].
  cbn [snd] in E2. destruct H as (_ & _ & H). rewrite E1, E2 in H.
  intros k Hk. apply H. unfold criMaxReadPerPoll. lia.
Defined.

Definition example_entries : list entry :=
  [mk_entry "t" "stdout" ["a b"; "c"] " d"; mk_entry "t" "stderr" [] "e"].

Lemma split_lines_reassembled_witness :
  handle_lines id (fun _ => Some 1) (fun _ => None) id 0 "node" example_meta "cart"
    (concat (entry_lines <$> example_entries)) "" =
  ((fun e => make_record id (fun _ => Some 1) (fun _ => None) id 0 "node" example_meta "cart"
               (e_time e) (e_stream e) (entry_text e)) <$> example_entries, "").
Proof.
  apply (split_lines_reassembled id (fun _ => Some 1) (fun _ => None) id 0 "node" example_meta "cart").
  repeat constructor; vm_compute; reflexivity.
Defined.

Definition example_object : gmap string json :=
  {[ "mdc" := JObject {[ "traceId" := JString "4bf9"; "level" := JString "x" ]}; "level" := JString "INFO" ]}.

Lemma fields_order_independent_witness :
  fields_in id (rev (map_to_list example_object)) !! "traceId" = Some "4bf9".
Proof.
  rewrite (fields_order_independent id example_object (rev (map_to_list example_object)) "traceId").
  - vm_compute. reflexivity.
  - symmetry. apply Permutation_rev.
Defined.
(** The cursor is saved past a P line whose text is only in memory: a reader started
    from it, as after a restart, gives the last piece alone. *)
Lemma restart_loses_split_prefix :
  let '(_, cursor, _) := readOnce id (fun _ => Some 1) (fun _ => None) id 0 "node" example_meta "cart"
                           (Some (7, 16)) (Some example_file) example_reader in
  let r := start_reader cursor None in
  (Body <$> (example_polls [(33, example_file)] r).1) = ["cd"] /\
  (Body <$> (example_polls [(16, example_file); (33, example_file)] example_reader).1) = ["abcd"].
Proof. vm_compute. done. Qed.
End CriTailerProps.
