(* ===== verification/Eff.v ===== *)
(** * Effects: a state monad with panics

    A handler changes its receiver, the world behind its callbacks and the response it
    writes, and may panic half-way: a computation takes the state and returns the
    result, None for a panic, with the state it reached.  A panic keeps what was done
    before it. *)

From S2P Require Import Prelude.

Definition eff (S A : Type) : Type := S -> option A * S.

#[export] Instance eff_ret {S} : MRet (eff S) := fun A a s => (Some a, s).
#[export] Instance eff_bind {S} : MBind (eff S) :=
  fun A B f m s => match m s with
                   | (Some a, s) => f a s
                   | (None, s) => (None, s)
                   end.

Section eff.
Context {S : Type}.

Definition panic {A} : eff S A := fun s => (None, s).
Definition read {A} (f : S -> A) : eff S A := fun s => (Some (f s), s).
Definition modify (f : S -> S) : eff S unit := fun s => (Some tt, f s).

(** A value that may be a panic. *)
Definition of_option {A} (x : option A) : eff S A :=
  match x with Some a => mret a | None => panic end.

Definition when (b : bool) (m : eff S unit) : eff S unit := if b then m else mret tt.

(** A loop that carries a value. *)
Fixpoint fold_eff {A X} (f : A -> X -> eff S A) (a : A) (l : list X) : eff S A :=
  match l with
  | [] => mret a
  | x :: l => a ← f a x; fold_eff f a l
  end.

(** [defer]: the deferred call runs whatever happened. *)
Definition deferred {A} (m : eff S A) (d : S -> S) : eff S A :=
  fun s => let '(a, s) := m s in (a, d s).

Lemma fold_eff_app {A X} (f : A -> X -> eff S A) a l k s :
  fold_eff f a (l ++ k) s = (fold_eff f a l ≫= fun a => fold_eff f a k) s.
Proof.
  revert a s. induction l as [|x l IH]; intros a s; [done|]. cbn. unfold mbind, eff_bind.
  destruct (f a x s) as [[b|] s']; [|done]. by rewrite IH.
Qed.

Lemma eff_bind_Some {A B} (m : eff S A) (f : A -> eff S B) s b s' :
  (m ≫= f) s = (Some b, s') <-> exists a s1, m s = (Some a, s1) /\ f a s1 = (Some b, s').
Proof.
  unfold mbind, eff_bind. destruct (m s) as [[a|] s1]; split.
  - intros H. by exists a, s1.
  - by intros (? & ? & [= <- <-] & H).
  - done.
  - by intros (? & ? & ? & _).
Qed.

(** What holds of the state before and is kept by each round holds after the loop. *)
Lemma fold_eff_inv {A X} (I : A -> S -> Prop) (f : A -> X -> eff S A) l :
  (forall a x s b s', x ∈ l -> I a s -> f a x s = (Some b, s') -> I b s') ->
  forall a s b s', I a s -> fold_eff f a l s = (Some b, s') -> I b s'.
Proof.
  intros Hf. induction l as [|x l IH]; intros a s b s' Hi; cbn.
  - by intros [= <- <-].
  - intros (a1 & s1 & Hx & Hl)%eff_bind_Some. eapply IH; [| |done].
    + intros. eapply Hf; [| |done]; [by right|done].
    + eapply Hf; [left|done|done].
Qed.

(** ** What every run of a computation does to the state *)

Definition moves (R : relation S) {A} (m : eff S A) : Prop := forall s, R s (m s).2.

Section moves.
Context (R : relation S) `{!PreOrder R}.

Lemma moves_ret {A} (a : A) : moves R (mret a).
Proof. intros s. cbn. reflexivity. Qed.

Lemma moves_panic {A} : moves R (A := A) panic.
Proof. intros s. cbn. reflexivity. Qed.

Lemma moves_read {A} (f : S -> A) : moves R (read f).
Proof. intros s. cbn. reflexivity. Qed.

Lemma moves_bind {A B} (m : eff S A) (f : A -> eff S B) :
  moves R m -> (forall a, moves R (f a)) -> moves R (m ≫= f).
Proof.
  intros Hm Hf s. unfold mbind, eff_bind. pose proof (Hm s) as H1.
  destruct (m s) as [[a|] s1]; cbn in *; [|done]. etrans; [done|]. apply Hf.
Qed.

Lemma moves_modify f : (forall s, R s (f s)) -> moves R (modify f).
Proof. intros Hf s. apply Hf. Qed.

Lemma moves_when b (m : eff S unit) : moves R m -> moves R (when b m).
Proof. destruct b; [done|]. intros _. apply moves_ret. Qed.

Lemma moves_of_option {A} (x : option A) : moves R (of_option x).
Proof. destruct x; [apply moves_ret|apply moves_panic]. Qed.

Lemma moves_fold {A X} (f : A -> X -> eff S A) l :
  (forall a x, moves R (f a x)) -> forall a, moves R (fold_eff f a l).
Proof.
  intros Hf. induction l as [|x l IH]; intros a; cbn; [apply moves_ret|]. by apply moves_bind.
Qed.
End moves.
End eff.

Create HintDb walk.

(** Walks through a computation: binds, tests, calls with a lemma in the database. *)
Ltac walk :=
  repeat first
    [ progress intros
    | apply moves_ret; exact _ | apply moves_panic; exact _ | apply moves_read; exact _
    | apply moves_of_option; exact _
    | progress (autounfold with walk)
    | solve [eauto 3 with walk]
    | match goal with |- moves _ (match ?x with _ => _ end) => destruct x end
    | apply moves_when; [exact _|]
    | apply moves_fold; [exact _|]
    | apply moves_bind; [exact _| |] ].
