(* ===== verification/Otlp.v ===== *)
(** * OTLP messages, their conversion, and the gRPC receiver (internal/otlp)

    server.go: the receiver on gRPC, and the flattening of attribute values;
    http.go: [convertResourceSpans]; forwarder.go: the buffer of converted spans.

    A message is what protobuf decodes: no element of a repeated field is nil, so the
    nil checks on elements are never taken and have no counterpart here.  An attribute
    without a value and a value of no kind read alike and are both [NoValue].  The
    fields that no code reads (events, links, trace states, unknown fields) are kept
    as the string that encodes them. *)

From S2P Require Import Prelude GoStrings Wire Processing.
#[local] Open Scope Z_scope.

(** ** Hexadecimal (encoding/hex) *)

Module Hex.

Definition digit (z : Z) : Z := if z <? 10 then 48 + z else 87 + z.

Fixpoint EncodeToString (s : string) : string :=
  match s with
  | EmptyString => ""
  | String c s =>
      str1 (digit (Z.shiftr (byte_of c) 4)) +:+ str1 (digit (Z.land (byte_of c) 15)) +:+ EncodeToString s
  end.
End Hex.

Module Otlp.

(** ** Messages *)

#[warnings="-automation"]
Inductive AnyValue :=
  | NoValue
  | StringValue (s : string)
  | BoolValue (b : bool)
  | IntValue (n : Z)
  | DoubleValue (x : f64)
  | BytesValue (s : string)
  | ArrayValue (l : list AnyValue)
  | KvlistValue (l : list (string * AnyValue)).

Definition GetStringValue (v : AnyValue) : string :=
  match v with StringValue s => s | _ => "" end.

Record KeyValue := mk_kv { Key : string; Value : AnyValue; kv_rest : string }.

(** [kv] of ingest.go. *)
Definition kv (k v : string) : KeyValue := mk_kv k (StringValue v) "".

Record Status := mk_status { Code : Z; Message : string }.

Record SpanMsg := mk_span_msg {
  sp_TraceId : string;
  sp_SpanId : string;
  sp_ParentSpanId : string;
  sp_Name : string;
  sp_Kind : Z;
  sp_Start : Z;      (* StartTimeUnixNano, a uint64 *)
  sp_End : Z;        (* EndTimeUnixNano *)
  sp_Status : option Status;
  sp_Attributes : list KeyValue;
  sp_rest : string;
}.

Record ScopeSpans := mk_scope { ss_Spans : list SpanMsg; ss_rest : string }.
Record Resource := mk_resource { res_Attributes : list KeyValue; res_rest : string }.
Record ResourceSpans := mk_rs {
  rs_Resource : option Resource;
  rs_ScopeSpans : list ScopeSpans;
  rs_rest : string;
}.
Record Request := mk_request { req_ResourceSpans : list ResourceSpans; req_rest : string }.

Definition set_sp_Attributes (a : list KeyValue) (s : SpanMsg) : SpanMsg :=
  mk_span_msg (sp_TraceId s) (sp_SpanId s) (sp_ParentSpanId s) (sp_Name s) (sp_Kind s) (sp_Start s)
    (sp_End s) (sp_Status s) a (sp_rest s).

(** All spans of a request, in order. *)
Definition rs_spans (rs : ResourceSpans) : list SpanMsg := rs_ScopeSpans rs ≫= ss_Spans.
Definition req_spans (req : Request) : list SpanMsg := req_ResourceSpans req ≫= rs_spans.

(** The generated getter: nil-safe. *)
Definition GetAttributes (r : option Resource) : list KeyValue := from_option res_Attributes [] r.

(** ** Conversion of attributes (server.go) *)

Section conversion.
(** [strconv.FormatFloat(x, 'f', -1, 64)]: the shortest decimal that reads back. *)
Variable format_float : f64 -> string.

Definition joinComma (l : list string) : string := join "," l.

Definition format_bool (b : bool) : string := if b then "true" else "false".

Fixpoint anyValueToString (v : AnyValue) : string :=
  match v with
  | NoValue => ""
  | StringValue s => s
  | BoolValue b => format_bool b
  | IntValue n => itoa n
  | DoubleValue x => format_float x
  | BytesValue s => Hex.EncodeToString s
  | ArrayValue l => "[" +:+ joinComma (map anyValueToString l) +:+ "]"
  | KvlistValue l =>
      "{" +:+ joinComma (map (fun '(k, v) => k +:+ "=" +:+ anyValueToString v) l) +:+ "}"
  end.

Definition flattenAttrs (l : list KeyValue) : tagmap :=
  foldl (fun out kv => if String.eqb (Key kv) "" then out else <[Key kv := anyValueToString (Value kv)]> out)
    ∅ l.

(** The attributes of a span, completed by those of its resource. *)
Definition merge_attrs (own res : tagmap) : tagmap := own ∪ res.

Definition convert_span (resAttrs : tagmap) (s : SpanMsg) : Span :=
  let pod := tag "k8s.pod.name" resAttrs in
  let service := tag "service.name" resAttrs in
  {| TraceId := Hex.EncodeToString (sp_TraceId s);
     SpanId := Hex.EncodeToString (sp_SpanId s);
     ParentSpanId := Hex.EncodeToString (sp_ParentSpanId s);
     ServiceName := if String.eqb service "" then pod else service;
     Name := sp_Name s;
     Kind := sp_Kind s;
     StartUnixNano := i64 (sp_Start s);
     EndUnixNano := i64 (sp_End s);
     StatusCode := from_option Code 0 (sp_Status s);
     StatusMessage := from_option Message "" (sp_Status s);
     Namespace := tag "k8s.namespace.name" resAttrs;
     Pod := pod;
     Attributes := merge_attrs (flattenAttrs (sp_Attributes s)) resAttrs |}.

(** [convertResourceSpans] (http.go), which the body of [Export] (server.go) repeats. *)
Definition convertResourceSpans (l : list ResourceSpans) : list Span :=
  l ≫= fun rs =>
    let resAttrs := match rs_Resource rs with
                    | Some r => flattenAttrs (res_Attributes r)
                    | None => ∅
                    end in
    rs_ScopeSpans rs ≫= fun ss => convert_span resAttrs <$> ss_Spans ss.

(** ** The gRPC receiver (server.go)

    The sink is a transformer of the state behind it. *)

Context {W : Type}.

Record Receiver := mk_receiver { sink : option (list Span -> W -> W); received : Z }.

Definition NewReceiver (s : option (list Span -> W -> W)) : Receiver := mk_receiver s 0.
Definition Stats (r : Receiver) : Z := received r.

Definition push_some (s : option (list Span -> W -> W)) (spans : list Span) (w : W) : W :=
  match s, spans with
  | Some push, _ :: _ => push spans w
  | _, _ => w
  end.

Definition Export (req : option Request) (r : Receiver) (w : W) : Receiver * W :=
  match req with
  | None => (r, w)
  | Some req =>
      let spans := req_ResourceSpans req ≫= fun rs =>
        let resAttrs := flattenAttrs (GetAttributes (rs_Resource rs)) in
        rs_ScopeSpans rs ≫= fun ss => convert_span resAttrs <$> ss_Spans ss in
      (mk_receiver (sink r) (i64 (received r + Z.of_nat (length spans))), push_some (sink r) spans w)
  end.
End conversion.

Arguments Receiver : clear implicits.

(** ** The forwarder of spans (forwarder.go)

    [out] is a channel of the given capacity, read by the transport; what is in it and
    what was read from it are part of the state. *)

Record SpanBatch := mk_batch { CollectorId : string; BatchSeq : Z; Spans : list Span }.

Record Forwarder := mk_forwarder {
  collectorID : string;
  maxBatch : Z;
  interval : Z;
  buf : list Span;
  dropped : Z;
  seq : Z;
  out : list SpanBatch;
  out_cap : nat;
}.

Definition NewForwarder (id : string) (capacity : nat) (max ival : Z) : Forwarder :=
  mk_forwarder id (if max <=? 0 then 500 else max) (if ival <=? 0 then 5 * second else ival) [] 0 0 [] capacity.

Definition set_fw (b : list Span) (d s : Z) (o : list SpanBatch) (f : Forwarder) : Forwarder :=
  mk_forwarder (collectorID f) (maxBatch f) (interval f) b d s o (out_cap f).

Definition Push (spans : list Span) (f : Forwarder) : Forwarder :=
  match spans with
  | [] => f
  | _ =>
      let b := (buf f ++ spans)%list in
      let cap := i64 (maxBatch f * 4) in
      if cap <? Z.of_nat (length b)
      then let drop_n := Z.of_nat (length b) - cap in
           set_fw (drop (Z.to_nat drop_n) b) (i64 (dropped f + drop_n)) (seq f) (out f) f
      else set_fw b (dropped f) (seq f) (out f) f
  end.

(** [flush]; [done] tells that the context ended.  When the channel has room and the
    context ended, the select may take either case: [pick_done] chooses. *)
Definition flush (done pick_done : bool) (f : Forwarder) : Forwarder :=
  match buf f with
  | [] => f
  | _ =>
      let n := Z.to_nat (Z.min (Z.of_nat (length (buf f))) (maxBatch f)) in
      let batch := take n (buf f) in
      let rest := drop n (buf f) in
      let s := i64 (seq f + 1) in
      let room := bool_decide (length (out f) < out_cap f)%nat in
      if room && negb (done && pick_done)
      then set_fw rest (dropped f) s (out f ++ [mk_batch (collectorID f) s batch])%list f
      else if done then set_fw rest (dropped f) s (out f) f
      else set_fw rest (i64 (dropped f + Z.of_nat (length batch))) s (out f) f
  end.

Definition FStats (f : Forwarder) : Z * Z := (Z.of_nat (length (buf f)), dropped f).

(** The transport takes a batch from the channel. *)
Definition receive (f : Forwarder) : option (SpanBatch * Forwarder) :=
  match out f with
  | [] => None
  | b :: o => Some (b, set_fw (buf f) (dropped f) (seq f) o f)
  end.

End Otlp.
