(* ===== verification/OtlpProps.v ===== *)
(** * Correctness of the conversion and of the span forwarder *)

From S2P Require Import Prelude GoStrings Wire Processing Otlp.
#[local] Open Scope Z_scope.

Import Otlp.

(** ** Hexadecimal *)

Definition hex_digit (z : Z) : bool := ((48 <=? z) && (z <=? 57)) || ((97 <=? z) && (z <=? 102)).

Lemma digit_range z : 0 <= z < 16 -> 0 <= Hex.digit z < 256 /\ hex_digit (Hex.digit z) = true.
Proof.
  intros Hz. unfold Hex.digit, hex_digit. destruct (Z.ltb_spec z 10); (split; [lia|]).
  all: repeat match goal with |- context [?a <=? ?b] => destruct (Z.leb_spec a b) end; cbn; try done; lia.
Qed.

Lemma digit_inj x y : 0 <= x < 16 -> 0 <= y < 16 -> Hex.digit x = Hex.digit y -> x = y.
Proof. unfold Hex.digit. intros Hx Hy. destruct (Z.ltb_spec x 10), (Z.ltb_spec y 10); lia. Qed.

Lemma nibbles c : 0 <= Z.shiftr (byte_of c) 4 < 16 /\ 0 <= Z.land (byte_of c) 15 < 16.
Proof.
  pose proof (byte_of_range c). rewrite Z.shiftr_div_pow2 by lia.
  change 15 with (Z.ones 4). rewrite Z.land_ones by lia.
  split; [|apply Z.mod_pos_bound; lia].
  split; [apply Z.div_pos; lia|]. apply Z.div_lt_upper_bound; lia.
Qed.

Lemma nibbles_inj c d :
  Z.shiftr (byte_of c) 4 = Z.shiftr (byte_of d) 4 -> Z.land (byte_of c) 15 = Z.land (byte_of d) 15 -> c = d.
Proof.
  rewrite !Z.shiftr_div_pow2 by lia. change 15 with (Z.ones 4). rewrite !Z.land_ones by lia. intros H1 H2.
  rewrite <- (chr_byte_of c), <- (chr_byte_of d). f_equal.
  rewrite (Z.div_mod (byte_of c) (2 ^ 4)), (Z.div_mod (byte_of d) (2 ^ 4)) by lia. lia.
Qed.

Lemma hex_cons c s :
  Hex.EncodeToString (String c s) =
  String (chr (Hex.digit (Z.shiftr (byte_of c) 4)))
    (String (chr (Hex.digit (Z.land (byte_of c) 15))) (Hex.EncodeToString s)).
Proof. reflexivity. Qed.

Lemma byte_of_digit z : 0 <= z < 16 -> byte_of (chr (Hex.digit z)) = Hex.digit z.
Proof. intros Hz. rewrite byte_of_chr. apply wrap_small. apply (digit_range z Hz). Qed.

Lemma hex_inj s t : Hex.EncodeToString s = Hex.EncodeToString t -> s = t.
Proof.
  revert t. induction s as [|c s IH]; intros [|d t]; rewrite ?hex_cons; [done|done|done|].
  intros [= H1 H2 H3]. pose proof (nibbles c) as [? ?]. pose proof (nibbles d) as [? ?].
  apply (f_equal byte_of) in H1, H2. rewrite !byte_of_digit in H1, H2 by done.
  apply digit_inj in H1, H2; [|done..]. f_equal; [by apply nibbles_inj|by apply IH].
Qed.

Lemma hex_length s : String.length (Hex.EncodeToString s) = (2 * String.length s)%nat.
Proof. induction s as [|c s IH]; [done|]. rewrite hex_cons. cbn [String.length]. lia. Qed.

Lemma hex_digits s : Forall (fun z => hex_digit z = true) (bytes_of (Hex.EncodeToString s)).
Proof.
  induction s as [|c s IH]; [constructor|]. rewrite hex_cons.
  destruct (nibbles c) as [H1 H2]. unfold bytes_of. cbn.
  constructor; [rewrite byte_of_digit by done; by apply digit_range|].
  constructor; [rewrite byte_of_digit by done; by apply digit_range|done].
Qed.

Lemma hex_empty s : Hex.EncodeToString s = "" <-> s = "".
Proof. destruct s; [done|]. rewrite hex_cons. done. Qed.

(** ** Attributes *)

Section conversion.
Variable format_float : f64 -> string.

Lemma flatten_no_empty l (m : tagmap) :
  m !! "" = None ->
  foldl (fun out kv => if String.eqb (Key kv) "" then out
                       else <[Key kv := anyValueToString format_float (Value kv)]> out) m l !! "" = None.
Proof.
  revert m. induction l as [|kv l IH]; intros m Hm; cbn; [done|]. apply IH.
  destruct (String.eqb_spec (Key kv) ""); [done|]. by rewrite lookup_insert_ne.
Qed.

Lemma flattenAttrs_no_empty l : flattenAttrs format_float l !! "" = None.
Proof. by apply flatten_no_empty. Qed.

(** The last attribute of a name decides. *)
Lemma flattenAttrs_snoc l kv :
  flattenAttrs format_float (l ++ [kv]) =
  (if String.eqb (Key kv) "" then flattenAttrs format_float l
   else <[Key kv := anyValueToString format_float (Value kv)]> (flattenAttrs format_float l)).
Proof. unfold flattenAttrs. by rewrite foldl_app. Qed.

Lemma flattenAttrs_app_notin l k key :
  Forall (fun kv => Key kv <> key) k -> flattenAttrs format_float (l ++ k) !! key = flattenAttrs format_float l !! key.
Proof.
  induction k as [|kv k IH] using rev_ind; intros Hk; [by rewrite app_nil_r|].
  apply Forall_app in Hk as [Hk Hkv]. apply Forall_cons in Hkv as [Hkv _].
  rewrite app_assoc, flattenAttrs_snoc.
  destruct (String.eqb_spec (Key kv) ""); [by apply IH|]. rewrite lookup_insert_ne by done. by apply IH.
Qed.

Lemma flattenAttrs_notin l key :
  Forall (fun kv => Key kv <> key) l -> flattenAttrs format_float l !! key = None.
Proof. intros Hl. by rewrite <- (app_nil_l l), flattenAttrs_app_notin. Qed.

(** What a converted span looks like. *)
Definition hex_id (s : string) : Prop :=
  Nat.even (String.length s) = true /\ Forall (fun z => hex_digit z = true) (bytes_of s).

Definition well_formed (s : Span) : Prop :=
  hex_id (TraceId s) /\ hex_id (SpanId s) /\ hex_id (ParentSpanId s) /\
  in_i64 (StartUnixNano s) /\ in_i64 (EndUnixNano s) /\ Attributes s !! "" = None.

Lemma hex_id_hex s : hex_id (Hex.EncodeToString s).
Proof. split; [|apply hex_digits]. rewrite hex_length. apply Nat.even_spec. by exists (String.length s). Qed.

Lemma convert_span_well_formed (attrs : tagmap) s :
  attrs !! "" = None -> well_formed (convert_span format_float attrs s).
Proof.
  intros Ha. unfold well_formed, convert_span. cbn.
  repeat split; try apply hex_id_hex; try apply i64_range.
  unfold merge_attrs. rewrite lookup_union_None. split; [apply flattenAttrs_no_empty|done].
Qed.

(** The attributes of the resource of a converted span. *)
Definition resource_tags (rs : ResourceSpans) : tagmap := flattenAttrs format_float (GetAttributes (rs_Resource rs)).

Lemma convertResourceSpans_eq l :
  convertResourceSpans format_float l =
  l ≫= fun rs => convert_span format_float (resource_tags rs) <$> rs_spans rs.
Proof.
  unfold convertResourceSpans. induction l as [|rs l IH]; [done|]. cbn. rewrite IH. f_equal.
  unfold resource_tags, rs_spans. destruct (rs_Resource rs) as [r|]; cbn; clear;
    induction (rs_ScopeSpans rs) as [|ss k IH]; cbn; try done; by rewrite fmap_app, IH.
Qed.

Lemma resource_tags_no_empty rs : resource_tags rs !! "" = None.
Proof. apply flattenAttrs_no_empty. Qed.

(** C16: every span of a request is converted, in order, into a span of the collector's
    type: ids in hexadecimal, times that are int64 values, no attribute without a name;
    the name, the kind and the status are those of the message. *)
Theorem converted_well_formed l :
  Forall2 (fun s c => well_formed c /\ TraceId c = Hex.EncodeToString (sp_TraceId s) /\
                      Name c = sp_Name s /\ Kind c = sp_Kind s /\
                      StatusCode c = from_option Code 0 (sp_Status s))
    (l ≫= rs_spans) (convertResourceSpans format_float l).
Proof.
  rewrite convertResourceSpans_eq. induction l as [|rs l IH]; [constructor|]. cbn.
  apply Forall2_app; [|exact IH]. clear IH. induction (rs_spans rs) as [|s k IH]; constructor; [|done].
  split; [|done]. apply convert_span_well_formed, resource_tags_no_empty.
Qed.

(** The gRPC receiver pushes what the HTTP receiver would push. *)
Theorem export_as_http {W} (req : Request) (r : Receiver W) (w : W) :
  (Export format_float (Some req) r w).2 =
    push_some (sink r) (convertResourceSpans format_float (req_ResourceSpans req)) w /\
  received (Export format_float (Some req) r w).1 = i64 (received r + Z.of_nat (length (req_spans req))).
Proof.
  assert (convertResourceSpans format_float (req_ResourceSpans req) =
    req_ResourceSpans req ≫= fun rs => rs_ScopeSpans rs ≫= fun ss =>
      convert_span format_float (flattenAttrs format_float (GetAttributes (rs_Resource rs))) <$> ss_Spans ss) as E.
  { unfold convertResourceSpans. induction (req_ResourceSpans req) as [|rs l IH]; [done|]. cbn. rewrite IH.
    by destruct (rs_Resource rs). }
  unfold Export. rewrite <- E. cbn. split; [done|]. do 2 f_equal. f_equal.
  pose proof (converted_well_formed (req_ResourceSpans req)) as Hl%Forall2_length. by rewrite <- Hl.
Qed.
End conversion.

(** ** The forwarder *)

(** The sink is written to by the receivers, the loop flushes, and the transport reads. *)
Inductive fop :=
  | OPush (spans : list Span)
  | OFlush (done pick_done : bool)
  | OReceive.

(** The forwarder, the batches read from its channel, the spans pushed so far, and the
    spans a flush gave up because the context had ended. *)
Record fstate := mk_fstate { fw : Forwarder; got : list SpanBatch; pushed : list Span; lost : Z }.

Definition fstep (o : fop) (s : fstate) : fstate :=
  match o with
  | OPush spans => mk_fstate (Push spans (fw s)) (got s) (pushed s ++ spans) (lost s)
  | OFlush done pick =>
      let f := flush done pick (fw s) in
      mk_fstate f (got s) (pushed s)
        (lost s + (if done && Nat.eqb (length (out f)) (length (out (fw s)))
                   then Z.of_nat (length (buf (fw s))) - Z.of_nat (length (buf f)) else 0))
  | OReceive => match receive (fw s) with
                | Some (b, f) => mk_fstate f (got s ++ [b]) (pushed s) (lost s)
                | None => s
                end
  end.

Definition frun (f : Forwarder) (ops : list fop) : fstate := foldl (fun s o => fstep o s) (mk_fstate f [] [] 0) ops.

(** The batches that left the buffer, oldest first. *)
Definition batches (s : fstate) : list SpanBatch := (got s ++ out (fw s))%list.
Definition delivered (s : fstate) : list Span := batches s ≫= Spans.

Definition size_ok (f : Forwarder) : Prop := 0 < maxBatch f < 2 ^ 60.

Abbreviation Zlen l := (Z.of_nat (length l)).

(** Everything pushed is delivered, buffered, or counted: nothing is duplicated,
    reordered or forgotten; batches are numbered in order and the buffer is bounded. *)
Record finv (s : fstate) : Prop := {
  fi_order : sublist (delivered s ++ buf (fw s)) (pushed s);
  fi_count : Zlen (pushed s) = Zlen (delivered s) + Zlen (buf (fw s)) + dropped (fw s) + lost s;
  fi_dropped : 0 <= dropped (fw s) /\ 0 <= lost s;
  fi_sorted : StronglySorted Z.lt (BatchSeq <$> batches s);
  fi_last : Forall (fun b => BatchSeq b <= seq (fw s)) (batches s);
  fi_seq : 0 <= seq (fw s) <= Zlen (delivered s) + dropped (fw s) + lost s;
  fi_batch : Forall (fun b => 0 < Zlen (Spans b) <= maxBatch (fw s)) (batches s);
  fi_buf : Zlen (buf (fw s)) <= 4 * maxBatch (fw s);
  fi_out : (length (out (fw s)) <= out_cap (fw s))%nat;
}.

Lemma finv_new id capacity max ival : size_ok (NewForwarder id capacity max ival) ->
  finv (mk_fstate (NewForwarder id capacity max ival) [] [] 0).
Proof. intros [? ?]. split; cbn in *; try constructor; cbn; try lia; constructor. Qed.

Lemma push_cap f : size_ok f -> i64 (maxBatch f * 4) = maxBatch f * 4.
Proof. intros [? ?]. apply i64_small. unfold in_i64. lia. Qed.

Lemma finv_push spans s :
  size_ok (fw s) -> Zlen (pushed s ++ spans) < 2 ^ 63 -> finv s -> finv (fstep (OPush spans) s).
Proof.
  intros Hsz Hb [Ho Hc [Hd1 Hd2] Hs Hl Hq Hbt Hbuf Hout]. cbn [fstep].
  assert (sublist (delivered s ++ buf (fw s) ++ spans) (pushed s ++ spans)) as Hsub.
  { rewrite app_assoc. by apply sublist_app. }
  rewrite length_app in Hb. unfold Push. rewrite push_cap by done.
  destruct spans as [|x l]; [split; unfold delivered, batches in *; cbn; rewrite ?app_nil_r; done|].
  case_match eqn:E; [apply Z.ltb_lt in E|apply Z.ltb_ge in E].
  - rewrite length_app in E. set (n := Z.to_nat (Z.of_nat (length (buf (fw s) ++ x :: l)) - maxBatch (fw s) * 4)).
    assert (Z.of_nat n = Zlen (buf (fw s) ++ x :: l) - maxBatch (fw s) * 4) as En.
    { unfold n. rewrite length_app. lia. }
    rewrite length_app in En.
    assert (i64 (dropped (fw s) + (Zlen (buf (fw s) ++ x :: l) - maxBatch (fw s) * 4)) =
            dropped (fw s) + Z.of_nat n) as Ed.
    { rewrite length_app, <- En. apply i64_small. unfold in_i64. destruct Hsz. lia. }
    split; unfold delivered, batches in *; cbn; rewrite ?Ed; rewrite ?length_drop, ?length_app in *; try done; try lia.
    etrans; [|exact Hsub]. apply sublist_app; [done|]. apply sublist_drop.
  - split; unfold delivered, batches in *; cbn; rewrite ?length_app in *; try done; lia.
Qed.

Lemma StronglySorted_snoc {A} (R : relation A) l x :
  StronglySorted R l -> Forall (fun y => R y x) l -> StronglySorted R (l ++ [x]).
Proof.
  induction 1 as [|y l Hl IH Hy]; intros Hx; cbn; [repeat constructor|].
  apply Forall_cons in Hx as [Hxy Hx]. constructor; [by apply IH|]. apply Forall_app. by repeat constructor.
Qed.

(** What a flush takes from a buffer that is not empty. *)
Lemma flush_take f n :
  size_ok f -> buf f <> [] -> n = Z.to_nat (Z.min (Zlen (buf f)) (maxBatch f)) ->
  Zlen (take n (buf f)) = Z.of_nat n /\ 0 < Z.of_nat n <= maxBatch f /\
  Zlen (drop n (buf f)) = Zlen (buf f) - Z.of_nat n.
Proof.
  intros [Hm _] Hne ->. rewrite length_take, length_drop. destruct (buf f); [done|]. cbn [length] in *. lia.
Qed.

Lemma finv_flush done pick s :
  size_ok (fw s) -> Zlen (pushed s) < 2 ^ 63 -> finv s -> finv (fstep (OFlush done pick) s).
Proof.
  intros Hsz Hb Hi. pose proof Hi as [Ho Hc [Hd1 Hd2] Hs Hl Hq Hbt Hbuf Hout]. cbn [fstep]. unfold flush.
  destruct (decide (buf (fw s) = [])) as [He|Hne].
  { rewrite He. cbn [length]. rewrite Nat.eqb_refl, He, Z.sub_diag. destruct done; cbn; rewrite Z.add_0_r; by destruct s. }
  remember (Z.to_nat (Z.min (Zlen (buf (fw s))) (maxBatch (fw s)))) as n eqn:En.
  destruct (flush_take (fw s) n Hsz Hne En) as (Hn1 & Hn2 & Hn3).
  assert (i64 (seq (fw s) + 1) = seq (fw s) + 1) as ->.
  { apply i64_small. unfold in_i64. lia. }
  destruct (buf (fw s)) as [|x k] eqn:Hbf; [done|]. rewrite <- Hbf in *. clear Hne.
  assert (sublist (delivered s ++ drop n (buf (fw s))) (pushed s)) as Hsub.
  { etrans; [|exact Ho]. apply sublist_app; [done|]. apply sublist_drop. }
  case_match eqn:Eroom.
  - apply andb_true_iff in Eroom as [Hroom%bool_decide_eq_true _].
    rewrite (proj2 (Nat.eqb_neq _ _)); [|cbn; rewrite length_app; cbn; lia]. rewrite andb_false_r, Z.add_0_r.
    assert (delivered (mk_fstate (set_fw (drop n (buf (fw s))) (dropped (fw s)) (seq (fw s) + 1)
        (out (fw s) ++ [mk_batch (collectorID (fw s)) (seq (fw s) + 1) (take n (buf (fw s)))]) (fw s))
        (got s) (pushed s) (lost s)) = delivered s ++ take n (buf (fw s)))%list as Ed.
    { unfold delivered, batches. cbn. by rewrite app_assoc, bind_app, bind_singleton. }
    split; rewrite ?Ed; unfold batches; cbn; rewrite ?app_assoc; try done.
    + by rewrite <- app_assoc, take_drop.
    + rewrite length_app. lia.
    + rewrite fmap_app. apply StronglySorted_snoc; [done|]. apply Forall_fmap. eapply Forall_impl; [exact Hl|].
      cbn. lia.
    + apply Forall_app. split; [|by repeat constructor]. eapply Forall_impl; [exact Hl|]. cbn. lia.
    + rewrite length_app. lia.
    + apply Forall_app. split; [done|]. constructor; [cbn; lia|constructor].
    + lia.
    + rewrite length_app. cbn. lia.
  - assert (i64 (dropped (fw s) + Zlen (take n (buf (fw s)))) = dropped (fw s) + Z.of_nat n) as Ei.
    { rewrite Hn1. apply i64_small. unfold in_i64. lia. }
    destruct done; cbn [andb]; [rewrite Nat.eqb_refl|]; split; unfold delivered, batches in *; cbn; rewrite ?Ei;
      try done; try lia; eapply Forall_impl; try exact Hl; cbn; lia.
Qed.

Lemma finv_receive s : finv s -> finv (fstep OReceive s).
Proof.
  intros Hi. cbn [fstep]. unfold receive. destruct (out (fw s)) as [|b o] eqn:E; [done|].
  assert ((got s ++ [b]) ++ o = batches s)%list as Eb by (unfold batches; by rewrite E, <- app_assoc).
  destruct Hi as [Ho Hc Hd Hs Hl Hq Hbt Hbuf Hout]. rewrite E in Hout. cbn in Hout.
  split; unfold delivered, batches in *; cbn; rewrite ?Eb; try done; lia.
Qed.

Lemma frun_config f ops : maxBatch (fw (frun f ops)) = maxBatch f.
Proof.
  unfold frun. induction ops as [|o ops IH] using rev_ind; [done|]. rewrite foldl_app. cbn [foldl].
  rewrite <- IH. destruct o as [spans|d p|]; cbn [fstep].
  - unfold Push. by destruct spans; [|case_match].
  - unfold flush. destruct (buf _); [done|]. by repeat case_match.
  - unfold receive. by destruct (out _).
Qed.

Lemma pushed_mono o s : Zlen (pushed s) <= Zlen (pushed (fstep o s)).
Proof.
  destruct o; cbn; [rewrite length_app; lia|lia|]. unfold receive. by destruct (out (fw s)).
Qed.

(** The span forwarder forgets nothing silently.  Whatever the receivers push and
    however flushes and the transport interleave, the batches delivered followed by the
    buffer are a subsequence of what was pushed; every other span is counted as dropped,
    or was given up by a flush whose context had ended; batches are numbered in
    increasing order, none is empty or over the limit, the buffer holds at most four
    batches, and the channel is never over its capacity. *)
Theorem forwarder_accounts id capacity max ival ops :
  size_ok (NewForwarder id capacity max ival) ->
  Zlen (pushed (frun (NewForwarder id capacity max ival) ops)) < 2 ^ 63 ->
  finv (frun (NewForwarder id capacity max ival) ops).
Proof.
  intros Hsz. induction ops as [|o ops IH] using rev_ind; intros Hb; [by apply finv_new|].
  pose proof (frun_config (NewForwarder id capacity max ival) ops) as Hc.
  unfold frun in *. rewrite foldl_app in *. cbn [foldl] in *.
  set (s := foldl _ _ ops) in *. pose proof (pushed_mono o s) as Hm.
  assert (size_ok (fw s)) as Hsz' by (unfold size_ok; by rewrite Hc).
  specialize (IH ltac:(lia)). destruct o as [spans|d p|].
  - by apply finv_push.
  - apply finv_flush; [done| |done]. cbn in Hb. lia.
  - by apply finv_receive.
Qed.

(** *** Examples *)

Definition xspan (n : string) : Span := mk_span "" "" "" "" n 0 0 0 0 "" "" "" ∅.
Definition xops : list fop :=
  [OPush (xspan <$> ["a"; "b"; "c"]); OFlush false false; OFlush false false; OReceive;
   OPush (xspan <$> ["d"; "e"; "f"; "g"; "h"; "i"; "j"; "k"; "l"]); OFlush false false].

Lemma forwarder_accounts_witness :
  (Name <$> delivered (frun (NewForwarder "c" 1 2 0) xops), Name <$> buf (fw (frun (NewForwarder "c" 1 2 0) xops)),
   dropped (fw (frun (NewForwarder "c" 1 2 0) xops))) =
    (["a"; "b"; "e"; "f"], ["g"; "h"; "i"; "j"; "k"; "l"], 2) /\
  finv (frun (NewForwarder "c" 1 2 0) xops).
Proof.
  refine (conj _ _); [vm_compute; reflexivity|].
  apply (forwarder_accounts "c" 1 2 0 xops).
  - unfold size_ok. cbn. lia.
  - vm_compute. reflexivity.
Defined.
