(* ===== verification/Stamp.v ===== *)
(** * Verified metadata on incoming telemetry (internal/otlp)

    primary_tags.go and metrics_primary_json.go: what an application says about its
    host, cluster, namespace or node under the reserved prefixes is removed, and what the
    collector knows is put in its place; http.go: the names of the pod that opened the
    connection, filled in where the application gave none.

    JSON is handled as text: an element that is not changed is passed on byte for byte.
    Reading and writing one level of a document belongs to encoding/json, whose
    operations are the fields of [JsonText]; a nil map is None there, and writing into
    it panics.  The order in which a Go map is enumerated is an argument, [range]. *)

From stdpp Require Import sorting.
From S2P Require Import Prelude GoStrings Wire Otlp Concentrator.
#[local] Open Scope Z_scope.

(** encoding/json on [json.RawMessage] values. *)
Class JsonText := {
  unmarshal_object : string -> option (option (gmap string string));  (* map[string]json.RawMessage *)
  unmarshal_array : string -> option (list string);                   (* []json.RawMessage *)
  unmarshal_objects : string -> option (list (option (gmap string string)));
  unmarshal_key : string -> option string;                            (* struct { Key string } *)
  marshal_object : gmap string string -> option string;
  marshal_array : list string -> option string;
  marshal_objects : list (option (gmap string string)) -> option string;
  marshal_kv : string -> string -> string;                (* {"key":k,"value":{"stringValue":v}} *)
}.

(** UTF-8 (unicode/utf8): the width of the first rune; an invalid byte is a rune of
    width one. *)
Definition cont (b : Z) : bool := (128 <=? b) && (b <=? 191).

Definition rune_width (l : list Z) : nat :=
  match l with
  | b0 :: b1 :: b2 :: b3 :: _ =>
      if (194 <=? b0) && (b0 <=? 223) && cont b1 then 2
      else if (224 <=? b0) && (b0 <=? 239) && cont b1 && cont b2 &&
              (negb (b0 =? 224) || (160 <=? b1)) && (negb (b0 =? 237) || (b1 <=? 159)) then 3
      else if (240 <=? b0) && (b0 <=? 244) && cont b1 && cont b2 && cont b3 &&
              (negb (b0 =? 240) || (144 <=? b1)) && (negb (b0 =? 244) || (b1 <=? 143)) then 4
      else 1
  | b0 :: b1 :: b2 :: _ =>
      if (194 <=? b0) && (b0 <=? 223) && cont b1 then 2
      else if (224 <=? b0) && (b0 <=? 239) && cont b1 && cont b2 &&
              (negb (b0 =? 224) || (160 <=? b1)) && (negb (b0 =? 237) || (b1 <=? 159)) then 3
      else 1
  | b0 :: b1 :: _ => if (194 <=? b0) && (b0 <=? 223) && cont b1 then 2 else 1
  | _ => 1
  end.

Fixpoint count_runes (fuel : nat) (l : list Z) : Z :=
  match fuel, l with
  | S fuel, _ :: _ => 1 + count_runes fuel (drop (rune_width l) l)
  | _, _ => 0
  end.

(** [len([]rune(s))]. *)
Definition rune_count (s : string) : Z := count_runes (String.length s) (bytes_of s).

(** ** Values of primary tags (primarytags/metadata.go) *)

Definition ValidValue (value : string) : bool :=
  (rune_count value <=? 200) && negb (String.eqb value "__other__") && negb (has_control value).

Section host_tags.
Variable unmarshal : string -> option tagmap.   (* json.Unmarshal into a string map *)

Definition ParseHostTags (raw : string) : res tagmap :=
  if String.eqb (trim_space raw) "" then Ok ∅
  else if 65536 <? str_len raw then Err "host tags configuration too large"
  else match unmarshal raw with
       | None => Err "invalid JSON"
       | Some tags =>
           if 256 <? Z.of_nat (size tags) then Err "maximum 256 host tag keys"
           else if forallb (fun e => PrimaryTags.ValidKey ("host.tag." +:+ e.1) && ValidValue e.2)
                     (map_to_list tags)
           then Ok tags else Err "invalid configured host tag"
       end.
End host_tags.

(** ** What the collector knows *)

Definition verifiedPrimaryPrefix : string := "telvyn.verified_primary.".

(** The identity of the pod behind an address: namespace, pod, workload, node, found. *)
Record Meta := mk_meta { m_ns : string; m_pod : string; m_workload : string; m_node : string; m_ok : bool }.
Definition no_meta : Meta := mk_meta "" "" "" "" false.

Record Resolver := mk_resolver {
  ResolveIPMeta : string -> Meta;
  LabelsForPod : option (string -> string -> tagmap);
  ResolverSources : option (list string);
}.

Record Primary := mk_primary {
  verifiedHost : string;
  verifiedCluster : string;
  primaryKeys : list string;
  verifiedHostTags : tagmap;
  resolver : option Resolver;
}.

Definition SetVerifiedPrimaryIdentity (host cluster : string) (p : Primary) : Primary :=
  mk_primary (trim_space host) (trim_space cluster) (primaryKeys p) (verifiedHostTags p) (resolver p).
Definition SetVerifiedHostTags (tags : tagmap) (p : Primary) : Primary :=
  mk_primary (verifiedHost p) (verifiedCluster p) (primaryKeys p) tags (resolver p).
Definition SetPodResolver (r : option Resolver) (p : Primary) : Primary :=
  mk_primary (verifiedHost p) (verifiedCluster p) (primaryKeys p) (verifiedHostTags p) r.

Fixpoint keys_ok (seen : gset string) (keys : list string) : bool :=
  match keys with
  | [] => true
  | k :: keys => negb (bool_decide (k ∈ seen)) && PrimaryTags.ValidKey k && keys_ok ({[k]} ∪ seen) keys
  end.

Definition ApplyPrimaryTags (keys : list string) (p : Primary) : res unit * Primary :=
  if 2 <? Z.of_nat (length keys) then (Err "maximum two primary tags", p)
  else if keys_ok ∅ keys
  then (Ok tt, mk_primary (verifiedHost p) (verifiedCluster p) keys (verifiedHostTags p) (resolver p))
  else (Err "invalid primary tags", p).

(** [sort.Strings] orders byte-wise. *)
Definition PrimaryTagSources (p : Primary) : list string :=
  let host : gset string := list_to_set ((fun e => "host.tag." +:+ e.1) <$> map_to_list (verifiedHostTags p)) in
  let more := match resolver p with
              | Some r => filter (fun k => PrimaryTags.ValidKey k = true) (default [] (ResolverSources r))
              | None => []
              end in
  take 256 (merge_sort String.le (elements (host ∪ list_to_set more))).

Definition put_some (k v : string) (m : tagmap) : tagmap := if String.eqb v "" then m else <[k := v]> m.

Definition verifiedPrimary (host cluster namespace node : string) (resolved : bool) : tagmap :=
  let m := put_some (verifiedPrimaryPrefix +:+ "kube_cluster_name") cluster
             (put_some (verifiedPrimaryPrefix +:+ "host") host ∅) in
  if resolved
  then put_some (verifiedPrimaryPrefix +:+ "kube_node") node
         (put_some (verifiedPrimaryPrefix +:+ "kube_namespace") namespace m)
  else m.

Definition resolve (p : Primary) (clientIP : string) : Meta :=
  match resolver p with Some r => ResolveIPMeta r clientIP | None => no_meta end.

(** The value of a configured key: a tag of the host or a label of the pod. *)
Definition key_value (p : Primary) (labels : tagmap) (key : string) : string :=
  if has_prefix "host.tag." key then tag (trim_prefix "host.tag." key) (verifiedHostTags p)
  else if has_prefix "kube_label." key then tag (trim_prefix "kube_label." key) labels
  else "".

Definition primaryMetadata (p : Primary) (clientIP : string) : tagmap :=
  let m := resolve p clientIP in
  let labels := match resolver p with
                | Some r => if m_ok m then match LabelsForPod r with
                                           | Some f => f (m_ns m) (m_pod m)
                                           | None => ∅
                                           end
                            else ∅
                | None => ∅
                end in
  foldl (fun values key =>
      let value := key_value p labels key in
      if negb (String.eqb value "") && ValidValue value
      then <[verifiedPrimaryPrefix +:+ key := value]> values else values)
    (verifiedPrimary (verifiedHost p) (verifiedCluster p) (m_ns m) (m_node m) (m_ok m)) (primaryKeys p).

Definition reserved (key : string) : bool :=
  has_prefix verifiedPrimaryPrefix key || has_prefix "apm_primary_" key.

(** ** Stamping *)

Section stamp.
Context `{JsonText}.
Variable range : tagmap -> list (string * string).

(** JSON.  The outer None is the panic of a write into a nil map. *)
Definition stampJSONPrimary (raw : string) (values : tagmap) : option (string * bool) :=
  match (if String.eqb raw "" || String.eqb raw "null" then Some (Some ∅) else unmarshal_object raw) with
  | None => Some (raw, false)
  | Some doc =>
      let field := default "" (doc ≫= lookup "attributes") in
      match (if String.eqb field "" then Some [] else unmarshal_array field) with
      | None => Some (raw, false)
      | Some attributes =>
          let drops a := match unmarshal_key a with Some k => reserved k | None => false end in
          let own := filter (fun a => drops a = false) attributes in
          let changed := existsb drops attributes || negb (Nat.eqb (length (range values)) 0) in
          if negb changed then Some (raw, false)
          else
            let clean := (own ++ ((fun e => marshal_kv e.1 e.2) <$> range values))%list in
            match doc with
            | None => None
            | Some m =>
                Some match marshal_object (<["attributes" := default "" (marshal_array clean)]> m) with
                     | Some encoded => (encoded, true)
                     | None => (raw, false)
                     end
            end
      end
  end.

(** Protobuf. *)
Definition stripPrimaryProto (l : list Otlp.KeyValue) : list Otlp.KeyValue * bool :=
  (filter (fun kv => reserved (Otlp.Key kv) = false) l, existsb (fun kv => reserved (Otlp.Key kv)) l).

Definition stamp_resource (values : tagmap) (r : option Otlp.Resource) : Otlp.Resource * bool :=
  let r := default (Otlp.mk_resource [] "") r in
  let '(own, removed) := stripPrimaryProto (Otlp.res_Attributes r) in
  (Otlp.mk_resource (own ++ ((fun e => Otlp.kv e.1 e.2) <$> range values)) (Otlp.res_rest r),
   removed || negb (Nat.eqb (length (range values)) 0)).

Definition strip_span (s : Otlp.SpanMsg) : Otlp.SpanMsg :=
  Otlp.set_sp_Attributes (stripPrimaryProto (Otlp.sp_Attributes s)).1 s.

Definition stamp_rs (values : tagmap) (rs : Otlp.ResourceSpans) : Otlp.ResourceSpans * bool :=
  let '(r, changed) := stamp_resource values (Otlp.rs_Resource rs) in
  (Otlp.mk_rs (Some r)
     ((fun ss => Otlp.mk_scope (strip_span <$> Otlp.ss_Spans ss) (Otlp.ss_rest ss)) <$> Otlp.rs_ScopeSpans rs)
     (Otlp.rs_rest rs),
   changed || existsb (fun s => (stripPrimaryProto (Otlp.sp_Attributes s)).2) (Otlp.rs_spans rs)).

Definition stampPrimaryProto (req : Otlp.Request) (values : tagmap) : Otlp.Request * bool :=
  let l := stamp_rs values <$> Otlp.req_ResourceSpans req in
  (Otlp.mk_request l.*1 (Otlp.req_rest req), existsb snd l).

(** ** The pod of a connection (http.go) *)

Definition has_text (key : string) (l : list Otlp.KeyValue) : bool :=
  existsb (fun kv => String.eqb (Otlp.Key kv) key && negb (String.eqb (Otlp.GetStringValue (Otlp.Value kv)) "")) l.

(** The four names, with the attribute that carries each. *)
Definition pod_names (m : Meta) : list (string * string) :=
  [("k8s.namespace.name", m_ns m); ("k8s.pod.name", m_pod m);
   ("k8s.deployment.name", m_workload m); ("k8s.node.name", m_node m)].

Definition missing_names (m : Meta) (l : list Otlp.KeyValue) : list (string * string) :=
  filter (fun e => has_text e.1 l = false /\ e.2 <> "") (pod_names m).

Definition enrich_rs (m : Meta) (rs : Otlp.ResourceSpans) : Otlp.ResourceSpans * bool :=
  let r := default (Otlp.mk_resource [] "") (Otlp.rs_Resource rs) in
  let more := missing_names m (Otlp.res_Attributes r) in
  (Otlp.mk_rs (Some (Otlp.mk_resource (Otlp.res_Attributes r ++ ((fun e => Otlp.kv e.1 e.2) <$> more))
                       (Otlp.res_rest r)))
     (Otlp.rs_ScopeSpans rs) (Otlp.rs_rest rs),
   negb (Nat.eqb (length more) 0)).

Definition enrichResourceAttrsProto (p : Primary) (req : Otlp.Request) (clientIP : string)
    : Otlp.Request * bool :=
  match resolver p with
  | None => (req, false)
  | Some r =>
      let m := ResolveIPMeta r clientIP in
      if negb (m_ok m) ||
         (String.eqb (m_ns m) "" && String.eqb (m_pod m) "" && String.eqb (m_workload m) "" &&
          String.eqb (m_node m) "")
      then (req, false)
      else let l := enrich_rs m <$> Otlp.req_ResourceSpans req in
           (Otlp.mk_request l.*1 (Otlp.req_rest req), existsb snd l)
  end.

(** JSON: [need] tells which of the names the application did not give. *)
Definition enrichJSONResource (raw : string) (m : Meta) (need : string -> bool) : option (string * bool) :=
  match (if String.eqb raw "" then Some (Some ∅) else unmarshal_object raw) with
  | None => Some (raw, false)
  | Some doc =>
      let field := default "" (doc ≫= lookup "attributes") in
      match (if String.eqb field "" then Some [] else unmarshal_array field) with
      | None => Some (raw, false)
      | Some attrs =>
          let more := filter (fun e => need e.1 = true /\ e.2 <> "") (pod_names m) in
          match more with
          | [] => Some (raw, false)
          | _ =>
              match marshal_array (attrs ++ ((fun e => marshal_kv e.1 e.2) <$> more)) with
              | None => Some (raw, false)
              | Some nb =>
                  match doc with
                  | None => None
                  | Some obj =>
                      Some match marshal_object (<["attributes" := nb]> obj) with
                           | Some out => (out, true)
                           | None => (raw, false)
                           end
                  end
              end
          end
      end
  end.

(** ** Metrics *)

Record Point := mk_point { p_Attributes : list Otlp.KeyValue; p_rest : string }.
Inductive MetricKind := Gauge | Sum | Histogram | ExponentialHistogram | Summary.
Record MetricMsg := mk_metric_msg {
  mm_Data : option (MetricKind * list Point);
  mm_rest : string;
}.
Record ScopeMetrics := mk_scope_metrics { sm_Metrics : list MetricMsg; sm_rest : string }.
Record ResourceMetrics := mk_rm {
  rm_Resource : option Otlp.Resource;
  rm_ScopeMetrics : list ScopeMetrics;
  rm_rest : string;
}.
Record MetricsRequest := mk_metrics_request { mr_ResourceMetrics : list ResourceMetrics; mr_rest : string }.

Definition strip_point (p : Point) : Point := mk_point (stripPrimaryProto (p_Attributes p)).1 (p_rest p).

(** Each of the five kinds of data in turn; a metric holds one of them. *)
Definition strip_metric (m : MetricMsg) : MetricMsg :=
  mk_metric_msg (option_map (fun d => (d.1, map strip_point d.2)) (mm_Data m)) (mm_rest m).

Definition stampMetricsPrimary (req : MetricsRequest) (values : tagmap) : MetricsRequest :=
  mk_metrics_request
    ((fun rm => mk_rm (Some (stamp_resource values (rm_Resource rm)).1)
        ((fun sm => mk_scope_metrics (strip_metric <$> sm_Metrics sm) (sm_rest sm)) <$> rm_ScopeMetrics rm)
        (rm_rest rm)) <$> mr_ResourceMetrics req) (mr_rest req).

(** JSON metrics: an error of a level ends the request; a panic ends the handler. *)
Definition fallible (A : Type) : Type := option (res A).
Definition fail {A} (e : string) : fallible A := Some (Err e).
Definition done {A} (a : A) : fallible A := Some (Ok a).
Definition bindf {A B} (m : fallible A) (f : A -> fallible B) : fallible B :=
  match m with
  | None => None
  | Some (Err e) => Some (Err e)
  | Some (Ok a) => f a
  end.

Fixpoint mapf {A B} (f : A -> fallible B) (l : list A) : fallible (list B) :=
  match l with
  | [] => done []
  | x :: l => bindf (f x) (fun y => bindf (mapf f l) (fun ys => done (y :: ys)))
  end.

Fixpoint foldf {A X} (f : A -> X -> fallible A) (a : A) (l : list X) : fallible A :=
  match l with
  | [] => done a
  | x :: l => bindf (f a x) (fun a => foldf f a l)
  end.

Definition json_map : Type := option (gmap string string).

(** The raw text under a key, empty when it is missing. *)
Definition raw_field (key : string) (m : json_map) : string := default "" (m ≫= lookup key).

(** An assignment to a key, which panics on a nil map. *)
Definition assign (key v : string) (m : json_map) : fallible json_map :=
  match m with None => None | Some m => done (Some (<[key := v]> m)) end.

Definition or_fail {A} (x : option A) (e : string) : fallible A :=
  match x with Some a => done a | None => fail e end.

Definition metric_kinds : list string := ["gauge"; "sum"; "histogram"; "exponentialHistogram"; "summary"].

Definition stamp_kind (metric : json_map) (kind : string) : fallible json_map :=
  if String.eqb (raw_field kind metric) "" then done metric
  else
    bindf (or_fail (unmarshal_object (raw_field kind metric)) "invalid metric data") (fun group =>
    bindf (or_fail (unmarshal_array (raw_field "dataPoints" group)) "invalid data points") (fun points =>
    bindf (mapf (fun point => option_map (fun r => Ok r.1) (stampJSONPrimary point ∅)) points) (fun points =>
    bindf (assign "dataPoints" (default "" (marshal_array points)) group) (fun group =>
    assign kind (match group with Some g => default "" (marshal_object g) | None => "null" end) metric)))).

Definition stamp_scope (scope : json_map) : fallible json_map :=
  if String.eqb (raw_field "metrics" scope) "" then done scope
  else
    bindf (or_fail (unmarshal_objects (raw_field "metrics" scope)) "invalid metrics") (fun metrics =>
    bindf (mapf (fun metric => foldf stamp_kind metric metric_kinds) metrics) (fun metrics =>
    assign "metrics" (default "" (marshal_objects metrics)) scope)).

Definition stamp_resource_json (values : tagmap) (resource : json_map) : fallible json_map :=
  bindf (option_map (fun r => Ok r.1) (stampJSONPrimary (raw_field "resource" resource) values)) (fun raw =>
  bindf (assign "resource" raw resource) (fun resource =>
  if String.eqb (raw_field "scopeMetrics" resource) "" then done resource
  else
    bindf (or_fail (unmarshal_objects (raw_field "scopeMetrics" resource)) "invalid scope metrics") (fun scopes =>
    bindf (mapf stamp_scope scopes) (fun scopes =>
    assign "scopeMetrics" (default "" (marshal_objects scopes)) resource)))).

Definition stampMetricsJSON (body : string) (values : tagmap) : fallible string :=
  bindf (or_fail (unmarshal_object body) "invalid JSON") (fun root =>
  if String.eqb (raw_field "resourceMetrics" root) "" then done body
  else
    bindf (or_fail (unmarshal_objects (raw_field "resourceMetrics" root)) "invalid resource metrics") (fun resources =>
    bindf (mapf (stamp_resource_json values) resources) (fun resources =>
    bindf (assign "resourceMetrics" (default "" (marshal_objects resources)) root) (fun root =>
    or_fail (root ≫= marshal_object) "json encoding")))).
End stamp.
