(* ===== verification/OtlpHttp.v ===== *)
(** * The OTLP receiver on HTTP (internal/otlp/http.go)

    Requests carry traces, metrics, logs, profiles, security events and reports.  A
    trace request is processed by the rules, counted by the tap, sampled and passed on.

    The receiver calls back into the rest of the program: a callback is a transformer of
    the state [W] behind all of them, and reading the clock is one of them.  Handlers are
    computations of [Eff] on the receiver, that state and the response.

    Arguments: the decoders and encoders of protobuf and encoding/json, gzip, the case
    conversion of Unicode, [format_float] and [range] (see [Otlp] and [Stamp]). *)

From S2P Require Import Prelude GoStrings Wire Otlp Concentrator Stamp Usage Eff.
#[local] Open Scope Z_scope.

Module OtlpHttp.
Import Otlp.

Definition DefaultHTTPListenAddr : string := "0.0.0.0:4318".
Definition DefaultMaxBodyBytes : Z := 5 * 1024 * 1024.

(** ** State *)

Record Counters := mk_counters {
  tracesAccepted : Z;
  metricsAccepted : Z;
  logsAccepted : Z;
  requestsTotal : Z;
  requests2xx : Z;
  requests4xx : Z;
  requests5xx : Z;
  spansAccepted : Z;
  endpointRequests : gmap (string * string) Z;   (* endpoint and bucket of the status *)
}.

Definition no_counters : Counters := mk_counters 0 0 0 0 0 0 0 0 ∅.

Record Config := mk_config {
  addr : string;
  maxBodyBytes : Z;
  corsOrigins : list string;
}.

Record HTTPReceiver := mk_receiver {
  securityTraces : gmap string Z;   (* trace id, and the time until which it is kept *)
  config : Config;
  primary : Primary;
  counters : Counters;
}.

Definition set_security (m : gmap string Z) (h : HTTPReceiver) : HTTPReceiver :=
  mk_receiver m (config h) (primary h) (counters h).
Definition set_primary (p : Primary) (h : HTTPReceiver) : HTTPReceiver :=
  mk_receiver (securityTraces h) (config h) p (counters h).
Definition set_counters (c : Counters) (h : HTTPReceiver) : HTTPReceiver :=
  mk_receiver (securityTraces h) (config h) (primary h) c.

Definition NewHTTPReceiver (a : string) (maxBody : Z) (cors : list string) : HTTPReceiver :=
  mk_receiver ∅
    (mk_config (if String.eqb a "" then DefaultHTTPListenAddr else a)
       (if maxBody <=? 0 then DefaultMaxBodyBytes else maxBody)
       match cors with [o] => if String.eqb (trim_space o) "*" then [] else cors | _ => cors end)
    (mk_primary "" "" [] ∅ None) no_counters.

(** ** Traces with a security event *)

Definition securityCap : Z := 10000.
Definition securityTTL : Z := 10 * minute.

Definition securityTrace (now : Z) (id : string) (marked : bool) (t : gmap string Z) : bool * gmap string Z :=
  if String.eqb id "" then (false, t)
  else if marked then
    let t := if securityCap <=? Z.of_nat (size t) then filter (fun e => now <= e.2) t else t in
    (true, if Z.of_nat (size t) <? securityCap then <[id := now + securityTTL]> t else t)
  else
    match t !! id with
    | Some until => if until <? now then (false, delete id t) else (true, t)
    | None => (false, t)
    end.

(** ** What a sampler sees of a span *)

Definition samplingScope (name : string) (attrs : tagmap) : string * string :=
  (Concentrator.first_attr ["deployment.environment"; "deployment.environment.name"] attrs,
   if negb (String.eqb (tag "resource.name" attrs) "") then tag "resource.name" attrs
   else
     let method := Concentrator.first_attr ["http.request.method"; "http.method"] attrs in
     if negb (String.eqb method "") && negb (String.eqb (tag "http.route" attrs) "")
     then method +:+ " " +:+ tag "http.route" attrs else name).

Definition securityEvent : string := "telvyn.security.event".

(** ** Hooks *)

Section hooks.
Context {W : Type}.

(** The state a handler runs on. *)
Record Response := mk_response {
  headers : list (string * string);
  status : option Z;        (* once it has been written *)
  written : string;
}.

Record St := mk_st { rcv : HTTPReceiver; ext : W; resp : Response }.
Definition on_rcv (f : HTTPReceiver -> HTTPReceiver) (s : St) : St := mk_st (f (rcv s)) (ext s) (resp s).
Definition on_resp (f : Response -> Response) (s : St) : St := mk_st (rcv s) (ext s) (f (resp s)).

(** A call out of the receiver. *)
Definition call {A} (f : W -> A * W) : eff St A :=
  fun s => let '(a, w) := f (ext s) in (Some a, mk_st (rcv s) w (resp s)).

(** A call that may panic. *)
Definition call_sampler (f : W -> option bool * W) : eff St bool :=
  fun s => let '(a, w) := f (ext s) in (a, mk_st (rcv s) w (resp s)).

Record Samplers := mk_samplers {
  traceSampler : option (string -> Z -> Z -> W -> option bool * W);
  serviceTraceSampler : option (string -> string -> Z -> Z -> W -> option bool * W);
  scopeTraceSampler : option (string -> string -> string -> string -> Z -> Z -> Z -> W -> option bool * W);
}.

Definition no_samplers : Samplers := mk_samplers None None None.

Definition SetTraceSampler (fn : option (string -> Z -> Z -> W -> option bool * W)) (s : Samplers) : Samplers :=
  mk_samplers fn None None.

Definition SetServiceTraceSampler (fn : option (string -> string -> Z -> Z -> W -> option bool * W)) (s : Samplers)
    : Samplers :=
  mk_samplers (match fn with Some fn => Some (fun id status duration => fn id "" status duration)
                           | None => None end) fn None.

Definition SetScopeTraceSampler
    (fn : option (string -> string -> string -> string -> Z -> Z -> Z -> W -> option bool * W)) (s : Samplers)
    : Samplers :=
  mk_samplers (match fn with Some fn => Some (fun id status duration => fn id "" "" "" status 0 duration)
                           | None => None end) (serviceTraceSampler s) fn.

Record Hooks := mk_hooks {
  sink : option (list Span -> W -> W);
  forwardRaw : option (string -> string -> string -> W -> option string * W);
  debugConfig : option (string -> string -> string -> W -> res string * W);
  sdkRemoteConfig : option (string -> string -> string -> W -> res string * W);
  traceProcessor : option (string -> string -> W -> res string * W);
  apmTap : option (list Span -> W -> W);
  samplers : Samplers;
  traceUsageObserver : option (Usage.Observation -> W -> W);
  Now : W -> Z * W;
}.

(** ** Sampling *)

Variable hooks : Hooks.

Definition sampleTrace (id service : string) (st dur : Z) : eff St bool :=
  match serviceTraceSampler (samplers hooks) with
  | Some f => call_sampler (f id service st dur)
  | None => match traceSampler (samplers hooks) with
            | Some f => call_sampler (f id st dur)
            | None => panic   (* a call of a nil function *)
            end
  end.

Definition sampleTraceScope (id service env resource : string) (st kind dur : Z) : eff St bool :=
  match scopeTraceSampler (samplers hooks) with
  | Some f => call_sampler (f id service env resource st kind dur)
  | None => sampleTrace id service st dur
  end.

(** [h.securityTrace]. *)
Definition security_trace (id : string) (marked : bool) : eff St bool :=
  if String.eqb id "" then mret false
  else
    now ← call (Now hooks);
    (fun s => let '(b, t) := securityTrace now id marked (securityTraces (rcv s)) in
              (Some b, on_rcv (set_security t) s)) : eff St bool.

Definition decided (d : gmap string bool) (id : string) : bool := default false (d !! id).
Definition decide_or (d : gmap string bool) (id : string) (keep : bool) : gmap string bool :=
  <[id := decided d id || keep]> d.

(** *** Protobuf *)

Definition string_attrs (l : list KeyValue) (m : tagmap) : tagmap :=
  foldl (fun m kv => <[Key kv := GetStringValue (Value kv)]> m) m l.

(** The last attribute of the name. *)
Definition last_service (l : list KeyValue) : string :=
  foldl (fun s kv => if String.eqb (Key kv) "service.name" then GetStringValue (Value kv) else s) "" l.

Definition keep_fn : Type := string -> string -> string -> string -> Z -> Z -> Z -> eff St bool.

(** What is asked about a span: the arguments of [keep], and whether it carries a
    security event. *)
Record Question := mk_question {
  q_id : string;
  q_service : string;
  q_env : string;
  q_resource : string;
  q_status : Z;
  q_kind : Z;
  q_duration : Z;
  q_marked : bool;
}.

Definition question (resAttrs : list KeyValue) (s : SpanMsg) : Question :=
  let service := last_service resAttrs in
  let attrs := string_attrs (sp_Attributes s) (string_attrs resAttrs ∅) in
  let '(env, resource) := samplingScope (sp_Name s) attrs in
  mk_question (Hex.EncodeToString (sp_TraceId s))
    (if String.eqb service "" then last_service (sp_Attributes s) else service) env resource
    (from_option Code 0 (sp_Status s)) (sp_Kind s) (i64 (i64 (sp_End s) - i64 (sp_Start s)))
    (negb (String.eqb (tag securityEvent attrs) "")).

(** One round of the first loop: the sampler is asked, then the security traces. *)
Definition ask (keep : keep_fn) (security : option (string -> bool -> eff St bool))
    (d : gmap string bool) (q : Question) : eff St (gmap string bool) :=
  k ← keep (q_id q) (q_service q) (q_env q) (q_resource q) (q_status q) (q_kind q) (q_duration q);
  k ← match security with
      | Some sec => b ← sec (q_id q) (q_marked q); mret (b || k)
      | None => mret k
      end;
  mret (decide_or d (q_id q) k).

Definition questions (req : Request) : list Question :=
  req_ResourceSpans req ≫= fun rs => question (GetAttributes (rs_Resource rs)) <$> rs_spans rs.

Definition keep_span (d : gmap string bool) (s : SpanMsg) : bool :=
  decided d (Hex.EncodeToString (sp_TraceId s)).

Definition filter_spans (keep : SpanMsg -> bool) (req : Request) : Request :=
  mk_request
    ((fun rs => mk_rs (rs_Resource rs)
        ((fun ss => mk_scope (filter (fun s => keep s = true) (ss_Spans ss)) (ss_rest ss)) <$> rs_ScopeSpans rs)
        (rs_rest rs)) <$> req_ResourceSpans req) (req_rest req).

Definition filterScopeSampledSpans (req : Request) (keep : keep_fn)
    (security : option (string -> bool -> eff St bool)) : eff St (Z * Request) :=
  decisions ← fold_eff (ask keep security) ∅ (questions req);
  let req := filter_spans (keep_span decisions) req in
  mret (Z.of_nat (length (req_spans req)), req).

Definition filterServiceSampledSpans (req : Request) (keep : string -> string -> Z -> Z -> eff St bool)
    : eff St (Z * Request) :=
  filterScopeSampledSpans req (fun id service _ _ st _ dur => keep id service st dur) None.

Definition filterSampledSpans (req : Request) (keep : string -> Z -> Z -> eff St bool) : eff St (Z * Request) :=
  filterServiceSampledSpans req (fun id _ st dur => keep id st dur).

(** *** JSON

    Spans and resources stay as text; [doc] types give the fields that are read.  A nil
    slice is the empty list. *)

Record otlpScopeSpans := mk_jscope { js_Scope : string; js_Spans : list string; js_SchemaURL : string }.
Record otlpResourceSpans := mk_jrs {
  jr_Resource : string;
  jr_ScopeSpans : list otlpScopeSpans;
  jr_SchemaURL : string;
}.
Abbreviation otlpTraceDoc := (list otlpResourceSpans).

Record otlpKeyValue := mk_jkv { jk_Key : string; jk_String : option string; jk_Int : option string }.

Record otlpSpanFields := mk_fields {
  f_TraceID : string;
  f_Name : string;
  f_Kind : Z;
  f_Start : string;
  f_End : string;
  f_Status : option Z;
  f_Attributes : list otlpKeyValue;
}.

(** encoding/json on the types above.  The enums of a span are given as the text they
    are read from: empty when the field is missing. *)
Class SpanJson := {
  unmarshal_doc : string -> option otlpTraceDoc;
  marshal_doc : otlpTraceDoc -> option string;
  unmarshal_resource : string -> list otlpKeyValue * bool;   (* the fields, even on an error *)
  unmarshal_span : string -> option (otlpSpanFields * string * option string);
  unmarshal_int32 : string -> option Z;
  unmarshal_string : string -> option string;
  marshal_tags : tagmap -> string;   (* json.Marshal of a string map *)
}.

Context `{JsonText} `{SpanJson}.
Variable range : tagmap -> list (string * string).
Variable ToLower : string -> string.

Definition otlpEnumNames : gmap string Z :=
  list_to_map [("STATUS_CODE_UNSET", 0); ("STATUS_CODE_OK", 1); ("STATUS_CODE_ERROR", 2);
               ("SPAN_KIND_UNSPECIFIED", 0); ("SPAN_KIND_INTERNAL", 1); ("SPAN_KIND_SERVER", 2);
               ("SPAN_KIND_CLIENT", 3); ("SPAN_KIND_PRODUCER", 4); ("SPAN_KIND_CONSUMER", 5)].

(** [otlpEnum.UnmarshalJSON], from the value 0. *)
Definition UnmarshalEnum (b : string) : option Z :=
  match byte_at 0 b with
  | None => Some 0
  | Some c =>
      if negb (c =? 34) then unmarshal_int32 b
      else s ← unmarshal_string b;
           Some match atoi s with
                | Some n => i32 n
                | None => default 0 (otlpEnumNames !! s)
                end
  end.

Definition span_fields (raw : string) : option otlpSpanFields :=
  r ← unmarshal_span raw;
  let '(f, kind, code) := r in
  kind ← UnmarshalEnum kind;
  code ← match code with
         | Some c => c ← UnmarshalEnum c; Some (Some c)
         | None => Some None
         end;
  Some (mk_fields (f_TraceID f) (f_Name f) kind (f_Start f) (f_End f) code (f_Attributes f)).

Definition kv_text (kv : otlpKeyValue) : option string :=
  match jk_String kv with Some s => Some s | None => jk_Int kv end.

Definition kvToMap (kvs : list otlpKeyValue) : tagmap :=
  foldl (fun m kv => match kv_text kv with Some v => <[jk_Key kv := v]> m | None => m end) ∅ kvs.

Definition mergeEnv (attrs : tagmap) (env : string) : tagmap :=
  if String.eqb env "" then attrs
  else match attrs !! "deployment.environment" with
       | Some _ => attrs
       | None => <["deployment.environment" := env]> attrs
       end.

(** [strconv.ParseInt(s, 10, 64)] without its error: a value out of range is cut off at
    the end of the range, and anything else that is not a number is 0. *)
Definition atoiNano (s : string) : Z := atoi_value s.

Definition json_question (resourceAttrs : tagmap) (f : otlpSpanFields) : Question :=
  let service := tag "service.name" resourceAttrs in
  let own := kvToMap (f_Attributes f) in
  let attrs := own ∪ resourceAttrs in
  let '(env, resource) := samplingScope (f_Name f) attrs in
  mk_question (ToLower (f_TraceID f))
    (if String.eqb service "" then tag "service.name" own else service) env resource
    (default 0 (f_Status f)) (f_Kind f) (i64 (atoiNano (f_End f) - atoiNano (f_Start f)))
    (negb (String.eqb (tag securityEvent attrs) "")).

Definition jr_spans (rs : otlpResourceSpans) : list string := jr_ScopeSpans rs ≫= js_Spans.

(** The questions of the first loop; a span that cannot be read is skipped. *)
Definition json_questions (doc : otlpTraceDoc) : list Question :=
  doc ≫= fun rs =>
    let resourceAttrs := kvToMap (unmarshal_resource (jr_Resource rs)).1 in
    omap (fun raw => json_question resourceAttrs <$> span_fields raw) (jr_spans rs).

(** The names read from a resource, completed from the connection. *)
Record Named := mk_named {
  n_attrs : tagmap;
  n_service : string;
  n_env : string;
  n_namespace : string;
  n_pod : string;
}.

(** The head of the second loop: stamps the resource, reads its names, fills in the
    missing ones.  None is a panic. *)
Definition tap_resource (verified : tagmap) (meta : Meta) (raw : string) : option (string * Named * bool) :=
  '(raw, stamped) ← stampJSONPrimary range raw verified;
  let '(attrs, okr) := if String.eqb raw "" then (∅, false)
                       else let '(kvs, ok) := unmarshal_resource raw in
                            if ok then (kvToMap kvs, true) else (∅, false) in
  let namespace := tag "k8s.namespace.name" attrs in
  let pod := tag "k8s.pod.name" attrs in
  let service := tag "service.name" attrs in
  let service := if String.eqb service "" then pod else service in
  let n := mk_named attrs service
             (Concentrator.first_attr ["deployment.environment"; "deployment.environment.name"] attrs)
             namespace pod in
  let need k := String.eqb (tag k attrs) "" in
  if m_ok meta &&
     existsb need ["k8s.namespace.name"; "k8s.pod.name"; "k8s.deployment.name"; "k8s.node.name"]
  then
    '(raw', changed) ← enrichJSONResource raw meta need;
    if changed : bool then
      let namespace := if String.eqb namespace "" then m_ns meta else namespace in
      let pod := if String.eqb pod "" then m_pod meta else pod in
      Some (raw', mk_named attrs (if String.eqb service "" then pod else service) (n_env n) namespace pod, true)
    else Some (raw, n, stamped)
  else Some (raw, n, stamped).

(** The span that statistics are made of. *)
Definition tap_span (n : Named) (f : otlpSpanFields) : Span :=
  let attributes := mergeEnv (kvToMap (f_Attributes f)) (n_env n) in
  {| TraceId := f_TraceID f; SpanId := ""; ParentSpanId := "";
     ServiceName := n_service n; Name := f_Name f; Kind := f_Kind f;
     StartUnixNano := atoiNano (f_Start f); EndUnixNano := atoiNano (f_End f);
     StatusCode := default 0 (f_Status f); StatusMessage := "";
     Namespace := n_namespace n; Pod := n_pod n;
     Attributes := filter (fun e => has_prefix verifiedPrimaryPrefix e.1 = true) (n_attrs n)
                   ∪ (attributes ∪ n_attrs n) |}.

(** One span of the second loop: the text passed on, whether it was changed, the span
    for the tap and whether it is kept. *)
Record Tapped := mk_tapped { t_raw : string; t_changed : bool; t_span : option Span; t_kept : bool }.

Definition tap_raw (keep : string -> bool) (n : Named) (raw : string) : option Tapped :=
  '(raw, changed) ← stampJSONPrimary range raw ∅;
  Some match span_fields raw with
       | None => mk_tapped raw changed None true
       | Some f => mk_tapped raw changed (Some (tap_span n f)) (keep (ToLower (f_TraceID f)))
       end.

Definition kept_raws (l : list Tapped) : list string := t_raw <$> filter (fun t => t_kept t = true) l.

Definition tap_scope keep (n : Named) (ss : otlpScopeSpans) : option (otlpScopeSpans * list Tapped) :=
  l ← mapM (tap_raw keep n) (js_Spans ss);
  Some (mk_jscope (js_Scope ss) (kept_raws l) (js_SchemaURL ss), l).

Record TappedDoc := mk_tapped_doc { td_doc : otlpResourceSpans; td_spans : list Tapped; td_changed : bool }.

Definition tap_rs keep (verified : tagmap) (meta : Meta) (rs : otlpResourceSpans) : option TappedDoc :=
  '(raw, n, changed) ← tap_resource verified meta (jr_Resource rs);
  l ← mapM (tap_scope keep n) (jr_ScopeSpans rs);
  let spans := concat l.*2 in
  Some (mk_tapped_doc (mk_jrs raw l.*1 (jr_SchemaURL rs)) spans (changed || existsb t_changed spans)).

(** The second loop. *)
Definition tap_doc keep (verified : tagmap) (meta : Meta) (doc : otlpTraceDoc) : option (list TappedDoc) :=
  mapM (tap_rs keep verified meta) doc.

Definition isSome {A} (x : option A) : bool := match x with Some _ => true | None => false end.

Definition call_tap (tap : option (list Span -> W -> W)) (spans : list Span) : eff St unit :=
  match tap, spans with
  | Some f, _ :: _ => call (fun w => (tt, f spans w))
  | _, _ => mret tt
  end.

(** [tapAndSampleJSON]: None when the body could not be read or written. *)
Definition tapAndSampleJSON (body clientIP : string) : eff St (option (string * Z)) :=
  match unmarshal_doc body with
  | None => mret None
  | Some doc =>
      let sampling := isSome (traceSampler (samplers hooks)) in
      decisions ← (if sampling then fold_eff (ask sampleTraceScope (Some security_trace)) ∅ (json_questions doc)
                   else mret ∅);
      p ← read (fun s => primary (rcv s));
      let keep id := negb sampling || decided decisions id in
      l ← of_option (tap_doc keep (primaryMetadata p clientIP) (resolve p clientIP) doc);
      let spans := l ≫= td_spans in
      call_tap (apmTap hooks) (omap t_span spans);;
      let kept := Z.of_nat (length (filter (fun t => t_kept t = true) spans)) in
      if negb sampling && negb (existsb td_changed l) then mret (Some (body, kept))
      else mret ((fun nb => (nb, kept)) <$> marshal_doc (td_doc <$> l))
  end.

(** ** Messages of requests *)

(** google.golang.org/protobuf: binary and JSON forms; [valid_logs] decodes and forgets. *)
Class Protobuf := {
  proto_traces : string -> option Request;
  protojson_traces : string -> option Request;
  marshal_traces : Request -> option string;
  protojson_marshal_traces : Request -> option string;
  proto_metrics : string -> option MetricsRequest;
  protojson_metrics : string -> option MetricsRequest;
  protojson_marshal_metrics : MetricsRequest -> option string;
  proto_logs : string -> bool;
  protojson_logs : string -> bool;
}.

Context `{Protobuf}.
Variable format_float : f64 -> string.

Definition ctJSON : string := "application/json".
Definition ctProto : string := "application/x-protobuf".

Definition unmarshalOTLP (body ct : string) : option Request :=
  if String.eqb ct ctJSON then protojson_traces body
  else if String.eqb ct ctProto then proto_traces body else None.

Definition marshalOTLP (req : Request) (ct : string) : option string :=
  if String.eqb ct ctJSON then protojson_marshal_traces req
  else if String.eqb ct ctProto then marshal_traces req else None.

(** [traceUsageSpans]: the spans of a body, and whether all of it was read. *)
Definition traceUsageSpans (body ct : string) : option (list Span * bool) :=
  if String.eqb ct ctJSON then
    match unmarshal_doc body with
    | None => Some ([], false)
    | Some doc =>
        l ← tap_doc (fun _ => true) ∅ no_meta doc;
        let spans := omap t_span (l ≫= td_spans) in
        let ok := if existsb td_changed l then isSome (marshal_doc (td_doc <$> l)) else true in
        Some (spans, ok && Nat.eqb (length (l ≫= td_spans)) (length spans))
    end
  else match unmarshalOTLP body ct with
       | None => Some ([], false)
       | Some req => Some (convertResourceSpans format_float (req_ResourceSpans req), true)
       end.

(** ** Responses and counters *)

Definition header_set (k v : string) : St -> St :=
  on_resp (fun r => match status r with
                    | Some _ => r
                    | None => mk_response (filter (fun e => e.1 <> k) (headers r) ++ [(k, v)]) None (written r)
                    end).
Definition header_add (k v : string) : St -> St :=
  on_resp (fun r => match status r with
                    | Some _ => r
                    | None => mk_response (headers r ++ [(k, v)]) None (written r)
                    end).
Definition WriteHeader (code : Z) : St -> St :=
  on_resp (fun r => mk_response (headers r) (Some (default code (status r))) (written r)).
Definition Write (s : string) : St -> St :=
  on_resp (fun r => mk_response (headers r) (Some (default 200 (status r))) (written r +:+ s)).

Definition writeOTLPOK (ct : string) (s : St) : St :=
  if String.eqb ct ctJSON then Write "{}" (WriteHeader 200 (header_set "Content-Type" "application/json" s))
  else WriteHeader 200 (header_set "Content-Type" "application/x-protobuf" s).

Definition writeError (code : Z) (msg : string) (s : St) : St :=
  Write msg (WriteHeader code (header_set "Content-Type" "text/plain; charset=utf-8" s)).

Definition on_counters (f : Counters -> Counters) : St -> St :=
  on_rcv (fun h => set_counters (f (counters h)) h).

Definition add_traces (c : Counters) : Counters :=
  mk_counters (i64 (tracesAccepted c + 1)) (metricsAccepted c) (logsAccepted c) (requestsTotal c)
    (requests2xx c) (requests4xx c) (requests5xx c) (spansAccepted c) (endpointRequests c).
Definition add_metrics (c : Counters) : Counters :=
  mk_counters (tracesAccepted c) (i64 (metricsAccepted c + 1)) (logsAccepted c) (requestsTotal c)
    (requests2xx c) (requests4xx c) (requests5xx c) (spansAccepted c) (endpointRequests c).
Definition add_logs (c : Counters) : Counters :=
  mk_counters (tracesAccepted c) (metricsAccepted c) (i64 (logsAccepted c + 1)) (requestsTotal c)
    (requests2xx c) (requests4xx c) (requests5xx c) (spansAccepted c) (endpointRequests c).
Definition add_request (c : Counters) : Counters :=
  mk_counters (tracesAccepted c) (metricsAccepted c) (logsAccepted c) (i64 (requestsTotal c + 1))
    (requests2xx c) (requests4xx c) (requests5xx c) (spansAccepted c) (endpointRequests c).
Definition add_spans (n : Z) (c : Counters) : Counters :=
  mk_counters (tracesAccepted c) (metricsAccepted c) (logsAccepted c) (requestsTotal c)
    (requests2xx c) (requests4xx c) (requests5xx c) (i64 (spansAccepted c + n)) (endpointRequests c).

Definition statusBucket (status : Z) : string :=
  if 500 <=? status then "5xx" else if 400 <=? status then "4xx" else if 200 <=? status then "2xx" else "other".

Definition incr (b : bool) (n : Z) : Z := if b then i64 (n + 1) else n.

Definition bump (endpoint : string) (status : Z) (c : Counters) : Counters :=
  let b := statusBucket status in
  let k := (endpoint, b) in
  mk_counters (tracesAccepted c) (metricsAccepted c) (logsAccepted c) (requestsTotal c)
    (incr (String.eqb b "2xx") (requests2xx c)) (incr (String.eqb b "4xx") (requests4xx c))
    (incr (String.eqb b "5xx") (requests5xx c)) (spansAccepted c)
    (<[k := i64 (default 0 (endpointRequests c !! k) + 1)]> (endpointRequests c)).

Definition bumpEndpoint (endpoint : string) (status : Z) : St -> St := on_counters (bump endpoint status).

(** ** POST /v1/traces *)

(** The outcome of a handler: a status, and an error that is still to be written. *)
Definition outcome : Type := (Z * option string)%type.

(** [convertAndPush]. *)
Definition convertAndPush (req : Request) : eff St Z :=
  let spans := convertResourceSpans format_float (req_ResourceSpans req) in
  call (fun w => (tt, push_some (sink hooks) spans w));;
  mret (Z.of_nat (length spans)).

Definition accept_traces (ct : string) : eff St outcome :=
  modify (on_counters add_traces);;
  modify (writeOTLPOK ct);;
  mret (200, None).

(** What the trace agent forwards of a body; None when sampling dropped all of it. *)
Definition trace_agent (body ct clientIP : string) : eff St (option string) :=
  let sampling := isSome (traceSampler (samplers hooks)) in
  if negb (isSome (apmTap hooks)) && negb sampling then mret (Some body)
  else if String.eqb ct ctJSON then
    r ← tapAndSampleJSON body clientIP;
    mret match r with
         | None => Some body
         | Some (nb, kept) => if sampling && (kept =? 0) then None else Some nb
         end
  else
    match unmarshalOTLP body ct with
    | None => mret (Some body)
    | Some req =>
        p ← read (fun s => primary (rcv s));
        let '(req, stamped) := stampPrimaryProto range req (primaryMetadata p clientIP) in
        let '(req, enriched) := enrichResourceAttrsProto p req clientIP in
        call_tap (apmTap hooks) (convertResourceSpans format_float (req_ResourceSpans req));;
        '(n, req) ← (if sampling then filterScopeSampledSpans req sampleTraceScope (Some security_trace)
                     else mret (1, req));
        mret (if sampling && (n =? 0) then None
              else if stamped || enriched || sampling
              then Some (default body (marshalOTLP req ct)) else Some body)
    end.

(** The observation is a variable of the handler, shared with the deferred call. *)
Abbreviation TSt := (prod St Usage.Observation).
Definition lift {A} (m : eff St A) : eff TSt A :=
  fun s => let '(a, s') := m s.1 in (a, (s', s.2)).
Definition observing (f : Usage.Observation -> Usage.Observation) : eff TSt unit :=
  modify (fun s => (s.1, f s.2)).

Definition set_received (spans : list Span) (ok : bool) (o : Usage.Observation) : Usage.Observation :=
  Usage.mk_observation (Some <$> spans) (Usage.Retained o) (Usage.ReceivedBytes o) (Usage.ForwardedBytes o)
    (Usage.ForwardFailed o) (negb ok) (Usage.ProcessingRejected o).
Definition set_rejected (o : Usage.Observation) : Usage.Observation :=
  Usage.mk_observation (Usage.Received o) (Usage.Retained o) (Usage.ReceivedBytes o) (Usage.ForwardedBytes o)
    (Usage.ForwardFailed o) (Usage.ParseFailed o) true.
Definition set_forward_failed (o : Usage.Observation) : Usage.Observation :=
  Usage.mk_observation (Usage.Received o) (Usage.Retained o) (Usage.ReceivedBytes o) (Usage.ForwardedBytes o)
    true (Usage.ParseFailed o) (Usage.ProcessingRejected o).
Definition set_retained (spans : list Span) (ok : bool) (bytes : Z) (o : Usage.Observation) : Usage.Observation :=
  Usage.mk_observation (Usage.Received o) (Some <$> spans) (Usage.ReceivedBytes o) bytes
    (Usage.ForwardFailed o) (Usage.ParseFailed o || negb ok) (Usage.ProcessingRejected o).

Definition observed : bool := isSome (traceUsageObserver hooks) && isSome (forwardRaw hooks).

Definition trace_forward (fwd : string -> string -> string -> W -> option string * W)
    (body ct clientIP : string) : eff TSt outcome :=
  out ← lift (trace_agent body ct clientIP);
  match out with
  | None => lift (accept_traces ct)
  | Some outBody =>
      e ← lift (call (fwd "traces" ct outBody));
      match e with
      | Some e => observing set_forward_failed;; mret (502, Some ("forward traces: " +:+ e))
      | None =>
          when observed
            ('(spans, ok) ← lift (of_option (traceUsageSpans outBody ct));
             observing (set_retained spans ok (str_len outBody)));;
          lift (accept_traces ct)
      end
  end.

(** Without forwarding: the spans go to the sink. *)
Definition trace_push (body ct clientIP : string) : eff St outcome :=
  match unmarshalOTLP body ct with
  | None => mret (400, Some "decode trace request")
  | Some req =>
      p ← read (fun s => primary (rcv s));
      n ← convertAndPush (enrichResourceAttrsProto p req clientIP).1;
      modify (on_counters (add_spans n));;
      accept_traces ct
  end.

Definition trace_processed (body ct clientIP : string) : eff TSt outcome :=
  match forwardRaw hooks with
  | Some fwd => trace_forward fwd body ct clientIP
  | None => lift (trace_push body ct clientIP)
  end.

Definition trace_body (body ct clientIP : string) : eff TSt outcome :=
  match traceProcessor hooks with
  | None => trace_processed body ct clientIP
  | Some process =>
      r ← lift (call (process ct body));
      match r with
      | Err _ => observing set_rejected;; mret (400, Some "trace processing rejected input")
      | Ok processed =>
          when (observed && negb (String.eqb body processed))
            ('(spans, ok) ← lift (of_option (traceUsageSpans processed ct));
             observing (set_received spans ok));;
          trace_processed processed ct clientIP
      end
  end.

Definition with_observation (o : Usage.Observation) (m : eff TSt outcome) : eff St outcome :=
  fun s => let '(a, (s', o')) := m (s, o) in
           (a, match traceUsageObserver hooks with
               | Some f => if observed then mk_st (rcv s') (f o' (ext s')) (resp s') else s'
               | None => s'
               end).

Definition traces_fn (body ct clientIP : string) : eff St outcome :=
  let o := Usage.mk_observation [] [] (str_len body) 0 false false false in
  if observed then
    '(spans, ok) ← of_option (traceUsageSpans body ct);
    with_observation (set_received spans ok o) (trace_body body ct clientIP)
  else with_observation o (trace_body body ct clientIP).

(** ** The other signals *)

Definition forward (signal ct body : string) (unavailable failed : string) (ok : eff St outcome) : eff St outcome :=
  match forwardRaw hooks with
  | None => mret (503, Some unavailable)
  | Some fwd =>
      e ← call (fwd signal ct body);
      match e with
      | Some e => mret (502, Some (failed +:+ e))
      | None => ok
      end
  end.

(** *** POST /v1/metrics: the backend takes JSON only *)

Definition metrics_ok (ct : string) : eff St outcome :=
  modify (on_counters add_metrics);;
  modify (writeOTLPOK ct);;
  mret (200, None).

Definition metrics_fn (body ct clientIP : string) : eff St outcome :=
  match forwardRaw hooks with
  | None => mret (503, Some "metrics forwarding unavailable")
  | Some _ =>
      if String.eqb ct ctJSON then
        match protojson_metrics body with
        | None => mret (400, Some "invalid OTLP metrics")
        | Some _ =>
            p ← read (fun s => primary (rcv s));
            r ← of_option (stampMetricsJSON range body (primaryMetadata p clientIP));
            match r with
            | Err e => mret (400, Some ("stamp OTLP metrics: " +:+ e))
            | Ok body => forward "metrics" ct body "" "forward metrics: " (metrics_ok ct)
            end
        end
      else if String.eqb ct ctProto then
        match proto_metrics body with
        | None => mret (400, Some "invalid OTLP metrics")
        | Some req =>
            p ← read (fun s => primary (rcv s));
            match protojson_marshal_metrics (stampMetricsPrimary range req (primaryMetadata p clientIP)) with
            | None => mret (500, Some "encode OTLP metrics")
            | Some body => forward "metrics" ctJSON body "" "forward metrics: " (metrics_ok ctJSON)
            end
        end
      else mret (415, Some "unsupported metrics content type")
  end.

(** *** POST /v1/logs *)

Definition logs_fn (body ct clientIP : string) : eff St outcome :=
  let valid := if String.eqb ct ctJSON then protojson_logs body
               else if String.eqb ct ctProto then proto_logs body else false in
  let ok := modify (on_counters add_logs);; modify (writeOTLPOK ct);; mret (200, None) in
  if negb valid then mret (400, Some "invalid OTLP logs")
  else match forwardRaw hooks with
       | None => ok
       | Some _ => forward "logs" ct body "" "forward logs: " ok
       end.

(** *** POST /v1/profile (profile.go) *)

Definition quoted (s : string) : string := str1 34 +:+ s +:+ str1 34.
Definition forwarded_body : string := "{" +:+ quoted "forwarded" +:+ ":true}".

Definition forwarded_ok : eff St outcome :=
  modify (fun s => Write forwarded_body (WriteHeader 200 (header_set "Content-Type" "application/json" s)));;
  mret (200, None).

Definition verified_tags (m : tagmap) : tagmap :=
  list_to_map ((fun e => (trim_prefix verifiedPrimaryPrefix e.1, e.2)) <$> map_to_list m).

Definition stampProfile (body : string) (verified : tagmap) : res string :=
  match unmarshal_object body with
  | None => Err "invalid JSON"
  | Some None => Err "profile object required"
  | Some (Some profile) =>
      match marshal_object (<["verified_primary_tags" := marshal_tags (verified_tags verified)]> profile) with
      | Some b => Ok b
      | None => Err "json encoding"
      end
  end.

Definition profile_fn (body ct clientIP : string) : eff St outcome :=
  if negb (String.eqb ct ctJSON) then mret (415, Some "profile requires JSON")
  else match forwardRaw hooks with
       | None => mret (503, Some "profile forwarding unavailable")
       | Some _ =>
           p ← read (fun s => primary (rcv s));
           match stampProfile body (primaryMetadata p clientIP) with
           | Err e => mret (400, Some e)
           | Ok stamped => forward "profile" ctJSON stamped "" "" forwarded_ok
           end
       end.

(** *** Security events (security.go) *)

Definition security_signal (path : string) : string :=
  if String.eqb path "/v1/security/iast" then "security/iast"
  else if String.eqb path "/v1/security/lab" then "security/lab"
  else if String.eqb path "/v1/security/users" then "security/users"
  else if String.eqb path "/v1/security/api" then "security/api"
  else if String.eqb path "/v1/security/libraries" then "security/libraries"
  else "security/events".

Definition security_limit (signal : string) : Z :=
  if String.eqb signal "security/libraries" then 65536
  else if String.eqb signal "security/iast" || String.eqb signal "security/api" then 32768
  else 8192.

Definition one_of (l : list string) (field : string) : bool := existsb (String.eqb field) l.

Definition identity_fields : list string := ["id"; "service"; "host"; "environment"; "service_version"].

Definition security_field_ok (signal field : string) : bool :=
  if String.eqb signal "security/libraries" then one_of (identity_fields ++ ["libraries"]) field
  else if String.eqb signal "security/api" then
    one_of (identity_fields ++ ["method"; "route"; "status"; "schemas"]) field
  else if String.eqb signal "security/users" then
    one_of (identity_fields ++ ["event"; "usr_id"; "usr_login"; "usr_exists"; "client_ip"; "user_agent";
                                "framework"; "collection_mode"; "trace_id"; "span_id"]) field
  else if one_of (identity_fields ++ ["outcome"; "rule_id"; "rules_version"; "engine_version"; "elapsed_us";
                                      "trace_id"; "span_id"]) field then true
  else if one_of ["request_method"; "request_path"; "user_agent"; "client_ip"; "usr_id"] field then
    String.eqb signal "security/iast" || String.eqb signal "security/events"
  else if one_of ["blocked"; "match_address"; "blocked_by"] field then String.eqb signal "security/events"
  else if one_of ["code_method"; "code_line"; "sink"; "sql"; "stack"; "source"] field then
    String.eqb signal "security/iast"
  else false.

Definition report_trace (report : gmap string string) : string :=
  default "" (unmarshal_string (default "" (report !! "trace_id"))).

Definition security_fn (signal body ct clientIP : string) : eff St outcome :=
  if negb (String.eqb ct ctJSON) then mret (415, Some "security requires JSON")
  else if security_limit signal <? str_len body then mret (413, Some "security report too large")
  else match unmarshal_object body with
       | None | Some None => mret (400, Some "security report required")
       | Some (Some report) =>
           if negb (forallb (fun e => security_field_ok signal e.1) (map_to_list report))
           then mret (400, Some "unsupported security field")
           else
             (if String.eqb (report_trace report) "" then mret tt
              else _ ← security_trace (ToLower (report_trace report)) true; mret tt);;
             forward signal ctJSON body "security forwarding unavailable" "" forwarded_ok
       end.

(** *** Reports of applications (application.go) *)

Definition report_signal (path : string) : string :=
  if String.eqb path "/v1/debug" then "debug"
  else if String.eqb path "/v1/debug/config/applied" then "debug/config/applied"
  else "sdk/configuration".

Definition report_field_ok (signal field : string) : bool :=
  one_of ["service"; "host"; "environment"; "service_version"] field ||
  (if String.eqb signal "debug" then one_of ["snapshots"] field
   else if String.eqb signal "debug/config/applied" then one_of ["config_version"; "session"; "statuses"] field
   else one_of ["sdk_name"; "sdk_version"; "runtime"; "configurations"] field).

Definition report_fn (signal body ct clientIP : string) : eff St outcome :=
  if negb (String.eqb ct ctJSON) then mret (415, Some "application report requires JSON")
  else if 65536 <? str_len body then mret (413, Some "application report too large")
  else match unmarshal_object body with
       | None | Some None => mret (400, Some "application report required")
       | Some (Some report) =>
           if negb (forallb (fun e => report_field_ok signal e.1) (map_to_list report))
           then mret (400, Some "unsupported application field")
           else forward signal ctJSON body "application forwarding unavailable" "" forwarded_ok
       end.

(** ** Requests *)

(** How reading a body ends. *)
Inductive body_end := EOF | TooLarge | ReadError (e : string).

Record HttpRequest := mk_http {
  Method : string;
  Path : string;
  RemoteAddr : string;
  Header : string -> string;                 (* Header.Get *)
  Query : gmap string (list string);         (* URL.Query() *)
  Body : string;                             (* what the client sends *)
  BodyErr : option string;                   (* and the error after it, if any *)
}.

(** gzip: from the bytes that can be read and how they end, an error of the header, or
    the bytes that come out and how they end. *)
Variable gunzip : string -> body_end -> option (string * body_end).
Variable EqualFold : string -> string -> bool.

(** [http.MaxBytesReader]. *)
Definition limited_body (r : HttpRequest) (n : Z) : string * body_end :=
  if n <? str_len (Body r) then (str_take (Z.to_nat n) (Body r), TooLarge)
  else (Body r, match BodyErr r with Some e => ReadError e | None => EOF end).

(** [io.ReadAll(io.LimitReader(src, postLimit+1))] and the checks after it. *)
Definition read_limited (src : string * body_end) (postLimit : Z) : string * Z * option string :=
  if postLimit <? str_len src.1 then ("", 413, Some "decompressed payload too large")
  else match src.2 with
       | EOF => (src.1, 200, None)
       | TooLarge => ("", 413, Some "payload too large")
       | ReadError e =>
           if contains "request body too large" e then ("", 413, Some "payload too large")
           else ("", 400, Some ("read body: " +:+ e))
       end.

Definition readBody (c : Config) (r : HttpRequest) : string * Z * option string :=
  let wire := limited_body r (maxBodyBytes c) in
  let enc := ToLower (trim_space (Header r "Content-Encoding")) in
  let postLimit := i64 (maxBodyBytes c * 10) in
  if String.eqb enc "gzip" then
    match gunzip wire.1 wire.2 with
    | None => ("", 400, Some "invalid gzip body")
    | Some src => read_limited src postLimit
    end
  else if negb (String.eqb enc "") && negb (String.eqb enc "identity")
  then ("", 415, Some ("unsupported content-encoding: " +:+ enc))
  else read_limited wire postLimit.

Definition normalizeContentType (ct : string) : string :=
  let ct := match cut_at ";" ct with Some (a, _) => a | None => ct end in
  let ct := ToLower (trim_space ct) in
  if String.eqb ct ctProto || String.eqb ct "application/protobuf" then ctProto else ct.

(** *** CORS *)

Definition allowedOrigin (c : Config) (origin : string) : string :=
  match corsOrigins c with
  | [] => "*"
  | l => if String.eqb origin "" then ""
         else if existsb (fun a => EqualFold (trim_space a) origin) l then origin else ""
  end.

Definition corsHeaders : list (string * string) :=
  [("Access-Control-Allow-Methods", "POST, OPTIONS");
   ("Access-Control-Allow-Headers", "Content-Type, X-Requested-With, Authorization, traceparent, tracestate");
   ("Access-Control-Max-Age", "600")].

Definition applyCORS (r : HttpRequest) (s : St) : St :=
  let c := config (rcv s) in
  let allow := allowedOrigin c (Header r "Origin") in
  let s := if String.eqb allow "" then s
           else let s := header_set "Access-Control-Allow-Origin" allow s in
                match corsOrigins c with [] => s | _ => header_add "Vary" "Origin" s end in
  foldl (fun s e => header_set e.1 e.2 s) s corsHeaders.

Definition corsOriginsForLog (c : Config) : string :=
  match corsOrigins c with [] => "*" | l => join "," l end.

Definition ParseCORSOrigins (csv : string) : list string :=
  let csv := trim_space csv in
  if String.eqb csv "" || String.eqb csv "*" then []
  else filter (fun p => p <> "") (trim_space <$> split "," csv).

(** *** The address of the client *)

(** The bytes after the last colon, and what is before it. *)
Fixpoint last_colon (s : string) : option (string * string) :=
  match s with
  | EmptyString => None
  | String c s' =>
      match last_colon s' with
      | Some (a, b) => Some (String c a, b)
      | None => if byte_of c =? 58 then Some ("", s') else None
      end
  end.

(** [net.SplitHostPort]. *)
Definition SplitHostPort (hp : string) : option (string * string) :=
  match last_colon hp with
  | None => None
  | Some (before, port) =>
      if has_prefix "[" hp then
        match cut_at "]" hp with
        | None => None
        | Some (host, after) =>
            (* the bracket is followed by the last colon *)
            if negb (String.eqb after (":" +:+ port)) then None
            else if contains "[" (str_drop 1 hp) || contains "]" after then None
            else Some (str_drop 1 host, port)
        end
      else if contains ":" before || contains "[" hp || contains "]" hp then None
      else Some (before, port)
  end.

Definition clientIPFromRequest (r : HttpRequest) : string :=
  match SplitHostPort (RemoteAddr r) with
  | Some (host, _) => host
  | None => trim_space (RemoteAddr r)
  end.

Definition ParsePortOrDefault (port : string) : string :=
  let port := trim_space port in
  if String.eqb port "" then DefaultHTTPListenAddr
  else match SplitHostPort port with
       | Some _ => port
       | None => match atoi port with Some _ => "0.0.0.0:" +:+ port | None => port end
       end.

(** *** Dispatch *)

Definition reply_error (endpoint : string) (code : Z) (msg : string) : eff St unit :=
  modify (writeError code msg);; modify (bumpEndpoint endpoint code).

Definition serveOTLP (endpoint : string) (fn : string -> string -> string -> eff St outcome) (r : HttpRequest)
    : eff St unit :=
  modify (on_counters add_request);;
  modify (applyCORS r);;
  if String.eqb (Method r) "OPTIONS" then modify (WriteHeader 204);; modify (bumpEndpoint endpoint 204)
  else if negb (String.eqb (Method r) "POST") then reply_error endpoint 405 "method not allowed"
  else
    let ct := normalizeContentType (Header r "Content-Type") in
    let ct := if String.eqb ct "" then ctProto else ct in
    c ← read (fun s => config (rcv s));
    match readBody c r with
    | (_, code, Some e) => reply_error endpoint code e
    | (body, _, None) =>
        o ← fn body ct (clientIPFromRequest r);
        match o with
        | (code, Some e) => reply_error endpoint code e
        | (code, None) => modify (bumpEndpoint endpoint code)
        end
    end.

(** [serveApplicationConfig]: a GET that is not counted. *)
Definition query_ok (q : gmap string (list string)) : bool :=
  forallb (fun e => one_of ["service"; "env"; "version"] e.1 &&
                    match e.2 with [v] => (str_len v <=? 255) && negb (has_control v) | _ => false end)
    (map_to_list q).

Definition query_get (k : string) (q : gmap string (list string)) : string :=
  match q !! k with Some (v :: _) => v | _ => "" end.

Definition serveApplicationConfig (reader : option (string -> string -> string -> W -> res string * W))
    (r : HttpRequest) : eff St unit :=
  if negb (String.eqb (Method r) "GET") then modify (WriteHeader 405)
  else if negb (query_ok (Query r)) then modify (WriteHeader 400)
  else if String.eqb (trim_space (query_get "service" (Query r))) "" then modify (WriteHeader 400)
  else match reader with
       | None => modify (WriteHeader 503)
       | Some f =>
           b ← call (f (query_get "service" (Query r)) (query_get "env" (Query r)) (query_get "version" (Query r)));
           match b with
           | Err _ => modify (WriteHeader 502)
           | Ok body =>
               modify (fun s => Write body (header_set "Cache-Control" "no-store"
                                             (header_set "Content-Type" "application/json" s)))
           end
       end.

(** The routes of [Start], for a path in its clean form.  An unknown path is answered by
    the multiplexer. *)
Definition security_paths : list string :=
  ["/v1/security/events"; "/v1/security/iast"; "/v1/security/lab"; "/v1/security/users"; "/v1/security/api";
   "/v1/security/libraries"].

Definition serve (r : HttpRequest) : eff St unit :=
  if String.eqb (Path r) "/v1/traces" then serveOTLP "/v1/traces" traces_fn r
  else if String.eqb (Path r) "/v1/metrics" then serveOTLP "/v1/metrics" metrics_fn r
  else if String.eqb (Path r) "/v1/profile" then serveOTLP "/v1/profile" profile_fn r
  else if one_of security_paths (Path r) then
    serveOTLP ("/v1/" +:+ security_signal (Path r)) (security_fn (security_signal (Path r))) r
  else if one_of ["/v1/sdk/configuration"; "/v1/debug"; "/v1/debug/config/applied"] (Path r) then
    serveOTLP ("/v1/" +:+ report_signal (Path r)) (report_fn (report_signal (Path r))) r
  else if String.eqb (Path r) "/v1/debug/config" then serveApplicationConfig (debugConfig hooks) r
  else if String.eqb (Path r) "/v1/sdk/remote-config" then serveApplicationConfig (sdkRemoteConfig hooks) r
  else if String.eqb (Path r) "/v1/logs" then serveOTLP "/v1/logs" logs_fn r
  else if String.eqb (Path r) "/healthz" then modify (fun s => Write "ok" (WriteHeader 200 s))
  else modify (WriteHeader 404).
End hooks.

(** ** Statistics *)

Record HTTPStats := mk_http_stats {
  st_counters : Counters;
  PerEndpoint : gmap string Z;
}.

Definition Stats (h : HTTPReceiver) : HTTPStats :=
  mk_http_stats (counters h)
    (list_to_map ((fun e => (e.1.1 +:+ ":" +:+ e.1.2, e.2)) <$> map_to_list (endpointRequests (counters h)))).

End OtlpHttp.
