(* ===== verification/OtlpHttpFacts.v ===== *)
(** * What the handlers of the OTLP receiver can do to its state

    A relation on states that is kept by each call out of the receiver and each change
    the receiver makes itself is kept by every handler: the handlers are walked through
    once, for any such relation. *)

From S2P Require Import Prelude GoStrings Wire Otlp Concentrator Stamp Usage Eff OtlpHttp.
#[local] Open Scope Z_scope.

Import Otlp OtlpHttp.

(** The counters of requests and their statuses. *)
Definition request_counts (c : Counters) : Z * Z * Z * Z :=
  (requestsTotal c, requests2xx c, requests4xx c, requests5xx c).

(** What a handler may do to the counters. *)
Definition counts_kept (f : Counters -> Counters) : Prop :=
  forall c, request_counts (f c) = request_counts c /\ endpointRequests (f c) = endpointRequests c.

Section walkthrough.
Context {W : Type} `{JsonText} `{SpanJson} `{Protobuf}.
Variables (hooks : Hooks (W := W)) (range : tagmap -> list (string * string)).
Variables (ToLower : string -> string) (format_float : f64 -> string).
Variables (gunzip : string -> body_end -> option (string * body_end)) (EqualFold : string -> string -> bool).

Abbreviation St := (OtlpHttp.St (W := W)).

Variable R : relation St.
Context `{!PreOrder R}.

(** What the agent does with a body: the sampler, the clock, the table of security
    traces, the tap. *)
Record agent_moves : Prop := {
  am_sampler a b c d e f g : moves R (sampleTraceScope hooks a b c d e f g);
  am_now : moves R (call (Now hooks));
  am_security now id marked s :
    R s (on_rcv (set_security (securityTrace now id marked (securityTraces (rcv s))).2) s);
  am_tap f spans : apmTap hooks = Some f -> moves R (call (fun w => (tt, f spans w)));
}.

(** What the handlers do besides. *)
Record handler_moves : Prop := {
  hm_agent : agent_moves;
  hm_resp f : moves R (modify (on_resp f));
  hm_counters f : counts_kept f -> moves R (modify (on_counters f));
  hm_sink spans : moves R (call (fun w => (tt, push_some (sink hooks) spans w)));
  hm_forward f sg ct body : forwardRaw hooks = Some f -> moves R (call (f sg ct body));
  hm_process f ct body : traceProcessor hooks = Some f -> moves R (call (f ct body));
  hm_observe f o s : traceUsageObserver hooks = Some f -> R s (mk_st (rcv s) (f o (ext s)) (resp s));
}.

Section agent.
Hypothesis Ha : agent_moves.

Lemma walk_security id marked : moves R (security_trace hooks id marked).
Proof.
  unfold security_trace. case_match; [by apply moves_ret; exact _|].
  apply moves_bind; [exact _|apply (am_now Ha)|]. intros now s. pose proof (am_security Ha now id marked s) as Hs.
  destruct (securityTrace now id marked _) as [b t]. exact Hs.
Qed.

Lemma walk_call_tap spans : moves R (call_tap (apmTap hooks) spans).
Proof.
  unfold call_tap. destruct (apmTap hooks) as [f|] eqn:E; [|by apply moves_ret; exact _].
  destruct spans; [by apply moves_ret; exact _|]. by apply Ha.
Qed.

Lemma walk_sampler a b c d e f g : moves R (sampleTraceScope hooks a b c d e f g).
Proof. apply (am_sampler Ha). Qed.
#[local] Hint Resolve walk_security walk_call_tap walk_sampler : walk.

Lemma walk_ask d q : moves R (ask (sampleTraceScope hooks) (Some (security_trace hooks)) d q).
Proof. unfold ask. walk. Qed.
#[local] Hint Resolve walk_ask : walk.

Lemma walk_tap body ip : moves R (tapAndSampleJSON hooks range ToLower body ip).
Proof. unfold tapAndSampleJSON. walk. Qed.

Lemma walk_filter req :
  moves R (filterScopeSampledSpans req (sampleTraceScope hooks) (Some (security_trace hooks))).
Proof. unfold filterScopeSampledSpans. walk. Qed.
#[local] Hint Resolve walk_tap walk_filter : walk.

Lemma walk_agent body ct ip : moves R (trace_agent hooks range ToLower format_float body ct ip).
Proof. unfold trace_agent. walk. Qed.
End agent.

(** The same for a handler that carries its observation. *)
Definition with_obs (s s' : St * Usage.Observation) : Prop := R s.1 s'.1.

#[export] Instance with_obs_preorder : PreOrder with_obs.
Proof. split; [by intros s; unfold with_obs|]. intros s1 s2 s3. unfold with_obs. etrans; done. Qed.

Lemma walk_lift {A} (m : eff St A) : moves R m -> moves with_obs (lift m).
Proof. intros Hm s. unfold lift, with_obs. pose proof (Hm s.1). by destruct (m s.1). Qed.

Lemma walk_observing f : moves with_obs (observing f).
Proof. apply moves_modify. intros s. by unfold with_obs. Qed.

Section handlers.
Hypothesis Hh : handler_moves.

Lemma walk_resp f : moves R (modify (on_resp f)).
Proof. apply (hm_resp Hh). Qed.

Lemma walk_ok ct : moves R (modify (writeOTLPOK ct)).
Proof.
  intros s. unfold writeOTLPOK, Write, WriteHeader, header_set. pose proof (fun f s => hm_resp Hh f s) as Hr.
  case_match; repeat (etrans; [|apply Hr]); done.
Qed.

Lemma walk_add_traces : moves R (modify (on_counters add_traces)).
Proof. by apply (hm_counters Hh). Qed.
Lemma walk_add_metrics : moves R (modify (on_counters add_metrics)).
Proof. by apply (hm_counters Hh). Qed.
Lemma walk_add_logs : moves R (modify (on_counters add_logs)).
Proof. by apply (hm_counters Hh). Qed.
Lemma walk_add_spans n : moves R (modify (on_counters (add_spans n))).
Proof. by apply (hm_counters Hh). Qed.
Lemma walk_push spans : moves R (call (fun w => (tt, push_some (sink hooks) spans w))).
Proof. apply (hm_sink Hh). Qed.
Lemma walk_trace_agent body ct ip : moves R (trace_agent hooks range ToLower format_float body ct ip).
Proof. apply walk_agent, (hm_agent Hh). Qed.
Lemma walk_security_trace id marked : moves R (security_trace hooks id marked).
Proof. apply walk_security, (hm_agent Hh). Qed.
#[local] Hint Resolve walk_resp walk_ok walk_add_traces walk_add_metrics walk_add_logs walk_add_spans walk_push
  walk_trace_agent walk_security_trace walk_lift walk_observing : walk.

Lemma walk_accept ct : moves R (accept_traces ct).
Proof. unfold accept_traces. walk. Qed.
#[local] Hint Resolve walk_accept : walk.

Lemma walk_trace_push body ct ip : moves R (trace_push hooks format_float body ct ip).
Proof. unfold trace_push, convertAndPush. walk. Qed.
#[local] Hint Resolve walk_trace_push : walk.

Lemma walk_processed body ct ip : moves with_obs (trace_processed hooks range ToLower format_float body ct ip).
Proof.
  unfold trace_processed. destruct (forwardRaw hooks) as [fwd|] eqn:E; [|walk].
  assert (forall b, moves with_obs (lift (call (fwd "traces" ct b)))) as Hf.
  { intros b. apply walk_lift. by apply (hm_forward Hh). }
  unfold trace_forward. walk; apply Hf || (apply walk_lift; walk).
Qed.
#[local] Hint Resolve walk_processed : walk.

Lemma walk_trace_body body ct ip : moves with_obs (trace_body hooks range ToLower format_float body ct ip).
Proof.
  unfold trace_body. destruct (traceProcessor hooks) as [f|] eqn:E; [|walk].
  assert (moves with_obs (lift (call (f ct body)))) as Hf by (apply walk_lift; by apply (hm_process Hh)).
  walk; apply Hf || (apply walk_lift; walk).
Qed.

Lemma walk_traces body ct ip : moves R (traces_fn hooks range ToLower format_float body ct ip).
Proof.
  assert (forall o, moves R (with_observation hooks o (trace_body hooks range ToLower format_float body ct ip))) as Hw.
  { intros o s. unfold with_observation. pose proof (walk_trace_body body ct ip (s, o)) as Hg.
    destruct (trace_body _ _ _ _ _ _ _ (s, o)) as [a [s' o']]. unfold with_obs in Hg. cbn in *.
    etrans; [exact Hg|]. destruct (traceUsageObserver hooks) as [f|] eqn:E; [|done].
    destruct (observed hooks); [|done]. by apply (hm_observe Hh). }
  unfold traces_fn. walk; apply Hw.
Qed.

Lemma walk_forward_signal sg ct body e1 e2 ok :
  moves R ok -> moves R (forward hooks sg ct body e1 e2 ok).
Proof.
  intros Hok. unfold forward. destruct (forwardRaw hooks) as [f|] eqn:E; [|walk].
  assert (moves R (call (f sg ct body))) as Hf by by apply (hm_forward Hh). walk.
Qed.

Lemma walk_forwarded_ok : moves R forwarded_ok.
Proof.
  unfold forwarded_ok. apply moves_bind; [exact _| |walk]. intros s.
  unfold Write, WriteHeader, header_set. pose proof (fun f s => hm_resp Hh f s) as Hr.
  repeat (etrans; [|apply Hr]). done.
Qed.
#[local] Hint Resolve walk_forward_signal walk_forwarded_ok : walk.

Lemma walk_metrics body ct ip : moves R (metrics_fn hooks range body ct ip).
Proof. unfold metrics_fn, metrics_ok. walk; try (apply walk_forward_signal; walk). Qed.

Lemma walk_logs body ct ip : moves R (logs_fn hooks body ct ip).
Proof. unfold logs_fn. walk; try (apply walk_forward_signal; walk). Qed.

Lemma walk_profile body ct ip : moves R (profile_fn hooks body ct ip).
Proof. unfold profile_fn. walk. Qed.

Lemma walk_security_fn sg body ct ip : moves R (security_fn hooks ToLower sg body ct ip).
Proof. unfold security_fn. walk. Qed.

Lemma walk_report sg body ct ip : moves R (report_fn hooks sg body ct ip).
Proof. unfold report_fn. walk. Qed.

(** A whole request, if the relation allows the counters of requests too. *)
Hypothesis Hcounters : forall f, moves R (modify (on_counters f)).
Hypothesis Hconfig : forall f a b c, debugConfig hooks = Some f \/ sdkRemoteConfig hooks = Some f -> moves R (call (f a b c)).

Lemma walk_reply_error endpoint code msg : moves R (reply_error endpoint code msg).
Proof.
  unfold reply_error. apply moves_bind; [exact _| |intros _; apply Hcounters]. intros s.
  unfold writeError, Write, WriteHeader, header_set. pose proof (fun f s => hm_resp Hh f s) as Hr.
  repeat (etrans; [|apply Hr]). done.
Qed.

Lemma walk_cors r : moves R (modify (applyCORS EqualFold r)).
Proof.
  intros s. unfold applyCORS, corsHeaders. pose proof (fun f s => hm_resp Hh f s) as Hr.
  cbn [modify foldl fst snd]. unfold header_set, header_add.
  repeat case_match; repeat (etrans; [|apply Hr]); done.
Qed.
#[local] Hint Resolve walk_reply_error walk_cors : walk.

Lemma walk_serveOTLP endpoint fn r :
  (forall body ct ip, moves R (fn body ct ip)) -> moves R (serveOTLP ToLower gunzip EqualFold endpoint fn r).
Proof.
  intros Hfn. pose proof Hcounters. unfold serveOTLP, bumpEndpoint, WriteHeader.
  apply moves_bind; [exact _|apply Hcounters|intros _].
  apply moves_bind; [exact _|apply walk_cors|intros _]. walk.
Qed.

Lemma walk_serve_config f r :
  f = debugConfig hooks \/ f = sdkRemoteConfig hooks -> moves R (serveApplicationConfig f r).
Proof.
  intros Hf. unfold serveApplicationConfig, WriteHeader. do 3 (case_match; [apply (hm_resp Hh)|]).
  destruct f as [f|]; [|apply (hm_resp Hh)]. apply moves_bind; [exact _|apply Hconfig; by destruct Hf as [<-|<-]; [left|right]|].
  intros [b|e]; [|apply (hm_resp Hh)]. intros s. unfold Write, header_set. pose proof (fun f s => hm_resp Hh f s) as Hr.
  cbn [modify snd]. repeat (etrans; [|apply Hr]). done.
Qed.

Lemma walk_serve r : moves R (serve hooks range ToLower format_float gunzip EqualFold r).
Proof.
  unfold serve. repeat case_match; try apply walk_serveOTLP; intros;
    first [apply walk_traces|apply walk_metrics|apply walk_profile|apply walk_security_fn|apply walk_report
          |apply walk_serve_config; auto|apply walk_logs|idtac].
  - intros s0. unfold Write, WriteHeader. cbn [modify snd]. pose proof (fun f s => hm_resp Hh f s) as Hr.
    etrans; [|apply Hr]. apply Hr.
  - unfold WriteHeader. apply (hm_resp Hh).
Qed.
End handlers.
End walkthrough.
