(* ===== verification/OtlpExample.v ===== *)
(** * A small instance of the receiver's surroundings

    Codecs given by tables for a few named texts, on which the theorems about the
    receiver are tried: three spans of two traces in one resource, in both encodings. *)

From S2P Require Import Prelude GoStrings Wire Otlp Stamp Usage Eff OtlpHttp.
#[local] Open Scope Z_scope.

Import Otlp OtlpHttp.

Definition lookup_text {A} (t : list (string * A)) (s : string) : option A := (list_to_map t : gmap string A) !! s.

(** "forged" is an object whose attributes are under the key "Attributes": encoding/json
    reads that key into a struct's field "attributes", but not into a map. *)
#[export] Instance toy_text : JsonText := {|
  unmarshal_object := lookup_text [("null", None); ("{}", Some ∅); ("r", Some ∅); ("s1", Some ∅); ("s2", Some ∅);
    ("s3", Some ∅); ("forged", Some {["Attributes" := "as"]});
    ("event", Some (<["trace_id" := "t1"]> {["outcome" := "o"]}))];
  unmarshal_array := lookup_text [("[]", []); ("null", [])];
  unmarshal_objects := lookup_text [("[]", [])];
  unmarshal_key := fun _ => None;
  marshal_object := fun _ => Some "{...}";
  marshal_array := fun _ => Some "[...]";
  marshal_objects := fun _ => Some "[...]";
  marshal_kv := fun k v => k +:+ "=" +:+ v;
|}.

Definition attr (k v : string) : otlpKeyValue := mk_jkv k (Some v) None.
Definition fields (id name : string) (code : option Z) (l : list otlpKeyValue) : otlpSpanFields * string * option string :=
  (mk_fields id name 0 "1000" "2000" None l, "2", itoa <$> code).

#[export] Instance toy_spans : SpanJson := {|
  unmarshal_doc := lookup_text [("doc", [mk_jrs "r" [mk_jscope "" ["s1"; "s2"; "s3"] ""] ""]);
                                ("forging", [mk_jrs "r" [mk_jscope "" ["forged"] ""] ""])];
  marshal_doc := fun doc => Some ("doc of " +:+ join "," (doc ≫= jr_spans));
  unmarshal_resource := fun raw => if String.eqb raw "" then ([], false) else ([attr "service.name" "api"], true);
  unmarshal_span := lookup_text [("s1", fields "61" "GET" (Some 2) []); ("s2", fields "62" "PUT" None []);
                                 ("s3", fields "61" "sql" None []);
                                 ("forged", fields "63" "x" None [attr "telvyn.verified_primary.host" "evil"])];
  unmarshal_int32 := atoi;
  unmarshal_string := fun s => if String.eqb s "" then None else Some s;
  marshal_tags := fun _ => "{...}";
|}.

Definition toy_span (id name : string) (code : Z) : SpanMsg :=
  mk_span_msg id "" "" name 2 1000 2000 (Some (mk_status code "")) [] "".
Definition toy_request : Request :=
  mk_request [mk_rs (Some (mk_resource [kv "service.name" "api"] ""))
                [mk_scope [toy_span "a" "GET" 2; toy_span "b" "PUT" 0; toy_span "a" "sql" 0] ""] ""] "".

#[export] Instance toy_proto : Protobuf := {|
  proto_traces := lookup_text [("req", toy_request)];
  protojson_traces := fun _ => None;
  marshal_traces := fun req => Some (join "," (sp_Name <$> req_spans req));
  protojson_marshal_traces := fun _ => None;
  proto_metrics := lookup_text [("metrics", mk_metrics_request [] "")];
  protojson_metrics := fun _ => None;
  protojson_marshal_metrics := fun _ => Some "{}";
  proto_logs := fun _ => true;
  protojson_logs := fun _ => true;
|}.

(** The world: what the tap got, what was forwarded, and the time. *)
Record world := mk_world { tap_log : list string; forwarded : list (string * string); clock : Z }.

Definition toy_tap (spans : list Span) (w : world) : world :=
  mk_world (tap_log w ++ (Name <$> spans)) (forwarded w) (clock w).
Definition toy_forward (signal ct body : string) (w : world) : option string * world :=
  (None, mk_world (tap_log w) (forwarded w ++ [(signal, body)]) (clock w)).
(** A sampler that keeps errors, and advances the clock each time it is asked. *)
Definition toy_sampler (id service env resource : string) (status kind dur : Z) (w : world) : option bool * world :=
  (Some (status =? 2), mk_world (tap_log w) (forwarded w) (clock w + 1)).
Definition toy_now (w : world) : Z * world := (clock w, mk_world (tap_log w) (forwarded w) (clock w + second)).

Definition toy_hooks : Hooks (W := world) :=
  mk_hooks None (Some toy_forward) None None None (Some toy_tap)
    (SetScopeTraceSampler (Some toy_sampler) no_samplers) None toy_now.

Definition toy_range (m : tagmap) : list (string * string) := map_to_list m.
Definition toy_lower (s : string) : string := map_bytes lower_byte s.
Definition toy_float (x : f64) : string := "?".
Definition toy_gunzip (s : string) (e : body_end) : option (string * body_end) := None.
Definition toy_fold (a b : string) : bool := String.eqb (toy_lower a) (toy_lower b).

Definition toy_state : St (W := world) :=
  mk_st (set_primary (mk_primary "h1" "" [] ∅ None) (NewHTTPReceiver "" 0 []))
    (mk_world [] [] 0) (mk_response [] None "").

Definition toy_post (path ct body : string) : HttpRequest :=
  mk_http "POST" path "10.0.0.1:5000" (fun h => if String.eqb h "Content-Type" then ct else "") ∅ body None.

Definition toy_serve (r : HttpRequest) : eff (St (W := world)) unit :=
  serve toy_hooks toy_range toy_lower toy_float toy_gunzip toy_fold r.
