(* ===== verification/StampProps.v ===== *)
(** * Correctness of the stamping of verified metadata *)

From S2P Require Import Prelude GoStrings Wire Otlp OtlpProps Concentrator Stamp Eff OtlpHttp OtlpExample.
#[local] Open Scope Z_scope.

Import Otlp.

(** ** Reserved metadata *)

Section reserved.
Variables (range : tagmap -> list (string * string)) (format_float : f64 -> string).
Hypothesis range_perm : forall m, range m ≡ₚ map_to_list m.

Abbreviation flatten := (flattenAttrs format_float).

Lemma flatten_stamps l m :
  m !! "" = None -> (forall k, reserved k = true -> Forall (fun kv => Key kv <> k) l) ->
  forall k, reserved k = true -> flatten (l ++ ((fun e => kv e.1 e.2) <$> range m)) !! k = m !! k.
Proof.
  intros Hm Hl k Hk.
  assert (forall r : list (string * string), NoDup r.*1 -> "" ∉ r.*1 ->
    flatten (l ++ ((fun e => kv e.1 e.2) <$> r)) !! k = (list_to_map r : tagmap) !! k) as Hr.
  { induction r as [|[k' v] r IH] using rev_ind.
    - intros _ _. rewrite app_nil_r. by apply flattenAttrs_notin, Hl.
    - rewrite !fmap_app. intros (Hnd & Hx & _)%NoDup_app Hne. rewrite not_elem_of_app in Hne. destruct Hne as [Hne1 Hne2].
      cbn. rewrite app_assoc, flattenAttrs_snoc. cbn.
      rewrite (proj2 (String.eqb_neq k' "")) by (intros ->; apply Hne2; cbn; by left).
      assert (k' ∉ r.*1) as Hk' by (intros Hin; apply (Hx _ Hin); cbn; by left).
      rewrite list_to_map_snoc by done.
      destruct (decide (k' = k)) as [->|Hne]; [by rewrite !lookup_insert_eq|].
      rewrite !lookup_insert_ne by done. by apply IH. }
  rewrite Hr.
  - rewrite <- (list_to_map_to_list m) at 2. f_equal. apply list_to_map_proper.
    + rewrite range_perm. apply NoDup_fst_map_to_list.
    + apply range_perm.
  - rewrite range_perm. apply NoDup_fst_map_to_list.
  - rewrite range_perm. intros (e & He & Hin)%list_elem_of_fmap. destruct e as [k' v]. cbn in He. subst.
    apply elem_of_map_to_list in Hin. congruence.
Qed.

Lemma strip_reserved l k : reserved k = true -> Forall (fun kv => Key kv <> k) (stripPrimaryProto l).1.
Proof.
  intros Hk. apply Forall_forall. intros kv [Hkv _]%list_elem_of_filter E. congruence.
Qed.

Lemma reserved_prefix k : reserved (verifiedPrimaryPrefix +:+ k) = true.
Proof. unfold reserved, has_prefix. by rewrite prefix_app. Qed.

(** What the collector knows is filed under the reserved prefix only. *)
Lemma primaryMetadata_reserved p ip k : is_Some (primaryMetadata p ip !! k) -> reserved k = true.
Proof.
  unfold primaryMetadata.
  assert (forall (m : tagmap) k' v, (forall k, is_Some (m !! k) -> reserved k = true) ->
    forall k, is_Some (<[verifiedPrimaryPrefix +:+ k' := v]> m !! k) -> reserved k = true) as Hins.
  { intros m k' v Hm k1. destruct (decide (verifiedPrimaryPrefix +:+ k' = k1)) as [<-|Hne].
    - intros _. apply reserved_prefix.
    - rewrite lookup_insert_ne by done. apply Hm. }
  assert (forall h c n nd b k, is_Some (verifiedPrimary h c n nd b !! k) -> reserved k = true) as Hv.
  { intros h c n nd b. unfold verifiedPrimary, put_some.
    assert (forall k, is_Some ((∅ : tagmap) !! k) -> reserved k = true) as He by (intros k1 [? ?]; by rewrite lookup_empty in *).
    repeat case_match; repeat apply Hins; done. }
  set (m0 := verifiedPrimary _ _ _ _ _). assert (forall k, is_Some (m0 !! k) -> reserved k = true) as Hm0 by apply Hv.
  clearbody m0. revert m0 Hm0. induction (primaryKeys p) as [|key keys IH]; intros m0 Hm0; cbn; [apply Hm0|].
  apply IH. destruct (_ && ValidValue _); [by apply Hins|done].
Qed.

Lemma primaryMetadata_no_empty p ip : primaryMetadata p ip !! "" = None.
Proof.
  destruct (primaryMetadata p ip !! "") eqn:E; [|done].
  pose proof (primaryMetadata_reserved p ip "" (mk_is_Some _ _ E)). done.
Qed.

Lemma pod_names_free m k : reserved k = true -> Forall (fun kv => Key kv <> k) ((fun e => kv e.1 e.2) <$> pod_names m).
Proof. intros Hk. cbn. repeat constructor; cbn; intros <-; done. Qed.

Lemma Forall_fmap_filter {A B} (P : A -> Prop) `{!forall x, Decision (P x)} (f : A -> B) (Q : B -> Prop) (l : list A) :
  Forall Q (f <$> l) -> Forall Q (f <$> filter P l).
Proof.
  rewrite !Forall_fmap, !Forall_forall. intros Hl x [_ Hx]%list_elem_of_filter. by apply Hl.
Qed.

Lemma enrich_tags m rs k :
  reserved k = true -> resource_tags format_float (enrich_rs m rs).1 !! k = resource_tags format_float rs !! k.
Proof.
  intros Hk. unfold resource_tags, enrich_rs. cbn [fst rs_Resource GetAttributes from_option res_Attributes].
  rewrite flattenAttrs_app_notin by apply Forall_fmap_filter, pod_names_free, Hk. by destruct (rs_Resource rs).
Qed.

(** A resource of the request after the stamping and the pod names. *)
Lemma stamped_forms p req values ip rs :
  rs ∈ req_ResourceSpans (enrichResourceAttrsProto p (stampPrimaryProto range req values).1 ip).1 ->
  exists rs0, rs = (stamp_rs range values rs0).1 \/ exists m, rs = (enrich_rs m (stamp_rs range values rs0).1).1.
Proof.
  unfold enrichResourceAttrsProto. intros Hin.
  assert (forall rs, rs ∈ (stamp_rs range values <$> req_ResourceSpans req).*1 ->
    exists rs0, rs = (stamp_rs range values rs0).1) as Hof
    by (intros rs' ([? ?] & -> & (rs0 & E & _)%list_elem_of_fmap)%list_elem_of_fmap; exists rs0; by rewrite <- E).
  destruct (resolver p) as [r|]; [|destruct (Hof rs Hin) as [rs0 ->]; exists rs0; by left].
  case_match; [destruct (Hof rs Hin) as [rs0 ->]; exists rs0; by left|].
  cbn [req_ResourceSpans fst] in Hin. apply list_elem_of_fmap in Hin as (? & -> & (rs1 & -> & Hin)%list_elem_of_fmap).
  destruct (Hof rs1 Hin) as [rs0 ->]. exists rs0. right. by eexists.
Qed.

(** The attributes of a stamped resource and of its spans. *)
Lemma stamp_rs_attributes values rs :
  (forall k, reserved k = true -> Forall (fun a => Key a <> k) (stripPrimaryProto (GetAttributes (rs_Resource rs))).1) /\
  GetAttributes (rs_Resource (stamp_rs range values rs).1) =
    ((stripPrimaryProto (GetAttributes (rs_Resource rs))).1 ++ ((fun e => kv e.1 e.2) <$> range values))%list /\
  forall s, s ∈ rs_spans (stamp_rs range values rs).1 -> exists s0, sp_Attributes s = (stripPrimaryProto (sp_Attributes s0)).1.
Proof.
  split_and!.
  - intros k. apply strip_reserved.
  - unfold stamp_rs, stamp_resource. by destruct (rs_Resource rs).
  - unfold stamp_rs, stamp_resource, rs_spans. cbn. intros s (ss & Hin & Hss)%list_elem_of_bind.
    apply list_elem_of_fmap in Hss as (ss0 & -> & _). apply list_elem_of_fmap in Hin as (s0 & -> & _). by exists s0.
Qed.

Lemma stripped_free l a : a ∈ (stripPrimaryProto l).1 -> reserved (Key a) = false.
Proof. by intros [Ha _]%list_elem_of_filter. Qed.

(** What the collector has put: the value it knows. *)
Definition known (values : tagmap) (a : KeyValue) : Prop :=
  exists v, values !! Key a = Some v /\ a = kv (Key a) v.

Lemma stamped_known values rs a :
  a ∈ GetAttributes (rs_Resource (stamp_rs range values rs).1) -> reserved (Key a) = true -> known values a.
Proof.
  destruct (stamp_rs_attributes values rs) as (_ & -> & _). intros [Ha|Ha]%elem_of_app Hr.
  - apply stripped_free in Ha. congruence.
  - apply list_elem_of_fmap in Ha as ([k v] & -> & Hin). rewrite range_perm in Hin.
    apply elem_of_map_to_list in Hin. by exists v.
Qed.

Lemma enriched_known m values rs a :
  a ∈ GetAttributes (rs_Resource (enrich_rs m (stamp_rs range values rs).1).1) -> reserved (Key a) = true ->
  known values a.
Proof.
  intros [Ha|Ha]%elem_of_app Hr.
  - apply (stamped_known values rs); [|done]. unfold stamp_rs, stamp_resource in *. by destruct (rs_Resource rs).
  - exfalso. pose proof (Forall_fmap_filter (fun e : string * string => has_text e.1 (res_Attributes (default (mk_resource [] "")
      (rs_Resource (stamp_rs range values rs).1))) = false /\ e.2 <> "") (fun e => kv e.1 e.2) (fun x => Key x <> Key a)
      (pod_names m) (pod_names_free m _ Hr)) as Hf. rewrite Forall_forall in Hf. by apply (Hf a Ha).
Qed.

(** What a span is converted with, when its resource has been stamped. *)
Lemma stamped_tags values rs k :
  values !! "" = None -> reserved k = true ->
  resource_tags format_float (stamp_rs range values rs).1 !! k = values !! k /\
  (forall s, s ∈ rs_spans (stamp_rs range values rs).1 -> flatten (sp_Attributes s) !! k = None).
Proof.
  intros Hv Hk. split.
  - unfold stamp_rs, stamp_resource. apply (flatten_stamps (stripPrimaryProto _).1); [done|intros; by apply strip_reserved|done].
  - intros s Hs. destruct (stamp_rs_attributes values rs) as (_ & _ & Hsp). destruct (Hsp s Hs) as [s0 ->].
    by apply flattenAttrs_notin, strip_reserved.
Qed.

(** C15: reserved metadata cannot be forged in protobuf messages of traces.  Whatever
    attributes under the reserved prefixes an application puts on the resources and spans
    of a message, after the stamping that the handler does before it taps and forwards:
    every span converted for the statistics carries under a reserved key exactly what the
    collector knows, or nothing; and in the message itself, which is forwarded, no span
    has a reserved attribute and a resource has only those that the collector put.
    ([json_case_forges] shows that the path of JSON bodies can be forged; a receiver
    without forwarding and the gRPC receiver convert without stamping.) *)
Theorem reserved_not_forged p req ip :
  let values := primaryMetadata p ip in
  let req' := (enrichResourceAttrsProto p (stampPrimaryProto range req values).1 ip).1 in
  (forall k c, reserved k = true -> c ∈ convertResourceSpans format_float (req_ResourceSpans req') ->
     Attributes c !! k = values !! k) /\
  (forall rs, rs ∈ req_ResourceSpans req' ->
     (forall a, a ∈ GetAttributes (rs_Resource rs) -> reserved (Key a) = true -> known values a) /\
     (forall s a, s ∈ rs_spans rs -> a ∈ sp_Attributes s -> reserved (Key a) = false)).
Proof.
  intros values req'. assert (values !! "" = None) as Hv by apply primaryMetadata_no_empty. split.
  - intros k c Hk. rewrite convertResourceSpans_eq. intros (rs & Hc & Hin)%list_elem_of_bind.
    apply list_elem_of_fmap in Hc as (s & -> & Hs). cbn. unfold merge_attrs. rewrite lookup_union.
    destruct (stamped_forms p req values ip rs Hin) as [rs0 [->|[m ->]]];
      destruct (stamped_tags values rs0 k Hv Hk) as [Hr Hsp]; rewrite ?enrich_tags by done; rewrite Hr, (Hsp s Hs);
      by destruct (values !! k).
  - intros rs Hin. destruct (stamped_forms p req values ip rs Hin) as [rs0 Hrs]. split.
    + intros a Ha Hr. destruct Hrs as [->|[m ->]]; [by eapply stamped_known|by eapply enriched_known].
    + intros s a Hs Ha. destruct (stamp_rs_attributes values rs0) as (_ & _ & Hsp).
      assert (s ∈ rs_spans (stamp_rs range values rs0).1) as Hs0 by (by destruct Hrs as [->|[m ->]]).
      destruct (Hsp s Hs0) as [s0 E]. rewrite E in Ha. by eapply stripped_free.
Qed.
End reserved.

(** ** JSON *)

(** A stamped text panics on nothing but a nil map, which only "null" reads as: with
    that, [stampJSONPrimary] always returns. *)
Theorem stamp_json_returns `{JsonText} range raw values :
  (forall r, unmarshal_object r = Some None -> r = "null") -> is_Some (stampJSONPrimary range raw values).
Proof.
  intros Hnull. unfold stampJSONPrimary. destruct (_ || _) eqn:Er.
  - repeat case_match; by eexists.
  - destruct (unmarshal_object raw) as [[m|]|] eqn:E; [| |by eexists].
    + repeat case_match; by eexists.
    + apply Hnull in E as ->. by rewrite orb_true_r in Er.
Qed.

(** A kind of data whose array of points is missing makes the whole export fail, although
    such a metric is valid: reading the absent array is an error. *)
Theorem empty_points_rejected `{JsonText} range metric kind group :
  unmarshal_array "" = None -> raw_field kind metric <> "" ->
  unmarshal_object (raw_field kind metric) = Some group -> raw_field "dataPoints" group = "" ->
  stamp_kind range metric kind = fail "invalid data points".
Proof.
  intros Ha Hk Hg Hp. unfold stamp_kind. rewrite (proj2 (String.eqb_neq _ _) Hk), Hg. cbn. by rewrite Hp, Ha.
Qed.

(** *** Examples *)

(** A span whose attributes are under the key "Attributes" keeps its reserved ones, and
    they reach the statistics. *)
Lemma json_case_forges :
  (fun l => tag "telvyn.verified_primary.host" (Attributes l)) <$> (
    OtlpHttp.tap_raw toy_range toy_lower (fun _ => true) (OtlpHttp.mk_named ∅ "api" "" "" "") "forged" ≫= OtlpHttp.t_span)
  = Some "evil".
Proof. vm_compute. reflexivity. Qed.

Definition xprimary : Primary := mk_primary "h1" "" [] ∅ None.
Definition xforged : Request :=
  mk_request [mk_rs (Some (mk_resource [kv "telvyn.verified_primary.host" "evil"] ""))
                [mk_scope [mk_span_msg "a" "" "" "x" 0 0 0 None [kv "telvyn.verified_primary.host" "evil"] ""] ""] ""] "".
Definition xspans : list Span :=
  convertResourceSpans toy_float (req_ResourceSpans
    (enrichResourceAttrsProto xprimary (stampPrimaryProto toy_range xforged (primaryMetadata xprimary "")).1 "").1).

Lemma reserved_not_forged_witness :
  let c := default (mk_span "" "" "" "" "" 0 0 0 0 "" "" "" ∅) (head xspans) in
  Attributes c !! "telvyn.verified_primary.host" = primaryMetadata xprimary "" !! "telvyn.verified_primary.host" /\
  primaryMetadata xprimary "" !! "telvyn.verified_primary.host" = Some "h1".
Proof.
  split; [|reflexivity].
  apply (proj1 (reserved_not_forged toy_range toy_float (fun m => reflexivity _) xprimary xforged "")).
  - reflexivity.
  - left.
Defined.
