(* ===== verification/OtlpHttpProps.v ===== *)
(** * Correctness of the OTLP receiver on HTTP

    The table of security traces is bounded and keeps what it promises; every request is
    answered and counted once; bodies are bounded. *)

From S2P Require Import Prelude GoStrings Wire Otlp OtlpProps Concentrator Stamp Usage Eff OtlpHttp.
From S2P Require Import OtlpHttpFacts OtlpExample.
#[local] Open Scope Z_scope.

Import Otlp OtlpHttp.

(** ** Security traces *)

Abbreviation bounded t := (Z.of_nat (size (t : gmap string Z)) <= securityCap).

Lemma securityTrace_bounded now id marked t : bounded t -> bounded (securityTrace now id marked t).2.
Proof.
  unfold securityTrace. intros Hb. destruct (String.eqb id ""); [done|]. destruct marked.
  - set (t' := if _ : bool then _ else t). assert (bounded t') as Hb'.
    { subst t'. case_match; [|done]. pose proof (map_size_filter (fun e => now <= e.2) t). lia. }
    clearbody t'. cbn. case_match; [|done]. to_prop. rewrite map_size_insert.
    destruct (t' !! id); unfold Datatypes.id in *; lia.
  - destruct (t !! id) eqn:E; [|done]. case_match; [|done]. cbn.
    rewrite map_size_delete, E. lia.
Qed.

(** The trace is held at least until then. *)
Definition holds (id : string) (until : Z) (t : gmap string Z) : Prop := exists u, t !! id = Some u /\ until <= u.

Lemma mark_holds now id t :
  id <> "" -> Z.of_nat (size (filter (fun e => now <= e.2) t)) < securityCap ->
  holds id (now + securityTTL) (securityTrace now id true t).2.
Proof.
  intros Hid Hroom. unfold securityTrace. rewrite (proj2 (String.eqb_neq id "") Hid).
  set (t' := if _ : bool then _ else t). assert ((Z.of_nat (size t') <? securityCap) = true) as Hlt.
  { subst t'. apply Z.ltb_lt. case_match; to_prop; lia. }
  clearbody t'. cbn. rewrite Hlt. eexists. rewrite lookup_insert_eq. split; [done|lia].
Qed.

Lemma securityTrace_holds now id' marked id t0 t :
  t0 <= now <= t0 + securityTTL -> holds id (t0 + securityTTL) t ->
  holds id (t0 + securityTTL) (securityTrace now id' marked t).2.
Proof.
  intros Hnow (u & Hu & Hle). unfold securityTrace. destruct (String.eqb id' ""); [by exists u|].
  destruct marked.
  - set (t' := if _ : bool then _ else t). assert (t' !! id = Some u) as Ht'.
    { subst t'. case_match; [|done]. apply map_lookup_filter_Some. split; [done|]. cbn. lia. }
    clearbody t'. cbn. case_match; [|by exists u].
    destruct (decide (id' = id)) as [->|Hne].
    + exists (now + securityTTL). rewrite lookup_insert_eq. split; [done|lia].
    + exists u. by rewrite lookup_insert_ne.
  - destruct (t !! id') as [u'|] eqn:E; [|by exists u]. case_match; [|by exists u]. to_prop.
    exists u. cbn. destruct (decide (id' = id)) as [->|Hne]; [simplify_eq; lia|].
    by rewrite lookup_delete_ne.
Qed.

Lemma holds_query now id until t :
  id <> "" -> now <= until -> holds id until t -> (securityTrace now id false t).1 = true.
Proof.
  intros Hid Hnow (u & Hu & Hle). unfold securityTrace. rewrite (proj2 (String.eqb_neq id "") Hid), Hu.
  rewrite (proj2 (Z.ltb_ge u now)) by lia. done.
Qed.

(** Lookups and marks, each at its time. *)
Definition security_run (ops : list (Z * string * bool)) (t : gmap string Z) : gmap string Z :=
  foldl (fun t o => (securityTrace o.1.1 o.1.2 o.2 t).2) t ops.

(** Once a trace is marked, and fewer than 10000 other traces are held, every span of
    it that is looked up within the next ten minutes is kept, whatever other traces were
    marked, looked up or expired in between; and the table never holds more than 10000. *)
Theorem security_retention t0 now id ops t :
  id <> "" -> Z.of_nat (size (filter (fun e => t0 <= e.2) t)) < securityCap -> bounded t ->
  Forall (fun o => t0 <= o.1.1 <= t0 + securityTTL) ops -> t0 <= now <= t0 + securityTTL ->
  let t' := security_run ops (securityTrace t0 id true t).2 in
  (securityTrace now id false t').1 = true /\ bounded t'.
Proof.
  intros Hid Hroom Hb Hops Hnow. cbn zeta. unfold security_run.
  pose proof (mark_holds t0 id t Hid Hroom) as Hh. pose proof (securityTrace_bounded t0 id true t Hb) as Hb'.
  revert Hh Hb'. generalize (securityTrace t0 id true t).2. induction Hops as [|o ops Ho Hops IH]; intros t1 Hh Hb1; cbn.
  - split; [|done]. eapply holds_query; [done| |exact Hh]. lia.
  - apply IH; [by apply securityTrace_holds|by apply securityTrace_bounded].
Qed.

Lemma security_retention_witness :
  let t' := security_run [(5, "b", true); (second, "b", false)] (securityTrace 0 "a" true ∅).2 in
  (securityTrace minute "a" false t').1 = true /\ bounded t'.
Proof.
  apply (security_retention 0 minute "a" [(5, "b", true); (second, "b", false)] ∅).
  - done.
  - vm_compute. reflexivity.
  - vm_compute. discriminate.
  - repeat constructor; cbn; unfold securityTTL, minute, second; lia.
  - unfold securityTTL, minute, second. lia.
Defined.

(** ** What handlers do to the receiver *)

Section handlers.
Context {W : Type} `{JsonText} `{SpanJson} `{Protobuf}.
Variables (hooks : Hooks (W := W)) (range : tagmap -> list (string * string)).
Variables (ToLower : string -> string) (format_float : f64 -> string).
Variables (gunzip : string -> body_end -> option (string * body_end)) (EqualFold : string -> string -> bool).

Abbreviation St := (OtlpHttp.St (W := W)).

(** A handler keeps the table bounded, and leaves the counters of requests and the
    configuration alone. *)
Record gentle (s s' : St) : Prop := {
  g_bounded : bounded (securityTraces (rcv s)) -> bounded (securityTraces (rcv s'));
  g_counts : request_counts (counters (rcv s')) = request_counts (counters (rcv s));
  g_endpoints : endpointRequests (counters (rcv s')) = endpointRequests (counters (rcv s));
  g_config : config (rcv s') = config (rcv s);
  g_primary : primary (rcv s') = primary (rcv s);
}.

#[local] Instance gentle_preorder : PreOrder gentle.
Proof.
  split; [by intros s; split|]. intros s1 s2 s3 [] []. split; [auto| | | |]; etrans; done.
Qed.

Lemma gentle_call {A} (f : W -> A * W) : moves gentle (call f).
Proof. intros s. unfold call. destruct (f (ext s)). by split. Qed.

Lemma gentle_sampler a b c d e f g : moves gentle (sampleTraceScope hooks a b c d e f g).
Proof.
  unfold sampleTraceScope, sampleTrace, call_sampler. repeat case_match; intros s; try done; by case_match; split.
Qed.

Lemma gentle_handlers : handler_moves hooks gentle.
Proof.
  split; [split|..]; intros; try apply gentle_call.
  - apply gentle_sampler.
  - split; try done. apply securityTrace_bounded.
  - apply moves_modify. intros s. by split.
  - apply moves_modify. intros s. match goal with Hf : counts_kept _ |- _ => destruct (Hf (counters (rcv s))) end.
    by split.
  - by split.
Qed.

(** ** Answers

    Until it answers, a handler writes nothing; an outcome without an error has been
    written with its status, and one with an error is still to be written. *)

Definition quiet (s s' : St) : Prop := resp s' = resp s.
#[local] Instance quiet_preorder : PreOrder quiet.
Proof. split; [done|]. intros s1 s2 s3. unfold quiet. congruence. Qed.

Lemma quiet_call {A} (f : W -> A * W) : moves quiet (call f).
Proof. intros s. unfold call. by destruct (f (ext s)). Qed.

Lemma quiet_counters f : moves quiet (modify (on_counters f)).
Proof. by apply moves_modify. Qed.

Lemma quiet_agent_moves : agent_moves hooks quiet.
Proof.
  split; intros; try apply quiet_call; [|done].
  unfold sampleTraceScope, sampleTrace, call_sampler. repeat case_match; intros s; try done; by case_match.
Qed.

Lemma quiet_of_option {A} (x : option A) : moves quiet (of_option x).
Proof. apply moves_of_option. exact _. Qed.

Lemma quiet_security id marked : moves quiet (security_trace hooks id marked).
Proof. apply walk_security; [exact _|apply quiet_agent_moves]. Qed.

Lemma quiet_agent body ct ip : moves quiet (trace_agent hooks range ToLower format_float body ct ip).
Proof. apply walk_agent; [exact _|apply quiet_agent_moves]. Qed.

Lemma quiet_observing f : moves (with_obs quiet) (observing f).
Proof. apply walk_observing. exact _. Qed.
#[local] Hint Resolve quiet_call quiet_counters quiet_of_option quiet_security quiet_agent walk_lift quiet_observing : walk.

(** An answer: the status of an outcome is one of those of HTTP, and what was written
    fits it. *)
Definition answered (o : outcome) (r : Response) : Prop :=
  200 <= o.1 < 600 /\ status r = match o.2 with None => Some o.1 | Some _ => None end.

Section answers.
Context {T : Type} (at_resp : T -> Response) (still : relation T).
Hypothesis still_resp : forall s s', still s s' -> at_resp s' = at_resp s.

Definition answers (m : eff T outcome) : Prop :=
  forall s o s', status (at_resp s) = None -> m s = (Some o, s') -> answered o (at_resp s').

Lemma answers_error code e : 200 <= code < 600 -> answers (mret (code, Some e)).
Proof. intros Hc s o s' Hs [= <- <-]. by split. Qed.

Lemma answers_panic : answers panic.
Proof. by intros s o s' _. Qed.

Lemma answers_bind {A} (m : eff T A) f : moves still m -> (forall a, answers (f a)) -> answers (m ≫= f).
Proof.
  intros Hm Hf s o s' Hs (a & s1 & E1 & E2)%eff_bind_Some. eapply Hf; [|exact E2].
  pose proof (Hm s) as Hm1. rewrite E1 in Hm1. cbn in Hm1. by rewrite (still_resp _ _ Hm1).
Qed.
End answers.

Abbreviation answers_h := (answers (T := St) resp).
Abbreviation answers_t := (answers (T := St * Usage.Observation) (fun s => resp s.1)).

Lemma answers_h_bind {A} (m : eff St A) f : moves quiet m -> (forall a, answers_h (f a)) -> answers_h (m ≫= f).
Proof. apply answers_bind. done. Qed.

Lemma answers_t_bind {A} (m : eff (St * Usage.Observation) A) f :
  moves (with_obs quiet) m -> (forall a, answers_t (f a)) -> answers_t (m ≫= f).
Proof. apply answers_bind. done. Qed.

Lemma answers_lift m : answers_h m -> answers_t (lift m).
Proof.
  intros Hm s o s' Hs. unfold lift. destruct (m s.1) as [[a|] s1] eqn:E; [|done]. intros [= <- <-].
  cbn. by eapply Hm.
Qed.

(** The handlers end by writing 200. *)
Lemma answers_written (f : St -> St) :
  (forall s, status (resp s) = None -> status (resp (f s)) = Some 200) ->
  answers_h (modify f;; mret (200, None)).
Proof. intros Hf s o s' Hs [= <- <-]. split; [cbn; lia|]. by apply Hf. Qed.

Lemma answers_ok ct : answers_h (modify (writeOTLPOK ct);; mret (200, None)).
Proof.
  apply answers_written. intros s Hs. unfold writeOTLPOK, header_set. case_match; cbn; by rewrite Hs.
Qed.

Lemma answers_forwarded : answers_h forwarded_ok.
Proof. apply answers_written. intros s Hs. unfold header_set. cbn. by rewrite Hs. Qed.

(** Walks through a handler to its outcomes. *)
Ltac answer :=
  repeat first
    [ progress intros
    | apply answers_error; lia
    | apply answers_ok | apply answers_forwarded
    | match goal with |- answers _ (match ?x with _ => _ end) => destruct x end
    | apply answers_lift
    | apply answers_h_bind; [solve [walk]|]
    | apply answers_t_bind; [solve [walk]|] ].

Lemma answers_trace_body body ct ip : answers_t (trace_body hooks range ToLower format_float body ct ip).
Proof.
  unfold trace_body, trace_processed, trace_forward, trace_push. answer.
Qed.

Lemma answers_traces body ct ip : answers_h (traces_fn hooks range ToLower format_float body ct ip).
Proof.
  assert (forall o, answers_h (with_observation hooks o (trace_body hooks range ToLower format_float body ct ip))) as Hw.
  { intros o s r s' Hs. unfold with_observation. destruct (trace_body _ _ _ _ _ _ _ (s, o)) as [a [s1 o1]] eqn:E.
    intros [= -> Hs']. pose proof (answers_trace_body body ct ip (s, o) r (s1, o1) Hs E) as Ha.
    assert (resp s' = resp s1) as ->; [|exact Ha]. subst s'. by repeat case_match. }
  unfold traces_fn. case_match; [|apply Hw]. answer. apply Hw.
Qed.

Lemma answers_forward_signal sg ct body e1 e2 ok :
  answers_h ok -> answers_h (forward hooks sg ct body e1 e2 ok).
Proof. intros Hok. unfold forward. answer. exact Hok. Qed.

Lemma answers_metrics body ct ip : answers_h (metrics_fn hooks range body ct ip).
Proof.
  unfold metrics_fn, metrics_ok. answer; apply answers_forward_signal; answer.
Qed.

Lemma answers_logs body ct ip : answers_h (logs_fn hooks body ct ip).
Proof. unfold logs_fn. answer; try apply answers_forward_signal; answer. Qed.

Lemma answers_profile body ct ip : answers_h (profile_fn hooks body ct ip).
Proof. unfold profile_fn. answer. apply answers_forward_signal. answer. Qed.

Lemma answers_security sg body ct ip : answers_h (security_fn hooks ToLower sg body ct ip).
Proof. unfold security_fn. answer; apply answers_forward_signal; answer. Qed.

Lemma answers_report sg body ct ip : answers_h (report_fn hooks sg body ct ip).
Proof. unfold report_fn. answer. apply answers_forward_signal. answer. Qed.

(** ** One status for every request *)

Definition balanced (c : Counters) : Prop :=
  requestsTotal c = i64 (requests2xx c + requests4xx c + requests5xx c).

Definition good (s : St) : Prop := balanced (counters (rcv s)) /\ bounded (securityTraces (rcv s)).

Lemma balanced_counts c c' : request_counts c' = request_counts c -> balanced c -> balanced c'.
Proof. unfold request_counts, balanced. intros [= -> -> -> ->]. done. Qed.

Lemma status_cases code : 200 <= code < 600 ->
  statusBucket code = "2xx" \/ statusBucket code = "4xx" \/ statusBucket code = "5xx".
Proof. intros Hc. unfold statusBucket. repeat case_match; to_prop; auto. lia. Qed.

Lemma balanced_counters_bump endpoint code c :
  200 <= code < 600 -> balanced c -> balanced (bump endpoint code (add_request c)).
Proof.
  intros Hc Hb. unfold balanced, bump in *. cbn.
  destruct (status_cases code Hc) as [-> | [-> | ->]]; cbn; rewrite Hb.
  all: rewrite swrap_add_l; symmetry.
  - rewrite <- Z.add_assoc, swrap_add_l. f_equal. lia.
  - rewrite <- Z.add_assoc, (Z.add_comm (requests2xx c)), <- Z.add_assoc, swrap_add_l. f_equal. lia.
  - rewrite swrap_add_r. f_equal. lia.
Qed.

(** A handler of [serveOTLP]. *)
Definition handler (fn : string -> string -> string -> eff St outcome) : Prop :=
  forall body ct ip, moves gentle (fn body ct ip) /\ answers_h (fn body ct ip).

Lemma applyCORS_rcv r (s : St) : rcv (applyCORS EqualFold r s) = rcv s.
Proof. unfold applyCORS, corsHeaders. cbn. repeat case_match; done. Qed.

Lemma header_set_none k v (s : St) : status (resp s) = None -> status (resp (header_set k v s)) = None.
Proof. unfold header_set. cbn. intros Hs. by rewrite Hs. Qed.

Lemma header_add_none k v (s : St) : status (resp s) = None -> status (resp (header_add k v s)) = None.
Proof. unfold header_add. cbn. intros Hs. by rewrite Hs. Qed.

Lemma applyCORS_none r (s : St) : status (resp s) = None -> status (resp (applyCORS EqualFold r s)) = None.
Proof.
  intros Hs. unfold applyCORS, corsHeaders. cbn -[header_set header_add].
  do 3 apply header_set_none. repeat case_match; try done; try apply header_add_none; by apply header_set_none.
Qed.

(** The end of a request: its status is written and counted. *)
Definition counted (endpoint : string) (s s' : St) : Prop :=
  exists code, status (resp s') = Some code /\ 200 <= code < 600 /\
    (good s -> good s') /\
    endpointRequests (counters (rcv s')) =
      (let k := (endpoint, statusBucket code) in
       <[k := i64 (default 0 (endpointRequests (counters (rcv s)) !! k) + 1)]> (endpointRequests (counters (rcv s)))).

Lemma counted_bump endpoint code s s1 s' :
  200 <= code < 600 -> status (resp s1) = Some code ->
  gentle (on_counters add_request s) s1 -> s' = bumpEndpoint endpoint code s1 -> counted endpoint s s'.
Proof.
  intros Hc Hs [Hb Hcn He _ _] ->. exists code. split_and!; [done|lia|lia| |cbn; by rewrite He].
  intros [Hbal Hbd]. split; [|cbn; by apply Hb].
  apply (balanced_counts (bump endpoint code (add_request (counters (rcv s))))).
  - unfold request_counts in *. cbn in *. by injection Hcn as -> -> -> ->.
  - by apply balanced_counters_bump.
Qed.

Lemma counted_error endpoint code msg s s1 s' :
  200 <= code < 600 -> status (resp s1) = None ->
  gentle (on_counters add_request s) s1 -> reply_error endpoint code msg s1 = (Some tt, s') -> counted endpoint s s'.
Proof.
  intros Hc Hs Hg [= <-]. eapply (counted_bump _ code _ (writeError code msg s1)); [done| | |done].
  - unfold writeError, header_set. cbn. by rewrite Hs.
  - etrans; [exact Hg|]. by split.
Qed.

Lemma readBody_status c r body code e : readBody ToLower gunzip c r = (body, code, Some e) -> 200 <= code < 600.
Proof. unfold readBody, read_limited. intros E. repeat case_match; simplify_eq/=; lia. Qed.

Lemma serveOTLP_counted endpoint fn r s s' :
  handler fn -> status (resp s) = None ->
  serveOTLP ToLower gunzip EqualFold endpoint fn r s = (Some tt, s') -> counted endpoint s s'.
Proof.
  intros Hfn Hs. unfold serveOTLP.
  set (s0 := applyCORS EqualFold r (on_counters add_request s)).
  assert (status (resp s0) = None) as Hs0 by by apply applyCORS_none.
  assert (gentle (on_counters add_request s) s0) as Hg0.
  { subst s0. split; by rewrite applyCORS_rcv. }
  unfold mbind, eff_bind. cbn [modify]. fold s0. clearbody s0.
  destruct (String.eqb (Method r) "OPTIONS").
  { cbn. intros [= <-]. eapply (counted_bump _ 204 _ (WriteHeader 204 s0)); [lia| | |done].
    - change (Some (default 204 (status (resp s0))) = Some 204). by rewrite Hs0.
    - etrans; [exact Hg0|]. by split. }
  destruct (negb (String.eqb (Method r) "POST")).
  { intros E. eapply counted_error; [|exact Hs0|exact Hg0|exact E]. lia. }
  cbn [read]. set (ct := if _ : bool then ctProto else _). clearbody ct.
  destruct (readBody _ _ _ r) as [[body code] [e|]] eqn:Eb.
  { intros E. eapply counted_error; [|exact Hs0|exact Hg0|exact E]. by eapply readBody_status. }
  destruct (Hfn body ct (clientIPFromRequest r)) as [Hg Ha]. specialize (Hg s0).
  destruct (fn body ct (clientIPFromRequest r) s0) as [[[oc oe]|] s1] eqn:E; [|done].
  destruct (Ha _ _ _ Hs0 E) as [Hc Hst]. cbn in Hc, Hst, Hg.
  assert (gentle (on_counters add_request s) s1) as Hg1 by (etrans; done).
  destruct oe as [e|].
  - intros E'. by eapply counted_error.
  - cbn. intros [= <-]. by eapply counted_bump.
Qed.

(** A request that is not counted: the configuration of applications, the health check
    and unknown paths. *)
Definition uncounted (s s' : St) : Prop := gentle s s' /\ status (resp s') <> None.

Lemma serve_config_uncounted reader r s s' :
  status (resp s) = None -> serveApplicationConfig reader r s = (Some tt, s') -> uncounted s s'.
Proof.
  intros Hs. unfold serveApplicationConfig.
  assert (forall code, uncounted s (WriteHeader code s)) as Hw by (intros code; by split).
  repeat (case_match; [intros [= <-]; apply Hw|]). destruct reader as [f|]; [|intros [= <-]; apply Hw].
  unfold mbind, eff_bind, call. destruct (f _ _ _ (ext s)) as [[body|e] w].
  - intros [= <-]. split; [|done]. unfold Write, header_set. by split.
  - intros [= <-]. by split.
Qed.

(** Every request that is served without a panic gets exactly one answer, and is
    counted once under its status: the total is the sum of the three classes at every
    moment between requests, and the table of security traces stays bounded. *)
Theorem every_request_counted r s s' :
  status (resp s) = None ->
  serve hooks range ToLower format_float gunzip EqualFold r s = (Some tt, s') ->
  (uncounted s s' \/ exists endpoint, counted endpoint s s') /\ (good s -> good s').
Proof.
  intros Hs E.
  assert (uncounted s s' \/ exists endpoint, counted endpoint s s') as Hc.
  { revert E. unfold serve.
    assert (forall endpoint fn, handler fn ->
      serveOTLP ToLower gunzip EqualFold endpoint fn r s = (Some tt, s') ->
      uncounted s s' \/ exists endpoint, counted endpoint s s') as Hh.
    { intros endpoint fn Hfn E. right. exists endpoint. by eapply serveOTLP_counted. }
    repeat case_match; first [apply Hh; intros body ct ip; split|intros E; left].
    - apply walk_traces; [exact _|apply gentle_handlers].
    - apply answers_traces.
    - apply walk_metrics; [exact _|apply gentle_handlers].
    - apply answers_metrics.
    - apply walk_profile; [exact _|apply gentle_handlers].
    - apply answers_profile.
    - apply walk_security_fn; [exact _|apply gentle_handlers].
    - apply answers_security.
    - apply walk_report; [exact _|apply gentle_handlers].
    - apply answers_report.
    - by eapply serve_config_uncounted.
    - by eapply serve_config_uncounted.
    - apply walk_logs; [exact _|apply gentle_handlers].
    - apply answers_logs.
    - revert E. intros [= <-]. by split.
    - revert E. intros [= <-]. by split. }
  split; [done|]. intros [Hb1 Hb2]. destruct Hc as [[[G1 G2 _ _ _] _] | (endpoint & code & _ & _ & Hg & _)].
  - split; [by eapply balanced_counts|by apply G1].
  - by apply Hg.
Qed.
End handlers.

(** ** Bodies and origins *)

Section requests.
Variables (ToLower : string -> string) (gunzip : string -> body_end -> option (string * body_end)).
Variable EqualFold : string -> string -> bool.

Lemma limited_body_length r n : 0 <= n -> str_len (limited_body r n).1 <= n.
Proof.
  intros Hn. unfold limited_body. destruct (Z.ltb_spec n (str_len (Body r))); cbn; [|lia].
  unfold str_len. rewrite str_length_take. lia.
Qed.

(** The body a handler sees is bounded: at most ten times the limit in any encoding,
    and without compression it is the body the client sent, whole, within the limit and
    read without an error.  Anything else is refused with 400, 413 or 415. *)
Theorem body_bounded c r body code err :
  0 < maxBodyBytes c < 2 ^ 59 -> readBody ToLower gunzip c r = (body, code, err) ->
  match err with
  | None => str_len body <= 10 * maxBodyBytes c /\
            (ToLower (trim_space (Header r "Content-Encoding")) <> "gzip" ->
             body = Body r /\ BodyErr r = None /\ str_len body <= maxBodyBytes c)
  | Some _ => code = 400 \/ code = 413 \/ code = 415
  end.
Proof.
  intros Hm. unfold readBody. rewrite (i64_small (maxBodyBytes c * 10)) by (unfold in_i64; lia).
  pose proof (limited_body_length r (maxBodyBytes c) ltac:(lia)) as Hlen.
  assert (forall src, read_limited src (maxBodyBytes c * 10) = (body, code, err) ->
    match err with
    | None => str_len body <= maxBodyBytes c * 10 /\ src = (body, EOF)
    | Some _ => code = 400 \/ code = 413 \/ code = 415
    end) as Hread.
  { intros [s e]. unfold read_limited. cbn. repeat case_match; intros; simplify_eq/=; auto.
    split; [|done]. by apply Z.ltb_ge. }
  destruct (String.eqb_spec (ToLower (trim_space (Header r "Content-Encoding"))) "gzip") as [Hz|Hz].
  - destruct (gunzip _ _) as [src|]; [|intros [= <- <- <-]; auto]. intros E. specialize (Hread _ E).
    destruct err; [done|]. destruct Hread as [Hl _]. split; [lia|done].
  - destruct (_ && _); [intros [= <- <- <-]; auto|]. intros E. specialize (Hread _ E). destruct err; [done|].
    destruct Hread as [Hl Hs]. split; [lia|]. intros _. revert Hs Hlen. unfold limited_body.
    destruct (maxBodyBytes c <? str_len (Body r)); [intros Hs; by simplify_eq|].
    destruct (BodyErr r); intros Hs Hlen; by simplify_eq/=.
Qed.

(** An origin is echoed only if it is on the list, up to case and spaces. *)
Theorem cors_only_listed c origin :
  corsOrigins c <> [] -> allowedOrigin EqualFold c origin <> "" ->
  allowedOrigin EqualFold c origin = origin /\
  exists a, a ∈ corsOrigins c /\ EqualFold (trim_space a) origin = true.
Proof.
  intros Hne. unfold allowedOrigin. destruct (corsOrigins c) as [|o l]; [done|].
  destruct (String.eqb origin ""); [done|]. destruct (existsb _ (o :: l)) eqn:E; [|done].
  intros _. split; [done|]. apply existsb_exists in E as (a & Ha & Hf). exists a. split; [|done].
  by apply list_elem_of_In.
Qed.
End requests.

(** The origins of the configuration hold no blank and never the wildcard's list. *)
Theorem cors_origins_trimmed csv o : o ∈ ParseCORSOrigins csv -> o <> "".
Proof.
  unfold ParseCORSOrigins. case_match; [by intros ?%not_elem_of_nil|].
  by intros [? _]%list_elem_of_filter.
Qed.

(** The reply to a metrics request in the binary encoding is in JSON: the content type of
    the request is overwritten before it is answered. *)
Theorem metrics_reply_is_json {W} `{JsonText} `{Protobuf} (hooks : Hooks (W := W)) range body ip s s' :
  status (resp s) = None -> metrics_fn hooks range body ctProto ip s = (Some (200, None), s') ->
  ("Content-Type", "application/json") ∈ headers (resp s').
Proof.
  intros Hs. unfold metrics_fn. destruct (forwardRaw hooks) as [fwd|] eqn:E; [|by intros [= ? ?]].
  cbn [String.eqb ctProto ctJSON]. destruct (proto_metrics body) as [req|]; [|by intros [= ? ?]].
  intros (p & s0 & Hr & E1)%eff_bind_Some. unfold read in Hr. injection Hr as <- <-. revert E1.
  destruct (protojson_marshal_metrics _) as [b|]; [|by intros [= ? ?]].
  unfold forward. rewrite E. intros (e & s1 & Hc & E1)%eff_bind_Some. revert E1.
  destruct e; [by intros [= ? ?]|]. intros [= <-]. unfold call in Hc. destruct (fwd _ _ _ _) as [e w].
  injection Hc as -> <-. unfold writeOTLPOK, header_set. cbn. rewrite Hs. cbn.
  apply elem_of_app. right. by apply list_elem_of_singleton.
Qed.

(** *** Examples *)

Definition toy_request_json : HttpRequest := toy_post "/v1/traces" ctJSON "doc".
Definition toy_after : St (W := world) := (toy_serve toy_request_json toy_state).2.

Lemma every_request_counted_witness :
  (uncounted toy_state toy_after \/ exists endpoint, counted endpoint toy_state toy_after) /\
  (good toy_state -> good toy_after).
Proof.
  apply (every_request_counted toy_hooks toy_range toy_lower toy_float toy_gunzip toy_fold
    toy_request_json toy_state toy_after).
  - reflexivity.
  - vm_compute. reflexivity.
Defined.

Lemma body_bounded_witness :
  let r := toy_post "/v1/logs" ctJSON "12345" in
  str_len "12345" <= 10 * 5 /\ (toy_lower (trim_space (Header r "Content-Encoding")) <> "gzip" ->
    "12345" = Body r /\ BodyErr r = None /\ str_len "12345" <= 5).
Proof.
  apply (body_bounded toy_lower toy_gunzip (mk_config "" 5 []) (toy_post "/v1/logs" ctJSON "12345") "12345" 200 None).
  - cbn. lia.
  - vm_compute. reflexivity.
Defined.
