(* ===== verification/OtlpSamplingProps.v ===== *)
(** * Correctness of the sampling in the OTLP receiver

    Sampling keeps or drops whole traces, decides alike on both encodings, and does not
    change the statistics. *)

From S2P Require Import Prelude GoStrings Wire Otlp OtlpProps Concentrator Stamp Usage Eff OtlpHttp.
From S2P Require Import OtlpHttpFacts OtlpExample.
#[local] Open Scope Z_scope.

Import Otlp OtlpHttp.

(** ** Sampling keeps or drops whole traces *)

Lemma filter_ext_in {A} (P Q : A -> Prop) `{!forall x, Decision (P x), !forall x, Decision (Q x)} (l : list A) :
  (forall x, x ∈ l -> P x <-> Q x) -> filter P l = filter Q l.
Proof.
  induction l as [|x l IH]; intros Hl; [done|]. rewrite !filter_cons, IH by (intros; apply Hl; by right).
  pose proof (Hl x (list_elem_of_here _ _)). repeat case_decide; tauto || done.
Qed.

Section sampling.
Context {W : Type}.
Abbreviation St := (OtlpHttp.St (W := W)).
Variables (keep : keep_fn (W := W)) (security : option (string -> bool -> eff St bool)).

(** Questions that are answered yes in every state that satisfies an invariant. *)
Record insists (I : St -> Prop) (P : Question -> Prop) : Prop := {
  in_kept q d s d' s' : I s -> ask keep security d q s = (Some d', s') -> I s';
  in_yes q d s d' s' : I s -> P q -> ask keep security d q s = (Some d', s') -> decided d' (q_id q) = true;
}.

Lemma decided_or d id b id' : decided (decide_or d id b) id' = (decided d id' || (b && String.eqb id id')).
Proof.
  unfold decide_or, decided at 1. destruct (String.eqb_spec id id') as [->|Hne].
  - rewrite lookup_insert_eq. cbn. by rewrite andb_true_r.
  - rewrite lookup_insert_ne by done. by rewrite andb_false_r, orb_false_r.
Qed.

Lemma ask_decides d q s d' s' : ask keep security d q s = (Some d', s') -> exists b, d' = decide_or d (q_id q) b.
Proof.
  unfold ask. intros (k & s1 & _ & (k2 & s2 & _ & E)%eff_bind_Some)%eff_bind_Some.
  revert E. intros [= <- <-]. by exists k2.
Qed.

Lemma asked_mono l d s d' s' id :
  fold_eff (ask keep security) d l s = (Some d', s') -> decided d id = true -> decided d' id = true.
Proof.
  revert d s. induction l as [|q l IH]; intros d s; cbn; [by intros [= <- <-]|].
  intros (d1 & s1 & Hq & Hl)%eff_bind_Some Hd. eapply IH; [exact Hl|].
  apply ask_decides in Hq as [b ->]. by rewrite decided_or, Hd.
Qed.

Lemma asked_insists I P l d s d' s' q :
  insists I P -> I s -> fold_eff (ask keep security) d l s = (Some d', s') -> q ∈ l -> P q ->
  decided d' (q_id q) = true.
Proof.
  intros [Hi Hp]. revert d s. induction l as [|q' l IH]; intros d s Hs; cbn; [by intros _ ?%not_elem_of_nil|].
  intros (d1 & s1 & Hq & Hl)%eff_bind_Some [->|Hin]%elem_of_cons HP.
  - eapply asked_mono; [exact Hl|]. by eapply Hp.
  - eapply IH; [|done..]. by eapply Hi.
Qed.

Lemma req_spans_filter f req : req_spans (filter_spans f req) = filter (fun s => f s = true) (req_spans req).
Proof.
  unfold req_spans, filter_spans. cbn. induction (req_ResourceSpans req) as [|rs l IH]; [done|].
  cbn. rewrite filter_app, IH. f_equal. clear. unfold rs_spans. cbn.
  induction (rs_ScopeSpans rs) as [|ss k IHk]; [done|]. cbn. by rewrite filter_app, IHk.
Qed.

(** The spans of a request and what is asked about them. *)
Lemma questions_spans req :
  Forall2 (fun q s => q_id q = Hex.EncodeToString (sp_TraceId s)) (questions req) (req_spans req).
Proof.
  unfold questions, req_spans. induction (req_ResourceSpans req) as [|rs l IH]; [constructor|]. cbn.
  apply Forall2_app; [|done]. induction (rs_spans rs) as [|s k IHk]; constructor; [|done].
  unfold question. by destruct (samplingScope _ _).
Qed.

Definition trace_ids (f : string -> bool) (req : Request) : gset string :=
  list_to_set (filter (fun id => f id = true) (sp_TraceId <$> req_spans req)).

(** The spans that are left, and those that must be. *)
Lemma filter_result I P req s n req' s' :
  insists I P -> I s -> filterScopeSampledSpans req keep security s = (Some (n, req'), s') ->
  (exists d, req' = filter_spans (keep_span d) req) /\ n = Zlen (req_spans req') /\
  forall sp q, sp ∈ req_spans req -> q ∈ questions req -> q_id q = Hex.EncodeToString (sp_TraceId sp) -> P q ->
    sp ∈ req_spans req'.
Proof.
  intros Hp Hs (d & s1 & Hd & E)%eff_bind_Some. revert E. intros [= <- <- <-]. split; [by exists d|]. split; [done|].
  intros sp q Hsp Hq Hid HP. rewrite req_spans_filter. apply list_elem_of_filter. split; [|done].
  unfold keep_span. rewrite <- Hid. by eapply (asked_insists I P).
Qed.

(** C14: sampling a batch keeps or drops each trace as a whole: there is a set of trace
    ids such that the spans left are those whose id is in it, in their order, and the
    resources and scopes are untouched.  A trace with a span the sampler or the
    security check insists on, in every state that sampling can reach, is in the set.
    The count is the number of spans left. *)
Theorem whole_traces I P req s n req' s' :
  insists I P -> I s -> filterScopeSampledSpans req keep security s = (Some (n, req'), s') ->
  exists D : gset string,
    req' = filter_spans (fun sp => bool_decide (sp_TraceId sp ∈ D)) req /\ n = Zlen (req_spans req') /\
    forall sp q, sp ∈ req_spans req -> q ∈ questions req -> q_id q = Hex.EncodeToString (sp_TraceId sp) -> P q ->
      sp ∈ req_spans req'.
Proof.
  intros Hp Hs E. destruct (filter_result I P req s n req' s' Hp Hs E) as ([d Hd] & Hn & Hkept). clear E.
  assert (forall sp, sp ∈ req_spans req ->
    bool_decide (sp_TraceId sp ∈ trace_ids (fun id => decided d (Hex.EncodeToString id)) req) = keep_span d sp) as Hk.
  { intros sp Hin. unfold keep_span, trace_ids. apply Bool.eq_iff_eq_true. rewrite bool_decide_eq_true.
    rewrite elem_of_list_to_set, list_elem_of_filter. split; [by intros [? _]|]. intros Hkeep. split; [done|].
    by apply list_elem_of_fmap_2. }
  exists (trace_ids (fun id => decided d (Hex.EncodeToString id)) req).
  split; [|split; [exact Hn|exact Hkept]]. rewrite Hd.
  unfold filter_spans. f_equal. apply list_fmap_ext. intros i rs Hi. f_equal. apply list_fmap_ext.
  intros j ss Hj. f_equal. apply filter_ext_in. intros sp Hsp. rewrite Hk; [done|].
  apply list_elem_of_bind. exists rs. split; [|by eapply list_elem_of_lookup_2].
  apply list_elem_of_bind. exists ss. split; [done|by eapply list_elem_of_lookup_2].
Qed.
End sampling.

(** A security event keeps its trace. *)
Lemma security_insists {W} (hooks : Hooks (W := W)) keep :
  insists keep (Some (security_trace hooks)) (fun _ => True) (fun q => q_marked q = true /\ q_id q <> "").
Proof.
  split; [done|]. intros q d s d' s' _ [Hm Hid] E. unfold ask in E.
  apply eff_bind_Some in E as (k & s1 & _ & (k2 & s2 & E & Hd)%eff_bind_Some).
  apply (f_equal fst) in Hd. cbn in Hd. injection Hd as <-.
  apply eff_bind_Some in E as (b & s3 & Hb & E). apply (f_equal fst) in E. cbn in E. injection E as <-.
  unfold security_trace in Hb. rewrite (proj2 (String.eqb_neq _ _) Hid) in Hb.
  apply eff_bind_Some in Hb as (now & s4 & _ & Hb). unfold securityTrace in Hb.
  rewrite (proj2 (String.eqb_neq _ _) Hid), Hm in Hb. injection Hb as <- _.
  rewrite decided_or, String.eqb_refl. cbn. by rewrite orb_true_r.
Qed.

(** A sampler that always keeps some questions keeps their traces. *)
Lemma sampler_insists {W} (keep : keep_fn (W := W)) security (I : St (W := W) -> Prop) (P : Question -> Prop) :
  (forall q s b s', I s ->
    keep (q_id q) (q_service q) (q_env q) (q_resource q) (q_status q) (q_kind q) (q_duration q) s = (Some b, s') ->
    I s' /\ (P q -> b = true)) ->
  (forall id marked s b s' sec, security = Some sec -> I s -> sec id marked s = (Some b, s') -> I s') ->
  insists keep security I P.
Proof.
  intros Hk Hsec.
  assert (forall q d s d' s', I s -> ask keep security d q s = (Some d', s') ->
    I s' /\ (P q -> decided d' (q_id q) = true)) as Ha.
  { intros q d s d' s' Hs E. unfold ask in E.
    apply eff_bind_Some in E as (k & s1 & Hq & (k2 & s2 & E & Hd)%eff_bind_Some).
    injection Hd as <- <-. apply Hk in Hq as [Hs1 Hk1]; [|done].
    assert (I s2 /\ (P q -> k2 = true)) as [Hs2 Hk2].
    { destruct security as [sec|]; [|by injection E as <- <-].
      apply eff_bind_Some in E as (b & s3 & Hb & E). injection E as <- <-.
      split; [by eapply Hsec|]. intros HP. by rewrite Hk1, orb_true_r. }
    split; [done|]. intros HP. by rewrite decided_or, String.eqb_refl, Hk2, orb_true_r. }
  split; intros q d s d' s' Hs.
  - intros E. by eapply Ha.
  - intros HP E. by eapply Ha.
Qed.

(** ** The two encodings are sampled alike *)

Section encodings.
Context `{JsonText} `{SpanJson}.
Variables (range : tagmap -> list (string * string)) (ToLower : string -> string).

(** What a JSON request says is what a protobuf request says: every attribute is text. *)
Definition encodes_attr (j : otlpKeyValue) (kv : KeyValue) : Prop :=
  jk_Key j = Key kv /\ exists v, kv_text j = Some v /\ Value kv = StringValue v.

Record encodes_span (f : otlpSpanFields) (sp : SpanMsg) : Prop := {
  es_id : ToLower (f_TraceID f) = Hex.EncodeToString (sp_TraceId sp);
  es_name : f_Name f = sp_Name sp;
  es_kind : f_Kind f = sp_Kind sp;
  es_start : atoiNano (f_Start f) = sp_Start sp /\ in_i64 (sp_Start sp);
  es_end : atoiNano (f_End f) = sp_End sp /\ in_i64 (sp_End sp);
  es_status : default 0 (f_Status f) = from_option Code 0 (sp_Status sp);
  es_attrs : Forall2 encodes_attr (f_Attributes f) (sp_Attributes sp);
}.

(** The text of a span; removing reserved attributes from it leaves its trace id. *)
Definition encodes_raw (raw : string) (sp : SpanMsg) : Prop :=
  (exists f, span_fields raw = Some f /\ encodes_span f sp) /\
  forall raw' b, stampJSONPrimary range raw ∅ = Some (raw', b) ->
    exists f, span_fields raw' = Some f /\ ToLower (f_TraceID f) = Hex.EncodeToString (sp_TraceId sp).

Definition encodes_rs (j : otlpResourceSpans) (rs : ResourceSpans) : Prop :=
  Forall2 encodes_attr (unmarshal_resource (jr_Resource j)).1 (GetAttributes (rs_Resource rs)) /\
  Forall2 encodes_raw (jr_spans j) (rs_spans rs).

Definition encodes (doc : list otlpResourceSpans) (req : Request) : Prop := Forall2 encodes_rs doc (req_ResourceSpans req).

Lemma string_attrs_union l m : string_attrs l m = string_attrs l ∅ ∪ m.
Proof.
  unfold string_attrs. induction l as [|kv l IH] using rev_ind; cbn; [by rewrite (left_id_L ∅ (∪))|].
  rewrite !foldl_app. cbn. by rewrite IH, insert_union_l.
Qed.

Lemma encodes_attrs l k : Forall2 encodes_attr l k -> kvToMap l = string_attrs k ∅.
Proof.
  unfold kvToMap, string_attrs. generalize (∅ : tagmap). intros m Hl. revert m.
  induction Hl as [|j kv l k (Hk & v & Ht & Hv) Hl IH]; intros m; cbn; [done|]. by rewrite Ht, Hv, Hk, IH.
Qed.

Lemma last_service_tag l : last_service l = tag "service.name" (string_attrs l ∅).
Proof.
  unfold last_service, string_attrs, tag. induction l as [|kv l IH] using rev_ind; [done|].
  rewrite !foldl_app. cbn. destruct (String.eqb_spec (Key kv) "service.name") as [E|E].
  - by rewrite E, lookup_insert_eq.
  - by rewrite lookup_insert_ne.
Qed.

Lemma encodes_question attrs kvs f sp :
  Forall2 encodes_attr kvs attrs -> encodes_span f sp ->
  json_question ToLower (kvToMap kvs) f = question attrs sp.
Proof.
  intros Hr [Hid Hn Hk [Hs Hs'] [He He'] Hst Ha]. unfold json_question, question.
  rewrite (encodes_attrs _ _ Hr), (encodes_attrs _ _ Ha), !last_service_tag, Hn, Hid, Hk, Hs, He, Hst.
  rewrite (string_attrs_union (sp_Attributes sp) (string_attrs attrs ∅)). by rewrite !(i64_small (sp_Start sp)), !(i64_small (sp_End sp)).
Qed.

Lemma encodes_questions doc req : encodes doc req -> json_questions ToLower doc = questions req.
Proof.
  unfold encodes, json_questions, questions. induction 1 as [|j rs l k [Hr Hs] Hl IH]; [done|].
  cbn. rewrite IH. f_equal. clear IH Hl. induction Hs as [|raw sp raws sps [(f & Ef & Hf) _] Hl IH]; [done|].
  cbn. rewrite Ef. cbn. rewrite IH. f_equal. by apply encodes_question.
Qed.

(** What is kept of the texts of a scope. *)
Lemma mapM_concat {A B C} (f : A -> option (B * list C)) (g : A -> list C -> Prop) l r :
  (forall x y, f x = Some y -> g x y.2) -> mapM f l = Some r -> Forall2 (fun x y => g x y.2) l r.
Proof. intros Hf Hr%mapM_Some. eapply Forall2_impl; [exact Hr|]. intros x y Hxy. by apply Hf. Qed.

Lemma tap_raw_kept keep n raw t sp :
  encodes_raw raw sp -> tap_raw range ToLower keep n raw = Some t ->
  t_kept t = keep (Hex.EncodeToString (sp_TraceId sp)).
Proof.
  intros [_ Hst]. unfold tap_raw. intros ([raw' b] & E & Ht)%bind_Some.
  destruct (Hst raw' b E) as (f & Ef & Hid). rewrite Ef in Ht. injection Ht as <-. cbn. by rewrite Hid.
Qed.

Definition kept_flags (l : list TappedDoc) : list bool := t_kept <$> (l ≫= td_spans).

Lemma tap_rs_kept keep v meta j rs td :
  encodes_rs j rs -> tap_rs range ToLower keep v meta j = Some td ->
  t_kept <$> td_spans td = (fun sp => keep (Hex.EncodeToString (sp_TraceId sp))) <$> rs_spans rs.
Proof.
  intros [_ Hs]. unfold tap_rs. intros ([[raw n] ch] & _ & (l & Hl & [= <-])%bind_Some)%bind_Some. cbn.
  unfold jr_spans in Hs. revert l Hl Hs. generalize (rs_spans rs). induction (jr_ScopeSpans j) as [|ss k IH]; intros sps l.
  - cbn. intros [= <-] Hs%Forall2_nil_inv_l. by rewrite Hs.
  - intros (t & Ht & (l' & Hl' & [= <-])%bind_Some)%bind_Some. cbn.
    intros (sps1 & sps2 & H1 & H2 & ->)%Forall2_app_inv_l.
    rewrite !fmap_app. f_equal; [|by apply IH].
    unfold tap_scope in Ht. apply bind_Some in Ht as (lt & Hlt & [= <-]). cbn.
    apply mapM_Some in Hlt. revert lt Hlt. induction H1 as [|r sp rs1 sps1 Hr H1 IH1]; intros lt.
    + intros ->%Forall2_nil_inv_l. done.
    + intros (t & lt' & Htr & Hlt' & ->)%Forall2_cons_inv_l. cbn. f_equal; [by eapply tap_raw_kept|by apply IH1].
Qed.

(** A request is sampled alike in both encodings: the sampler and the security check
    are asked the same questions in the same order, so that they answer alike and end in
    the same state, and with the same decisions the spans kept are those at the same
    positions. *)
Theorem encodings_sampled_alike doc req keep v meta l :
  encodes doc req -> tap_doc range ToLower keep v meta doc = Some l ->
  json_questions ToLower doc = questions req /\
  kept_flags l = (fun sp => keep (Hex.EncodeToString (sp_TraceId sp))) <$> req_spans req.
Proof.
  intros Henc Hl. split; [by apply encodes_questions|]. unfold kept_flags, req_spans.
  apply mapM_Some in Hl. unfold encodes in Henc. revert l Hl.
  induction Henc as [|j rs js rss Hj Henc IH]; intros l.
  - by intros ->%Forall2_nil_inv_l.
  - intros (td & l' & Htd & Hl & ->)%Forall2_cons_inv_l. cbn. rewrite !fmap_app. f_equal; [|by apply IH].
    by eapply tap_rs_kept.
Qed.
End encodings.

(** ** Sampling does not change the statistics *)

Section statistics.
Context {W C : Type} `{JsonText} `{SpanJson} `{Protobuf}.
Variables (hooks : Hooks (W := W)) (range : tagmap -> list (string * string)).
Variables (ToLower : string -> string) (format_float : f64 -> string).
Abbreviation St := (OtlpHttp.St (W := W)).

(** The same spans reach the tap, and the same texts are changed, whatever is kept. *)
Definition seen (t : Tapped) : option Span * bool := (t_span t, t_changed t).
Definition tapped (td : TappedDoc) : list (option Span * bool) := seen <$> td_spans td.

Lemma tap_raw_same k1 k2 n raw :
  seen <$> tap_raw range ToLower k1 n raw =
  seen <$> tap_raw range ToLower k2 n raw.
Proof.
  unfold tap_raw. destruct (stampJSONPrimary range raw ∅) as [[raw' b]|]; [|done]. cbn.
  by destruct (span_fields raw').
Qed.

Lemma mapM_same {A B1 B2 X} (f1 : A -> option B1) (f2 : A -> option B2) (g1 : B1 -> X) (g2 : B2 -> X) l :
  (forall a, g1 <$> f1 a = g2 <$> f2 a) -> fmap g1 <$> mapM f1 l = fmap g2 <$> mapM f2 l.
Proof.
  intros Hf. induction l as [|a l IH]; [done|]. cbn. pose proof (Hf a) as Ha.
  destruct (f1 a), (f2 a); try done. cbn in *.
  destruct (mapM f1 l), (mapM f2 l); try done. cbn in *. injection Ha as ->. by injection IH as ->.
Qed.

Lemma tap_scope_same k1 k2 n ss :
  (fun r : otlpScopeSpans * list Tapped => seen <$> r.2) <$> tap_scope range ToLower k1 n ss =
  (fun r : otlpScopeSpans * list Tapped => seen <$> r.2) <$> tap_scope range ToLower k2 n ss.
Proof.
  unfold tap_scope. pose proof (mapM_same _ _ _ _ (js_Spans ss) (tap_raw_same k1 k2 n)) as Hl.
  destruct (mapM (tap_raw range ToLower k1 n) _), (mapM (tap_raw range ToLower k2 n) _); try done.
Qed.

Lemma concat_fmap {A B} (f : A -> B) (l : list (list A)) : f <$> concat l = concat (fmap (M := list) f <$> l).
Proof. induction l as [|x l IH]; [done|]. cbn. by rewrite fmap_app, IH. Qed.

Lemma existsb_changed (l : list Tapped) :
  existsb t_changed l = existsb snd (seen <$> l).
Proof. induction l as [|t l IH]; [done|]. cbn. by rewrite IH. Qed.

Lemma tap_rs_same k1 k2 v meta rs :
  (fun td => (tapped td, td_changed td)) <$> tap_rs range ToLower k1 v meta rs =
  (fun td => (tapped td, td_changed td)) <$> tap_rs range ToLower k2 v meta rs.
Proof.
  unfold tap_rs. destruct (tap_resource range v meta (jr_Resource rs)) as [[[raw n] ch]|]; [|done]. cbn.
  pose proof (mapM_same _ _ _ _ (jr_ScopeSpans rs) (tap_scope_same k1 k2 n)) as Hl.
  destruct (mapM (tap_scope range ToLower k1 n) _) as [l1|], (mapM (tap_scope range ToLower k2 n) _) as [l2|]; try done.
  cbn in Hl |- *. injection Hl as Hl.
  assert (seen <$> concat l1.*2 = seen <$> concat l2.*2) as E.
  { rewrite !concat_fmap, <- !list_fmap_compose. f_equal. exact Hl. }
  unfold tapped. cbn. by rewrite !existsb_changed, E.
Qed.

Lemma tap_spans_of (l : list TappedDoc) :
  omap t_span (l ≫= td_spans) = omap fst (((fun td => (tapped td, td_changed td)) <$> l) ≫= fst).
Proof.
  induction l as [|td l IH]; [done|]. cbn. rewrite !omap_app. f_equal; [|exact IH].
  unfold tapped. clear. induction (td_spans td) as [|t k IH]; [done|]. cbn. destruct (t_span t); by rewrite IH.
Qed.

Lemma tap_doc_same k1 k2 v meta doc :
  (fun l => omap t_span (l ≫= td_spans)) <$> tap_doc range ToLower k1 v meta doc =
  (fun l => omap t_span (l ≫= td_spans)) <$> tap_doc range ToLower k2 v meta doc.
Proof.
  unfold tap_doc. pose proof (mapM_same _ _ _ _ doc (tap_rs_same k1 k2 v meta)) as Hl.
  destruct (mapM (tap_rs range ToLower k1 v meta) doc) as [l1|], (mapM (tap_rs range ToLower k2 v meta) doc) as [l2|];
    try done.
  cbn in *. injection Hl as Hl. f_equal. by rewrite !tap_spans_of, Hl.
Qed.

(** The part of the world that the tap writes, which the samplers and the clock do not
    touch. *)
Variable stats : W -> C.

Record leaves_stats : Prop := {
  ls_trace f : traceSampler (samplers hooks) = Some f -> forall a b c w, stats (f a b c w).2 = stats w;
  ls_service f : serviceTraceSampler (samplers hooks) = Some f -> forall a b c d w, stats (f a b c d w).2 = stats w;
  ls_scope f : scopeTraceSampler (samplers hooks) = Some f ->
    forall a b c d e g h w, stats (f a b c d e g h w).2 = stats w;
  ls_now w : stats (Now hooks w).2 = stats w;
  ls_tap f : apmTap hooks = Some f -> forall spans w w', stats w = stats w' -> stats (f spans w) = stats (f spans w');
}.

Definition without_sampling : Hooks (W := W) :=
  mk_hooks (sink hooks) (forwardRaw hooks) (debugConfig hooks) (sdkRemoteConfig hooks) (traceProcessor hooks)
    (apmTap hooks) no_samplers (traceUsageObserver hooks) (Now hooks).

Definition still (s s' : St) : Prop := stats (ext s') = stats (ext s) /\ primary (rcv s') = primary (rcv s).
#[local] Instance still_preorder : PreOrder still.
Proof. split; [done|]. intros s1 s2 s3 [] []. split; etrans; done. Qed.

Hypothesis Hstats : leaves_stats.

Lemma still_sample a b c d e f g : moves still (sampleTraceScope hooks a b c d e f g).
Proof.
  destruct Hstats as [Ht Hsv Hsc _ _]. unfold sampleTraceScope, sampleTrace, call_sampler.
  destruct (scopeTraceSampler (samplers hooks)) as [h|] eqn:E1;
    [|destruct (serviceTraceSampler (samplers hooks)) as [h|] eqn:E2;
      [|destruct (traceSampler (samplers hooks)) as [h|] eqn:E3; [|by intros s]]]; intros s.
  - pose proof (Hsc h eq_refl a b c d e f g (ext s)). by destruct (h _ _ _ _ _ _ _ _).
  - pose proof (Hsv h eq_refl a b e g (ext s)). by destruct (h _ _ _ _ _).
  - pose proof (Ht h eq_refl a e g (ext s)). by destruct (h _ _ _ _).
Qed.

(** Without the tap. *)
Definition untapped : Hooks (W := W) :=
  mk_hooks (sink hooks) (forwardRaw hooks) (debugConfig hooks) (sdkRemoteConfig hooks) (traceProcessor hooks)
    None (samplers hooks) (traceUsageObserver hooks) (Now hooks).

Lemma still_moves : agent_moves untapped still.
Proof.
  split; [apply still_sample| |by intros; split|done].
  intros s. unfold call. pose proof (ls_now Hstats (ext s)). cbn. by destruct (Now hooks (ext s)).
Qed.

Lemma still_filter req :
  moves still (filterScopeSampledSpans req (sampleTraceScope hooks) (Some (security_trace hooks))).
Proof. apply (walk_filter untapped still still_moves). Qed.

Lemma still_asked d l :
  moves still (fold_eff (ask (sampleTraceScope hooks) (Some (security_trace hooks))) d l).
Proof. apply moves_fold; [exact _|]. intros. apply (walk_ask untapped still still_moves). Qed.

(** Two states that agree on the statistics and on the metadata. *)
Definition alike (s s' : St) : Prop := stats (ext s) = stats (ext s') /\ primary (rcv s) = primary (rcv s').

Lemma call_tap_alike spans s1 s2 o s1' :
  alike s1 s2 -> call_tap (apmTap hooks) spans s1 = (Some o, s1') ->
  exists s2', call_tap (apmTap hooks) spans s2 = (Some tt, s2') /\ alike s1' s2'.
Proof.
  intros [Hs Hp]. unfold call_tap, call. destruct (apmTap hooks) as [f|] eqn:E; [|by intros [= <- <-]; exists s2].
  destruct spans as [|x l]; [by intros [= <- <-]; exists s2|]. intros [= <- <-]. eexists. split; [done|].
  split; [|done]. by apply (ls_tap Hstats f).
Qed.

Lemma tap_alike body ip s r s1 :
  tapAndSampleJSON hooks range ToLower body ip s = (Some r, s1) ->
  exists r' s2, tapAndSampleJSON without_sampling range ToLower body ip s = (Some r', s2) /\ alike s1 s2.
Proof.
  unfold tapAndSampleJSON. destruct (unmarshal_doc body) as [doc|]; [|intros [= <- <-]; by exists None, s].
  intros (d & s0 & Hd & (p & s0' & Hr & E)%eff_bind_Some)%eff_bind_Some. unfold read in Hr. injection Hr as <- <-. revert E.
  assert (still s s0) as [Hs1 Hs2].
  { revert Hd. case_match; [|intros [= <- <-]; done]. intros Hd.
    pose proof (still_asked ∅ (json_questions ToLower doc) s) as Hm. by rewrite Hd in Hm. }
  intros (l & s0' & Hl & E)%eff_bind_Some. revert E. intros ([] & s1' & Ht & E)%eff_bind_Some.
  assert (s1' = s1) as ->. { destruct (_ && negb (existsb _ _)); exact (f_equal snd E). }
  destruct (tap_doc range ToLower _ _ _ doc) as [l'|] eqn:Htap in Hl; [|done]. injection Hl as <- <-.
  pose proof (f_equal (fmap (fun l => omap t_span (l ≫= td_spans))) Htap) as Heq.
  rewrite (tap_doc_same _ (fun _ => true)) in Heq.
  rewrite Hs2 in Heq. cbn in Heq. apply fmap_Some in Heq as (l2 & Hl2 & Hspans).
  destruct (call_tap_alike _ s0 s _ _ (conj Hs1 Hs2) Ht) as (s2 & Hc & Ha).
  assert (forall X (x : X) t, (mret x : eff St X) t = (Some x, t)) as Hret by done.
  destruct (negb (existsb td_changed l2)) eqn:Ech; eexists _, s2; (split; [|exact Ha]).
  all: apply eff_bind_Some; exists ∅, s; (split; [done|]).
  all: apply eff_bind_Some; exists (primary (rcv s)), s; (split; [done|]).
  all: apply eff_bind_Some; exists l2, s; (split;
    [cbn [negb isSome traceSampler samplers without_sampling no_samplers orb]; by rewrite Hl2|]).
  all: apply eff_bind_Some; exists tt, s2; rewrite <- Hspans; (split; [exact Hc|]).
  all: cbn [samplers without_sampling no_samplers traceSampler isSome negb andb]; rewrite Ech; apply Hret.
Qed.

Lemma filter_still req s r s1 :
  filterScopeSampledSpans req (sampleTraceScope hooks) (Some (security_trace hooks)) s = (Some r, s1) -> still s s1.
Proof. intros E. pose proof (still_filter req s) as Hm. by rewrite E in Hm. Qed.

(** Without a tap there is nothing to count. *)
Lemma agent_untapped body ct ip s o s1 :
  apmTap hooks = None -> trace_agent hooks range ToLower format_float body ct ip s = (Some o, s1) ->
  stats (ext s1) = stats (ext s).
Proof.
  intros Etap E. assert (hooks = untapped) as Hu by (unfold untapped; rewrite <- Etap; by destruct hooks).
  pose proof (walk_agent untapped range ToLower format_float still still_moves body ct ip s) as [Hm _].
  rewrite <- Hu, E in Hm. exact Hm.
Qed.

(** Sampling does not change the statistics.  Whatever the samplers keep and whatever
    state they have, the tap is handed the same spans as if nothing was sampled: the
    state behind the tap ends up the same, on both encodings, for any body. *)
Theorem stats_ignore_sampling body ct ip s o s1 :
  trace_agent hooks range ToLower format_float body ct ip s = (Some o, s1) ->
  exists o' s2, trace_agent without_sampling range ToLower format_float body ct ip s = (Some o', s2) /\
    stats (ext s1) = stats (ext s2).
Proof.
  assert (forall (X : option string) t, (mret X : eff St (option string)) t = (Some X, t)) as Hret by done.
  destruct (apmTap hooks) as [tap|] eqn:Etap.
  - unfold trace_agent. change (apmTap without_sampling) with (apmTap hooks). rewrite Etap. cbn [isSome negb andb].
    change (isSome (traceSampler (samplers without_sampling))) with false. cbn [negb andb].
    destruct (String.eqb ct ctJSON).
    + intros (r & s0 & Ht & E)%eff_bind_Some. apply (f_equal snd) in E. cbn in E. subst s0.
      destruct (tap_alike body ip s r s1 Ht) as (r' & s2 & Ht2 & [Ha _]).
      eexists _, s2. split; [|exact Ha]. apply eff_bind_Some. exists r', s2. split; [done|]. apply Hret.
    + destruct (unmarshalOTLP body ct) as [req|]; [|intros [= <- <-]; by eexists _, s].
      intros (p & s0 & Hr & E)%eff_bind_Some. unfold read in Hr. injection Hr as <- <-.
      destruct (stampPrimaryProto range req _) as [req1 b1] eqn:E1.
      destruct (enrichResourceAttrsProto _ req1 ip) as [req2 b2] eqn:E2.
      revert E. intros ([] & s0 & Ht & ([n req3] & s3 & Hf & E)%eff_bind_Some)%eff_bind_Some.
      apply (f_equal snd) in E. cbn in E. subst s3. rewrite <- Etap in Ht.
      destruct (call_tap_alike _ s s _ _ (conj eq_refl eq_refl) Ht) as (s2 & Hc & [Ha _]).
      assert (stats (ext s1) = stats (ext s0)) as Hs.
      { destruct (isSome _); [by apply (filter_still _ _ _ _ Hf)|]. apply (f_equal snd) in Hf. cbn in Hf. by subst. }
      eexists _, s2. split; [|congruence].
      apply eff_bind_Some. exists (primary (rcv s)), s. split; [done|]. cbn beta. rewrite E1, E2.
      apply eff_bind_Some. exists tt, s2. rewrite <- Etap. split; [done|].
      apply eff_bind_Some. exists (1, req2), s2. split; [done|]. apply Hret.
  - intros E. exists (Some body), s. split; [|by eapply agent_untapped].
    unfold trace_agent. change (apmTap without_sampling) with (apmTap hooks). by rewrite Etap.
Qed.
End statistics.


(** *** Examples *)

Definition xkeep : keep_fn (W := world) := sampleTraceScope toy_hooks.
Definition xsecurity := Some (security_trace toy_hooks).
Definition xfiltered : Request := filter_spans (fun sp => String.eqb (sp_TraceId sp) "a") toy_request.

Lemma whole_traces_witness :
  sp_Name <$> req_spans xfiltered = ["GET"; "sql"] /\
  exists D : gset string,
    xfiltered = filter_spans (fun sp => bool_decide (sp_TraceId sp ∈ D)) toy_request /\
    2 = Zlen (req_spans xfiltered) /\
    forall sp q, sp ∈ req_spans toy_request -> q ∈ questions toy_request ->
      q_id q = Hex.EncodeToString (sp_TraceId sp) -> q_status q = 2 -> sp ∈ req_spans xfiltered.
Proof.
  refine (conj _ _); [reflexivity|].
  apply (whole_traces xkeep xsecurity (fun _ => True) (fun q => q_status q = 2) toy_request toy_state 2 xfiltered
    (filterScopeSampledSpans toy_request xkeep xsecurity toy_state).2).
  - apply sampler_insists; [|done]. intros q s b s' _ E. split; [done|]. intros Hq.
    apply (f_equal fst) in E. injection E as <-. by apply Z.eqb_eq.
  - done.
  - vm_compute. reflexivity.
Defined.

Definition xdoc : list otlpResourceSpans := default [] (unmarshal_doc "doc").
Definition xtapped : list TappedDoc :=
  default [] (tap_doc toy_range toy_lower (String.eqb "61") ∅ no_meta xdoc).

Lemma xencodes_raw raw id name code :
  raw ∈ ["s1"; "s2"; "s3"] ->
  unmarshal_span raw = Some (fields (Hex.EncodeToString id) name (if code =? 0 then None else Some code) []) ->
  toy_lower (Hex.EncodeToString id) = Hex.EncodeToString id -> code = 0 \/ code = 2 ->
  encodes_raw toy_range toy_lower raw (toy_span id name code).
Proof.
  intros Hraw E Hid Hc. split.
  - unfold span_fields. rewrite E. destruct Hc as [-> | ->]; eexists; (split; [reflexivity|]).
    all: split; try done; vm_compute; repeat split; discriminate.
  - intros raw' b Hst. assert (stampJSONPrimary toy_range raw ∅ = Some (raw, false)) as Hs.
    { rewrite !elem_of_cons in Hraw. destruct Hraw as [-> | [-> | [-> | []%not_elem_of_nil]]]; vm_compute; reflexivity. }
    rewrite Hs in Hst. injection Hst as <- <-. unfold span_fields. rewrite E.
    destruct Hc as [-> | ->]; eexists; (split; [reflexivity|exact Hid]).
Qed.

Lemma encodings_sampled_alike_witness :
  kept_flags xtapped = [true; false; true] /\
  json_questions toy_lower xdoc = questions toy_request /\
  kept_flags xtapped = (fun sp => String.eqb "61" (Hex.EncodeToString (sp_TraceId sp))) <$> req_spans toy_request.
Proof.
  refine (conj _ _); [vm_compute; reflexivity|].
  apply (encodings_sampled_alike toy_range toy_lower xdoc toy_request (String.eqb "61") ∅ no_meta xtapped).
  - constructor; [|constructor]. split.
    + constructor; [|constructor]. split; [reflexivity|]. by exists "api".
    + constructor; [|constructor; [|constructor; [|constructor]]].
      * apply (xencodes_raw "s1" "a" "GET" 2); [by left|reflexivity|reflexivity|by right].
      * apply (xencodes_raw "s2" "b" "PUT" 0); [by right; left|reflexivity|reflexivity|by left].
      * apply (xencodes_raw "s3" "a" "sql" 0); [by right; right; left|reflexivity|reflexivity|by left].
  - vm_compute. reflexivity.
Defined.

Definition xagent : option (option string) * St (W := world) :=
  trace_agent toy_hooks toy_range toy_lower toy_float "doc" ctJSON "10.0.0.1" toy_state.

Lemma stats_ignore_sampling_witness :
  tap_log (ext xagent.2) = ["GET"; "PUT"; "sql"] /\
  exists o' s2, trace_agent (without_sampling toy_hooks) toy_range toy_lower toy_float "doc" ctJSON "10.0.0.1" toy_state
    = (Some o', s2) /\ tap_log (ext xagent.2) = tap_log (ext s2).
Proof.
  refine (conj _ _); [vm_compute; reflexivity|].
  apply (stats_ignore_sampling toy_hooks toy_range toy_lower toy_float tap_log) with (o := Some "doc of s1,s3").
  - refine (Build_leaves_stats toy_hooks tap_log _ _ _ _ _).
    + intros f Hf a b c w. injection Hf as <-. reflexivity.
    + intros f Hf. by inversion Hf.
    + intros f Hf a b c d e g h w. injection Hf as <-. reflexivity.
    + reflexivity.
    + intros f Hf spans w w' E. injection Hf as <-. cbn. by rewrite E.
  - vm_compute. reflexivity.
Defined.
