(* ===== verification/Apm.v ===== *)
(** * APM: obfuscation and the forwarder of statistics (internal/apm/obfuscate, statsfwd)

    Before a span is counted its literals are taken out of SQL statements, queries out of
    URLs, and credentials are redacted.  The groups of a flush are put into one payload
    and queued before they are posted.  The second half holds their theorems. *)

From S2P Require Import Prelude GoStrings Bolt SendQueue Wire Concentrator SendQueueFacts SendQueueProps.
#[local] Open Scope Z_scope.

Module Obfuscate.

Definition quote : Z := 39.
Definition is_quote (c : Ascii.ascii) : bool := byte_of c =? quote.

(** [(?:[^']|'')*'] after an opening quote: the greedy choice takes a doubled quote for
    an escaped one, unless nothing closes the literal then.  The rest after the match. *)
Fixpoint literal_rest (s : string) : option string :=
  match s with
  | EmptyString => None
  | String c s' =>
      if is_quote c then
        match s' with
        | String d s'' =>
            if is_quote d then match literal_rest s'' with Some r => Some r | None => Some s' end
            else Some s'
        | EmptyString => Some s'
        end
      else literal_rest s'
  end.

(** [sqlStringLiteral.ReplaceAllString(sql, "?")]. *)
Fixpoint replace_strings (fuel : nat) (s : string) : string :=
  match fuel, s with
  | S fuel, String c s' =>
      if is_quote c then
        match literal_rest s' with
        | Some r => String (chr 63) (replace_strings fuel r)
        | None => String c (replace_strings fuel s')
        end
      else String c (replace_strings fuel s')
  | _, _ => ""
  end.

Definition word_byte (z : Z) : bool :=
  is_digit z || ((65 <=? z) && (z <=? 90)) || ((97 <=? z) && (z <=? 122)) || (z =? 95).
Definition word_char (c : Ascii.ascii) : bool := word_byte (byte_of c).
Definition digit_char (c : Ascii.ascii) : bool := is_digit (byte_of c).

(** The digits at the head, and the rest. *)
Fixpoint span_digits (s : string) : string * string :=
  match s with
  | String c s' => if digit_char c then let '(d, r) := span_digits s' in (String c d, r) else ("", s)
  | EmptyString => ("", "")
  end.

(** A word ends before the rest. *)
Definition at_boundary (rest : string) : bool :=
  match rest with String c _ => negb (word_char c) | EmptyString => true end.

(** [\d+(?:\.\d+)?\b] at a digit that starts a word: the last character matched and the
    rest after the match. *)
Definition number_rest (s : string) : option string :=
  let '(d, r) := span_digits s in
  if String.eqb d "" then None
  else
    let simple := if at_boundary r then Some r else None in
    match r with
    | String c r' =>
        if byte_of c =? 46 then
          let '(f, r'') := span_digits r' in
          if negb (String.eqb f "") && at_boundary r'' then Some r'' else simple
        else simple
    | EmptyString => simple
    end.

(** [sqlNumberLiteral.ReplaceAllString(sql, "?")]; [prev] tells that the character before
    belongs to a word. *)
Fixpoint replace_numbers (fuel : nat) (prev : bool) (s : string) : string :=
  match fuel, s with
  | S fuel, String c s' =>
      if digit_char c && negb prev then
        match number_rest s with
        | Some r => String (chr 63) (replace_numbers fuel true r)
        | None => String c (replace_numbers fuel true s')
        end
      else String c (replace_numbers fuel (word_char c) s')
  | _, _ => ""
  end.

Definition ObfuscateSQL (sql : string) : string :=
  let sql := replace_strings (String.length sql) sql in
  replace_numbers (String.length sql) false sql.

(** [u[:i]] at the first question mark. *)
Definition StripQuery (u : string) : string :=
  match cut_at "?" u with Some (a, _) => a | None => u end.

Definition sqlAttrs : list string := ["db.statement"; "db.query.text"].
Definition urlAttrs : list string := ["http.url"; "http.target"; "url.full"; "url.path"; "url.query"].
Definition piiAttrs : list string :=
  ["http.request.header.authorization"; "http.request.header.cookie"; "db.user"; "enduser.id"].

Definition rewrite_attr (f : string -> string) (attrs : tagmap) (k : string) : tagmap :=
  if String.eqb (tag k attrs) "" then attrs else <[k := f (tag k attrs)]> attrs.

Definition redact_attr (attrs : tagmap) (k : string) : tagmap :=
  match attrs !! k with Some _ => <[k := "?"]> attrs | None => attrs end.

Definition apply_attrs (attrs : tagmap) : tagmap :=
  foldl redact_attr (foldl (rewrite_attr StripQuery) (foldl (rewrite_attr ObfuscateSQL) attrs sqlAttrs) urlAttrs)
    piiAttrs.

Definition Apply (s : option Span) : option Span :=
  match s with
  | None => None
  | Some s => Some (if decide (Attributes s = ∅) then s else set_attributes (apply_attrs (Attributes s)) s)
  end.

Example ob1 : ObfuscateSQL "SELECT * FROM t WHERE name = 'a''b' AND x1 = 2.50 OR y=7" =
  "SELECT * FROM t WHERE name = ? AND x1 = ? OR y=?".
Proof. reflexivity. Qed.
Example ob2 : ObfuscateSQL "1.2.3 4a 5. it's" = "?.? 4a ?. it's".
Proof. reflexivity. Qed.
End Obfuscate.

(** ** The forwarder of statistics (statsfwd.go) *)

Module Statsfwd.
Import SendQueue.

Definition maxPendingBytes : Z := 8 * 1024 * 1024.

(** [ApmGroupedStats]: the fields of a group without its bucket. *)
Record ApmGroupedStats := mk_stats_msg {
  g_Env : string;
  g_Service : string;
  g_Resource : string;
  g_Operation : string;
  g_SpanKind : Z;
  g_HttpStatusCode : Z;
  g_Hits : Z;
  g_Errors : Z;
  g_DurationSumNano : Z;
  g_OkSummary : option (list Z);
  g_ErrorSummary : option (list Z);
  g_TopLevel : bool;
  g_Source : string;
  g_DbSystem : string;
  g_DatabaseMonitorId : string;
  g_Namespace : string;
  g_Peer : string;
  g_ServiceVersion : string;
  g_MaxDurationNano : option Z;
  g_PrimaryTags : tagmap;
}.

Record ApmStatsBucket := mk_bucket { StartUnixNano : Z; DurationNano : Z; BucketStats : list ApmGroupedStats }.
Record ApmStatsPayload := mk_payload { AgentVersion : string; Buckets : list ApmStatsBucket }.

Definition message (g : Concentrator.GroupedStats) : ApmGroupedStats :=
  {| g_Env := Concentrator.Env g; g_Service := Concentrator.Service g; g_Resource := Concentrator.Resource g;
     g_Operation := Concentrator.Operation g; g_SpanKind := Concentrator.SpanKind g;
     g_HttpStatusCode := Concentrator.HTTPStatusCode g; g_Hits := Concentrator.Hits g;
     g_Errors := Concentrator.Errors g; g_DurationSumNano := Concentrator.DurationSumNano g;
     g_OkSummary := Concentrator.OkSummary g; g_ErrorSummary := Concentrator.ErrorSummary g;
     g_TopLevel := Concentrator.TopLevel g; g_Source := Concentrator.GSource g;
     g_DbSystem := Concentrator.DbSystem g; g_DatabaseMonitorId := Concentrator.DatabaseMonitorID g;
     g_Namespace := Concentrator.GNamespace g; g_Peer := Concentrator.Peer g;
     g_ServiceVersion := Concentrator.ServiceVersion g;
     g_MaxDurationNano := Some (Concentrator.MaxDurationNano g); g_PrimaryTags := Concentrator.PrimaryTags g |}.

Definition by_bucket (groups : list Concentrator.GroupedStats) : gmap Z (list ApmGroupedStats) :=
  foldl (fun m g => let b := Concentrator.BucketStartUnixNano g in
                    <[b := (default [] (m !! b) ++ [message g])%list]> m) ∅ groups.

(** The buckets come in the order in which the map is enumerated. *)
Definition buildPayload (agentVersion : string) (groups : list Concentrator.GroupedStats) : ApmStatsPayload :=
  mk_payload agentVersion
    ((fun e => mk_bucket e.1 Concentrator.BucketDuration e.2) <$> map_to_list (by_bucket groups)).

Section forwarder.
Context {B : Type} `{KV B}.
Variable marshal : ApmStatsPayload -> res string.   (* proto.Marshal *)

Record Forwarder := mk_forwarder {
  url : string;
  token : string;
  agentVersion : string;
  enabled : bool;
  pending : Queue B;
}.

Definition set_pending (q : Queue B) (f : Forwarder) : Forwarder :=
  mk_forwarder (url f) (token f) (agentVersion f) (enabled f) q.
Definition SetEnabled (e : bool) (f : Forwarder) : Forwarder :=
  mk_forwarder (url f) (token f) (agentVersion f) e (pending f).

(** [strings.TrimRight(s, "/")]. *)
Fixpoint trim_slashes (s : string) : string :=
  match s with
  | EmptyString => ""
  | String c s =>
      let r := trim_slashes s in
      if String.eqb r "" && (byte_of c =? 47) then "" else String c r
  end.

Definition New (baseURL tok version : string) (dir : string) (opened : option (boltdb B)) : Forwarder :=
  mk_forwarder (trim_slashes baseURL +:+ "/api/ingest/v1/apm/stats") tok version true
    (NewPersistent "apm-stats" maxPendingBytes dir opened).

(** [post]: the outcome of a request, from what the client answers: a status or an error. *)
Definition post_result (r : res Z) : option goerr :=
  match r with
  | Err e => Some (OtherErr e)
  | Ok status => if Z.quot status 100 =? 2 then None else Some (StatusError status)
  end.

(** The answers of the server, by the number of requests made before. *)
Definition server : Type := nat -> string -> res Z * Z.
Definition post (srv : server) : poster := fun n body => let '(r, t) := srv n body in (post_result r, t).

(** [Send]; None is out of fuel. *)
Definition Send (fuel : nat) (srv : server) (now : Z) (groups : list Concentrator.GroupedStats) (f : Forwarder)
    : option (option goerr * Forwarder * list string) :=
  if negb (enabled f) then Some (None, f, [])
  else match groups with
       | [] => Some (None, f, [])
       | _ =>
           match marshal (buildPayload (agentVersion f) groups) with
           | Err e => Some (Some (Wrapped "marshal apm stats: " (OtherErr e)), f, [])
           | Ok body =>
               let '(r, q) := Offer now body None (pending f) in
               match r with
               | Err e => Some (Some (Wrapped "queue apm stats: " (OtherErr e)), set_pending q f, [])
               | Ok _ =>
                   match Flush fuel (post srv) now q with
                   | None => None
                   | Some (err, q, posted) =>
                       Some (option_map (Wrapped "post apm stats: ") err, set_pending q f, posted)
                   end
               end
           end
       end.
End forwarder.

Arguments Forwarder : clear implicits.
End Statsfwd.

(** * Correctness of the obfuscation and of the payload of statistics *)

(** ** String literals *)

Section obfuscate.
Import Obfuscate.

Fixpoint quotes (s : string) : nat :=
  match s with
  | EmptyString => 0
  | String c s => (if is_quote c then 1 else 0) + quotes s
  end.

(** A literal that is never closed has no quote in it. *)
Lemma literal_rest_none_len n s : (String.length s <= n)%nat -> literal_rest s = None <-> quotes s = 0%nat.
Proof.
  revert s. induction n as [|n IH]; intros [|c s] Hn; cbn in Hn |- *; [done|lia|done|].
  destruct (is_quote c) eqn:Ec; cbn; [|apply IH; lia].
  destruct s as [|d s]; [split; intros; [done|lia]|]. destruct (is_quote d); [|split; intros; [done|lia]].
  split; [|intros; lia]. by destruct (literal_rest s).
Qed.

Lemma literal_rest_none s : literal_rest s = None <-> quotes s = 0%nat.
Proof. by apply (literal_rest_none_len (String.length s)). Qed.

Lemma literal_rest_length n s r :
  (String.length s <= n)%nat -> literal_rest s = Some r -> (String.length r < String.length s)%nat.
Proof.
  revert s r. induction n as [|n IH]; intros [|c s] r Hn; cbn in Hn |- *; [done|lia|done|].
  destruct (is_quote c); [|intros E%IH; lia].
  destruct s as [|d s]; [intros [= <-]; cbn; lia|]. cbn in Hn.
  destruct (is_quote d); [|intros [= <-]; cbn; lia].
  destruct (literal_rest s) eqn:E; intros [= <-]; [|cbn; lia]. apply IH in E; cbn; lia.
Qed.

Lemma replace_strings_quotes n s : (String.length s <= n)%nat -> (quotes (replace_strings n s) <= 1)%nat.
Proof.
  revert s. induction n as [|n IH]; intros [|c s] Hn; cbn in Hn |- *; try (cbn; lia).
  destruct (is_quote c) eqn:Ec.
  - destruct (literal_rest s) as [r|] eqn:E.
    + cbn. apply IH. apply (literal_rest_length (String.length s)) in E; lia.
    + apply literal_rest_none in E. cbn. rewrite Ec. cbn.
      enough (quotes (replace_strings n s) = 0%nat) by lia. clear IH Hn Ec. revert s E.
      induction n as [|n IH]; intros [|d s]; cbn; try done. destruct (is_quote d) eqn:Ed; [done|].
      cbn. rewrite Ed. apply IH.
  - cbn. rewrite Ec. cbn. apply IH. lia.
Qed.

(** ** Number literals *)

(** No number is left that stands as a word of its own. *)
Fixpoint no_number (prev : bool) (s : string) : bool :=
  match s with
  | EmptyString => true
  | String c s' =>
      negb (digit_char c && negb prev && match number_rest s with Some _ => true | None => false end) &&
      no_number (word_char c) s'
  end.

Lemma digit_word c : digit_char c = true -> word_char c = true.
Proof. unfold digit_char, word_char, word_byte. by intros ->. Qed.

Lemma span_digits_app s : let '(d, r) := span_digits s in
  s = d +:+ r /\ match r with String c _ => digit_char c = false | EmptyString => True end.
Proof.
  induction s as [|c s IH]; cbn; [done|]. destruct (digit_char c) eqn:E; [|done].
  destruct (span_digits s) as [d r]. destruct IH as [-> Hr]. by rewrite str_app_cons.
Qed.

(** A run of digits that is no number runs into a letter or an underscore. *)
Lemma number_rest_none s d r :
  span_digits s = (d, r) -> d <> "" -> number_rest s = None ->
  exists w r', r = String w r' /\ word_char w = true /\ digit_char w = false.
Proof.
  intros E Hd. unfold number_rest. pose proof (span_digits_app s) as Hs. rewrite E in *. destruct Hs as [_ Hr].
  rewrite (proj2 (String.eqb_neq d "") Hd). destruct r as [|w r']; [done|]. cbn [at_boundary].
  destruct (word_char w) eqn:Ew; [by exists w, r'|]. cbn [negb].
  destruct (byte_of w =? 46); [|done]. destruct (span_digits r'). by case_match.
Qed.

Lemma number_rest_some s r :
  number_rest s = Some r -> at_boundary r = true /\ (String.length r < String.length s)%nat.
Proof.
  unfold number_rest. pose proof (span_digits_app s) as Hs. destruct (span_digits s) as [d r0].
  destruct Hs as [-> _]. rewrite str_length_app. destruct d as [|c d]; [done|]. cbn [String.eqb String.length].
  assert (forall r1, (if at_boundary r0 then Some r0 else None) = Some r1 ->
    at_boundary r1 = true /\ (String.length r1 < S (String.length d) + String.length r0)%nat) as Hsimple.
  { intros r1. case_match; [|done]. intros [= <-]. split; [done|lia]. }
  destruct r0 as [|x r']; [apply Hsimple|]. destruct (byte_of x =? 46); [|apply Hsimple].
  pose proof (span_digits_app r') as Hf. destruct (span_digits r') as [f r'']. destruct Hf as [-> _].
  destruct (negb (String.eqb f "") && at_boundary r'') eqn:E; [|apply Hsimple].
  intros [= <-]. apply andb_true_iff in E as [_ E]. split; [done|]. cbn [String.length]. rewrite str_length_app. lia.
Qed.

Lemma replace_at_boundary n r : at_boundary r = true -> replace_numbers n true r = replace_numbers n false r.
Proof.
  destruct n as [|n]; [done|]. destruct r as [|c r]; [done|]. cbn [at_boundary replace_numbers]. intros Hc.
  assert (digit_char c = false) as ->; [|done].
  destruct (digit_char c) eqn:E; [|done]. apply digit_word in E. by rewrite E in Hc.
Qed.

Fixpoint all_digits (s : string) : Prop :=
  match s with String c s => digit_char c = true /\ all_digits s | EmptyString => True end.

Lemma span_all_digits s : all_digits (span_digits s).1.
Proof.
  induction s as [|c s IH]; cbn; [done|]. destruct (digit_char c) eqn:E; [|done].
  by destruct (span_digits s).
Qed.

(** Inside a word the digits are copied, up to the letter that ends them. *)
Lemma replace_run n d w r :
  all_digits d -> digit_char w = false -> word_char w = true -> (String.length d < n)%nat ->
  exists out, replace_numbers n true (d +:+ String w r) = d +:+ String w out.
Proof.
  revert n. induction d as [|c d IH]; intros [|n]; cbn [String.length]; try (intros; lia).
  - intros _ Hw Hw' _. eexists. rewrite !str_app_nil_l. cbn [replace_numbers]. by rewrite Hw.
  - intros [Hc Hd] Hw Hw' Hn. rewrite str_app_cons. cbn [replace_numbers]. rewrite Hc, (digit_word c Hc). cbn [andb negb].
    destruct (IH n Hd Hw Hw' ltac:(lia)) as [out ->]. by exists out.
Qed.

Lemma span_digits_run d w out : all_digits d -> digit_char w = false ->
  span_digits (d +:+ String w out) = (d, String w out).
Proof.
  induction d as [|c d IH].
  - intros _ Hw. rewrite str_app_nil_l. cbn [span_digits]. by rewrite Hw.
  - intros [Hc Hd] Hw. rewrite str_app_cons. cbn [span_digits]. by rewrite Hc, IH.
Qed.

Lemma number_rest_run d w out : all_digits d -> word_char w = true -> digit_char w = false ->
  number_rest (d +:+ String w out) = None.
Proof.
  intros Hd Hw Hw'. unfold number_rest. rewrite span_digits_run by done. destruct (String.eqb d ""); [done|].
  cbn [at_boundary]. rewrite Hw. cbn [negb].
  destruct (Z.eqb_spec (byte_of w) 46) as [E|]; [|done].
  revert Hw. unfold word_char. by rewrite E.
Qed.

Lemma replace_numbers_clean n prev s :
  (String.length s <= n)%nat -> no_number prev (replace_numbers n prev s) = true.
Proof.
  revert prev s. induction n as [|n IH]; intros prev [|c s] Hn; cbn [String.length] in Hn; try done; try lia.
  cbn [replace_numbers]. destruct (digit_char c && negb prev) eqn:E.
  - apply andb_true_iff in E as [Hc Hp]. destruct (number_rest (String c s)) as [r|] eqn:Er.
    + apply number_rest_some in Er as [Hb Hl]. cbn [String.length] in Hl. rewrite replace_at_boundary by done.
      cbn. apply IH. lia.
    + cbn [no_number]. rewrite (digit_word c Hc), IH by lia. rewrite andb_true_r.
      destruct (span_digits (String c s)) as [d r] eqn:Es. pose proof (span_digits_app (String c s)) as Ha.
      pose proof (span_all_digits (String c s)) as Hd. rewrite Es in Ha, Hd. destruct Ha as [Ha _]. cbn in Hd.
      destruct d as [|c' d]; [cbn in Es; rewrite Hc in Es; by destruct (span_digits s)|].
      destruct (number_rest_none _ _ _ Es ltac:(done) Er) as (w & r' & -> & Hw & Hw').
      rewrite str_app_cons in Ha. injection Ha as <- ->. destruct Hd as [_ Hd].
      destruct (replace_run n d w r' Hd Hw' Hw) as [out ->].
      { rewrite str_length_app in Hn. cbn in Hn. lia. }
      rewrite <- str_app_cons, number_rest_run by done. by rewrite andb_false_r.
  - cbn [no_number]. rewrite E. cbn. apply IH. lia.
Qed.

Lemma number_rest_quotes s r : number_rest s = Some r -> (quotes r <= quotes s)%nat.
Proof.
  assert (forall s t, quotes (s +:+ t) = (quotes s + quotes t)%nat) as Happ.
  { intros s0 t. induction s0 as [|c s0 IH]; [done|]. rewrite str_app_cons. cbn. rewrite IH. lia. }
  unfold number_rest. pose proof (span_digits_app s) as Hs. destruct (span_digits s) as [d r0]. destruct Hs as [-> _].
  rewrite Happ. destruct (String.eqb d ""); [done|].
  assert (forall r1, (if at_boundary r0 then Some r0 else None) = Some r1 -> (quotes r1 <= quotes d + quotes r0)%nat) as Hs.
  { intros r1. case_match; [|done]. intros [= <-]. lia. }
  destruct r0 as [|x r']; [apply Hs|]. destruct (byte_of x =? 46); [|apply Hs].
  pose proof (span_digits_app r') as Hf. destruct (span_digits r') as [f r'']. destruct Hf as [-> _].
  destruct (_ && _); [|apply Hs]. intros [= <-]. cbn. rewrite Happ. lia.
Qed.

Lemma replace_numbers_quotes n prev s : (quotes (replace_numbers n prev s) <= quotes s)%nat.
Proof.
  revert prev s. induction n as [|n IH]; intros prev [|c s]; cbn [replace_numbers]; try (cbn; lia).
  assert (forall p, (quotes (String c (replace_numbers n p s)) <= quotes (String c s))%nat) as Hc.
  { intros p. cbn [quotes]. by apply Nat.add_le_mono_l. }
  destruct (digit_char c && negb prev); [|apply Hc].
  destruct (number_rest (String c s)) as [r|] eqn:E; [|apply Hc].
  apply number_rest_quotes in E. etrans; [|exact E]. apply IH.
Qed.

(** No literal is left in an obfuscated statement: at most one quote, so that no text
    is between quotes, and no number standing as a word of its own. *)
Theorem obfuscation_complete sql :
  (quotes (ObfuscateSQL sql) <= 1)%nat /\ no_number false (ObfuscateSQL sql) = true.
Proof.
  unfold ObfuscateSQL. split; [|by apply replace_numbers_clean].
  etrans; [apply replace_numbers_quotes|]. by apply replace_strings_quotes.
Qed.
End obfuscate.

(** ** Attributes *)

Section attributes.
Import Obfuscate.

Lemma rewrite_attr_lookup f (attrs : tagmap) (k k' : string) :
  rewrite_attr f attrs k !! k' =
  if String.eqb k k' && negb (String.eqb (tag k attrs) "") then Some (f (tag k attrs)) else attrs !! k'.
Proof.
  unfold rewrite_attr. destruct (String.eqb_spec k k') as [->|Hne]; destruct (String.eqb _ "");
    cbn; try done; by rewrite ?lookup_insert_eq, ?lookup_insert_ne.
Qed.

Lemma redact_attr_lookup (attrs : tagmap) (k k' : string) :
  redact_attr attrs k !! k' = if String.eqb k k' then (fun _ => "?") <$> attrs !! k' else attrs !! k'.
Proof.
  unfold redact_attr. destruct (String.eqb_spec k k') as [->|Hne].
  - destruct (attrs !! k') eqn:E; [by rewrite lookup_insert_eq|by rewrite E].
  - destruct (attrs !! k); [|done]. by rewrite lookup_insert_ne.
Qed.

Lemma rewrite_all_lookup f l (attrs : tagmap) k :
  NoDup l -> foldl (rewrite_attr f) attrs l !! k =
  if existsb (String.eqb k) l && negb (String.eqb (tag k attrs) "") then Some (f (tag k attrs)) else attrs !! k.
Proof.
  intros Hl. revert attrs. induction Hl as [|k0 l Hk0 Hl IH]; intros attrs; [done|].
  cbn [foldl existsb]. rewrite IH. unfold tag at 1 2. rewrite rewrite_attr_lookup.
  rewrite (String.eqb_sym k k0). destruct (String.eqb_spec k0 k) as [->|Hne]; cbn [andb orb]; [|done].
  assert (existsb (String.eqb k) l = false) as ->; [|done].
  apply not_true_is_false. intros (x & Hx & ->%String.eqb_eq)%existsb_exists. by apply Hk0, list_elem_of_In.
Qed.

Lemma redact_all_lookup l (attrs : tagmap) k :
  foldl redact_attr attrs l !! k = if existsb (String.eqb k) l then (fun _ => "?") <$> attrs !! k else attrs !! k.
Proof.
  revert attrs. induction l as [|k0 l IH]; intros attrs; [done|].
  cbn [foldl existsb]. rewrite IH, redact_attr_lookup, (String.eqb_sym k k0).
  destruct (String.eqb k0 k); cbn [orb]; [|done]. destruct (existsb (String.eqb k) l); [|done].
  by destruct (attrs !! k).
Qed.

Lemma disjoint_lists k l1 l2 :
  existsb (String.eqb k) l1 = true -> forallb (fun x => negb (existsb (String.eqb x) l2)) l1 = true ->
  existsb (String.eqb k) l2 = false.
Proof.
  intros (x & Hx & ->%String.eqb_eq)%existsb_exists Hd. rewrite forallb_forall in Hd. by apply negb_true_iff, Hd.
Qed.

Lemma sqlAttrs_nodup : NoDup sqlAttrs.
Proof. apply NoDup_ListNoDup; repeat constructor; cbn; intuition discriminate. Qed.
Lemma urlAttrs_nodup : NoDup urlAttrs.
Proof. apply NoDup_ListNoDup; repeat constructor; cbn; intuition discriminate. Qed.

(** What [Apply] makes of each attribute: credentials are redacted, statements are
    obfuscated, URLs lose their query, and the others stay. *)
Theorem apply_attributes s k :
  Attributes (default s (Apply (Some s))) !! k =
    if existsb (String.eqb k) piiAttrs then (fun _ => "?") <$> Attributes s !! k
    else if String.eqb (tag k (Attributes s)) "" then Attributes s !! k
    else if existsb (String.eqb k) sqlAttrs then Some (ObfuscateSQL (tag k (Attributes s)))
    else if existsb (String.eqb k) urlAttrs then Some (StripQuery (tag k (Attributes s)))
    else Attributes s !! k.
Proof.
  unfold Apply. cbn [default from_option]. destruct (decide (Attributes s = ∅)) as [E|E].
  { cbn. rewrite E. unfold tag. rewrite lookup_empty. cbn. by case_match. }
  cbn [from_option id Attributes set_attributes]. unfold apply_attrs. rewrite redact_all_lookup.
  pose proof sqlAttrs_nodup. pose proof urlAttrs_nodup.
  set (attrs := Attributes s). set (m := foldl (rewrite_attr ObfuscateSQL) attrs sqlAttrs).
  assert (m !! k = if existsb (String.eqb k) sqlAttrs && negb (String.eqb (tag k attrs) "")
                   then Some (ObfuscateSQL (tag k attrs)) else attrs !! k) as Hm by by apply rewrite_all_lookup.
  rewrite rewrite_all_lookup by done. clearbody m.
  destruct (existsb (String.eqb k) piiAttrs) eqn:Ep.
  - rewrite (disjoint_lists k piiAttrs urlAttrs), Hm, (disjoint_lists k piiAttrs sqlAttrs) by done. done.
  - destruct (existsb (String.eqb k) sqlAttrs) eqn:Es.
    + rewrite (disjoint_lists k sqlAttrs urlAttrs) by done. rewrite Hm. by destruct (String.eqb (tag k attrs) "").
    + cbn [andb] in Hm. unfold tag at 1 2. rewrite Hm. fold (tag k attrs).
      destruct (existsb (String.eqb k) urlAttrs); cbn [andb]; by destruct (String.eqb (tag k attrs) "").
Qed.
End attributes.

(** ** The payload *)

Section payload.
Import Statsfwd.

Definition in_bucket (b : Z) (g : Concentrator.GroupedStats) : Prop := Concentrator.BucketStartUnixNano g = b.
#[local] Instance in_bucket_dec b g : Decision (in_bucket b g).
Proof. unfold in_bucket. apply _. Defined.

Definition of_bucket (b : Z) (groups : list Concentrator.GroupedStats) : list ApmGroupedStats :=
  message <$> filter (in_bucket b) groups.

Lemma by_bucket_lookup groups b :
  by_bucket groups !! b = match of_bucket b groups with [] => None | l => Some l end.
Proof.
  unfold by_bucket. induction groups as [|g groups IH] using rev_ind; [done|].
  rewrite foldl_app. cbn [foldl]. set (m := foldl _ _ groups) in *.
  unfold of_bucket in *. rewrite filter_app, fmap_app. rewrite filter_cons, filter_nil.
  destruct (decide (Concentrator.BucketStartUnixNano g = b)) as [<-|Hne].
  - rewrite decide_True by done. rewrite lookup_insert_eq, IH. cbn.
    by destruct (message <$> filter _ groups).
  - rewrite decide_False by done. rewrite lookup_insert_ne by done. cbn. by rewrite app_nil_r.
Qed.

(** The payload of a flush holds every group exactly once: its buckets have distinct
    starts, each lists the groups of that start in the order of the flush, with all their
    fields, none is empty, and every group's start is there. *)
Theorem payload_partitions version groups :
  let p := buildPayload version groups in
  NoDup (StartUnixNano <$> Buckets p) /\
  Forall (fun b => BucketStats b = of_bucket (StartUnixNano b) groups /\ BucketStats b <> [] /\
                   DurationNano b = 10 * second) (Buckets p) /\
  forall g, g ∈ groups -> Concentrator.BucketStartUnixNano g ∈ StartUnixNano <$> Buckets p.
Proof.
  cbn zeta. unfold buildPayload. cbn [Buckets]. rewrite <- list_fmap_compose.
  split_and!.
  - apply NoDup_fst_map_to_list.
  - apply Forall_fmap, Forall_forall. intros [b l] Hin%elem_of_map_to_list. cbn.
    rewrite by_bucket_lookup in Hin. by destruct (of_bucket b groups); simplify_eq.
  - intros g Hg. assert (is_Some (by_bucket groups !! Concentrator.BucketStartUnixNano g)) as [l Hl].
    { rewrite by_bucket_lookup. unfold of_bucket.
      assert (g ∈ filter (in_bucket (Concentrator.BucketStartUnixNano g)) groups) as Hf by by apply list_elem_of_filter.
      destruct (filter _ groups); [by apply not_elem_of_nil in Hf|]. by eexists. }
    apply list_elem_of_fmap. exists (Concentrator.BucketStartUnixNano g, l). split; [done|]. by apply elem_of_map_to_list.
Qed.
End payload.
