(* ===== verification/Pipeline.v ===== *)
(** * The APM pipeline of the collector (cmd/collector/main.go)

    The hooks that the process gives the receiver, and what the others of its goroutines
    do to the same objects: the rules, the sampler, the concentrator, the usage
    accounting and the forwarder of statistics behind the receiver, the spans of the
    eBPF bridge, the configuration that is pulled, and the ticker that flushes.

    Each object is under its own lock, so that a request runs between two events of the
    others; what is modelled is one request, or one event, after another. *)

From S2P Require Import Prelude GoStrings Bolt SendQueue Wire Processing Usage GoFloat Sampler Concentrator Eff.
From S2P Require Import Otlp Stamp OtlpHttp Apm.
#[local] Open Scope Z_scope.

Module Pipeline.
Import Otlp OtlpHttp.

(** ** Requests as the rules read them *)

Definition to_value (v : AnyValue) : Processing.AnyValue AnyValue :=
  match v with StringValue s => Processing.StringValue s | v => Processing.OtherValue v end.
Definition from_value (v : Processing.AnyValue AnyValue) : AnyValue :=
  match v with Processing.StringValue s => StringValue s | Processing.OtherValue v => v end.

Definition to_attrs (l : list KeyValue) : Processing.Attributes AnyValue string :=
  (fun kv => Some (Processing.mk_kv (Key kv) (to_value (Value kv)) (kv_rest kv))) <$> l.
Definition from_attrs (l : Processing.Attributes AnyValue string) : list KeyValue :=
  omap (option_map (fun kv => mk_kv (Processing.kv_key kv) (from_value (Processing.kv_value kv))
                                (Processing.kv_rest kv))) l.

(** The other fields of a span are those of the span without its attributes. *)
Abbreviation PRequest := (Processing.Request AnyValue SpanMsg string).

Definition to_span (s : SpanMsg) : Processing.SpanMsg AnyValue SpanMsg string :=
  Processing.mk_span_msg (to_attrs (sp_Attributes s)) (set_sp_Attributes [] s).
Definition from_span (s : Processing.SpanMsg AnyValue SpanMsg string) : SpanMsg :=
  set_sp_Attributes (from_attrs (Processing.span_attrs s)) (Processing.span_rest s).

Definition to_scope (ss : ScopeSpans) : Processing.ScopeSpans AnyValue SpanMsg string :=
  Processing.mk_scope ((fun s => Some (to_span s)) <$> ss_Spans ss) (ss_rest ss).
Definition from_scope (ss : Processing.ScopeSpans AnyValue SpanMsg string) : ScopeSpans :=
  mk_scope (omap (option_map from_span) (Processing.scope_spans ss)) (Processing.scope_rest ss).

Definition to_rs (rs : ResourceSpans) : Processing.ResourceSpans AnyValue SpanMsg string :=
  Processing.mk_rs
    (option_map (fun r => Processing.mk_resource (to_attrs (res_Attributes r)) (res_rest r)) (rs_Resource rs))
    ((fun ss => Some (to_scope ss)) <$> rs_ScopeSpans rs) (rs_rest rs).
Definition from_rs (rs : Processing.ResourceSpans AnyValue SpanMsg string) : ResourceSpans :=
  mk_rs (option_map (fun r => mk_resource (from_attrs (Processing.res_attrs r)) (Processing.res_rest r))
           (Processing.rs_resource rs))
    (omap (option_map from_scope) (Processing.rs_scopes rs)) (Processing.rs_rest rs).

Definition to_request (req : Request) : PRequest :=
  Processing.mk_request ((fun rs => Some (to_rs rs)) <$> req_ResourceSpans req) (req_rest req).
Definition from_request (req : PRequest) : Request :=
  mk_request (omap (option_map from_rs) (Processing.resource_spans req)) (Processing.req_rest req).

(** ** The objects behind the receiver *)

Section pipeline.
(** The rest of the world: the gateway, the clock, the queue of logs; and the database
    of the queue of statistics. *)
Context {E B : Type} `{KV B} `{JsonText} `{SpanJson} `{Protobuf}.

Record Apm := mk_apm {
  apmProcessor : Processing.Processor;
  apmSampler : Sampler.Sampler;
  apmConc : Concentrator.Concentrator;
  apmStats : Statsfwd.Forwarder B;
  apmUsage : option Usage.Aggregator;   (* nil when its random session failed *)
  out : E;
}.

Definition set_processor (p : Processing.Processor) (w : Apm) : Apm :=
  mk_apm p (apmSampler w) (apmConc w) (apmStats w) (apmUsage w) (out w).
Definition set_sampler (s : Sampler.Sampler) (w : Apm) : Apm :=
  mk_apm (apmProcessor w) s (apmConc w) (apmStats w) (apmUsage w) (out w).
Definition set_conc (c : Concentrator.Concentrator) (w : Apm) : Apm :=
  mk_apm (apmProcessor w) (apmSampler w) c (apmStats w) (apmUsage w) (out w).
Definition set_stats (f : Statsfwd.Forwarder B) (w : Apm) : Apm :=
  mk_apm (apmProcessor w) (apmSampler w) (apmConc w) f (apmUsage w) (out w).
Definition set_usage (a : option Usage.Aggregator) (w : Apm) : Apm :=
  mk_apm (apmProcessor w) (apmSampler w) (apmConc w) (apmStats w) a (out w).
Definition set_out (e : E) (w : Apm) : Apm :=
  mk_apm (apmProcessor w) (apmSampler w) (apmConc w) (apmStats w) (apmUsage w) e.

(** What is not under src/, or depends on the process: the clock, the exporter and the
    queue of logs, the readers of the configuration of applications; the library
    functions of the components. *)
Variable Now : E -> Z * E.
Variable PostRaw : string -> string -> string -> E -> option string * E.
Variable EnqueueRaw : option (string -> string -> E -> option string * E).
Variables (DebugConfig SDKRemoteConfig : string -> string -> string -> E -> res string * E).
Variable ToLower : string -> string.
Variable range : tagmap -> list (string * string).
Variable format_float : f64 -> string.
Variable unspecified_ip : string -> bool.
Variable bin_of : f64 -> Z.
Variables (decode : string -> res (option Processing.jobject)) (encode : Processing.jobject -> res string).

(** ** The hooks of the receiver *)

Definition on_out {A} (f : E -> A * E) (w : Apm) : A * Apm :=
  let '(a, e) := f (out w) in (a, set_out e w).

Definition forwardRaw (signal ct body : string) : Apm -> option string * Apm :=
  if String.eqb signal "logs" then
    match EnqueueRaw with
    | None => fun w => (Some "logs WAL unavailable", w)
    | Some enqueue => on_out (enqueue ct body)
    end
  else on_out (PostRaw signal ct body).

(** [apmProcessor.ProcessTraces] on a protobuf body. *)
Definition unmarshal_traces (body : string) : res PRequest :=
  match proto_traces body with Some req => Ok (to_request req) | None => Err "proto" end.
Definition marshal_processed (req : PRequest) : res string :=
  match marshal_traces (from_request req) with Some b => Ok b | None => Err "proto" end.

Definition ProcessTraces (ct body : string) (w : Apm) : res string * Apm :=
  (Processing.ProcessTraces "" unmarshal_traces marshal_processed decode encode ct body (apmProcessor w), w).

Definition Add (s : option Span) (c : Concentrator.Concentrator) : Concentrator.Concentrator :=
  Concentrator.Add unspecified_ip marshal_tags bin_of s c.

(** The tap: every span is obfuscated and counted. *)
Definition tap (spans : list Span) (w : Apm) : Apm :=
  set_conc (foldl (fun c s => Add (Obfuscate.Apply (Some s)) c) (apmConc w) spans) w.

Definition KeepForScope (id service env resource : string) (status kind duration : Z) (w : Apm)
    : option bool * Apm :=
  let '(now, e) := Now (out w) in
  let w := set_out e w in
  match Sampler.KeepForScope ToLower now id service env resource status kind duration (apmSampler w) with
  | Some (keep, s) => (Some keep, set_sampler s w)
  | None => (None, w)
  end.

(** [apmUsage.Observe], at the time of the clock in seconds. *)
Definition Observe (o : Usage.Observation) (w : Apm) : Apm :=
  match apmUsage w with
  | None => w
  | Some a => let '(now, e) := Now (out w) in
              set_usage (Some (Usage.Observe (now / second) o a)) (set_out e w)
  end.

Definition hooks (with_usage : bool) : Hooks (W := Apm) :=
  mk_hooks None (Some forwardRaw) (Some (fun a b c => on_out (DebugConfig a b c)))
    (Some (fun a b c => on_out (SDKRemoteConfig a b c))) (Some ProcessTraces) (Some tap)
    (SetScopeTraceSampler (Some KeepForScope) no_samplers)
    (if with_usage then Some Observe else None) (on_out Now).

(** What a trace request in protobuf becomes before it is counted and sampled. *)
Definition prepared (p : Primary) (req : Request) (clientIP : string) : Request :=
  (enrichResourceAttrsProto p (stampPrimaryProto range req (primaryMetadata p clientIP)).1 clientIP).1.

(** ** The spans of the eBPF bridge *)

Record ebpfStatsSink := mk_sink { host : string; cluster : string; hostTags : tagmap }.

Definition put_attr (k v : string) (m : tagmap) : tagmap := if String.eqb v "" then m else <[k := v]> m.

Definition stamp_ebpf (sk : ebpfStatsSink) (keys : list string) (attrs : tagmap) : tagmap :=
  foldl (fun m k =>
           if has_prefix "host.tag." k
           then put_attr (Concentrator.PrimaryTagPrefix +:+ k) (tag (trim_prefix "host.tag." k) (hostTags sk)) m
           else m)
    (put_attr (Concentrator.PrimaryTagPrefix +:+ "kube_cluster_name") (cluster sk)
       (put_attr (Concentrator.PrimaryTagPrefix +:+ "host") (host sk) (<[Concentrator.SourceAttr := "ebpf"]> attrs)))
    keys.

(** [Push]: None is the panic of a nil span. *)
Fixpoint Push (sk : ebpfStatsSink) (spans : list (option Span)) (c : Concentrator.Concentrator)
    : option Concentrator.Concentrator :=
  match spans with
  | [] => Some c
  | sp :: spans =>
      match Obfuscate.Apply sp with
      | None => None
      | Some s =>
          Push sk spans
            (Add (Some (set_attributes (stamp_ebpf sk (Concentrator.PrimaryTagKeys c) (Attributes s)) s)) c)
      end
  end.

(** ** The configuration that is pulled *)

Definition ApplyAPMRemoteConfig (rates : list Sampler.ServiceRate) (tags : list Processing.Rule) (w : Apm)
    : res unit * Apm :=
  let '(r, s) := Sampler.ApplyServiceRates rates (apmSampler w) in
  let w := set_sampler s w in
  match r with
  | Err e => (Err e, w)
  | Ok _ => let '(r, p) := Processing.UpdateRemote tags (apmProcessor w) in (r, set_processor p w)
  end.

Definition ApplyAPMPrimaryTags (keys : list string) (s : St (W := Apm)) : res unit * St (W := Apm) :=
  let '(r, p) := Stamp.ApplyPrimaryTags keys (primary (rcv s)) in
  let s := on_rcv (set_primary p) s in
  match r with
  | Err e => (Err e, s)
  | Ok _ => let '(r, c) := Concentrator.ApplyPrimaryTags keys (apmConc (ext s)) in
            (r, mk_st (rcv s) (set_conc c (ext s)) (resp s))
  end.

(** [PolicyChanged]: the part that switches the statistics. *)
Definition PolicyChanged (modules : list string) (w : Apm) : Apm :=
  let enabled := existsb (String.eqb "APM") modules in
  set_usage (option_map (Usage.SetEnabled enabled) (apmUsage w))
    (set_stats (Statsfwd.SetEnabled enabled (apmStats w)) w).

(** ** The ticker of the statistics *)

Section ticker.
Variable unmarshal : string -> tagmap.   (* json.Unmarshal into a string map *)
Variable marshal : Statsfwd.ApmStatsPayload -> res string.

(** A tick: the groups of the concentrator are sent.  None is out of fuel. *)
Definition tick (fuel : nat) (srv : Statsfwd.server) (now : Z) (w : Apm)
    : option (option SendQueue.goerr * Apm * list string) :=
  let '(groups, c) := Concentrator.Flush unmarshal (apmConc w) in
  match Statsfwd.Send marshal fuel srv now groups (apmStats w) with
  | None => None
  | Some (err, f, posted) => Some (err, set_stats f (set_conc c w), posted)
  end.

(** [flushUsage], with no request in between; [send] is the outcome of the POST. *)
Definition flushUsage (now : Z) (send : Usage.Payload -> option string) (w : Apm) : option string * Apm :=
  match apmUsage w with
  | None => (None, w)
  | Some a => let '(e, a) := Usage.Flush now send a in (e, set_usage (Some a) w)
  end.
End ticker.
End pipeline.

Arguments Apm : clear implicits.
End Pipeline.
