(* ===== verification/PipelineProps.v ===== *)
(** * Correctness of the APM pipeline

    The composition of the components behind the receiver: errors and slow traces are
    forwarded whole, every span is counted whatever is sampled, a renamed service is
    renamed everywhere, and no sequence of requests and configurations breaks the
    bounds of the components or makes the sampler panic. *)

From S2P Require Import Prelude GoStrings Bolt SendQueue Wire Processing ProcessingProps Usage GoFloat Sampler.
From S2P Require Import SamplerProps Concentrator Eff Otlp OtlpProps Stamp StampProps OtlpHttp OtlpHttpFacts.
From S2P Require Import OtlpHttpProps OtlpExample OtlpSamplingProps Apm Pipeline.
#[local] Open Scope Z_scope.

Import Otlp OtlpHttp Pipeline.

(** ** Obfuscation *)

(** An attribute that obfuscation leaves alone. *)
Definition plain (k : string) : bool :=
  negb (existsb (String.eqb k) (Obfuscate.sqlAttrs ++ Obfuscate.urlAttrs ++ Obfuscate.piiAttrs)).

Lemma plain_attr a k : plain k = true -> tag k (Obfuscate.apply_attrs a) = tag k a.
Proof.
  unfold plain. rewrite !existsb_app, !negb_orb, !andb_true_iff, !negb_true_iff. intros (Hs & Hu & Hp).
  pose proof sqlAttrs_nodup. pose proof urlAttrs_nodup.
  unfold tag, Obfuscate.apply_attrs. rewrite redact_all_lookup, Hp.
  by rewrite !rewrite_all_lookup, Hs, Hu by done.
Qed.

Lemma plain_first keys a :
  forallb plain keys = true -> Concentrator.first_attr keys (Obfuscate.apply_attrs a) = Concentrator.first_attr keys a.
Proof.
  induction keys as [|k keys IH]; [done|]. cbn [forallb Concentrator.first_attr]. intros [Hk Hks]%andb_true_iff.
  by rewrite plain_attr, IH.
Qed.

Lemma plain_primary k : plain (Concentrator.PrimaryTagPrefix +:+ k) = true.
Proof. reflexivity. Qed.

Section counted.
Context `{SpanJson} (unspecified_ip : string -> bool) (bin_of : f64 -> Z).
Abbreviation Add := (Pipeline.Add unspecified_ip bin_of).

Lemma obfuscated_key keys s a :
  a = Obfuscate.apply_attrs (Attributes s) ->
  Concentrator.key_of unspecified_ip marshal_tags keys (set_attributes a s) =
  Concentrator.key_of unspecified_ip marshal_tags keys s.
Proof.
  intros ->. unfold Concentrator.key_of, Concentrator.client_side, Concentrator.spanSource, Concentrator.resourceOf,
    Concentrator.httpStatusOf, Concentrator.peerOf. cbn [Attributes set_attributes Kind Name ServiceName].
  rewrite !plain_first, !plain_attr by reflexivity. f_equal. f_equal.
  unfold Concentrator.primary_tags. generalize (∅ : tagmap). induction keys as [|k keys IH]; intros m; [done|].
  cbn [foldl]. cbn [Attributes set_attributes]. rewrite plain_attr by apply plain_primary. apply IH.
Qed.

(** Obfuscation changes no statistics: a span is counted in the same group with the
    same numbers whether or not it was obfuscated, because no attribute that is
    rewritten is read when a span is counted. *)
Theorem obfuscation_uncounted s c : Add (Obfuscate.Apply (Some s)) c = Add (Some s) c.
Proof.
  unfold Pipeline.Add, Obfuscate.Apply. destruct (decide (Attributes s = ∅)); [done|].
  unfold Concentrator.Add. rewrite obfuscated_key by done.
  assert (Concentrator.span_namespace (set_attributes (Obfuscate.apply_attrs (Attributes s)) s) =
          Concentrator.span_namespace s) as Hn.
  { unfold Concentrator.span_namespace, Concentrator.client_side, Concentrator.spanSource.
    cbn [Attributes set_attributes Kind Namespace]. by rewrite !plain_attr by reflexivity. }
  unfold Concentrator.find_group, Concentrator.new_group. by rewrite Hn.
Qed.
End counted.

Lemma bounded_flush now send a : Usage.bounded a -> Usage.bounded (Usage.Flush now send a).2.
Proof.
  intros Hb. unfold Usage.Flush, Usage.flush_begin. case_match; [done|].
  pose proof (Usage.bounded_prune (Usage.minute_of now) a Hb) as Hp.
  cbn [Usage.Rows]. destruct (Usage.snapshot_row <$> _); [done|]. case_match; [done|].
  by apply Usage.bounded_flush_end.
Qed.

Section pipeline.
Context {E B : Type} `{KV B} `{JsonText} `{SpanJson} `{Protobuf}.
Variable Now : E -> Z * E.
Variable PostRaw : string -> string -> string -> E -> option string * E.
Variable EnqueueRaw : option (string -> string -> E -> option string * E).
Variables (DebugConfig SDKRemoteConfig : string -> string -> string -> E -> res string * E).
Variable ToLower : string -> string.
Variable range : tagmap -> list (string * string).
Variable format_float : f64 -> string.
Variable unspecified_ip : string -> bool.
Variable bin_of : f64 -> Z.
Variables (decode : string -> res (option Processing.jobject)) (encode : Processing.jobject -> res string).
Variables (gunzip : string -> body_end -> option (string * body_end)) (EqualFold : string -> string -> bool).

Abbreviation Apm := (Pipeline.Apm E B).
Abbreviation St := (OtlpHttp.St (W := Apm)).
Abbreviation hooks := (Pipeline.hooks (B := B) Now PostRaw EnqueueRaw DebugConfig SDKRemoteConfig ToLower unspecified_ip
  bin_of decode encode).
Abbreviation Add := (Pipeline.Add unspecified_ip bin_of).
Abbreviation KeepForScope := (Pipeline.KeepForScope Now ToLower).
Abbreviation ProcessTraces := (Pipeline.ProcessTraces decode encode).
Abbreviation prepared := (Pipeline.prepared range).
Abbreviation trace_agent := (fun u => OtlpHttp.trace_agent (hooks u) range ToLower format_float).
Abbreviation traces_fn := (fun u => OtlpHttp.traces_fn (hooks u) range ToLower format_float).

(** *** The steps of the world *)

Lemma on_out_fst {A} (f : E -> A * E) (w : Apm) : exists a e, on_out f w = (a, set_out e w).
Proof. unfold on_out. destruct (f (out w)) as [a e]. by exists a, e. Qed.

Lemma forwardRaw_out sg ct body (w : Apm) :
  exists r e, forwardRaw PostRaw EnqueueRaw sg ct body w = (r, set_out e w).
Proof.
  unfold forwardRaw. case_match; [|apply on_out_fst]. destruct EnqueueRaw; [apply on_out_fst|].
  exists (Some "logs WAL unavailable"), (out w). by destruct w.
Qed.

Lemma tap_counts spans (w : Apm) :
  tap unspecified_ip bin_of spans w = set_conc (foldl (fun c s => Add (Some s) c) (apmConc w) spans) w.
Proof.
  unfold tap. f_equal. generalize (apmConc w). induction spans as [|s spans IH]; intros c; [done|].
  cbn [foldl]. by rewrite obfuscation_uncounted, IH.
Qed.

(** One question to the sampler. *)
Lemma KeepForScope_spec id sv env rs st k dur (w : Apm) :
  SamplerProps.sampler_inv (apmSampler w) ->
  exists b e s', KeepForScope id sv env rs st k dur w = (Some b, set_sampler s' (set_out e w)) /\
    SamplerProps.sampler_inv s' /\ Sampler.slowThreshold s' = Sampler.slowThreshold (apmSampler w) /\
    (Sampler.exceptional st dur (apmSampler w) = true -> b = true).
Proof.
  intros Hs. unfold Pipeline.KeepForScope. destruct (Now (out w)) as [now e].
  destruct (SamplerProps.keep_call_inv ToLower (SamplerProps.mk_call now id sv env rs st k dur) (apmSampler w) Hs) as (b & s' & Ek & Hs' & Hb).
  pose proof (SamplerProps.keep_call_frame _ _ _ _ _ Ek) as Hf. unfold SamplerProps.keep_call in Ek. cbn in Ek.
  cbn [apmSampler set_out]. rewrite Ek. by exists b, e, s'.
Qed.

(** *** Statistics *)

Definition same_conc (s s' : St) : Prop := apmConc (ext s') = apmConc (ext s) /\ primary (rcv s') = primary (rcv s).
#[local] Instance same_conc_preorder : PreOrder same_conc.
Proof. split; [done|]. intros s1 s2 s3 [] []. split; etrans; done. Qed.

Lemma same_conc_call {A} (f : Apm -> A * Apm) :
  (forall w, apmConc (f w).2 = apmConc w) -> moves same_conc (call f).
Proof. intros Hf s. unfold call. pose proof (Hf (ext s)). by destruct (f (ext s)). Qed.

Lemma KeepForScope_conc id sv env rs st k dur (w : Apm) :
  apmConc (KeepForScope id sv env rs st k dur w).2 = apmConc w.
Proof.
  unfold Pipeline.KeepForScope. destruct (Now (out w)) as [now e].
  by destruct (Sampler.KeepForScope _ _ _ _ _ _ _ _ _ _) as [[b s]|].
Qed.

Lemma on_out_conc {A} (f : E -> A * E) (w : Apm) : apmConc (on_out f w).2 = apmConc w.
Proof. by destruct (on_out_fst f w) as (a & e & ->). Qed.

(** Nothing but the tap changes the concentrator. *)
Lemma same_conc_handlers u : handler_moves (untapped (hooks u)) same_conc.
Proof.
  split; [split|..].
  - intros id sv env rs st k dur s. change (same_conc s (call_sampler (KeepForScope id sv env rs st k dur) s).2).
    unfold call_sampler. pose proof (KeepForScope_conc id sv env rs st k dur (ext s)).
    by destruct (KeepForScope _ _ _ _ _ _ _ (ext s)).
  - apply same_conc_call. intros w. apply on_out_conc.
  - by intros.
  - done.
  - intros f. by apply moves_modify.
  - intros f _. by apply moves_modify.
  - intros spans. by apply same_conc_call.
  - intros f sg ct body [= <-]. apply same_conc_call. intros w.
    by destruct (forwardRaw_out sg ct body w) as (r & e & ->).
  - intros f ct body [= <-]. by apply same_conc_call.
  - intros f o s. cbn. destruct u; [|done]. intros [= <-]. unfold Observe. split; [|done]. cbn.
    destruct (apmUsage (ext s)); [|done]. by destruct (Now (out (ext s))).
Qed.

(** The agent on a protobuf body: what is counted, and what is asked. *)
Lemma agent_proto u body ct ip s out s' req :
  ct <> ctJSON -> unmarshalOTLP body ct = Some req ->
  trace_agent u body ct ip s = (Some out, s') ->
  let req' := prepared (primary (rcv s)) req ip in
  exists n kept s1,
    call_tap (Some (tap unspecified_ip bin_of)) (convertResourceSpans format_float (req_ResourceSpans req')) s
      = (Some tt, s1) /\
    filterScopeSampledSpans req' (sampleTraceScope (hooks u)) (Some (security_trace (hooks u))) s1
      = (Some (n, kept), s') /\
    out = if n =? 0 then None else Some (default body (marshalOTLP kept ct)).
Proof.
  intros Hct Hreq. unfold OtlpHttp.trace_agent. cbn [apmTap samplers Pipeline.hooks SetScopeTraceSampler traceSampler isSome negb andb].
  rewrite (proj2 (String.eqb_neq ct ctJSON) Hct), Hreq.
  intros (p & s0 & Hp & E1)%eff_bind_Some. unfold read in Hp. injection Hp as <- <-.
  unfold Pipeline.prepared. destruct (stampPrimaryProto range req _) as [req1 b1].
  cbn [fst]. destruct (enrichResourceAttrsProto _ req1 ip) as [req2 b2]. cbn [fst].
  revert E1. intros ([] & s1 & Ht & ([n kept] & s2 & Hf & E1)%eff_bind_Some)%eff_bind_Some.
  exists n, kept, s1. split; [exact Ht|]. injection E1 as <- <-. split; [exact Hf|].
  destruct (n =? 0); [done|]. by rewrite !orb_true_r.
Qed.

(** The tap counts every span, and sampling does not touch the concentrator. *)
Lemma agent_counts u body ct ip s out s' req :
  ct <> ctJSON -> unmarshalOTLP body ct = Some req ->
  trace_agent u body ct ip s = (Some out, s') ->
  apmConc (ext s') = foldl (fun c sp => Add (Some sp) c) (apmConc (ext s))
    (convertResourceSpans format_float (req_ResourceSpans (prepared (primary (rcv s)) req ip))).
Proof.
  intros Hct Hreq Ea. destruct (agent_proto _ _ _ _ _ _ _ _ Hct Hreq Ea) as (n & kept & s1 & Ht & Hf & _).
  pose proof (walk_filter (untapped (hooks u)) same_conc (hm_agent _ _ (same_conc_handlers u))
    (prepared (primary (rcv s)) req ip) s1) as [Hm _].
  change (apmConc (ext (filterScopeSampledSpans (prepared (primary (rcv s)) req ip) (sampleTraceScope (hooks u))
    (Some (security_trace (hooks u))) s1).2) = apmConc (ext s1)) in Hm.
  rewrite Hf in Hm. cbn in Hm. rewrite Hm. clear Hm Hf. revert Ht. unfold call_tap.
  destruct (convertResourceSpans _ _) as [|sp l]; [by intros [= <-]|].
  unfold call. intros [= <-]. cbn [ext]. by rewrite tap_counts.
Qed.

(** The relation at each end of a bind. *)
Lemma moved_bind {S A C} (R : relation S) (m : eff S A) (f : A -> eff S C) s c s' :
  moves R m -> (m ≫= f) s = (Some c, s') -> exists a s1, R s s1 /\ m s = (Some a, s1) /\ f a s1 = (Some c, s').
Proof.
  intros Hm (a & s1 & E1 & E2)%eff_bind_Some. exists a, s1. pose proof (Hm s) as Hs. by rewrite E1 in Hs.
Qed.

(** What is left to do after the agent leaves the concentrator alone. *)
Lemma after_agent u body ct ip st o st' :
  trace_processed (hooks u) range ToLower format_float body ct ip st = (Some o, st') ->
  exists out s1, trace_agent u body ct ip st.1 = (Some out, s1) /\ same_conc s1 st'.1.
Proof.
  unfold trace_processed. cbn [OtlpHttp.forwardRaw Pipeline.hooks]. unfold trace_forward.
  intros (out & st1 & Ea & E1)%eff_bind_Some. unfold lift in Ea.
  destruct (OtlpHttp.trace_agent _ _ _ _ body ct ip st.1) as [[a|] s1] eqn:Eg; [|done].
  injection Ea as -> <-. exists out, s1. split; [done|].
  pose proof (same_conc_handlers u) as Hh. pose proof (walk_accept _ same_conc Hh ct) as Hacc.
  assert (moves (with_obs same_conc) (match out with
    | Some outBody => lift (call (forwardRaw PostRaw EnqueueRaw "traces" ct outBody)) ≫= fun e =>
        match e with
        | Some e => observing set_forward_failed;; mret (502, Some ("forward traces: " +:+ e))
        | None =>
            when (observed (hooks u))
              ('(spans, ok) ← lift (of_option (traceUsageSpans range ToLower format_float outBody ct));
               observing (set_retained spans ok (str_len outBody)));;
            lift (accept_traces ct)
        end
    | None => lift (accept_traces ct)
    end)) as Hm.
  { pose proof (walk_lift same_conc (accept_traces ct) Hacc). destruct out as [b|]; [|done].
    pose proof (walk_lift same_conc _ (hm_forward _ _ Hh _ "traces" ct b eq_refl)) as Hf.
    pose proof (fun f => walk_observing same_conc f) as Hob.
    apply moves_bind; [exact _|exact Hf|]. intros [e|]; walk; try apply Hob.
    apply walk_lift. walk. }
  specialize (Hm (s1, st.2)). destruct out as [b|]; cbn beta iota in E1; rewrite E1 in Hm; exact Hm.
Qed.

(** C2: the statistics count everything.  Whenever the handler of a trace request in
    protobuf returns, the concentrator has been handed exactly the spans of the request
    as the rules leave it, with the verified metadata of the connection, in their order:
    whatever was sampled away, and whether or not the gateway took the rest. *)
Theorem statistics_complete u body ct ip s o s' processed req :
  ct <> ctJSON -> (ProcessTraces ct body (ext s)).1 = Ok processed -> unmarshalOTLP processed ct = Some req ->
  traces_fn u body ct ip s = (Some o, s') ->
  apmConc (ext s') = foldl (fun c sp => Add (Some sp) c) (apmConc (ext s))
    (convertResourceSpans format_float (req_ResourceSpans (prepared (primary (rcv s)) req ip))).
Proof.
  intros Hct Hp Hreq. unfold OtlpHttp.traces_fn.
  assert (forall o0, with_observation (hooks u) o0 (trace_body (hooks u) range ToLower format_float body ct ip) s
            = (Some o, s') ->
    apmConc (ext s') = foldl (fun c sp => Add (Some sp) c) (apmConc (ext s))
      (convertResourceSpans format_float (req_ResourceSpans (prepared (primary (rcv s)) req ip)))) as Hw.
  { intros o0. unfold with_observation. destruct (trace_body _ _ _ _ _ _ _ (s, o0)) as [a [s2 o2]] eqn:Eb.
    intros [= -> Hs']. assert (apmConc (ext s') = apmConc (ext s2)) as ->.
    { pose proof (hm_observe _ _ (same_conc_handlers u)) as Ho. cbn in Ho. subst s'.
      destruct u; [|done]. by apply (Ho _ o2 s2 eq_refl). }
    clear Hs' s'. revert Eb. unfold trace_body. cbn [traceProcessor Pipeline.hooks].
    intros (r & st1 & E1 & E2)%eff_bind_Some. unfold lift, call in E1. cbn [fst snd] in E1.
    rewrite (surjective_pairing (ProcessTraces ct body (ext s))), Hp in E1.
    cbn [snd Pipeline.ProcessTraces] in E1. injection E1 as <- <-. cbn beta iota in E2.
    apply (moved_bind (with_obs same_conc)) in E2 as ([] & st2 & Hst & _ & E2).
    - cbn in Hst. destruct (after_agent _ _ _ _ _ _ _ E2) as (out & s3 & Ea & Hs3). cbn in Ea.
      destruct Hs3 as [Hs3 _]. cbn in Hs3. rewrite Hs3.
      destruct Hst as [Hc Hpr]. cbn in Hc, Hpr. rewrite (agent_counts _ _ _ _ _ _ _ _ Hct Hreq Ea), Hc, Hpr. by destruct s.
    - pose proof (fun f => walk_observing same_conc f) as Hob. walk; try apply Hob. apply walk_lift. walk. }
  destruct (observed (hooks u)); [|apply Hw].
  intros ([spans ok] & s1 & E1 & E2)%eff_bind_Some. destruct (traceUsageSpans _ _ _ body ct); [|done].
  injection E1 as -> <-. by eapply Hw.
Qed.

(** *** Errors and slow traces *)

(** The sampler is sound and has this threshold. *)
Definition sound (slow : Z) (s : St) : Prop :=
  SamplerProps.sampler_inv (apmSampler (ext s)) /\ Sampler.slowThreshold (apmSampler (ext s)) = slow.

Definition exception (slow : Z) (q : Question) : Prop :=
  q_status q = 2 \/ 0 < slow <= q_duration q.

Lemma exception_exceptional s q :
  exception (Sampler.slowThreshold s) q -> Sampler.exceptional (q_status q) (q_duration q) s = true.
Proof.
  unfold Sampler.exceptional. intros [->|[Hpos Hle]]; [done|].
  by rewrite (proj2 (Z.ltb_lt _ _) Hpos), (proj2 (Z.leb_le _ _) Hle), orb_true_r.
Qed.

Lemma tap_sound slow spans (s s' : St) :
  call_tap (Some (tap unspecified_ip bin_of)) spans s = (Some tt, s') -> sound slow s -> sound slow s'.
Proof. unfold call_tap. destruct spans; by intros [= <-]. Qed.

Lemma pipeline_insists u slow :
  insists (sampleTraceScope (hooks u)) (Some (security_trace (hooks u))) (sound slow) (exception slow).
Proof.
  apply sampler_insists.
  - intros q s b s' [Hs Ht]. unfold sampleTraceScope. cbn [samplers Pipeline.hooks SetScopeTraceSampler scopeTraceSampler].
    unfold call_sampler.
    destruct (KeepForScope_spec (q_id q) (q_service q) (q_env q) (q_resource q) (q_status q) (q_kind q) (q_duration q)
      (ext s) Hs) as (k & e & sm & -> & Hs' & Ht' & Hk).
    intros [= <- <-]. split; [split; cbn; [done|by rewrite Ht']|]. intros HP. apply Hk, exception_exceptional. by rewrite Ht.
  - intros id marked s b s' sec [= <-] [Hs Ht]. unfold security_trace. case_match; [by intros [= <- <-]|].
    intros (now & s1 & Hn & E1)%eff_bind_Some. unfold call in Hn. cbn [OtlpHttp.Now Pipeline.hooks] in Hn.
    destruct (on_out_fst Now (ext s)) as (a & e & Eo). rewrite Eo in Hn. injection Hn as <- <-.
    destruct (securityTrace _ id marked _) as [k t']. by injection E1 as <- <-.
Qed.

(** C1: errors and slow traces are forwarded whole.  When the handler of a protobuf
    request hands something on, each span of a trace in which some span failed or took
    longer than the threshold is in it: the body is not dropped, and it is the encoding
    of a request that holds the span, or the body as it came when that cannot be encoded. *)
Theorem exceptions_forwarded u body ct ip s out s' req sp q :
  ct <> ctJSON -> unmarshalOTLP body ct = Some req -> SamplerProps.sampler_inv (apmSampler (ext s)) ->
  trace_agent u body ct ip s = (Some out, s') ->
  sp ∈ req_spans (prepared (primary (rcv s)) req ip) -> q ∈ questions (prepared (primary (rcv s)) req ip) ->
  q_id q = Hex.EncodeToString (sp_TraceId sp) -> exception (Sampler.slowThreshold (apmSampler (ext s))) q ->
  exists kept, out = Some (default body (marshalOTLP kept ct)) /\ sp ∈ req_spans kept.
Proof.
  intros Hct Hreq Hs Ea Hsp Hq Hid Hex.
  destruct (agent_proto _ _ _ _ _ _ _ _ Hct Hreq Ea) as (n & kept & s1 & Ht & Hf & ->).
  assert (sound (Sampler.slowThreshold (apmSampler (ext s))) s1) as Hs1.
  { eapply tap_sound; [exact Ht|]. by split. }
  destruct (filter_result _ _ _ _ _ _ _ _ _ (pipeline_insists u _) Hs1 Hf) as (_ & Hn & Hkept).
  pose proof (Hkept sp q Hsp Hq Hid Hex) as Hin. exists kept. split; [|done].
  assert (n <> 0) as Hn0. { intros ->. destruct (req_spans kept); [by apply not_elem_of_nil in Hin|]. cbn in Hn. lia. }
  by rewrite (proj2 (Z.eqb_neq n 0) Hn0).
Qed.

(** *** The pipeline as a state machine *)

Variable unmarshal_tags : string -> tagmap.
Variable marshal_stats : Statsfwd.ApmStatsPayload -> res string.

Definition on_ext (f : Apm -> Apm) (s : St) : St := mk_st (rcv s) (f (ext s)) (resp s).

(** A request starts with an empty response; when its handler panics the server goes on
    with the next one. *)
Definition request (u : bool) (r : HttpRequest) (s : St) : St :=
  (OtlpHttp.serve (hooks u) range ToLower format_float gunzip EqualFold r
     (mk_st (rcv s) (ext s) (mk_response [] None ""))).2.

Inductive step (u : bool) : relation St :=
  | step_request r s : step u s (request u r s)
  | step_sampling rate slow s :
      step u s (on_ext (fun w => set_sampler (Sampler.Apply rate slow (apmSampler w)).2 w) s)
  | step_sampling_policy p s :
      step u s (on_ext (fun w => set_sampler (Sampler.ApplyPolicy p (apmSampler w)).2 w) s)
  | step_processing pol s :
      step u s (on_ext (fun w => set_processor (Processing.Update pol (apmProcessor w)).2 w) s)
  | step_remote rates tags s : step u s (on_ext (fun w => (ApplyAPMRemoteConfig rates tags w).2) s)
  | step_primary keys s : step u s (ApplyAPMPrimaryTags keys s).2
  | step_policy modules s : step u s (on_ext (PolicyChanged modules) s)
  | step_push sk spans c s :
      Push unspecified_ip bin_of sk spans (apmConc (ext s)) = Some c -> step u s (on_ext (set_conc c) s)
  | step_tick fuel srv now err w posted s :
      tick unmarshal_tags marshal_stats fuel srv now (ext s) = Some (err, w, posted) ->
      step u s (on_ext (fun _ => w) s)
  | step_usage now send s : step u s (on_ext (fun w => (flushUsage now send w).2) s).

Record Inv (s : St) : Prop := {
  inv_security : OtlpHttpProps.bounded (securityTraces (rcv s));
  inv_sampler : SamplerProps.sampler_inv (apmSampler (ext s));
  inv_rules : ProcessingProps.rules_valid (apmProcessor (ext s));
  inv_usage : forall a, apmUsage (ext s) = Some a -> Usage.bounded a;
  inv_keys : Stamp.primaryKeys (primary (rcv s)) = Concentrator.primaryKeys (apmConc (ext s));
  inv_few : Z.of_nat (length (Concentrator.primaryKeys (apmConc (ext s)))) <= 2;
}.

Definition keeps_inv (s s' : St) : Prop := Inv s -> Inv s'.
#[local] Instance keeps_inv_preorder : PreOrder keeps_inv.
Proof. split; [by intros s; unfold keeps_inv|]. intros s1 s2 s3. unfold keeps_inv. auto. Qed.

Lemma Inv_same (s s' : St) :
  securityTraces (rcv s') = securityTraces (rcv s) -> primary (rcv s') = primary (rcv s) ->
  apmSampler (ext s') = apmSampler (ext s) -> apmProcessor (ext s') = apmProcessor (ext s) ->
  apmUsage (ext s') = apmUsage (ext s) ->
  Concentrator.primaryKeys (apmConc (ext s')) = Concentrator.primaryKeys (apmConc (ext s)) -> keeps_inv s s'.
Proof. intros E1 E2 E3 E4 E5 E6 []. split; by rewrite ?E1, ?E2, ?E3, ?E4, ?E5, ?E6. Qed.

Lemma Inv_on_out {A} (f : E -> A * E) : moves keeps_inv (call (on_out f) : eff St A).
Proof. intros s. unfold call. destruct (on_out_fst f (ext s)) as (a & e & ->). by apply Inv_same. Qed.

Lemma Add_keys o c : Concentrator.primaryKeys (Add o c) = Concentrator.primaryKeys c.
Proof. unfold Pipeline.Add, Concentrator.Add. destruct o; [|done]. by case_match. Qed.

Lemma Adds_keys l c : Concentrator.primaryKeys (foldl (fun c s => Add (Some s) c) c l) = Concentrator.primaryKeys c.
Proof. revert c. induction l as [|s l IH]; intros c; [done|]. cbn [foldl]. by rewrite IH, Add_keys. Qed.

Lemma Push_keys sk spans c c' :
  Push unspecified_ip bin_of sk spans c = Some c' -> Concentrator.primaryKeys c' = Concentrator.primaryKeys c.
Proof.
  revert c. induction spans as [|sp spans IH]; intros c; cbn [Push]; [by intros [= <-]|].
  destruct (Obfuscate.Apply sp); [|done]. intros ->%IH. apply Add_keys.
Qed.

Lemma inv_handlers u : handler_moves (hooks u) keeps_inv.
Proof.
  split; [split|..].
  - intros id sv env rs st k dur s Hi. change (Inv (call_sampler (KeepForScope id sv env rs st k dur) s).2).
    unfold call_sampler. destruct (KeepForScope_spec id sv env rs st k dur (ext s) (inv_sampler s Hi))
      as (b & e & s' & -> & Hs' & _). destruct Hi. by split.
  - apply Inv_on_out.
  - intros now id marked s []. split; try done. by apply securityTrace_bounded.
  - intros f spans [= <-] s. unfold call. cbn [snd]. rewrite tap_counts.
    apply Inv_same; try done. cbn. apply Adds_keys.
  - intros f. apply moves_modify. intros s. by apply Inv_same.
  - intros f _. apply moves_modify. intros s. by apply Inv_same.
  - intros spans s. by apply Inv_same.
  - intros f sg ct body [= <-] s. unfold call. destruct (forwardRaw_out sg ct body (ext s)) as (r & e & ->).
    by apply Inv_same.
  - intros f ct body [= <-] s. by apply Inv_same.
  - intros f o s. cbn. destruct u; [|done]. intros [= <-] Hi. unfold Observe.
    destruct (apmUsage (ext s)) as [a|] eqn:Ea; [|by destruct s].
    pose proof (Usage.bounded_Observe) as Hb. destruct (Now (out (ext s))) as [now e].
    destruct Hi as [H1' H2' H3' H4' H5' H6']. split; try done.
    cbn. intros a' [= <-]. by apply Hb, H4'.
Qed.

Lemma request_inv u r s : Inv s -> Inv (request u r s).
Proof.
  intros Hi. unfold request. apply (walk_serve (hooks u) range ToLower format_float gunzip EqualFold keeps_inv).
  - apply inv_handlers.
  - intros f. apply moves_modify. intros s'. by apply Inv_same.
  - intros f a b c [[= <-]|[= <-]]; apply Inv_on_out.
  - by apply (Inv_same s).
Qed.

Lemma sampler_op_inv o (s s' : Sampler.Sampler) :
  SamplerProps.run_op ToLower o s = Some s' -> SamplerProps.sampler_inv s -> SamplerProps.sampler_inv s'.
Proof.
  intros Eo Hs. destruct (SamplerProps.run_ops_inv ToLower [o] s Hs) as (s2 & Er & Hs2).
  cbn in Er. rewrite Eo in Er. by injection Er as ->.
Qed.

(** The receiver and the concentrator accept the same primary tags. *)
Lemma keys_agree seen keys : Concentrator.check_keys seen keys = Ok tt <-> Stamp.keys_ok seen keys = true.
Proof.
  revert seen. induction keys as [|k keys IH]; intros seen; [done|]. cbn.
  destruct (bool_decide (k ∈ seen)); [done|]. destruct (PrimaryTags.ValidKey k); [apply IH|done].
Qed.

Lemma primary_inv keys s : Inv s -> Inv (ApplyAPMPrimaryTags keys s).2.
Proof.
  intros []. unfold ApplyAPMPrimaryTags, Stamp.ApplyPrimaryTags, Concentrator.ApplyPrimaryTags.
  destruct (2 <? Z.of_nat (length keys)) eqn:El; [by split|]. apply Z.ltb_ge in El.
  destruct (Stamp.keys_ok ∅ keys) eqn:Ek; [|by split]. apply keys_agree in Ek. rewrite Ek. by split.
Qed.

Lemma step_inv u s s' : step u s s' -> Inv s -> Inv s'.
Proof.
  destruct 1; intros Hi.
  - by apply request_inv.
  - destruct Hi. split; try done. by apply (sampler_op_inv (SamplerProps.OApply rate slow) (apmSampler (ext s))).
  - destruct Hi. split; try done. by apply (sampler_op_inv (SamplerProps.OPolicy p) (apmSampler (ext s))).
  - destruct Hi. split; try done. by apply (ProcessingProps.run_update_valid _ (ProcessingProps.OPolicy pol)).
  - destruct Hi as [H1' H2' H3' H4' H5' H6']. unfold on_ext, ApplyAPMRemoteConfig.
    pose proof (sampler_op_inv (SamplerProps.ORates rates) _ _ eq_refl H2') as Hs. cbn in Hs.
    destruct (Sampler.ApplyServiceRates rates _) as [[x|e] sm]; [|by split].
    pose proof (ProcessingProps.run_update_valid _ (ProcessingProps.ORemote tags) H3') as Hp. cbn in Hp.
    cbn [apmProcessor set_sampler].
    destruct (Processing.UpdateRemote tags _) as [r p]. by split.
  - by apply primary_inv.
  - destruct Hi as [H1' H2' H3' H4' H5' H6']. split; try done. cbn. intros a.
    destruct (apmUsage (ext s)) as [a0|]; [|done]. cbn. intros [= <-]. destruct (H4' a0 eq_refl). by constructor.
  - revert Hi. apply Inv_same; try done. cbn. by eapply Push_keys.
  - revert Hi. unfold tick in *. destruct (Concentrator.Flush _ _) as [groups c] eqn:Ef.
    apply (f_equal snd) in Ef. cbn in Ef. subst c.
    destruct (Statsfwd.Send _ _ _ _ _ _) as [[[? ?] ?]|]; [|done].
    match goal with Ht : Some _ = Some _ |- _ => injection Ht as <- <- <- end. by apply Inv_same.
  - destruct Hi as [H1' H2' H3' H4' H5' H6']. cbn. unfold on_ext, flushUsage.
    destruct (apmUsage (ext s)) as [a|] eqn:Ea; [|by split; cbn; rewrite ?Ea].
    pose proof (bounded_flush now send a (H4' a eq_refl)) as Hb. destruct (Usage.Flush now send a) as [e a'].
    split; try done. cbn. by intros a2 [= <-].
Qed.

(** The process as it starts. *)
Definition started (a : string) (maxBody : Z) (cors : list string) (p : Primary) (rate : f64) (slow : Z)
    (stats : Statsfwd.Forwarder B) (session : option string) (now : Z) (e : E) : St :=
  mk_st (set_primary p (NewHTTPReceiver a maxBody cors))
    (mk_apm (Processing.mk_processor None None) (Sampler.New rate slow) Concentrator.New stats
       (option_map (fun id => Usage.New id now) session) e)
    (mk_response [] None "").

Lemma started_inv a maxBody cors p rate slow stats session now e :
  Stamp.primaryKeys p = [] -> Inv (started a maxBody cors p rate slow stats session now e).
Proof.
  intros Hp. split; cbn.
  - rewrite map_size_empty. unfold securityCap. lia.
  - done.
  - apply ProcessingProps.rules_valid_new.
  - intros u. destruct session; [|done]. cbn. intros [= <-]. apply Usage.bounded_New.
  - done.
  - lia.
Qed.

(** C3: whatever requests, configurations, spans of the bridge and ticks come, in any
    order, the components stay consistent with each other: every table keeps its bound,
    the rules in force are valid, the receiver and the concentrator have the same at
    most two primary tags; and the sampler answers every question, so that no request
    dies in it. *)
Theorem pipeline_safe u a maxBody cors p rate slow stats session now e s :
  Stamp.primaryKeys p = [] -> rtc (step u) (started a maxBody cors p rate slow stats session now e) s ->
  Inv s /\
  forall id sv env rs st k dur, exists b w, KeepForScope id sv env rs st k dur (ext s) = (Some b, w).
Proof.
  intros Hp Hr. assert (Inv s) as Hi.
  { pose proof (started_inv a maxBody cors p rate slow stats session now e Hp) as H0'. revert H0'.
    induction Hr as [s|s s1 s2 Hs _ IH]; [done|]. intros Hi. by apply IH, (step_inv u s). }
  split; [done|]. intros id sv env rs st k dur.
  destruct (KeepForScope_spec id sv env rs st k dur (ext s) (inv_sampler s Hi)) as (b & e' & s' & -> & _).
  by eexists _, _.
Qed.
End pipeline.

(** ** Examples *)

Lemma pair_of {A C} (p : A * C) a : p.1 = a -> p = (a, p.2).
Proof. by destruct p; intros <-. Qed.

Module Toy.
Import MemKV.

(** The world: the time, and what was posted. *)
Definition now (e : Z * list string) : Z * (Z * list string) := (e.1, (e.1 + second, e.2)).
Definition post (signal ct body : string) (e : Z * list string) : option string * (Z * list string) :=
  (None, (e.1, e.2 ++ [body])%list).
Definition config (a b c : string) (e : Z * list string) : res string * (Z * list string) := (Err "none", e).
Definition decode (s : string) : res (option Processing.jobject) := Err "json".
Definition encode (j : Processing.jobject) : res string := Err "json".

(** No normal trace is kept, and nothing is slow. *)
Definition state : OtlpHttp.St (W := Pipeline.Apm (Z * list string) bucket) :=
  started "" 0 [] (mk_primary "h1" "" [] ∅ None) f64_zero 0 (Statsfwd.New "" "" "" "" None) None 0 (0, []).

Definition run := OtlpHttp.trace_agent (hooks (B := bucket) now post None config config toy_lower (fun _ => false)
  (fun _ => 0) decode encode false) toy_range toy_lower toy_float "req" ctProto "" state.
Definition handled := OtlpHttp.traces_fn (hooks (B := bucket) now post None config config toy_lower (fun _ => false)
  (fun _ => 0) decode encode false) toy_range toy_lower toy_float "req" ctProto "" state.
End Toy.

Lemma statistics_complete_witness :
  apmConc (ext Toy.handled.2) =
  foldl (fun c sp => Pipeline.Add (fun _ => false) (fun _ => 0) (Some sp) c) Concentrator.New
    (convertResourceSpans toy_float (req_ResourceSpans
       (prepared toy_range (primary (rcv Toy.state)) toy_request ""))).
Proof.
  apply (statistics_complete (B := MemKV.bucket) Toy.now Toy.post None Toy.config Toy.config toy_lower toy_range
    toy_float (fun _ => false) (fun _ => 0) Toy.decode Toy.encode false "req" ctProto "" Toy.state (200, None)
    Toy.handled.2 "req" toy_request).
  - discriminate.
  - vm_compute. reflexivity.
  - vm_compute. reflexivity.
  - apply pair_of. vm_compute. reflexivity.
Defined.

Lemma exceptions_forwarded_witness :
  let sp := strip_span (toy_span "a" "sql" 0) in
  exists kept, default None Toy.run.1 = Some (default "req" (marshalOTLP kept ctProto)) /\ sp ∈ req_spans kept.
Proof.
  set (req' := prepared toy_range (primary (rcv Toy.state)) toy_request "").
  apply (exceptions_forwarded (B := MemKV.bucket) Toy.now Toy.post None Toy.config Toy.config toy_lower toy_range
    toy_float (fun _ => false) (fun _ => 0) Toy.decode Toy.encode false "req" ctProto "" Toy.state _
    Toy.run.2 toy_request _ (default (mk_question "" "" "" "" 0 0 0 false) (head (questions req')))).
  - discriminate.
  - vm_compute. reflexivity.
  - vm_compute. split; discriminate.
  - apply pair_of. vm_compute. reflexivity.
  - vm_compute. right. right. left.
  - vm_compute. left.
  - vm_compute. reflexivity.
  - left. vm_compute. reflexivity.
Defined.

Import MemKV.

Lemma pipeline_safe_witness :
  let s := request Toy.now Toy.post None Toy.config Toy.config toy_lower toy_range toy_float (fun _ => false)
    (fun _ => 0) Toy.decode Toy.encode toy_gunzip toy_fold false (toy_post "/v1/traces" ctProto "req") Toy.state in
  Inv s /\
  forall id sv env rs st k dur, exists b w,
    Pipeline.KeepForScope Toy.now toy_lower id sv env rs st k dur (ext s) = (Some b, w).
Proof.
  apply (pipeline_safe (B := MemKV.bucket) Toy.now Toy.post None Toy.config Toy.config toy_lower toy_range toy_float
    (fun _ => false) (fun _ => 0) Toy.decode Toy.encode toy_gunzip toy_fold (fun _ => ∅) (fun _ => Ok "") false
    "" 0 [] (mk_primary "h1" "" [] ∅ None) f64_zero 0 (Statsfwd.New "" "" "" "" None) None 0 (0, [])).
  - vm_compute. reflexivity.
  - apply rtc_once. apply step_request.
Defined.
