(* ===== verification/PipelineRulesProps.v ===== *)
(** * The rules through the APM pipeline

    What a rule does to a request is what the statistics, the sampler and the gateway
    see: a renamed service has its new name everywhere. *)

From S2P Require Import Prelude GoStrings Bolt SendQueue Wire Processing ProcessingProps Concentrator Eff Otlp.
From S2P Require Import OtlpProps Stamp StampProps OtlpHttp OtlpExample Apm Pipeline.
#[local] Open Scope Z_scope.

Import Otlp OtlpHttp Pipeline.

(** ** The processor's view of a request loses nothing *)

Lemma from_to_value v : from_value (to_value v) = v.
Proof. by destruct v. Qed.

Lemma from_to_attrs l : from_attrs (to_attrs l) = l.
Proof.
  unfold from_attrs, to_attrs. induction l as [|kv l IH]; [done|]. cbn. rewrite IH, from_to_value. by destruct kv.
Qed.

Lemma from_to_span s : from_span (to_span s) = s.
Proof. unfold from_span. cbn. rewrite from_to_attrs. by destruct s. Qed.

Lemma omap_from_to {A C} (f : C -> A) (g : A -> C) (l : list A) :
  (forall a, f (g a) = a) -> omap (option_map f) ((fun a => Some (g a)) <$> l) = l.
Proof. intros Hf. induction l as [|a l IH]; [done|]. cbn. by rewrite Hf, IH. Qed.

Lemma from_to_scope ss : from_scope (to_scope ss) = ss.
Proof. unfold from_scope. cbn. rewrite (omap_from_to _ _ _ from_to_span). by destruct ss. Qed.

Lemma from_to_rs rs : from_rs (to_rs rs) = rs.
Proof.
  unfold from_rs. cbn. rewrite (omap_from_to _ _ _ from_to_scope). destruct rs as [r sc o]. cbn. f_equal.
  destruct r as [[a o']|]; [|done]. cbn. by rewrite from_to_attrs.
Qed.

Lemma from_to_request req : from_request (to_request req) = req.
Proof. unfold from_request. cbn. rewrite (omap_from_to _ _ _ from_to_rs). by destruct req. Qed.

(** ** A renamed service *)

Definition service_key : string := "service.name".

(** As the processor sees the attributes of a resource. *)
Definition renamed (v : string) (attrs : Processing.Attributes AnyValue string) : Prop :=
  existsb (Processing.has_key service_key) attrs = true /\
  Forall (fun a => Processing.has_key service_key a = true ->
            Processing.kv_value <$> a = Some (Processing.StringValue v)) attrs.

(** As the receiver sees them. *)
Definition named (v : string) (l : list KeyValue) : Prop :=
  (exists kv, kv ∈ l /\ Key kv = service_key) /\
  Forall (fun kv => Key kv = service_key -> Value kv = StringValue v) l.

Lemma renamed_set v attrs : renamed v (Processing.setAttribute "" attrs service_key v).
Proof.
  unfold Processing.setAttribute.
  set (l := (fun a => if Processing.has_key service_key a then Processing.set_value v a else a) <$> attrs).
  assert (Forall (fun a => Processing.has_key service_key a = true ->
            Processing.kv_value <$> a = Some (Processing.StringValue v)) l) as Hl.
  { apply Forall_fmap, Forall_true. intros a. cbn. destruct (Processing.has_key service_key a) eqn:Ek; [|by rewrite Ek].
    destruct a; [done|discriminate]. }
  destruct (existsb _ attrs) eqn:Ex.
  - split; [|exact Hl]. apply existsb_exists in Ex as (a & Ha & Hk). apply existsb_exists.
    exists (Processing.set_value v a). split; [|by destruct a].
    apply list_elem_of_In, list_elem_of_fmap. exists a. rewrite Hk. split; [done|by apply list_elem_of_In].
  - split; [rewrite existsb_app; cbn; by rewrite orb_true_r|]. apply Forall_app. split; [done|].
    by constructor.
Qed.

Lemma renamed_process v attrs key action :
  key <> service_key -> renamed v attrs -> renamed v (Processing.processAttribute attrs key action).
Proof.
  intros Hne [Hx Hl]. unfold Processing.processAttribute. split.
  - apply existsb_exists in Hx as (a & Ha & Hk). apply existsb_exists. exists a. split; [|done].
    apply list_elem_of_In, list_elem_of_omap. exists a. split; [by apply list_elem_of_In|].
    destruct (Processing.has_key key a) eqn:Ek; [|done]. destruct a as [kv|]; [|done]. cbn in Hk, Ek.
    apply String.eqb_eq in Hk, Ek. congruence.
  - apply Forall_forall. intros a (b & Hb & E)%list_elem_of_omap. rewrite Forall_forall in Hl.
    destruct (Processing.has_key key b) eqn:Ek.
    + case_match; [done|]. injection E as <-. destruct b as [kv|]; [|done]. cbn in *.
      intros Hk. apply String.eqb_eq in Hk, Ek. congruence.
    + injection E as <-. by apply Hl.
Qed.

(** Every resource of a request is renamed. *)
Definition all_renamed (v : string) (req : PRequest) : Prop :=
  forall rs, Some rs ∈ Processing.resource_spans req ->
    exists res, Processing.rs_resource rs = Some res /\ renamed v (Processing.res_attrs res).

Definition keeps_name (r : Processing.Rule) : Prop :=
  ProcessingProps.rule_ok r /\ Processing.Action r <> "remap_service".

Lemma renamed_resource v r attrs :
  keeps_name r -> renamed v attrs -> renamed v (Processing.apply_to_resource "" r attrs).
Proof.
  intros [Hok Hr] Hn. unfold Processing.apply_to_resource. rewrite (proj2 (String.eqb_neq _ _) Hr).
  destruct (Processing.is_attribute_action (Processing.Action r)) eqn:Ea; [|done].
  apply renamed_process; [|done]. destruct (ProcessingProps.rule_ok_key r Hok (or_introl Ea)) as [_ Hp].
  by intros Ek; rewrite Ek in Hp.
Qed.

Lemma all_renamed_rule v r req : keeps_name r -> all_renamed v req -> all_renamed v (Processing.apply_rule "" r req).
Proof.
  intros Hk Hall. unfold Processing.apply_rule. destruct (Processing.disabled r); [done|].
  intros rs' Hin. cbn in Hin. apply list_elem_of_fmap in Hin as ([rs|] & Heq & Hin); [|done].
  injection Heq as ->. destruct (Hall rs Hin) as (res & Er & Hn). unfold Processing.apply_rule_rs. rewrite Er. cbn.
  destruct (negb _); cbn; [by exists res|]. eexists. split; [done|]. by apply renamed_resource.
Qed.

Lemma all_renamed_remap v r req :
  Processing.disabled r = false -> Processing.Action r = "remap_service" -> Processing.RuleValue r = Some v ->
  Processing.RuleService r = None -> Processing.RuleEnv r = None ->
  all_renamed v (Processing.apply_rule "" r req).
Proof.
  intros Hd Ha Hv Hs He. unfold Processing.apply_rule. rewrite Hd.
  intros rs' Hin. cbn in Hin. apply list_elem_of_fmap in Hin as ([rs|] & Heq & Hin); [|done].
  injection Heq as ->. unfold Processing.apply_rule_rs, Processing.matches. rewrite Hs, He. cbn.
  eexists. split; [done|]. unfold Processing.apply_to_resource. rewrite Ha, Hv. apply renamed_set.
Qed.

Lemma all_renamed_rules v pre r post req :
  Processing.disabled r = false -> Processing.Action r = "remap_service" -> Processing.RuleValue r = Some v ->
  Processing.RuleService r = None -> Processing.RuleEnv r = None -> Forall keeps_name post ->
  all_renamed v (Processing.process "" (pre ++ r :: post) req).
Proof.
  intros Hd Ha Hv Hs He Hpost. unfold Processing.process. rewrite foldl_app. cbn [foldl].
  pose proof (all_renamed_remap v r
    (foldl (fun (req : PRequest) r => Processing.apply_rule "" r req) req pre) Hd Ha Hv Hs He) as Hall.
  revert Hall. generalize (Processing.apply_rule "" r
    (foldl (fun (req : PRequest) r => Processing.apply_rule "" r req) req pre)).
  induction Hpost as [|r' post Hr' Hpost IH]; intros req1 Hall; cbn [foldl]; [done|].
  by apply IH, all_renamed_rule.
Qed.

Lemma renamed_named v attrs : renamed v attrs -> named v (from_attrs attrs).
Proof.
  intros [Hx Hl]. rewrite Forall_forall in Hl. unfold from_attrs. split.
  - apply existsb_exists in Hx as (a & Ha & Hk). destruct a as [kv|]; [|done]. cbn in Hk. apply String.eqb_eq in Hk.
    exists (mk_kv (Processing.kv_key kv) (from_value (Processing.kv_value kv)) (Processing.kv_rest kv)).
    split; [|exact Hk]. apply list_elem_of_omap. exists (Some kv). split; [by apply list_elem_of_In|done].
  - apply Forall_forall. intros kv (a & Ha & E)%list_elem_of_omap. destruct a as [k|]; [|done].
    cbn in E. injection E as <-. cbn. intros Hk. specialize (Hl _ Ha). cbn in Hl.
    rewrite (proj2 (String.eqb_eq _ _) Hk) in Hl. specialize (Hl eq_refl). injection Hl as Hv. by rewrite Hv.
Qed.

Lemma named_app v l k : Forall (fun kv => Key kv <> service_key) k -> named v l -> named v (l ++ k).
Proof.
  intros Hk [(kv & Hin & Hkv) Hl]. split.
  - exists kv. rewrite elem_of_app. auto.
  - apply Forall_app. split; [done|]. eapply Forall_impl; [exact Hk|]. by intros kv' Hne E.
Qed.

Lemma named_strip v l : named v l -> named v (stripPrimaryProto l).1.
Proof.
  intros [(kv & Hin & Hkv) Hl]. rewrite Forall_forall in Hl. unfold stripPrimaryProto. cbn. split.
  - exists kv. rewrite list_elem_of_filter, Hkv. done.
  - apply Forall_forall. intros kv' [_ Hin']%list_elem_of_filter. by apply Hl.
Qed.

Lemma named_string_attrs v l : named v l -> tag service_key (string_attrs l ∅) = v /\ last_service l = v.
Proof.
  intros [(kv & Hin & Hkv) Hl]. unfold string_attrs, last_service, tag.
  induction l as [|kv' l IH] using rev_ind; [by apply not_elem_of_nil in Hin|].
  rewrite !foldl_app. apply Forall_app in Hl as [Hl Hl']. apply Forall_cons in Hl' as [Hkv' _]. cbn [foldl].
  change "service.name" with service_key. destruct (String.eqb_spec (Key kv') service_key) as [Ek|Ek].
  - rewrite Ek, lookup_insert_eq, (Hkv' Ek). done.
  - rewrite lookup_insert_ne by done. apply IH; [|done].
    apply elem_of_app in Hin as [Hin|Hin]; [done|]. apply list_elem_of_singleton in Hin. by subst.
Qed.

Section prepared.
Variables (range : tagmap -> list (string * string)) (format_float : f64 -> string).
Hypothesis range_perm : forall m, range m ≡ₚ map_to_list m.

Lemma named_flatten v l : named v l -> tag service_key (flattenAttrs format_float l) = v.
Proof.
  intros [(kv & Hin & Hkv) Hl]. unfold tag. induction l as [|kv' l IH] using rev_ind; [by apply not_elem_of_nil in Hin|].
  apply Forall_app in Hl as [Hl Hl']. apply Forall_cons in Hl' as [Hkv' _]. rewrite flattenAttrs_snoc.
  destruct (decide (Key kv' = service_key)) as [Ek|Ek].
  - rewrite Ek. cbn [String.eqb service_key]. rewrite lookup_insert_eq, (Hkv' Ek). done.
  - assert (kv ∈ l) as Hin'.
    { apply elem_of_app in Hin as [Hin|Hin]; [done|]. apply list_elem_of_singleton in Hin. by subst. }
    case_match; [by apply IH|]. rewrite lookup_insert_ne by done. by apply IH.
Qed.

(** The resources of a prepared request: verified metadata and names of pods are added,
    under other keys. *)
Lemma prepared_named v p req ip :
  (forall rs, rs ∈ req_ResourceSpans req -> named v (GetAttributes (rs_Resource rs))) ->
  forall rs, rs ∈ req_ResourceSpans (prepared range p req ip) -> named v (GetAttributes (rs_Resource rs)).
Proof.
  intros Hall. unfold prepared. set (values := primaryMetadata p ip).
  assert (forall rs, rs ∈ req_ResourceSpans (stampPrimaryProto range req values).1 ->
            named v (GetAttributes (rs_Resource rs))) as Hst.
  { intros rs. unfold stampPrimaryProto. cbn. intros ([rs' b] & -> & (rs0 & E & Hin)%list_elem_of_fmap)%list_elem_of_fmap.
    unfold stamp_rs, stamp_resource in E. cbn in E. injection E as -> _. cbn. apply named_app.
    - apply Forall_fmap, Forall_forall. intros [k x] Hk. rewrite range_perm in Hk. apply elem_of_map_to_list in Hk.
      pose proof (primaryMetadata_reserved p ip k (mk_is_Some _ _ Hk)). cbn. by intros ->.
    - apply (named_strip v (res_Attributes (default (mk_resource [] "") (rs_Resource rs0)))).
      specialize (Hall rs0 Hin). by destruct (rs_Resource rs0). }
  unfold enrichResourceAttrsProto. destruct (resolver p) as [r|]; [|exact Hst]. case_match; [exact Hst|]. cbn.
  intros rs (e & -> & (rs1 & -> & Hin)%list_elem_of_fmap)%list_elem_of_fmap. specialize (Hst rs1 Hin).
  unfold enrich_rs. cbn [fst rs_Resource GetAttributes from_option res_Attributes]. apply named_app.
  - apply Forall_fmap_filter. cbn. repeat constructor; done.
  - by destruct (rs_Resource rs1).
Qed.

(** A renamed service is renamed everywhere.  After a rule that renames every
    service, and any later rules that do not rename services again, each span that is
    counted carries the new name, and each question to the sampler is about it. *)
Theorem renamed_everywhere pre r post v p req ip :
  ProcessingProps.rule_ok r -> Processing.disabled r = false ->
  Processing.Action r = "remap_service" -> Processing.RuleValue r = Some v ->
  Processing.RuleService r = None -> Processing.RuleEnv r = None -> Forall keeps_name post ->
  let req' := prepared range p (from_request (Processing.process "" (pre ++ r :: post) (to_request req))) ip in
  Forall (fun s => ServiceName s = v) (convertResourceSpans format_float (req_ResourceSpans req')) /\
  Forall (fun q => q_service q = v) (questions req').
Proof.
  intros Hok Hd Ha Hv Hs He Hpost req'.
  assert (v <> "") as Hne.
  { destruct Hok as [Hc|Hr]; [|unfold Processing.remote_rule_ok in Hr; by rewrite Ha in Hr].
    intros ->. unfold Processing.check_rule in Hc. rewrite Ha, Hv in Hc. cbn in Hc.
    destruct (_ || _); [done|]. by rewrite orb_true_r in Hc. }
  assert (forall rs, rs ∈ req_ResourceSpans req' -> named v (GetAttributes (rs_Resource rs))) as Hn.
  { apply prepared_named. intros rs. unfold from_request. cbn. intros (o & Ho & E)%list_elem_of_omap.
    destruct o as [prs|]; [|done]. injection E as <-.
    destruct (all_renamed_rules v pre r post (to_request req) Hd Ha Hv Hs He Hpost prs Ho) as (res & Er & Hres).
    unfold from_rs. cbn. rewrite Er. cbn. by apply renamed_named. }
  clearbody req'. split; apply Forall_forall.
  - rewrite convertResourceSpans_eq. intros c (rs & Hc & Hin)%list_elem_of_bind.
    apply list_elem_of_fmap in Hc as (sp & -> & _). cbn. change "service.name" with service_key.
    unfold resource_tags. rewrite (named_flatten v _ (Hn rs Hin)). by rewrite (proj2 (String.eqb_neq v "") Hne).
  - intros q (rs & Hq & Hin)%list_elem_of_bind. apply list_elem_of_fmap in Hq as (sp & -> & _).
    unfold question. destruct (samplingScope _ _). cbn. rewrite (proj2 (named_string_attrs v _ (Hn rs Hin))).
    by rewrite (proj2 (String.eqb_neq v "") Hne).
Qed.
End prepared.

Definition xrule : Processing.Rule :=
  Processing.mk_rule "rename" None None None "remap_service" None (Some "checkout").

Lemma renamed_everywhere_witness :
  let req' := prepared toy_range (mk_primary "h1" "" [] ∅ None)
    (from_request (Processing.process "" [xrule] (to_request toy_request))) "" in
  Forall (fun s => ServiceName s = "checkout") (convertResourceSpans toy_float (req_ResourceSpans req')) /\
  Forall (fun q => q_service q = "checkout") (questions req').
Proof.
  apply (renamed_everywhere toy_range toy_float (fun m => reflexivity _) [] xrule [] "checkout").
  - left. reflexivity.
  - reflexivity.
  - reflexivity.
  - reflexivity.
  - reflexivity.
  - reflexivity.
  - constructor.
Defined.
