(* ===== verification/Ingest.v ===== *)
(** * The ingest exporter (internal/otlp: ingest.go, database_contract.go,
      external_inventory.go, application.go; internal/clock/intake.go)

    The client of the gateway: every signal leaves the process through [PostRaw].

    Each call of [PostRaw] is an attempt; the network answers an attempt from its
    number and its request.  Encoders and decoders of JSON and protobuf, the parsers of
    URLs, HTTP dates and RFC 3339 times, SHA-256, the case mapping of Unicode and the
    order in which Go enumerates a map are arguments.  The fields of a payload that the
    exporter only encodes are kept as a string.  Contexts are left out: a request that
    is cancelled is an answer of the network. *)

From S2P Require Import Prelude GoStrings Wire GoFloat Bolt SendQueue Processing Otlp CriTailer Apm.
#[local] Open Scope Z_scope.

(** ** The clock of the gateway (clock/intake.go) *)

Module Clock.

Record intakeSample := mk_sample { offset : f64; observed : Z }.

Section intake.
Variable ParseTime : string -> option Z.   (* http.ParseTime *)

(** [latestIntake] after an answer. *)
Definition ObserveIntakeDate (header : string) (received : Z) (latest : option intakeSample)
    : option intakeSample :=
  match ParseTime header with
  | None => latest
  | Some server => Some (mk_sample (seconds (time_sub server received)) received)
  end.
End intake.

Definition IntakeOffsetSeconds (now : Z) (latest : option intakeSample) : option f64 :=
  match latest with
  | None => None
  | Some s =>
      if (now <? observed s) || (2 * minute <? time_sub now (observed s)) then None else Some (offset s)
  end.
End Clock.

Module Ingest.
Import SendQueue.

(** ** Requests, answers, and the exporter *)

Record http_request := mk_http_request {
  Method : string;
  URL : string;
  Headers : list (string * string);
  ReqBody : string;
}.

Record http_response := mk_http_response {
  StatusCode : Z;
  Date : string;
  RespBody : res string;
}.

(** [resp.StatusCode/100 != 2]. *)
Definition ok_status (code : Z) : bool := Z.quot code 100 =? 2.

Section ingest.
Context {B : Type} `{KV B}.

(** An unset [atomic.Value] of a string reads as the empty string. *)
Record IngestExporter := mk_exporter {
  base : string;
  token : string;
  hostID : string;
  clusterName : string;
  version : string;
  collectorID : string;
  installationID : string;
  databaseAgentID : string;
  databaseMachineID : string;
  terminalFailureHandler : bool;          (* installed *)
  enabledModules : option (gset string);
  metricsPending : Queue B;
}.

(** The exporter, the attempts and requests made (the latest first), the calls of the
    handler of a removal, and [latestIntake]. *)
Record World := mk_world {
  exporter : IngestExporter;
  attempts : nat;
  requests : list http_request;
  removals : list Z;
  latestIntake : option Clock.intakeSample;
}.

Definition set_collector (id : string) (e : IngestExporter) : IngestExporter :=
  mk_exporter (base e) (token e) (hostID e) (clusterName e) (version e) id (installationID e) (databaseAgentID e) (databaseMachineID e) (terminalFailureHandler e) (enabledModules e) (metricsPending e).
Definition set_installation (id : string) (e : IngestExporter) : IngestExporter :=
  mk_exporter (base e) (token e) (hostID e) (clusterName e) (version e) (collectorID e) id (databaseAgentID e) (databaseMachineID e) (terminalFailureHandler e) (enabledModules e) (metricsPending e).
Definition set_agent (id : string) (e : IngestExporter) : IngestExporter :=
  mk_exporter (base e) (token e) (hostID e) (clusterName e) (version e) (collectorID e) (installationID e) id (databaseMachineID e) (terminalFailureHandler e) (enabledModules e) (metricsPending e).
Definition set_machine (id : string) (e : IngestExporter) : IngestExporter :=
  mk_exporter (base e) (token e) (hostID e) (clusterName e) (version e) (collectorID e) (installationID e) (databaseAgentID e) id (terminalFailureHandler e) (enabledModules e) (metricsPending e).
Definition set_handler (e : IngestExporter) : IngestExporter :=
  mk_exporter (base e) (token e) (hostID e) (clusterName e) (version e) (collectorID e) (installationID e) (databaseAgentID e) (databaseMachineID e) true (enabledModules e) (metricsPending e).
Definition set_modules (m : gset string) (e : IngestExporter) : IngestExporter :=
  mk_exporter (base e) (token e) (hostID e) (clusterName e) (version e) (collectorID e) (installationID e) (databaseAgentID e) (databaseMachineID e) (terminalFailureHandler e) (Some m) (metricsPending e).
Definition set_queue (q : Queue B) (e : IngestExporter) : IngestExporter :=
  mk_exporter (base e) (token e) (hostID e) (clusterName e) (version e) (collectorID e) (installationID e) (databaseAgentID e) (databaseMachineID e) (terminalFailureHandler e) (enabledModules e) q.

Definition on_exporter (f : IngestExporter -> IngestExporter) (w : World) : World :=
  mk_world (f (exporter w)) (attempts w) (requests w) (removals w) (latestIntake w).
Definition queue_of (w : World) : Queue B := metricsPending (exporter w).
Definition on_queue (f : Queue B -> Queue B) : World -> World :=
  on_exporter (fun e => set_queue (f (metricsPending e)) e).

(** ** Construction and settings *)

Definition gateway : string := "/api/ingest/v1".

(** [opened] is what opening the database of the queue gives. *)
Definition NewIngestExporter (b tok host cluster ver dir : string) (opened : option (boltdb B))
    : IngestExporter :=
  let b := Statsfwd.trim_slashes (trim_space b) in
  mk_exporter (if has_suffix gateway b then b else b +:+ gateway) (trim_space tok) host cluster ver
    "" "" "" "" false None (NewPersistent "host-metrics" (8 * 1024 * 1024) dir opened).

Definition store_if (set : string -> IngestExporter -> IngestExporter) (id : string) (e : IngestExporter)
    : IngestExporter :=
  let id := trim_space id in if String.eqb id "" then e else set id e.

Definition SetDatabaseInstallationID : string -> IngestExporter -> IngestExporter := store_if set_installation.
Definition SetDatabaseAgentIdentity (agentID machineID : string) (e : IngestExporter) : IngestExporter :=
  store_if set_machine machineID (store_if set_agent agentID e).
Definition SetCollectorID : string -> IngestExporter -> IngestExporter := store_if set_collector.
Definition SetTerminalFailureHandler (installed : bool) (e : IngestExporter) : IngestExporter :=
  if installed then set_handler e else e.

Definition noteTerminalRemoval (code : Z) (w : World) : World :=
  if terminalFailureHandler (exporter w)
  then mk_world (exporter w) (attempts w) (requests w) (code :: removals w) (latestIntake w) else w.

Section modules.
Variable ToUpper : string -> string.

Definition SetEnabledModules (modules : list string) : IngestExporter -> IngestExporter :=
  set_modules (list_to_set ((fun m => ToUpper (trim_space m)) <$> modules)).
End modules.

(** ** Entitlements *)

Definition module_signals : list (string * list string) :=
  [("APM", ["traces"; "apm/stats"; "apm/usage"; "profile"; "security/events"; "security/iast";
            "security/lab"; "security/users"; "security/api"; "security/libraries";
            "sdk/configuration"; "sdk/remote-config"; "debug"; "debug/config"; "debug/config/applied"]);
   ("LOGS", ["logs"]);
   ("REDE_SNMP", ["snmptrap"; "device-metadata"; "ncm/config"; "topology"]);
   ("VULNERABILIDADES", ["sbom"]);
   ("KUBERNETES", ["k8s/events"; "k8s/pod-languages"; "k8s/runtime-languages"; "k8s/resources"]);
   ("INFRAESTRUTURA", ["host/services"; "proxmox/inventory"]);
   ("BANCOS_DADOS", ["db/query-stats"; "db/instances/discover"; "db/catalog"; "db/diagnostics";
                     "db/explain"; "db/capabilities"; "db/runtime"])].

(** The module a signal belongs to: the cases of the switch. *)
Definition module_of (signal : string) : option string :=
  fst <$> List.find (fun e => existsb (String.eqb signal) e.2) module_signals.

Definition signalAllowed (signal : string) (e : IngestExporter) : bool :=
  match enabledModules e with
  | None => true
  | Some modules =>
      match module_of signal with None => true | Some m => bool_decide (m ∈ modules) end
  end.

(** The signals whose refusal is an error for the caller. *)
Definition refused_aloud (signal : string) : bool :=
  existsb (String.eqb signal)
    ["security/events"; "security/iast"; "security/lab"; "security/users"; "security/api";
     "security/libraries"; "sdk/configuration"; "debug"; "debug/config/applied"].

(** ** Posting *)

Section posting.
Variable client : nat -> http_request -> res http_response * Z.
Variable url_error : string -> option string.   (* http.NewRequestWithContext *)
Variable ParseTime : string -> option Z.

Definition bearer (e : IngestExporter) : string * string := ("Authorization", "Bearer " +:+ token e).

Definition raw_request (signal contentType body : string) (e : IngestExporter) : http_request :=
  mk_http_request "POST" (base e +:+ "/" +:+ signal)
    ([("Content-Type", if String.eqb contentType "" then "application/x-protobuf" else contentType);
      bearer e] ++
     (if String.eqb (collectorID e) "" then [] else [("X-Ispwatch-Collector", collectorID e)])) body.

(** What an attempt does: the request it sends, what it returns and when, and the
    answer it was given. *)
Record Attempt := mk_attempt {
  sent : option http_request;
  result : option goerr;
  at_time : Z;
  answer : option http_response;
}.

Definition status_result (signal : string) (resp : http_response) : option goerr :=
  if ok_status (StatusCode resp) then None
  else Some (Wrapped ("ingest " +:+ signal +:+ ": ") (StatusError (StatusCode resp))).

Definition raw_attempt (n : nat) (signal contentType body : string) (e : IngestExporter) : Attempt :=
  if String.eqb body "" then mk_attempt None None 0 None
  else if negb (signalAllowed signal e) then
    mk_attempt None (if refused_aloud signal then Some (OtherErr "APM signal disabled") else None) 0 None
  else
    let req := raw_request signal contentType body e in
    match url_error (URL req) with
    | Some err => mk_attempt None (Some (OtherErr err)) 0 None
    | None =>
        let '(r, now) := client n req in
        match r with
        | Err err => mk_attempt (Some req) (Some (OtherErr err)) now None
        | Ok resp => mk_attempt (Some req) (status_result signal resp) now (Some resp)
        end
    end.

(** What the answer changes in the exporter. *)
Definition note_answer (now : Z) (resp : http_response) (w : World) : World :=
  let code := StatusCode resp in
  if ok_status code
  then mk_world (exporter w) (attempts w) (requests w) (removals w)
         (Clock.ObserveIntakeDate ParseTime (Date resp) now (latestIntake w))
  else
    let w := if (code =? 401) || (code =? 403) then on_queue (NoteAuthFailure now code) w else w in
    if code =? 410 then noteTerminalRemoval code w else w.

Definition record_attempt (a : Attempt) (w : World) : World :=
  let w := mk_world (exporter w) (S (attempts w)) (from_option (fun r => r :: requests w) (requests w) (sent a))
             (removals w) (latestIntake w) in
  match answer a with None => w | Some resp => note_answer (at_time a) resp w end.

Definition PostRaw (signal contentType body : string) (w : World) : option goerr * World :=
  let a := raw_attempt (attempts w) signal contentType body (exporter w) in
  (result a, record_attempt a w).

(** [PostRaw] under the loop of [Flush]: the outcome of the n-th POST. *)
Definition metrics_attempt (w : World) (n : nat) (body : string) : Attempt :=
  raw_attempt (attempts w + n) "metrics" "application/json" body (exporter w).
Definition metrics_poster (w : World) : poster :=
  fun n body => let a := metrics_attempt w n body in (result a, at_time a).

Fixpoint record_posts (f : nat -> string -> Attempt) (n : nat) (posted : list string) (w : World) : World :=
  match posted with
  | [] => w
  | body :: posted => record_posts f (S n) posted (record_attempt (f n body) w)
  end.

(** [e.metricsPending.Flush], whose POSTs are calls of [PostRaw].  The cool-down that
    [PostRaw] notes on the queue is noted again by [Flush] itself from the error, with
    the same time here, so the order of the two does not matter. *)
Definition flush_metrics (fuel : nat) (now : Z) (w : World) : option (option goerr * World * list string) :=
  match Flush fuel (metrics_poster w) now (queue_of w) with
  | None => None
  | Some (err, q, posted) =>
      Some (err, record_posts (metrics_attempt w) 0 (reverse posted) (on_queue (fun _ => q) w), posted)
  end.

(** ** Native metrics *)

Record NumberDataPoint := mk_number {
  TimeUnixNano : Z;    (* uint64 *)
  dp_Attributes : list Otlp.KeyValue;
  AsDouble : f64;
}.
(** A metric of the request: a gauge with its data points. *)
Record GaugeMetric := mk_gauge { gm_Name : string; DataPoints : list NumberDataPoint }.

(** The one resource of a native request, with its metrics in one scope. *)
Record NativeRequest := mk_native { nr_Resource : list Otlp.KeyValue; nr_Metrics : list GaugeMetric }.

Variable range : tagmap -> list (string * string).
Variable protojson : NativeRequest -> res string.

Definition opt_attr (k v : string) : list Otlp.KeyValue :=
  if String.eqb v "" then [] else [Otlp.kv k v].

Definition native_attrs (installation : string) (m : Metric) : list Otlp.KeyValue :=
  ((fun e => Otlp.kv e.1 e.2) <$>
     filter (fun e => ~ (e.1 = "installation_id" /\ installation <> "")) (range (Tags m))) ++
  opt_attr "installation_id" installation ++ opt_attr "host.id" (HostId m) ++
  opt_attr "interface" (InterfaceName m) ++ opt_attr "source" (Source m).

Definition native_metric (now : Z) (installation : string) (m : option Metric) : option GaugeMetric :=
  match m with
  | None => None
  | Some m =>
      if String.eqb (MetricName m) "" then None
      else Some (mk_gauge (MetricName m)
                   [mk_number (u64 (default now (Metric_Time m))) (native_attrs installation m) (Value m)])
  end.

Definition native_resource (e : IngestExporter) : list Otlp.KeyValue :=
  [Otlp.kv "service.name" "telvyn-agent"; Otlp.kv "host.name" (hostID e)] ++
  opt_attr "k8s.cluster.name" (clusterName e) ++ opt_attr "installation_id" (installationID e).

Definition maxPoints : nat := 1000.
Definition maxBodyBytes : Z := 1024 * 1024.

Definition too_large : goerr :=
  OtherErr ("native metric exceeds " +:+ itoa maxBodyBytes +:+ " byte request limit").

(** [split]: the bodies appended, and the error; None is out of fuel. *)
Fixpoint split (fuel : nat) (resource : list Otlp.KeyValue) (part : list GaugeMetric)
    : option (list string * option goerr) :=
  match fuel with
  | O => None
  | S fuel =>
      match protojson (mk_native resource part) with
      | Err e => Some ([], Some (OtherErr e))
      | Ok body =>
          if (length part <=? maxPoints)%nat && (str_len body <=? maxBodyBytes) then Some ([body], None)
          else if (length part =? 1)%nat then Some ([], Some too_large)
          else
            let middle := Nat.div2 (length part) in
            '(l, err) ← split fuel resource (take middle part);
            match err with
            | Some e => Some (l, Some e)
            | None => '(r, err) ← split fuel resource (drop middle part); Some (l ++ r, err)
            end
      end
  end.

Definition nativeMetricBodies (request : NativeRequest) : option (list string * option goerr) :=
  split (S (length (nr_Metrics request))) (nr_Resource request) (nr_Metrics request).

(** The loop over the bodies; [now] is the time of each of its operations. *)
Fixpoint send_bodies (fuel : nat) (now : nat -> Z) (bodies : list string) (sendError : option goerr) (w : World)
    : option (option goerr * World) :=
  match bodies with
  | [] => Some (sendError, w)
  | body :: bodies =>
      let t := now (length bodies) in
      let '(r, q) := Offer t body None (queue_of w) in
      let w := on_queue (fun _ => q) w in
      match r with
      | Err e => Some (Some (Wrapped "queue metrics: " (OtherErr e)), w)
      | Ok _ =>
          match sendError with
          | Some _ => send_bodies fuel now bodies sendError w
          | None =>
              match flush_metrics fuel t w with
              | None => None
              | Some (err, w, _) => send_bodies fuel now bodies err w
              end
          end
      end
  end.

Definition PostMetrics (fuel : nat) (start : Z) (now : nat -> Z) (metrics : list (option Metric)) (w : World)
    : option (option goerr * World) :=
  let e := exporter w in
  match omap (native_metric start (installationID e)) metrics with
  | [] => Some (None, w)
  | dps =>
      match nativeMetricBodies (mk_native (native_resource e) dps) with
      | None => None
      | Some (bodies, Some err) => Some (Some err, w)
      | Some (bodies, None) => send_bodies fuel now bodies None w
      end
  end.

(** ** Logs *)

Record otlpLogRecord := mk_otlp_log {
  lg_TimeUnixNano : string;
  lg_SeverityNumber : Z;
  lg_SeverityText : string;
  lg_Body : string;
  lg_TraceID : string;
  lg_SpanID : string;
  lg_Attributes : list (string * string);
}.

(** A resource with its one scope. *)
Record otlpResourceLogs := mk_resource_logs {
  rl_Attributes : list (string * string);
  rl_LogRecords : list otlpLogRecord;
}.

Definition nul : string := str1 0.

Definition opt_pair (k v : string) : list (string * string) := if String.eqb v "" then [] else [(k, v)].

(** The identity of the resource of a record: service, namespace, pod, host. *)
Definition log_identity (e : IngestExporter) (r : CriTailer.LogRecord) : string * string * string * string :=
  (CriTailer.LogServiceName r, tag "k8s.namespace.name" (CriTailer.LogAttributes r),
   tag "k8s.pod.name" (CriTailer.LogAttributes r),
   if String.eqb (CriTailer.Hostname r) "" then hostID e else CriTailer.Hostname r).

Definition group_key (i : string * string * string * string) : string :=
  let '(svc, ns, pod, host) := i in svc +:+ nul +:+ ns +:+ nul +:+ pod +:+ nul +:+ host.

Definition resource_attrs (cluster : string) (i : string * string * string * string) : list (string * string) :=
  let '(svc, ns, pod, host) := i in
  opt_pair "service.name" svc ++ opt_pair "host.name" host ++ opt_pair "k8s.namespace.name" ns ++
  opt_pair "k8s.pod.name" pod ++ opt_pair "k8s.cluster.name" cluster.

Definition resource_keys : list string :=
  ["k8s.namespace.name"; "k8s.pod.name"; "service.name"; "host.name"].

Definition log_record (r : CriTailer.LogRecord) : otlpLogRecord :=
  mk_otlp_log (itoa (CriTailer.TimestampUnixNano r)) (CriTailer.SeverityNumber r) (CriTailer.SeverityText r)
    (CriTailer.Body r) (CriTailer.TraceID r) (CriTailer.SpanID r)
    (filter (fun e => e.1 ∉ resource_keys) (range (CriTailer.LogAttributes r))).

(** [payload.ResourceLogs] and [groups]. *)
Definition add_log (e : IngestExporter) (st : list otlpResourceLogs * gmap string nat) (r : CriTailer.LogRecord)
    : list otlpResourceLogs * gmap string nat :=
  let '(payload, groups) := st in
  let i := log_identity e r in
  let key := group_key i in
  let '(idx, payload, groups) :=
    match groups !! key with
    | Some idx => (idx, payload, groups)
    | None => (length payload, payload ++ [mk_resource_logs (resource_attrs (clusterName e) i) []],
               <[key := length payload]> groups)
    end in
  (alter (fun rl => mk_resource_logs (rl_Attributes rl) (rl_LogRecords rl ++ [log_record r])) idx payload, groups).

Definition group_logs (e : IngestExporter) (records : list CriTailer.LogRecord) : list otlpResourceLogs :=
  (foldl (add_log e) ([], ∅) records).1.

(** ** Structured signals *)

Record DatabaseSignalEnvelope := mk_envelope {
  ContractVersion : string;
  Signal : string;
  Engine : string;
  CollectedAt : string;
}.

Definition DatabaseContractVersion : string := "1.0".

(** [now] is the current time in RFC 3339. *)
Definition databaseEnvelope (now signal engine : string) (current : DatabaseSignalEnvelope)
    : DatabaseSignalEnvelope :=
  mk_envelope DatabaseContractVersion signal
    (if String.eqb (trim_space (Engine current)) "" then engine else Engine current)
    (if String.eqb (trim_space (CollectedAt current)) "" then now else CollectedAt current).

Record DatabaseQueryStatsPayload := mk_query_stats {
  qs_Envelope : DatabaseSignalEnvelope;
  qs_InstallationID : string;
  qs_DatabaseID : string;
  qs_Queries : list string;
  qs_Samples : list string;
  qs_rest : string;
}.

(** The payloads of the catalogue and of the diagnostics. *)
Record DatabaseSnapshotPayload := mk_db_snapshot {
  db_Envelope : DatabaseSignalEnvelope;
  db_InstallationID : string;
  db_DatabaseID : string;
  db_DBServer : string;
  db_DBName : string;
  db_rest : string;
}.

Record DatabaseExplainPayload := mk_explain {
  ex_Envelope : DatabaseSignalEnvelope;
  ex_InstallationID : string;
  ex_DatabaseID : string;
  ex_RequestID : string;
  ex_CheckID : string;
  ex_DBServer : string;
  ex_DBName : string;
  ex_PlanJSON : string;
  ex_Error : string;
}.

Record DatabaseCapabilitiesPayload := mk_capabilities {
  ca_Envelope : DatabaseSignalEnvelope;
  ca_InstallationID : string;
  ca_DBServer : string;
  ca_rest : string;
}.

Record DatabaseCollectorRuntimePayload := mk_db_runtime {
  ru_Envelope : DatabaseSignalEnvelope;
  ru_InstallationID : string;
  ru_CheckID : string;
  ru_CheckSignal : string;
  ru_ObservedAt : string;
  ru_rest : string;
}.

Record DatabaseInstanceDiscoveryPayload := mk_discovery {
  di_Envelope : DatabaseSignalEnvelope;
  di_InstallationID : string;
  di_Engine : string;
  di_Server : string;
  di_Port : Z;
  di_rest : string;
}.

(** A snapshot of an external inventory (internal/inventory/snapshot.go). *)
Record Snapshot := mk_inventory {
  ProtocolVersion : Z;
  CheckID : string;
  ConfigVersion : Z;
  HostID : string;
  Provider : string;
  ObservedAt : string;
  ClusterMode : string;
  Resources : list string;
  inv_rest : string;
}.

Record TopologyReport := mk_topology { tp_CollectorId : string; tp_Edges : list string; tp_rest : string }.

(** What is handed to an encoder. *)
Inductive wire :=
  | WMap (m : gmap string Processing.json)                     (* a map[string]any *)
  | WLogs (resourceLogs : list otlpResourceLogs)
  | WQueryStats (p : DatabaseQueryStatsPayload)
  | WSnapshot (p : DatabaseSnapshotPayload)
  | WExplain (p : DatabaseExplainPayload)
  | WCapabilities (p : DatabaseCapabilitiesPayload)
  | WRuntime (p : DatabaseCollectorRuntimePayload)
  | WDiscovery (p : DatabaseInstanceDiscoveryPayload)
  | WInventory (p : Snapshot)
  | WTopology (p : TopologyReport).

Variable marshal : wire -> res string.

(** Encoding, and posting what was encoded. *)
Definition post_json (signal : string) (p : wire) (w : World) : option goerr * World :=
  match marshal p with
  | Err e => (Some (OtherErr e), w)
  | Ok body => PostRaw signal "application/json" body w
  end.

(** A method with a guard: [f] gives the payload or an error. *)
Definition guarded (signal : string) (p : res wire) (w : World) : option goerr * World :=
  match p with Err e => (Some (OtherErr e), w) | Ok p => post_json signal p w end.

Definition post_map (signal : string) (m : gmap string Processing.json) (w : World) : option goerr * World :=
  if bool_decide (m = ∅) then (None, w) else post_json signal (WMap m) w.

Definition PostSnmpTrap := post_map "snmptrap".
Definition PostK8sEvents := post_map "k8s/events".
Definition PostK8sResources := post_map "k8s/resources".
Definition PostHostServices := post_map "host/services".

Definition PostLogs (records : list CriTailer.LogRecord) (w : World) : option goerr * World :=
  match records with
  | [] => (None, w)
  | _ => post_json "logs" (WLogs (group_logs (exporter w) records)) w
  end.

Definition PostCheckStatus (checkID : string) (ok : bool) (message : string) (w : World) : option goerr * World :=
  if String.eqb (trim_space checkID) "" then (None, w)
  else
    let status : gmap string Processing.json :=
      <["check_id" := Processing.JString checkID]> (<["ok" := Processing.JBool ok]> ∅) in
    let status := if negb ok && negb (String.eqb message "")
                  then <["message" := Processing.JString message]> status else status in
    post_json "check-status"
      (WMap {[ "statuses" := Processing.JArray [Processing.JObject status] ]}) w.

(** The report is the caller's: its collector is filled in. *)
Definition PostTopology (report : option TopologyReport) (w : World)
    : option goerr * option TopologyReport * World :=
  match report with
  | None => (None, report, w)
  | Some r =>
      match tp_Edges r with
      | [] => (None, report, w)
      | _ =>
          let id := collectorID (exporter w) in
          let r := if negb (String.eqb id "") && String.eqb (tp_CollectorId r) ""
                   then mk_topology id (tp_Edges r) (tp_rest r) else r in
          let '(err, w) := post_json "topology" (WTopology r) w in (err, Some r, w)
      end
  end.

Definition PostDeviceMetadata (host : string) (device : tagmap) (w : World) : option goerr * World :=
  if bool_decide (device = ∅) then (None, w)
  else post_json "device-metadata"
         (WMap (<["host_id" := Processing.JString host]>
                (<["device" := Processing.JObject (Processing.JString <$> device)]> ∅))) w.

Definition PostDeviceConfig (host vendor source rawText hostKey : string) (w : World) : option goerr * World :=
  if String.eqb rawText "" then (None, w)
  else
    let payload : gmap string Processing.json :=
      <["host_id" := Processing.JString host]> (<["vendor" := Processing.JString vendor]>
      (<["source" := Processing.JString source]> (<["raw_text" := Processing.JString rawText]> ∅))) in
    post_json "ncm/config"
      (WMap (if String.eqb hostKey "" then payload else <["host_key" := Processing.JString hostKey]> payload)) w.

(** ** Databases

    A dedicated agent stamps its installation over the one of the payload. *)

Definition stamp_installation (e : IngestExporter) (given : string) : string :=
  if String.eqb (installationID e) "" then given else installationID e.

(** The database is required of a dedicated agent. *)
Definition missing_database (e : IngestExporter) (database : string) : bool :=
  negb (String.eqb (installationID e) "") && String.eqb database "".

Definition PostDatabaseQueryStats (now : string) (p : DatabaseQueryStatsPayload) (w : World)
    : option goerr * World :=
  if bool_decide (qs_Queries p = []) && bool_decide (qs_Samples p = []) then (None, w)
  else
    let e := exporter w in
    guarded "db/query-stats"
      (if missing_database e (qs_DatabaseID p)
       then Err "database query stats: database_id obrigatório para Agent de Banco"
       else Ok (WQueryStats (mk_query_stats
              (databaseEnvelope now "db.query.metrics" "postgres" (qs_Envelope p))
              (stamp_installation e (qs_InstallationID p)) (qs_DatabaseID p)
              (qs_Queries p) (qs_Samples p) (qs_rest p)))) w.

(** The common body of [PostDatabaseCatalog] and [PostDatabaseDiagnostics]. *)
Definition snapshot_payload (what signal now : string) (e : IngestExporter) (p : DatabaseSnapshotPayload)
    : res wire :=
  if String.eqb (db_DBServer p) "" || String.eqb (db_DBName p) ""
  then Err (what +:+ ": db_server e db_name são obrigatórios")
  else if missing_database e (db_DatabaseID p)
  then Err (what +:+ ": database_id obrigatório para Agent de Banco")
  else Ok (WSnapshot (mk_db_snapshot (databaseEnvelope now signal "postgres" (db_Envelope p))
             (stamp_installation e (db_InstallationID p)) (db_DatabaseID p) (db_DBServer p) (db_DBName p)
             (db_rest p))).

Definition PostDatabaseCatalog (now : string) (p : DatabaseSnapshotPayload) (w : World) : option goerr * World :=
  guarded "db/catalog" (snapshot_payload "database catalog" "db.catalog.snapshot" now (exporter w) p) w.
Definition PostDatabaseDiagnostics (now : string) (p : DatabaseSnapshotPayload) (w : World)
    : option goerr * World :=
  guarded "db/diagnostics" (snapshot_payload "database diagnostics" "db.diagnostics.snapshot" now (exporter w) p) w.

Definition PostDatabaseExplain (now : string) (p : DatabaseExplainPayload) (w : World) : option goerr * World :=
  let e := exporter w in
  guarded "db/explain"
    (if existsb (String.eqb "") [ex_RequestID p; ex_CheckID p; ex_DBServer p; ex_DBName p]
     then Err "database explain: identidade é obrigatória"
     else if String.eqb (ex_PlanJSON p) "" && String.eqb (ex_Error p) ""
     then Err "database explain: plan_json ou error é obrigatório"
     else if missing_database e (ex_DatabaseID p)
     then Err "database explain: database_id obrigatório para Agent de Banco"
     else Ok (WExplain (mk_explain (databaseEnvelope now "db.explain.plan" "postgres" (ex_Envelope p))
                (stamp_installation e (ex_InstallationID p)) (ex_DatabaseID p) (ex_RequestID p) (ex_CheckID p)
                (ex_DBServer p) (ex_DBName p) (ex_PlanJSON p) (ex_Error p)))) w.

Definition PostDatabaseCapabilities (now : string) (p : DatabaseCapabilitiesPayload) (w : World)
    : option goerr * World :=
  let installation := stamp_installation (exporter w) (ca_InstallationID p) in
  guarded "db/capabilities"
    (if String.eqb installation "" || String.eqb (ca_DBServer p) ""
     then Err "database capabilities: installation_id e db_server são obrigatórios"
     else Ok (WCapabilities (mk_capabilities
            (databaseEnvelope now "db.capabilities.snapshot" "postgres" (ca_Envelope p))
            installation (ca_DBServer p) (ca_rest p)))) w.

Definition PostDatabaseCollectorRuntime (now : string) (p : DatabaseCollectorRuntimePayload) (w : World)
    : option goerr * World :=
  let installation := stamp_installation (exporter w) (ru_InstallationID p) in
  guarded "db/runtime"
    (if existsb (String.eqb "") [installation; ru_CheckID p; ru_CheckSignal p]
     then Err "database runtime: installation_id, check_id e check_signal são obrigatórios"
     else
       let env := databaseEnvelope now "db.collector.runtime" "postgres" (ru_Envelope p) in
       Ok (WRuntime (mk_db_runtime env installation (ru_CheckID p) (ru_CheckSignal p)
             (if String.eqb (ru_ObservedAt p) "" then CollectedAt env else ru_ObservedAt p) (ru_rest p)))) w.

Definition PostDatabaseInstanceDiscovery (now : string) (p : DatabaseInstanceDiscoveryPayload) (w : World)
    : option goerr * World :=
  let installation := stamp_installation (exporter w) (di_InstallationID p) in
  guarded "db/instances/discover"
    (if existsb (String.eqb "") [installation; di_Engine p; di_Server p] || (di_Port p <=? 0)
     then Err "database instance discovery: identidade da instalação, motor, servidor e porta são obrigatórios"
     else Ok (WDiscovery (mk_discovery
            (databaseEnvelope now "db.instance.discovery" (di_Engine p) (di_Envelope p))
            installation (di_Engine p) (di_Server p) (di_Port p) (di_rest p)))) w.

(** ** External inventory *)

Definition MaxResources : Z := 1000.
Definition MaxBodyBytes : Z := 512 * 1024.

Definition hex_byte (z : Z) : bool :=
  is_digit z || ((97 <=? z) && (z <=? 102)) || ((65 <=? z) && (z <=? 70)).

(** [inventoryUUID]: groups of hexadecimal digits of lengths 8, 4, 4, 4 and 12. *)
Definition inventoryUUID (s : string) : bool :=
  match GoStrings.split "-" s with
  | [a; b; c; d; e] =>
      forallb (fun '(p, n) => (String.length p =? n)%nat && forallb hex_byte (bytes_of p))
        [(a, 8%nat); (b, 4%nat); (c, 4%nat); (d, 4%nat); (e, 12%nat)]
  | _ => false
  end.

(** [time.Parse(time.RFC3339Nano, s)] succeeds. *)
Variable rfc3339 : string -> bool.

Definition valid_host (s : string) : bool :=
  match atoi s with None => false | Some host => (0 <? host) && String.eqb s (itoa host) end.

Definition inventory_error (r : Snapshot) : option string :=
  if negb (valid_host (HostID r)) || negb (ProtocolVersion r =? 1) || negb (inventoryUUID (CheckID r)) ||
     (ConfigVersion r <=? 0) || negb (String.eqb (Provider r) "proxmox") ||
     (MaxResources <? Z.of_nat (length (Resources r)))
  then Some "invalid external inventory envelope"
  else if negb (rfc3339 (ObservedAt r)) then Some "invalid external inventory observation"
  else if negb (existsb (String.eqb (ClusterMode r)) ["clustered"; "standalone"; "unknown"])
  then Some "invalid external inventory cluster mode"
  else None.

Definition PostExternalInventory (report : Snapshot) (w : World) : option goerr * World :=
  match inventory_error report with
  | Some e => (Some (OtherErr e), w)
  | None =>
      match marshal (WInventory report) with
      | Err _ => (Some (OtherErr "external inventory exceeds body limit"), w)
      | Ok body =>
          if MaxBodyBytes <? str_len body
          then (Some (OtherErr "external inventory exceeds body limit"), w)
          else PostRaw "proxmox/inventory" "application/json" body w
      end
  end.

(** ** Configuration of an application (application.go) *)

Variable query_encode : list (string * string) -> string.   (* url.Values.Encode *)
Variable json_valid : string -> bool.

(** A request outside [PostRaw]: the answer, or the error of the request. *)
Definition exchange (req : http_request) (w : World) : res http_response * World :=
  match url_error (URL req) with
  | Some err => (Err err, w)
  | None =>
      ((client (attempts w) req).1,
       mk_world (exporter w) (S (attempts w)) (req :: requests w) (removals w) (latestIntake w))
  end.

Definition applicationConfig (signal service env version : string) (w : World) : res string * World :=
  let e := exporter w in
  if negb (signalAllowed signal e) then (Err "APM signal disabled", w)
  else
    let query := query_encode [("service", service); ("env", env); ("version", version)] in
    let '(r, w) := exchange (mk_http_request "GET" (base e +:+ "/" +:+ signal +:+ "?" +:+ query) [bearer e] "") w in
    (resp ← r;
     if negb (StatusCode resp =? 200) then Err (signal +:+ " status " +:+ itoa (StatusCode resp))
     else match RespBody resp with
          | Err _ => Err ("invalid " +:+ signal)
          | Ok body => if (2 ^ 20 <? str_len body) || negb (json_valid body) then Err ("invalid " +:+ signal)
                       else Ok body
          end, w).

Definition DebugConfig := applicationConfig "debug/config".
Definition SDKRemoteConfig := applicationConfig "sdk/remote-config".

(** ** Registration of machines *)

Variable read_file : string -> option string.   (* os.ReadFile *)
Variable Sum256 : string -> string.             (* sha256.Sum256 *)
Variable decode_host : string -> res string.    (* the decoded "host_id", as its digits *)

Fixpoint first_id (paths : list string) : string :=
  match paths with
  | [] => ""
  | p :: paths =>
      match read_file p with
      | Some b => if String.eqb (trim_space b) "" then first_id paths else trim_space b
      | None => first_id paths
      end
  end.

Definition machineID (containerized : bool) : string :=
  first_id (if containerized then ["/host/etc/machine-id"]
            else ["/etc/machine-id"; "/var/lib/dbus/machine-id"]).

Definition uuid_bytes (digest : list Z) : list Z :=
  alter (fun b => Z.lor (Z.land b 15) 80) 6%nat (alter (fun b => Z.lor (Z.land b 63) 128) 8%nat (take 16 digest)).

Definition slice (i j : nat) (l : list Z) : string := Hex.EncodeToString (of_bytes (take (j - i) (drop i l))).

Definition DatabaseMachineUUID (containerized : bool) : string :=
  let machine := machineID containerized in
  if String.eqb machine "" then ""
  else
    let b := uuid_bytes (bytes_of (Sum256 ("telvyn/database-machine/" +:+ machine))) in
    slice 0 4 b +:+ "-" +:+ slice 4 6 b +:+ "-" +:+ slice 6 8 b +:+ "-" +:+ slice 8 10 b +:+ "-" +:+ slice 10 16 b.

(** The exchange of [registerHost] and [RegisterK8sNode]; the encoding of a map of
    strings does not fail. *)
Definition register (what path : string) (gone : bool) (payload : tagmap) (w : World) : res string * World :=
  let e := exporter w in
  let body := default "" (match marshal (WMap (Processing.JString <$> payload)) with Ok b => Some b | Err _ => None end) in
  let '(r, w) := exchange (mk_http_request "POST" (base e +:+ path) [("Content-Type", "application/json"); bearer e] body) w in
  match r with
  | Err err => (Err err, w)
  | Ok resp =>
      if negb (ok_status (StatusCode resp))
      then (Err (what +:+ ": HTTP " +:+ itoa (StatusCode resp)),
            if gone && (StatusCode resp =? 410) then noteTerminalRemoval (StatusCode resp) w else w)
      else (b ← RespBody resp; decode_host b, w)
  end.

Definition RegisterK8sNode (cluster node nodeIP k8sVersion : string) (w : World) : res string * World :=
  register "k8s register" "/k8s/register" false
    (<["cluster" := cluster]> (<["node" := node]> (<["node_ip" := nodeIP]> (<["k8s_version" := k8sVersion]>
     (<["machine_id" := machineID true]> (<["agent_version" := version (exporter w)]> ∅)))))) w.

Definition registerHost (hostname installMode collector : string) (w : World) : res string * World :=
  register "host register" "/host/register" true
    (<["hostname" := hostname]> (<["install_mode" := installMode]> (<["collector_id" := collector]>
     (<["machine_id" := machineID (negb (String.eqb installMode "linux"))]>
     (<["agent_version" := version (exporter w)]> ∅))))) w.

Definition RegisterDockerHost (hostname collector : string) := registerHost hostname "docker" collector.
Definition RegisterLinuxHost (hostname collector : string) := registerHost hostname "linux" collector.
End posting.
End ingest.

Arguments IngestExporter : clear implicits.
Arguments World : clear implicits.
End Ingest.
