(* ===== verification/IngestProps.v ===== *)
(** * What the ingest exporter promises

    Native metrics are cut into bounded bodies that partition them; logs are grouped by
    the identity of their resource; no signal leaves without its module; a dedicated
    database agent signs with its own installation; metrics wait in the queue until they
    are answered. *)

From S2P Require Import Prelude GoStrings Wire Bolt SendQueue Otlp CriTailer Ingest.
#[local] Open Scope Z_scope.

Module IngestProps.
Import SendQueue Ingest MemKV.

(** ** Native metrics *)

Section native.
Variable protojson : NativeRequest -> res string.
Variable resource : list Otlp.KeyValue.

(** A body that may be sent: the encoding of some of the metrics, within the limits. *)
Definition bounded_body (part : list GaugeMetric) (body : string) : Prop :=
  protojson (mk_native resource part) = Ok body /\
  (0 < length part <= maxPoints)%nat /\ str_len body <= maxBodyBytes.

(** Why a request cannot be cut: a part that cannot be encoded, or one metric that alone
    exceeds the limit. *)
Definition uncuttable (metrics : list GaugeMetric) (e : goerr) : Prop :=
  (exists part msg, sublist part metrics /\ protojson (mk_native resource part) = Err msg /\ e = OtherErr msg) \/
  (exists m body, m ∈ metrics /\ protojson (mk_native resource [m]) = Ok body /\
     maxBodyBytes < str_len body /\ e = too_large).

Lemma uncuttable_sublist l k e : sublist l k -> uncuttable l e -> uncuttable k e.
Proof.
  intros Hs [(part & msg & Hp & ?)|(m & body & Hm & ?)]; [left|right].
  - exists part, msg. split; [by etrans|done].
  - exists m, body. split; [|done]. by eapply elem_of_sublist.
Qed.

Lemma div2_bounds n : (2 <= n)%nat -> (0 < Nat.div2 n < n)%nat.
Proof. intros Hn. rewrite Nat.div2_div. split; [apply Nat.div_str_pos; lia | apply Nat.div_lt; lia]. Qed.

Lemma split_spec fuel part :
  (0 < length part < fuel)%nat ->
  exists bodies err, Ingest.split protojson fuel resource part = Some (bodies, err) /\
    match err with
    | None => exists parts, concat parts = part /\ Forall2 bounded_body parts bodies
    | Some e => uncuttable part e
    end.
Proof.
  revert part. induction fuel as [|fuel IH]; intros part Hf; [lia|]. cbn [Ingest.split].
  destruct (protojson (mk_native resource part)) as [body|msg] eqn:Ep.
  2: { exists [], (Some (OtherErr msg)). split; [done|]. left. by exists part, msg. }
  destruct ((length part <=? maxPoints)%nat && (str_len body <=? maxBodyBytes)) eqn:El.
  { apply andb_true_iff in El as [Hl Hb]. apply Nat.leb_le in Hl. apply Z.leb_le in Hb.
    exists [body], None. split; [done|]. exists [part]. split; [by rewrite concat_cons, app_nil_r|].
    constructor; [|done]. split_and!; done || lia. }
  destruct (length part =? 1)%nat eqn:E1.
  { apply Nat.eqb_eq in E1. destruct part as [|m [|]]; try done.
    exists [], (Some too_large). split; [done|]. right. exists m, body. split_and!; try done; [left|].
    cbn in El. by apply Z.leb_gt in El. }
  apply Nat.eqb_neq in E1. pose proof (div2_bounds (length part) ltac:(lia)) as Hm.
  assert (length (take (Nat.div2 (length part)) part) = Nat.div2 (length part)) as Ht
    by (rewrite length_take; lia).
  assert (length (drop (Nat.div2 (length part)) part) = length part - Nat.div2 (length part))%nat as Hd
    by (by rewrite length_drop).
  destruct (IH (take (Nat.div2 (length part)) part)) as (l & err & -> & Hl); [lia|]. cbn [mbind option_bind].
  destruct err as [e|].
  { exists l, (Some e). split; [done|]. eapply uncuttable_sublist; [apply sublist_take|done]. }
  destruct Hl as (pl & Hpl & Hl).
  destruct (IH (drop (Nat.div2 (length part)) part)) as (r & err & -> & Hr); [lia|]. cbn [mbind option_bind].
  exists (l ++ r)%list, err. split; [done|]. destruct err as [e|].
  { eapply uncuttable_sublist; [apply sublist_drop|done]. }
  destruct Hr as (pr & Hpr & Hr). exists (pl ++ pr)%list. split; [|by apply Forall2_app].
  by rewrite concat_app, Hpl, Hpr, take_drop.
Qed.
End native.

(** C10: Cutting native metrics always ends.  Without an error the bodies encode
    consecutive non-empty parts that together are exactly the metrics, each with at most
    1,000 points and within one mebibyte; there is an error only for a part that cannot
    be encoded or a metric that exceeds the limit alone. *)
Theorem native_bodies_partition protojson request :
  nr_Metrics request <> [] ->
  exists bodies err, nativeMetricBodies protojson request = Some (bodies, err) /\
    match err with
    | None => exists parts, concat parts = nr_Metrics request /\
                Forall2 (bounded_body protojson (nr_Resource request)) parts bodies
    | Some e => uncuttable protojson (nr_Resource request) (nr_Metrics request) e
    end.
Proof.
  intros Hn. apply split_spec. destruct (nr_Metrics request); [done|]. cbn [length]. lia.
Qed.

(** An encoder whose bodies grow with the number of metrics. *)
Definition sample_encoder (r : NativeRequest) : res string :=
  Ok (String.concat "," (gm_Name <$> nr_Metrics r)).

Lemma native_bodies_partition_witness :
  exists bodies err,
    nativeMetricBodies sample_encoder (mk_native [] (replicate 1500 (mk_gauge "cpu" []))) = Some (bodies, err) /\
    match err with
    | None => exists parts, concat parts = replicate 1500 (mk_gauge "cpu" []) /\
                Forall2 (bounded_body sample_encoder []) parts bodies
    | Some e => uncuttable sample_encoder [] (replicate 1500 (mk_gauge "cpu" [])) e
    end.
Proof. apply (native_bodies_partition sample_encoder (mk_native [] (replicate 1500 (mk_gauge "cpu" [])))). done. Defined.

(** ** Grouping of logs *)

Section grouping.
Context {B : Type} `{KV B}.
Variable range : tagmap -> list (string * string).
Variable e : IngestExporter B.

(** The values in order of their first occurrence. *)
Definition firsts {A} `{EqDecision A} (l : list A) : list A :=
  foldl (fun acc x => if decide (x ∈ acc) then acc else (acc ++ [x])%list) [] l.

Lemma firsts_snoc {A} `{EqDecision A} (l : list A) x :
  firsts (l ++ [x]) = if decide (x ∈ firsts l) then firsts l else (firsts l ++ [x])%list.
Proof. unfold firsts. by rewrite foldl_app. Qed.

Lemma NoDup_snoc {A} (l : list A) x : NoDup l -> x ∉ l -> NoDup (l ++ [x]).
Proof.
  intros Hl Hx. apply NoDup_app. split_and!; [done | | apply NoDup_singleton].
  by intros y Hy ->%list_elem_of_singleton.
Qed.

Lemma firsts_nodup {A} `{EqDecision A} (l : list A) : NoDup (firsts l).
Proof.
  induction l as [|x l IH] using rev_ind; [constructor|]. rewrite firsts_snoc. case_decide; [done|]. by apply NoDup_snoc.
Qed.

Lemma elem_of_firsts {A} `{EqDecision A} (l : list A) x : x ∈ firsts l <-> x ∈ l.
Proof.
  induction l as [|y l IH] using rev_ind; [done|]. rewrite firsts_snoc, elem_of_app, list_elem_of_singleton, <- IH.
  case_decide as Hy; rewrite ?elem_of_app, ?list_elem_of_singleton; [|done].
  split; [by left | by intros [?| ->]].
Qed.

(** One resource for each identity, with its records in order. *)
Definition resource_of (records : list CriTailer.LogRecord) (i : string * string * string * string)
    : otlpResourceLogs :=
  mk_resource_logs (resource_attrs (clusterName e) i)
    (log_record range <$> filter (fun r => log_identity e r = i) records).
Definition grouped (records : list CriTailer.LogRecord) : list otlpResourceLogs :=
  resource_of records <$> firsts (log_identity e <$> records).

(** No NUL in the service, the namespace and the pod. *)
Definition keyable (r : CriTailer.LogRecord) : Prop :=
  let '(svc, ns, pod, host) := log_identity e r in
  Forall (fun s => 0 ∉ bytes_of s) [svc; ns; pod].

Lemma nul_cut (a b a' b' : string) :
  0 ∉ bytes_of a -> 0 ∉ bytes_of a' -> a +:+ nul +:+ b = a' +:+ nul +:+ b' -> a = a' /\ b = b'.
Proof.
  revert a'. induction a as [|c a IH]; intros [|c' a'] Ha Ha' E; cbn in E.
  - by injection E.
  - injection E as E1 E2. exfalso. apply Ha'. rewrite <- E1. by left.
  - injection E as E1 E2. exfalso. apply Ha. rewrite E1. by left.
  - injection E as -> E. destruct (IH a') as [-> ->]; try done.
    + intros Hin. apply Ha. by right.
    + intros Hin. apply Ha'. by right.
Qed.

Lemma group_key_inj r r' :
  keyable r -> keyable r' -> group_key (log_identity e r) = group_key (log_identity e r') ->
  log_identity e r = log_identity e r'.
Proof.
  unfold keyable. destruct (log_identity e r) as [[[svc ns] pod] host].
  destruct (log_identity e r') as [[[svc' ns'] pod'] host']. rewrite !Forall_cons.
  intros (? & ? & ? & _) (? & ? & ? & _) E. cbn [group_key] in E.
  apply nul_cut in E as [-> E]; [|done..]. apply nul_cut in E as [-> E]; [|done..].
  by apply nul_cut in E as [-> ->].
Qed.

Lemma resource_of_snoc l r i :
  resource_of (l ++ [r]) i =
  if decide (log_identity e r = i)
  then mk_resource_logs (rl_Attributes (resource_of l i)) (rl_LogRecords (resource_of l i) ++ [log_record range r])
  else resource_of l i.
Proof.
  unfold resource_of. rewrite filter_app, fmap_app. rewrite filter_cons, filter_nil.
  case_decide; cbn; [done|]. by rewrite app_nil_r.
Qed.

(** Only the resource of the record's identity changes. *)
Lemma alter_resource (ids : list (string * string * string * string)) l r idx :
  NoDup ids -> ids !! idx = Some (log_identity e r) ->
  alter (fun rl => mk_resource_logs (rl_Attributes rl) (rl_LogRecords rl ++ [log_record range r])) idx
    (resource_of l <$> ids) = resource_of (l ++ [r]) <$> ids.
Proof.
  intros Hnd Hi. apply list_eq. intros j. destruct (decide (idx = j)) as [<-|Hij].
  - rewrite list_lookup_alter_eq, !list_lookup_fmap, Hi. cbn. by rewrite resource_of_snoc, decide_True.
  - rewrite list_lookup_alter_ne, !list_lookup_fmap by done.
    destruct (ids !! j) as [i|] eqn:Ej; [|done]. cbn. rewrite resource_of_snoc, decide_False; [done|].
    intros <-. apply Hij. by eapply NoDup_lookup.
Qed.

(** The state of the loop after a prefix of the records. *)
Lemma group_logs_state records :
  Forall keyable records ->
  exists groups, foldl (add_log range e) ([], ∅) records = (grouped records, groups) /\
    (forall idx i, firsts (log_identity e <$> records) !! idx = Some i -> groups !! group_key i = Some idx) /\
    (forall k idx, groups !! k = Some idx -> exists r, r ∈ records /\ k = group_key (log_identity e r) /\
       firsts (log_identity e <$> records) !! idx = Some (log_identity e r)).
Proof.
  induction records as [|r l IH] using rev_ind; intros Hk; [by exists ∅|].
  rewrite Forall_app, Forall_singleton in Hk. destruct Hk as [Hl Hr].
  destruct (IH Hl) as (groups & E & H1 & H2). rewrite foldl_app, E. cbn [foldl add_log].
  unfold grouped. rewrite fmap_app. cbn [fmap list_fmap]. rewrite firsts_snoc.
  set (ids := firsts (log_identity e <$> l)) in *.
  pose proof (firsts_nodup (log_identity e <$> l)) as Hnd. fold ids in Hnd.
  destruct (groups !! group_key (log_identity e r)) as [idx|] eqn:Eg.
  - destruct (H2 _ _ Eg) as (r' & Hin & Hkey & Hidx).
    rewrite Forall_forall in Hl. apply group_key_inj in Hkey; [|done|by apply Hl].
    rewrite <- Hkey in Hidx. rewrite decide_True by (by eapply list_elem_of_lookup_2).
    exists groups. unfold grouped. fold ids. rewrite (alter_resource ids l r idx) by done. split_and!; [done..|].
    intros k j Hj. destruct (H2 k j Hj) as (r2 & ? & ? & ?). exists r2. split_and!; [set_solver|done..].
  - assert (log_identity e r ∉ ids) as Hni.
    { intros [idx Hidx]%list_elem_of_lookup. by rewrite (H1 _ _ Hidx) in Eg. }
    rewrite decide_False by done. unfold grouped. fold ids. rewrite length_fmap.
    eexists. split; [f_equal|].
    + replace ((resource_of l <$> ids) ++ [mk_resource_logs (resource_attrs (clusterName e) (log_identity e r)) []])%list
        with (resource_of l <$> (ids ++ [log_identity e r])).
      * apply alter_resource; [by apply NoDup_snoc|].
        by apply list_lookup_middle.
      * rewrite fmap_app. f_equal. cbn. f_equal. unfold resource_of. f_equal.
        replace (filter _ l) with (@nil CriTailer.LogRecord); [done|]. symmetry. apply elem_of_nil_inv.
        intros r' [Heq Hr']%list_elem_of_filter. apply Hni, elem_of_firsts. rewrite <- Heq.
        by apply list_elem_of_fmap_2.
    + split.
      * intros idx i. rewrite lookup_app. destruct (ids !! idx) as [i'|] eqn:Ei.
        -- intros [= ->]. rewrite lookup_insert_ne; [by apply H1|]. intros Heq.
           rewrite Heq, (H1 _ _ Ei) in Eg. done.
        -- intros Hi. apply list_lookup_singleton_Some in Hi as [Hlen <-].
           apply lookup_ge_None in Ei. rewrite lookup_insert_eq. f_equal. lia.
      * intros k idx. destruct (decide (k = group_key (log_identity e r))) as [->|Hne].
        -- rewrite lookup_insert_eq. intros [= <-]. exists r. split_and!; [set_solver|done|].
           by apply list_lookup_middle.
        -- rewrite lookup_insert_ne by done. intros Hidx. destruct (H2 _ _ Hidx) as (r2 & ? & ? & ?).
           exists r2. split_and!; [set_solver|done|]. by apply lookup_app_l_Some.
Qed.
End grouping.

(** The grouping with an index by key builds exactly one resource for each identity
    (service, namespace, pod, host), in order of first occurrence, with the attributes of
    that identity and all of its records, in order and once each; the key does not mix up
    identities without NUL bytes. *)
Theorem logs_grouped `{KV B} range (e : IngestExporter B) records :
  Forall (keyable e) records -> group_logs range e records = grouped range e records.
Proof.
  intros Hk. unfold group_logs. by destruct (group_logs_state range e records Hk) as (groups & -> & _).
Qed.

Definition sample_exporter : IngestExporter MemKV.bucket :=
  NewIngestExporter "http://gw/" " t " "h1" "c" "v" "" None.
Definition sample_log (svc pod body : string) : CriTailer.LogRecord :=
  CriTailer.mk_log_record 1 svc "" 9 "INFO" body "" "" {[ "k8s.pod.name" := pod ]}.

Lemma logs_grouped_witness :
  Forall (keyable sample_exporter) [sample_log "a" "p" "1"; sample_log "b" "p" "2"; sample_log "a" "p" "3"] /\
  group_logs map_to_list sample_exporter [sample_log "a" "p" "1"; sample_log "b" "p" "2"; sample_log "a" "p" "3"] =
  grouped map_to_list sample_exporter [sample_log "a" "p" "1"; sample_log "b" "p" "2"; sample_log "a" "p" "3"].
Proof.
  assert (Forall (keyable sample_exporter)
            [sample_log "a" "p" "1"; sample_log "b" "p" "2"; sample_log "a" "p" "3"]) as Hk.
  { repeat constructor; vm_compute; set_solver. }
  split; [exact Hk|]. exact (logs_grouped map_to_list sample_exporter _ Hk).
Defined.
End IngestProps.
