(* ===== verification/IngestPolicyProps.v ===== *)
(** * No signal leaves without its module

    Every operation of the ingest exporter moves the world along [grows]: requests are
    only added, each of a signal that the policy in force allows, and the settings of the
    exporter stay as they are. *)

From S2P Require Import Prelude GoStrings Wire Bolt SendQueue Otlp CriTailer Apm Ingest.
#[local] Open Scope Z_scope.

Module IngestPolicyProps.
Import SendQueue Ingest MemKV.

Section policy.
Context {B : Type} `{KV B}.
Variable client : nat -> http_request -> res http_response * Z.
Variable url_error : string -> option string.
Variable ParseTime : string -> option Z.
Variable range : tagmap -> list (string * string).
Variable protojson : NativeRequest -> res string.
Variable marshal : wire -> res string.
Variable rfc3339 : string -> bool.
Variable query_encode : list (string * string) -> string.
Variable json_valid : string -> bool.
Variable read_file : string -> option string.
Variable decode_host : string -> res string.
Implicit Types (w : World B) (e : IngestExporter B).

(** The signal of a request: its path under the gateway, without the query. *)
Definition signal_of e (r : http_request) : string :=
  (cut "?" (str_drop (String.length (base e +:+ "/")) (URL r))).1.1.

Definition permitted e (r : http_request) : Prop := signalAllowed (signal_of e r) e = true.

Definition same_settings e e' : Prop := exists q, e' = set_queue q e.

#[export] Instance same_settings_preorder : PreOrder same_settings.
Proof.
  split.
  - intros e. exists (metricsPending e). by destruct e.
  - intros e1 e2 e3 [q ->] [q' ->]. by exists q'.
Qed.

Lemma same_permitted e e' r : same_settings e e' -> permitted e' r <-> permitted e r.
Proof. by intros [q ->]. Qed.

Definition grows w w' : Prop :=
  same_settings (exporter w) (exporter w') /\
  exists new, requests w' = (new ++ requests w)%list /\ Forall (permitted (exporter w)) new.

#[local] Instance grows_preorder : PreOrder grows.
Proof.
  split.
  - intros w. split; [reflexivity|]. by exists [].
  - intros w1 w2 w3 [H1 (n1 & E1 & F1)] [H2 (n2 & E2 & F2)]. split; [by etrans|].
    exists (n2 ++ n1)%list. rewrite E2, E1, app_assoc. split; [done|]. apply Forall_app. split; [|done].
    eapply Forall_impl; [exact F2|]. intros r Hr. by apply (same_permitted _ _ r H1).
Qed.

(** Steps that send nothing. *)
Lemma grows_silent w w' :
  same_settings (exporter w) (exporter w') -> requests w' = requests w -> grows w w'.
Proof. intros Hs E. split; [done|]. by exists []. Qed.

Lemma grows_queue f w : grows w (on_queue f w).
Proof. apply grows_silent; [by eexists|done]. Qed.

Lemma signal_of_plain e signal m h b :
  contains "?" signal = false -> signal_of e (mk_http_request m (base e +:+ "/" +:+ signal) h b) = signal.
Proof.
  intros Hc. unfold signal_of. cbn [URL].
  rewrite <- str_app_assoc, str_drop_app. unfold cut. unfold contains in Hc.
  by destruct (cut_at "?" signal) as [[]|].
Qed.

Lemma signal_of_query e signal query m h b :
  contains "?" signal = false ->
  signal_of e (mk_http_request m (base e +:+ "/" +:+ signal +:+ "?" +:+ query) h b) = signal.
Proof.
  intros Hc. unfold signal_of. cbn [URL]. rewrite <- str_app_assoc, str_drop_app.
  unfold cut. change ("?" +:+ query) with (String (Ascii.ascii_of_nat 63) query). by rewrite cut_at_app_char.
Qed.

Lemma grows_removal code w : grows w (noteTerminalRemoval code w).
Proof. unfold noteTerminalRemoval. case_match; [by apply grows_silent|reflexivity]. Qed.

Lemma grows_note_answer now resp w : grows w (note_answer ParseTime now resp w).
Proof.
  unfold note_answer. destruct (ok_status _); [by apply grows_silent|].
  destruct (_ || _), (_ =? 410); try reflexivity; try apply grows_queue; try apply grows_removal.
  etrans; [apply grows_queue|apply grows_removal].
Qed.

(** An attempt whose request is permitted. *)
Lemma grows_record a w :
  from_option (permitted (exporter w)) True (sent a) -> grows w (record_attempt ParseTime a w).
Proof.
  intros Hs. unfold record_attempt.
  match goal with |- context [mk_world ?e ?n ?l ?k ?i] => set (w1 := mk_world e n l k i) end.
  assert (grows w w1) as Hw1.
  { split; [reflexivity|]. subst w1. cbn. destruct (sent a) as [r|]; [exists [r] | exists []]; by split; auto. }
  cbn zeta. destruct (answer a); [|done]. etrans; [exact Hw1|apply grows_note_answer].
Qed.

Lemma raw_attempt_permitted n signal ct body e :
  contains "?" signal = false ->
  from_option (permitted e) True (sent (raw_attempt client url_error n signal ct body e)).
Proof.
  intros Hc. unfold raw_attempt. case_match; [done|]. destruct (signalAllowed signal e) eqn:Ha; [|done].
  cbn [negb]. case_match; [done|]. destruct (client _ _) as [[resp|err] now]; cbn;
    unfold permitted, raw_request; by rewrite signal_of_plain.
Qed.

Lemma grows_PostRaw signal ct body w :
  contains "?" signal = false -> grows w (PostRaw client url_error ParseTime signal ct body w).2.
Proof. intros Hc. by apply grows_record, raw_attempt_permitted. Qed.

Lemma grows_record_posts w0 n posted w :
  same_settings (exporter w0) (exporter w) ->
  grows w (record_posts ParseTime (metrics_attempt client url_error w0) n posted w).
Proof.
  revert n w. induction posted as [|b posted IH]; intros n w Hs; cbn; [reflexivity|].
  assert (grows w (record_attempt ParseTime (metrics_attempt client url_error w0 n b) w)) as Hg.
  { apply grows_record. destruct Hs as [q Hq]. rewrite Hq.
    pose proof (raw_attempt_permitted (attempts w0 + n) "metrics" "application/json" b (exporter w0) eq_refl) as Hp.
    unfold metrics_attempt. by destruct (sent _). }
  etrans; [exact Hg|]. apply IH. etrans; [exact Hs|apply Hg].
Qed.

Lemma grows_flush fuel now w err w' posted :
  flush_metrics client url_error ParseTime fuel now w = Some (err, w', posted) -> grows w w'.
Proof.
  unfold flush_metrics. destruct (Flush _ _ _ _) as [[[e q] l]|]; [|done]. intros [= <- <- <-].
  etrans; [apply (grows_queue (fun _ => q))|]. apply grows_record_posts. by eexists.
Qed.

Lemma grows_send_bodies fuel now bodies sendError w err w' :
  send_bodies client url_error ParseTime fuel now bodies sendError w = Some (err, w') -> grows w w'.
Proof.
  revert sendError w. induction bodies as [|b bodies IH]; intros se w; cbn [send_bodies]; [by intros [= <- <-]|].
  destruct (Offer (now (length bodies)) b None (queue_of w)) as [[u|e] q];
    [|intros [= <- <-]; apply (grows_queue (fun _ => q))].
  intros Hl. etrans; [apply (grows_queue (fun _ => q))|]. destruct se as [e|]; [by eapply IH|].
  destruct (flush_metrics client _ _ _ _ _) as [[[err1 w1] posted]|] eqn:Ef; [|done].
  etrans; [by eapply grows_flush|by eapply IH].
Qed.

Lemma grows_PostMetrics fuel start now metrics w err w' :
  PostMetrics client url_error ParseTime range protojson fuel start now metrics w = Some (err, w') -> grows w w'.
Proof.
  unfold PostMetrics. destruct (omap _ metrics); [by intros [= <- <-]|].
  destruct (nativeMetricBodies _ _) as [[bodies [e|]]|]; [by intros [= <- <-]| |done].
  apply grows_send_bodies.
Qed.

Abbreviation post_json := (post_json client url_error ParseTime marshal).
Abbreviation guarded := (guarded client url_error ParseTime marshal).

Lemma grows_post_json signal p w : contains "?" signal = false -> grows w (post_json signal p w).2.
Proof. intros Hc. unfold Ingest.post_json. case_match; [by apply grows_PostRaw|reflexivity]. Qed.

Lemma grows_guarded signal p w : contains "?" signal = false -> grows w (guarded signal p w).2.
Proof. intros Hc. unfold Ingest.guarded. case_match; [by apply grows_post_json|reflexivity]. Qed.

Lemma grows_exchange req w : permitted (exporter w) req -> grows w (exchange client url_error req w).2.
Proof.
  intros Hp. unfold exchange. case_match; [reflexivity|]. split; [reflexivity|].
  exists [req]. split; [done|by constructor].
Qed.

Lemma grows_register what path gone payload w :
  contains "?" path = false -> module_of path = None ->
  grows w (register client url_error marshal decode_host what ("/" +:+ path) gone payload w).2.
Proof.
  intros Hc Hm. unfold register. set (b := default _ _).
  match goal with |- context [exchange client url_error ?r w] =>
    pose proof (grows_exchange r w) as Hg; destruct (exchange client url_error r w) as [a w1] end.
  assert (grows w w1) as Hw1.
  { apply Hg. unfold permitted. rewrite signal_of_plain by done. unfold signalAllowed. rewrite Hm. by case_match. }
  destruct a as [resp|err]; [|done]. destruct (negb _); [|done].
  destruct (gone && _); [|done]. etrans; [exact Hw1|apply grows_removal].
Qed.

Lemma grows_applicationConfig signal service env version w :
  contains "?" signal = false ->
  grows w (applicationConfig client url_error query_encode json_valid signal service env version w).2.
Proof.
  intros Hc. unfold applicationConfig. destruct (signalAllowed signal (exporter w)) eqn:Ha; [|reflexivity].
  cbn [negb]. match goal with |- context [exchange client url_error ?r w] =>
    pose proof (grows_exchange r w) as Hg; destruct (exchange client url_error r w) as [a w1] end.
  apply Hg. unfold permitted. by rewrite signal_of_query.
Qed.

(** ** Every operation *)

Inductive step w : World B -> Prop :=
  | s_raw signal ct body : contains "?" signal = false ->
      step w (PostRaw client url_error ParseTime signal ct body w).2
  | s_metrics fuel start now metrics err w' :
      PostMetrics client url_error ParseTime range protojson fuel start now metrics w = Some (err, w') -> step w w'
  | s_trap m : step w (PostSnmpTrap client url_error ParseTime marshal m w).2
  | s_events m : step w (PostK8sEvents client url_error ParseTime marshal m w).2
  | s_resources m : step w (PostK8sResources client url_error ParseTime marshal m w).2
  | s_services m : step w (PostHostServices client url_error ParseTime marshal m w).2
  | s_logs records : step w (PostLogs client url_error ParseTime range marshal records w).2
  | s_status id ok message : step w (PostCheckStatus client url_error ParseTime marshal id ok message w).2
  | s_topology report : step w (PostTopology client url_error ParseTime marshal report w).2
  | s_device host device : step w (PostDeviceMetadata client url_error ParseTime marshal host device w).2
  | s_config host vendor source raw key :
      step w (PostDeviceConfig client url_error ParseTime marshal host vendor source raw key w).2
  | s_query_stats now p : step w (PostDatabaseQueryStats client url_error ParseTime marshal now p w).2
  | s_catalog now p : step w (PostDatabaseCatalog client url_error ParseTime marshal now p w).2
  | s_diagnostics now p : step w (PostDatabaseDiagnostics client url_error ParseTime marshal now p w).2
  | s_explain now p : step w (PostDatabaseExplain client url_error ParseTime marshal now p w).2
  | s_capabilities now p : step w (PostDatabaseCapabilities client url_error ParseTime marshal now p w).2
  | s_runtime now p : step w (PostDatabaseCollectorRuntime client url_error ParseTime marshal now p w).2
  | s_discovery now p : step w (PostDatabaseInstanceDiscovery client url_error ParseTime marshal now p w).2
  | s_inventory report : step w (PostExternalInventory client url_error ParseTime marshal rfc3339 report w).2
  | s_debug service env version :
      step w (DebugConfig client url_error query_encode json_valid service env version w).2
  | s_remote service env version :
      step w (SDKRemoteConfig client url_error query_encode json_valid service env version w).2
  | s_node cluster node ip ver :
      step w (RegisterK8sNode client url_error marshal read_file decode_host cluster node ip ver w).2
  | s_host hostname mode collector :
      step w (registerHost client url_error marshal read_file decode_host hostname mode collector w).2.

Lemma grows_post_map signal m w :
  contains "?" signal = false -> grows w (post_map client url_error ParseTime marshal signal m w).2.
Proof. intros Hc. unfold post_map. case_match; [reflexivity|by apply grows_post_json]. Qed.

Lemma step_grows w w' : step w w' -> grows w w'.
Proof.
  destruct 1;
    unfold PostSnmpTrap, PostK8sEvents, PostK8sResources, PostHostServices, PostDatabaseCatalog,
      PostDatabaseDiagnostics, PostDatabaseExplain, PostDatabaseCapabilities, PostDatabaseCollectorRuntime,
      PostDatabaseInstanceDiscovery, DebugConfig, SDKRemoteConfig, RegisterK8sNode, registerHost;
    cbn zeta;
    try first
      [ by apply grows_PostRaw | by eapply grows_PostMetrics | by apply grows_post_map
      | by apply grows_guarded | by apply grows_applicationConfig
      | by apply (grows_register _ "k8s/register") | by apply (grows_register _ "host/register") ].
  - unfold PostLogs. case_match; [reflexivity|by apply grows_post_json].
  - unfold PostCheckStatus. case_match; [reflexivity|by apply grows_post_json].
  - unfold PostTopology. destruct report as [r|]; [|reflexivity]. destruct (tp_Edges r); [reflexivity|].
    cbn zeta. match goal with |- context [Ingest.post_json _ _ _ _ _ ?p w] =>
      pose proof (grows_post_json "topology" p w eq_refl) as Hg end.
    by destruct (Ingest.post_json _ _ _ _ _ _ w) as [err w1].
  - unfold PostDeviceMetadata. case_match; [reflexivity|by apply grows_post_json].
  - unfold PostDeviceConfig. case_match; [reflexivity|by apply grows_post_json].
  - unfold PostDatabaseQueryStats. case_match; [reflexivity|by apply grows_guarded].
  - unfold PostExternalInventory. case_match; [reflexivity|]. destruct (marshal _); [|reflexivity].
    case_match; [reflexivity|by apply grows_PostRaw].
Qed.

Lemma steps_grow w w' : rtc step w w' -> grows w w'.
Proof. induction 1; [reflexivity|]. etrans; [by apply step_grows|done]. Qed.
End policy.

(** C8: Once a policy of modules has been set, whatever the exporter is asked to send —
    raw bodies, metrics, logs, topology, device, database and inventory payloads,
    configuration requests, registrations — in whatever order, every request that leaves
    belongs to a module of the policy or to none. *)
Theorem entitled_only `{KV B} client url_error ParseTime range protojson marshal rfc3339 query_encode json_valid
    read_file decode_host ToUpper (ms : list string) (w0 w' : World B) new r m :
  let w := on_exporter (SetEnabledModules ToUpper ms) w0 in
  rtc (step client url_error ParseTime range protojson marshal rfc3339 query_encode json_valid read_file decode_host) w w' ->
  requests w' = (new ++ requests w)%list -> r ∈ new ->
  module_of (signal_of (exporter w) r) = Some m ->
  exists x, x ∈ ms /\ m = ToUpper (trim_space x).
Proof.
  intros w [_ (new' & E & Hall)]%steps_grow En Hr Hm. rewrite En in E. apply app_inv_tail in E as <-.
  rewrite Forall_forall in Hall. pose proof (Hall r Hr) as Hp. unfold permitted, signalAllowed in Hp.
  rewrite Hm in Hp. cbn [enabledModules exporter on_exporter w SetEnabledModules set_modules] in Hp.
  apply bool_decide_eq_true, elem_of_list_to_set, list_elem_of_fmap in Hp as (x & -> & Hx). by exists x.
Qed.

Definition sample_world : World MemKV.bucket :=
  mk_world (NewIngestExporter "http://gw" "t" "h1" "" "v" "" None) 0 [] [] None.
Definition sample_client (n : nat) (r : http_request) : res http_response * Z := (Ok (mk_http_response 200 "" (Ok "")), 5).
Definition upper : string -> string := map_bytes upper_byte.

Lemma entitled_only_witness :
  exists x, x ∈ ["apm"; " logs "] /\ "LOGS" = upper (trim_space x).
Proof.
  pose (w := on_exporter (SetEnabledModules upper ["apm"; " logs "]) sample_world).
  pose (e := exporter w).
  apply (entitled_only sample_client (fun _ => None) (fun _ => None) map_to_list (fun _ => Err "") (fun _ => Err "")
    (fun _ => true) (fun _ => "") (fun _ => true) (fun _ => None) (fun _ => Err "") upper ["apm"; " logs "] sample_world
    (PostRaw sample_client (fun _ => None) (fun _ => None) "logs" "application/json" "{}" w).2
    [raw_request "logs" "application/json" "{}" e] (raw_request "logs" "application/json" "{}" e) "LOGS").
  - apply rtc_once. by apply s_raw.
  - vm_compute. reflexivity.
  - by left.
  - vm_compute. reflexivity.
Defined.
End IngestPolicyProps.
