(* ===== verification/IngestQueueProps.v ===== *)
(** * Native metrics are kept until they are answered

    The composition of the ingest exporter with its send queue: a metrics body is queued
    before it is posted, and leaves the queue only with an answer of the gateway. *)

From S2P Require Import Prelude GoStrings Wire Bolt SendQueue SendQueueFacts SendQueueProps Otlp Ingest.
From S2P Require Import IngestPolicyProps.
#[local] Open Scope Z_scope.

Module IngestQueueProps.
Import SendQueue SendQueueFacts SendQueueProps.SendQueueProps Ingest IngestPolicyProps.IngestPolicyProps MemKV.

Section keeping.
Context {B : Type} `{KVLaws B}.
Variable client : nat -> http_request -> res http_response * Z.
Variable url_error : string -> option string.
Variable ParseTime : string -> option Z.
Implicit Types (w : World B).

Abbreviation flush_metrics := (flush_metrics client url_error ParseTime).
Abbreviation send_bodies := (send_bodies client url_error ParseTime).

(** An answer after which a body is not sent again: a success, or a refusal that
    retrying cannot mend. *)
Definition final (code : Z) : bool := ok_status code || (code =? 401) || (code =? 403) || (code =? 429).

(** A request with the body was sent and got a final answer. *)
Definition answered w (body : string) : Prop :=
  exists r n resp t, r ∈ requests w /\ ReqBody r = body /\ client n r = (Ok resp, t) /\
    final (StatusCode resp) = true.

Lemma answered_grows w w' body : grows w w' -> answered w body -> answered w' body.
Proof.
  intros [_ (new & E & _)] (r & n & resp & t & Hr & Hrest). exists r, n, resp, t.
  split; [|done]. rewrite E. apply elem_of_app. by right.
Qed.

Lemma frame_record a w : frame (queue_of w) (queue_of (record_attempt ParseTime a w)).
Proof.
  unfold record_attempt. destruct (answer a) as [resp|]; [|done]. unfold note_answer.
  destruct (ok_status _); [done|].
  assert (forall code (w1 : World B), queue_of (noteTerminalRemoval code w1) = queue_of w1) as Hn.
  { intros code w1. unfold noteTerminalRemoval. by case_match. }
  destruct (_ || _), (_ =? 410); rewrite ?Hn; try done; apply frame_noteTerminal.
Qed.

Lemma frame_record_posts f n posted w : frame (queue_of w) (queue_of (record_posts ParseTime f n posted w)).
Proof.
  revert n w. induction posted as [|b l IH]; intros n w; cbn [record_posts]; [done|].
  etrans; [apply frame_record|apply IH].
Qed.

(** A recorded request stays recorded. *)
Lemma requests_record a w r : r ∈ requests w \/ sent a = Some r -> r ∈ requests (record_attempt ParseTime a w).
Proof.
  intros Hr. unfold record_attempt.
  assert (forall now resp w1, requests (note_answer ParseTime now resp w1 : World B) = requests w1) as Hn.
  { intros now resp w1. unfold note_answer, noteTerminalRemoval. repeat case_match; done. }
  assert (r ∈ from_option (fun r => r :: requests w) (requests w) (sent a)) as Hin.
  { destruct Hr as [Hr| ->]; [|by left]. destruct (sent a); [by right|done]. }
  destruct (answer a); [by rewrite Hn|done].
Qed.

Lemma requests_posts f n posted w r :
  (r ∈ requests w \/ exists i b, posted !! i = Some b /\ sent (f (n + i)%nat b) = Some r) ->
  r ∈ requests (record_posts ParseTime f n posted w).
Proof.
  revert n w. induction posted as [|b l IH]; intros n w Hr; cbn [record_posts].
  - destruct Hr as [Hr|(i & b & Hi & _)]; [done|by rewrite lookup_nil in Hi].
  - apply IH. destruct Hr as [Hr|([|i] & b' & Hi & Hs)].
    + left. apply requests_record. by left.
    + left. apply requests_record. right. injection Hi as <-. by rewrite Nat.add_0_r in Hs.
    + right. exists i, b'. split; [done|]. by rewrite Nat.add_succ_comm.
Qed.

(** A POST that lets a payload go had a final answer. *)
Lemma settled_attempt w n b :
  b <> "" ->
  match (metrics_poster client url_error w n b).1 with None => True | Some e => terminal e = true end ->
  exists r resp t, sent (metrics_attempt client url_error w n b) = Some r /\ ReqBody r = b /\
    client (attempts w + n) r = (Ok resp, t) /\ final (StatusCode resp) = true.
Proof.
  intros Hb. unfold metrics_poster, metrics_attempt, raw_attempt.
  apply String.eqb_neq in Hb. rewrite Hb.
  assert (signalAllowed "metrics" (exporter w) = true) as -> by (unfold signalAllowed; by case_match).
  cbn [negb]. destruct (url_error _); [by cbn|]. set (r := raw_request _ _ _ _).
  destruct (client (attempts w + n) r) as [[resp|err] t] eqn:Ec; cbn; [|done].
  intros Ht. exists r, resp, t. split_and!; [done..|]. unfold final. unfold status_result in Ht.
  destruct (ok_status _); [done|]. cbn in Ht |- *.
  destruct (_ =? 401), (_ =? 403), (_ =? 429); done.
Qed.

(** One flush. *)
Lemma flush_metrics_safe fuel now w :
  Inv (queue_of w) -> Forall (fun b => b <> "") (contents (queue_of w)) ->
  match flush_metrics fuel now w with
  | Some (err, w', posted) => exists gone, same_env (queue_of w) (queue_of w') /\
      contents (queue_of w) = (gone ++ contents (queue_of w'))%list /\ Forall (answered w') gone
  | None => ~ enough fuel (queue_of w)
  end.
Proof.
  intros Hi Hne. unfold Ingest.flush_metrics.
  pose proof (Flush_safe fuel (metrics_poster client url_error w) now (queue_of w) Hi) as Hs.
  destruct (Flush _ _ _ _) as [[[err q] posted]|]; [|done]. destruct Hs as (gone & He & Hc & Hg).
  set (w1 := on_queue (fun _ => q) w).
  pose proof (frame_record_posts (metrics_attempt client url_error w) 0 (reverse posted) w1) as Hf1.
  exists gone. split_and!.
  - etrans; [exact He|]. apply frame_env; [apply He|exact Hf1].
  - rewrite Hc. f_equal. symmetry. apply Hf1.
  - rewrite Hc in Hne. apply Forall_app in Hne as [Hne _].
    rewrite Forall_forall in *. intros b Hb. destruct (Hg b Hb) as (i & Hi' & Hs).
    destruct (settled_attempt w i b (Hne b Hb) Hs) as (r & resp & t & Hsent & Hbody & Hcl & Hfin).
    exists r, (attempts w + i)%nat, resp, t. split_and!; [|done..]. apply requests_posts. right. by exists i, b.
Qed.

(** The loop finds room in the counters of the queue at each offer. *)
Fixpoint roomy (fuel : nat) (now : nat -> Z) (bodies : list string) (sendError : option goerr) w : Prop :=
  match bodies with
  | [] => True
  | body :: bodies =>
      let t := now (length bodies) in
      has_room body (queue_of w) /\
      match Offer t body None (queue_of w) with
      | (Err _, _) => True
      | (Ok _, q) =>
          let w := on_queue (fun _ => q) w in
          match sendError with
          | Some _ => roomy fuel now bodies sendError w
          | None => match flush_metrics fuel t w with
                    | None => True
                    | Some (err, w, _) => roomy fuel now bodies err w
                    end
          end
      end
  end.

(** The payloads [old] and [bodies] of a loop, at its end: [stored] of the bodies were
    queued, all of them unless the disk refused one; what is no longer queued was answered. *)
Definition kept (old bodies : list string) (err : option goerr) w' : Prop :=
  exists stored rest gone, bodies = (stored ++ rest)%list /\
    (rest <> [] -> exists e, err = Some (Wrapped "queue metrics: " e)) /\
    (old ++ stored)%list = (gone ++ contents (queue_of w'))%list /\ Forall (answered w') gone.

Lemma same_env_size q q' gone :
  contents q = (gone ++ contents q')%list -> size (contents q') <= size (contents q).
Proof. intros ->. rewrite size_app. pose proof (size_nonneg gone). lia. Qed.

Lemma kept_cons old body bodies err gone1 w1 w' :
  (old ++ [body])%list = (gone1 ++ contents (queue_of w1))%list -> Forall (answered w') gone1 ->
  kept (contents (queue_of w1)) bodies err w' -> kept old (body :: bodies) err w'.
Proof.
  intros E Hg (stored & rest & gone & -> & Hr & Ec & Hgone).
  exists (body :: stored), rest, (gone1 ++ gone)%list. split_and!; [done|done| |by apply Forall_app].
  change (body :: stored) with ([body] ++ stored)%list.
  by rewrite app_assoc, E, <- !app_assoc, Ec.
Qed.

(** What the loop assumes of the queue for the bodies that are left: they fit. *)
Definition ready (bodies : list string) (q : Queue B) : Prop :=
  Inv q /\ Forall (fun b => b <> "") (contents q ++ bodies) /\ size (contents q ++ bodies) <= maxBytes q.

(** Enough fuel for the flushes of the loop: above the number of payloads and of outcomes
    of the disk that are left. *)
Definition lasting (fuel : nat) (bodies : list string) (q : Queue B) : Prop :=
  (io_left q + length (contents q) + length bodies < fuel)%nat.

(** An accepted offer. *)
Lemma ready_offer now body bodies q q' u :
  ready (body :: bodies) q -> has_room body q -> Offer now body None q = (Ok u, q') ->
  ready bodies q' /\ contents q' = (contents q ++ [body])%list /\
  forall fuel, lasting fuel (body :: bodies) q -> lasting fuel bodies q'.
Proof.
  intros (Hi & Hne & Hs) Hroom Ho.
  pose proof (Offer_io now body None q Hi Hroom) as Hio. rewrite Ho in Hio. cbn in Hio.
  destruct (Offer_retained _ _ None _ _ _ Hi Hroom eq_refl Ho) as (Hi' & Hm & (Hc & _) & _).
  assert (contents q ++ body :: bodies = (contents q ++ [body]) ++ bodies)%list as Eb by (by rewrite <- app_assoc).
  rewrite Eb in Hne, Hs. rewrite evict_fits in Hc.
  2: { rewrite (size_app (_ ++ _) bodies) in Hs. pose proof (size_nonneg bodies). lia. }
  unfold ready, lasting. rewrite Hm, Hc. split_and!; try done.
  intros fuel Hf. rewrite length_app. cbn [length] in *. lia.
Qed.

(** A flush in between. *)
Lemma ready_flush bodies q q' gone :
  ready bodies q -> same_env q q' -> contents q = (gone ++ contents q')%list ->
  ready bodies q' /\ forall fuel, lasting fuel bodies q -> lasting fuel bodies q'.
Proof.
  intros (Hi & Hne & Hs) (Hi' & Hm & _ & Hl & _) Hc. rewrite Hc in *. unfold ready, lasting. rewrite Hm, Hc.
  rewrite <- app_assoc in Hne, Hs. apply Forall_app in Hne as [_ Hne].
  rewrite (size_app gone) in Hs. pose proof (size_nonneg gone).
  split_and!; [done|done|lia|]. intros fuel. rewrite length_app. lia.
Qed.

Lemma send_bodies_kept fuel now bodies sendError w :
  ready bodies (queue_of w) -> roomy fuel now bodies sendError w ->
  match send_bodies fuel now bodies sendError w with
  | Some (err, w') => kept (contents (queue_of w)) bodies err w'
  | None => ~ lasting fuel bodies (queue_of w)
  end.
Proof.
  revert sendError w. induction bodies as [|body bodies IH]; intros se w Hready Hroom.
  { cbn. exists [], [], []. split_and!; [done|done|by rewrite app_nil_r|done]. }
  cbn [roomy] in Hroom. destruct Hroom as [Hroom Hrest]. cbn [Ingest.send_bodies].
  destruct (Offer (now (length bodies)) body None (queue_of w)) as [[u|e] q] eqn:Ho.
  2: { exists [], (body :: bodies), []. destruct Hready as [Hi _].
       destruct (Offer_retained _ _ None _ _ _ Hi Hroom eq_refl Ho) as (_ & _ & (Hc & _) & _).
       rewrite app_nil_r. split_and!; [done|intros _; by eexists|by rewrite <- Hc|done]. }
  destruct (ready_offer _ _ _ _ _ _ Hready Hroom Ho) as (Hready1 & Hc1 & Hl1).
  set (w1 := on_queue (fun _ => q) w) in *.
  destruct se as [e|].
  - specialize (IH (Some e) w1 Hready1 Hrest).
    destruct (send_bodies _ _ _ _ _) as [[err w']|]; [by apply (kept_cons _ _ _ _ [] w1)|].
    intros Hf. by apply IH, Hl1.
  - pose proof Hready1 as (Hi1 & Hne1 & _). apply Forall_app in Hne1 as [Hne1 _].
    pose proof (flush_metrics_safe fuel (now (length bodies)) w1 Hi1 Hne1) as Hs.
    destruct (flush_metrics _ _ _) as [[[err1 w2] posted]|].
    2: { intros Hf%Hl1. apply Hs. unfold enough, lasting in *. change (queue_of w1) with q. lia. }
    destruct Hs as (gone & He & Hc2 & Hg).
    destruct (ready_flush _ _ _ _ Hready1 He Hc2) as [Hready2 Hl2]. specialize (IH err1 w2 Hready2 Hrest).
    destruct (send_bodies fuel now bodies err1 w2) as [[err w']|] eqn:Es; [|intros Hf; by apply IH, Hl2, Hl1].
    apply (kept_cons _ _ _ _ gone w2); [| |done].
    + rewrite <- Hc2. by rewrite <- Hc1.
    + eapply Forall_impl; [exact Hg|]. intros b. apply answered_grows.
      by eapply grows_send_bodies.
Qed.
End keeping.

(** C6: [PostMetrics] loses no metrics while the queue has space: when it returns, every
    body it cut and every body that was queued before is queued, in order, except for
    bodies at the front that were sent in a request whose answer was final (a success, 401,
    403 or 429), and, when the error says so, for bodies the disk refused to queue.  It
    returns once the disk has stopped failing: with more fuel than there are payloads and
    outcomes of the disk left. *)
Theorem metrics_kept `{KVLaws B} client url_error ParseTime range protojson fuel start now metrics
    (w : World B) dps bodies :
  let e := exporter w in
  omap (native_metric range start (installationID e)) metrics = dps -> dps <> [] ->
  nativeMetricBodies protojson (mk_native (native_resource e) dps) = Some (bodies, None) ->
  ready bodies (queue_of w) -> roomy client url_error ParseTime fuel now bodies None w ->
  match PostMetrics client url_error ParseTime range protojson fuel start now metrics w with
  | Some (err, w') => kept client (contents (queue_of w)) bodies err w'
  | None => ~ lasting fuel bodies (queue_of w)
  end.
Proof.
  intros e Hd Hn Hb Hready Hroom. unfold PostMetrics. fold e. rewrite Hd.
  destruct dps as [|d dps]; [done|]. rewrite Hb. by apply send_bodies_kept.
Qed.

Definition one_body (r : NativeRequest) : res string := Ok (String.concat "," (gm_Name <$> nr_Metrics r)).
Definition sample_metrics : list (option Metric) :=
  [Some (mk_metric (Some 7) "h1" "cpu" f64_one "" "" ∅ "linux"); None; Some (mk_metric None "h1" "mem" f64_one "" "" ∅ "linux")].

Lemma metrics_kept_witness :
  exists err w',
    PostMetrics sample_client (fun _ => None) (fun _ => None) map_to_list one_body 9 5 (fun _ => 6) sample_metrics
      sample_world = Some (err, w') /\
    kept sample_client [] ["cpu,mem"] err w'.
Proof.
  assert (match PostMetrics sample_client (fun _ => None) (fun _ => None) map_to_list one_body 9 5 (fun _ => 6)
      sample_metrics sample_world with
    | Some (err, w') => kept sample_client [] ["cpu,mem"] err w'
    | None => ~ lasting 9 ["cpu,mem"] (queue_of sample_world)
    end /\ lasting 9 ["cpu,mem"] (queue_of sample_world)) as [Hk Hl].
  { split; [|unfold lasting; cbn; lia].
    refine (metrics_kept sample_client (fun _ => None) (fun _ => None) map_to_list one_body 9 5 (fun _ => 6)
           sample_metrics sample_world
           (omap (native_metric map_to_list 5 "") sample_metrics) ["cpu,mem"] _ _ _ _ _).
    - reflexivity.
    - vm_compute. discriminate.
    - vm_compute. reflexivity.
    - unfold ready. split_and!.
      + split; [vm_compute; by split|reflexivity].
      + repeat constructor. discriminate.
      + vm_compute. discriminate.
    - split; [exact I|]. vm_compute. exact I. }
  destruct (PostMetrics _ _ _ _ _ _ _ _ _ _) as [[err w']|]; [exists err, w'; split; [reflexivity|exact Hk]|contradiction].
Defined.
End IngestQueueProps.
