(* ===== verification/Logs.v ===== *)
(** * The logs exporter (internal/otlp/logs.go)

    Log records and raw OTLP bodies wait in a write-ahead queue on disk until the
    gateway has taken them.  [FlushBatch] of the queue calls back with the oldest
    bodies; a batch makes at most one attempt per body, so the attempts of the n-th
    batch of a flush are numbered from [LogsBatchMaxRecords * n].

    The encoding of a queued item and of the batch of the mTLS channel, and the loading
    of certificates, are arguments. *)

From S2P Require Import Prelude GoStrings Wire Bolt SendQueue CriTailer Apm Ingest.
#[local] Open Scope Z_scope.

Module Logs.
Import SendQueue Ingest.

Definition LogsBatchMaxRecords : Z := 100.
Definition LogsBatchFlushInterval : Z := 2 * second.
Definition LogsRequestTimeout : Z := 10 * second.
Definition maxRetryDelay : Z := 30 * second.

(** [pendingLog]: a record, or a raw body. *)
Record pendingLog := mk_pending_log {
  pl_Record : option CriTailer.LogRecord;
  pl_ContentType : string;
  pl_Body : string;
}.

(** [logBatchWire]; the records are encoded field by field. *)
Record logBatchWire := mk_batch_wire {
  bw_CollectorID : string;
  bw_Hostname : string;
  bw_Records : list CriTailer.LogRecord;
}.

Section logs.
Context {B : Type} `{KV B}.

Record LogsExporter := mk_logs {
  collectorID : string;
  endpoint : string;
  tenantID : string;
  certless : bool;    (* e.ingest != nil *)
  pending : Queue B;
  retryAt : Z;
  retryDelay : Z;
  linesTotal : Z;     (* int64 counters *)
  bytesTotal : Z;
  droppedTotal : Z;
  sentBatches : Z;
  sendFailures : Z;
}.

(** The exporter and the world it posts into: without an ingest exporter only the
    attempts and requests of the world are used. *)
Record State := mk_state { logs : LogsExporter; world : World B }.

Definition set_pending (q : Queue B) (e : LogsExporter) : LogsExporter :=
  mk_logs (collectorID e) (endpoint e) (tenantID e) (certless e) q (retryAt e) (retryDelay e)
    (linesTotal e) (bytesTotal e) (droppedTotal e) (sentBatches e) (sendFailures e).
Definition set_retry (at_ delay : Z) (e : LogsExporter) : LogsExporter :=
  mk_logs (collectorID e) (endpoint e) (tenantID e) (certless e) (pending e) at_ delay
    (linesTotal e) (bytesTotal e) (droppedTotal e) (sentBatches e) (sendFailures e).
Definition add_line (n : Z) (e : LogsExporter) : LogsExporter :=
  mk_logs (collectorID e) (endpoint e) (tenantID e) (certless e) (pending e) (retryAt e) (retryDelay e)
    (i64 (linesTotal e + 1)) (i64 (bytesTotal e + n)) (droppedTotal e) (sentBatches e) (sendFailures e).
Definition add_sent (n : Z) (e : LogsExporter) : LogsExporter :=
  mk_logs (collectorID e) (endpoint e) (tenantID e) (certless e) (pending e) (retryAt e) (retryDelay e)
    (linesTotal e) (bytesTotal e) (droppedTotal e) (i64 (sentBatches e + n)) (sendFailures e).
Definition add_failure (e : LogsExporter) : LogsExporter :=
  mk_logs (collectorID e) (endpoint e) (tenantID e) (certless e) (pending e) (retryAt e) (retryDelay e)
    (linesTotal e) (bytesTotal e) (droppedTotal e) (sentBatches e) (i64 (sendFailures e + 1)).

Definition on_logs (f : LogsExporter -> LogsExporter) (s : State) : State := mk_state (f (logs s)) (world s).

(** ** Construction *)

Definition fresh (collector endpoint tenant : string) (certless : bool) (q : Queue B) : LogsExporter :=
  mk_logs collector endpoint tenant certless q zero_time 0 0 0 0 0 0.

Definition NewIngestLogsExporter (dir : string) (opened : option (boltdb B)) : res LogsExporter :=
  q ← NewDurable "logs" (64 * 2 ^ 20) dir opened; Ok (fresh "" "" "" true q).

Section certificates.
Variable LoadX509KeyPair : string -> string -> res unit.
Variable read_file : string -> res string.
Variable AppendCertsFromPEM : string -> bool.

Definition NewLogsExporter (url tenant collector cert key trust dir : string) (opened : option (boltdb B))
    : res LogsExporter :=
  _ ← (if negb (String.eqb cert "") && negb (String.eqb key "")
       then match LoadX509KeyPair cert key with
            | Err e => Err ("load client cert (" +:+ cert +:+ ", " +:+ key +:+ "): " +:+ e)
            | Ok _ => Ok tt
            end
       else Ok tt);
  _ ← (if String.eqb trust "" then Ok tt
       else match read_file trust with
            | Err e => Err ("read trust bundle " +:+ trust +:+ ": " +:+ e)
            | Ok pem => if AppendCertsFromPEM pem then Ok tt
                        else Err ("trust bundle " +:+ trust +:+ " contained no PEM certs")
            end);
  q ← NewDurable "logs" (64 * 2 ^ 20) dir opened;
  Ok (fresh collector (Statsfwd.trim_slashes url) tenant false q).
End certificates.

(** ** Sending *)

Section sending.
Variable client : nat -> http_request -> res http_response * Z.
Variable url_error : string -> option string.
Variable ParseTime : string -> option Z.
Variable range : tagmap -> list (string * string).
Variable marshal : wire -> res string.
Variable marshal_item : pendingLog -> res string.
Variable unmarshal_item : string -> res pendingLog.
Variable marshal_batch : logBatchWire -> res string.

Fixpoint first_hostname (batch : list CriTailer.LogRecord) : string :=
  match batch with
  | [] => ""
  | r :: batch => if String.eqb (CriTailer.Hostname r) "" then first_hostname batch else CriTailer.Hostname r
  end.

(** The mTLS channel. *)
Definition send_mtls (e : LogsExporter) (batch : list CriTailer.LogRecord) (w : World B)
    : option goerr * World B :=
  if String.eqb (endpoint e) "" then (Some (OtherErr "logs exporter endpoint not configured"), w)
  else
    match marshal_batch (mk_batch_wire (collectorID e) (first_hostname batch) batch) with
    | Err err => (Some (Wrapped "marshal logs request: " (OtherErr err)), w)
    | Ok body =>
        let url := endpoint e +:+ "/api/collector/v1/logs?tenant_id=" +:+ tenantID e +:+
                   "&collector_id=" +:+ collectorID e in
        let '(r, w) := exchange client url_error
          (mk_http_request "POST" url [("Content-Type", "application/json"); ("Accept", "application/json")] body) w in
        (match r with
         | Err err => Some (Wrapped "http do: " (OtherErr err))
         | Ok resp =>
             if 400 <=? StatusCode resp
             then Some (OtherErr ("backend " +:+ itoa (StatusCode resp) +:+ ": " +:+
                                  str_take (Z.to_nat 16384) (match RespBody resp with Ok b => b | Err _ => "" end)))
             else None
         end, w)
    end.

Definition sendBatch (e : LogsExporter) (batch : list CriTailer.LogRecord) (w : World B)
    : option goerr * World B :=
  if certless e then
    if negb (signalAllowed "logs" (exporter w))
    then (Some (OtherErr "logs desabilitados pela política; WAL preservado"), w)
    else PostLogs client url_error ParseTime range marshal batch w
  else send_mtls e batch w.

(** [sendRecords] with the records collected: the sent batches are counted. *)
Definition sendRecords (e : LogsExporter) (records : list CriTailer.LogRecord) (w : World B)
    : option goerr * Z * World B :=
  match records with
  | [] => (None, 0, w)
  | _ => let '(err, w) := sendBatch e records w in
         (err, match err with None => 1 | Some _ => 0 end, w)
  end.

(** The loop over the bodies of a batch, with the records collected so far. *)
Fixpoint send_items (e : LogsExporter) (bodies : list string) (records : list CriTailer.LogRecord) (n : Z)
    (w : World B) : option goerr * Z * World B :=
  match bodies with
  | [] => let '(err, k, w) := sendRecords e records w in (err, n + k, w)
  | body :: bodies =>
      match unmarshal_item body with
      | Err err => (Some (OtherErr err), n, w)
      | Ok item =>
          match pl_Record item with
          | Some r => send_items e bodies (records ++ [r]) n w
          | None =>
              let '(err, k, w) := sendRecords e records w in
              match err with
              | Some _ => (err, n + k, w)
              | None =>
                  if negb (certless e) || negb (signalAllowed "logs" (exporter w))
                  then (Some (OtherErr "logs intake indisponível; WAL preservado"), n + k, w)
                  else
                    let '(err, w) := PostRaw client url_error ParseTime "logs" (pl_ContentType item) (pl_Body item) w in
                    match err with
                    | Some _ => (err, n + k, w)
                    | None => send_items e bodies [] (n + k + 1) w
                    end
              end
          end
      end
  end.

(** The world as the n-th batch of a flush finds it. *)
Definition from_batch (first : nat) (n : nat) (w : World B) : World B :=
  mk_world (exporter w) (first + n * Z.to_nat LogsBatchMaxRecords) (requests w) (removals w) (latestIntake w).

Definition run_batch (e : LogsExporter) (first n : nat) (bodies : list string) (w : World B)
    : option goerr * Z * World B :=
  send_items e bodies [] 0 (from_batch first n w).

(** The outcome of the n-th batch; [at_] is when it returns. *)
Definition batch_outcome (e : LogsExporter) (at_ : nat -> Z) (w : World B) : batch_poster :=
  fun n bodies => ((run_batch e (attempts w) n bodies w).1.1, at_ n).

(** The batches of a flush, one after the other: the sent batches and the world. *)
Fixpoint run_batches (e : LogsExporter) (first n : nat) (posted : list (list string)) (w : World B)
    : Z * World B :=
  match posted with
  | [] => (0, w)
  | bodies :: posted =>
      let '(_, k, w) := run_batch e first n bodies w in
      let '(k', w) := run_batches e first (S n) posted w in (k + k', w)
  end.

(** The times of a flush: when it starts, when each batch returns, when it ends; and
    [ctx.Err()] before each batch. *)
Record times := mk_times {
  start : Z;
  returns : nat -> Z;
  finish : Z;
  ctx_err : nat -> option goerr;
}.

Definition next_delay (delay : Z) : Z :=
  Z.min maxRetryDelay (if delay =? 0 then LogsBatchFlushInterval else delay * 2).

Definition flushLocked (fuel : nat) (t : times) (s : State) : option State :=
  let e := logs s in
  if start t <? retryAt e then Some s
  else
    match FlushBatch fuel (ctx_err t) LogsBatchMaxRecords (batch_outcome e (returns t) (world s)) (start t) (pending e) with
    | None => None
    | Some (err, q, posted) =>
        let '(k, w) := run_batches e (attempts (world s)) 0 (reverse posted) (world s) in
        let e := add_sent k (set_pending q e) in
        Some (mk_state
          (match err with
           | Some _ =>
               let e := add_failure e in
               let delay := next_delay (retryDelay e) in
               let e := set_retry (finish t + delay) delay e in
               set_pending (SendQueue.Snapshot (finish t) (pending e)).2 e
           | None => set_retry zero_time 0 e
           end) w)
    end.

Definition flush (fuel : nat) (t : times) (s : State) : option State := flushLocked fuel t s.

(** ** Queueing *)

Definition EnqueueRaw (now : Z) (contentType body : string) (s : State) : res unit * State :=
  match marshal_item (mk_pending_log None contentType body) with
  | Err e => (Err e, s)
  | Ok payload =>
      let '(r, q) := OfferDurable now payload (pending (logs s)) in
      (r, on_logs (set_pending q) s)
  end.

(** The loop of [Push]: a full queue is flushed and tried again. *)
Fixpoint offer_loop (fuel : nat) (ft : nat -> times) (body : string) (s : State) : option State :=
  match fuel with
  | O => None
  | S fuel =>
      let t := ft fuel in
      let '(r, q) := OfferDurable (start t) body (pending (logs s)) in
      let s := on_logs (set_pending q) s in
      match r with
      | Ok _ => Some s
      | Err _ => s ← flushLocked fuel t s; offer_loop fuel ft body s
      end
  end.

(** [Push]: [Some None] is the panic on a record that cannot be encoded. *)
Definition Push (fuel : nat) (ft : nat -> times) (rec : CriTailer.LogRecord) (s : State) : option (option State) :=
  match marshal_item (mk_pending_log (Some rec) "" "") with
  | Err _ => Some None
  | Ok body =>
      match offer_loop fuel ft body s with
      | None => None
      | Some s =>
          let s := on_logs (add_line (str_len (CriTailer.Body rec))) s in
          let t := ft fuel in
          let '(stats, q) := SendQueue.Snapshot (start t) (pending (logs s)) in
          let s := on_logs (set_pending q) s in
          if LogsBatchMaxRecords <=? Pending stats then Some <$> flushLocked fuel t s else Some (Some s)
      end
  end.
End sending.

Definition Stats (e : LogsExporter) : Z * Z * Z * Z * Z :=
  (linesTotal e, bytesTotal e, droppedTotal e, sentBatches e, sendFailures e).
End logs.

Arguments LogsExporter : clear implicits.
Arguments State : clear implicits.
End Logs.
