(* ===== verification/LogsProps.v ===== *)
(** * What the logs exporter promises

    A queued record or body leaves the write-ahead queue only when a request that
    carries it was accepted; failures are retried after a delay that doubles. *)

From S2P Require Import Prelude GoStrings Wire Bolt SendQueue SendQueueFacts SendQueueProps CriTailer Ingest.
From S2P Require Import IngestPolicyProps Logs.
#[local] Open Scope Z_scope.

Module LogsProps.
Import SendQueue SendQueueFacts SendQueueProps.SendQueueProps Ingest IngestPolicyProps.IngestPolicyProps Logs MemKV.

Section delivery.
Context {B : Type} `{KVLaws B}.
Variable client : nat -> http_request -> res http_response * Z.
Variable url_error : string -> option string.
Variable ParseTime : string -> option Z.
Variable range : tagmap -> list (string * string).
Variable marshal : wire -> res string.
Variable unmarshal_item : string -> res pendingLog.
Variable marshal_batch : logBatchWire -> res string.
Implicit Types (w : World B) (e : LogsExporter B).

Abbreviation PostRaw := (PostRaw client url_error ParseTime).
Abbreviation PostLogs := (PostLogs client url_error ParseTime range marshal).
Abbreviation send_mtls := (send_mtls client url_error marshal_batch).
Abbreviation sendBatch := (sendBatch client url_error ParseTime range marshal marshal_batch).
Abbreviation sendRecords := (sendRecords client url_error ParseTime range marshal marshal_batch).
Abbreviation send_items := (send_items client url_error ParseTime range marshal unmarshal_item marshal_batch).

(** ** The replay of a flush

    What a batch returns depends on the settings of the exporter and the number of the
    attempt only. *)

Definition similar w w' : Prop := same_settings (exporter w) (exporter w') /\ attempts w = attempts w'.

(** Two runs of the same computation return the same. *)
Definition agree {A} (x y : A * World B) : Prop := x.1 = y.1 /\ similar x.2 y.2.

Lemma similar_record a w w' :
  similar w w' -> similar (record_attempt ParseTime a w) (record_attempt ParseTime a w').
Proof.
  intros [Hs Ha].
  assert (forall w0, exists q, exporter (record_attempt ParseTime a w0 : World B) = set_queue q (exporter w0)) as Hq.
  { intros w0. unfold record_attempt, note_answer, noteTerminalRemoval, on_queue.
    exists (queue_of (record_attempt ParseTime a w0)). unfold record_attempt, note_answer, noteTerminalRemoval, on_queue, queue_of.
    destruct (exporter w0). repeat case_match; done. }
  assert (forall w0, attempts (record_attempt ParseTime a w0 : World B) = S (attempts w0)) as Hn.
  { intros w0. unfold record_attempt, note_answer, noteTerminalRemoval. repeat case_match; done. }
  split; [|by rewrite !Hn, Ha]. destruct (Hq w) as [q E], (Hq w') as [q' E']. rewrite E, E'.
  destruct Hs as [q0 ->]. by exists q'.
Qed.

Lemma similar_PostRaw signal ct body w w' :
  similar w w' -> agree (PostRaw signal ct body w) (PostRaw signal ct body w').
Proof.
  intros Hs. pose proof Hs as [[q Eq] Ha]. unfold agree, Ingest.PostRaw.
  assert (raw_attempt client url_error (attempts w') signal ct body (exporter w') =
          raw_attempt client url_error (attempts w) signal ct body (exporter w)) as E.
  { by rewrite <- Ha, Eq. }
  cbn [fst snd]. rewrite E. split; [done|]. by apply similar_record.
Qed.

Lemma group_logs_settings (e e' : IngestExporter B) records :
  same_settings e e' -> group_logs range e' records = group_logs range e records.
Proof. by intros [q ->]. Qed.

Lemma similar_PostLogs records w w' : similar w w' -> agree (PostLogs records w) (PostLogs records w').
Proof.
  intros Hs. unfold Ingest.PostLogs. destruct records as [|r l]; [done|]. unfold post_json.
  rewrite (group_logs_settings _ _ (r :: l) (proj1 Hs)).
  destruct (marshal _); [by apply similar_PostRaw|done].
Qed.

Lemma similar_exchange req w w' :
  similar w w' -> agree (exchange client url_error req w) (exchange client url_error req w').
Proof.
  intros [Hs Ha]. unfold agree, exchange. destruct (url_error _); [done|]. cbn.
  rewrite Ha. by split.
Qed.

Lemma similar_allowed signal w w' :
  similar w w' -> signalAllowed signal (exporter w') = signalAllowed signal (exporter w).
Proof. by intros [[q ->] _]. Qed.

Lemma similar_sendBatch e batch w w' : similar w w' -> agree (sendBatch e batch w) (sendBatch e batch w').
Proof.
  intros Hs. unfold Logs.sendBatch. destruct (certless e).
  - rewrite (similar_allowed _ _ _ Hs). case_match; [done|by apply similar_PostLogs].
  - unfold Logs.send_mtls. case_match; [done|]. destruct (marshal_batch _) as [body|err]; [|done].
    match goal with |- context [exchange _ _ ?r w] => pose proof (similar_exchange r w w' Hs) as [E Hs'] end.
    destruct (exchange _ _ _ w) as [a w1], (exchange _ _ _ w') as [a' w1']. cbn in E. by subst a'.
Qed.

Lemma similar_sendRecords e records w w' : similar w w' -> agree (sendRecords e records w) (sendRecords e records w').
Proof.
  intros Hs. unfold Logs.sendRecords. destruct records as [|r l]; [done|].
  destruct (similar_sendBatch e (r :: l) w w' Hs) as [E Hs'].
  destruct (sendBatch e _ w) as [a w1], (sendBatch e _ w') as [a' w1']. cbn in E. by subst a'.
Qed.

Lemma similar_send_items e bodies records n w w' :
  similar w w' -> agree (send_items e bodies records n w) (send_items e bodies records n w').
Proof.
  revert records n w w'. induction bodies as [|b bodies IH]; intros records n w w' Hs; cbn [Logs.send_items].
  - destruct (similar_sendRecords e records w w' Hs) as [E Hs'].
    destruct (sendRecords e records w) as [[a k] w1], (sendRecords e records w') as [[a' k'] w1'].
    cbn in E. by injection E as <- <-.
  - destruct (unmarshal_item b) as [item|err]; [|done]. destruct (pl_Record item) as [r|]; [by apply IH|].
    destruct (similar_sendRecords e records w w' Hs) as [E Hs'].
    destruct (sendRecords e records w) as [[a k] w1], (sendRecords e records w') as [[a' k'] w1'].
    cbn in E, Hs'. injection E as <- <-. destruct a; [done|].
    rewrite (similar_allowed _ _ _ Hs'). case_match; [done|].
    destruct (similar_PostRaw "logs" (pl_ContentType item) (pl_Body item) _ _ Hs') as [E2 Hs2].
    destruct (PostRaw _ _ _ w1) as [x w2], (PostRaw _ _ _ w1') as [x' w2']. cbn in E2, Hs2. subst x'.
    destruct x; [done|by apply IH].
Qed.

(** ** What was accepted *)

(** A request with this body was sent and answered with an accepted status. *)
Definition accepted (ok : Z -> bool) w (body : string) : Prop :=
  exists rq n resp t, rq ∈ requests w /\ ReqBody rq = body /\ client n rq = (Ok resp, t) /\
    ok (StatusCode resp) = true.

(** A record is in an accepted request: of the gateway, or of the mTLS channel. *)
Definition record_delivered e w (r : CriTailer.LogRecord) : Prop :=
  exists records body, r ∈ records /\
    if certless e
    then marshal (WLogs (group_logs range (exporter w) records)) = Ok body /\ accepted ok_status w body
    else marshal_batch (mk_batch_wire (collectorID e) (first_hostname records) records) = Ok body /\
         accepted (fun code => code <? 400) w body.

(** A queued item: its record is in an accepted request, or its raw body is one (an
    empty body is nothing to send). *)
Definition item_delivered e w (body : string) : Prop :=
  exists item, unmarshal_item body = Ok item /\
    match pl_Record item with
    | Some r => record_delivered e w r
    | None => pl_Body item = "" \/ accepted ok_status w (pl_Body item)
    end.

(** Requests are only added, and the settings stay. *)
Definition extends w w' : Prop :=
  same_settings (exporter w) (exporter w') /\ exists new, requests w' = (new ++ requests w)%list.

#[local] Instance extends_preorder : PreOrder extends.
Proof.
  split.
  - intros w. split; [reflexivity|]. by exists [].
  - intros w1 w2 w3 [[q1 E1] (n1 & R1)] [[q2 E2] (n2 & R2)]. split.
    + rewrite E2, E1. by exists q2.
    + exists (n2 ++ n1)%list. by rewrite R2, R1, app_assoc.
Qed.

Lemma grows_extends w w' : grows w w' -> extends w w'.
Proof. intros [Hs (new & E & _)]. split; [done|]. by exists new. Qed.

Lemma accepted_extends ok w w' body : extends w w' -> accepted ok w body -> accepted ok w' body.
Proof.
  intros [_ (new & E)] (rq & n & resp & t & Hr & Hrest). exists rq, n, resp, t.
  split; [|done]. rewrite E. apply elem_of_app. by right.
Qed.

Lemma record_extends e w w' r : extends w w' -> record_delivered e w r -> record_delivered e w' r.
Proof.
  intros Hx (records & body & Hr & Hd). exists records, body. split; [done|].
  destruct (certless e); destruct Hd as [Hm Ha]; (split; [|by eapply accepted_extends]); [|done].
  by rewrite (group_logs_settings _ _ records (proj1 Hx)).
Qed.

Lemma item_extends e w w' body : extends w w' -> item_delivered e w body -> item_delivered e w' body.
Proof.
  intros Hx (item & Hu & Hd). exists item. split; [done|]. destruct (pl_Record item); [by eapply record_extends|].
  destruct Hd as [?|?]; [by left|right]. by eapply accepted_extends.
Qed.

Lemma PostRaw_accepted signal ct body w :
  body <> "" -> signalAllowed signal (exporter w) = true -> (PostRaw signal ct body w).1 = None ->
  accepted ok_status (PostRaw signal ct body w).2 body.
Proof.
  intros Hb Ha. unfold Ingest.PostRaw. cbn [fst snd]. unfold raw_attempt.
  apply String.eqb_neq in Hb. rewrite Hb, Ha. cbn [negb].
  destruct (url_error _); [done|]. set (rq := raw_request signal ct body (exporter w)).
  destruct (client (attempts w) rq) as [[resp|err] t] eqn:Ec; [|done]. cbn [result]. unfold status_result.
  destruct (ok_status (StatusCode resp)) eqn:Eok; [|done]. intros _.
  exists rq, (attempts w), resp, t. split_and!; [|done..]. unfold record_attempt, note_answer. cbn.
  rewrite Eok. by left.
Qed.

(** Encoders do not give an empty text. *)
Hypothesis marshal_nonempty : forall p, marshal p <> Ok "".

Lemma sendBatch_extends e batch w : extends w (sendBatch e batch w).2.
Proof.
  unfold Logs.sendBatch. destruct (certless e).
  - case_match; [reflexivity|]. unfold Ingest.PostLogs. destruct batch; [reflexivity|]. unfold post_json.
    case_match; [|reflexivity]. by apply grows_extends, grows_PostRaw.
  - unfold Logs.send_mtls. case_match; [reflexivity|]. destruct (marshal_batch _); [|reflexivity].
    unfold exchange. destruct (url_error _); [reflexivity|]. cbn.
    split; [reflexivity|]. by eexists [_].
Qed.

Lemma sendBatch_delivered e batch w :
  batch <> [] -> (sendBatch e batch w).1 = None ->
  forall r, r ∈ batch -> record_delivered e (sendBatch e batch w).2 r.
Proof.
  intros Hne Hs r Hr. pose proof (sendBatch_extends e batch w) as Hx. unfold Logs.sendBatch in *.
  exists batch. destruct (certless e).
  - destruct (signalAllowed "logs" (exporter w)) eqn:Ha; [|done]. cbn [negb] in *.
    unfold Ingest.PostLogs, post_json in *. destruct batch as [|r0 l]; [done|].
    destruct (marshal _) as [body|err] eqn:Em; [|done]. exists body. split; [done|]. split.
    + rewrite (group_logs_settings _ _ _ (proj1 Hx)). done.
    + apply PostRaw_accepted; [|done|done]. intros ->. by eapply marshal_nonempty.
  - unfold Logs.send_mtls in *. destruct (String.eqb _ _); [done|].
    destruct (marshal_batch _) as [body|err] eqn:Em; [|done]. exists body. split; [done|]. split; [done|].
    unfold exchange in *. destruct (url_error _); [done|]. set (rq := mk_http_request _ _ _ _) in *.
    cbn in Hs |- *. destruct (client (attempts w) rq) as [[resp|err] t] eqn:Ec; [|done]. cbn in Hs.
    destruct (400 <=? StatusCode resp) eqn:E4; [done|]. apply Z.leb_gt in E4.
    exists rq, (attempts w), resp, t. split_and!; [by left|done|done|by apply Z.ltb_lt].
Qed.

Lemma sendRecords_delivered e records w :
  (sendRecords e records w).1.1 = None ->
  extends w (sendRecords e records w).2 /\
  Forall (record_delivered e (sendRecords e records w).2) records.
Proof.
  unfold Logs.sendRecords. destruct records as [|r l]; [by split; [|constructor]|].
  pose proof (sendBatch_extends e (r :: l) w) as Hx. pose proof (sendBatch_delivered e (r :: l) w) as Hd.
  destruct (sendBatch e (r :: l) w) as [a w1]. cbn in *. intros ->.
  split; [done|]. apply Forall_forall. by apply Hd.
Qed.

(** A batch that returns nil has delivered all of its items, and the records carried
    over into it. *)
Lemma send_items_delivered e bodies records n w :
  (send_items e bodies records n w).1.1 = None ->
  extends w (send_items e bodies records n w).2 /\
  Forall (record_delivered e (send_items e bodies records n w).2) records /\
  Forall (item_delivered e (send_items e bodies records n w).2) bodies.
Proof.
  revert records n w. induction bodies as [|b bodies IH]; intros records n w; cbn [Logs.send_items].
  - pose proof (sendRecords_delivered e records w) as Hd.
    destruct (sendRecords e records w) as [[a k] w1]. cbn in *. intros ->. destruct Hd as [? ?]; [done|].
    split_and!; [done|done|constructor].
  - destruct (unmarshal_item b) as [item|err] eqn:Eu; [|done].
    destruct (pl_Record item) as [r|] eqn:Er.
    + intros Hn. destruct (IH _ _ _ Hn) as (Hx & Hr & Hb). apply Forall_app in Hr as [Hr Hr1].
      split_and!; [done|done|]. constructor; [|done]. exists item. rewrite Er. split; [done|].
      by rewrite Forall_singleton in Hr1.
    + pose proof (sendRecords_delivered e records w) as Hd.
      destruct (sendRecords e records w) as [[a k] w1]. cbn [fst snd] in Hd. destruct a as [err|]; [done|].
      destruct Hd as [Hx1 Hr1]; [done|].
      destruct (certless e && signalAllowed "logs" (exporter w1)) eqn:Ec.
      2: { apply andb_false_iff in Ec as [Ec|Ec]; rewrite Ec; [done|]. by destruct (certless e). }
      apply andb_true_iff in Ec as [Ec Ea]. rewrite Ec, Ea. cbn [negb orb].
      pose proof (PostRaw_accepted "logs" (pl_ContentType item) (pl_Body item) w1) as Hp.
      pose proof (grows_extends _ _ (grows_PostRaw client url_error ParseTime "logs" (pl_ContentType item) (pl_Body item) w1 eq_refl)) as Hx2.
      destruct (PostRaw _ _ _ w1) as [x w2]. cbn [fst snd] in *. destruct x; [done|].
      intros Hn. destruct (IH _ _ _ Hn) as (Hx3 & _ & Hb). split_and!.
      * etrans; [exact Hx1|]. by etrans.
      * eapply Forall_impl; [exact Hr1|]. intros r. apply record_extends. by etrans.
      * constructor; [|done]. exists item. rewrite Er. split; [done|].
        destruct (decide (pl_Body item = "")); [by left|right].
        eapply accepted_extends; [exact Hx3|]. by apply Hp.
Qed.

Lemma sendRecords_extends e records w : extends w (sendRecords e records w).2.
Proof.
  unfold Logs.sendRecords. destruct records as [|r l]; [reflexivity|].
  pose proof (sendBatch_extends e (r :: l) w) as Hx. by destruct (sendBatch e (r :: l) w).
Qed.

Lemma send_items_extends e bodies records n w : extends w (send_items e bodies records n w).2.
Proof.
  revert records n w. induction bodies as [|b bodies IH]; intros records n w; cbn [Logs.send_items];
    pose proof (sendRecords_extends e records w) as Hx.
  { by destruct (sendRecords e records w) as [[a k] w1]. }
  destruct (unmarshal_item b) as [item|err]; [|reflexivity]. destruct (pl_Record item); [apply IH|].
  destruct (sendRecords e records w) as [[a k] w1]. destruct a; [done|]. case_match; [done|].
  pose proof (grows_extends _ _ (grows_PostRaw client url_error ParseTime "logs" (pl_ContentType item) (pl_Body item) w1 eq_refl)) as Hx2.
  destruct (PostRaw _ _ _ w1) as [x w2]. cbn [snd] in *.
  destruct x; [by etrans|]. etrans; [exact Hx|]. etrans; [exact Hx2|apply IH].
Qed.

Abbreviation run_batch := (run_batch client url_error ParseTime range marshal unmarshal_item marshal_batch).
Abbreviation run_batches := (run_batches client url_error ParseTime range marshal unmarshal_item marshal_batch).

Lemma run_batch_extends e first n bodies w : extends w (run_batch e first n bodies w).2.
Proof.
  unfold Logs.run_batch. etrans; [|apply send_items_extends]. split; [reflexivity|by exists []].
Qed.

Lemma run_batches_extends e first n posted w : extends w (run_batches e first n posted w).2.
Proof.
  revert n w. induction posted as [|b posted IH]; intros n w; cbn [Logs.run_batches]; [reflexivity|].
  pose proof (run_batch_extends e first n b w) as Hx. destruct (run_batch e first n b w) as [[a k] w1].
  pose proof (IH (S n) w1) as Hx1. destruct (run_batches e first (S n) posted w1). cbn in *. by etrans.
Qed.

(** A batch that returned nil when the queue was flushed has delivered its items when
    the batches are replayed. *)
Lemma run_batches_delivered e first n posted w0 w i batch :
  same_settings (exporter w0) (exporter w) -> posted !! i = Some batch ->
  (run_batch e first (n + i) batch w0).1.1 = None ->
  Forall (item_delivered e (run_batches e first n posted w).2) batch.
Proof.
  revert n w i. induction posted as [|b posted IH]; intros n w i Hs Hi Hnil; [by rewrite lookup_nil in Hi|].
  cbn [Logs.run_batches]. pose proof (run_batch_extends e first n b w) as Hx.
  destruct i as [|i].
  - injection Hi as ->. rewrite Nat.add_0_r in Hnil.
    assert (similar (from_batch first n w0) (from_batch first n w)) as Hsim by (by split).
    destruct (similar_send_items e batch [] 0 _ _ Hsim) as [E _].
    assert ((run_batch e first n batch w).1.1 = None) as Hn by (unfold Logs.run_batch in *; by rewrite <- E).
    destruct (send_items_delivered e batch [] 0 (from_batch first n w) Hn) as (_ & _ & Hd).
    change (send_items e batch [] 0 (from_batch first n w)) with (run_batch e first n batch w) in Hd.
    destruct (run_batch e first n batch w) as [[a k] w1]. cbn [fst snd] in *.
    pose proof (run_batches_extends e first (S n) posted w1) as Hx1.
    destruct (run_batches e first (S n) posted w1). cbn [snd] in *.
    eapply Forall_impl; [exact Hd|]. intros x. by apply item_extends.
  - destruct (run_batch e first n b w) as [[a k] w1]. cbn [snd] in *.
    specialize (IH (S n) w1 i). destruct (run_batches e first (S n) posted w1) as [k' w2]. cbn [snd] in *.
    apply IH; [etrans; [exact Hs|apply Hx]|done|]. by replace (S n + i)%nat with (n + S i)%nat by lia.
Qed.

Abbreviation flushLocked := (flushLocked client url_error ParseTime range marshal unmarshal_item marshal_batch).

(** The queue after a flush: what is gone was delivered. *)
Lemma flushLocked_delivered fuel t s d :
  Inv (pending (logs s)) -> db (pending (logs s)) = Some d -> enough fuel (pending (logs s)) ->
  exists s', flushLocked fuel t s = Some s' /\ Inv (pending (logs s')) /\
    exists gone, contents (pending (logs s)) = (gone ++ contents (pending (logs s')))%list /\
      Forall (item_delivered (logs s) (world s')) gone.
Proof.
  intros Hi Hd Hf. unfold Logs.flushLocked. destruct (start t <? retryAt (logs s)).
  { exists s. split_and!; [done|done|]. by exists []. }
  set (post := batch_outcome _ _ _ _ _ _ _ _ _ _).
  destruct (FlushBatch_safe fuel (ctx_err t) LogsBatchMaxRecords post (start t) (pending (logs s)) d Hi Hd eq_refl Hf)
    as (err & q & posted & gone & E & Hi' & Hc & Hg & _).
  rewrite app_nil_r in *. rewrite E.
  destruct (run_batches _ _ _ (reverse posted) (world s)) as [k w] eqn:Er.
  assert (Forall (item_delivered (logs s) w) gone) as Hdel.
  { rewrite Forall_forall in *. intros b Hb. destruct (Hg b Hb) as (i & batch & Hrev & Hin & Hnil).
    pose proof (run_batches_delivered (logs s) (attempts (world s)) 0 (reverse posted) (world s) (world s) i batch) as Hr.
    rewrite Er in Hr. cbn [snd] in Hr. pose proof (Hr (reflexivity _) Hrev Hnil) as Hall.
    rewrite Forall_forall in Hall. by apply Hall. }
  assert (frame q (SendQueue.Snapshot (finish t) q).2) as Hfr by apply frame_Snapshot.
  eexists. split; [done|]. destruct err as [e|]; cbn.
  - destruct Hfr as (Ec & _ & I & _). split; [auto|]. exists gone. by rewrite Ec.
  - split; [done|]. by exists gone.
Qed.
End delivery.

(** C7: A cycle of the logs exporter always returns, and a queued item leaves the
    write-ahead queue only from its front and only when it was delivered: its record in a
    request that was accepted (2xx of the gateway, below 400 on the mTLS channel), or its
    raw body as such a request, whatever the disk, the network and the policy do. *)
Theorem logs_at_least_once `{KVLaws B} client url_error ParseTime range marshal unmarshal_item marshal_batch
    fuel t (s : State B) d :
  (forall p, marshal p <> Ok "") ->
  Inv (pending (logs s)) -> db (pending (logs s)) = Some d -> enough fuel (pending (logs s)) ->
  exists s', flushLocked client url_error ParseTime range marshal unmarshal_item marshal_batch fuel t s = Some s' /\
    Inv (pending (logs s')) /\
    exists gone, contents (pending (logs s)) = (gone ++ contents (pending (logs s')))%list /\
      Forall (item_delivered client range marshal unmarshal_item marshal_batch (logs s) (world s')) gone.
Proof. intros Hm Hi Hd Hf. by apply (flushLocked_delivered _ _ _ _ _ _ _ Hm _ _ _ d). Qed.

Definition raw_item (body : string) : res pendingLog := Ok (mk_pending_log None "application/json" body).
Definition sample_state : State MemKV.bucket :=
  mk_state (fresh "" "" "" true woffered) sample_world.
Definition sample_times : times := mk_times 1 (fun _ => 2) 3 (fun _ => None).

Abbreviation sample_flush := (flushLocked sample_client (fun _ => None) (fun _ => None) map_to_list
  (fun _ => Ok "{}") raw_item (fun _ => Ok "{}")).

Lemma sample_ready : enough 5 (pending (logs sample_state)).
Proof. vm_compute. lia. Qed.

Lemma logs_at_least_once_witness :
  exists s', sample_flush 5 sample_times sample_state = Some s' /\
    Inv (pending (logs s')) /\
    exists gone, contents (pending (logs sample_state)) = (gone ++ contents (pending (logs s')))%list /\
      Forall (item_delivered sample_client map_to_list (fun _ => Ok "{}") raw_item (fun _ => Ok "{}")
        (logs sample_state) (world s')) gone.
Proof.
  assert (forall p : wire, @Ok string "{}" <> Ok "") as Hm by done.
  exact (logs_at_least_once sample_client (fun _ => None) (fun _ => None) map_to_list (fun _ => Ok "{}") raw_item
    (fun _ => Ok "{}") 5 sample_times sample_state wdb_offered Hm woffered_inv woffered_db sample_ready).
Defined.

(** ** The schedule of retries *)

(** The contract of the schedule: after the n-th failure in a row nothing is sent until
    a delay of two seconds, doubled at each further failure up to thirty, has passed. *)
Inductive Schedule := Ready | Waiting (failures : nat) (until : Z).

Definition delay_after (n : nat) : Z := Z.min maxRetryDelay (LogsBatchFlushInterval * 2 ^ Z.of_nat n).

Definition early (now : Z) (a : Schedule) : Prop :=
  match a with Ready => False | Waiting _ until => now < until end.

Definition after_failure (now : Z) (a : Schedule) : Schedule :=
  match a with
  | Ready => Waiting 0 (now + delay_after 0)
  | Waiting n _ => Waiting (S n) (now + delay_after (S n))
  end.

Definition follows {B} (e : LogsExporter B) (a : Schedule) : Prop :=
  match a with
  | Ready => retryAt e = zero_time /\ retryDelay e = 0
  | Waiting n until => retryAt e = until /\ retryDelay e = delay_after n
  end.

Lemma delay_after_pos n : 0 < delay_after n.
Proof. unfold delay_after, maxRetryDelay, LogsBatchFlushInterval, second. pose proof (Z.pow_pos_nonneg 2 (Z.of_nat n)). lia. Qed.

Lemma next_delay_after n : next_delay (delay_after n) = delay_after (S n).
Proof.
  unfold next_delay. pose proof (delay_after_pos n) as Hp. destruct (delay_after n =? 0) eqn:E; [apply Z.eqb_eq in E; lia|].
  unfold delay_after, maxRetryDelay, LogsBatchFlushInterval, second. rewrite Nat2Z.inj_succ, Z.pow_succ_r by lia. lia.
Qed.

(** The exporter follows the schedule: a cycle that comes too early changes nothing,
    any other asks the queue for its batches, and then waits on the schedule if that
    failed, for two seconds, then four, eight, sixteen and always thirty, and starts
    over if it succeeded. *)
Theorem retries_refine `{KV B} client url_error ParseTime range marshal unmarshal_item marshal_batch
    fuel t (s s' : State B) a :
  follows (logs s) a -> zero_time <= start t ->
  flushLocked client url_error ParseTime range marshal unmarshal_item marshal_batch fuel t s = Some s' ->
  (early (start t) a /\ s' = s) \/
  (~ early (start t) a /\ exists err q posted,
     FlushBatch fuel (ctx_err t) LogsBatchMaxRecords
       (batch_outcome client url_error ParseTime range marshal unmarshal_item marshal_batch (logs s) (returns t) (world s))
       (start t) (pending (logs s)) = Some (err, q, posted) /\
     match err with
     | Some _ => follows (logs s') (after_failure (finish t) a) /\ sendFailures (logs s') = i64 (sendFailures (logs s) + 1)
     | None => follows (logs s') Ready /\ sendFailures (logs s') = sendFailures (logs s)
     end).
Proof.
  intros Hf Hz. unfold flushLocked.
  assert ((start t <? retryAt (logs s)) = true <-> early (start t) a) as He.
  { rewrite Z.ltb_lt. destruct a; cbn in *; destruct Hf as [-> _]; [lia|done]. }
  destruct (start t <? retryAt (logs s)).
  { intros [= <-]. left. split; [by apply He|done]. }
  destruct (FlushBatch _ _ _ _ _ _) as [[[err q] posted]|] eqn:E; [|done].
  destruct (run_batches _ _ _ _ _ _ _ _ _ _ _ _) as [k w]. intros [= <-]. right.
  split; [intros Hearly; by apply He in Hearly|]. exists err, q, posted. split; [done|].
  destruct err as [e|]; cbn; [|done]. split; [|done].
  destruct a as [|n u]; cbn in Hf |- *; destruct Hf as [_ ->]; cbn; [done|]. by rewrite !next_delay_after.
Qed.

Lemma retries_refine_witness :
  exists s', sample_flush 5 (mk_times 1 (fun _ => 2) 3 (fun _ => Some (OtherErr "deadline"))) sample_state = Some s' /\
    follows (logs s') (Waiting 0 (3 + 2 * second)).
Proof.
  set (t := mk_times 1 (fun _ => 2) 3 (fun _ => Some (OtherErr "deadline"))).
  assert (exists s', sample_flush 5 t sample_state = Some s' /\ sendFailures (logs s') = 1) as (s' & E & Hn)
    by (eexists; split; [vm_compute|]; reflexivity).
  exists s'. split; [exact E|].
  destruct (retries_refine sample_client (fun _ => None) (fun _ => None) map_to_list (fun _ => Ok "{}") raw_item
    (fun _ => Ok "{}") 5 t sample_state s' Ready ltac:(by split) ltac:(by vm_compute) E)
    as [[[] _]|(_ & err & q & posted & _ & Hr)].
  destruct err as [e|]; destruct Hr as [Hf Hc]; [exact Hf|]. rewrite Hn in Hc. discriminate Hc.
Defined.
End LogsProps.
