(* ===== verification/SendQueueRace.v ===== *)
(** * The send queue under concurrent callers (internal/sendbuf/sendbuf.go)

    The callers of a queue take its lock for one critical section at a time: [Flush] takes
    it to read the oldest payload, to count a retry, to note a terminal answer, to count
    the success and to remove the payload, and holds nothing while the POST runs.  Here
    each of these is a step of its own, the goroutines that flush stand each at a point of
    the code, and their steps and those of any number of other callers interleave freely. *)

From S2P Require Import Prelude GoStrings Bolt SendQueue SendQueueFacts SendQueueProps.
#[local] Open Scope Z_scope.

Module SendQueueRace.
Import SendQueue SendQueueFacts SendQueueProps.SendQueueProps MemKV.

(** The variables of the loop of [Flush]. *)
Record Loop := mk_loop { sent : Z; retainedToLog : Z; retainedLogged : Z }.

(** Where a goroutine stands in [Flush], before its next critical section, with the body
    at hand. *)
Inductive Point :=
  | Entering                                                  (* q.Blocked() *)
  | Marking                                                   (* the state at the offer marker *)
  | Peeking (l : Loop)                                        (* q.peek() *)
  | Retrying (body : string) (l : Loop)                       (* q.incrementRetry() *)
  | Posting (body : string) (isRetry : bool) (l : Loop)       (* post(ctx, body), without the lock *)
  | Recording (body : string) (isRetry : bool) (err : option goerr) (l : Loop)   (* q.recordDelivery(err) *)
  | Judging (body : string) (e : goerr)                       (* q.noteTerminal(err) *)
  | Dropping (body : string)                                  (* q.popFront(true) *)
  | Praising (body : string) (l : Loop)                       (* q.incrementRetrySuccess() *)
  | Removing (body : string) (l : Loop)                       (* q.popFront(false) *)
  | Logging (l : Loop).                                       (* q.pending(), for the log line *)

Section race.
Context {B : Type} `{KVLaws B}.

(** One critical section of [Flush], or its POST, whose outcome is [err]: the next point,
    none when [Flush] has returned. *)
Definition turn (now : Z) (err : option goerr) (p : Point) (q : Queue B) : option Point * Queue B :=
  match p with
  | Entering => (if Blocked now q then None else Some Marking, q)
  | Marking =>
      let unflushed := unflushedOffers q in
      let '(initialPending, q) := pendingLocked (set_unflushedOffers 0 q) in
      let retained := initialPending - unflushed in
      (Some (Peeking (mk_loop 0 (if retained <? 0 then 0 else retained) 0)), q)
  | Peeking l =>
      match peek q with
      | (None, q) => (None, q)
      | (Some body, q) =>
          let l' := mk_loop (sent l + 1) (retainedToLog l) (retainedLogged l) in
          (Some (if sent l <? retainedToLog l then Retrying body l' else Posting body false l'), q)
      end
  | Retrying body l => (Some (Posting body true l), incrementRetry q)
  | Posting body isRetry l => (Some (Recording body isRetry err l), q)
  | Recording body isRetry err l =>
      (Some match err with
            | Some e => Judging body e
            | None => if isRetry then Praising body l else Removing body l
            end, recordDelivery now err q)
  | Judging body e =>
      let '(terminal, q) := noteTerminal now (Some e) q in (if terminal then Some (Dropping body) else None, q)
  | Dropping _ => (None, popFront true q)
  | Praising body l => (Some (Removing body l), incrementRetrySuccess q)
  | Removing _ l =>
      (Some (if retainedLogged l <? retainedToLog l then Logging l else Peeking l), popFront false q)
  | Logging l =>
      (Some (Peeking (mk_loop (sent l) (retainedToLog l) (retainedLogged l + 1))), (pending now q).2)
  end.

(** The finished POST of a turn. *)
Definition post_of (p : Point) (err : option goerr) : list (string * option goerr) :=
  match p with Posting body _ _ => [(body, err)] | _ => [] end.

(** The shared queue, the goroutines in [Flush], and the history: the accepted offers and
    the finished POSTs, the latest last. *)
Record World := mk_world {
  queue : Queue B;
  flushers : gmap nat Point;
  offered : list string;
  posts : list (string * option goerr);
}.

Definition on_queue (f : Queue B -> Queue B) (w : World) : World :=
  mk_world (f (queue w)) (flushers w) (offered w) (posts w).

Definition after_turn (i : nat) (p : Point) (err : option goerr) (next : option Point * Queue B) (w : World) : World :=
  mk_world next.2 (partial_alter (fun _ => next.1) i (flushers w)) (offered w) (posts w ++ post_of p err).

(** The critical sections of [n] flushers and of any number of callers of [Offer],
    [NoteAuthFailure] and [Snapshot].  An [Offer] with a terminal error is the two
    sections [refused] and [drop]. *)
Inductive step (n : nat) (w : World) : World -> Prop :=
  | offer (now : Z) (body : string) (err : option goerr) (r : res unit) (q' : Queue B) :
      has_room body (queue w) -> (noteTerminal now err (queue w)).1 = false ->
      Offer now body err (queue w) = (r, q') ->
      step n w (mk_world q' (flushers w) (if is_ok r then offered w ++ [body] else offered w) (posts w))
  | refused (now : Z) (e : goerr) : step n w (on_queue (fun q => (noteTerminal now (Some e) q).2) w)
  | drop : step n w (on_queue incrementDroppedLocked w)
  | observe (now : Z) : step n w (on_queue (fun q => (Snapshot now q).2) w)
  | call (i : nat) :
      (i < n)%nat -> flushers w !! i = None ->
      step n w (mk_world (queue w) (<[i := Entering]> (flushers w)) (offered w) (posts w))
  | advance (i : nat) (p : Point) (now : Z) (err : option goerr) :
      flushers w !! i = Some p -> step n w (after_turn i p err (turn now err p (queue w)) w).

(** A POST that settles its payload: acknowledged, or refused for good. *)
Definition settling (err : option goerr) : bool := match err with None => true | Some e => terminal e end.

Definition posted_for_good (ps : list (string * option goerr)) (body : string) : Prop :=
  exists err, (body, err) ∈ ps /\ settling err = true.

(** What is true at each point of a goroutine that flushes alone: the body at hand is the
    oldest payload, and before it is removed it has been posted for good. *)
Definition at_point (p : Point) (ps : list (string * option goerr)) (l : list string) : Prop :=
  match p with
  | Entering | Marking | Peeking _ | Logging _ => True
  | Retrying body _ | Posting body _ _ => exists rest, l = body :: rest
  | Recording body _ err _ => (exists rest, l = body :: rest) /\ (body, err) ∈ ps
  | Judging body e => (exists rest, l = body :: rest) /\ (body, Some e) ∈ ps
  | Dropping body | Praising body _ | Removing body _ =>
      (exists rest, l = body :: rest) /\ posted_for_good ps body
  end.

Lemma at_point_grows p ps ps' l k :
  ps ⊆ ps' -> at_point p ps l -> at_point p ps' (l ++ k)%list.
Proof.
  intros Hp. assert (forall body, (exists rest, l = body :: rest) -> exists rest, (l ++ k)%list = body :: rest) as Hl.
  { intros body [rest ->]. by exists (rest ++ k)%list. }
  assert (forall body, posted_for_good ps body -> posted_for_good ps' body) as Hg
    by (intros body (err & Hin & Hs); exists err; auto).
  destruct p; cbn; intros; repeat match goal with Hc : _ /\ _ |- _ => destruct Hc end; auto.
Qed.

(** The points whose turn removes a payload. *)
Definition removing (p : Point) : bool := match p with Dropping _ | Removing _ _ => true | _ => false end.

Lemma turn_frame now err p q : Inv q -> removing p = false -> frame q (turn now err p q).2.
Proof.
  intros Hi Hp. destruct p as [| |l|body l|body r l|body r e l|body e|body|body l|body l|l]; cbn [turn]; try done.
  - assert (frame q (set_unflushedOffers 0 q)) as Hf by (by apply frame_field).
    etrans; [exact Hf|]. pose proof (frame_pendingLocked (set_unflushedOffers 0 q)) as Hp'.
    by destruct (pendingLocked _).
  - destruct (peek q) as [[body|] q'] eqn:E; cbn; by destruct (peek_spec _ _ _ Hi E).
  - by apply frame_incrementRetry.
  - pose proof (frame_noteTerminal now (Some e) q) as Hn. by destruct (noteTerminal _ _ _).
  - by apply frame_incrementRetrySuccess.
  - apply frame_pending.
Qed.

(** Where a turn that removes nothing leads. *)
Lemma turn_next now err p q ps p' :
  Inv q -> removing p = false -> at_point p ps (contents q) -> (turn now err p q).1 = Some p' ->
  at_point p' (ps ++ post_of p err) (contents q).
Proof.
  intros Hi Hp. destruct p as [| |l|body l|body r l|body r e l|body e|body|body l|body l|l]; cbn; try done.
  - case_match; [done|by intros _ [= <-]].
  - destruct (pendingLocked _). by intros _ [= <-].
  - destruct (peek q) as [[body|] q'] eqn:E; [|done]. destruct (peek_spec _ _ _ Hi E) as [_ Hl].
    intros _ [= <-]. by case_match.
  - by intros Hl [= <-].
  - intros Hl [= <-]. split; [done|]. apply elem_of_app. right. by left.
  - intros [Hl Hin] [= <-]. rewrite app_nil_r. destruct e as [e|]; [done|].
    assert (posted_for_good ps body) by (by exists None). by case_match.
  - pose proof (noteTerminal_terminal now e q) as Ht. destruct (noteTerminal _ _ _) as [t q']. cbn in Ht |- *. subst t.
    intros [Hl Hin]. destruct (terminal e) eqn:Et; [|done]. intros [= <-]. rewrite app_nil_r. split; [done|].
    by exists (Some e).
  - intros [Hl Hg] [= <-]. by rewrite app_nil_r.
  - by intros _ [= <-].
Qed.

(** One turn of the goroutine that flushes alone. *)
Lemma turn_spec now err p q ps :
  Inv q -> at_point p ps (contents q) ->
  let next := turn now err p q in let ps' := (ps ++ post_of p err)%list in
  same_env q next.2 /\
  (exists gone, contents q = (gone ++ contents next.2)%list /\ Forall (posted_for_good ps') gone) /\
  forall p', next.1 = Some p' -> at_point p' ps' (contents next.2).
Proof.
  intros Hi Hat. cbn zeta. destruct (removing p) eqn:Er.
  2: { pose proof (turn_frame now err p q Hi Er) as Hf. pose proof Hf as (E & _). rewrite E.
       split_and!; [by apply frame_env|by exists []|]. intros p'. by apply turn_next. }
  assert (exists wd body rest, (turn now err p q).2 = popFront wd q /\ contents q = body :: rest /\
    posted_for_good ps body /\ post_of p err = [] /\
    forall p', (turn now err p q).1 = Some p' -> at_point p' ps (contents (popFront wd q)))
    as (wd & body & rest & -> & El & Hg & -> & Hnext).
  { destruct p; cbn in Er, Hat |- *; try done; destruct Hat as [[rest El] Hg];
      eexists _, _, rest; split_and!; try done. intros p' [= <-]. by case_match. }
  destruct (popFront_popped wd q q Hi (reflexivity q)) as [Hp He]. rewrite app_nil_r.
  split_and!; [done| |exact Hnext].
  destruct Hp as [Hp|(Hp & _)]; rewrite Hp; [exists [body]; rewrite El; by auto|by exists []].
Qed.

(** What holds with one flusher while nothing has to be evicted: the queue holds the
    offered payloads but the settled ones at the front. *)
Definition alone (w : World) : Prop :=
  Inv (queue w) /\
  (forall i p, flushers w !! i = Some p -> i = 0%nat /\ at_point p (posts w) (contents (queue w))) /\
  exists gone, offered w = (gone ++ contents (queue w))%list /\ Forall (posted_for_good (posts w)) gone.

(** A section that leaves the payloads as they are. *)
Lemma alone_frame (f : Queue B -> Queue B) w :
  alone w -> frame (queue w) (f (queue w)) -> alone (on_queue f w) /\ maxBytes (queue (on_queue f w)) = maxBytes (queue w).
Proof.
  intros (Hi & Hp & Hg) (E & M & I & _). split; [|done]. unfold alone, on_queue. cbn. rewrite E.
  split_and!; [by apply I|exact Hp|exact Hg].
Qed.

Lemma posted_mono ps k body : posted_for_good ps body -> posted_for_good (ps ++ k) body.
Proof. intros (err & Hin & Hs). exists err. split; [|done]. apply elem_of_app. by left. Qed.

Lemma alone_step w w' :
  step 1 w w' -> size (offered w') <= maxBytes (queue w) -> alone w ->
  alone w' /\ maxBytes (queue w') = maxBytes (queue w).
Proof.
  intros Hstep Hsize Ha. pose proof Ha as (Hi & Hp & gone & Ho & Hg).
  destruct Hstep as [now body err r q' Hroom Hnt Eo|now e| |now|i Hlt Hn|i p now err Hip].
  - destruct (Offer_retained _ _ _ _ _ _ Hi Hroom Hnt Eo) as (Hi' & Hm & Hr). cbn in *.
    split; [|done]. destruct r as [u|e]; cbn [is_ok] in *.
    + destruct Hr as [(Hc & _) _]. rewrite evict_fits in Hc.
      2: { rewrite Ho, <- app_assoc, size_app in Hsize. pose proof (size_nonneg gone). lia. }
      split_and!; cbn; [done| |exists gone; by rewrite Hc, Ho, app_assoc].
      intros i p Hip. destruct (Hp i p Hip) as (-> & Hat). split; [done|]. rewrite Hc.
      by eapply at_point_grows; [|exact Hat].
    + destruct Hr as [(Hc & _) _]. by split_and!; cbn; rewrite ?Hc; [|exact Hp|exists gone].
  - apply alone_frame; [done|]. apply frame_noteTerminal.
  - apply alone_frame; [done|]. by apply frame_incrementDropped.
  - apply alone_frame; [done|]. apply frame_Snapshot.
  - split; [|done]. split_and!; [done| |by exists gone].
    cbn. intros j p [[<- <-]|[_ Hj]]%lookup_insert_Some; [split; [lia|done]|by apply Hp].
  - destruct (Hp _ _ Hip) as [-> Hat].
    destruct (turn_spec now err p (queue w) (posts w) Hi Hat) as ((Hi' & Hm & _) & (gone1 & Hc & Hg1) & Hnext).
    split; [|done]. unfold after_turn. split_and!; cbn; [done| |].
    + intros j p'. destruct (decide (j = 0%nat)) as [->|Hne].
      * rewrite lookup_partial_alter_eq. intros Hn. split; [done|]. by apply Hnext.
      * rewrite lookup_partial_alter_ne by done. intros Hj. by destruct (Hp _ _ Hj).
    + exists (gone ++ gone1)%list. rewrite <- app_assoc, <- Hc. split; [done|].
      apply Forall_app. split; [|done]. eapply Forall_impl; [exact Hg|]. intros x. apply posted_mono.
Qed.

Lemma offered_grows n w w' : rtc (step n) w w' -> exists l, offered w' = (offered w ++ l)%list.
Proof.
  induction 1 as [w|w1 w2 w3 Hs _ [l ->]]; [exists []; by rewrite app_nil_r|].
  destruct Hs as [now body err [u|e] q' _ _ _| | | | |]; cbn; [|by exists l..].
  exists ([body] ++ l)%list. by rewrite app_assoc.
Qed.

Lemma alone_steps w w' :
  rtc (step 1) w w' -> size (offered w') <= maxBytes (queue w) -> alone w -> alone w'.
Proof.
  induction 1 as [w|w1 w2 w3 Hs Hr IH]; [done|]. intros Hsize Ha.
  destruct (offered_grows _ _ _ Hr) as [l El]. assert (size (offered w2) <= size (offered w3)) as Hle.
  { rewrite El, size_app. pose proof (size_nonneg l). lia. }
  destruct (alone_step w1 w2 Hs ltac:(lia) Ha) as [Ha2 Hm]. apply IH; [by rewrite Hm|done].
Qed.

(** The start: no goroutine is in [Flush]. *)
Definition begin (q : Queue B) : World := mk_world q ∅ (contents q) [].

(** ** A goroutine on its own *)

(** The turns of one goroutine that nothing interrupts, with the POSTs of [post]. *)
Fixpoint turns (k : nat) (post : poster) (now : Z) (p : Point) (q : Queue B) (posted : list string)
    : option Point * Queue B * list string :=
  match k with
  | O => (Some p, q, posted)
  | S k =>
      let '(err, now) := match p with Posting body _ _ => post (length posted) body | _ => (None, now) end in
      let posted := match p with Posting body _ _ => body :: posted | _ => posted end in
      match turn now err p q with
      | (Some p, q) => turns k post now p q posted
      | (None, q) => (None, q, posted)
      end
  end.

(** The loop of [Flush] is its turns. *)
Lemma rounds_are_turns fuel post now rt rl sent q posted err q' posted' :
  flush_rounds fuel post now rt rl sent q posted = (Some err, q', posted') ->
  exists k, turns k post now (Peeking (mk_loop sent rt rl)) q posted = (None, q', posted').
Proof.
  revert now rl sent q posted. induction fuel as [|fuel IH]; intros now rl sent q posted; [done|].
  cbn [flush_rounds]. destruct (peek q) as [[body|] q1] eqn:Ep.
  2: { intros [= <- <- <-]. exists 1%nat. cbn. by rewrite Ep. }
  assert (forall k, turns (if sent <? rt then S (S k) else S k) post now (Peeking (mk_loop sent rt rl)) q posted =
    turns k post now (Posting body (sent <? rt) (mk_loop (sent + 1) rt rl))
      (if sent <? rt then incrementRetry q1 else q1) posted) as E1
    by (intros k; destruct (sent <? rt) eqn:E; cbn [turns turn SendQueueRace.sent retainedToLog retainedLogged];
        rewrite Ep, E; done).
  set (q2 := if sent <? rt then incrementRetry q1 else q1) in *.
  destruct (post (length posted) body) as [[e|] now'] eqn:Epost.
  - destruct (noteTerminal now' (Some e) _) as [t q3] eqn:En. intros [= <- <- <-].
    eexists. rewrite (E1 4%nat). cbn [turns turn]. rewrite Epost. cbn [turns turn]. rewrite En. by destruct t.
  - intros Hr.
    assert (forall k, exists j, turns j post now (Posting body (sent <? rt) (mk_loop (sent + 1) rt rl)) q2 posted =
      turns k post now' (Peeking (mk_loop (sent + 1) rt (if rl <? rt then rl + 1 else rl)))
        (let q := popFront false (if sent <? rt then incrementRetrySuccess (recordDelivery now' None q2)
                                  else recordDelivery now' None q2) in
         if rl <? rt then (pending now' q).2 else q) (body :: posted)) as E2.
    { intros k. exists (S (S ((if (sent <? rt)%Z then 1 else 0) + S ((if (rl <? rt)%Z then 1 else 0) + k)))%nat).
      cbn [turns turn]. rewrite Epost.
      destruct (sent <? rt), (rl <? rt) eqn:El; cbn [Nat.add turns turn retainedToLog retainedLogged];
        rewrite ?El; cbn [turns turn]; done. }
    destruct (rl <? rt); cbn iota beta in Hr.
    all: apply IH in Hr as [k Hk]; destruct (E2 k) as [j Ej]; eexists; etrans; [exact (E1 j)|];
      etrans; [exact Ej|exact Hk].
Qed.

(** A call of [Flush] that nothing interrupts is the turns of its goroutine. *)
Lemma flush_is_turns fuel post now q err q' posted :
  Flush fuel post now q = Some (err, q', posted) ->
  exists k, turns k post now Entering q [] = (None, q', posted).
Proof.
  unfold Flush, FlushRounds. destruct (Blocked now q) eqn:Eb.
  { intros [= <- <- <-]. exists 1%nat. cbn. by rewrite Eb. }
  destruct (pendingLocked _) as [n q1] eqn:En.
  destruct (flush_rounds _ _ _ _ _ _ _ _) as [[[o|] qf] pf] eqn:Er; [|done]. intros [= -> -> ->].
  apply rounds_are_turns in Er as [k Hk]. exists (S (S k)). cbn [turns turn]. rewrite Eb. cbn [turns turn].
  by rewrite En.
Qed.

(** ** Running given interleavings, on a queue in memory *)

Inductive event := Offers (now : Z) (body : string) | Calls (i : nat) | Turns (i : nat) (now : Z) (err : option goerr).

Definition act (n : nat) (w : World) (ev : event) : option World :=
  match ev with
  | Offers now body =>
      match db (queue w) with
      | Some _ => None
      | None => let '(r, q) := Offer now body None (queue w) in
                Some (mk_world q (flushers w) (if is_ok r then offered w ++ [body] else offered w) (posts w))
      end
  | Calls i =>
      match flushers w !! i with
      | None => if (i <? n)%nat then Some (mk_world (queue w) (<[i := Entering]> (flushers w)) (offered w) (posts w)) else None
      | Some _ => None
      end
  | Turns i now err => p ← flushers w !! i; Some (after_turn i p err (turn now err p (queue w)) w)
  end.

Fixpoint run (n : nat) (w : World) (evs : list event) : option World :=
  match evs with [] => Some w | ev :: evs => w ← act n w ev; run n w evs end.

Lemma act_step n w ev w' : act n w ev = Some w' -> step n w w'.
Proof.
  destruct ev as [now body|i|i now err]; cbn [act].
  - destruct (db (queue w)) eqn:Hd; [done|]. destruct (Offer _ _ _ _) as [r q] eqn:Ho. intros [= <-].
    eapply (offer n w now body None); [|reflexivity|exact Ho]. unfold has_room. by rewrite Hd.
  - destruct (flushers w !! i) eqn:Hi; [done|]. destruct (i <? n)%nat eqn:Hn; [|done]. intros [= <-].
    apply Nat.ltb_lt in Hn. by apply call.
  - destruct (flushers w !! i) as [p|] eqn:Hi; [|done]. intros [= <-]. by apply advance.
Qed.

Lemma run_steps n evs w w' : run n w evs = Some w' -> rtc (step n) w w'.
Proof.
  revert w. induction evs as [|ev evs IH]; intros w; cbn [run]; [by intros [= <-]|].
  destruct (act n w ev) as [w1|] eqn:E; [|done]. intros Hr. eapply rtc_l; [by eapply act_step|by apply IH].
Qed.
End race.
Arguments World : clear implicits.

(** C9: While one goroutine flushes, however its critical sections interleave with those
    of any number of goroutines that offer, observe the queue or note refusals, and
    whatever transactions fail, no payload is lost if what was offered fits the queue: the
    queue always holds the offered payloads in order, except for some at the front, each
    of which was posted and acknowledged or refused for good. *)
Theorem single_flusher_safe `{KVLaws B} (q : Queue B) w' :
  Inv q -> rtc (step 1) (begin q) w' -> size (offered w') <= maxBytes q ->
  exists gone, offered w' = (gone ++ contents (queue w'))%list /\ Forall (posted_for_good (posts w')) gone.
Proof.
  intros Hi Hr Hs. apply (alone_steps _ _ Hr Hs). split; [done|]. split; [|by exists []].
  intros i p Hp. cbn in Hp. by rewrite lookup_empty in Hp.
Qed.

Definition shared : Queue MemKV.bucket := New "host-metrics" 100.

(** A flush with an offer between the POST and the removal of its payload. *)
Definition interleaved : list event :=
  [Offers 0 "a"; Calls 0; Turns 0 0 None; Turns 0 0 None; Turns 0 0 None; Turns 0 1 None; Turns 0 1 None;
   Offers 1 "b"; Turns 0 2 None].

Lemma single_flusher_safe_witness :
  exists w', rtc (step 1) (begin shared) w' /\ offered w' = ["a"; "b"] /\ posts w' = [("a", None)] /\
    contents (queue w') = ["b"] /\
    exists gone, offered w' = (gone ++ contents (queue w'))%list /\ Forall (posted_for_good (posts w')) gone.
Proof.
  assert (exists w', run 1 (begin shared) interleaved = Some w' /\
    offered w' = ["a"; "b"] /\ posts w' = [("a", None)] /\ contents (queue w') = ["b"])
    as (w' & Hr%run_steps & Ho & Hp & Hc)
    by (eexists; split; [vm_compute; reflexivity|split_and!; reflexivity]).
  exists w'. split; [exact Hr|]. split; [exact Ho|]. split; [exact Hp|]. split; [exact Hc|].
  apply (single_flusher_safe shared w'); [by split|exact Hr|]. rewrite Ho. by vm_compute.
Defined.

(** Two goroutines that flush the same queue lose payloads: both read the oldest one and
    post it, and the second removal takes the next payload, which was never posted. *)
Example two_flushers_lose :
  exists w', rtc (step 2) (begin shared) w' /\ offered w' = ["a"; "b"] /\
    posts w' = [("a", None); ("a", None)] /\ contents (queue w') = [].
Proof.
  assert (exists w', run 2 (begin shared)
      ([Offers 0 "a"; Offers 1 "b"; Calls 0; Calls 1] ++
       concat (repeat [Turns 0 2 None; Turns 1 2 None] 6) ++ [Turns 1 3 None; Turns 1 3 None]) = Some w' /\ offered w' = ["a"; "b"] /\
    posts w' = [("a", None); ("a", None)] /\ contents (queue w') = [])
    as (w' & Hr%run_steps & Hrest) by (eexists; split; [vm_compute; reflexivity|split_and!; reflexivity]).
  by exists w'.
Qed.
End SendQueueRace.
