(* ===== verification/ConfigPull.v ===== *)
(** * The pull of the configuration (internal/configpull/configpull.go)

    A poll asks the server for what changed since the last version, applies the parts for
    the APM pipeline and acknowledges each, and hands the delta of the checks to the
    scheduler.

    The callbacks of [Config] act on the state [W] behind them.  The network answers an
    exchange from its number and the request.  Encoders and decoders, the escaping of
    queries, the SNMP query of a test, the reader of SNMP profiles and the file system are
    arguments. *)

From S2P Require Import Prelude GoStrings Wire SendQueue Processing Sampler Apm Ingest.
#[local] Open Scope Z_scope.

Module ConfigPull.
Import Ingest.

(** ** What the scheduler offers *)

(** [Applier], with [FailedStartRetrier] where it is implemented. *)
Class Applier (R : Type) := {
  ApplyDelta : Z -> list CheckConfig -> list string -> R -> R;
  RetryFailedStarts : option (R -> R);
}.

(** ** The response of the server *)

Record samplingPolicy := mk_sampling {
  sp_BudgetRevision : string;
  sp_Mode : string;
  sp_TargetTracesPerSecond : f64;
  sp_Version : Z;
  sp_BaseRate : f64;
  sp_SlowThresholdMs : Z;
}.

Record processingEnvelope := mk_envelope { pe_Revision : string; pe_Policy : Processing.Policy }.

Record remoteService := mk_remote_service {
  rs_Service : string;
  rs_Env : string;
  rs_SampleRate : option f64;
  rs_Tags : list string;
}.
Record remoteConfig := mk_remote { rc_Revision : string; rc_Services : list remoteService }.

Record primaryTags := mk_primary_tags { pt_Version : Z; pt_Keys : list string }.

Record pulledProfile := mk_profile { pp_Name : string; pp_Yaml : string; pp_Version : Z }.

Record pulledCheck := mk_pulled_check {
  pc_ID : string;
  pc_CheckType : string;
  pc_HostId : Z;
  pc_Hostname : string;
  pc_ExternalId : string;
  pc_Params : string;
  pc_StaticTags : string;
  pc_IntervalSeconds : Z;
  pc_ConfigVersion : Z;
  pc_DisabledMetrics : string;
}.

Record pulledSnmpTest := mk_snmp_test {
  ts_ID : string;
  ts_HostUUID : string;
  ts_Target : string;
  ts_Version : string;
  ts_Params : gmap string Processing.json;
}.

Record pullResponse := mk_pull_response {
  APMProcessing : option processingEnvelope;
  APMPrimaryTags : option primaryTags;
  APMSampling : option samplingPolicy;
  APMRemote : option remoteConfig;
  Version : Z;
  AddedOrUpdated : list pulledCheck;
  DeletedIds : list string;
  SnmpProfiles : option (list pulledProfile);
  ShouldUpdate : bool;
  EnabledModules : option (list string);
  SnmpTests : list pulledSnmpTest;
}.

(** ** Checks of the response *)

Section conversion.
Variable unmarshal_map : string -> option (gmap string Processing.json).   (* into a map[string]any *)
Variable sprint : Processing.json -> string.   (* fmt.Sprintf("%v") of a decoded value *)

Definition param_text (v : Processing.json) : string :=
  match v with Processing.JString s => s | _ => sprint v end.

Definition jsonObjectToStringMap (s : string) : tagmap :=
  if String.eqb s "" || String.eqb s "{}" then ∅
  else match unmarshal_map s with None => ∅ | Some m => param_text <$> m end.

Definition startsWith (s prefix : string) : bool := has_prefix prefix s.

Definition put_new (k v : string) (m : tagmap) : tagmap :=
  match m !! k with Some _ => m | None => if String.eqb v "" then m else <[k := v]> m end.

Definition check_config (p : pulledCheck) : CheckConfig :=
  let params := <["_config_version" := itoa (pc_ConfigVersion p)]> (jsonObjectToStringMap (pc_Params p)) in
  let remote := existsb (startsWith (pc_CheckType p)) ["snmp."; "icmp."; "lldp."] in
  let params := if remote
                then put_new "target" (if String.eqb (pc_ExternalId p) "" then pc_Hostname p else pc_ExternalId p) params
                else params in
  let d := pc_DisabledMetrics p in
  let params := if negb (String.eqb d "") && negb (String.eqb d "[]") then <["disabled_metrics" := d]> params else params in
  mk_check_config (pc_ID p) (pc_CheckType p)
    (if 0 <? pc_IntervalSeconds p then pc_IntervalSeconds p * second else 0)
    params (jsonObjectToStringMap (pc_StaticTags p)) (itoa (pc_HostId p)) true "".
End conversion.

(** ** Polls *)

(** The parts of a response that are acknowledged. *)
Inductive part := Sampling | Processing_ | Remote | Tags.

#[global] Instance part_eq_dec : EqDecision part.
Proof. solve_decision. Defined.

(** Why a request is made. *)
Inductive purpose := Sources | Config_ | Ack (p : part) | TestResult.

(** What a poll does to the outside, in order. *)
Inductive event := Requested (p : purpose) (rq : http_request) | Applied (p : part) (ok : bool) | MarkerWritten.

(** What is encoded for the server. *)
Inductive report :=
  | RSources (keys : list string)
  | RSampling (version : Z) (mode : string) (target : f64) (budget : string)
  | RRevision (revision : string)
  | RVersion (version : Z)
  | RTest (id : string) (ok : bool) (error sysObjectID : string) (duration : Z).

Section pull.
Context {W R Profile : Type} `{Applier R}.

Record Config := mk_config {
  ApplyAPMPrimaryTags : option (list string -> W -> res unit * W);
  APMPrimaryTagSources : option (W -> list string);
  ApplyAPMProcessing : option (Processing.Policy -> W -> res unit * W);
  ApplyAPMSampling : option (f64 -> Z -> W -> res unit * W);
  ApplyAPMSamplingPolicy : option (Sampler.Policy -> W -> res unit * W);
  ApplyAPMRemoteConfig : option (list Sampler.ServiceRate -> list Processing.Rule -> W -> res unit * W);
  Endpoint : string;
  CollectorID : string;
  TenantID : string;
  UpdateMarkerPath : string;
  PolicyChanged : option (list string -> W -> W);
  PostgresTargets : option (list CheckConfig -> list string -> W -> W);
  OnTerminalRemoval : option (Z -> W -> W);
}.

(** [sinceVer], the scheduler, the state behind the callbacks, the exchanges made, and
    the events, the latest last. *)
Record St := mk_st {
  sinceVer : Z;
  runtime : R;
  ext : W;
  exchanges : nat;
  trace : list event;
}.

Definition M (A : Type) : Type := St -> res A * St.
#[global] Instance M_ret : MRet M := fun A a s => (Ok a, s).
#[global] Instance M_bind : MBind M :=
  fun A B f m s => match m s with (Ok a, s) => f a s | (Err e, s) => (Err e, s) end.

Definition fail {A} (e : string) : M A := fun s => (Err e, s).
Definition read {A} (f : St -> A) : M A := fun s => (Ok (f s), s).
Definition emit (ev : event) : M unit :=
  fun s => (Ok tt, mk_st (sinceVer s) (runtime s) (ext s) (exchanges s) (trace s ++ [ev])).
Definition on_ext (f : W -> W) : M unit :=
  fun s => (Ok tt, mk_st (sinceVer s) (runtime s) (f (ext s)) (exchanges s) (trace s)).
Definition call (f : W -> res unit * W) : M unit :=
  fun s => let '(r, w) := f (ext s) in (r, mk_st (sinceVer s) (runtime s) w (exchanges s) (trace s)).
Definition on_runtime (f : R -> R) : M unit :=
  fun s => (Ok tt, mk_st (sinceVer s) (f (runtime s)) (ext s) (exchanges s) (trace s)).
Definition store_since (v : Z) : M unit :=
  fun s => (Ok tt, mk_st v (runtime s) (ext s) (exchanges s) (trace s)).

(** A call whose error is only logged. *)
Definition ignore (m : M unit) : M unit := fun s => (Ok tt, (m s).2).

Variable client : nat -> http_request -> res http_response.
Variable url_error : string -> option string.
Variable query_escape : string -> string.
Variable marshal : report -> string.
Variable decode : string -> option pullResponse.
Variable unmarshal_map : string -> option (gmap string Processing.json).
Variable sprint : Processing.json -> string.
Variable probe : pulledSnmpTest -> W -> (bool * string * string * Z) * W.   (* the query of a test *)
Variable ParseProfileYAML : string -> string -> option Profile.
Variable RegisterDynamicProfiles : gmap string Profile -> W -> W.
Variable WriteFile : string -> string -> W -> res unit * W.   (* os.WriteFile *)
Variable Rename : string -> string -> W -> res unit * W.
Variable format_time : Z -> string.   (* in RFC 3339 *)
Variable cfg : Config.

(** [client.Do]. *)
Definition Do (rq : http_request) : M http_response :=
  fun s => (client (exchanges s) rq,
            mk_st (sinceVer s) (runtime s) (ext s) (S (exchanges s)) (trace s)).

Definition exchange (p : purpose) (rq : http_request) : M http_response :=
  match url_error (URL rq) with
  | Some e => fail e
  | None =>
      emit (Requested p rq);; Do rq
  end.

Definition identity_query : string :=
  "?tenant_id=" +:+ query_escape (TenantID cfg) +:+ "&collector_id=" +:+ query_escape (CollectorID cfg).

Definition report_url (base path : string) : string :=
  base +:+ "/api/collector/v1/config/" +:+ path +:+ identity_query.

Definition json_header : string * string := ("Content-Type", "application/json").

(** A report that must not be refused; [tolerated] is a status that is accepted anyway. *)
Definition post_report (p : purpose) (path : string) (tolerated : Z -> bool) (body : report) (error : string)
    : M unit :=
  resp ← exchange p (mk_http_request "POST" (report_url (Statsfwd.trim_slashes (Endpoint cfg)) path) [json_header] (marshal body));
  if (400 <=? StatusCode resp) && negb (tolerated (StatusCode resp))
  then fail (error +:+ itoa (StatusCode resp)) else mret tt.

Definition never (_ : Z) : bool := false.

Definition report_sources : M unit :=
  match APMPrimaryTagSources cfg with
  | None => mret tt
  | Some sources =>
      keys ← read (fun s => sources (ext s));
      if 256 <? Z.of_nat (length keys) then fail "too many primary metadata sources"
      else post_report Sources "apm-primary-tags-sources" (fun code => code =? 404) (RSources keys)
             "metadata source report returned "
  end.

Definition config_url (since : Z) : string :=
  Endpoint cfg +:+ "/api/collector/v1/config" +:+ identity_query +:+ "&since=" +:+ itoa since.

Definition fetch (since : Z) : M pullResponse :=
  resp ← exchange Config_ (mk_http_request "GET" (config_url since) [("Accept", "application/json")] "");
  let body := match RespBody resp with Ok b => b | Err _ => "" end in
  if 400 <=? StatusCode resp then
    (match OnTerminalRemoval cfg with
     | Some f => if StatusCode resp =? 410 then on_ext (f (StatusCode resp)) else mret tt
     | None => mret tt
     end);;
    fail ("server returned " +:+ itoa (StatusCode resp) +:+ ": " +:+ str_take 200 body)
  else match decode body with
       | None => fail "parse response"
       | Some r => mret r
       end.

(** *** SNMP tests *)

Definition run_probe (t : pulledSnmpTest) : M (bool * string * string * Z) :=
  fun s => let '(p, w) := probe t (ext s) in
           (Ok p, mk_st (sinceVer s) (runtime s) w (exchanges s) (trace s)).

Definition executeSnmpTest (t : pulledSnmpTest) : M unit :=
  '(ok, err, oid, duration) ← run_probe t;
  resp ← exchange TestResult
    (mk_http_request "POST" (report_url (Endpoint cfg) "test-results")
       [("Accept", "application/json"); json_header] (marshal (RTest (ts_ID t) ok err oid duration)));
  if 400 <=? StatusCode resp then fail ("test result returned " +:+ itoa (StatusCode resp)) else mret tt.

Fixpoint run_tests (l : list pulledSnmpTest) : M unit :=
  match l with [] => mret tt | t :: l => ignore (executeSnmpTest t);; run_tests l end.

(** *** The parts for the APM pipeline *)

(** The callback of a part; its outcome is an event. *)
Definition apply (p : part) (f : W -> res unit * W) : M unit :=
  fun s => let '(r, w) := f (ext s) in
           (r, mk_st (sinceVer s) (runtime s) w (exchanges s) (trace s ++ [Applied p (is_ok r)])).

Definition apply_sampling (p : samplingPolicy) : M unit :=
  if bool_decide (is_Some (ApplyAPMSampling cfg) \/ is_Some (ApplyAPMSamplingPolicy cfg)) then
    if (sp_Version p <? 1) || (sp_SlowThresholdMs p <? 0) || (600000 <? sp_SlowThresholdMs p)
    then fail "invalid sampling policy"
    else
      let mode := if String.eqb (sp_Mode p) "" then "static" else sp_Mode p in
      match ApplyAPMSamplingPolicy cfg with
      | Some f =>
          apply Sampling (f (Sampler.mk_policy mode (sp_BaseRate p) (sp_SlowThresholdMs p)
                               (sp_TargetTracesPerSecond p) (sp_BudgetRevision p)))
      | None =>
          if negb (String.eqb mode "static") then fail "adaptive sampling requires policy-capable agent"
          else match ApplyAPMSampling cfg with
               | Some f => apply Sampling (f (sp_BaseRate p) (sp_SlowThresholdMs p * millisecond))
               | None => mret tt
               end
      end;;
      post_report (Ack Sampling) "apm-sampling-applied" never
        (RSampling (sp_Version p) mode (sp_TargetTracesPerSecond p) (sp_BudgetRevision p))
        "sampling applied ACK returned "
  else mret tt.

(** 64 characters, all of which [strings.Trim] would take off. *)
Definition hex_digit (z : Z) : bool := is_digit z || ((97 <=? z) && (z <=? 102)).
Definition revision_ok (s : string) : bool := (String.length s =? 64)%nat && forallb hex_digit (bytes_of s).

Definition apply_processing (p : processingEnvelope) : M unit :=
  match ApplyAPMProcessing cfg with
  | None => mret tt
  | Some f =>
      if negb (revision_ok (pe_Revision p)) then fail "invalid processing revision"
      else
        apply Processing_ (f (pe_Policy p));;
        post_report (Ack Processing_) "apm-processing-applied" never (RRevision (pe_Revision p))
          "processing applied ACK returned "
  end.

Definition remote_tag (service env : string) (t : string) : res Processing.Rule :=
  let '(key, value, ok) := cut ":" t in
  if negb ok || String.eqb key "" then Err "invalid remote tag"
  else Ok (Processing.mk_rule "remote" None (Some service) (Some env) "set_attribute" (Some key) (Some value)).

Definition remote_rates (l : list remoteService) : list Sampler.ServiceRate :=
  l ≫= fun i => match rs_SampleRate i with
                | Some rate => [Sampler.mk_service_rate (rs_Service i) (rs_Env i) rate]
                | None => []
                end.

(** The rules of a list of tags; the error of the first bad one. *)
Fixpoint tag_rules (service env : string) (l : list string) : res (list Processing.Rule) :=
  match l with
  | [] => Ok []
  | t :: l => r ← remote_tag service env t; rs ← tag_rules service env l; Ok (r :: rs)
  end.

Fixpoint remote_rules (l : list remoteService) : res (list Processing.Rule) :=
  match l with
  | [] => Ok []
  | i :: l => a ← tag_rules (rs_Service i) (rs_Env i) (rs_Tags i); b ← remote_rules l; Ok (a ++ b)
  end.

Definition lift {A} (r : res A) : M A := fun s => (r, s).

Definition apply_remote (p : remoteConfig) : M unit :=
  match ApplyAPMRemoteConfig cfg with
  | None => mret tt
  | Some f =>
      if negb (revision_ok (rc_Revision p)) || (1000 <? Z.of_nat (length (rc_Services p)))
      then fail "invalid remote configuration"
      else
        rules ← lift (remote_rules (rc_Services p));
        apply Remote (f (remote_rates (rc_Services p)) rules);;
        post_report (Ack Remote) "apm-remote-config-applied" never (RRevision (rc_Revision p))
          "remote configuration applied ACK returned "
  end.

Definition apply_tags (p : primaryTags) : M unit :=
  match ApplyAPMPrimaryTags cfg with
  | None => mret tt
  | Some f =>
      if pt_Version p <? 1 then fail "invalid primary tags version"
      else
        apply Tags (f (pt_Keys p));;
        post_report (Ack Tags) "apm-primary-tags-applied" never (RVersion (pt_Version p))
          "primary tags applied ACK returned "
  end.

Definition on_some {A} (x : option A) (f : A -> M unit) : M unit :=
  match x with Some a => f a | None => mret tt end.

(** *** The update marker *)

Definition writeUpdateMarker (now : Z) (path : string) : M unit :=
  call (WriteFile (path +:+ ".tmp") ("requested_at=" +:+ format_time now +:+ str1 10));;
  call (Rename (path +:+ ".tmp") path);;
  emit MarkerWritten.

Definition mark_update (now : Z) (r : pullResponse) : M unit :=
  if ShouldUpdate r && negb (String.eqb (UpdateMarkerPath cfg) "")
  then ignore (writeUpdateMarker now (UpdateMarkerPath cfg))
  else mret tt.

(** *** The checks *)

Definition retry_failed : M unit :=
  match RetryFailedStarts with Some f => on_runtime f | None => mret tt end.

Definition unchanged (since : Z) (r : pullResponse) : bool :=
  (Version r =? since) && bool_decide (AddedOrUpdated r = []) && bool_decide (DeletedIds r = []).

Definition dynamic_profiles (l : list pulledProfile) : gmap string Profile :=
  foldl (fun dyn p => match ParseProfileYAML (pp_Name p) (pp_Yaml p) with
                      | Some prof => <[pp_Name p := prof]> dyn
                      | None => dyn
                      end) ∅ l.

Definition deliver (now : Z) (r : pullResponse) : M unit :=
  let cfgs := check_config unmarshal_map sprint <$> AddedOrUpdated r in
  on_runtime (ApplyDelta now cfgs (DeletedIds r));;
  match cfgs with [] => retry_failed | _ => mret tt end;;
  on_some (PostgresTargets cfg) (fun f => on_ext (f cfgs (DeletedIds r)));;
  on_some (SnmpProfiles r) (fun l => on_ext (RegisterDynamicProfiles (dynamic_profiles l)));;
  store_since (Version r).

(** Everything of a response but its checks. *)
Definition apply_parts (now : Z) (r : pullResponse) : M unit :=
  run_tests (SnmpTests r);;
  on_some (PolicyChanged cfg) (fun f => on_some (EnabledModules r) (fun l => on_ext (f l)));;
  on_some (APMSampling r) apply_sampling;;
  on_some (APMProcessing r) apply_processing;;
  on_some (APMRemote r) apply_remote;;
  on_some (APMPrimaryTags r) apply_tags;;
  mark_update now r.

Definition apply_response (now since : Z) (r : pullResponse) : M unit :=
  apply_parts now r;;
  if unchanged since r then retry_failed else deliver now r.

(** One poll; [now] is the time of its local steps. *)
Definition pullOnce (now : Z) : M unit :=
  report_sources;;
  since ← read sinceVer;
  r ← fetch since;
  apply_response now since r.

(** [Run]: the configuration it refuses, and a poll at once and at each tick; the error
    of a poll is only logged. *)
Definition run_error : option string :=
  if String.eqb (Endpoint cfg) "" then Some "configpull: empty endpoint"
  else if String.eqb (CollectorID cfg) "" then Some "configpull: empty collector_id" else None.

Definition polls (ticks : list Z) (s : St) : St := foldl (fun s now => (pullOnce now s).2) s ticks.
End pull.

Arguments Config : clear implicits.
Arguments St : clear implicits.
End ConfigPull.
