(* ===== verification/ConfigPullProps.v ===== *)
(** * What the pull of the configuration promises

    A poll changes the scheduler and its version together or not at all; a part is
    acknowledged only after it was applied; the scheduler follows the configuration of
    the server. *)

From S2P Require Import Prelude GoStrings Wire Processing Sampler Scheduler SchedulerProps Apm Ingest ConfigPull.
#[local] Open Scope Z_scope.

Module ConfigPullProps.
Import Ingest ConfigPull.

Section pull.
Context {W R Profile : Type} `{!Applier R}.
Variable client : nat -> http_request -> res http_response.
Variable url_error : string -> option string.
Variable query_escape : string -> string.
Variable marshal : report -> string.
Variable decode : string -> option pullResponse.
Variable unmarshal_map : string -> option (gmap string Processing.json).
Variable sprint : Processing.json -> string.
Variable probe : pulledSnmpTest -> W -> (bool * string * string * Z) * W.
Variable ParseProfileYAML : string -> string -> option Profile.
Variable RegisterDynamicProfiles : gmap string Profile -> W -> W.
Variables WriteFile Rename : string -> string -> W -> res unit * W.
Variable format_time : Z -> string.
Variable cfg : Config W.
Implicit Types (s : St W R).

(** ** What every run of a computation does *)

Definition keeps (Rel : relation (St W R)) {A} (m : St W R -> res A * St W R) : Prop := forall s, Rel s (m s).2.

Section keeps.
Context (Rel : relation (St W R)) `{!PreOrder Rel}.

Lemma keeps_ret {A} (a : A) : keeps Rel (mret (M := M) a).
Proof. intros s. cbn. reflexivity. Qed.

Lemma keeps_fail {A} e : keeps Rel (fail (A := A) e).
Proof. intros s. cbn. reflexivity. Qed.

Lemma keeps_read {A} (f : St W R -> A) : keeps Rel (read f).
Proof. intros s. cbn. reflexivity. Qed.

Lemma keeps_lift {A} (r : res A) : keeps Rel (lift r).
Proof. intros s. cbn. reflexivity. Qed.

Lemma keeps_bind {A B} (f : A -> M B) (m : M A) :
  keeps Rel m -> (forall a, keeps Rel (f a)) -> keeps Rel (m ≫= f).
Proof.
  intros Hm Hf s. specialize (Hm s). unfold mbind, M_bind.
  destruct (m s) as [[a|e] s1]; [|done]. etrans; [exact Hm|apply Hf].
Qed.

Lemma keeps_ignore (m : M unit) : keeps Rel m -> keeps Rel (ignore m).
Proof. intros Hm s. apply Hm. Qed.

Lemma keeps_some {A} (x : option A) (f : A -> M unit) : (forall a, keeps Rel (f a)) -> keeps Rel (on_some x f).
Proof. intros Hf. destruct x; [apply Hf|apply keeps_ret]. Qed.
End keeps.

(** Walks through a computation whose leaves are known. *)
Ltac keep :=
  repeat match goal with
    | |- forall _, _ => intro
    | |- keeps _ (mret _) => apply keeps_ret; exact _
    | |- keeps _ (fail _) => apply keeps_fail; exact _
    | |- keeps _ (read _) => apply keeps_read; exact _
    | |- keeps _ (lift _) => apply keeps_lift; exact _
    | |- keeps _ (_ ≫= _) => apply keeps_bind; [exact _| |]
    | |- keeps _ (ignore _) => apply keeps_ignore
    | |- keeps _ (on_some _ _) => apply keeps_some; [exact _|]
    | |- keeps _ (match ?x with _ => _ end) => destruct x
    | |- keeps _ _ => solve [eauto]
    end.

Abbreviation exchange := (exchange client url_error).
Abbreviation post_report := (post_report client url_error query_escape marshal cfg).
Abbreviation report_sources := (report_sources client url_error query_escape marshal cfg).
Abbreviation fetch := (fetch client url_error query_escape decode cfg).
Abbreviation run_tests := (run_tests client url_error query_escape marshal probe cfg).
Abbreviation apply_sampling := (apply_sampling client url_error query_escape marshal cfg).
Abbreviation apply_processing := (apply_processing client url_error query_escape marshal cfg).
Abbreviation apply_remote := (apply_remote client url_error query_escape marshal cfg).
Abbreviation apply_tags := (apply_tags client url_error query_escape marshal cfg).
Abbreviation mark_update := (mark_update WriteFile Rename format_time cfg).
Abbreviation apply_parts := (apply_parts client url_error query_escape marshal probe WriteFile Rename format_time cfg).
Abbreviation deliver := (deliver unmarshal_map sprint ParseProfileYAML RegisterDynamicProfiles cfg).
Abbreviation pullOnce := (pullOnce client url_error query_escape marshal decode unmarshal_map sprint probe
  ParseProfileYAML RegisterDynamicProfiles WriteFile Rename format_time cfg).

(** ** A poll up to the checks

    What holds of the leaves holds of every part of a poll before the delta of the checks. *)

Section parts.
Context (Rel : relation (St W R)) `{!PreOrder Rel}.
Hypothesis keeps_on_ext : forall f, keeps Rel (on_ext f).
Hypothesis keeps_call : forall f, keeps Rel (call f).
Hypothesis keeps_probe : forall t, keeps Rel (run_probe probe t).
Hypothesis keeps_marker : keeps Rel (emit MarkerWritten).
Hypothesis keeps_exchange : forall p rq, (forall q, p <> Ack q) -> keeps Rel (exchange p rq).
Hypothesis keeps_acked : forall p f path body e,
  keeps Rel (ConfigPull.apply p f;; post_report (Ack p) path never body e).

#[local] Hint Resolve keeps_on_ext keeps_call keeps_probe keeps_marker keeps_acked : core.
#[local] Hint Extern 1 (keeps _ (ConfigPull.exchange _ _ _ _)) => apply keeps_exchange; discriminate : core.

Lemma keeps_sources : keeps Rel report_sources.
Proof. unfold ConfigPull.report_sources, ConfigPull.post_report. keep. Qed.

Lemma keeps_fetch since : keeps Rel (fetch since).
Proof. unfold ConfigPull.fetch. keep. Qed.

Lemma keeps_tests l : keeps Rel (run_tests l).
Proof. induction l; cbn [ConfigPull.run_tests]; unfold executeSnmpTest; keep. Qed.

Lemma keeps_sampling p : keeps Rel (apply_sampling p).
Proof.
  unfold ConfigPull.apply_sampling. case_bool_decide as Hs; [|keep].
  case_match; [keep|]. cbn zeta. destruct (ApplyAPMSamplingPolicy cfg); [auto|].
  destruct (negb _); [intros s; cbn; reflexivity|].
  destruct (ApplyAPMSampling cfg); [auto|]. by destruct Hs as [[? ?]|[? ?]].
Qed.

Lemma keeps_processing p : keeps Rel (apply_processing p).
Proof. unfold ConfigPull.apply_processing. case_match; [|keep]. case_match; [keep|auto]. Qed.

Lemma keeps_remote p : keeps Rel (apply_remote p).
Proof.
  unfold ConfigPull.apply_remote. case_match; [|keep]. case_match; [keep|].
  apply keeps_bind; [exact _|keep|]. auto.
Qed.

Lemma keeps_tags p : keeps Rel (apply_tags p).
Proof. unfold ConfigPull.apply_tags. case_match; [|keep]. case_match; [keep|auto]. Qed.

Lemma keeps_mark now r : keeps Rel (mark_update now r).
Proof. unfold ConfigPull.mark_update, writeUpdateMarker. keep. Qed.

#[local] Hint Resolve keeps_tests keeps_sampling keeps_processing keeps_remote keeps_tags keeps_mark : core.

Lemma keeps_parts now r : keeps Rel (apply_parts now r).
Proof. unfold ConfigPull.apply_parts. keep. Qed.

End parts.

(** ** The version and the scheduler *)

(** The scheduler and its version are as they were. *)
Definition same_checks s s' : Prop := sinceVer s' = sinceVer s /\ runtime s' = runtime s.

#[local] Instance same_checks_preorder : PreOrder same_checks.
Proof. split; [done|]. intros s1 s2 s3 [E1 E2] [E3 E4]. split; congruence. Qed.

Lemma exchange_same p rq : keeps same_checks (exchange p rq).
Proof. intros s. unfold ConfigPull.exchange. by destruct (url_error _). Qed.

Lemma call_same f : keeps same_checks (call f).
Proof. intros s. unfold call. by destruct (f _). Qed.

Lemma probe_same t : keeps same_checks (run_probe probe t).
Proof. intros s. unfold run_probe. by destruct (probe _ _). Qed.

Lemma acked_same p f path body e :
  keeps same_checks (ConfigPull.apply p f;; post_report (Ack p) path never body e).
Proof.
  apply keeps_bind; [exact _| |intros _; unfold ConfigPull.post_report].
  - intros s. unfold ConfigPull.apply. by destruct (f _).
  - apply keeps_bind; [exact _|apply exchange_same|keep].
Qed.

(** A request of the configuration since [v] that was answered, and the answer. *)
Definition answered (v : Z) (r : pullResponse) : Prop :=
  exists n resp b,
    client n (mk_http_request "GET" (config_url query_escape cfg v) [("Accept", "application/json")] "") = Ok resp /\
    StatusCode resp < 400 /\ (b = "" \/ RespBody resp = Ok b) /\ decode b = Some r.

Lemma fetch_answer v s r s' : fetch v s = (Ok r, s') -> same_checks s s' /\ answered v r.
Proof.
  intros E. split.
  { pose proof (keeps_fetch same_checks) as H. specialize (H (fun f s => conj eq_refl eq_refl)).
    specialize (H (fun p rq _ => exchange_same p rq) v s). by rewrite E in H. }
  unfold ConfigPull.fetch in E. unfold mbind, M_bind in E.
  unfold ConfigPull.exchange, Do, emit, mbind, M_bind in E. destruct (url_error _); [done|]. cbn -[Z.leb] in E.
  match type of E with context [client ?n ?rq] => destruct (client n rq) as [resp|] eqn:Er; [|done] end.
  destruct (400 <=? StatusCode resp) eqn:Ec.
  { destruct (OnTerminalRemoval cfg) as [f|]; [destruct (StatusCode resp =? 410)|]; done. }
  destruct (decode _) as [r'|] eqn:Ed; [|done]. injection E as <- _.
  exists (exchanges s), resp, (match RespBody resp with Ok b => b | Err _ => "" end).
  split_and!; [done|lia| |done]. destruct (RespBody resp); auto.
Qed.

Lemma parts_same now r : keeps same_checks (apply_parts now r).
Proof.
  apply keeps_parts; [exact _|done|apply call_same|apply probe_same|done|
    intros; apply exchange_same|apply acked_same].
Qed.

Lemma sources_same : keeps same_checks report_sources.
Proof. apply keeps_sources; [exact _|]. intros; apply exchange_same. Qed.

(** What a successful poll makes of the scheduler. *)
Definition retried (rt : R) : R := match RetryFailedStarts with Some f => f rt | None => rt end.

Definition delivered (now : Z) (r : pullResponse) (rt : R) : R :=
  let rt := ApplyDelta now (check_config unmarshal_map sprint <$> AddedOrUpdated r) (DeletedIds r) rt in
  if bool_decide (AddedOrUpdated r = []) then retried rt else rt.

Lemma deliver_does now r s :
  exists s', deliver now r s = (Ok tt, s') /\
    sinceVer s' = Version r /\ runtime s' = delivered now r (runtime s).
Proof.
  unfold ConfigPull.deliver, delivered, retried, retry_failed, mbind, M_bind, on_some.
  destruct (AddedOrUpdated r) as [|c l]; [rewrite bool_decide_eq_true_2 by done|rewrite bool_decide_eq_false_2 by done];
    cbn; destruct RetryFailedStarts, (PostgresTargets cfg), (SnmpProfiles r); cbn; eexists; split_and!; reflexivity.
Qed.

(** What a poll came to. *)
Definition outcome_of_poll (now : Z) (s : St W R) (o : res unit * St W R) : Prop :=
  match o with
  | (Err _, s') => sinceVer s' = sinceVer s /\ runtime s' = runtime s
  | (Ok _, s') => exists r,
      answered (sinceVer s) r /\
      if unchanged (sinceVer s) r
      then sinceVer s' = sinceVer s /\ runtime s' = retried (runtime s)
      else sinceVer s' = Version r /\ runtime s' = delivered now r (runtime s)
  end.

Lemma poll_outcome now s : outcome_of_poll now s (pullOnce now s).
Proof.
  unfold outcome_of_poll, ConfigPull.pullOnce, apply_response, mbind, M_bind. cbn [read].
  pose proof (sources_same s) as H1. destruct (report_sources s) as [[[]|e] s1]; [|exact H1].
  cbn. destruct (fetch (sinceVer s1) s1) as [[r|e] s2] eqn:Ef.
  2:{ pose proof (keeps_fetch same_checks (fun f s => conj eq_refl eq_refl)
        (fun p rq _ => exchange_same p rq) (sinceVer s1) s1) as H2. rewrite Ef in H2. change (same_checks s s2). by etrans. }
  apply fetch_answer in Ef as [H2 Ha].
  pose proof (parts_same now r s2) as H3.
  destruct (apply_parts now r s2) as [[[]|e] s3]; cbn [snd] in *;
    [|change (same_checks s s3); by etrans; [|etrans]].
  assert (same_checks s s3) as [E1 E2] by (by etrans; [|etrans]).
  destruct H1 as [H1 _]. rewrite H1 in *.
  destruct (unchanged (sinceVer s) r) eqn:Eu.
  - unfold retry_failed. rewrite <- E1, <- E2. unfold retried.
    destruct RetryFailedStarts; cbn; exists r; rewrite E1; rewrite Eu; done.
  - destruct (deliver_does now r s3) as (s' & E & E3 & E4). rewrite E.
    exists r. rewrite Eu, E4, E2. done.
Qed.

(** A poll changes the version and the scheduler together or not at all.  If it fails
    anywhere (a request, a refused report, a bad or refused part of the response, a refused
    acknowledgement) both are as they were, so that the next poll asks again from the same
    version.  If it succeeds, the server answered a request from the present version; an
    answer with the same version and no checks leaves the checks to the retry of failed
    starts, and any other is delivered to the scheduler in full and its version kept. *)
Theorem poll_all_or_nothing (now : Z) (s : St W R) :
  match pullOnce now s with
  | (Err _, s') => sinceVer s' = sinceVer s /\ runtime s' = runtime s
  | (Ok _, s') => exists r,
      answered (sinceVer s) r /\
      if unchanged (sinceVer s) r
      then sinceVer s' = sinceVer s /\ runtime s' = retried (runtime s)
      else sinceVer s' = Version r /\ runtime s' = delivered now r (runtime s)
  end.
Proof. exact (poll_outcome now s). Qed.

(** ** Acknowledgements *)

(** Each acknowledgement follows a call of its callback that succeeded. *)
Definition acked_after (t : list event) : Prop :=
  forall t1 q rq t2, t = t1 ++ Requested (Ack q) rq :: t2 -> Applied q true ∈ t1.

Lemma acked_after_app t u : acked_after t -> acked_after u -> acked_after (t ++ u).
Proof.
  intros Ht Hu t1 q rq t2 [(k & -> & E)|(k & -> & E)]%app_eq_inv.
  - destruct k as [|ev k]; cbn in E.
    + exfalso. symmetry in E. by apply (Hu [] q rq t2), elem_of_nil in E.
    + injection E as <- ->. by eapply Ht.
  - apply elem_of_app. right. by eapply Hu.
Qed.

Lemma acked_after_nil : acked_after [].
Proof. by intros [] ????. Qed.

Lemma acked_after_other ev : (forall q rq, ev <> Requested (Ack q) rq) -> acked_after [ev].
Proof. intros Hev [|ev' [|]] q rq t2 [= ->]; by destruct (Hev q rq). Qed.

(** The events added acknowledge only what they applied. *)
Definition logs s s' : Prop := exists t, trace s' = trace s ++ t /\ acked_after t.

#[local] Instance logs_preorder : PreOrder logs.
Proof.
  split.
  - intros s. exists []. split; [by rewrite app_nil_r|apply acked_after_nil].
  - intros s1 s2 s3 (t & E & Ht) (u & E' & Hu). exists (t ++ u).
    split; [by rewrite E', E, app_assoc|by apply acked_after_app].
Qed.

Lemma logs_same s s' : trace s' = trace s -> logs s s'.
Proof. intros E. exists []. split; [by rewrite app_nil_r|apply acked_after_nil]. Qed.

Lemma logs_one ev s s' : (forall q rq, ev <> Requested (Ack q) rq) -> trace s' = trace s ++ [ev] -> logs s s'.
Proof. intros Hev E. exists [ev]. split; [done|by apply acked_after_other]. Qed.

Lemma exchange_logs p rq : (forall q, p <> Ack q) -> keeps logs (exchange p rq).
Proof.
  intros Hp s. unfold ConfigPull.exchange. destruct (url_error _); [by apply logs_same|].
  eapply logs_one; [|reflexivity]. intros q rq' [= ? _]. by destruct (Hp q).
Qed.

Lemma call_logs f : keeps logs (call f).
Proof. intros s. unfold call. destruct (f _). by apply logs_same. Qed.

Lemma acked_logs p f path body e :
  keeps logs (ConfigPull.apply p f;; post_report (Ack p) path never body e).
Proof.
  intros s. unfold ConfigPull.apply, emit, ConfigPull.post_report, ConfigPull.exchange, mbind, M_bind.
  destruct (f (ext s)) as [[[]|er] w]; [|by eapply logs_one; [|reflexivity]]. cbn.
  destruct (url_error _); [by eapply logs_one; [|reflexivity]|]. cbn.
  assert (acked_after ([Applied p true] ++ [Requested (Ack p) (mk_http_request "POST"
    (report_url query_escape cfg (Statsfwd.trim_slashes (Endpoint cfg)) path) [json_header] (marshal body))])) as Ha.
  { intros [|ev [|ev' [|]]] q rq t2 [=]; subst; by left. }
  destruct (client _ _) as [resp|]; [destruct (_ && _)|]; cbn;
    (eexists; split; [cbn; by rewrite <- app_assoc|exact Ha]).
Qed.

Lemma pullOnce_logs now : keeps logs (pullOnce now).
Proof.
  assert (forall f : W -> W, keeps logs (on_ext f)) as H1 by (intros f s; by apply logs_same).
  assert (forall t, keeps logs (run_probe probe t)) as H2
    by (intros t s; unfold run_probe; destruct (probe _ _); by apply logs_same).
  assert (keeps logs (emit MarkerWritten)) as H3 by (intros s; by eapply logs_one; [|reflexivity]).
  assert (forall f : R -> R, keeps logs (on_runtime f)) as H4 by (intros f s; by apply logs_same).
  assert (forall v, keeps logs (store_since v)) as H5 by (intros v s; by apply logs_same).
  pose proof call_logs as H6. pose proof exchange_logs as H7. pose proof acked_logs as H8.
  unfold ConfigPull.pullOnce, apply_response.
  apply keeps_bind; [exact _|apply keeps_sources; [exact _|done]|intros _].
  apply keeps_bind; [exact _|apply keeps_read; exact _|intros since].
  apply keeps_bind; [exact _|apply keeps_fetch; [exact _|done..]|intros r].
  apply keeps_bind; [exact _|apply keeps_parts; [exact _|done..]|intros _].
  unfold ConfigPull.deliver, retry_failed. keep.
Qed.

Abbreviation polls := (polls client url_error query_escape marshal decode unmarshal_map sprint probe
  ParseProfileYAML RegisterDynamicProfiles WriteFile Rename format_time cfg).

(** Whatever the server and the callbacks answer, an acknowledgement of a part of the
    configuration is sent only after the callback that applies that part returned without
    an error: a policy that was refused, or that no callback takes, is never reported as
    applied. *)
Theorem acknowledged_only_applied (ticks : list Z) (v : Z) (rt : R) (w : W) (n : nat) :
  acked_after (trace (polls ticks (mk_st v rt w n []))).
Proof.
  assert (forall s, logs s (polls ticks s)) as Hl.
  { unfold ConfigPull.polls. induction ticks as [|now ticks IH]; intros s; [apply logs_same; done|].
    etrans; [apply (pullOnce_logs now)|apply IH]. }
  destruct (Hl (mk_st v rt w n [])) as (t & E & Ht). by rewrite E.
Qed.
End pull.

(** ** The scheduler behind the pull *)

(** [checks.Runtime]; [order] is how a map is enumerated. *)
Definition scheduler {O Data : Type}
    (order : list (string * CheckConfig) -> list (string * CheckConfig))
    : Applier (@Scheduler.Runtime O Data) := {|
  ApplyDelta now added deleted r := (Scheduler.ApplyDelta now added deleted r).2;
  RetryFailedStarts := Some (fun r =>
    (Scheduler.RetryFailedStarts (order (map_to_list (Scheduler.pendingStarts r))) r).2);
|}.

Section fleet.
Context {W Profile O Data : Type}.
Variable order : list (string * CheckConfig) -> list (string * CheckConfig).
Hypothesis order_perm : forall l, order l ≡ₚ l.
#[local] Instance applier : Applier (@Scheduler.Runtime O Data) := scheduler order.

Variable client : nat -> http_request -> res http_response.
Variable url_error : string -> option string.
Variable query_escape : string -> string.
Variable marshal : report -> string.
Variable decode : string -> option pullResponse.
Variable unmarshal_map : string -> option (gmap string Processing.json).
Variable sprint : Processing.json -> string.
Variable probe : pulledSnmpTest -> W -> (bool * string * string * Z) * W.
Variable ParseProfileYAML : string -> string -> option Profile.
Variable RegisterDynamicProfiles : gmap string Profile -> W -> W.
Variables WriteFile Rename : string -> string -> W -> res unit * W.
Variable format_time : Z -> string.
Variable cfg : Config W.

Variable reg : @Scheduler.Registry O Data.
Hypothesis reg_names : SchedulerProps.names_checks reg.

(** The checks of the server at each of its versions.  It answers with what leads from
    the version it was asked for to the version it names. *)
Variable history : Z -> gmap string CheckConfig.
Hypothesis history_empty : history 0 = ∅.
Hypothesis server_history : forall v r,
  answered client query_escape decode cfg v r ->
  SchedulerProps.deliver (check_config unmarshal_map sprint <$> AddedOrUpdated r) (DeletedIds r) (history v)
  = history (Version r).

(** Every check it sends has an id that the factories keep. *)
Hypothesis server_names : forall v r,
  answered client query_escape decode cfg v r ->
  Forall (fun c => SchedulerProps.well_named (pc_ID c)) (AddedOrUpdated r).

Abbreviation Runtime := (@Scheduler.Runtime O Data).
Abbreviation polls := (ConfigPull.polls client url_error query_escape marshal decode unmarshal_map sprint probe
  ParseProfileYAML RegisterDynamicProfiles WriteFile Rename format_time cfg).

Lemma retry_follows m (r : Runtime) :
  SchedulerProps.follows reg m r -> SchedulerProps.follows reg m (retried r).
Proof.
  intros Hf. exact (SchedulerProps.step_follows reg reg_names m r (SchedulerProps.ORetry _) _ I Hf
    (SchedulerProps.step_retry r _ (order_perm _))).
Qed.

Lemma delivered_follows now a m (r : Runtime) :
  Forall (fun c => SchedulerProps.well_named (pc_ID c)) (AddedOrUpdated a) ->
  SchedulerProps.follows reg m r ->
  SchedulerProps.follows reg
    (SchedulerProps.deliver (check_config unmarshal_map sprint <$> AddedOrUpdated a) (DeletedIds a) m)
    (delivered unmarshal_map sprint now a r).
Proof.
  intros Hn Hf. unfold delivered. cbn.
  assert (SchedulerProps.well_named_checks (check_config unmarshal_map sprint <$> AddedOrUpdated a)) as Hn'.
  { apply Forall_fmap. exact Hn. }
  pose proof (SchedulerProps.ApplyDelta_follows reg reg_names now
    (check_config unmarshal_map sprint <$> AddedOrUpdated a) (DeletedIds a) m r Hn' Hf) as Hf'.
  case_bool_decide; [by apply retry_follows|done].
Qed.

Lemma polls_follow ticks (s : St W Runtime) :
  SchedulerProps.follows reg (history (sinceVer s)) (runtime s) ->
  SchedulerProps.follows reg (history (sinceVer (polls ticks s))) (runtime (polls ticks s)).
Proof.
  unfold ConfigPull.polls. revert s. induction ticks as [|now ticks IH]; intros s Hf; [done|]. cbn [foldl]. apply IH.
  pose proof (poll_outcome client url_error query_escape marshal decode unmarshal_map sprint probe
    ParseProfileYAML RegisterDynamicProfiles WriteFile Rename format_time cfg now s) as H.
  destruct (pullOnce _ _ _ _ _ _ _ _ _ _ _ _ _ _ _ _) as [[[]|e] s']; cbn [snd].
  - destruct H as (r & Ha & H). destruct (unchanged _ _).
    + destruct H as [-> ->]. by apply retry_follows.
    + destruct H as [-> ->]. rewrite <- (server_history _ _ Ha). apply delivered_follows; [by eapply server_names|done].
  - destruct H as [-> ->]. done.
Qed.

End fleet.

(** ** A concrete server *)

(** It holds one check, at version 1, and asks for an update in its first answer; it
    refuses the first acknowledgement. *)
Definition example_client (n : nat) (rq : http_request) : res http_response :=
  if String.eqb (Method rq) "GET" then Ok (mk_http_response 200 "" (Ok (if (n =? 0)%nat then "first" else "later")))
  else Ok (mk_http_response (if (n =? 1)%nat then 500 else 200) "" (Ok "")).

Definition revision : string := String.concat "" (repeat "0123456789abcdef" 4).
Definition example_response (update : bool) : pullResponse :=
  mk_pull_response (Some (mk_envelope revision (Processing.mk_policy 1 []))) None None None 1
    [mk_pulled_check "c1" "tcp" 7 "db" "" "{}" "{}" 60 3 ""] [] None update None [].
Definition example_decode (b : string) : option pullResponse :=
  if String.eqb b "first" then Some (example_response true)
  else if String.eqb b "later" then Some (example_response false) else None.

(** The state behind the callbacks: the policies applied and the files renamed. *)
Definition example_config : Config (list Processing.Policy * list string) :=
  mk_config None None (Some (fun p w => (Ok tt, (w.1 ++ [p], w.2)))) None None None
    "https://app" "agent" "t" "/var/lib/telvyn/update" None None None.

Definition example_probe (t : pulledSnmpTest) (w : list Processing.Policy * list string) :=
  ((true, "", "", 0), w).
Definition example_rename (a b : string) (w : list Processing.Policy * list string) : res unit * _ :=
  (Ok tt, (w.1, w.2 ++ [b])).

Abbreviation example_polls := (
  let _ := @scheduler unit unit id in
  polls (Profile := unit) example_client (fun _ => None) id (fun _ => "") example_decode (fun _ => Some ∅) (fun _ => "")
    example_probe (fun _ _ => None) (fun _ w => w) (fun _ _ w => (Ok tt, w)) example_rename (fun _ => "")
    example_config).

Definition example_checks (v : Z) : gmap string CheckConfig :=
  if v =? 1 then
    {[ "c1" := mk_check_config "c1" "tcp" minute {[ "_config_version" := "3" ]} ∅ "7" true "" ]}
  else ∅.

Lemma example_history v r :
  answered example_client id example_decode example_config v r ->
  SchedulerProps.deliver (check_config (fun _ => Some ∅) (fun _ => "") <$> AddedOrUpdated r) (DeletedIds r)
    (example_checks v) = example_checks (Version r).
Proof.
  intros (n & resp & b & _ & _ & _ & Hd). unfold example_decode in Hd.
  assert (exists u, r = example_response u) as [u ->].
  { destruct (String.eqb b "first"); [by eexists; injection Hd|].
    destruct (String.eqb b "later"); [by eexists; injection Hd|done]. }
  unfold example_checks at 1. destruct (v =? 1); vm_compute; reflexivity.
Qed.

Lemma example_server_names v r :
  answered example_client id example_decode example_config v r ->
  Forall (fun c => SchedulerProps.well_named (pc_ID c)) (AddedOrUpdated r).
Proof.
  intros (n & resp & b & _ & _ & _ & Hd). unfold example_decode in Hd.
  destruct (String.eqb b "first"); [|destruct (String.eqb b "later"); [|done]]; injection Hd as <-.
  all: constructor; [split; [done|reflexivity]|constructor].
Qed.


(** The update that the server asks for, once, is lost when a part of the same answer is
    not acknowledged: the second poll ends at version 1 with the policy applied twice and
    no marker written. *)
Example update_request_lost :
  let s := example_polls [1; 2] (mk_st 0 (SchedulerProps.configured SchedulerProps.example_registry Scheduler.default_options) ([], []) 0 []) in
  sinceVer s = 1 /\ length (ext s).1 = 2%nat /\ (ext s).2 = [] /\ MarkerWritten ∉ trace s.
Proof.
  cbn zeta. split_and!; [vm_compute; reflexivity..|].
  match goal with |- _ ∉ ?t => let t' := eval vm_compute in t in change t with t' end.
  intros H. repeat (apply elem_of_cons in H as [H|H]; [discriminate H|]). by apply elem_of_nil in H.
Qed.
End ConfigPullProps.
