(* ===== verification/RateWindow.v ===== *)
(** * Rates limited by fixed windows

    What the limits of log lines and of query plans share: a window has a start and a
    count; it starts anew when it is [width] old, and something of some weight passes if
    the count stays within the limit.  Over any stretch of time as long as a window at
    most twice the limit passes, since the stretch meets at most two windows. *)

From S2P Require Import Prelude.
#[local] Open Scope Z_scope.

Module RateWindow.
Section window.
Variables width limit : Z.
Hypothesis width_pos : 0 < width.

(** The start and the count. *)
Definition window : Type := Z * Z.

Definition spend (now weight : Z) (w : window) : bool * window :=
  let w := if width <=? now - w.1 then (now, 0) else w in
  if limit <? w.2 + weight then (false, w) else (true, (w.1, w.2 + weight)).

(** A window is one of the time [tau]. *)
Definition sound (tau : Z) (w : window) : Prop := w.1 <= tau /\ 0 <= w.2 <= limit.

(** What may still pass in the stretch from [T], when the last attempt was at [tau]. *)
Definition allowance (T tau : Z) (w : window) : Z :=
  if tau <? T then 2 * limit
  else if w.1 <? T then 2 * limit - w.2
  else if w.1 <? T + width then limit - w.2
  else 0.

Definition within (T t : Z) : bool := (T <=? t) && (t <? T + width).

Lemma admit_budget t weight tau T w :
  0 <= weight -> sound tau w -> tau <= t ->
  let '(ok, w') := spend t weight w in
  sound t w' /\ (if ok && within T t then weight else 0) + allowance T t w' <= allowance T tau w.
Proof.
  intros Hweight [Hw Hc] Ht. destruct w as [s c]. unfold spend, sound, allowance, within in *. cbn [fst snd] in *.
  destruct (width <=? t - s) eqn:Es; cbn [fst snd].
  - destruct (limit <? 0 + weight) eqn:Eo; cbn [fst snd andb]; (split; [lia|]); repeat case_match; lia.
  - destruct (limit <? c + weight) eqn:Eo; cbn [fst snd andb]; (split; [lia|]); repeat case_match; lia.
Qed.

Lemma allowance_bound T tau w : 0 <= limit -> sound tau w -> 0 <= allowance T tau w <= 2 * limit.
Proof. intros Hl [_ Hc]. unfold allowance. repeat case_match; lia. Qed.
End window.
End RateWindow.
