(* ===== verification/DockerLogs.v ===== *)
(** * The tailer of container logs (internal/logs: json_reader.go, docker_tailer.go)

    A reader follows the JSON file of one container with a [bufio.Scanner]; the tailer
    keeps one reader per running container and hands the entries to the exporter.

    A poll of a reader sees the file as it is at that moment.  The Standard Library's
    parsers of JSON and of RFC 3339 times and the Unicode lower case are arguments. *)

From S2P Require Import Prelude GoStrings Wire CriTailer.
#[local] Open Scope Z_scope.

Module DockerLogs.

Abbreviation bytes := (list Ascii.ascii).

Definition maxLineLen : Z := 256 * 1024.
Definition defaultRateLimitBytesPerSec : Z := 1 * 1024 * 1024.
Definition dockerContainersDir : string := "/var/lib/docker/containers".

(** ** bufio.Scanner over a file, by lines *)

Inductive scan_error := EOF | TooLong.

#[global] Instance scan_error_eq_dec : EqDecision scan_error.
Proof. solve_decision. Defined.

(** What was read and not yet given, where the next read starts, and [s.err], which is
    never cleared. *)
Record Scanner := mk_scanner {
  buffered : bytes;
  position : nat;
  scan_err : option scan_error;
}.

Fixpoint cut_line (l : bytes) : option (bytes * bytes) :=
  match l with
  | [] => None
  | c :: l =>
      if Ascii.eqb c CriTailer.newline then Some ([], l)
      else (fun p => (c :: p.1, p.2)) <$> cut_line l
  end.

Fixpoint dropCR (l : bytes) : bytes :=
  match l with
  | [] => []
  | [c] => if Ascii.eqb c (chr 13) then [] else [c]
  | c :: l => c :: dropCR l
  end.

(** The token and what follows it; None asks for more data. *)
Definition ScanLines (data : bytes) (at_eof : bool) : option (bytes * bytes) :=
  match cut_line data with
  | Some (l, rest) => Some (dropCR l, rest)
  | None => match data with
            | [] => None
            | _ => if at_eof then Some (dropCR data, []) else None
            end
  end.

(** The next token.  A read fills the buffer of [maxLineLen] bytes as far as the file
    goes: how the reads are cut does not change the tokens.  Four rounds are enough. *)
Fixpoint scan (fuel : nat) (content : bytes) (s : Scanner) : option bytes * Scanner :=
  match fuel with
  | O => (None, s)
  | S fuel =>
      let at_eof := bool_decide (is_Some (scan_err s)) in
      match ScanLines (buffered s) at_eof with
      | Some (token, rest) => (Some token, mk_scanner rest (position s) (scan_err s))
      | None =>
          if at_eof then (None, mk_scanner [] (position s) (scan_err s))
          else if maxLineLen <=? Z.of_nat (length (buffered s))
          then (None, mk_scanner (buffered s) (position s) (Some TooLong))
          else
            match take (Z.to_nat maxLineLen - length (buffered s)) (drop (position s) content) with
            | [] => scan fuel content (mk_scanner (buffered s) (position s) (Some EOF))
            | chunk => scan fuel content (mk_scanner (buffered s ++ chunk) (position s + length chunk) None)
            end
      end
  end.

Definition Scan : bytes -> Scanner -> option bytes * Scanner := scan 4.

(** ** Entries *)

Record dockerLogLine := mk_docker_line {
  dl_Log : string;
  dl_Stream : string;
  dl_Time : string;
}.

Record ContainerMeta := mk_meta {
  ContainerID : string;
  ContainerName : string;
  ServiceName : string;
  ImageName : string;
}.

Record LogEntry := mk_entry {
  EntryTime : Z;
  EntryBody : string;
  EntryStream : string;
  Meta : ContainerMeta;
}.

(** ** The reader of one file *)

(** [scanner] is None while no file is open. *)
Record JSONFileReader := mk_reader {
  meta : ContainerMeta;
  rateLimitBytesPerSec : Z;
  bytesThisWindow : Z;
  windowStart : Z;
  droppedLines : Z;
  offset : Z;
  inode : Z;
  scanner : option Scanner;
}.

Definition set_window (b w : Z) (r : JSONFileReader) : JSONFileReader :=
  mk_reader (meta r) (rateLimitBytesPerSec r) b w (droppedLines r) (offset r) (inode r) (scanner r).
Definition drop_line (r : JSONFileReader) : JSONFileReader :=
  mk_reader (meta r) (rateLimitBytesPerSec r) (bytesThisWindow r) (windowStart r) (i64 (droppedLines r + 1))
    (offset r) (inode r) (scanner r).
Definition set_offset (o : Z) (r : JSONFileReader) : JSONFileReader :=
  mk_reader (meta r) (rateLimitBytesPerSec r) (bytesThisWindow r) (windowStart r) (droppedLines r)
    o (inode r) (scanner r).
Definition set_scanner (sc : option Scanner) (r : JSONFileReader) : JSONFileReader :=
  mk_reader (meta r) (rateLimitBytesPerSec r) (bytesThisWindow r) (windowStart r) (droppedLines r)
    (offset r) (inode r) sc.
Definition set_inode (i : Z) (r : JSONFileReader) : JSONFileReader :=
  mk_reader (meta r) (rateLimitBytesPerSec r) (bytesThisWindow r) (windowStart r) (droppedLines r)
    (offset r) i (scanner r).
Definition closeFile : JSONFileReader -> JSONFileReader := set_scanner None.

(** What the path of a log is: an inode and its bytes. *)
Definition file : Type := Z * bytes.
Definition size (f : file) : Z := Z.of_nat (length f.2).

(** The cursor that was saved, else the end of the file. *)
Definition NewJSONFileReader (m : ContainerMeta) (cs : CriTailer.CursorStore) (limit now : Z) (stat : option file)
    : JSONFileReader :=
  match CriTailer.cursor_get (ContainerID m) cs with
  | Some c => mk_reader m limit 0 now 0 (CriTailer.Offset c) (CriTailer.Inode c) None
  | None =>
      match stat with
      | Some f => mk_reader m limit 0 now 0 (size f) f.1 None
      | None => mk_reader m limit 0 now 0 0 0 None
      end
  end.

(** Opens or reopens the file; [opens] says whether the system opens it. *)
Definition ensureOpen (path : option file) (opens : bool) (r : JSONFileReader) : bool * JSONFileReader :=
  match path with
  | None => (false, closeFile r)
  | Some f =>
      let reopen r :=
        let r := closeFile r in
        if opens
        then (true, set_scanner (Some (mk_scanner [] (if 0 <? offset r then Z.to_nat (offset r) else 0) None))
                      (set_inode f.1 r))
        else (false, r) in
      match scanner r with
      | None => reopen r
      | Some _ =>
          if negb (f.1 =? inode r) then reopen (set_offset 0 r)
          else if size f <? offset r then reopen (set_offset 0 r)
          else (true, r)
      end
  end.

Section parsing.
Variable unmarshal : string -> option dockerLogLine.   (* json.Unmarshal into the struct *)
Variable parse_time : string -> option Z.   (* time.Parse(time.RFC3339Nano, s), as UnixNano *)

Definition newline_text : string := str1 10.

Definition parseLine (now : Z) (line : string) (r : JSONFileReader) : option LogEntry :=
  match unmarshal line with
  | None => None
  | Some dl =>
      if String.eqb (dl_Log dl) "" then None
      else Some (mk_entry (default now (parse_time (dl_Time dl))) (trim_suffix newline_text (dl_Log dl))
                   (dl_Stream dl) (meta r))
  end.

(** A line that was looked at: when, and what became of it. *)
Inductive outcome := OverRate | Unparsed | NoRoom (e : LogEntry) | Sent (e : LogEntry).
Record scanned := mk_scanned { sc_time : Z; sc_line : bytes; sc_outcome : outcome }.

(** The check of the rate; false drops the line. *)
Definition admit_rate (now len : Z) (r : JSONFileReader) : bool * JSONFileReader :=
  if 0 <? rateLimitBytesPerSec r then
    let r := if second <=? time_sub now (windowStart r) then set_window 0 now r else r in
    if rateLimitBytesPerSec r <? i64 (bytesThisWindow r + len) then (false, drop_line r)
    else (true, set_window (i64 (bytesThisWindow r + len)) (windowStart r) r)
  else (true, r).

(** The clock when line [i] of a poll is looked at and when its time cannot be parsed,
    and whether the channel has room for its entry. *)
Variables now stamp : nat -> Z.
Variable room : nat -> bool.

Definition handle_line (i : nat) (line : bytes) (r : JSONFileReader) : scanned * JSONFileReader :=
  let len := Z.of_nat (length line) + 1 in
  let '(ok, r) := admit_rate (now i) len r in
  let r := set_offset (i64 (offset r + len)) r in
  if negb ok then (mk_scanned (now i) line OverRate, r)
  else
    match parseLine (stamp i) (String.string_of_list_ascii line) r with
    | None => (mk_scanned (now i) line Unparsed, r)
    | Some e => if room i then (mk_scanned (now i) line (Sent e), r)
                else (mk_scanned (now i) line (NoRoom e), drop_line r)
    end.

Fixpoint scan_lines (fuel i : nat) (content : bytes) (sc : Scanner) (r : JSONFileReader)
    : list scanned * Scanner * JSONFileReader :=
  match fuel with
  | O => ([], sc, r)
  | S fuel =>
      match Scan content sc with
      | (None, sc) => ([], sc, r)
      | (Some line, sc) =>
          let '(o, r) := handle_line i line r in
          let '(os, sc, r) := scan_lines fuel (S i) content sc r in
          (o :: os, sc, r)
      end
  end.

(** Enough for every token: each takes at least one byte. *)
Definition line_fuel (content : bytes) (sc : Scanner) : nat :=
  S (length (buffered sc) + (length content - position sc)).

(** One poll. *)
Definition readAvailable (path : option file) (opens : bool) (r : JSONFileReader)
    : list scanned * JSONFileReader :=
  match ensureOpen path opens r, path with
  | (true, r), Some f =>
      match scanner r with
      | None => ([], r)
      | Some sc =>
          let '(os, sc, r) := scan_lines (line_fuel f.2 sc) 0 f.2 sc r in
          (os, if bool_decide (scan_err sc = Some TooLong) then closeFile r else set_scanner (Some sc) r)
      end
  | (_, r), _ => ([], r)
  end.
End parsing.

Definition saveCursor (r : JSONFileReader) (cs : CriTailer.CursorStore) : CriTailer.CursorStore :=
  CriTailer.cursor_set (ContainerID (meta r)) (CriTailer.mk_cursor (offset r) (inode r)) cs.

(** ** The tailer *)

(** The parts of [container.Summary] that are used. *)
Record Summary := mk_summary {
  sm_ID : string;
  sm_Names : list string;
  sm_Image : string;
  sm_Labels : tagmap;
}.

Definition containerName (c : Summary) : string :=
  match sm_Names c with n :: _ => trim_prefix "/" n | [] => "" end.

(** What follows the last slash. *)
Definition base_name (img : string) : string := List.last (split "/" img) "".

Definition deriveServiceName (ToLower : string -> string) (c : Summary) : string :=
  let v := tag "com.docker.compose.service" (sm_Labels c) in
  if negb (String.eqb v "") then CriTailer.sanitizeName ToLower v
  else
    let name := containerName c in
    if negb (String.eqb name "") then CriTailer.sanitizeName ToLower name
    else CriTailer.sanitizeName ToLower (cut ":" (base_name (sm_Image c))).1.1.

Record DockerLogsTailer := mk_tailer {
  cursors : CriTailer.CursorStore;
  hostname : string;
  rateLimitBytes : Z;
  readers : gmap string JSONFileReader;
  linesTotal : Z;
  droppedTotal : Z;
}.

Definition set_readers (m : gmap string JSONFileReader) (t : DockerLogsTailer) : DockerLogsTailer :=
  mk_tailer (cursors t) (hostname t) (rateLimitBytes t) m (linesTotal t) (droppedTotal t).

(** The limit of the rate from the environment. *)
Definition rate_limit_from (v : string) : Z :=
  if String.eqb v "" then defaultRateLimitBytesPerSec
  else match atoi v with
       | Some n => if 0 <? n then n else defaultRateLimitBytesPerSec
       | None => defaultRateLimitBytesPerSec
       end.

Definition NewDockerLogsTailer (host env : string) (cs : CriTailer.CursorStore) : DockerLogsTailer :=
  mk_tailer cs host (rate_limit_from env) ∅ 0 0.

Definition log_path (id : string) : string := dockerContainersDir +:+ "/" +:+ id +:+ "/" +:+ id +:+ "-json.log".

(** [id[:12]] of a log message panics on a shorter id. *)
Definition printable (id : string) : bool := 12 <=? str_len id.

Section tailer.
Variable ToLower : string -> string.

Definition container_meta (c : Summary) : ContainerMeta :=
  mk_meta (sm_ID c) (containerName c) (deriveServiceName ToLower c) (sm_Image c).

(** The last container listed under an id. *)
Definition running_set (containers : list Summary) : gmap string Summary :=
  foldl (fun m c => <[sm_ID c := c]> m) ∅ containers.

(** Ends the readers of containers that are gone: their goroutines save the cursor. *)
Definition stop_gone (running : gmap string Summary) (t : DockerLogsTailer) : option DockerLogsTailer :=
  let gone := filter (fun p => running !! p.1 = None) (map_to_list (readers t)) in
  if forallb (fun p => printable p.1) gone
  then Some (mk_tailer (foldl (fun cs p => saveCursor p.2 cs) (cursors t) gone) (hostname t) (rateLimitBytes t)
               (filter (fun p => is_Some (running !! p.1)) (readers t)) (linesTotal t) (droppedTotal t))
  else None.

(** The containers with a log file that have no reader get one. *)
Definition start_new (now : Z) (disk : string -> option file) (running : gmap string Summary) (t : DockerLogsTailer)
    : option DockerLogsTailer :=
  let fresh := filter (fun p => readers t !! p.1 = None /\ is_Some (disk (log_path p.1))) (map_to_list running) in
  if forallb (fun p => printable p.1) fresh
  then Some (set_readers
         (foldl (fun m p => <[p.1 := NewJSONFileReader (container_meta p.2) (cursors t) (rateLimitBytes t) now
                                       (disk (log_path p.1))]> m) (readers t) fresh) t)
  else None.

(** [listed] is None when the daemon does not answer.  None is a panic. *)
Definition discover (now : Z) (listed : option (list Summary)) (disk : string -> option file) (t : DockerLogsTailer)
    : option DockerLogsTailer :=
  match listed with
  | None => Some t
  | Some containers =>
      let running := running_set containers in
      t ← stop_gone running t; start_new now disk running t
  end.
End tailer.

(** The record of an entry. *)
Definition bridge_record (host : string) (e : LogEntry) : CriTailer.LogRecord :=
  let '(num, text) := CriTailer.streamToSeverity (EntryStream e) in
  CriTailer.mk_log_record (EntryTime e) (ServiceName (Meta e)) host num text (EntryBody e) "" ""
    {[ "container_id" := ContainerID (Meta e); "container_name" := ContainerName (Meta e);
       "service_name" := ServiceName (Meta e); "stream" := EntryStream e;
       "image" := ImageName (Meta e); "source" := "docker" ]}.

(** One entry taken off the channel: the record pushed. *)
Definition bridge (e : LogEntry) (t : DockerLogsTailer) : CriTailer.LogRecord * DockerLogsTailer :=
  (bridge_record (hostname t) e,
   mk_tailer (cursors t) (hostname t) (rateLimitBytes t) (readers t) (i64 (linesTotal t + 1)) (droppedTotal t)).

Definition flushAllCursors (t : DockerLogsTailer) : DockerLogsTailer :=
  mk_tailer (foldl (fun cs p => saveCursor p.2 cs) (cursors t) (map_to_list (readers t)))
    (hostname t) (rateLimitBytes t) (readers t) (linesTotal t) (droppedTotal t).

Definition collectDroppedStats (t : DockerLogsTailer) : DockerLogsTailer :=
  mk_tailer (cursors t) (hostname t) (rateLimitBytes t) (readers t) (linesTotal t)
    (foldl (fun n p => i64 (n + droppedLines p.2)) 0 (map_to_list (readers t))).

(** The readers save their cursors as they end. *)
Definition shutdown (t : DockerLogsTailer) : DockerLogsTailer := set_readers ∅ (flushAllCursors t).
End DockerLogs.
