(* ===== verification/DockerLogsProps.v ===== *)
(** * What the tailer of container logs does

    The tokens of the scanner are the lines of the file; a reader that is restarted from
    its cursor goes on where it stopped; the limit of the rate holds over any second.  And
    what it does not do: a scanner that has seen the end of the file stays there. *)

From S2P Require Import Prelude GoStrings Wire CriTailer CriTailerProps RateWindow DockerLogs.
#[local] Open Scope Z_scope.

Module DockerLogsProps.
Import DockerLogs.
Import CriTailer(newline).
Import CriTailerProps(unlines).

(** ** The scanner *)

Lemma unlines_cons l ls : unlines (l :: ls) = l ++ newline :: unlines ls.
Proof. unfold unlines. cbn [fmap list_fmap concat]. by rewrite <- app_assoc. Qed.

Lemma cut_line_app a b : newline ∉ a -> cut_line (a ++ newline :: b) = Some (a, b).
Proof.
  induction a as [|c a IH]; cbn; intros Ha; [done|]. apply not_elem_of_cons in Ha as [Hc Ha].
  destruct (Ascii.eqb_spec c newline) as [->|]; [done|]. by rewrite IH.
Qed.

Lemma cut_line_some l a b : cut_line l = Some (a, b) -> l = a ++ newline :: b /\ newline ∉ a.
Proof.
  revert a. induction l as [|c l IH]; intros a; cbn; [done|].
  destruct (Ascii.eqb_spec c newline) as [->|Hc].
  - intros [= <- <-]. split; [done|apply not_elem_of_nil].
  - destruct (cut_line l) as [[a' b']|]; cbn; [|done]. intros [= <- <-].
    destruct (IH a') as [-> Ha]; [done|]. split; [done|]. by apply not_elem_of_cons.
Qed.

Lemma cut_line_none l : cut_line l = None <-> newline ∉ l.
Proof.
  split.
  - intros E Hin. apply list_elem_of_split_l in Hin as (a & b & -> & Ha).
    assert (cut_line (a ++ newline :: b) = Some (a, b)) by by apply cut_line_app. congruence.
  - intros Hin. destruct (cut_line l) as [[a b]|] eqn:E; [|done].
    apply cut_line_some in E as [-> _]. destruct Hin. apply elem_of_app. right. left.
Qed.

(** What the scanner has still to give. *)
Definition unread (content : bytes) (s : Scanner) : bytes := buffered s ++ drop (position s) content.

(** It has neither failed nor seen the end. *)
Definition scanning (s : Scanner) : Prop :=
  scan_err s = None /\ Z.of_nat (length (buffered s)) <= maxLineLen.

Lemma elem_of_prefix (a b : bytes) c : a `prefix_of` b -> c ∉ b -> c ∉ a.
Proof. intros [k ->] H Hin. apply H, elem_of_app. by left. Qed.

(** The rounds of [scan]. *)
Lemma scan_round fuel content s :
  scanning s -> newline ∉ buffered s -> Z.of_nat (length (buffered s)) < maxLineLen ->
  scan (S fuel) content s =
    match take (Z.to_nat maxLineLen - length (buffered s)) (drop (position s) content) with
    | [] => scan fuel content (mk_scanner (buffered s) (position s) (Some EOF))
    | chunk => scan fuel content (mk_scanner (buffered s ++ chunk) (position s + length chunk) None)
    end.
Proof.
  intros [He Hb] Hn Hl. cbn [scan]. rewrite He. cbn [is_Some bool_decide].
  unfold ScanLines. apply cut_line_none in Hn. rewrite Hn, bool_decide_eq_false_2 by (by intros [? ?]).
  replace (maxLineLen <=? _) with false by lia. by destruct (buffered s).
Qed.

Lemma scan_line fuel content s l rest :
  buffered s = l ++ newline :: rest -> newline ∉ l ->
  scan (S fuel) content s = (Some (dropCR l), mk_scanner rest (position s) (scan_err s)).
Proof.
  intros Hb Hl. cbn [scan]. unfold ScanLines. by rewrite Hb, cut_line_app.
Qed.

(** A line that fits is the next token. *)
Lemma Scan_token content s l rest :
  scanning s -> unread content s = l ++ newline :: rest -> newline ∉ l -> Z.of_nat (length l) < maxLineLen ->
  exists s', Scan content s = (Some (dropCR l), s') /\ scanning s' /\ unread content s' = rest.
Proof.
  intros [He Hb] Hu Hl Hlen. unfold Scan, unread in *.
  destruct (cut_line (buffered s)) as [[a b]|] eqn:Ec.
  - apply cut_line_some in Ec as [Eb Ha]. exists (mk_scanner b (position s) (scan_err s)).
    assert (a = l /\ b ++ drop (position s) content = rest) as [-> Er].
    { rewrite Eb, <- app_assoc, <- app_comm_cons in Hu.
      assert (cut_line (a ++ newline :: b ++ drop (position s) content) = cut_line (l ++ newline :: rest)) as E
        by by rewrite Hu.
      rewrite !cut_line_app in E by done. by injection E. }
    split; [by apply scan_line|split; [split; [exact He|]|done]]. cbn. rewrite Eb, length_app in Hb. cbn in Hb. lia.
  - apply cut_line_none in Ec.
    assert (exists k, l = buffered s ++ k /\ drop (position s) content = k ++ newline :: rest) as (k & -> & Hd).
    { apply app_eq_inv in Hu as [(k & E1 & E2)|(k & E1 & E2)]; [|by exists k].
      destruct k as [|c k]; [exists []; rewrite app_nil_r in *; by rewrite E1|].
      injection E2 as <- _. rewrite E1 in Ec. exfalso. apply Ec, elem_of_app. right. left. }
    rewrite length_app in Hlen. rewrite scan_round by (done || lia || by split).
    assert (exists j, take (Z.to_nat maxLineLen - length (buffered s)) (drop (position s) content)
      = k ++ newline :: j /\ j ++ drop (position s + length (k ++ newline :: j)) content = rest) as (j & Ej & Er).
    { rewrite Hd, take_app_ge by lia. destruct (_ - length k)%nat as [|m] eqn:Em; [lia|].
      exists (take m rest). split; [done|].
      rewrite <- drop_drop, Hd. rewrite length_app. cbn [length].
      rewrite drop_app_ge by lia. replace (_ - length k)%nat with (S (length (take m rest))) by lia. cbn [drop].
      rewrite length_take. destruct (Nat.le_gt_cases m (length rest)).
      - rewrite Nat.min_l by lia. by rewrite take_drop.
      - rewrite Nat.min_r by lia. rewrite drop_all, take_ge by lia. by rewrite app_nil_r. }
    rewrite Ej. destruct (k ++ newline :: j) as [|c0 k0] eqn:Ek; [by destruct k|]. rewrite <- Ek in *. clear c0 k0 Ek.
    exists (mk_scanner j (position s + length (k ++ newline :: j)) None).
    split; [|split; [split; [done|]|exact Er]].
    + erewrite scan_line; [reflexivity|cbn; by rewrite app_assoc|done].
    + cbn. pose proof (f_equal length Ej) as E. rewrite length_take, length_app in E. cbn in E. lia.
Qed.

(** The scanner at the end of its file, for good. *)
Definition at_end (s : Scanner) : Prop := scan_err s = Some EOF /\ buffered s = [].

Lemma Scan_at_end content s : at_end s -> Scan content s = (None, s).
Proof. destruct s as [b p e]. intros [He Hb]. cbn [scan_err buffered] in *. subst. reflexivity. Qed.

Lemma Scan_tail content s :
  scanning s -> newline ∉ unread content s -> Z.of_nat (length (unread content s)) < maxLineLen ->
  exists s', at_end s' /\
    Scan content s = (match unread content s with [] => None | u => Some (dropCR u) end, s').
Proof.
  intros Hs Hn Hlen.
  assert (forall fuel p, exists s', at_end s' /\
    scan (S fuel) content (mk_scanner (unread content s) p (Some EOF))
    = (match unread content s with [] => None | u => Some (dropCR u) end, s')) as Hend.
  { intros fuel p. cbn [scan]. unfold ScanLines. cbn [buffered scan_err position].
    apply cut_line_none in Hn. rewrite Hn, bool_decide_eq_true_2 by by eexists.
    destruct (unread content s); (eexists; split; [|reflexivity]; done). }
  unfold unread in Hn, Hlen. rewrite length_app in Hlen.
  assert (newline ∉ buffered s) as Hb by (intros H; apply Hn, elem_of_app; by left).
  unfold Scan. rewrite scan_round by (done || lia). rewrite take_ge by lia.
  unfold unread in *. destruct (drop (position s) content) as [|c d] eqn:Ed.
  - rewrite app_nil_r in *. apply Hend.
  - rewrite <- Ed in *. rewrite scan_round; cbn [buffered position]; [|split; [done|]|done|rewrite length_app; lia].
    + assert (drop (position s + length (drop (position s) content)) content = []) as ->
        by by rewrite <- drop_drop, drop_all.
      rewrite take_nil. apply Hend.
    + cbn. rewrite length_app. lia.
Qed.

(** A line that does not fit is an error. *)
Lemma Scan_long content s :
  scanning s -> newline ∉ take (Z.to_nat maxLineLen) (unread content s) ->
  maxLineLen <= Z.of_nat (length (unread content s)) ->
  exists s', Scan content s = (None, s') /\ scan_err s' = Some TooLong.
Proof.
  intros [He Hb] Hn Hlen. unfold unread in *. rewrite length_app in Hlen.
  assert (forall fuel b p, newline ∉ b -> Z.of_nat (length b) = maxLineLen ->
    exists s', scan (S fuel) content (mk_scanner b p None) = (None, s') /\ scan_err s' = Some TooLong) as Hfull.
  { intros fuel b p Hbn Hbl. cbn [scan]. unfold ScanLines. cbn [buffered scan_err position].
    apply cut_line_none in Hbn. rewrite Hbn, bool_decide_eq_false_2 by (by intros [? ?]).
    replace (maxLineLen <=? _) with true by lia. destruct b; eexists; (split; [reflexivity|done]). }
  destruct (Z.eq_dec (Z.of_nat (length (buffered s))) maxLineLen) as [E|E].
  - rewrite take_app_le, take_ge in Hn by lia. destruct s as [b p e]. cbn in He. subst e. by apply Hfull.
  - rewrite take_app_ge in Hn by lia. rewrite not_elem_of_app in Hn. destruct Hn as [Hn1 Hn2].
    unfold Scan. rewrite scan_round by (done || lia).
    set (chunk := take _ _) in *.
    assert (Z.of_nat (length chunk) = maxLineLen - Z.of_nat (length (buffered s))) as Hc
      by (unfold chunk; rewrite length_take; lia).
    destruct chunk as [|c k] eqn:Ek; [cbn in Hc; lia|]. rewrite <- Ek in *.
    apply Hfull; [rewrite not_elem_of_app; done|rewrite length_app; lia].
Qed.

(** ** One poll *)

Section polls.
Variable unmarshal : string -> option dockerLogLine.
Variable parse_time : string -> option Z.

(** What does not change while lines are looked at. *)
Definition same_file (r r' : JSONFileReader) : Prop :=
  meta r' = meta r /\ rateLimitBytesPerSec r' = rateLimitBytesPerSec r /\ inode r' = inode r /\
  scanner r' = scanner r.

Lemma admit_rate_same now len r :
  same_file r (admit_rate now len r).2 /\ offset (admit_rate now len r).2 = offset r.
Proof. unfold admit_rate, same_file. repeat (case_match; cbn); done. Qed.

Abbreviation handle_line := (handle_line unmarshal parse_time).
Abbreviation scan_lines := (scan_lines unmarshal parse_time).
Abbreviation readAvailable := (readAvailable unmarshal parse_time).

Lemma sumZ_cons {A} (f : A -> Z) x (l : list A) : sumZ f (x :: l) = f x + sumZ f l.
Proof. done. Qed.

Definition line_len (l : bytes) : Z := Z.of_nat (length l) + 1.

Lemma handle_line_same now stamp room i l r :
  let '(o, r') := handle_line now stamp room i l r in
  sc_line o = l /\ sc_time o = now i /\ same_file r r' /\ offset r' = i64 (offset r + line_len l).
Proof.
  unfold DockerLogs.handle_line. destruct (admit_rate_same (now i) (Z.of_nat (length l) + 1) r) as [H1 H2].
  destruct (admit_rate _ _ r) as [ok r1]. cbn [snd] in *. unfold same_file, line_len in *.
  destruct ok; cbn [negb]; [|cbn; rewrite H2; tauto].
  destruct (parseLine _ _ _ _ _); [destruct (room i)|]; cbn; rewrite H2; tauto.
Qed.

(** What follows the last newline, as the scanner gives it at the end. *)
Definition tail_line (rest : bytes) : list bytes := match rest with [] => [] | _ => [rest] end.

(** The lines of a file as the scanner gives them. *)
Definition given (ls : list bytes) (rest : bytes) : list bytes := dropCR <$> (ls ++ tail_line rest).

Lemma given_cons l ls rest : given (l :: ls) rest = dropCR l :: given ls rest.
Proof. done. Qed.

Definition short (l : bytes) : Prop := (newline ∉ l) /\ Z.of_nat (length l) < maxLineLen.

Lemma scan_lines_spec now stamp room content (ls : list bytes) rest : forall fuel i sc r,
  scanning sc -> unread content sc = unlines ls ++ rest -> Forall short ls -> short rest ->
  (length ls + length (tail_line rest) < fuel)%nat ->
  let '(os, sc', r') := scan_lines now stamp room fuel i content sc r in
  sc_line <$> os = given ls rest /\ at_end sc' /\ same_file r r' /\
  (0 <= offset r -> offset r + sumZ line_len (given ls rest) < 2 ^ 63 ->
   offset r' = offset r + sumZ line_len (given ls rest)).
Proof.
  induction ls as [|l ls IH]; intros fuel i sc r Hs Hu Hls [Hr1 Hr2] Hf; (destruct fuel as [|fuel]; [lia|]);
    cbn [DockerLogs.scan_lines].
  - cbn in Hu. unfold given. destruct (Scan_tail content sc Hs) as (sc' & He & E); [by rewrite Hu..|].
    rewrite E, Hu. destruct rest as [|c rest]; cbn [tail_line app fmap list_fmap].
    + split_and!; [done|done|done|]. cbn. lia.
    + pose proof (handle_line_same now stamp room i (dropCR (c :: rest)) r) as H.
      destruct (handle_line _ _ _ _ _ _) as [o r1]. destruct H as (H1 & _ & H2 & H3).
      destruct fuel as [|fuel]; [cbn in Hf; lia|]. cbn [DockerLogs.scan_lines]. rewrite Scan_at_end by done.
      split_and!; [cbn; by rewrite H1|done|done|]. rewrite sumZ_cons. cbn [sumZ foldr]. intros Ho Hb. rewrite H3, i64_small; [lia|].
      unfold in_i64, line_len in *. lia.
  - rewrite Forall_cons in Hls. destruct Hls as [[Hl1 Hl2] Hls].
    destruct (Scan_token content sc l (unlines ls ++ rest)) as (sc1 & E & Hs1 & Hu1); [done| |done|done|].
    { by rewrite Hu, unlines_cons, <- app_assoc. }
    rewrite E. pose proof (handle_line_same now stamp room i (dropCR l) r) as H.
    destruct (handle_line _ _ _ _ _ _) as [o r1]. destruct H as (H1 & _ & H2 & H3).
    specialize (IH fuel (S i) sc1 r1 Hs1 Hu1 Hls (conj Hr1 Hr2) ltac:(cbn in Hf; lia)).
    destruct (scan_lines now stamp room fuel (S i) content sc1 r1) as [[os sc'] r']. destruct IH as (I1 & I2 & I3 & I4).
    rewrite given_cons, sumZ_cons.
    split_and!; [cbn; by rewrite H1, I1|done|unfold same_file in *; intuition congruence|]. intros Ho Hb.
    assert (0 <= sumZ line_len (given ls rest)) as Hpos
      by (apply sumZ_nonneg; intros; unfold line_len; lia).
    assert (offset r1 = offset r + line_len (dropCR l)) as E1
      by (rewrite H3; apply i64_small; unfold in_i64, line_len in *; lia).
    unfold line_len in *. rewrite I4, E1; lia.
Qed.
Lemma dropCR_length l : (length (dropCR l) <= length l)%nat.
Proof.
  induction l as [|c [|d l] IH]; [done|cbn; destruct (Ascii.eqb c (chr 13)); cbn; lia|].
  cbn [dropCR length] in *. lia.
Qed.

Lemma given_length ls rest :
  sumZ line_len (given ls rest) <= Z.of_nat (length (unlines ls ++ rest)) + 1.
Proof.
  induction ls as [|l ls IH].
  - destruct rest as [|c rest]; [done|]. unfold given. cbn [tail_line app fmap list_fmap].
    rewrite sumZ_cons. cbn [sumZ foldr]. unfold line_len.
    pose proof (dropCR_length (c :: rest)). change (unlines [] ++ c :: rest) with (c :: rest). lia.
  - rewrite given_cons, sumZ_cons, unlines_cons, !length_app in *. cbn [length]. unfold line_len at 1.
    pose proof (dropCR_length l). lia.
Qed.

Lemma given_number ls rest : (length (ls ++ tail_line rest) <= length (unlines ls ++ rest))%nat.
Proof.
  induction ls as [|l ls IH]; [by destruct rest; cbn; lia|].
  rewrite unlines_cons, !length_app in *. cbn [length]. lia.
Qed.

(** A reader that opens its file looks at each line after its offset once, in order, and
    at what follows the last newline; then its scanner is at the end. *)
Lemma first_poll now stamp room ino c r ls rest :
  scanner r = None -> 0 <= offset r <= Z.of_nat (length c) -> Z.of_nat (length c) < 2 ^ 62 ->
  drop (Z.to_nat (offset r)) c = unlines ls ++ rest -> Forall short ls -> short rest ->
  let '(os, r') := readAvailable now stamp room (Some (ino, c)) true r in
  sc_line <$> os = given ls rest /\ (exists sc, scanner r' = Some sc /\ at_end sc) /\
  meta r' = meta r /\ inode r' = ino /\ offset r' = offset r + sumZ line_len (given ls rest).
Proof.
  intros Hc Ho Hlen Hd Hls Hrest. unfold DockerLogs.readAvailable, ensureOpen. rewrite Hc. cbn [fst snd].
  set (sc0 := mk_scanner [] _ None).
  assert (unread c sc0 = unlines ls ++ rest) as Hu.
  { unfold unread. cbn. rewrite <- Hd. f_equal. case_match; lia. }
  pose proof (given_number ls rest) as Hn. pose proof (given_length ls rest) as Hg.
  rewrite <- Hu in Hn, Hg. unfold unread in Hn, Hg. cbn [sc0 buffered app] in Hn, Hg. rewrite length_drop in Hn, Hg.
  rewrite !length_app in Hn.
  set (r0 := set_scanner _ _). cbn iota. change (scanner r0) with (Some sc0). cbn iota.
  pose proof (scan_lines_spec now stamp room c ls rest (line_fuel c sc0) 0 sc0 r0) as H.
  destruct (scan_lines now stamp room (line_fuel c sc0) 0 c sc0 r0) as [[os sc] r'].
  destruct H as (H1 & [He Hb] & (H2 & _ & H3 & _) & H4); [by split|done|done|done| |].
  { unfold line_fuel. cbn [sc0 buffered length]. lia. }
  rewrite He. rewrite bool_decide_eq_false_2 by done.
  split_and!; [done|by exists sc|exact H2|exact H3|]. cbn. rewrite H4; [done|cbn; lia|].
  cbn. cbn [sc0 position] in Hg. case_match; lia.
Qed.

(** A scanner at the end gives nothing, however the file grows. *)
Lemma at_end_stalls now stamp room f opens r sc :
  scanner r = Some sc -> at_end sc -> f.1 = inode r -> offset r <= size f ->
  readAvailable now stamp room (Some f) opens r = ([], r).
Proof.
  intros Hs He Hi Ho. unfold DockerLogs.readAvailable, ensureOpen. rewrite Hs, Hi, Z.eqb_refl. cbn [negb].
  replace (size f <? offset r) with false by lia. rewrite Hs. unfold line_fuel. cbn [DockerLogs.scan_lines].
  rewrite Scan_at_end by done. destruct He as [He _]. rewrite He, bool_decide_eq_false_2 by done.
  f_equal. destruct r. cbn in *. by subst.
Qed.

Definition no_cr (l : bytes) : Prop := dropCR l = l.

Lemma given_plain ls rest : Forall no_cr (ls ++ [rest]) -> given ls rest = ls ++ tail_line rest.
Proof.
  intros [Hl Hr]%Forall_app. unfold given. rewrite fmap_app. f_equal.
  - induction Hl as [|l ls E _ IH]; [done|]. cbn. by rewrite E, IH.
  - rewrite Forall_singleton in Hr. destruct rest; [done|]. unfold tail_line. cbn [fmap list_fmap]. by rewrite Hr.
Qed.

Lemma plain_lines_length ls : sumZ line_len ls = Z.of_nat (length (unlines ls)).
Proof.
  induction ls as [|l ls IH]; [done|]. rewrite sumZ_cons, IH, unlines_cons, length_app. unfold line_len at 1. cbn [length]. lia.
Qed.

Lemma saved_cursor r cs :
  CriTailer.cursor_get (ContainerID (meta r)) (saveCursor r cs) = Some (CriTailer.mk_cursor (offset r) (inode r)).
Proof. apply (lookup_insert_eq (M := gmap string)). Qed.

(** A reader that is restarted goes on where it stopped.  Its first poll looks at every
    complete line after its offset, each once and in order; its cursor is saved; a new
    reader takes the cursor up, and its first poll of the grown file looks at exactly the
    lines that were added, in order. *)
Theorem restart_resumes now stamp room now' stamp' room' r cs limit t stat ino c (ls ls' : list bytes) rest :
  scanner r = None -> 0 <= offset r <= Z.of_nat (length c) -> drop (Z.to_nat (offset r)) c = unlines ls ->
  Forall short (ls ++ ls' ++ [rest]) -> Forall no_cr (ls ++ ls' ++ [rest]) ->
  Z.of_nat (length (c ++ unlines ls' ++ rest)) < 2 ^ 62 ->
  let '(os, r1) := readAvailable now stamp room (Some (ino, c)) true r in
  let r2 := NewJSONFileReader (meta r) (saveCursor r1 cs) limit t stat in
  sc_line <$> os = ls /\
  sc_line <$> (readAvailable now' stamp' room' (Some (ino, c ++ unlines ls' ++ rest)) true r2).1 = ls' ++ tail_line rest.
Proof.
  intros Hc Ho Hd [Hs Hs']%Forall_app [Hn Hn']%Forall_app Hlen. rewrite length_app in Hlen.
  pose proof (Forall_app short ls' [rest]) as [Ha _]. destruct (Ha Hs') as [Hs1 Hs2]. rewrite Forall_singleton in Hs2.
  assert (short []) as Hnil by (split; [apply not_elem_of_nil|done]).
  pose proof (first_poll now stamp room ino c r ls [] Hc Ho ltac:(lia)) as H.
  rewrite given_plain in H by (apply Forall_app; split; [done|by apply Forall_singleton]).
  destruct (readAvailable now stamp room (Some (ino, c)) true r) as [os r1].
  destruct H as (H1 & _ & H2 & _ & H3); [by rewrite app_nil_r|done|done|].
  cbn [tail_line] in *. rewrite app_nil_r in *. split; [done|].
  assert (offset r1 = Z.of_nat (length c)) as E1.
  { rewrite H3, plain_lines_length, <- Hd, length_drop. lia. }
  set (r2 := NewJSONFileReader _ _ _ _ _).
  assert (r2 = mk_reader (meta r) limit 0 t 0 (Z.of_nat (length c)) (inode r1) None) as E2.
  { unfold r2, NewJSONFileReader. rewrite <- H2, saved_cursor. cbn. by rewrite E1. }
  pose proof (first_poll now' stamp' room' ino (c ++ unlines ls' ++ rest) r2 ls' rest) as H. rewrite E2 in *.
  destruct (readAvailable _ _ _ _ _ _) as [os' r3]. rewrite <- (given_plain ls' rest) by done.
  apply H; cbn; rewrite ?length_app in *; [done|lia|lia| |done|done].
  by rewrite Nat2Z.id, drop_app_length.
Qed.

(** The file of a container is followed only up to its first end.  After a first poll,
    whatever is appended is never looked at, at any later poll, until the file is
    truncated or replaced. *)
Lemma appended_lines_unread now stamp room ino c r (ls : list bytes) :
  scanner r = None -> 0 <= offset r <= Z.of_nat (length c) -> Z.of_nat (length c) < 2 ^ 62 ->
  drop (Z.to_nat (offset r)) c = unlines ls -> Forall short ls -> Forall no_cr ls ->
  let '(_, r1) := readAvailable now stamp room (Some (ino, c)) true r in
  forall now' stamp' room' more opens,
    readAvailable now' stamp' room' (Some (ino, c ++ more)) opens r1 = ([], r1).
Proof.
  intros Hc Ho Hlen Hd Hs Hn.
  assert (short []) as Hnil by (split; [apply not_elem_of_nil|done]).
  pose proof (first_poll now stamp room ino c r ls [] Hc Ho Hlen) as H.
  rewrite given_plain in H by (apply Forall_app; split; [done|by apply Forall_singleton]).
  destruct (readAvailable now stamp room (Some (ino, c)) true r) as [os r1].
  destruct H as (_ & (sc & H1 & H2) & _ & H3 & H4); [by rewrite app_nil_r|done|done|].
  intros. eapply at_end_stalls; [done|done|done|].
  unfold size. cbn. rewrite length_app. cbn [tail_line] in H4. rewrite app_nil_r in H4.
  rewrite H4, plain_lines_length, <- Hd, length_drop. lia.
Qed.
(** A line longer than the buffer is never passed: every poll fails and starts over. *)
Lemma docker_oversized_line_stalls now stamp room ino c r :
  scanner r = None -> 0 <= offset r ->
  newline ∉ take (Z.to_nat maxLineLen) (drop (Z.to_nat (offset r)) c) ->
  offset r + maxLineLen <= Z.of_nat (length c) ->
  readAvailable now stamp room (Some (ino, c)) true r = ([], set_inode ino r).
Proof.
  intros Hc Ho Hn Hlen. unfold DockerLogs.readAvailable, ensureOpen. rewrite Hc. cbn [fst snd].
  set (sc0 := mk_scanner [] _ None). set (r0 := set_scanner _ _).
  cbn iota. change (scanner r0) with (Some sc0). cbn iota.
  assert (unread c sc0 = drop (Z.to_nat (offset r)) c) as Hu.
  { unfold unread. cbn. f_equal. case_match; lia. }
  destruct (Scan_long c sc0) as (sc & E & He); [by split|by rewrite Hu|rewrite Hu, length_drop; lia|].
  unfold line_fuel. cbn [DockerLogs.scan_lines]. rewrite E, He, bool_decide_eq_true_2 by done.
  f_equal. unfold r0, closeFile, set_scanner, set_inode. cbn. by rewrite Hc.
Qed.

(** ** The limit of the rate *)

Lemma scan_bounded fuel content s :
  Z.of_nat (length (buffered s)) <= maxLineLen ->
  let '(token, s') := scan fuel content s in
  Z.of_nat (length (buffered s')) <= maxLineLen /\
  forall l, token = Some l -> Z.of_nat (length l) <= maxLineLen.
Proof.
  revert s. induction fuel as [|fuel IH]; intros s Hb; cbn [scan]; [done|].
  destruct (ScanLines (buffered s) _) as [[l rest]|] eqn:El.
  - cbn. unfold ScanLines in El. destruct (cut_line (buffered s)) as [[a b]|] eqn:Ec.
    + apply cut_line_some in Ec as [E _]. rewrite E, length_app in Hb. cbn in Hb. injection El as <- <-.
      split; [lia|]. intros l [= <-]. pose proof (dropCR_length a). lia.
    + destruct (buffered s) as [|c k]; [done|]. case_bool_decide; [|done]. injection El as El <-.
      split; [done|]. intros l' [= <-]. rewrite <- El.
      exact (Z.le_trans _ _ _ (inj_le _ _ (dropCR_length (c :: k))) Hb).
  - case_bool_decide; [done|]. destruct (maxLineLen <=? _); [done|].
    destruct (take _ _) as [|c k] eqn:Et;
      [by apply IH|apply IH; cbn [buffered]].
    pose proof (f_equal length Et) as E. rewrite length_take in E. rewrite length_app. lia.
Qed.

Definition limit_of r : Z := rateLimitBytesPerSec r.

Definition window_of r : RateWindow.window := (windowStart r, bytesThisWindow r).
Definition window_ok (tau : Z) r : Prop := RateWindow.sound (limit_of r) tau (window_of r).
Definition allowance (T tau : Z) r : Z := RateWindow.allowance second (limit_of r) T tau (window_of r).

(** The bytes of the lines that passed the check in the second from [T]. *)
Definition admitted (T : Z) (o : scanned) : Z :=
  match sc_outcome o with
  | OverRate => 0
  | _ => if RateWindow.within second T (sc_time o) then line_len (sc_line o) else 0
  end.

(** The check of the rate is the shared window. *)
Lemma admit_rate_window t len tau r :
  0 < limit_of r <= 2 ^ 62 -> 0 < len <= maxLineLen + 1 -> window_ok tau r -> tau <= t ->
  let '(ok, r') := admit_rate t len r in
  limit_of r' = limit_of r /\ RateWindow.spend second (limit_of r) t len (window_of r) = (ok, window_of r').
Proof.
  intros Hl Hlen [Hw Hb] Ht. unfold admit_rate, limit_of, maxLineLen, RateWindow.spend, window_of in *.
  cbn [fst snd] in *. replace (0 <? rateLimitBytesPerSec r) with true by lia.
  pose proof (time_sub_lt t (windowStart r) second ltac:(done) ltac:(done)) as Hsub.
  replace (second <=? time_sub t (windowStart r)) with (second <=? t - windowStart r) by lia.
  destruct (second <=? t - windowStart r); cbn [set_window bytesThisWindow rateLimitBytesPerSec windowStart fst snd];
    (rewrite i64_small by (unfold in_i64; lia)); by destruct (_ <? _).
Qed.

Lemma admit_rate_budget t len tau T r :
  0 < limit_of r <= 2 ^ 62 -> 0 < len <= maxLineLen + 1 -> window_ok tau r -> tau <= t ->
  let '(ok, r') := admit_rate t len r in
  limit_of r' = limit_of r /\ window_ok t r' /\
  (if ok && RateWindow.within second T t then len else 0) + allowance T t r' <= allowance T tau r.
Proof.
  intros Hl Hlen Hw Ht. pose proof (admit_rate_window t len tau r Hl Hlen Hw Ht) as H.
  pose proof (RateWindow.admit_budget second (limit_of r) ltac:(done) t len tau T _ ltac:(lia) Hw Ht) as Hb.
  destruct (admit_rate t len r) as [ok r']. destruct H as [E Ea]. rewrite Ea in Hb.
  unfold window_ok, allowance. by rewrite E.
Qed.

(** The time of the last line looked at. *)
Definition last_time (tau : Z) (os : list scanned) : Z := foldl (fun _ o => sc_time o) tau os.

(** Times that do not go back, from [tau] on. *)
Fixpoint forward (tau : Z) (os : list scanned) : Prop :=
  match os with [] => True | o :: os => tau <= sc_time o /\ forward (sc_time o) os end.

Lemma forward_app tau os os' : forward tau (os ++ os') <-> forward tau os /\ forward (last_time tau os) os'.
Proof.
  revert tau. induction os as [|o os IH]; intros tau; cbn; [tauto|]. rewrite IH. unfold last_time. cbn. tauto.
Qed.

Lemma last_time_app tau os os' : last_time tau (os ++ os') = last_time (last_time tau os) os'.
Proof. unfold last_time. apply foldl_app. Qed.

(** The lines from [r] to [r'] keep the budget of every second. *)
Definition budgeted (os : list scanned) r r' : Prop :=
  limit_of r' = limit_of r /\
  forall tau, window_ok tau r -> forward tau os ->
    window_ok (last_time tau os) r' /\
    forall T, sumZ (admitted T) os + allowance T (last_time tau os) r' <= allowance T tau r.

Lemma budgeted_refl r r' :
  limit_of r' = limit_of r -> windowStart r' = windowStart r -> bytesThisWindow r' = bytesThisWindow r ->
  budgeted [] r r'.
Proof.
  intros E1 E2 E3. split; [done|]. intros tau Hw _. unfold window_ok, allowance, window_of in *. rewrite E1, E2, E3.
  split; [exact Hw|]. intros T. cbn [sumZ foldr last_time foldl]. lia.
Qed.

Lemma budgeted_app os os' r r' r'' : budgeted os r r' -> budgeted os' r' r'' -> budgeted (os ++ os') r r''.
Proof.
  intros [E H] [E' H']. split; [congruence|]. intros tau Hw Hf%forward_app.
  destruct (H tau Hw) as [Hw1 Hb1]; [tauto|]. destruct (H' _ Hw1) as [Hw2 Hb2]; [tauto|].
  rewrite last_time_app. split; [done|]. intros T. specialize (Hb1 T). specialize (Hb2 T). rewrite sumZ_app. lia.
Qed.

Lemma handle_line_budgeted now stamp room i l r :
  0 < limit_of r <= 2 ^ 62 -> Z.of_nat (length l) <= maxLineLen ->
  let '(o, r') := handle_line now stamp room i l r in budgeted [o] r r'.
Proof.
  intros Hl Hlen. pose proof (fun tau T => admit_rate_budget (now i) (Z.of_nat (length l) + 1) tau T r Hl ltac:(lia)) as H.
  unfold DockerLogs.handle_line. destruct (admit_rate _ _ r) as [ok r1] eqn:Er.
  assert (limit_of r1 = limit_of r) as E1.
  { pose proof (admit_rate_same (now i) (Z.of_nat (length l) + 1) r) as [(_ & E & _) _]. by rewrite Er in E. }
  assert (forall o r', windowStart r' = windowStart r1 -> bytesThisWindow r' = bytesThisWindow r1 -> limit_of r' = limit_of r1 ->
    sc_time o = now i -> (forall T, admitted T o <= if ok && RateWindow.within second T (now i) then line_len l else 0) ->
    budgeted [o] r r') as Hgo.
  { intros o r' E2 E3 E4 Et Ha. split; [congruence|]. intros tau Hw [Ht _]. rewrite Et in Ht.
    unfold last_time. cbn [foldl]. rewrite Et. split.
    - destruct (H tau 0 Hw Ht) as (_ & Hw1 & _). unfold window_ok, window_of in *. by rewrite E2, E3, E4.
    - intros T. destruct (H tau T Hw Ht) as (_ & _ & Hb). specialize (Ha T).
      unfold line_len, allowance, window_of in *. rewrite E2, E3, E4. cbn [sumZ foldr]. lia. }
  assert (forall T o, sc_time o = now i -> sc_line o = l -> ok = true ->
    admitted T o <= if ok && RateWindow.within second T (now i) then line_len l else 0) as Hadm.
  { intros T o Et El ->. unfold admitted. rewrite Et, El. cbn [andb]. unfold line_len.
    destruct (sc_outcome o), (RateWindow.within second T (now i)); lia. }
  destruct ok; cbn [negb].
  - destruct (parseLine _ _ _ _ _); [destruct (room i)|]; apply Hgo; try done; intros; by apply Hadm.
  - by apply Hgo.
Qed.
Lemma scan_lines_budgeted now stamp room content : forall fuel i sc r,
  0 < limit_of r <= 2 ^ 62 -> Z.of_nat (length (buffered sc)) <= maxLineLen ->
  let '(os, sc', r') := scan_lines now stamp room fuel i content sc r in
  budgeted os r r' /\ Z.of_nat (length (buffered sc')) <= maxLineLen.
Proof.
  induction fuel as [|fuel IH]; intros i sc r Hl Hb; cbn [DockerLogs.scan_lines]; [by split; [apply budgeted_refl|]|].
  pose proof (scan_bounded 4 content sc Hb) as Hs. unfold Scan.
  destruct (scan 4 content sc) as [[l|] sc1]; destruct Hs as [Hb1 Hlen]; [|by split; [apply budgeted_refl|]].
  pose proof (handle_line_budgeted now stamp room i l r Hl (Hlen l eq_refl)) as H.
  destruct (handle_line _ _ _ _ _ _) as [o r1]. assert (limit_of r1 = limit_of r) as E1 by apply H.
  specialize (IH (S i) sc1 r1 ltac:(by rewrite E1) Hb1).
  destruct (scan_lines now stamp room fuel (S i) content sc1 r1) as [[os sc'] r']. destruct IH as [H' Hb'].
  split; [|done]. by apply (budgeted_app [o] os r r1 r').
Qed.

(** The scanner's buffer is within its size. *)
Definition buffer_ok r : Prop :=
  match scanner r with Some sc => Z.of_nat (length (buffered sc)) <= maxLineLen | None => True end.

Lemma ensureOpen_keeps path opens r :
  let r' := (ensureOpen path opens r).2 in
  limit_of r' = limit_of r /\ windowStart r' = windowStart r /\ bytesThisWindow r' = bytesThisWindow r /\
  (buffer_ok r -> buffer_ok r').
Proof.
  unfold ensureOpen. destruct path as [f|]; [|done].
  destruct (scanner r) as [sc|] eqn:Es; [destruct (negb _); [|destruct (size f <? offset r)]|]; try (by rewrite Es);
    by destruct opens.
Qed.

Lemma readAvailable_budgeted now stamp room path opens r :
  0 < limit_of r <= 2 ^ 62 -> buffer_ok r ->
  let '(os, r') := readAvailable now stamp room path opens r in budgeted os r r' /\ buffer_ok r'.
Proof.
  intros Hl Hb. unfold DockerLogs.readAvailable.
  pose proof (ensureOpen_keeps path opens r) as (E1 & E2 & E3 & Hb1).
  destruct (ensureOpen path opens r) as [ok r1]. cbn [snd] in *. specialize (Hb1 Hb).
  assert (budgeted [] r r1) as H1 by by apply budgeted_refl.
  destruct ok; [|done]. destruct path as [f|]; [|done]. unfold buffer_ok in Hb1.
  destruct (scanner r1) as [sc|] eqn:Es; [|by split; [|unfold buffer_ok; rewrite Es]].
  pose proof (scan_lines_budgeted now stamp room f.2 (line_fuel f.2 sc) 0 sc r1 ltac:(by rewrite E1) Hb1) as H.
  destruct (scan_lines _ _ _ _ _ _ _ _) as [[os sc'] r']. destruct H as [H2 Hb2].
  assert (budgeted os r r') as H3 by by apply (budgeted_app [] os r r1 r').
  case_bool_decide; (split; [|done]); rewrite <- (app_nil_r os);
    (eapply budgeted_app; [exact H3|by apply budgeted_refl]).
Qed.

(** What one poll finds. *)
Record poll := mk_poll {
  p_now : nat -> Z;
  p_stamp : nat -> Z;
  p_room : nat -> bool;
  p_path : option file;
  p_opens : bool;
}.

Fixpoint run_polls (ps : list poll) (r : JSONFileReader) : list scanned * JSONFileReader :=
  match ps with
  | [] => ([], r)
  | p :: ps =>
      let '(os, r) := readAvailable (p_now p) (p_stamp p) (p_room p) (p_path p) (p_opens p) r in
      let '(os', r) := run_polls ps r in
      (os ++ os', r)
  end.

Lemma run_polls_budgeted ps : forall r, 0 < limit_of r <= 2 ^ 62 -> buffer_ok r ->
  let '(os, r') := run_polls ps r in budgeted os r r'.
Proof.
  induction ps as [|p ps IH]; intros r Hl Hb; cbn [run_polls]; [by apply budgeted_refl|].
  pose proof (readAvailable_budgeted (p_now p) (p_stamp p) (p_room p) (p_path p) (p_opens p) r Hl Hb) as H.
  destruct (readAvailable _ _ _ _ _ _) as [os r1]. destruct H as [H1 Hb1]. pose proof H1 as [E _].
  specialize (IH r1 ltac:(by rewrite E) Hb1). destruct (run_polls ps r1) as [os' r2].
  by apply (budgeted_app os os' r r1 r2).
Qed.

(** The limit of the rate.  Over any polls of a new reader, whatever the file does
    (grows, is truncated or replaced), the lines that pass the check within any one
    second, with their newlines, have at most twice the configured bytes: a second meets
    at most two windows. *)
Theorem rate_limited m cs limit t stat (ps : list poll) (T : Z) :
  0 < limit <= 2 ^ 62 ->
  let os := (run_polls ps (NewJSONFileReader m cs limit t stat)).1 in
  forward t os -> sumZ (admitted T) os <= 2 * limit.
Proof.
  intros Hl. cbn zeta. set (r := NewJSONFileReader m cs limit t stat).
  assert (limit_of r = limit /\ windowStart r = t /\ bytesThisWindow r = 0 /\ scanner r = None) as (E1 & E2 & E3 & E4)
    by (unfold r, NewJSONFileReader; by destruct (CriTailer.cursor_get _ _), stat).
  pose proof (run_polls_budgeted ps r ltac:(by rewrite E1) ltac:(unfold buffer_ok; by rewrite E4)) as H.
  destruct (run_polls ps r) as [os r']. cbn [fst]. intros Hf. destruct H as [E H].
  assert (window_ok t r) as Hw by (unfold window_ok, RateWindow.sound, window_of; cbn; lia).
  destruct (H t Hw Hf) as [Hw' Hb]. specialize (Hb T). unfold window_ok, allowance in *. rewrite E in *.
  pose proof (RateWindow.allowance_bound second (limit_of r) T t _ ltac:(lia) Hw).
  pose proof (RateWindow.allowance_bound second (limit_of r) T _ _ ltac:(lia) Hw'). lia.
Qed.
End polls.

(** ** A concrete container *)

Definition example_parse (s : string) : option dockerLogLine := Some (mk_docker_line s "stdout" "").
Definition example_meta : ContainerMeta := mk_meta "0123456789abcdef" "web" "web" "web:1".
Definition text (s : string) : bytes := String.list_ascii_of_string s.
Definition started (offset ino : Z) : JSONFileReader := mk_reader example_meta 10 0 0 0 offset ino None.
Abbreviation example_poll t := (readAvailable example_parse (fun _ => None) (fun _ => t) (fun _ => t) (fun _ => true)).
Definition example_file : bytes := unlines [text "a"; text "bc"].

Lemma example_short l : forallb (fun c => negb (Ascii.eqb c newline)) l = true -> (length l < 100)%nat -> short l.
Proof.
  intros H Hl. split; [|unfold maxLineLen; lia]. intros Hin. rewrite forallb_forall in H.
  specialize (H newline (proj1 (list_elem_of_In _ _) Hin)). by rewrite Ascii.eqb_refl in H.
Qed.

Lemma restart_resumes_witness :
  let '(os, r1) := example_poll 5 (Some (7, example_file)) true (started 2 7) in
  let r2 := NewJSONFileReader example_meta (saveCursor r1 ∅) 10 5 None in
  sc_line <$> os = [text "bc"] /\
  sc_line <$> (example_poll 6 (Some (7, example_file ++ unlines [text "def"] ++ text "g")) true r2).1
    = [text "def"] ++ tail_line (text "g").
Proof.
  apply (restart_resumes example_parse (fun _ => None) (fun _ => 5) (fun _ => 5) (fun _ => true)
    (fun _ => 6) (fun _ => 6) (fun _ => true) (started 2 7) ∅ 10 5 None 7 example_file [text "bc"] [text "def"] (text "g")).
  - reflexivity.
  - split; vm_compute; discriminate.
  - reflexivity.
  - repeat (apply Forall_cons; split; [apply example_short; [reflexivity|cbn; lia]|]). apply Forall_nil_2.
  - repeat constructor.
  - vm_compute. reflexivity.
Defined.

Abbreviation example_polls ps := (run_polls example_parse (fun _ => None) ps).

(** A poll at time [t] that finds the file [c]. *)
Definition poll_at (t : Z) (ino : Z) (c : bytes) : poll :=
  mk_poll (fun _ => t) (fun _ => t) (fun _ => true) (Some (ino, c)) true.

Lemma rate_limited_witness :
  let os := (example_polls [poll_at 5 7 example_file; poll_at 6 8 (unlines [text "0123456789"])]
    (NewJSONFileReader example_meta ∅ 10 5 (Some (7, [])))).1 in
  sumZ (admitted 0) os = 5 /\ sumZ (admitted 0) os <= 2 * 10.
Proof.
  cbn zeta. split; [vm_compute; reflexivity|].
  apply (rate_limited example_parse (fun _ => None) example_meta ∅ 10 5 (Some (7, []))
    [poll_at 5 7 example_file; poll_at 6 8 (unlines [text "0123456789"])] 0); [lia|].
  apply (fun H : forward _ _ => H). vm_compute. repeat split; discriminate.
Defined.

(** A file that was replaced while the agent was down is read from the old offset: the
    inode of the cursor is not compared. *)
Example rotation_missed_by_restart :
  let r := NewJSONFileReader example_meta {[ "0123456789abcdef" := CriTailer.mk_cursor 2 7 ]} 100 5 None in
  sc_line <$> (example_polls [poll_at 6 8 (unlines [text "x"; text "y"])] r).1 = [text "y"].
Proof. vm_compute. reflexivity. Qed.

(** A line that has no newline yet is taken as it is; the offset is then past the end, so
    the next poll takes the file for a truncated one and reads it again from the start. *)
Example unfinished_line_rereads :
  let r := NewJSONFileReader example_meta ∅ 100 5 (Some (7, [])) in
  sc_line <$> (example_polls [poll_at 6 7 (unlines [text "x"] ++ text "par"); poll_at 7 7 (unlines [text "x"] ++ text "par")] r).1
  = [text "x"; text "par"; text "x"; text "par"].
Proof. vm_compute. reflexivity. Qed.
End DockerLogsProps.
