(* ===== verification/SqlText.v ===== *)
(** * Texts of SQL statements (internal/checks: postgres_queries.go, postgres_custom.go,
    postgres_limits.go, database_identity.go)

    What every check of a database shares: the text that is reported instead of a
    statement, the check that a statement only reads, and the limits of parameters.

    The regular expressions are given as the scanners that they are: leftmost matches,
    with the backtracking of each written out.  They and everything else here look at
    single bytes below 128, so that bytes and runes agree. *)

From S2P Require Import Prelude GoStrings Wire GoFloat.
#[local] Open Scope Z_scope.

Module SqlText.

Definition postgresQueryTextLimit : nat := 4096.

(** ** Bytes *)

Definition quote : Ascii.ascii := chr 39.
Definition dollar : Ascii.ascii := chr 36.

Definition isDollarTagStart (z : Z) : bool :=
  (z =? 95) || ((65 <=? z) && (z <=? 90)) || ((97 <=? z) && (z <=? 122)).
Definition isDollarTagPart (z : Z) : bool := isDollarTagStart z || is_digit z.

(** [\w] of the regular expressions. *)
Definition is_word (c : Ascii.ascii) : bool := isDollarTagPart (byte_of c).
Definition starts_word (s : string) : bool := match s with String c _ => is_word c | "" => false end.

(** The bytes of [s] while [f] holds, and the others. *)
Fixpoint span (f : Ascii.ascii -> bool) (s : string) : string * string :=
  match s with
  | "" => ("", "")
  | String c r => if f c then let '(a, b) := span f r in (String c a, b) else ("", s)
  end.

(** ** Dollar quotes *)

(** After a dollar: the tag up to the next dollar, and what follows that. *)
Definition dollar_tag (r : string) : option (string * string) :=
  match r with
  | "" => None
  | String c r' =>
      if Ascii.eqb c dollar then Some ("", r')
      else if negb (isDollarTagStart (byte_of c)) then None
      else
        let '(name, rest) := span (fun c => isDollarTagPart (byte_of c)) r in
        match rest with
        | String d rest => if Ascii.eqb d dollar then Some (name, rest) else None
        | "" => None
        end
  end.

Definition delimiter (tag : string) : string := String dollar (tag +:+ String dollar "").

Fixpoint mask (fuel : nat) (s : string) : string :=
  match fuel with
  | O => ""
  | S fuel =>
      match s with
      | "" => ""
      | String c r =>
          if Ascii.eqb c dollar then
            match dollar_tag r with
            | None => String c (mask fuel r)
            | Some (tag, rest) =>
                match cut_at (delimiter tag) rest with
                | None => "?"
                | Some (_, after) => "?" +:+ (mask fuel after)
                end
            end
          else String c (mask fuel r)
      end
  end.

(** One unit for each byte. *)
Definition maskDollarQuotedStrings (query : string) : string := mask (S (String.length query)) query.

(** ** The regular expressions *)

(** Replaces [/*...*/] up to the first end and [--] up to the end of the line. *)
Fixpoint replace_comments (fuel : nat) (s : string) : string :=
  match fuel with
  | O => ""
  | S fuel =>
      match s with
      | "" => ""
      | String c r =>
          if has_prefix "--" s then
            " " +:+ (replace_comments fuel (span (fun c => negb ((byte_of c =? 10) || (byte_of c =? 13))) s).2)
          else if has_prefix "/*" s then
            match cut_at "*/" (str_drop 2 s) with
            | Some (_, after) => " " +:+ (replace_comments fuel after)
            | None => String c (replace_comments fuel r)
            end
          else String c (replace_comments fuel r)
      end
  end.
Definition queryComments (s : string) : string := replace_comments (S (String.length s)) s.

(** After an opening quote: what follows the closing one.  Two quotes are content, unless
    nothing closes the literal after them. *)
Fixpoint close_quote (s : string) : option string :=
  match s with
  | "" => None
  | String c r =>
      if Ascii.eqb c quote then
        match r with
        | String d r' =>
            if Ascii.eqb d quote then
              match close_quote r' with Some after => Some after | None => Some r end
            else Some r
        | "" => Some r
        end
      else close_quote r
  end.

Fixpoint replace_strings (by_ : string) (fuel : nat) (s : string) : string :=
  match fuel with
  | O => ""
  | S fuel =>
      match s with
      | "" => ""
      | String c r =>
          if Ascii.eqb c quote then
            match close_quote r with
            | Some after => by_ +:+ replace_strings by_ fuel after
            | None => String c (replace_strings by_ fuel r)
            end
          else String c (replace_strings by_ fuel r)
      end
  end.
Definition queryStrings (by_ s : string) : string := replace_strings by_ (S (String.length s)) s.

Definition digit (c : Ascii.ascii) : bool := is_digit (byte_of c).

(** After a word boundary before a digit: what follows the number. *)
Definition number_end (s : string) : option string :=
  let '(_, r) := span digit s in
  let whole := if starts_word r then None else Some r in
  match r with
  | String c r' =>
      if (byte_of c =? 46) && (match r' with String d _ => digit d | "" => false end) then
        let '(_, r'') := span digit r' in
        if starts_word r'' then whole else Some r''
      else whole
  | "" => whole
  end.

(** [after_word]: the byte before is of a word. *)
Fixpoint replace_numbers (fuel : nat) (after_word : bool) (s : string) : string :=
  match fuel with
  | O => ""
  | S fuel =>
      match s with
      | "" => ""
      | String c r =>
          if negb after_word && digit c then
            match number_end s with
            | Some rest => "?" +:+ (replace_numbers fuel true rest)
            | None => String c (replace_numbers fuel true r)
            end
          else String c (replace_numbers fuel (is_word c) r)
      end
  end.
Definition queryNumbers (s : string) : string := replace_numbers (S (String.length s)) false s.

(** A parameter [$n] that no word goes on. *)
Fixpoint queryParameters (s : string) : bool :=
  match s with
  | "" => false
  | String c r =>
      (Ascii.eqb c dollar &&
       match r with
       | String d r' => digit d && negb (byte_of d =? 48) && negb (starts_word (span digit r').2)
       | "" => false
       end) || queryParameters r
  end.

Definition regex_space (c : Ascii.ascii) : bool :=
  existsb (Z.eqb (byte_of c)) [9; 10; 12; 13; 32].

Fixpoint replace_spaces (in_space : bool) (s : string) : string :=
  match s with
  | "" => ""
  | String c r =>
      if regex_space c then (if in_space then replace_spaces true r else " " +:+ (replace_spaces true r))
      else String c (replace_spaces false r)
  end.
Definition querySpaces (s : string) : string := replace_spaces false s.

(** ** The text that is reported *)

Definition sanitizeQueryText (query : string) : string :=
  let query := maskDollarQuotedStrings query in
  let query := queryComments query in
  let query := queryStrings "?" query in
  let query := queryNumbers query in
  let query := querySpaces (trim_space query) in
  if (postgresQueryTextLimit <? String.length query)%nat then str_take postgresQueryTextLimit query else query.

Definition hasQueryParameters (query : string) : bool :=
  let query := maskDollarQuotedStrings query in
  let query := queryComments query in
  let query := queryStrings " " query in
  queryParameters query.

Definition limitText (value : string) (limit : nat) : string :=
  let value := trim_space value in
  if (limit <? String.length value)%nat then str_take limit value else value.

(** ** Statements that only read *)

(** [isSQLWordChar] *)
Definition isSQLWordChar (c : Ascii.ascii) : bool := isDollarTagPart (byte_of c).

(** [before]: the byte before is of a word. *)
Fixpoint sql_word (fuel : nat) (word : string) (before : bool) (query : string) : bool :=
  match fuel with
  | O => false
  | S fuel =>
      match cut_at word query with
      | None => false
      | Some (a, after) =>
          let before := match String.get (pred (String.length a)) a with
                        | Some c => isSQLWordChar c
                        | None => before
                        end in
          if negb before && negb (starts_word after) then true
          else match after with
               | "" => false
               | _ => sql_word fuel word
                        (match String.get (pred (String.length word)) word with
                         | Some c => isSQLWordChar c | None => before end) after
               end
      end
  end.
Definition containsSQLWord (query word : string) : bool := sql_word (S (String.length query)) word false query.

Definition forbidden_fragments : list string :=
  ["select into"; "set_config"; "dblink_exec"; "dblink_connect"; "lo_import"; "lo_export"; "pg_read_file";
   "pg_read_binary_file"; "pg_ls_dir"; "pg_sleep"; "pg_advisory_lock"; "pg_try_advisory_lock";
   "pg_advisory_unlock"; "nextval("; "setval("; "load_file("; "sleep("; "benchmark("].
Definition forbidden_words : list string :=
  ["insert"; "update"; "delete"; "drop"; "alter"; "create"; "truncate"; "grant"; "revoke"; "copy"; "call"; "do";
   "execute"; "vacuum"; "refresh"; "set"; "begin"; "commit"; "rollback"; "into"].

Definition validateReadOnlyQuery (ToLower : string -> string) (query : string) : res unit :=
  if String.eqb query "" then Err "param 'query' required"
  else
    let lower := ToLower query in
    let normalized := join " " (fields lower) in
    if negb (has_prefix "select " normalized || has_prefix "with " normalized)
    then Err "only SELECT or WITH"
    else if contains ";" query || contains "--" lower || contains "/*" lower then Err "a single read"
    else if existsb (fun fragment => contains fragment normalized) forbidden_fragments then Err "operation not allowed"
    else if existsb (containsSQLWord lower) forbidden_words then Err "word not allowed"
    else Ok tt.

(** ** Limits of parameters *)

Definition boundedInt (value minimum maximum fallback : Z) : Z :=
  if (value <? minimum) || (maximum <? value) then fallback else value.

Definition boundedParam (params : tagmap) (key : string) (minimum maximum fallback : Z) : Z :=
  match atoi (trim_space (tag key params)) with
  | None => fallback
  | Some value => boundedInt value minimum maximum fallback
  end.

(** [strconv.ParseBool]. *)
Definition parse_bool (s : string) : option bool :=
  if existsb (String.eqb s) ["1"; "t"; "T"; "TRUE"; "true"; "True"] then Some true
  else if existsb (String.eqb s) ["0"; "f"; "F"; "FALSE"; "false"; "False"] then Some false
  else None.

Definition boolParam (params : tagmap) (key : string) (fallback : bool) : bool :=
  let raw := trim_space (tag key params) in
  if String.eqb raw "" then fallback else default fallback (parse_bool raw).

Definition floatParam (ParseFloat : string -> option f64) (params : tagmap) (key : string)
    (minimum maximum fallback : f64) : f64 :=
  match ParseFloat (trim_space (tag key params)) with
  | None => fallback
  | Some value => if flt value minimum || flt maximum value then fallback else value
  end.

(** ** The identity of a database *)

Fixpoint firstDatabaseIdentity (values : tagmap) (keys : list string) : string :=
  match keys with
  | [] => ""
  | key :: keys =>
      let value := trim_space (tag key values) in
      if String.eqb value "" then firstDatabaseIdentity values keys else value
  end.

Definition or_else (a b : string) : string := if String.eqb a "" then b else a.

Definition databaseIdentity (params tags : tagmap) : string * string :=
  (or_else (firstDatabaseIdentity tags ["installation_id"]) (firstDatabaseIdentity params ["installation_id"]),
   or_else (firstDatabaseIdentity tags ["database_id"; "db_monitor_id"])
           (firstDatabaseIdentity params ["database_id"; "db_monitor_id"])).

Definition normalizeDatabaseMetricTags (params tags : tagmap) : tagmap :=
  let '(installation, database) := databaseIdentity params tags in
  let tags := if String.eqb installation "" then tags else <["installation_id" := installation]> tags in
  if String.eqb database "" then tags else <["database_id" := database]> tags.
End SqlText.

(** * What the reported text of a statement hides, and what is accepted as a read

    The text reported for a statement that is made of code, numbers, literals and comments
    apart from each other does not depend on the numbers, literals and comments; an accepted
    statement contains none of the forbidden words. *)

Module SqlTextProps.
Import SqlText.

(** ** Strings of bytes *)

(** No byte of [s] is [c]. *)
Fixpoint lacks (c : Ascii.ascii) (s : string) : bool :=
  match s with "" => true | String d r => negb (Ascii.eqb d c) && lacks c r end.

Lemma contains_cons sub c s :
  contains sub (String c s) = String.prefix sub (String c s) || contains sub s.
Proof.
  unfold contains. cbn [cut_at]. destruct (String.prefix sub (String c s)); [done|].
  by destruct (cut_at sub s) as [[? ?]|].
Qed.

Lemma cut_at_prefix sep s : String.prefix sep s = true -> cut_at sep s = Some ("", str_drop (String.length sep) s).
Proof. intros H. destruct s; cbn [cut_at]; by rewrite H. Qed.

Lemma str_take_left n a b : (n <= String.length a)%nat -> str_take n (a +:+ b) = str_take n a.
Proof.
  revert n. induction a as [|c a IH]; intros [|n] Hn; cbn in Hn; [by destruct b|lia|done|].
  rewrite str_app_cons. cbn [str_take]. f_equal. apply IH. lia.
Qed.

(** A first occurrence that ends with its separator is the first one of any extension. *)
Lemma cut_at_extend sep a b :
  cut_at sep (a +:+ sep) = Some (a, "") -> cut_at sep (a +:+ sep +:+ b) = Some (a, b).
Proof.
  induction a as [|c a IH]; intros H.
  - rewrite str_app_nil_l, cut_at_prefix by apply prefix_app. by rewrite str_drop_app.
  - rewrite !str_app_cons in *. cbn [cut_at] in *.
    destruct (String.prefix sep (String c (a +:+ sep))) eqn:Ep; [by injection H|].
    destruct (cut_at sep (a +:+ sep)) as [[a' b']|] eqn:Ec; [|done]. injection H as -> ->.
    destruct (String.prefix sep (String c (a +:+ sep +:+ b))) eqn:Ep'; [|by rewrite IH].
    exfalso. apply prefix_spec in Ep' as [t Et].
    assert (str_take (String.length sep) (String c (a +:+ sep)) = sep) as E.
    { rewrite <- (str_take_app sep t) at 3. rewrite <- Et, <- str_app_assoc.
      change (String c ((a +:+ sep) +:+ b)) with (String c (a +:+ sep) +:+ b).
      rewrite str_take_left; [done|]. cbn. rewrite str_length_app. lia. }
    assert (String.prefix sep (String c (a +:+ sep)) = true) as E'; [|congruence].
    pose proof (str_take_drop (String.length sep) (String c (a +:+ sep))) as Ed. rewrite E in Ed.
    apply prefix_spec. eexists. symmetry. exact Ed.
Qed.

(** ** The fuel of the scanners *)

Lemma span_length f s : (String.length (span f s).2 <= String.length s)%nat.
Proof.
  induction s as [|c s IH]; cbn; [done|]. destruct (f c); [|done]. destruct (span f s). cbn in *. lia.
Qed.

Lemma dollar_tag_length r tag rest :
  dollar_tag r = Some (tag, rest) -> (String.length rest < String.length r)%nat.
Proof.
  unfold dollar_tag. destruct r as [|c r]; [done|].
  destruct (Ascii.eqb c dollar); [intros [= <- <-]; cbn; lia|]. destruct (negb _); [done|].
  pose proof (span_length (fun c => isDollarTagPart (byte_of c)) (String c r)) as H.
  destruct (span _ _) as [name rest0]. destruct rest0 as [|d rest0]; [done|].
  destruct (Ascii.eqb d dollar); [|done]. intros [= <- <-]. cbn in *. lia.
Qed.

Lemma mask_fuel n m s : (String.length s < n)%nat -> (String.length s < m)%nat -> mask n s = mask m s.
Proof.
  revert m s. induction n as [|n IH]; intros m s Hn Hm; [lia|]. destruct m as [|m]; [lia|].
  cbn [mask]. destruct s as [|c r]; [done|]. cbn in Hn, Hm.
  destruct (Ascii.eqb c dollar); [|f_equal; apply IH; lia].
  destruct (dollar_tag r) as [[tag rest]|] eqn:Et; [|f_equal; apply IH; lia].
  apply dollar_tag_length in Et.
  destruct (cut_at _ rest) as [[b after]|] eqn:Ec; [|done]. apply cut_at_length in Ec.
  f_equal. apply IH; lia.
Qed.

Lemma close_quote_length s after : close_quote s = Some after -> (String.length after < String.length s)%nat.
Proof.
  enough (forall n s after, (String.length s < n)%nat -> close_quote s = Some after ->
    (String.length after < String.length s)%nat) as H by (apply (H (S (String.length s))); lia).
  clear s after. induction n as [|n IH]; intros s after Hn E; [lia|].
  destruct s as [|c r]; [done|]. cbn [close_quote] in E. cbn in Hn.
  destruct (Ascii.eqb c quote); [|apply IH in E; cbn; lia].
  destruct r as [|d r']; [injection E as <-; cbn; lia|].
  destruct (Ascii.eqb d quote); [|injection E as <-; cbn; lia].
  destruct (close_quote r') as [x|] eqn:Ex; injection E as <-; [|cbn; lia].
  apply IH in Ex; cbn in *; lia.
Qed.

Lemma replace_strings_fuel by_ n m s :
  (String.length s < n)%nat -> (String.length s < m)%nat -> replace_strings by_ n s = replace_strings by_ m s.
Proof.
  revert m s. induction n as [|n IH]; intros m s Hn Hm; [lia|]. destruct m as [|m]; [lia|].
  cbn [replace_strings]. destruct s as [|c r]; [done|]. cbn in Hn, Hm.
  destruct (Ascii.eqb c quote); [|f_equal; apply IH; lia].
  destruct (close_quote r) as [after|] eqn:Ec; [|f_equal; apply IH; lia].
  apply close_quote_length in Ec. f_equal. apply IH; lia.
Qed.

(** A text with no mark of a comment is left as it is. *)
Lemma no_comments n s :
  contains "--" s = false -> contains "/*" s = false -> (String.length s < n)%nat -> replace_comments n s = s.
Proof.
  revert s. induction n as [|n IH]; intros s H1 H2 Hn; [lia|]. cbn [replace_comments].
  destruct s as [|c r]; [done|]. rewrite contains_cons in H1, H2. apply orb_false_elim in H1 as [P1 H1].
  apply orb_false_elim in H2 as [P2 H2]. unfold has_prefix. rewrite P1, P2. f_equal. apply IH; [done|done|].
  cbn in Hn. lia.
Qed.

Definition no_line_end (c : Ascii.ascii) : bool := negb ((byte_of c =? 10) || (byte_of c =? 13)).
Lemma replace_comments_fuel n m s :
  (String.length s < n)%nat -> (String.length s < m)%nat -> replace_comments n s = replace_comments m s.
Proof.
  revert m s. induction n as [|n IH]; intros m s Hn Hm; [lia|]. destruct m as [|m]; [lia|].
  cbn [replace_comments]. destruct s as [|c r]; [done|]. cbn in Hn, Hm.
  change (fun c => negb ((byte_of c =? 10) || (byte_of c =? 13))) with no_line_end.
  destruct (has_prefix "--" (String c r)) eqn:E.
  - assert (String.length (span no_line_end (String c r)).2 <= String.length r)%nat as H.
    { apply prefix_spec in E as [t [= -> _]]. cbn [span]. change (no_line_end (chr 45)) with true. cbv iota.
      pose proof (span_length no_line_end r) as H. by destruct (span no_line_end r). }
    f_equal. apply IH; lia.
  - destruct (has_prefix "/*" (String c r)); [|f_equal; apply IH; lia].
    destruct (cut_at "*/" _) as [[b after]|] eqn:Ec; [|f_equal; apply IH; lia]. apply cut_at_length in Ec.
    assert (String.length (str_drop 2 (String c r)) <= String.length r)%nat by (rewrite str_length_drop; cbn; lia).
    f_equal. apply IH; lia.
Qed.

(** ** Statements as pieces *)

(** Text outside literals, a number, a quoted literal, a dollar-quoted one, comments of both kinds. *)
Inductive piece :=
  | Code (s : string) | Number (whole fraction : string) | Quoted (content : string) | Dollar (tag content : string)
  | Block (content : string) | Line (content : string).

Definition quoted (content : string) : string := String quote (content +:+ String quote "").

Definition render_piece (p : piece) : string :=
  match p with
  | Code s => s
  | Number w f => w +:+ (match f with "" => "" | _ => "." +:+ f end)
  | Quoted c => quoted c
  | Dollar t c => delimiter t +:+ c +:+ delimiter t
  | Block c => "/*" +:+ c +:+ "*/"
  | Line c => "--" +:+ c
  end.
Fixpoint render (ps : list piece) : string :=
  match ps with [] => "" | p :: ps => render_piece p +:+ render ps end.

Definition valid_tag (t : string) : bool :=
  match t with
  | "" => true
  | String c _ => isDollarTagStart (byte_of c) && String.eqb (span (fun c => isDollarTagPart (byte_of c)) t).1 t
  end.

Definition wf_piece (p : piece) : Prop :=
  match p with
  | Code s => s <> "" /\ lacks quote s = true /\ lacks dollar s = true
  | Number w f => w <> "" /\ (span digit w).1 = w /\ (span digit f).1 = f
  | Quoted c => lacks quote c = true /\ lacks dollar c = true
  | Dollar t c => valid_tag t = true /\ cut_at (delimiter t) (c +:+ delimiter t) = Some (c, "")
  | Block c => lacks dollar c = true /\ cut_at "*/" (c +:+ "*/") = Some (c, "")
  | Line c => lacks dollar c = true /\ (span no_line_end c).1 = c
  end.

(** The statement when its dollar quotes are masked. *)
Definition plain_piece (p : piece) : string := match p with Dollar _ _ => "?" | p => render_piece p end.
Fixpoint plain (ps : list piece) : string :=
  match ps with [] => "" | p :: ps => plain_piece p +:+ plain ps end.

(** What stands for comments, and for numbers, when they are gone. *)
Definition uncommented (p : piece) : piece := match p with Block _ | Line _ => Code " " | p => p end.
Definition unnumbered (p : piece) : piece := match p with Number _ _ => Code "?" | p => p end.

(** Marks of comments are at comments only: neither code nor a quoted literal brings one in, none
    comes about where a comment begins, and a comment of a line ends with it. [code]: the text
    since the last comment. *)
Definition no_marks (code : string) : bool := negb (contains "--" code) && negb (contains "/*" code).
Fixpoint ends_clear (code : string) : bool :=
  match code with
  | "" => true
  | String c "" => negb (Ascii.eqb c (chr 45)) && negb (Ascii.eqb c (chr 47))
  | String _ r => ends_clear r
  end.
Definition line_ends (s : string) : bool := match s with "" => true | String c _ => negb (no_line_end c) end.
Fixpoint quiet_from (code : string) (ps : list piece) : bool :=
  match ps with
  | [] => no_marks code
  | Block _ :: ps => no_marks code && ends_clear code && quiet_from "" ps
  | Line _ :: ps => no_marks code && ends_clear code && line_ends (plain ps) && quiet_from "" ps
  | p :: ps => quiet_from (code +:+ plain_piece p) ps
  end.
Definition quiet (ps : list piece) : Prop := quiet_from "" ps = true.

(** Pieces of one shape: the same code with any literals. *)
Definition alike (p q : piece) : Prop :=
  match p, q with
  | Code s, Code t => s = t
  | Number _ _, Number _ _ | Quoted _, Quoted _ | Dollar _ _, Dollar _ _ => True
  | (Block _ | Line _), (Block _ | Line _) => True
  | _, _ => False
  end.

(** Quoted literals side by side are one literal to a scanner. *)
Fixpoint skip_quoted (ps : list piece) : list piece :=
  match ps with Quoted _ :: ps => skip_quoted ps | _ => ps end.

(** What is left when the literals are gone. *)
Fixpoint erased (after_quoted : bool) (ps : list piece) : string :=
  match ps with
  | [] => ""
  | Quoted _ :: ps => (if after_quoted then "" else "?") +:+ erased true ps
  | p :: ps => plain_piece p +:+ erased false ps
  end.

(** Numbers stand apart: the byte before one is of no word and no dot, and the text after it does
    not go on with it. [a]: the text before. *)
Fixpoint ends_apart (before : bool) (a : string) : bool :=
  match a with "" => before | String c r => ends_apart (negb (is_word c) && negb (byte_of c =? 46)) r end.
Definition starts_apart (s : string) : bool :=
  match s with
  | "" => true
  | String c r => negb (is_word c) && negb ((byte_of c =? 46) && match r with String d _ => digit d | "" => false end)
  end.
Fixpoint apart_from (a : string) (after_quoted : bool) (ps : list piece) : bool :=
  match ps with
  | [] => true
  | Number _ _ :: ps => ends_apart true a && starts_apart (erased false ps) && apart_from (a +:+ "?") false ps
  | Quoted _ :: ps => apart_from (a +:+ (if after_quoted then "" else "?")) true ps
  | p :: ps => apart_from (a +:+ plain_piece p) false ps
  end.
Definition apart (ps : list piece) : Prop := apart_from "" false (uncommented <$> ps) = true.

(** A statement whose parts can be told. *)
Definition well_formed (ps : list piece) : Prop := Forall wf_piece ps /\ quiet ps /\ apart ps.

Lemma erased_alike b ps qs : Forall2 alike ps qs ->
  erased b (unnumbered <$> (uncommented <$> ps)) = erased b (unnumbered <$> (uncommented <$> qs)).
Proof.
  intros H. revert b. induction H as [|p q ps qs Hp _ IH]; intros b; [done|].
  destruct p, q; cbn in *; try done; by rewrite ?Hp, IH.
Qed.

Lemma erased_skip ps : erased true ps = erased false (skip_quoted ps).
Proof. by induction ps as [|[] ps IH]. Qed.

Lemma lacks_app c a b : lacks c (a +:+ b) = lacks c a && lacks c b.
Proof. induction a as [|d a IH]; [done|]. rewrite str_app_cons. cbn [lacks]. by rewrite IH, andb_assoc. Qed.

(** *** Masking *)

Lemma mask_code n c r :
  c <> dollar -> (String.length r < n)%nat ->
  mask (S n) (String c r) = String c (maskDollarQuotedStrings r).
Proof.
  intros Hc Hn. cbn [mask]. destruct (Ascii.eqb_spec c dollar); [done|]. f_equal. apply mask_fuel; cbn; lia.
Qed.

Lemma mask_lacks s r :
  lacks dollar s = true -> maskDollarQuotedStrings (s +:+ r) = s +:+ maskDollarQuotedStrings r.
Proof.
  induction s as [|c s IH]; intros H; [done|]. cbn in H. apply andb_prop in H as [Hc H].
  rewrite !str_app_cons. unfold maskDollarQuotedStrings at 1. rewrite mask_code; [|intros ->; done|cbn; lia].
  f_equal. by apply IH.
Qed.

Lemma span_app f a b :
  (span f a).1 = a -> match b with String c _ => f c = false | "" => True end -> span f (a +:+ b) = (a, b).
Proof.
  induction a as [|c a IH]; cbn [span].
  - intros _ Hb. rewrite str_app_nil_l. destruct b as [|d b]; [done|]. cbn [span]. by rewrite Hb.
  - intros Ha Hb. rewrite str_app_cons. cbn [span]. destruct (f c); [|done].
    destruct (span f a) as [x y] eqn:Es. cbn in Ha. injection Ha as ->. cbn in IH. by rewrite IH.
Qed.

Lemma dollar_tag_valid t r : valid_tag t = true -> dollar_tag (t +:+ String dollar r) = Some (t, r).
Proof.
  destruct t as [|c t]; intros H; [done|]. cbn in H. apply andb_prop in H as [Hs H%String.eqb_eq].
  rewrite str_app_cons. unfold dollar_tag. destruct (Ascii.eqb_spec c dollar) as [->|]; [done|].
  rewrite Hs. cbn [negb]. rewrite <- str_app_cons.
  by rewrite (span_app _ (String c t) (String dollar r) H).
Qed.

Lemma delimiter_app t x : delimiter t +:+ x = String dollar (t +:+ String dollar x).
Proof. unfold delimiter. by rewrite str_app_cons, str_app_assoc. Qed.

Lemma mask_dollar t c r :
  valid_tag t = true -> cut_at (delimiter t) (c +:+ delimiter t) = Some (c, "") ->
  maskDollarQuotedStrings (delimiter t +:+ c +:+ delimiter t +:+ r) = "?" +:+ maskDollarQuotedStrings r.
Proof.
  intros Ht Hc. rewrite (delimiter_app t (c +:+ _)). unfold maskDollarQuotedStrings at 1. cbn [mask].
  rewrite Ascii.eqb_refl, dollar_tag_valid, (cut_at_extend _ _ _ Hc) by done. f_equal. apply mask_fuel; [|lia].
  cbn. rewrite !str_length_app. cbn. rewrite !str_length_app. lia.
Qed.

Lemma digits_lack s : (span digit s).1 = s -> lacks dollar s = true /\ lacks quote s = true.
Proof.
  induction s as [|c s IH]; [done|]. cbn. destruct (digit c) eqn:Hc; [|done]. destruct (span digit s) as [a b]. cbn in *.
  intros [= E]. destruct (IH E) as [-> ->]. rewrite !andb_true_r. split; apply negb_true_iff, Ascii.eqb_neq; by intros ->.
Qed.

Lemma mask_render ps : Forall wf_piece ps -> maskDollarQuotedStrings (render ps) = plain ps.
Proof.
  induction 1 as [|p ps Hp _ IH]; [done|].
  assert (Hl : forall x, lacks dollar x = true -> maskDollarQuotedStrings (x +:+ render ps) = x +:+ plain ps).
  { intros x Hx. by rewrite mask_lacks, IH. }
  destruct p as [s|w f|c|t c|c|c]; cbn [render plain render_piece plain_piece] in *.
  - by apply Hl, Hp.
  - apply Hl. destruct Hp as (_ & [Hw _]%digits_lack & [Hf _]%digits_lack). rewrite lacks_app, Hw. by destruct f.
  - apply Hl. unfold quoted. cbn [lacks]. rewrite lacks_app. by destruct Hp as [_ ->].
  - destruct Hp as [Ht Hc]. rewrite !str_app_assoc, mask_dollar by done. by rewrite IH.
  - apply Hl. rewrite !lacks_app. by destruct Hp as [-> _].
  - apply Hl. rewrite !lacks_app. by destruct Hp as [-> _].
Qed.

(** *** Comments *)

Lemma skip_clear code x : no_marks code = true -> ends_clear code = true ->
  queryComments (code +:+ x) = code +:+ queryComments x.
Proof.
  induction code as [|c code IH]; intros Hm He; [done|]. unfold no_marks in Hm. rewrite !contains_cons in Hm.
  apply andb_prop in Hm as [H1%negb_true_iff H2%negb_true_iff].
  apply orb_false_elim in H1 as [P1 H1]. apply orb_false_elim in H2 as [P2 H2].
  assert (Hs : has_prefix "--" (String c (code +:+ x)) = false /\ has_prefix "/*" (String c (code +:+ x)) = false).
  { cbn [ends_clear] in He. split; apply not_true_is_false; intros [t E]%prefix_spec; injection E as E1 E2; subst c;
      (destruct code as [|d code]; [done|]); injection E2 as E3 E4; subst d; by destruct code. }
  destruct Hs as [S1 S2]. rewrite !str_app_cons. unfold queryComments at 1. cbn [replace_comments]. rewrite S1, S2. f_equal.
  apply IH; [unfold no_marks; by rewrite H1, H2|]. by destruct code.
Qed.

Lemma skip_block c x : cut_at "*/" (c +:+ "*/") = Some (c, "") ->
  queryComments (("/*" +:+ c +:+ "*/") +:+ x) = " " +:+ queryComments x.
Proof.
  intros Hc. rewrite !str_app_assoc. set (y := c +:+ "*/" +:+ x).
  assert (Hp : has_prefix "/*" (String (chr 47) (String (chr 42) y)) = true) by exact (prefix_app "/*" y).
  change ("/*" +:+ y) with (String (chr 47) (String (chr 42) y)). unfold queryComments at 1. cbn [replace_comments]. rewrite Hp.
  change (has_prefix "--" (String (chr 47) (String (chr 42) y))) with false. cbv iota.
  change (str_drop 2 (String (chr 47) (String (chr 42) y))) with (str_drop 0 y). replace (str_drop 0 y) with y by (by destruct y). unfold y.
  rewrite (cut_at_extend _ _ _ Hc). f_equal. apply replace_comments_fuel; [|lia].
  cbn [String.length]. rewrite !str_length_app. cbn. lia.
Qed.

Lemma skip_line c x : (span no_line_end c).1 = c -> line_ends x = true -> queryComments (("--" +:+ c) +:+ x) = " " +:+ queryComments x.
Proof.
  intros Hc Hx. rewrite !str_app_assoc. set (y := c +:+ x).
  assert (Hp : has_prefix "--" (String (chr 45) (String (chr 45) y)) = true) by exact (prefix_app "--" y).
  change ("--" +:+ y) with (String (chr 45) (String (chr 45) y)). unfold queryComments at 1. cbn [replace_comments]. rewrite Hp.
  cbv iota. change (fun c => negb ((byte_of c =? 10) || (byte_of c =? 13))) with no_line_end.
  unfold y. change (String (chr 45) (String (chr 45) (c +:+ x))) with (String (chr 45) (String (chr 45) c) +:+ x).
  rewrite (span_app no_line_end (String (chr 45) (String (chr 45) c)) x).
  - cbn [snd]. f_equal. apply replace_comments_fuel; [|lia]. cbn [String.length]. rewrite !str_app_cons. cbn [String.length].
    rewrite str_length_app. lia.
  - cbn [span]. change (no_line_end (chr 45)) with true. cbv iota. destruct (span no_line_end c). cbn in *. by subst.
  - destruct x as [|d x]; [done|]. by apply negb_true_iff.
Qed.

Lemma comments_gone code ps : Forall wf_piece ps -> quiet_from code ps = true ->
  queryComments (code +:+ plain ps) = code +:+ plain (uncommented <$> ps).
Proof.
  intros H. revert code. induction H as [|p ps Hp _ IH]; intros code Hq.
  - cbn [plain fmap list_fmap quiet_from] in *. rewrite str_app_nil_r. unfold no_marks in Hq. apply andb_prop in Hq as [H1%negb_true_iff H2%negb_true_iff].
    apply no_comments; [done|done|]. lia.
  - assert (Hcode : uncommented p = p -> quiet_from (code +:+ plain_piece p) ps = true ->
      queryComments (code +:+ plain (p :: ps)) = code +:+ plain (uncommented <$> (p :: ps))).
    { intros E Hn. cbn [plain fmap list_fmap]. rewrite E, <-!str_app_assoc. by apply IH. }
    destruct p as [s|w f|c|t c|c|c]; cbn [quiet_from] in Hq; try by apply Hcode.
    + apply andb_prop in Hq as [[Hm He]%andb_prop Hq]. cbn [plain fmap list_fmap plain_piece uncommented render_piece].
      destruct Hp as [_ Hp]. rewrite skip_clear, skip_block by done. do 2 f_equal. exact (IH "" Hq).
    + apply andb_prop in Hq as [[[Hm He]%andb_prop Hl]%andb_prop Hq]. cbn [plain fmap list_fmap plain_piece uncommented render_piece].
      destruct Hp as [_ Hp]. rewrite skip_clear, skip_line by done. do 2 f_equal. exact (IH "" Hq).
Qed.

(** The pieces that are left when comments are gone. *)
Definition plain_wf (p : piece) : Prop := wf_piece p /\ uncommented p = p.
Lemma uncommented_wf ps : Forall wf_piece ps -> Forall plain_wf (uncommented <$> ps).
Proof. intros H. apply Forall_fmap. apply (Forall_impl _ _ _ H). by intros []. Qed.

(** All of them but quoted literals are text without quotes. *)
Lemma plain_text p : plain_wf p -> (forall c, p <> Quoted c) -> plain_piece p <> "" /\ lacks quote (plain_piece p) = true.
Proof.
  intros [Hp Hu] Hq. destruct p as [s|w f|c|t c|c|c]; cbn in *; try done.
  - by destruct Hp as (? & ? & ?).
  - destruct Hp as (Hw & [_ Ew]%digits_lack & [_ Ef]%digits_lack). split; [by destruct w|].
    rewrite lacks_app, Ew. by destruct f.
  - by destruct (Hq c).
Qed.

(** *** Quoted literals *)

Lemma plain_head p ps : plain_wf p -> (forall c, p <> Quoted c) ->
  exists d s, plain (p :: ps) = String d s /\ Ascii.eqb d quote = false.
Proof.
  intros Hp Hq. destruct (plain_text p Hp Hq) as [Hn Hl]. cbn [plain]. destruct (plain_piece p) as [|d s]; [done|].
  cbn [lacks] in Hl. apply andb_prop in Hl as [Hd%negb_true_iff _]. eexists _, _. by split.
Qed.

Lemma close_quote_content c r : lacks quote c = true -> close_quote (c +:+ r) = close_quote r.
Proof.
  induction c as [|d c IH]; intros H; [done|]. cbn in H. apply andb_prop in H as [Hd H].
  rewrite str_app_cons. cbn [close_quote]. destruct (Ascii.eqb d quote); [done|]. by apply IH.
Qed.

Lemma piece_cases p : (exists c, p = Quoted c) \/ (forall c, p <> Quoted c).
Proof. destruct p; first [by right|left; by eexists]. Qed.

Lemma skip_other p ps : (forall c, p <> Quoted c) -> skip_quoted (p :: ps) = p :: ps.
Proof. intros H. destruct p; try done. by destruct (H content). Qed.

Lemma close_quote_render ps :
  Forall plain_wf ps -> close_quote (String quote (plain ps)) = Some (plain (skip_quoted ps)).
Proof.
  induction 1 as [|p ps Hp _ IH]; [done|]. cbn [close_quote]. rewrite Ascii.eqb_refl.
  destruct (piece_cases p) as [[c ->]|Hq].
  - cbn [plain plain_piece render_piece skip_quoted]. unfold quoted. rewrite str_app_cons, Ascii.eqb_refl.
    destruct Hp as [[Hc _] _]. rewrite str_app_assoc, close_quote_content by done.
    change (String quote "" +:+ plain ps) with (String quote (plain ps)). by rewrite IH.
  - rewrite skip_other by done. destruct (plain_head p ps Hp Hq) as (d & r & -> & Hd). by rewrite Hd.
Qed.

Lemma replace_lacks by_ s r :
  lacks quote s = true -> queryStrings by_ (s +:+ r) = s +:+ queryStrings by_ r.
Proof.
  induction s as [|c s IH]; intros H; [done|]. cbn in H. apply andb_prop in H as [Hc H].
  rewrite !str_app_cons. unfold queryStrings at 1. cbn [replace_strings].
  destruct (Ascii.eqb c quote); [done|]. f_equal. by apply IH.
Qed.

Lemma skip_wf ps : Forall plain_wf ps -> Forall plain_wf (skip_quoted ps).
Proof. induction 1 as [|[] ps Hp H IH]; cbn; first [done|by constructor]. Qed.

Lemma erased_other b p ps : (forall c, p <> Quoted c) -> erased b (p :: ps) = plain_piece p +:+ erased false ps.
Proof. intros H. destruct p; try done. by destruct (H content). Qed.

Lemma skip_length ps : (length (skip_quoted ps) <= length ps)%nat.
Proof. induction ps as [|[] ps IH]; cbn; lia. Qed.

Lemma strings_erased ps : Forall plain_wf ps -> queryStrings "?" (plain ps) = erased false ps.
Proof.
  enough (forall n ps, (length ps < n)%nat -> Forall plain_wf ps -> queryStrings "?" (plain ps) = erased false ps) as H
    by by apply (H (S (length ps))); lia.
  clear ps. induction n as [|n IH]; intros ps Hn H; [lia|]. destruct H as [|p ps Hp Hps]; [done|]. cbn in Hn.
  destruct (piece_cases p) as [[c ->]|Hq].
  - destruct Hp as [[Hc _] _]. cbn [plain plain_piece render_piece erased]. unfold quoted. rewrite str_app_cons, str_app_assoc.
    unfold queryStrings. cbn [replace_strings]. rewrite Ascii.eqb_refl, close_quote_content by done.
    change (String quote "" +:+ plain ps) with (String quote (plain ps)). rewrite close_quote_render by done.
    f_equal. rewrite erased_skip, <- (IH (skip_quoted ps)); [|pose proof (skip_length ps); lia|by apply skip_wf].
    unfold queryStrings. apply replace_strings_fuel; [|lia].
    pose proof (close_quote_length _ _ (close_quote_render ps Hps)) as Hl. cbn in Hl.
    cbn. rewrite !str_length_app. cbn. lia.
  - rewrite erased_other by done. cbn [plain]. rewrite replace_lacks, IH by (done || lia || by apply plain_text). done.
Qed.

(** *** Numbers *)

Lemma number_end_length c r rest : digit c = true -> number_end (String c r) = Some rest -> (String.length rest <= String.length r)%nat.
Proof.
  intros Hc. unfold number_end. cbn [span]. rewrite Hc. pose proof (span_length digit r) as H. destruct (span digit r) as [a [|d b]]; cbn [snd] in H.
  - intros [= <-]. exact H.
  - assert (Hw : (if starts_word (String d b) then None else Some (String d b)) = Some rest -> (String.length rest <= String.length r)%nat)
      by (destruct (starts_word _); [done|by intros [= <-]]).
    destruct (_ && _); [|exact Hw]. pose proof (span_length digit b) as Hb. destruct (span digit b) as [x y]. cbn in H, Hb.
    destruct (starts_word y); [exact Hw|]. intros [= <-]. lia.
Qed.

Lemma replace_numbers_fuel n m aw s :
  (String.length s < n)%nat -> (String.length s < m)%nat -> replace_numbers n aw s = replace_numbers m aw s.
Proof.
  revert m aw s. induction n as [|n IH]; intros m aw s Hn Hm; [lia|]. destruct m as [|m]; [lia|].
  cbn [replace_numbers]. destruct s as [|c r]; [done|]. cbn in Hn, Hm.
  destruct (negb aw && digit c) eqn:E; [|f_equal; apply IH; lia].
  apply andb_prop in E as [_ E]. destruct (number_end (String c r)) as [rest|] eqn:Er; [|f_equal; apply IH; lia].
  apply number_end_length in Er; [|done]. f_equal. apply IH; lia.
Qed.

Definition numbers (after_word : bool) (s : string) : string := replace_numbers (S (String.length s)) after_word s.

Lemma numbers_cons aw c r : numbers aw (String c r) =
  (if negb aw && digit c then
     match number_end (String c r) with Some rest => "?" +:+ numbers true rest | None => String c (numbers true r) end
   else String c (numbers (is_word c) r)).
Proof.
  unfold numbers at 1. assert (Hk : (String.length r < String.length (String c r))%nat) by (cbn; lia).
  revert Hk. generalize (String.length (String c r)). intros k Hk. cbn [replace_numbers].
  destruct (negb aw && digit c) eqn:E; [|f_equal; apply replace_numbers_fuel; lia].
  apply andb_prop in E as [_ E]. destruct (number_end (String c r)) as [rest|] eqn:Er; [|f_equal; apply replace_numbers_fuel; lia].
  apply number_end_length in Er; [|done]. f_equal. apply replace_numbers_fuel; lia.
Qed.

Lemma digit_in_word c : digit c = true -> is_word c = true.
Proof. unfold digit, is_word, isDollarTagPart. intros ->. apply orb_true_r. Qed.
Lemma digit_not_dot c : digit c = true -> (byte_of c =? 46) = false.
Proof. unfold digit, is_digit. intros H. lia. Qed.

Lemma numbers_flag b s : starts_word s = false -> numbers b s = numbers false s.
Proof.
  destruct s as [|c r]; [done|]. cbn [starts_word]. intros H. rewrite !numbers_cons.
  destruct (digit c) eqn:E; [apply digit_in_word in E; congruence|]. by rewrite !andb_false_r.
Qed.

Lemma starts_apart_word s : starts_apart s = true -> starts_word s = false.
Proof. destruct s as [|c r]; [done|]. cbn. intros [H%negb_true_iff _]%andb_prop. exact H. Qed.

(** Text that ends apart from a number ends the numbers in it, whatever comes after. *)
Lemma ends_apart_weak a b : ends_apart false a = true -> ends_apart b a = true.
Proof. by destruct a. Qed.

Lemma span_apart a t : ends_apart false a = true ->
  span digit (a +:+ t) = ((span digit a).1, (span digit a).2 +:+ t) /\ ends_apart false (span digit a).2 = true.
Proof.
  induction a as [|c a IH]; [done|]. rewrite str_app_cons. cbn [span]. intros H. destruct (digit c) eqn:Hc; [|done].
  cbn [ends_apart] in H. rewrite (digit_in_word c Hc) in H. cbn in H. apply IH in H as [-> H]. by destruct (span digit a).
Qed.

Lemma number_end_apart a t : ends_apart false a = true ->
  number_end (a +:+ t) = (fun r => r +:+ t) <$> number_end a /\ (forall r, number_end a = Some r -> ends_apart false r = true).
Proof.
  intros H. unfold number_end. destruct (span_apart a t H) as [E Hr]. rewrite E. clear E.
  destruct (span digit a) as [x r]. cbn [fst snd] in *. destruct r as [|c r]; [done|]. rewrite str_app_cons.
  change (starts_word (String c (r +:+ t))) with (is_word c). change (starts_word (String c r)) with (is_word c).
  assert (Hw : forall z, (if is_word c then None else Some (String c r)) = Some z -> ends_apart false z = true).
  { intros z. destruct (is_word c); [done|]. by intros [= <-]. }
  destruct (byte_of c =? 46) eqn:Hd; cbn [andb]; [|split; [by destruct (is_word c)|exact Hw]].
  cbn [ends_apart] in Hr. rewrite Hd, andb_false_r in Hr. destruct r as [|d r]; [done|]. rewrite str_app_cons.
  destruct (digit d) eqn:Hdd; [|split; [by destruct (is_word c)|exact Hw]].
  destruct (span_apart (String d r) t Hr) as [E Hr2]. rewrite str_app_cons in E. rewrite E. clear E.
  destruct (span digit (String d r)) as [y z]. cbn [fst snd] in *. destruct z as [|e z]; [done|]. rewrite str_app_cons. cbn [starts_word].
  destruct (is_word e); [split; [by destruct (is_word c)|exact Hw]|]. split; [done|]. by intros ? [= <-].
Qed.

Lemma span_digits w s : (span digit w).1 = w -> match s with String c _ => digit c = false | "" => True end -> span digit (w +:+ s) = (w, s).
Proof. apply span_app. Qed.

Lemma starts_apart_digit s : starts_apart s = true -> match s with String c _ => digit c = false | "" => True end.
Proof.
  intros H%starts_apart_word. destruct s as [|c r]; [done|]. cbn in H. apply not_true_is_false. intros E%digit_in_word. congruence.
Qed.

Lemma number_end_number w f t : wf_piece (Number w f) -> starts_apart t = true -> number_end (plain_piece (Number w f) +:+ t) = Some t.
Proof.
  intros (Hw & Ew & Ef) Ht. pose proof (starts_apart_digit t Ht) as Hd. pose proof (starts_apart_word t Ht) as Hn.
  cbn [plain_piece render_piece]. unfold number_end. rewrite str_app_assoc. destruct f as [|d f].
  - rewrite str_app_nil_l, (span_digits w t) by done. rewrite Hn. destruct t as [|c t]; [done|]. cbn in Ht.
    apply andb_prop in Ht as [_ Ht%negb_true_iff]. by rewrite Ht.
  - rewrite str_app_assoc, (span_digits w) by done. change ("." +:+ String d f +:+ t) with (String (chr 46) (String d f +:+ t)). cbv iota beta.
    assert (Hf : digit d = true) by (cbn in Ef; by destruct (digit d)).
    rewrite str_app_cons, Hf. change (byte_of (chr 46) =? 46) with true. cbn [andb].
    rewrite <-str_app_cons, (span_digits (String d f) t) by done. by rewrite Hn.
Qed.

Lemma wf_number_head w f : wf_piece (Number w f) -> exists c r, plain_piece (Number w f) = String c r /\ digit c = true.
Proof.
  intros (Hw & Ew & _). destruct w as [|c w]; [done|]. cbn in Ew. destruct (digit c) eqn:E; [|done]. eexists _, _. by split.
Qed.

(** A number that stands apart is replaced. *)
Lemma number_gone n a aw w f t : (String.length a < n)%nat ->
  wf_piece (Number w f) -> ends_apart (negb aw) a = true -> starts_apart t = true ->
  numbers aw (a +:+ plain_piece (Number w f) +:+ t) = numbers aw (a +:+ "?" +:+ t).
Proof.
  intros Hn Hw Ha Ht. revert a aw Hn Ha. induction n as [|n IH]; intros a aw Hn Ha; [lia|]. destruct a as [|c a].
  - rewrite !str_app_nil_l. cbn in Ha. apply negb_true_iff in Ha as ->.
    destruct (wf_number_head w f Hw) as (c & r & E & Hc). pose proof (number_end_number w f t Hw Ht) as He.
    rewrite E, str_app_cons in *. rewrite numbers_cons, Hc. cbn [negb andb]. rewrite He.
    change ("?" +:+ t) with (String (chr 63) t). rewrite numbers_cons. cbn [negb andb]. change (digit (chr 63)) with false. cbv iota.
    rewrite (numbers_flag (is_word (chr 63))) by by apply starts_apart_word. by rewrite numbers_flag by by apply starts_apart_word.
  - cbn [String.length] in Hn. rewrite !str_app_cons, !numbers_cons. cbn [ends_apart] in Ha. destruct (negb aw && digit c) eqn:E.
    + apply andb_prop in E as [_ Hc]. rewrite (digit_in_word c Hc) in Ha. cbn in Ha.
      assert (Hca : ends_apart false (String c a) = true) by (cbn; by rewrite (digit_in_word c Hc)).
      rewrite <-!str_app_cons. destruct (number_end_apart (String c a) (plain_piece (Number w f) +:+ t) Hca) as [-> Hr].
      destruct (number_end_apart (String c a) ("?" +:+ t) Hca) as [-> _].
      destruct (number_end (String c a)) as [r|] eqn:Er; cbn [fmap option_fmap option_map]; f_equal.
      * apply IH; [|by apply Hr]. apply number_end_length in Er; [lia|done].
      * apply IH; [lia|done].
    + f_equal. apply IH; [lia|]. destruct (is_word c); [exact Ha|]. cbn in Ha |- *.
      destruct (byte_of c =? 46); [by apply ends_apart_weak|exact Ha].
Qed.

Lemma numbers_gone a b ps : Forall plain_wf ps -> apart_from a b ps = true ->
  queryNumbers (a +:+ erased b ps) = queryNumbers (a +:+ erased b (unnumbered <$> ps)).
Proof.
  intros H. revert a b. induction H as [|p ps [Hp Hu] _ IH]; intros a b Hq; [done|]. cbn [fmap list_fmap].
  destruct p as [s|w f|c|t c|c|c]; try discriminate Hu.
  2:{ cbn [apart_from] in Hq. apply andb_prop in Hq as [[Ha Ht]%andb_prop Hq].
      change (queryNumbers (a +:+ plain_piece (Number w f) +:+ erased false ps) = queryNumbers (a +:+ "?" +:+ erased false (unnumbered <$> ps))).
      etransitivity; [apply (number_gone (S (String.length a)) a false w f); [lia|done..]|].
      change (numbers false) with queryNumbers. rewrite <-!str_app_assoc. by apply IH. }
  all: cbn [apart_from erased unnumbered plain_piece render_piece] in *; rewrite <-!str_app_assoc; by apply IH.
Qed.


(** ** Words *)

(** The last byte is of a word. *)
Definition ends_word (s : string) : bool :=
  match String.get (pred (String.length s)) s with Some c => isSQLWordChar c | None => false end.

Fixpoint all_word (s : string) : bool :=
  match s with "" => true | String c r => isSQLWordChar c && all_word r end.

(** [w] stands in [q] as a word of its own. *)
Definition word_of (w q : string) : Prop :=
  exists a b, q = a +:+ w +:+ b /\ ends_word a = false /\ starts_word b = false.

Lemma get_last a c b : String.get (String.length a) (a +:+ String c b) = Some c.
Proof. induction a as [|d a IH]; [done|exact IH]. Qed.

Lemma ends_word_app a c b : ends_word (a +:+ String c b) = ends_word (String c b).
Proof.
  unfold ends_word. rewrite str_length_app. cbn [String.length]. rewrite Nat.add_succ_r. cbn [pred].
  induction a as [|d a IH]; [done|]. rewrite str_app_cons. cbn [String.length Nat.add String.get]. exact IH.
Qed.

Lemma all_word_ends s : all_word s = true -> s <> "" -> ends_word s = true.
Proof.
  induction s as [|c s IH]; intros H Hs; [done|]. cbn in H. apply andb_prop in H as [Hc H].
  destruct s as [|d s]; [done|]. change (String c (String d s)) with (String c "" +:+ String d s).
  rewrite ends_word_app. by apply IH.
Qed.

Lemma all_word_prefix a b : all_word (a +:+ b) = true -> all_word a = true.
Proof.
  induction a as [|c a IH]; intros H; [done|]. rewrite str_app_cons in H. cbn in *.
  apply andb_prop in H as [-> H]. by apply IH.
Qed.

Lemma str_app_split a b c d :
  a +:+ b = c +:+ d -> (String.length a <= String.length c)%nat -> exists k, c = a +:+ k /\ b = k +:+ d.
Proof.
  revert c. induction a as [|x a IH]; intros c E Hl; [by exists c|].
  destruct c as [|y c]; [cbn in Hl; lia|]. rewrite !str_app_cons in E. injection E as -> E.
  destruct (IH c E) as (k & -> & ->); [cbn in Hl; lia|]. by exists k.
Qed.

(** A cut is at the first occurrence. *)
Lemma cut_at_first sep a b : exists a' b', cut_at sep (a +:+ sep +:+ b) = Some (a', b') /\
  (String.length a' <= String.length a)%nat.
Proof.
  induction a as [|c a IH].
  - rewrite str_app_nil_l, cut_at_prefix by apply prefix_app. eexists _, _. split; [reflexivity|cbn; lia].
  - rewrite str_app_cons. cbn [cut_at]. destruct (String.prefix _ _).
    + eexists _, _. split; [reflexivity|cbn; lia].
    + destruct IH as (a' & b' & -> & Hl). eexists _, _. split; [reflexivity|cbn; lia].
Qed.

(** What the byte before says about an occurrence. *)
Definition before_word (before : bool) (a : string) : bool := match a with "" => before | _ => ends_word a end.

Lemma before_word_app before a c k : before_word before (a +:+ String c k) = ends_word (String c k).
Proof.
  destruct a as [|d a]; [done|]. rewrite str_app_cons. unfold before_word. by rewrite <- str_app_cons, ends_word_app.
Qed.

Lemma before_word_get before a :
  match String.get (pred (String.length a)) a with Some c => isSQLWordChar c | None => before end
  = before_word before a.
Proof.
  destruct a as [|c a]; [done|]. unfold before_word, ends_word.
  destruct (String.get (pred (String.length (String c a))) (String c a)) eqn:E; [done|]. exfalso.
  revert E. clear before. revert c. induction a as [|d a IH]; intros c; [done|]. apply (IH d).
Qed.

Lemma sql_word_spec w : w <> "" -> all_word w = true -> forall n before q,
  (String.length q < n)%nat ->
  sql_word n w before q = true <->
  exists a b, q = a +:+ w +:+ b /\ before_word before a = false /\ starts_word b = false.
Proof.
  intros Hw Haw. induction n as [|n IH]; intros before q Hn; [lia|]. cbn [sql_word].
  assert (forall b0, match String.get (pred (String.length w)) w with Some c => isSQLWordChar c | None => b0 end = true)
    as Hlast.
  { intros b0. rewrite before_word_get. destruct w; [done|]. by apply all_word_ends. }
  destruct (cut_at w q) as [[a0 after]|] eqn:Ec.
  2:{ split; [done|]. intros (a & b & -> & _). destruct (cut_at_first w a b) as (a' & b' & E & _). congruence. }
  pose proof (cut_at_Some _ _ _ _ Ec) as Eq. pose proof (cut_at_length _ _ _ _ Ec) as El.
  rewrite before_word_get, Hlast.
  destruct (negb (before_word before a0) && negb (starts_word after)) eqn:Eb.
  { split; [|done]. intros _. apply andb_prop in Eb as [E1%negb_true_iff E2%negb_true_iff]. by exists a0, after. }
  assert ((exists a b, q = a +:+ w +:+ b /\ before_word before a = false /\ starts_word b = false) <->
          exists a b, after = a +:+ w +:+ b /\ before_word true a = false /\ starts_word b = false) as ->.
  - split; intros (a & b & E & Ha & Hb).
    + assert (String.length a0 <= String.length a)%nat as Hle.
      { destruct (cut_at_first w a b) as (a' & b' & E' & Hl). rewrite <- E, Ec in E'. by injection E' as -> ->. }
      rewrite E in Eq. destruct (str_app_split a0 (w +:+ after) a (w +:+ b) (eq_sym Eq) Hle) as (k & -> & Ek).
      destruct k as [|c k].
      { cbn in Ek. rewrite str_app_nil_r in Ha. destruct (str_app_split w after w b Ek (Nat.le_refl _)) as (j & Ej & Eb').
        assert (j = "") as ->.
        { apply (f_equal String.length) in Ej. rewrite str_length_app in Ej. destruct j; [done|cbn in Ej; lia]. }
        rewrite str_app_nil_l in Eb'. subst. by rewrite Ha, Hb in Eb. }
      assert (ends_word (String c k) = false) as Hk by by rewrite before_word_app in Ha.
      destruct (Nat.le_gt_cases (String.length w) (String.length (String c k))) as [Hl|Hl].
      * destruct (str_app_split w after (String c k) (w +:+ b) Ek Hl) as (j & Ej & ->).
        exists j, b. split_and!; [done| |done]. rewrite Ej in Hk. destruct j as [|d j].
        -- rewrite str_app_nil_r in Hk. rewrite all_word_ends in Hk; done.
        -- rewrite ends_word_app in Hk. exact Hk.
      * destruct (str_app_split (String c k) (w +:+ b) w after (eq_sym Ek) ltac:(lia)) as (j & Ej & _).
        rewrite Ej in Haw. apply all_word_prefix in Haw. by rewrite all_word_ends in Hk.
    + rewrite E in Eq. exists (a0 +:+ w +:+ a), b. split_and!; [by rewrite !str_app_assoc|  |done].
      destruct a as [|c a]; [done|]. by rewrite <- str_app_assoc, before_word_app.
  - assert (0 < String.length w)%nat as Hwl by (destruct w; [done|cbn; lia]).
    destruct after as [|c after]; [|apply IH; cbn in *; lia].
    split; [done|]. intros (a & b & E & _). destruct a; [|done]. by destruct w.
Qed.

Lemma containsSQLWord_spec q w : w <> "" -> all_word w = true -> containsSQLWord q w = true <-> word_of w q.
Proof.
  intros Hw Ha. unfold containsSQLWord. rewrite sql_word_spec by (done || lia).
  unfold word_of. split; intros (a & b & E & H & Hb); exists a, b; (split_and!; [done| |done]); by destruct a.
Qed.

(** A statement is accepted exactly if it is a read: it is not empty, its words begin
    with SELECT or WITH, it is a single statement with no comment, none of the functions
    that write, wait or read files occurs in it, and none of the words that change
    something stands in it as a word of its own. *)
Theorem accepted_iff_read (ToLower : string -> string) (query : string) :
  let lower := ToLower query in
  let normalized := join " " (fields lower) in
  validateReadOnlyQuery ToLower query = Ok tt <->
  query <> "" /\
  (has_prefix "select " normalized = true \/ has_prefix "with " normalized = true) /\
  contains ";" query = false /\ contains "--" lower = false /\ contains "/*" lower = false /\
  Forall (fun fragment => contains fragment normalized = false) forbidden_fragments /\
  Forall (fun word => ~ word_of word lower) forbidden_words.
Proof.
  cbn zeta. unfold validateReadOnlyQuery. set (lower := ToLower query). set (normalized := join " " (fields lower)).
  assert (existsb (containsSQLWord lower) forbidden_words = false <-> Forall (fun w => ~ word_of w lower) forbidden_words)
    as Hwords.
  { assert (Forall (fun w => w <> "" /\ all_word w = true) forbidden_words) as Hall
      by (repeat (apply Forall_cons; split; [by split|]); apply Forall_nil_2).
    induction Hall as [|w l [H1 H2] _ IH]; [split; [constructor|done]|]. cbn [existsb].
    rewrite orb_false_iff, Forall_cons, IH, <- (containsSQLWord_spec lower w H1 H2).
    destruct (containsSQLWord lower w); split; intros [H0 Hf]; try done; by destruct H0. }
  assert (forall (f : string -> bool) l, existsb f l = false <-> Forall (fun x => f x = false) l) as Hex.
  { intros f l. induction l as [|x l IH]; [split; [constructor|done]|]. cbn. by rewrite orb_false_iff, Forall_cons, IH. }
  destruct (String.eqb_spec query "") as [E|E]; [split; [done|tauto]|].
  destruct (has_prefix "select " normalized || has_prefix "with " normalized) eqn:Ep; cbn [negb].
  2:{ apply orb_false_elim in Ep as [-> ->]. split; [done|]. intros (_ & [?|?] & _); done. }
  apply orb_prop in Ep. destruct (contains ";" query || contains "--" lower || contains "/*" lower) eqn:Ec.
  { split; [done|]. intros (_ & _ & E1 & E2 & E3 & _). by rewrite E1, E2, E3 in Ec. }
  rewrite <- Hwords, <- (Hex (fun fragment => contains fragment normalized)).
  destruct (existsb (fun fragment => contains fragment normalized) forbidden_fragments);
    [split; [done|by intros (_ & _ & _ & _ & _ & ? & _)]|].
  destruct (existsb (containsSQLWord lower) forbidden_words).
  - split; [done|by intros (_ & _ & _ & _ & _ & _ & ?)].
  - split; [|done]. intros _. apply orb_false_elim in Ec as [Ec1 Ec3]. apply orb_false_elim in Ec1 as [Ec1 Ec2]. done.
Qed.

(** ** Concrete statements *)

Definition example_statement (n name secret note : string) : list piece :=
  [Code "SELECT "; Number n "50"; Code ", * FROM t1 WHERE name = "; Quoted name; Code " AND token = "; Dollar "t" secret;
   Block note; Code " LIMIT "; Number n ""].


(** A dollar in a literal begins a tag all the same: the literal loses its end, and its start is sent. *)
Example dollars_expose_literal : sanitizeQueryText "SELECT * FROM users WHERE token = 'secret$$1'" = "SELECT * FROM users WHERE token = 'secret?".
Proof. vm_compute. reflexivity. Qed.

(** Comments are taken out before literals: a literal that contains their mark loses its
    end, and what is before the mark is sent. *)
Example comment_mark_exposes_literal :
  sanitizeQueryText "SELECT 1 FROM users WHERE token = 'secret--1' AND id = 7"
  = "SELECT ? FROM users WHERE token = 'secret".
Proof. vm_compute. reflexivity. Qed.

(** A number in scientific notation is replaced only in part. *)
Example exponent_exposed : sanitizeQueryText "SELECT 12.5e10" = "SELECT ?.5e10".
Proof. vm_compute. reflexivity. Qed.
End SqlTextProps.
