(* ===== verification/QueryStats.v ===== *)
(** * Statistics and samples of database queries (internal/checks: postgres_queries.go,
    mysql_queries.go, mssql_queries.go, oracle_queries.go, clickhouse_queries.go,
    mongo_queries.go)

    Each engine counts the calls of its statements since some start.  A check keeps the
    last reading and reports what was added since, or, where the engine keeps a log,
    groups the entries it has not seen.  Samples are single observations, with a plan as
    far as the limits of the rate allow.

    What a database answers is an argument; so are the hash, the encoding of JSON and the
    time formats. *)

From S2P Require Import Prelude GoStrings Wire GoFloat Processing SqlText.
#[local] Open Scope Z_scope.

Module QueryStats.
Import SqlText.
Import Processing(json, JNull, JBool, JNumber, JString, JArray, JObject).

Definition postgresPlanRateLimit : Z := 60.
Definition postgresPlanSampleRateLimit : Z := 15.
Definition postgresPlanRateCacheSize : nat := 5000.

(** ** What is reported *)

Record DatabaseQueryStat := mk_stat {
  QueryID : string;
  User : string;
  Text : string;
  Calls : Z;
  TotalMS : f64;
  MeanMS : f64;
  Rows : Z;
}.

Record DatabaseQuerySample := mk_sample {
  SampleID : string;
  SampleQueryID : string;
  SampleText : string;
  SampleUser : string;
  Application : string;
  Client : string;
  State : string;
  WaitType : string;
  WaitEvent : string;
  DurationMS : f64;
  SampledAt : string;
  PlanJSON : option string;
  PlanStatus : string;
}.

Record DatabaseQueryStats := mk_stats {
  Engine : string;
  InstallationID : string;
  DatabaseID : string;
  DBServer : string;
  DBName : string;
  WindowSeconds : Z;
  Queries : list DatabaseQueryStat;
  Samples : list DatabaseQuerySample;
}.

(** The fields of a check that its configuration sets. *)
Record settings := mk_settings {
  installation : string;
  database_id : string;
  server : string;
  database : string;
  interval : Z;
  sampleInterval : Z;
  queryLimit : Z;
  sampleLimit : Z;
  continuousPlans : bool;
  planLimit : Z;
  minPlanDurationMS : f64;
}.

Definition window_seconds (d : Z) : Z := Z.max 1 (d ÷ second).

Definition stats_of (engine : string) (c : settings) (window : Z) (qs : list DatabaseQueryStat)
    (ss : list DatabaseQuerySample) : DatabaseQueryStats :=
  mk_stats engine (installation c) (database_id c) (server c) (database c) window qs ss.

(** ** Counters *)

Record postgresQueryCounter := mk_counter { calls : Z; totalMS : f64; rows : Z }.

Definition counterDelta (current previous : Z) : Z :=
  if current <? previous then current else i64 (current - previous).
Definition floatDelta (current previous : f64) : f64 :=
  if flt current previous then current else fsub current previous.

(** The last readings. *)
Definition readings : Type := gmap string postgresQueryCounter.

(** One reading under a key: what is reported, when something is. *)
Definition take_reading (key id user text : string) (current : postgresQueryCounter) (prev : readings)
    : option DatabaseQueryStat * readings :=
  let next := <[key := current]> prev in
  match prev !! key with
  | None => (None, next)
  | Some previous =>
      let n := counterDelta (calls current) (calls previous) in
      if n <=? 0 then (None, next)
      else
        let total := floatDelta (totalMS current) (totalMS previous) in
        (Some (mk_stat id user text n total (fdiv total (f_of_Z n)) (counterDelta (rows current) (rows previous))), next)
  end.

(** *** PostgreSQL *)

Record postgresQueryStatRow := mk_row {
  row_QueryID : string;
  row_User : string;
  row_Text : string;
  row_Calls : Z;
  row_TotalMS : f64;
  row_Rows : Z;
}.

Record postgresQuerySampleRow := mk_sample_row {
  sr_SampleID : string;
  sr_QueryID : string;
  sr_Query : string;
  sr_User : string;
  sr_Application : string;
  sr_Client : string;
  sr_State : string;
  sr_WaitType : string;
  sr_WaitEvent : string;
  sr_DurationMS : f64;
  sr_SampledAt : string;
}.

Definition nul : string := str1 0.
Definition row_key (r : postgresQueryStatRow) : string := row_QueryID r +:+ nul +:+ row_User r.

Definition row_text (r : postgresQueryStatRow) : string :=
  or_else (sanitizeQueryText (row_Text r)) "(consulta sem texto)".

Definition read_row (r : postgresQueryStatRow) (st : list DatabaseQueryStat * readings)
    : list DatabaseQueryStat * readings :=
  let '(out, prev) := st in
  if String.eqb (row_QueryID r) "" || (row_Calls r <=? 0) then (out, prev)
  else
    let '(q, prev) := take_reading (row_key r) (row_QueryID r) (limitText (row_User r) 128) (row_text r)
                        (mk_counter (row_Calls r) (row_TotalMS r) (row_Rows r)) prev in
    (out ++ option_list q, prev).

(** [answer] is the decoded result of the query, or what failed; [cancelled] says whether
    the context is over when it arrives. *)
Definition postgres_stats (c : settings) (answer : res (list postgresQueryStatRow)) (cancelled : bool) (prev : readings)
    : res DatabaseQueryStats * readings :=
  match answer with
  | Err e => (Err e, prev)
  | Ok rs =>
      if cancelled then (Err "context", prev)
      else
        let '(qs, prev) := foldl (fun st r => read_row r st) ([], prev) rs in
        (Ok (stats_of "" c (window_seconds (interval c)) qs []), prev)
  end.

(** *** MySQL *)

(** A row of the digests: the timer is in picoseconds. *)
Record digest_row := mk_digest {
  dg_digest : string;
  dg_text : string;
  dg_calls : Z;
  dg_timer : f64;
  dg_rows : Z;
}.

Definition f_1e9 : f64 := f_of_Z 1000000000.
Definition f_1000 : f64 := f_of_Z 1000.

(** The rows as they come, each scanned or not; the readings are taken on the way. *)
Fixpoint mysql_rows (rs : list (option digest_row)) (out : list DatabaseQueryStat) (prev : readings)
    : res (list DatabaseQueryStat) * readings :=
  match rs with
  | [] => (Ok out, prev)
  | None :: _ => (Err "scan", prev)
  | Some r :: rs =>
      let '(q, prev) := take_reading (dg_digest r) (dg_digest r) "" (sanitizeQueryText (dg_text r))
                          (mk_counter (dg_calls r) (fdiv (dg_timer r) f_1e9) (dg_rows r)) prev in
      mysql_rows rs (out ++ option_list q) prev
  end.

(** [rows_err] is the error after the last row, which comes with what was read. *)
Definition mysql_stats (c : settings) (answer : res (list (option digest_row))) (rows_err : bool) (prev : readings)
    : res DatabaseQueryStats * readings :=
  match answer with
  | Err e => (Err e, prev)
  | Ok rs =>
      match mysql_rows rs [] prev with
      | (Err e, prev) => (Err e, prev)
      | (Ok qs, prev) =>
          (if rows_err then Err "rows" else Ok (stats_of "mysql" c (window_seconds (interval c)) qs []), prev)
      end
  end.

(** *** SQL Server and Oracle: several rows of one statement are added up first *)

Record part_row := mk_part {
  pr_id : string;
  pr_text : string;
  pr_calls : Z;
  pr_micros : Z;
  pr_rows : Z;
}.

Definition zero_counter : postgresQueryCounter := mk_counter 0 (f_of_Z 0) 0.

Definition add_part (r : part_row) (st : readings * gmap string string) : readings * gmap string string :=
  let '(cur, texts) := st in
  let entry := default zero_counter (cur !! pr_id r) in
  let entry := mk_counter (i64 (calls entry + pr_calls r)) (fadd (totalMS entry) (fdiv (f_of_Z (pr_micros r)) f_1000))
                 (i64 (rows entry + pr_rows r)) in
  (<[pr_id r := entry]> cur,
   if str_len (default "" (texts !! pr_id r)) <? str_len (pr_text r) then <[pr_id r := pr_text r]> texts else texts).

(** [skip_empty]: SQL Server leaves out rows with no hash. *)
Fixpoint add_parts (skip_empty : bool) (rs : list (option part_row)) (st : readings * gmap string string)
    : option (readings * gmap string string) :=
  match rs with
  | [] => Some st
  | None :: _ => None
  | Some r :: rs =>
      add_parts skip_empty rs (if skip_empty && String.eqb (pr_id r) "" then st else add_part r st)
  end.

Definition read_total (texts : gmap string string) (e : string * postgresQueryCounter)
    (st : list DatabaseQueryStat * readings) : list DatabaseQueryStat * readings :=
  let '(out, prev) := st in
  let '(q, prev) := take_reading e.1 e.1 "" (sanitizeQueryText (default "" (texts !! e.1))) e.2 prev in
  (out ++ option_list q, prev).

(** [order] is how the map of totals is enumerated. *)
Definition totals_stats (engine : string) (skip_empty : bool) (c : settings)
    (order : readings -> list (string * postgresQueryCounter))
    (answer : res (list (option part_row))) (rows_err : bool) (prev : readings) : res DatabaseQueryStats * readings :=
  match answer with
  | Err e => (Err e, prev)
  | Ok rs =>
      match add_parts skip_empty rs (∅, ∅) with
      | None => (Err "scan", prev)
      | Some (cur, texts) =>
          if rows_err then (Err "rows", prev)
          else
            let '(qs, prev) := foldl (fun st e => read_total texts e st) ([], prev) (order cur) in
            (Ok (stats_of engine c (window_seconds (interval c)) qs []), prev)
      end
  end.
Definition mssql_stats := totals_stats "mssql" true.
Definition oracle_stats := totals_stats "oracle" false.

(** ** Entries of a log *)

(** [int64(x)] of a value that is in range. *)
Definition f_to_i64 (x : f64) : Z :=
  match x with
  | S754_finite s m e =>
      let a := if 0 <=? e then Z.pos m * 2 ^ e else Z.pos m / 2 ^ (- e) in
      if s then - a else a
  | _ => 0
  end.

(** Entries seen, with the time; those older than [keep] are forgotten. *)
Definition seen_set : Type := gmap string Z.
Definition forget (keep now : Z) (seen : seen_set) : seen_set :=
  filter (fun p => time_sub now p.2 <= keep) seen.

(** *** ClickHouse *)

(** A row of the query log; a text of another type is empty, a number None. *)
Record log_row := mk_log_row {
  ch_query_id : string;
  ch_query_hash : string;
  ch_text : string;
  ch_raw_query : string;
  ch_user : string;
  ch_client_name : string;
  ch_address : string;
  ch_observed_us : string;
  ch_duration : option f64;
  ch_result_rows : option f64;
}.

(** The rows not seen before, at most [limit] of them when there is a limit. *)
Fixpoint fresh_rows (limit : option Z) (now : Z) (rs : list log_row) (n : Z) (seen : seen_set)
    : list log_row * seen_set :=
  match rs with
  | [] => ([], seen)
  | r :: rs =>
      if match limit with Some l => l <=? n | None => false end then ([], seen)
      else if String.eqb (ch_query_id r) "" || bool_decide (is_Some (seen !! ch_query_id r))
      then fresh_rows limit now rs n seen
      else
        let '(fresh, seen) := fresh_rows limit now rs (n + 1) (<[ch_query_id r := now]> seen) in
        (r :: fresh, seen)
  end.
Definition fresh (limit : option Z) (now : Z) (rs : list log_row) (seen : seen_set) : list log_row * seen_set :=
  fresh_rows limit now rs 0 (forget (6 * minute) now seen).

Definition empty_stat (id text : string) : DatabaseQueryStat := mk_stat id "" text 0 (f_of_Z 0) (f_of_Z 0) 0.

(** One more call of an entry. *)
Definition count_call (text : string) (elapsed returned : option f64) (e : DatabaseQueryStat) : DatabaseQueryStat :=
  mk_stat (QueryID e) (User e) text (i64 (Calls e + 1))
    (match elapsed with Some x => fadd (TotalMS e) x | None => TotalMS e end) (MeanMS e)
    (match returned with Some x => i64 (Rows e + f_to_i64 x) | None => Rows e end).

Definition group_row (m : gmap string DatabaseQueryStat) (r : log_row) : gmap string DatabaseQueryStat :=
  if String.eqb (ch_query_hash r) "" then m
  else
    let e := default (empty_stat (ch_query_hash r) "") (m !! ch_query_hash r) in
    let text := if str_len (Text e) <? str_len (ch_text r) then sanitizeQueryText (ch_text r) else Text e in
    <[ch_query_hash r := count_call text (ch_duration r) (ch_result_rows r) e]> m.

Definition with_mean (e : DatabaseQueryStat) : DatabaseQueryStat :=
  mk_stat (QueryID e) (User e) (Text e) (Calls e) (TotalMS e) (fdiv (TotalMS e) (f_of_Z (Calls e))) (Rows e).

(** [sort.Slice] by the total time, the longest first. *)
Fixpoint insert_desc (x : DatabaseQueryStat) (l : list DatabaseQueryStat) : list DatabaseQueryStat :=
  match l with
  | [] => [x]
  | y :: l => if flt (TotalMS y) (TotalMS x) then x :: y :: l else y :: insert_desc x l
  end.
Definition sort_desc (l : list DatabaseQueryStat) : list DatabaseQueryStat :=
  foldl (fun acc x => insert_desc x acc) [] l.

Definition clickhouse_stats (c : settings) (order : gmap string DatabaseQueryStat -> list (string * DatabaseQueryStat))
    (now : Z) (answer : res (list log_row)) (seen : seen_set) : res DatabaseQueryStats * seen_set :=
  match answer with
  | Err e => (Err e, seen)
  | Ok rs =>
      let '(rs, seen) := fresh None now rs seen in
      let stats := sort_desc ((fun p => with_mean p.2) <$> order (foldl group_row ∅ rs)) in
      (Ok (stats_of "clickhouse" c (window_seconds (interval c)) (take (Z.to_nat (queryLimit c)) stats) []), seen)
  end.

(** *** MongoDB *)

Record profile_row := mk_profile_row {
  mg_id : string;
  mg_op : string;
  mg_ns : string;
  mg_planSummary : string;
  mg_millis : option f64;
  mg_nreturned : option f64;
}.

Definition mongoProfileLabel (r : profile_row) : string :=
  join " " ((fun v => limitText v 128) <$> filter (fun v => v <> "") [mg_op r; mg_ns r; mg_planSummary r]).

Section mongo.
Variable sha256_hex : string -> string.

(** [hex.EncodeToString(hash[:16])]. *)
Definition label_key (label : string) : string := str_take 32 (sha256_hex label).

Fixpoint mongo_rows (now : Z) (rs : list (option profile_row)) (seen : seen_set) (groups : gmap string DatabaseQueryStat)
    : bool * seen_set * gmap string DatabaseQueryStat :=
  match rs with
  | [] => (true, seen, groups)
  | None :: _ => (false, seen, groups)
  | Some r :: rs =>
      match seen !! mg_id r with
      | Some _ => mongo_rows now rs seen groups
      | None =>
          let seen := <[mg_id r := now]> seen in
          let label := mongoProfileLabel r in
          if String.eqb label "" then mongo_rows now rs seen groups
          else
            let key := label_key label in
            let e := default (empty_stat key label) (groups !! key) in
            mongo_rows now rs seen (<[key := count_call (Text e) (mg_millis r) (mg_nreturned r) e]> groups)
      end
  end.

(** [profiled] says whether the profiler's collection is there. *)
Definition mongo_stats (engine : string) (c : settings)
    (order : gmap string DatabaseQueryStat -> list (string * DatabaseQueryStat))
    (now : Z) (profiled : res bool) (answer : res (list (option profile_row))) (cursor_err : bool) (seen : seen_set)
    : res DatabaseQueryStats * seen_set :=
  let window := window_seconds (interval c) in
  if String.eqb engine "documentdb" then (Ok (stats_of engine c window [] []), seen)
  else
    match profiled with
    | Err e => (Err e, seen)
    | Ok false => (Err "mongo.queries: no profiler", seen)
    | Ok true =>
        match answer with
        | Err e => (Err e, seen)
        | Ok rs =>
            let '(ok, seen, groups) := mongo_rows now rs (forget (6 * minute) now seen) ∅ in
            if negb ok || cursor_err then (Err "cursor", seen)
            else (Ok (stats_of engine c window ((fun p => with_mean p.2) <$> order groups) []), seen)
        end
    end.
End mongo.

(** ** Limits of plans *)

(** PostgreSQL: the start and the count of the window of each key. *)
Definition rate_windows : Type := gmap string (Z * Z).

Definition allowPostgresRate (key : string) (limit now : Z) (windows : rate_windows) : bool * rate_windows :=
  let window := windows !! key in
  let full := bool_decide (window = None) && (postgresPlanRateCacheSize <=? size windows)%nat in
  let windows := if full then filter (fun p => time_sub now p.2.1 < hour) windows else windows in
  if full && (postgresPlanRateCacheSize <=? size windows)%nat then (false, windows)
  else
    let w := match window with
             | Some w => if hour <=? time_sub now w.1 then (now, 0) else w
             | None => (now, 0)
             end in
    if limit <=? w.2 then (false, windows) else (true, <[key := (w.1, w.2 + 1)]> windows).

(** The other engines: when each statement was last explained.  [kept age] says whether a
    time of that age stays. *)
Definition allow_plan (kept : Z -> bool) (id : string) (now : Z) (runs : seen_set) : bool * seen_set :=
  if String.eqb id "" then (false, runs)
  else
    match runs !! id with
    | Some last =>
        if time_sub now last <? 15 * minute then (false, runs)
        else
          let runs := filter (fun p => kept (time_sub now p.2) = true) runs in
          if (60 <=? size runs)%nat then (false, runs) else (true, <[id := now]> runs)
    | None =>
        let runs := filter (fun p => kept (time_sub now p.2) = true) runs in
        if (60 <=? size runs)%nat then (false, runs) else (true, <[id := now]> runs)
    end.
Definition mysql_allowPlan := allow_plan (fun age => age <? hour).
Definition mssql_allowPlan := allow_plan (fun age => age <=? hour).
Definition oracle_allowPlan := allow_plan (fun age => age <=? hour).
Definition clickhouse_allowPlan := allow_plan (fun age => age <=? hour).

(** ** Plans *)

Definition allowedPlanKeys : list string :=
  ["Plan"; "Plans"; "Node Type"; "Parent Relationship"; "Parallel Aware"; "Async Capable"; "Join Type"; "Strategy";
   "Relation Name"; "Schema"; "Alias"; "Index Name"; "Startup Cost"; "Total Cost"; "Plan Rows"; "Plan Width"].
Definition mysqlPlanFields : list string :=
  ["query_block"; "nested_loop"; "table"; "select_id"; "table_name"; "access_type"; "possible_keys"; "key";
   "used_key_parts"; "rows_examined_per_scan"; "rows_produced_per_join"; "rows"; "filtered"; "cost_info"; "query_cost";
   "read_cost"; "eval_cost"; "prefix_cost"; "using_index"; "using_temporary_table"; "using_filesort"].

Fixpoint clean (allowed : list string) (v : json) : json :=
  match v with
  | JArray l => JArray (clean allowed <$> l)
  | JObject m => JObject (filter (fun p => p.1 ∈ allowed) (clean allowed <$> m))
  | v => v
  end.

Section plans.
Variable unmarshal : string -> option json.
Variable marshal : json -> string.
Variable sha256_hex : string -> string.
Variable ToLower : string -> string.
Variable parse_time : string -> option Z.   (* time.Parse(time.RFC3339Nano, s) *)
Variable format_time : Z -> string.         (* in UTC, as RFC 3339 *)

Definition sanitizeContinuousPlan (raw : string) : option string :=
  (fun v => marshal (clean allowedPlanKeys v)) <$> unmarshal raw.

Definition sanitizeMySQLPlan (raw : string) : option string :=
  if 256 * 1024 <? str_len raw then None
  else (fun v => marshal (clean mysqlPlanFields v)) <$> unmarshal raw.

(** A plan and its status. *)
Definition plan_result : Type := option string * string.

Definition ready_or (status : string) (plan : option string) : plan_result :=
  match plan with Some p => (Some p, "ready") | None => (None, status) end.

(** A transaction that only reads: statements that succeed or not, the number of
    parameters of a prepared statement, and a row of text. *)
Record Tx := mk_tx {
  Exec : string -> bool;
  Cardinality : string -> option Z;
  TxQueryRow : string -> option string;
}.

(** A pool: a row of text, and whether it begins transactions (None), fails to or does. *)
Record Pool := mk_pool {
  QueryRow : string -> option string;
  BeginTx : option (option Tx);
}.

Definition plan_name (query : string) : string := str_take 28 ("telvyn_plan_" +:+ sha256_hex query).

(** NULL for each of [n] parameters. *)
Definition nulls (n : Z) : string := join "," (repeat "NULL" (Z.to_nat n)).

Definition explainParameterizedSample (pool : Pool) (query : string) : plan_result :=
  match BeginTx pool with
  | None | Some None => (None, "unavailable")
  | Some (Some tx) =>
      let name := plan_name query in
      if negb (Exec tx "SET LOCAL plan_cache_mode = force_generic_plan") then (None, "unavailable")
      else if negb (Exec tx ("PREPARE " +:+ name +:+ " AS " +:+ query)) then (None, "unavailable")
      else
        match Cardinality tx name with
        | None => (None, "unavailable")
        | Some n =>
            if (n <? 1) || (32 <? n) then (None, "unavailable")
            else
              match TxQueryRow tx ("EXPLAIN (FORMAT JSON) EXECUTE " +:+ name +:+ "(" +:+ nulls n +:+ ")") with
              | None => (None, "unavailable")
              | Some raw => ready_or "invalid" (sanitizeContinuousPlan raw)
              end
        end
  end.

Definition postgres_explainSample (pool : Pool) (query : string) : plan_result :=
  match validateReadOnlyQuery ToLower query with
  | Err _ => (None, "ineligible")
  | Ok _ =>
      if hasQueryParameters query then explainParameterizedSample pool query
      else
        match QueryRow pool ("EXPLAIN (FORMAT JSON) " +:+ query) with
        | None => (None, "unavailable")
        | Some raw => ready_or "invalid" (sanitizeContinuousPlan raw)
        end
  end.

Definition mysql_explainSample (pool : Pool) (query : string) : plan_result :=
  match QueryRow pool ("EXPLAIN FORMAT=JSON " +:+ query) with
  | None => (None, "unavailable")
  | Some raw => ready_or "invalid" (sanitizeMySQLPlan raw)
  end.

(** *** Plans of the other engines, as lists of nodes *)

Definition node : Type := gmap string json.
Definition plan_of (nodes : list node) : string := marshal (JObject {[ "Plan" := JArray (JObject <$> nodes) ]}).

(** A RelOp element of an SQL Server plan, from its attributes; [number] reads a float64
    and gives it back as JSON. *)
Definition relop_node (number : string -> option json) (attrs : list (string * string)) : node :=
  foldl (fun n a =>
      if String.eqb a.1 "PhysicalOp" then <["Node Type" := JString a.2]> n
      else if String.eqb a.1 "LogicalOp" then <["Join Type" := JString a.2]> n
      else if String.eqb a.1 "EstimateRows" then
        match number a.2 with Some v => <["Plan Rows" := v]> n | None => n end
      else if String.eqb a.1 "EstimatedTotalSubtreeCost" then
        match number a.2 with Some v => <["Total Cost" := v]> n | None => n end
      else n) ∅ attrs.

Definition relop_nodes (number : string -> option json) (elements : list (list (string * string))) : list node :=
  take 100 (filter (fun n => n <> ∅) (relop_node number <$> elements)).

(** [relops] are the RelOp elements of a document, None when it is not well formed. *)
Definition sanitizedMSSQLPlan (number : string -> option json) (relops : option (list (list (string * string))))
    : option string :=
  match relops with
  | None => None
  | Some elements => match relop_nodes number elements with [] => None | nodes => Some (plan_of nodes) end
  end.

(** [raw] is what the server answers for a handle, [relops] reads its elements. *)
Definition mssql_cachedPlan (number : string -> option json) (relops : string -> option (list (list (string * string))))
    (handle : string) (raw : option string) : plan_result :=
  if String.eqb handle "" then (None, "unavailable")
  else match raw with
       | None => (None, "unavailable")
       | Some text => if 1048576 <? str_len text then (None, "unavailable")
                      else ready_or "unavailable" (sanitizedMSSQLPlan number (relops text))
       end.

Record oracle_line := mk_oracle_line {
  or_operation : option string;
  or_options : option string;
  or_object : option string;
  or_cost : option json;
  or_cardinality : option json;
}.

Definition put (key : string) (v : option json) (n : node) : node :=
  match v with Some v => <[key := v]> n | None => n end.

Definition oracle_node (l : oracle_line) : node :=
  put "Plan Rows" (or_cardinality l) (put "Total Cost" (or_cost l) (put "Relation Name" (JString <$> or_object l)
    {[ "Node Type" := JString (trim_space (default "" (or_operation l) +:+ " " +:+ default "" (or_options l))) ]})).

(** [lines] are those scanned, one that cannot be None; [rows_err] the error at the end. *)
Definition oracle_cachedPlan (lines : option (list (option oracle_line))) (rows_err : bool) : plan_result :=
  match lines with
  | None => (None, "unavailable")
  | Some ls =>
      match mapM id ls with
      | None => (None, "unavailable")
      | Some ls => if rows_err || bool_decide (ls = []) then (None, "unavailable")
                   else (Some (plan_of (oracle_node <$> ls)), "ready")
      end
  end.

Definition clickhouse_nodes : list string :=
  ["Expression"; "Filter"; "ReadFromStorage"; "Join"; "Aggregating"; "Sorting"; "Limit"; "Union"; "Distinct"; "Window";
   "ReadFromMergeTree"].

(** The known steps among the first words of the lines, up to a hundred. *)
Definition clickhouse_steps (lines : list string) : list node :=
  take 100 (lines ≫= fun line =>
    match fields (trim_space line) with
    | name :: _ => if existsb (String.eqb name) clickhouse_nodes then [{[ "Node Type" := JString name ]} : node] else []
    | [] => []
    end).

Definition clickhouse_explainPlan (answer : option (list string)) : plan_result :=
  match answer with
  | None => (None, "unavailable")
  | Some lines => match clickhouse_steps lines with [] => (None, "unavailable") | ns => (Some (plan_of ns), "ready") end
  end.

(** ** Samples *)

Definition normalizedSampledAt (now : Z) (raw : string) : string :=
  format_time (default now (parse_time (trim_space raw))).

Definition with_plan (p : plan_result) (s : DatabaseQuerySample) : DatabaseQuerySample :=
  mk_sample (SampleID s) (SampleQueryID s) (SampleText s) (SampleUser s) (Application s) (Client s) (State s)
    (WaitType s) (WaitEvent s) (DurationMS s) (SampledAt s) p.1 p.2.

Definition row_sample (index : Z) (now : Z) (r : postgresQuerySampleRow) : DatabaseQuerySample :=
  mk_sample (or_else (limitText (sr_SampleID r) 128) (sr_QueryID r +:+ ":" +:+ itoa index)) (sr_QueryID r)
    (sanitizeQueryText (sr_Query r)) (limitText (sr_User r) 128) (limitText (sr_Application r) 128)
    (limitText (sr_Client r) 128) (limitText (sr_State r) 32) (limitText (sr_WaitType r) 64)
    (limitText (sr_WaitEvent r) 128) (fmax (sr_DurationMS r) (f_of_Z 0)) (normalizedSampledAt now (sr_SampledAt r))
    None "".

Record plan_windows := mk_windows { planRuns : rate_windows; planSamples : rate_windows }.

Definition allowPlanRun (key : string) (now : Z) (w : plan_windows) : bool * plan_windows :=
  let '(ok, runs) := allowPostgresRate key postgresPlanRateLimit now (planRuns w) in
  (ok, mk_windows runs (planSamples w)).

Definition allowPlanSample (query plan : string) (now : Z) (w : plan_windows) : bool * plan_windows :=
  let '(ok, samples) := allowPostgresRate (query +:+ ":" +:+ sha256_hex plan) postgresPlanSampleRateLimit now
                          (planSamples w) in
  (ok, mk_windows (planRuns w) samples).

(** The plan of a statement seen for the first time in a run: the result, whether one was
    asked for, and the windows. *)
Definition new_plan (pool : Pool) (key query : string) (now : Z) (w : plan_windows) : plan_result * bool * plan_windows :=
  match validateReadOnlyQuery ToLower query with
  | Err _ => ((None, "ineligible"), false, w)
  | Ok _ =>
      let '(ok, w) := allowPlanRun key now w in
      if negb ok then ((None, "rate_limited"), false, w)
      else
        let p := postgres_explainSample pool query in
        match p with
        | (plan, "ready") =>
            let '(ok, w) := allowPlanSample key (default "" plan) now w in
            (if ok then p else (None, "rate_limited"), true, w)
        | _ => (p, true, w)
        end
  end.

(** The rows from number [index] on: [n] samples so far, [collected] plans, the texts
    seen.  [now] is the time at each row. *)
Fixpoint postgres_sample_rows (c : settings) (pool : Pool) (now : Z -> Z) (rs : list postgresQuerySampleRow)
    (index n collected : Z) (seen : gset string) (w : plan_windows) : list DatabaseQuerySample * plan_windows :=
  match rs with
  | [] => ([], w)
  | r :: rs =>
      if sampleLimit c <=? n then ([], w)
      else if String.eqb (trim_space (sr_Query r)) ""
      then postgres_sample_rows c pool now rs (index + 1) n collected seen w
      else
        let s := row_sample index (now index) r in
        let emit p collected seen w :=
          let '(out, w) := postgres_sample_rows c pool now rs (index + 1) (n + 1) collected seen w in
          (with_plan p s :: out, w) in
        if negb (continuousPlans c) then emit (None, "disabled") collected seen w
        else if flt (sr_DurationMS r) (minPlanDurationMS c) then emit (None, "below_threshold") collected seen w
        else if planLimit c <=? collected then emit (None, "rate_limited") collected seen w
        else if bool_decide (SampleText s ∈ seen) then emit (None, "rate_limited") collected seen w
        else
          let '(p, asked, w) := new_plan pool (SampleText s) (sr_Query r) (now index) w in
          emit p (if asked then collected + 1 else collected) ({[ SampleText s ]} ∪ seen) w
  end.

Definition postgres_samples (c : settings) (pool : Pool) (now : Z -> Z) (answer : res (list postgresQuerySampleRow))
    (w : plan_windows) : res (option DatabaseQueryStats) * plan_windows :=
  if sampleInterval c <=? 0 then (Ok None, w)
  else
    match answer with
    | Err e => (Err e, w)
    | Ok rs =>
        let '(ss, w) := postgres_sample_rows c pool now rs 0 0 0 ∅ w in
        (Ok (Some (stats_of "" c (window_seconds (sampleInterval c)) [] ss)), w)
    end.

(** *** The other engines *)

(** An observation: its sample, the key of its limit, the statement where it has to be a
    short read, and what explaining it gives. *)
Record observed := mk_observed {
  ob_sample : DatabaseQuerySample;
  ob_key : string;
  ob_query : option string;
  ob_plan : plan_result;
}.

Definition eligible (q : option string) : bool :=
  match q with
  | None => true
  | Some q => (String.length q <=? postgresQueryTextLimit)%nat &&
              (match validateReadOnlyQuery ToLower q with Ok _ => true | Err _ => false end)
  end.

(** The status of one observation; [allow] is the limit of the engine. *)
Definition observe (allow : string -> Z -> seen_set -> bool * seen_set) (c : settings) (now : Z) (o : observed)
    (collected : Z) (runs : seen_set) : DatabaseQuerySample * Z * seen_set :=
  let s := ob_sample o in
  if negb (continuousPlans c) then (with_plan (None, "disabled") s, collected, runs)
  else if flt (DurationMS s) (minPlanDurationMS c) then (with_plan (None, "below_threshold") s, collected, runs)
  else if negb (eligible (ob_query o)) then (with_plan (None, "ineligible") s, collected, runs)
  else if planLimit c <=? collected then (with_plan (None, "rate_limited") s, collected, runs)
  else
    let '(ok, runs) := allow (ob_key o) now runs in
    if negb ok then (with_plan (None, "rate_limited") s, collected, runs)
    else (with_plan (ob_plan o) s, collected + 1, runs).

(** Rows as they are scanned, or None where that fails; an observation has its time. *)
Fixpoint observe_rows (allow : string -> Z -> seen_set -> bool * seen_set) (c : settings) (now : Z -> Z)
    (rs : list (option (Z -> observed))) (index collected : Z) (out : list DatabaseQuerySample) (runs : seen_set)
    : res (list DatabaseQuerySample) * seen_set :=
  match rs with
  | [] => (Ok out, runs)
  | None :: _ => (Err "scan", runs)
  | Some o :: rs =>
      let '(s, collected, runs) := observe allow c (now index) (o (now index)) collected runs in
      observe_rows allow c now rs (index + 1) collected (out ++ [s]) runs
  end.

Definition on_rows {A B} (f : list A -> list B) (answer : res (list A)) : res (list B) :=
  match answer with Ok rs => Ok (f rs) | Err e => Err e end.

Definition engine_samples (engine : string) (allow : string -> Z -> seen_set -> bool * seen_set) (c : settings)
    (now : Z -> Z) (answer : res (list (option (Z -> observed)))) (rows_err : bool) (runs : seen_set)
    : res DatabaseQueryStats * seen_set :=
  match answer with
  | Err e => (Err e, runs)
  | Ok rs =>
      match observe_rows allow c now rs 0 0 [] runs with
      | (Err e, runs) => (Err e, runs)
      | (Ok ss, runs) => (if rows_err then Err "rows" else Ok (stats_of engine c 1 [] ss), runs)
      end
  end.

Record mysql_sample_row := mk_mysql_sample {
  my_thread : Z; my_event : Z; my_digest : string; my_text : string; my_raw : string;
  my_user : string; my_client : string; my_state : string; my_timer : f64;
}.

Definition mysql_observed (pool : Pool) (r : mysql_sample_row) (now : Z) : observed :=
  mk_observed
    (mk_sample (itoa (my_thread r) +:+ ":" +:+ itoa (my_event r)) (my_digest r) (sanitizeQueryText (my_text r))
       (my_user r) "" (my_client r) (my_state r) "" "" (fdiv (my_timer r) f_1e9) (format_time now) None "")
    (my_digest r) (Some (my_raw r)) (mysql_explainSample pool (my_raw r)).

(** Rows with no digest are left out. *)
Definition mysql_samples (c : settings) (pool : Pool) (now : Z -> Z) (answer : res (list (option mysql_sample_row)))
    (rows_err : bool) (runs : seen_set) : res DatabaseQueryStats * seen_set :=
  engine_samples "mysql" mysql_allowPlan c now
    (on_rows (fun rs => map (option_map (mysql_observed pool)) (filter (fun r => from_option my_digest "scan" r <> "") rs))
       answer) rows_err runs.

Record mssql_sample_row := mk_mssql_sample {
  ms_session : Z; ms_request : Z; ms_hash : string; ms_text : string; ms_user : string; ms_application : string;
  ms_client : string; ms_state : string; ms_wait : string; ms_duration : Z; ms_handle : string; ms_plan : option string;
}.

Definition mssql_observed (number : string -> option json) (relops : string -> option (list (list (string * string))))
    (r : mssql_sample_row) (now : Z) : observed :=
  mk_observed
    (mk_sample (itoa (ms_session r) +:+ ":" +:+ itoa (ms_request r) +:+ ":" +:+ itoa now) (ms_hash r)
       (sanitizeQueryText (ms_text r)) (ms_user r) (ms_application r) (ms_client r) (ms_state r) (ms_wait r) ""
       (f_of_Z (ms_duration r)) (format_time now) None "")
    (ms_hash r) None (mssql_cachedPlan number relops (ms_handle r) (ms_plan r)).

Definition mssql_samples (c : settings) (number : string -> option json)
    (relops : string -> option (list (list (string * string)))) (now : Z -> Z)
    (answer : res (list (option mssql_sample_row))) (rows_err : bool) (runs : seen_set)
    : res DatabaseQueryStats * seen_set :=
  engine_samples "mssql" mssql_allowPlan c now
    (on_rows (map (option_map (mssql_observed number relops))) answer) rows_err runs.

Record oracle_sample_row := mk_oracle_sample {
  oc_sid : Z; oc_id : string; oc_text : string; oc_user : string; oc_application : string; oc_client : string;
  oc_state : string; oc_event : string; oc_seconds : Z; oc_plan : option (list (option oracle_line)); oc_plan_err : bool;
}.

Definition oracle_observed (r : oracle_sample_row) (now : Z) : observed :=
  mk_observed
    (mk_sample (itoa (oc_sid r) +:+ ":" +:+ itoa now) (oc_id r) (sanitizeQueryText (oc_text r)) (oc_user r)
       (oc_application r) (oc_client r) (oc_state r) "" (oc_event r) (fmul (f_of_Z (oc_seconds r)) f_1000)
       (format_time now) None "")
    (oc_id r) None (oracle_cachedPlan (oc_plan r) (oc_plan_err r)).

Definition oracle_samples (c : settings) (now : Z -> Z) (answer : res (list (option oracle_sample_row)))
    (rows_err : bool) (runs : seen_set) : res DatabaseQueryStats * seen_set :=
  engine_samples "oracle" oracle_allowPlan c now
    (on_rows (map (option_map oracle_observed)) answer) rows_err runs.

(** [explained] is what the server answers to EXPLAIN PLAN of a statement. *)
Definition clickhouse_observed (explained : string -> option (list string)) (r : log_row) (_ : Z) : observed :=
  let micros := atoi_value (ch_observed_us r) in
  mk_observed
    (mk_sample (ch_query_id r) (ch_query_hash r) (sanitizeQueryText (ch_text r)) (ch_user r) (ch_client_name r)
       (ch_address r) "finished" "" "" (default (f_of_Z 0) (ch_duration r)) (format_time (micros * 1000)) None "")
    (ch_query_hash r) (Some (ch_raw_query r))
    (clickhouse_explainPlan (explained (trim_suffix ";" (trim_space (ch_raw_query r))))).

Definition clickhouse_samples (c : settings) (explained : string -> option (list string)) (now : Z -> Z)
    (answer : res (list log_row)) (seen runs : seen_set) : res DatabaseQueryStats * seen_set * seen_set :=
  match answer with
  | Err e => (Err e, seen, runs)
  | Ok rs =>
      let '(rs, seen) := fresh (Some (sampleLimit c)) (now 0) rs seen in
      let '(r, runs) := engine_samples "clickhouse" clickhouse_allowPlan c now
                          (Ok (map (fun r => Some (clickhouse_observed explained r)) rs)) false runs in
      (r, seen, runs)
  end.

(** *** MongoDB *)

(** A session of the diagnostics. *)
Record session := mk_session {
  se_Identity : string; se_Application : string; se_Client : string; se_State : string; se_DurationSeconds : f64;
}.

Definition session_sample (now : string) (s : session) : DatabaseQuerySample :=
  mk_sample (se_Identity s +:+ ":" +:+ now) (se_Identity s) "operação ativa" "" (se_Application s) (se_Client s)
    (se_State s) "" "" (fmul (se_DurationSeconds s) f_1000) now None "unsupported".

(** The plan of a profile entry is the first word of its summary. *)
Definition profile_sample (now : Z) (ts : option Z) (r : profile_row) (label : string) : DatabaseQuerySample :=
  let plan := match fields (mg_planSummary r) with
              | w :: _ => (Some (marshal (JObject {[ "Plan" := JObject {[ "Node Type" := JString (limitText w 64) ]} ]})),
                           "ready")
              | [] => (None, "unavailable")
              end in
  mk_sample (mg_id r) (label_key sha256_hex label) label "" "" "" "finished" "" ""
    (default (f_of_Z 0) (mg_millis r)) (format_time (default now ts)) plan.1 plan.2.

(** Entries of the profiler with their times; a row that cannot be decoded ends them. *)
Fixpoint profile_rows (now : Z) (rs : list (option (profile_row * option Z))) (seen : seen_set)
    : list DatabaseQuerySample * seen_set :=
  match rs with
  | [] | None :: _ => ([], seen)
  | Some (r, ts) :: rs =>
      let label := mongoProfileLabel r in
      if bool_decide (is_Some (seen !! mg_id r)) || String.eqb label "" then profile_rows now rs seen
      else
        let '(out, seen) := profile_rows now rs (<[mg_id r := now]> seen) in
        (profile_sample now ts r label :: out, seen)
  end.

(** [profile] is None when there is no profiler or it does not answer. *)
Definition mongo_samples (engine : string) (c : settings) (now : Z) (sessions : res (list session))
    (profile : option (list (option (profile_row * option Z)))) (seen : seen_set) : res DatabaseQueryStats * seen_set :=
  match sessions with
  | Err e => (Err e, seen)
  | Ok ss =>
      let active := session_sample (format_time now) <$> filter (fun s => se_State s = "active") ss in
      let '(more, seen) :=
        match profile with
        | Some rs => if String.eqb engine "mongodb" then profile_rows now rs (forget minute now seen) else ([], seen)
        | None => ([], seen)
        end in
      (Ok (stats_of engine c 15 [] (active ++ more)), seen)
  end.
End plans.
End QueryStats.
