(* ===== verification/QueryStatsProps.v ===== *)
(** * What the statistics and samples of database queries promise

    Each call of a statement after the first reading is reported once; the plans that are
    sent have only the fields that are allowed; the requests for plans are limited. *)

From S2P Require Import Prelude GoStrings Wire GoFloat Processing SqlText RateWindow QueryStats.
#[local] Open Scope Z_scope.

Module QueryStatsProps.
Import SqlText QueryStats.
Import Processing(json, JNull, JBool, JNumber, JString, JArray, JObject).

(** ** Calls *)

(** What a counter gained over its readings, in order: a reading below the one before is
    that of a counter that started again. *)
Fixpoint gained (l : list Z) : Z :=
  match l with
  | x :: (y :: _) as tl => (if y <? x then y else y - x) + gained tl
  | _ => 0
  end.

(** Readings that continue after [last]. *)
Definition gained_from (last : option Z) (l : list Z) : Z :=
  match last with Some x => gained (x :: l) | None => gained l end.

Lemma gained_cons last y l :
  gained_from last (y :: l) =
  (match last with Some x => if y <? x then y else y - x | None => 0 end) + gained_from (Some y) l.
Proof. destruct last; [done|]. cbn. lia. Qed.

Lemma gained_sorted x l : Sorted Z.le (x :: l) -> gained (x :: l) = List.last (x :: l) 0 - x.
Proof.
  revert x. induction l as [|y l IH]; intros x H; [cbn; lia|].
  apply Sorted_inv in H as [H Hd]. apply HdRel_inv in Hd. specialize (IH y H).
  change (gained (x :: y :: l)) with ((if y <? x then y else y - x) + gained (y :: l)).
  replace (y <? x) with false by lia. rewrite IH. cbn [List.last]. lia.
Qed.

(** The rows that count, and the key under which a statistic is reported. *)
Definition counted (r : postgresQueryStatRow) : bool := negb (String.eqb (row_QueryID r) "" || (row_Calls r <=? 0)).
Definition stat_key (q : DatabaseQueryStat) : string := QueryID q +:+ nul +:+ User q.

Definition plain_row (r : postgresQueryStatRow) : Prop :=
  limitText (row_User r) 128 = row_User r /\ row_Calls r < 2 ^ 63.

(** The counters of a key in some rows, in order; the calls reported for it. *)
Definition row_readings (k : string) (rs : list postgresQueryStatRow) : list Z :=
  row_Calls <$> filter (fun r => counted r = true /\ row_key r = k) rs.
Definition reported (k : string) (qs : list DatabaseQueryStat) : Z :=
  sumZ (fun q => if String.eqb (stat_key q) k then Calls q else 0) qs.

Definition last_calls (k : string) (prev : readings) : option Z := calls <$> prev !! k.

Lemma reported_app k qs qs' : reported k (qs ++ qs') = reported k qs + reported k qs'.
Proof. apply sumZ_app. Qed.

Lemma reported_some k q : reported k (option_list (Some q)) = if String.eqb (stat_key q) k then Calls q else 0.
Proof. unfold reported, sumZ. cbn. lia. Qed.

(** One row: what it adds for [k] is what the counter of [k] gained. *)
Lemma read_row_step k r out prev :
  plain_row r ->
  (forall x, last_calls k prev = Some x -> 0 < x < 2 ^ 63) ->
  let '(out', prev') := read_row r (out, prev) in
  (forall x, last_calls k prev' = Some x -> 0 < x < 2 ^ 63) /\
  forall more,
    reported k out' + gained_from (last_calls k prev') more
    = reported k out + gained_from (last_calls k prev) (row_readings k [r] ++ more).
Proof.
  intros [Hu Hc] Hlast. unfold readings, read_row, row_readings in *.
  assert (counted r = negb (String.eqb (row_QueryID r) "" || (row_Calls r <=? 0))) as Hcnt by done.
  destruct (String.eqb (row_QueryID r) "" || (row_Calls r <=? 0)) eqn:Ev; cbn [negb] in Hcnt.
  { split; [done|]. intros more. rewrite filter_cons_False; [done|]. intros [? _]. congruence. }
  apply orb_false_elim in Ev as [_ Ec].
  destruct (decide (row_key r = k)) as [Ek|Ek].
  - rewrite filter_cons_True, filter_nil by done. cbn [fmap list_fmap app]. unfold take_reading, readings. rewrite Ek.
    unfold last_calls, readings in *. destruct (prev !! k) as [p|] eqn:Ep.
    + specialize (Hlast (calls p) eq_refl). cbn [fmap option_fmap option_map] in *. cbn [calls].
      unfold counterDelta. rewrite i64_small by (unfold in_i64; lia).
      destruct ((if row_Calls r <? calls p then row_Calls r else row_Calls r - calls p) <=? 0) eqn:Ez;
        (split; [intros x; rewrite (lookup_insert_eq (M := gmap string)); cbn; intros [= <-]; lia|]);
        intros more; rewrite (lookup_insert_eq (M := gmap string)); cbn [fmap option_fmap option_map calls].
      * change (option_list None) with (@nil DatabaseQueryStat). rewrite app_nil_r, (gained_cons (Some (calls p))). destruct (row_Calls r <? calls p) eqn:Eb in Ez |- *; lia.
      * rewrite reported_app, (gained_cons (Some (calls p))). rewrite reported_some.
        unfold stat_key. cbn [QueryID User Calls]. rewrite Hu. fold (row_key r). rewrite Ek, String.eqb_refl. lia.
    + split; [intros x; rewrite (lookup_insert_eq (M := gmap string)); cbn; intros [= <-]; lia|].
      intros more. rewrite (lookup_insert_eq (M := gmap string)). cbn [fmap option_fmap option_map calls].
      change (option_list None) with (@nil DatabaseQueryStat). rewrite app_nil_r, (gained_cons None). lia.
  - rewrite filter_cons_False, filter_nil by (intros [_ ?]; done). cbn [fmap list_fmap app].
    unfold take_reading, last_calls, readings in *.
    assert (forall c, (<[row_key r := c]> prev) !! k = prev !! k) as El by (intros; by rewrite (lookup_insert_ne (M := gmap string))).
    destruct (prev !! row_key r) as [p|]; [destruct (counterDelta _ _ <=? 0)|];
      (split; [by rewrite El|]); intros more; rewrite El; rewrite ?app_nil_r; try done.
    rewrite reported_app, reported_some. unfold stat_key. cbn [QueryID User Calls].
    rewrite Hu. fold (row_key r). apply String.eqb_neq in Ek. rewrite Ek. lia.
Qed.

Definition live (k : string) (prev : readings) : Prop := forall x, last_calls k prev = Some x -> 0 < x < 2 ^ 63.

Lemma row_readings_cons k r rs : row_readings k (r :: rs) = row_readings k [r] ++ row_readings k rs.
Proof. unfold row_readings. change (r :: rs) with ([r] ++ rs). rewrite filter_app, fmap_app. done. Qed.

Lemma read_rows_step k rs out prev :
  Forall plain_row rs -> live k prev ->
  let '(out', prev') := foldl (fun st r => read_row r st) (out, prev) rs in
  live k prev' /\
  forall more,
    reported k out' + gained_from (last_calls k prev') more
    = reported k out + gained_from (last_calls k prev) (row_readings k rs ++ more).
Proof.
  revert out prev. induction rs as [|r rs IH]; intros out prev Hf Hl; [done|].
  apply Forall_cons in Hf as [Hr Hf]. cbn [foldl].
  pose proof (read_row_step k r out prev Hr Hl) as H. destruct (read_row r (out, prev)) as [out1 prev1].
  destruct H as [Hl1 H]. specialize (IH out1 prev1 Hf Hl1).
  destruct (foldl _ _ rs) as [out' prev']. destruct IH as [Hl' IH]. split; [done|].
  intros more. rewrite IH, H, (row_readings_cons k r rs), <- app_assoc. done.
Qed.

(** What a poll meets: the answer, and whether the context is over when it comes. *)
Definition poll : Type := res (list postgresQueryStatRow) * bool.
Definition poll_rows (p : poll) : list postgresQueryStatRow :=
  match p with (Ok rs, false) => rs | _ => [] end.

(** Polls one after another: all the statistics they report, and the readings. *)
Fixpoint run (c : settings) (ps : list poll) (prev : readings) : list DatabaseQueryStat * readings :=
  match ps with
  | [] => ([], prev)
  | p :: ps =>
      let '(r, prev) := postgres_stats c p.1 p.2 prev in
      let '(out, prev) := run c ps prev in
      ((match r with Ok s => Queries s | Err _ => [] end) ++ out, prev)
  end.

Lemma run_reports k c ps prev :
  Forall plain_row (ps ≫= poll_rows) -> live k prev ->
  reported k (run c ps prev).1 = gained_from (last_calls k prev) (row_readings k (ps ≫= poll_rows)).
Proof.
  revert prev. induction ps as [|[answer cancelled] ps IH]; intros prev Hf Hl.
  { cbn. destruct (last_calls k prev); done. }
  cbn [run mbind list_bind] in *. apply Forall_app in Hf as [Hp Hf].
  unfold postgres_stats. cbn [fst snd]. destruct answer as [rs|e]; [destruct cancelled|].
  - destruct (run c ps prev) as [out prev'] eqn:Er. specialize (IH prev Hf Hl). rewrite Er in IH. exact IH.
  - pose proof (read_rows_step k rs [] prev Hp Hl) as H.
    destruct (foldl _ _ rs) as [qs prev1]. destruct H as [Hl1 H].
    specialize (IH prev1 Hf Hl1). destruct (run c ps prev1) as [out prev'].
    cbn [Queries stats_of fst poll_rows] in *. rewrite reported_app, IH, H.
    unfold row_readings. rewrite filter_app, fmap_app. done.
  - destruct (run c ps prev) as [out prev'] eqn:Er. specialize (IH prev Hf Hl). rewrite Er in IH. exact IH.
Qed.

(** Over any sequence of PostgreSQL polls, failed and cancelled ones among them, the
    calls reported for a statement of a user add up to exactly what its counter gained from
    its first reading on: a poll that fails loses nothing, and no call is reported twice.
    While the server does not start the counter again that is the last reading less the
    first. *)
Theorem calls_counted_once k c ps :
  Forall plain_row (ps ≫= poll_rows) ->
  let readings := row_readings k (ps ≫= poll_rows) in
  reported k (run c ps ∅).1 = gained readings /\
  (Sorted Z.le readings -> reported k (run c ps ∅).1 = List.last readings 0 - hd 0 readings).
Proof.
  intros Hf readings. subst readings.
  assert (reported k (run c ps ∅).1 = gained (row_readings k (ps ≫= poll_rows))) as E.
  { rewrite (run_reports k c ps ∅ Hf); [done|]. intros x Hx. done. }
  split; [exact E|]. intros Hs. rewrite E. destruct (row_readings k _) as [|x l]; [done|]. by apply gained_sorted.
Qed.

Definition sample_settings : settings :=
  mk_settings "inst" "db" "srv" "name" (60 * second) (15 * second) 100 20 true 2 (f_of_Z 0).
Definition sample_row (id : string) (n : Z) : postgresQueryStatRow := mk_row id "app" "select 1" n (f_of_Z n) n.
Definition sample_polls : list poll :=
  [(Ok [sample_row "7" 10; sample_row "8" 3], false); (Err "timeout", false); (Ok [sample_row "7" 25], true);
   (Ok [sample_row "8" 4; sample_row "7" 40], false); (Ok [sample_row "7" 45], false)].

Lemma calls_counted_once_witness :
  Forall plain_row (sample_polls ≫= poll_rows) /\
  (let k := "7" +:+ nul +:+ "app" in
   let readings := row_readings k (sample_polls ≫= poll_rows) in
   reported k (run sample_settings sample_polls ∅).1 = gained readings /\
   (Sorted Z.le readings ->
    reported k (run sample_settings sample_polls ∅).1 = List.last readings 0 - hd 0 readings)).
Proof.
  assert (Forall plain_row (sample_polls ≫= poll_rows)) as H by (repeat constructor).
  split; [exact H|]. apply (calls_counted_once ("7" +:+ nul +:+ "app") sample_settings sample_polls H).
Defined.
Example sample_calls : reported ("7" +:+ nul +:+ "app") (run sample_settings sample_polls ∅).1 = 35.
Proof. vm_compute. reflexivity. Qed.

(** Two rows of one statement and user, as for calls at top level and in functions, take
    the place of each other: with counters that do not move, calls are reported at every
    poll. *)
Example repeated_rows_count_again :
  let p : poll := (Ok [sample_row "7" 100; sample_row "7" 5], false) in
  (fun n => reported ("7" +:+ nul +:+ "app") (run sample_settings (repeat p n) ∅).1) <$> [1; 2; 3]%nat
  = [5; 105; 205].
Proof. vm_compute. reflexivity. Qed.

(** A row that cannot be scanned fails the poll, but the rows before it have been counted:
    the 90 calls of the statement are never reported. *)
Example failed_scan_loses_calls :
  let row n := Some (mk_digest "d" "select 1" n (f_of_Z 0) 0) in
  let poll rs prev := mysql_stats sample_settings (Ok rs) false prev in
  let '(r1, p1) := poll [row 10] ∅ in
  let '(r2, p2) := poll [row 100; None] p1 in
  let '(r3, _) := poll [row 100] p2 in
  (fun r => match r with Ok s => Some (map Calls (Queries s)) | Err _ => None end) <$> [r1; r2; r3]
  = [Some []; None; Some []].
Proof. vm_compute. reflexivity. Qed.

(** SQL Server keeps a row for each plan of a statement, and forgets plans: when the sum of
    the rows falls, what is left is taken for calls of a counter that started again. *)
Example forgotten_plan_counts_again :
  let row n := Some (mk_part "h" "select 1" n 0 0) in
  let poll rs prev := mssql_stats sample_settings map_to_list (Ok rs) false prev in
  let '(_, p1) := poll [row 60; row 50] ∅ in
  let '(r2, _) := poll [row 50] p1 in
  match r2 with Ok s => Some (map Calls (Queries s)) | Err _ => None end = Some [50].
Proof. vm_compute. reflexivity. Qed.

(** ** Fields of plans *)

(** Every key of every object in the value is allowed. *)
Inductive allowed_within (allowed : list string) : json -> Prop :=
| Allowed_array l : (forall v, v ∈ l -> allowed_within allowed v) -> allowed_within allowed (JArray l)
| Allowed_object m :
    (forall k v, m !! k = Some v -> k ∈ allowed) -> (forall k v, m !! k = Some v -> allowed_within allowed v) ->
    allowed_within allowed (JObject m)
| Allowed_scalar v : (forall l, v <> JArray l) -> (forall m, v <> JObject m) -> allowed_within allowed v.

Fixpoint depth (v : json) : nat :=
  match v with
  | JArray l => S (foldr (fun v n => Nat.max (depth v) n) 0%nat l)
  | JObject m => S (map_fold (fun _ v n => Nat.max (depth v) n) 0%nat m)
  | _ => 0
  end.

Lemma depth_array v l : v ∈ l -> (depth v < depth (JArray l))%nat.
Proof.
  cbn [depth]. intros H. apply Nat.lt_succ_r. revert v H. induction l as [|x l IH]; intros v H; [by apply elem_of_nil in H|].
  cbn. apply elem_of_cons in H as [->|H]; [lia|]. specialize (IH v H). lia.
Qed.
Lemma depth_object k v m : m !! k = Some v -> (depth v < depth (JObject m))%nat.
Proof.
  cbn [depth]. intros H. apply Nat.lt_succ_r. revert k v H.
  apply (map_fold_weak_ind (fun n m => forall k v, m !! k = Some v -> (depth v <= n)%nat)); [intros k v H; done|].
  intros i x m' n _ IH k v H. apply lookup_insert_Some in H as [[_ <-]|[_ H]]; [lia|]. specialize (IH k v H). lia.
Qed.

Lemma json_depth_ind (P : json -> Prop) :
  (forall l, (forall v, v ∈ l -> P v) -> P (JArray l)) ->
  (forall m, (forall k v, m !! k = Some v -> P v) -> P (JObject m)) ->
  (forall v, (forall l, v <> JArray l) -> (forall m, v <> JObject m) -> P v) ->
  forall v, P v.
Proof.
  intros Ha Ho Hs v. induction v as [v IH] using (induction_ltof1 _ depth). unfold ltof in IH.
  destruct v; try (by apply Hs).
  - apply Ha. intros v Hv. apply IH. by apply depth_array.
  - apply Ho. intros k v Hv. apply IH. by eapply depth_object.
Qed.

Lemma clean_within allowed v : allowed_within allowed (clean allowed v).
Proof.
  induction v as [l IH|m IH|v Ha Ho] using json_depth_ind; cbn [clean].
  - constructor. intros w Hw. apply list_elem_of_fmap in Hw as (v & -> & Hv). by apply IH.
  - constructor; intros k w Hw; apply map_lookup_filter_Some in Hw as [Hw Hk]; [exact Hk|].
    apply lookup_fmap_Some in Hw as (v & <- & Hv). by eapply IH.
  - destruct v; try (by constructor); [by destruct (Ha l)|by destruct (Ho m)].
Qed.

Lemma clean_id allowed v : allowed_within allowed v -> clean allowed v = v.
Proof.
  induction v as [l IH|m IH|v Ha Ho] using json_depth_ind; intros H; cbn [clean].
  - inversion H as [l' Hl| |v Hn _]; subst; [|by destruct (Hn l)]. f_equal.
    rewrite <- (list_fmap_id l) at 2. apply list_fmap_ext. intros i v Hv.
    apply list_elem_of_lookup_2 in Hv. by apply IH, Hl.
  - inversion H as [|m' Hk Hm|v _ Hn]; subst; [|by destruct (Hn m)]. f_equal.
    assert (clean allowed <$> m = m) as E.
    { apply map_eq. intros k. rewrite lookup_fmap. destruct (m !! k) as [v|] eqn:Ev; [|done]. cbn. f_equal.
      eapply IH; [done|]. by eapply Hm. }
    rewrite E. apply map_filter_id. intros k v Hv. by eapply Hk.
  - destruct v; try done; [by destruct (Ha l)|by destruct (Ho m)].
Qed.

(** ** Plans of a run *)

Section plans.
Variable unmarshal : string -> option json.
Variable marshal : json -> string.
Variable sha256_hex : string -> string.
Variable ToLower : string -> string.
Variable parse_time : string -> option Z.
Variable format_time : Z -> string.
Abbreviation explain := (postgres_explainSample unmarshal marshal sha256_hex ToLower).
Abbreviation plan := (new_plan unmarshal marshal sha256_hex ToLower).
Abbreviation samples := (postgres_samples unmarshal marshal sha256_hex ToLower parse_time format_time).
Abbreviation sample_rows := (postgres_sample_rows unmarshal marshal sha256_hex ToLower parse_time format_time).

(** A plan comes with the status of one, and has only allowed fields. *)
Definition plan_ok (p : plan_result) : Prop :=
  match p.1 with
  | Some text => p.2 = "ready" /\ exists v, text = marshal v /\ allowed_within allowedPlanKeys v
  | None => p.2 <> "ready"
  end.
Definition sample_ok (s : DatabaseQuerySample) : Prop := plan_ok (PlanJSON s, PlanStatus s).
Definition ready (s : DatabaseQuerySample) : bool := String.eqb (PlanStatus s) "ready".
Definition readies (l : list DatabaseQuerySample) : Z := sumZ (fun s => if ready s then 1 else 0) l.

Lemma ready_or_ok status raw :
  status <> "ready" -> plan_ok (ready_or status (sanitizeContinuousPlan unmarshal marshal raw)).
Proof.
  intros Hs. unfold sanitizeContinuousPlan. destruct (unmarshal raw) as [v|]; cbn; [|done].
  split; [done|]. eexists. split; [done|]. apply clean_within.
Qed.

Lemma explain_ok pool q : plan_ok (explain pool q).
Proof.
  unfold postgres_explainSample, explainParameterizedSample.
  repeat case_match; try done; by apply ready_or_ok.
Qed.

Lemma new_plan_ok pool key q now w :
  let '(p, asked, _) := plan pool key q now w in plan_ok p /\ (asked = false -> p.2 <> "ready").
Proof.
  unfold new_plan. destruct (validateReadOnlyQuery ToLower q); [|done].
  destruct (allowPlanRun key now w) as [[] w1]; cbn [negb]; [|done].
  pose proof (explain_ok pool q) as Hp. destruct (explain pool q) as [t s].
  repeat case_match; simplify_eq; done.
Qed.

Lemma with_plan_ok p s : plan_ok p -> sample_ok (with_plan p s).
Proof. by destruct p. Qed.

(** What rows from some point on add. *)
Definition rows_ok (c : settings) (n collected : Z) (out : list DatabaseQuerySample) : Prop :=
  Forall sample_ok out /\ Z.of_nat (length out) <= Z.max 0 (sampleLimit c - n) /\
  readies out <= Z.max 0 (if continuousPlans c then planLimit c - collected else 0).

Lemma rows_ok_cons c n collected p asked s out :
  n < sampleLimit c -> plan_ok p -> (p.2 = "ready" -> asked = true /\ continuousPlans c = true /\ collected < planLimit c) ->
  rows_ok c (n + 1) (if asked then collected + 1 else collected) out ->
  rows_ok c n collected (with_plan p s :: out).
Proof.
  intros Hn Hp Hr (Hf & Hl & Hc). split; [|split].
  - constructor; [by apply with_plan_ok|done].
  - cbn [length]. lia.
  - change (readies (with_plan p s :: out)) with ((if ready (with_plan p s) then 1 else 0) + readies out).
    unfold ready. cbn [PlanStatus with_plan]. destruct (String.eqb_spec p.2 "ready") as [E|E].
    + destruct (Hr E) as (-> & Hcont & Hlt). rewrite Hcont in *. lia.
    + destruct asked; [|lia]. destruct (continuousPlans c); lia.
Qed.

Lemma sample_rows_ok c pool now rs index n collected seen w :
  rows_ok c n collected (sample_rows c pool now rs index n collected seen w).1.
Proof.
  assert (forall n collected, rows_ok c n collected []) as Hnil.
  { intros. split; [constructor|]. unfold readies. cbn. lia. }
  revert index n collected seen w. induction rs as [|r rs IH]; intros; [apply Hnil|].
  cbn [postgres_sample_rows]. destruct (Z.leb_spec (sampleLimit c) n) as [|Hn]; [apply Hnil|].
  destruct (String.eqb _ _); [apply IH|].
  assert (forall status s, status <> "ready" -> rows_ok c n collected
    (let '(out, w) := sample_rows c pool now rs (index + 1) (n + 1) collected seen w in
     (with_plan (None, status) s :: out, w)).1) as Hnone.
  { intros status s Hs. specialize (IH (index + 1) (n + 1) collected seen w).
    destruct (sample_rows _ _ _ _ _ _ _ _ _). by apply (rows_ok_cons c n collected (None, status) false). }
  destruct (continuousPlans c) eqn:Hcont; cbn [negb]; [|by apply Hnone].
  destruct (flt _ _); [by apply Hnone|].
  destruct (Z.leb_spec (planLimit c) collected) as [|Hc]; [by apply Hnone|].
  destruct (bool_decide _); [by apply Hnone|].
  pose proof (new_plan_ok pool (SampleText (row_sample parse_time format_time index (now index) r)) (sr_Query r)
    (now index) w) as Hp.
  destruct (plan _ _ _ _ _) as [[p asked] w1]. destruct Hp as [Hp Ha].
  match goal with |- context [sample_rows c pool now rs ?i ?m ?k ?g ?v] => specialize (IH i m k g v) end.
  destruct (sample_rows _ _ _ _ _ _ _ _ _). eapply rows_ok_cons; [done|done| |exact IH].
  intros E. destruct asked; [done|]. by destruct (Ha eq_refl).
Qed.

(** C39: the samples of a run of PostgreSQL: a plan is there exactly when its status says so,
    and no object in it, however deep, has a field that is not one of those allowed; there
    are at most as many samples as the limit, and at most as many plans, none when they are
    not enabled. *)
Theorem sampled_plans_cleaned c pool now answer w st w' :
  samples c pool now answer w = (Ok (Some st), w') ->
  Forall (fun s => match PlanJSON s with
                   | Some text => PlanStatus s = "ready" /\
                                  exists v, text = marshal v /\ allowed_within allowedPlanKeys v
                   | None => PlanStatus s <> "ready"
                   end) (Samples st) /\
  Z.of_nat (length (Samples st)) <= Z.max 0 (sampleLimit c) /\
  readies (Samples st) <= Z.max 0 (if continuousPlans c then planLimit c else 0).
Proof.
  unfold postgres_samples. destruct (sampleInterval c <=? 0); [done|]. destruct answer as [rs|]; [|done].
  pose proof (sample_rows_ok c pool now rs 0 0 0 ∅ w) as (Hf & Hl & Hr).
  destruct (sample_rows _ _ _ _ _ _ _ _ _) as [ss w1]. cbn [fst] in *. intros [= <- <-]. cbn [Samples stats_of].
  rewrite Z.sub_0_r in Hl. split; [exact Hf|]. split; [exact Hl|]. destruct (continuousPlans c); lia.
Qed.
End plans.

(** A plan of two levels, of which the conditions are not allowed. *)
Definition example_plan : json :=
  JArray [JObject {[ "Plan" := JObject (list_to_map [
    ("Node Type", JString "Hash Join"); ("Hash Cond", JString "(a.card = '4111')");
    ("Plans", JArray [JObject (list_to_map [("Node Type", JString "Seq Scan"); ("Filter", JString "x = 'y'")])])]) ]}].
Fixpoint show (v : json) : string :=
  match v with
  | JNull => "null"
  | JBool b => if b then "true" else "false"
  | JNumber t => t
  | JString t => t
  | JArray l => "[" +:+ foldr (fun v s => show v +:+ "," +:+ s) "]" l
  | JObject m => "{" +:+ map_fold (fun k v s => k +:+ ":" +:+ show v +:+ ";" +:+ s) "}" m
  end.
Definition example_pool : Pool :=
  mk_pool (fun q => if String.eqb q "EXPLAIN (FORMAT JSON) select * from a" then Some "plan" else None) None.
Definition example_rows : list postgresQuerySampleRow :=
  (fun q => mk_sample_row "" "1" q "u" "" "" "active" "" "" (f_of_Z 5) "") <$>
  ["select * from a"; "delete from a"; " "; "select * from a"].

Definition example_run : res (option DatabaseQueryStats) * plan_windows :=
  postgres_samples (fun _ => Some example_plan) show id id (fun _ => None) (fun _ => "now")
    sample_settings example_pool (fun _ => 0) (Ok example_rows) (mk_windows ∅ ∅).
Definition example_stats : DatabaseQueryStats :=
  match example_run.1 with Ok (Some st) => st | _ => stats_of "" sample_settings 0 [] [] end.

Lemma sampled_plans_cleaned_witness :
  example_run = (Ok (Some example_stats), example_run.2) /\
  map (fun s => (PlanJSON s, PlanStatus s)) (Samples example_stats)
  = [(Some "[{Plan:{Node Type:Hash Join;Plans:[{Node Type:Seq Scan;},];};},]", "ready"); (None, "ineligible");
     (None, "rate_limited")] /\
  (Forall (fun s => match PlanJSON s with
                    | Some text => PlanStatus s = "ready" /\
                                   exists v, text = show v /\ allowed_within allowedPlanKeys v
                    | None => PlanStatus s <> "ready"
                    end) (Samples example_stats) /\
   Z.of_nat (length (Samples example_stats)) <= Z.max 0 (sampleLimit sample_settings) /\
   readies (Samples example_stats) <= Z.max 0 (if continuousPlans sample_settings then planLimit sample_settings else 0)).
Proof.
  assert (example_run = (Ok (Some example_stats), example_run.2)) as H by (vm_compute; reflexivity).
  split; [exact H|]. split; [vm_compute; reflexivity|].
  apply (sampled_plans_cleaned (fun _ => Some example_plan) show id id (fun _ => None) (fun _ => "now")
    sample_settings example_pool (fun _ => 0) (Ok example_rows) (mk_windows ∅ ∅) _ _ H).
Defined.

(** ** The rate of plans *)

Section rate.
Variable limit : Z.
Hypothesis limit_pos : 0 < limit.

Lemma hour_pos : 0 < hour.
Proof. done. Qed.
Lemma over_iff t s : (hour <=? time_sub t s) = (hour <=? t - s).
Proof.
  pose proof (time_sub_lt t s hour ltac:(done) ltac:(done)) as H.
  destruct (Z.leb_spec hour (time_sub t s)), (Z.leb_spec hour (t - s)); done || lia.
Qed.

(** What may still pass for a key with no window. *)
Definition fresh_allowance (T tau : Z) : Z := if tau <? T then 2 * limit else if tau <? T + hour then limit else 0.
Definition left_over (T tau : Z) (w : option (Z * Z)) : Z :=
  match w with Some w => RateWindow.allowance hour limit T tau w | None => fresh_allowance T tau end.
Definition windows_sound (tau : Z) (ws : rate_windows) : Prop :=
  (forall k w, ws !! k = Some w -> RateWindow.sound limit tau w) /\ (size ws <= postgresPlanRateCacheSize)%nat.

Lemma left_over_later T tau t w :
  (forall w', w = Some w' -> RateWindow.sound limit tau w') -> tau <= t -> left_over T t w <= left_over T tau w.
Proof.
  intros Hs Ht. unfold left_over, fresh_allowance, RateWindow.allowance, RateWindow.sound in *.
  pose proof hour_pos.
  destruct w as [[s n]|]; [|repeat case_match; lia]. specialize (Hs _ eq_refl). cbn [fst snd] in *.
  repeat case_match; lia.
Qed.

(** A window that is forgotten because it is over leaves no more than it had. *)
Lemma left_over_forgotten T tau t w :
  RateWindow.sound limit tau w -> tau <= t -> hour <= t - w.1 -> fresh_allowance T t <= left_over T tau (Some w).
Proof.
  unfold left_over, fresh_allowance, RateWindow.allowance, RateWindow.sound. intros Hs Ht Hold.
  destruct w as [s n]. cbn [fst snd] in *. repeat case_match; lia.
Qed.

Definition kept_windows (now : Z) (ws : rate_windows) : rate_windows := filter (fun p => time_sub now p.2.1 < hour) ws.

Lemma kept_windows_step T tau t ws k :
  windows_sound tau ws -> tau <= t ->
  windows_sound t (kept_windows t ws) /\ left_over T t (kept_windows t ws !! k) <= left_over T tau (ws !! k).
Proof.
  intros [Hs Hn] Ht. split; [split|].
  - intros k' w Hw. apply map_lookup_filter_Some in Hw as [Hw _]. destruct (Hs _ _ Hw). split; [lia|done].
  - etransitivity; [apply map_size_filter|exact Hn].
  - unfold kept_windows, rate_windows in *. destruct (ws !! k) as [w|] eqn:Ew.
    + destruct (decide (time_sub t w.1 < hour)) as [Hk|Hk].
      * rewrite (proj2 (map_lookup_filter_Some _ _ _ _)) by done. apply left_over_later; [|done].
        intros w' [= <-]. by apply (Hs k).
      * rewrite (proj2 (map_lookup_filter_None _ _ _)).
        2: { right. intros w' Hw'. rewrite Ew in Hw'. injection Hw' as <-. exact Hk. }
        apply left_over_forgotten; [by apply (Hs k)|done|].
        apply Z.leb_le. rewrite <- over_iff. lia.
    + rewrite (proj2 (map_lookup_filter_None _ _ _)) by (by left). by apply left_over_later.
Qed.

Definition current_window (t : Z) (w : option (Z * Z)) : Z * Z :=
  match w with Some w => if hour <=? time_sub t w.1 then (t, 0) else w | None => (t, 0) end.

(** What the current window of a key admits. *)
Lemma current_window_step T tau t w :
  (forall w', w = Some w' -> RateWindow.sound limit tau w') -> tau <= t ->
  let c := current_window t w in
  c.2 < limit ->
  RateWindow.sound limit t (c.1, c.2 + 1) /\
  (if RateWindow.within hour T t then 1 else 0) + left_over T t (Some (c.1, c.2 + 1)) <= left_over T tau w.
Proof.
  intros Hs Ht c Hc. subst c. destruct w as [w|]; cbn [current_window] in *.
  - pose proof (RateWindow.admit_budget hour limit hour_pos t 1 tau T w ltac:(lia) (Hs _ eq_refl) Ht) as H.
    unfold RateWindow.spend in H. rewrite over_iff in *. cbn zeta in H.
    destruct (hour <=? t - w.1); cbn [fst snd] in *.
    + replace (limit <? 0 + 1) with false in H by lia. exact H.
    + replace (limit <? w.2 + 1) with false in H by lia. exact H.
  - cbn [fst snd left_over]. unfold RateWindow.sound, RateWindow.within, RateWindow.allowance, fresh_allowance.
    pose proof hour_pos. cbn [fst snd]. split; [lia|]. repeat case_match; lia.
Qed.

Lemma put_step T tau key t ws k :
  windows_sound tau ws -> tau <= t -> (ws !! key = None -> (size ws < postgresPlanRateCacheSize)%nat) ->
  let c := current_window t (ws !! key) in
  let '(ok, ws') := if limit <=? c.2 then (false, ws) else (true, <[key := (c.1, c.2 + 1)]> ws) in
  windows_sound t ws' /\
  (if ok && String.eqb key k && RateWindow.within hour T t then 1 else 0) + left_over T t (ws' !! k)
  <= left_over T tau (ws !! k).
Proof.
  intros [Hs Hn] Ht Hroom c. unfold rate_windows in *.
  assert (forall k' w, ws !! k' = Some w -> RateWindow.sound limit t w) as Hs'.
  { intros k' w Hw. destruct (Hs k' w Hw). split; [lia|done]. }
  destruct (Z.leb_spec limit c.2) as [|Hc].
  { split; [done|]. cbn [andb]. apply left_over_later; [apply Hs|done]. }
  destruct (current_window_step T tau t (ws !! key) (Hs key) Ht Hc) as [Hsc Hb]. fold c in Hsc, Hb. cbn [andb].
  split; [split|].
  - intros k' w. unfold rate_windows. rewrite (lookup_insert_Some (M := gmap string)). intros [[_ <-]|[_ Hw]]; [exact Hsc|by eapply Hs'].
  - unfold rate_windows. destruct (ws !! key) as [w|] eqn:Ew; [rewrite map_size_insert_Some by (by eexists); exact Hn|].
    rewrite map_size_insert_None by done. specialize (Hroom eq_refl). lia.
  - destruct (String.eqb_spec key k) as [->|Hk]; cbn [andb].
    + rewrite (lookup_insert_eq (M := gmap string)). exact Hb.
    + rewrite (lookup_insert_ne (M := gmap string)) by done. apply left_over_later; [apply Hs|done].
Qed.

(** One attempt. *)
Lemma allow_step T tau key t ws k :
  windows_sound tau ws -> tau <= t ->
  let '(ok, ws') := allowPostgresRate key limit t ws in
  windows_sound t ws' /\
  (if ok && String.eqb key k && RateWindow.within hour T t then 1 else 0) + left_over T t (ws' !! k)
  <= left_over T tau (ws !! k).
Proof.
  intros Hs Ht. unfold allowPostgresRate.
  destruct (bool_decide (ws !! key = None)) eqn:Enone; cbn [andb].
  - apply bool_decide_eq_true in Enone. destruct (Nat.leb_spec postgresPlanRateCacheSize (size ws)) as [|Hn].
    + fold (kept_windows t ws). destruct (kept_windows_step T tau t ws k Hs Ht) as [Hs' Hl]. cbn [andb].
      destruct (Nat.leb_spec postgresPlanRateCacheSize (size (kept_windows t ws))); [split; [done|]; cbn [andb]; lia|].
      pose proof (put_step T t key t (kept_windows t ws) k Hs' ltac:(lia) ltac:(done)) as Hput.
      assert (kept_windows t ws !! key = None) as E by (apply map_lookup_filter_None; by left).
      rewrite E in Hput. rewrite Enone. cbn zeta in Hput |- *. cbn [current_window] in Hput.
      destruct (limit <=? _); destruct Hput; (split; [done|lia]).
    + exact (put_step T tau key t ws k Hs Ht (fun _ => Hn)).
  - apply bool_decide_eq_false in Enone. exact (put_step T tau key t ws k Hs Ht (fun E => False_ind _ (Enone E))).
Qed.

(** Attempts one after another: which were admitted, with the windows. *)
Fixpoint attempts (l : list (string * Z)) (ws : rate_windows) : list (string * Z) * rate_windows :=
  match l with
  | [] => ([], ws)
  | a :: l =>
      let '(ok, ws) := allowPostgresRate a.1 limit a.2 ws in
      let '(out, ws) := attempts l ws in
      (if ok then a :: out else out, ws)
  end.

Definition in_hour (k : string) (T : Z) (a : string * Z) : bool := String.eqb a.1 k && RateWindow.within hour T a.2.
Definition passed (k : string) (T : Z) (l : list (string * Z)) : Z := sumZ (fun a => if in_hour k T a then 1 else 0) l.

Lemma attempts_budget k T l tau ws :
  windows_sound tau ws -> Sorted Z.le (tau :: (snd <$> l)) ->
  let '(out, ws') := attempts l ws in
  (size ws' <= postgresPlanRateCacheSize)%nat /\ passed k T out <= left_over T tau (ws !! k).
Proof.
  revert tau ws. induction l as [|[key t] l IH]; intros tau ws Hs Hl; cbn [attempts].
  - split; [apply Hs|]. destruct Hs as [Hs _]. unfold passed, left_over, fresh_allowance. cbn.
    destruct (ws !! k) as [w|] eqn:Ew; [|repeat case_match; lia].
    apply (RateWindow.allowance_bound hour limit T tau w); [lia|by eapply Hs].
  - cbn [fmap list_fmap snd fst] in *. apply Sorted_inv in Hl as [Hl Ht]. apply HdRel_inv in Ht.
    pose proof (allow_step T tau key t ws k Hs Ht) as H.
    destruct (allowPostgresRate key limit t ws) as [ok ws1]. destruct H as [Hs1 H].
    specialize (IH t ws1 Hs1 Hl). destruct (attempts l ws1) as [out ws']. destruct IH as [Hn IH].
    split; [exact Hn|]. destruct ok; cbn [andb] in H; [|lia].
    change (passed k T ((key, t) :: out)) with ((if in_hour k T (key, t) then 1 else 0) + passed k T out).
    unfold in_hour. cbn [fst snd]. lia.
Qed.

(** Whatever statements ask for plans and when, of one of them at most twice the limit
    are let through in any hour, and never more than 5,000 statements are remembered,
    though a window that is over is forgotten to make room for others. *)
Theorem plans_rate_limited k T l :
  Sorted Z.le (snd <$> l) ->
  (size (attempts l ∅).2 <= postgresPlanRateCacheSize)%nat /\ passed k T (attempts l ∅).1 <= 2 * limit.
Proof.
  intros Hl.
  set (tau := match l with [] => 0 | a :: _ => a.2 end).
  assert (Sorted Z.le (tau :: (snd <$> l))) as Hs.
  { constructor; [exact Hl|]. destruct l as [|a l]; constructor. cbn. lia. }
  pose proof (attempts_budget k T l tau ∅) as H. destruct (attempts l ∅) as [out ws].
  destruct H as [Hn Hb]; [|exact Hs|].
  - split; [intros k' w Hw; done|]. unfold rate_windows. rewrite map_size_empty. lia.
  - split; [exact Hn|]. cbn [fst]. etransitivity; [exact Hb|]. unfold rate_windows. rewrite lookup_empty.
    unfold left_over, fresh_allowance. repeat case_match; lia.
Qed.
End rate.

(** Attempts of one statement at the end of an hour and at the start of the next. *)
Definition example_attempts : list (string * Z) :=
  (fun t => ("q", t)) <$> [0; hour - 2; hour - 1; hour - 1; hour; hour + 1; hour + 2; 2 * hour + 1].
Lemma plans_rate_limited_witness :
  0 < 2 /\ Sorted Z.le (snd <$> example_attempts) /\
  ((size (attempts 2 example_attempts ∅).2 <= postgresPlanRateCacheSize)%nat /\
   passed "q" (hour - 2) (attempts 2 example_attempts ∅).1 <= 2 * 2).
Proof.
  assert (Sorted Z.le (snd <$> example_attempts)) as H by (repeat constructor; done).
  split; [lia|]. split; [exact H|]. apply (plans_rate_limited 2 ltac:(lia) "q" (hour - 2) example_attempts H).
Defined.
Example example_passed : snd <$> (attempts 2 example_attempts ∅).1 = [0; hour - 2; hour; hour + 1; 2 * hour + 1].
Proof. vm_compute. reflexivity. Qed.
End QueryStatsProps.
