(* ===== verification/DatabaseMonitor.v ===== *)
(** * The registry of PostgreSQL monitors (internal/ebpf/database_monitor.go)

    A pulled configuration names the servers that are monitored; the registry gives the
    monitor of an observed address, when exactly one claims it.  Parsing of addresses and
    names, and the comparison without case, belong to the standard library's packages net
    and strings and are arguments. *)

From S2P Require Import Prelude GoStrings Wire.
#[local] Open Scope Z_scope.

Module DatabaseMonitor.

Record postgresMonitorTarget := mk_target { monitorID : string; endpoints : list string }.

Record DatabaseMonitorRegistry := mk_registry {
  byCheck : gmap string postgresMonitorTarget;
  bySocket : gmap string string;
}.
Definition NewDatabaseMonitorRegistry : DatabaseMonitorRegistry := mk_registry ∅ ∅.

(** [strings.Trim(s, "[]")]. *)
Definition is_bracket (c : Ascii.ascii) : bool := (byte_of c =? 91) || (byte_of c =? 93).
Fixpoint trim_left_brackets (s : string) : string :=
  match s with String c r => if is_bracket c then trim_left_brackets r else s | "" => "" end.
Definition trim_brackets (s : string) : string := str_rev (trim_left_brackets (str_rev (trim_left_brackets s))).

(** [net.JoinHostPort]. *)
Definition JoinHostPort (host port : string) : string :=
  if contains ":" host then "[" +:+ host +:+ "]:" +:+ port else host +:+ ":" +:+ port.

Section registry.
Variable ParseIP : string -> option string.            (* the text of the address, an IPv4 one in dotted form *)
Variable LookupIP : string -> option (list string).
Variable EqualFold : string -> string -> bool.

Definition endpointKey (ip : string) (port : Z) : string :=
  match ParseIP (trim_space ip) with
  | None => ""
  | Some ip => if port =? 0 then "" else JoinHostPort ip (itoa port)
  end.

(** Each key once, in order, without the empty one. *)
Fixpoint distinct_endpoints (seen : list string) (port : Z) (ips : list string) : list string :=
  match ips with
  | [] => []
  | ip :: ips =>
      let e := endpointKey ip port in
      if String.eqb e "" || existsb (String.eqb e) seen then distinct_endpoints seen port ips
      else e :: distinct_endpoints (e :: seen) port ips
  end.

Definition resolveServerEndpoints (server : string) (port : Z) : list string :=
  let server := trim_brackets (trim_space server) in
  match ParseIP server with
  | Some ip => let e := endpointKey ip port in if String.eqb e "" then [] else [e]
  | None => match LookupIP server with None => [] | Some ips => distinct_endpoints [] port ips end
  end.

Definition postgresTargetFromConfig (cfg : CheckConfig) : option postgresMonitorTarget :=
  if negb (EqualFold (trim_space (CheckType cfg)) "postgres.server") then None
  else
    let tags := StaticTags cfg in
    let id := trim_space (tag "db_monitor_id" tags) in
    let server := trim_space (tag "db_server" tags) in
    match parse_uint 16 (trim_space (tag "db_port" tags)) with
    | None => None
    | Some port =>
        if String.eqb id "" || String.eqb server "" || (port =? 0) then None
        else match resolveServerEndpoints server port with [] => None | es => Some (mk_target id es) end
    end.

(** One endpoint of one target. *)
Definition claim (id : string) (next : gmap string string) (endpoint : string) : gmap string string :=
  match next !! endpoint with
  | None => <[endpoint := id]> next
  | Some previous => if String.eqb previous id then next else <[endpoint := ""]> next
  end.

(** [order] is how the map is enumerated. *)
Definition rebuildSockets (order : gmap string postgresMonitorTarget -> list (string * postgresMonitorTarget))
    (checks : gmap string postgresMonitorTarget) : gmap string string :=
  foldl (fun next e => foldl (claim (monitorID e.2)) next (endpoints e.2)) ∅ (order checks).

(** The last target that is complete of each check in [added]. *)
Definition updates (added : list (option CheckConfig)) : gmap string postgresMonitorTarget :=
  foldl (fun m c =>
      match c with
      | None => m
      | Some cfg =>
          if String.eqb (CheckId cfg) "" then m
          else match postgresTargetFromConfig cfg with Some t => <[CheckId cfg := t]> m | None => m end
      end) ∅ added.

Definition forget_added (added : list (option CheckConfig)) (m : gmap string postgresMonitorTarget)
    : gmap string postgresMonitorTarget :=
  foldl (fun m c =>
      match c with
      | Some cfg => if String.eqb (CheckId cfg) "" then m else delete (CheckId cfg) m
      | None => m
      end) m added.

Definition ApplyPostgresServerDelta (order : gmap string postgresMonitorTarget -> list (string * postgresMonitorTarget))
    (added : list (option CheckConfig)) (deletedIDs : list string) (r : DatabaseMonitorRegistry)
    : DatabaseMonitorRegistry :=
  let checks := foldl (fun m id => delete id m) (byCheck r) deletedIDs in
  let checks := updates added ∪ forget_added added checks in
  mk_registry checks (rebuildSockets order checks).

Definition MatchPostgresEndpoint (r : DatabaseMonitorRegistry) (ip : string) (port : Z) : string :=
  if port =? 0 then ""
  else
    let key := endpointKey ip port in
    if String.eqb key "" then "" else default "" (bySocket r !! key).
End registry.
End DatabaseMonitor.

(** * What the registry of PostgreSQL monitors promises

    An observed address is attributed to a monitor exactly if that monitor is the only one
    whose configuration, the last that was delivered, claims it. *)

Module DatabaseMonitorProps.
Import DatabaseMonitor.

(** ** Claims *)

(** The claims of the targets in an order. *)
Definition claims (l : list (string * postgresMonitorTarget)) : list (string * string) :=
  l ≫= fun e => (fun ep => (monitorID e.2, ep)) <$> endpoints e.2.

Lemma claims_fold l next :
  foldl (fun next e => foldl (claim (monitorID e.2)) next (endpoints e.2)) next l
  = foldl (fun next p => claim p.1 next p.2) next (claims l).
Proof.
  revert next. induction l as [|e l IH]; intros next; [done|].
  cbn [foldl claims mbind list_bind]. rewrite IH, foldl_app. f_equal.
  generalize (endpoints e.2) as es. intros es. revert next. clear IH. induction es as [|ep es IH]; intros next; [done|].
  cbn [foldl fmap list_fmap fst snd]. apply IH.
Qed.

(** What the fold of some claims knows of an endpoint. *)
Definition verdict (e : string) (l : list (string * string)) (x : option string) : Prop :=
  match x with
  | None => forall id, (id, e) ∉ l
  | Some x =>
      if String.eqb x "" then exists id1 id2, id1 <> id2 /\ (id1, e) ∈ l /\ (id2, e) ∈ l
      else (x, e) ∈ l /\ forall id, (id, e) ∈ l -> id = x
  end.

Lemma claims_verdict e l :
  Forall (fun p => p.1 <> "") l -> verdict e l (foldl (fun next p => claim p.1 next p.2) ∅ l !! e).
Proof.
  induction l as [|[id ep] l IH] using rev_ind; intros Hne; [cbn [foldl]; rewrite lookup_empty; intros id Hid; by apply elem_of_nil in Hid|].
  apply Forall_app in Hne as [Hne Hid]. rewrite Forall_singleton in Hid. cbn [fst] in Hid. specialize (IH Hne).
  rewrite foldl_snoc. cbn [fst snd]. set (next := foldl _ ∅ l) in *. unfold claim.
  destruct (decide (ep = e)) as [->|Hep].
  - destruct (next !! e) as [x|] eqn:En; unfold verdict in *.
    + destruct (String.eqb_spec x id) as [->|Hx].
      * rewrite En. apply String.eqb_neq in Hid. rewrite Hid in IH |- *. destruct IH as [Hin Hall].
        split; [set_solver|]. intros id'. rewrite elem_of_app, list_elem_of_singleton. intros [H|H]; [by apply Hall|congruence].
      * rewrite lookup_insert_eq. cbn. destruct (String.eqb_spec x "") as [->|Hxne].
        -- destruct IH as (id1 & id2 & H12 & H1 & H2). exists id1, id2. set_solver.
        -- destruct IH as [Hin _]. exists x, id. set_solver.
    + rewrite lookup_insert_eq. apply String.eqb_neq in Hid. rewrite Hid. split; [set_solver|].
      intros id'. rewrite elem_of_app, list_elem_of_singleton. intros [H|H]; [by destruct (IH id')|congruence].
  - assert ((match next !! ep with
             | Some previous => if String.eqb previous id then next else <[ep := ""]> next
             | None => <[ep := id]> next
             end) !! e = next !! e) as E.
    { repeat case_match; rewrite ?lookup_insert_ne by done; done. }
    assert (forall id', (id', e) ∈ l ++ [(id, ep)] <-> (id', e) ∈ l) as Hin.
    { intros id'. rewrite elem_of_app, list_elem_of_singleton. split; [intros [?|?]; [done|congruence]|tauto]. }
    revert IH. unfold verdict. rewrite E. destruct (next !! e) as [x|]; [destruct (String.eqb x "")|]; setoid_rewrite Hin; done.
Qed.

Section registry.
Variable ParseIP : string -> option string.
Variable LookupIP : string -> option (list string).
Variable EqualFold : string -> string -> bool.
Variable order : gmap string postgresMonitorTarget -> list (string * postgresMonitorTarget).
Hypothesis order_enumerates : forall m, order m ≡ₚ map_to_list m.
Abbreviation target := (postgresTargetFromConfig ParseIP LookupIP EqualFold).
Abbreviation apply := (ApplyPostgresServerDelta ParseIP LookupIP EqualFold order).
Abbreviation lookup_monitor := (MatchPostgresEndpoint ParseIP).

Lemma target_named cfg t : target cfg = Some t -> monitorID t <> "".
Proof.
  unfold postgresTargetFromConfig. destruct (negb _); [done|]. destruct (parse_uint _ _) as [port|]; [|done].
  destruct (String.eqb_spec (trim_space (tag "db_monitor_id" (StaticTags cfg))) "") as [|Hid]; [done|].
  destruct (_ || _)%bool; [done|]. destruct (resolveServerEndpoints _ _ _ _); [done|]. by intros [= <-].
Qed.

(** ** What was delivered last *)

(** A delta: the checks that are new or changed, and those that are gone. *)
Definition delta : Type := list (option CheckConfig) * list string.

Definition mentions (c : string) (x : option CheckConfig) : bool :=
  match x with Some cfg => String.eqb (CheckId cfg) c && negb (String.eqb c "") | None => false end.

(** The last complete target of a check among those added. *)
Definition last_target (c : string) (added : list (option CheckConfig)) : option postgresMonitorTarget :=
  last (omap (fun x => x ≫= target) (filter (fun x => mentions c x = true) added)).

Definition after (c : string) (before : option postgresMonitorTarget) (d : delta) : option postgresMonitorTarget :=
  if existsb (mentions c) d.1 then last_target c d.1
  else if bool_decide (c ∈ d.2) then None else before.

(** What the history of deltas says of a check. *)
Definition configured (c : string) (ds : list delta) : option postgresMonitorTarget := foldl (after c) None ds.

Lemma updates_lookup added c : updates ParseIP LookupIP EqualFold added !! c = last_target c added.
Proof.
  unfold updates, last_target. induction added as [|x added IH] using rev_ind; [done|].
  rewrite foldl_snoc, filter_app, omap_app, last_app. unfold mentions at 1. destruct x as [cfg|]; [|exact IH].
  destruct (String.eqb_spec (CheckId cfg) "") as [E|E].
  - rewrite filter_cons_False, filter_nil; [exact IH|]. cbn. rewrite E. destruct (String.eqb_spec "" c) as [<-|]; done.
  - destruct (String.eqb_spec (CheckId cfg) c) as [<-|Ec].
    + apply String.eqb_neq in E as E'. rewrite filter_cons_True, filter_nil by (cbn; by rewrite String.eqb_refl, E').
      cbn [omap list_omap mbind option_bind]. destruct (target cfg) as [t|]; [by rewrite lookup_insert_eq|exact IH].
    + apply String.eqb_neq in Ec as Ec'. rewrite filter_cons_False, filter_nil by (cbn; by rewrite Ec').
      destruct (target cfg) as [t|]; [by rewrite lookup_insert_ne|exact IH].
Qed.

Lemma forget_added_lookup added m c :
  forget_added added m !! c = if existsb (mentions c) added then None else m !! c.
Proof.
  unfold forget_added. induction added as [|x added IH] using rev_ind; [done|].
  rewrite foldl_snoc, existsb_app. cbn [existsb]. rewrite orb_false_r. destruct x as [cfg|].
  2: { rewrite IH. cbn [mentions]. by rewrite orb_false_r. }
  cbn [mentions]. destruct (String.eqb_spec (CheckId cfg) "") as [E|E].
  - rewrite IH, E. destruct (String.eqb_spec "" c) as [<-|]; by rewrite orb_false_r.
  - destruct (String.eqb_spec (CheckId cfg) c) as [<-|Ec].
    + apply String.eqb_neq in E. rewrite lookup_delete_eq, E. cbn. by rewrite orb_true_r.
    + rewrite lookup_delete_ne, IH by done. cbn. by rewrite orb_false_r.
Qed.

Lemma last_target_unmentioned c added : existsb (mentions c) added = false -> last_target c added = None.
Proof.
  intros H. unfold last_target. induction added as [|x added IH]; [done|]. cbn in H. apply orb_false_elim in H as [Hx H].
  rewrite filter_cons_False by congruence. by apply IH.
Qed.

Lemma delete_all_lookup (ids : list string) (m : gmap string postgresMonitorTarget) c :
  foldl (fun m id => delete id m) m ids !! c = if bool_decide (c ∈ ids) then None else m !! c.
Proof.
  revert m. induction ids as [|id ids IH]; intros m; [done|]. cbn [foldl]. rewrite IH.
  destruct (decide (id = c)) as [->|Hid].
  - rewrite lookup_delete_eq, (bool_decide_eq_true_2 (c ∈ c :: ids)) by set_solver. by destruct (bool_decide _).
  - rewrite lookup_delete_ne by done.
    rewrite (bool_decide_ext (c ∈ id :: ids) (c ∈ ids)); [done|]. rewrite elem_of_cons. split; [intros [?|?]; [congruence|done]|by right].
Qed.

Lemma apply_lookup d r c : byCheck (apply d.1 d.2 r) !! c = after c (byCheck r !! c) d.
Proof.
  unfold ApplyPostgresServerDelta, after. cbn [byCheck]. rewrite lookup_union, updates_lookup, forget_added_lookup.
  rewrite delete_all_lookup. destruct (existsb _ _) eqn:E.
  - by destruct (last_target c d.1).
  - rewrite last_target_unmentioned by done. by destruct (if _ : bool then _ else _).
Qed.

Definition registry (ds : list delta) : DatabaseMonitorRegistry :=
  foldl (fun r d => apply d.1 d.2 r) NewDatabaseMonitorRegistry ds.

Lemma registry_configured ds c : byCheck (registry ds) !! c = configured c ds.
Proof.
  unfold registry, configured. induction ds as [|d ds IH] using rev_ind; [done|].
  rewrite !foldl_snoc, apply_lookup, IH. done.
Qed.

Lemma registry_sockets ds : bySocket (registry ds) = rebuildSockets order (byCheck (registry ds)).
Proof.
  unfold registry. destruct ds as [|d ds _] using rev_ind; [|by rewrite foldl_snoc].
  unfold rebuildSockets. cbn. pose proof (order_enumerates ∅) as H. rewrite map_to_list_empty in H.
  by apply Permutation_nil_r in H as ->.
Qed.

Lemma configured_named ds c t : configured c ds = Some t -> monitorID t <> "".
Proof.
  unfold configured. induction ds as [|d ds IH] using rev_ind; [done|]. rewrite foldl_snoc. unfold after at 1.
  destruct (existsb _ _); [|destruct (bool_decide _); [done|exact IH]].
  unfold last_target. intros H. apply last_Some_elem_of in H. apply list_elem_of_omap in H as (x & _ & Hx).
  destruct x as [cfg|]; [|done]. by eapply target_named.
Qed.

Lemma claims_elem l id e : (id, e) ∈ claims l <-> exists c t, (c, t) ∈ l /\ monitorID t = id /\ e ∈ endpoints t.
Proof.
  unfold claims. rewrite list_elem_of_bind. split.
  - intros ([c t] & H & Hl). apply list_elem_of_fmap in H as (ep & [= -> ->] & Hep). by exists c, t.
  - intros (c & t & Hl & <- & He). exists (c, t). split; [|done]. apply list_elem_of_fmap. by exists e.
Qed.

(** Who claims an endpoint. *)
Definition claimed (ds : list delta) (id e : string) : Prop :=
  exists c t, configured c ds = Some t /\ monitorID t = id /\ e ∈ endpoints t.

Lemma registry_claims ds id e : (id, e) ∈ claims (order (byCheck (registry ds))) <-> claimed ds id e.
Proof.
  rewrite claims_elem. unfold claimed. split; intros (c & t & H & Hr); exists c, t; (split; [|exact Hr]).
  - rewrite order_enumerates in H. apply elem_of_map_to_list in H. by rewrite <- registry_configured.
  - rewrite order_enumerates. apply elem_of_map_to_list. by rewrite registry_configured.
Qed.

Lemma registry_verdict ds e :
  verdict e (claims (order (byCheck (registry ds)))) (bySocket (registry ds) !! e).
Proof.
  rewrite registry_sockets. unfold rebuildSockets. rewrite claims_fold. apply claims_verdict.
  apply Forall_forall. intros [id ep] H. apply registry_claims in H as (c & t & Hc & <- & _). by eapply configured_named.
Qed.

(** What is attributed is claimed, by no other. *)
Lemma match_sole ds ip port id :
  id <> "" -> lookup_monitor (registry ds) ip port = id ->
  port <> 0 /\ endpointKey ParseIP ip port <> "" /\ claimed ds id (endpointKey ParseIP ip port) /\
  forall id', claimed ds id' (endpointKey ParseIP ip port) -> id' = id.
Proof.
  intros Hid. unfold MatchPostgresEndpoint. destruct (Z.eqb_spec port 0) as [->|Hp]; [congruence|].
  set (e := endpointKey ParseIP ip port). destruct (String.eqb_spec e "") as [He|He]; [congruence|].
  pose proof (registry_verdict ds e) as V. unfold verdict in V. intros Hm.
  destruct (bySocket (registry ds) !! e) as [x|]; [|by destruct Hid]. change (x = id) in Hm. subst x.
  apply String.eqb_neq in Hid as E. rewrite E in V. destruct V as [Hc Hall]. apply registry_claims in Hc.
  do 3 (split; [done|]). intros id' Hid'. by apply Hall, registry_claims.
Qed.

(** After any deltas of the configuration an address is attributed to a monitor exactly
    if the targets delivered last claim it for that monitor and for no other: an ambiguous
    address, a target that is gone or no longer complete, and an address nobody claims are
    attributed to none, whatever the order in which the registry is enumerated. *)
Theorem attributed_iff_sole_claim ds ip port id :
  id <> "" ->
  lookup_monitor (registry ds) ip port = id <->
  (port <> 0 /\ endpointKey ParseIP ip port <> "" /\
   claimed ds id (endpointKey ParseIP ip port) /\
   forall id', claimed ds id' (endpointKey ParseIP ip port) -> id' = id).
Proof.
  intros Hid. split; [by apply match_sole|]. intros (Hp & He & Hc & Hall). unfold MatchPostgresEndpoint.
  apply Z.eqb_neq in Hp as ->. apply String.eqb_neq in He as Ee. rewrite Ee.
  set (e := endpointKey ParseIP ip port) in *. pose proof (registry_verdict ds e) as V. unfold verdict in V.
  destruct (bySocket (registry ds) !! e) as [x|]; [|destruct (V id); by apply registry_claims].
  change (x = id). destruct (String.eqb x ""); [|symmetry; by apply V, registry_claims].
  destruct V as (id1 & id2 & H12 & H1 & H2). apply registry_claims in H1, H2. destruct H12.
  by rewrite (Hall _ H1), (Hall _ H2).
Qed.
End registry.

(** Two servers, one of which two monitors claim until one of them is gone. *)
Definition example_check (id server monitor : string) : option CheckConfig :=
  Some (mk_check_config id "postgres.server" 0 ∅
    (list_to_map [("db_monitor_id", monitor); ("db_server", server); ("db_port", "5432")]) "" true "").
Definition example_deltas : list delta :=
  [([example_check "c1" "10.0.0.1" "m1"; example_check "c2" "10.0.0.2" "m2"; example_check "c3" "10.0.0.1" "m3"], []);
   ([example_check "c3" "" "m3"], ["c2"])].
Definition example_registry (n : nat) : DatabaseMonitorRegistry :=
  registry Some (fun _ => None) String.eqb map_to_list (take n example_deltas).

Lemma attributed_iff_sole_claim_witness :
  (fun n => (fun ip => MatchPostgresEndpoint Some (example_registry n) ip 5432) <$> ["10.0.0.1"; "10.0.0.2"]) <$> [1; 2]%nat
  = [[""; "m2"]; ["m1"; ""]] /\
  (forall m : gmap string postgresMonitorTarget, map_to_list m ≡ₚ map_to_list m) /\ "m1" <> "" /\
  (MatchPostgresEndpoint Some (registry Some (fun _ => None) String.eqb map_to_list example_deltas) "10.0.0.1" 5432 = "m1" <->
   (5432 <> 0 /\ endpointKey Some "10.0.0.1" 5432 <> "" /\
    claimed Some (fun _ => None) String.eqb example_deltas "m1" (endpointKey Some "10.0.0.1" 5432) /\
    forall id', claimed Some (fun _ => None) String.eqb example_deltas id' (endpointKey Some "10.0.0.1" 5432) -> id' = "m1")).
Proof.
  assert (forall m : gmap string postgresMonitorTarget, map_to_list m ≡ₚ map_to_list m) as Ho by done.
  assert ("m1" <> "") as Hid by done.
  split; [vm_compute; reflexivity|]. split; [exact Ho|]. split; [exact Hid|].
  apply (attributed_iff_sole_claim Some (fun _ => None) String.eqb map_to_list Ho example_deltas "10.0.0.1" 5432 "m1" Hid).
Defined.
End DatabaseMonitorProps.
