(* ===== verification/Bridge.v ===== *)
(** * The bridge from kernel events to spans (internal/ebpf/bridge.go)

    One goroutine takes the events of the tracer in order.  The opening and the closing of
    a connection are noted; a request becomes a span, with the addresses that were noted,
    the identities that the resolvers know, and what the parser of its protocol makes of
    the payload.  The parsers of PostgreSQL and MySQL keep the statements that a connection
    has prepared.

    The resolvers are the interfaces that the bridge declares; the random identifiers and
    the time of an event come with it.  The parsers of ClickHouse and BSON drive packages
    that are not part of the repository and are arguments. *)

From S2P Require Import Prelude GoStrings Wire L7 Concentrator Stamp.
#[local] Open Scope Z_scope.

Module Bridge.
Import L7.

(** ** Addresses and events *)

(** [netaddr.IPPort]: the text of the address, and the port.  The zero address has the
    text that its String method gives it. *)
Record IPPort := mk_ipport { IP : string; Port : Z }.
Definition zero_ip : string := "zero IP".
Definition no_addr : IPPort := mk_ipport zero_ip 0.
Definition IsZero (a : IPPort) : bool := String.eqb (IP a) zero_ip && (Port a =? 0).

Definition EventTypeConnectionOpen : Z := 3.
Definition EventTypeConnectionClose : Z := 4.
Definition EventTypeConnectionError : Z := 5.
Definition EventTypeL7Request : Z := 10.

Record RequestData := mk_request {
  Protocol : Z;
  Status : Z;
  Duration : Z;
  Method : Z;
  StatementId : Z;
  Payload : string;
  IsInbound : bool;
}.

Record Event := mk_event {
  Type_ : Z;
  Pid : Z;
  Fd : Z;
  DstAddr : IPPort;
  ActualDstAddr : IPPort;
  L7Request : option RequestData;
}.

(** ** Connections *)

Definition connKey : Type := Z * Z.

Record connInfo := mk_conn { dst : IPPort; actualDst : IPPort; server : IPPort }.
Definition no_conn : connInfo := mk_conn no_addr no_addr no_addr.
Definition connTracker : Type := gmap connKey connInfo.

Record parsersByConn := mk_parsers {
  postgres : gmap connKey statements;
  mysql : gmap connKey statements;
}.
Definition newParsersByConn : parsersByConn := mk_parsers ∅ ∅.

Definition postgresFor (k : connKey) (p : parsersByConn) : statements := default NewPostgresParser (postgres p !! k).
Definition mysqlFor (k : connKey) (p : parsersByConn) : statements := default NewMysqlParser (mysql p !! k).

(** ** The resolvers *)

Record PodResolver := mk_pods {
  Resolve : Z -> string * string;          (* namespace and pod of a process *)
  ResolveIP : string -> string * string;
  NodeForPod : option (string -> string -> option string);
  LabelsForPod : option (string -> string -> tagmap);
}.
Record ContainerResolver := mk_containers {
  ResolveServiceByIP : string -> option string;
  ResolveService : Z -> option string;
}.
Definition InboundServerResolver : Type := Z -> Z -> option IPPort.

Record BridgeConfig := mk_config {
  PrimaryTagKeys : option (list string);
  cfg_ServiceName : string;
  FallbackHostname : string;
  pods : option PodResolver;
  containers : option ContainerResolver;
  DatabaseMonitors : option (string -> Z -> string);
  inbound : option InboundServerResolver;
}.

Definition resolveInboundServer (k : connKey) (resolver : option InboundServerResolver) (conns : connTracker)
    : option IPPort * connTracker :=
  match resolver with
  | None => (None, conns)
  | Some resolve =>
      let info := default no_conn (conns !! k) in
      if negb (IsZero (server info)) then (Some (server info), conns)
      else
        match resolve k.1 k.2 with
        | Some endpoint =>
            if IsZero endpoint then (None, conns)
            else (Some endpoint, <[k := mk_conn (dst info) (actualDst info) endpoint]> conns)
        | None => (None, conns)
        end
  end.

(** ** Parts of a span *)

Definition maxL7Latency : Z := 2 * minute.
Definition physicalL7Latency (d : Z) : bool := (0 <? d) && (d <=? maxL7Latency).
Definition spanKindFor (isInbound : bool) : Z := if isInbound then 2 else 3.

Definition postgresMonitorID (matcher : option (string -> Z -> string)) (actualDst dst : IPPort) : string :=
  match matcher with
  | None => ""
  | Some m =>
      default "" (foldl (fun acc endpoint =>
        match acc with
        | None => None       (* a conflict *)
        | Some monitorID =>
            if IsZero endpoint then acc
            else
              let found := m (IP endpoint) (Port endpoint) in
              if String.eqb found "" then acc
              else if negb (String.eqb monitorID "") && negb (String.eqb monitorID found) then None
              else Some found
        end) (Some "") [actualDst; dst])
  end.

(** The addresses of the event, or those noted for an outbound connection. *)
Definition endpoints_of (ev : Event) (r : RequestData) (conns : connTracker) : IPPort * IPPort :=
  if negb (IsInbound r) && IsZero (ActualDstAddr ev) && IsZero (DstAddr ev) && negb (Pid ev =? 0) && negb (Fd ev =? 0)
  then match conns !! (Pid ev, Fd ev) with
       | Some info => (actualDst info, dst info)
       | None => (ActualDstAddr ev, DstAddr ev)
       end
  else (ActualDstAddr ev, DstAddr ev).

Definition server_addr (actualDst dst : IPPort) : string * Z :=
  if negb (IsZero actualDst) then (IP actualDst, Port actualDst)
  else if negb (IsZero dst) then (IP dst, Port dst)
  else ("", 0).

Definition resolve_client (cfg : BridgeConfig) (pid : Z) : string * string :=
  match pods cfg with Some p => Resolve p pid | None => ("", "") end.
Definition resolve_server (cfg : BridgeConfig) (serverIP : string) : string * string :=
  match pods cfg with
  | Some p => if String.eqb serverIP "" then ("", "") else ResolveIP p serverIP
  | None => ("", "")
  end.

(** What is known of both ends. *)
Definition identity_attributes (cfg : BridgeConfig) (pid : Z) (addr : string * Z) (client server : string * string)
    : tagmap :=
  let m : tagmap := if String.eqb addr.1 "" then ∅
                    else <["net.peer.port" := itoa addr.2]> {[ "net.peer.ip" := addr.1 ]} in
  let m := <["process.pid" := itoa pid]> m in
  let m := if String.eqb client.2 "" then m else <["client.pod" := client.2]> (<["client.namespace" := client.1]> m) in
  let m := if String.eqb server.2 "" then m else <["server.pod" := server.2]> (<["server.namespace" := server.1]> m) in
  if negb (String.eqb server.2 "") then <["net.peer.name" := server.2]> m
  else match containers cfg with
       | Some c => if String.eqb addr.1 "" then m
                   else match ResolveServiceByIP c addr.1 with
                        | Some peer => <["net.peer.name" := peer]> m
                        | None => m
                        end
       | None => m
       end.

(** Who owns a span: namespace, pod, service, and the name of the host where it is kept
    apart. *)
Definition owner (cfg : BridgeConfig) (pid : Z) (inbound : bool) (client server : string * string)
    : string * string * string * option string :=
  let host := FallbackHostname cfg in
  let by_host := if String.eqb host "" then ("", "", "", None) else ("", host, host, None) in
  if negb inbound && negb (String.eqb server.2 "") then (server.1, server.2, server.2, None)
  else if negb (String.eqb client.2 "") then (client.1, client.2, client.2, None)
  else match containers cfg with
       | Some c =>
           match ResolveService c pid with
           | Some svc => ("", svc, svc, if String.eqb host "" then None else Some host)
           | None => by_host
           end
       | None => by_host
       end.

Definition service_name (cfg : BridgeConfig) (service : string) : string :=
  if String.eqb service "" then if String.eqb (cfg_ServiceName cfg) "" then "ebpf-tracer" else cfg_ServiceName cfg
  else service.

Definition status_code (s : Z) : Z := if Status_Error s then 2 else if s =? 0 then 0 else 1.

(** ** The protocols *)

Record state := mk_state { parsers : parsersByConn; conns : connTracker }.
Definition new_state : state := mk_state newParsersByConn ∅.

Definition set_postgres (k : connKey) (p : statements) (s : state) : state :=
  mk_state (mk_parsers (<[k := p]> (postgres (parsers s))) (mysql (parsers s))) (conns s).
Definition set_mysql (k : connKey) (p : statements) (s : state) : state :=
  mk_state (mk_parsers (postgres (parsers s)) (<[k := p]> (mysql (parsers s)))) (conns s).

Definition put_all (l : list (string * string)) (m : tagmap) : tagmap := foldl (fun m p => <[p.1 := p.2]> m) m l.

(** The monitor of an inbound PostgreSQL request. *)
Definition monitor_of (cfg : BridgeConfig) (k : connKey) (inbound_ : bool) (actualDst dst : IPPort) (conns : connTracker)
    : string * connTracker :=
  match DatabaseMonitors cfg with
  | Some _ =>
      if inbound_ then
        let '(a, d, conns) :=
          if IsZero actualDst && IsZero dst && negb (k.1 =? 0) && negb (k.2 =? 0)
          then match resolveInboundServer k (inbound cfg) conns with
               | (Some endpoint, conns) => (endpoint, endpoint, conns)
               | (None, conns) => (actualDst, dst, conns)
               end
          else (actualDst, dst, conns) in
        (postgresMonitorID (DatabaseMonitors cfg) a d, conns)
      else ("", conns)
  | None => ("", conns)
  end.

Section bridge.
Variable ParseClickhouse : string -> string.
Variable raw_string : string -> string.     (* bson.Raw(data).String() *)

(** The name and the attributes that a payload gives, or None when the span is dropped;
    Err is a panic. *)
Definition decode (cfg : BridgeConfig) (k : connKey) (actualDst dst : IPPort) (r : RequestData) (s : state)
    : res (option (string * list (string * string)) * state) :=
  let p := Protocol r in
  if p =? ProtocolHTTP then
    let '(method, path) := ParseHttp (Payload r) in
    Ok (Some (method, [("http.method", method); ("http.target", path); ("http.status_code", itoa (Status r))]), s)
  else if p =? ProtocolPostgres then
    let '(query, stmts) := Postgres_Parse (Payload r) (postgresFor k (parsers s)) in
    let s := set_postgres k stmts s in
    if String.eqb query "" then Ok (None, s)
    else
      let '(monitorID, c) := monitor_of cfg k (IsInbound r) actualDst dst (conns s) in
      Ok (Some ("postgres query",
                [("db.system", "postgresql"); ("db.statement", query)]
                ++ (if String.eqb monitorID "" then [] else [(Concentrator.DatabaseMonitorIDAttr, monitorID)])),
          mk_state (parsers s) c)
  else if p =? ProtocolRedis then
    let '(cmd, args) := ParseRedis (Payload r) in
    if String.eqb cmd "" then Ok (None, s)
    else
      let stmt := if String.eqb args "" then cmd else cmd +:+ " " +:+ args in
      Ok (Some (cmd, [("db.system", "redis"); ("db.operation", cmd); ("db.statement", stmt)]), s)
  else if p =? ProtocolMysql then
    parsed ← Mysql_Parse (Payload r) (StatementId r) (mysqlFor k (parsers s));
    let s := set_mysql k parsed.2 s in
    if String.eqb parsed.1 "" then Ok (None, s)
    else Ok (Some ("mysql query", [("db.system", "mysql"); ("db.statement", parsed.1)]), s)
  else if p =? ProtocolMongo then
    let query := ParseMongo raw_string (Payload r) in
    if String.eqb query "" then Ok (None, s)
    else Ok (Some ("mongo query", [("db.system", "mongodb"); ("db.statement", query)]), s)
  else if p =? ProtocolMemcached then
    let '(cmd, items) := ParseMemcached (Payload r) in
    if String.eqb cmd "" then Ok (None, s)
    else Ok (Some (cmd, [("db.system", "memcached"); ("db.operation", cmd)]
                        ++ match default [] items with item :: _ => [("db.memcached.item", item)] | [] => [] end), s)
  else if p =? ProtocolClickhouse then
    let query := ParseClickhouse (Payload r) in
    if String.eqb query "" then Ok (None, s)
    else Ok (Some ("clickhouse query", [("db.system", "clickhouse"); ("db.statement", query)]), s)
  else if p =? ProtocolDNS then Ok (Some ("dns query", [("dns.protocol", "dns")]), s)
  else Ok (Some (Protocol_String p, [("protocol", Protocol_String p); ("protocol.method", Method_String (Method r))]), s).

(** ** What the collector's inventory adds *)

(** The pod that the dimensions are about. *)
Definition verified_pod (kind : Z) (client : string * string) (namespace pod : string) : string * string :=
  if (kind =? 3) && negb (String.eqb client.2 "") then client else (namespace, pod).

Definition verified (cfg : BridgeConfig) (pod : string * string) (m : tagmap) : tagmap :=
  let m := match pods cfg ≫= NodeForPod with
           | Some node_of =>
               match node_of pod.1 pod.2 with
               | Some node =>
                   let m := if String.eqb pod.1 "" then m
                            else <[Stamp.verifiedPrimaryPrefix +:+ "kube_namespace" := pod.1]> m in
                   if String.eqb node "" then m else <[Stamp.verifiedPrimaryPrefix +:+ "kube_node" := node]> m
               | None => m
               end
           | None => m
           end in
  match PrimaryTagKeys cfg, pods cfg ≫= LabelsForPod with
  | Some keys, Some labels_of =>
      let labels := labels_of pod.1 pod.2 in
      foldl (fun m key =>
        if has_prefix "kube_label." key then
          let value := tag (trim_prefix "kube_label." key) labels in
          if negb (String.eqb value "") && Stamp.ValidValue value
          then <[Stamp.verifiedPrimaryPrefix +:+ key := value]> m else m
        else m) m keys
  | _, _ => m
  end.

(** ** Spans *)

(** An event with the time it is taken at and the random identifiers drawn for it. *)
Record arrival := mk_arrival { event : Event; now : Z; traceID : string; spanID : string }.

Definition buildSpan (cfg : BridgeConfig) (a : arrival) (s : state) : res (option Span * state) :=
  let ev := event a in
  match L7Request ev with
  | None => Ok (None, s)
  | Some r =>
      if negb (physicalL7Latency (Duration r)) then Ok (None, s)
      else
        let '(actualDst, dst) := endpoints_of ev r (conns s) in
        let addr := server_addr actualDst dst in
        let client := resolve_client cfg (Pid ev) in
        let server := resolve_server cfg addr.1 in
        let attrs := identity_attributes cfg (Pid ev) addr client server in
        let '(namespace, pod, service, host) := owner cfg (Pid ev) (IsInbound r) client server in
        let attrs := match host with Some h => <["host.name" := h]> attrs | None => attrs end in
        decoded ← decode cfg (Pid ev, Fd ev) actualDst dst r s;
        match decoded with
        | (None, s) => Ok (None, s)
        | (Some (name, l), s) =>
            let kind := spanKindFor (IsInbound r) in
            let attrs := verified cfg (verified_pod kind client namespace pod) (put_all l attrs) in
            Ok (Some (mk_span (traceID a) (spanID a) "" (service_name cfg service) name kind (now a - Duration r) (now a)
                        (status_code (Status r)) "" namespace pod attrs), s)
        end
  end.

(** ** The loop *)

(** The resolver of inbound servers that is used when there are monitors and none is
    configured. *)
Definition with_default_resolver (proc : InboundServerResolver) (cfg : BridgeConfig) : BridgeConfig :=
  match DatabaseMonitors cfg, inbound cfg with
  | Some _, None => mk_config (PrimaryTagKeys cfg) (cfg_ServiceName cfg) (FallbackHostname cfg) (pods cfg) (containers cfg)
                      (DatabaseMonitors cfg) (Some proc)
  | _, _ => cfg
  end.

Definition set_conns (c : connTracker) (s : state) : state := mk_state (parsers s) c.

(** One event: what is pushed, and the state; Err is a panic. *)
Definition handle (cfg : BridgeConfig) (a : arrival) (s : state) : res (option Span * state) :=
  let ev := event a in
  let known := negb (Pid ev =? 0) && negb (Fd ev =? 0) in
  let k := (Pid ev, Fd ev) in
  if Type_ ev =? EventTypeConnectionOpen then
    Ok (None, if known then set_conns (<[k := mk_conn (DstAddr ev) (ActualDstAddr ev) no_addr]> (conns s)) s else s)
  else if (Type_ ev =? EventTypeConnectionClose) || (Type_ ev =? EventTypeConnectionError) then
    Ok (None, if known then set_conns (delete k (conns s)) s else s)
  else if Type_ ev =? EventTypeL7Request then
    match L7Request ev with None => Ok (None, s) | Some _ => buildSpan cfg a s end
  else Ok (None, s).

(** All events until the channel is closed: the spans that are pushed, in order. *)
Fixpoint RunBridge (cfg : BridgeConfig) (l : list arrival) (s : state) : res (list Span * state) :=
  match l with
  | [] => Ok ([], s)
  | a :: l =>
      out ← handle cfg a s;
      rest ← RunBridge cfg l out.2;
      Ok (option_list out.1 ++ rest.1, rest.2)
  end.
End bridge.
End Bridge.
