(* ===== verification/BridgeProps.v ===== *)
(** * What the bridge from kernel events to spans promises

    The bridge goes on through every event but a MySQL message that declares no length;
    what it pushes are well-formed spans, one at most for each request and in order, whose
    reserved attributes come from the inventory alone; an outbound request has the address
    that its connection was opened to; and a span is attributed to a monitored database
    exactly on the terms of the registry. *)

From S2P Require Import Prelude GoStrings Wire L7 L7Props Concentrator Stamp DatabaseMonitor Bridge.
#[local] Open Scope Z_scope.

Module BridgeProps.
Import L7 Bridge.

Section bridge.
Variable ParseClickhouse : string -> string.
Variable raw_string : string -> string.
Abbreviation decode := (Bridge.decode ParseClickhouse raw_string).
Abbreviation buildSpan := (Bridge.buildSpan ParseClickhouse raw_string).
Abbreviation handle := (Bridge.handle ParseClickhouse raw_string).
Abbreviation RunBridge := (Bridge.RunBridge ParseClickhouse raw_string).

(** ** Panics *)

(** A MySQL statement whose message declares no length. *)
Definition empty_statement (payload : string) : bool :=
  (9 <=? str_len payload) && (L7Props.my_size payload =? 0) &&
  ((L7Props.my_cmd payload =? MysqlComQuery) || (L7Props.my_cmd payload =? MysqlComStmtPrepare)).

Lemma mysql_commands (c : Z) :
  (c =? MysqlComStmtExecute) = true -> (c =? MysqlComQuery) || (c =? MysqlComStmtPrepare) = false.
Proof. rewrite Z.eqb_eq. by intros ->. Qed.

Lemma Mysql_Parse_returns payload id p :
  is_ok (Mysql_Parse payload id p) = negb (empty_statement payload).
Proof.
  unfold empty_statement. destruct (Z.leb_spec 9 (str_len payload)) as [Hl|Hl].
  - rewrite L7Props.Mysql_Parse_eq by done. cbn zeta.
    pose proof (L7Props.my_size_nonneg payload) as Hs. pose proof (mysql_commands (L7Props.my_cmd payload)) as Hc.
    destruct (Z.eqb_spec (L7Props.my_size payload) 0) as [E|E]; cbn [andb].
    + rewrite E, (L7Props.mysql_query_empty payload Hl). destruct (_ =? MysqlComQuery); [done|].
      destruct (_ =? MysqlComStmtExecute); [by rewrite Hc|]. destruct (_ =? MysqlComStmtPrepare); [done|].
      by destruct (_ =? MysqlComStmtClose).
    + destruct (L7Props.mysql_query_ok payload (L7Props.my_size payload)) as [q ->]; [lia|lia|].
      repeat case_match; done.
  - unfold Mysql_Parse. rewrite (proj2 (Z.ltb_lt _ _)); [done|unfold mysqlMsgHeaderSize; lia].
Qed.

(** What stops the bridge. *)
Definition deadly (a : arrival) : bool :=
  (Type_ (event a) =? EventTypeL7Request) &&
  match L7Request (event a) with
  | Some r => physicalL7Latency (Duration r) && (Protocol r =? ProtocolMysql) && empty_statement (Payload r)
  | None => false
  end.

Lemma decode_returns cfg k x y r s :
  is_ok (decode cfg k x y r s) = negb ((Protocol r =? ProtocolMysql) && empty_statement (Payload r)).
Proof.
  unfold Bridge.decode.
  destruct (Z.eqb_spec (Protocol r) ProtocolMysql) as [E|E]; cbn [andb].
  - rewrite E. cbn [Z.eqb Pos.eqb]. rewrite <- (Mysql_Parse_returns (Payload r) (StatementId r) (mysqlFor k (parsers s))).
    destruct (Mysql_Parse _ _ _) as [[q p]|e]; cbn; [by destruct (String.eqb q "")|done].
  - repeat case_match; done.
Qed.

Lemma handle_returns cfg a s : is_ok (handle cfg a s) = negb (deadly a).
Proof.
  unfold Bridge.handle, deadly. destruct (Z.eqb_spec (Type_ (event a)) EventTypeL7Request) as [E|E].
  - rewrite E. cbn [Z.eqb Pos.eqb orb andb]. unfold Bridge.buildSpan. destruct (L7Request (event a)) as [r|]; [|done].
    destruct (physicalL7Latency (Duration r)); cbn [negb andb]; [|done].
    destruct (endpoints_of _ _ _) as [x y]. destruct (owner _ _ _ _ _) as [[[ns pod] svc] host].
    rewrite <- (decode_returns cfg (Pid (event a), Fd (event a)) x y r s).
    destruct (decode _ _ _ _ _ _) as [[[[name l]|] s']|e]; done.
  - cbn [andb negb]. repeat case_match; done.
Qed.

Lemma run_returns cfg l s : is_ok (RunBridge cfg l s) = forallb (fun a => negb (deadly a)) l.
Proof.
  revert s. induction l as [|a l IH]; intros s; [done|]. cbn [Bridge.RunBridge forallb].
  rewrite <- (handle_returns cfg a s). destruct (handle cfg a s) as [[o s1]|e]; [|done]. cbn.
  rewrite <- (IH s1). by destruct (RunBridge cfg l s1).
Qed.

(** C24: the bridge takes every event to the end of its channel exactly if none of them is a
    MySQL statement whose message declares no length, whatever was prepared before and
    whatever the resolvers answer; such a message stops it. *)
Theorem bridge_runs_to_end cfg l s :
  (exists out s', RunBridge cfg l s = Ok (out, s')) <-> Forall (fun a => deadly a = false) l.
Proof.
  pose proof (run_returns cfg l s) as H. rewrite Forall_forall. split.
  - intros (out & s' & E). rewrite E in H. cbn in H. symmetry in H. rewrite forallb_forall in H. intros a Ha.
    apply negb_true_iff, H. by apply list_elem_of_In.
  - intros Hall. destruct (RunBridge cfg l s) as [[out s']|e]; [eauto|]. cbn in H. symmetry in H.
    assert (forallb (fun a => negb (deadly a)) l = true) as Hf; [|congruence].
    apply forallb_forall. intros a Ha. apply negb_true_iff, Hall. by apply list_elem_of_In.
Qed.

(** ** Attributes *)

Lemma put_all_other k l m : Forall (fun p => p.1 <> k) l -> put_all l m !! k = m !! k.
Proof.
  unfold put_all. intros H. revert m. induction H as [|p l Hp _ IH]; intros m; [done|]. cbn [foldl].
  rewrite IH. by apply lookup_insert_ne.
Qed.

Lemma put_all_app l l' m : put_all (l ++ l') m = put_all l' (put_all l m).
Proof. apply foldl_app. Qed.

(** [verified] looks at no attribute, and writes only reserved ones. *)
Lemma verified_fold labels keys m m' k :
  m !! k = m' !! k ->
  let add m key :=
    if has_prefix "kube_label." key then
      let value := tag (trim_prefix "kube_label." key) labels in
      if negb (String.eqb value "") && Stamp.ValidValue value
      then <[Stamp.verifiedPrimaryPrefix +:+ key := value]> m else m
    else m in
  (foldl add m keys : tagmap) !! k = (foldl add m' keys : tagmap) !! k.
Proof.
  cbn zeta. revert m m'. induction keys as [|key keys IH]; intros m m' H; [exact H|]. cbn [foldl]. apply IH.
  repeat case_match; rewrite ?lookup_insert, ?H; done.
Qed.

Lemma verified_lookup cfg pod m m' k : m !! k = m' !! k -> verified cfg pod m !! k = verified cfg pod m' !! k.
Proof.
  intros H. unfold verified.
  destruct (PrimaryTagKeys cfg) as [keys|]; [destruct (pods cfg ≫= LabelsForPod) as [labels|]; [apply verified_fold|]|];
    (destruct (pods cfg ≫= NodeForPod) as [node_of|]; [|exact H]);
    (destruct (node_of pod.1 pod.2) as [node|]; [|exact H]);
    destruct (String.eqb pod.1 ""), (String.eqb node ""); rewrite ?lookup_insert, ?H; done.
Qed.

Lemma reserved_ne k k' : has_prefix Stamp.verifiedPrimaryPrefix k = false -> Stamp.verifiedPrimaryPrefix +:+ k' <> k.
Proof. unfold has_prefix. intros H <-. by rewrite prefix_app in H. Qed.

Lemma verified_other cfg pod m k : has_prefix Stamp.verifiedPrimaryPrefix k = false -> verified cfg pod m !! k = m !! k.
Proof.
  intros Hk. unfold verified. set (m1 := match pods cfg ≫= NodeForPod with Some _ => _ | None => _ end).
  assert (m1 !! k = m !! k) as E1.
  { subst m1. destruct (pods cfg ≫= NodeForPod) as [node_of|]; [|done]. destruct (node_of _ _) as [node|]; [|done].
    destruct (String.eqb pod.1 ""), (String.eqb node ""); rewrite ?lookup_insert_ne by (by apply reserved_ne); done. }
  destruct (PrimaryTagKeys cfg) as [keys|]; [|exact E1]. destruct (pods cfg ≫= LabelsForPod) as [labels|]; [|exact E1].
  rewrite <- E1. generalize m1 as m2. clear E1. induction keys as [|key keys IH]; intros m2; [done|]. cbn [foldl]. rewrite IH.
  repeat case_match; rewrite ?lookup_insert_ne by (by apply reserved_ne); done.
Qed.

Definition identity_keys : list string :=
  ["net.peer.ip"; "net.peer.port"; "process.pid"; "client.namespace"; "client.pod"; "server.namespace"; "server.pod";
   "net.peer.name"; "host.name"].
Definition decode_keys : list string :=
  ["http.method"; "http.target"; "http.status_code"; "db.system"; "db.statement"; "db.operation"; "db.memcached.item";
   "dns.protocol"; "protocol"; "protocol.method"].

Lemma host_name_own : "host.name" ∈ identity_keys.
Proof. unfold identity_keys. set_solver. Qed.

Lemma identity_other cfg pid addr client server k :
  k ∉ identity_keys -> identity_attributes cfg pid addr client server !! k = None.
Proof.
  intros Hk. unfold identity_attributes, identity_keys in *. rewrite !not_elem_of_cons in Hk. destruct_and! Hk.
  repeat case_match; rewrite ?lookup_insert_ne, ?lookup_singleton_ne by congruence; done.
Qed.

Lemma identity_peer cfg pid addr client server :
  identity_attributes cfg pid addr client server !! "net.peer.ip" = if String.eqb addr.1 "" then None else Some addr.1.
Proof.
  unfold identity_attributes. destruct (String.eqb addr.1 "");
    repeat case_match; rewrite ?lookup_insert_ne, ?lookup_singleton_eq by done; done.
Qed.

Lemma peer_not_payload : "net.peer.ip" ∉ decode_keys.
Proof. by apply (bool_decide_unpack _). Qed.

Lemma monitor_not_payload : Concentrator.DatabaseMonitorIDAttr ∉ decode_keys.
Proof. by apply (bool_decide_unpack _). Qed.

Ltac own_keys H := intros [= <- <- <-]; apply H; repeat constructor; set_solver.

(** What a payload gives besides the monitor, which only an inbound request of PostgreSQL
    gets. *)
Lemma decode_keys_ok cfg k x y r s name l s' :
  decode cfg k x y r s = Ok (Some (name, l), s') ->
  exists own id, l = own ++ (if String.eqb id "" then [] else [(Concentrator.DatabaseMonitorIDAttr, id)]) /\
    Forall (fun p => p.1 ∈ decode_keys) own /\
    (id <> "" -> Protocol r = ProtocolPostgres /\ IsInbound r = true /\
                 exists c, monitor_of cfg k true x y (conns s) = (id, c)).
Proof.
  assert (forall l : list (string * string), Forall (fun p => p.1 ∈ decode_keys) l ->
    exists own id, l = own ++ (if String.eqb id "" then [] else [(Concentrator.DatabaseMonitorIDAttr, id)]) /\
      Forall (fun p => p.1 ∈ decode_keys) own /\
      (id <> "" -> Protocol r = ProtocolPostgres /\ IsInbound r = true /\
                   exists c, monitor_of cfg k true x y (conns s) = (id, c))) as Hown.
  { intros own Ho. exists own, "". by rewrite app_nil_r. }
  unfold Bridge.decode. destruct (_ =? ProtocolHTTP).
  { destruct (ParseHttp _) as [method path]. own_keys Hown. }
  destruct (Z.eqb_spec (Protocol r) ProtocolPostgres) as [Ep|_].
  { destruct (Postgres_Parse _ _) as [query stmts]. destruct (String.eqb query ""); [done|].
    destruct (monitor_of cfg k (IsInbound r) x y (conns (set_postgres k stmts s))) as [id c] eqn:Em. intros [= <- <- <-].
    exists [("db.system", "postgresql"); ("db.statement", query)], id. split; [reflexivity|]. split; [repeat constructor; set_solver|]. intros Hid.
    split; [exact Ep|]. unfold monitor_of in Em |- *. cbn [set_postgres conns] in Em.
    destruct (DatabaseMonitors cfg); [|congruence]. destruct (IsInbound r); [|congruence]. eauto. }
  destruct (_ =? ProtocolRedis).
  { destruct (ParseRedis _) as [cmd args]. destruct (String.eqb cmd ""); [done|]. own_keys Hown. }
  destruct (_ =? ProtocolMysql).
  { destruct (Mysql_Parse _ _ _) as [[q p]|e]; [|done]. cbn. destruct (String.eqb q ""); [done|]. own_keys Hown. }
  destruct (_ =? ProtocolMongo).
  { destruct (String.eqb _ ""); [done|]. own_keys Hown. }
  destruct (_ =? ProtocolMemcached).
  { destruct (ParseMemcached _) as [cmd items]. destruct (String.eqb cmd ""); [done|]. intros [= <- <- <-]. apply Hown.
    destruct (default [] items); repeat constructor; set_solver. }
  destruct (_ =? ProtocolClickhouse).
  { destruct (String.eqb _ ""); [done|]. own_keys Hown. }
  destruct (_ =? ProtocolDNS); own_keys Hown.
Qed.

(** ** Spans *)

Definition client_of (cfg : BridgeConfig) (a : arrival) : string * string := resolve_client cfg (Pid (event a)).

(** The span of a request, from the addresses of its connection and what its payload
    gives. *)
Definition span_of (cfg : BridgeConfig) (a : arrival) (r : RequestData) (x y : IPPort) (name : string)
    (l : list (string * string)) (sp : Span) : Prop :=
  let addr := server_addr x y in
  let client := client_of cfg a in
  let server := resolve_server cfg addr.1 in
  let '(namespace, pod, service, host) := owner cfg (Pid (event a)) (IsInbound r) client server in
  let attrs := identity_attributes cfg (Pid (event a)) addr client server in
  let attrs := match host with Some h => <["host.name" := h]> attrs | None => attrs end in
  let kind := spanKindFor (IsInbound r) in
  sp = mk_span (traceID a) (spanID a) "" (service_name cfg service) name kind (now a - Duration r) (now a)
         (status_code (Status r)) "" namespace pod
         (verified cfg (verified_pod kind client namespace pod) (put_all l attrs)).

Lemma handle_inv cfg a s sp s' :
  handle cfg a s = Ok (Some sp, s') ->
  exists r x y name l,
    Type_ (event a) = EventTypeL7Request /\ L7Request (event a) = Some r /\ physicalL7Latency (Duration r) = true /\
    endpoints_of (event a) r (conns s) = (x, y) /\
    decode cfg (Pid (event a), Fd (event a)) x y r s = Ok (Some (name, l), s') /\ span_of cfg a r x y name l sp.
Proof.
  unfold Bridge.handle. destruct (_ =? EventTypeConnectionOpen); [done|]. destruct (_ || _)%bool; [done|].
  destruct (Z.eqb_spec (Type_ (event a)) EventTypeL7Request) as [Et|]; [|done].
  unfold Bridge.buildSpan. destruct (L7Request (event a)) as [r|] eqn:Er; [|done].
  destruct (physicalL7Latency (Duration r)) eqn:Ed; [|done]. cbn [negb].
  destruct (endpoints_of _ _ _) as [x y] eqn:Ee. unfold span_of, client_of.
  destruct (owner _ _ _ _ _) as [[[ns pod] svc] host] eqn:Eo.
  destruct (decode _ _ _ _ _ _) as [[[[name l]|] s1]|e] eqn:Edec; [|done|done]. cbn. intros [= <- <-].
  exists r, x, y, name, l. rewrite Eo. done.
Qed.

(** The attributes of a span that are not those of identity or of the payload. *)
Lemma span_of_other cfg a r x y name l sp k :
  span_of cfg a r x y name l sp -> k ∉ identity_keys -> Forall (fun p => p.1 <> k) l ->
  exists pod, (pod = client_of cfg a \/ pod = (Namespace sp, Pod sp)) /\ Attributes sp !! k = verified cfg pod ∅ !! k.
Proof.
  unfold span_of. cbn zeta. destruct (owner _ _ _ _ _) as [[[ns pod] svc] host]. intros -> Hk Hl. cbn [Namespace Pod Attributes].
  eexists. split; [|apply verified_lookup; rewrite (put_all_other k) by done].
  - unfold verified_pod. destruct (_ && _); auto.
  - destruct host; [rewrite lookup_insert_ne by (intros <-; by apply Hk, host_name_own)|]; by rewrite identity_other.
Qed.

Lemma service_named cfg s : service_name cfg s <> "".
Proof.
  unfold service_name. destruct (String.eqb_spec s ""); [|done]. by destruct (String.eqb_spec (cfg_ServiceName cfg) "").
Qed.

(** A span that is what its request calls for. *)
Definition span_sound (cfg : BridgeConfig) (a : arrival) (sp : Span) : Prop :=
  exists r, L7Request (event a) = Some r /\ Type_ (event a) = EventTypeL7Request /\
    TraceId sp = traceID a /\ SpanId sp = spanID a /\ Kind sp = spanKindFor (IsInbound r) /\
    EndUnixNano sp = now a /\ EndUnixNano sp - StartUnixNano sp = Duration r /\ 0 < Duration r <= 2 * minute /\
    ServiceName sp <> "" /\ (StatusCode sp = 2 <-> Status r = StatusFailed) /\
    exists pod, (pod = client_of cfg a \/ pod = (Namespace sp, Pod sp)) /\
      forall k, has_prefix Stamp.verifiedPrimaryPrefix k = true ->
        Attributes sp !! k = verified cfg pod ∅ !! k.

Lemma reserved_not_own k : has_prefix Stamp.verifiedPrimaryPrefix k = true ->
  (k ∉ identity_keys) /\ (k ∉ decode_keys) /\ k <> Concentrator.DatabaseMonitorIDAttr.
Proof.
  intros Hk. assert (Forall (fun k => has_prefix Stamp.verifiedPrimaryPrefix k = false)
    (Concentrator.DatabaseMonitorIDAttr :: identity_keys ++ decode_keys)) as H by (repeat constructor).
  rewrite Forall_forall in H. split; [|split].
  - intros Hin. rewrite (H k) in Hk; [done|]. apply elem_of_cons. right. apply elem_of_app. by left.
  - intros Hin. rewrite (H k) in Hk; [done|]. apply elem_of_cons. right. apply elem_of_app. by right.
  - intros ->. rewrite H in Hk; [done|]. apply elem_of_cons. by left.
Qed.

Lemma handle_sound cfg a s sp s' : handle cfg a s = Ok (Some sp, s') -> span_sound cfg a sp.
Proof.
  intros H. apply handle_inv in H as (r & x & y & name & l & Et & Er & Hd & _ & Hdec & Hs).
  apply decode_keys_ok in Hdec as (own & id & -> & Hown & _).
  exists r. split; [done|]. split; [done|]. unfold physicalL7Latency, maxL7Latency in Hd.
  pose proof Hs as Hs'. unfold span_of in Hs. cbn zeta in Hs.
  destruct (owner _ _ _ _ _) as [[[ns pod] svc] host] eqn:Eo.
  assert (exists pod', (pod' = client_of cfg a \/ pod' = (Namespace sp, Pod sp)) /\
    forall k, has_prefix Stamp.verifiedPrimaryPrefix k = true -> Attributes sp !! k = verified cfg pod' ∅ !! k) as Hres.
  { exists (verified_pod (spanKindFor (IsInbound r)) (client_of cfg a) ns pod). subst sp. cbn [Namespace Pod Attributes]. split.
    - unfold verified_pod. destruct ((spanKindFor (IsInbound r) =? 3) && _); [left|right]; done.
    - intros k Hk. destruct (reserved_not_own k Hk) as (H1 & H2 & H3). apply verified_lookup. rewrite put_all_other.
      + destruct host; [rewrite lookup_insert_ne by (intros <-; by apply H1, host_name_own)|]; by rewrite identity_other.
      + apply Forall_app. split; [eapply Forall_impl; [exact Hown|]; intros p Hp <-; done|].
        destruct (String.eqb id ""); repeat constructor; done. }
  subst sp. cbn [TraceId SpanId Kind EndUnixNano StartUnixNano ServiceName StatusCode] in *.
  do 4 (split; [done|]). split; [lia|]. split; [lia|]. split; [apply service_named|]. split; [|exact Hres].
  unfold status_code, Status_Error, StatusFailed. destruct (Z.eqb_spec (Status r) 500); [tauto|]. destruct (Status r =? 0); split; done.
Qed.

(** What the bridge pushes are, in order, the spans of some of its requests, one for
    each: with the identifiers drawn for the request, its direction and its duration, which
    is positive and at most two minutes, named after some service, failed exactly if the
    request did; and its reserved attributes are those of the inventory for the pod of the
    process or of the span, whatever the payload says. *)
Theorem bridge_spans_sound cfg l s out s' :
  RunBridge cfg l s = Ok (out, s') -> exists taken, sublist taken l /\ Forall2 (span_sound cfg) taken out.
Proof.
  revert s out. induction l as [|a l IH]; intros s out H; cbn [Bridge.RunBridge] in H.
  { injection H as <- <-. by exists []. }
  destruct (handle cfg a s) as [[o s1]|e] eqn:Eh; [|done]. cbn in H.
  destruct (RunBridge cfg l s1) as [[rest s2]|e] eqn:Er; [|done]. injection H as <- <-.
  destruct (IH s1 rest Er) as (taken & Hsub & Hall). destruct o as [sp|]; cbn [option_list app fst snd].
  - exists (a :: taken). split; [by constructor|]. constructor; [by eapply handle_sound|done].
  - exists taken. split; [by constructor|done].
Qed.

(** ** Monitors *)

(** The monitor found: at one of the addresses, and at no address another. *)
Lemma postgresMonitorID_some m x y id :
  postgresMonitorID (Some m) x y = id -> id <> "" ->
  (exists e, (e = x \/ e = y) /\ IsZero e = false /\ m (IP e) (Port e) = id) /\
  (forall e, e = x \/ e = y -> IsZero e = false -> m (IP e) (Port e) <> "" -> m (IP e) (Port e) = id).
Proof.
  unfold postgresMonitorID. cbn [foldl].
  destruct (IsZero x) eqn:Zx, (IsZero y) eqn:Zy; cbn; intros H Hid.
  - congruence.
  - destruct (String.eqb_spec (m (IP y) (Port y)) ""); cbn in H; [congruence|].
    split; [exists y; auto|]. intros e [->| ->] He _; congruence.
  - destruct (String.eqb_spec (m (IP x) (Port x)) ""); cbn in H; [congruence|].
    split; [exists x; auto|]. intros e [->| ->] He _; congruence.
  - destruct (String.eqb_spec (m (IP x) (Port x)) "") as [Ex|Ex]; cbn in H.
    + destruct (String.eqb_spec (m (IP y) (Port y)) ""); cbn in H; [congruence|].
      split; [exists y; auto|]. intros e [->| ->] He Hne; congruence.
    + destruct (String.eqb_spec (m (IP y) (Port y)) "") as [Ey|Ey]; cbn in H.
      * split; [exists x; auto|]. intros e [->| ->] He Hne; congruence.
      * apply String.eqb_neq in Ex as Ex'. rewrite Ex' in H. cbn in H.
        destruct (String.eqb_spec (m (IP x) (Port x)) (m (IP y) (Port y))) as [E|E]; cbn in H; [|congruence].
        split; [exists y; auto|]. intros e [->| ->] He Hne; congruence.
Qed.

(** What the tracker has cached comes from the resolver. *)
Definition cached (cfg : BridgeConfig) (c : connTracker) : Prop :=
  forall k info, c !! k = Some info ->
    server info = no_addr \/ exists f, inbound cfg = Some f /\ f k.1 k.2 = Some (server info).

Definition resolved (cfg : BridgeConfig) (k : connKey) (e : IPPort) : Prop :=
  exists f, inbound cfg = Some f /\ f k.1 k.2 = Some e.

Lemma resolveInboundServer_cached cfg k c :
  cached cfg c ->
  let '(e, c') := resolveInboundServer k (inbound cfg) c in
  cached cfg c' /\ forall e', e = Some e' -> resolved cfg k e'.
Proof.
  intros Hc. unfold resolveInboundServer. destruct (inbound cfg) as [f|] eqn:Ef; [|done].
  destruct (IsZero (server (default no_conn (c !! k)))) eqn:Ez; cbn [negb].
  - destruct (f k.1 k.2) as [e|] eqn:Er; [|done]. destruct (IsZero e); [done|]. split.
    + intros k' info Hk. apply (lookup_insert_Some (M := gmap connKey)) in Hk as [[<- <-]|[_ Hk]]; [|by apply Hc].
      right. by exists f.
    + intros e' [= <-]. by exists f.
  - split; [done|]. intros e' [= <-]. destruct (c !! k) as [info|] eqn:Ek; [|done]. cbn in *.
    destruct (Hc k info Ek) as [E|E]; [by rewrite E in Ez|exact E].
Qed.

Lemma monitor_of_cached cfg k i x y c :
  cached cfg c ->
  let '(id, c') := monitor_of cfg k i x y c in
  cached cfg c' /\
  (id <> "" -> exists m u v, DatabaseMonitors cfg = Some m /\ postgresMonitorID (Some m) u v = id /\
     ((u = x /\ v = y) \/ (u = v /\ resolved cfg k u))).
Proof.
  intros Hc. unfold monitor_of. destruct (DatabaseMonitors cfg) as [m|]; [|done]. destruct i; [|done].
  destruct (IsZero x && IsZero y && negb (k.1 =? 0) && negb (k.2 =? 0)).
  - pose proof (resolveInboundServer_cached cfg k c Hc) as H.
    destruct (resolveInboundServer k (inbound cfg) c) as [[e|] c']; destruct H as [Hc' He]; (split; [exact Hc'|]); intros Hid.
    + exists m, e, e. split; [done|]. split; [done|]. right. split; [done|]. by apply He.
    + exists m, x, y. auto.
  - split; [exact Hc|]. intros Hid. exists m, x, y. auto.
Qed.

(** A payload changes what is known of connections only by resolving a monitor. *)
Lemma decode_conns cfg k x y r s o s' :
  decode cfg k x y r s = Ok (o, s') ->
  conns s' = conns s \/ exists id, monitor_of cfg k (IsInbound r) x y (conns s) = (id, conns s').
Proof.
  unfold Bridge.decode. destruct (_ =? ProtocolHTTP); [destruct (ParseHttp _); intros [= _ <-]; by left|].
  destruct (_ =? ProtocolPostgres).
  { destruct (Postgres_Parse _ _) as [q p]. destruct (String.eqb q ""); [intros [= _ <-]; by left|].
    destruct (monitor_of _ _ _ _ _ _) as [id c] eqn:Em. intros [= _ <-]. right. by exists id. }
  destruct (_ =? ProtocolRedis); [destruct (ParseRedis _) as [cmd ?]; destruct (String.eqb cmd ""); intros [= _ <-]; by left|].
  destruct (_ =? ProtocolMysql).
  { destruct (Mysql_Parse _ _ _) as [[q p]|e]; [|done]. cbn. destruct (String.eqb q ""); intros [= _ <-]; by left. }
  destruct (_ =? ProtocolMongo); [destruct (String.eqb _ ""); intros [= _ <-]; by left|].
  destruct (_ =? ProtocolMemcached);
    [destruct (ParseMemcached _) as [cmd ?]; destruct (String.eqb cmd ""); intros [= _ <-]; by left|].
  destruct (_ =? ProtocolClickhouse); [destruct (String.eqb _ ""); intros [= _ <-]; by left|].
  destruct (_ =? ProtocolDNS); intros [= _ <-]; by left.
Qed.

Lemma decode_cached cfg k x y r s o s' :
  cached cfg (conns s) -> decode cfg k x y r s = Ok (o, s') -> cached cfg (conns s').
Proof.
  intros Hc H. apply decode_conns in H as [->|[id H]]; [done|].
  pose proof (monitor_of_cached cfg k (IsInbound r) x y (conns s) Hc) as Hm. rewrite H in Hm. apply Hm.
Qed.

Lemma handle_cached cfg a s o s' : cached cfg (conns s) -> handle cfg a s = Ok (o, s') -> cached cfg (conns s').
Proof.
  intros Hc. unfold Bridge.handle. destruct (_ =? EventTypeConnectionOpen).
  { intros [= _ <-]. destruct (_ && _); [|done]. intros k info Hk. cbn [conns set_conns] in Hk. unfold connTracker in *.
    apply (lookup_insert_Some (M := gmap connKey)) in Hk as [[<- <-]|[_ Hk]]; [by left|by apply Hc]. }
  destruct (_ || _)%bool.
  { intros [= _ <-]. destruct (_ && _); [|done]. intros k info Hk. cbn [conns set_conns] in Hk. unfold connTracker in *.
    apply (lookup_delete_Some (M := gmap connKey)) in Hk as [_ Hk]. by apply Hc. }
  destruct (_ =? EventTypeL7Request); [|by intros [= _ <-]]. unfold Bridge.buildSpan.
  destruct (L7Request (event a)) as [r|]; [|by intros [= _ <-]]. destruct (negb _); [by intros [= _ <-]|].
  destruct (endpoints_of _ _ _) as [x y]. destruct (owner _ _ _ _ _) as [[[ns pod] svc] host].
  destruct (decode _ _ _ _ _ _) as [[d s1]|e] eqn:Ed; [|done]. apply (decode_cached cfg) in Ed; [|done].
  destruct d as [[name l]|]; by intros [= _ <-].
Qed.

(** The last address that a connection was opened to, while it has not been closed. *)
Definition noted (k : connKey) (s : state) : IPPort * IPPort :=
  match conns s !! k with Some i => (actualDst i, dst i) | None => (no_addr, no_addr) end.

Definition note (k : connKey) (before : IPPort * IPPort) (ev : Event) : IPPort * IPPort :=
  if bool_decide ((Pid ev, Fd ev) = k) then
    if Type_ ev =? EventTypeConnectionOpen then (ActualDstAddr ev, DstAddr ev)
    else if (Type_ ev =? EventTypeConnectionClose) || (Type_ ev =? EventTypeConnectionError) then (no_addr, no_addr)
    else before
  else before.
Definition last_opened (k : connKey) (l : list arrival) : IPPort * IPPort :=
  foldl (note k) (no_addr, no_addr) (event <$> l).

Lemma resolveInboundServer_noted k' k resolver c :
  let '(_, c') := resolveInboundServer k resolver c in
  forall p p', noted k' (mk_state p c') = noted k' (mk_state p' c).
Proof.
  unfold resolveInboundServer. destruct resolver as [f|]; [|done]. destruct (negb _); [done|].
  destruct (f k.1 k.2) as [e|]; [|done]. destruct (IsZero e); [done|]. intros p p'. unfold noted, connTracker in *. cbn [conns].
  destruct (decide (k = k')) as [->|Hk].
  - rewrite (lookup_insert_eq (M := gmap connKey)). by destruct (c !! k').
  - by rewrite (lookup_insert_ne (M := gmap connKey)).
Qed.

Lemma decode_noted k' cfg k x y r s o s' : decode cfg k x y r s = Ok (o, s') -> noted k' s' = noted k' s.
Proof.
  intros H. apply decode_conns in H as [H|[id H]]; [unfold noted; by rewrite H|]. unfold monitor_of in H.
  assert (conns s = conns s' -> noted k' s' = noted k' s) as Hsame by (intros E; unfold noted; by rewrite E).
  destruct (DatabaseMonitors cfg); [|injection H as <- E; auto]. destruct (IsInbound r); [|injection H as <- E; auto].
  destruct (_ && _); [|injection H as <- E; auto].
  pose proof (resolveInboundServer_noted k' k (inbound cfg) (conns s)) as Hn.
  destruct (resolveInboundServer _ _ _) as [[e|] c']; injection H as <- ->; destruct s, s'; apply Hn.
Qed.

(** The tracker holds what the events say. *)
Lemma handle_noted k cfg a s o s' :
  k.1 <> 0 -> k.2 <> 0 -> handle cfg a s = Ok (o, s') -> noted k s' = note k (noted k s) (event a).
Proof.
  intros H1 H2. unfold Bridge.handle, note. destruct (_ =? EventTypeConnectionOpen) eqn:Eo.
  { intros [= _ <-]. destruct (bool_decide_reflect ((Pid (event a), Fd (event a)) = k)) as [<-|Hk].
    - cbn [fst snd] in *. apply Z.eqb_neq in H1, H2. rewrite H1, H2. cbn [negb andb]. unfold noted, set_conns, connTracker.
      cbn [conns]. by rewrite (lookup_insert_eq (M := gmap connKey)).
    - destruct (_ && _); [|done]. unfold noted, set_conns, connTracker. cbn [conns].
      by rewrite (lookup_insert_ne (M := gmap connKey)). }
  destruct (_ || _)%bool eqn:Ec.
  { intros [= _ <-]. destruct (bool_decide_reflect ((Pid (event a), Fd (event a)) = k)) as [<-|Hk].
    - cbn [fst snd] in *. apply Z.eqb_neq in H1, H2. rewrite H1, H2. cbn [negb andb]. unfold noted, set_conns, connTracker.
      cbn [conns]. by rewrite (lookup_delete_eq (M := gmap connKey)).
    - destruct (_ && _); [|done]. unfold noted, set_conns, connTracker. cbn [conns].
      by rewrite (lookup_delete_ne (M := gmap connKey)). }
  intros H. assert (noted k s' = noted k s) as E; [|rewrite E; by destruct (bool_decide _)].
  destruct (_ =? EventTypeL7Request); [|by injection H as _ <-]. revert H. unfold Bridge.buildSpan.
  destruct (L7Request (event a)) as [r|]; [|by intros [= _ <-]]. destruct (negb _); [by intros [= _ <-]|].
  destruct (endpoints_of _ _ _) as [x y]. destruct (owner _ _ _ _ _) as [[[ns pod] svc] host].
  destruct (decode _ _ _ _ _ _) as [[d s1]|e] eqn:Ed; [|done]. apply (decode_noted k) in Ed.
  destruct d as [[name l]|]; by intros [= _ <-].
Qed.

Lemma run_invariant (I : state -> Prop) cfg l s out s' :
  (forall a s o s', I s -> handle cfg a s = Ok (o, s') -> I s') -> I s -> RunBridge cfg l s = Ok (out, s') -> I s'.
Proof.
  intros Hstep. revert s out. induction l as [|a l IH]; intros s out Hi H; cbn [Bridge.RunBridge] in H.
  { by injection H as _ <-. }
  destruct (handle cfg a s) as [[o s1]|e] eqn:Eh; [|done]. cbn in H.
  destruct (RunBridge cfg l s1) as [[rest s2]|e] eqn:Er; [|done]. injection H as _ <-. eapply IH, Er. by eapply Hstep.
Qed.

Lemma run_noted k cfg l s out s' :
  k.1 <> 0 -> k.2 <> 0 -> RunBridge cfg l s = Ok (out, s') -> noted k s' = foldl (note k) (noted k s) (event <$> l).
Proof.
  intros H1 H2. revert s out. induction l as [|a l IH]; intros s out H; cbn [Bridge.RunBridge] in H.
  { by injection H as _ <-. }
  destruct (handle cfg a s) as [[o s1]|e] eqn:Eh; [|done]. cbn in H.
  destruct (RunBridge cfg l s1) as [[rest s2]|e] eqn:Er; [|done]. injection H as _ <-.
  rewrite (IH s1 rest Er), (handle_noted k cfg a s o s1 H1 H2 Eh). done.
Qed.

Lemma run_one cfg a s sp s' : RunBridge cfg [a] s = Ok ([sp], s') -> handle cfg a s = Ok (Some sp, s').
Proof.
  cbn [Bridge.RunBridge]. destruct (handle cfg a s) as [[[sp'|] s1]|e]; [|done|done]. cbn. by intros [= <- <-].
Qed.

(** An outbound request whose event has no address has the address that its connection
    was opened to last, the translated one first, and none when the connection was closed
    since or never seen to open, whatever happened on other connections in between. *)
Theorem peer_is_last_opened cfg hist a r out sp s s' :
  RunBridge cfg hist new_state = Ok (out, s) -> RunBridge cfg [a] s = Ok ([sp], s') ->
  L7Request (event a) = Some r -> IsInbound r = false -> Pid (event a) <> 0 -> Fd (event a) <> 0 ->
  IsZero (ActualDstAddr (event a)) = true -> IsZero (DstAddr (event a)) = true ->
  let '(actual, original) := last_opened (Pid (event a), Fd (event a)) hist in
  let ip := (server_addr actual original).1 in
  Attributes sp !! "net.peer.ip" = if String.eqb ip "" then None else Some ip.
Proof.
  intros Hrun Hone Hr Hin Hp Hf Ha Hd. apply run_one, handle_inv in Hone as (r' & x & y & name & l & _ & Hr' & _ & He & Hdec & Hs).
  rewrite Hr in Hr'. injection Hr' as <-. apply decode_keys_ok in Hdec as (own & id & -> & Hown & _).
  pose proof (run_noted (Pid (event a), Fd (event a)) cfg hist new_state out s Hp Hf Hrun) as Hn.
  assert (noted (Pid (event a), Fd (event a)) s = (x, y) \/
          (noted (Pid (event a), Fd (event a)) s = (no_addr, no_addr) /\ server_addr x y = ("", 0))) as Hxy.
  { unfold endpoints_of in He. rewrite Hin, Ha, Hd in He. apply Z.eqb_neq in Hp, Hf. rewrite Hp, Hf in He. cbn [negb andb] in He.
    unfold noted. destruct (conns s !! _) as [info|]; [left; exact He|]. right. split; [done|].
    injection He as <- <-. unfold server_addr. by rewrite Ha, Hd. }
  change (noted _ new_state) with (no_addr, no_addr) in Hn. fold (last_opened (Pid (event a), Fd (event a)) hist) in Hn.
  rewrite <- Hn. unfold span_of in Hs. cbn zeta in Hs. destruct (owner _ _ _ _ _) as [[[ns pod] svc] host]. subst sp.
  cbn [Attributes]. rewrite verified_other by done. rewrite put_all_other.
  - assert (forall m : tagmap, match host with Some h => <["host.name" := h]> m | None => m end !! "net.peer.ip"
      = m !! "net.peer.ip") as Hhost by (intros m; destruct host; [by rewrite lookup_insert_ne|done]).
    rewrite Hhost, identity_peer. destruct Hxy as [->|[-> ->]]; done.
  - apply Forall_app. split; [|destruct (String.eqb id ""); repeat constructor; done].
    eapply Forall_impl; [exact Hown|]. intros p Hp' E. cbv beta in Hp'. rewrite E in Hp'. by apply peer_not_payload in Hp'.
Qed.

(** What attributes a span to a monitor. *)
Lemma handle_monitor cfg a s sp s' id :
  cached cfg (conns s) -> handle cfg a s = Ok (Some sp, s') ->
  Attributes sp !! Concentrator.DatabaseMonitorIDAttr = Some id ->
  exists r m u v, L7Request (event a) = Some r /\ Protocol r = ProtocolPostgres /\ IsInbound r = true /\ id <> "" /\
    DatabaseMonitors cfg = Some m /\ postgresMonitorID (Some m) u v = id /\
    ((u = ActualDstAddr (event a) /\ v = DstAddr (event a)) \/ (u = v /\ resolved cfg (Pid (event a), Fd (event a)) u)).
Proof.
  intros Hc H Hid. apply handle_inv in H as (r & x & y & name & l & _ & Hr & _ & He & Hdec & Hs).
  apply decode_keys_ok in Hdec as (own & id' & -> & Hown & Hmon).
  assert (id' = id /\ id <> "") as [-> Hne].
  { unfold span_of in Hs. cbn zeta in Hs. destruct (owner _ _ _ _ _) as [[[ns pod] svc] host]. subst sp.
    cbn [Attributes] in Hid. rewrite verified_other, put_all_app in Hid by done.
    destruct (String.eqb_spec id' "") as [->|Hne]; cbn [put_all foldl fst snd] in Hid.
    - rewrite put_all_other in Hid.
      + destruct host; [rewrite lookup_insert_ne in Hid by done|]; by rewrite identity_other in Hid by (by apply (bool_decide_unpack _)).
      + eapply Forall_impl; [exact Hown|]. intros p Hp E. cbv beta in Hp. rewrite E in Hp. by apply monitor_not_payload in Hp.
    - rewrite lookup_insert_eq in Hid. by injection Hid as ->. }
  destruct (Hmon Hne) as (Hproto & Hin & c & Hm).
  pose proof (monitor_of_cached cfg (Pid (event a), Fd (event a)) true x y (conns s) Hc) as H. rewrite Hm in H.
  destruct H as [_ H]. destruct (H Hne) as (m & u & v & Hd & Hpm & Huv).
  exists r, m, u, v. do 6 (split; [done|]). unfold endpoints_of in He. rewrite Hin in He. injection He as <- <-. exact Huv.
Qed.

Lemma run_spans (P : Span -> Prop) (I : state -> Prop) cfg l s out s' :
  (forall a s o s', I s -> handle cfg a s = Ok (o, s') -> I s') ->
  (forall a s sp s', a ∈ l -> I s -> handle cfg a s = Ok (Some sp, s') -> P sp) ->
  I s -> RunBridge cfg l s = Ok (out, s') -> Forall P out.
Proof.
  intros Hstep. revert s out. induction l as [|a l IH]; intros s out Hp Hi H; cbn [Bridge.RunBridge] in H.
  { injection H as <- _. constructor. }
  destruct (handle cfg a s) as [[o s1]|e] eqn:Eh; [|done]. cbn in H.
  destruct (RunBridge cfg l s1) as [[rest s2]|e] eqn:Er; [|done]. injection H as <- <-.
  assert (Forall P rest) as Hrest.
  { eapply (IH s1); [|by eapply Hstep|exact Er]. intros a' s0 sp s0' Ha. apply Hp. by right. }
  destruct o as [sp|]; [|exact Hrest]. constructor; [|exact Hrest]. eapply Hp; [by left|exact Hi|exact Eh].
Qed.

Lemma cached_new cfg : cached cfg (conns new_state).
Proof. intros k info H. done. Qed.

(** C23: with the registry of the pulled configuration, a pushed span is attributed to a
    monitored database only if its request was one of PostgreSQL that reached a server,
    and the last configuration claims, for that monitor and no other, an address of the
    event or the local address that the connection was found to have, as names and local addresses
    are resolved while the bridge runs, which is one way throughout. *)
Theorem monitored_spans_owned ParseIP LookupIP EqualFold order ds cfg l out s' :
  (forall m, order m ≡ₚ map_to_list m) ->
  DatabaseMonitors cfg = Some (DatabaseMonitor.MatchPostgresEndpoint ParseIP
                                 (DatabaseMonitorProps.registry ParseIP LookupIP EqualFold order ds)) ->
  RunBridge cfg l new_state = Ok (out, s') ->
  Forall (fun sp => forall id, Attributes sp !! Concentrator.DatabaseMonitorIDAttr = Some id ->
    exists a r e, a ∈ l /\ L7Request (event a) = Some r /\ Protocol r = ProtocolPostgres /\ IsInbound r = true /\
      (e = ActualDstAddr (event a) \/ e = DstAddr (event a) \/ resolved cfg (Pid (event a), Fd (event a)) e) /\
      let claims := DatabaseMonitorProps.claimed ParseIP LookupIP EqualFold ds in
      let key := DatabaseMonitor.endpointKey ParseIP (IP e) (Port e) in
      claims id key /\ forall id', claims id' key -> id' = id) out.
Proof.
  intros Ho Hm Hrun.
  apply (run_spans _ (fun s => cached cfg (conns s)) cfg l new_state out s');
    [intros a s o s1; apply handle_cached| |apply cached_new|exact Hrun].
  intros a s sp s1 Ha Hc Hh id Hid.
  destruct (handle_monitor cfg a s sp s1 id Hc Hh Hid) as (r & m & u & v & Hr & Hp & Hin & Hne & Hm' & Hpm & Huv).
  rewrite Hm in Hm'. injection Hm' as <-. destruct (postgresMonitorID_some _ u v id Hpm Hne) as [(e & He & _ & Hmatch) _].
  exists a, r, e. do 4 (split; [done|]). split.
  - destruct Huv as [[-> ->]|[-> Hres]]; [tauto|]. right. right. by destruct He as [->| ->].
  - by apply (DatabaseMonitorProps.match_sole ParseIP LookupIP EqualFold order Ho ds (IP e) (Port e) id Hne).
Qed.
End bridge.

(** ** A concrete run *)

Definition example_monitors : DatabaseMonitor.DatabaseMonitorRegistry :=
  DatabaseMonitorProps.registry Some (fun _ => None) String.eqb map_to_list DatabaseMonitorProps.example_deltas.
Definition example_cfg : BridgeConfig :=
  mk_config None "" "node-1" None None (Some (DatabaseMonitor.MatchPostgresEndpoint Some example_monitors))
    (Some (fun pid fd => if (pid =? 9) && (fd =? 4) then Some (mk_ipport "10.0.0.1" 5432) else None)).

Definition opened (pid fd : Z) (ip : string) : arrival :=
  mk_arrival (mk_event EventTypeConnectionOpen pid fd (mk_ipport ip 5432) no_addr None) 0 "" "".
Definition closed (pid fd : Z) : arrival :=
  mk_arrival (mk_event EventTypeConnectionClose pid fd no_addr no_addr None) 0 "" "".
Definition asked (pid fd : Z) (inbound_ : bool) (payload id : string) : arrival :=
  mk_arrival (mk_event EventTypeL7Request pid fd no_addr no_addr
                (Some (mk_request ProtocolPostgres 200 millisecond 0 0 payload inbound_))) minute id id.

Definition example_hist : list arrival :=
  [opened 7 3 "10.0.0.5"; asked 9 4 true (L7Props.pg_query "select 1") "s1"; closed 7 3; opened 7 3 "10.0.0.6";
   opened 7 4 "10.0.0.7"].
Definition example_ask : arrival := asked 7 3 false (L7Props.pg_query "select 2") "s2".
Abbreviation example_run := (Bridge.RunBridge id id example_cfg).
Definition spans_of (r : res (list Span * state)) : list Span := match r with Ok p => p.1 | Err _ => [] end.
Definition state_of (r : res (list Span * state)) : state := match r with Ok p => p.2 | Err _ => new_state end.

Lemma example_hist_runs :
  example_run example_hist new_state =
  Ok (spans_of (example_run example_hist new_state), state_of (example_run example_hist new_state)).
Proof. vm_compute. reflexivity. Qed.

Lemma bridge_spans_sound_witness :
  map SpanId (spans_of (example_run example_hist new_state)) = ["s1"] /\
  exists taken, sublist taken example_hist /\
    Forall2 (span_sound example_cfg) taken (spans_of (example_run example_hist new_state)).
Proof.
  split; [vm_compute; reflexivity|]. apply (bridge_spans_sound id id example_cfg example_hist new_state _ _ example_hist_runs).
Defined.

Definition example_state : state := state_of (example_run example_hist new_state).
Definition example_asked : res (list Span * state) := example_run [example_ask] example_state.
Definition example_span : Span :=
  match spans_of example_asked with sp :: _ => sp | [] => mk_span "" "" "" "" "" 0 0 0 0 "" "" "" ∅ end.

Lemma peer_is_last_opened_witness :
  example_run [example_ask] example_state = Ok ([example_span], state_of example_asked) /\
  last_opened (7, 3) example_hist = (no_addr, mk_ipport "10.0.0.6" 5432) /\
  (let '(actual, original) := last_opened (Pid (event example_ask), Fd (event example_ask)) example_hist in
   let ip := (server_addr actual original).1 in
   Attributes example_span !! "net.peer.ip" = if String.eqb ip "" then None else Some ip).
Proof.
  assert (example_run [example_ask] example_state = Ok ([example_span], state_of example_asked)) as H
    by (vm_compute; reflexivity).
  split; [exact H|]. split; [vm_compute; reflexivity|].
  apply (peer_is_last_opened id id example_cfg example_hist example_ask _ _ example_span _ _ example_hist_runs H
    eq_refl eq_refl ltac:(done) ltac:(done) eq_refl eq_refl).
Defined.

Lemma monitored_spans_owned_witness :
  map (fun sp => Attributes sp !! Concentrator.DatabaseMonitorIDAttr) (spans_of (example_run example_hist new_state))
  = [Some "m1"] /\
  Forall (fun sp => forall id', Attributes sp !! Concentrator.DatabaseMonitorIDAttr = Some id' ->
    exists a r e, a ∈ example_hist /\ L7Request (event a) = Some r /\ Protocol r = ProtocolPostgres /\
      IsInbound r = true /\
      (e = ActualDstAddr (event a) \/ e = DstAddr (event a) \/ resolved example_cfg (Pid (event a), Fd (event a)) e) /\
      let claims := DatabaseMonitorProps.claimed Some (fun _ => None) String.eqb DatabaseMonitorProps.example_deltas in
      let key := DatabaseMonitor.endpointKey Some (IP e) (Port e) in
      claims id' key /\ forall id'', claims id'' key -> id'' = id') (spans_of (example_run example_hist new_state)).
Proof.
  split; [vm_compute; reflexivity|].
  apply (monitored_spans_owned id id Some (fun _ => None) String.eqb map_to_list DatabaseMonitorProps.example_deltas
    example_cfg example_hist _ _ (fun m => ltac:(reflexivity)) eq_refl example_hist_runs).
Defined.

(** The statements of a connection outlive it: after the descriptor is closed and used for
    another server, a statement that was never prepared there is reported with the text of
    the old one. *)
Example statements_outlive_connection :
  map (fun sp => Attributes sp !! "db.statement")
    (spans_of (example_run [opened 7 3 "10.0.0.5"; asked 7 3 false (L7Props.pg_parse "st" "select secret" "") "a";
                            closed 7 3; opened 7 3 "10.0.0.6"; asked 7 3 false (L7Props.pg_bind "" "st" "") "b"] new_state))
  = [Some "PREPARE st AS select secret"; Some "select secret"].
Proof. vm_compute. reflexivity. Qed.

(** A protocol with no decoder is not dropped, and neither is an empty payload. *)
Example undecoded_is_pushed :
  let ask p := mk_arrival (mk_event EventTypeL7Request 7 3 no_addr no_addr
                 (Some (mk_request p 200 millisecond 0 0 "" false))) minute "t" "s" in
  map Name (spans_of (example_run [ask ProtocolKafka; ask ProtocolHTTP] new_state)) = ["Kafka"; ""].
Proof. vm_compute. reflexivity. Qed.
End BridgeProps.
