(* ===== verification/Webhook.v ===== *)
(** * The admission webhook (internal/webhook: mutate.go, node.go, policies.go, server.go;
    internal/k8smeta/workload.go; internal/k8sidentity/k8sidentity.go)

    The API server asks about each pod that is created.  The answer always allows it, with
    a JSON Patch that installs an agent when a runtime is selected by an annotation or by
    the central policies, or when the workload of a pod with Java containers is enabled.

    A pod is given by the fields that are decoded from its JSON.  A value of a patch is the
    JSON that encoding/json makes of it: fields that are empty and marked so are left out,
    the empty [emptyDir] of a volume among them.  Reading and writing JSON text and
    strings.ToLower are arguments. *)

From S2P Require Import Prelude GoStrings Wire Processing.
#[local] Open Scope Z_scope.

Module Webhook.
Import Processing(json, JNull, JBool, JNumber, JString, JArray, JObject).

(** ** Workloads (k8smeta) *)

Definition is_lower_alnum (c : Ascii.ascii) : bool :=
  let z := byte_of c in ((97 <=? z) && (z <=? 122)) || is_digit z.
Definition all_bytes (f : Ascii.ascii -> bool) (s : string) : bool := forallb f (String.list_ascii_of_string s).

Definition isAlnumLower (s : string) : bool := negb (String.eqb s "") && all_bytes is_lower_alnum s.
Definition isAllDigits (s : string) : bool := negb (String.eqb s "") && all_bytes (fun c => is_digit (byte_of c)) s.
Definition isPodSuffix (s : string) : bool := (str_len s =? 5) && isAlnumLower s.
Definition isReplicaSetHash (s : string) : bool :=
  (8 <=? str_len s) && (str_len s <=? 10) && isAlnumLower s &&
  existsb (fun c => is_digit (byte_of c)) (String.list_ascii_of_string s).

Definition WorkloadOf (pod : string) : string :=
  if String.eqb pod "" then pod
  else
    let parts := split "-" pod in
    if (length parts <? 2)%nat then pod
    else
      let last := List.last parts "" in
      if negb (isPodSuffix last) && negb (isAllDigits last) then pod
      else
        let last_ := (length parts - 1)%nat in
        let last_ := if (2 <=? last_)%nat && isReplicaSetHash (nth (last_ - 1) parts "") then (last_ - 1)%nat else last_ in
        join "-" (take last_ parts).

(** ** Identity (k8sidentity) *)

Definition identity_keys (kind : string) : list string :=
  if String.eqb kind "service"
  then ["telvyn.io/service"; "resource.opentelemetry.io/service.name"; "app.kubernetes.io/name"]
  else if String.eqb kind "env" then ["telvyn.io/env"; "resource.opentelemetry.io/deployment.environment"]
  else if String.eqb kind "version"
  then ["telvyn.io/version"; "resource.opentelemetry.io/service.version"; "app.kubernetes.io/version"]
  else [].

Definition Lookup (labels annotations : tagmap) (kind : string) : string :=
  foldr (fun key rest =>
    if negb (String.eqb (tag key labels) "") then tag key labels
    else if negb (String.eqb (tag key annotations) "") then tag key annotations
    else rest) "" (identity_keys kind).

(** ** Pods *)

(** [ValueFrom]: nil, or with the path of its [FieldRef], which may be nil too. *)
Record envVar := mk_env { env_Name : string; env_Value : string; env_ValueFrom : option (option string) }.
Record volumeMount := mk_mount { mount_Name : string; MountPath : string; ReadOnly : bool }.

(** [EnvFrom] is only counted. *)
Record container := mk_container {
  ct_Name : string;
  Image : string;
  Env : list envVar;
  EnvFrom : nat;
  VolumeMounts : list volumeMount;
}.

Record ownerReference := mk_owner { owner_Name : string; owner_Kind : string }.

Record podMeta := mk_pod {
  serviceName : string;
  clusterName : string;
  pod_Name : string;
  pod_Namespace : string;
  Annotations : tagmap;
  Labels : tagmap;
  GenerateName : string;
  OwnerReferences : list ownerReference;
  Containers : list container;
  InitContainers : list container;
  Volumes : list string;      (* their names *)
}.

Definition set_serviceName (s : string) (p : podMeta) : podMeta :=
  mk_pod s (clusterName p) (pod_Name p) (pod_Namespace p) (Annotations p) (Labels p) (GenerateName p)
    (OwnerReferences p) (Containers p) (InitContainers p) (Volumes p).
Definition set_clusterName (s : string) (p : podMeta) : podMeta :=
  mk_pod (serviceName p) s (pod_Name p) (pod_Namespace p) (Annotations p) (Labels p) (GenerateName p)
    (OwnerReferences p) (Containers p) (InitContainers p) (Volumes p).

Definition podIdentity (p : podMeta) (kind : string) : string := Lookup (Labels p) (Annotations p) kind.

Definition runtimeServiceName (p : podMeta) (containerName : string) : string :=
  let service := podIdentity p "service" in
  if negb (String.eqb service "") then service
  else if negb (String.eqb (serviceName p) "") then serviceName p
  else containerName.

(** ** Patches *)

Record patchOp := mk_op { Op : string; Path : string; Value : json }.

Definition obj (l : list (string * json)) : json := JObject (list_to_map l).
Definition env_json (e : envVar) : json :=
  obj ([("name", JString (env_Name e))]
       ++ (if String.eqb (env_Value e) "" then [] else [("value", JString (env_Value e))])
       ++ match env_ValueFrom e with
          | None => []
          | Some None => [("valueFrom", obj [])]
          | Some (Some path) => [("valueFrom", obj [("fieldRef", obj [("fieldPath", JString path)])])]
          end).
Definition mount_json (m : volumeMount) : json :=
  obj ([("name", JString (mount_Name m)); ("mountPath", JString (MountPath m))]
       ++ (if ReadOnly m then [("readOnly", JBool true)] else [])).
(** A volume with an empty [emptyDir], which is left out. *)
Definition volume_json (name : string) : json := obj [("name", JString name)].

Definition resources_json (memory : string) : json :=
  obj [("requests", obj [("cpu", JString "10m"); ("memory", JString "16Mi")]);
       ("limits", obj [("cpu", JString "100m"); ("memory", JString memory)])].
Definition init_json (name image command mount path memory : string) : json :=
  obj [("name", JString name); ("image", JString image); ("imagePullPolicy", JString "IfNotPresent");
       ("command", JArray [JString "sh"; JString "-c"; JString command]);
       ("volumeMounts", JArray [mount_json (mk_mount mount path false)]);
       ("resources", resources_json memory)].

(** [itoa]: the digits are written from the end of a buffer of twenty bytes. *)
Fixpoint itoa_loop (fuel : nat) (i : Z) (acc : string) : string :=
  match fuel with
  | O => acc
  | S fuel => if 0 <? i then itoa_loop fuel (i ÷ 10) (String (chr (48 + Z.rem i 10)) acc) else acc
  end.
Definition itoa (i : Z) : string := if i =? 0 then "0" else itoa_loop 20 i "".

Definition containerPath (idx : nat) (subpath : string) : string :=
  "/spec/containers/" +:+ itoa (Z.of_nat idx) +:+ subpath.

Definition fieldRef (path : string) : option (option string) := Some (Some path).
Definition plain (name value : string) : envVar := mk_env name value None.
Definition from_field (name path : string) : envVar := mk_env name "" (fieldRef path).

Definition contains_any (chars s : string) : bool :=
  existsb (fun c => existsb (Ascii.eqb c) (String.list_ascii_of_string chars)) (String.list_ascii_of_string s).

(** The attributes of identity that are known and can be written. *)
Definition identity_attributes (p : podMeta) : list string :=
  (fun t => t.1 +:+ "=" +:+ t.2) <$>
  filter (fun t => negb (String.eqb t.2 "") && negb (contains_any (",=" +:+ of_bytes [13; 10]) t.2) = true)
    [("k8s.cluster.name", clusterName p); ("deployment.environment", podIdentity p "env");
     ("service.version", podIdentity p "version")].

(** "add" of a first element or of one more, where [none] says that there are none yet. *)
Definition add_element (none : bool) (path : string) (v : json) : patchOp :=
  if none then mk_op "add" path (JArray [v]) else mk_op "add" (path +:+ "/-") v.
Definition add_elements (none : bool) (path : string) (vs : list json) : list patchOp :=
  if none then [mk_op "add" path (JArray vs)] else mk_op "add" (path +:+ "/-") <$> vs.
Definition is_nil {A} (l : list A) : bool := match l with [] => true | _ => false end.

Section webhook.
Variable ToLower : string -> string.

(** *** Node, Python, .NET, Ruby and PHP *)

(** The names of a selection, each once. *)
Fixpoint selection (names : list string) (targets : gset string) : res (gset string) :=
  match names with
  | [] => Ok targets
  | name :: names =>
      let name := trim_space name in
      if String.eqb name "" || bool_decide (name ∈ targets) then Err "invalid container selection"
      else selection names ({[ name ]} ∪ targets)
  end.

(** What is merged into a variable of a container: the value and what separates it. *)
Definition merged_into (language mountPath optionsName optionsValue separator : string) (name : string)
    : option (string * string) :=
  if String.eqb language "dotnet" && String.eqb name "ASPNETCORE_HOSTINGSTARTUPASSEMBLIES" then Some ("Telvyn.Agent", ";")
  else if String.eqb language "dotnet" && String.eqb name "DOTNET_SHARED_STORE" then Some (mountPath +:+ "/store", ":")
  else if String.eqb name optionsName then Some (optionsValue, separator)
  else None.

Fixpoint merge_env (merge : string -> option (string * string)) (idx : nat) (i : nat) (env : list envVar)
    : res (list patchOp) :=
  match env with
  | [] => Ok []
  | e :: env =>
      match merge (env_Name e) with
      | None => merge_env merge idx (S i) env
      | Some (value, delimiter) =>
          if bool_decide (is_Some (env_ValueFrom e)) || contains "telvyn" (ToLower (env_Value e))
          then Err "managed or indirect"
          else
            let merged := if String.eqb (env_Value e) "" then value else value +:+ delimiter +:+ env_Value e in
            ops ← merge_env merge idx (S i) env;
            Ok (mk_op "add" (containerPath idx ("/env/" +:+ itoa (Z.of_nat i) +:+ "/value")) (JString merged) :: ops)
      end
  end.

(** The variables that a container gets, those it has already left out. *)
Definition runtime_env (p : podMeta) (c : container) (endpoint optionsName optionsValue : string)
    (settings : list envVar) : list envVar :=
  let attributes := ["k8s.pod.name=$(TELVYN_POD_NAME)"; "k8s.namespace.name=$(TELVYN_POD_NAMESPACE)";
                     "k8s.container.name=" +:+ ct_Name c] ++ identity_attributes p in
  filter (fun e => existsb (fun own => String.eqb (env_Name own) (env_Name e)) (Env c) = false)
    ([plain optionsName optionsValue; from_field "NODE_IP" "status.hostIP";
      plain "OTEL_EXPORTER_OTLP_ENDPOINT" endpoint; plain "OTEL_EXPORTER_OTLP_PROTOCOL" "http/protobuf";
      plain "OTEL_SERVICE_NAME" (runtimeServiceName p (ct_Name c));
      from_field "TELVYN_POD_NAME" "metadata.name"; from_field "TELVYN_POD_NAMESPACE" "metadata.namespace";
      plain "OTEL_RESOURCE_ATTRIBUTES" (join "," attributes)] ++ settings).

Record runtime := mk_runtime {
  language : string;
  optionsName : string;
  optionsValue : string;
  separator : string;
  settings : list envVar;
}.

Definition volumeName (r : runtime) : string := "telvyn-" +:+ language r +:+ "-agent".
Definition mountPath (r : runtime) : string := "/opt/telvyn/" +:+ language r.

(** The operations for one selected container. *)
Definition container_ops (r : runtime) (p : podMeta) (endpoint : string) (idx : nat) (c : container) : res (list patchOp) :=
  if (0 <? EnvFrom c)%nat then Err "uses envFrom"
  else if existsb (fun m => String.eqb (mount_Name m) (volumeName r) || String.eqb (MountPath m) (mountPath r)) (VolumeMounts c)
  then Err "conflicting mount"
  else
    merges ← merge_env (merged_into (language r) (mountPath r) (optionsName r) (optionsValue r) (separator r)) idx 0 (Env c);
    Ok (merges
        ++ add_elements (is_nil (Env c)) (containerPath idx "/env")
             (env_json <$> runtime_env p c endpoint (optionsName r) (optionsValue r) (settings r))
        ++ [add_element (is_nil (VolumeMounts c)) (containerPath idx "/volumeMounts")
              (mount_json (mk_mount (volumeName r) (mountPath r) true))]).

(** The containers from number [idx] on; a target is found once. *)
Fixpoint containers_ops (r : runtime) (p : podMeta) (endpoint : string) (idx : nat) (cs : list container)
    (targets : gset string) : res (list patchOp * gset string) :=
  match cs with
  | [] => Ok ([], targets)
  | c :: cs =>
      if bool_decide (ct_Name c ∈ targets) then
        ops ← container_ops r p endpoint idx c;
        rest ← containers_ops r p endpoint (S idx) cs (targets ∖ {[ ct_Name c ]});
        Ok (ops ++ rest.1, rest.2)
      else containers_ops r p endpoint (S idx) cs targets
  end.

Definition runtimePatch (r : runtime) (p : podMeta) (selected image endpoint : string) : res (list patchOp) :=
  if String.eqb image "" then Err "agent image is not configured"
  else if existsb (String.eqb (volumeName r)) (Volumes p) then Err "reserved volume already exists"
  else if existsb (fun c => String.eqb (ct_Name c) (volumeName r)) (InitContainers p)
  then Err "reserved init container already exists"
  else
    targets ← selection (split "," selected) ∅;
    found ← containers_ops r p endpoint 0 (Containers p) targets;
    if negb (bool_decide (found.2 = ∅)) then Err "selected container does not exist"
    else
      Ok (found.1
          ++ [add_element (is_nil (Volumes p)) "/spec/volumes" (volume_json (volumeName r));
              add_element (is_nil (InitContainers p)) "/spec/initContainers"
                (init_json (volumeName r) image ("cp -R " +:+ mountPath r +:+ "/. /target/") (volumeName r) "/target" "64Mi")]).

Definition node : runtime := mk_runtime "node" "NODE_OPTIONS" "--require=/opt/telvyn/node/bootstrap.cjs" " " [].
Definition python : runtime :=
  mk_runtime "python" "PYTHONPATH" "/opt/telvyn/python" ":"
    [plain "OTEL_PYTHON_DISTRO" "telvyn"; plain "OTEL_TRACES_EXPORTER" "telvyn"; plain "OTEL_METRICS_EXPORTER" "none";
     plain "OTEL_LOGS_EXPORTER" "none"].
Definition dotnet : runtime :=
  mk_runtime "dotnet" "DOTNET_ADDITIONAL_DEPS" "/opt/telvyn/dotnet/Telvyn.Agent.deps.json" ":"
    [plain "DOTNET_SHARED_STORE" "/opt/telvyn/dotnet/store"; plain "ASPNETCORE_HOSTINGSTARTUPASSEMBLIES" "Telvyn.Agent"].
Definition ruby : runtime := mk_runtime "ruby" "RUBYOPT" "-r/opt/telvyn/ruby/inject.rb" " " [].
Definition php : runtime := mk_runtime "php" "PHP_INI_SCAN_DIR" "/opt/telvyn/php/injection:" ":" [].

Definition nodePatch := runtimePatch node.
Definition pythonPatch := runtimePatch python.
Definition dotnetPatch := runtimePatch dotnet.
Definition rubyPatch := runtimePatch ruby.
Definition phpPatch := runtimePatch php.

(** *** Java *)

Definition java_images : list string := ["java"; "jdk"; "openjdk"; "temurin"; "corretto"; "graalvm"; "quarkus"].

Definition is_java (c : container) : bool :=
  existsb (fun k => contains k (ToLower (Image c))) java_images ||
  existsb (fun e => String.eqb (env_Name e) "JAVA_TOOL_OPTIONS" || String.eqb (env_Name e) "JAVA_OPTS") (Env c).

Definition findJavaContainers (cs : list container) : list nat :=
  (fun p : nat * container => p.1) <$> filter (fun p => is_java p.2 = true) (imap pair cs).

(** The first variable of a name, with its number. *)
Definition find_env (name : string) (env : list envVar) : option (nat * envVar) :=
  list_find (fun e => env_Name e = name) env.

Definition java_option (javaAgentImage : string) : string :=
  "-javaagent:/otel/javaagent.jar" +:+
  (if String.eqb javaAgentImage "" then "" else " -javaagent:/opt/telvyn/java/telvyn-javaagent.jar").

Definition java_env (p : podMeta) (c : container) (otlpEnvValue otlpProtocol service : string) : list envVar :=
  let attributes := ["k8s.namespace.name=$(POD_NAMESPACE)"; "k8s.pod.name=$(POD_NAME)"; "k8s.container.name=" +:+ ct_Name c]
                    ++ identity_attributes p in
  [from_field "NODE_IP" "status.hostIP"; from_field "POD_NAME" "metadata.name";
   from_field "POD_NAMESPACE" "metadata.namespace"; plain "OTEL_EXPORTER_OTLP_ENDPOINT" otlpEnvValue;
   plain "OTEL_EXPORTER_OTLP_PROTOCOL" otlpProtocol; plain "OTEL_SERVICE_NAME" service;
   plain "OTEL_RESOURCE_ATTRIBUTES" (join "," attributes); plain "OTEL_LOGS_EXPORTER" "none";
   plain "OTEL_METRICS_EXPORTER" "otlp"; plain "OTEL_TRACES_EXPORTER" "otlp"].

Definition telvyn_mount : volumeMount := mk_mount "telvyn-java-agent" "/opt/telvyn/java" true.

Definition java_container_ops (p : podMeta) (javaAgentImage otlpEnvValue otlpProtocol service : string) (idx : nat)
    : list patchOp :=
  let c := nth idx (Containers p) (mk_container "" "" [] 0 []) in
  let envs := java_env p c otlpEnvValue otlpProtocol service in
  let agentOpt := java_option javaAgentImage in
  [add_element (is_nil (VolumeMounts c)) (containerPath idx "/volumeMounts") (mount_json (mk_mount "telvyn-otel" "/otel" true))]
  ++ (if String.eqb javaAgentImage "" then []
      else [mk_op "add" (containerPath idx "/volumeMounts/-") (mount_json telvyn_mount)])
  ++ match find_env "JAVA_TOOL_OPTIONS" (Env c) with
     | Some (i, e) =>
         mk_op "replace" (containerPath idx ("/env/" +:+ itoa (Z.of_nat i) +:+ "/value"))
           (JString (trim_space (env_Value e +:+ " " +:+ agentOpt)))
         :: add_elements (is_nil (Env c)) (containerPath idx "/env") (env_json <$> envs)
     | None => add_elements (is_nil (Env c)) (containerPath idx "/env")
                 (env_json <$> (plain "JAVA_TOOL_OPTIONS" agentOpt :: envs))
     end.

Definition buildPatch (p : podMeta) (javaIdx : list nat)
    (agentImage javaAgentImage otlpEnvValue otlpProtocol service : string) : list patchOp :=
  let telvyn := negb (String.eqb javaAgentImage "") in
  [add_element (is_nil (Volumes p)) "/spec/volumes" (volume_json "telvyn-otel")]
  ++ (if telvyn then [mk_op "add" "/spec/volumes/-" (volume_json "telvyn-java-agent")] else [])
  ++ [add_element (is_nil (InitContainers p)) "/spec/initContainers"
        (init_json "telvyn-otel-init" agentImage "cp /opt/otel/javaagent.jar /otel/javaagent.jar && chmod 0644 /otel/javaagent.jar"
           "telvyn-otel" "/otel" "32Mi")]
  ++ (if telvyn
      then [mk_op "add" "/spec/initContainers/-"
              (init_json "telvyn-java-agent" javaAgentImage "cp -R /opt/telvyn/java/. /target/" "telvyn-java-agent" "/target" "64Mi")]
      else [])
  ++ (javaIdx ≫= java_container_ops p javaAgentImage otlpEnvValue otlpProtocol service).

(** ** The server *)

Record Config := mk_config {
  Cluster : string;
  ListenAddr : string;
  CertDir : string;
  IngestURL : string;
  Token : string;
  AgentImage : string;
  NodeAgentImage : string;
  PythonAgentImage : string;
  DotnetAgentImage : string;
  RubyAgentImage : string;
  PhpAgentImage : string;
  JavaAgentImage : string;
  OtlpEndpointEnv : string;
  OtlpProtocol : string;
}.

Record runtimePolicy := mk_policy {
  Namespace : string;
  Workload : string;
  Container : string;
  Language : string;
  policy_Image : string;
}.

Record Server := mk_server {
  cfg : Config;
  enable : gset string;
  runtimePolicies : list runtimePolicy;
  runtimePoliciesAt : Z;
}.

Definition or_default (a b : string) : string := if String.eqb a "" then b else a.
Definition New (c : Config) : Server :=
  mk_server (mk_config (Cluster c) (or_default (ListenAddr c) ":8443") (or_default (CertDir c) "/etc/telvyn/webhook")
               (IngestURL c) (Token c) (or_default (AgentImage c) "localhost/telvyn-agent:local") (NodeAgentImage c)
               (PythonAgentImage c) (DotnetAgentImage c) (RubyAgentImage c) (PhpAgentImage c) (JavaAgentImage c)
               (or_default (OtlpEndpointEnv c) "http://$(NODE_IP):4318") (or_default (OtlpProtocol c) "http/protobuf"))
    ∅ [] zero_time.

(** *** Selection *)

(** The workloads that a pod may belong to, each once, in order. *)
Definition add_candidate (w : string) (l : list string) : list string :=
  if String.eqb w "" || existsb (String.eqb w) l then l else l ++ [w].
Definition candidateWorkloads (p : podMeta) : list string :=
  let l := if String.eqb (pod_Name p) "" then [] else add_candidate (WorkloadOf (pod_Name p)) [] in
  let gn := GenerateName p in
  let l := if String.eqb gn "" then l
           else add_candidate (WorkloadOf (trim_suffix "-" gn)) (add_candidate (WorkloadOf (gn +:+ "00000")) l) in
  foldl (fun l o => add_candidate (WorkloadOf (owner_Name o +:+ "-00000")) (add_candidate (WorkloadOf (owner_Name o)) l))
    l (OwnerReferences p).

Definition matchWorkload (s : Server) (p : podMeta) (ns : string) : option string :=
  List.find (fun w => bool_decide (ns +:+ "/" +:+ w ∈ enable s)) (candidateWorkloads p).

Definition policy_fits (p : podMeta) (namespace workload : string) (policy : runtimePolicy) : bool :=
  String.eqb (Namespace policy) namespace && String.eqb (Workload policy) workload &&
  existsb (fun c => String.eqb (ct_Name c) (Container policy) && String.eqb (Image c) (policy_Image policy)) (Containers p).

Fixpoint first_policy (p : podMeta) (namespace : string) (policies : list runtimePolicy) (owners : list ownerReference)
    : option runtimePolicy :=
  match owners with
  | [] => None
  | o :: owners =>
      if negb (String.eqb (owner_Kind o) "ReplicaSet") then first_policy p namespace policies owners
      else
        match List.find (policy_fits p namespace (WorkloadOf (owner_Name o +:+ "-00000"))) policies with
        | Some policy => Some policy
        | None => first_policy p namespace policies owners
        end
  end.

Definition runtimeSelection (s : Server) (now : Z) (p : podMeta) (namespace : string) : option runtimePolicy :=
  if minute <? time_sub now (runtimePoliciesAt s) then None
  else first_policy p namespace (runtimePolicies s) (OwnerReferences p).

(** *** Decisions *)

Definition injections (c : Config) : list (runtime * string) :=
  [(node, NodeAgentImage c); (python, PythonAgentImage c); (dotnet, DotnetAgentImage c); (ruby, RubyAgentImage c);
   (php, PhpAgentImage c)].

Definition annotation (p : podMeta) (language : string) : string :=
  tag ("instrumentation.telvyn.io/" +:+ language +:+ "-containers") (Annotations p).

(** The runtime that is selected: none, one, or several in conflict. *)
Fixpoint select_runtime (p : podMeta) (central : option runtimePolicy) (l : list (runtime * string))
    (selected : option (runtime * string)) : res (option (runtime * string)) :=
  match l with
  | [] => Ok selected
  | i :: l =>
      let wanted := match central with Some c => String.eqb (Language c) (language i.1) | None => false end ||
                    negb (String.eqb (annotation p (language i.1)) "") in
      if wanted then match selected with
                     | Some _ => Err "conflicting runtime selections"
                     | None => select_runtime p central l (Some i)
                     end
      else select_runtime p central l selected
  end.

Record AdmissionRequest := mk_request { UID : string; Kind : string; req_Namespace : string; Object : string }.
(** A patch of no bytes is left out of the answer. *)
Record AdmissionResponse := mk_response { res_UID : string; Allowed : bool; Patch : string; PatchType : string }.

Variable unmarshal_pod : string -> option podMeta.
Variable marshal : list patchOp -> string.

(** The operations for a pod, None where it is left alone. *)
Definition pod_patch (s : Server) (now : Z) (p : podMeta) (ns : string) : option (list patchOp) :=
  let central := runtimeSelection s now p ns in
  let p := match central with Some c => set_serviceName (Workload c) p | None => p end in
  match select_runtime p central (injections (cfg s)) None with
  | Err _ => None
  | Ok (Some (r, image)) =>
      let own := annotation p (language r) in
      match central with
      | Some c =>
          if negb (String.eqb own "") && negb (String.eqb own (Container c)) then None
          else match runtimePatch r p (Container c) image (OtlpEndpointEnv (cfg s)) with Ok ops => Some ops | Err _ => None end
      | None => match runtimePatch r p own image (OtlpEndpointEnv (cfg s)) with Ok ops => Some ops | Err _ => None end
      end
  | Ok None =>
      match matchWorkload s p ns with
      | None => None
      | Some workload =>
          match findJavaContainers (Containers p) with
          | [] => None
          | javaContainers =>
              let service := or_default (podIdentity p "service") workload in
              Some (buildPatch p javaContainers (AgentImage (cfg s)) (JavaAgentImage (cfg s)) (OtlpEndpointEnv (cfg s))
                      (OtlpProtocol (cfg s)) service)
          end
      end
  end.

Definition decide (s : Server) (now : Z) (req : AdmissionRequest) : AdmissionResponse :=
  let out := mk_response (UID req) true "" "" in
  if negb (String.eqb (Kind req) "Pod") then out
  else
    match unmarshal_pod (Object req) with
    | None => out
    | Some p =>
        let ns := or_default (req_Namespace req) (pod_Namespace p) in
        match pod_patch s now (set_clusterName (Cluster (cfg s)) p) ns with
        | Some (o :: ops) => mk_response (UID req) true (marshal (o :: ops)) "JSONPatch"
        | _ => out
        end
    end.

(** *** The handler *)

Record AdmissionReview := mk_review { APIVersion : string; review_Kind : string; Request : option AdmissionRequest }.
Variable unmarshal_review : string -> option AdmissionReview.

(** The status, and the review that is written. *)
Definition handleMutate (s : Server) (now : Z) (body : option string)
    : Z * option (string * string * AdmissionResponse) :=
  match body with
  | None => (400, None)
  | Some body =>
      match unmarshal_review body with
      | None => (400, None)
      | Some review =>
          match Request review with
          | None => (400, None)
          | Some req => (200, Some (APIVersion review, review_Kind review, decide s now req))
          end
      end
  end.

(** *** Polls *)

Fixpoint trim_left_slashes (s : string) : string :=
  match s with String c r => if byte_of c =? 47 then trim_left_slashes r else s | "" => "" end.
Definition trim_right_slashes (s : string) : string := str_rev (trim_left_slashes (str_rev s)).

(** The address and the body of the request for the policies, None when there is none. *)
Definition policies_request (c : Config) : option (string * string * tagmap) :=
  if String.eqb (Cluster c) "" then None
  else
    let packages := filter (fun e => e.2 <> "")
                      [("node", NodeAgentImage c); ("python", PythonAgentImage c); ("dotnet", DotnetAgentImage c);
                       ("ruby", RubyAgentImage c); ("php", PhpAgentImage c)] in
    Some (trim_suffix "/api/ingest/v1" (trim_right_slashes (IngestURL c)) +:+ "/api/ingest/v1/k8s/runtime-instrumentation",
          Cluster c, list_to_map packages).

(** [answer]: None when the request fails, or the status and the decoded body. *)
Definition pollRuntimePolicies (now : Z) (answer : option (Z * option (list runtimePolicy))) (s : Server) : Server :=
  if String.eqb (Cluster (cfg s)) "" then s
  else match answer with
       | Some (status, Some entries) => if status =? 200 then mk_server (cfg s) (enable s) entries now else s
       | _ => s
       end.

Record instrEntry := mk_entry { entry_Namespace : string; entry_Pod : string; entry_Workload : string; Mode : string }.

Definition enabled_by (entries : list instrEntry) : gset string :=
  foldl (fun next e =>
    if String.eqb (Mode e) "java_javaagent"
    then {[ entry_Namespace e +:+ "/" +:+ or_default (entry_Workload e) (WorkloadOf (entry_Pod e)) ]} ∪ next
    else next) ∅ entries.

Definition poll (now : Z) (policies : option (Z * option (list runtimePolicy)))
    (answer : option (Z * option (list instrEntry))) (s : Server) : Server :=
  let s := pollRuntimePolicies now policies s in
  match answer with
  | Some (status, Some entries) =>
      if status ÷ 100 =? 2 then mk_server (cfg s) (enabled_by entries) (runtimePolicies s) (runtimePoliciesAt s) else s
  | _ => s
  end.
End webhook.
End Webhook.
