(* ===== verification/WebhookProps.v ===== *)
(** * What the admission webhook promises

    The patch for the runtimes applies to the pod it was made for and gives the pod with
    the agent installed in the selected containers and nothing else changed; a pod that
    nothing selects is left alone, and every pod is allowed. *)

From S2P Require Import Prelude GoStrings Wire Processing Webhook.
#[local] Open Scope Z_scope.

Module WebhookProps.
Import Webhook.
Import Processing(json, JNull, JBool, JNumber, JString, JArray, JObject).

(** ** JSON Patch (RFC 6902), as the API server applies it *)

(** The tokens of a JSON pointer; those here have no escapes. *)
Definition slash : Ascii.ascii := chr 47.
Fixpoint pieces (s : string) : list string :=
  match s with
  | "" => [""]
  | String c r =>
      match pieces r with
      | t :: ts => if Ascii.eqb c slash then "" :: t :: ts else String c t :: ts
      | [] => []
      end
  end.
Definition tokens (path : string) : list string := tail (pieces path).

Definition index (t : string) : option nat :=
  if String.eqb t "" then None else Z.to_nat <$> digits_value 0 t.

Fixpoint add_at (toks : list string) (v d : json) : option json :=
  match toks with
  | [] => Some v
  | t :: ts =>
      match d with
      | JObject m =>
          match ts with
          | [] => Some (JObject (<[t := v]> m))
          | _ => d ← m !! t; d' ← add_at ts v d; Some (JObject (<[t := d']> m))
          end
      | JArray l =>
          match ts with
          | [] => if String.eqb t "-" then Some (JArray (l ++ [v]))
                  else i ← index t; if (i <=? length l)%nat then Some (JArray (take i l ++ v :: drop i l)) else None
          | _ => i ← index t; d ← l !! i; d' ← add_at ts v d; Some (JArray (<[i := d']> l))
          end
      | _ => None
      end
  end.

(** "replace": the target has to be there. *)
Fixpoint replace_at (toks : list string) (v d : json) : option json :=
  match toks with
  | [] => Some v
  | t :: ts =>
      match d with
      | JObject m => d ← m !! t; d' ← replace_at ts v d; Some (JObject (<[t := d']> m))
      | JArray l => i ← index t; d ← l !! i; d' ← replace_at ts v d; Some (JArray (<[i := d']> l))
      | _ => None
      end
  end.

Definition apply_op (o : patchOp) (d : json) : option json :=
  if String.eqb (Op o) "add" then add_at (tokens (Path o)) (Value o) d
  else if String.eqb (Op o) "replace" then replace_at (tokens (Path o)) (Value o) d
  else None.
Fixpoint apply_ops (ops : list patchOp) (d : json) : option json :=
  match ops with [] => Some d | o :: ops => d' ← apply_op o d; apply_ops ops d' end.

(** *** Additions under a common prefix *)

Definition adds : Type := list (list string * json).
Fixpoint apply_adds (l : adds) (d : json) : option json :=
  match l with [] => Some d | a :: l => d' ← add_at a.1 a.2 d; apply_adds l d' end.
Definition under (t : string) (l : adds) : adds := (fun a => (t :: a.1, a.2)) <$> l.
Definition deep (l : adds) : Prop := Forall (fun a => a.1 <> []) l.

Lemma apply_adds_app l l' d : apply_adds (l ++ l') d = apply_adds l d ≫= apply_adds l'.
Proof. revert d. induction l as [|a l IH]; intros d; [done|]. cbn. destruct (add_at a.1 a.2 d); cbn; [apply IH|done]. Qed.

Lemma add_object t t' ts v m d :
  m !! t = Some d -> add_at (t :: t' :: ts) v (JObject m) = (d' ← add_at (t' :: ts) v d; Some (JObject (<[t := d']> m))).
Proof.
  intros H. change (add_at (t :: t' :: ts) v (JObject m))
    with (d ← m !! t; d' ← add_at (t' :: ts) v d; Some (JObject (<[t := d']> m))). by rewrite H.
Qed.
Lemma add_array t i t' ts v js d :
  index t = Some i -> js !! i = Some d ->
  add_at (t :: t' :: ts) v (JArray js) = (d' ← add_at (t' :: ts) v d; Some (JArray (<[i := d']> js))).
Proof.
  intros Hi H. change (add_at (t :: t' :: ts) v (JArray js))
    with (i ← index t; d ← js !! i; d' ← add_at (t' :: ts) v d; Some (JArray (<[i := d']> js))).
  rewrite Hi. cbn [mbind option_bind]. by rewrite H.
Qed.

Lemma under_object t l m d :
  deep l -> m !! t = Some d -> apply_adds (under t l) (JObject m) = (d' ← apply_adds l d; Some (JObject (<[t := d']> m))).
Proof.
  intros Hl. revert m d. induction Hl as [|a l Ha Hl IH]; intros m d Hd; cbn [under fmap list_fmap apply_adds].
  { cbn. by rewrite insert_id. }
  destruct a as [[|t' ts] v]; [done|]. cbn [fst snd]. rewrite (add_object t t' ts v m d Hd).
  destruct (add_at (t' :: ts) v d) as [d'|]; [|done]. cbn [mbind option_bind].
  fold (under t l). rewrite (IH _ d') by apply lookup_insert_eq. destruct (apply_adds l d') as [d''|]; [|done]. cbn.
  by rewrite insert_insert_eq.
Qed.

Lemma under_array t i l js d :
  deep l -> index t = Some i -> js !! i = Some d ->
  apply_adds (under t l) (JArray js) = (d' ← apply_adds l d; Some (JArray (<[i := d']> js))).
Proof.
  intros Hl Ht. revert js d. induction Hl as [|a l Ha Hl IH]; intros js d Hd; cbn [under fmap list_fmap apply_adds].
  { cbn. by rewrite list_insert_id. }
  destruct a as [[|t' ts] v]; [done|]. cbn [fst snd]. rewrite (add_array t i t' ts v js d Ht Hd).
  destruct (add_at (t' :: ts) v d) as [d'|]; [|done]. cbn [mbind option_bind].
  fold (under t l). rewrite (IH _ d') by (apply list_lookup_insert_eq; by eapply lookup_lt_Some).
  destruct (apply_adds l d') as [d''|]; [|done]. cbn. by rewrite list_insert_insert_eq.
Qed.

(** *** Pointers *)

Definition no_slash (s : string) : Prop := Forall (fun c => c <> slash) (String.list_ascii_of_string s).

Lemma pieces_some s : exists t ts, pieces s = t :: ts.
Proof.
  induction s as [|c s (t & ts & E)]; [by eexists _, _|]. cbn [pieces]. rewrite E. destruct (Ascii.eqb c slash); by eexists _, _.
Qed.

Lemma pieces_app a b : no_slash a -> pieces (a +:+ String slash b) = a :: pieces b.
Proof.
  unfold no_slash. induction a as [|c a IH]; intros H.
  - rewrite str_app_nil_l. cbn [pieces]. rewrite Ascii.eqb_refl.
    destruct (pieces_some b) as (t & ts & ->). done.
  - cbn [String.list_ascii_of_string] in H. apply Forall_cons in H as [Hc H]. rewrite str_app_cons. cbn [pieces].
    rewrite (IH H). apply Ascii.eqb_neq in Hc. by rewrite Hc.
Qed.
Lemma pieces_one a : no_slash a -> pieces a = [a].
Proof.
  unfold no_slash. induction a as [|c a IH]; intros H; [done|]. cbn [String.list_ascii_of_string] in H.
  apply Forall_cons in H as [Hc H]. cbn [pieces]. rewrite (IH H). apply Ascii.eqb_neq in Hc. by rewrite Hc.
Qed.

Lemma digit_char z : 0 <= z < 10 -> byte_of (chr (48 + z)) = 48 + z.
Proof. intros Hz. rewrite byte_of_chr. unfold wrap. apply Z.mod_small. lia. Qed.

Lemma itoa_loop_value fuel i acc :
  0 <= i < 10 ^ Z.of_nat fuel -> digits_value 0 (itoa_loop fuel i acc) = digits_value i acc.
Proof.
  revert i acc. induction fuel as [|fuel IH]; intros i acc Hi; cbn [itoa_loop].
  { change (10 ^ Z.of_nat 0) with 1 in Hi. by replace i with 0 by lia. }
  destruct (Z.ltb_spec 0 i) as [Hp|Hp]; [|by replace i with 0 by lia].
  rewrite Z.quot_div_nonneg, Z.rem_mod_nonneg by lia. pose proof (Z.mod_pos_bound i 10 ltac:(lia)).
  pose proof (Z.div_mod i 10 ltac:(lia)).
  rewrite IH. 2: { rewrite Nat2Z.inj_succ, Z.pow_succ_r in Hi by lia. split; [apply Z.div_pos; lia|apply Z.div_lt_upper_bound; lia]. }
  cbn [digits_value]. rewrite digit_char by lia. unfold is_digit.
  replace ((48 <=? 48 + i mod 10) && (48 + i mod 10 <=? 57)) with true by lia. f_equal. lia.
Qed.

Lemma itoa_loop_bytes (P : Ascii.ascii -> Prop) fuel i acc :
  (forall z, 0 <= z < 10 -> P (chr (48 + z))) -> 0 <= i -> Forall P (String.list_ascii_of_string acc) ->
  Forall P (String.list_ascii_of_string (itoa_loop fuel i acc)).
Proof.
  intros HP. revert i acc. induction fuel as [|fuel IH]; intros i acc Hi H; [exact H|]. cbn [itoa_loop].
  destruct (0 <? i); [|exact H]. rewrite Z.quot_div_nonneg, Z.rem_mod_nonneg by lia. apply IH; [apply Z.div_pos; lia|].
  cbn [String.list_ascii_of_string]. constructor; [|exact H]. apply HP, Z.mod_pos_bound. lia.
Qed.

Lemma itoa_some fuel i acc : acc <> "" -> itoa_loop fuel i acc <> "".
Proof.
  revert i acc. induction fuel as [|fuel IH]; intros i acc H; [exact H|]. cbn [itoa_loop].
  destruct (0 <? i); [by apply IH|exact H].
Qed.

Lemma itoa_loop_S fuel i acc :
  itoa_loop (S fuel) i acc = if 0 <? i then itoa_loop fuel (i ÷ 10) (String (chr (48 + Z.rem i 10)) acc) else acc.
Proof. done. Qed.

(** Numbers are what [strconv.Itoa] writes as far as a pointer can tell. *)
Lemma itoa_index i : Z.of_nat i < 2 ^ 63 -> index (itoa (Z.of_nat i)) = Some i.
Proof.
  intros Hi. unfold index, itoa. destruct (Z.eqb_spec (Z.of_nat i) 0) as [E|E].
  { by replace i with 0%nat by lia. }
  destruct (String.eqb_spec (itoa_loop 20 (Z.of_nat i) "") "") as [E'|_].
  - rewrite (itoa_loop_S 19) in E'. replace (0 <? Z.of_nat i) with true in E' by lia. by apply itoa_some in E'.
  - rewrite itoa_loop_value by (split; [lia|]; change (10 ^ Z.of_nat 20) with 100000000000000000000; lia).
    cbn [digits_value fmap option_fmap option_map]. f_equal. lia.
Qed.

Lemma itoa_no_slash i : no_slash (itoa (Z.of_nat i)).
Proof.
  unfold itoa, no_slash. destruct (_ =? 0); [by repeat constructor|]. apply itoa_loop_bytes; [|lia|constructor].
  intros z Hz E. apply (f_equal byte_of) in E. rewrite digit_char in E by done.
  change (byte_of slash) with 47 in E. lia.
Qed.

Lemma container_tokens idx rest :
  tokens (containerPath idx (String slash rest)) = "spec" :: "containers" :: itoa (Z.of_nat idx) :: pieces rest.
Proof.
  unfold tokens, containerPath. set (r := itoa (Z.of_nat idx) +:+ String slash rest).
  change ("/spec/containers/" +:+ r) with ("" +:+ String slash ("spec" +:+ String slash ("containers" +:+ String slash r))).
  rewrite !pieces_app by (repeat constructor; done). subst r. by rewrite pieces_app by apply itoa_no_slash.
Qed.

Lemma env_value_tokens idx i :
  tokens (containerPath idx ("/env/" +:+ itoa (Z.of_nat i) +:+ "/value"))
  = ["spec"; "containers"; itoa (Z.of_nat idx); "env"; itoa (Z.of_nat i); "value"].
Proof.
  change ("/env/" +:+ ?s) with (String slash ("env" +:+ String slash s)). rewrite container_tokens.
  rewrite pieces_app by (repeat constructor; done). change "/value" with (String slash "value").
  by rewrite pieces_app by apply itoa_no_slash.
Qed.
Lemma env_tokens idx : tokens (containerPath idx "/env") = ["spec"; "containers"; itoa (Z.of_nat idx); "env"].
Proof. apply container_tokens. Qed.
Lemma env_more_tokens idx : tokens (containerPath idx "/env" +:+ "/-") = ["spec"; "containers"; itoa (Z.of_nat idx); "env"; "-"].
Proof. unfold containerPath. rewrite !str_app_assoc. apply (container_tokens idx "env/-"). Qed.
Lemma mounts_tokens idx : tokens (containerPath idx "/volumeMounts") = ["spec"; "containers"; itoa (Z.of_nat idx); "volumeMounts"].
Proof. apply container_tokens. Qed.
Lemma mounts_more_tokens idx :
  tokens (containerPath idx "/volumeMounts" +:+ "/-") = ["spec"; "containers"; itoa (Z.of_nat idx); "volumeMounts"; "-"].
Proof. unfold containerPath. rewrite !str_app_assoc. apply (container_tokens idx "volumeMounts/-"). Qed.

(** ** Documents that stand for a pod *)

(** The text of a member, empty when there is none. *)
Definition text (m : gmap string json) (k : string) : option string :=
  match m !! k with Some (JString s) => Some s | None | Some JNull => Some "" | _ => None end.
Definition absent (m : gmap string json) (k : string) : Prop := m !! k = None \/ m !! k = Some JNull.

(** An array member whose elements stand for those of a list. *)
Definition listed {A} (R : json -> A -> Prop) (m : gmap string json) (k : string) (l : list A) : Prop :=
  (absent m k /\ l = []) \/ exists js, m !! k = Some (JArray js) /\ Forall2 R js l.

Definition from_doc (m : gmap string json) (f : option (option string)) : Prop :=
  match f with
  | None => absent m "valueFrom"
  | Some f => exists vf, m !! "valueFrom" = Some (JObject vf) /\
                match f with
                | None => absent vf "fieldRef"
                | Some path => exists fr, vf !! "fieldRef" = Some (JObject fr) /\ text fr "fieldPath" = Some path
                end
  end.
Definition env_doc (d : json) (e : envVar) : Prop :=
  exists m, d = JObject m /\ text m "name" = Some (env_Name e) /\ text m "value" = Some (env_Value e) /\
            from_doc m (env_ValueFrom e).
Definition mount_doc (d : json) (v : volumeMount) : Prop :=
  exists m, d = JObject m /\ text m "name" = Some (mount_Name v) /\ text m "mountPath" = Some (MountPath v) /\
            (m !! "readOnly" = Some (JBool true) <-> ReadOnly v = true).
Definition container_doc (d : json) (c : container) : Prop :=
  exists m, d = JObject m /\ text m "name" = Some (ct_Name c) /\ text m "image" = Some (Image c) /\
            listed env_doc m "env" (Env c) /\ listed mount_doc m "volumeMounts" (VolumeMounts c) /\
            listed (fun _ _ => True) m "envFrom" (repeat tt (EnvFrom c)).
Definition named_doc (d : json) (name : string) : Prop := exists m, d = JObject m /\ text m "name" = Some name.

Definition spec_doc (spec : gmap string json) (p : podMeta) : Prop :=
  listed container_doc spec "containers" (Containers p) /\
  listed (fun d c => named_doc d (ct_Name c)) spec "initContainers" (InitContainers p) /\
  listed named_doc spec "volumes" (Volumes p).
Definition pod_doc (doc : json) (p : podMeta) : Prop :=
  exists m spec, doc = JObject m /\ m !! "spec" = Some (JObject spec) /\ spec_doc spec p.

(** *** What the values of a patch stand for *)

Lemma env_json_doc e : env_doc (env_json e) e.
Proof.
  destruct e as [name value from]. unfold env_doc, env_json, obj. eexists. split; [reflexivity|].
  unfold text, from_doc, absent. cbn [env_Name env_Value env_ValueFrom].
  destruct (String.eqb_spec value "") as [->|Hv], from as [[path|]|]; cbn [app list_to_map foldr fst snd];
    (split; [by simplify_map_eq|]); (split; [by simplify_map_eq|]);
    try (eexists; split; [by simplify_map_eq|]); try (eexists; split; [by simplify_map_eq|]);
    unfold text, absent; try (by simplify_map_eq); left; by simplify_map_eq.
Qed.

Lemma mount_json_doc v : mount_doc (mount_json v) v.
Proof.
  destruct v as [name path ro]. unfold mount_doc, mount_json, obj. eexists. split; [reflexivity|]. unfold text.
  cbn [mount_Name MountPath ReadOnly]. destruct ro; cbn [app list_to_map foldr fst snd]; by simplify_map_eq.
Qed.

Lemma volume_json_doc name : named_doc (volume_json name) name.
Proof. eexists. split; [reflexivity|]. unfold text. cbn [list_to_map foldr fst snd]. by simplify_map_eq. Qed.

Lemma init_json_doc name image command mount path memory : named_doc (init_json name image command mount path memory) name.
Proof. eexists. split; [reflexivity|]. unfold text. cbn [list_to_map foldr fst snd]. by simplify_map_eq. Qed.

Lemma listed_other {A} (R : json -> A -> Prop) m k k' v l : k <> k' -> listed R m k l -> listed R (<[k' := v]> m) k l.
Proof. intros Hk. unfold listed, absent. by rewrite lookup_insert_ne. Qed.
Lemma text_other m k k' v : k <> k' -> text (<[k' := v]> m) k = text m k.
Proof. intros Hk. unfold text. by rewrite lookup_insert_ne. Qed.

(** ** Parts of a patch *)

(** More elements of an array member. *)
Definition elements (k : string) (none : bool) (vs : list json) : adds :=
  if none then [([k], JArray vs)] else (fun v => ([k; "-"], v)) <$> vs.

Lemma append_all vs js : apply_adds ((fun v => (["-"], v)) <$> vs) (JArray js) = Some (JArray (js ++ vs)).
Proof.
  revert js. induction vs as [|v vs IH]; intros js; cbn [fmap list_fmap apply_adds]; [by rewrite app_nil_r|].
  cbn [add_at fst snd String.eqb mbind option_bind]. change (String.eqb "-" "-") with true. cbn [mbind option_bind].
  change (apply_adds ((fun v => (["-"], v)) <$> vs) (JArray (js ++ [v])) = Some (JArray (js ++ v :: vs))).
  by rewrite IH, <- app_assoc.
Qed.

(** The elements of an array member, and the document with more of them. *)
Definition elems (m : gmap string json) (k : string) : list json :=
  match m !! k with Some (JArray js) => js | _ => [] end.
Definition extended (k : string) (vs : list json) (m : gmap string json) : gmap string json :=
  <[k := JArray (elems m k ++ vs)]> m.

Lemma elements_apply {A} (R : json -> A -> Prop) m k l vs :
  listed R m k l -> apply_adds (elements k (is_nil l) vs) (JObject m) = Some (JObject (extended k vs m)).
Proof.
  intros Hl. unfold extended, elems. destruct l as [|x l]; cbn [is_nil elements].
  - assert (match m !! k with Some (JArray js) => js | _ => [] end = []) as ->; [|done].
    destruct Hl as [[[->| ->] _]|(js & -> & Hjs)]; [done|done|by inversion Hjs].
  - destruct Hl as [[_ ?]|(js & Hk & Hjs)]; [done|]. rewrite Hk.
    assert ((fun v => ([k; "-"], v)) <$> vs = under k ((fun v => (["-"], v)) <$> vs)) as ->
      by (unfold under; rewrite <- list_fmap_compose; done).
    rewrite (under_object k _ m (JArray js)); [|by apply Forall_fmap, Forall_true|done]. by rewrite append_all.
Qed.

Lemma listed_elems {A} (R : json -> A -> Prop) m k l : listed R m k l -> Forall2 R (elems m k) l.
Proof. unfold elems. intros [[[->| ->] ->]|(js & -> & Hjs)]; [constructor|constructor|exact Hjs]. Qed.

Lemma listed_extended {A} (R : json -> A -> Prop) m k l vs ws :
  listed R m k l -> Forall2 R vs ws -> listed R (extended k vs m) k (l ++ ws).
Proof.
  intros Hl Hvs. right. eexists. split; [apply lookup_insert_eq|]. apply Forall2_app; [by apply listed_elems|done].
Qed.

(** Values that are merged into variables. *)
Definition merged (merge : string -> option (string * string)) (e : envVar) : envVar :=
  match merge (env_Name e) with
  | Some (value, delimiter) =>
      mk_env (env_Name e) (if String.eqb (env_Value e) "" then value else value +:+ delimiter +:+ env_Value e) (env_ValueFrom e)
  | None => e
  end.
Fixpoint merge_adds (merge : string -> option (string * string)) (i : nat) (env : list envVar) : adds :=
  match env with
  | [] => []
  | e :: env =>
      match merge (env_Name e) with
      | Some _ => ([itoa (Z.of_nat i); "value"], JString (env_Value (merged merge e))) :: merge_adds merge (S i) env
      | None => merge_adds merge (S i) env
      end
  end.

Lemma merge_adds_deep merge i env : deep (merge_adds merge i env).
Proof.
  revert i. induction env as [|e env IH]; intros i; cbn [merge_adds]; [constructor|].
  destruct (merge (env_Name e)); [constructor; [done|]|]; apply IH.
Qed.

Lemma env_doc_value d e value :
  env_doc d e -> exists m, d = JObject m /\
    env_doc (JObject (<["value" := JString value]> m)) (mk_env (env_Name e) value (env_ValueFrom e)).
Proof.
  intros (m & -> & Hn & _ & Hf). exists m. split; [done|]. exists (<["value" := JString value]> m). split; [done|].
  rewrite text_other by done. cbn [env_Name env_Value env_ValueFrom]. split; [done|].
  split; [unfold text; by rewrite lookup_insert_eq|]. unfold from_doc, absent in *.
  destruct (env_ValueFrom e) as [f|]; by rewrite lookup_insert_ne.
Qed.

(** The document of a variable with the value merged in; nothing else of it changes. *)
Definition merged_doc (merge : string -> option (string * string)) (d : json) (e : envVar) : json :=
  match merge (env_Name e), d with
  | Some _, JObject m => JObject (<["value" := JString (env_Value (merged merge e))]> m)
  | _, _ => d
  end.

Lemma merged_doc_env merge d e : env_doc d e -> env_doc (merged_doc merge d e) (merged merge e).
Proof.
  intros Hd. unfold merged_doc. destruct (merge (env_Name e)) as [[value delim]|] eqn:Em;
    [|unfold merged; by rewrite Em].
  destruct (env_doc_value d e (env_Value (merged merge e)) Hd) as (m & -> & Hd').
  unfold merged in *. by rewrite Em in *.
Qed.

Lemma merged_docs_env merge suf env :
  Forall2 env_doc suf env -> Forall2 env_doc (zip_with (merged_doc merge) suf env) (merged merge <$> env).
Proof. induction 1 as [|d e suf env Hd H IH]; [constructor|]. constructor; [by apply merged_doc_env|exact IH]. Qed.

Lemma merge_apply merge env pre suf :
  Forall2 env_doc suf env -> Z.of_nat (length pre + length env) < 2 ^ 63 ->
  apply_adds (merge_adds merge (length pre) env) (JArray (pre ++ suf)) =
    Some (JArray (pre ++ zip_with (merged_doc merge) suf env)).
Proof.
  intros H. revert pre. induction H as [|d e suf env Hd H IH]; intros pre Hlen; [done|].
  cbn [length] in Hlen. cbn [merge_adds zip_with].
  assert (forall d', apply_adds (merge_adds merge (S (length pre)) env) (JArray (pre ++ d' :: suf))
    = Some (JArray (pre ++ d' :: zip_with (merged_doc merge) suf env))) as Hrest.
  { intros d'. pose proof (IH (pre ++ [d']) ltac:(rewrite length_app; cbn; lia)) as Ha.
    rewrite length_app in Ha. cbn [length] in Ha. rewrite Nat.add_1_r, <- !app_assoc in Ha. done. }
  unfold merged_doc at 1. destruct (merge (env_Name e)) as [[value delim]|] eqn:Em; [|by rewrite Hrest].
  destruct (env_doc_value d e (env_Value (merged merge e)) Hd) as (m & -> & _).
  cbn [apply_adds fst snd].
  rewrite (add_array _ (length pre) "value" [] _ _ (JObject m));
    [|apply itoa_index; lia|by rewrite lookup_app_r, Nat.sub_diag by lia].
  cbn [mbind option_bind add_at]. rewrite insert_app_r_alt, Nat.sub_diag by lia. apply Hrest.
Qed.

(** ** The agent of a runtime in a container *)

Definition merge_of (r : runtime) : string -> option (string * string) :=
  merged_into (language r) (mountPath r) (optionsName r) (optionsValue r) (separator r).
Definition agent_mount (r : runtime) : volumeMount := mk_mount (volumeName r) (mountPath r) true.
Definition agent_env (r : runtime) (p : podMeta) (endpoint : string) (c : container) : list envVar :=
  runtime_env p c endpoint (optionsName r) (optionsValue r) (settings r).

(** The container with the agent: values merged into its variables, the variables that it
    has not set, and the mount. *)
Definition with_agent (r : runtime) (p : podMeta) (endpoint : string) (c : container) : container :=
  mk_container (ct_Name c) (Image c) ((merged (merge_of r) <$> Env c) ++ agent_env r p endpoint c) (EnvFrom c)
    (VolumeMounts c ++ [agent_mount r]).

Definition container_adds (r : runtime) (p : podMeta) (endpoint : string) (c : container) : adds :=
  under "env" (merge_adds (merge_of r) 0 (Env c)) ++
  elements "env" (is_nil (Env c)) (env_json <$> agent_env r p endpoint c) ++
  elements "volumeMounts" (is_nil (VolumeMounts c)) [mount_json (agent_mount r)].

Lemma env_jsons_doc l : Forall2 env_doc (env_json <$> l) l.
Proof. induction l as [|e l IH]; [constructor|]. constructor; [apply env_json_doc|exact IH]. Qed.

(** The document of the container with the agent: its variables with the merged values and
    those that are added, and the mount; every other member is as it was. *)
Definition env_installed (r : runtime) (p : podMeta) (endpoint : string) (c : container) (m : gmap string json) : list json :=
  zip_with (merged_doc (merge_of r)) (elems m "env") (Env c) ++ (env_json <$> agent_env r p endpoint c).
Definition container_installed (r : runtime) (p : podMeta) (endpoint : string) (d : json) (c : container) : json :=
  match d with
  | JObject m =>
      JObject (extended "volumeMounts" [mount_json (agent_mount r)]
        (<["env" := JArray (env_installed r p endpoint c m)]> m))
  | _ => d
  end.

Lemma env_apply r p endpoint c m :
  listed env_doc m "env" (Env c) -> Z.of_nat (length (Env c)) < 2 ^ 63 ->
  apply_adds (under "env" (merge_adds (merge_of r) 0 (Env c)) ++
              elements "env" (is_nil (Env c)) (env_json <$> agent_env r p endpoint c)) (JObject m) =
    Some (JObject (<["env" := JArray (env_installed r p endpoint c m)]> m)).
Proof.
  intros Hl Hlen. rewrite apply_adds_app. unfold env_installed.
  destruct Hl as [[Ha Hnil]|(js & Hk & Hjs)].
  - rewrite Hnil in *. cbn [merge_adds under fmap list_fmap apply_adds mbind option_bind].
    rewrite (elements_apply env_doc m "env" []) by by left. unfold extended, elems.
    by destruct Ha as [-> | ->].
  - rewrite (under_object "env" _ m (JArray js) (merge_adds_deep _ _ _) Hk).
    pose proof (merge_apply (merge_of r) (Env c) [] js Hjs Hlen) as Hap. cbn [length app] in Hap.
    unfold adds in *. rewrite Hap. cbn [mbind option_bind].
    set (js' := zip_with (merged_doc (merge_of r)) js (Env c)) in *.
    assert (listed env_doc (<["env" := JArray js']> m) "env" (merged (merge_of r) <$> Env c)) as Hl'.
    { right. exists js'. rewrite lookup_insert_eq. split; [done|]. by apply merged_docs_env. }
    replace (is_nil (Env c)) with (is_nil (merged (merge_of r) <$> Env c)) by (by destruct (Env c)).
    rewrite (elements_apply env_doc _ "env" _ _ Hl'). unfold extended, elems.
    by rewrite Hk, lookup_insert_eq, insert_insert_eq.
Qed.

Lemma container_apply r p endpoint d c :
  container_doc d c -> Z.of_nat (length (Env c)) < 2 ^ 63 ->
  apply_adds (container_adds r p endpoint c) d = Some (container_installed r p endpoint d c) /\
  container_doc (container_installed r p endpoint d c) (with_agent r p endpoint c).
Proof.
  intros (m & -> & Hn & Hi & He & Hv & Hf) Hlen. unfold container_adds. rewrite app_assoc, apply_adds_app.
  rewrite (env_apply r p endpoint c m He Hlen). cbn [mbind option_bind]. unfold container_installed.
  set (m1 := <["env" := _]> m).
  assert (listed mount_doc m1 "volumeMounts" (VolumeMounts c)) as Hv1 by (by apply listed_other).
  rewrite (elements_apply mount_doc m1 "volumeMounts" _ _ Hv1). split; [done|].
  eexists. split; [reflexivity|]. cbn [ct_Name Image Env EnvFrom VolumeMounts with_agent].
  unfold extended. rewrite !text_other by done. subst m1. rewrite !text_other by done. split_and!; [done|done| | |].
  - apply listed_other; [done|]. right. eexists. split; [apply lookup_insert_eq|]. unfold env_installed.
    apply Forall2_app; [|apply env_jsons_doc]. by apply merged_docs_env, listed_elems.
  - apply (listed_extended mount_doc _ _ _ [mount_json (agent_mount r)] [agent_mount r] Hv1).
    constructor; [apply mount_json_doc|constructor].
  - by apply listed_other, listed_other.
Qed.

(** *** The operations are these additions *)

Definition to_add (o : patchOp) : list string * json := (tokens (Path o), Value o).
Definition is_add (o : patchOp) : Prop := Op o = "add".

Lemma apply_ops_adds ops d : Forall is_add ops -> apply_ops ops d = apply_adds (to_add <$> ops) d.
Proof.
  intros H. revert d. induction H as [|o ops Ho H IH]; intros d; [done|]. cbn [apply_ops fmap list_fmap apply_adds].
  unfold apply_op. rewrite Ho. cbn. destruct (add_at _ _ d); cbn; [apply IH|done].
Qed.

Definition in_container (idx : nat) (l : adds) : adds := under "spec" (under "containers" (under (itoa (Z.of_nat idx)) l)).
Lemma in_container_app idx l l' : in_container idx (l ++ l') = in_container idx l ++ in_container idx l'.
Proof. unfold in_container, under. by rewrite !fmap_app. Qed.

Section runtime.
Variable ToLower : string -> string.

Lemma merge_env_adds merge idx i env ops :
  merge_env ToLower merge idx i env = Ok ops ->
  to_add <$> ops = in_container idx (under "env" (merge_adds merge i env)) /\ Forall is_add ops.
Proof.
  revert i ops. induction env as [|e env IH]; intros i ops H; cbn [merge_env merge_adds] in *; [by injection H as <-|].
  unfold merged. destruct (merge (env_Name e)) as [[value delim]|]; [|by apply IH].
  destruct (_ || _)%bool; [done|]. destruct (merge_env ToLower merge idx (S i) env) as [rest|] eqn:Er; [|done].
  injection H as <-. destruct (IH (S i) rest Er) as [Hr Ha]. split; [|by constructor].
  cbn [fmap list_fmap]. rewrite Hr. unfold to_add. cbn [Path Value]. rewrite env_value_tokens. done.
Qed.

Lemma env_elements_adds idx none vs :
  to_add <$> add_elements none (containerPath idx "/env") vs = in_container idx (elements "env" none vs) /\
  Forall is_add (add_elements none (containerPath idx "/env") vs).
Proof.
  unfold add_elements, elements, in_container, under. destruct none.
  - cbn. unfold to_add. cbn [Path Value]. rewrite env_tokens. by repeat constructor.
  - split; [|by apply Forall_fmap, Forall_true]. rewrite <- !list_fmap_compose. apply list_fmap_ext. intros i v _.
    cbn. unfold to_add. cbn [Path Value]. by rewrite env_more_tokens.
Qed.

Lemma mount_element_adds idx none v :
  to_add <$> [add_element none (containerPath idx "/volumeMounts") v] = in_container idx (elements "volumeMounts" none [v]) /\
  Forall is_add [add_element none (containerPath idx "/volumeMounts") v].
Proof.
  unfold add_element, elements, in_container, under. destruct none; cbn; unfold to_add; cbn [Path Value];
    rewrite ?mounts_tokens, ?mounts_more_tokens; by repeat constructor.
Qed.

Lemma container_ops_adds r p endpoint idx c ops :
  container_ops ToLower r p endpoint idx c = Ok ops ->
  to_add <$> ops = in_container idx (container_adds r p endpoint c) /\ Forall is_add ops.
Proof.
  unfold container_ops. destruct (0 <? EnvFrom c)%nat; [done|]. destruct (existsb _ _); [done|].
  destruct (merge_env _ _ _ _ _) as [merges|] eqn:Em; [|done]. cbn [mbind res_bind]. intros [= <-].
  apply merge_env_adds in Em as [Em Ham]. unfold container_adds. rewrite !in_container_app, !fmap_app.
  destruct (env_elements_adds idx (is_nil (Env c)) (env_json <$> agent_env r p endpoint c)) as [Ee Hae].
  destruct (mount_element_adds idx (is_nil (VolumeMounts c)) (mount_json (agent_mount r))) as [Ev Hav].
  split; [|by repeat apply Forall_app_2]. unfold merge_of. rewrite <- Em, <- Ee, <- Ev. done.
Qed.

(** *** All selected containers *)

(** The containers afterwards: those selected, each the first of its name, have the agent. *)
Fixpoint installed (r : runtime) (p : podMeta) (endpoint : string) (cs : list container) (targets : gset string)
    : list container :=
  match cs with
  | [] => []
  | c :: cs =>
      if bool_decide (ct_Name c ∈ targets)
      then with_agent r p endpoint c :: installed r p endpoint cs (targets ∖ {[ ct_Name c ]})
      else c :: installed r p endpoint cs targets
  end.
Fixpoint containers_adds (r : runtime) (p : podMeta) (endpoint : string) (idx : nat) (cs : list container)
    (targets : gset string) : adds :=
  match cs with
  | [] => []
  | c :: cs =>
      if bool_decide (ct_Name c ∈ targets)
      then under (itoa (Z.of_nat idx)) (container_adds r p endpoint c)
           ++ containers_adds r p endpoint (S idx) cs (targets ∖ {[ ct_Name c ]})
      else containers_adds r p endpoint (S idx) cs targets
  end.

Lemma containers_ops_adds r p endpoint idx cs targets ops left :
  containers_ops ToLower r p endpoint idx cs targets = Ok (ops, left) ->
  to_add <$> ops = under "spec" (under "containers" (containers_adds r p endpoint idx cs targets)) /\ Forall is_add ops.
Proof.
  revert idx targets ops left. induction cs as [|c cs IH]; intros idx targets ops left H; cbn [containers_ops containers_adds] in *.
  { by injection H as <- <-. }
  destruct (bool_decide (ct_Name c ∈ targets)); [|by eapply IH].
  destruct (container_ops ToLower r p endpoint idx c) as [own|] eqn:Eo; [|done]. cbn [mbind res_bind] in H.
  destruct (containers_ops _ _ _ _ _ _ _) as [[rest left']|] eqn:Er; [|done]. cbn [mbind res_bind fst snd] in H.
  injection H as <- <-. apply container_ops_adds in Eo as [Eo Ho]. apply IH in Er as [Er Hr].
  split; [|by apply Forall_app_2]. unfold under at 2. rewrite !fmap_app, Eo, Er. unfold in_container, under. by rewrite fmap_app.
Qed.

Lemma elements_deep k none vs : deep (elements k none vs).
Proof. unfold elements. destruct none; [by repeat constructor|]. by apply Forall_fmap, Forall_true. Qed.
Lemma under_deep t l : deep (under t l).
Proof. by apply Forall_fmap, Forall_true. Qed.

Lemma container_adds_deep r p endpoint c : deep (container_adds r p endpoint c).
Proof. unfold container_adds. repeat apply Forall_app_2; [apply under_deep|apply elements_deep|apply elements_deep]. Qed.
Lemma containers_adds_deep r p endpoint idx cs targets : deep (containers_adds r p endpoint idx cs targets).
Proof.
  revert idx targets. induction cs as [|c cs IH]; intros idx targets; cbn [containers_adds]; [constructor|].
  destruct (bool_decide _); [apply Forall_app_2; [apply under_deep|]|]; apply IH.
Qed.

Definition small (cs : list container) : Prop :=
  Z.of_nat (length cs) < 2 ^ 63 /\ Forall (fun c => Z.of_nat (length (Env c)) < 2 ^ 63) cs.

(** The documents of the containers afterwards. *)
Fixpoint docs_installed (r : runtime) (p : podMeta) (endpoint : string) (ds : list json) (cs : list container)
    (targets : gset string) : list json :=
  match ds, cs with
  | d :: ds, c :: cs =>
      if bool_decide (ct_Name c ∈ targets)
      then container_installed r p endpoint d c :: docs_installed r p endpoint ds cs (targets ∖ {[ ct_Name c ]})
      else d :: docs_installed r p endpoint ds cs targets
  | _, _ => ds
  end.

Lemma containers_apply r p endpoint cs pre suf targets :
  Forall2 container_doc suf cs -> Z.of_nat (length pre + length cs) < 2 ^ 63 ->
  Forall (fun c => Z.of_nat (length (Env c)) < 2 ^ 63) cs ->
  apply_adds (containers_adds r p endpoint (length pre) cs targets) (JArray (pre ++ suf)) =
    Some (JArray (pre ++ docs_installed r p endpoint suf cs targets)) /\
  Forall2 container_doc (docs_installed r p endpoint suf cs targets) (installed r p endpoint cs targets) /\
  forall i c, cs !! i = Some c -> ct_Name c ∉ targets -> docs_installed r p endpoint suf cs targets !! i = suf !! i.
Proof.
  intros H. revert pre targets. induction H as [|d c suf cs Hd H IH]; intros pre targets Hlen Henv; [done|].
  apply Forall_cons in Henv as [Hc Henv]. cbn [length] in Hlen. cbn [containers_adds installed docs_installed].
  assert (forall d' targets', apply_adds (containers_adds r p endpoint (S (length pre)) cs targets') (JArray (pre ++ d' :: suf))
    = Some (JArray (pre ++ d' :: docs_installed r p endpoint suf cs targets'))
    /\ Forall2 container_doc (docs_installed r p endpoint suf cs targets') (installed r p endpoint cs targets')
    /\ forall i c, cs !! i = Some c -> ct_Name c ∉ targets' -> docs_installed r p endpoint suf cs targets' !! i = suf !! i) as Hrest.
  { intros d' targets'. destruct (IH (pre ++ [d']) targets') as (Ha & Hs); [rewrite length_app; cbn; lia|done|].
    rewrite length_app in Ha. cbn [length] in Ha. rewrite Nat.add_1_r, <- !app_assoc in Ha. done. }
  destruct (bool_decide_reflect (ct_Name c ∈ targets)) as [Hin|Hin].
  - destruct (container_apply r p endpoint d c Hd Hc) as (Ha & Hd').
    destruct (Hrest (container_installed r p endpoint d c) (targets ∖ {[ ct_Name c ]})) as (Hr & Hs & Hf).
    rewrite apply_adds_app, (under_array _ (length pre) _ _ d (container_adds_deep _ _ _ _));
      [|apply itoa_index; lia|by rewrite lookup_app_r, Nat.sub_diag by lia].
    rewrite Ha. cbn [mbind option_bind]. rewrite insert_app_r_alt, Nat.sub_diag by lia. split; [exact Hr|].
    split; [by constructor|]. intros [|i] c' Hi Hc'; cbn in *; [congruence|]. eapply Hf; [done|].
    intros Hx. by apply elem_of_difference in Hx as [? _].
  - destruct (Hrest d targets) as (Hr & Hs & Hf). split; [exact Hr|]. split; [by constructor|].
    intros [|i] c' Hi Hc'; [done|]. by eapply Hf.
Qed.

(** *** The whole pod *)

Definition agent_init (r : runtime) (image : string) : container := mk_container (volumeName r) image [] 0 [].
Definition selected_names (selected : string) : gset string := list_to_set (trim_space <$> split "," selected).

(** The pod with the agent. *)
Definition with_runtime (r : runtime) (p : podMeta) (selected image endpoint : string) : podMeta :=
  mk_pod (serviceName p) (clusterName p) (pod_Name p) (pod_Namespace p) (Annotations p) (Labels p) (GenerateName p)
    (OwnerReferences p) (installed r p endpoint (Containers p) (selected_names selected))
    (InitContainers p ++ [agent_init r image]) (Volumes p ++ [volumeName r]).

Lemma selection_spec names targets all :
  selection names targets = Ok all -> all = targets ∪ list_to_set (trim_space <$> names).
Proof.
  revert targets. induction names as [|n names IH]; intros targets H; cbn [selection] in H.
  { injection H as <-. cbn. by rewrite union_empty_r_L. }
  destruct (_ || _)%bool; [done|]. apply IH in H as ->. cbn. rewrite (assoc_L (∪)), (comm_L (∪) targets). by rewrite <- (assoc_L (∪)), (comm_L (∪) {[ _ ]}), <- !(assoc_L (∪)).
Qed.

Definition spec_adds (r : runtime) (p : podMeta) (selected image endpoint : string) : adds :=
  under "containers" (containers_adds r p endpoint 0 (Containers p) (selected_names selected)) ++
  elements "volumes" (is_nil (Volumes p)) [volume_json (volumeName r)] ++
  elements "initContainers" (is_nil (InitContainers p))
    [init_json (volumeName r) image ("cp -R " +:+ mountPath r +:+ "/. /target/") (volumeName r) "/target" "64Mi"].

Lemma runtimePatch_adds r p selected image endpoint ops :
  runtimePatch ToLower r p selected image endpoint = Ok ops ->
  to_add <$> ops = under "spec" (spec_adds r p selected image endpoint) /\ Forall is_add ops.
Proof.
  unfold runtimePatch. destruct (String.eqb image ""); [done|]. destruct (existsb _ (Volumes p)); [done|].
  destruct (existsb _ (InitContainers p)); [done|].
  destruct (selection (split "," selected) ∅) as [targets|] eqn:Et; [|done]. cbn [mbind res_bind].
  apply selection_spec in Et. rewrite union_empty_l_L in Et. fold (selected_names selected) in Et. subst targets.
  destruct (containers_ops _ _ _ _ _ _ _) as [[cops left]|] eqn:Ec; [|done]. cbn [mbind res_bind fst snd].
  destruct (negb _); [done|]. intros [= <-]. apply containers_ops_adds in Ec as [Ec Ha].
  unfold spec_adds. split.
  - unfold under at 1. rewrite fmap_app, Ec. unfold under. rewrite !fmap_app. f_equal.
    destruct (Volumes p), (InitContainers p); reflexivity.
  - apply Forall_app_2; [done|]. destruct (Volumes p), (InitContainers p); by repeat constructor.
Qed.

Lemma listed_keep {A} (R : json -> A -> Prop) m m' k l : m' !! k = m !! k -> listed R m k l -> listed R m' k l.
Proof. intros E. unfold listed, absent. by rewrite E. Qed.

(** The members of the document and of its spec that a patch may change. *)
Definition changes (ks : list string) (m m' : gmap string json) : Prop := forall k, k ∉ ks -> m' !! k = m !! k.

(** The documents of what is added beside the containers: the volume of the agent, empty,
    and the init container that copies the agent from its image into the volume. *)
Definition agent_volume_doc (r : runtime) : json := JObject {[ "name" := JString ("telvyn-" +:+ language r +:+ "-agent") ]}.
Definition agent_init_doc (r : runtime) (image : string) : json :=
  JObject (list_to_map
    [("name", JString ("telvyn-" +:+ language r +:+ "-agent"));
     ("image", JString image);
     ("imagePullPolicy", JString "IfNotPresent");
     ("command", JArray [JString "sh"; JString "-c";
                         JString ("cp -R /opt/telvyn/" +:+ language r +:+ "/. /target/")]);
     ("volumeMounts", JArray [JObject (list_to_map [("name", JString ("telvyn-" +:+ language r +:+ "-agent"));
                                                    ("mountPath", JString "/target")])]);
     ("resources", JObject (list_to_map
        [("requests", JObject (list_to_map [("cpu", JString "10m"); ("memory", JString "16Mi")]));
         ("limits", JObject (list_to_map [("cpu", JString "100m"); ("memory", JString "64Mi")]))]))]).

(** The document of the spec with the agent. *)
Definition spec_installed (r : runtime) (p : podMeta) (selected image endpoint : string) (spec : gmap string json)
    : gmap string json :=
  extended "initContainers" [agent_init_doc r image] (extended "volumes" [agent_volume_doc r]
    match spec !! "containers" with
    | Some (JArray ds) =>
        <["containers" := JArray (docs_installed r p endpoint ds (Containers p) (selected_names selected))]> spec
    | _ => spec
    end).

Lemma init_doc_is r image :
  init_json (volumeName r) image ("cp -R " +:+ mountPath r +:+ "/. /target/") (volumeName r) "/target" "64Mi" =
  agent_init_doc r image.
Proof. unfold init_json, agent_init_doc, mountPath. by rewrite <- !str_app_assoc. Qed.

Lemma spec_apply r p selected image endpoint spec :
  spec_doc spec p -> small (Containers p) ->
  apply_adds (spec_adds r p selected image endpoint) (JObject spec) =
    Some (JObject (spec_installed r p selected image endpoint spec)) /\
  spec_doc (spec_installed r p selected image endpoint spec) (with_runtime r p selected image endpoint) /\
  changes ["containers"; "initContainers"; "volumes"] spec (spec_installed r p selected image endpoint spec) /\
  forall i c d, Containers p !! i = Some c -> ct_Name c ∉ selected_names selected ->
    elems spec "containers" !! i = Some d ->
    elems (spec_installed r p selected image endpoint spec) "containers" !! i = Some d.
Proof.
  intros (Hc & Hi & Hv) [Hlen Henv]. unfold spec_adds, spec_installed. rewrite apply_adds_app, init_doc_is.
  set (s1 := match spec !! "containers" with Some (JArray _) => _ | _ => spec end).
  assert (apply_adds (under "containers" (containers_adds r p endpoint 0 (Containers p) (selected_names selected)))
      (JObject spec) = Some (JObject s1) /\
    listed container_doc s1 "containers" (installed r p endpoint (Containers p) (selected_names selected)) /\
    (forall k, k <> "containers" -> s1 !! k = spec !! k) /\
    forall i c d, Containers p !! i = Some c -> ct_Name c ∉ selected_names selected ->
      elems spec "containers" !! i = Some d -> elems s1 "containers" !! i = Some d) as (-> & Hc1 & Hk1 & Hf1).
  { subst s1. destruct Hc as [[Ha Hnil]|(js & Hk & Hjs)].
    { rewrite Hnil. destruct Ha as [E|E]; rewrite !E;
        (split; [done|]; split; [left; by split; [unfold absent; auto|]|]; split; [done|]; intros i c d Hci; done). }
    destruct (containers_apply r p endpoint (Containers p) [] js (selected_names selected) Hjs Hlen Henv) as (Ha & Hjs' & Hf).
    cbn [length app] in Ha. rewrite (under_object "containers" _ spec (JArray js) (containers_adds_deep _ _ _ _ _ _) Hk), Ha, Hk.
    split; [done|]. split; [right; eexists; split; [apply lookup_insert_eq|done]|].
    split; [intros; by apply lookup_insert_ne|]. unfold elems. rewrite Hk, lookup_insert_eq.
    intros i c d Hci Hn Hd. by rewrite (Hf i c Hci Hn). }
  clearbody s1. cbn [mbind option_bind]. rewrite apply_adds_app.
  assert (listed named_doc s1 "volumes" (Volumes p)) as Hv1 by (eapply listed_keep; [|exact Hv]; by apply Hk1).
  rewrite (elements_apply named_doc s1 "volumes" _ _ Hv1). cbn [mbind option_bind].
  set (s2 := extended "volumes" _ s1). assert (forall k, k <> "volumes" -> s2 !! k = s1 !! k) as Hk2
    by (intros; by apply lookup_insert_ne).
  assert (listed (fun d c => named_doc d (ct_Name c)) s2 "initContainers" (InitContainers p)) as Hi2.
  { eapply listed_keep; [|exact Hi]. by rewrite Hk2, Hk1. }
  rewrite (elements_apply _ s2 "initContainers" _ _ Hi2). set (s3 := extended "initContainers" _ s2).
  assert (forall k, k <> "initContainers" -> s3 !! k = s2 !! k) as Hk3 by (intros; by apply lookup_insert_ne).
  split; [done|]. split; [split; [|split]|split].
  - eapply listed_keep; [|exact Hc1]. by rewrite Hk3, Hk2.
  - apply (listed_extended (fun d c => named_doc d (ct_Name c)) _ _ _ _ [agent_init r image] Hi2).
    constructor; [|constructor]. rewrite <- init_doc_is. apply init_json_doc.
  - eapply listed_keep; [by apply Hk3|]. apply (listed_extended named_doc _ _ _ _ [volumeName r] Hv1).
    constructor; [apply (volume_json_doc (volumeName r))|constructor].
  - intros k Hk. rewrite !not_elem_of_cons in Hk. destruct Hk as (H1 & H2 & H3 & _). by rewrite Hk3, Hk2, Hk1.
  - intros i c d Hci Hn Hd. unfold elems. rewrite Hk3, Hk2 by done. by apply (Hf1 i c).
Qed.

(** C25: a patch that is made for one of the runtimes applies to every document of the pod,
    and gives exactly the document with the agent, [spec_installed]: in each selected
    container the options are merged into the values of its variables, the variables that
    it had not set are appended and the agent is mounted, with every other member of the
    container and of its variables as it was; the volume of the agent and the init
    container that copies it from the image are appended to those that were there; and
    nothing else of the document changes, the other containers included.  The document
    stands for the pod with the agent. *)
Theorem runtime_patch_installs r p selected image endpoint ops m spec :
  runtimePatch ToLower r p selected image endpoint = Ok ops ->
  m !! "spec" = Some (JObject spec) -> spec_doc spec p -> small (Containers p) ->
  let spec' := spec_installed r p selected image endpoint spec in
  apply_ops ops (JObject m) = Some (JObject (<["spec" := JObject spec']> m)) /\
  spec_doc spec' (with_runtime r p selected image endpoint) /\
  changes ["containers"; "initContainers"; "volumes"] spec spec' /\
  forall i c d, Containers p !! i = Some c -> ct_Name c ∉ selected_names selected ->
    elems spec "containers" !! i = Some d -> elems spec' "containers" !! i = Some d.
Proof.
  intros Hops Hm Hs Hsmall. apply runtimePatch_adds in Hops as [Eo Ha]. rewrite apply_ops_adds, Eo by done.
  destruct (spec_apply r p selected image endpoint spec Hs Hsmall) as (Hap & Hrest).
  cbn zeta. split; [|exact Hrest]. rewrite (under_object "spec" _ m (JObject spec)); [|
    unfold spec_adds; repeat apply Forall_app_2; [apply under_deep|apply elements_deep|apply elements_deep]|done].
  by rewrite Hap.
Qed.

(** ** What is selected *)

(** A central policy that was polled within a minute, for an owner and a container of the pod. *)
Definition policy_for (s : Server) (now : Z) (p : podMeta) (ns : string) (policy : runtimePolicy) : Prop :=
  time_sub now (runtimePoliciesAt s) <= minute /\ policy ∈ runtimePolicies s /\ Namespace policy = ns /\
  (exists o, o ∈ OwnerReferences p /\ owner_Kind o = "ReplicaSet" /\ Workload policy = WorkloadOf (owner_Name o +:+ "-00000")) /\
  exists c, c ∈ Containers p /\ ct_Name c = Container policy /\ Image c = policy_Image policy.

Lemma find_elem {A} (f : A -> bool) l x : List.find f l = Some x -> x ∈ l /\ f x = true.
Proof. intros H. apply List.find_some in H as [Hin Hf]. by rewrite list_elem_of_In. Qed.
Lemma existsb_elem {A} (f : A -> bool) l : existsb f l = true -> exists x, x ∈ l /\ f x = true.
Proof. intros H. apply existsb_exists in H as (x & Hin & Hf). exists x. by rewrite list_elem_of_In. Qed.

Lemma first_policy_spec p ns policies owners policy :
  first_policy p ns policies owners = Some policy ->
  policy ∈ policies /\ exists o, o ∈ owners /\ owner_Kind o = "ReplicaSet" /\
    policy_fits p ns (WorkloadOf (owner_Name o +:+ "-00000")) policy = true.
Proof.
  induction owners as [|o owners IH]; cbn [first_policy]; [done|].
  destruct (String.eqb_spec (owner_Kind o) "ReplicaSet") as [Hk|_]; cbn [negb].
  - destruct (List.find _ policies) as [found|] eqn:Ef.
    + intros [= ->]. apply find_elem in Ef as [Hin Hf]. split; [done|]. exists o. by split; [left|].
    + intros H. apply IH in H as (Hin & o' & Ho & Hrest). split; [done|]. exists o'. by split; [right|].
  - intros H. apply IH in H as (Hin & o' & Ho & Hrest). split; [done|]. exists o'. by split; [right|].
Qed.

Lemma runtimeSelection_spec s now p ns policy : runtimeSelection s now p ns = Some policy -> policy_for s now p ns policy.
Proof.
  unfold runtimeSelection. destruct (Z.ltb_spec minute (time_sub now (runtimePoliciesAt s))) as [|Hf]; [done|].
  intros H. apply first_policy_spec in H as (Hin & o & Ho & Hk & Hfit). unfold policy_fits in Hfit.
  apply andb_prop in Hfit as [Hfit Hc]. apply andb_prop in Hfit as [Hn Hw].
  apply existsb_elem in Hc as (c & Hc & Hci). apply andb_prop in Hci as [Hname Himage].
  apply String.eqb_eq in Hn, Hw, Hname, Himage. repeat split; [lia|done|done|by exists o|by exists c].
Qed.

(** A runtime is wanted by the annotation of the pod or by the policy. *)
Definition wanted (p : podMeta) (central : option runtimePolicy) (r : runtime) : Prop :=
  annotation p (language r) <> "" \/ exists c, central = Some c /\ Language c = language r.

Lemma wanted_bool p central r :
  match central with Some c => String.eqb (Language c) (language r) | None => false end ||
  negb (String.eqb (annotation p (language r)) "") = true <-> wanted p central r.
Proof.
  unfold wanted. rewrite orb_true_iff, negb_true_iff, String.eqb_neq. destruct central as [c|].
  - rewrite String.eqb_eq. split; [intros [H|H]; [right; by exists c|by left]|].
    intros [H|(c' & [= <-] & H)]; [by right|by left].
  - split; [intros [H|H]; [done|by left]|]. intros [H|(c' & H & _)]; [by right|done].
Qed.

Lemma select_runtime_spec p central l selected found :
  select_runtime p central l selected = Ok found ->
  (forall i, i ∈ l -> wanted p central i.1 -> found = Some i) /\
  (is_Some selected -> found = selected) /\
  forall i, found = Some i -> selected = Some i \/ (i ∈ l /\ wanted p central i.1).
Proof.
  revert selected. induction l as [|i l IH]; intros selected; cbn [select_runtime].
  { intros [= ->]. split; [intros i Hi; by apply elem_of_nil in Hi|]. split; [done|]. intros i H. by left. }
  match goal with |- context [if ?b then _ else _] => destruct b eqn:Ew end.
  - apply wanted_bool in Ew. destruct selected as [x|]; [done|]. intros H. apply IH in H as (Hall & Hs & Hin).
    rewrite (Hs ltac:(done)) in *. split; [|split; [intros []; done|]].
    + intros i' Hi Hw. apply elem_of_cons in Hi as [->|Hi]; [done|by apply Hall].
    + intros i' [= <-]. right. by split; [left|].
  - intros H. apply IH in H as (Hall & Hs & Hin). split; [|split; [done|]].
    + intros i' Hi Hw. apply elem_of_cons in Hi as [->|Hi]; [|by apply Hall]. apply wanted_bool in Hw. congruence.
    + intros i' Hi. destruct (Hin i' Hi) as [|[]]; [by left|]. right. by split; [right|].
Qed.

Lemma findJavaContainers_elem cs i rest :
  findJavaContainers ToLower cs = i :: rest -> exists c, c ∈ cs /\ is_java ToLower c = true.
Proof.
  unfold findJavaContainers. intros H. destruct (filter _ _) as [|[j c] l] eqn:Ef; [done|].
  assert (Hin : (j, c) ∈ (j, c) :: l) by left. rewrite <- Ef in Hin. apply list_elem_of_filter in Hin as [Hj Hin].
  apply elem_of_lookup_imap in Hin as (k & c' & [= -> ->] & Hk). exists c'. split; [by eapply list_elem_of_lookup_2|done].
Qed.

(** The pod is to get one runtime, or the Java agent. *)
Definition runtime_selected (s : Server) (now : Z) (p : podMeta) (ns : string) (r : runtime) : Prop :=
  exists central, (forall c, central = Some c -> policy_for s now p ns c) /\ wanted p central r /\
    forall i, i ∈ injections (cfg s) -> wanted p central i.1 -> i.1 = r.
Definition java_selected (s : Server) (p : podMeta) (ns : string) : Prop :=
  (exists w, w ∈ candidateWorkloads p /\ ns +:+ "/" +:+ w ∈ enable s) /\
  exists c, c ∈ Containers p /\ is_java ToLower c = true.

Lemma runtime_selected_of s now p ns central r image :
  (forall c, central = Some c -> policy_for s now p ns c) ->
  select_runtime p central (injections (cfg s)) None = Ok (Some (r, image)) -> runtime_selected s now p ns r.
Proof.
  intros Hc H. apply select_runtime_spec in H as (Hall & _ & Hin). exists central. split; [done|].
  split; [by destruct (Hin _ eq_refl) as [|[_ Hw]]|]. intros i Hi Hw. specialize (Hall i Hi Hw). by injection Hall as <-.
Qed.

Lemma pod_patch_selected s now p ns ops :
  pod_patch ToLower s now p ns = Some ops ->
  (exists r, runtime_selected s now p ns r) \/ java_selected s p ns.
Proof.
  unfold pod_patch.
  assert (Hcentral : forall c, runtimeSelection s now p ns = Some c -> policy_for s now p ns c)
    by (intros c; apply runtimeSelection_spec).
  destruct (runtimeSelection s now p ns) as [central|];
    (destruct (select_runtime _ _ _ None) as [[[r image]|]|] eqn:Er; [|intros H; right|done]).
  1: apply (runtime_selected_of s now p ns (Some central)) in Er; [left; by exists r|done].
  2: apply (runtime_selected_of s now p ns None) in Er; [left; by exists r|done].
  all: destruct (matchWorkload _ _ _) as [w|] eqn:Ew; [|done]; apply find_elem in Ew as [Hw He];
    apply bool_decide_eq_true in He; destruct (findJavaContainers _ _) eqn:Ej; [done|];
    apply findJavaContainers_elem in Ej; split; [by exists w|exact Ej].
Qed.

(** Every request is allowed, under its own identifier; what is answered has a patch only
    when the object is a pod and either exactly one of the runtimes is wanted, by an annotation
    of the pod or by a central policy that was polled within a minute and names the owner, a
    container and its image, or a workload that the pod may belong to is enabled and one of its
    containers looks like Java. *)
Theorem patched_only_when_selected unmarshal_pod marshal s now req :
  let res := decide ToLower unmarshal_pod marshal s now req in
  Allowed res = true /\ res_UID res = UID req /\
  ((Patch res = "" /\ PatchType res = "") \/
   exists p ns, Kind req = "Pod" /\ unmarshal_pod (Object req) = Some p /\
     ns = or_default (req_Namespace req) (pod_Namespace p) /\
     ((exists r, runtime_selected s now (set_clusterName (Cluster (cfg s)) p) ns r) \/
      java_selected s (set_clusterName (Cluster (cfg s)) p) ns)).
Proof.
  unfold decide. destruct (String.eqb_spec (Kind req) "Pod") as [Hk|_]; cbn [negb]; [|split_and!; [done..|by left]].
  destruct (unmarshal_pod (Object req)) as [p|]; [|split_and!; [done..|by left]].
  destruct (pod_patch _ _ _ _ _) as [[|o ops]|] eqn:Ep; [split_and!; [done..|by left]| |split_and!; [done..|by left]].
  split_and!; [done..|]. right. exists p, (or_default (req_Namespace req) (pod_Namespace p)). split_and!; [done..|]. by eapply pod_patch_selected.
Qed.
End runtime.

(** ** Examples *)

Definition lower : string -> string := map_bytes lower_byte.

Definition web_container : container :=
  mk_container "app" "node:20" [plain "NODE_OPTIONS" "--max-old-space-size=512"; plain "PORT" "80"] 0 [].
Definition web_pod : podMeta :=
  mk_pod "" "prod" "" "shop" ∅ ∅ "web-7959f7697-" [] [web_container; mk_container "proxy" "envoy" [] 0 []] [] ["data"].

Definition doc (l : list (string * json)) : gmap string json := list_to_map l.
Definition web_container_doc : json :=
  JObject (doc [("name", JString "app"); ("image", JString "node:20");
                ("env", JArray [env_json (plain "NODE_OPTIONS" "--max-old-space-size=512"); env_json (plain "PORT" "80")])]).
Definition proxy_doc : json := JObject (doc [("name", JString "proxy"); ("image", JString "envoy"); ("tty", JBool true)]).
Definition web_spec : gmap string json :=
  doc [("containers", JArray [web_container_doc; proxy_doc]); ("volumes", JArray [volume_json "data"]); ("hostNetwork", JBool true)].
Definition web_doc : gmap string json := doc [("kind", JString "Pod"); ("spec", JObject web_spec)].

Lemma web_spec_doc : spec_doc web_spec web_pod.
Proof.
  split; [|split]; [right| left|right].
  - exists [web_container_doc; proxy_doc]. split; [by vm_compute|]. constructor; [|constructor; [|constructor]].
    + eexists. split; [reflexivity|]. split; [by vm_compute|]. split; [by vm_compute|]. split; [|split; left].
      * right. exists (env_json <$> Env web_container). split; [by vm_compute|apply env_jsons_doc].
      * split; [left; by vm_compute|done].
      * split; [left; by vm_compute|done].
    + eexists. split; [reflexivity|]. split; [by vm_compute|]. split; [by vm_compute|].
      split; [left|split; left]; (split; [left; by vm_compute|done]).
  - split; [left; by vm_compute|done].
  - exists [volume_json "data"]. split; [by vm_compute|]. constructor; [apply volume_json_doc|constructor].
Qed.

Lemma runtime_patch_installs_witness : exists ops,
  nodePatch lower web_pod "app" "telvyn/node:1" "http://$(NODE_IP):4318" = Ok ops /\
  let spec' := spec_installed node web_pod "app" "telvyn/node:1" "http://$(NODE_IP):4318" web_spec in
  apply_ops ops (JObject web_doc) = Some (JObject (<["spec" := JObject spec']> web_doc)) /\
  spec' !! "hostNetwork" = Some (JBool true) /\
  elems spec' "volumes" = [volume_json "data"; agent_volume_doc node] /\
  elems spec' "containers" !! 1%nat = Some proxy_doc.
Proof.
  eexists. split; [reflexivity|].
  destruct (runtime_patch_installs lower node web_pod "app" "telvyn/node:1" "http://$(NODE_IP):4318" _ web_doc web_spec
    eq_refl eq_refl web_spec_doc ltac:(split; [by vm_compute|repeat constructor; by vm_compute]))
    as (Happly & _ & Hother & _).
  split; [exact Happly|]. split; [|split; by vm_compute].
  rewrite Hother by (rewrite !not_elem_of_cons; repeat split; [done..|apply not_elem_of_nil]). by vm_compute.
Defined.

(** The name of a workload is taken for the name of a pod when it ends like one: the pods of
    the StatefulSet "payment-cache" are taken for the workload "payment" too, and get the
    agent that "payment" is to get. *)
Definition cache_pod : podMeta :=
  mk_pod "" "prod" "payment-cache-0" "shop" ∅ ∅ "" [mk_owner "payment-cache" "StatefulSet"]
    [mk_container "app" "openjdk" [] 0 []] [] [].
Definition payment_enabled : Server :=
  poll 0 None (Some (200, Some [mk_entry "shop" "" "payment" "java_javaagent"])) (New (mk_config "" "" "" "" "" "" "" "" "" "" "" "" "" "")).

Example workload_not_idempotent : WorkloadOf "payment-cache-0" = "payment-cache" /\ WorkloadOf (WorkloadOf "payment-cache-0") = "payment".
Proof. by vm_compute. Qed.
Example other_workload_patched : matchWorkload payment_enabled cache_pod "shop" = Some "payment" /\
  is_Some (pod_patch lower payment_enabled 0 cache_pod "shop").
Proof. split; [by vm_compute|vm_compute; by eexists]. Qed.

(** The Java agent is put in the value of a JAVA_TOOL_OPTIONS that is there; when it has no
    value of its own, but one from elsewhere, there is nothing to replace and the API server
    rejects the patch. *)
Definition indirect_options : envVar := mk_env "JAVA_TOOL_OPTIONS" "" (Some None).
Definition indirect_pod : podMeta :=
  mk_pod "" "prod" "shop-0" "shop" ∅ ∅ "" [] [mk_container "app" "openjdk" [indirect_options] 0 []] [] [].
Definition indirect_doc : json :=
  JObject (doc [("spec", JObject (doc [("containers", JArray [JObject (doc [("name", JString "app"); ("image", JString "openjdk");
    ("env", JArray [env_json indirect_options])])])]))]).
Example indirect_options_rejected :
  apply_ops (buildPatch indirect_pod (findJavaContainers lower (Containers indirect_pod)) "agent" "" "" "" "shop") indirect_doc = None.
Proof. by vm_compute. Qed.
End WebhookProps.
