(* ===== verification/Snmp.v ===== *)
(** * SNMP profiles (internal/snmp: profile.go, walk.go, client.go, params.go, v3.go)

    A profile says which objects of a device become metrics.  Profiles come with the agent
    or from the server; the profile of a device is the one whose prefix of the device's
    sysObjectID is the longest.

    The device is what answers to GET and to a walk of a subtree: each request takes the
    state of the device and returns the variables, None when it fails or is cancelled, with
    the state it leaves.  The library of SNMP, YAML, regular expressions of profiles, the
    Unicode case tables, the text of values of other types and the order in which a map
    is enumerated are arguments. *)

From stdpp Require Import sorting.
From S2P Require Import Prelude GoStrings GoFloat Wire Bolt.
#[local] Open Scope Z_scope.

Module Snmp.

(** ** Variables (gosnmp) *)

(** The types that the code asks for. *)
Inductive Asn1BER := Null | NoSuchObject | NoSuchInstance | EndOfMibView | OtherType.

(** [VInt] is any of int, int32, int64, uint, uint32 and uint64; [VOther] a value of another
    type by the text that fmt makes of it. *)
Inductive pduValue := VNil | VString (s : string) | VBytes (s : string) | VInt (z : Z) | VFloat (f : f64) | VOther (text : string).

Record SnmpPDU := mk_pdu { pdu_Name : string; pdu_Type : Asn1BER; pdu_Value : pduValue }.
Definition no_pdu : SnmpPDU := mk_pdu "" OtherType VNil.

Definition PduFloat (p : SnmpPDU) : option f64 :=
  match pdu_Value p with VInt z => Some (f_of_Z z) | VFloat f => Some f | _ => None end.

(** ** Parameters and clients *)

Record Params := mk_params {
  Target : string;
  Version : string;
  Timeout : Z;
  Community : string;
  V3User : string;
  V3AuthProto : string;
  V3AuthPass : string;
  V3PrivProto : string;
  V3PrivPass : string;
  V3ContextName : string;
}.

Definition defaultTimeout : Z := 5 * second.
Definition defaultTimeoutSeconds : Z := 5.

Definition strDefault (v def : string) : string :=
  let v := trim_space v in if String.eqb v "" then def else v.
Definition firstNonEmpty (a b : string) : string := if String.eqb (trim_space a) "" then b else a.

Inductive authProtocol := NoAuth | MD5 | SHA | SHA224 | SHA256 | SHA384 | SHA512.
Inductive privProtocol := NoPriv | DES | AES | AES192 | AES256 | AES192C | AES256C.
Inductive msgFlags := NoAuthNoPriv | AuthNoPriv | AuthPriv.
#[export] Instance authProtocol_dec : EqDecision authProtocol.
Proof. solve_decision. Defined.
#[export] Instance privProtocol_dec : EqDecision privProtocol.
Proof. solve_decision. Defined.

Definition MsgFlags (auth : authProtocol) (priv : privProtocol) : res msgFlags :=
  if bool_decide (auth = NoAuth) && negb (bool_decide (priv = NoPriv)) then Err "NoAuth+Priv is not allowed"
  else if bool_decide (auth = NoAuth) then Ok NoAuthNoPriv
  else if bool_decide (priv = NoPriv) then Ok AuthNoPriv
  else Ok AuthPriv.

(** What is set of the library's session. *)
Inductive credentials :=
  | V2c (community : string)
  | V3 (flags : msgFlags) (context user : string) (auth : authProtocol) (authPass : string)
       (priv : privProtocol) (privPass : string).
Record Client := mk_client {
  target : string;
  host : string;
  port : Z;
  timeout : Z;
  session : credentials;
}.

(** The white space at the beginning; None at a newline. *)
Fixpoint skip_space (fuel : nat) (s : string) : option string :=
  match fuel with
  | O => Some s
  | S fuel =>
      match byte_at 0 s with
      | Some 10 => None
      | _ => match space_len space_encodings s with
             | O => Some s
             | n => skip_space fuel (str_drop n s)
             end
      end
  end.

Fixpoint leading_digits (s : string) : string :=
  match s with
  | String c s => if is_digit (byte_of c) then String c (leading_digits s) else ""
  | "" => ""
  end.

(** [fmt.Sscanf(s, "%d", &port)] for a uint16: what follows the digits is left. *)
Definition scan_uint16 (s : string) : option Z :=
  s ← skip_space (S (String.length s)) s;
  n ← parse_uint 64 (leading_digits s);
  if n <? 2 ^ 16 then Some n else None.

(** The parts around the last occurrence of a byte. *)
Fixpoint last_cut (sep : Ascii.ascii) (s : string) : option (string * string) :=
  match s with
  | "" => None
  | String c r =>
      match last_cut sep r with
      | Some (a, b) => Some (String c a, b)
      | None => if Ascii.eqb c sep then Some ("", r) else None
      end
  end.

Definition splitHostPort (t : string) : option (string * Z) :=
  let t := trim_space t in
  if String.eqb t "" then None
  else match last_cut (chr 58) t with
       | None => Some (t, 161)
       | Some (host, portStr) =>
           if String.eqb host "" then None
           else match scan_uint16 portStr with
                | Some port => if port =? 0 then None else Some (host, port)
                | None => None
                end
       end.

(** ** Profiles *)

Record ProfileSymbol := mk_symbol { sym_OID : string; sym_Name : string; sym_Scale : f64 }.
Record ProfileTable := mk_table { table_OID : string; table_Name : string }.
Record ProfileMetricTag := mk_metric_tag { Tag : string; tag_Value : string; tag_Symbol : option ProfileSymbol }.
Record ProfileTableFilter := mk_filter { filter_Tag : string; Include : list string; Exclude : list string }.

Record ProfileMetric := mk_profile_metric {
  MIB : string;
  Symbol : option ProfileSymbol;
  Table : option ProfileTable;
  Symbols : list ProfileSymbol;
  metric_MetricTags : list ProfileMetricTag;
  Filter : option ProfileTableFilter;
}.

Record DiscoveryKey := mk_key { Label : string; key_OID : string }.
Record DiscoveryItem := mk_item { item_Name : string; item_OID : string; item_Scale : f64 }.
Record ProfileDiscoveryRule := mk_rule {
  rule_Name : string;
  Keys : list DiscoveryKey;
  Items : list DiscoveryItem;
  rule_StaticTags : tagmap;
}.

Record ProfileMetaField := mk_meta_field { meta_Value : string; meta_Symbol : option ProfileSymbol }.
Record ProfileMetadata := mk_metadata { Device : gmap string ProfileMetaField }.

Record Profile := mk_profile {
  Name : string;
  SysObjectID : list string;
  AutoDetect : option bool;
  Metrics : list ProfileMetric;
  MetricTags : list ProfileMetricTag;
  DiscoveryRules : list ProfileDiscoveryRule;
  Metadata : option ProfileMetadata;
}.
Definition set_name (n : string) (p : Profile) : Profile :=
  mk_profile n (SysObjectID p) (AutoDetect p) (Metrics p) (MetricTags p) (DiscoveryRules p) (Metadata p).

Definition autoDetectEnabled (p : Profile) : bool := default true (AutoDetect p).

(** *** Choice by sysObjectID *)

Definition normal_base (pat : string) : string := trim_suffix ".*" (trim_prefix "." (trim_space pat)).
Definition base_matches (target base : string) : bool :=
  negb (String.eqb base "") && (String.eqb target base || has_prefix (base +:+ ".") target).

Definition match_patterns (target : string) (p : Profile) (best : option Profile * nat) : option Profile * nat :=
  foldl (fun best pat =>
    let base := normal_base pat in
    if base_matches target base && (best.2 <? String.length base)%nat then (Some p, String.length base) else best)
    best (SysObjectID p).

(** A nil profile is None. *)
Definition MatchSysObjectID (profiles : list (option Profile)) (sysOid : string) : option Profile :=
  let target := trim_prefix "." (trim_space sysOid) in
  if String.eqb target "" then None
  else (foldl (fun best p =>
          match p with
          | Some p => if autoDetectEnabled p then match_patterns target p best else best
          | None => best
          end) (None, 0%nat) profiles).1.

(** *** The catalog *)

Definition id_char (z : Z) : bool := ((97 <=? z) && (z <=? 122)) || is_digit z.
(** [profileIDPattern]. *)
Definition is_profile_id (s : string) : bool :=
  match bytes_of s with
  | [] => false
  | c :: l => id_char c && forallb (fun z => id_char z || (z =? 95) || (z =? 45)) l && id_char (List.last l c)
  end.

Definition profileIDFromFilename (filename : string) : option string :=
  if existsb (fun z => (z =? 47) || (z =? 92)) (bytes_of filename) || negb (has_suffix ".yaml" filename) then None
  else
    let base := trim_suffix ".yaml" filename in
    if has_prefix "." base || has_prefix "_" base then None
    else if is_profile_id base then Some base else None.

Definition validateEmbeddedProfile (p : Profile) : res unit :=
  match SysObjectID p, Metrics p, DiscoveryRules p, Metadata p with
  | [], [], [], None => Err "nothing in it"
  | _, _, _, _ =>
      if existsb (fun m => match Symbol m, Table m with None, None => true | _, _ => false end) (Metrics p)
      then Err "metric without symbol or table" else Ok tt
  end.

(** [loadedAll], [loadedByID], [loadErr]; the profiles from the server. *)
Record Catalog := mk_catalog {
  loadedAll : list Profile;
  loadedByID : gmap string Profile;
  loadErr : option string;
}.

(** A row of a table: its variables by column. *)
Abbreviation row := (gmap string SnmpPDU).

Section snmp.
Context {W : Type}.
Variable enum : forall A : Type, gmap string A -> list (string * A).
Variable ToLower ToUpper : string -> string.
Variable EqualFold : string -> string -> bool.
Variable compile : string -> option (string -> bool).   (* regexp.Compile and MatchString *)
Variable unmarshal : string -> option Profile.   (* yaml.Unmarshal *)
Variable format_float : f64 -> string.   (* fmt.Sprintf("%v") *)
Variable snmp_get : list string -> W -> option (list SnmpPDU) * W.
Variable snmp_walk : string -> W -> option (list SnmpPDU) * W.

Definition AuthProto (s : string) : res authProtocol :=
  let u := ToUpper (trim_space s) in
  if String.eqb u "NOAUTH" then Ok NoAuth
  else if String.eqb u "MD5" then Ok MD5
  else if String.eqb u "SHA" then Ok SHA
  else if String.eqb u "SHA224" then Ok SHA224
  else if String.eqb u "SHA256" then Ok SHA256
  else if String.eqb u "SHA384" then Ok SHA384
  else if String.eqb u "SHA512" then Ok SHA512
  else Err "unknown authentication protocol".

Definition PrivProto (s : string) : res privProtocol :=
  let u := ToUpper (trim_space s) in
  if String.eqb u "NOPRIV" then Ok NoPriv
  else if String.eqb u "DES" then Ok DES
  else if String.eqb u "AES" then Ok AES
  else if String.eqb u "AES192" then Ok AES192
  else if String.eqb u "AES256" then Ok AES256
  else if String.eqb u "AES192C" then Ok AES192C
  else if String.eqb u "AES256C" then Ok AES256C
  else Err "unknown privacy protocol".

Definition ParamsFromMap (params : tagmap) : res Params :=
  let target := trim_space (tag "target" params) in
  if String.eqb target "" then Err "missing param target"
  else
    let version := ToLower (trim_space (tag "version" params)) in
    let version := if String.eqb version "" then "v2c" else version in
    let timeoutSec := match atoi (tag "timeout_seconds" params) with
                      | Some n => if 0 <? n then n else defaultTimeoutSeconds
                      | None => defaultTimeoutSeconds
                      end in
    let timeout := i64 (timeoutSec * second) in
    if String.eqb version "v2c" then
      let community := trim_space (tag "community" params) in
      if String.eqb community "" then Err "missing param community"
      else Ok (mk_params target version timeout community "" "" "" "" "" "")
    else if String.eqb version "v3" then
      let user := trim_space (tag "v3_user" params) in
      if String.eqb user "" then Err "missing param v3_user"
      else Ok (mk_params target version timeout "" user (strDefault (tag "v3_auth_proto" params) "NoAuth")
                 (tag "v3_auth_pass" params) (strDefault (tag "v3_priv_proto" params) "NoPriv")
                 (tag "v3_priv_pass" params) (tag "v3_context" params))
    else Err "invalid version".

Definition NewClient (p : Params) : res Client :=
  let target := trim_space (Target p) in
  if String.eqb target "" then Err "no target"
  else match splitHostPort target with
       | None => Err "invalid target"
       | Some (host, port) =>
           let timeout := if Timeout p <=? 0 then defaultTimeout else Timeout p in
           let version := ToLower (trim_space (Version p)) in
           let version := if String.eqb version "" then "v2c" else version in
           if String.eqb version "v2c" then Ok (mk_client target host port timeout (V2c (Community p)))
           else if String.eqb version "v3" then
             auth ← AuthProto (firstNonEmpty (V3AuthProto p) "NoAuth");
             priv ← PrivProto (firstNonEmpty (V3PrivProto p) "NoPriv");
             flags ← MsgFlags auth priv;
             Ok (mk_client target host port timeout
                   (V3 flags (V3ContextName p) (V3User p) auth (V3AuthPass p) priv (V3PrivPass p)))
           else Err "unknown version"
       end.

(** *** Loading *)

Definition ParseProfileYAML (name yamlContent : string) : option Profile :=
  set_name name <$> unmarshal yamlContent.

(** The files from the first: what was loaded before an error is kept. *)
Fixpoint load_files (read : string -> option string) (names : list string) (c : Catalog) : Catalog :=
  match names with
  | [] => c
  | fname :: names =>
      let fail e := mk_catalog (loadedAll c) (loadedByID c) (Some e) in
      match read fname with
      | None => fail "read profile"
      | Some data =>
          match unmarshal data with
          | None => fail "parse profile"
          | Some p =>
              match profileIDFromFilename fname with
              | None => load_files read names c
              | Some profileID =>
                  match validateEmbeddedProfile p with
                  | Err _ => fail "invalid profile"
                  | Ok _ =>
                      if bool_decide (is_Some (loadedByID c !! profileID)) then fail "duplicate profile id"
                      else
                        let p := set_name profileID p in
                        load_files read names (mk_catalog (loadedAll c ++ [p]) (<[profileID := p]> (loadedByID c)) (loadErr c))
                  end
              end
          end
      end
  end.

(** [entries]: the files of the embedded directory, with whether they are directories. *)
Definition loadAll (entries : option (list (string * bool))) (read : string -> option string) : Catalog :=
  match entries with
  | None => mk_catalog [] ∅ (Some "ReadDir")
  | Some entries =>
      let names := filter (fun n => bool_decide (is_Some (profileIDFromFilename n)) = true)
                     ((fun e => e.1) <$> filter (fun e => e.2 = false) entries) in
      load_files read (merge_sort str_le names) (mk_catalog [] ∅ None)
  end.

(** [dyn]: the profiles of the server, replaced as a whole. *)
Definition LoadProfile (cat : Catalog) (dyn : gmap string Profile) (name : string) : res Profile :=
  match loadErr cat with
  | Some e => Err e
  | None =>
      match loadedByID cat !! name with
      | Some p => Ok p
      | None => match dyn !! name with Some p => Ok p | None => Err "unknown profile" end
      end
  end.

Definition AllProfiles (cat : Catalog) (dyn : gmap string Profile) : res (list Profile) :=
  match loadErr cat with
  | Some e => Err e
  | None => Ok (loadedAll cat ++ (snd <$> filter (fun e => loadedByID cat !! e.1 = None) (enum _ dyn)))
  end.

(** ** Requests *)

Definition M (A : Type) : Type := W -> A * W.
#[global] Instance M_ret : MRet M := fun A a w => (a, w).
#[global] Instance M_bind : MBind M := fun A B f m w => let '(a, w) := m w in f a w.

Fixpoint fold_m {A X} (f : A -> X -> M A) (a : A) (l : list X) : M A :=
  match l with [] => mret a | x :: l => a ← f a x; fold_m f a l end.

(** *** Values *)

Definition pduString (p : SnmpPDU) : string :=
  match pdu_Type p with
  | NoSuchObject | NoSuchInstance | EndOfMibView | Null => ""
  | OtherType =>
      match pdu_Value p with
      | VNil => ""
      | VString s | VBytes s => s
      | VInt z => itoa z
      | VFloat f => format_float f
      | VOther text => text
      end
  end.

Definition applyScale (v scale : f64) : f64 := if feq scale f64_zero then v else fmul v scale.

(** Of maps later in the list of arguments the values win. *)
Definition mergeTags (static profile table : tagmap) : tagmap := table ∪ (profile ∪ static).

Definition oidCanonical : gmap string string := list_to_map [
  ("1.3.6.1.2.1.2.2.1.10", "snmp.if.in_octets"); ("1.3.6.1.2.1.31.1.1.1.6", "snmp.if.in_octets");
  ("1.3.6.1.2.1.2.2.1.16", "snmp.if.out_octets"); ("1.3.6.1.2.1.31.1.1.1.10", "snmp.if.out_octets");
  ("1.3.6.1.2.1.2.2.1.14", "snmp.if.in_errors"); ("1.3.6.1.2.1.2.2.1.20", "snmp.if.out_errors");
  ("1.3.6.1.2.1.2.2.1.13", "snmp.if.in_discards"); ("1.3.6.1.2.1.2.2.1.19", "snmp.if.out_discards");
  ("1.3.6.1.2.1.2.2.1.8", "snmp.if.oper_status"); ("1.3.6.1.2.1.2.2.1.7", "snmp.if.admin_status");
  ("1.3.6.1.2.1.2.2.1.3", "snmp.if.type"); ("1.3.6.1.2.1.31.1.1.1.15", "snmp.if.high_speed");
  ("1.3.6.1.2.1.2.2.1.5", "snmp.if.speed"); ("1.3.6.1.2.1.2.2.1.4", "snmp.if.mtu");
  ("1.3.6.1.2.1.31.1.1.1.7", "snmp.if.in_ucast_packets"); ("1.3.6.1.2.1.31.1.1.1.8", "snmp.if.in_mcast_packets");
  ("1.3.6.1.2.1.31.1.1.1.9", "snmp.if.in_bcast_packets"); ("1.3.6.1.2.1.31.1.1.1.11", "snmp.if.out_ucast_packets");
  ("1.3.6.1.2.1.31.1.1.1.12", "snmp.if.out_mcast_packets"); ("1.3.6.1.2.1.31.1.1.1.13", "snmp.if.out_bcast_packets");
  ("1.3.6.1.2.1.25.3.3.1.2", "snmp.hr.processor_load"); ("1.3.6.1.2.1.25.2.3.1.5", "snmp.hr.storage_size");
  ("1.3.6.1.2.1.25.2.3.1.6", "snmp.hr.storage_used"); ("1.3.6.1.4.1.2021.4.5.0", "snmp.mem.total_kb");
  ("1.3.6.1.4.1.2021.4.6.0", "snmp.mem.avail_kb"); ("1.3.6.1.2.1.1.3.0", "snmp.sys.uptime");
  ("1.3.6.1.4.1.14988.1.1.3.6", "mikrotik.health.temp_cpu"); ("1.3.6.1.4.1.14988.1.1.3.10", "mikrotik.health.temp_system")].

Definition canonMetricName (oid fallback : string) : string := default fallback (oidCanonical !! trim_prefix "." oid).

Definition newMetric (now : Z) (hostID name : string) (val : f64) (tags : tagmap) : Metric :=
  mk_metric (Some now) hostID name val "" "" tags "snmp".

(** *** Tables *)

(** The column and the row of a variable of a table. *)
Definition table_cell (entryPrefix name : string) : option (string * string) :=
  let name := trim_prefix "." name in
  if negb (has_prefix entryPrefix name) then None
  else
    let suffix := str_drop (String.length entryPrefix) name in
    match cut_at "." suffix with
    | Some (col, rowIndex) => if String.eqb col "" || String.eqb rowIndex "" then None else Some (col, rowIndex)
    | None => None
    end.

Definition add_cell (entryPrefix : string) (out : gmap string row) (p : SnmpPDU) : gmap string row :=
  match table_cell entryPrefix (pdu_Name p) with
  | Some (col, rowIndex) => <[rowIndex := <["." +:+ entryPrefix +:+ col := p]> (default ∅ (out !! rowIndex))]> out
  | None => out
  end.

Definition entry_prefix (tableRoot : string) : string := trim_prefix "." (trim_space tableRoot) +:+ ".1.".
Definition WalkTable (tableRoot : string) : M (option (gmap string row)) :=
  pdus ← snmp_walk (trim_prefix "." (trim_space tableRoot));
  mret (foldl (add_cell (entry_prefix tableRoot)) ∅ <$> pdus).

Definition findRowPDU (r : row) (colOID : string) : option SnmpPDU :=
  let want := trim_prefix "." colOID in
  snd <$> List.find (fun kv => String.eqb (trim_prefix "." kv.1) want) (enum _ r).

Definition resolveTableTags (r : row) (tags : list ProfileMetricTag) : tagmap :=
  foldl (fun out t =>
    if String.eqb (Tag t) "" then out
    else match tag_Symbol t with
         | None => if String.eqb (tag_Value t) "" then out else <[Tag t := tag_Value t]> out
         | Some sym =>
             match findRowPDU r (sym_OID sym) with
             | Some pdu => <[Tag t := pduString pdu]> out
             | None => out
             end
         end) ∅ tags.

Definition keep (f : ProfileTableFilter) (tags : tagmap) : bool :=
  let incRe := omap compile (Include f) in
  let excRe := omap compile (Exclude f) in
  let v := tag (if String.eqb (filter_Tag f) "" then "interface_name" else filter_Tag f) tags in
  (match incRe with [] => true | _ => existsb (fun re => re v) incRe end) && negb (existsb (fun re => re v) excRe).

(** *** hrStorageTable *)

Definition hrStorageTableOID : string := "1.3.6.1.2.1.25.2.3".
Definition hrStorageTypeCol : string := "1.3.6.1.2.1.25.2.3.1.2".
Definition hrStorageDescrCol : string := "1.3.6.1.2.1.25.2.3.1.3".
Definition hrStorageAllocCol : string := "1.3.6.1.2.1.25.2.3.1.4".
Definition hrStorageSizeCol : string := "1.3.6.1.2.1.25.2.3.1.5".
Definition hrStorageUsedCol : string := "1.3.6.1.2.1.25.2.3.1.6".

Definition hrStorageTypeName (typeOID : string) : string :=
  let o := trim_prefix "." (trim_space typeOID) in
  let is_type n := String.eqb o ("1.3.6.1.2.1.25.2.1." +:+ n) in
  if is_type "1" then "other"
  else if is_type "2" then "ram"
  else if is_type "3" then "virtual_memory"
  else if is_type "4" then "fixed_disk"
  else if is_type "5" then "removable_disk"
  else if is_type "6" then "floppy_disk"
  else if is_type "7" then "compact_disc"
  else if is_type "8" then "ram_disk"
  else if is_type "9" then "flash_memory"
  else if is_type "10" then "network_disk"
  else "".

(** The tags of the row with those of the storage, and the factor from blocks to bytes. *)
Definition enrichHrStorageRow (tableOID : string) (r : row) (rowTags : tagmap) : tagmap * f64 :=
  if negb (String.eqb (trim_prefix "." (trim_space tableOID)) hrStorageTableOID) then (rowTags, f64_one)
  else
    let rowTags := match findRowPDU r hrStorageTypeCol with
                   | Some pdu => let t := hrStorageTypeName (pduString pdu) in
                                 if String.eqb t "" then rowTags else <["storage_type" := t]> rowTags
                   | None => rowTags
                   end in
    let rowTags := match findRowPDU r hrStorageDescrCol with
                   | Some pdu => let s := trim_space (pduString pdu) in
                                 if String.eqb s "" then rowTags else <["storage_descr" := s]> rowTags
                   | None => rowTags
                   end in
    (rowTags, match findRowPDU r hrStorageAllocCol ≫= PduFloat with
              | Some u => if flt f64_zero u then u else f64_one
              | None => f64_one
              end).

Definition isHrStorageAmount (oid : string) : bool :=
  let o := trim_prefix "." oid in String.eqb o hrStorageSizeCol || String.eqb o hrStorageUsedCol.

(** *** Scalars *)

Definition getScalarOnce (oid : string) : M (option f64) :=
  pdus ← snmp_get [oid];
  mret match pdus with Some (p :: _) => PduFloat p | _ => None end.

Definition cpuTemperature : string := "1.3.6.1.4.1.14988.1.1.3.6".
Definition gaugeTable : string := "1.3.6.1.4.1.14988.1.1.3.100".

Definition row_pdu (r : row) (col : string) : SnmpPDU := default no_pdu (findRowPDU r (gaugeTable +:+ col)).
Definition cpu_gauge (r : row) : option f64 :=
  match PduFloat (row_pdu r ".1.4") with
  | Some unitValue =>
      if String.eqb (pduString (row_pdu r ".1.2")) "cpu-temperature" && feq unitValue f64_one
      then PduFloat (row_pdu r ".1.3") else None
  | None => None
  end.
Fixpoint first_gauge (rows : list (string * row)) : option f64 :=
  match rows with
  | [] => None
  | r :: rows => match cpu_gauge r.2 with Some v => Some (fmul v (f_of_Z 10)) | None => first_gauge rows end
  end.

Definition getScalar (oid : string) : M (option f64) :=
  v ← getScalarOnce oid;
  match v with
  | Some v => mret (Some v)
  | None =>
      v ← (if has_suffix ".0" oid then mret None else getScalarOnce (oid +:+ ".0"));
      match v with
      | Some v => mret (Some v)
      | None =>
          if String.eqb (trim_suffix ".0" (trim_prefix "." oid)) cpuTemperature then
            rows ← WalkTable gaugeTable;
            mret (match rows with Some rows => first_gauge (enum _ rows) | None => None end)
          else mret None
      end
  end.

(** ** Collection *)

(** The metrics of one row: of the symbols that have a number, the first of each name. *)
Fixpoint row_metrics (now : Z) (hostID : string) (tags : tagmap) (storageFactor : f64) (r : row)
    (seen : gset string) (syms : list ProfileSymbol) : list Metric :=
  match syms with
  | [] => []
  | sym :: syms =>
      match findRowPDU r (sym_OID sym) ≫= PduFloat with
      | None => row_metrics now hostID tags storageFactor r seen syms
      | Some val =>
          let name := canonMetricName (sym_OID sym) (sym_Name sym) in
          if bool_decide (name ∈ seen) then row_metrics now hostID tags storageFactor r seen syms
          else
            let scaled := applyScale val (sym_Scale sym) in
            let scaled := if negb (feq storageFactor f64_one) && isHrStorageAmount (sym_OID sym)
                          then fmul scaled storageFactor else scaled in
            newMetric now hostID name scaled tags
            :: row_metrics now hostID tags storageFactor r ({[ name ]} ∪ seen) syms
      end
  end.

Definition table_row (now : Z) (hostID : string) (staticTags profileTags : tagmap) (m : ProfileMetric) (tableOID : string)
    (r : string * row) : list Metric :=
  let rowTags := <["row_index" := r.1]> (resolveTableTags r.2 (metric_MetricTags m)) in
  if match Filter m with Some f => keep f rowTags | None => true end then
    let '(rowTags, storageFactor) := enrichHrStorageRow tableOID r.2 rowTags in
    row_metrics now hostID (mergeTags staticTags profileTags rowTags) storageFactor r.2 ∅ (Symbols m)
  else [].

Record progress := mk_progress { out : list Metric; scalarAttempts : nat; scalarSuccess : nat }.

Definition collect_metric (now : Z) (hostID : string) (staticTags profileTags : tagmap) (st : progress) (m : ProfileMetric)
    : M progress :=
  match Symbol m, Table m with
  | Some sym, _ =>
      val ← getScalar (sym_OID sym);
      mret match val with
           | None => mk_progress (out st) (S (scalarAttempts st)) (scalarSuccess st)
           | Some val =>
               mk_progress (out st ++ [newMetric now hostID (canonMetricName (sym_OID sym) (sym_Name sym))
                                         (applyScale val (sym_Scale sym)) (mergeTags staticTags profileTags ∅)])
                 (S (scalarAttempts st)) (S (scalarSuccess st))
           end
  | None, Some t =>
      rows ← WalkTable (table_OID t);
      mret match rows with
           | None => st
           | Some rows =>
               mk_progress (out st ++ (enum _ rows ≫= table_row now hostID staticTags profileTags m (table_OID t)))
                 (scalarAttempts st) (scalarSuccess st)
           end
  | None, None => mret st
  end.

(** *** Discovery rules *)

Definition oidSuffix (pduOID prefix : string) : string :=
  let p := trim_prefix "." pduOID in
  let r := trim_prefix "." prefix in
  if has_prefix (r +:+ ".") p then str_drop (String.length r + 1) p else "".

Definition add_label (k : DiscoveryKey) (labels : gmap string tagmap) (pdu : SnmpPDU) : gmap string tagmap :=
  let suffix := oidSuffix (pdu_Name pdu) (key_OID k) in
  if String.eqb suffix "" then labels
  else <[suffix := <[Label k := pduString pdu]> (default ∅ (labels !! suffix))]> labels.

Definition walk_key (labels : gmap string tagmap) (k : DiscoveryKey) : M (gmap string tagmap) :=
  if String.eqb (Label k) "" || String.eqb (key_OID k) "" then mret labels
  else
    pdus ← snmp_walk (key_OID k);
    mret match pdus with Some pdus => foldl (add_label k) labels pdus | None => labels end.

(** The metrics of one item, with the pairs of name and row that were emitted. *)
Fixpoint item_metrics (now : Z) (hostID : string) (staticTags profileTags : tagmap) (rule : ProfileDiscoveryRule)
    (labels : gmap string tagmap) (item : DiscoveryItem) (emitted : gset string) (pdus : list SnmpPDU)
    : list Metric * gset string :=
  match pdus with
  | [] => ([], emitted)
  | pdu :: pdus =>
      let rest := item_metrics now hostID staticTags profileTags rule labels item in
      match PduFloat pdu with
      | None => rest emitted pdus
      | Some val =>
          let name := canonMetricName (item_OID item) (item_Name item) in
          let suffix := oidSuffix (pdu_Name pdu) (item_OID item) in
          let key := name +:+ str1 0 +:+ suffix in
          if bool_decide (key ∈ emitted) then rest emitted pdus
          else
            let rowTags := if String.eqb suffix "" then rule_StaticTags rule
                           else <["row_index" := suffix]> (rule_StaticTags rule) in
            let rowTags := default ∅ (labels !! suffix) ∪ rowTags in
            let '(ms, emitted) := rest ({[ key ]} ∪ emitted) pdus in
            (newMetric now hostID name (applyScale val (item_Scale item)) (mergeTags staticTags profileTags rowTags) :: ms, emitted)
      end
  end.

Definition walk_item (now : Z) (hostID : string) (staticTags profileTags : tagmap) (rule : ProfileDiscoveryRule)
    (labels : gmap string tagmap) (st : list Metric * gset string) (item : DiscoveryItem) : M (list Metric * gset string) :=
  if String.eqb (item_Name item) "" || String.eqb (item_OID item) "" then mret st
  else
    pdus ← snmp_walk (item_OID item);
    mret match pdus with
         | Some pdus =>
             let '(ms, emitted) := item_metrics now hostID staticTags profileTags rule labels item st.2 pdus in
             (st.1 ++ ms, emitted)
         | None => st
         end.

Definition executeDiscoveryRule (now : Z) (hostID : string) (staticTags profileTags : tagmap) (rule : ProfileDiscoveryRule)
    : M (list Metric) :=
  labels ← fold_m walk_key ∅ (Keys rule);
  st ← fold_m (walk_item now hostID staticTags profileTags rule labels) ([], ∅) (Items rule);
  mret st.1.

(** *** A profile *)

Definition static_profile_tags (p : Profile) : tagmap :=
  foldl (fun tags t =>
    match tag_Symbol t with
    | None => if String.eqb (tag_Value t) "" || String.eqb (Tag t) "" then tags else <[Tag t := tag_Value t]> tags
    | Some _ => tags
    end) ∅ (MetricTags p).

Definition MetricFamilies (p : Profile) : gset string :=
  let metrics := Metrics p ≫= fun m =>
    (match Symbol m with Some s => [canonMetricName (sym_OID s) (sym_Name s)] | None => [] end)
    ++ ((fun s => canonMetricName (sym_OID s) (sym_Name s)) <$> Symbols m) in
  let rules := DiscoveryRules p ≫= fun r => item_Name <$> Items r in
  list_to_set (metrics ++ rules) ∖ {[ "" ]}.

Definition Collect (now : Z) (p : Profile) (hostID : string) (staticTags : tagmap) : M (res (list Metric)) :=
  let profileTags := static_profile_tags p in
  st ← fold_m (collect_metric now hostID staticTags profileTags) (mk_progress [] 0 0) (Metrics p);
  all ← fold_m (fun l rule => ms ← executeDiscoveryRule now hostID staticTags profileTags rule; mret (l ++ ms))
          (out st) (DiscoveryRules p);
  mret (if (0 <? scalarAttempts st)%nat && (scalarSuccess st =? 0)%nat && bool_decide (all = [])
        then Err "nenhum OID respondeu" else Ok all).

(** ** Identity of the device *)

Definition oidSysDescr : string := "1.3.6.1.2.1.1.1.0".
Definition oidSysObjectID : string := "1.3.6.1.2.1.1.2.0".
Definition oidSysName : string := "1.3.6.1.2.1.1.5.0".
Definition oidEntModel : string := "1.3.6.1.2.1.47.1.1.1.1.13".
Definition oidEntSerial : string := "1.3.6.1.2.1.47.1.1.1.1.11".
Definition oidEntSoftware : string := "1.3.6.1.2.1.47.1.1.1.1.10".
Definition oidEntClass : string := "1.3.6.1.2.1.47.1.1.1.1.5".

(** [reVersion]: digits, a dot and digits, then any number of dots with digits. *)
Fixpoint version_rest (fuel : nat) (s : string) : string :=
  match fuel with
  | O => ""
  | S fuel =>
      match s with
      | String c s =>
          let ds := leading_digits s in
          if (byte_of c =? 46) && negb (String.eqb ds "")
          then String c ds +:+ version_rest fuel (str_drop (String.length ds) s) else ""
      | "" => ""
      end
  end.
Definition version_here (s : string) : string :=
  let ds := leading_digits s in
  let rest := version_rest (S (String.length s)) (str_drop (String.length ds) s) in
  if String.eqb ds "" || String.eqb rest "" then "" else ds +:+ rest.
Fixpoint find_version (s : string) : string :=
  match s with
  | "" => ""
  | String _ r => let v := version_here s in if String.eqb v "" then find_version r else v
  end.

Definition os_names : list (list string * string) :=
  [(["routeros"], "RouterOS"); (["ios xe"], "IOS XE"); (["nx-os"], "NX-OS");
   (["cisco ios"; "cisco internetwork operating system"], "IOS"); (["junos"], "Junos"); (["arubaos"], "ArubaOS");
   (["fortios"; "fortigate"], "FortiOS"); (["vyos"], "VyOS"); (["linux"], "Linux")].

Definition parseSysDescr (d : string) : string * string :=
  let d := trim_space d in
  if String.eqb d "" then ("", "")
  else match List.find (fun o => existsb (fun sub => contains sub (ToLower d)) o.1) os_names with
       | Some o => (o.2, find_version d)
       | None => ("", "")
       end.

Definition vendors : list (string * string) :=
  [("9", "Cisco"); ("2011", "Huawei"); ("14988", "MikroTik"); ("2636", "Juniper"); ("674", "Dell"); ("11", "HP");
   ("25506", "H3C"); ("12356", "Fortinet"); ("14823", "Aruba"); ("1916", "Extreme"); ("1991", "Brocade"); ("3375", "F5");
   ("8072", "Net-SNMP"); ("2352", "Nokia")].

Definition vendorFromSysObjectID (oid : string) : string :=
  let ent := "1.3.6.1.4.1." in
  let o := trim_prefix "." (trim_space oid) in
  if negb (has_prefix ent o) then ""
  else
    let n := str_drop (String.length ent) o in
    let n := match cut_at "." n with Some (a, _) => if String.eqb a "" then n else a | None => n end in
    match List.find (fun v => String.eqb v.1 n) vendors with
    | Some v => v.2
    | None => "enterprise-" +:+ n
    end.

(** A field that is absent reads as empty. *)
Definition set_text (field value : string) (out : tagmap) : tagmap :=
  let value := trim_space value in if String.eqb value "" then out else <[field := value]> out.

Definition sys_variable (out : tagmap) (pd : SnmpPDU) : tagmap :=
  let name := trim_prefix "." (pdu_Name pd) in
  if has_prefix "1.3.6.1.2.1.1.1" name then
    let descr := trim_space (pduString pd) in
    let '(osn, osv) := parseSysDescr descr in
    let out := if String.eqb osn "" then out
               else let out := <["os_name" := osn]> out in if String.eqb osv "" then out else <["version" := osv]> out in
    if String.eqb descr "" || negb (String.eqb (tag "model" out) "") then out
    else
      let out := if String.eqb (tag "os_name" out) "" then <["os_name" := "SNMP"]> out else out in
      let osv := find_version descr in
      let out := if String.eqb osv "" then out else <["version" := osv]> out in
      <["model" := descr]> out
  else if has_prefix "1.3.6.1.2.1.1.2" name then
    let soid := trim_space (pduString pd) in
    if String.eqb soid "" then out
    else
      let out := <["sys_object_id" := soid]> out in
      let v := vendorFromSysObjectID soid in
      if String.eqb v "" then out else <["vendor" := v]> out
  else if has_prefix "1.3.6.1.2.1.1.5" name then set_text "sys_name" (pduString pd) out
  else out.

(** The part of a name below the root. *)
Definition below (root name : string) : option string :=
  let prefix := trim_prefix "." root +:+ "." in
  let name := trim_prefix "." name in
  if has_prefix prefix name then Some (str_drop (String.length prefix) name) else None.

Definition intValue (value : string) : Z := atoi_value (trim_space value).

Definition walkEntityClass (root : string) (class : Z) : M (gset string) :=
  pdus ← snmp_walk root;
  mret (list_to_set (omap (fun pd => match below root (pdu_Name pd) with
                                     | Some index => if intValue (pduString pd) =? class then Some index else None
                                     | None => None
                                     end) (default [] pdus))).

Definition entity_value (root : string) (indexes : gset string) (pd : SnmpPDU) : option string :=
  match below root (pdu_Name pd) with
  | Some index => let value := trim_space (pduString pd) in
                  if bool_decide (index ∈ indexes) && negb (String.eqb value "") then Some value else None
  | None => None
  end.
Definition walkEntityValue (root : string) (indexes : gset string) : M string :=
  if bool_decide (indexes = ∅) then mret ""
  else
    pdus ← snmp_walk root;
    mret (default "" (head (omap (entity_value root indexes) (default [] pdus)))).

Definition set_if (field value : string) (out : tagmap) : tagmap :=
  if String.eqb value "" then out else <[field := value]> out.

Definition deriveStandardMetadata : M tagmap :=
  pdus ← snmp_get [oidSysDescr; oidSysObjectID; oidSysName];
  let out := foldl sys_variable ∅ (default [] pdus) in
  chassis ← walkEntityClass oidEntClass 3;
  m ← walkEntityValue oidEntModel chassis;
  s ← walkEntityValue oidEntSerial chassis;
  sw ← walkEntityValue oidEntSoftware chassis;
  mret (set_if "version" sw (set_if "serial_number" s (set_if "model" m out))).

(** The text of one variable, nothing when there is no answer. *)
Definition get_text (oid : string) : M string :=
  pdus ← snmp_get [oid];
  mret match pdus with Some (p :: _) => pduString p | _ => "" end.

Definition readMetadataOID (field oid : string) (out : tagmap) : M tagmap :=
  value ← get_text oid;
  mret (set_text field value out).

Definition identity_field (tag : string) : option string :=
  let name := ToLower (trim_space tag) in
  if contains "vendor" name || contains "manufacturer" name then Some "vendor"
  else if contains "serial" name then Some "serial_number"
  else if contains "model" name then Some "model"
  else None.

Definition applyIdentityTag (out : tagmap) (t : ProfileMetricTag) : M tagmap :=
  match identity_field (Tag t) with
  | None => mret out
  | Some field =>
      value ← match tag_Symbol t with
              | Some sym => if String.eqb (tag_Value t) "" && negb (String.eqb (sym_OID sym) "") then get_text (sym_OID sym)
                            else mret (tag_Value t)
              | None => mret (tag_Value t)
              end;
      mret (set_text field value out)
  end.

Definition applyProfileIdentityTags (p : Profile) (out : tagmap) : M tagmap :=
  out ← fold_m applyIdentityTag out (MetricTags p);
  fold_m (fun out m => fold_m applyIdentityTag out (metric_MetricTags m)) out (Metrics p).

Definition meta_field (out : tagmap) (f : string * ProfileMetaField) : M tagmap :=
  let '(field, mf) := f in
  if String.eqb field "" then mret out
  else match meta_Symbol mf with
       | None => mret (set_if field (meta_Value mf) out)
       | Some sym => if String.eqb (sym_OID sym) "" then mret out else readMetadataOID field (sym_OID sym) out
       end.

Definition CollectDeviceMetadata (p : Profile) : M tagmap :=
  out ← deriveStandardMetadata;
  out ← applyProfileIdentityTags p out;
  out ← (if EqualFold (tag "vendor" out) "mikrotik" then
           out ← readMetadataOID "model" "1.3.6.1.4.1.14988.1.1.7.9.0" out;
           out ← readMetadataOID "serial_number" "1.3.6.1.4.1.14988.1.1.7.3.0" out;
           readMetadataOID "version" "1.3.6.1.4.1.14988.1.1.4.4.0" out
         else mret out);
  match Metadata p with
  | None => mret out
  | Some m => fold_m meta_field out (enum _ (Device m))
  end.

End snmp.
End Snmp.

(** * The SNMP check (internal/checks/snmp_generic.go)

    One run asks the device for its sysObjectID, collects the metrics of the profile and
    the identity of the device, and reports on itself: whether the device answered, whether
    the collection succeeded, and how much of the profile was seen.  The profile is chosen
    once and kept.

    A run reads the clock when it starts, for the metrics, for the identity and at its end;
    the metrics that it reports about itself get the last of these. *)

Module SnmpCheck.
Import Snmp(SnmpPDU, pduValue, VNil, VString, VBytes, VInt, VFloat, VOther, pdu_Value, Profile, Catalog, Params).

(** [disabledMetrics]: the names that map to true. *)
Record snmpGenericCheck := mk_check {
  id : string;
  interval : Z;
  hostID : string;
  staticTags : tagmap;
  params : Params;
  profileID : string;
  disabledMetrics : gset string;
  configVersion : Z;
  resolved : option Profile;
  resolveAttempt : bool;
  lastMetaEmit : Z;
  lastRun : Z;
}.
Definition set_resolved (p : Profile) (attempt : bool) (c : snmpGenericCheck) : snmpGenericCheck :=
  mk_check (id c) (interval c) (hostID c) (staticTags c) (params c) (profileID c) (disabledMetrics c) (configVersion c)
    (Some p) attempt (lastMetaEmit c) (lastRun c).
Definition set_lastMetaEmit (t : Z) (c : snmpGenericCheck) : snmpGenericCheck :=
  mk_check (id c) (interval c) (hostID c) (staticTags c) (params c) (profileID c) (disabledMetrics c) (configVersion c)
    (resolved c) (resolveAttempt c) t (lastRun c).
Definition set_lastRun (t : Z) (c : snmpGenericCheck) : snmpGenericCheck :=
  mk_check (id c) (interval c) (hostID c) (staticTags c) (params c) (profileID c) (disabledMetrics c) (configVersion c)
    (resolved c) (resolveAttempt c) (lastMetaEmit c) t.

(** When a run starts, collects, looks at the identity and ends. *)
Record clock := mk_clock { started : Z; collecting : Z; emitting : Z; finished : Z }.

Section check.
Context {W : Type}.
Variable enum : forall A : Type, gmap string A -> list (string * A).
Variable ToLower ToUpper : string -> string.
Variable EqualFold : string -> string -> bool.
Variable compile : string -> option (string -> bool).
Variable format_float : f64 -> string.
Variable unmarshal_names : string -> option (list string).   (* json.Unmarshal *)
Variable snmp_get : list string -> W -> option (list SnmpPDU) * W.
Variable snmp_walk : string -> W -> option (list SnmpPDU) * W.
Variable Requests : W -> Z.   (* the packets that the client has sent *)
Variable pusher : option (string -> tagmap -> W -> W).   (* PostDeviceMetadata *)
Variable cat : Catalog.

Definition newSnmpGenericCheck (dyn : gmap string Profile) (cfg : CheckConfig) : res snmpGenericCheck :=
  params ← Snmp.ParamsFromMap ToLower (Wire.Params cfg);
  let profileID := trim_space (tag "profile" (Wire.Params cfg)) in
  let profileID := if String.eqb profileID "" then "auto" else profileID in
  (if String.eqb profileID "auto" then Ok tt else _ ← Snmp.LoadProfile cat dyn profileID; Ok tt);;
  Ok (mk_check
        (if String.eqb (CheckId cfg) "" then "snmp.generic-" +:+ Wire.CheckHostId cfg else CheckId cfg)
        (if Interval cfg <=? 0 then 30 * second else Interval cfg)
        (Wire.CheckHostId cfg) (StaticTags cfg) params profileID
        (let dm := tag "disabled_metrics" (Wire.Params cfg) in
         if String.eqb dm "" then ∅ else match unmarshal_names dm with Some names => list_to_set names | None => ∅ end)
        (atoi_value (tag "_config_version" (Wire.Params cfg))) None false zero_time zero_time).

(** *** The device *)

(** [fmt.Sprintf("%v", value)]. *)
Definition sprint (v : pduValue) : string :=
  match v with
  | VNil => "<nil>"
  | VString s => s
  | VBytes s => "[" +:+ join " " (itoa <$> bytes_of s) +:+ "]"
  | VInt z => itoa z
  | VFloat f => format_float f
  | VOther text => text
  end.

Definition GetSysObjectID (w : W) : res string * W :=
  let '(pdus, w) := snmp_get ["1.3.6.1.2.1.1.2.0"] w in
  (match pdus with
   | None => Err "get"
   | Some [] => Err "sysObjectID nao retornado"
   | Some (p :: _) => Ok (sprint (pdu_Value p))
   end, w).

Definition resolveProfile (dyn : gmap string Profile) (c : snmpGenericCheck) (w : W) : res Profile * snmpGenericCheck * W :=
  match resolved c with
  | Some p => (Ok p, c, w)
  | None =>
      if negb (String.eqb (profileID c) "auto") then
        match Snmp.LoadProfile cat dyn (profileID c) with
        | Ok p => (Ok p, set_resolved p (resolveAttempt c) c, w)
        | Err e => (Err e, c, w)
        end
      else
        let '(oid, w) := GetSysObjectID w in
        let match_ := sysOid ← oid;
                      all ← Snmp.AllProfiles enum cat dyn;
                      match Snmp.MatchSysObjectID (Some <$> all) sysOid with
                      | Some p => Ok p
                      | None => Snmp.LoadProfile cat dyn "generic-snmpv2"
                      end in
        match match_ with
        | Ok p => (Ok p, set_resolved p true c, w)
        | Err e => (Err e, c, w)
        end
  end.

Definition maybeEmitDeviceMetadata (now : Z) (profile : Profile) (c : snmpGenericCheck) (w : W) : snmpGenericCheck * W :=
  match pusher with
  | None => (c, w)
  | Some post =>
      if is_zero_time (lastMetaEmit c) || (15 * minute <=? time_sub now (lastMetaEmit c)) then
        let '(dev, w) := Snmp.CollectDeviceMetadata enum ToLower EqualFold format_float snmp_get snmp_walk profile w in
        (set_lastMetaEmit now c, if bool_decide (dev = ∅) then w else post (hostID c) dev w)
      else (c, w)
  end.

(** *** What a run reports about itself *)

Definition own_metric (now : Z) (c : snmpGenericCheck) (tags : tagmap) (name : string) (value : f64) : Metric :=
  mk_metric (Some now) (hostID c) name value "" "" tags "snmp".

Definition version_tag (c : snmpGenericCheck) : tagmap := <["config_version" := itoa (configVersion c)]> (staticTags c).

Definition flag (b : bool) : f64 := if b then f64_one else f64_zero.
Definition health_values (t : clock) (c : snmpGenericCheck) (reachable ok : bool) (submitted : nat) (requests : Z)
    : gmap string f64 :=
  list_to_map (
    [("snmp.device.reachable", flag reachable); ("snmp.device.unreachable", fsub f64_one (flag reachable));
     ("snmp.collector.up", flag ok); ("snmp.devices_monitored", f64_one);
     ("snmp.collector.check_duration_seconds", seconds (time_sub (finished t) (started t)));
     ("snmp.collector.requests", f_of_Z requests); ("snmp.collector.submitted_metrics", f_of_Z (Z.of_nat submitted))]
    ++ (if 0 <? configVersion c
        then [("snmp.collector.config_version_executed", f_of_Z (configVersion c));
              ("snmp.collector.config_execution_success", flag ok)] else [])
    ++ (if is_zero_time (lastRun c) then []
        else [("snmp.collector.check_interval_seconds", seconds (time_sub (started t) (lastRun c)))])).

Definition health (t : clock) (c : snmpGenericCheck) (reachable ok : bool) (submitted : nat) (requests : Z) : list Metric :=
  (fun kv => own_metric (finished t) c
     (if has_prefix "snmp.collector.config_" kv.1 then version_tag c else staticTags c) kv.1 kv.2)
  <$> enum _ (health_values t c reachable ok submitted requests).

(** The deferred report; a cancelled run leaves it out. *)
Definition finish (t : clock) (cancelled reachable : bool) (metrics : list Metric) (err : option string)
    (c : snmpGenericCheck) (w : W) : (list Metric * option string) * snmpGenericCheck * W :=
  if cancelled then (metrics, err, c, w)
  else (metrics ++ health t c reachable (bool_decide (err = None)) (length metrics) (Requests w), err,
        set_lastRun (started t) c, w).

Definition expected_families (c : snmpGenericCheck) (profile : Profile) : gset string :=
  Snmp.MetricFamilies profile ∖ disabledMetrics c.
Definition observed_families (c : snmpGenericCheck) (profile : Profile) (metrics : list Metric) : gset string :=
  list_to_set (MetricName <$> metrics) ∩ expected_families c profile.

Definition coverage (t : clock) (c : snmpGenericCheck) (profile : Profile) (metrics : list Metric) : list Metric :=
  (fun kv : string * f64 => own_metric (finished t) c (<["snmp_profile" := Snmp.Name profile]> (version_tag c)) kv.1 kv.2)
  <$> enum _ (list_to_map
        [("snmp.collector.profile_metric_expected", f_of_Z (Z.of_nat (size (expected_families c profile))));
         ("snmp.collector.profile_metric_observed", f_of_Z (Z.of_nat (size (observed_families c profile metrics))))]).

(** [dyn]: the profiles of the server when the run starts; [cancelled]: at its end. *)
Definition Run (t : clock) (dyn : gmap string Profile) (cancelled : bool) (c : snmpGenericCheck) (w : W)
    : (list Metric * option string) * snmpGenericCheck * W :=
  match Snmp.NewClient ToLower ToUpper (params c) with
  | Err e => ([], Some e, c, w)
  | Ok _ =>
      let '(oid, w) := GetSysObjectID w in
      let reachable := match oid with Ok oid => negb (String.eqb oid "") | Err _ => false end in
      let '(profile, c, w) := resolveProfile dyn c w in
      match profile with
      | Err e => finish t cancelled reachable [] (Some e) c w
      | Ok profile =>
          let '(metrics, w) := Snmp.Collect enum compile format_float snmp_get snmp_walk (collecting t) profile (hostID c)
                                 (staticTags c) w in
          match metrics with
          | Err e => finish t cancelled reachable [] (Some e) c w
          | Ok metrics =>
              let reachable := reachable || negb (bool_decide (metrics = [])) in
              let metrics := filter (fun m => MetricName m ∉ disabledMetrics c) metrics in
              let metrics := metrics ++ coverage t c profile metrics in
              let '(c, w) := maybeEmitDeviceMetadata (emitting t) profile c w in
              finish t cancelled reachable metrics None c w
          end
      end
  end.
End check.
End SnmpCheck.
