(* ===== verification/SnmpProps.v ===== *)
(** * What the SNMP profiles and their check promise

    The profile of a device is the one with the longest prefix of its sysObjectID; the
    metrics of a table are exactly the numbers that its walk gave, one for each row and
    name; a run reports on itself whatever happened. *)

From S2P Require Import Prelude GoStrings GoFloat Wire Snmp.
#[local] Open Scope Z_scope.

Module SnmpProps.
Import Snmp.

(** ** The choice of a profile *)

(** A prefix is the whole identifier or ends before one of its dots. *)
Definition is_prefix_of (target base : string) : Prop :=
  base <> "" /\ (target = base \/ exists rest, target = base +:+ "." +:+ rest).
Lemma base_matches_spec target base : base_matches target base = true <-> is_prefix_of target base.
Proof.
  unfold base_matches, is_prefix_of, has_prefix. rewrite andb_true_iff, negb_true_iff, String.eqb_neq, orb_true_iff, String.eqb_eq.
  rewrite prefix_spec. by setoid_rewrite str_app_assoc.
Qed.
#[local] Instance is_prefix_of_dec target base : Decision (is_prefix_of target base).
Proof. destruct (base_matches target base) eqn:E; [left|right; rewrite <- base_matches_spec, E; discriminate]. by apply base_matches_spec. Defined.

(** The normalised prefixes of the enabled profiles that match, in order. *)
Definition candidates (profiles : list (option Profile)) (target : string) : list (Profile * string) :=
  profiles ≫= fun p => match p with
                       | Some p => if autoDetectEnabled p
                                   then pair p <$> filter (is_prefix_of target) (normal_base <$> SysObjectID p)
                                   else []
                       | None => []
                       end.

Definition longer (best : option Profile * nat) (c : Profile * string) : option Profile * nat :=
  if (best.2 <? String.length c.2)%nat then (Some c.1, String.length c.2) else best.

Lemma match_patterns_fold target p best :
  match_patterns target p best
  = foldl longer best (pair p <$> filter (is_prefix_of target) (normal_base <$> SysObjectID p)).
Proof.
  unfold match_patterns. revert best. induction (SysObjectID p) as [|pat l IH]; intros best; [done|].
  cbn [foldl fmap list_fmap]. rewrite IH. destruct (base_matches target (normal_base pat)) eqn:E.
  - rewrite (filter_cons_True _ _ (fmap normal_base l)) by (by apply base_matches_spec). reflexivity.
  - rewrite (filter_cons_False _ _ (fmap normal_base l)) by (rewrite <- base_matches_spec; congruence). reflexivity.
Qed.

Lemma match_fold profiles target best :
  foldl (fun best p => match p with
                       | Some p => if autoDetectEnabled p then match_patterns target p best else best
                       | None => best end) best profiles
  = foldl longer best (candidates profiles target).
Proof.
  revert best. induction profiles as [|[p|] l IH]; intros best; cbn [foldl]; [done| |exact (IH best)].
  rewrite IH. unfold candidates. cbn [mbind list_bind]. rewrite foldl_app.
  destruct (autoDetectEnabled p); [by rewrite match_patterns_fold|done].
Qed.

Lemma longer_best l : Forall (fun c : Profile * string => c.2 <> "") l ->
  match foldl longer (None, 0%nat) l with
  | (None, n) => l = [] /\ n = 0%nat
  | (Some p, n) => exists before base after, l = before ++ (p, base) :: after /\ n = String.length base /\
      Forall (fun c => (String.length c.2 < n)%nat) before /\ Forall (fun c => (String.length c.2 <= n)%nat) after
  end.
Proof.
  induction l as [|c l IH] using rev_ind; intros Hl; [done|]. apply Forall_app in Hl as [Hl Hc].
  rewrite Forall_singleton in Hc. rewrite foldl_app. cbn [foldl]. specialize (IH Hl).
  destruct (foldl longer (None, 0%nat) l) as [[p|] n]; unfold longer; cbn [fst snd].
  - destruct IH as (before & base & after & -> & -> & Hb & Ha).
    destruct (Nat.ltb_spec (String.length base) (String.length c.2)) as [Hlt|Hge].
    + exists (before ++ (p, base) :: after), c.2, []. destruct c as [q b]. cbn [fst snd] in *. split; [done|]. split; [done|]. split; [|constructor].
      apply Forall_app_2; [|constructor; [exact Hlt|]]; (eapply Forall_impl; [eassumption|]; cbn; intros; lia).
    + exists before, base, (after ++ [c]). rewrite <- app_assoc. split; [done|]. split; [done|]. split; [done|].
      apply Forall_app_2; [done|]. constructor; [exact Hge|constructor].
  - destruct IH as [-> ->]. destruct c as [q b]. cbn [fst snd] in *.
    destruct b as [|ch b]; [done|]. cbn. exists [], (String ch b), []. by repeat constructor.
Qed.

Lemma candidates_nonempty profiles target : Forall (fun c => c.2 <> "") (candidates profiles target).
Proof.
  apply Forall_forall. intros c Hc. unfold candidates in Hc.
  apply list_elem_of_bind in Hc as ([q|] & Hc & _); [|by apply elem_of_nil in Hc].
  destruct (autoDetectEnabled q); [|by apply elem_of_nil in Hc]. apply list_elem_of_fmap in Hc as (b & -> & Hb).
  apply list_elem_of_filter in Hb as [[Hb _] _]. exact Hb.
Qed.

(** A device gets the profile of the longest of the matching prefixes of the profiles that
    may be detected, the first of these when there are several, and none exactly when no
    prefix matches or the device has no sysObjectID. *)
Theorem longest_prefix_wins profiles sysOid :
  let target := trim_prefix "." (trim_space sysOid) in
  match MatchSysObjectID profiles sysOid with
  | None => target = "" \/ candidates profiles target = []
  | Some p => exists before base after, candidates profiles target = before ++ (p, base) :: after /\
      Forall (fun c => (String.length c.2 < String.length base)%nat) before /\
      Forall (fun c => (String.length c.2 <= String.length base)%nat) after
  end.
Proof.
  intros target. unfold MatchSysObjectID. fold target. destruct (String.eqb_spec target "") as [|_]; [by left|].
  rewrite match_fold. pose proof (longer_best (candidates profiles target)) as H.
  destruct (foldl longer (None, 0%nat) (candidates profiles target)) as [[p|] n]; cbn [fst].
  - destruct (H (candidates_nonempty _ _)) as (before & base & after & E & -> & Hb & Ha). by exists before, base, after.
  - right. by apply (H (candidates_nonempty _ _)).
Qed.

(** ** Tables *)

Section tables.
Context {W : Type}.
Variable enum : forall A : Type, gmap string A -> list (string * A).
Hypothesis enum_perm : forall A (m : gmap string A), enum A m ≡ₚ map_to_list m.
Variable compile : string -> option (string -> bool).
Variable format_float : f64 -> string.
Variable snmp_get : list string -> W -> option (list SnmpPDU) * W.
Variable snmp_walk : string -> W -> option (list SnmpPDU) * W.

(** The last variable of a walk that is in a row and a column. *)
Definition in_cell (entryPrefix rowIndex oid : string) (p : SnmpPDU) : Prop :=
  exists col, table_cell entryPrefix (pdu_Name p) = Some (col, rowIndex) /\ entryPrefix +:+ col = trim_prefix "." oid.
#[local] Instance in_cell_dec entryPrefix rowIndex oid p : Decision (in_cell entryPrefix rowIndex oid p).
Proof.
  unfold in_cell. destruct (table_cell entryPrefix (pdu_Name p)) as [[col i]|]; [|right; by intros (? & ? & _)].
  destruct (decide (i = rowIndex /\ entryPrefix +:+ col = trim_prefix "." oid)) as [[-> ?]|H];
    [left; by exists col|right]. intros (col' & [= <- <-] & ?). by apply H.
Defined.
Definition cell (entryPrefix : string) (pdus : list SnmpPDU) (rowIndex oid : string) : option SnmpPDU :=
  last (filter (in_cell entryPrefix rowIndex oid) pdus).

Lemma trim_dot s : trim_prefix "." ("." +:+ s) = s.
Proof. unfold trim_prefix, has_prefix. by rewrite prefix_app. Qed.

Definition rows_of (entryPrefix : string) (pdus : list SnmpPDU) : gmap string row := foldl (add_cell entryPrefix) ∅ pdus.

(** The rows of a walk hold the cells, under names that begin with a dot. *)
Lemma rows_of_spec entryPrefix pdus rowIndex :
  match rows_of entryPrefix pdus !! rowIndex with
  | Some r => (forall k v, r !! k = Some v -> exists x, k = "." +:+ x) /\
              forall oid, r !! ("." +:+ trim_prefix "." oid) = cell entryPrefix pdus rowIndex oid
  | None => forall oid, cell entryPrefix pdus rowIndex oid = None
  end.
Proof.
  unfold rows_of, cell. induction pdus as [|p pdus IH] using rev_ind; [cbn [foldl]; by rewrite (lookup_empty (M := gmap string))|].
  rewrite foldl_app. cbn [foldl]. set (rows := foldl _ _ _) in *. unfold add_cell.
  assert (Hfilter : forall oid, filter (in_cell entryPrefix rowIndex oid) (pdus ++ [p])
    = filter (in_cell entryPrefix rowIndex oid) pdus ++ (if decide (in_cell entryPrefix rowIndex oid p) then [p] else []))
    by (intros oid; by rewrite filter_app).
  destruct (table_cell entryPrefix (pdu_Name p)) as [[col i]|] eqn:E.
  - destruct (decide (i = rowIndex)) as [->|Hi].
    + rewrite lookup_insert_eq. split.
      * intros k v. destruct (decide (k = "." +:+ entryPrefix +:+ col)) as [->|Hk]; [intros _; by eexists|].
        rewrite lookup_insert_ne by done. destruct (rows !! rowIndex) as [r|]; [apply IH|done].
      * intros oid. rewrite Hfilter. destruct (decide (entryPrefix +:+ col = trim_prefix "." oid)) as [Eo|Eo].
        -- rewrite decide_True by (exists col; by rewrite E). by rewrite last_snoc, <- Eo, lookup_insert_eq.
        -- rewrite decide_False, app_nil_r by (intros (col' & E' & ?); rewrite E in E'; congruence).
           rewrite lookup_insert_ne by (intros H; apply (f_equal (trim_prefix ".")) in H; rewrite !trim_dot in H; congruence).
           destruct (rows !! rowIndex) as [r|]; [apply IH|]. by rewrite IH.
    + rewrite lookup_insert_ne by done. assert (forall oid, ~ in_cell entryPrefix rowIndex oid p) as Hnot
        by (intros oid (col' & E' & ?); rewrite E in E'; congruence).
      destruct (rows !! rowIndex) as [r|]; [split; [apply IH|]|]; intros oid;
        rewrite Hfilter, decide_False, app_nil_r by done; apply IH.
  - assert (forall oid, ~ in_cell entryPrefix rowIndex oid p) as Hnot
      by (intros oid (col' & E' & ?); rewrite E in E'; congruence).
    destruct (rows !! rowIndex) as [r|]; [split; [apply IH|]|]; intros oid;
      rewrite Hfilter, decide_False, app_nil_r by done; apply IH.
Qed.

(** Looking a column up does not depend on the order of enumeration. *)
Lemma findRowPDU_cell entryPrefix pdus rowIndex r oid :
  rows_of entryPrefix pdus !! rowIndex = Some r -> findRowPDU enum r oid = cell entryPrefix pdus rowIndex oid.
Proof.
  intros Hr. pose proof (rows_of_spec entryPrefix pdus rowIndex) as H. rewrite Hr in H. destruct H as [Hdot Hcell].
  rewrite <- Hcell. unfold findRowPDU. destruct (List.find _ _) as [[k v]|] eqn:E; cbn.
  - apply find_some in E as [Hin Hk]. apply String.eqb_eq in Hk. cbn in Hk.
    rewrite <- list_elem_of_In, enum_perm in Hin. apply elem_of_map_to_list in Hin.
    destruct (Hdot _ _ Hin) as [x ->]. rewrite trim_dot in Hk. by rewrite <- Hk.
  - destruct (r !! _) as [v|] eqn:Ev; [|done]. exfalso.
    assert (Hin : List.In ("." +:+ trim_prefix "." oid, v) (enum _ r)).
    { rewrite <- list_elem_of_In, enum_perm. by apply elem_of_map_to_list. }
    apply (find_none _ _ E) in Hin. cbn in Hin. by rewrite trim_dot, String.eqb_refl in Hin.
Qed.

(** The name of a symbol, and its value in a row from the number that was read. *)
Definition sname (sym : ProfileSymbol) : string := canonMetricName (sym_OID sym) (sym_Name sym).
Definition svalue (factor : f64) (sym : ProfileSymbol) (val : f64) : f64 :=
  if negb (feq factor f64_one) && isHrStorageAmount (sym_OID sym)
  then fmul (applyScale val (sym_Scale sym)) factor else applyScale val (sym_Scale sym).

(** The symbol at a place has a number, and none before it of the same name has one. *)
Definition first_number (number : ProfileSymbol -> option f64) (syms : list ProfileSymbol) (i : nat) (sym : ProfileSymbol)
    (val : f64) : Prop :=
  syms !! i = Some sym /\ number sym = Some val /\
  forall j sym', (j < i)%nat -> syms !! j = Some sym' -> sname sym' = sname sym -> number sym' = None.

Lemma first_number_cons number sym0 syms val i sym :
  first_number number (sym0 :: syms) i sym val <->
  (i = 0%nat /\ sym = sym0 /\ number sym0 = Some val) \/
  (exists i', i = S i' /\ first_number number syms i' sym val /\ (sname sym0 = sname sym -> number sym0 = None)).
Proof.
  unfold first_number. destruct i as [|i]; cbn.
  - split; [intros ([= ->] & Hn & _); by left|]. intros [(_ & -> & Hn)|(i' & ? & _)]; [|done]. split_and!; [done..|]. lia.
  - split.
    + intros (Hs & Hn & Hf). right. exists i. split; [done|]. split; [split_and!; [done..|]|].
      * intros j sym' Hj. apply (Hf (S j)). lia.
      * by apply (Hf 0%nat); [lia|].
    + intros [(? & _)|(i' & [= <-] & (Hs & Hn & Hf) & H0)]; [done|]. split_and!; [done..|].
      intros [|j] sym' Hj; cbn; [intros [= <-]; exact H0|]. apply Hf. lia.
Qed.

Lemma row_metrics_spec now hostID tags factor r syms seen :
  let number sym := findRowPDU enum r (sym_OID sym) ≫= PduFloat in
  let ms := row_metrics enum now hostID tags factor r seen syms in
  NoDup (MetricName <$> ms) /\
  forall x, x ∈ ms <-> exists i sym val, first_number number syms i sym val /\ (sname sym ∉ seen) /\
                         x = newMetric now hostID (sname sym) (svalue factor sym val) tags.
Proof.
  intros number. revert seen. induction syms as [|sym0 syms IH]; intros seen.
  { split; [constructor|]. intros x. split; [intros Hx; by apply elem_of_nil in Hx|].
    intros (i & sym & val & (Hi & _) & _). by rewrite lookup_nil in Hi. }
  cbn [row_metrics]. fold (number sym0) (sname sym0). specialize (IH seen) as IHs.
  assert (Hskip : (sname sym0 ∈ seen \/ number sym0 = None) -> forall x,
    (exists i sym val, first_number number syms i sym val /\ (sname sym ∉ seen) /\
       x = newMetric now hostID (sname sym) (svalue factor sym val) tags) <->
    (exists i sym val, first_number number (sym0 :: syms) i sym val /\ (sname sym ∉ seen) /\
       x = newMetric now hostID (sname sym) (svalue factor sym val) tags)).
  { intros H0 x. split; intros (i & sym & val & Hf & Hs & Hx).
    - exists (S i), sym, val. split; [|done]. apply first_number_cons. right. exists i.
      split_and!; [done..|]. intros Heq. destruct H0 as [H0|H0]; [|exact H0]. exfalso. apply Hs. by rewrite <- Heq.
    - apply first_number_cons in Hf as [(-> & -> & Hn)|(i' & -> & Hf & _)]; [|by exists i', sym, val].
      destruct H0; congruence. }
  destruct (number sym0) as [val0|] eqn:E0; [case_bool_decide as Hseen|].
  - destruct IHs as [Hnd Hin]. split; [done|]. intros x. rewrite Hin. apply Hskip. by left.
  - fold (svalue factor sym0 val0). destruct (IH ({[ sname sym0 ]} ∪ seen)) as [Hnd Hin]. cbn zeta in Hnd, Hin. split.
    + rewrite fmap_cons. constructor; [|done]. intros Hx. apply list_elem_of_fmap in Hx as (x & Hname & Hx).
      apply Hin in Hx as (i & sym & val & _ & Hs & ->). apply Hs, elem_of_union_l, elem_of_singleton. by cbn in Hname.
    + intros x. rewrite elem_of_cons, Hin. split.
      * intros [->|(i & sym & val & Hf & Hs & Hx)].
        -- exists 0%nat, sym0, val0. split; [|done]. apply first_number_cons. by left.
        -- rewrite not_elem_of_union, not_elem_of_singleton in Hs. destruct Hs as [Hs Hs'].
           exists (S i), sym, val. split; [|done]. apply first_number_cons. right. exists i.
           split_and!; [done..|congruence].
      * intros (i & sym & val & Hf & Hs & Hx).
        apply first_number_cons in Hf as [(-> & -> & Hn)|(i' & -> & Hf & Hne)].
        -- left. rewrite E0 in Hn. injection Hn as <-. exact Hx.
        -- right. exists i', sym, val. split_and!; [done| |done]. rewrite not_elem_of_union, not_elem_of_singleton.
           split; [|done]. intros Heq. rewrite E0 in Hne. by discriminate (Hne (eq_sym Heq)).
  - destruct IHs as [Hnd Hin]. split; [done|]. intros x. rewrite Hin. apply Hskip. by right.
Qed.

(** The tags of a row that is kept and the factor of its amounts. *)
Definition kept_row (m : ProfileMetric) (t : ProfileTable) (i : string) (r : row) : option (tagmap * f64) :=
  let rowTags := <["row_index" := i]> (resolveTableTags enum format_float r (metric_MetricTags m)) in
  if match Filter m with Some f => keep compile f rowTags | None => true end
  then Some (enrichHrStorageRow enum format_float (table_OID t) r rowTags) else None.

Lemma table_row_kept now hostID static profile m t i r :
  table_row enum compile format_float now hostID static profile m (table_OID t) (i, r)
  = match kept_row m t i r with
    | Some (tags, factor) => row_metrics enum now hostID (mergeTags static profile tags) factor r ∅ (Symbols m)
    | None => []
    end.
Proof.
  unfold table_row, kept_row. cbn [fst snd].
  destruct (match Filter m with Some f => _ | None => true end); [by destruct (enrichHrStorageRow _ _ _ _ _)|done].
Qed.

Lemma kept_row_index m t i r tags factor : kept_row m t i r = Some (tags, factor) -> tags !! "row_index" = Some i.
Proof.
  unfold kept_row. destruct (match Filter m with Some f => _ | None => true end); [|done]. intros [= H].
  unfold enrichHrStorageRow in H. destruct (negb _); [injection H as <- _; by rewrite lookup_insert_eq|].
  injection H as <- _.
  destruct (findRowPDU enum r hrStorageTypeCol) as [p|], (findRowPDU enum r hrStorageDescrCol) as [q|];
    repeat case_match; rewrite ?lookup_insert_ne by done; by rewrite lookup_insert_eq.
Qed.

Definition series (x : Metric) : string * string := (MetricName x, tag "row_index" (Tags x)).

Lemma row_metrics_series now hostID static profile tags factor r syms i :
  tags !! "row_index" = Some i ->
  series <$> row_metrics enum now hostID (mergeTags static profile tags) factor r ∅ syms
  = (fun x => (MetricName x, i)) <$> row_metrics enum now hostID (mergeTags static profile tags) factor r ∅ syms.
Proof.
  intros Hi. apply list_fmap_ext. intros j x Hx. apply list_elem_of_lookup_2 in Hx.
  apply (proj2 (row_metrics_spec now hostID _ factor r syms ∅)) in Hx as (k & sym & val & _ & _ & ->).
  unfold series, newMetric, tag, mergeTags. cbn [MetricName Tags].
  by rewrite (lookup_union_Some_l (M := gmap string) _ _ _ _ Hi).
Qed.

Lemma rows_series_NoDup now hostID static profile m t (l : list (string * row)) :
  NoDup (fst <$> l) ->
  NoDup (series <$> (l ≫= table_row enum compile format_float now hostID static profile m (table_OID t))) /\
  forall y, y ∈ (series <$> (l ≫= table_row enum compile format_float now hostID static profile m (table_OID t))) -> y.2 ∈ l.*1.
Proof.
  induction l as [|[i r] l IH]; intros Hnd; [split; [constructor|intros y Hy; by apply elem_of_nil in Hy]|].
  rewrite fmap_cons in Hnd. apply NoDup_cons in Hnd as [Hi Hnd]. destruct (IH Hnd) as [Hl Hin].
  cbn [mbind list_bind]. rewrite fmap_app, table_row_kept. destruct (kept_row m t i r) as [[tags factor]|] eqn:Ek.
  - apply kept_row_index in Ek. rewrite (row_metrics_series _ _ _ _ _ _ _ _ i Ek).
    destruct (row_metrics_spec now hostID (mergeTags static profile tags) factor r (Symbols m) ∅) as [Hn _].
    set (ms := row_metrics _ _ _ _ _ _ _ _) in *. split.
    + apply NoDup_app. split_and!; [|intros y Hy Hy'|done].
      * clearbody ms. clear - Hn. induction ms as [|x ms IH]; [constructor|]. cbn in *. apply NoDup_cons in Hn as [Hx Hn].
        constructor; [|by apply IH]. intros H. apply list_elem_of_fmap in H as (z & [= Hz] & Hzin).
        apply Hx, list_elem_of_fmap. by exists z.
      * apply list_elem_of_fmap in Hy as (x & -> & _). by apply Hi, (Hin _ Hy').
    + intros y Hy. apply elem_of_app in Hy as [Hy|Hy]; [|right; by apply Hin].
      apply list_elem_of_fmap in Hy as (x & -> & _). left.
  - cbn [fmap list_fmap app]. split; [done|]. intros y Hy. right. by apply Hin.
Qed.

(** When the walk of a table succeeds its metrics are, whatever the order in which maps are
    enumerated, exactly one for each row that the filter keeps and each name among the symbols
    that have a number there: that of the first such symbol, from the last variable of the walk
    that is in the row and the column of the symbol, scaled, in bytes for the amounts of the
    storage table, and with the tags of the row before those of the profile and of the check. *)
Theorem table_points_exact now hostID static profile st m t w pdus w' :
  Symbol m = None -> Table m = Some t ->
  snmp_walk (trim_prefix "." (trim_space (table_OID t))) w = (Some pdus, w') ->
  let prefix := entry_prefix (table_OID t) in
  exists ms, collect_metric enum compile format_float snmp_get snmp_walk now hostID static profile st m w
             = (mk_progress (out st ++ ms) (scalarAttempts st) (scalarSuccess st), w') /\
    NoDup (series <$> ms) /\
    forall x, x ∈ ms <-> exists i r tags factor j sym val,
      rows_of prefix pdus !! i = Some r /\ kept_row m t i r = Some (tags, factor) /\
      first_number (fun sym => cell prefix pdus i (sym_OID sym) ≫= PduFloat) (Symbols m) j sym val /\
      x = newMetric now hostID (sname sym) (svalue factor sym val) (mergeTags static profile tags).
Proof.
  intros Hs Ht Hw prefix. unfold collect_metric. rewrite Hs, Ht. unfold WalkTable.
  unfold mbind, M_bind, mret, M_ret. rewrite Hw. cbn [fmap option_fmap option_map].
  fold (rows_of (entry_prefix (table_OID t)) pdus). fold prefix.
  eexists. split; [reflexivity|]. split.
  - apply rows_series_NoDup. rewrite enum_perm. apply NoDup_fst_map_to_list.
  - intros x. rewrite list_elem_of_bind. split.
    + intros ([i r] & Hx & Hin). rewrite enum_perm in Hin. apply elem_of_map_to_list in Hin.
      rewrite table_row_kept in Hx. destruct (kept_row m t i r) as [[tags factor]|] eqn:Ek; [|by apply elem_of_nil in Hx].
      apply (proj2 (row_metrics_spec _ _ _ _ _ _ _)) in Hx as (j & sym & val & Hf & _ & ->).
      exists i, r, tags, factor, j, sym, val. split_and!; [done..| |done].
      destruct Hf as (Hj & Hn & Hf). unfold first_number. rewrite <- (findRowPDU_cell _ _ _ _ _ Hin). split_and!; [done..|].
      intros k sym' Hk Hsym Hname. rewrite <- (findRowPDU_cell _ _ _ _ _ Hin). by eapply Hf.
    + intros (i & r & tags & factor & j & sym & val & Hin & Ek & Hf & ->). exists (i, r).
      rewrite table_row_kept, Ek, enum_perm. split; [|by apply elem_of_map_to_list].
      apply (proj2 (row_metrics_spec _ _ _ _ _ _ _)). exists j, sym, val. split_and!; [|apply not_elem_of_empty|done].
      destruct Hf as (Hj & Hn & Hf). unfold first_number. rewrite (findRowPDU_cell _ _ _ _ _ Hin). split_and!; [done..|].
      intros k sym' Hk Hsym Hname. rewrite (findRowPDU_cell _ _ _ _ _ Hin). by eapply Hf.
Qed.
End tables.

(** ** What a run reports about itself *)

Section check.
Import SnmpCheck.
Context {W : Type}.
Variable enum : forall A : Type, gmap string A -> list (string * A).
Hypothesis enum_perm : forall A (m : gmap string A), enum A m ≡ₚ map_to_list m.
Variable ToLower ToUpper : string -> string.
Variable EqualFold : string -> string -> bool.
Variable compile : string -> option (string -> bool).
Variable format_float : f64 -> string.
Variable snmp_get : list string -> W -> option (list SnmpPDU) * W.
Variable snmp_walk : string -> W -> option (list SnmpPDU) * W.
Variable Requests : W -> Z.
Variable pusher : option (string -> tagmap -> W -> W).
Variable cat : Catalog.

Abbreviation Run := (Run enum ToLower ToUpper EqualFold compile format_float snmp_get snmp_walk Requests pusher cat).

(** The value of the first metric of a name. *)
Definition reported (name : string) (ms : list Metric) : option f64 :=
  Value <$> List.find (fun m => String.eqb (MetricName m) name) ms.

Lemma reported_enum now c (tags : string * f64 -> tagmap) (m : gmap string f64) name :
  let ms := (fun kv => own_metric now c (tags kv) kv.1 kv.2) <$> enum _ m in
  NoDup (MetricName <$> ms) /\ reported name ms = m !! name.
Proof.
  intros ms. assert (Hnames : MetricName <$> ms = fst <$> enum _ m).
  { unfold ms. rewrite <- list_fmap_compose. by apply list_fmap_ext. }
  split; [rewrite Hnames, enum_perm; apply NoDup_fst_map_to_list|].
  unfold reported. destruct (List.find _ ms) as [x|] eqn:E; cbn.
  - apply find_some in E as [Hin Hx]; rewrite <- list_elem_of_In in Hin. apply String.eqb_eq in Hx as <-. apply list_elem_of_fmap in Hin as ([k v] & -> & Hin).
    rewrite enum_perm in Hin. apply elem_of_map_to_list in Hin. by cbn.
  - destruct (m !! name) as [v|] eqn:Ev; [|done]. exfalso. apply elem_of_map_to_list in Ev. rewrite <- enum_perm in Ev.
    assert (Hin : List.In (own_metric now c (tags (name, v)) name v) ms) by (apply list_elem_of_In, list_elem_of_fmap; by exists (name, v)).
    apply (find_none _ _ E) in Hin. cbn in Hin. by rewrite String.eqb_refl in Hin.
Qed.

Lemma health_reports t c reachable ok n requests :
  let own := health enum t c reachable ok n requests in
  NoDup (MetricName <$> own) /\
  reported "snmp.device.reachable" own = Some (flag reachable) /\
  reported "snmp.device.unreachable" own = Some (flag (negb reachable)) /\
  reported "snmp.collector.up" own = Some (flag ok) /\
  reported "snmp.collector.submitted_metrics" own = Some (f_of_Z (Z.of_nat n)) /\
  reported "snmp.collector.config_execution_success" own = (if 0 <? configVersion c then Some (flag ok) else None).
Proof.
  intros own. assert (H : forall name, NoDup (MetricName <$> own) /\
    reported name own = health_values t c reachable ok n requests !! name).
  { intros name. apply (reported_enum (finished t) c
      (fun kv => if has_prefix "snmp.collector.config_" kv.1 then version_tag c else staticTags c)). }
  split; [apply (H "")|]. rewrite !(fun name => proj2 (H name)). unfold health_values.
  rewrite list_to_map_app. rewrite !(lookup_union (M := gmap string)).
  replace (fsub f64_one (flag reachable)) with (flag (negb reachable)) by (destruct reachable; by vm_compute).
  split_and!; try (apply union_Some; left; by simplify_map_eq).
  destruct (0 <? configVersion c), (is_zero_time (lastRun c)); by simplify_map_eq.
Qed.

Lemma coverage_reports t c profile ms :
  let own := coverage enum t c profile ms in
  reported "snmp.collector.profile_metric_expected" own
    = Some (f_of_Z (Z.of_nat (size (expected_families c profile)))) /\
  reported "snmp.collector.profile_metric_observed" own
    = Some (f_of_Z (Z.of_nat (size (observed_families c profile ms)))).
Proof.
  intros own. unfold own, coverage.
  split; (etransitivity; [apply (reported_enum (finished t) c
    (fun _ => <["snmp_profile" := Snmp.Name profile]> (version_tag c)))|]); by simplify_map_eq.
Qed.

Lemma resolveProfile_spec dyn c w found c' w' :
  resolveProfile enum format_float snmp_get cat dyn c w = (found, c', w') ->
  disabledMetrics c' = disabledMetrics c /\ (forall p, resolved c = Some p -> resolved c' = Some p) /\
  (forall p, found = Ok p -> resolved c' = Some p).
Proof.
  unfold resolveProfile. destruct (resolved c) as [p|] eqn:E.
  { intros [= <- <- <-]. split_and!; [done|by intros ? [= <-]|]. by intros ? [= <-]. }
  assert (forall (x : res Profile) attempt w'', match x with Ok p => (Ok p, set_resolved p attempt c, w'') | Err e => (Err e, c, w'') end
    = (found, c', w') -> disabledMetrics c' = disabledMetrics c /\ (forall p, None = Some p -> resolved c' = Some p) /\
                       (forall p, found = Ok p -> resolved c' = Some p)) as Hx.
  { intros [p|e] attempt w'' [= <- <- <-]; split_and!; try done. by intros ? [= <-]. }
  destruct (negb _); [apply Hx|]. destruct (GetSysObjectID _ _ w) as [oid w1]. apply Hx.
Qed.

(** The part of a report that every run makes. *)
Definition own_report (reachable : bool) (err : option string) (collected own : list Metric) : Prop :=
  NoDup (MetricName <$> own) /\
  reported "snmp.device.reachable" own = Some (flag reachable) /\
  reported "snmp.device.unreachable" own = Some (flag (negb reachable)) /\
  reported "snmp.collector.up" own = Some (flag (bool_decide (err = None))) /\
  reported "snmp.collector.submitted_metrics" own = Some (f_of_Z (Z.of_nat (length collected))).

Lemma finish_reports t reachable collected err c w ms err' c' w' :
  finish enum Requests t false reachable collected err c w = (ms, err', c', w') ->
  err' = err /\ c' = set_lastRun (started t) c /\ exists own, ms = collected ++ own /\ own_report reachable err collected own.
Proof.
  unfold finish. intros [= <- <- <- <-]. split_and!; [done..|]. eexists. split; [reflexivity|].
  destruct (health_reports t c reachable (bool_decide (err = None)) (length collected) (Requests w)) as (H1 & H2 & H3 & H4 & H5 & _).
  by split_and!.
Qed.

Lemma maybeEmit_kept now p c w c' w' :
  maybeEmitDeviceMetadata enum ToLower EqualFold format_float snmp_get snmp_walk pusher now p c w = (c', w') ->
  resolved c' = resolved c /\ disabledMetrics c' = disabledMetrics c.
Proof.
  unfold maybeEmitDeviceMetadata. destruct pusher as [post|]; [|by intros [= <- <-]].
  destruct (_ || _); [|by intros [= <- <-]]. destruct (Snmp.CollectDeviceMetadata _ _ _ _ _ _ _ _) as [dev w1]. by intros [= <- <-].
Qed.

(** C26: whatever the device does, a run that is not cancelled reports once each whether the device
    answered, the opposite, whether the collection succeeded and how many metrics it gives;
    with an error it gives no other metrics, and without one none that is disabled, and of
    the profile no more families are observed than are expected.  The first profile that is
    found is kept for all later runs. *)
Theorem run_reports_itself t dyn c w cl ms err c' w' :
  Snmp.NewClient ToLower ToUpper (params c) = Ok cl ->
  Run t dyn false c w = (ms, err, c', w') ->
  exists collected own reachable, ms = collected ++ own /\
    own_report reachable err collected own /\
    lastRun c' = started t /\ (forall p, resolved c = Some p -> resolved c' = Some p) /\
    match err with
    | Some _ => collected = []
    | None => exists device coverage n k, collected = device ++ coverage /\ is_Some (resolved c') /\
        Forall (fun m => MetricName m ∉ disabledMetrics c) device /\ (device <> [] -> reachable = true) /\
        reported "snmp.collector.profile_metric_expected" coverage = Some (f_of_Z n) /\
        reported "snmp.collector.profile_metric_observed" coverage = Some (f_of_Z k) /\ 0 <= k <= n
    end.
Proof.
  intros Hcl. unfold SnmpCheck.Run. rewrite Hcl. destruct (GetSysObjectID _ _ w) as [oid w1].
  set (answered := match oid with Ok _ => _ | Err _ => _ end).
  destruct (resolveProfile _ _ _ _ _ _ _) as [[profile c1] w2] eqn:Er. apply resolveProfile_spec in Er as (Hd & Hr & Hp).
  destruct profile as [profile|e].
  2:{ intros H. apply finish_reports in H as (-> & -> & own & -> & Hown). by exists [], own, answered. }
  destruct (Snmp.Collect _ _ _ _ _ _ _ _ _ _) as [[device|e] w3].
  2:{ intros H. apply finish_reports in H as (-> & -> & own & -> & Hown). by exists [], own, answered. }
  set (kept := filter _ device). destruct (maybeEmitDeviceMetadata _ _ _ _ _ _ _ _ _ _ _) as [c2 w4] eqn:Em.
  apply maybeEmit_kept in Em as [Em _]. intros H.
  apply finish_reports in H as (-> & -> & own & -> & Hown). eexists _, own, _. split; [reflexivity|].
  split; [exact Hown|]. split; [done|]. cbn [resolved set_lastRun]. rewrite Em. split; [done|].
  eexists kept, _, _, _. split; [reflexivity|]. split; [by rewrite (Hp profile)|]. split_and!.
  - apply Forall_forall. intros x Hx. apply list_elem_of_filter in Hx as [Hx _]. by rewrite <- Hd.
  - intros Hne. apply orb_true_iff. right. apply negb_true_iff, bool_decide_eq_false. intros ->. by apply Hne.
  - apply coverage_reports.
  - apply coverage_reports.
  - lia.
  - apply inj_le. apply subseteq_size. unfold observed_families. apply intersection_subseteq_r.
Qed.
End check.

(** ** Examples *)

Module Example.
Import SnmpCheck.

Definition enum (A : Type) (m : gmap string A) : list (string * A) := map_to_list m.
Lemma enum_perm A (m : gmap string A) : enum A m ≡ₚ map_to_list m.
Proof. done. Qed.
Definition compile (s : string) : option (string -> bool) := Some (contains s).
Definition format_float (_ : f64) : string := "0".

(** A device with one disk of 100 blocks of 4096 bytes; [sysObjectID] is what it answers. *)
Definition storage (col : string) (v : pduValue) : SnmpPDU := mk_pdu (".1.3.6.1.2.1.25.2.3.1." +:+ col +:+ ".1") OtherType v.
Definition disk : list SnmpPDU :=
  [storage "2" (VString ".1.3.6.1.2.1.25.2.1.4"); storage "3" (VBytes "/data"); storage "4" (VInt 4096); storage "6" (VInt 100)].
Definition walk (root : string) (w : unit) : option (list SnmpPDU) * unit :=
  (if String.eqb root hrStorageTableOID then Some disk
   else if String.eqb root "1.3.6.1.2.1.2.2.1.10" then Some [mk_pdu ".1.3.6.1.2.1.2.2.1.10.7" OtherType (VInt 5)] else None, w).
Definition get (sysObjectID : SnmpPDU) (oids : list string) (w : unit) : option (list SnmpPDU) * unit :=
  (if bool_decide (oids = ["1.3.6.1.2.1.1.2.0"]) then Some [sysObjectID] else None, w).

Definition used : ProfileSymbol := mk_symbol hrStorageUsedCol "hrStorageUsed" f64_zero.
Definition disk_table : ProfileTable := mk_table hrStorageTableOID "hrStorageTable".
Definition disk_metric : ProfileMetric := mk_profile_metric "HOST-RESOURCES-MIB" None (Some disk_table) [used] [] None.

Lemma table_points_exact_witness : exists ms,
  collect_metric enum compile format_float (get no_pdu) walk 0 "h" ∅ ∅ (mk_progress [] 0 0) disk_metric tt
  = (mk_progress ms 0 0, tt) /\ NoDup (series <$> ms) /\
  newMetric 0 "h" "snmp.hr.storage_used" (f_of_Z 409600)
    (list_to_map [("row_index", "1"); ("storage_type", "fixed_disk"); ("storage_descr", "/data")]) ∈ ms.
Proof.
  destruct (table_points_exact enum enum_perm compile format_float (get no_pdu) walk 0 "h" ∅ ∅ (mk_progress [] 0 0) disk_metric
    disk_table tt disk tt eq_refl eq_refl eq_refl) as (ms & E & Hn & Hin).
  exists ms. split; [exact E|]. split; [exact Hn|]. apply Hin.
  eexists "1", _, _, _, 0%nat, used, (f_of_Z 100). split_and!; [reflexivity|reflexivity| |by vm_compute].
  split_and!; [reflexivity|by vm_compute|]. intros j sym' Hj. lia.
Defined.

(** *** Runs *)

Definition generic : Profile := mk_profile "generic-snmpv2" [] None [disk_metric] [] [] None.
Definition router : Profile :=
  mk_profile "router" ["1.3.6.1.4.1.9.1"] None [] []
    [mk_rule "interfaces" [] [mk_item "community.router.net_if_in" "1.3.6.1.2.1.2.2.1.10" f64_zero] ∅] None.
Definition catalog : Catalog :=
  mk_catalog [generic; router] (list_to_map [("generic-snmpv2", generic); ("router", router)]) None.

Definition check : snmpGenericCheck :=
  mk_check "c" minute "h" ∅ (mk_params "10.0.0.1" "v2c" second "public" "" "" "" "" "" "") "auto" ∅ 1 None false zero_time zero_time.
Definition now : clock := mk_clock second second second (2 * second).
Definition run (sysObjectID : SnmpPDU) : (list Metric * option string) * snmpGenericCheck * unit :=
  Run enum (fun s => s) (fun s => s) String.eqb compile format_float (get sysObjectID) walk (fun _ => 3) None catalog now ∅ false check tt.

Definition answer : SnmpPDU := mk_pdu ".1.3.6.1.2.1.1.2.0" OtherType (VString ".1.3.6.1.4.1.9.1.5").

Lemma run_reports_itself_witness : exists ms c',
  run answer = (ms, None, c', tt) /\ resolved c' = Some router /\
  exists collected own reachable, ms = collected ++ own /\ own_report reachable None collected own /\ lastRun c' = second.
Proof.
  assert (H : (run answer).1.1.2 = None /\ resolved (run answer).1.2 = Some router) by (vm_compute; done).
  unfold run in *. destruct (Run _ _ _ _ _ _ _ _ _ _ _ now ∅ false check tt) as [[[ms err] c'] []] eqn:E.
  cbn [fst snd] in H. destruct H as [-> Hc]. exists ms, c'. split; [done|]. split; [exact Hc|].
  destruct (run_reports_itself enum enum_perm (fun s => s) (fun s => s) String.eqb compile format_float (get answer) walk
    (fun _ => 3) None catalog now ∅ check tt (mk_client "10.0.0.1" "10.0.0.1" 161 second (V2c "public")) ms None c' tt
    eq_refl E) as (collected & own & reachable & Hms & Hown & Hlast & _).
  exists collected, own, reachable. split; [exact Hms|]. split; [exact Hown|exact Hlast].
Defined.

(** A family of a rule is expected under the name of the profile and observed under the
    canonical one: the coverage of such a profile is never complete. *)
Example family_never_observed :
  MetricFamilies router = {[ "community.router.net_if_in" ]} /\
  (MetricName <$> (run answer).1.1.1) !! 0%nat = Some "snmp.if.in_octets" /\
  reported "snmp.collector.profile_metric_expected" (run answer).1.1.1 = Some f64_one /\
  reported "snmp.collector.profile_metric_observed" (run answer).1.1.1 = Some f64_zero.
Proof. split; [|split; [|split]]; vm_compute; reflexivity. Qed.

(** A device without a sysObjectID answers with no value, which is written "<nil>": it counts
    as reachable by it, and the fallback profile is kept for good. *)
Example missing_sysObjectID_is_text :
  GetSysObjectID format_float (get (mk_pdu ".1.3.6.1.2.1.1.2.0" NoSuchObject VNil)) tt = (Ok "<nil>", tt) /\
  resolved (run (mk_pdu ".1.3.6.1.2.1.1.2.0" NoSuchObject VNil)).1.2 = Some generic.
Proof. by vm_compute. Qed.

(** A profile of tables alone does not fail when the device answers nothing. *)
Example silent_tables_succeed :
  Collect enum compile format_float (fun _ w => (None, w)) (fun _ w => (None, w)) 0 generic "h" ∅ tt = (Ok [], tt).
Proof. by vm_compute. Qed.
End Example.
End SnmpProps.
