(* ===== verification/Lldp.v ===== *)
(** * Discovery of the topology (internal/checks/lldp.go)

    A run walks the tables of the ports, of the interfaces and of the neighbours of a device
    and reports one edge per neighbour.  The walks, the encoding of the details as a
    protobuf Struct, which takes only valid UTF-8, the posting of the report, the order of
    maps, case folding and the text of an IPv6 address are arguments.  Numbers in the details
    are given by their text. *)

From stdpp Require Import sorting.
From S2P Require Import Prelude GoStrings GoFloat Wire Bolt Processing Otlp QueryStats Snmp Stamp.
#[local] Open Scope Z_scope.

Module Lldp.
Import Processing(json, JNull, JBool, JNumber, JString, JArray, JObject).
Import Snmp(SnmpPDU, mk_pdu, pdu_Name, pdu_Type, pdu_Value, pduValue, VNil, VString, VBytes, VInt, VFloat, VOther,
  Null, NoSuchObject, NoSuchInstance, EndOfMibView, OtherType, PduFloat, no_pdu, skip_space, leading_digits).

(** ** Objects *)

Definition ifNameOID : string := "1.3.6.1.2.1.31.1.1.1.1".
Definition ifDescrOID : string := "1.3.6.1.2.1.2.2.1.2".
Definition ifSpeedOID : string := "1.3.6.1.2.1.2.2.1.5".
Definition ifHighSpeedOID : string := "1.3.6.1.2.1.31.1.1.1.15".
Definition ifAliasOID : string := "1.3.6.1.2.1.31.1.1.1.18".
Definition lldpLocPortSubtypeOID : string := "1.0.8802.1.1.2.1.3.7.1.2".
Definition lldpLocPortIDOID : string := "1.0.8802.1.1.2.1.3.7.1.3".
Definition lldpLocPortDescOID : string := "1.0.8802.1.1.2.1.3.7.1.4".
Definition lldpRemLocalOID : string := "1.0.8802.1.1.2.1.4.1.1.2".
Definition lldpRemChassisSub : string := "1.0.8802.1.1.2.1.4.1.1.4".
Definition lldpRemChassisID : string := "1.0.8802.1.1.2.1.4.1.1.5".
Definition lldpRemPortSub : string := "1.0.8802.1.1.2.1.4.1.1.6".
Definition lldpRemPortID : string := "1.0.8802.1.1.2.1.4.1.1.7".
Definition lldpRemPortDesc : string := "1.0.8802.1.1.2.1.4.1.1.8".
Definition lldpRemSystemName : string := "1.0.8802.1.1.2.1.4.1.1.9".
Definition lldpRemSystemDescr : string := "1.0.8802.1.1.2.1.4.1.1.10".
Definition lldpRemSysCapSupported : string := "1.0.8802.1.1.2.1.4.1.1.11".
Definition lldpRemSysCapEnabled : string := "1.0.8802.1.1.2.1.4.1.1.12".
Definition lldpRemManAddrIfSubtype : string := "1.0.8802.1.1.2.1.4.2.1.3".
Definition lldpRemManAddrIfID : string := "1.0.8802.1.1.2.1.4.2.1.4".
Definition lldpRemManAddrOID : string := "1.0.8802.1.1.2.1.4.2.1.5".
Definition lldpRemUnknownTLVInfo : string := "1.0.8802.1.1.2.1.4.3.1.2".
Definition lldpRemOrgDefInfo : string := "1.0.8802.1.1.2.1.4.4.1.4".

Definition columns : list string :=
  [lldpRemLocalOID; lldpRemChassisSub; lldpRemChassisID; lldpRemPortSub; lldpRemPortID; lldpRemPortDesc;
   lldpRemSystemName; lldpRemSystemDescr; lldpRemSysCapSupported; lldpRemSysCapEnabled].

(** ** Indexes *)

Definition oidSuffix (name root : string) : string :=
  let name := trim_prefix "." (trim_space name) in
  let root := trim_prefix "." (trim_space root) in
  trim_prefix "." (trim_prefix root name).

(** [fmt.Sscanf(s, "%d", &value)] for an int that is zero before. *)
Definition scan_int (s : string) : Z :=
  match skip_space (S (String.length s)) s with
  | None => 0
  | Some s =>
      let '(sign, digits) := match s with
                             | String c r => if (byte_of c =? 45) || (byte_of c =? 43) then (str1 (byte_of c), r) else ("", s)
                             | "" => ("", s)
                             end in
      default 0 (atoi (sign +:+ leading_digits digits))
  end.

Definition lastOIDPart (index : string) : Z :=
  scan_int (match Snmp.last_cut (chr 46) index with Some (_, part) => part | None => index end).

Definition lldpLocalPortFromIndex (index : string) : Z :=
  let parts := split "." index in
  if (length parts <? 3)%nat then 0 else scan_int (nth (length parts - 2) parts "").

(** [strings.Trim(s, ".")]. *)
Fixpoint trim_left_dots (s : string) : string :=
  match s with String c r => if byte_of c =? 46 then trim_left_dots r else s | "" => "" end.
Definition trim_dots (s : string) : string := str_rev (trim_left_dots (str_rev (trim_left_dots s))).

Definition oidNumbers (index : string) : option (list Z) := mapM atoi (split "." (trim_dots index)).

Definition remoteRowKey (parts : list Z) : string :=
  match parts with
  | a :: b :: c :: _ => itoa a +:+ "." +:+ itoa b +:+ "." +:+ itoa c
  | _ => ""
  end.

(** ** Values *)

Section values.
Variable format_float : f64 -> string.
Variable ip6_string : string -> string.   (* net.IP.String of sixteen bytes *)

Definition stringValue (pdu : SnmpPDU) : string :=
  match pdu_Type pdu with
  | NoSuchObject | NoSuchInstance | EndOfMibView | Null => ""
  | OtherType =>
      match pdu_Value pdu with
      | VNil => ""
      | VBytes s | VString s => trim_space s
      | VInt z => itoa z
      | VFloat f => trim_space (format_float f)
      | VOther text => trim_space text
      end
  end.

Definition bytesValue (pdu : SnmpPDU) : string :=
  match pdu_Value pdu with VBytes s | VString s => s | _ => "" end.

Definition printableBytes (value : string) : string :=
  if forallb (fun z => (32 <=? z) && (z <=? 126)) (bytes_of value) then trim_space value else "".
Definition printableValue (pdu : SnmpPDU) : string := printableBytes (bytesValue pdu).

Definition intValue (pdu : SnmpPDU) : Z := match PduFloat pdu with Some value => QueryStats.f_to_i64 value | None => 0 end.

Definition formatMAC (value : string) : string :=
  join ":" ((fun z => Hex.EncodeToString (str1 z)) <$> bytes_of value).

Definition formatNetworkAddress (family : Z) (address : string) : string :=
  if (family =? 1) && (str_len address =? 4) then join "." (itoa <$> bytes_of address)
  else if (family =? 2) && (str_len address =? 16) then ip6_string address
  else if (family =? 6) && (str_len address =? 6) then formatMAC address
  else
    let text := printableBytes address in
    if String.eqb text "" then Hex.EncodeToString address else text.

Definition identifierValue (pdu : SnmpPDU) (subtype : Z) (chassis : bool) : string :=
  let bytes := bytesValue pdu in
  if String.eqb bytes "" then stringValue pdu
  else
    let macSubtype := if chassis then 4 else 3 in
    let networkSubtype := if chassis then 5 else 4 in
    if subtype =? macSubtype then formatMAC bytes
    else if (subtype =? networkSubtype) && (1 <? str_len bytes)
    then formatNetworkAddress (default 0 (byte_at 0 bytes)) (str_drop 1 bytes)
    else
      let text := printableBytes bytes in
      if String.eqb text "" then Hex.EncodeToString bytes else text.

Definition addressFamilyName (family : Z) : string :=
  if family =? 1 then "ipv4" else if family =? 2 then "ipv6" else if family =? 6 then "ieee802"
  else if family =? 16 then "dns" else "iana-" +:+ itoa family.

Definition capabilities : list string :=
  ["other"; "repeater"; "bridge"; "wlanAccessPoint"; "router"; "telephone"; "docsisCableDevice"; "stationOnly";
   "cVlanComponent"; "sVlanComponent"; "twoPortMacRelay"].
Definition obj (l : list (string * json)) : json := JObject (list_to_map l).
Definition num (z : Z) : json := JNumber (itoa z).

Definition has_capability (value : string) (bit : nat) : bool :=
  match byte_at (bit / 8) value with
  | Some b => negb (Z.land b (Z.shiftl 1 (7 - Z.of_nat (bit mod 8))) =? 0)
  | None => false
  end.
Definition capabilityDetails (pdu : SnmpPDU) : json :=
  let value := bytesValue pdu in
  obj [("hex", JString (Hex.EncodeToString value));
       ("names", JArray ((fun p : nat * string => JString p.2) <$> filter (fun p => has_capability value p.1 = true) (imap pair capabilities)))].

(** ** Speeds *)

Definition max_int32 : Z := 2 ^ 31 - 1.
Definition mbps (bitsPerSecond : Z) : Z :=
  if bitsPerSecond <=? 0 then 0
  else
    let value := bitsPerSecond ÷ 1000000 in
    if max_int32 <? value then max_int32 else i32 value.
Definition at_int {A} (d : A) (k : Z) (m : gmap Z A) : A := default d (m !! k).
Definition interfaceSpeed (ifIndex : Z) (ifSpeeds ifHighSpeeds : gmap Z Z) : Z :=
  let highSpeed := at_int 0 ifIndex ifHighSpeeds in
  if 0 <? highSpeed then if max_int32 <? highSpeed then max_int32 else i32 highSpeed
  else mbps (at_int 0 ifIndex ifSpeeds).
End values.

(** ** Runs *)

Record TopologyEdgeReport := mk_edge {
  LocalHostId : string;
  LocalIface : string;
  LocalIfaceSpeedMbps : Z;
  RemoteChassisIdSubtype : Z;
  RemoteChassisId : string;
  RemotePortIdSubtype : Z;
  RemotePortId : string;
  RemotePortDesc : string;
  RemoteSysName : string;
  RemoteSysDescr : string;
  Layer : string;
  SourceProtocol : string;
  LinkType : string;
  Raw : gmap string json;
}.
Record TopologyReport := mk_report { BatchSeq : Z; ScannedAt : Z; Edges : list TopologyEdgeReport }.

Record lldpCheck := mk_check {
  id : string;
  interval : Z;
  hostID : string;
  tags : tagmap;
  params : Snmp.Params;
  batchSeq : Z;
}.

Section lldp.
Context {W : Type}.
Variable enum : forall A : Type, gmap string A -> list (string * A).
Variable enum_int : forall A : Type, gmap Z A -> list (Z * A).
Variable ToLower ToUpper : string -> string.
Variable EqualFold : string -> string -> bool.
Variable format_float : f64 -> string.
Variable ip6_string : string -> string.
Variable NewStruct : gmap string json -> option (gmap string json).   (* structpb.NewStruct *)
Variable Walk : string -> W -> option (list SnmpPDU) * W.
Variable pusher : option (TopologyReport -> W -> res unit * W).   (* PostTopology *)

Definition M (A : Type) : Type := W -> res A * W.
#[global] Instance M_ret : MRet M := fun A a w => (Ok a, w).
#[global] Instance M_bind : MBind M :=
  fun A B f m w => match m w with (Ok a, w) => f a w | (Err e, w) => (Err e, w) end.

Definition of_res {A} (r : res A) : M A := fun w => (r, w).

Definition newLLDPCheck (cfg : CheckConfig) : res lldpCheck :=
  params ← Snmp.ParamsFromMap ToLower (Wire.Params cfg);
  Ok (mk_check (if String.eqb (CheckId cfg) "" then "lldp.discover-" +:+ CheckHostId cfg else CheckId cfg)
        (if Interval cfg <=? 0 then 5 * minute else Interval cfg) (CheckHostId cfg) (StaticTags cfg) params 0).

(** *** Walks *)

Abbreviation pdus := (gmap string SnmpPDU).

Definition add_pdu (oid : string) (values : pdus) (pdu : SnmpPDU) : pdus :=
  let index := oidSuffix (pdu_Name pdu) oid in
  if String.eqb index "" then values else <[index := pdu]> values.
Definition walkPDUs (oid : string) : M pdus :=
  fun w => let '(l, w) := Walk oid w in
           (match l with Some l => Ok (foldl (add_pdu oid) ∅ l) | None => Err "walk" end, w).

(** The values by the last number of the index. *)
Definition by_last {A} (value : SnmpPDU -> A) (values : pdus) : gmap Z A :=
  foldl (fun m kv => if 0 <? lastOIDPart kv.1 then <[lastOIDPart kv.1 := value kv.2]> m else m) ∅ (enum _ values).
Definition walkStrings (oid : string) : M (gmap Z string) :=
  values ← walkPDUs oid; mret (by_last (stringValue format_float) values).
Definition walkInts (oid : string) : M (gmap Z Z) :=
  values ← walkPDUs oid; mret (by_last intValue values).

(** The columns of a table, joined by index. *)
Definition add_column (oid : string) (data : gmap string pdus) (values : pdus) : gmap string pdus :=
  foldl (fun data kv => <[kv.1 := <[oid := kv.2]> (default ∅ (data !! kv.1))]> data) data (enum _ values).
Fixpoint walk_columns (oids : list string) (data : gmap string pdus) : M (gmap string pdus) :=
  match oids with
  | [] => mret data
  | oid :: oids => values ← walkPDUs oid; walk_columns oids (add_column oid data values)
  end.
Definition cell (r : pdus) (oid : string) : SnmpPDU := default no_pdu (r !! oid).

Definition sorted_keys {A} (m : gmap string A) : list string := merge_sort str_le (fst <$> enum _ m).

(** Values that are collected under the key of a neighbour. *)
Definition append_at (key : string) (v : json) (result : gmap string (list json)) : gmap string (list json) :=
  <[key := default [] (result !! key) ++ [v]]> result.

Definition managementAddressFromIndex (index : string) : option (string * Z * string) :=
  parts ← oidNumbers index;
  match parts with
  | _ :: _ :: _ :: family :: (first :: rest) as addressBytes =>
      let addressBytes := if (1 <? length addressBytes)%nat && (first =? Z.of_nat (length addressBytes) - 1)
                          then rest else addressBytes in
      if existsb (fun v => (v <? 0) || (255 <? v)) addressBytes then None
      else Some (remoteRowKey parts, family, formatNetworkAddress ip6_string family (of_bytes addressBytes))
  | _ => None
  end.

Definition management_details (rows : gmap string pdus) (result : gmap string (list json)) (index : string)
    : gmap string (list json) :=
  match managementAddressFromIndex index with
  | None => result
  | Some (rowKey, family, address) =>
      let r := default ∅ (rows !! index) in
      append_at rowKey
        (obj [("address_family", JString (addressFamilyName family)); ("address_family_id", num family);
              ("address", JString address);
              ("interface_subtype", num (intValue (cell r lldpRemManAddrIfSubtype)));
              ("interface_id", num (intValue (cell r lldpRemManAddrIfID)));
              ("object_oid", JString (stringValue format_float (cell r lldpRemManAddrOID)))]) result
  end.
Definition collectManagementAddresses : M (gmap string (list json)) :=
  rows ← walk_columns [lldpRemManAddrIfSubtype; lldpRemManAddrIfID; lldpRemManAddrOID] ∅;
  mret (foldl (management_details rows) ∅ (sorted_keys rows)).

(** [%02x] of an int. *)
Fixpoint hex_digits (fuel : nat) (z : Z) : string :=
  match fuel with
  | O => ""
  | S fuel => (if z <? 16 then "" else hex_digits fuel (Z.shiftr z 4)) +:+ str1 (Hex.digit (Z.land z 15))
  end.
Definition hex02 (z : Z) : string :=
  if z <? 0 then "-" +:+ hex_digits 16 (- z)
  else if z <? 16 then "0" +:+ hex_digits 16 z else hex_digits 16 z.

Definition tlv_kind (oid : string) (parts : list Z) : list (string * json) :=
  let at_ i := nth i parts 0 in
  if String.eqb oid lldpRemUnknownTLVInfo then [("tlv_type", num (at_ 3%nat))]
  else if (8 <=? length parts)%nat then
    let offset := if (at_ 3%nat =? 3) && (9 <=? length parts)%nat then 4%nat else 3%nat in
    if (offset + 5 <=? length parts)%nat
    then [("oui", JString (hex02 (at_ offset) +:+ ":" +:+ hex02 (at_ (offset + 1)%nat) +:+ ":" +:+ hex02 (at_ (offset + 2)%nat)));
          ("subtype", num (at_ (offset + 3)%nat)); ("info_index", num (at_ (offset + 4)%nat))]
    else []
  else [].

Definition tlv_details (oid : string) (values : pdus) (result : gmap string (list json)) (index : string)
    : gmap string (list json) :=
  match oidNumbers index with
  | Some parts =>
      if (length parts <? 4)%nat then result
      else
        let pdu := default no_pdu (values !! index) in
        let text := printableValue pdu in
        append_at (remoteRowKey parts)
          (obj ([("oid", JString (pdu_Name pdu)); ("index", JString index);
                 ("value_hex", JString (Hex.EncodeToString (bytesValue pdu)))]
                ++ (if String.eqb text "" then [] else [("value_text", JString text)])
                ++ tlv_kind oid parts)) result
  | None => result
  end.
Definition collectRawTLVs (oid : string) : M (gmap string (list json)) :=
  values ← walkPDUs oid;
  mret (foldl (tlv_details oid values) ∅ (sorted_keys values)).

(** *** Edges *)

Record tables := mk_tables {
  localPortSubtypes : gmap Z Z;
  localPortIDs : gmap Z string;
  localPortDescriptions : gmap Z string;
  ifNames : gmap Z string;
  ifDescrs : gmap Z string;
  ifSpeeds : gmap Z Z;
  ifHighSpeeds : gmap Z Z;
  ifAliases : gmap Z string;
  managementAddresses : gmap string (list json);
  unknownTLVs : gmap string (list json);
  organizationalTLVs : gmap string (list json);
}.

Definition resolveLocalInterface (t : tables) (port : Z) : string * Z * Z :=
  let portID := trim_space (at_int "" port (localPortIDs t)) in
  let speed i := interfaceSpeed i (ifSpeeds t) (ifHighSpeeds t) in
  match List.find (fun kv => negb (String.eqb portID "") &&
                     (EqualFold portID kv.2 || EqualFold portID (at_int "" kv.1 (ifDescrs t)))) (enum_int _ (ifNames t)) with
  | Some (ifIndex, ifName) => (ifName, speed ifIndex, ifIndex)
  | None =>
      let ifName := at_int "" port (ifNames t) in
      if negb (String.eqb ifName "") then (ifName, speed port, port)
      else if negb (String.eqb portID "") then (portID, 0, 0)
      else ("port-" +:+ itoa port, 0, 0)
  end.

(** The edge of a row: None for a neighbour without any identity. *)
Definition row_edge (t : tables) (hostID index : string) (r : pdus) : option (res TopologyEdgeReport) :=
  let localPort := intValue (cell r lldpRemLocalOID) in
  let localPort := if localPort =? 0 then lldpLocalPortFromIndex index else localPort in
  let '(localIface, speed, ifIndex) := resolveLocalInterface t localPort in
  let text oid := stringValue format_float (cell r oid) in
  let chassisSubtype := intValue (cell r lldpRemChassisSub) in
  let chassisID := identifierValue format_float ip6_string (cell r lldpRemChassisID) chassisSubtype true in
  let remotePortSubtype := intValue (cell r lldpRemPortSub) in
  let remotePort := identifierValue format_float ip6_string (cell r lldpRemPortID) remotePortSubtype false in
  if String.eqb chassisID "" && String.eqb (text lldpRemSystemName) "" && String.eqb remotePort "" then None
  else
    let items (m : gmap string (list json)) := JArray (default [] (m !! index)) in
    let remoteDetails := obj [
      ("table_index", JString index); ("chassis_id_subtype", num chassisSubtype); ("chassis_id", JString chassisID);
      ("port_id_subtype", num remotePortSubtype); ("port_id", JString remotePort);
      ("port_description", JString (text lldpRemPortDesc)); ("system_name", JString (text lldpRemSystemName));
      ("system_description", JString (text lldpRemSystemDescr));
      ("capabilities_supported", capabilityDetails (cell r lldpRemSysCapSupported));
      ("capabilities_enabled", capabilityDetails (cell r lldpRemSysCapEnabled));
      ("management_addresses", items (managementAddresses t)); ("unknown_tlvs", items (unknownTLVs t));
      ("organizational_tlvs", items (organizationalTLVs t))] in
    let localDetails := obj [
      ("host_id", JString hostID); ("port_number", num localPort);
      ("port_id_subtype", num (at_int 0 localPort (localPortSubtypes t)));
      ("port_id", JString (at_int "" localPort (localPortIDs t)));
      ("port_description", JString (at_int "" localPort (localPortDescriptions t)));
      ("interface_index", num ifIndex); ("interface_name", JString localIface);
      ("interface_description", JString (at_int "" ifIndex (ifDescrs t)));
      ("interface_alias", JString (at_int "" ifIndex (ifAliases t))); ("interface_speed_mbps", num speed)] in
    Some match NewStruct {[ "lldp" := obj [("local", localDetails); ("remote", remoteDetails)] ]} with
         | None => Err "encode LLDP details"
         | Some raw =>
             Ok (mk_edge hostID localIface speed (i32 chassisSubtype) chassisID (i32 remotePortSubtype) remotePort
                   (text lldpRemPortDesc) (text lldpRemSystemName) (text lldpRemSystemDescr) "L2" "lldp" "ethernet" raw)
         end.

Fixpoint edges_of (t : tables) (hostID : string) (rows : list (string * pdus)) : res (list TopologyEdgeReport) :=
  match rows with
  | [] => Ok []
  | (index, r) :: rows =>
      match row_edge t hostID index r with
      | None => edges_of t hostID rows
      | Some (Err e) => Err e
      | Some (Ok edge) => edges ← edges_of t hostID rows; Ok (edge :: edges)
      end
  end.

(** What is walked: the tables and the rows of the neighbours. *)
Definition collect_tables : M (tables * gmap string pdus) :=
  localPortSubtypes ← walkInts lldpLocPortSubtypeOID;
  localPortIDs ← walkStrings lldpLocPortIDOID;
  localPortDescriptions ← walkStrings lldpLocPortDescOID;
  ifNames ← walkStrings ifNameOID;
  ifDescrs ← walkStrings ifDescrOID;
  ifSpeeds ← walkInts ifSpeedOID;
  ifHighSpeeds ← walkInts ifHighSpeedOID;
  ifAliases ← walkStrings ifAliasOID;
  data ← walk_columns columns ∅;
  managementAddresses ← collectManagementAddresses;
  unknownTLVs ← collectRawTLVs lldpRemUnknownTLVInfo;
  organizationalTLVs ← collectRawTLVs lldpRemOrgDefInfo;
  mret (mk_tables localPortSubtypes localPortIDs localPortDescriptions ifNames ifDescrs ifSpeeds ifHighSpeeds ifAliases
          managementAddresses unknownTLVs organizationalTLVs, data).

Definition collectLLDPEdges (hostID : string) : M (list TopologyEdgeReport) :=
  found ← collect_tables;
  of_res (edges_of found.1 hostID (enum _ found.2)).

(** A run gives no metrics; its error, the check and the state that it leaves. *)
Definition Run (now : Z) (c : lldpCheck) (w : W) : option string * lldpCheck * W :=
  match Snmp.NewClient ToLower ToUpper (params c) with
  | Err e => (Some e, c, w)
  | Ok _ =>
      let '(edges, w) := collectLLDPEdges (hostID c) w in
      match edges, pusher with
      | Err e, _ => (Some e, c, w)
      | Ok [], _ | Ok _, None => (None, c, w)
      | Ok edges, Some post =>
          let seq := i64 (batchSeq c + 1) in
          let c := mk_check (id c) (interval c) (hostID c) (tags c) (params c) seq in
          let '(r, w) := post (mk_report seq now edges) w in
          (match r with Ok _ => None | Err _ => Some "lldp topology ingest" end, c, w)
      end
  end.
End lldp.
End Lldp.

(** * What the discovery of the topology promises

    A report holds one edge for each neighbour with an identity, or nothing when the details of
    one of them cannot be encoded. *)

Module LldpProps.
Import Lldp.
Import Processing(json, JNull, JBool, JNumber, JString, JArray, JObject).
Import Snmp(SnmpPDU, mk_pdu, VString, VBytes, VInt, VNil, OtherType).

Lemma mbps_range b : 0 <= mbps b <= max_int32.
Proof.
  unfold mbps. destruct (Z.leb_spec b 0); [unfold max_int32; lia|].
  destruct (Z.ltb_spec max_int32 (b ÷ 1000000)) as [|Hle]; [unfold max_int32; lia|].
  pose proof (Z.quot_pos b 1000000 ltac:(lia) ltac:(lia)).
  unfold max_int32 in *. rewrite i32_small by (unfold in_i32; lia). lia.
Qed.

Lemma interfaceSpeed_range i speeds high : 0 <= interfaceSpeed i speeds high <= max_int32.
Proof.
  unfold interfaceSpeed. destruct (Z.ltb_spec 0 (at_int 0 i high)); [|apply mbps_range].
  destruct (Z.ltb_spec max_int32 (at_int 0 i high)) as [|Hle]; [unfold max_int32; lia|].
  unfold max_int32 in *. rewrite i32_small by (unfold in_i32; lia). lia.
Qed.

Section lldp.
Context {W : Type}.
Variable enum : forall A : Type, gmap string A -> list (string * A).
Hypothesis enum_perm : forall A (m : gmap string A), enum A m ≡ₚ map_to_list m.
Variable enum_int : forall A : Type, gmap Z A -> list (Z * A).
Variable EqualFold : string -> string -> bool.
Variable format_float : f64 -> string.
Variable ip6_string : string -> string.
Variable NewStruct : gmap string json -> option (gmap string json).
Variable Walk : string -> W -> option (list SnmpPDU) * W.

(** *** The join of columns *)

Lemma add_pairs_lookup oid (l : list (string * SnmpPDU)) (data : gmap string (gmap string SnmpPDU)) i :
  NoDup (fst <$> l) ->
  foldl (fun data kv => <[kv.1 := <[oid := kv.2]> (default ∅ (data !! kv.1))]> data) data l !! i
  = match list_to_map (M := gmap string SnmpPDU) l !! i with
    | Some pdu => Some (<[oid := pdu]> (default ∅ (data !! i)))
    | None => data !! i
    end.
Proof.
  revert data. induction l as [|[k pdu] l IH]; intros data Hnd; [reflexivity|].
  rewrite fmap_cons in Hnd. apply NoDup_cons in Hnd as [Hk Hnd]. cbn [foldl fst snd list_to_map foldr]. rewrite IH by done.
  assert (list_to_map (M := gmap string SnmpPDU) l !! k = None) as Hnone by by apply not_elem_of_list_to_map_1.
  destruct (decide (i = k)) as [->|Hi].
  - fold (list_to_map (M := gmap string SnmpPDU) l). rewrite Hnone. by rewrite !lookup_insert_eq.
  - fold (list_to_map (M := gmap string SnmpPDU) l). by rewrite !lookup_insert_ne by done.
Qed.

(** A column adds its variables to the rows of their indexes and changes nothing else. *)
Lemma add_column_lookup oid data values i :
  add_column enum oid data values !! i
  = match values !! i with
    | Some pdu => Some (<[oid := pdu]> (default ∅ (data !! i)))
    | None => data !! i
    end.
Proof.
  unfold add_column. assert (Hnd : NoDup (fst <$> enum _ values)) by (rewrite enum_perm; apply NoDup_fst_map_to_list).
  rewrite add_pairs_lookup by exact Hnd.
  rewrite (list_to_map_proper (enum _ values) (map_to_list values)) by (done || apply enum_perm).
  by rewrite list_to_map_to_list.
Qed.

(** *** Edges *)

Abbreviation row_edge := (row_edge enum_int EqualFold format_float ip6_string NewStruct).

Definition identified (r : gmap string SnmpPDU) : Prop :=
  identifierValue format_float ip6_string (cell r lldpRemChassisID) (intValue (cell r lldpRemChassisSub)) true <> "" \/
  stringValue format_float (cell r lldpRemSystemName) <> "" \/
  identifierValue format_float ip6_string (cell r lldpRemPortID) (intValue (cell r lldpRemPortSub)) false <> "".

#[local] Instance identified_dec r : Decision (identified r).
Proof. unfold identified. apply _. Defined.

(** The edge is of the row: who the neighbour is, and a speed that fits. *)
Definition edge_of (hostID : string) (r : gmap string SnmpPDU) (e : TopologyEdgeReport) : Prop :=
  LocalHostId e = hostID /\ 0 <= LocalIfaceSpeedMbps e <= max_int32 /\
  RemoteChassisId e = identifierValue format_float ip6_string (cell r lldpRemChassisID) (intValue (cell r lldpRemChassisSub)) true /\
  RemoteSysName e = stringValue format_float (cell r lldpRemSystemName) /\
  RemotePortId e = identifierValue format_float ip6_string (cell r lldpRemPortID) (intValue (cell r lldpRemPortSub)) false /\
  RemoteSysDescr e = stringValue format_float (cell r lldpRemSystemDescr).

Lemma resolve_speed t port : 0 <= (resolveLocalInterface enum_int EqualFold t port).1.2 <= max_int32.
Proof.
  unfold resolveLocalInterface. destruct (List.find _ _) as [[i name]|]; [apply interfaceSpeed_range|].
  destruct (negb _); [apply interfaceSpeed_range|]. destruct (negb _); unfold max_int32; cbn; lia.
Qed.

Lemma row_edge_spec t hostID i r :
  match row_edge t hostID i r with
  | None => ~ identified r
  | Some (Ok e) => identified r /\ edge_of hostID r e
  | Some (Err _) => identified r
  end.
Proof.
  unfold Lldp.row_edge. set (localPort := if intValue _ =? 0 then _ else _). clearbody localPort.
  pose proof (resolve_speed t localPort) as Hs.
  destruct (resolveLocalInterface enum_int EqualFold t localPort) as [[iface speed] ifIndex]. cbn [fst snd] in Hs.
  match goal with |- context [if ?b then None else _] => destruct b eqn:Eb end.
  - apply andb_prop in Eb as [Eb H3]. apply andb_prop in Eb as [H1 H2]. apply String.eqb_eq in H1, H2, H3.
    intros [H|[H|H]]; by apply H.
  - assert (identified r) as Hid.
    { rewrite !andb_false_iff, !String.eqb_neq in Eb. destruct Eb as [[H|H]|H]; unfold identified; auto. }
    destruct (NewStruct _) as [raw|]; [|exact Hid]. split; [exact Hid|]. unfold edge_of. cbn. split_and!; (reflexivity || apply Hs).
Qed.

Definition edges_of_row (t : tables) (hostID : string) (kv : string * gmap string SnmpPDU) : option TopologyEdgeReport :=
  match row_edge t hostID kv.1 kv.2 with Some (Ok e) => Some e | _ => None end.

Lemma edges_of_spec t hostID l :
  match edges_of enum_int EqualFold format_float ip6_string NewStruct t hostID l with
  | Ok edges => edges = omap (edges_of_row t hostID) l /\ forall kv e, kv ∈ l -> row_edge t hostID kv.1 kv.2 <> Some (Err e)
  | Err _ => exists kv e, kv ∈ l /\ row_edge t hostID kv.1 kv.2 = Some (Err e)
  end.
Proof.
  induction l as [|[i r] l IH]; [split; [done|intros kv e Hin; by apply elem_of_nil in Hin]|].
  cbn [edges_of omap list_omap]. unfold edges_of_row at 1. cbn [fst snd].
  destruct (row_edge t hostID i r) as [[e|e]|] eqn:E.
  - destruct (edges_of _ _ _ _ _ _ _ l) as [edges|]; cbn [mbind res_bind].
    + destruct IH as [-> IH]. split; [done|]. intros kv e' [->|Hin]%elem_of_cons; [cbn; congruence|by apply IH].
    + destruct IH as (kv & e' & Hin & He). exists kv, e'. split; [by right|done].
  - exists (i, r), e. split; [left|done].
  - destruct (edges_of _ _ _ _ _ _ _ l) as [edges|].
    + destruct IH as [-> IH]. split; [done|]. intros kv e' [->|Hin]%elem_of_cons; [cbn; congruence|by apply IH].
    + destruct IH as (kv & e' & Hin & He). exists kv, e'. split; [by right|done].
Qed.

(** When the walks succeed, a run finds exactly one edge for each row of the table of
    neighbours that names its neighbour in some way, with its identity and a speed that is
    not negative and fits 32 bits, whatever the order in which the rows come; or it finds
    none at all, exactly when the details of one of these rows cannot be encoded. *)
Theorem neighbours_reported_once hostID w t data w' :
  collect_tables enum format_float ip6_string Walk w = (Ok (t, data), w') ->
  match collectLLDPEdges enum enum_int EqualFold format_float ip6_string NewStruct Walk hostID w with
  | (Ok edges, w1) => w1 = w' /\ exists rows,
      rows ≡ₚ filter (fun kv => identified kv.2) (map_to_list data) /\
      Forall2 (fun kv e => edge_of hostID kv.2 e) rows edges
  | (Err _, w1) => w1 = w' /\ exists i r e, data !! i = Some r /\ row_edge t hostID i r = Some (Err e)
  end.
Proof.
  intros Ht. unfold collectLLDPEdges. unfold mbind, M_bind. rewrite Ht. unfold of_res. cbn [fst snd].
  pose proof (edges_of_spec t hostID (enum _ data)) as H. destruct (edges_of _ _ _ _ _ _ _ _) as [edges|e].
  - destruct H as [-> Hok]. split; [done|]. exists (filter (fun kv => identified kv.2) (enum _ data)).
    split; [by rewrite enum_perm|].
    induction (enum _ data) as [|[i r] l IH]; [constructor|].
    specialize (IH (fun kv e Hin => Hok kv e (list_elem_of_further _ _ _ Hin))).
    pose proof (fun e => Hok (i, r) e (list_elem_of_here _ _)) as Hr. cbn [fst snd] in Hr.
    cbn [omap list_omap]. unfold edges_of_row at 1. cbn [fst snd].
    pose proof (row_edge_spec t hostID i r) as Hrow. destruct (row_edge t hostID i r) as [[e|e]|].
    + destruct Hrow as [Hid He]. rewrite filter_cons_True by done. by constructor.
    + by destruct (Hr e).
    + by rewrite filter_cons_False by done.
  - split; [done|]. destruct H as ([i r] & e' & Hin & He). rewrite enum_perm in Hin. apply elem_of_map_to_list in Hin.
    by exists i, r, e'.
Qed.
End lldp.

(** ** Examples *)

Module Example.

Definition enum (A : Type) (m : gmap string A) : list (string * A) := map_to_list m.
Lemma toy_enum_perm A (m : gmap string A) : enum A m ≡ₚ map_to_list m.
Proof. done. Qed.
Definition enum_int (A : Type) (m : gmap Z A) : list (Z * A) := map_to_list m.
Definition format_float (_ : f64) : string := "0".
Definition ip6 (_ : string) : string := "::".

(** structpb.NewStruct refuses strings that are not UTF-8. *)
Fixpoint valid_runes (fuel : nat) (l : list Z) : bool :=
  match fuel, l with
  | S fuel, b :: _ =>
      let n := rune_width l in negb ((n =? 1)%nat && (128 <=? b)) && valid_runes fuel (drop n l)
  | _, _ => true
  end.
Definition valid (s : string) : bool := valid_runes (String.length s) (bytes_of s).
Fixpoint encodable (fuel : nat) (v : json) : bool :=
  match fuel, v with
  | S fuel, JArray l => forallb (encodable fuel) l
  | S fuel, JObject m => forallb (fun kv => valid kv.1 && encodable fuel kv.2) (map_to_list m)
  | _, JString s => valid s
  | _, _ => true
  end.
Definition NewStruct (m : gmap string json) : option (gmap string json) := if encodable 8 (JObject m) then Some m else None.

Definition variable (oid index : string) (v : Snmp.pduValue) : SnmpPDU := mk_pdu ("." +:+ oid +:+ "." +:+ index) OtherType v.

(** A device with two neighbours, of which [description] is what the second one says of itself. *)
Definition walk (description : string) (oid : string) (w : unit) : option (list SnmpPDU) * unit :=
  (Some
     (if String.eqb oid ifNameOID then [variable oid "1" (VBytes "ether1")]
      else if String.eqb oid ifHighSpeedOID then [variable oid "1" (VInt 1000)]
      else if String.eqb oid lldpRemChassisSub then [variable oid "0.1.1" (VInt 4)]
      else if String.eqb oid lldpRemChassisID then [variable oid "0.1.1" (VBytes (of_bytes [0; 1; 2; 3; 4; 255]))]
      else if String.eqb oid lldpRemSystemName then [variable oid "0.1.2" (VBytes "switch")]
      else if String.eqb oid lldpRemSystemDescr then [variable oid "0.1.2" (VBytes description)]
      else []), w).

Definition edges (description : string) : res (list TopologyEdgeReport) :=
  (collectLLDPEdges enum enum_int String.eqb format_float ip6 NewStruct (walk description) "h" tt).1.

Lemma neighbours_reported_once_witness : exists t data es,
  (collect_tables enum format_float ip6 (walk "core")) tt = (Ok (t, data), tt) /\ edges "core" = Ok es /\ exists rows,
  rows ≡ₚ filter (fun kv => identified format_float ip6 kv.2) (map_to_list data) /\
  Forall2 (fun kv e => edge_of format_float ip6 "h" kv.2 e) rows es /\ length es = 2%nat.
Proof.
  destruct (collect_tables enum format_float ip6 (walk "core") tt) as [[[t data]|e] []] eqn:E; [|vm_compute in E; discriminate E].
  assert (Hlen : match edges "core" with Ok es => length es = 2%nat | Err _ => False end) by (vm_compute; reflexivity).
  pose proof (neighbours_reported_once enum toy_enum_perm enum_int String.eqb format_float ip6 NewStruct (walk "core") "h" tt t data
    tt E) as H.
  unfold edges in *. destruct (collectLLDPEdges _ _ _ _ _ _ _ _ _) as [[es|e] []]; [|destruct Hlen].
  destruct H as (_ & rows & Hp & Hf). cbn [fst] in Hlen. exists t, data, es. split; [reflexivity|]. split; [reflexivity|].
  exists rows. split; [exact Hp|]. split; [exact Hf|exact Hlen].
Defined.

(** A neighbour whose description is in another encoding hides all the neighbours of the device. *)
Example one_neighbour_hides_all :
  edges (of_bytes [82; 111; 117; 116; 101; 117; 114; 32; 233]) = Err "encode LLDP details".
Proof. by vm_compute. Qed.

(** When a port's identifier names one interface and describes another, the order in which the
    map of interfaces is enumerated decides. *)
Definition ambiguous : tables :=
  mk_tables ∅ {[ 7 := "uplink" ]} ∅ (list_to_map [(1, "uplink"); (2, "ether2")]) {[ 2 := "uplink" ]} ∅ ∅ ∅ ∅ ∅ ∅.
Example interface_depends_on_order :
  (resolveLocalInterface enum_int String.eqb ambiguous 7).1.1 <>
  (resolveLocalInterface (fun A m => reverse (enum_int A m)) String.eqb ambiguous 7).1.1.
Proof. by vm_compute. Qed.
End Example.
End LldpProps.
