(* ===== verification/Prom.v ===== *)
(** * The text format of metrics, and its scraper (internal/quarkus/scraper.go)

    A line is a name, labels in braces and a value.  The scraper reads the metrics of the pods
    on its node whose workload is instrumented.  Numbers are read by a function that is
    an argument, as are the requests; [Strconv] is strconv.Unquote. *)

From S2P Require Import Prelude GoStrings Wire Otlp Concentrator Stamp Webhook.
#[local] Open Scope Z_scope.

Module Prom.
Import Webhook(WorkloadOf, or_default, instrEntry, entry_Namespace, entry_Pod, entry_Workload, Mode).

(** ** Lines of a body (bufio.Scanner) *)

(** The lines with the line feeds taken off; there is none after the last line feed. *)
Fixpoint raw_lines (s acc : string) : list string :=
  match s with
  | "" => if String.eqb acc "" then [] else [acc]
  | String c s => if byte_of c =? 10 then acc :: raw_lines s "" else raw_lines s (acc +:+ String c "")
  end.
Definition drop_cr (s : string) : string := trim_suffix (str1 13) s.

(** The lines before the first one that does not fit the buffer, and whether there is one. *)
Fixpoint fitting (max : Z) (l : list string) : list string * bool :=
  match l with
  | [] => ([], false)
  | x :: l => if max <=? str_len x then ([], true) else let '(l, e) := fitting max l in (drop_cr x :: l, e)
  end.
Definition scan_text (body : string) : list string * bool := fitting (4 * 1024 * 1024) (raw_lines body "").

(** ** One line *)

(** [strings.IndexByte] and [LastIndexByte], as the parts around the byte. *)
Fixpoint first_cut (sep : Ascii.ascii) (s : string) : option (string * string) :=
  match s with
  | "" => None
  | String c r => if Ascii.eqb c sep then Some ("", r)
                  else match first_cut sep r with Some (a, b) => Some (String c a, b) | None => None end
  end.
Fixpoint last_cut (sep : Ascii.ascii) (s : string) : option (string * string) :=
  match s with
  | "" => None
  | String c r =>
      match last_cut sep r with
      | Some (a, b) => Some (String c a, b)
      | None => if Ascii.eqb c sep then Some ("", r) else None
      end
  end.

Definition open_brace : Ascii.ascii := chr 123.
Definition close_brace : Ascii.ascii := chr 125.
Definition quote_mark : Ascii.ascii := chr 34.
Definition backslash : Ascii.ascii := chr 92.
Definition comma : Ascii.ascii := chr 44.
Definition equals : Ascii.ascii := chr 61.

(** The part before the first blank or tab, and the rest from there. *)
Fixpoint before_blank (s : string) : option (string * string) :=
  match s with
  | "" => None
  | String c r => if (byte_of c =? 32) || (byte_of c =? 9) then Some ("", s)
                  else match before_blank r with Some (a, b) => Some (String c a, b) | None => None end
  end.

(** The pairs between commas outside quotes; [acc] is the pair so far. *)
Fixpoint split_pairs (s : string) (inQuotes : bool) (acc : string) : list string :=
  match s with
  | "" => if String.eqb acc "" then [] else [acc]
  | String c r =>
      if Ascii.eqb c backslash && inQuotes then
        match r with
        | "" => [acc +:+ String c ""]
        | String d r => split_pairs r inQuotes (acc +:+ String c (String d ""))
        end
      else if Ascii.eqb c quote_mark then split_pairs r (negb inQuotes) (acc +:+ String c "")
      else if Ascii.eqb c comma && negb inQuotes then acc :: split_pairs r inQuotes ""
      else split_pairs r inQuotes (acc +:+ String c "")
  end.
Definition splitLabelPairs (s : string) : list string := split_pairs s false "".

(** ** strconv.Unquote

    One literal in double quotes, single quotes or back quotes, and nothing after it.  A
    literal without escapes is taken as it is when it is valid UTF-8, which reading it
    character by character comes to as well. *)

Module Strconv.

Definition newline : Ascii.ascii := chr 10.
Definition single_quote : Ascii.ascii := chr 39.
Definition back_quote : Ascii.ascii := chr 96.

(** [utf8.RuneError], encoded. *)
Definition replacement : string := of_bytes [239; 191; 189].

(** [utf8.AppendRune] of a valid rune. *)
Definition encode_rune (v : Z) : string :=
  of_bytes (if v <? 128 then [v]
            else if v <? 2048 then [192 + v / 64; 128 + v mod 64]
            else if v <? 65536 then [224 + v / 4096; 128 + v / 64 mod 64; 128 + v mod 64]
            else [240 + v / 262144; 128 + v / 4096 mod 64; 128 + v / 64 mod 64; 128 + v mod 64]).

Definition ValidRune (v : Z) : bool := (v <? 55296) || ((57343 <? v) && (v <=? 1114111)).

Definition unhex (c : Ascii.ascii) : option Z :=
  let b := byte_of c in
  if (48 <=? b) && (b <=? 57) then Some (b - 48)
  else if (97 <=? b) && (b <=? 102) then Some (b - 97 + 10)
  else if (65 <=? b) && (b <=? 70) then Some (b - 65 + 10)
  else None.

(** The value of [n] digits in a base, and what follows them. *)
Fixpoint digits (digit : Ascii.ascii -> option Z) (base : Z) (n : nat) (v : Z) (s : string) : option (Z * string) :=
  match n, s with
  | O, _ => Some (v, s)
  | S n, String c s => x ← digit c; digits digit base n (v * base + x) s
  | S _, "" => None
  end.
Definition octal (c : Ascii.ascii) : option Z := let x := byte_of c - 48 in if (0 <=? x) && (x <=? 7) then Some x else None.

Definition control_escape (c : Ascii.ascii) : option Z :=
  match List.find (fun e : Z * Z => byte_of c =? e.1) [(97, 7); (98, 8); (102, 12); (110, 10); (114, 13); (116, 9); (118, 11)] with
  | Some e => Some e.2
  | None => None
  end.

(** After a backslash. *)
Definition unescape (quote c : Ascii.ascii) (s : string) : option (string * string) :=
  match control_escape c with
  | Some b => Some (str1 b, s)
  | None =>
      if byte_of c =? 120 then '(v, s) ← digits unhex 16 2 0 s; Some (str1 v, s)
      else if (byte_of c =? 117) || (byte_of c =? 85) then
        '(v, s) ← digits unhex 16 (if byte_of c =? 117 then 4%nat else 8%nat) 0 s;
        if ValidRune v then Some (encode_rune v, s) else None
      else match octal c with
           | Some x => '(v, s) ← digits octal 8 2 x s; if 255 <? v then None else Some (str1 v, s)
           | None =>
               if Ascii.eqb c backslash then Some (String backslash "", s)
               else if (Ascii.eqb c single_quote || Ascii.eqb c quote_mark) && Ascii.eqb c quote then Some (String c "", s)
               else None
           end
  end.

(** [UnquoteChar]: the bytes that are appended, and the rest. *)
Definition UnquoteChar (quote : Ascii.ascii) (s : string) : option (string * string) :=
  match s with
  | "" => None
  | String c r =>
      if Ascii.eqb c quote then None
      else if 128 <=? byte_of c then
        match rune_width (bytes_of s) with
        | S (S n) => Some (str_take (S (S n)) s, str_drop (S (S n)) s)
        | _ => Some (replacement, r)
        end
      else if negb (Ascii.eqb c backslash) then Some (String c "", r)
      else match r with "" => None | String e r => unescape quote e r end
  end.

(** The characters up to the quote that ends the literal, and what follows it. *)
Fixpoint unquote_chars (fuel : nat) (quote : Ascii.ascii) (s : string) : option (string * string) :=
  match fuel, s with
  | S fuel, String c r =>
      if Ascii.eqb c quote then Some ("", r)
      else if Ascii.eqb c newline then None
      else
        '(x, rest) ← UnquoteChar quote s;
        '(out, rem) ← unquote_chars fuel quote rest;
        Some (x +:+ out, rem)
  | _, _ => None
  end.

Definition drop_returns (s : string) : string :=
  of_bytes (filter (fun b => b <> 13) (bytes_of s)).

Definition Unquote (s : string) : option string :=
  match s with
  | "" => None
  | String q r =>
      if Ascii.eqb q back_quote then
        '(out, rem) ← first_cut back_quote r;
        if String.eqb rem "" then Some (drop_returns out) else None
      else if Ascii.eqb q quote_mark then
        '(out, rem) ← unquote_chars (S (String.length r)) quote_mark r;
        if String.eqb rem "" then Some out else None
      else if Ascii.eqb q single_quote then
        '(out, rem) ← UnquoteChar single_quote r;
        if negb (has_prefix (String newline "") r) && String.eqb rem (String single_quote "") then Some out else None
      else None
  end.

(** [utf8.ValidString]. *)
Fixpoint valid_string (fuel : nat) (s : string) : bool :=
  match fuel, s with
  | S fuel, String c _ =>
      let n := rune_width (bytes_of s) in ((byte_of c <? 128) || (1 <? n)%nat) && valid_string fuel (str_drop n s)
  | _, _ => true
  end.
Definition ValidString (s : string) : bool := valid_string (String.length s) s.
End Strconv.

Section prom.
Variable ParseFloat : string -> option f64.
Variable Unquote : string -> option string.

Fixpoint parse_pairs (pairs : list string) (labels : tagmap) : option tagmap :=
  match pairs with
  | [] => Some labels
  | p :: pairs =>
      match first_cut equals p with
      | None => parse_pairs pairs labels
      | Some (k, v) =>
          v ← Unquote (trim_space v);
          parse_pairs pairs (if String.eqb (trim_space k) "" then labels else <[trim_space k := v]> labels)
      end
  end.

Definition split_value (line : string) : option (string * string) :=
  match last_cut close_brace line with
  | Some (head, rest) => Some (head +:+ String close_brace "", rest)
  | None => before_blank line
  end.

Definition ParseLine (line : string) : option (string * tagmap * f64) :=
  let line := trim_space line in
  if String.eqb line "" || has_prefix "#" line then None
  else
    hr ← split_value line;
    match fields hr.2 with
    | [] => None
    | value :: _ =>
        v ← ParseFloat value;
        match first_cut open_brace hr.1 with
        | None => Some (trim_space hr.1, ∅, v)
        | Some (name, rest) =>
            lr ← last_cut close_brace rest;
            labels ← parse_pairs (splitLabelPairs lr.1) ∅;
            Some (trim_space name, labels, v)
        end
    end.

(** ** The scraper *)

Definition parsePrometheus (now : Z) (body namespace pod : string) : list Metric :=
  omap (fun line =>
    let line := trim_space line in
    if String.eqb line "" || has_prefix "#" line then None
    else match ParseLine line with
         | None => None
         | Some (name, labels, value) =>
             Some (mk_metric (Some now) "" ("quarkus." +:+ name) value "" ""
                     (labels ∪ <["namespace" := namespace]> {[ "pod" := pod ]}) "quarkus.metrics")
         end) (scan_text body).1.

Definition podKey (ns pod : string) : string := ns +:+ "/" +:+ pod.
Definition splitPodKey (key : string) : option (string * string) := first_cut (chr 47) key.

(** The pods of the node (kubelet): namespace, name, address and phase. *)
Record pod_status := mk_pod_status { ps_Namespace : string; ps_Name : string; PodIP : string; Phase : string }.
Definition localPodIPs (items : list pod_status) : gmap string string :=
  foldl (fun out p => if String.eqb (PodIP p) "" || negb (String.eqb (Phase p) "Running") then out
                      else <[podKey (ps_Namespace p) (ps_Name p) := PodIP p]> out) ∅ items.

Definition wanted (entries : list instrEntry) : gset string :=
  foldl (fun want e => if String.eqb (Mode e) "quarkus_metrics"
                       then {[ podKey (entry_Namespace e) (or_default (entry_Workload e) (WorkloadOf (entry_Pod e))) ]} ∪ want
                       else want) ∅ entries.

Section tick.
Context {W : Type}.
Variable enum : gmap string string -> list (string * string).
Variable fetchList : W -> option (list instrEntry) * W.
Variable kubelet_pods : W -> option (list pod_status) * W.   (* GET /pods *)
Variable get : string -> W -> option string * W.   (* the body of a page that was answered with 2xx *)
Variable offer : list Metric -> W -> W.   (* to the channel, dropped when it is full *)

Fixpoint scrape_pods (now : Z) (want : gset string) (pods : list (string * string)) (w : W) : W :=
  match pods with
  | [] => w
  | (key, ip) :: pods =>
      let next := scrape_pods now want pods in
      match splitPodKey key with
      | None => next w
      | Some (ns, pod) =>
          if String.eqb ip "" || negb (bool_decide (podKey ns (WorkloadOf pod) ∈ want)) then next w
          else
            let '(body, w) := get ("http://" +:+ ip +:+ ":8080/q/metrics") w in
            match body with
            | None => next w
            | Some body => match parsePrometheus now body ns pod with
                           | [] => next w
                           | metrics => next (offer metrics w)
                           end
            end
      end
  end.

Definition tick (now : Z) (w : W) : W :=
  let '(entries, w) := fetchList w in
  match entries with
  | None | Some [] => w
  | Some entries =>
      let want := wanted entries in
      if bool_decide (want = ∅) then w
      else
        let '(items, w) := kubelet_pods w in
        match items with
        | None => w
        | Some items => scrape_pods now want (enum (localPodIPs items)) w
        end
  end.
End tick.
End prom.
End Prom.

(** * What the reader of the text format promises

    A line that is written with labels in valid UTF-8 is read back. *)

Module PromProps.
Import Prom.

Definition chars (s : string) : list Ascii.ascii := String.list_ascii_of_string s.
Definition graphic (c : Ascii.ascii) : Prop := 33 <= byte_of c <= 126.

Lemma chars_app s t : chars (s +:+ t) = chars s ++ chars t.
Proof. unfold chars. induction s as [|c s IH]; [done|]. rewrite str_app_cons. cbn. by rewrite IH. Qed.

Lemma str_rev_involutive s : str_rev (str_rev s) = s.
Proof.
  unfold str_rev. rewrite String.list_ascii_of_string_of_list_ascii, reverse_involutive.
  apply String.string_of_list_ascii_of_string.
Qed.
Lemma str_rev_cons c s : str_rev (String c s) = str_rev s +:+ String c "".
Proof.
  unfold str_rev. change (String.list_ascii_of_string (String c s)) with (c :: String.list_ascii_of_string s).
  rewrite reverse_cons. generalize (reverse (String.list_ascii_of_string s)). intros l.
  induction l as [|d l IH]; [done|]. cbn. by rewrite IH.
Qed.

(** *** White space *)

Definition not_graphic_first (e : string) : bool :=
  match e with String c _ => (byte_of c <? 33) || (126 <? byte_of c) | "" => false end.

Lemma space_len_graphic encs c s :
  forallb not_graphic_first encs = true -> graphic c -> space_len encs (String c s) = O.
Proof.
  intros He Hc. induction encs as [|e encs IH]; [done|]. cbn in He. apply andb_prop in He as [He Hl].
  cbn [space_len]. destruct e as [|x e]; [done|]. cbn in He. unfold graphic in Hc. cbn [String.prefix].
  destruct (Ascii.ascii_dec x c) as [->|]; [|by apply IH]. exfalso. lia.
Qed.

Lemma trim_left_with_graphic encs fuel c s :
  forallb not_graphic_first encs = true -> graphic c -> trim_left_with encs fuel (String c s) = String c s.
Proof. intros He Hc. destruct fuel; [done|]. cbn [trim_left_with]. by rewrite (space_len_graphic encs c s He Hc). Qed.

Lemma encodings_first : forallb not_graphic_first space_encodings = true.
Proof. by vm_compute. Qed.
Lemma encodings_last : forallb not_graphic_first (str_rev <$> space_encodings) = true.
Proof. by vm_compute. Qed.

(** A text that begins and ends with a graphic character has no space around it. *)
Definition trimmed (s : string) : Prop :=
  exists c r d t, s = String c r /\ graphic c /\ s = t +:+ String d "" /\ graphic d.

Lemma trim_space_trimmed s : trimmed s -> trim_space s = s.
Proof.
  intros (c & r & d & t & E & Hc & E' & Hd).
  assert (Hl : forall n, trim_left_with space_encodings n s = s).
  { intros n. rewrite E. apply trim_left_with_graphic; [apply encodings_first|done]. }
  assert (Hrev : exists u, str_rev s = String d u).
  { rewrite E'. clear. induction t as [|x t [u IH]]; [by exists ""|]. rewrite str_app_cons, str_rev_cons, IH. by eexists. }
  destruct Hrev as [u Hu].
  assert (Hr : forall n, trim_left_with (str_rev <$> space_encodings) n (str_rev s) = str_rev s).
  { intros n. rewrite Hu. apply trim_left_with_graphic; [apply encodings_last|done]. }
  unfold trim_space, trim_left_space, trim_right_space. rewrite Hl, Hr. apply str_rev_involutive.
Qed.

Lemma graphic_trimmed s : s <> "" -> Forall graphic (chars s) -> trimmed s.
Proof.
  intros Hne H. destruct s as [|c r]; [done|]. unfold trimmed. exists c, r.
  assert (exists t d, String c r = t +:+ String d "" /\ graphic d) as (t & d & E & Hd).
  { clear Hne. revert c H. induction r as [|x r IH]; intros c H; cbn in H; apply Forall_cons in H as [Hc H].
    - by exists "", c.
    - destruct (IH x H) as (t & d & -> & Hd). by exists (String c t), d. }
  exists d, t. apply Forall_cons in H as [Hc _]. by split_and!.
Qed.

Lemma trimmed_app s t : trimmed s -> trimmed t -> forall m, trimmed (s +:+ m +:+ t).
Proof.
  intros (c & r & _ & _ & -> & Hc & _ & _) (_ & _ & d & u & _ & _ & -> & Hd) m.
  exists c, (r +:+ m +:+ u +:+ String d ""), d, (String c r +:+ m +:+ u).
  split; [by rewrite !str_app_cons|]. split; [done|]. split; [|done]. by rewrite !str_app_assoc.
Qed.

Lemma fields_go_graphic fuel acc s :
  (String.length s <= fuel)%nat -> Forall graphic (chars s) -> acc +:+ s <> "" ->
  fields_go fuel acc s = [str_rev acc +:+ s].
Proof.
  revert acc s. induction fuel as [|fuel IH]; intros acc s Hf Hg Hne; (destruct s as [|c s]; [|cbn in Hf; try lia]).
  - rewrite str_app_nil_r in *. cbn. by destruct acc.
  - rewrite str_app_nil_r in *. cbn. by destruct acc.
  - apply Forall_cons in Hg as [Hc Hg]. cbn [fields_go]. rewrite (space_len_graphic _ c s encodings_first Hc).
    rewrite IH; [|lia|done|by rewrite str_app_cons]. by rewrite str_rev_cons, str_app_assoc.
Qed.

Lemma space_len_blank s : space_len space_encodings (String (chr 32) s) = 1%nat.
Proof. let e := eval vm_compute in space_encodings in change space_encodings with e. by destruct s. Qed.

Lemma fields_one s : s <> "" -> Forall graphic (chars s) -> fields (String (chr 32) s) = [s].
Proof.
  intros Hne Hg. unfold fields. cbn [String.length]. cbn [fields_go].
  rewrite space_len_blank. change (fields_go (S (String.length s)) "" s = [s]).
  rewrite fields_go_graphic by (done || lia). done.
Qed.

(** *** Cuts *)

Lemma first_cut_app sep a b : sep ∉ chars a -> first_cut sep (a +:+ String sep b) = Some (a, b).
Proof.
  unfold chars. induction a as [|c a IH]; intros H.
  - rewrite str_app_nil_l. cbn. by rewrite Ascii.eqb_refl.
  - cbn in H. apply not_elem_of_cons in H as [Hc H]. rewrite str_app_cons. cbn [first_cut].
    destruct (Ascii.eqb_spec c sep) as [->|_]; [done|]. by rewrite IH.
Qed.
Lemma last_cut_none sep b : sep ∉ chars b -> last_cut sep b = None.
Proof.
  unfold chars. induction b as [|c b IH]; intros H; [done|]. cbn in H. apply not_elem_of_cons in H as [Hc H]. cbn [last_cut].
  rewrite IH by done. by destruct (Ascii.eqb_spec c sep) as [->|_].
Qed.
Lemma last_cut_app sep a b : sep ∉ chars b -> last_cut sep (a +:+ String sep b) = Some (a, b).
Proof.
  intros H. induction a as [|c a IH].
  - rewrite str_app_nil_l. cbn [last_cut]. by rewrite (last_cut_none sep b H), Ascii.eqb_refl.
  - rewrite str_app_cons. cbn [last_cut]. by rewrite IH.
Qed.

(** ** Writing a line *)

Fixpoint escape (v : string) : string :=
  match v with
  | "" => ""
  | String c v =>
      if Ascii.eqb c quote_mark || Ascii.eqb c backslash then String backslash (String c (escape v))
      else if byte_of c =? 10 then String backslash (String (chr 110) (escape v))
      else String c (escape v)
  end.
Definition quoted (v : string) : string := String quote_mark (escape v +:+ String quote_mark "").
Definition pair_text (l : string * string) : string := l.1 +:+ String equals (quoted l.2).
Definition render (name : string) (labels : list (string * string)) (value : string) : string :=
  name +:+ String open_brace (join "," (pair_text <$> labels) +:+ String close_brace (String (chr 32) value)).

Definition without (l : list Ascii.ascii) (s : string) : Prop := Forall (fun c => graphic c /\ c ∉ l) (chars s).

#[local] Instance without_dec l s : Decision (without l s).
Proof. unfold without, graphic. apply _. Defined.

Lemma without_graphic l s : without l s -> Forall graphic (chars s).
Proof. unfold without. intros H. eapply Forall_impl; [exact H|]. by intros c [Hc _]. Qed.
Lemma without_not l s c : without l s -> c ∈ l -> c ∉ chars s.
Proof. unfold without. rewrite Forall_forall. intros H Hc Hin. by apply (H c). Qed.

(** *** Unquoting *)

Import Strconv.

Lemma rune_width_ascii l b : b < 128 -> rune_width (b :: l) = 1%nat.
Proof.
  intros Hb. unfold rune_width. destruct l as [|b1 [|b2 [|b3 l]]]; [done|..];
    replace (194 <=? b) with false by lia; replace (224 <=? b) with false by lia;
    replace (240 <=? b) with false by lia; done.
Qed.

(** A rune of several bytes is the same whatever follows it, and has no ASCII byte. *)
Lemma rune_multi c s :
  (1 < rune_width (bytes_of (String c s)))%nat ->
  exists a b, String c s = a +:+ b /\ String.length a = rune_width (bytes_of (String c s)) /\
    Forall (fun x => 128 <= byte_of x) (chars a) /\ forall t, rune_width (bytes_of (a +:+ t)) = String.length a.
Proof.
  assert (forall (a b : string), (forall t, rune_width (bytes_of (a +:+ t)) = String.length a) ->
    Forall (fun x => 128 <= byte_of x) (chars a) ->
    exists a' b', a +:+ b = a' +:+ b' /\ String.length a' = rune_width (bytes_of (a +:+ b)) /\
      Forall (fun x => 128 <= byte_of x) (chars a') /\ forall t, rune_width (bytes_of (a' +:+ t)) = String.length a') as Hok.
  { intros a b Ha Hf. exists a, b. by rewrite Ha. }
  assert (forall c0 c1, (194 <=? byte_of c0) && (byte_of c0 <=? 223) && cont (byte_of c1) = true ->
    forall t, rune_width (bytes_of (String c0 (String c1 t))) = 2%nat) as H2.
  { intros c0 c1 E t. unfold bytes_of. cbn. destruct (String.list_ascii_of_string t) as [|c2 [|c3 l]]; cbn; by rewrite E. }
  assert (forall c0 c1 c2, (224 <=? byte_of c0) && (byte_of c0 <=? 239) && cont (byte_of c1) && cont (byte_of c2) &&
      (negb (byte_of c0 =? 224) || (160 <=? byte_of c1)) && (negb (byte_of c0 =? 237) || (byte_of c1 <=? 159)) = true ->
    forall t, rune_width (bytes_of (String c0 (String c1 (String c2 t)))) = 3%nat) as H3.
  { intros c0 c1 c2 E t. assert ((194 <=? byte_of c0) && (byte_of c0 <=? 223) && cont (byte_of c1) = false) as E' by lia.
    unfold bytes_of. cbn. destruct (String.list_ascii_of_string t) as [|c3 l]; cbn; by rewrite E', E. }
  assert (forall c0 c1 c2 c3, (240 <=? byte_of c0) && (byte_of c0 <=? 244) && cont (byte_of c1) && cont (byte_of c2) &&
      cont (byte_of c3) && (negb (byte_of c0 =? 240) || (144 <=? byte_of c1)) &&
      (negb (byte_of c0 =? 244) || (byte_of c1 <=? 143)) = true ->
    forall t, rune_width (bytes_of (String c0 (String c1 (String c2 (String c3 t))))) = 4%nat) as H4.
  { intros c0 c1 c2 c3 E t. assert ((194 <=? byte_of c0) && (byte_of c0 <=? 223) && cont (byte_of c1) = false) as E' by lia.
    assert (forall x y, (224 <=? byte_of c0) && (byte_of c0 <=? 239) && cont (byte_of c1) && cont (byte_of c2) && x && y = false)
      as E'' by (intros x y; replace (byte_of c0 <=? 239) with false by lia; by rewrite andb_false_r).
    unfold bytes_of. cbn. by rewrite E', E'', E. }
  unfold cont in *. intros Hw.
  destruct s as [|c1 [|c2 [|c3 s]]]; unfold bytes_of in Hw; cbn in Hw; [lia|..].
  all: repeat match type of Hw with context [if ?b then _ else _] => destruct b eqn:? end; try lia.
  all: unfold cont in *.
  all: first
    [ apply (Hok (String c (String c1 (String c2 (String c3 "")))) s); [by apply H4|unfold chars; cbn]
    | apply (Hok (String c (String c1 (String c2 ""))) _); [by apply H3|unfold chars; cbn]
    | apply (Hok (String c (String c1 "")) _); [by apply H2|unfold chars; cbn] ].
  all: repeat (apply Forall_cons; split); try apply Forall_nil; try done; lia.
Qed.

Lemma escape_app_high a b : Forall (fun x => 128 <= byte_of x) (chars a) -> escape (a +:+ b) = a +:+ escape b.
Proof.
  unfold chars. induction a as [|c a IH]; intros H; [done|]. cbn in H. apply Forall_cons in H as [Hc H].
  rewrite str_app_cons. cbn [escape].
  destruct (Ascii.eqb_spec c quote_mark) as [->|_]; [by vm_compute in Hc; destruct Hc|].
  destruct (Ascii.eqb_spec c backslash) as [->|_]; [by vm_compute in Hc; destruct Hc|]. cbn [orb].
  replace (byte_of c =? 10) with false by lia. by rewrite (IH H).
Qed.

Lemma unquote_escape fuel v rest n :
  valid_string n v = true -> (String.length v <= n)%nat -> (String.length (escape v) < fuel)%nat ->
  unquote_chars fuel quote_mark (escape v +:+ String quote_mark rest) = Some (v, rest).
Proof.
  revert fuel v. induction n as [|n IH]; intros fuel v Hv Hl Hf;
    (destruct fuel as [|fuel]; [lia|]); (destruct v as [|c v]; [done|]).
  { cbn in Hl. lia. }
  cbn [valid_string] in Hv. apply andb_prop in Hv as [Hc Hv].
  destruct (Z.ltb_spec (byte_of c) 128) as [Hlow|Hhigh].
  - change (bytes_of (String c v)) with (byte_of c :: bytes_of v) in Hv.
    rewrite rune_width_ascii in Hv by done. cbn [str_drop] in Hv. cbn in Hl.
    cbn [escape] in *. destruct (Ascii.eqb c quote_mark || Ascii.eqb c backslash) eqn:E.
    + rewrite !str_app_cons. cbn [unquote_chars]. change (Ascii.eqb backslash quote_mark) with false.
      change (Ascii.eqb backslash newline) with false.
      assert (UnquoteChar quote_mark (String backslash (String c (escape v +:+ String quote_mark rest))) =
        Some (String c "", escape v +:+ String quote_mark rest)) as ->.
      { apply orb_true_iff in E as [->%Ascii.eqb_eq | ->%Ascii.eqb_eq]; reflexivity. }
      cbn [mbind option_bind]. cbn in Hf. by rewrite (IH fuel v Hv) by lia.
    + apply orb_false_iff in E as [Eq Eb]. destruct (byte_of c =? 10) eqn:En.
      * rewrite !str_app_cons. cbn [unquote_chars]. change (Ascii.eqb backslash quote_mark) with false.
        change (Ascii.eqb backslash newline) with false.
        assert (UnquoteChar quote_mark (String backslash (String (chr 110) (escape v +:+ String quote_mark rest))) =
          Some (str1 10, escape v +:+ String quote_mark rest)) as -> by reflexivity.
        cbn [mbind option_bind]. cbn in Hf. rewrite (IH fuel v Hv) by lia. cbn [mbind option_bind].
        apply Z.eqb_eq in En. assert (c = chr 10) as -> by (rewrite <- En; by rewrite chr_byte_of). done.
      * rewrite str_app_cons. cbn [unquote_chars]. rewrite Eq.
        destruct (Ascii.eqb_spec c newline) as [->|_]; [done|]. unfold UnquoteChar. rewrite Eq, Eb.
        replace (128 <=? byte_of c) with false by lia. cbn [negb mbind option_bind]. cbn in Hf.
        by rewrite (IH fuel v Hv) by lia.
  - cbn [orb] in Hc. apply Nat.ltb_lt in Hc. destruct (rune_multi c v Hc) as (a & b & E & Ea & Hhi & Hw).
    rewrite <- Ea in Hv, Hc. rewrite E in *. rewrite str_drop_app in Hv. rewrite escape_app_high in * by done.
    rewrite str_app_assoc. rewrite str_length_app in Hl, Hf. destruct a as [|c0 a]; [cbn in Hc; lia|].
    rewrite str_app_cons in E. injection E as <- _. cbn [unquote_chars]. rewrite str_app_cons.
    destruct (Ascii.eqb_spec c quote_mark) as [->|Hq]; [by vm_compute in Hhigh; destruct Hhigh|].
    destruct (Ascii.eqb_spec c newline) as [->|_]; [by vm_compute in Hhigh; destruct Hhigh|].
    unfold UnquoteChar. rewrite (proj2 (Ascii.eqb_neq c quote_mark) Hq).
    replace (128 <=? byte_of c) with true by lia. rewrite <- (str_app_cons c a), Hw.
    destruct (String.length (String c a)) as [|[|m]] eqn:Em; [cbn in Em; lia|cbn in Em; lia|].
    rewrite <- Em, str_take_app, str_drop_app. cbn [mbind option_bind].
    rewrite (IH fuel b Hv) by (cbn in Em; lia). done.
Qed.

(** A value in valid UTF-8 is read back from its literal. *)
Lemma Unquote_quoted v : ValidString v = true -> Unquote (quoted v) = Some v.
Proof.
  intros Hv. unfold Unquote, quoted. change (Ascii.eqb quote_mark back_quote) with false. rewrite Ascii.eqb_refl.
  rewrite (unquote_escape _ v "" (String.length v)); [done|done|lia|].
  rewrite str_length_app. cbn. lia.
Qed.

(** *** Pairs *)

Lemma split_key k rest acc :
  without [quote_mark; comma; equals] k -> split_pairs (k +:+ rest) false acc = split_pairs rest false (acc +:+ k).
Proof.
  unfold without, chars. revert acc. induction k as [|c k IH]; intros acc H; [by rewrite str_app_nil_r|].
  cbn in H. apply Forall_cons in H as [[_ Hc] H]. rewrite !not_elem_of_cons in Hc. destruct Hc as (Hq & Hcm & _).
  rewrite str_app_cons. cbn [split_pairs]. rewrite andb_false_r.
  destruct (Ascii.eqb_spec c quote_mark); [done|]. destruct (Ascii.eqb_spec c comma); [done|]. cbn [andb].
  rewrite IH by done. by rewrite str_app_assoc.
Qed.

Lemma split_escaped v rest acc : split_pairs (escape v +:+ rest) true acc = split_pairs rest true (acc +:+ escape v).
Proof.
  revert acc. induction v as [|c v IH]; intros acc; cbn [escape]; [by rewrite str_app_nil_r|].
  destruct (Ascii.eqb c quote_mark || Ascii.eqb c backslash) eqn:E; [|destruct (byte_of c =? 10)].
  - rewrite !str_app_cons. cbn [split_pairs]. rewrite Ascii.eqb_refl. cbn [andb]. rewrite IH. by rewrite str_app_assoc.
  - rewrite !str_app_cons. cbn [split_pairs]. rewrite Ascii.eqb_refl. cbn [andb]. rewrite IH. by rewrite str_app_assoc.
  - apply orb_false_iff in E as [Eq Eb]. rewrite str_app_cons. cbn [split_pairs]. rewrite Eb, Eq. cbn [andb negb].
    rewrite andb_false_r, IH. by rewrite str_app_assoc.
Qed.

Lemma split_pair l rest :
  without [quote_mark; comma; equals] l.1 ->
  forall acc, split_pairs (pair_text l +:+ rest) false acc = split_pairs rest false (acc +:+ pair_text l).
Proof.
  intros Hk acc. unfold pair_text. rewrite str_app_assoc, split_key by done. rewrite str_app_cons. cbn [split_pairs].
  change (Ascii.eqb equals backslash) with false. change (Ascii.eqb equals quote_mark) with false.
  change (Ascii.eqb equals comma) with false. cbn [andb]. unfold quoted. rewrite str_app_cons. cbn [split_pairs].
  change (Ascii.eqb quote_mark backslash) with false. rewrite Ascii.eqb_refl. cbn [andb negb].
  rewrite str_app_assoc, split_escaped, str_app_cons. cbn [split_pairs].
  change (Ascii.eqb quote_mark backslash) with false. rewrite Ascii.eqb_refl. cbn [andb negb]. rewrite str_app_nil_l.
  f_equal. by rewrite !str_app_assoc, !str_app_cons, ?str_app_nil_l.
Qed.

Lemma pair_text_some l : pair_text l <> "".
Proof. unfold pair_text. destruct l.1; [done|]. by rewrite str_app_cons. Qed.

Lemma split_join labels :
  Forall (fun l => without [quote_mark; comma; equals] l.1) labels ->
  splitLabelPairs (join "," (pair_text <$> labels)) = pair_text <$> labels.
Proof.
  unfold splitLabelPairs. induction labels as [|l labels IH]; intros H; [done|]. apply Forall_cons in H as [Hl H].
  destruct labels as [|l' labels].
  - cbn [fmap list_fmap join]. rewrite <- (str_app_nil_r (pair_text l)) at 1. rewrite split_pair by done. cbn [split_pairs].
    rewrite str_app_nil_l. destruct (String.eqb_spec (pair_text l) "") as [E|_]; [by destruct (pair_text_some l)|done].
  - change (join "," (pair_text <$> l :: l' :: labels)) with (pair_text l +:+ "," +:+ join "," (pair_text <$> l' :: labels)).
    rewrite split_pair by done. change ("," +:+ ?s) with (String comma s). cbn [split_pairs].
    change (Ascii.eqb comma backslash) with false. change (Ascii.eqb comma quote_mark) with false. rewrite Ascii.eqb_refl.
    cbn [andb negb]. rewrite IH by done. by rewrite str_app_nil_l.
Qed.

(** ** Round trip *)

Section roundtrip.
Variable ParseFloat : string -> option f64.

Lemma quoted_trimmed v : trimmed (quoted v).
Proof.
  unfold quoted. exists quote_mark, (escape v +:+ String quote_mark ""), quote_mark, (String quote_mark (escape v)).
  unfold graphic. split_and!; try done; by vm_compute.
Qed.

Lemma parse_pairs_render labels m :
  Forall (fun l => without [quote_mark; comma; equals] l.1 /\ l.1 <> "" /\ ValidString l.2 = true) labels ->
  NoDup labels.*1 ->
  parse_pairs Unquote (pair_text <$> labels) m = Some (list_to_map labels ∪ m).
Proof.
  intros H. revert m. induction H as [|[k v] labels (Hk & Hne & Hu) H IH]; intros m Hnd.
  { cbn. f_equal. by rewrite (left_id_L ∅ (∪)). }
  rewrite fmap_cons in Hnd. apply NoDup_cons in Hnd as [Hin Hnd]. cbn [fst snd] in *. cbn [fmap list_fmap parse_pairs].
  unfold pair_text at 1. cbn [fst snd].
  rewrite first_cut_app by (eapply without_not; [exact Hk|]; do 2 right; left).
  rewrite (trim_space_trimmed (quoted v) (quoted_trimmed v)), (Unquote_quoted v Hu). cbn [mbind option_bind].
  rewrite (trim_space_trimmed k) by (apply graphic_trimmed; [done|by eapply without_graphic]).
  destruct (String.eqb_spec k "") as [|_]; [done|]. rewrite IH by done. f_equal. cbn [list_to_map foldr fst snd].
  fold (list_to_map (M := gmap string string) labels).
  rewrite <- (insert_union_r (M := gmap string)) by by apply not_elem_of_list_to_map_1.
  by rewrite <- (insert_union_l (M := gmap string)).
Qed.

(** C27: a sample is read back from its line, with strconv.Unquote as it is: whatever the
    label values hold (commas, braces, blanks, quotes, backslashes, line feeds), provided
    they are valid UTF-8; the name of the sample, the keys and the text of the value are of
    visible ASCII characters without those that end them, and the keys differ. *)
Theorem line_roundtrip name labels value v :
  name <> "" -> without [open_brace; chr 35] name ->
  Forall (fun l => without [quote_mark; comma; equals] l.1 /\ l.1 <> "" /\ ValidString l.2 = true) labels ->
  NoDup labels.*1 ->
  value <> "" -> without [close_brace] value -> ParseFloat value = Some v ->
  ParseLine ParseFloat Unquote (render name labels value) = Some (name, list_to_map labels, v).
Proof.
  intros Hn Hname Hl Hnd Hv Hvalue Hp. unfold ParseLine.
  assert (Htrim : trimmed (render name labels value)).
  { unfold render. set (body := join _ _).
    change (String open_brace (body +:+ String close_brace (String (chr 32) value)))
      with (String open_brace body +:+ (String close_brace (String (chr 32) "") +:+ value)).
    rewrite <- (str_app_assoc (String open_brace body)).
    apply trimmed_app; (apply graphic_trimmed; [done|]; by eapply without_graphic). }
  rewrite (trim_space_trimmed _ Htrim).
  assert (Hhead : String.eqb (render name labels value) "" || has_prefix "#" (render name labels value) = false).
  { unfold render. destruct name as [|c name]; [done|]. rewrite str_app_cons. cbn [String.eqb orb].
    unfold without, chars in Hname. cbn in Hname. apply Forall_cons in Hname as [[_ Hc] _]. unfold has_prefix. cbn [String.prefix].
    destruct (Ascii.ascii_dec _ c) as [E|]; [|done]. exfalso. apply Hc. rewrite <- E. right. left. }
  rewrite Hhead. unfold split_value.
  assert (Hcut : last_cut close_brace (render name labels value)
    = Some (name +:+ String open_brace (join "," (pair_text <$> labels)), String (chr 32) value)).
  { unfold render. change (String open_brace (?b +:+ ?r)) with (String open_brace b +:+ r). rewrite <- str_app_assoc.
    apply last_cut_app. unfold chars. cbn [String.list_ascii_of_string]. apply not_elem_of_cons. split; [done|].
    eapply without_not; [exact Hvalue|left]. }
  rewrite Hcut. cbn [mbind option_bind fst snd]. rewrite fields_one by (done || by eapply without_graphic).
  rewrite Hp. cbn [mbind option_bind]. rewrite str_app_assoc, str_app_cons.
  rewrite first_cut_app by (eapply without_not; [exact Hname|left]).
  rewrite last_cut_app by (unfold chars; cbn; apply not_elem_of_nil). cbn [mbind option_bind fst snd].
  rewrite split_join by (eapply Forall_impl; [exact Hl|]; by intros l (H & _)).
  rewrite parse_pairs_render by done. cbn [mbind option_bind].
  rewrite (right_id_L ∅ (∪)).
  by rewrite (trim_space_trimmed name) by (apply graphic_trimmed; [done|by eapply without_graphic]).
Qed.
End roundtrip.

(** ** Examples *)

Definition toy_float (s : string) : option f64 := if String.eqb s "5" then Some f64_one else if String.eqb s "0.67" then Some f64_zero else None.
Definition awkward : string := "a,b} \" +:+ str1 34 +:+ str1 10 +:+ of_bytes [195; 169].

Lemma line_roundtrip_witness :
  ParseLine toy_float Unquote (render "http_requests_total" [("path", awkward); ("code", "200")] "5")
  = Some ("http_requests_total", list_to_map [("path", awkward); ("code", "200")], f64_one).
Proof.
  apply (line_roundtrip toy_float); [done| | | |done| |done].
  - apply (bool_decide_unpack _). by vm_compute.
  - repeat constructor; cbn [fst snd]; try done; apply (bool_decide_unpack _); by vm_compute.
  - apply (bool_decide_unpack _). by vm_compute.
  - apply (bool_decide_unpack _). by vm_compute.
Defined.

(** A value that is not UTF-8 comes back with the replacement character in it. *)
Example invalid_value_replaced : Unquote (quoted (of_bytes [97; 255])) = Some (of_bytes [97; 239; 191; 189]).
Proof. by vm_compute. Qed.

(** The escapes of Go that the text format does not have are read too. *)
Example go_escapes_read :
  Unquote (String quote_mark "\x41\u00e9\101" +:+ String quote_mark "") = Some (of_bytes [65; 195; 169; 65]) /\
  Unquote (String quote_mark "\q" +:+ String quote_mark "") = None.
Proof. by vm_compute. Qed.

(** A line with an exemplar gives a sample that is none: the name takes the value with it, and
    the value is that of the exemplar. *)
Example exemplar_is_read :
  (fun r => (r.1.1, r.2)) <$> ParseLine toy_float Unquote ("requests_total 5 # {trace_id=" +:+ quoted "x" +:+ "} 0.67")
  = Some ("requests_total 5 #", f64_zero).
Proof. by vm_compute. Qed.
End PromProps.
