(* ===== verification/Kubelet.v ===== *)
(** * The check of a Kubernetes node (internal/checks: k8s_kubelet.go, k8s_kubelet_operational.go,
    k8s_cgroup_memory.go, k8s_runtime_images.go)

    A run reads the summary of the kubelet, the metrics of cAdvisor and of the kubelet itself in
    the text format, the counters of the containers' cgroups and the images of the container
    runtime.  The CPU of a container is the difference of its counter to the last run.

    Requests, files, the decoding of JSON, the reading and writing of numbers, quoted strings,
    the path of a URL, the parsing of certificates and the order of maps are arguments. *)

From S2P Require Import Prelude GoStrings GoFloat Wire Prom.
#[local] Open Scope Z_scope.

Module Kubelet.

(** ** The summary *)

Record cpu_stats := mk_cpu { UsageNanoCores : option Z; UsageCoreNanoSeconds : option Z }.
Record memory_stats := mk_memory { WorkingSetBytes : option Z; RSSBytes : option Z; UsageBytes : option Z }.
Record network_stats := mk_network { network_Name : string; RxBytes : option Z; TxBytes : option Z }.
Record kubeletFsStats := mk_fs {
  UsedBytes : option Z;
  CapacityBytes : option Z;
  InodesUsed : option Z;
  AvailableBytes : option Z;
  Inodes : option Z;
  InodesFree : option Z;
}.
Record kubeletVolumeStats := mk_volume { volume_Name : string; volume_fs : kubeletFsStats; PVCRef : option string }.
Record container_stats := mk_container_stats {
  ct_Name : string;
  StartTime : string;
  ct_CPU : cpu_stats;
  ct_Memory : memory_stats;
  Rootfs : option kubeletFsStats;
  Logs : option kubeletFsStats;
}.
Record kubeletPodSummary := mk_pod {
  pod_Name : string;
  pod_Namespace : string;
  UID : string;
  pod_CPU : cpu_stats;
  pod_Memory : memory_stats;
  Network : option network_stats;
  Containers : list container_stats;
  Volume : list kubeletVolumeStats;
  EphemeralStorage : option kubeletFsStats;
}.
Record system_container := mk_system { system_Name : string; system_CPU : cpu_stats; system_Memory : memory_stats }.
Record node_stats := mk_node {
  NodeName : string;
  node_CPU : cpu_stats;
  node_Memory : memory_stats;
  node_Network : network_stats;
  Fs : kubeletFsStats;
  ImageFs : option kubeletFsStats;      (* of [Runtime], where both are there *)
  SystemContainers : list system_container;
}.
Record kubeletSummary := mk_summary { Node : node_stats; Pods : list kubeletPodSummary }.

(** ** The check *)

Record kubeletCPUSample := mk_sample { value : Z; time : Z }.
Definition no_sample : kubeletCPUSample := mk_sample 0 zero_time.

Definition kubeletContainerCPURate (previous current : kubeletCPUSample) : option f64 :=
  let elapsed := seconds (time_sub (time current) (time previous)) in
  if is_zero_time (time previous) || fle elapsed f64_zero || (value current <? value previous) then None
  else Some (fdiv (f_of_Z (value current - value previous)) elapsed).

Record fetcher := mk_fetcher { url : string; token : string; insecure : bool }.
Record k8sKubeletCheck := mk_check {
  containerCPU : gmap string kubeletCPUSample;
  cgroupRoot : string;
  id : string;
  hostID : string;
  interval : Z;
  staticTags : tagmap;
  http : fetcher;
}.
Definition set_containerCPU (m : gmap string kubeletCPUSample) (c : k8sKubeletCheck) : k8sKubeletCheck :=
  mk_check m (cgroupRoot c) (id c) (hostID c) (interval c) (staticTags c) (http c).

Definition defaultKubeletInterval : Z := 15 * second.
Definition defaultKubeletURL : string := "https://localhost:10250".
Definition defaultTokenFile : string := "/var/run/secrets/kubernetes.io/serviceaccount/token".
Definition defaultCAFile : string := "/var/run/secrets/kubernetes.io/serviceaccount/ca.crt".

Section files.
Variable ReadFile : string -> option string.
Variable AppendCertsFromPEM : string -> bool.

Definition newHTTPKubeletFetcher (url tokenFile caFile : string) (insecure : bool) : fetcher :=
  let verified := match ReadFile caFile with Some ca => AppendCertsFromPEM ca | None => false end in
  mk_fetcher (trim_right_slashes url +:+ "/stats/summary")
    (if String.eqb tokenFile "" then "" else match ReadFile tokenFile with Some b => trim_space b | None => "" end)
    (if negb (String.eqb caFile "") && negb insecure then negb verified else insecure).

Definition or_default (a b : string) : string := if String.eqb a "" then b else a.
Definition newK8sKubeletCheck (cfg : CheckConfig) : k8sKubeletCheck :=
  let param k := trim_space (tag k (Wire.Params cfg)) in
  mk_check ∅ "" (or_default (CheckId cfg) ("k8s.kubelet-" +:+ CheckHostId cfg)) (CheckHostId cfg)
    (if Interval cfg <=? 0 then defaultKubeletInterval else Interval cfg) (StaticTags cfg)
    (newHTTPKubeletFetcher (or_default (param "kubelet_url") defaultKubeletURL)
       (or_default (param "token_file") defaultTokenFile) (or_default (param "ca_file") defaultCAFile)
       (String.eqb (tag "insecure_skip_verify" (Wire.Params cfg)) "true")).
End files.

(** *** Metrics *)

Definition metric (c : k8sKubeletCheck) (t : Z) (name : string) (val : f64) (extraTags : tagmap) : Metric :=
  mk_metric (Some t) (hostID c) name val "" "" (extraTags ∪ staticTags c) "k8s.kubelet".
Definition set_source (s : string) (m : Metric) : Metric :=
  mk_metric (Metric_Time m) (HostId m) (MetricName m) (Value m) (InterfaceName m) (PeerId m) (Tags m) s.

(** The metric of a number, where it is there. *)
Definition counted (c : k8sKubeletCheck) (t : Z) (tags : tagmap) (name : string) (p : option Z) : list Metric :=
  match p with Some z => [metric c t name (f_of_Z z) tags] | None => [] end.

Definition fs_usage (c : k8sKubeletCheck) (t : Z) (tags : tagmap) (name : string) (used capacity : option Z) : list Metric :=
  match used, capacity with
  | Some used, Some capacity =>
      if 0 <? capacity then [metric c t name (fdiv (f_of_Z used) (f_of_Z capacity)) tags] else []
  | _, _ => []
  end.

Definition node_metrics (c : k8sKubeletCheck) (t : Z) (n : node_stats) : list Metric :=
  let tags : tagmap := {[ "node" := NodeName n ]} in
  let add := counted c t tags in
  add "k8s.node.cpu_usage_nanocores" (UsageNanoCores (node_CPU n))
  ++ add "k8s.node.memory_working_set_bytes" (WorkingSetBytes (node_Memory n))
  ++ add "k8s.node.network_rx_bytes" (RxBytes (node_Network n))
  ++ add "k8s.node.network_tx_bytes" (TxBytes (node_Network n))
  ++ add "k8s.node.fs_used_bytes" (UsedBytes (Fs n))
  ++ add "k8s.node.fs_capacity_bytes" (CapacityBytes (Fs n))
  ++ fs_usage c t tags "k8s.node.fs_usage_fraction" (UsedBytes (Fs n)) (CapacityBytes (Fs n))
  ++ match ImageFs n with
     | Some fs =>
         add "k8s.node.image_fs_used_bytes" (UsedBytes fs) ++ add "k8s.node.image_fs_capacity_bytes" (CapacityBytes fs)
         ++ fs_usage c t tags "k8s.node.image_fs_usage_fraction" (UsedBytes fs) (CapacityBytes fs)
     | None => []
     end
  ++ (SystemContainers n ≫= fun s =>
        if negb (String.eqb (system_Name s) "kubelet") && negb (String.eqb (system_Name s) "runtime") then []
        else
          let prefix := "k8s." +:+ system_Name s in
          add (prefix +:+ ".cpu_usage_nanocores") (UsageNanoCores (system_CPU s))
          ++ add (prefix +:+ ".memory_rss_bytes") (RSSBytes (system_Memory s))
          ++ add (prefix +:+ ".memory_usage_bytes") (UsageBytes (system_Memory s))).

Definition pod_tags (node : string) (p : kubeletPodSummary) : tagmap :=
  list_to_map [("node", node); ("namespace", pod_Namespace p); ("pod", pod_Name p)].

Definition sample_key (node : string) (p : kubeletPodSummary) (ct : container_stats) : string :=
  join "|" [node; pod_Namespace p; pod_Name p; UID p; ct_Name ct; StartTime ct].

(** The CPU of a container, with the samples for the next run. *)
Definition container_cpu (c : k8sKubeletCheck) (t observed : Z) (key : string) (tags : tagmap) (cpu : cpu_stats)
    (next : gmap string kubeletCPUSample) : list Metric * gmap string kubeletCPUSample :=
  match UsageCoreNanoSeconds cpu with
  | Some v =>
      let current := mk_sample v observed in
      (match kubeletContainerCPURate (default no_sample (containerCPU c !! key)) current with
       | Some rate => [metric c t "k8s.container.cpu_usage_nanocores" rate tags]
       | None => []
       end, <[key := current]> next)
  | None => (counted c t tags "k8s.container.cpu_usage_nanocores" (UsageNanoCores cpu), next)
  end.

Definition container_metrics (c : k8sKubeletCheck) (t observed : Z) (node : string) (p : kubeletPodSummary)
    (st : list Metric * gmap string kubeletCPUSample) (ct : container_stats)
    : list Metric * gmap string kubeletCPUSample :=
  if String.eqb (ct_Name ct) "" then st
  else
    let tags := <["container" := ct_Name ct]> (pod_tags node p) in
    let add := counted c t tags in
    let '(cpu, next) := container_cpu c t observed (sample_key node p ct) tags (ct_CPU ct) st.2 in
    (st.1 ++ cpu
     ++ add "k8s.container.memory_working_set_bytes" (WorkingSetBytes (ct_Memory ct))
     ++ add "k8s.container.memory_rss_bytes" (RSSBytes (ct_Memory ct))
     ++ match Rootfs ct with
        | Some fs => add "k8s.container.rootfs_used_bytes" (UsedBytes fs) ++ add "k8s.container.rootfs_capacity_bytes" (CapacityBytes fs)
        | None => []
        end
     ++ match Logs ct with Some fs => add "k8s.container.logs_used_bytes" (UsedBytes fs) | None => [] end, next).

Section run.
Context {W : Type}.
Variable enum : forall A : Type, gmap string A -> list (string * A).
Variable ParseFloat : string -> option f64.
Variable FormatFloat : f64 -> string.   (* in the shortest form *)
Variable Unquote : string -> option string.
Variable url_path : string -> option string.   (* url.Parse and Path *)
Variable decode : string -> option kubeletSummary.   (* json.Decoder *)
Variable exists_file : string -> bool.
Variable ReadFile : string -> option string.

Definition volume_metrics (c : k8sKubeletCheck) (t : Z) (node : string) (p : kubeletPodSummary) (vol : kubeletVolumeStats)
    : list Metric :=
  if String.eqb (volume_Name vol) "" then []
  else
    let tags := <["volume" := volume_Name vol]> (pod_tags node p) in
    let tags := match PVCRef vol with
                | Some name => if String.eqb name "" then tags else <["pvc" := name]> tags
                | None => tags
                end in
    let fs := volume_fs vol in
    counted c t tags "k8s.volume.used_bytes" (UsedBytes fs)
    ++ counted c t tags "k8s.volume.capacity_bytes" (CapacityBytes fs)
    ++ counted c t tags "k8s.volume.inodes_used" (InodesUsed fs)
    ++ (enum _ (list_to_map [("available_bytes", AvailableBytes fs); ("inodes", Inodes fs); ("inodes_free", InodesFree fs)])
          ≫= fun kv => counted c t tags ("k8s.volume." +:+ kv.1) kv.2).

Definition pod_metrics (c : k8sKubeletCheck) (t observed : Z) (node : string)
    (st : list Metric * gmap string kubeletCPUSample) (p : kubeletPodSummary) : list Metric * gmap string kubeletCPUSample :=
  if String.eqb (pod_Name p) "" then st
  else
    let tags := pod_tags node p in
    let own :=
      counted c t tags "k8s.pod.cpu_usage_nanocores" (UsageNanoCores (pod_CPU p))
      ++ counted c t tags "k8s.pod.memory_working_set_bytes" (WorkingSetBytes (pod_Memory p))
      ++ match Network p with
         | Some n =>
             let tags := if String.eqb (network_Name n) "" then tags else <["interface" := network_Name n]> tags in
             counted c t tags "k8s.pod.network_rx_bytes" (RxBytes n) ++ counted c t tags "k8s.pod.network_tx_bytes" (TxBytes n)
         | None => []
         end
      ++ match EphemeralStorage p with
         | Some fs => counted c t tags "k8s.pod.ephemeral_storage_used_bytes" (UsedBytes fs)
                      ++ counted c t tags "k8s.pod.ephemeral_storage_capacity_bytes" (CapacityBytes fs)
         | None => []
         end
      ++ (Volume p ≫= volume_metrics c t node p) in
    foldl (container_metrics c t observed node p) (st.1 ++ own, st.2) (Containers p).

Definition podCount (pods : list kubeletPodSummary) : Z :=
  Z.of_nat (length (filter (fun p => pod_Name p <> "") pods)).

(** What the summary gives, and the samples that are kept. *)
Definition summary_metrics (c : k8sKubeletCheck) (t observed : Z) (sum : kubeletSummary)
    : list Metric * gmap string kubeletCPUSample :=
  let node := NodeName (Node sum) in
  let '(out, next) := foldl (pod_metrics c t observed node) (node_metrics c t (Node sum), ∅) (Pods sum) in
  (out ++ [metric c t "k8s.node.pods_total" (f_of_Z (podCount (Pods sum))) {[ "node" := node ]}], next).

(** *** Images *)

Record Image := mk_image { Id : string; RepoTags : list string; RepoDigests : list string; Size : Z }.

Definition last_index (c : Ascii.ascii) (s : string) : Z :=
  match Prom.last_cut c s with Some (a, _) => str_len a | None => -1 end.
Definition after_last_slash (s : string) : string := match Prom.last_cut (chr 47) s with Some (_, b) => b | None => s end.

Definition image_tags (base : tagmap) (imageId ref : string) : tagmap :=
  let tags := <["image" := ref]> (<["image_id" := imageId]> base) in
  if has_prefix "sha256:" ref then tags
  else
    let repo := (cut "@" ref).1.1 in
    let colon := last_index (chr 58) repo in
    let '(tags, repo) := if last_index (chr 47) repo <? colon
                         then (<["image_tag" := str_drop (Z.to_nat (colon + 1)) repo]> tags, str_take (Z.to_nat colon) repo)
                         else (tags, repo) in
    <["image_name" := repo]> (<["short_image" := after_last_slash repo]> tags).

Fixpoint aliases_once (seen : gset string) (l : list string) : list string :=
  match l with
  | [] => []
  | r :: l => if String.eqb r "" || bool_decide (r ∈ seen) then aliases_once seen l else r :: aliases_once ({[ r ]} ∪ seen) l
  end.

Definition runtimeImageMetrics (c : k8sKubeletCheck) (t : Z) (images : list Image) (node : string) : list Metric :=
  let base : tagmap := list_to_map [("node", node); ("runtime", "containerd")] in
  metric c t "k8s.node.runtime_images_total" (f_of_Z (Z.of_nat (length images))) base
  :: (images ≫= fun image =>
        (fun ref => metric c t "k8s.node.runtime_image.size_bytes" (f_of_Z (Size image)) (image_tags base (Id image) ref))
        <$> aliases_once ∅ (Id image :: RepoTags image ++ RepoDigests image)).

(** *** cgroups *)

(** [filepath.Clean] leaves an absolute path as it is. *)
Definition is_clean (path : string) : bool :=
  forallb (fun part => negb (String.eqb part "" || String.eqb part "." || String.eqb part "..")) (split "/" (str_drop 1 path)).
(** [filepath.Join] and [Dir] of clean paths. *)
Definition path_join (a b : string) : string := a +:+ "/" +:+ b.
Definition path_dir (path : string) : string := match Prom.last_cut (chr 47) path with Some (a, _) => a | None => path end.

(** The lines of two fields whose second is a number; of equal names the last. *)
Definition stat_lines (raw : string) : list (string * Z) :=
  omap (fun line => match fields line with
                    | [name; v] => match parse_uint 64 v with Some v => Some (name, v) | None => None end
                    | _ => None
                    end) (split (str1 10) raw).
Definition stat_map (raw : string) : gmap string Z := foldl (fun m kv => <[kv.1 := kv.2]> m) ∅ (stat_lines raw).

Definition add_stat (name : string) (v : option f64) (out : gmap string f64) : gmap string f64 :=
  match v with Some v => <[name := v]> out | None => out end.

Definition memory_stat (raw : string) (out : gmap string f64) : gmap string f64 :=
  let stats := stat_map raw in
  let kernel := match stats !! "kernel" with
                | Some v => Some (f_of_Z v)
                | None => match stats !! "kernel_stack", stats !! "slab" with
                          | Some stack, Some slab => Some (fadd (f_of_Z stack) (f_of_Z slab))
                          | _, _ => None
                          end
                end in
  add_stat "memory_major_page_faults_total" (f_of_Z <$> stats !! "pgmajfault")
    (add_stat "memory_page_faults_total" (f_of_Z <$> stats !! "pgfault") (add_stat "memory_kernel_bytes" kernel out)).

Definition micros (v : Z) : f64 := fdiv (f_of_Z v) (f_of_Z 1000000).

Definition pressure (controller raw : string) (out : gmap string f64) : gmap string f64 :=
  foldl (fun out line =>
    match fields line with
    | first :: rest =>
        if negb (String.eqb first "some") then out
        else foldl (fun out field =>
               if negb (has_prefix "total=" field) then out
               else match parse_uint 64 (trim_prefix "total=" field) with
                    | Some v => <[controller +:+ "_partial_stall_seconds_total" := micros v]> out
                    | None => out
                    end) out rest
    | [] => out
    end) out (split (str1 10) raw).

Definition cpu_stat (raw : string) (out : gmap string f64) : gmap string f64 :=
  foldl (fun out kv =>
    if String.eqb kv.1 "throttled_usec" then <["cpu_throttled_seconds_total" := micros kv.2]> out
    else if String.eqb kv.1 "nr_throttled" then <["cpu_throttled_periods_total" := f_of_Z kv.2]> out
    else out) out (stat_lines raw).

(** The number of CPUs of a list of ranges, zero when it is not one. *)
Fixpoint cpu_ranges (first : bool) (previous : Z) (parts : list string) (count : Z) : Z :=
  match parts with
  | [] => count
  | part :: parts =>
      match (match split "-" part with
             | [a] => a ← parse_uint 32 a; Some (a, a)
             | [a; b] => a ← parse_uint 32 a; b ← parse_uint 32 b; Some (a, b)
             | _ => None
             end) with
      | Some (start, end_) =>
          if (end_ <? start) || (negb first && (start <=? previous)) then 0
          else cpu_ranges false end_ parts (u64 (count + (end_ - start + 1)))
      | None => 0
      end
  end.
Definition cpuListCount (raw : string) : Z := cpu_ranges true 0 (split "," (trim_space raw)) 0.

(** The limit that one cgroup sets, none when it sets none. *)
Definition own_limit (hostCount : Z) (path : string) : option f64 :=
  let set := match ReadFile (path_join path "cpuset.cpus.effective") with
             | Some raw => let count := cpuListCount raw in
                           if (0 <? count) && negb (count =? hostCount) then Some (f_of_Z count) else None
             | None => None
             end in
  match ReadFile (path_join path "cpu.max") with
  | Some raw =>
      match fields raw with
      | [quota; period] =>
          if String.eqb quota "max" then set
          else match parse_uint 64 quota, parse_uint 64 period with
               | Some quota, Some period =>
                   if (0 <? quota) && (0 <? period) then
                     let quotaLimit := fdiv (f_of_Z quota) (f_of_Z period) in
                     Some match set with
                          | Some limit => if flt quotaLimit limit then quotaLimit else limit
                          | None => quotaLimit
                          end
                   else set
               | _, _ => set
               end
      | _ => set
      end
  | None => set
  end.

Definition containerCPULimit (dir root : string) : option f64 :=
  hostCPUs ← ReadFile (path_join root "cpuset.cpus.effective");
  let hostCount := cpuListCount hostCPUs in
  if hostCount =? 0 then None
  else match own_limit hostCount dir with
       | Some limit => Some limit
       | None => match own_limit hostCount (path_dir dir) with
                 | Some limit => Some limit
                 | None => Some (f_of_Z hostCount)
                 end
       end.

Definition containerCgroupMemory (c : k8sKubeletCheck) (cgroup : string) : gmap string f64 :=
  if negb (has_prefix "/kubepods/" cgroup) && negb (has_prefix "/kubepods.slice/" cgroup) then ∅
  else if negb (is_clean cgroup) then ∅
  else
    let root := or_default (cgroupRoot c) "/host/sys/fs/cgroup" in
    let dir := path_join root (trim_prefix "/" cgroup) in
    if negb (exists_file (path_join root "cgroup.controllers")) then ∅
    else
      let with_file name (f : string -> gmap string f64 -> gmap string f64) out :=
        match ReadFile (path_join dir name) with Some raw => f raw out | None => out end in
      let out := with_file "memory.stat" memory_stat ∅ in
      let out := with_file "memory.peak" (fun raw out =>
        match parse_uint 64 (trim_space raw) with
        | Some v => if 0 <? v then <["memory_peak_bytes" := f_of_Z v]> out else out
        | None => out
        end) out in
      let out := foldl (fun out controller => with_file (controller +:+ ".pressure") (pressure controller) out) out
                   ["cpu"; "memory"; "io"] in
      let out := with_file "cpu.stat" cpu_stat out in
      add_stat "cpu_runtime_limit_cores" (containerCPULimit dir root) out.

(** *** cAdvisor *)

Definition cadvisor_names : gmap string string := list_to_map [
  ("container_cpu_cfs_periods_total", "cpu_cfs_periods_total");
  ("container_cpu_cfs_throttled_periods_total", "cpu_cfs_throttled_periods_total");
  ("container_cpu_cfs_throttled_seconds_total", "cpu_cfs_throttled_seconds_total");
  ("container_cpu_user_seconds_total", "cpu_user_seconds_total");
  ("container_cpu_system_seconds_total", "cpu_system_seconds_total");
  ("container_fs_reads_bytes_total", "fs_reads_bytes_total"); ("container_fs_writes_bytes_total", "fs_writes_bytes_total");
  ("container_fs_reads_total", "fs_reads_total"); ("container_fs_writes_total", "fs_writes_total");
  ("container_memory_usage_bytes", "memory_usage_bytes"); ("container_memory_cache", "memory_cache_bytes");
  ("container_memory_swap", "memory_swap_bytes"); ("container_oom_events_total", "memory_oom_events_total");
  ("container_file_descriptors", "open_file_descriptors"); ("container_threads", "threads");
  ("container_threads_max", "threads_limit"); ("container_start_time_seconds", "start_time_seconds");
  ("container_cpu_load_average_10s", "cpu_load_10s_avg");
  ("container_spec_memory_limit_bytes", "memory_runtime_limit_bytes");
  ("container_spec_memory_swap_limit_bytes", "memory_swap_limit_bytes");
  ("container_network_receive_errors_total", "network_rx_errors_total");
  ("container_network_receive_packets_total", "network_rx_packets_total");
  ("container_network_transmit_packets_total", "network_tx_packets_total");
  ("container_network_transmit_errors_total", "network_tx_errors_total");
  ("container_network_receive_packets_dropped_total", "network_rx_dropped_total");
  ("container_network_transmit_packets_dropped_total", "network_tx_dropped_total")].

Record memorySample := mk_memory_sample { ms_tags : tagmap; ms_values : gmap string f64 }.
Record cadvisor_state := mk_cadvisor { cad_out : list Metric; memory : gmap string memorySample; cgroups : gset string }.

Definition with_label (labels : tagmap) (tags : tagmap) (key : string) : tagmap :=
  if String.eqb (tag key labels) "" then tags else <[key := tag key labels]> tags.

Definition now_seconds (now : Z) : Z := now / second.
Definition now_fraction (now : Z) : f64 :=
  fadd (f_of_Z (now_seconds now)) (fdiv (f_of_Z (now mod second)) (f_of_Z 1000000000)).

(** A sample that is kept, of a pod or of a container. *)
Definition cadvisor_sample (c : k8sKubeletCheck) (now : Z) (node suffix : string) (labels : tagmap) (v : f64)
    (st : cadvisor_state) : cadvisor_state :=
  let tags : tagmap := list_to_map [("node", node); ("namespace", tag "namespace" labels); ("pod", tag "pod" labels)] in
  let container := tag "container" labels in
  let of_pod := String.eqb container "POD" || String.eqb container "" in
  if of_pod && negb (has_prefix "network_" suffix) then st
  else
    let tags := if of_pod then tags else <["container" := container]> tags in
    let cgroup := tag "id" labels in
    let '(own, seen) :=
      if of_pod || bool_decide (cgroup ∈ cgroups st) then ([], cgroups st)
      else ((fun kv => set_source "k8s.cgroup" (metric c now ("k8s.container." +:+ kv.1) kv.2 tags))
              <$> enum _ (containerCgroupMemory c cgroup), {[ cgroup ]} ∪ cgroups st) in
    let tags := foldl (with_label labels) tags ["interface"; "device"] in
    let scope := if of_pod then "pod" else "container" in
    let item := set_source "k8s.cadvisor" (metric c now ("k8s." +:+ scope +:+ "." +:+ suffix) v tags) in
    let uptime :=
      if negb of_pod && String.eqb suffix "start_time_seconds" && flt f64_zero v && fle v (f_of_Z (now_seconds now))
      then [set_source "k8s.cadvisor" (metric c now "k8s.container.uptime_seconds" (fsub (now_fraction now) v) tags)] else [] in
    let memory :=
      if negb of_pod && has_prefix "memory_" suffix then
        let key := tag "namespace" labels +:+ "/" +:+ tag "pod" labels +:+ "/" +:+ container in
        let sample := default (mk_memory_sample tags ∅) (memory st !! key) in
        <[key := mk_memory_sample (ms_tags sample) (<[suffix := v]> (ms_values sample))]> (memory st)
      else memory st in
    mk_cadvisor (cad_out st ++ own ++ item :: uptime) memory seen.

Definition finite (v : f64) : bool := negb (is_nan v) && negb (is_inf v).

Definition cadvisor_line (c : k8sKubeletCheck) (now : Z) (node : string) (st : cadvisor_state) (line : string) : cadvisor_state :=
  match Prom.ParseLine ParseFloat Unquote line with
  | None => st
  | Some (name, labels, v) =>
      match cadvisor_names !! name with
      | None => st
      | Some suffix =>
          if negb (finite v) || String.eqb (tag "pod" labels) "" || String.eqb (tag "namespace" labels) "" then st
          else cadvisor_sample c now node suffix labels v st
      end
  end.

Definition memory_pairs : list (string * string * string) :=
  [("memory_usage_bytes", "memory_runtime_limit_bytes", "memory_usage_fraction");
   ("memory_swap_bytes", "memory_swap_limit_bytes", "memory_swap_usage_fraction")].
Definition memory_fractions (c : k8sKubeletCheck) (now : Z) (s : memorySample) : list Metric :=
  omap (fun p : string * string * string =>
    let '(usage, limit, name) := p in
    match ms_values s !! usage with
    | Some usage =>
        let limit := default f64_zero (ms_values s !! limit) in
        if flt f64_zero limit
        then Some (set_source "k8s.cadvisor" (metric c now ("k8s.container." +:+ name) (fdiv usage limit) (ms_tags s)))
        else None
    | None => None
    end) memory_pairs.

Definition parseCadvisor (c : k8sKubeletCheck) (now : Z) (body node : string) : res (list Metric) :=
  let '(lines, too_long) := Prom.scan_text body in
  let st := foldl (cadvisor_line c now node) (mk_cadvisor [] ∅ ∅) lines in
  if too_long then Err "token too long"
  else Ok (cad_out st ++ (enum _ (memory st) ≫= fun kv => memory_fractions c now kv.2)).

(** *** The kubelet's own metrics *)

Definition histograms : list string :=
  ["apiserver_client_certificate_expiration_seconds"; "kubelet_pleg_relist_duration_seconds";
   "kubelet_pleg_relist_interval_seconds"; "kubelet_containers_per_pod_count";
   "kubelet_network_plugin_operations_duration_seconds"; "kubelet_pod_start_duration_seconds";
   "kubelet_pod_worker_duration_seconds"; "kubelet_pod_worker_start_duration_seconds";
   "kubelet_runtime_operations_duration_seconds"; "rest_client_request_duration_seconds"].
Definition gauges : gmap string string :=
  list_to_map ((histograms ≫= fun base =>
                  (fun suffix => (base +:+ suffix, trim_prefix "kubelet_" base +:+ suffix)) <$> ["_sum"; "_count"; "_bucket"])
  ++ [("go_threads", "go_threads"); ("go_goroutines", "go_goroutines");
      ("rest_client_requests_total", "rest_client_requests_total");
      ("kubelet_pleg_last_seen_seconds", "pleg_last_seen_seconds");
      ("kubelet_runtime_operations_total", "runtime_operations_total");
      ("kubelet_runtime_operations_errors_total", "runtime_errors_total"); ("kubelet_evictions", "evictions_total");
      ("kubelet_pleg_discard_events", "pleg_discard_events_total");
      ("kubelet_cpu_manager_pinning_errors_total", "cpu_manager_pinning_errors_total");
      ("kubelet_cpu_manager_pinning_requests_total", "cpu_manager_pinning_requests_total");
      ("kubelet_container_log_filesystem_used_bytes", "container_log_filesystem_used_bytes");
      ("kubelet_volume_stats_available_bytes", "volume_stats_available_bytes");
      ("kubelet_volume_stats_capacity_bytes", "volume_stats_capacity_bytes");
      ("kubelet_volume_stats_used_bytes", "volume_stats_used_bytes");
      ("kubelet_volume_stats_inodes", "volume_stats_inodes"); ("kubelet_volume_stats_inodes_free", "volume_stats_inodes_free");
      ("kubelet_volume_stats_inodes_used", "volume_stats_inodes_used"); ("kubernetes_healthcheck", "healthcheck");
      ("kubernetes_healthchecks_total", "healthchecks_total")]).

Definition probe_types : tagmap := list_to_map [("Liveness", "liveness"); ("Readiness", "readiness"); ("Startup", "startup")].
Definition probe_results : tagmap := list_to_map [("successful", "success"); ("failed", "failure"); ("unknown", "unknown")].

(** The prefix and the suffix of the metric's name. *)
Definition operational_name (name : string) (labels : tagmap) : option (string * string) :=
  if String.eqb name "prober_probe_total" then
    let probe := tag (tag "probe_type" labels) probe_types in
    let result := tag (tag "result" labels) probe_results in
    if String.eqb probe "" || String.eqb result "" || String.eqb (tag "namespace" labels) "" ||
       String.eqb (tag "pod" labels) "" || String.eqb (tag "container" labels) "" then None
    else Some ("k8s.container.", probe +:+ "_probe_" +:+ result +:+ "_total")
  else (fun suffix => ("k8s.kubelet.", suffix)) <$> gauges !! name.

Definition operational_keys : list string :=
  ["namespace"; "pod"; "container"; "operation_type"; "method"; "verb"; "host"; "code"; "persistentvolumeclaim"; "name";
   "status"; "eviction_signal"].
Definition operational_tag (labels tags : tagmap) (key : string) : tagmap :=
  if String.eqb (tag key labels) "" then tags
  else <[(if String.eqb key "name" then "sli_name" else key) := tag key labels]> tags.

Definition operational_line (c : k8sKubeletCheck) (now : Z) (node line : string) : option Metric :=
  sample ← Prom.ParseLine ParseFloat Unquote line;
  let '(name, labels, v) := sample in
  if flt v f64_zero || negb (finite v) then None
  else
    ps ← operational_name name labels;
    tags ← (if has_suffix "_bucket" name then
              bound ← ParseFloat (tag "le" labels);
              if is_nan bound || flt bound f64_zero then None
              else Some (<["le" := FormatFloat bound]> ({[ "node" := node ]} : tagmap))
            else Some ({[ "node" := node ]} : tagmap));
    let tags := foldl (operational_tag labels) tags operational_keys in
    let tags := if has_prefix "rest_client_request_duration_seconds_" name then
                  match url_path (tag "url" labels) with
                  | Some path => if String.eqb path "" then tags else <["url" := path]> tags
                  | None => tags
                  end
                else tags in
    Some (metric c now (ps.1 +:+ ps.2) v tags).

Definition parseOperational (c : k8sKubeletCheck) (now : Z) (body node : string) : res (list Metric) :=
  let '(lines, too_long) := Prom.scan_text body in
  if too_long then Err "token too long" else Ok (omap (operational_line c now node) lines).

(** *** A run *)

(** The answer to a GET with a token, none when the request fails: its status, and its body when it
    could be read. *)
Variable get : string -> string -> W -> option (Z * option string) * W.
Variable list_images : string -> W -> option (list Image) * W.   (* ListImages of the runtime *)

Definition Summary (f : fetcher) (w : W) : res kubeletSummary * W :=
  let '(answer, w) := get (url f) (token f) w in
  (match answer with
   | None => Err "kubelet GET"
   | Some (status, body) =>
       if negb (status ÷ 100 =? 2) then Err "kubelet GET: status"
       else match body ≫= decode with Some sum => Ok sum | None => Err "kubelet decode" end
   end, w).

Definition max_body : Z := Z.shiftl 32 20.
Definition prometheusBody (f : fetcher) (path : string) (w : W) : res string * W :=
  let '(answer, w) := get (trim_suffix "/stats/summary" (url f) +:+ path) (token f) w in
  (match answer with
   | None => Err "GET"
   | Some (status, body) =>
       if negb (status =? 200) then Err "HTTP status"
       else match body with
            | None => Err "read"
            | Some body => if max_body <? str_len body then Err "response exceeds 32 MiB" else Ok body
            end
   end, w).

Definition node_flag (c : k8sKubeletCheck) (t : Z) (node name : string) (up : bool) : Metric :=
  metric c t ("k8s.node." +:+ name) (if up then f64_one else f64_zero) {[ "node" := node ]}.

(** The metrics of an endpoint and whether it could be read. *)
Definition endpoint (c : k8sKubeletCheck) (t : Z) (node path coverage : string) (parse : string -> res (list Metric)) (w : W)
    : list Metric * W :=
  let '(body, w) := prometheusBody (http c) path w in
  (match body ≫= parse with
   | Ok ms => ms ++ [node_flag c t node coverage true]
   | Err _ => [node_flag c t node coverage false]
   end, w).

Fixpoint endpoints (c : k8sKubeletCheck) (t operational_now : Z) (node : string) (paths : list (string * string)) (w : W)
    : list Metric * W :=
  match paths with
  | [] => ([], w)
  | (path, coverage) :: paths =>
      let '(ms, w) := endpoint c t node path coverage (fun body => parseOperational c operational_now body node) w in
      let '(rest, w) := endpoints c t operational_now node paths w in
      (ms ++ rest, w)
  end.

Definition operational_paths : gmap string string :=
  list_to_map [("/metrics", "kubelet_metrics_up"); ("/metrics/probes", "probes_up"); ("/metrics/slis", "slis_up")].

(** The clock when the summary was read, for its CPU samples, for the images, for cAdvisor and for the
    other endpoints. *)
Record clock := mk_clock { at_summary : Z; observed : Z; at_images : Z; at_cadvisor : Z; at_operational : Z }.

(** [socket]: the value of TELVYN_CRI_SOCKET. *)
Definition Run (t : clock) (socket : string) (c : k8sKubeletCheck) (w : W) : res (list Metric) * k8sKubeletCheck * W :=
  let '(sum, w) := Summary (http c) w in
  match sum with
  | Err e => (Err e, c, w)
  | Ok sum =>
      let now := at_summary t in
      let node := NodeName (Node sum) in
      let '(out, next) := summary_metrics c now (observed t) sum in
      let c' := set_containerCPU next c in
      let '(images, w) :=
        if String.eqb (trim_space socket) "" then ([], w)
        else
          let '(found, w) := list_images (trim_space socket) w in
          (match found with
           | Some images => runtimeImageMetrics c (at_images t) images node ++ [node_flag c now node "runtime_inventory_up" true]
           | None => [node_flag c now node "runtime_inventory_up" false]
           end, w) in
      let '(cad, w) := endpoint c now node "/metrics/cadvisor" "cadvisor_up"
                         (fun body => parseCadvisor c (at_cadvisor t) body node) w in
      let '(operational, w) := endpoints c now (at_operational t) node (enum _ operational_paths) w in
      (Ok (out ++ images ++ cad ++ operational), c', w)
  end.
End run.
End Kubelet.
