(* ===== verification/KubeletProps.v ===== *)
(** * What a run of the kubelet's check promises

    The CPU of a container is measured between two runs: the samples that a run leaves are those of
    its summary and of nothing else, and the next run reports a container exactly when its counter
    can be compared with the sample of the same container. *)

From S2P Require Import Prelude GoStrings GoFloat Wire Prom Kubelet.
#[local] Open Scope Z_scope.

Module KubeletProps.
Import Kubelet.

(** ** The specification *)

(** The containers of a summary that have a name, in a pod that has one: the key of the sample, the
    tags and the CPU. *)
Definition named_containers (sum : kubeletSummary) : list (string * tagmap * cpu_stats) :=
  let node := NodeName (Node sum) in
  filter (fun p => pod_Name p <> "") (Pods sum) ≫= fun p =>
    (fun ct => (sample_key node p ct, <["container" := ct_Name ct]> (pod_tags node p), ct_CPU ct))
      <$> filter (fun ct => ct_Name ct <> "") (Containers p).

(** The counters of a summary; of equal keys the last counts. *)
Definition counters (sum : kubeletSummary) : list (string * Z) :=
  omap (fun '(key, _, cpu) => pair key <$> UsageCoreNanoSeconds cpu) (named_containers sum).
Definition samples (sum : kubeletSummary) (at_ : Z) : gmap string kubeletCPUSample :=
  list_to_map (reverse ((fun '(key, v) => (key, mk_sample v at_)) <$> counters sum)).

(** What is reported of a container, with the samples of the run before. *)
Definition reported (c : k8sKubeletCheck) (t at_ : Z) (before : gmap string kubeletCPUSample)
    (x : string * tagmap * cpu_stats) : list Metric :=
  let '(key, tags, cpu) := x in
  let item v := metric c t "k8s.container.cpu_usage_nanocores" v tags in
  match UsageCoreNanoSeconds cpu with
  | None => match UsageNanoCores cpu with Some v => [item (f_of_Z v)] | None => [] end
  | Some v =>
      match before !! key with
      | Some s =>
          let elapsed := seconds (time_sub at_ (time s)) in
          if is_zero_time (time s) || fle elapsed f64_zero || (v <? value s) then []
          else [item (fdiv (f_of_Z (v - value s)) elapsed)]
      | None => []
      end
  end.

Definition is_cpu (m : Metric) : Prop := MetricName m = "k8s.container.cpu_usage_nanocores".
#[export] Instance is_cpu_dec m : Decision (is_cpu m).
Proof. unfold is_cpu. apply _. Defined.
Definition quiet (ms : list Metric) : Prop := Forall (fun m => ~ is_cpu m) ms.

(** ** What has another name *)

Lemma quiet_filter ms : quiet ms -> filter is_cpu ms = [].
Proof. induction 1 as [|m ms Hm _ IH]; [done|]. by rewrite filter_cons_False. Qed.
Lemma quiet_app l1 l2 : quiet l1 -> quiet l2 -> quiet (l1 ++ l2).
Proof. apply Forall_app_2. Qed.
Lemma quiet_bind {A} (f : A -> list Metric) l : (forall x, x ∈ l -> quiet (f x)) -> quiet (l ≫= f).
Proof.
  intros H. apply Forall_forall. intros m (x & Hm & Hx)%list_elem_of_bind.
  by apply (proj1 (Forall_forall _ _) (H x Hx)).
Qed.
Lemma quiet_counted c t tags name p : name <> "k8s.container.cpu_usage_nanocores" -> quiet (counted c t tags name p).
Proof. intros H. destruct p; cbn; [|by constructor]. constructor; [done|constructor]. Qed.
Lemma quiet_usage c t tags name u p :
  name <> "k8s.container.cpu_usage_nanocores" -> quiet (fs_usage c t tags name u p).
Proof. intros H. unfold fs_usage. repeat case_match; repeat constructor; done. Qed.
Lemma quiet_nil : quiet [].
Proof. constructor. Qed.
Lemma quiet_cons m ms : ~ is_cpu m -> quiet ms -> quiet (m :: ms).
Proof. by constructor. Qed.

Ltac quiet_names :=
  repeat first [ apply quiet_app | apply quiet_counted; [cbn; discriminate..] | apply quiet_usage; [discriminate..]
               | apply quiet_nil | apply quiet_cons; [cbv [is_cpu]; cbn; discriminate..|] | case_match ].

Lemma quiet_node c t n : quiet (node_metrics c t n).
Proof.
  unfold node_metrics. quiet_names. apply quiet_bind. intros s _.
  destruct (String.eqb_spec (system_Name s) "kubelet") as [->|]; [cbn [negb andb]; quiet_names|].
  destruct (String.eqb_spec (system_Name s) "runtime") as [->|]; cbn [negb andb]; quiet_names.
Qed.
Lemma quiet_volume enum c t node p v : quiet (volume_metrics enum c t node p v).
Proof. unfold volume_metrics. case_match; [apply quiet_nil|]. quiet_names; apply quiet_bind; intros; quiet_names. Qed.
Lemma quiet_images c t images node : quiet (runtimeImageMetrics c t images node).
Proof.
  unfold runtimeImageMetrics. quiet_names. apply quiet_bind. intros i _. apply Forall_forall.
  intros m (ref & -> & _)%list_elem_of_fmap. cbv [is_cpu]. cbn. discriminate.
Qed.

(** ** The summary *)

Definition keep (at_ : Z) (next : gmap string kubeletCPUSample) (x : string * tagmap * cpu_stats)
    : gmap string kubeletCPUSample :=
  match UsageCoreNanoSeconds x.2 with Some v => <[x.1.1 := mk_sample v at_]> next | None => next end.

Lemma reported_cpu c t at_ before x : filter is_cpu (reported c t at_ before x) = reported c t at_ before x.
Proof.
  destruct x as [[key tags] cpu]. unfold reported.
  assert (Hi : forall v, is_cpu (metric c t "k8s.container.cpu_usage_nanocores" v tags)) by done.
  repeat case_match; try done; by rewrite filter_cons_True.
Qed.

Lemma container_cpu_spec c t at_ key tags cpu next :
  container_cpu c t at_ key tags cpu next
  = (reported c t at_ (containerCPU c) (key, tags, cpu), keep at_ next (key, tags, cpu)).
Proof.
  unfold container_cpu, reported, keep, counted, kubeletContainerCPURate. cbn.
  destruct (UsageCoreNanoSeconds cpu) as [v|]; [|done]. cbn.
  destruct (containerCPU c !! key) as [s|]; cbn; [|done]. repeat case_match; simplify_eq; reflexivity.
Qed.

Definition as_named (node : string) (p : kubeletPodSummary) (ct : container_stats) : string * tagmap * cpu_stats :=
  (sample_key node p ct, <["container" := ct_Name ct]> (pod_tags node p), ct_CPU ct).

(** A part of the run that reports the containers [xs]. *)
Definition reports (c : k8sKubeletCheck) (t at_ : Z) (xs : list (string * tagmap * cpu_stats))
    (st st' : list Metric * gmap string kubeletCPUSample) : Prop :=
  filter is_cpu st'.1 = filter is_cpu st.1 ++ (xs ≫= reported c t at_ (containerCPU c)) /\
  st'.2 = foldl (keep at_) st.2 xs.

Lemma reports_refl c t at_ st : reports c t at_ [] st st.
Proof. split; [|done]. cbn. by rewrite app_nil_r. Qed.
Lemma reports_trans c t at_ xs ys st st' st'' :
  reports c t at_ xs st st' -> reports c t at_ ys st' st'' -> reports c t at_ (xs ++ ys) st st''.
Proof.
  intros [H1 H2] [H3 H4]. split; [|by rewrite H4, H2, foldl_app]. by rewrite H3, H1, bind_app, app_assoc.
Qed.
Lemma reports_fold {A} c t at_ (f : list Metric * gmap string kubeletCPUSample -> A -> list Metric * gmap string kubeletCPUSample) g l st :
  (forall st x, reports c t at_ (g x) st (f st x)) -> reports c t at_ (l ≫= g) st (foldl f st l).
Proof.
  intros H. revert st. induction l as [|x l IH]; intros st; [apply reports_refl|].
  cbn. eapply reports_trans; [apply H|apply IH].
Qed.
Lemma reports_quiet c t at_ ms st : quiet ms -> reports c t at_ [] st (st.1 ++ ms, st.2).
Proof. intros H. split; [|done]. cbn. by rewrite filter_app, (quiet_filter ms H). Qed.

Lemma bind_filter {A B} (P : A -> Prop) `{!forall x, Decision (P x)} (f : A -> list B) l :
  filter P l ≫= f = l ≫= (fun x => if decide (P x) then f x else []).
Proof. induction l as [|x l IH]; [done|]. rewrite filter_cons. cbn [mbind list_bind]. rewrite <- IH. by case_decide. Qed.
Lemma fmap_filter_bind {A B} (P : A -> Prop) `{!forall x, Decision (P x)} (f : A -> B) l :
  f <$> filter P l = l ≫= (fun x => if decide (P x) then [f x] else []).
Proof. induction l as [|x l IH]; [done|]. rewrite filter_cons. cbn [mbind list_bind]. rewrite <- IH. by case_decide. Qed.

Lemma container_reports c t at_ node p st ct :
  reports c t at_ (if decide (ct_Name ct <> "") then [as_named node p ct] else []) st
    (container_metrics c t at_ node p st ct).
Proof.
  unfold container_metrics. destruct (String.eqb_spec (ct_Name ct) "") as [->|Hn]; [apply reports_refl|].
  rewrite decide_True by done. rewrite container_cpu_spec. fold (as_named node p ct).
  split; [|done]. cbn [fst]. rewrite 2!filter_app, reported_cpu. cbn [mbind list_bind]. rewrite app_nil_r. f_equal.
  rewrite quiet_filter; [apply app_nil_r|]. quiet_names.
Qed.

Lemma pod_reports enum c t at_ node st p :
  reports c t at_ (if decide (pod_Name p <> "")
                   then as_named node p <$> filter (fun ct => ct_Name ct <> "") (Containers p) else []) st
    (pod_metrics enum c t at_ node st p).
Proof.
  unfold pod_metrics. destruct (String.eqb_spec (pod_Name p) "") as [->|Hn]; [apply reports_refl|].
  rewrite decide_True by done. rewrite fmap_filter_bind.
  eapply (reports_trans _ _ _ []); [|apply reports_fold, container_reports].
  apply (reports_quiet c t at_). quiet_names; apply quiet_bind; intros; apply quiet_volume.
Qed.

Lemma keep_samples at_ sum : foldl (keep at_) ∅ (named_containers sum) = samples sum at_.
Proof.
  unfold samples, counters. generalize (named_containers sum) as l.
  induction l as [|[[key tags] cpu] l IH] using rev_ind; [done|].
  rewrite foldl_app, omap_app, fmap_app, reverse_app, IH. cbn. unfold keep. cbn.
  destruct (UsageCoreNanoSeconds cpu); [|done]. cbn. done.
Qed.

Lemma summary_reports enum c t at_ sum :
  let '(out, next) := summary_metrics enum c t at_ sum in
  filter is_cpu out = (named_containers sum ≫= reported c t at_ (containerCPU c)) /\ next = samples sum at_.
Proof.
  unfold summary_metrics. rewrite <- keep_samples.
  pose proof (reports_fold c t at_ (pod_metrics enum c t at_ (NodeName (Node sum))) _ (Pods sum)
                (node_metrics c t (Node sum), ∅) (pod_reports enum c t at_ (NodeName (Node sum)))) as [H1 H2].
  rewrite <- bind_filter in H1, H2. cbn [fst snd] in H1, H2.
  rewrite (quiet_filter _ (quiet_node _ _ _)) in H1.
  destruct (foldl _ _ _) as [out next]. cbn [fst snd] in *. split; [|exact H2].
  rewrite filter_app, H1. rewrite quiet_filter; [apply app_nil_r|]. quiet_names.
Qed.

(** ** The rest of a run *)

Lemma fold_inv {A B} (P : A -> Prop) (f : A -> B -> A) l a :
  (forall a x, P a -> P (f a x)) -> P a -> P (foldl f a l).
Proof. intros H. revert a. induction l as [|x l IH]; intros a Ha; [done|]. by apply IH, H. Qed.

(** Of a cgroup nothing is reported as the CPU usage. *)
Definition unused (out : gmap string f64) : Prop := out !! "cpu_usage_nanocores" = None.

Lemma unused_insert name v out : name <> "cpu_usage_nanocores" -> unused out -> unused (<[name := v]> out).
Proof. intros Hn H. unfold unused. by rewrite lookup_insert_ne. Qed.
Lemma unused_add name v out : name <> "cpu_usage_nanocores" -> unused out -> unused (add_stat name v out).
Proof. destruct v; [apply unused_insert|done]. Qed.
Lemma unused_memory raw out : unused out -> unused (memory_stat raw out).
Proof. intros H. unfold memory_stat. do 3 (apply unused_add; [discriminate|]). done. Qed.
Lemma unused_pressure controller raw out :
  controller +:+ "_partial_stall_seconds_total" <> "cpu_usage_nanocores" -> unused out -> unused (pressure controller raw out).
Proof.
  intros Hn. apply fold_inv. clear out. intros out line H. destruct (fields line) as [|first rest]; [done|].
  case_match; [done|]. revert H. apply fold_inv. clear out. intros out field H. repeat case_match; try done.
  by apply unused_insert.
Qed.
Lemma unused_cpu raw out : unused out -> unused (cpu_stat raw out).
Proof. apply fold_inv. intros a x H. repeat case_match; try done; by apply unused_insert. Qed.

Section run.
Context {W : Type}.
Variable enum : forall A : Type, gmap string A -> list (string * A).
Hypothesis enum_perm : forall A (m : gmap string A), enum A m ≡ₚ map_to_list m.
Variable ParseFloat : string -> option f64.
Variable FormatFloat : f64 -> string.
Variable Unquote : string -> option string.
Variable url_path : string -> option string.
Variable decode : string -> option kubeletSummary.
Variable exists_file : string -> bool.
Variable ReadFile : string -> option string.
Variable get : string -> string -> W -> option (Z * option string) * W.
Variable list_images : string -> W -> option (list Image) * W.

Lemma cgroup_unused c cgroup : unused (containerCgroupMemory exists_file ReadFile c cgroup).
Proof.
  unfold containerCgroupMemory. case_match; [done|]. case_match; [done|]. cbv zeta. case_match; [done|].
  cbn [foldl].
  repeat first [ apply unused_add; [discriminate|] | apply unused_cpu | apply unused_memory | apply unused_insert; [discriminate|]
               | apply unused_pressure; [vm_compute; discriminate|] | progress case_match | done ].
Qed.

Lemma names_other name suffix : cadvisor_names !! name = Some suffix -> suffix <> "cpu_usage_nanocores".
Proof.
  assert (H : map_Forall (fun _ suffix => suffix <> "cpu_usage_nanocores") cadvisor_names).
  { apply (bool_decide_unpack _). by vm_compute. }
  apply H.
Qed.

Lemma container_name_inj k : "k8s.container." +:+ k = "k8s.container.cpu_usage_nanocores" -> k = "cpu_usage_nanocores".
Proof. change "k8s.container.cpu_usage_nanocores" with ("k8s.container." +:+ "cpu_usage_nanocores"). apply (inj _). Qed.

Lemma cadvisor_line_quiet c now node st line :
  quiet (cad_out st) -> quiet (cad_out (cadvisor_line enum ParseFloat Unquote exists_file ReadFile c now node st line)).
Proof.
  intros H. unfold cadvisor_line. destruct (Prom.ParseLine _ _ _) as [[[name labels] v]|]; [|done].
  destruct (cadvisor_names !! name) as [suffix|] eqn:Hs; [|done]. apply names_other in Hs.
  case_match; [done|]. unfold cadvisor_sample. case_match; [done|].
  match goal with |- context [let '(_, _) := ?e in _] => destruct e as [own seen] eqn:Ho end. cbn [cad_out].
  apply quiet_app; [done|]. apply quiet_app.
  - revert Ho. case_match; intros [= <- <-]; [apply quiet_nil|]. apply Forall_forall.
    intros m ([k x] & -> & Hin)%list_elem_of_fmap Hc. apply container_name_inj in Hc. cbn in Hc. subst k.
    rewrite enum_perm in Hin. apply elem_of_map_to_list in Hin.
    pose proof (cgroup_unused c (tag "id" labels)) as Hu. unfold unused in Hu. congruence.
  - apply quiet_cons.
    + unfold is_cpu. unfold set_source, metric; cbn [MetricName]. match goal with |- context [if ?b then "pod" else _] => destruct b end; [intros Hc; cbn in Hc; discriminate Hc|].
      intros Hc. apply Hs, container_name_inj. exact Hc.
    + match goal with |- quiet (if ?b then _ else _) => destruct b end; [|apply quiet_nil]. apply quiet_cons; [cbv [is_cpu]; cbn; discriminate|apply quiet_nil].
Qed.

Lemma parse_cadvisor_quiet c now body node ms :
  parseCadvisor enum ParseFloat Unquote exists_file ReadFile c now body node = Ok ms -> quiet ms.
Proof.
  unfold parseCadvisor. destruct (Prom.scan_text body) as [lines long]. case_match; [done|]. intros [= <-].
  apply quiet_app.
  - apply (fold_inv (fun st => quiet (cad_out st))); [intros; by apply cadvisor_line_quiet|apply quiet_nil].
  - apply quiet_bind. intros [k s] _. apply Forall_forall. intros m Hm. unfold memory_fractions in Hm.
    apply list_elem_of_omap in Hm as ([[usage limit] name] & Hp & Hm).
    assert (Hn : name <> "cpu_usage_nanocores").
    { unfold memory_pairs in Hp. repeat (apply elem_of_cons in Hp as [[= _ _ ->]|Hp]; [discriminate|]). by apply not_elem_of_nil in Hp. }
    repeat case_match; simplify_eq. intros Hc. by apply Hn, container_name_inj.
Qed.

Lemma probe_types_other k : not (exists r, tag k probe_types = String (chr 99) r).
Proof.
  assert (H : map_Forall (fun _ p => has_prefix "c" p = false) probe_types).
  { apply (bool_decide_unpack _). by vm_compute. }
  intros [r Hr]. unfold tag in Hr. destruct (probe_types !! k) as [p|] eqn:E; [|done].
  apply H in E. cbn in Hr. subst p. cbv in E. by destruct r.
Qed.

Lemma operational_line_quiet c now node line m :
  operational_line ParseFloat FormatFloat Unquote url_path c now node line = Some m -> ~ is_cpu m.
Proof.
  unfold operational_line. destruct (Prom.ParseLine _ _ _) as [[[name labels] v]|]; [|done]. cbn [mbind option_bind].
  case_match; [done|]. destruct (operational_name name labels) as [[p s]|] eqn:Hn; [|done]. cbn [mbind option_bind].
  match goal with |- (?o ≫= _) = _ -> _ => destruct o as [tags|]; [|done] end. cbn [mbind option_bind].
  intros [= <-]. unfold is_cpu, metric. cbn [MetricName fst snd]. unfold operational_name in Hn.
  case_match.
  - case_match; [done|]. injection Hn as <- <-. intros Hc. apply container_name_inj in Hc.
    pose proof (probe_types_other (tag "probe_type" labels)) as Hp.
    destruct (tag (tag "probe_type" labels) probe_types) as [|a r]; [discriminate Hc|].
    rewrite str_app_cons in Hc. injection Hc as -> _. apply Hp. by exists r.
  - destruct (gauges !! name) as [suffix|]; [|done]. injection Hn as <- <-. intros Hc. cbn in Hc. discriminate Hc.
Qed.

Lemma parse_operational_quiet c now body node ms :
  parseOperational ParseFloat FormatFloat Unquote url_path c now body node = Ok ms -> quiet ms.
Proof.
  unfold parseOperational. destruct (Prom.scan_text body) as [lines long]. case_match; [done|]. intros [= <-].
  apply Forall_forall. intros m (line & _ & Hm)%list_elem_of_omap. by apply operational_line_quiet in Hm.
Qed.

Lemma quiet_flag c t node name up : quiet [node_flag c t node name up].
Proof. apply quiet_cons; [unfold is_cpu; cbn; discriminate|apply quiet_nil]. Qed.

Lemma endpoint_quiet c t node path coverage parse w :
  (forall body ms, parse body = Ok ms -> quiet ms) -> quiet (endpoint get c t node path coverage parse w).1.
Proof.
  intros H. unfold endpoint. destruct (prometheusBody get (http c) path w) as [[body|e] w']; cbn; [|apply quiet_flag].
  destruct (parse body) as [ms|e] eqn:E; cbn; [|apply quiet_flag]. apply quiet_app; [by eapply H|apply quiet_flag].
Qed.

Lemma endpoints_quiet c t now node paths w :
  quiet (endpoints ParseFloat FormatFloat Unquote url_path get c t now node paths w).1.
Proof.
  revert w. induction paths as [|[path coverage] paths IH]; intros w; [apply quiet_nil|]. cbn [endpoints].
  match goal with |- context [endpoint ?g ?c ?t ?n ?p ?o ?f ?w] =>
    pose proof (endpoint_quiet c t n p o f w) as He; destruct (endpoint g c t n p o f w) as [ms w1] end.
  specialize (IH w1). destruct (endpoints _ _ _ _ _ _ _ _ _ _ w1) as [rest w2].
  apply quiet_app; [|exact IH]. apply He. intros body ms' Hb. by apply parse_operational_quiet in Hb.
Qed.

Abbreviation run := (Run enum ParseFloat FormatFloat Unquote url_path decode exists_file ReadFile get list_images).

(** The CPU of a run, and what it leaves for the next one. *)
Lemma run_cpu t socket c w out c' w' :
  run t socket c w = (Ok out, c', w') ->
  exists sum, fst (Summary decode get (http c) w) = Ok sum /\
    filter is_cpu out = (named_containers sum ≫= reported c (at_summary t) (observed t) (containerCPU c)) /\
    c' = set_containerCPU (samples sum (observed t)) c.
Proof.
  unfold Run. destruct (Summary decode get (http c) w) as [[sum|e] w1]; [|done].
  pose proof (summary_reports enum c (at_summary t) (observed t) sum) as Hs.
  destruct (summary_metrics enum c (at_summary t) (observed t) sum) as [own next]. destruct Hs as [Hs ->].
  match goal with |- (let '(_, _) := ?e in _) = _ -> _ => assert (Hi : quiet e.1); [|destruct e as [images w2]] end.
  { case_match; [apply quiet_nil|]. destruct (list_images _ w1) as [[found|] w2]; cbn [fst]; [|apply quiet_flag].
    apply quiet_app; [apply quiet_images|apply quiet_flag]. }
  match goal with |- context [endpoint ?g ?c ?t ?n ?p ?o ?f ?w] =>
    pose proof (endpoint_quiet c t n p o f w) as Hc; destruct (endpoint g c t n p o f w) as [cad w3] end.
  match goal with |- context [endpoints ?a ?b ?d ?e ?g ?c ?t ?n ?o ?p ?w] =>
    pose proof (endpoints_quiet c t n o p w) as Ho; destruct (endpoints a b d e g c t n o p w) as [operational w4] end.
  cbn [fst] in *. intros [= <- <- _]. exists sum. split; [done|]. split; [|done]. rewrite !filter_app, Hs.
  rewrite (quiet_filter _ Hi), (quiet_filter _ Ho). rewrite quiet_filter; [by rewrite !app_nil_r|].
  apply Hc. intros body ms Hb. by apply parse_cadvisor_quiet in Hb.
Qed.

(** The summary that was read last, with the time of its samples, of a check that has run. *)
Inductive last_read (cfg : CheckConfig) (AppendCertsFromPEM : string -> bool)
    : k8sKubeletCheck -> option (kubeletSummary * Z) -> Prop :=
  | read_nothing : last_read cfg AppendCertsFromPEM (newK8sKubeletCheck ReadFile AppendCertsFromPEM cfg) None
  | read_failed t socket c last w e c' w' :
      last_read cfg AppendCertsFromPEM c last -> run t socket c w = (Err e, c', w') ->
      last_read cfg AppendCertsFromPEM c' last
  | read_summary t socket c last w sum out c' w' :
      last_read cfg AppendCertsFromPEM c last -> run t socket c w = (Ok out, c', w') ->
      fst (Summary decode get (http c) w) = Ok sum -> last_read cfg AppendCertsFromPEM c' (Some (sum, observed t)).

Definition samples_of (last : option (kubeletSummary * Z)) : gmap string kubeletCPUSample :=
  match last with Some (sum, at_) => samples sum at_ | None => ∅ end.

Lemma last_read_samples cfg certs c last : last_read cfg certs c last -> containerCPU c = samples_of last.
Proof.
  induction 1 as [|t socket c last w e c' w' _ IH Hr|t socket c last w sum out c' w' _ IH Hr Hs]; [done| |].
  - unfold Run in Hr. destruct (Summary decode get (http c) w) as [[sum|e'] w1].
    + exfalso. revert Hr. repeat case_match; discriminate.
    + by injection Hr as _ <- _.
  - apply run_cpu in Hr as (sum' & Hs' & _ & ->). rewrite Hs' in Hs. by injection Hs as ->.
Qed.

(** A run of a check that has run any number of times before, some runs of which may have
    failed, reports of the CPU exactly what its own summary and the summary that was read last
    before it tell: for a container of a pod, both with a name, the difference of the counters per
    second when the last summary had the same container with a counter that is not larger and the
    time advanced, nothing when it cannot be compared, and the kubelet's own figure when there is no
    counter.  No other part of the run uses the name.  The samples it leaves are exactly the
    counters of its own summary: a container that is gone is forgotten. *)
Theorem cpu_between_runs cfg certs c last t socket w out c' w' :
  last_read cfg certs c last -> run t socket c w = (Ok out, c', w') ->
  exists sum, fst (Summary decode get (http c) w) = Ok sum /\
    filter is_cpu out = (named_containers sum ≫= reported c (at_summary t) (observed t) (samples_of last)) /\
    containerCPU c' = samples sum (observed t).
Proof.
  intros Hl%last_read_samples Hr. apply run_cpu in Hr as (sum & Hs & Hf & ->). exists sum. by rewrite <- Hl.
Qed.
End run.

(** *** An example: of two containers one is restarted between two runs. *)

Definition no_cpu := mk_cpu None None.
Definition no_memory := mk_memory None None None.
Definition no_fs := mk_fs None None None None None None.
Definition ex_container (name start : string) (v : Z) :=
  mk_container_stats name start (mk_cpu None (Some v)) no_memory None None.
Definition ex_summary (cts : list container_stats) :=
  mk_summary (mk_node "n1" no_cpu no_memory (mk_network "" None None) no_fs None [])
    [mk_pod "shop" "prod" "u1" no_cpu no_memory None cts [] None].
Definition ex_before := ex_summary [ex_container "app" "10:00" 2000000000; ex_container "side" "10:00" 500].
Definition ex_after := ex_summary [ex_container "app" "10:00" 5000000000; ex_container "side" "10:09" 70].
Definition ex_decode (body : string) : option kubeletSummary :=
  if String.eqb body "before" then Some ex_before else if String.eqb body "after" then Some ex_after else None.
Definition ex_get (path _ : string) (w : nat) : option (Z * option string) * nat :=
  (if has_suffix "/stats/summary" path then Some (200, Some (if Nat.eqb w 0 then "before" else "after")) else None, S w).
Definition ex_enum (A : Type) (m : gmap string A) : list (string * A) := map_to_list m.
Definition ex_cfg : CheckConfig := mk_check_config "" "k8s.kubelet" 0 ∅ ∅ "h1" true "".
Definition ex_clock (at_ : Z) := mk_clock at_ at_ at_ at_ at_.
Definition ex_run := Run ex_enum (fun _ => None) (fun _ => "") (fun _ => None) (fun _ => None) ex_decode (fun _ => false)
                       (fun _ => None) ex_get (fun _ w => (None, w)).
Definition ex_new := newK8sKubeletCheck (fun _ => None) (fun _ => false) ex_cfg.
Definition ex_first := ex_run (ex_clock (10 * second)) "" ex_new O.
Definition ex_second := ex_run (ex_clock (12 * second)) "" ex_first.1.2 ex_first.2.

Lemma cpu_between_runs_witness :
  match ex_second with
  | (Ok out, c', _) =>
      (fun m => (tag "container" (Tags m), Value m)) <$> filter is_cpu out = [("app", f_of_Z 1500000000)]
      /\ size (containerCPU c') = 2%nat
  | _ => False
  end.
Proof.
  destruct ex_second as [[[out|e] c'] w'] eqn:E; [|exfalso; revert E; vm_compute; discriminate].
  unfold ex_second, ex_run in E.
  destruct (cpu_between_runs ex_enum (fun _ _ => reflexivity _) (fun _ => None) (fun _ => "") (fun _ => None) (fun _ => None)
              ex_decode (fun _ => false) (fun _ => None) ex_get (fun _ w => (None, w)) ex_cfg (fun _ => false)
              ex_first.1.2 (Some (ex_before, 10 * second)) (ex_clock (12 * second)) "" ex_first.2 out c' w') as (sum & Hs & Hf & Hc).
  - destruct ex_first as [[[out1|e1] c1] w1] eqn:E1; [|exfalso; revert E1; vm_compute; discriminate].
    eapply (read_summary _ _ _ _ _ _ _ _ _ _ _ _ (ex_clock (10 * second))); [apply read_nothing|exact E1|reflexivity].
  - exact E.
  - assert (Hsum : sum = ex_after) by (vm_compute in Hs; by injection Hs as <-). subst sum.
    rewrite Hf, Hc. split; vm_compute; reflexivity.
Defined.
End KubeletProps.
