(* ===== verification/Cgroup.v ===== *)
(** * The container of a process and its statistics (internal/ebpf/cgroup)

    The path of a process in the hierarchy of control groups tells its container.  The regular
    expressions of the code are written out as functions that look for their leftmost match.  [CgroupStats] reads the statistics
    of a control group. *)

From S2P Require Import Prelude GoStrings GoFloat Wire.
#[local] Open Scope Z_scope.

Module Cgroup.

(** ** Paths (path.Clean and Join) *)

(** The parts that are kept, the last first. *)
Definition clean_part (rooted : bool) (kept : list string) (part : string) : list string :=
  if String.eqb part "" || String.eqb part "." then kept
  else if negb (String.eqb part "..") then part :: kept
  else match kept with
       | last :: rest => if String.eqb last ".." then part :: kept else rest
       | [] => if rooted then [] else [part]
       end.
Definition path_clean (p : string) : string :=
  let rooted := has_prefix "/" p in
  let kept := join "/" (reverse (foldl (clean_part rooted) [] (split "/" p))) in
  if rooted then "/" +:+ kept else if String.eqb kept "" then "." else kept.
Definition path_join (parts : list string) : string :=
  match filter (fun p => p <> "") parts with [] => "" | ps => path_clean (join "/" ps) end.

(** ** Leftmost matches *)

Definition is_id_byte (c : Ascii.ascii) : bool :=
  let z := byte_of c in ((97 <=? z) && (z <=? 122)) || is_digit z.
Definition id_at (s : string) : option string :=
  let id := str_take 64 s in
  if (String.length id =? 64)%nat && forallb is_id_byte (String.list_ascii_of_string id) then Some id else None.

(** The first position at which [here] matches. *)
Fixpoint leftmost {A} (here : string -> option A) (s : string) : option A :=
  match here s with
  | Some a => Some a
  | None => match s with String _ r => leftmost here r | "" => None end
  end.

Definition after (prefix : string) {A} (here : string -> option A) (s : string) : option A :=
  if has_prefix prefix s then here (str_drop (String.length prefix) s) else None.
Definition either {A} (f g : string -> option A) (s : string) : option A :=
  match f s with Some a => Some a | None => g s end.

(** One byte or more up to the next slash. *)
Definition segment (s : string) : option string :=
  let part := (cut "/" s).1.1 in if String.eqb part "" then None else Some part.

Definition dockerIdRegexp : string -> option string := leftmost id_at.
Definition crioIdRegexp : string -> option string := leftmost (after "crio-" id_at).
Definition containerdIdRegexp : string -> option string :=
  leftmost (either (after "cri-containerd-" id_at) (after "cri-containerd:" id_at)).
Definition lxcIdRegexp : string -> option string := leftmost (after "/lxc/" segment).
Definition lxcPayloadRegexp : string -> option string := leftmost (after "/lxc.payload." segment).
Definition talosIdRegexp : string -> option string :=
  leftmost (either (after "/system/" segment) (after "/podruntime/" segment)).

Definition slices : list string := ["system"; "runtime"; "reserved"; "kube"; "azure"; "podruntime"].
Definition slice_at (s : string) : option string :=
  foldr (fun slice rest =>
    let prefix := "/" +:+ slice +:+ ".slice/" in
    match after prefix segment s with Some name => Some (prefix +:+ name) | None => rest end) None slices.
Definition systemSliceIdRegexp : string -> option string := leftmost slice_at.

(** [strings.Replace] of each written-out dash by a dash. *)
Fixpoint replace_all (n : nat) (s : string) : string :=
  match n with
  | O => s
  | S n => match cut_at "\x2d" s with Some (a, b) => a +:+ "-" +:+ replace_all n b | None => s end
  end.

(** ** Containers *)

Inductive ContainerType :=
  | ContainerTypeUnknown | ContainerTypeStandaloneProcess | ContainerTypeDocker | ContainerTypeCrio
  | ContainerTypeContainerd | ContainerTypeLxc | ContainerTypeSystemdService | ContainerTypeSandbox
  | ContainerTypeTalosRuntime.

Record Cgroup := mk_cgroup { Id : string; ctype : ContainerType; ContainerId : string; subsystems : gmap string string }.

Definition or_invalid (t : ContainerType) (what : string) (m : option string) : res (ContainerType * string) :=
  match m with Some id => Ok (t, id) | None => Err ("invalid " +:+ what) end.

Definition containerByCgroup (cgroupPath : string) : res (ContainerType * string) :=
  let parts := split "/" (trim_left_slashes cgroupPath) in
  let prefix := List.hd "" parts in
  let one_of l := existsb (String.eqb prefix) l in
  if String.eqb cgroupPath "/init" then Ok (ContainerTypeTalosRuntime, "/talos/init")
  else if one_of ["user.slice"; "init.scope"; "systemd"] then Ok (ContainerTypeStandaloneProcess, "")
  else if one_of ["docker"] || (one_of ["system.slice"] && (1 <? length parts)%nat && has_prefix "docker-" (nth 1 parts ""))
  then or_invalid ContainerTypeDocker "docker cgroup" (dockerIdRegexp cgroupPath)
  else if contains "kubepods" cgroupPath then
    match crioIdRegexp cgroupPath with
    | Some id => Ok (ContainerTypeCrio, id)
    | None =>
        if contains "crio-conmon-" cgroupPath then Ok (ContainerTypeUnknown, "")
        else match containerdIdRegexp cgroupPath with
             | Some id => Ok (ContainerTypeContainerd, id)
             | None => match dockerIdRegexp cgroupPath with
                       | Some id => Ok (ContainerTypeDocker, id)
                       | None => Ok (ContainerTypeSandbox, "")
                       end
             end
    end
  else if one_of ["system"; "podruntime"] then
    or_invalid ContainerTypeTalosRuntime "talos runtime cgroup"
      ((fun name => path_join ["/talos/"; name]) <$> talosIdRegexp cgroupPath)
  else if one_of ((fun s => s +:+ ".slice") <$> slices) then
    if has_suffix ".scope" cgroupPath then Ok (ContainerTypeStandaloneProcess, "")
    else or_invalid ContainerTypeSystemdService "systemd cgroup"
           ((fun id => replace_all (String.length id) id) <$> systemSliceIdRegexp cgroupPath)
  else if one_of ["lxc"] then or_invalid ContainerTypeLxc "lxc cgroup" (lxcIdRegexp cgroupPath)
  else if has_prefix "lxc.payload." prefix then
    or_invalid ContainerTypeLxc "lxc payload cgroup" ((fun name => "/lxc/" +:+ name) <$> lxcPayloadRegexp cgroupPath)
  else if (length parts <? 2)%nat then Ok (ContainerTypeStandaloneProcess, "")
  else Err "unknown container".

Definition getId (subsystems : gmap string string) : string :=
  let at_ k := default "" (subsystems !! k) in
  if has_prefix "/kubepods" (at_ "cpu") then at_ "cpu"
  else if has_prefix "/kubepods" (at_ "memory") then at_ "memory"
  else
    let id := at_ "" in
    let id := if String.eqb id "" then at_ "cpu" else id in
    let id := if String.eqb id "" then at_ "memory" else id in
    if String.eqb id "" then at_ "name=systemd" else id.

(** The line of a hierarchy: its number, the controllers and the path. *)
Definition add_line (out : gmap string string) (line : string) : gmap string string :=
  match split_n 3 ":" line with
  | [_; controllers; path] =>
      foldl (fun out cgType =>
        let cgPath := if has_prefix "/lxc.payload." path then "/" +:+ nth 1 (split "/" path) "" else path in
        let p := path_join [""; cgPath] in
        if String.eqb p "/" || String.eqb p "/init.scope" then out else <[cgType := p]> out)
        out (split "," controllers)
  | _ => out
  end.

(** [data]: the file, none when it cannot be read. *)
Definition NewFromProcessCgroupFile (data : option string) : res Cgroup :=
  match data with
  | None => Err "read"
  | Some data =>
      let subsystems := foldl add_line ∅ (split (str1 10) data) in
      let id := getId subsystems in
      match containerByCgroup id with
      | Ok (t, container) => Ok (mk_cgroup id t container subsystems)
      | Err e => Err e
      end
  end.
End Cgroup.

(** * What a control group uses (internal/ebpf/cgroup: cpu.go, memory.go, io.go, psi.go, utils.go)

    The statistics of a control group are read from the files of its hierarchy: of the first
    version, a hierarchy for each controller, or of the second, one for all.  What files hold is
    an argument. *)

Module CgroupStats.
Import Cgroup.

Definition lines (s : string) : list string := split (str1 10) s.
Definition subsystem (cg : Cgroup) (k : string) : string := default "" (subsystems cg !! k).
Definition var (k : string) (m : gmap string Z) : Z := default 0 (m !! k).

(** [strconv.ParseUint] with its value when it fails: the largest one when it is out of range. *)
Fixpoint uint_value (acc : Z) (s : string) : Z * bool :=
  match s with
  | "" => (acc, true)
  | String c s =>
      if is_digit (byte_of c) then
        let acc := 10 * acc + (byte_of c - 48) in
        if 2 ^ 64 <=? acc then (2 ^ 64 - 1, false) else uint_value acc s
      else (0, false)
  end.
Definition ParseUint (s : string) : Z * bool := if String.eqb s "" then (0, false) else uint_value 0 s.

Record CPUStat := mk_cpu { UsageSeconds : f64; ThrottledTimeSeconds : f64; LimitCores : f64 }.
Record MemoryStat := mk_memory { RSS : Z; Cache : Z; Limit : Z }.
Record IOStat := mk_io { ReadOps : Z; WriteOps : Z; ReadBytes : Z; WrittenBytes : Z }.
Record PressureTotals := mk_pressure { SomeSecondsTotal : f64; FullSecondsTotal : f64 }.
Record PSIStats := mk_psi { psi_cpu : PressureTotals; psi_memory : PressureTotals; psi_io : PressureTotals }.

Definition maxMemory : Z := Z.shiftl 1 62.
Definition nano : f64 := f_of_Z 1000000000.
Definition micro : f64 := f_of_Z 1000000.
Definition no_io : IOStat := mk_io 0 0 0 0.

Section files.
Variable ReadFile : string -> option string.
Variable ModTime : string -> option Z.      (* os.Stat *)
Variables cgRoot cg2Root : string.

Definition ReadIntFromFile (p : string) : option Z := data ← ReadFile p; atoi (trim_space data).
Definition ReadUintFromFile (p : string) : Z * bool :=
  match ReadFile p with Some data => ParseUint (trim_space data) | None => (0, false) end.

Definition add_variable (m : gmap string Z) (line : string) : gmap string Z :=
  match fields line with
  | [k; v] => match parse_uint 64 v with Some v => <[k := v]> m | None => m end
  | _ => m
  end.
Definition readVariablesFromFile (p : string) : option (gmap string Z) :=
  data ← ReadFile p; Some (foldl add_variable ∅ (lines data)).

(** *** CPU *)

Definition cpuStatV1 (cg : Cgroup) : option CPUStat :=
  let dir := subsystem cg "cpu" in
  if String.eqb dir "" || String.eqb (subsystem cg "cpuacct") "" then None
  else
    throttling ← readVariablesFromFile (path_join [cgRoot; "cpu"; dir; "cpu.stat"]);
    usageNs ← ReadIntFromFile (path_join [cgRoot; "cpuacct"; subsystem cg "cpuacct"; "cpuacct.usage"]);
    periodUs ← ReadIntFromFile (path_join [cgRoot; "cpu"; dir; "cpu.cfs_period_us"]);
    quotaUs ← ReadIntFromFile (path_join [cgRoot; "cpu"; dir; "cpu.cfs_quota_us"]);
    Some (mk_cpu (fdiv (f_of_Z usageNs) nano) (fdiv (f_of_Z (var "throttled_time" throttling)) nano)
            (if 0 <? quotaUs then fdiv (f_of_Z quotaUs) (f_of_Z periodUs) else f64_zero)).

(** The limit that a file of the second version tells; none when it cannot be understood. *)
Definition cpu_max (payload : string) : option f64 :=
  match fields (trim_space payload) with
  | [quota; period] =>
      if String.eqb quota "max" then Some f64_zero
      else
        quotaUs ← parse_uint 64 quota;
        periodUs ← parse_uint 64 period;
        Some (if 0 <? periodUs then fdiv (f_of_Z quotaUs) (f_of_Z periodUs) else f64_zero)
  | _ => None
  end.
Definition cpuStatV2 (cg : Cgroup) : option CPUStat :=
  let dir := subsystem cg "" in
  if String.eqb dir "" then None
  else
    vars ← readVariablesFromFile (path_join [cg2Root; dir; "cpu.stat"]);
    limit ← match ReadFile (path_join [cg2Root; dir; "cpu.max"]) with Some payload => cpu_max payload | None => Some f64_zero end;
    Some (mk_cpu (fdiv (f_of_Z (var "usage_usec" vars)) micro) (fdiv (f_of_Z (var "throttled_usec" vars)) micro) limit).
Definition CpuStat (cg : Cgroup) : option CPUStat :=
  if String.eqb (subsystem cg "cpu") "" || String.eqb (subsystem cg "cpuacct") "" then cpuStatV2 cg else cpuStatV1 cg.

(** *** Memory *)

Definition memoryStatV1 (cg : Cgroup) : option MemoryStat :=
  let dir := subsystem cg "memory" in
  if String.eqb dir "" then None
  else
    vars ← readVariablesFromFile (path_join [cgRoot; "memory"; dir; "memory.stat"]);
    match ReadUintFromFile (path_join [cgRoot; "memory"; dir; "memory.limit_in_bytes"]) with
    | (_, false) => None
    | (limit, true) => Some (mk_memory (u64 (var "total_rss" vars + var "total_mapped_file" vars)) (var "total_cache" vars)
                               (if maxMemory <? limit then 0 else limit))
    end.
Definition memoryStatV2 (cg : Cgroup) : option MemoryStat :=
  let dir := subsystem cg "" in
  if String.eqb dir "" then None
  else
    vars ← readVariablesFromFile (path_join [cg2Root; dir; "memory.stat"]);
    Some (mk_memory (u64 (var "anon" vars + var "file_mapped" vars)) (var "file" vars)
            (ReadUintFromFile (path_join [cg2Root; dir; "memory.max"])).1).
Definition MemoryStat_ (cg : Cgroup) : option MemoryStat :=
  if String.eqb (subsystem cg "memory") "" then memoryStatV2 cg else memoryStatV1 cg.

(** *** Disks: for each device, by its numbers *)

Record blkioVariable := mk_blkio { majorMinor : string; name : string; value : Z }.
Definition blkio_line (line : string) : option blkioVariable :=
  match fields line with
  | [dev; name; v] => (fun v => mk_blkio dev name v) <$> parse_uint 64 v
  | _ => None
  end.
Definition readBlkioStatFile (p : string) : option (list blkioVariable) :=
  data ← ReadFile p; Some (omap blkio_line (lines data)).

Definition set_ops (s : IOStat) (name : string) (v : Z) : IOStat :=
  if String.eqb name "Read" then mk_io v (WriteOps s) (ReadBytes s) (WrittenBytes s)
  else if String.eqb name "Write" then mk_io (ReadOps s) v (ReadBytes s) (WrittenBytes s) else s.
Definition set_bytes (s : IOStat) (name : string) (v : Z) : IOStat :=
  if String.eqb name "Read" then mk_io (ReadOps s) (WriteOps s) v (WrittenBytes s)
  else if String.eqb name "Write" then mk_io (ReadOps s) (WriteOps s) (ReadBytes s) v else s.
Definition add_blkio (set : IOStat -> string -> Z -> IOStat) (m : gmap string IOStat) (v : blkioVariable) : gmap string IOStat :=
  <[majorMinor v := set (default no_io (m !! majorMinor v)) (name v) (value v)]> m.
Definition ioStatV1 (cg : Cgroup) : option (gmap string IOStat) :=
  let dir := subsystem cg "blkio" in
  if String.eqb dir "" then None
  else
    ops ← readBlkioStatFile (path_join [cgRoot; "blkio"; dir; "blkio.throttle.io_serviced"]);
    bytes ← readBlkioStatFile (path_join [cgRoot; "blkio"; dir; "blkio.throttle.io_service_bytes"]);
    Some (foldl (add_blkio set_bytes) (foldl (add_blkio set_ops) ∅ ops) bytes).

Definition io_value (s : IOStat) (kv : string) : IOStat :=
  match split_n 2 "=" kv with
  | [k; v] =>
      match parse_uint 64 v with
      | Some v => if String.eqb k "rbytes" then set_bytes s "Read" v
                  else if String.eqb k "wbytes" then set_bytes s "Write" v
                  else if String.eqb k "rios" then set_ops s "Read" v
                  else if String.eqb k "wios" then set_ops s "Write" v else s
      | None => s
      end
  | _ => s
  end.
Definition add_io_line (m : gmap string IOStat) (line : string) : gmap string IOStat :=
  match fields line with
  | dev :: values => if (length values <? 4)%nat then m else <[dev := foldl io_value no_io values]> m
  | [] => m
  end.
Definition ioStatV2 (cg : Cgroup) : option (gmap string IOStat) :=
  let dir := subsystem cg "" in
  if String.eqb dir "" then None
  else payload ← ReadFile (path_join [cg2Root; dir; "io.stat"]); Some (foldl add_io_line ∅ (lines payload)).
(** The nil map of a failure is as good as the empty one. *)
Definition IOStat_ (cg : Cgroup) : gmap string IOStat :=
  default ∅ (if String.eqb (subsystem cg "blkio") "" then ioStatV2 cg else ioStatV1 cg).

(** *** Pressure *)

Definition add_pressure (p : PressureTotals) (line : string) : option PressureTotals :=
  match fields line with
  | [] => Some p
  | kind :: parts =>
      match List.find (has_prefix "total=") parts with
      | None => Some p
      | Some t =>
          v ← parse_uint 64 (trim_prefix "total=" t);
          let secs := fdiv (f_of_Z v) micro in
          Some (if String.eqb kind "some" then mk_pressure secs (FullSecondsTotal p)
                else if String.eqb kind "full" then mk_pressure (SomeSecondsTotal p) secs else p)
      end
  end.
Definition readPressure (cg : Cgroup) (controller : string) : option PressureTotals :=
  data ← ReadFile (path_join [cg2Root; subsystem cg ""; controller +:+ ".pressure"]);
  foldl (fun p line => p ← p; add_pressure p line) (Some (mk_pressure f64_zero f64_zero)) (lines (trim_space data)).
Definition PSI (cg : Cgroup) : option PSIStats :=
  if String.eqb (subsystem cg "") "" then None
  else c ← readPressure cg "cpu"; m ← readPressure cg "memory"; i ← readPressure cg "io"; Some (mk_psi c m i).

Definition CreatedAt (cg : Cgroup) : Z :=
  let p := if negb (String.eqb (subsystem cg "") "") then path_join [cg2Root; subsystem cg ""]
           else if negb (String.eqb (subsystem cg "cpu") "") then path_join [cgRoot; "cpu"; subsystem cg "cpu"]
           else if negb (String.eqb (subsystem cg "memory") "") then path_join [cgRoot; "memory"; subsystem cg "memory"]
           else "" in
  if String.eqb p "" then zero_time else default zero_time (ModTime p).
End files.

(** [ContainerType.String]. *)
Definition type_name (t : ContainerType) : string :=
  match t with
  | ContainerTypeStandaloneProcess => "standalone"
  | ContainerTypeDocker => "docker"
  | ContainerTypeCrio => "crio"
  | ContainerTypeContainerd => "cri-containerd"
  | ContainerTypeLxc => "lxc"
  | ContainerTypeSystemdService => "systemd"
  | _ => "unknown"
  end.
End CgroupStats.
