(* ===== verification/Resolvers.v ===== *)
(** * Who a process or an address is (internal/ebpf: podresolver.go, containerresolver.go)

    The bridge, the receivers of traces and the tailers ask for the pod or the container of a
    process and of an address.  The container of a process comes from its control group and is
    kept for some time; pods come from the list of the kubelet, containers from Docker.

    Requests, files, the decoding of JSON, case mapping and the order of maps are arguments. *)

From S2P Require Import Prelude GoStrings Wire Webhook CriTailer DockerLogs Cgroup.
#[local] Open Scope Z_scope.

Module Resolvers.
Import Cgroup(NewFromProcessCgroupFile, ContainerId).
Import Webhook(WorkloadOf, Lookup).

(** ** The pods of the node *)

Record NamespacedName := mk_name {
  Container : string;
  Image : string;
  Namespace : string;
  Pod : string;
  Workload : string;
  Node : string;
}.
Definition no_name : NamespacedName := mk_name "" "" "" "" "" "".
Record PodSvcMeta := mk_svc { Labels : tagmap; Service : string; Version : string; Env : string }.
Record PodIndex := mk_index {
  ByContainerID : gmap string NamespacedName;
  ByPodIP : gmap string NamespacedName;
  ByNsPod : gmap string PodSvcMeta;
}.

Record podOwnerRef := mk_owner { Kind : string; owner_Name : string }.
Record containerStatus := mk_status { st_Name : string; st_Image : string; ContainerID : string }.
Record kubeletPod := mk_pod {
  pod_Name : string;
  pod_Namespace : string;
  pod_Labels : tagmap;
  OwnerReferences : list podOwnerRef;
  NodeName : string;
  PodIP : string;
  PodIPs : list string;
  ContainerStatuses : list containerStatus;
  InitContainerStatuses : list string;   (* their identifiers *)
}.

Definition stripContainerIDPrefix (s : string) : string :=
  match cut_at "://" s with
  | Some (a, b) => if String.eqb a "" then s else b
  | None => s
  end.

Fixpoint deriveWorkload (podName : string) (owners : list podOwnerRef) : string :=
  match owners with
  | [] => WorkloadOf podName
  | o :: owners =>
      if String.eqb (Kind o) "ReplicaSet" then WorkloadOf (owner_Name o +:+ "-00000")
      else if existsb (String.eqb (Kind o)) ["StatefulSet"; "DaemonSet"; "Job"] then WorkloadOf (owner_Name o)
      else deriveWorkload podName owners
  end.

Definition add_nonempty {A} (key : string) (v : A) (m : gmap string A) : gmap string A :=
  if String.eqb key "" then m else <[key := v]> m.

Definition pod_name (p : kubeletPod) : NamespacedName :=
  mk_name "" "" (pod_Namespace p) (pod_Name p) (deriveWorkload (pod_Name p) (OwnerReferences p)) (NodeName p).
Definition in_container (ns : NamespacedName) (c : containerStatus) : NamespacedName :=
  mk_name (st_Name c) (st_Image c) (Namespace ns) (Pod ns) (Workload ns) (Node ns).
Definition pod_svc (p : kubeletPod) : PodSvcMeta :=
  let lookup := Lookup (pod_Labels p) ∅ in mk_svc (pod_Labels p) (lookup "service") (lookup "version") (lookup "env").

Definition index_pod (idx : PodIndex) (p : kubeletPod) : PodIndex :=
  let ns := pod_name p in
  let byID := foldl (fun m c => add_nonempty (stripContainerIDPrefix (ContainerID c)) (in_container ns c) m)
                (ByContainerID idx) (ContainerStatuses p) in
  let byID := foldl (fun m id => add_nonempty (stripContainerIDPrefix id) ns m) byID (InitContainerStatuses p) in
  let byIP := foldl (fun m ip => add_nonempty ip ns m) (add_nonempty (PodIP p) ns (ByPodIP idx)) (PodIPs p) in
  mk_index byID byIP (<[pod_Namespace p +:+ "/" +:+ pod_Name p := pod_svc p]> (ByNsPod idx)).
Definition index_pods (items : list kubeletPod) : PodIndex := foldl index_pod (mk_index ∅ ∅ ∅) items.

Record httpPodLister := mk_lister { url : string; token : string; insecure : bool }.

Definition newHTTPPodLister (ReadFile : string -> option string) (AppendCertsFromPEM : string -> bool)
    (url tokenFile caFile : string) (insecure : bool) : res httpPodLister :=
  let lister insecure :=
    let url := trim_right_slashes url +:+ "/pods" in
    if String.eqb tokenFile "" then Ok (mk_lister url "" insecure)
    else match ReadFile tokenFile with
         | Some b => Ok (mk_lister url (trim_space b) insecure)
         | None => Err "read token"
         end in
  if negb (String.eqb caFile "") && negb insecure then
    match ReadFile caFile with
    | None => Err "read ca"
    | Some ca => if AppendCertsFromPEM ca then lister false else Err "ca contains no PEM"
    end
  else lister insecure.

(** The answer of the kubelet: none when the request fails, its status and its body. *)
Definition List_ (decode : string -> option (list kubeletPod)) (answer : option (Z * string)) : res PodIndex :=
  match answer with
  | None => Err "GET"
  | Some (status, body) =>
      if negb (status =? 200) then Err "kubelet /pods status"
      else match decode body with Some items => Ok (index_pods items) | None => Err "decode kubelet /pods" end
  end.

(** ** The resolver of pods *)

Record pidCacheEntry := mk_pid { containerID : string; expires : Z }.
Record PodResolverImpl := mk_resolver {
  lister : httpPodLister;
  pidToID : gmap Z pidCacheEntry;
  idToPod : gmap string NamespacedName;
  ipToPod : gmap string NamespacedName;
  nsPodToSvc : gmap string PodSvcMeta;
}.
Definition set_pids (m : gmap Z pidCacheEntry) (r : PodResolverImpl) : PodResolverImpl :=
  mk_resolver (lister r) m (idToPod r) (ipToPod r) (nsPodToSvc r).

Definition pidCacheTTL : Z := 5 * minute.
Definition NewPodResolver (l : res httpPodLister) : res PodResolverImpl :=
  match l with Ok l => Ok (mk_resolver l ∅ ∅ ∅ ∅) | Err e => Err e end.

Definition refresh (idx : res PodIndex) (r : PodResolverImpl) : PodResolverImpl :=
  match idx with
  | Ok idx => mk_resolver (lister r) (pidToID r) (ByContainerID idx) (ByPodIP idx) (ByNsPod idx)
  | Err _ => r
  end.

Definition proc_cgroup (pid : Z) : string := "/proc/" +:+ itoa pid +:+ "/cgroup".

Definition containerIDFor (now : Z) (ReadFile : string -> option string) (pid : Z) (r : PodResolverImpl)
    : string * PodResolverImpl :=
  let read :=
    let '(id, ttl) := match NewFromProcessCgroupFile (ReadFile (proc_cgroup pid)) with
                      | Ok cg => (ContainerId cg, pidCacheTTL)
                      | Err _ => ("", 30 * second)
                      end in
    (id, set_pids (<[pid := mk_pid id (now + ttl)]> (pidToID r)) r) in
  match pidToID r !! pid with
  | Some entry => if now <? expires entry then (containerID entry, r) else read
  | None => read
  end.

Definition Resolve (now : Z) (ReadFile : string -> option string) (pid : Z) (r : PodResolverImpl)
    : option (string * string) * PodResolverImpl :=
  let '(id, r) := containerIDFor now ReadFile pid r in
  (if String.eqb id "" then None else (fun pod => (Namespace pod, Pod pod)) <$> idToPod r !! id, r).

(** Namespace, pod, container and image, and whether they are known. *)
Definition ResolveContainer (now : Z) (ReadFile : string -> option string) (pid : Z) (r : PodResolverImpl)
    : (string * string * string * string * bool) * PodResolverImpl :=
  let '(id, r) := containerIDFor now ReadFile pid r in
  let pod := default no_name (idToPod r !! id) in
  (Namespace pod, Pod pod, Container pod, Image pod,
   bool_decide (is_Some (idToPod r !! id)) && negb (String.eqb (Container pod) ""), r).

Definition ResolveIP (ip : string) (r : PodResolverImpl) : option (string * string) :=
  if String.eqb ip "" then None else (fun pod => (Namespace pod, Pod pod)) <$> ipToPod r !! ip.
Definition ResolveIPMeta (ip : string) (r : PodResolverImpl) : option (string * string * string * string) :=
  if String.eqb ip "" then None else (fun pod => (Namespace pod, Pod pod, Workload pod, Node pod)) <$> ipToPod r !! ip.

Definition ServiceForPod (namespace pod : string) (r : PodResolverImpl) : option (string * string * string) :=
  match nsPodToSvc r !! (namespace +:+ "/" +:+ pod) with
  | Some m => if String.eqb (Service m) "" then None else Some (Service m, Version m, Env m)
  | None => None
  end.
Definition LabelsForPod (namespace pod : string) (r : PodResolverImpl) : tagmap :=
  match nsPodToSvc r !! (namespace +:+ "/" +:+ pod) with Some m => Labels m | None => ∅ end.
Definition PrimaryTagSources (r : PodResolverImpl) : gset string :=
  set_map (fun key => "kube_label." +:+ key) (map_fold (fun _ m out => dom (Labels m) ∪ out) (∅ : gset string) (nsPodToSvc r)).

Section order.
Variable enum : forall A : Type, gmap string A -> list (string * A).

Definition of_pod (namespace pod : string) (x : string * NamespacedName) : bool :=
  String.eqb (Namespace x.2) namespace && String.eqb (Pod x.2) pod.
Definition NodeForPod (namespace pod : string) (r : PodResolverImpl) : option string :=
  match List.find (of_pod namespace pod) (enum _ (idToPod r)) with
  | Some x => Some (Node x.2)
  | None => (fun x => Node x.2) <$> List.find (of_pod namespace pod) (enum _ (ipToPod r))
  end.

(** ** Docker *)

Record pidEntry := mk_pid_entry { pe_containerID : string; pe_expires : Z }.
Record serviceEntry := mk_service_entry { service : string; se_expires : Z }.
Record DockerContainerResolver := mk_docker {
  dc_pidToID : gmap Z pidEntry;
  idToService : gmap string serviceEntry;
  ipToSvc : gmap string string;
  ipExpires : Z;
}.
Definition NewDockerContainerResolver (connected : bool) : option DockerContainerResolver :=
  if connected then Some (mk_docker ∅ ∅ ∅ zero_time) else None.

Definition pidTTL : Z := 60 * second.
Definition serviceTTL : Z := 5 * minute.
Definition ipMapTTL : Z := 30 * second.

(** [uitoa]: the digits of a number of 32 bits, in a buffer of ten. *)
Fixpoint uitoa_loop (fuel : nat) (n : Z) (acc : string) : string :=
  match fuel with
  | O => acc
  | S fuel => if 0 <? n then uitoa_loop fuel (n / 10) (String (chr (48 + n mod 10)) acc) else acc
  end.
Definition uitoa (n : Z) : string := if n =? 0 then "0" else uitoa_loop 10 n "".

Definition dc_containerIDFor (now : Z) (ReadFile : string -> option string) (pid : Z) (r : DockerContainerResolver)
    : string * DockerContainerResolver :=
  let read :=
    let id := match NewFromProcessCgroupFile (ReadFile ("/proc/" +:+ uitoa pid +:+ "/cgroup")) with
              | Ok cg => ContainerId cg
              | Err _ => ""
              end in
    (id, mk_docker (<[pid := mk_pid_entry id (now + pidTTL)]> (dc_pidToID r)) (idToService r) (ipToSvc r) (ipExpires r)) in
  match dc_pidToID r !! pid with
  | Some e => if now <? pe_expires e then (pe_containerID e, r) else read
  | None => read
  end.

Variable ToLower : string -> string.

Definition sanitize : string -> string := CriTailer.sanitizeName ToLower.

(** A container that is listed, with its networks; an address of a network is IPv4 or IPv6. *)
Record endpoint := mk_endpoint { IPAddress : string; GlobalIPv6Address : string }.
Record listed := mk_listed { summary : DockerLogs.Summary; Networks : option (gmap string (option endpoint)) }.

Definition deriveServiceNameFromSummary (s : DockerLogs.Summary) : string :=
  let v := tag "com.docker.compose.service" (DockerLogs.sm_Labels s) in
  if negb (String.eqb v "") then sanitize v
  else
    let name := match DockerLogs.sm_Names s with n :: _ => trim_prefix "/" n | [] => "" end in
    if negb (String.eqb name "") then sanitize name
    else sanitize (cut ":" (DockerLogs.base_name (DockerLogs.sm_Image s))).1.1.

Definition add_container (next : gmap string string) (c : listed) : gmap string string :=
  let svc := deriveServiceNameFromSummary (summary c) in
  match Networks c with
  | None => next
  | Some networks =>
      if String.eqb svc "" then next
      else foldl (fun next kv =>
             match kv.2 with
             | None => next
             | Some ep => add_nonempty (GlobalIPv6Address ep) svc (add_nonempty (IPAddress ep) svc next)
             end) next (enum _ networks)
  end.

(** [containers]: what Docker lists, none when it fails. *)
Definition refreshIPMapIfStale (now : Z) (containers : option (list listed)) (r : DockerContainerResolver)
    : DockerContainerResolver :=
  if now <? ipExpires r then r
  else mk_docker (dc_pidToID r) (idToService r)
         (match containers with Some l => foldl add_container ∅ l | None => ∅ end) (now + ipMapTTL).

Definition ResolveServiceByIP (now : Z) (containers : option (list listed)) (ip : string)
    (r : option DockerContainerResolver) : option string * option DockerContainerResolver :=
  match r with
  | None => (None, None)
  | Some r =>
      if String.eqb ip "" then (None, Some r)
      else
        let r := refreshIPMapIfStale now containers r in
        (match ipToSvc r !! ip with Some svc => if String.eqb svc "" then None else Some svc | None => None end, Some r)
  end.

(** What Docker tells of one container; its name and configuration may be missing. *)
Record InspectResponse := mk_inspect { ins_Name : string; Config : option (tagmap * string) }.

(** None where the code panics. *)
Definition deriveServiceName (info : InspectResponse) : option string :=
  let v := match Config info with Some (labels, _) => tag "com.docker.compose.service" labels | None => "" end in
  if negb (String.eqb v "") then Some (sanitize v)
  else
    let name := trim_prefix "/" (ins_Name info) in
    if negb (String.eqb name "") then Some (sanitize name)
    else match Config info with
         | None => None
         | Some (_, img) => Some (sanitize (cut ":" (DockerLogs.base_name img)).1.1)
         end.

(** None where the code panics; [info]: the answer of Docker, none when it fails. *)
Definition serviceFor (now : Z) (info : option InspectResponse) (cid : string) (r : DockerContainerResolver)
    : option (string * DockerContainerResolver) :=
  let read :=
    svc ← (match info with Some info => deriveServiceName info | None => Some "" end);
    Some (svc, mk_docker (dc_pidToID r) (<[cid := mk_service_entry svc (now + serviceTTL)]> (idToService r))
                 (ipToSvc r) (ipExpires r)) in
  match idToService r !! cid with
  | Some e => if now <? se_expires e then Some (service e, r) else read
  | None => read
  end.

Definition ResolveService (now now' : Z) (ReadFile : string -> option string) (inspect : string -> option InspectResponse)
    (pid : Z) (r : option DockerContainerResolver) : option (option string * option DockerContainerResolver) :=
  match r with
  | None => Some (None, None)
  | Some r =>
      let '(cid, r) := dc_containerIDFor now ReadFile pid r in
      if String.eqb cid "" then Some (None, Some r)
      else
        sr ← serviceFor now' (inspect cid) cid r;
        Some (if String.eqb sr.1 "" then None else Some sr.1, Some sr.2)
  end.
End order.
End Resolvers.
