(* ===== verification/ResolversProps.v ===== *)
(** * What the resolvers of pods promise

    A process is given the pod of a container that its control group named lately; the index of
    the pods is exactly what the kubelet listed; the workload of a pod of a deployment is the
    deployment. *)

From S2P Require Import Prelude GoStrings Wire Webhook Cgroup Resolvers.
#[local] Open Scope Z_scope.

Module ResolversProps.
Import Resolvers.

(** ** The cache of processes *)

(** What happens to a resolver: the list of the kubelet arrives, or fails, and a process is asked
    for, while the files have some contents. *)
Inductive event :=
  | Listed (idx : res PodIndex)
  | Asked (now : Z) (files : string -> option string) (pid : Z).

Definition step (r : PodResolverImpl) (e : event) : PodResolverImpl :=
  match e with
  | Listed idx => refresh idx r
  | Asked now files pid => (Resolve now files pid r).2
  end.
Definition after_events (l : httpPodLister) (evs : list event) : PodResolverImpl :=
  foldl step (mk_resolver l ∅ ∅ ∅ ∅) evs.

(** When a process was asked for, and the file of its control group at that time. *)
Definition asked (pid : Z) (evs : list event) : list (Z * option string) :=
  omap (fun e => match e with
                 | Asked now files p => if decide (p = pid) then Some (now, files ("/proc/" +:+ pretty pid +:+ "/cgroup")) else None
                 | Listed _ => None
                 end) evs.

(** The container that a file names, and for how long this is relied on. *)
Definition told (file : option string) : string * Z :=
  match Cgroup.NewFromProcessCgroupFile file with
  | Ok cg => (Cgroup.ContainerId cg, 300 * second)
  | Err _ => ("", 30 * second)
  end.

(** The containers of the list that came last. *)
Definition listed_containers (evs : list event) : gmap string NamespacedName :=
  foldl (fun m e => match e with Listed (Ok idx) => ByContainerID idx | _ => m end) ∅ evs.

Lemma resolve_index now files pid r : idToPod (Resolve now files pid r).2 = idToPod r.
Proof.
  unfold Resolve, containerIDFor. destruct (pidToID r !! pid) as [e|].
  - destruct (now <? expires e); [done|]. by destruct (Cgroup.NewFromProcessCgroupFile _).
  - by destruct (Cgroup.NewFromProcessCgroupFile _).
Qed.

Lemma index_after l evs : idToPod (after_events l evs) = listed_containers evs.
Proof.
  induction evs as [|e evs IH] using rev_ind; [done|]. unfold after_events, listed_containers in *.
  rewrite !foldl_app. destruct e as [[idx|e]|now files pid]; cbn [foldl step refresh]; [done|exact IH|].
  by rewrite resolve_index.
Qed.

(** Every entry comes from a reading of the file when the process was asked for. *)
Definition explained (pid : Z) (evs : list event) (id : string) (until : Z) : Prop :=
  exists at_ file, (at_, file) ∈ asked pid evs /\ id = (told file).1 /\ until = at_ + (told file).2.

Lemma explained_app pid evs evs' id until : explained pid evs id until -> explained pid (evs ++ evs') id until.
Proof. intros (t & f & H & E). exists t, f. split; [|exact E]. unfold asked. rewrite omap_app. apply elem_of_app. by left. Qed.

(** What is read now is explained by asking now. *)
Lemma read_explained pid evs now files :
  explained pid (evs ++ [Asked now files pid]) (told (files (proc_cgroup pid))).1 (now + (told (files (proc_cgroup pid))).2).
Proof.
  exists now, (files (proc_cgroup pid)). split; [|done]. unfold asked. rewrite omap_app. cbn.
  rewrite decide_True by done. apply elem_of_app. right. apply list_elem_of_here.
Qed.

(** What [containerIDFor] gives: what the cache holds, or what the file tells. *)
Lemma container_of_process now files pid r :
  containerIDFor now files pid r =
  match pidToID r !! pid with
  | Some e => if now <? expires e then (containerID e, r)
              else ((told (files (proc_cgroup pid))).1,
                    set_pids (<[pid := mk_pid (told (files (proc_cgroup pid))).1 (now + (told (files (proc_cgroup pid))).2)]> (pidToID r)) r)
  | None => ((told (files (proc_cgroup pid))).1,
             set_pids (<[pid := mk_pid (told (files (proc_cgroup pid))).1 (now + (told (files (proc_cgroup pid))).2)]> (pidToID r)) r)
  end.
Proof.
  unfold containerIDFor, told. by destruct (Cgroup.NewFromProcessCgroupFile (files (proc_cgroup pid))).
Qed.

Definition cache_explained (evs : list event) (pids : gmap Z pidCacheEntry) : Prop :=
  map_Forall (fun pid e => explained pid evs (containerID e) (expires e)) pids.

Lemma cache_explained_app evs evs' pids : cache_explained evs pids -> cache_explained (evs ++ evs') pids.
Proof. intros H pid e He. by apply explained_app, H. Qed.

Lemma cache_after l evs : cache_explained evs (pidToID (after_events l evs)).
Proof.
  induction evs as [|e evs IH] using rev_ind; [apply map_Forall_empty|]. unfold after_events in *. rewrite foldl_app.
  set (r := foldl step _ evs) in *. cbn. destruct e as [[idx|e]|now files pid]; cbn; [by apply cache_explained_app..|].
  assert (Hs : (Resolve now files pid r).2 = (containerIDFor now files pid r).2).
  { unfold Resolve. by destruct (containerIDFor now files pid r). }
  rewrite Hs, container_of_process.
  assert (Hnew : cache_explained (evs ++ [Asked now files pid])
                   (<[pid := mk_pid (told (files (proc_cgroup pid))).1 (now + (told (files (proc_cgroup pid))).2)]> (pidToID r))).
  { apply map_Forall_insert_2; [apply read_explained|by apply cache_explained_app]. }
  destruct (pidToID r !! pid) as [e|]; [|exact Hnew]. case_match; [by apply cache_explained_app|exact Hnew].
Qed.

(** C28: Whatever lists have come and whatever was asked before, a process is given exactly the pod
    that the last list of the kubelet shows for a container, or no pod where it shows none: the
    container that the control group of this process id named when it was asked for now, or at most
    five minutes ago, and when its file could not be read at most thirty seconds ago.  An entry of
    the cache is never relied on longer, nor that of another process. *)
Theorem pod_was_recent l evs now files pid :
  exists at_ file,
    (at_, file) ∈ asked pid (evs ++ [Asked now files pid]) /\
    (at_ = now \/ now < at_ + (told file).2) /\
    fst (Resolve now files pid (after_events l evs))
    = (if String.eqb (told file).1 "" then None
       else (fun p => (Namespace p, Pod p)) <$> listed_containers evs !! (told file).1).
Proof.
  pose proof (index_after l evs) as Hi. pose proof (cache_after l evs) as Hc. set (r := after_events l evs) in *.
  assert (Hread : forall r', idToPod r' = idToPod r -> containerIDFor now files pid r = ((told (files (proc_cgroup pid))).1, r') ->
    exists at_ file, (at_, file) ∈ asked pid (evs ++ [Asked now files pid]) /\ (at_ = now \/ now < at_ + (told file).2) /\
    fst (Resolve now files pid r) = (if String.eqb (told file).1 "" then None
       else (fun p => (Namespace p, Pod p)) <$> listed_containers evs !! (told file).1)).
  { intros r' Hr' Hcid. exists now, (files (proc_cgroup pid)). split.
    - unfold asked. rewrite omap_app. cbn. rewrite decide_True by done. apply elem_of_app. right. apply list_elem_of_here.
    - split; [by left|]. unfold Resolve. rewrite Hcid. cbn [fst]. by rewrite Hr', Hi. }
  pose proof (container_of_process now files pid r) as Hcid.
  destruct (pidToID r !! pid) as [e|] eqn:He; [|by eapply Hread; [|exact Hcid]].
  destruct (now <? expires e) eqn:Hx; [|by eapply Hread; [|exact Hcid]].
  apply Hc in He as (t & f & Hf & E1 & E2). exists t, f.
  split; [unfold asked; rewrite omap_app; by apply elem_of_app; left|]. split; [right; lia|].
  unfold Resolve. rewrite Hcid. cbn [fst]. by rewrite Hi, E1.
Qed.

(** ** The index of the kubelet's list *)

(** What a pod says of its containers and of its addresses, in the order of the list. *)
Definition identities (p : kubeletPod) : list (string * NamespacedName) :=
  let name := mk_name "" "" (pod_Namespace p) (pod_Name p) (deriveWorkload (pod_Name p) (OwnerReferences p)) (NodeName p) in
  filter (fun kv => kv.1 <> "")
    (((fun c => (stripContainerIDPrefix (ContainerID c),
                 mk_name (st_Name c) (st_Image c) (pod_Namespace p) (pod_Name p) (Workload name) (NodeName p)))
        <$> ContainerStatuses p)
     ++ ((fun id => (stripContainerIDPrefix id, name)) <$> InitContainerStatuses p)).
Definition addresses (p : kubeletPod) : list (string * NamespacedName) :=
  filter (fun kv => kv.1 <> "") ((fun ip => (ip, pod_name p)) <$> (PodIP p :: PodIPs p)).

Definition last_wins {A} (l : list (string * A)) : gmap string A := list_to_map (reverse l).

Lemma last_wins_app {A} (l : list (string * A)) k v : last_wins (l ++ [(k, v)]) = <[k := v]> (last_wins l).
Proof. unfold last_wins. by rewrite reverse_app. Qed.

Lemma fold_nonempty {A X} (key : X -> string) (val : X -> A) xs l :
  foldl (fun m x => add_nonempty (key x) (val x) m) (last_wins l) xs
  = last_wins (l ++ filter (fun kv => kv.1 <> "") ((fun x => (key x, val x)) <$> xs)).
Proof.
  revert l. induction xs as [|x xs IH]; intros l; [by rewrite app_nil_r|]. cbn [foldl]. unfold add_nonempty at 2.
  rewrite fmap_cons, filter_cons. cbn [fst]. destruct (String.eqb_spec (key x) "") as [E|E].
  - rewrite decide_False by tauto. apply IH.
  - rewrite decide_True by done. rewrite <- last_wins_app, IH, <- app_assoc. done.
Qed.

Definition indexed (items : list kubeletPod) : PodIndex :=
  mk_index (last_wins (items ≫= identities)) (last_wins (items ≫= addresses))
    (last_wins ((fun p => (pod_Namespace p +:+ "/" +:+ pod_Name p, pod_svc p)) <$> items)).

Lemma index_is items : index_pods items = indexed items.
Proof.
  induction items as [|p items IH] using rev_ind; [done|]. unfold index_pods in *. rewrite foldl_app, IH. cbn [foldl].
  unfold index_pod, indexed. cbn [ByContainerID ByPodIP ByNsPod]. rewrite !bind_app, fmap_app. cbn [mbind list_bind].
  rewrite !app_nil_r. f_equal.
  - rewrite (fold_nonempty (fun c => stripContainerIDPrefix (ContainerID c)) (in_container (pod_name p))).
    rewrite (fold_nonempty stripContainerIDPrefix (fun _ => pod_name p)). unfold identities. by rewrite filter_app, app_assoc.
  - apply (fold_nonempty (fun ip => ip) (fun _ => pod_name p) (PodIP p :: PodIPs p)).
  - cbn [fmap list_fmap]. by rewrite last_wins_app.
Qed.

(** ** Workloads *)

(** The parts of a name between dashes. *)
Fixpoint dashed (s : string) : list string :=
  match s with
  | "" => [""]
  | String c r =>
      if Ascii.ascii_dec (chr 45) c then "" :: dashed r
      else match dashed r with x :: l => String c x :: l | [] => [] end
  end.

Lemma dashed_nonempty s : exists x l, dashed s = x :: l.
Proof. induction s as [|c s (x & l & IH)]; cbn; [by eexists _, _|]. case_match; [by eexists _, _|]. rewrite IH. by eexists _, _. Qed.

Lemma split_dashed n s : (String.length s < n)%nat -> split_n n "-" s = dashed s.
Proof.
  assert (H : forall n s, (String.length s < n)%nat ->
    split_n n "-" s = dashed s /\
    match cut_at "-" s with
    | Some (a, b) => dashed s = a :: dashed b /\ (String.length b < String.length s)%nat
    | None => dashed s = [s]
    end).
  { clear. intros n s. revert n. assert (Hcut : forall s, match cut_at "-" s with
      | Some (a, b) => dashed s = a :: dashed b /\ (String.length b < String.length s)%nat | None => dashed s = [s] end).
    { clear. induction s as [|c s IH]; [done|]. change "-" with (String (chr 45) "") in *. rewrite cut_at_char_cons. cbn [dashed].
      destruct (Ascii.ascii_dec (chr 45) c); [cbn; split; [done|lia]|].
      destruct (cut_at _ s) as [[a b]|]; [destruct IH as [-> Hl]; cbn; split; [done|lia]|by rewrite IH]. }
    intros n. split; [|apply Hcut]. revert s H. induction n as [|n IH]; intros s H; [lia|]. specialize (Hcut s).
    destruct n as [|n]; [destruct s; [done|cbn in H; lia]|].
    change (split_n (S (S n)) "-" s) with (match cut_at "-" s with Some (a, b) => a :: split_n (S n) "-" b | None => [s] end).
    destruct (cut_at "-" s) as [[a b]|]; [|done]. destruct Hcut as [-> Hl]. f_equal. apply IH. lia. }
  intros Hn. by apply H.
Qed.

Lemma split_dashes s : split "-" s = dashed s.
Proof. apply split_dashed. lia. Qed.

Lemma dashed_app s t : dashed (s +:+ "-" +:+ t) = dashed s ++ dashed t.
Proof.
  induction s as [|c s IH]; [by rewrite str_app_nil_l|]. rewrite str_app_cons. cbn [dashed]. rewrite IH.
  case_match; [done|]. by destruct (dashed_nonempty s) as (x & l & ->).
Qed.

Lemma join_dashed s : join "-" (dashed s) = s.
Proof.
  induction s as [|c s IH]; [done|]. cbn [dashed]. destruct (Ascii.ascii_dec (chr 45) c) as [<-|Hc].
  - destruct (dashed_nonempty s) as (x & l & E). rewrite E in *. change (join "-" ("" :: x :: l)) with ("-" +:+ join "-" (x :: l)).
    by rewrite IH.
  - destruct (dashed_nonempty s) as (x & l & E). rewrite E in *. destruct l as [|y l]; cbn in *; by rewrite <- IH.
Qed.

Lemma dashed_alnum s : Webhook.all_bytes Webhook.is_lower_alnum s = true -> dashed s = [s].
Proof.
  induction s as [|c s IH]; [done|]. unfold Webhook.all_bytes in *. cbn [String.list_ascii_of_string forallb dashed].
  intros [Hc Hs]%andb_prop. rewrite (IH Hs). destruct (Ascii.ascii_dec (chr 45) c) as [<-|]; [discriminate Hc|done].
Qed.

Lemma alnum_dashed s : Webhook.isAlnumLower s = true -> dashed s = [s].
Proof. intros [_ H]%andb_prop. by apply dashed_alnum. Qed.

(** The pods of a deployment and its replica sets have the name of the deployment with one or two
    parts behind it. *)
Lemma workload_of_pod name hash suffix :
  Webhook.isReplicaSetHash hash = true -> Webhook.isPodSuffix suffix = true ->
  Webhook.WorkloadOf (name +:+ "-" +:+ hash +:+ "-" +:+ suffix) = name.
Proof.
  intros Hh Hs. unfold Webhook.WorkloadOf. destruct (String.eqb_spec (name +:+ "-" +:+ hash +:+ "-" +:+ suffix) "") as [E|_].
  { exfalso. by destruct name. }
  rewrite split_dashes, !dashed_app.
  rewrite (alnum_dashed hash) by (unfold Webhook.isReplicaSetHash in Hh; by do 2 apply andb_prop in Hh as [Hh ?]).
  rewrite (alnum_dashed suffix) by (by apply andb_prop in Hs as [_ ?]).
  destruct (dashed_nonempty name) as (x & l & E). set (parts := dashed name) in *.
  assert (Hlen : length (parts ++ [hash] ++ [suffix]) = S (S (length parts))) by (rewrite !length_app; cbn; lia).
  rewrite Hlen. assert (Hpos : (1 <= length parts)%nat) by (rewrite E; cbn; lia).
  cbn zeta. replace (S (S (length parts)) <? 2)%nat with false by (symmetry; apply Nat.ltb_ge; lia).
  rewrite app_assoc, List.last_last, Hs. cbn [negb andb]. rewrite <- app_assoc.
  replace (S (S (length parts)) - 1)%nat with (S (length parts)) by lia.
  replace (2 <=? S (length parts))%nat with true by (symmetry; apply Nat.leb_le; lia).
  replace (S (length parts) - 1)%nat with (length parts) by lia.
  rewrite List.app_nth2 by lia. rewrite Nat.sub_diag. cbn [nth app]. rewrite Hh. cbn [andb].
  rewrite take_app_length. apply join_dashed.
Qed.

(** The workload of a pod of a deployment is the deployment, whatever name it has (with dashes,
    digits or parts that look like hashes), whether it is told by the owner, a replica set, or by
    the name of the pod alone. *)
Lemma deployment_recovered name hash suffix owners :
  Webhook.isReplicaSetHash hash = true -> Webhook.isPodSuffix suffix = true ->
  let pod := name +:+ "-" +:+ hash +:+ "-" +:+ suffix in
  deriveWorkload pod [] = name /\
  deriveWorkload pod (mk_owner "ReplicaSet" (name +:+ "-" +:+ hash) :: owners) = name.
Proof.
  intros Hh Hs. split; [by apply workload_of_pod|]. cbn [deriveWorkload Kind owner_Name String.eqb].
  cbn [Ascii.eqb Bool.eqb]. rewrite !str_app_assoc. by apply workload_of_pod.
Qed.
Example deployment_recovered_example :
  deriveWorkload "multi-word-app-6d4b9c7f8-x2k9p" [] = "multi-word-app" /\
  deriveWorkload "multi-word-app-6d4b9c7f8-x2k9p" [mk_owner "ReplicaSet" "multi-word-app-6d4b9c7f8"] = "multi-word-app".
Proof. apply (deployment_recovered "multi-word-app" "6d4b9c7f8" "x2k9p" []); reflexivity. Qed.

(** ** Observations *)

(** The name of an owner is cut as if it were the name of a pod: a daemon set whose last part has
    five letters is known by the rest, though its name is its own. *)
Example owner_is_cut :
  deriveWorkload "node-agent-x2k9p" [mk_owner "DaemonSet" "node-agent"] = "node" /\
  deriveWorkload "redis-cache-0" [mk_owner "StatefulSet" "redis-cache"] = "redis".
Proof. by vm_compute. Qed.

Definition simple_pod (name ip : string) (id : string) : kubeletPod :=
  mk_pod name "prod" ∅ [] "n1" ip [] [mk_status "main" "img" ("containerd://" +:+ id)] [].

(** Pods that have finished stay in the list with their address: one that is listed later takes an
    address from the pod that has it now. *)
Example finished_pod_takes_address l :
  ResolveIP "10.0.0.7" (refresh (Ok (index_pods [simple_pod "web-0" "10.0.0.7" "a"; simple_pod "migration" "10.0.0.7" "b"]))
                         (mk_resolver l ∅ ∅ ∅ ∅))
  = Some ("prod", "migration").
Proof. by vm_compute. Qed.

Definition id_of (z : Z) : string := String.string_of_list_ascii (repeat (chr z) 64).
Definition in_pod (z : Z) (_ : string) : option string := Some ("0::/kubepods/cri-containerd-" +:+ id_of z +:+ ".scope").

(** A process id that is given to another process keeps the pod of the first for five minutes. *)
Example recycled_process_keeps_pod l :
  fst (Resolve (299 * second) (in_pod 98) 42
         (after_events l [Listed (Ok (index_pods [simple_pod "web-0" "10.0.0.7" (id_of 97); simple_pod "db-0" "10.0.0.8" (id_of 98)]));
                          Asked 0 (in_pod 97) 42]))
  = Some ("prod", "web-0").
Proof. by vm_compute. Qed.
End ResolversProps.
