(* ===== verification/ClusterAgent.v ===== *)
(** * The agent of a cluster (internal/clusteragent: resource_metrics.go, state_extras.go,
    clusteragent.go)

    [ClusterMetrics] is what objects give as metrics, [ClusterAgent] the lists that are asked for,
    the events and the inventory, and what is pushed.  Objects are JSON documents.  From the resources of the inventory come the states of pods,
    containers, nodes and workloads with the totals of what is allocated; from other objects
    (addresses, volumes, secrets without their content) come counts.

    Numbers, times, the case tables, the encoding of tags and the order of maps are arguments. *)

From S2P Require Import Prelude GoStrings GoFloat Wire Processing Prom Webhook.
#[local] Open Scope Z_scope.

Module ClusterMetrics.
Import Processing(json, JNull, JBool, JNumber, JString, JArray, JObject, jobject).

(** ** Reading documents: a value of another type, or none, is the empty one *)

Definition at_ (m : jobject) (k : string) : json := default JNull (m !! k).
Definition stringValue (v : json) : string := match v with JString s => s | _ => "" end.
Definition objectValue (v : json) : jobject := match v with JObject m => m | _ => ∅ end.
Definition arrayValue (v : json) : list json := match v with JArray l => l | _ => [] end.
Definition boolValue (v : json) : option bool := match v with JBool b => Some b | _ => None end.
Definition stringField (m : jobject) (k : string) : string := stringValue (at_ m k).
Definition mapField (m : jobject) (k : string) : jobject := objectValue (at_ m k).
Definition arrayField (m : jobject) (k : string) : list json := arrayValue (at_ m k).

(** ** Quantities *)

Fixpoint digits (s : string) : string * string :=
  match s with
  | String c r => if is_digit (byte_of c) then let '(a, b) := digits r in (String c a, b) else ("", s)
  | "" => ("", "")
  end.
Definition sign (s : string) : string * string :=
  match s with
  | String c r => if (byte_of c =? 43) || (byte_of c =? 45) then (String c "", r) else ("", s)
  | "" => ("", "")
  end.
(** Digits with a point among or after them, or a point before them. *)
Definition mantissa (s : string) : option (string * string) :=
  let '(whole, r) := digits s in
  match r with
  | String c r' =>
      if byte_of c =? 46 then
        let '(frac, r'') := digits r' in
        if String.eqb whole "" && String.eqb frac "" then None else Some (whole +:+ String c frac, r'')
      else if String.eqb whole "" then None else Some (whole, r)
  | "" => if String.eqb whole "" then None else Some (whole, "")
  end.
Definition exponent (s : string) : string * string :=
  match s with
  | String c r =>
      if (byte_of c =? 101) || (byte_of c =? 69) then
        let '(sg, r) := sign r in
        let '(ds, r) := digits r in
        if String.eqb ds "" then ("", s) else (String c (sg +:+ ds), r)
      else ("", s)
  | "" => ("", "")
  end.
Definition power10 (n : Z) : f64 := f_of_Z (10 ^ n).
Definition factors : gmap string f64 := list_to_map [
  ("", f64_one); ("n", fdiv f64_one (power10 9)); ("u", fdiv f64_one (power10 6)); ("m", fdiv f64_one (power10 3));
  ("k", power10 3); ("K", power10 3); ("M", power10 6); ("G", power10 9); ("T", power10 12); ("P", power10 15);
  ("E", power10 18); ("Ki", f_of_Z 1024); ("Mi", f_of_Z (2 ^ 20)); ("Gi", f_of_Z (2 ^ 30)); ("Ti", f_of_Z (2 ^ 40));
  ("Pi", f_of_Z (2 ^ 50)); ("Ei", f_of_Z (2 ^ 60))].
(** The number and the factor of a text of the form that is expected. *)
Definition quantityPattern (text : string) : option (string * f64) :=
  let '(sg, r) := sign text in
  mr ← mantissa r;
  let '(exp, suffix) := exponent mr.2 in
  factor ← factors !! suffix;
  Some (sg +:+ mr.1 +:+ exp, factor).

Definition finite (v : f64) : bool := negb (is_nan v) && negb (is_inf v).

Section metrics.
Variable ParseFloat : string -> option f64.
Variable number : string -> f64.                   (* of a JSON text *)
Variable format_whole : f64 -> string.             (* %.0f *)
Variable ToLower : string -> string.
Variable parse_time : string -> option Z.          (* RFC 3339 *)
Variable since : string -> string -> Z -> Z.       (* time.Since, when the metric of an object is made *)
Variable marshal_tags : tagmap -> string.
Variable enum : forall A : Type, gmap string A -> list (string * A).
Variable cluster : string.

Definition numberValue (v : json) : option f64 := match v with JNumber t => Some (number t) | _ => None end.

Definition resourceQuantity (v : json) : option f64 :=
  match v with
  | JString text =>
      nf ← quantityPattern text;
      n ← ParseFloat nf.1;
      let n := fmul n nf.2 in
      if fle f64_zero n && finite n then Some n else None
  | _ => None
  end.

Definition metric (name : string) (val : f64) (tags : tagmap) : Metric :=
  mk_metric None "" name val "" "" tags "k8s.cluster".
Definition flag (b : bool) : f64 := if b then f64_one else f64_zero.

(** ** The inventory *)

Definition owner_key (kind namespace name : string) : string := kind +:+ "/" +:+ namespace +:+ "/" +:+ name.
Definition owners_of (resources : list jobject) : gmap string jobject :=
  foldl (fun m r => <[owner_key (stringField r "kind") (stringField r "namespace") (stringField r "name") := r]> m) ∅ resources.

(** The owner of a pod, or the owner of that one. *)
Fixpoint climb (owners : gmap string jobject) (depth : nat) (tags : tagmap) : tagmap :=
  match depth with
  | O => tags
  | S depth =>
      match owners !! owner_key (tag "kube_workload_kind" tags) (tag "kube_namespace" tags) (tag "kube_workload_name" tags) with
      | Some owner =>
          if String.eqb (stringField owner "workload_name") "" then tags
          else climb owners depth
                 (<["kube_workload_kind" := stringField owner "workload_kind"]>
                    (<["kube_workload_name" := stringField owner "workload_name"]> tags))
      | None => tags
      end
  end.

Definition own_tags (owners : gmap string jobject) (kind name : string) (r : jobject) : tagmap :=
  let tags : tagmap := <["kube_namespace" := stringField r "namespace"]> {[ "kube_cluster_name" := cluster ]} in
  if String.eqb kind "Pod" then
    climb owners 2
      (<["kube_workload_kind" := stringField r "workload_kind"]>
         (<["kube_workload_name" := stringField r "workload_name"]>
            (<["kube_node" := stringField r "node_name"]> (<["pod_name" := name]> tags))))
  else tags.
Definition entity_tags (kind base name : string) (tags : tagmap) : tagmap :=
  let tags := <["kube_" +:+ base := name]> tags in
  if String.eqb kind "Pod" then <["pod_name" := name]> (delete "kube_pod" tags) else tags.

Definition statusFields (kind : string) : gmap string string := list_to_map
  (if String.eqb kind "Deployment"
   then [("replicas", "replicas"); ("updatedReplicas", "replicas_updated"); ("unavailableReplicas", "replicas_unavailable")]
   else if String.eqb kind "ReplicaSet"
   then [("replicas", "replicas"); ("desired_replicas", "replicas_desired"); ("readyReplicas", "replicas_ready");
         ("fullyLabeledReplicas", "fully_labeled_replicas")]
   else if String.eqb kind "DaemonSet"
   then [("numberAvailable", "daemons_available"); ("numberUnavailable", "daemons_unavailable");
         ("desiredNumberScheduled", "desired"); ("numberMisscheduled", "misscheduled"); ("numberReady", "ready");
         ("currentNumberScheduled", "scheduled"); ("updatedNumberScheduled", "updated")]
   else if String.eqb kind "Job" then [("succeeded", "succeeded"); ("failed", "failed"); ("active", "active")]
   else []).

(** [math.Floor] and [Ceil]. *)
Definition round_to (up : bool) (x : f64) : f64 :=
  match x with
  | SpecFloat.S754_finite s m e =>
      if 0 <=? e then x
      else
        let z := if s then - Z.pos m else Z.pos m in
        let q := if up then - ((- z) / 2 ^ (- e)) else z / 2 ^ (- e) in
        if q =? 0 then SpecFloat.S754_zero s else f_of_Z q
  | _ => x
  end.

Definition rolling_value (details rolling : jobject) (field : string) : option f64 :=
  let own := numberValue (at_ rolling field) in
  match at_ rolling field with
  | JString text =>
      if has_suffix "%" text then
        match ParseFloat (trim_suffix "%" text), numberValue (at_ details "desired_replicas") with
        | Some pct, Some replicas =>
            if fle f64_zero pct then Some (round_to (String.eqb field "maxSurge") (fdiv (fmul replicas pct) (f_of_Z 100))) else own
        | _, _ => own
        end
      else own
  | _ => own
  end.

Definition deployment_metrics (details : jobject) (tags : tagmap) : list Metric :=
  match boolValue (at_ details "paused") with Some b => [metric "k8s.deployment.paused" (flag b) tags] | None => [] end
  ++ (enum _ (list_to_map [("maxSurge", "max_surge"); ("maxUnavailable", "max_unavailable")]) ≫= fun fs =>
        match rolling_value details (mapField (mapField details "strategy") "rollingUpdate") fs.1 with
        | Some v => if fle f64_zero v then [metric ("k8s.deployment.rollingupdate." +:+ fs.2) v tags] else []
        | None => []
        end).

Definition job_metrics (uid : string) (details : jobject) (tags : tagmap) : list Metric :=
  match parse_time (stringField details "startTime") with
  | None => []
  | Some start =>
      let '(done_, duration) :=
        match parse_time (stringField details "completionTime") with
        | Some end_ => ([metric "k8s.job.completion.succeeded" f64_one tags], seconds (time_sub end_ start))
        | None => ([], seconds (since uid "k8s.job.duration_seconds" start))
        end in
      done_ ++ (if fle f64_zero duration then [metric "k8s.job.duration_seconds" duration tags] else [])
  end.

Definition condition_metrics (kind base : string) (tags : tagmap) (item : json) : list Metric :=
  let condition := objectValue item in
  let status := stringField condition "status" in
  let type := stringField condition "type" in
  if negb (existsb (String.eqb status) ["True"; "False"; "Unknown"]) then []
  else
    metric ("k8s." +:+ base +:+ ".condition") f64_one (<["condition_status" := status]> (<["condition" := type]> tags))
    :: (if String.eqb kind "Pod" && (String.eqb type "Ready" || String.eqb type "PodScheduled") then
          (fun state => metric ("k8s.pod." +:+ (if String.eqb type "PodScheduled" then "scheduled" else "ready"))
                          (flag (String.eqb status state)) (<["condition" := ToLower state]> tags))
            <$> ["True"; "False"; "Unknown"]
        else []).

(** The parts of the name of an image: tag, name and last part. *)
Definition last_index (c : Ascii.ascii) (s : string) : Z :=
  match Prom.last_cut c s with Some (a, _) => str_len a | None => -1 end.
Definition image_ref_tags (tags : tagmap) (ref : string) : tagmap :=
  let repo := (cut "@" ref).1.1 in
  let tags := <["image" := ref]> tags in
  let colon := last_index (chr 58) repo in
  let '(tags, repo) := if last_index (chr 47) repo <? colon
                       then (<["image_tag" := str_drop (Z.to_nat (colon + 1)) repo]> tags, str_take (Z.to_nat colon) repo)
                       else (tags, repo) in
  <["short_image" := match Prom.last_cut (chr 47) repo with Some (_, b) => b | None => repo end]> (<["image_name" := repo]> tags).

Definition image_metrics (tags : tagmap) (item : json) : list Metric :=
  let image := objectValue item in
  match numberValue (at_ image "sizeBytes") with
  | Some size =>
      if flt size f64_zero then []
      else arrayField image "names" ≫= fun alias =>
             let ref := stringValue alias in
             if String.eqb ref "" then [] else [metric "k8s.node.image.size_bytes" size (image_ref_tags tags ref)]
  | None => []
  end.

Definition quantities (prefix : string) (values : jobject) (fields : gmap string string) (tags : tagmap) : list Metric :=
  enum _ fields ≫= fun ks =>
    match resourceQuantity (at_ values ks.1) with Some v => [metric (prefix +:+ ks.2) v tags] | None => [] end.
Definition container_fields : list (string * string) :=
  [("cpu", "cpu_cores"); ("memory", "memory_bytes"); ("ephemeral-storage", "ephemeral_storage_bytes")].

Definition node_metrics (details : jobject) (tags : tagmap) : list Metric :=
  match at_ details "images" with
  | JArray images =>
      metric "k8s.node.images_reported" (f_of_Z (Z.of_nat (length images))) tags :: (images ≫= image_metrics tags)
  | _ => []
  end
  ++ match boolValue (at_ details "unschedulable") with
     | Some b => [metric "k8s.node.status" f64_one (<["status" := if b then "unschedulable" else "schedulable"]> tags)]
     | None => []
     end
  ++ (["capacity"; "allocatable"] ≫= fun scope =>
        quantities ("k8s.node." +:+ scope +:+ ".") (mapField details scope)
          (list_to_map (container_fields ++ [("pods", "pods")])) tags).

Definition claim_metric (tags : tagmap) (item : json) : Metric :=
  let claim := objectValue item in
  metric "k8s.pod.volumes.persistentvolumeclaims_readonly"
    (flag (match at_ claim "read_only" with JBool true => true | _ => false end))
    (<["persistentvolumeclaim" := stringField claim "claim"]> (<["volume" := stringField claim "volume"]> tags)).

Definition toleration_metric (tags : tagmap) (item : json) : Metric :=
  let toleration := objectValue item in
  metric "k8s.pod.tolerations" f64_one
    (foldl (fun tags key => let v := stringField toleration key in
                            if String.eqb v "" then tags else <["toleration_" +:+ key := v]> tags)
       tags ["key"; "operator"; "value"; "effect"]).

Definition container_resources (tags : tagmap) (item : json) : list Metric :=
  let container := objectValue item in
  let name := stringField container "name" in
  if String.eqb name "" then []
  else ["requests"; "limits"] ≫= fun scope =>
         quantities ("k8s.container." +:+ scope +:+ ".") (mapField (mapField container "resources") scope)
           (list_to_map container_fields) (<["kube_container_name" := name]> tags).

Definition waiting_reasons : list string :=
  ["errimagepull"; "imagepullbackoff"; "crashloopbackoff"; "containercreating"; "createcontainererror"; "invalidimagename";
   "createcontainerconfigerror"].
Definition terminated_reasons : list string := ["oomkilled"; "containercannotrun"; "error"].

Definition state_metrics (prefix : string) (tags : tagmap) (states : jobject) (phase : string) : list Metric :=
  let v := flag (bool_decide (is_Some (states !! phase))) in
  let reason := stringField (mapField states phase) "reason" in
  let among l := existsb (String.eqb (ToLower reason)) l in
  metric (prefix +:+ phase) v tags
  :: (if (String.eqb phase "waiting" && among waiting_reasons) || (String.eqb phase "terminated" && among terminated_reasons)
      then [metric (prefix +:+ "status_report.count." +:+ phase) v (<["reason" := reason]> tags)] else []).

Definition container_status (prefix : string) (tags : tagmap) (item : json) : list Metric :=
  let state := objectValue item in
  let name := stringField state "name" in
  if String.eqb name "" then []
  else
    let tags := <["kube_container_name" := name]> tags in
    match numberValue (at_ state "restartCount") with Some v => [metric (prefix +:+ "restarts") v tags] | None => [] end
    ++ match at_ state "state" with
       | JObject states => ["running"; "waiting"; "terminated"] ≫= state_metrics prefix tags states
       | _ => []
       end
    ++ match boolValue (at_ state "ready") with Some b => [metric (prefix +:+ "ready") (flag b) tags] | None => [] end.

Definition pod_metrics (uid : string) (r details : jobject) (tags : tagmap) : list Metric :=
  (claim_metric tags <$> arrayField details "pvc_volumes")
  ++ (toleration_metric tags <$> arrayField details "tolerations")
  ++ (if String.eqb (stringField r "phase") "" then []
      else [metric "k8s.pod.status_phase" f64_one (<["pod_phase" := stringField r "phase"]> tags)])
  ++ (arrayField details "containers" ≫= container_resources tags)
  ++ match parse_time (stringField details "startTime") with
     | Some start => [metric "k8s.pod.uptime_seconds" (seconds (since uid "k8s.pod.uptime_seconds" start)) tags]
     | None => []
     end
  ++ (arrayField details "container_statuses" ≫= container_status "k8s.container." tags)
  ++ (arrayField details "init_container_statuses" ≫= container_status "k8s.initcontainer." tags).

Definition resource_metrics (owners : gmap string jobject) (r : jobject) : list Metric :=
  let details := mapField r "details" in
  let kind := stringField r "kind" in
  let name := stringField r "name" in
  let uid := stringField r "uid" in
  let tags := own_tags owners kind name r in
  let base := ToLower kind in
  let entityTags := entity_tags kind base name tags in
  let its k := String.eqb kind k in
  [metric ("k8s." +:+ base +:+ ".count") f64_one entityTags]
  ++ match parse_time (stringField details "created_at") with
     | Some created => if its "Node" || its "Pod"
                       then [metric ("k8s." +:+ base +:+ ".age_seconds") (seconds (since uid "age_seconds" created)) entityTags] else []
     | None => []
     end
  ++ (enum _ (statusFields kind) ≫= fun fs =>
        match numberValue (at_ details fs.1) with Some v => [metric ("k8s." +:+ base +:+ "." +:+ fs.2) v entityTags] | None => [] end)
  ++ (if its "Deployment" then deployment_metrics details entityTags else [])
  ++ (if its "Job" then job_metrics uid details entityTags else [])
  ++ (if its "Service" && negb (String.eqb (stringField details "type") "")
      then [metric "k8s.service.type" f64_one (<["service_type" := stringField details "type"]> entityTags)] else [])
  ++ (if its "Node" || its "Pod" || its "Deployment"
      then arrayField r "conditions" ≫= condition_metrics kind base entityTags else [])
  ++ (if its "Node" then node_metrics details (<["kube_node" := name]> tags) else [])
  ++ (if its "Pod" then pod_metrics uid r details tags else []).

(** *** The totals of what is allocated *)

Definition pod_of (owners : gmap string jobject) (m : Metric) : option jobject :=
  owners !! owner_key "Pod" (tag "kube_namespace" (Tags m)) (tag "pod_name" (Tags m)).

Definition set_value (v : f64) (m : Metric) : Metric :=
  mk_metric (Metric_Time m) (HostId m) (MetricName m) v (InterfaceName m) (PeerId m) (Tags m) (Source m).
Definition set_tags (tags : tagmap) (m : Metric) : Metric :=
  mk_metric (Metric_Time m) (HostId m) (MetricName m) (Value m) (InterfaceName m) (PeerId m) tags (Source m).

Definition of_node (name : string) : bool := has_prefix "k8s.node.capacity." name || has_prefix "k8s.node.allocatable." name.
Definition of_container (name : string) : bool := has_prefix "k8s.container.requests." name || has_prefix "k8s.container.limits." name.

(** What a metric adds to the total of its name and tags. *)
Definition allocated (owners : gmap string jobject) (m : Metric) : option (string * tagmap * f64) :=
  let name := MetricName m in
  if (negb (of_node name) && negb (of_container name)) || (negb (has_suffix "cpu_cores" name) && negb (has_suffix "memory_bytes" name))
  then None
  else
    let phase := stringField (default ∅ (pod_of owners m)) "phase" in
    Some (name +:+ ".total", delete "pod_name" (delete "kube_node" (Tags m)),
          if of_container name && (String.eqb phase "Succeeded" || String.eqb phase "Failed" || String.eqb (tag "kube_node" (Tags m)) "")
          then f64_zero else Value m).

Definition add_total (owners : gmap string jobject) (totals : gmap string Metric) (m : Metric) : gmap string Metric :=
  match allocated owners m with
  | None => totals
  | Some (name, tags, v) =>
      let key := name +:+ marshal_tags tags in
      match totals !! key with
      | Some total => <[key := set_value (fadd (Value total) v) total]> totals
      | None => <[key := metric name v tags]> totals
      end
  end.

(** *** What a pod tells of its metrics *)

Definition label_tags : list (string * string) :=
  [("app.kubernetes.io/name", "kube_app_name"); ("app.kubernetes.io/instance", "kube_app_instance");
   ("app.kubernetes.io/version", "kube_app_version"); ("app.kubernetes.io/component", "kube_app_component");
   ("app.kubernetes.io/part-of", "kube_app_part_of"); ("app.kubernetes.io/managed-by", "kube_app_managed_by");
   ("helm.sh/chart", "helm_chart")].
Definition workload_tags : list (string * string) :=
  [("kube_deployment", "Deployment"); ("kube_replica_set", "ReplicaSet"); ("kube_stateful_set", "StatefulSet");
   ("kube_daemon_set", "DaemonSet"); ("kube_job", "Job"); ("kube_cronjob", "CronJob")].
Definition set_nonempty (key v : string) (tags : tagmap) : tagmap := if String.eqb v "" then tags else <[key := v]> tags.

Definition enrich_tags (pod : jobject) (tags : tagmap) : tagmap :=
  let tags := set_nonempty "pod_phase" (stringField pod "phase") (set_nonempty "uid" (stringField pod "uid") tags) in
  let tags := set_nonempty "kube_priority_class" (stringField (mapField pod "details") "priorityClassName") tags in
  let tags := foldl (fun tags kt => set_nonempty kt.2 (stringField (mapField pod "labels") kt.1) tags) tags label_tags in
  foldl (fun tags kk =>
    let tags := if String.eqb (stringField pod "workload_kind") kk.2 then set_nonempty kk.1 (stringField pod "workload_name") tags else tags in
    if String.eqb (tag "kube_workload_kind" tags) kk.2 then set_nonempty kk.1 (tag "kube_workload_name" tags) tags else tags)
    tags workload_tags.
Definition enrich (owners : gmap string jobject) (m : Metric) : Metric :=
  match pod_of owners m with Some pod => set_tags (enrich_tags pod (Tags m)) m | None => m end.

Definition inventoryMetrics (resources : list jobject) : list Metric :=
  let owners := owners_of resources in
  let out := resources ≫= resource_metrics owners in
  let totals := foldl (add_total owners) ∅ out in
  enrich owners <$> out ++ (snd <$> enum _ totals).

(** ** Other objects *)

Definition extra_base (kind : string) : string := if String.eqb kind "Endpoints" then "endpoint" else ToLower kind.
Definition extra_tags (kind : string) (object : jobject) : tagmap :=
  let metadata := mapField object "metadata" in
  set_nonempty "storageclass" (stringField (mapField object "spec") "storageClassName")
    (<["kube_" +:+ extra_base kind := stringField metadata "name"]>
       (<["kube_namespace" := stringField metadata "namespace"]> {[ "kube_cluster_name" := cluster ]})).

Definition port_tags (tags : tagmap) (address port : jobject) : tagmap :=
  let tags := <["port_protocol" := stringField port "protocol"]>
                (<["port_name" := stringField port "name"]> (<["ip" := stringField address "ip"]> tags)) in
  match numberValue (at_ port "port") with Some n => <["port_number" := format_whole n]> tags | None => tags end.
Definition subset_metrics (tags : tagmap) (item : json) : list Metric :=
  let subset := objectValue item in
  let ports := match arrayField subset "ports" with [] => [JObject ∅] | ports => ports end in
  [("addresses", true); ("notReadyAddresses", false)] ≫= fun '(group, ready) =>
    arrayField subset group ≫= fun address =>
      ports ≫= fun port =>
        let pt := port_tags tags (objectValue address) (objectValue port) in
        [metric "k8s.endpoint.address_available" (flag ready) pt; metric "k8s.endpoint.address_not_ready" (flag (negb ready)) pt].

Definition slice_count (st : f64 * f64) (item : json) : f64 * f64 :=
  let endpoint := objectValue item in
  let n := f_of_Z (Z.of_nat (length (arrayField endpoint "addresses"))) in
  match boolValue (at_ (mapField endpoint "conditions") "ready") with
  | Some false => (st.1, fadd st.2 n)
  | _ => (fadd st.1 n, st.2)
  end.

Definition stateExtraMetrics (kind : string) (object : jobject) : list Metric :=
  let spec := mapField object "spec" in
  let base := extra_base kind in
  let tags := extra_tags kind object in
  let emit suffix v := metric ("k8s." +:+ base +:+ "." +:+ suffix) v tags in
  let its k := String.eqb kind k in
  [emit "count" f64_one]
  ++ (if its "Secret" then
        if String.eqb (stringField object "type") "" then []
        else [metric "k8s.secret.type" f64_one (<["type" := stringField object "type"]> tags)]
      else if its "Endpoints" then arrayField object "subsets" ≫= subset_metrics tags
      else if its "EndpointSlice" then
        let '(available, notReady) := foldl slice_count (f64_zero, f64_zero) (arrayField object "endpoints") in
        [emit "address_available" available; emit "address_not_ready" notReady]
      else if its "PersistentVolume" || its "PersistentVolumeClaim" then
        let phase := stringField (mapField object "status") "phase" in
        (if String.eqb phase "" then [] else [metric ("k8s." +:+ base +:+ ".status") f64_one (<["phase" := phase]> tags)])
        ++ (if its "PersistentVolume" then
              match resourceQuantity (at_ (mapField spec "capacity") "storage") with Some v => [emit "capacity_bytes" v] | None => [] end
            else
              match resourceQuantity (at_ (mapField (mapField spec "resources") "requests") "storage") with
              | Some v => [emit "request_storage_bytes" v]
              | None => []
              end
              ++ (arrayField spec "accessModes" ≫= fun mode =>
                    let v := stringValue mode in
                    if String.eqb v "" then []
                    else [metric ("k8s." +:+ base +:+ ".access_mode") f64_one (<["access_mode" := v]> tags)]))
      else if its "Ingress" then
        (arrayField spec "rules" ≫= fun item =>
           let rule := objectValue item in
           (fun path => metric "k8s.ingress.path" f64_one
                          (<["path" := stringField (objectValue path) "path"]> (<["host" := stringField rule "host"]> tags)))
             <$> arrayField (mapField rule "http") "paths")
        ++ (arrayField spec "tls" ≫= fun entry =>
              (fun host => metric "k8s.ingress.tls" f64_one (<["host" := stringValue host]> tags))
                <$> arrayField (objectValue entry) "hosts")
      else []).
End metrics.
End ClusterMetrics.

(** * The agent of a cluster (internal/clusteragent/clusteragent.go, state_extras.go)

    One replica lists the events and objects of the cluster at its API server, page by page, and
    pushes events, an inventory that replaces the one before, and the metrics of both.

    The API server, the ingest, files, JSON, the query of an URL and what [ClusterMetrics] leaves
    open are arguments. *)

Module ClusterAgent.
Import Processing(json, JNull, JBool, JNumber, JString, JArray, JObject, jobject).
Import ClusterMetrics(at_, stringValue, objectValue, arrayValue, stringField, mapField, arrayField).
Import Webhook(WorkloadOf).

Record Config := mk_config {
  APIServerURL : string;
  TokenFile : string;
  CAFile : string;
  Insecure : bool;
  Cluster : string;
  Interval : Z;
  IncludeNormal : bool;
  EventLimit : Z;
  KubeState : bool;
  Inventory : bool;
}.
Definition defaultInterval : Z := 30 * second.
Definition defaultEventLimit : Z := 1000.

(** The agent is its configuration, with the defaults filled in. *)
Definition New (ReadFile : string -> option string) (AppendCertsFromPEM : string -> bool) (cfg : Config) : res Config :=
  if String.eqb (APIServerURL cfg) "" then Err "APIServerURL"
  else
    let cfg := mk_config (APIServerURL cfg) (TokenFile cfg) (CAFile cfg) (Insecure cfg) (Cluster cfg)
                 (if Interval cfg <=? 0 then defaultInterval else Interval cfg) (IncludeNormal cfg)
                 (if EventLimit cfg <=? 0 then defaultEventLimit else EventLimit cfg) (KubeState cfg) (Inventory cfg) in
    if negb (String.eqb (CAFile cfg) "") && negb (Insecure cfg) then
      match ReadFile (CAFile cfg) with
      | None => Err "read ca"
      | Some ca => if AppendCertsFromPEM ca then Ok cfg else Err "ca without PEM"
      end
    else Ok cfg.

(** ** Events *)

Record coreEvent := mk_event {
  md_Namespace : string;
  CreationTimestamp : string;
  io_Kind : string;
  io_Namespace : string;
  io_Name : string;
  Reason : string;
  Message : string;
  Type_ : string;
  Count : Z;
  LastTimestamp : string;
  EventTime : string;
  Series : option (Z * string);       (* the count and the last time *)
}.

(** What is posted of an event. *)
Record k8sEvent := mk_k8s_event {
  namespace : string;
  workload : string;
  pod : string;
  involved_kind : string;
  involved_name : string;
  reason : string;
  event_type : string;
  message : string;
  count : Z;
  occurred_at : string;
}.

Definition firstNonEmpty (vals : list string) : string :=
  default "" (List.find (fun v => negb (String.eqb v "")) vals).
Definition seriesTime (e : coreEvent) : string := match Series e with Some s => s.2 | None => "" end.

Definition criticalReasons : list string :=
  ["OOMKilling"; "OOMKilled"; "Evicted"; "Failed"; "FailedScheduling"; "NodeNotReady"; "FailedCreatePodSandBox"; "BackOff";
   "CrashLoopBackOff"].
Definition criticalReason (reason : string) : bool := existsb (String.eqb reason) criticalReasons.

Section events.
Variable EqualFold : string -> string -> bool.
Variable cfg : Config.

Definition relevant (e : coreEvent) : bool :=
  negb (String.eqb (Reason e) "") &&
  (IncludeNormal cfg || EqualFold (Type_ e) "Warning" || criticalReason (Reason e)).

(** The pod and the workload of what an event is about. *)
Definition involved (kind name : string) : string * string :=
  if String.eqb kind "Pod" then (name, WorkloadOf name)
  else if existsb (String.eqb kind) ["Deployment"; "StatefulSet"; "DaemonSet"; "Job"; "CronJob"] then ("", name)
  else if String.eqb kind "ReplicaSet" then ("", WorkloadOf (name +:+ "-00000"))
  else ("", "").

Definition event_count (e : coreEvent) : Z :=
  let n := Count e in
  let n := match Series e with Some (c, _) => if n <? c then c else n | None => n end in
  if n <? 1 then 1 else n.

Definition event_payload (e : coreEvent) : k8sEvent :=
  let '(pod, workload) := involved (io_Kind e) (io_Name e) in
  mk_k8s_event (firstNonEmpty [io_Namespace e; md_Namespace e]) workload pod (io_Kind e) (io_Name e) (Reason e)
    (firstNonEmpty [Type_ e; "Normal"]) (Message e) (event_count e)
    (firstNonEmpty [LastTimestamp e; seriesTime e; EventTime e; CreationTimestamp e]).

Definition event_key (ev : k8sEvent) : string :=
  join (str1 0) [Cluster cfg; namespace ev; pod ev; reason ev; involved_name ev].

Definition add_event (dedup : gmap string k8sEvent) (e : coreEvent) : gmap string k8sEvent :=
  if negb (relevant e) then dedup
  else
    let ev := event_payload e in
    match dedup !! event_key ev with
    | Some prev => if count prev <=? count ev then <[event_key ev := ev]> dedup else dedup
    | None => <[event_key ev := ev]> dedup
    end.

Variable enum : forall A : Type, gmap string A -> list (string * A).
Definition buildPayload (events : list coreEvent) : string * list k8sEvent :=
  (Cluster cfg, snd <$> enum _ (foldl add_event ∅ events)).
End events.

(** ** The inventory *)

Definition inventoryResourceSpecs : list (string * string) :=
  [("Pod", "/api/v1/pods"); ("Namespace", "/api/v1/namespaces"); ("Node", "/api/v1/nodes"); ("Service", "/api/v1/services");
   ("Deployment", "/apis/apps/v1/deployments"); ("StatefulSet", "/apis/apps/v1/statefulsets");
   ("DaemonSet", "/apis/apps/v1/daemonsets"); ("ReplicaSet", "/apis/apps/v1/replicasets"); ("Job", "/apis/batch/v1/jobs");
   ("CronJob", "/apis/batch/v1/cronjobs")].

Definition copy_keys (keys : list string) (src dst : jobject) : jobject :=
  foldl (fun d k => match src !! k with Some v => <[k := v]> d | None => d end) dst keys.

Definition status_defaults (kind : string) : list string :=
  if String.eqb kind "Deployment" then ["replicas"; "readyReplicas"; "availableReplicas"; "updatedReplicas"; "unavailableReplicas"]
  else if String.eqb kind "ReplicaSet" then ["replicas"; "readyReplicas"; "fullyLabeledReplicas"]
  else if String.eqb kind "DaemonSet"
  then ["currentNumberScheduled"; "desiredNumberScheduled"; "numberReady"; "numberAvailable"; "numberUnavailable";
        "numberMisscheduled"; "updatedNumberScheduled"]
  else if String.eqb kind "Job" then ["active"; "succeeded"; "failed"]
  else [].
Definition status_keys : list string :=
  ["podIP"; "hostIP"; "qosClass"; "capacity"; "allocatable"; "nodeInfo"; "replicas"; "readyReplicas"; "availableReplicas";
   "updatedReplicas"; "unavailableReplicas"; "fullyLabeledReplicas"; "currentNumberScheduled"; "desiredNumberScheduled";
   "numberReady"; "numberAvailable"; "numberUnavailable"; "numberMisscheduled"; "updatedNumberScheduled"; "succeeded"; "failed";
   "active"; "startTime"; "completionTime"].
Definition container_status_keys : list string :=
  ["name"; "image"; "imageID"; "containerID"; "ready"; "restartCount"; "state"; "lastState"; "started"].

(** The objects of an array. *)
Definition objects (l : list json) : list jobject := omap (fun v => match v with JObject m => Some m | _ => None end) l.

Definition if_array (v : json) (f : list json -> jobject -> jobject) (d : jobject) : jobject :=
  match v with JArray l => f l d | _ => d end.

Definition container_statuses (l : list json) : json := JArray ((fun s => JObject (copy_keys container_status_keys s ∅)) <$> objects l).

Definition status_details (kind : string) (status details : jobject) : jobject :=
  let details := if String.eqb kind "Node" then
                   if_array (at_ status "images") (fun l => <["images" := JArray l]>)
                     (if_array (at_ status "addresses") (fun l => <["addresses" := JArray l]>) details)
                 else details in
  let details := foldl (fun d k => <[k := JNumber "0"]> d) details (status_defaults kind) in
  let details := copy_keys status_keys status details in
  if_array (at_ status "initContainerStatuses") (fun l => <["init_container_statuses" := container_statuses l]>)
    (if_array (at_ status "containerStatuses") (fun l => <["container_statuses" := container_statuses l]>) details).
Definition status_fields (status resource : jobject) : jobject :=
  if_array (at_ status "conditions") (fun l => <["conditions" := JArray l]>)
    (<["status" := JString (stringField status "reason")]> (<["phase" := JString (stringField status "phase")]> resource)).

Definition pvc_volume (v : json) : option json :=
  match at_ (objectValue v) "persistentVolumeClaim" with
  | JObject claim => Some (JObject (list_to_map [("volume", at_ (objectValue v) "name"); ("claim", at_ claim "claimName");
                                                 ("read_only", at_ claim "readOnly")]))
  | _ => None
  end.
(** The claims of volumes; without any the value is null. *)
Definition pvc_volumes (l : list json) : json := match omap pvc_volume l with [] => JNull | claims => JArray claims end.
Definition container_entry (c : jobject) : json :=
  JObject (list_to_map [("name", at_ c "name"); ("image", at_ c "image"); ("resources", at_ c "resources")]).

(** Of a workload, the specification of its pods. *)
Definition pod_spec (spec : jobject) : jobject :=
  match at_ spec "template" with
  | JObject template => match at_ template "spec" with JObject s => s | _ => spec end
  | _ => spec
  end.

Definition service_keys : list string :=
  ["clusterIP"; "clusterIPs"; "externalIPs"; "sessionAffinity"; "selector"; "ports"; "externalName"].
Definition spec_keys : list string := ["paused"; "strategy"; "type"; "unschedulable"; "tolerations"; "priorityClassName"].

Definition spec_details (kind : string) (obj spec details : jobject) : jobject :=
  let details := if String.eqb kind "Service" then
                   let details := copy_keys service_keys spec details in
                   match at_ obj "status" with JObject status => copy_keys ["loadBalancer"] status details | _ => details end
                 else details in
  let details := if String.eqb kind "Deployment" then <["paused" := JBool false]> details else details in
  let details := if String.eqb kind "Node" then <["unschedulable" := JBool false]> details else details in
  let details := if_array (at_ spec "volumes") (fun l => <["pvc_volumes" := pvc_volumes l]>) details in
  let details := match spec !! "replicas" with Some v => <["desired_replicas" := v]> details | None => details end in
  let details := copy_keys spec_keys spec details in
  if_array (at_ (pod_spec spec) "containers") (fun l => <["containers" := JArray (container_entry <$> objects l)]>) details.

Definition workload_fields (metadata resource : jobject) : jobject :=
  match objects (arrayField metadata "ownerReferences") with
  | ref :: _ => <["workload_name" := JString (stringField ref "name")]>
                  (<["workload_kind" := JString (stringField ref "kind")]> resource)
  | [] => resource
  end.

Definition base_resource (kind uid name : string) (metadata : jobject) : jobject :=
  list_to_map [("kind", JString kind); ("uid", JString uid); ("name", JString name);
    ("namespace", JString (stringField metadata "namespace"));
    ("resource_version", JString (stringField metadata "resourceVersion"));
    ("labels", JObject (mapField metadata "labels")); ("conditions", JArray []); ("deleted", JBool false)].

Definition inventoryResource (kind : string) (raw : json) : res jobject :=
  match raw with
  | JObject _ | JNull =>
      let obj := objectValue raw in
      let metadata := mapField obj "metadata" in
      let uid := stringField metadata "uid" in
      let name := stringField metadata "name" in
      if String.eqb uid "" || String.eqb name "" then Err "missing metadata.uid/name"
      else
        let resource := base_resource kind uid name metadata in
        let details : jobject := {[ "created_at" := JString (stringField metadata "creationTimestamp") ]} in
        let '(resource, details) :=
          match at_ obj "status" with
          | JObject status => (status_fields status resource, status_details kind status details)
          | _ => (resource, details)
          end in
        let '(resource, details) :=
          match at_ obj "spec" with
          | JObject spec => (<["node_name" := JString (stringField spec "nodeName")]> resource, spec_details kind obj spec details)
          | _ => (resource, details)
          end in
        Ok (workload_fields metadata (<["details" := JObject details]> resource))
  | _ => Err "decode resource"
  end.

(** The resources of one page after those before it. *)
Fixpoint add_resources (kind : string) (items : list json) (acc : list jobject) : res (list jobject) :=
  match items with
  | [] => Ok acc
  | raw :: items => r ← inventoryResource kind raw; add_resources kind items (acc ++ [r])
  end.

(** ** Lists of the API server *)

Definition maxListPages : nat := 10.
Definition limit_body (body : string) : string :=
  if str_len body <=? Z.shiftl 32 20 then body else str_take (Z.to_nat (Z.shiftl 32 20)) body.
Definition table_accept : string := "application/json;as=Table;g=meta.k8s.io;v=v1".
Definition partial_accept : string := "application/json;as=PartialObjectMetadataList;g=meta.k8s.io;v=v1".

Definition stateExtraResources : list (string * string) :=
  [("Endpoints", "/api/v1/endpoints"); ("EndpointSlice", "/apis/discovery.k8s.io/v1/endpointslices");
   ("PersistentVolume", "/api/v1/persistentvolumes"); ("PersistentVolumeClaim", "/api/v1/persistentvolumeclaims");
   ("Ingress", "/apis/networking.k8s.io/v1/ingresses"); ("ConfigMap", "/api/v1/configmaps"); ("Secret", "/api/v1/secrets")].

Record table_row := mk_row { Cells : list json; Object : jobject }.
Record table := mk_table { table_Kind : string; ColumnDefinitions : list string; Rows : list table_row }.

(** A row of a table as an object: its metadata, and its type where a column tells it. *)
Definition row_object (columns : list string) (row : table_row) : jobject :=
  foldl (fun o ic => if String.eqb ic.2 "Type" then match Cells row !! ic.1 with Some v => <["type" := v]> o | None => o end else o)
    {[ "metadata" := JObject (mapField (Object row) "metadata") ]} (imap pair columns).

Record podListed := mk_pod_listed { pl_Namespace : string; pl_Phase : string }.
Record deploymentListed := mk_deployment_listed {
  dl_Namespace : string; dl_Name : string; Replicas : option Z; ReadyReplicas : Z; AvailableReplicas : Z }.

Section agent.
Context {W : Type}.
Variable EqualFold : string -> string -> bool.
Variable enum : forall A : Type, gmap string A -> list (string * A).
Variable order_pairs : gmap (string * string) Z -> list (string * string * Z).
Variable ReadFile : string -> W -> option string * W.
Variable with_object : string -> string.        (* the URL with the query includeObject=Metadata *)
(** A GET with the token and the accepted type: the status and the body, none when it fails. *)
Variable get : string -> string -> string -> W -> option (Z * string) * W.
(** The decoders of the pages: what is listed, and the token of the next page. *)
Variable decode_list : string -> option (list json * string).
Variable decode_kind : string -> option string.
Variable decode_table : string -> option (table * string).
Variable decode_pods : string -> option (list podListed * string).
Variable decode_deployments : string -> option (list deploymentListed * string).
Variable decode_events : string -> option (list coreEvent * string).
(** The ingest; whether it accepted. *)
Variable PostK8sEvents : string * list k8sEvent -> W -> bool * W.
Variable PostK8sResources : string -> Z -> list jobject -> W -> bool * W.
Variable PostMetrics : list Metric -> W -> bool * W.
Variable inventoryMetrics : string -> list jobject -> list Metric.     (* of the cluster *)
Variable stateExtraMetrics : string -> string -> jobject -> list Metric.
Variable now : W -> Z.

Definition readToken (cfg : Config) (w : W) : string * W :=
  if String.eqb (TokenFile cfg) "" then ("", w)
  else let '(b, w) := ReadFile (TokenFile cfg) w in (match b with Some b => trim_space b | None => "" end, w).

Definition apiGet (cfg : Config) (rawURL accept : string) (w : W) : res string * W :=
  let '(token, w) := readToken cfg w in
  let '(answer, w) := get (if contains "as=Table" accept then with_object rawURL else rawURL) token accept w in
  (match answer with
   | None => Err "GET"
   | Some (status, body) => if status =? 200 then Ok (limit_body body) else Err "API server GET status"
   end, w).

(** [decodePage]: what was read so far with a page, and the token of the next one. *)
Fixpoint pages {A} (n : nat) (cfg : Config) (base accept : string) (decodePage : A -> string -> res (A * string))
    (cont : string) (acc : A) (w : W) : res A * W :=
  match n with
  | O => (Ok acc, w)
  | S n =>
      let url := base +:+ "?limit=" +:+ itoa (EventLimit cfg) +:+ (if String.eqb cont "" then "" else "&continue=" +:+ cont) in
      let '(body, w) := apiGet cfg url accept w in
      match body ≫= decodePage acc with
      | Err e => (Err e, w)
      | Ok (acc, cont) => if String.eqb cont "" then (Ok acc, w) else pages n cfg base accept decodePage cont acc w
      end
  end.
Definition apiGetPaged {A} (cfg : Config) (path accept : string) (decodePage : A -> string -> res (A * string)) (acc : A) (w : W)
    : res A * W :=
  pages maxListPages cfg (trim_right_slashes (APIServerURL cfg) +:+ path) accept decodePage "" acc w.
Definition json_accept : string := "application/json".

Definition from_decoder {B} (o : option B) : res B := match o with Some b => Ok b | None => Err "decode" end.

Definition listEvents (cfg : Config) : W -> res (list coreEvent) * W :=
  apiGetPaged cfg "/api/v1/events" json_accept (fun all body => p ← from_decoder (decode_events body); Ok (all ++ p.1, p.2)) [].

Definition pushEvents (cfg : Config) (w : W) : W :=
  let '(events, w) := listEvents cfg w in
  match events with
  | Err _ => w
  | Ok events =>
      match buildPayload EqualFold cfg enum events with
      | (_, []) => w
      | payload => (PostK8sEvents payload w).2
      end
  end.

Definition inventory_page (kind : string) (acc : list jobject) (body : string) : res (list jobject * string) :=
  p ← from_decoder (decode_list body);
  rs ← add_resources kind p.1 acc;
  Ok (rs, p.2).

Fixpoint collect_kinds (cfg : Config) (specs : list (string * string)) (acc : list jobject) (w : W) : res (list jobject) * W :=
  match specs with
  | [] => (Ok acc, w)
  | (kind, path) :: specs =>
      let '(r, w) := apiGetPaged cfg path json_accept (inventory_page kind) acc w in
      match r with Ok acc => collect_kinds cfg specs acc w | Err e => (Err e, w) end
  end.
Definition collectInventory (cfg : Config) : W -> res (list jobject) * W := collect_kinds cfg inventoryResourceSpecs [].

Definition pushInventory (cfg : Config) (w : W) : W :=
  let '(r, w) := collectInventory cfg w in
  match r with
  | Err _ => w
  | Ok resources =>
      let '(accepted, w) := PostK8sResources (Cluster cfg) (now w) resources w in
      if negb accepted then w
      else if KubeState cfg then
        match inventoryMetrics (Cluster cfg) resources with
        | [] => w
        | metrics => (PostMetrics metrics w).2
        end
      else w
  end.

(** *** The state of the cluster *)

Definition extra_accept (kind : string) : string :=
  if String.eqb kind "ConfigMap" then partial_accept else if String.eqb kind "Secret" then table_accept else json_accept.

Fixpoint as_maps (l : list json) : res (list jobject) :=
  match l with
  | [] => Ok []
  | JObject m :: l => ms ← as_maps l; Ok (m :: ms)
  | JNull :: l => ms ← as_maps l; Ok (∅ :: ms)
  | _ :: _ => Err "decode"
  end.

Definition extra_page (cfg : Config) (kind : string) (batch : list Metric) (body : string) : res (list Metric * string) :=
  if String.eqb kind "Secret" then
    t ← from_decoder (decode_table body);
    if negb (String.eqb (table_Kind t.1) "Table") then Err "not a table"
    else Ok (batch ++ (Rows t.1 ≫= fun row => stateExtraMetrics (Cluster cfg) kind (row_object (ColumnDefinitions t.1) row)), t.2)
  else
    p ← from_decoder (decode_list body);
    _ ← (if String.eqb kind "ConfigMap" then
           k ← from_decoder (decode_kind body);
           if String.eqb k "PartialObjectMetadataList" then Ok tt else Err "not metadata only"
         else Ok tt);
    objects ← as_maps p.1;
    Ok (batch ++ (objects ≫= stateExtraMetrics (Cluster cfg) kind), p.2).

Fixpoint collect_extras (cfg : Config) (specs : list (string * string)) (out : list Metric) (w : W) : list Metric * W :=
  match specs with
  | [] => (out, w)
  | (kind, path) :: specs =>
      let '(batch, w) := apiGetPaged cfg path (extra_accept kind) (extra_page cfg kind) [] w in
      let up b := ClusterMetrics.metric "k8s.collection.up" (ClusterMetrics.flag b)
                    (list_to_map [("kube_cluster_name", Cluster cfg); ("resource_kind", kind)]) in
      collect_extras cfg specs (out ++ match batch with Ok ms => ms ++ [up true] | Err _ => [up false] end) w
  end.
Definition collectStateExtras (cfg : Config) : W -> list Metric * W := collect_extras cfg stateExtraResources [].

Definition phase_of (p : podListed) : string := if String.eqb (pl_Phase p) "" then "Unknown" else pl_Phase p.
Definition count_pod (m : gmap (string * string) Z) (p : podListed) : gmap (string * string) Z :=
  let k := (pl_Namespace p, phase_of p) in <[k := default 0 (m !! k) + 1]> m.
Definition collectPodPhases (cfg : Config) (w : W) : res (list Metric) * W :=
  let '(counts, w) := apiGetPaged cfg "/api/v1/pods" json_accept
                        (fun m body => p ← from_decoder (decode_pods body); Ok (foldl count_pod m p.1, p.2)) ∅ w in
  (match counts with
   | Err e => Err e
   | Ok counts => Ok ((fun kn => ClusterMetrics.metric "k8s.namespace.pod_count" (f_of_Z kn.2)
                                   (list_to_map [("kube_cluster_name", Cluster cfg); ("kube_namespace", kn.1.1); ("pod_phase", kn.1.2)]))
                        <$> order_pairs counts)
   end, w).

Definition deployment_states (cfg : Config) (d : deploymentListed) : list Metric :=
  let base : tagmap := list_to_map [("kube_cluster_name", Cluster cfg); ("kube_namespace", dl_Namespace d); ("kube_deployment", dl_Name d)] in
  [ClusterMetrics.metric "k8s.deployment.replicas_desired" (f_of_Z (default 0 (Replicas d))) base;
   ClusterMetrics.metric "k8s.deployment.replicas_ready" (f_of_Z (ReadyReplicas d)) base;
   ClusterMetrics.metric "k8s.deployment.replicas_available" (f_of_Z (AvailableReplicas d)) base].
Definition collectDeployments (cfg : Config) : W -> res (list Metric) * W :=
  apiGetPaged cfg "/apis/apps/v1/deployments" json_accept
    (fun ms body => p ← from_decoder (decode_deployments body); Ok (ms ++ (p.1 ≫= deployment_states cfg), p.2)) [].

Definition or_nothing (r : res (list Metric)) : list Metric := match r with Ok ms => ms | Err _ => [] end.
Definition pushKubeState (cfg : Config) (w : W) : W :=
  let '(extras, w) := collectStateExtras cfg w in
  let '(phases, w) := collectPodPhases cfg w in
  let '(deployments, w) := collectDeployments cfg w in
  match extras ++ or_nothing phases ++ or_nothing deployments with
  | [] => w
  | metrics => (PostMetrics metrics w).2
  end.

Definition collect (cfg : Config) (w : W) : W :=
  let w := pushEvents cfg w in
  let w := if Inventory cfg then pushInventory cfg w else w in
  if KubeState cfg then pushKubeState cfg w else w.
End agent.
End ClusterAgent.
