(* ===== verification/ClusterProps.v ===== *)
(** * What the agent of a cluster promises

    Of equal events the one with the highest count is pushed; the inventory shows nothing of an
    object but the fields that are meant for it; and it is what the first ten pages of each list
    show. *)

From S2P Require Import Prelude GoStrings GoFloat Wire Processing ClusterAgent.
#[local] Open Scope Z_scope.

Module ClusterProps.
Import Processing(json, JNull, JBool, JNumber, JString, JArray, JObject, jobject).
Import ClusterMetrics(at_, stringValue, objectValue, arrayValue, stringField, mapField, arrayField).
Import ClusterAgent.

(** ** Events *)

Section events.
Variable EqualFold : string -> string -> bool.
Variable cfg : Config.
Variable enum : forall A : Type, gmap string A -> list (string * A).
Hypothesis enum_perm : forall A (m : gmap string A), enum A m ≡ₚ map_to_list m.

Abbreviation key_of := (fun e => event_key cfg (event_payload e)).

(** What is worth pushing: an event with a reason that is a warning, or grave whatever its type is, or
    any where all are wanted. *)
Definition worth (e : coreEvent) : Prop :=
  Reason e <> "" /\
  (IncludeNormal cfg = true \/ EqualFold (Type_ e) "Warning" = true \/ Reason e ∈ criticalReasons).

Lemma relevant_worth e : relevant EqualFold cfg e = true <-> worth e.
Proof.
  unfold relevant, worth, criticalReason. rewrite andb_true_iff, negb_true_iff, String.eqb_neq, !orb_true_iff.
  rewrite existsb_exists. setoid_rewrite String.eqb_eq. rewrite list_elem_of_In. split.
  - intros [H [[?|?]|(x & Hx & <-)]]; (split; [done|]); [by left|by right; left|by right; right].
  - intros [H [?|[?|Hc]]]; (split; [done|]); [by left; left|by left; right|right; by exists (Reason e)].
Qed.

(** The event [e] stands for its key: none before it counts more, and each after it counts less. *)
Definition stands (events : list coreEvent) (e : coreEvent) : Prop :=
  exists l1 l2, events = l1 ++ e :: l2 /\ worth e /\
    (forall e', e' ∈ l1 -> worth e' -> key_of e' = key_of e -> event_count e' <= event_count e) /\
    (forall e', e' ∈ l2 -> worth e' -> key_of e' = key_of e -> event_count e' < event_count e).

Lemma payload_count e : count (event_payload e) = event_count e.
Proof. unfold event_payload. by destruct (involved (io_Kind e) (io_Name e)). Qed.

Lemma stands_unique events e e' : stands events e -> stands events e' -> key_of e = key_of e' -> e = e'.
Proof.
  intros (l1 & l2 & E & Hw & H1 & H2) (l1' & l2' & E' & Hw' & H1' & H2') Hk. rewrite E in E'.
  apply app_eq_inv in E' as [(k & -> & Ek)|(k & -> & Ek)]; destruct k as [|x k]; [by injection Ek| |by injection Ek|];
    injection Ek as <- ->.
  - assert (event_count e < event_count e') by (apply H2'; [set_solver|done|done]).
    assert (event_count e' <= event_count e) by (apply H1; [set_solver|done|done]). lia.
  - assert (event_count e' < event_count e) by (apply H2; [set_solver|done|done]).
    assert (event_count e <= event_count e') by (apply H1'; [set_solver|done|done]). lia.
Qed.

Lemma stands_last events e :
  worth e -> (forall e', e' ∈ events -> worth e' -> key_of e' = key_of e -> event_count e' <= event_count e) ->
  stands (events ++ [e]) e.
Proof. intros Hw H. exists events, []. split_and!; [done..|]. intros e' He'. by apply not_elem_of_nil in He'. Qed.
Lemma stands_app events e e' :
  stands events e -> (worth e' -> key_of e' = key_of e -> event_count e' < event_count e) -> stands (events ++ [e']) e.
Proof.
  intros (l1 & l2 & -> & Hw & H1 & H2) H. exists l1, (l2 ++ [e']). split_and!; [by rewrite <- app_assoc|done|done|].
  intros x [Hx| ->%list_elem_of_singleton]%elem_of_app; [by apply H2|done].
Qed.

(** The map holds the event that stands for each key that occurs. *)
Lemma dedup_spec events :
  let m := foldl (add_event EqualFold cfg) ∅ events in
  (forall key ev, m !! key = Some ev -> exists e, stands events e /\ event_payload e = ev /\ key_of e = key) /\
  (forall e, e ∈ events -> worth e -> exists ev, m !! key_of e = Some ev /\ event_count e <= count ev).
Proof.
  induction events as [|e events [IH1 IH2]] using rev_ind; cbn zeta.
  { split; [done|]. intros e He. by apply not_elem_of_nil in He. }
  rewrite foldl_app. cbn [foldl]. set (m := foldl _ ∅ events) in *. unfold add_event.
  destruct (relevant EqualFold cfg e) eqn:Hr; cbn [negb]; cycle 1.
  { assert (Hn : ~ worth e) by (rewrite <- relevant_worth; congruence). split.
    - intros key ev Hm. destruct (IH1 key ev Hm) as (e0 & Hs & He). exists e0. split; [|done]. by apply stands_app.
    - intros e0 [He| ->%list_elem_of_singleton]%elem_of_app Hw; [by apply IH2|done]. }
  apply relevant_worth in Hr. rewrite payload_count.
  assert (Hother : forall key ev, m !! key = Some ev -> key_of e <> key ->
    exists e0, stands (events ++ [e]) e0 /\ event_payload e0 = ev /\ key_of e0 = key).
  { intros key ev Hm Hk. destruct (IH1 key ev Hm) as (e0 & Hs & Hp & <-). exists e0. split; [|done].
    apply stands_app; [done|]. intros _ E. by rewrite E in Hk. }
  assert (Hnew : (forall e', e' ∈ events -> worth e' -> key_of e' = key_of e -> event_count e' <= event_count e) ->
    (forall key ev, <[key_of e := event_payload e]> m !! key = Some ev ->
       exists e0, stands (events ++ [e]) e0 /\ event_payload e0 = ev /\ key_of e0 = key) /\
    (forall e0, e0 ∈ events ++ [e] -> worth e0 ->
       exists ev, <[key_of e := event_payload e]> m !! key_of e0 = Some ev /\ event_count e0 <= count ev)).
  { intros Hle. split.
    - intros key ev [[<- <-]|[Hk Hm]]%lookup_insert_Some; [|by apply Hother]. exists e. split; [by apply stands_last|done].
    - intros e0 He Hw. destruct (decide (key_of e0 = key_of e)) as [E|E].
      + rewrite E, lookup_insert_eq. eexists. split; [done|]. rewrite payload_count.
        apply elem_of_app in He as [He| ->%list_elem_of_singleton]; [by apply Hle|lia].
      + rewrite lookup_insert_ne by done. apply elem_of_app in He as [He| ->%list_elem_of_singleton]; [by apply IH2|done]. }
  destruct (m !! key_of e) as [prev|] eqn:Hm; [destruct (Z.leb_spec (count prev) (event_count e)) as [Hc|Hc]|].
  - apply Hnew. intros e' He' Hw E. destruct (IH2 e' He' Hw) as (ev & Hev & Hle). rewrite E, Hm in Hev. simplify_eq. lia.
  - split.
    + intros key ev Hl. destruct (decide (key_of e = key)) as [<-|Hk]; [|by apply Hother].
      rewrite Hm in Hl. simplify_eq. destruct (IH1 _ _ Hm) as (e0 & Hs & <- & Hk). exists e0. split; [|done].
      apply stands_app; [done|]. intros _ _. by rewrite payload_count in Hc.
    + intros e0 [He| ->%list_elem_of_singleton]%elem_of_app Hw; [by apply IH2|]. exists prev. split; [done|lia].
  - apply Hnew. intros e' He' Hw E. destruct (IH2 e' He' Hw) as (ev & Hev & _). by rewrite E, Hm in Hev.
Qed.

(** What is pushed of the events is, once for each cluster, namespace, pod, reason and name that
    occur, the event that counts most among those that are worth pushing (the last of equal ones),
    whatever the order of the map: warnings, all events where they are wanted, and grave ones whatever
    their type is. *)
Theorem events_deduplicated events :
  let payload := buildPayload EqualFold cfg enum events in
  payload.1 = Cluster cfg /\
  NoDup (event_key cfg <$> payload.2) /\
  (forall ev, ev ∈ payload.2 <-> exists e, stands events e /\ event_payload e = ev) /\
  (forall e, e ∈ events -> worth e ->
     exists ev, ev ∈ payload.2 /\ event_key cfg ev = key_of e /\ event_count e <= count ev).
Proof.
  destruct (dedup_spec events) as [H1 H2]. unfold buildPayload. cbn [fst snd].
  set (m := foldl (add_event EqualFold cfg) ∅ events) in *. split; [done|].
  assert (Hin : forall ev, ev ∈ (snd <$> enum _ m) <-> exists key, m !! key = Some ev).
  { intros ev. rewrite enum_perm, list_elem_of_fmap. split.
    - intros ([k v] & -> & Hm). exists k. by apply elem_of_map_to_list.
    - intros [k Hm]. exists (k, ev). split; [done|]. by apply elem_of_map_to_list. }
  split_and!.
  - rewrite enum_perm, <- list_fmap_compose.
    rewrite (list_fmap_ext _ fst); [apply NoDup_fst_map_to_list|].
    intros i [k v] Hi. apply list_elem_of_lookup_2, elem_of_map_to_list, H1 in Hi as (e & _ & <- & <-). done.
  - intros ev. rewrite Hin. split.
    + intros [key Hm]. destruct (H1 _ _ Hm) as (e & Hs & He & _). by exists e.
    + intros (e & Hs & <-). destruct Hs as (l1 & l2 & -> & Hw & Ha & Hb).
      destruct (H2 e (proj2 (elem_of_app _ _ _) (or_intror (list_elem_of_here _ _))) Hw) as (ev & Hm & _). exists (key_of e).
      destruct (H1 _ _ Hm) as (e' & Hs & <- & Hk). rewrite Hm. do 2 f_equal.
      eapply stands_unique; [exact Hs|by exists l1, l2|done].
  - intros e He Hw. destruct (H2 e He Hw) as (ev & Hm & Hc). exists ev. rewrite Hin. split; [by exists (key_of e)|].
    destruct (H1 _ _ Hm) as (e' & _ & <- & Hk). done.
Qed.
End events.

(** ** What the inventory shows *)

(** The fields of an object that are meant for the inventory: everything else is taken off. *)
Definition keep (keys : list string) (m : jobject) : jobject := filter (fun kv => kv.1 ∈ keys) m.
Definition on_object (f : jobject -> jobject) (v : json) : json := match v with JObject m => JObject (f m) | _ => v end.
Definition on_array (f : json -> json) (v : json) : json := match v with JArray l => JArray (f <$> l) | _ => v end.

Definition meant_container : jobject -> jobject := keep ["name"; "image"; "resources"].
Definition meant_volume (v : jobject) : jobject :=
  alter (on_object (keep ["claimName"; "readOnly"])) "persistentVolumeClaim" (keep ["name"; "persistentVolumeClaim"] v).
Definition meant_pod_spec (s : jobject) : jobject :=
  alter (on_array (on_object meant_container)) "containers" (keep ["containers"] s).
Definition meant_spec (s : jobject) : jobject :=
  alter (on_object (fun t => alter (on_object meant_pod_spec) "spec" (keep ["spec"] t))) "template"
    (alter (on_array (on_object meant_container)) "containers"
       (alter (on_array (on_object meant_volume)) "volumes"
          (keep (["containers"; "volumes"; "template"; "replicas"; "nodeName"] ++ service_keys ++ spec_keys) s))).
Definition meant_metadata : jobject -> jobject :=
  keep ["uid"; "name"; "namespace"; "resourceVersion"; "labels"; "creationTimestamp"; "ownerReferences"].
Definition meant (raw : json) : json :=
  on_object (fun o => alter (on_object meant_metadata) "metadata" (alter (on_object meant_spec) "spec"
                        (keep ["metadata"; "status"; "spec"] o))) raw.

Lemma keep_lookup keys m k : k ∈ keys -> keep keys m !! k = m !! k.
Proof.
  intros Hk. unfold keep. destruct (m !! k) as [v|] eqn:E.
  - by apply map_lookup_filter_Some.
  - apply map_lookup_filter_None. by left.
Qed.
Lemma at_keep keys m k : k ∈ keys -> at_ (keep keys m) k = at_ m k.
Proof. intros Hk. unfold at_. by rewrite keep_lookup. Qed.
Lemma at_alter f m k : f JNull = JNull -> at_ (alter f k m) k = f (at_ m k).
Proof. intros Hf. unfold at_. rewrite lookup_alter_eq. by destruct (m !! k). Qed.
Lemma at_alter_ne f m k k' : k <> k' -> at_ (alter f k m) k' = at_ m k'.
Proof. intros Hk. unfold at_. by rewrite lookup_alter_ne. Qed.

Lemma copy_keys_ext keys m m' d : (forall k, k ∈ keys -> m !! k = m' !! k) -> copy_keys keys m d = copy_keys keys m' d.
Proof.
  unfold copy_keys. revert d. induction keys as [|k keys IH]; intros d H; [done|]. cbn [foldl].
  rewrite (H k) by apply list_elem_of_here. apply IH. intros x Hx. by apply H, list_elem_of_further.
Qed.

Lemma objects_on f l : objects (on_object f <$> l) = f <$> objects l.
Proof.
  unfold objects in *. induction l as [|v l IH]; [done|]. cbn [fmap list_fmap] in *.
  destruct v; cbn [omap list_omap on_object]; first [exact IH|rewrite fmap_cons; f_equal; exact IH].
Qed.
Lemma objects_bind {B} (g : jobject -> B) f l : (forall m, g (f m) = g m) -> g <$> objects (on_object f <$> l) = g <$> objects l.
Proof. intros H. rewrite objects_on, <- list_fmap_compose. apply list_fmap_ext. intros i x _. apply H. Qed.

(** Keys that are told apart, or are in a list, by computation. *)
Ltac in_list := apply (bool_decide_unpack _); vm_compute; exact I.
Ltac fields := repeat first [rewrite at_alter_ne by discriminate | rewrite at_keep by in_list].

Lemma meant_container_entry c : container_entry (meant_container c) = container_entry c.
Proof. unfold container_entry, meant_container. by fields. Qed.

Lemma meant_pvc v : pvc_volume (on_object meant_volume v) = pvc_volume v.
Proof.
  destruct v as [| | | | |m]; try done. unfold pvc_volume, meant_volume. cbn [on_object objectValue].
  rewrite at_alter by done. fields. destruct (at_ m "persistentVolumeClaim"); try done. cbn [on_object]. by fields.
Qed.

Lemma meant_pvcs (l : list json) : omap pvc_volume (on_object meant_volume <$> l) = omap pvc_volume l.
Proof.
  induction l as [|v l IH]; [done|]. rewrite fmap_cons. cbn [omap list_omap]. rewrite meant_pvc.
  destruct (pvc_volume v); [f_equal|]; exact IH.
Qed.

Lemma containers_meant (g : list json -> jobject -> jobject) v d :
  (forall l, g (on_object meant_container <$> l) = g l) -> if_array (on_array (on_object meant_container) v) g d = if_array v g d.
Proof. intros H. destruct v; try done. cbn. by rewrite H. Qed.

Lemma spec_field s k :
  k ∈ ["replicas"; "nodeName"] ++ service_keys ++ spec_keys -> meant_spec s !! k = s !! k.
Proof.
  intros Hk. unfold meant_spec.
  rewrite !lookup_alter_ne by (intros <-; revert Hk; apply (bool_decide_unpack (¬ _)); vm_compute; exact I).
  apply keep_lookup. by do 3 apply list_elem_of_further.
Qed.

Lemma template_containers s :
  at_ (pod_spec (meant_spec s)) "containers" = on_array (on_object meant_container) (at_ (pod_spec s) "containers").
Proof.
  assert (Hown : at_ (meant_spec s) "containers" = on_array (on_object meant_container) (at_ s "containers")).
  { unfold meant_spec. fields. rewrite at_alter by done. by fields. }
  assert (Ht : at_ (meant_spec s) "template"
    = on_object (fun t => alter (on_object meant_pod_spec) "spec" (keep ["spec"] t)) (at_ s "template")).
  { unfold meant_spec. rewrite at_alter by done. by fields. }
  unfold pod_spec. rewrite Ht. destruct (at_ s "template") as [| | | | |t]; cbn [on_object]; try done.
  rewrite at_alter by done. fields. destruct (at_ t "spec") as [| | | | |ps]; cbn [on_object]; try done.
  unfold meant_pod_spec. rewrite at_alter by done. by fields.
Qed.

Lemma meant_spec_details kind obj obj' s d :
  at_ obj "status" = at_ obj' "status" -> spec_details kind obj (meant_spec s) d = spec_details kind obj' s d.
Proof.
  intros Hs. unfold spec_details. rewrite Hs, template_containers.
  rewrite (containers_meant (fun l => <["containers" := JArray (container_entry <$> objects l)]>)).
  2: { intros l. by rewrite (objects_bind container_entry _ _ meant_container_entry). }
  assert (Hv : forall d', if_array (at_ (meant_spec s) "volumes") (fun l => <["pvc_volumes" := pvc_volumes l]>) d'
    = if_array (at_ s "volumes") (fun l => <["pvc_volumes" := pvc_volumes l]>) d').
  { intros d'. unfold meant_spec. fields. rewrite at_alter by done. fields. destruct (at_ s "volumes") as [| | | |l|]; try done.
    cbn [on_array if_array]. unfold pvc_volumes. by rewrite meant_pvcs. }
  rewrite Hv. rewrite (spec_field s "replicas") by in_list.
  rewrite (copy_keys_ext spec_keys (meant_spec s) s) by (intros k Hk; apply spec_field; apply elem_of_app; right; apply elem_of_app; by right).
  rewrite (copy_keys_ext service_keys (meant_spec s) s) by (intros k Hk; apply spec_field; apply elem_of_app; right; apply elem_of_app; by left).
  done.
Qed.

(** C29: The inventory shows nothing of an object but what is meant for it: of its metadata the identity,
    labels, version, creation and owners, its status, and of its specification only the fields that are
    listed, with the name, image and resources of each container (in the object itself or in the
    template of a workload) and the claims of its volumes.  Environments, commands, arguments,
    annotations, data and everything else can be changed or removed without any difference. *)
Theorem only_meant_fields_shown kind raw : inventoryResource kind (meant raw) = inventoryResource kind raw.
Proof.
  destruct raw as [| | | | |o]; try done. unfold meant. cbn [on_object inventoryResource objectValue].
  set (o' := alter _ "metadata" _).
  assert (Hm : at_ o' "metadata" = on_object meant_metadata (at_ o "metadata")).
  { unfold o'. rewrite at_alter by done. by fields. }
  assert (Hs : at_ o' "status" = at_ o "status") by (unfold o'; by fields).
  assert (Hp : at_ o' "spec" = on_object meant_spec (at_ o "spec")).
  { unfold o'. fields. rewrite at_alter by done. by fields. }
  assert (Hf : forall k, k ∈ ["uid"; "name"; "namespace"; "resourceVersion"; "labels"; "creationTimestamp"; "ownerReferences"] ->
    at_ (mapField o' "metadata") k = at_ (mapField o "metadata") k).
  { intros k Hk. unfold mapField. rewrite Hm. destruct (at_ o "metadata"); try done. cbn. by apply at_keep. }
  unfold base_resource, workload_fields, stringField, mapField in *. unfold arrayField. rewrite !Hf by in_list. rewrite Hs, Hp.
  case_match; [done|]. destruct (at_ o "spec") as [| | | | |spec]; cbn [on_object]; try done.
  assert (Hn : at_ (meant_spec spec) "nodeName" = at_ spec "nodeName").
  { unfold at_. by rewrite spec_field by in_list. }
  assert (Hd : forall d, spec_details kind o' (meant_spec spec) d = spec_details kind o spec d).
  { intros d. by apply meant_spec_details. }
  rewrite Hn. by destruct (at_ o "status"); rewrite Hd.
Qed.

(** ** The pages of the inventory *)

Section snapshot.
Context {W : Type}.
Variable cfg : Config.
Variable token : option string.
Variable with_object : string -> string.
Variable answer : string -> option (Z * string).
Variable decode_list : string -> option (list json * string).
(** What the API server has of each kind, in pages, with the token of each page but the first. *)
Variable server : string -> list (list json).
Variable next : string -> nat -> string.
Variable body : string -> nat -> string.
Variable resource : string -> json -> jobject.

Definition page_url (kind path : string) (i : nat) : string :=
  trim_right_slashes (APIServerURL cfg) +:+ path +:+ "?limit=" +:+ itoa (EventLimit cfg)
  +:+ (if decide (i = O) then "" else "&continue=" +:+ next kind i).

Hypothesis next_token : forall kind i, next kind i <> "".
Hypothesis some_page : forall kind path, (kind, path) ∈ inventoryResourceSpecs -> server kind <> [].
Hypothesis serves : forall kind path i items, (kind, path) ∈ inventoryResourceSpecs -> server kind !! i = Some items ->
  answer (page_url kind path i) = Some (200, body kind i) /\
  decode_list (limit_body (body kind i)) = Some (items, if decide (S i < length (server kind))%nat then next kind (S i) else "") /\
  Forall (fun item => inventoryResource kind item = Ok (resource kind item)) items.

Let ReadFile (_ : string) (w : W) := (token, w).
Let get (url _ _ : string) (w : W) := (answer url, w).

Lemma resources_added kind items acc :
  Forall (fun item => inventoryResource kind item = Ok (resource kind item)) items ->
  add_resources kind items acc = Ok (acc ++ (resource kind <$> items)).
Proof.
  intros H. revert acc. induction H as [|item items Hi _ IH]; intros acc; [by rewrite app_nil_r|].
  cbn. rewrite Hi. cbn. by rewrite IH, <- app_assoc.
Qed.

Lemma get_page url accept w : contains "as=Table" accept = false ->
  apiGet ReadFile with_object get cfg url accept w
  = (match answer url with
     | Some (status, b) => if status =? 200 then Ok (limit_body b) else Err "API server GET status"
     | None => Err "GET"
     end, w).
Proof. intros Ha. unfold apiGet, readToken, ReadFile, get. rewrite Ha. by destruct (String.eqb (TokenFile cfg) ""). Qed.

Lemma pages_read kind path n i acc w :
  (kind, path) ∈ inventoryResourceSpecs -> (i < length (server kind))%nat ->
  pages ReadFile with_object get n cfg (trim_right_slashes (APIServerURL cfg) +:+ path) json_accept
    (inventory_page decode_list kind) (if decide (i = O) then "" else next kind i) acc w
  = (Ok (acc ++ (resource kind <$> mjoin (take n (drop i (server kind))))), w).
Proof.
  intros Hk. revert i acc. induction n as [|n IH]; intros i acc Hi; [by rewrite app_nil_r|].
  destruct (lookup_lt_is_Some_2 _ _ Hi) as [items Hit]. destruct (serves _ _ _ _ Hk Hit) as (Ha & Hd & Hr).
  cbn [pages]. rewrite get_page by done.
  assert (Hurl : (trim_right_slashes (APIServerURL cfg) +:+ path) +:+ "?limit=" +:+ itoa (EventLimit cfg) +:+
     (if String.eqb (if decide (i = O) then "" else next kind i) "" then "" else "&continue=" +:+ (if decide (i = O) then "" else next kind i))
     = page_url kind path i).
  { unfold page_url. rewrite str_app_assoc. do 4 f_equal. destruct (decide (i = O)); [done|].
    by destruct (String.eqb_spec (next kind i) "") as [E|]; [apply next_token in E|]. }
  rewrite Hurl, Ha. cbn [Z.eqb Pos.eqb mbind res_bind]. unfold inventory_page at 1. rewrite Hd.
  cbn [from_decoder mbind res_bind fst snd]. rewrite resources_added by done. cbn [mbind res_bind].
  rewrite (drop_S _ _ _ Hit). cbn [take mjoin list_join]. rewrite fmap_app, app_assoc.
  destruct (decide (S i < length (server kind))%nat) as [Hlt|Hlt].
  - destruct (String.eqb_spec (next kind (S i)) "") as [E|_]; [by apply next_token in E|].
    pose proof (IH (S i) (acc ++ (resource kind <$> items)) Hlt) as Hrec. rewrite decide_False in Hrec by done. exact Hrec.
  - cbn [String.eqb]. rewrite drop_ge by lia. by rewrite take_nil, app_nil_r.
Qed.

Lemma kinds_read specs acc w : (forall kp, kp ∈ specs -> kp ∈ inventoryResourceSpecs) ->
  collect_kinds ReadFile with_object get decode_list cfg specs acc w
  = (Ok (acc ++ (specs ≫= fun kp => resource kp.1 <$> mjoin (take 10 (server kp.1)))), w).
Proof.
  revert acc. induction specs as [|[kind path] specs IH]; intros acc H; [by rewrite app_nil_r|].
  assert (Hk : (kind, path) ∈ inventoryResourceSpecs) by (apply H, list_elem_of_here).
  cbn [collect_kinds]. unfold apiGetPaged.
  pose proof (pages_read kind path 10 0 acc w Hk) as Hp. rewrite decide_True in Hp by done.
  unfold maxListPages. rewrite Hp by (specialize (some_page _ _ Hk); destruct (server kind); [done|cbn; lia]).
  rewrite IH by (intros kp Hin; by apply H, list_elem_of_further). by rewrite drop_0, <- app_assoc.
Qed.

(** When the API server answers every page, what the inventory has of each kind are the resources of
    the first ten pages, in order, and this is what is posted as the state of the cluster: all of its
    resources when no kind has more pages, and a part of them, without any sign that it is one,
    otherwise. *)
Theorem inventory_is_ten_pages PostK8sResources PostMetrics inventoryMetrics now w :
  let shown := inventoryResourceSpecs ≫= fun kp => resource kp.1 <$> mjoin (take 10 (server kp.1)) in
  collectInventory ReadFile with_object get decode_list cfg w = (Ok shown, w) /\
  (KubeState cfg = false ->
   pushInventory ReadFile with_object get decode_list PostK8sResources PostMetrics inventoryMetrics now cfg w
   = (PostK8sResources (Cluster cfg) (now w) shown w).2) /\
  ((forall kind path, (kind, path) ∈ inventoryResourceSpecs -> (length (server kind) <= 10)%nat) ->
   shown = inventoryResourceSpecs ≫= fun kp => resource kp.1 <$> mjoin (server kp.1)).
Proof.
  cbn zeta. assert (Hc : forall w, collectInventory ReadFile with_object get decode_list cfg w
    = (Ok (inventoryResourceSpecs ≫= fun kp => resource kp.1 <$> mjoin (take 10 (server kp.1))), w)).
  { intros w'. unfold collectInventory. by rewrite kinds_read. }
  split; [apply Hc|]. split.
  - intros Hs. unfold pushInventory. rewrite Hc, Hs. destruct (PostK8sResources _ _ _ w) as [ok w']. by destruct ok.
  - intros Hl. assert (H : forall specs, (forall kp, kp ∈ specs -> kp ∈ inventoryResourceSpecs) ->
      (specs ≫= fun kp => resource kp.1 <$> mjoin (take 10 (server kp.1))) = (specs ≫= fun kp => resource kp.1 <$> mjoin (server kp.1))).
    { intros specs. induction specs as [|[kind path] specs IH]; intros H; [done|]. cbn [mbind list_bind fst].
      rewrite take_ge by (eapply Hl, H, list_elem_of_here). f_equal. apply IH. intros kp Hin. by apply H, list_elem_of_further. }
    by apply H.
Qed.
End snapshot.

(** ** Examples *)

Definition ex_cfg : Config := mk_config "https://api:443" "" "" true "c1" 0 false 1000 false true.
Definition ex_enum (A : Type) (m : gmap string A) : list (string * A) := map_to_list m.
Definition ex_event (kind name reason type : string) (n : Z) : coreEvent :=
  mk_event "shop" "" kind "shop" name reason "" type n "" "" None.

Lemma events_deduplicated_witness :
  let events := [ex_event "Pod" "web-7959f7697-z6psv" "BackOff" "Warning" 3; ex_event "Pod" "web-7959f7697-z6psv" "BackOff" "Warning" 5;
                 ex_event "Pod" "web-7959f7697-z6psv" "Pulled" "Normal" 9; ex_event "Node" "n1" "NodeNotReady" "Normal" 1] in
  let payload := buildPayload String.eqb ex_cfg ex_enum events in
  Forall (fun ev => count ev = 5 /\ workload ev = "web" \/ count ev = 1 /\ involved_name ev = "n1") payload.2 /\
  NoDup (event_key ex_cfg <$> payload.2).
Proof.
  split; [vm_compute; repeat (constructor; [by (left + right)|]); constructor|].
  apply (events_deduplicated String.eqb ex_cfg ex_enum (fun A m => reflexivity _)).
Defined.

(** An API server with eleven pages of pods, of one pod each. *)
Definition ex_item (i : nat) : json :=
  JObject {[ "metadata" := JObject (list_to_map [("uid", JString ("u" +:+ pretty i)); ("name", JString ("p" +:+ pretty i))]) ]}.
Definition ex_server (kind : string) : list (list json) :=
  if String.eqb kind "Pod" then (fun i => [ex_item i]) <$> seq 0 11 else [[]].
Definition ex_next (_ : string) (i : nat) : string := "t" +:+ pretty i.
Definition ex_body (kind : string) (i : nat) : string := kind +:+ ":" +:+ pretty i.
Definition ex_resource (kind : string) (item : json) : jobject := match inventoryResource kind item with Ok r => r | Err _ => ∅ end.
Definition ex_pages : list (string * string * nat * list json) :=
  inventoryResourceSpecs ≫= fun kp => imap (fun i items => (kp.1, kp.2, i, items)) (ex_server kp.1).
Definition ex_answer (url : string) : option (Z * string) :=
  (fun x : string * string * nat * list json => (200, ex_body x.1.1.1 x.1.2))
    <$> List.find (fun x : string * string * nat * list json => String.eqb url (page_url ex_cfg ex_next x.1.1.1 x.1.1.2 x.1.2)) ex_pages.
Definition ex_decode (text : string) : option (list json * string) :=
  (fun x : string * string * nat * list json =>
     (x.2, if decide (S x.1.2 < length (ex_server x.1.1.1))%nat then ex_next x.1.1.1 (S x.1.2) else ""))
    <$> List.find (fun x : string * string * nat * list json => String.eqb text (ex_body x.1.1.1 x.1.2)) ex_pages.

Ltac one_page := intros [= <-]; split_and!; [vm_compute; reflexivity|vm_compute; reflexivity|repeat constructor; vm_compute; reflexivity].

(** The pod of the eleventh page is missing from what is posted as the state of the cluster. *)
Lemma inventory_is_ten_pages_witness :
  match collectInventory (fun _ w => (None, w)) (fun url => url) (fun url _ _ w => (ex_answer url, w)) ex_decode ex_cfg tt with
  | (Ok shown, _) => ((fun r => stringField r "name") <$> shown) = ["p0"; "p1"; "p2"; "p3"; "p4"; "p5"; "p6"; "p7"; "p8"; "p9"]
  | _ => False
  end.
Proof.
  edestruct (inventory_is_ten_pages (W := unit) ex_cfg None (fun url => url) ex_answer ex_decode ex_server ex_next ex_body ex_resource)
    with (PostK8sResources := fun (_ : string) (_ : Z) (_ : list jobject) (w : unit) => (true, w))
    (PostMetrics := fun (_ : list Metric) (w : unit) => (true, w))
    (inventoryMetrics := fun (_ : string) (_ : list jobject) => @nil Metric) (now := fun _ : unit => 0) (w := tt) as [H _].
  - intros kind i. discriminate.
  - intros kind path Hk. unfold ex_server. by case_match.
  - intros kind path i items Hk. unfold inventoryResourceSpecs in Hk.
    repeat (apply elem_of_cons in Hk as [[= -> ->]|Hk]; [do 12 (destruct i as [|i]; [try discriminate; one_page|]); discriminate|]).
    by apply not_elem_of_nil in Hk.
  - rewrite H. vm_compute. reflexivity.
Defined.
End ClusterProps.
