(* ===== verification/Journald.v ===== *)
(** * The journal of the host (internal/checks/journald.go)

    journalctl writes a JSON record on each line.  The reader takes the lines apart, drops what one
    unit writes too fast, and hands records over through a channel without ever waiting.

    The text of JSON, its numbers, case mapping and the process are arguments. *)

From S2P Require Import Prelude GoStrings GoFloat Wire Processing Prom RateWindow.
#[local] Open Scope Z_scope.

Module Journald.
Import Processing(json, JNull, JBool, JNumber, JString, JArray, JObject, jobject).

Definition ratelimitLines : Z := 1000.
Definition ratelimitWindow : Z := second.
Definition JournaldUnitInitScope : string := "init.scope".
Definition buffer_size : nat := 256.

Record JournaldRecord := mk_record {
  TimestampUnixNano : Z;
  Unit : string;
  Priority : Z;
  Body : string;
  Hostname : string;
  PID : string;
  Extras : tagmap;
}.

Definition stringField (m : jobject) (k : string) : string := match m !! k with Some (JString s) => s | _ => "" end.

Section parsing.
Variable decode : string -> option jobject.   (* json.Unmarshal into a map; null is the empty one *)
Variable number : string -> f64.
Variable ToLower : string -> string.

(** The bytes among the values of an array. *)
Definition message_bytes (l : list json) : string :=
  of_bytes (omap (fun v => match v with
                           | JNumber t => if fle f64_zero (number t) && fle (number t) (f_of_Z 255) then Some (f_to_u64 (number t)) else None
                           | _ => None
                           end) l).

Definition extra_fields : list string :=
  ["SYSLOG_IDENTIFIER"; "_COMM"; "_EXE"; "_CMDLINE"; "_UID"; "_GID"; "CODE_FILE"; "CODE_FUNC"; "CODE_LINE"].

Definition record_time (now : Z) (raw : jobject) : Z :=
  let t := match atoi (stringField raw "__REALTIME_TIMESTAMP") with Some usec => i64 (usec * 1000) | None => 0 end in
  if t =? 0 then now else t.
Definition record_unit (raw : jobject) : string :=
  if negb (String.eqb (stringField raw "_SYSTEMD_UNIT") "") then stringField raw "_SYSTEMD_UNIT"
  else if negb (String.eqb (stringField raw "SYSLOG_IDENTIFIER") "") then stringField raw "SYSLOG_IDENTIFIER"
  else "unknown".
Definition record_priority (raw : jobject) : Z :=
  match atoi (stringField raw "PRIORITY") with
  | Some p => if (0 <=? p) && (p <=? 7) then p else 6
  | None => 6
  end.

Definition parseJournaldLine (now : Z) (line : string) : option JournaldRecord :=
  raw ← decode line;
  Some (mk_record (record_time now raw) (record_unit raw) (record_priority raw)
    (match raw !! "MESSAGE" with Some (JString s) => s | Some (JArray l) => message_bytes l | _ => "" end)
    (stringField raw "_HOSTNAME") (stringField raw "_PID")
    (foldl (fun m k => if String.eqb (stringField raw k) "" then m else <[ToLower k := stringField raw k]> m) ∅ extra_fields)).

Definition PriorityToSeverityNumber (p : Z) : Z :=
  if p <=? 2 then 21 else if p =? 3 then 17 else if p =? 4 then 13 else if p =? 5 then 9 else if p =? 6 then 9
  else if p =? 7 then 5 else 9.
Definition PriorityToSeverityText (p : Z) : string :=
  if p <=? 2 then "FATAL" else if p =? 3 then "ERROR" else if p =? 4 then "WARN"
  else if (p =? 5) || (p =? 6) then "INFO" else if p =? 7 then "DEBUG" else "INFO".

(** ** The reader *)

Record rateBucket := mk_bucket { count : Z; windowEnd : Z }.
(** [out]: what is in the channel, the first to be received first. *)
Record JournaldReader := mk_reader {
  out : list JournaldRecord;
  rateBuckets : gmap string rateBucket;
  linesTotal : Z;
  bytesTotal : Z;
  droppedTotal : Z;
  droppedPerUnit : gmap string Z;
}.
Definition NewJournaldReader : JournaldReader := mk_reader [] ∅ 0 0 0 ∅.

Record JournaldStats := mk_stats { LinesTotal : Z; BytesTotal : Z; DroppedTotal : Z; PerUnitDropped : gmap string Z }.
Definition Stats (r : JournaldReader) : JournaldStats :=
  mk_stats (linesTotal r) (bytesTotal r) (droppedTotal r) (droppedPerUnit r).

Definition allow (now : Z) (unit : string) (r : JournaldReader) : bool * JournaldReader :=
  let set b := mk_reader (out r) (<[unit := b]> (rateBuckets r)) (linesTotal r) (bytesTotal r) (droppedTotal r) (droppedPerUnit r) in
  let fresh := (true, set (mk_bucket 1 (now + ratelimitWindow))) in
  match rateBuckets r !! unit with
  | None => fresh
  | Some b => if windowEnd b <? now then fresh
              else if ratelimitLines <=? count b then (false, r)
              else (true, set (mk_bucket (i64 (count b + 1)) (windowEnd b)))
  end.

(** A record that is dropped is counted, in all and for its unit. *)
Definition drop_record (unit : string) (r : JournaldReader) : JournaldReader :=
  mk_reader (out r) (rateBuckets r) (linesTotal r) (bytesTotal r) (i64 (droppedTotal r + 1))
    (<[unit := i64 (default 0 (droppedPerUnit r !! unit) + 1)]> (droppedPerUnit r)).
Definition add_line (r : JournaldReader) : JournaldReader :=
  mk_reader (out r) (rateBuckets r) (i64 (linesTotal r + 1)) (bytesTotal r) (droppedTotal r) (droppedPerUnit r).
Definition add_bytes (n : Z) (r : JournaldReader) : JournaldReader :=
  mk_reader (out r) (rateBuckets r) (linesTotal r) (i64 (bytesTotal r + n)) (droppedTotal r) (droppedPerUnit r).
Definition send (rec : JournaldRecord) (r : JournaldReader) : JournaldReader :=
  mk_reader (out r ++ [rec]) (rateBuckets r) (linesTotal r) (bytesTotal r) (droppedTotal r) (droppedPerUnit r).

(** A line that was scanned: the clock when it is taken apart and when its rate is asked for. *)
Definition scan_line (parsed_at allowed_at : Z) (line : string) (r : JournaldReader) : JournaldReader :=
  if String.eqb line "" then r
  else
    let r := add_bytes (str_len line) r in
    match parseJournaldLine parsed_at line with
    | None => r
    | Some rec =>
        if String.eqb (Unit rec) JournaldUnitInitScope then r
        else
          let '(ok, r) := allow allowed_at (Unit rec) r in
          if negb ok then drop_record (Unit rec) r
          else
            let r := add_line r in
            if (length (out r) <? buffer_size)%nat then send rec r else drop_record (Unit rec) r
    end.

(** The consumer receives. *)
Definition receive (r : JournaldReader) : option JournaldRecord * JournaldReader :=
  match out r with
  | [] => (None, r)
  | rec :: rest => (Some rec, mk_reader rest (rateBuckets r) (linesTotal r) (bytesTotal r) (droppedTotal r) (droppedPerUnit r))
  end.

(** The lines of an output that ends, and whether one was too long: the scan stops there. *)
Definition scanned (output : string) : list string * bool := Prom.fitting (1024 * 1024) (Prom.raw_lines output "").

(** [scanLoop] over an output, without a consumer in between. *)
Definition scanLoop (parsed_at allowed_at : Z) (output : string) (r : JournaldReader) : res unit * JournaldReader :=
  let '(lines, too_long) := scanned output in
  (if too_long then Err "token too long" else Ok tt, foldl (fun r line => scan_line parsed_at allowed_at line r) r lines).
End parsing.

(** How long the next start of the process waits after [n] ends of it. *)
Fixpoint backoff (n : nat) : Z :=
  match n with
  | O => second
  | S n => Z.min (backoff n * 2) (30 * second)
  end.
End Journald.

(** * What the reader of the journal promises

    A record of the journal is handed over, in its order, or counted as dropped; and no unit passes
    more than its rate. *)

Module JournaldProps.
Import Journald.

Section run.
Variable decode : string -> option Processing.jobject.
Variable number : string -> f64.
Variable ToLower : string -> string.

(** What happens: a line is scanned, or the consumer receives. *)
Inductive event := Line (parsed_at allowed_at : Z) (line : string) | Receive.

Definition step (st : JournaldReader * list JournaldRecord) (e : event) : JournaldReader * list JournaldRecord :=
  match e with
  | Line t1 t2 line => (scan_line decode number ToLower t1 t2 line st.1, st.2)
  | Receive => ((receive st.1).2, st.2 ++ option_list (receive st.1).1)
  end.
(** The reader after events, with what was received. *)
Definition after (evs : list event) : JournaldReader * list JournaldRecord := foldl step (NewJournaldReader, []) evs.

(** The records of the lines, those of the unit that is left out apart. *)
Definition record_of (e : event) : option JournaldRecord :=
  match e with
  | Line t1 _ line =>
      if decide (line = "") then None
      else match parseJournaldLine decode number ToLower t1 line with
           | Some rec => if decide (Unit rec = "init.scope") then None else Some rec
           | None => None
           end
  | Receive => None
  end.
Definition records (evs : list event) : list JournaldRecord := omap record_of evs.

Definition of_unit (u : string) (l : list JournaldRecord) : list JournaldRecord := filter (fun rec => Unit rec = u) l.

(** A list split up in two, each in the order of the whole. *)
Inductive splits {A} : list A -> list A -> list A -> Prop :=
  | splits_nil : splits [] [] []
  | splits_left x l a b : splits l a b -> splits (x :: l) (x :: a) b
  | splits_right x l a b : splits l a b -> splits (x :: l) a (x :: b).

Lemma splits_snoc_left {A} (x : A) l a b : splits l a b -> splits (l ++ [x]) (a ++ [x]) b.
Proof. induction 1; cbn; repeat constructor; assumption. Qed.
Lemma splits_snoc_right {A} (x : A) l a b : splits l a b -> splits (l ++ [x]) a (b ++ [x]).
Proof. induction 1; cbn; repeat constructor; assumption. Qed.

(** What was handed over or is in the channel, and what was counted as dropped. *)
Record accounted (st : JournaldReader * list JournaldRecord) (all lost : list JournaldRecord) : Prop := {
  split_up : splits all (st.2 ++ out st.1) lost;
  total : droppedTotal st.1 = i64 (Z.of_nat (length lost));
  per_unit : forall u, default 0 (droppedPerUnit st.1 !! u) = i64 (Z.of_nat (length (of_unit u lost)));
  bounded : (length (out st.1) <= 256)%nat;
}.

Lemma allow_keeps t u r :
  let r' := (allow t u r).2 in
  out r' = out r /\ droppedTotal r' = droppedTotal r /\ droppedPerUnit r' = droppedPerUnit r.
Proof. unfold allow. by repeat case_match. Qed.

Lemma accounted_same st r all lost :
  out r = out st.1 -> droppedTotal r = droppedTotal st.1 -> droppedPerUnit r = droppedPerUnit st.1 ->
  accounted st all lost -> accounted (r, st.2) all lost.
Proof. intros E1 E2 E3 [H1 H2 H3 H4]. by constructor; cbn [fst snd]; rewrite ?E1, ?E2, ?E3. Qed.

Lemma i64_count n : i64 (i64 (Z.of_nat n) + 1) = i64 (Z.of_nat (S n)).
Proof. rewrite swrap_add_l. f_equal. lia. Qed.

Lemma of_unit_snoc u l rec :
  length (of_unit u (l ++ [rec])) = (length (of_unit u l) + (if decide (Unit rec = u) then 1 else 0))%nat.
Proof. unfold of_unit. rewrite filter_app, length_app, filter_cons, filter_nil. by case_decide. Qed.

Lemma accounted_drop st all lost rec :
  accounted st all lost -> accounted (drop_record (Unit rec) st.1, st.2) (all ++ [rec]) (lost ++ [rec]).
Proof.
  intros [H1 H2 H3 H4]. constructor; cbn [fst snd drop_record out droppedTotal droppedPerUnit].
  - by apply splits_snoc_right.
  - by rewrite H2, i64_count, length_app, Nat.add_1_r.
  - intros u. rewrite of_unit_snoc. case_decide as E.
    + subst u. rewrite lookup_insert_eq, Nat.add_1_r, <- i64_count, <- H3. reflexivity.
    + by rewrite lookup_insert_ne, Nat.add_0_r.
  - exact H4.
Qed.

Lemma accounted_send st all lost rec :
  (length (out st.1) < 256)%nat -> accounted st all lost -> accounted (send rec st.1, st.2) (all ++ [rec]) lost.
Proof.
  intros Hr [H1 H2 H3 H4]. constructor; cbn [fst snd send out droppedTotal droppedPerUnit]; [|done|done|rewrite length_app; cbn; lia].
  rewrite app_assoc. by apply splits_snoc_left.
Qed.

Lemma accounted_step st all lost e :
  accounted st all lost -> exists lost', accounted (step st e) (all ++ option_list (record_of e)) lost'.
Proof.
  intros H. destruct e as [t1 t2 line|]; cbn [step record_of].
  - unfold scan_line. destruct (String.eqb_spec line "") as [->|Hl].
    { rewrite decide_True, app_nil_r by done. exists lost. by destruct st. }
    rewrite decide_False by done. set (st1 := (add_bytes (str_len line) st.1, st.2)).
    assert (H1 : accounted st1 all lost) by (by apply accounted_same).
    destruct (parseJournaldLine decode number ToLower t1 line) as [rec|]; [|rewrite app_nil_r; by exists lost].
    unfold JournaldUnitInitScope. destruct (String.eqb_spec (Unit rec) "init.scope") as [E|E].
    { rewrite decide_True, app_nil_r by done. by exists lost. }
    rewrite decide_False by done. cbn [option_list].
    pose proof (allow_keeps t2 (Unit rec) st1.1) as (E1 & E2 & E3). change (add_bytes (str_len line) st.1) with st1.1.
    destruct (allow t2 (Unit rec) st1.1) as [ok r]. cbn [snd] in *.
    assert (H2 : accounted (r, st.2) all lost) by (by apply (accounted_same st1)).
    destruct ok; cbn [negb]; [|exists (lost ++ [rec]); by apply (accounted_drop (r, st.2))].
    assert (H3 : accounted (add_line r, st.2) all lost) by (by apply (accounted_same (r, st.2))).
    destruct (length (out (add_line r)) <? buffer_size)%nat eqn:Hlen.
    + exists lost. apply (accounted_send (add_line r, st.2)); [|done]. by apply Nat.ltb_lt in Hlen.
    + exists (lost ++ [rec]). by apply (accounted_drop (add_line r, st.2)).
  - exists lost. rewrite app_nil_r. destruct H as [H1 H2 H3 H4]. unfold receive. destruct (out st.1) as [|rec rest] eqn:E.
    + cbn [fst snd option_list]. rewrite app_nil_r in *. constructor; cbn [fst snd]; rewrite ?E, ?app_nil_r; done.
    + cbn [fst snd option_list]. constructor; cbn [fst snd out droppedTotal droppedPerUnit]; [|done|done|cbn in H4; lia].
      by rewrite <- app_assoc.
Qed.

(** The outputs of the process, one for each of its runs, as they are scanned: when each
    line is taken apart and its rate is asked for, and how often the consumer receives
    after it. *)
Definition life (when : nat -> Z * Z * nat) (outputs : list string) : list event :=
  concat (imap (fun i line => let '(t1, t2, n) := when i in Line t1 t2 line :: repeat Receive n)
    (outputs ≫= fun o => (scanned o).1)).

Definition lines_of (evs : list event) : list string :=
  omap (fun e => match e with Line _ _ line => Some line | Receive => None end) evs.

(** The lines of an output before the first of a megabyte or more. *)
Definition before_long (output : string) : list string :=
  let lines := Prom.raw_lines output "" in
  Prom.drop_cr <$> match list_find (fun y => 1024 * 1024 <= str_len y) lines with
                   | Some (k, _) => take k lines
                   | None => lines
                   end.

Lemma scanned_lines output : (scanned output).1 = before_long output.
Proof.
  unfold scanned, before_long. generalize (Prom.raw_lines output ""). intros l.
  induction l as [|x l IH]; [done|]. cbn [Prom.fitting list_find].
  destruct (Z.leb_spec (1024 * 1024) (str_len x)) as [Hx|Hx]; [by rewrite decide_True|].
  rewrite decide_False by lia. destruct (Prom.fitting _ l) as [l' e]. cbn [fst] in *. rewrite IH.
  by destruct (list_find _ l) as [[k y]|].
Qed.

Lemma lines_of_life when outputs : lines_of (life when outputs) = outputs ≫= before_long.
Proof.
  unfold life. replace (outputs ≫= before_long) with (outputs ≫= fun o => (scanned o).1).
  2: { apply list_bind_ext; [|done]. intros o. apply scanned_lines. }
  generalize (outputs ≫= fun o => (scanned o).1). intros l. revert when.
  assert (forall evs k, lines_of (repeat Receive k ++ evs) = lines_of evs) as Hr.
  { intros evs k. induction k as [|k IH]; [done|exact IH]. }
  induction l as [|x l IH]; intros when; [done|]. cbn [imap]. destruct (when 0%nat) as [[t1 t2] n].
  cbn [concat app]. change (lines_of (?e :: ?r)) with (x :: lines_of r). rewrite Hr. f_equal.
  apply (IH (when ∘ S)).
Qed.

(** Any events: what was scanned is accounted for. *)
Lemma events_accounted evs : exists lost, accounted (after evs) (records evs) lost.
Proof.
  unfold after, records. induction evs as [|e evs [lost IH]] using rev_ind.
  - exists []. constructor; [constructor|done|done|cbn; lia].
  - rewrite foldl_app, omap_app. cbn [foldl]. replace (omap record_of [e]) with (option_list (record_of e)); [by apply (accounted_step _ _ _ e) in IH|].
    cbn. by destruct (record_of e).
Qed.

(** C30: Whatever the process writes in its runs and however slowly it is consumed: the
    lines that are scanned are exactly those of each run before its first line of a
    megabyte; and every record in them (of another unit than init.scope) was received or is
    in the channel, in the order of the journal, or was dropped and counted, in all and for
    its unit; the channel never holds more than 256.  What is not scanned, a line of a
    megabyte and what the run had still to write ([long_line_stops]), and what the journal
    gets while no process runs, is neither handed over nor counted. *)
Theorem journal_accounted (when : nat -> Z * Z * nat) (outputs : list string) :
  lines_of (life when outputs) = outputs ≫= before_long /\
  exists lost, accounted (after (life when outputs)) (records (life when outputs)) lost.
Proof. split; [apply lines_of_life|apply events_accounted]. Qed.
End run.

(** ** The rate of a unit *)

Import RateWindow.

(** How many lines of a unit pass in the stretch of a second from [T], of those that come at [ts]. *)
Fixpoint passed (T : Z) (u : string) (ts : list Z) (r : JournaldReader) : Z :=
  match ts with
  | [] => 0
  | t :: ts => let '(ok, r) := allow t u r in
               (if ok && ((T <=? t) && (t <=? T + second)) then 1 else 0) + passed T u ts r
  end.

(** The bucket of a unit as a window. *)
Definition as_window (u : string) (r : JournaldReader) (w : Z * Z) : Prop :=
  match rateBuckets r !! u with
  | Some b => w = (windowEnd b - second, count b)
  | None => False
  end.

Lemma allow_spends t u r w :
  as_window u r w -> 0 <= w.2 <= 1000 ->
  let '(ok, r') := allow t u r in
  let '(ok', w') := spend (second + 1) 1000 t 1 w in ok = ok' /\ as_window u r' w'.
Proof.
  unfold as_window, allow, spend. destruct (rateBuckets r !! u) as [b|] eqn:Hb; [|done]. intros ->. cbn [fst snd]. intros Hc.
  unfold ratelimitWindow, ratelimitLines.
  destruct (Z.ltb_spec (windowEnd b) t) as [Ht|Ht].
  - replace (second + 1 <=? t - (windowEnd b - second)) with true by lia. cbn [fst snd Z.add Z.ltb Z.compare Pos.compare].
    replace (1000 <? 0 + 1) with false by lia. split; [done|]. cbn [rateBuckets]. rewrite lookup_insert_eq. cbn. f_equal. lia.
  - replace (second + 1 <=? t - (windowEnd b - second)) with false by lia. cbn [fst snd].
    destruct (Z.leb_spec 1000 (count b)) as [Hl|Hl].
    + replace (1000 <? count b + 1) with true by lia. split; [done|]. by rewrite Hb.
    + replace (1000 <? count b + 1) with false by lia. split; [done|]. cbn [rateBuckets]. rewrite lookup_insert_eq. cbn [count windowEnd].
      by rewrite i64_small by (unfold in_i64; lia).
Qed.

Lemma passed_budget T u ts tau r w :
  as_window u r w -> sound 1000 tau w -> Sorted Z.le (tau :: ts) -> passed T u ts r <= allowance (second + 1) 1000 T tau w.
Proof.
  revert tau r w. induction ts as [|t ts IH]; intros tau r w Hw Hs Hle; cbn [passed].
  - by apply (allowance_bound (second + 1) 1000).
  - apply Sorted_inv in Hle as [Hle Ht]. apply HdRel_inv in Ht.
    pose proof (allow_spends t u r w Hw (proj2 Hs)) as Ha. destruct (allow t u r) as [ok r'].
    pose proof (admit_budget (second + 1) 1000 ltac:(unfold second; lia) t 1 tau T w ltac:(lia) Hs Ht) as Hb.
    destruct (spend (second + 1) 1000 t 1 w) as [ok' w']. destruct Ha as [<- Hw'], Hb as [Hs' Hb].
    specialize (IH t r' w' Hw' Hs' Hle). unfold within in Hb.
    replace (t <=? T + second) with (t <? T + (second + 1)) by lia. lia.
Qed.

(** Of the lines of a unit at most two thousand pass within any second, twice the rate. *)
Lemma unit_rate T u ts r : rateBuckets r !! u = None -> Sorted Z.le ts -> passed T u ts r <= 2000.
Proof.
  intros Hr Hs. destruct ts as [|t ts]; [cbn; lia|]. cbn [passed]. unfold allow. rewrite Hr.
  set (r' := mk_reader _ _ _ _ _ _).
  assert (Hw : as_window u r' (t, 1)).
  { unfold as_window, r'. cbn [rateBuckets]. rewrite lookup_insert_eq. cbn [count windowEnd]. f_equal. unfold ratelimitWindow. lia. }
  assert (Hsound : sound 1000 t (t, 1)) by (unfold sound; cbn; lia).
  pose proof (passed_budget T u ts t r' (t, 1) Hw Hsound Hs) as Hb. unfold allowance in Hb. cbn [fst snd] in Hb.
  cbn [andb]. repeat case_match; lia.
Qed.

(** ** Observations *)

(** Emergencies, alerts and critical messages are fatal; the table of the comment has them as errors. *)
Example severities : PriorityToSeverityNumber <$> [0; 1; 2; 3; 4; 7] = [21; 21; 21; 17; 13; 5].
Proof. reflexivity. Qed.

(** What was dropped of a unit is never forgotten, though the comment says that it is of the last window. *)
Lemma drops_accumulate u r : droppedPerUnit (drop_record u r) !! u = Some (i64 (default 0 (droppedPerUnit r !! u) + 1)).
Proof. apply lookup_insert_eq. Qed.

(** A line that is too long ends the scan: nothing after it is read, and the process is started anew
    for what is written from then on. *)
Lemma long_line_stops l x rest :
  Forall (fun y => str_len y < 1024 * 1024) l -> 1024 * 1024 <= str_len x ->
  Prom.fitting (1024 * 1024) (l ++ x :: rest) = (Prom.drop_cr <$> l, true).
Proof.
  intros Hl Hx. induction Hl as [|y l Hy _ IH]; cbn [app Prom.fitting].
  - by replace (1024 * 1024 <=? str_len x) with true by lia.
  - replace (1024 * 1024 <=? str_len y) with false by lia. by rewrite IH.
Qed.

(** The pause before a restart never gets shorter again, however long the process ran. *)
Lemma backoff_grows n : second <= backoff n <= backoff (S n).
Proof.
  assert (H : forall n, second <= backoff n <= 30 * second).
  { intros k. induction k as [|k IH]; cbn [backoff]; unfold second in *; lia. }
  specialize (H n). cbn [backoff]. lia.
Qed.
End JournaldProps.
