(* ===== verification/HostSystem.v ===== *)
(** * What hosts use (internal/checks: linux_processes.go, linux_system.go, node_system.go, docker_host.go; internal/svcagg)

    [Services] groups the processes of the host by their control group: a group of a unit, a container
    or the like is a service, and a run reports the services that use most.  [Svcagg] adds up, for a
    service, the bytes that are counted for its processes elsewhere.  [HostSystem] and [DockerHost] are
    the checks of the host and of its containers.

    Files, the Docker client, case mapping, the order of maps and [sort.Slice] are arguments. *)

From S2P Require Import Prelude GoStrings GoFloat Wire Webhook Prom Cgroup.
#[local] Open Scope Z_scope.

(** ** Counters of processes *)
Module Svcagg.
Record Counters := mk_counters { NetRx : Z; NetTx : Z }.
Definition state : Type := gmap Z Counters.
Definition counters (st : state) (pid : Z) : Counters := default (mk_counters 0 0) (st !! pid).

Definition TrackRx (pid bytes : Z) (st : state) : state :=
  if (pid =? 0) || (bytes <=? 0) then st
  else let c := counters st pid in <[pid := mk_counters (u64 (NetRx c + bytes)) (NetTx c)]> st.
Definition TrackTx (pid bytes : Z) (st : state) : state :=
  if (pid =? 0) || (bytes <=? 0) then st
  else let c := counters st pid in <[pid := mk_counters (NetRx c) (u64 (NetTx c + bytes))]> st.
Definition Snapshot (st : state) : state := st.
Definition PruneDead (alive : gset Z) (st : state) : state := filter (fun kv => kv.1 ∈ alive) st.
End Svcagg.

Module Services.
Import Webhook(or_default).
Import Cgroup CgroupStats.
Import Svcagg(Counters, mk_counters, NetRx, NetTx).

Definition defaultProcTopN : nat := 32.

Record linuxProcessesCheck := mk_check {
  id : string;
  interval : Z;
  hostID : string;
  staticTags : tagmap;
  topN : nat;
  lastCpuUsage : gmap string f64;
  lastSampleAt : Z;
  dockerNames : option (gmap string string);
  dockerNamesAt : Z;
}.
Definition newLinuxProcessesCheck (cfg : CheckConfig) : linuxProcessesCheck :=
  mk_check (or_default (CheckId cfg) ("linux.processes-" +:+ CheckHostId cfg))
    (if Interval cfg <=? 0 then 30 * second else Interval cfg) (CheckHostId cfg) (StaticTags cfg)
    defaultProcTopN ∅ zero_time None zero_time.

Definition metric (c : linuxProcessesCheck) (ts : Z) (name : string) (val : f64) (extra : tagmap) : Metric :=
  mk_metric (Some ts) (hostID c) name val "" "" (extra ∪ staticTags c) "linux.processes".

Record cgInfo := mk_info { cg : Cgroup; pids : list Z }.

(** What Docker lists of a container. *)
Record container := mk_container { ct_ID : string; ct_Labels : tagmap; ct_Names : list string }.

Record sample := mk_sample {
  service : string;
  kind : string;
  cpuPct : f64;
  rssBytes : Z;
  procCount : nat;
  ioReadBytes : Z;
  ioWriteBytes : Z;
  netRxBytes : Z;
  netTxBytes : Z;
}.

(** ** Names *)

(** The first twelve bytes tell containers apart. *)
Definition short_id (containerId : string) : string := if 12 <=? str_len containerId then str_take 12 containerId else containerId.

Definition resolveDockerName (names : option (gmap string string)) (containerId : string) : string :=
  match names with
  | None => ""
  | Some names =>
      match names !! containerId with
      | Some name => name
      | None => if 12 <=? str_len containerId then default "" (names !! str_take 12 containerId) else ""
      end
  end.

Definition runtime_name (runtime containerId : string) : option string :=
  if (12 <=? str_len containerId) || negb (String.eqb containerId "") then Some (runtime +:+ ":" +:+ short_id containerId) else None.
Definition serviceNameFromCgroup (names : option (gmap string string)) (g : Cgroup) : option string :=
  let cid := ContainerId g in
  match ctype g with
  | ContainerTypeSystemdService =>
      let name := match Prom.last_cut (chr 47) cid with Some (_, b) => b | None => cid end in
      let name := trim_suffix ".service" name in
      if String.eqb name "" then None else Some name
  | ContainerTypeDocker =>
      let friendly := resolveDockerName names cid in
      if String.eqb friendly "" then runtime_name "docker" cid else Some friendly
  | ContainerTypeContainerd => runtime_name "containerd" cid
  | ContainerTypeCrio => runtime_name "crio" cid
  | ContainerTypeLxc => if String.eqb cid "" then None else Some ("lxc:" +:+ cid)
  | _ => None
  end.

(** ** Processes *)

(** [entries]: the names in /proc, and whether they are directories. *)
Definition add_process (ReadFile : string -> option string) (out : gmap string cgInfo) (e : string * bool) : gmap string cgInfo :=
  match (if e.2 then parse_uint 32 e.1 else None) with
  | None => out
  | Some pid =>
      match NewFromProcessCgroupFile (ReadFile (path_join ["/proc"; e.1; "cgroup"])) with
      | Err _ => out
      | Ok g =>
          if String.eqb (Id g) "" then out
          else match out !! Id g with
               | Some info => <[Id g := mk_info (cg info) (pids info ++ [pid])]> out
               | None => <[Id g := mk_info g [pid]]> out
               end
      end
  end.
Definition scanProcsByCgroup (ReadFile : string -> option string) (entries : option (list (string * bool))) : res (gmap string cgInfo) :=
  match entries with
  | None => Err "scan /proc"
  | Some entries => Ok (foldl (add_process ReadFile) ∅ entries)
  end.

Section run.
Variable ToLower : string -> string.
Variable enum : forall A : Type, gmap string A -> list (string * A).
Variable sort_slice : (sample -> sample -> bool) -> list sample -> list sample.   (* sort.Slice *)
Variables cgRoot cg2Root : string.

Definition index_container (m : gmap string string) (ct : container) : gmap string string :=
  let compose := tag "com.docker.compose.service" (ct_Labels ct) in
  let name := if negb (String.eqb compose "") then compose
              else match ct_Names ct with n :: _ => trim_prefix "/" n | [] => "" end in
  if String.eqb name "" then m
  else
    let name := ToLower name in
    let m := <[ct_ID ct := name]> m in
    if 12 <=? str_len (ct_ID ct) then <[str_take 12 (ct_ID ct) := name]> m else m.

(** [asked]: the clock when the age of the names is looked at, [set_at] when they are set; [answer]: what
    Docker lists, none when it cannot be asked. *)
Definition refreshDockerNames (asked set_at : Z) (answer : option (list container)) (c : linuxProcessesCheck) : linuxProcessesCheck :=
  let set names at_ := mk_check (id c) (interval c) (hostID c) (staticTags c) (topN c) (lastCpuUsage c) (lastSampleAt c) (Some names) at_ in
  match dockerNames c with
  | Some names =>
      if time_sub asked (dockerNamesAt c) <? minute then c
      else match answer with Some cts => set (foldl index_container ∅ cts) set_at | None => c end
  | None => match answer with Some cts => set (foldl index_container ∅ cts) set_at | None => set ∅ (dockerNamesAt c) end
  end.

(** ** A run *)

Variable ReadFile : string -> option string.

Definition cpu_pct (prev : option f64) (elapsed : f64) (cpu : option CPUStat) : f64 :=
  match cpu, prev with
  | Some cpu, Some prev =>
      if flt f64_zero elapsed then
        let delta := fsub (UsageSeconds cpu) prev in
        if flt f64_zero delta then fmul (fdiv delta elapsed) (f_of_Z 100) else f64_zero
      else f64_zero
  | _, _ => f64_zero
  end.

Definition sum_u64 {A} (f : A -> Z) (l : list A) : Z := foldl (fun n x => u64 (n + f x)) 0 l.

Definition idle (s : sample) : bool :=
  feq (cpuPct s) f64_zero && (rssBytes s =? 0) && (ioReadBytes s =? 0) && (ioWriteBytes s =? 0)
  && (netRxBytes s =? 0) && (netTxBytes s =? 0).

Definition sample_of (c : linuxProcessesCheck) (elapsed : f64) (netSnap : Svcagg.state) (cgID : string) (ci : cgInfo) : option sample :=
  name ← serviceNameFromCgroup (dockerNames c) (cg ci);
  let ios := snd <$> enum _ (IOStat_ ReadFile cgRoot cg2Root (cg ci)) in
  let nets := omap (fun pid => netSnap !! pid) (pids ci) in
  let s := mk_sample name (type_name (ctype (cg ci)))
             (cpu_pct (lastCpuUsage c !! cgID) elapsed (CpuStat ReadFile cgRoot cg2Root (cg ci)))
             (match MemoryStat_ ReadFile cgRoot cg2Root (cg ci) with Some m => RSS m | None => 0 end)
             (length (pids ci)) (sum_u64 ReadBytes ios) (sum_u64 WrittenBytes ios) (sum_u64 NetRx nets) (sum_u64 NetTx nets) in
  if idle s && is_zero_time (lastSampleAt c) then None else Some s.

(** The usage that is kept of the groups that are there. *)
Definition keep_usage (c : linuxProcessesCheck) (m : gmap string f64) (e : string * cgInfo) : gmap string f64 :=
  match serviceNameFromCgroup (dockerNames c) (cg e.2), CpuStat ReadFile cgRoot cg2Root (cg e.2) with
  | Some _, Some cpu => <[e.1 := UsageSeconds cpu]> m
  | _, _ => m
  end.
Definition next_usage (c : linuxProcessesCheck) (cgroups : gmap string cgInfo) : gmap string f64 :=
  filter (fun kv => is_Some (cgroups !! kv.1)) (foldl (keep_usage c) (lastCpuUsage c) (enum _ cgroups)).

Definition score (s : sample) : f64 := fadd (cpuPct s) (fdiv (f_of_Z (rssBytes s)) (f_of_Z (Z.shiftl 1 30))).
Definition ranks_before (a b : sample) : bool :=
  if negb (feq (score a) (score b)) then flt (score b) (score a) else String.ltb (service a) (service b).
Definition top (n : nat) (l : list sample) : list sample := if (0 <? n)%nat && (n <? length l)%nat then take n l else l.

Definition sample_metrics (c : linuxProcessesCheck) (ts : Z) (s : sample) : list Metric :=
  (fun nv => metric c ts nv.1 nv.2 (list_to_map [("service", service s); ("kind", kind s)]))
    <$> [("service.cpu_pct", cpuPct s); ("service.mem_rss_bytes", f_of_Z (rssBytes s));
         ("service.proc_count", f_of_Z (Z.of_nat (procCount s))); ("service.io_read_bytes", f_of_Z (ioReadBytes s));
         ("service.io_write_bytes", f_of_Z (ioWriteBytes s)); ("service.net_rx_bytes", f_of_Z (netRxBytes s));
         ("service.net_tx_bytes", f_of_Z (netTxBytes s))].

Definition alive_pids (cgroups : gmap string cgInfo) : gset Z := list_to_set (enum _ cgroups ≫= fun e => pids e.2).

Record clocks := mk_clocks { asked_at : Z; names_at : Z; now_at : Z }.

(** Samples that could be reported. *)
Definition candidates (c : linuxProcessesCheck) (now : Z) (netSnap : Svcagg.state) (cgroups : gmap string cgInfo) : list sample :=
  let elapsed := if is_zero_time (lastSampleAt c) then f64_zero else seconds (time_sub now (lastSampleAt c)) in
  omap (fun e => sample_of c elapsed netSnap e.1 e.2) (enum _ cgroups).

Definition Run (t : clocks) (entries : option (list (string * bool))) (answer : option (list container))
    (c : linuxProcessesCheck) (agg : Svcagg.state) : res (list Metric) * linuxProcessesCheck * Svcagg.state :=
  match scanProcsByCgroup ReadFile entries with
  | Err e => (Err e, c, agg)
  | Ok cgroups =>
      let c := refreshDockerNames (asked_at t) (names_at t) answer c in
      let now := now_at t in
      let samples := top (topN c) (sort_slice ranks_before (candidates c now (Svcagg.Snapshot agg) cgroups)) in
      let c' := mk_check (id c) (interval c) (hostID c) (staticTags c) (topN c) (next_usage c cgroups) now (dockerNames c) (dockerNamesAt c) in
      (Ok (samples ≫= sample_metrics c now), c', Svcagg.PruneDead (alive_pids cgroups) agg)
  end.
End run.
End Services.

(** * What a host uses (internal/checks/linux_system.go, node_system.go)

    A run reads processors, memory, file systems, disks, interfaces and load through a library,
    whose answers are arguments, as are files, number parsing and the order of maps.  Processors
    and disks have counters that only grow, and are compared with those of the run before. *)

Module HostSystem.
Import Webhook(or_default).
Import Cgroup(path_join).

(** ** What the library answers *)

Record TimesStat := mk_times {
  User : f64; System : f64; Idle : f64; Nice : f64; Iowait : f64; Irq : f64; Softirq : f64; Steal : f64; Guest : f64; GuestNice : f64 }.
Record VirtualMemory := mk_virtual {
  v_Total : Z; Available : Z; v_Used : Z; v_UsedPercent : f64; v_Free : Z; Cached : Z; Buffers : Z; Shared : Z; Slab : Z;
  Sreclaimable : Z; PageTables : Z; CommitLimit : Z; CommittedAS : Z; SwapCached : Z }.
Record SwapMemory := mk_swap {
  s_Total : Z; s_Used : Z; s_Free : Z; s_UsedPercent : f64; Sin : Z; Sout : Z; PgIn : Z; PgOut : Z }.
Record PartitionStat := mk_partition { Device : string; Mountpoint : string; Fstype : string }.
Record UsageStat := mk_usage {
  u_UsedPercent : f64; u_Used : Z; u_Total : Z; u_Free : Z; InodesTotal : Z; InodesUsed : Z; InodesFree : Z; InodesUsedPercent : f64 }.
Record IOCountersStat := mk_io {
  ReadCount : Z; MergedReadCount : Z; WriteCount : Z; MergedWriteCount : Z; ReadBytes : Z; WriteBytes : Z; ReadTime : Z;
  WriteTime : Z; IoTime : Z; WeightedIO : Z; io_Name : string }.
Record NetCounters := mk_net {
  n_Name : string; BytesSent : Z; BytesRecv : Z; PacketsSent : Z; PacketsRecv : Z; Errin : Z; Errout : Z; Dropin : Z; Dropout : Z }.

(** An answer is none when there is an error; where the error is ignored it is the empty list. *)
Record readings := mk_readings {
  cpu_times : option (list TimesStat);
  cpu_counts : option Z;
  virtual_memory : option VirtualMemory;
  swap_memory : option SwapMemory;
  partitions : list PartitionStat;
  io_counters : option (gmap string IOCountersStat);
  usage : string -> option UsageStat;                (* of a path *)
  interfaces : list NetCounters;
  established : option (list (gmap string Z));       (* of the protocol TCP *)
  context_switches : option Z;
  load_average : option (f64 * f64 * f64);
  uptime : option Z;
}.

Record linuxSystemCheck := mk_check {
  id : string;
  interval : Z;
  hostID : string;
  staticTags : tagmap;
  root : string;
  networkProc : string;
  lastCpu : list TimesStat;
  lastDiskIO : gmap string IOCountersStat;
  lastDiskIOAt : Z;
}.
Definition newLinuxSystemCheck (cfg : CheckConfig) : linuxSystemCheck :=
  mk_check (or_default (CheckId cfg) ("linux.system-" +:+ CheckHostId cfg)) (if Interval cfg <=? 0 then 30 * second else Interval cfg)
    (CheckHostId cfg) (StaticTags cfg) "" "" [] ∅ zero_time.
(** The check of a node whose files are under another root. *)
Definition node_check (hostID procRoot : string) : linuxSystemCheck :=
  mk_check "" 0 hostID ∅ (path_join [procRoot; "1/root"]) (path_join [procRoot; "1"]) [] ∅ zero_time.

Definition physicalFs : list string :=
  ["ext2"; "ext3"; "ext4"; "xfs"; "btrfs"; "zfs"; "reiserfs"; "jfs"; "apfs"; "ntfs"; "fat32"; "exfat"].

Definition cpuTotal (t : TimesStat) : f64 :=
  fadd (fadd (fadd (fadd (fadd (fadd (fadd (User t) (Nice t)) (System t)) (Idle t)) (Iowait t)) (Irq t)) (Softirq t)) (Steal t).
Definition hundred : f64 := f_of_Z 100.

Section check.
Variable enum : forall A : Type, gmap string A -> list (string * A).
Variable ReadFile : string -> option string.
Variable ReadDir : string -> option (list string).
Variable ParseUint : string -> option Z.       (* with the base of its prefix *)

Definition metric (c : linuxSystemCheck) (t : Z) (name : string) (val : f64) (extraTags : tagmap) : Metric :=
  mk_metric (Some t) (hostID c) name val "" "" (extraTags ∪ staticTags c) "linux.system".
Definition set_interface (name : string) (m : Metric) : Metric :=
  mk_metric (Metric_Time m) (HostId m) (MetricName m) (Value m) name (PeerId m) (Tags m) (Source m).

(** The metrics of a table of names and values, in the order of a map. *)
Definition named (c : linuxSystemCheck) (t : Z) (prefix : string) (suffix : string) (values : gmap string f64) : list Metric :=
  (fun nv => metric c t (prefix +:+ nv.1 +:+ suffix) nv.2 ∅) <$> enum _ values.
Definition counts (l : list (string * Z)) : gmap string f64 := list_to_map ((fun nv => (nv.1, f_of_Z nv.2)) <$> l).

(** ** Processors *)

(** The share of a state in what passed, as a percentage. *)
Definition share (field : TimesStat -> f64) (prev t : TimesStat) (total : f64) : f64 := fmul (fdiv (fsub (field t) (field prev)) total) hundred.
Definition cpu_shares (c : linuxSystemCheck) (now : Z) (prev t : TimesStat) : list Metric :=
  let total := fsub (cpuTotal t) (cpuTotal prev) in
  let pct x := fmul (fdiv x total) hundred in
  if flt f64_zero total then
    let idlePct := share Idle prev t total in
    (fun nv => metric c now nv.1 nv.2 ∅) <$>
      [("cpu.user", pct (fsub (fsub (fadd (User t) (Nice t)) (User prev)) (Nice prev)));
       ("cpu.system", pct (fsub (fsub (fsub (fadd (fadd (System t) (Irq t)) (Softirq t)) (System prev)) (Irq prev)) (Softirq prev)));
       ("cpu.interrupt", pct (fsub (fsub (fadd (Irq t) (Softirq t)) (Irq prev)) (Softirq prev)));
       ("cpu.stolen", share Steal prev t total); ("cpu.guest", share Guest prev t total); ("cpu.idle", idlePct);
       ("cpu.iowait", share Iowait prev t total); ("cpu.usage", fsub hundred idlePct)]
  else [].
Definition cpu_metrics (c : linuxSystemCheck) (now : Z) (r : readings) : list Metric :=
  match cpu_times r with
  | Some (t :: _) =>
      named c now "cpu." ".total"
        (list_to_map [("user", User t); ("nice", Nice t); ("system", System t); ("idle", Idle t); ("iowait", Iowait t); ("irq", Irq t);
                      ("softirq", Softirq t); ("steal", Steal t); ("guest", Guest t); ("guestnice", GuestNice t)])
      ++ match cpu_counts r with Some n => [metric c now "cpu.logical" (f_of_Z n) ∅] | None => [] end
      ++ match lastCpu c with prev :: _ => cpu_shares c now prev t | [] => [] end
  | _ => []
  end.

(** ** Memory *)

Definition memory_metrics (c : linuxSystemCheck) (now : Z) (v : VirtualMemory) : list Metric :=
  [metric c now "mem.used" (f_of_Z (v_Used v)) ∅; metric c now "mem.available" (f_of_Z (Available v)) ∅;
   metric c now "mem.used_pct"
     (if negb (String.eqb (root c) "") && (0 <? v_Total v)
      then fsub hundred (fmul (fdiv (f_of_Z (Available v)) (f_of_Z (v_Total v))) hundred) else v_UsedPercent v) ∅]
  ++ named c now "mem." ""
       (counts [("total", v_Total v); ("free", v_Free v); ("occupied", u64 (v_Total v - v_Free v)); ("cached", Cached v);
                ("buffered", Buffers v); ("shared", Shared v); ("slab", Slab v); ("slab_reclaimable", Sreclaimable v);
                ("page_tables", PageTables v); ("commit_limit", CommitLimit v); ("committed_as", CommittedAS v);
                ("swap_cached", SwapCached v)])
  ++ (if 0 <? v_Total v then [metric c now "mem.available_fraction" (fdiv (f_of_Z (Available v)) (f_of_Z (v_Total v))) ∅] else []).
Definition swap_metrics (c : linuxSystemCheck) (now : Z) (s : SwapMemory) : list Metric :=
  (fun nv => metric c now nv.1 nv.2 ∅) <$>
    [("mem.swap_used", f_of_Z (s_Used s)); ("mem.swap_total", f_of_Z (s_Total s)); ("mem.swap_free", f_of_Z (s_Free s));
     ("mem.swap_free_fraction", fdiv (fsub hundred (s_UsedPercent s)) hundred);
     ("disk.block_in_total", f_of_Z (PgIn s)); ("disk.block_out_total", f_of_Z (PgOut s));
     ("mem.swap_in_bytes_total", f_of_Z (Sin s)); ("mem.swap_out_bytes_total", f_of_Z (Sout s))].

(** ** File systems and disks *)

Definition diskIOCounterForDevice (counters : gmap string IOCountersStat) (device : string) : option IOCountersStat :=
  let name := trim_prefix "/dev/" (trim_space device) in
  match counters !! device with
  | Some x => Some x
  | None => match counters !! name with
            | Some x => Some x
            | None => List.find (fun x => String.eqb (io_Name x) device || String.eqb (io_Name x) name) (snd <$> enum _ counters)
            end
  end.

Definition physical (p : PartitionStat) : bool := existsb (String.eqb (Fstype p)) physicalFs.
Definition add_mounted (counters : gmap string IOCountersStat) (m : gmap string IOCountersStat) (p : PartitionStat)
    : gmap string IOCountersStat :=
  if physical p && negb (String.eqb (Device p) "") then
    match diskIOCounterForDevice counters (Device p) with Some x => <[Device p := x]> m | None => m end
  else m.
Definition add_unmounted (m : gmap string IOCountersStat) (dx : string * IOCountersStat) : gmap string IOCountersStat :=
  let path := "/dev/" +:+ trim_prefix "/dev/" dx.1 in
  match m !! path with Some _ => m | None => <[path := dx.2]> m end.
Definition physicalDiskIO (parts : list PartitionStat) (counters : gmap string IOCountersStat) : gmap string IOCountersStat :=
  foldl add_unmounted (foldl (add_mounted counters) ∅ parts) (enum _ counters).

Definition usage_metrics (c : linuxSystemCheck) (now : Z) (r : readings) (p : PartitionStat) : list Metric :=
  if negb (physical p) then []
  else
    match usage r (if String.eqb (root c) "" then Mountpoint p else path_join [root c; Mountpoint p]) with
    | None => []
    | Some u =>
        (fun nv => metric c now nv.1 nv.2 (list_to_map [("mount", Mountpoint p); ("device", Device p)])) <$>
          [("disk.used_pct", u_UsedPercent u); ("disk.used_bytes", f_of_Z (u_Used u)); ("disk.total_bytes", f_of_Z (u_Total u));
           ("disk.free_bytes", f_of_Z (u_Free u)); ("disk.inodes_total", f_of_Z (InodesTotal u));
           ("disk.inodes_used", f_of_Z (InodesUsed u)); ("disk.inodes_free", f_of_Z (InodesFree u));
           ("disk.inodes_used_pct", InodesUsedPercent u)]
    end.

(** Whether no counter that must grow is smaller than before. *)
Definition grown (last x : IOCountersStat) : bool :=
  forallb (fun field : IOCountersStat -> Z => field last <=? field x) [ReadCount; WriteCount; ReadTime; WriteTime; ReadBytes; WriteBytes].

(** [float64(x - last)] of counters of 64 bits. *)
Definition grew (field : IOCountersStat -> Z) (last x : IOCountersStat) : f64 := f_of_Z (u64 (field x - field last)).

Definition device_values (elapsed : f64) (last x : IOCountersStat) : list (string * f64) :=
  let per field := fdiv (grew field last x) elapsed in
  let reads := grew ReadCount last x in
  let writes := grew WriteCount last x in
  let ops := fadd reads writes in
  let not_less (field : IOCountersStat -> Z) := field last <=? field x in
  [("disk.read_bytes_per_second", per ReadBytes); ("disk.write_bytes_per_second", per WriteBytes);
   ("disk.read_operations_per_second", fdiv reads elapsed); ("disk.write_operations_per_second", fdiv writes elapsed)]
  ++ (if not_less MergedReadCount && not_less MergedWriteCount
      then [("disk.read_merged_operations_per_second", per MergedReadCount);
            ("disk.write_merged_operations_per_second", per MergedWriteCount)] else [])
  ++ (if not_less IoTime then [("disk.io_utilization_pct", fdiv (grew IoTime last x) (fmul elapsed (f_of_Z 10)))] else [])
  ++ (if not_less WeightedIO then [("disk.io_queue_size", fdiv (grew WeightedIO last x) (fmul elapsed (f_of_Z 1000)))] else [])
  ++ (if flt f64_zero reads then [("disk.read_latency_ms", fdiv (grew ReadTime last x) reads)] else [])
  ++ (if flt f64_zero writes then [("disk.write_latency_ms", fdiv (grew WriteTime last x) writes)] else [])
  ++ (if flt f64_zero ops then
        [("disk.io_latency_ms", fdiv (fadd (grew ReadTime last x) (grew WriteTime last x)) ops);
         ("disk.io_request_size_bytes", fdiv (f_of_Z (u64 (ReadBytes x - ReadBytes last + WriteBytes x - WriteBytes last))) ops)]
        ++ (if not_less IoTime then [("disk.io_service_time_ms", fdiv (grew IoTime last x) ops)] else [])
      else []).

Definition device_metrics (c : linuxSystemCheck) (now : Z) (elapsed : f64) (dx : string * IOCountersStat) : list Metric :=
  match lastDiskIO c !! dx.1 with
  | None => []
  | Some last =>
      if negb (grown last dx.2) then []
      else (fun nv => metric c now nv.1 nv.2 {[ "device" := dx.1 ]}) <$> device_values elapsed last dx.2
  end.

Definition diskIOLatencyMetrics (c : linuxSystemCheck) (now : Z) (current : gmap string IOCountersStat)
    : list Metric * linuxSystemCheck :=
  let c' := mk_check (id c) (interval c) (hostID c) (staticTags c) (root c) (networkProc c) (lastCpu c) current now in
  if bool_decide (lastDiskIO c = ∅) || is_zero_time (lastDiskIOAt c) then ([], c')
  else
    let elapsed := seconds (time_sub now (lastDiskIOAt c)) in
    if fle elapsed f64_zero then ([], c') else (enum _ current ≫= device_metrics c now elapsed, c').

(** ** Interfaces *)

Definition readSystemNumber (path : string) : option f64 := b ← ReadFile path; f_of_Z <$> ParseUint (trim_space b).
(** Of flags the lowest bit, of the number after it was a float. *)
Definition lowest_bit (v : f64) : f64 := f_of_Z (Z.land (f_to_u64 v) 1).

Definition net_metrics (c : linuxSystemCheck) (now : Z) (n : NetCounters) : list Metric :=
  if String.eqb (n_Name n) "lo" || String.eqb (n_Name n) "Loopback Pseudo-Interface 1" then []
  else
    set_interface (n_Name n) <$>
      [metric c now "net.bytes_in" (f_of_Z (BytesRecv n)) ∅; metric c now "net.bytes_out" (f_of_Z (BytesSent n)) ∅]
      ++ named c now "net." ""
           (counts [("packets_in", PacketsRecv n); ("packets_out", PacketsSent n); ("errors_in", Errin n); ("errors_out", Errout n);
                    ("drops_in", Dropin n); ("drops_out", Dropout n)]).

Definition attribute_metrics (c : linuxSystemCheck) (now : Z) (iface : string) : list Metric :=
  enum _ (list_to_map [("mtu", "mtu"); ("tx_queue_len", "tx_queue_len"); ("carrier", "up"); ("flags", "admin_up")] : gmap string string)
    ≫= fun fn =>
      match readSystemNumber (path_join [iface; fn.1]) with
      | Some v => [metric c now ("net.interface." +:+ fn.2) (if String.eqb fn.1 "flags" then lowest_bit v else v) ∅]
      | None => []
      end.
Definition queue_metrics (c : linuxSystemCheck) (now : Z) (iface : string) : list Metric :=
  match ReadDir (path_join [iface; "queues"]) with
  | Some queues =>
      let n p := f_of_Z (Z.of_nat (length (List.filter (has_prefix p) queues))) in
      named c now "net.interface." "" (list_to_map [("num_rx_queues", n "rx-"); ("num_tx_queues", n "tx-")])
  | None => []
  end.

(** [paths]: where a node's proc and sys are, none without a context of a node. *)
Definition interface_metrics (c : linuxSystemCheck) (now : Z) (paths : option (string * string)) (n : NetCounters) : list Metric :=
  net_metrics c now n
  ++ match paths with
     | Some (_, sys) =>
         if String.eqb (root c) "" then []
         else let iface := path_join [sys; "class/net"; n_Name n] in
              set_interface (n_Name n) <$> attribute_metrics c now iface ++ queue_metrics c now iface
     | None => []
     end.

Definition conntrack_metrics (c : linuxSystemCheck) (now : Z) (paths : option (string * string)) : list Metric :=
  match paths with
  | Some (proc, _) =>
      if String.eqb (root c) "" then []
      else
        enum _ (list_to_map [("nf_conntrack_count", "count"); ("nf_conntrack_max", "max"); ("nf_conntrack_expect_max", "expect_max");
                             ("nf_conntrack_tcp_max_retrans", "tcp_max_retrans");
                             ("nf_conntrack_tcp_timeout_max_retrans", "tcp_timeout_max_retrans")] : gmap string string)
          ≫= fun fn => match readSystemNumber (path_join [proc; "sys/net/netfilter"; fn.1]) with
                       | Some v => [metric c now ("net.conntrack." +:+ fn.2) v ∅]
                       | None => []
                       end
  | None => []
  end.

(** ** Load and file handles *)

Definition load_metrics (c : linuxSystemCheck) (now : Z) (r : readings) : list Metric :=
  match load_average r with
  | Some (l1, l5, l15) =>
      [metric c now "load.1" l1 ∅; metric c now "load.5" l5 ∅; metric c now "load.15" l15 ∅]
      ++ match cpu_counts r with
         | Some cores => if 0 <? cores
                         then named c now "load.norm." "" ((fun v => fdiv v (f_of_Z cores)) <$> list_to_map [("1", l1); ("5", l5); ("15", l15)])
                         else []
         | None => []
         end
  | None => []
  end.

Definition fileHandleMetrics (c : linuxSystemCheck) (now : Z) (raw : string) : list Metric :=
  match fields raw with
  | [a; b; d] =>
      match parse_uint 64 a, parse_uint 64 b, parse_uint 64 d with
      | Some allocated, Some unused, Some max =>
          if (allocated <? unused) || (max =? 0) then []
          else
            let used := f_of_Z (u64 (allocated - unused)) in
            named c now "system.fs.file_handles." ""
              (list_to_map [("allocated", f_of_Z allocated); ("allocated_unused", f_of_Z unused); ("used", used); ("max", f_of_Z max);
                            ("in_use", fdiv used (f_of_Z max))])
      | _, _, _ => []
      end
  | _ => []
  end.

(** [getenv]: HOST_PROC of the environment. *)
Definition proc_root (getenv : string) (paths : option (string * string)) : string :=
  or_default (or_default (default "" (fst <$> paths)) getenv) "/proc".

(** ** A run *)

Definition set_lastCpu (times : list TimesStat) (c : linuxSystemCheck) : linuxSystemCheck :=
  mk_check (id c) (interval c) (hostID c) (staticTags c) (root c) (networkProc c) times (lastDiskIO c) (lastDiskIOAt c).

Definition disk_metrics (c : linuxSystemCheck) (now : Z) (r : readings) : list Metric * linuxSystemCheck :=
  match io_counters r with
  | None => ([], c)
  | Some counters =>
      let disks := physicalDiskIO (partitions r) counters in
      let '(rates, c) := diskIOLatencyMetrics c now disks in
      (rates ++ (enum _ disks ≫= fun dx =>
                   [metric c now "disk.read_time_ms_total" (f_of_Z (ReadTime dx.2)) {[ "device" := dx.1 ]};
                    metric c now "disk.write_time_ms_total" (f_of_Z (WriteTime dx.2)) {[ "device" := dx.1 ]}]), c)
  end.

Definition Run (getenv : string) (paths : option (string * string)) (now : Z) (r : readings) (c : linuxSystemCheck)
    : list Metric * linuxSystemCheck :=
  let cpu := cpu_metrics c now r in
  let c := match cpu_times r with Some (t :: l) => set_lastCpu (t :: l) c | _ => c end in
  let memory := from_option (memory_metrics c now) [] (virtual_memory r) in
  let swap := from_option (swap_metrics c now) [] (swap_memory r) in
  let mounts := partitions r ≫= usage_metrics c now r in
  let '(disks, c) := disk_metrics c now r in
  (cpu ++ memory ++ swap ++ mounts ++ disks
   ++ (interfaces r ≫= interface_metrics c now paths)
   ++ (from_option (fun ps => ps ≫= fun stats => from_option (fun v => [metric c now "net.tcp.current_established" (f_of_Z v) ∅]) [] (stats !! "CurrEstab"))
         [] (established r))
   ++ conntrack_metrics c now paths
   ++ from_option (fun n => [metric c now "cpu.context_switches_total" (f_of_Z n) ∅]) [] (context_switches r)
   ++ load_metrics c now r
   ++ from_option (fun n => [metric c now "system.uptime" (f_of_Z n) ∅]) [] (uptime r)
   ++ from_option (fileHandleMetrics c now) [] (ReadFile (path_join [proc_root getenv paths; "sys/fs/file-nr"])), c).
End check.

(** ** The loops of a node: what they send *)

Definition ntp_metric (hostID name : string) (offset : f64) (time : Z) : Metric :=
  mk_metric (Some time) hostID name offset "" "" ∅ "ntp".
Definition node_interval (interval : Z) : Z := if interval <=? 0 then 30 * second else interval.
(** What a round of the loop of the node sends; nothing when there is nothing. *)
Definition node_round (hostID : string) (metrics : list Metric) (intake : option (f64 * Z)) : option (list Metric) :=
  match metrics ++ from_option (fun ot => [ntp_metric hostID "ntp.intake_offset" ot.1 ot.2]) [] intake with
  | [] => None
  | ms => Some ms
  end.
End HostSystem.

(** * Containers of a Docker host (internal/checks/docker_host.go)

    A run lists the containers and asks for the statistics of those that run, at most five at a
    time; their metrics come in the order in which the answers do.  The Docker client, JSON, the
    order of maps and the order of the answers are arguments. *)

Module DockerHost.
Import Webhook(or_default).

Definition defaultDockerInterval : Z := 60 * second.
Definition defaultDockerStatsCap : Z := 5.

Record dockerHost := mk_check { id : string; hostID : string; interval : Z; staticTags : tagmap; statsCap : Z }.

(** [client]: whether there is a client, [ping] whether it answers. *)
Definition newDockerHostCheck (client ping : bool) (cfg : CheckConfig) : res dockerHost :=
  if negb client then Err "client init"
  else if negb ping then Err "ping failed"
  else Ok (mk_check (or_default (CheckId cfg) ("docker.host-" +:+ CheckHostId cfg)) (CheckHostId cfg)
             (if Interval cfg <=? 0 then defaultDockerInterval else Interval cfg) (StaticTags cfg) defaultDockerStatsCap).

Record container := mk_container { ct_ID : string; ct_Names : list string; State : string }.
Record CPUStats := mk_cpu { TotalUsage : Z; SystemUsage : Z; OnlineCPUs : Z }.
Record StatsResponse := mk_stats {
  cpu_stats : CPUStats;
  precpu_stats : CPUStats;
  mem_Usage : Z;
  mem_Stats : gmap string Z;
  Networks : gmap string (Z * Z);      (* received and sent *)
}.

Definition metric (d : dockerHost) (t : Z) (name : string) (val : f64) (extraTags : tagmap) : Metric :=
  mk_metric (Some t) (hostID d) name val "" "" (extraTags ∪ staticTags d) "docker.host".

Definition containerDisplayName (names : list string) (id : string) : string :=
  match names with
  | n :: _ => trim_prefix "/" n
  | [] => if 12 <=? str_len id then str_take 12 id else id
  end.

Definition cpu_percent (s : StatsResponse) : f64 :=
  let now := cpu_stats s in
  let pre := precpu_stats s in
  if (TotalUsage pre <? TotalUsage now) && (SystemUsage pre <? SystemUsage now) then
    let cpus := if OnlineCPUs now =? 0 then 1 else OnlineCPUs now in
    fmul (fmul (fdiv (f_of_Z (u64 (TotalUsage now - TotalUsage pre))) (f_of_Z (u64 (SystemUsage now - SystemUsage pre)))) (f_of_Z cpus))
      (f_of_Z 100)
  else f64_zero.
Definition mem_used (s : StatsResponse) : f64 :=
  match mem_Stats s !! "cache" with
  | Some cache => if cache <=? mem_Usage s then f_of_Z (u64 (mem_Usage s - cache)) else f_of_Z (mem_Usage s)
  | None => f_of_Z (mem_Usage s)
  end.

Section run.
Variable enum : forall A : Type, gmap string A -> list (string * A).
Variable decode : string -> option StatsResponse.       (* json.Unmarshal *)
(** The whole body of the statistics of a container, none when they cannot be read. *)
Variable stats : string -> option string.

Definition sum_u64 (l : list Z) : Z := foldl (fun n x => u64 (n + x)) 0 l.

Definition stats_metrics (d : dockerHost) (now : Z) (c : container) (s : StatsResponse) : list Metric :=
  let nets := snd <$> enum _ (Networks s) in
  (fun nv => metric d now nv.1 nv.2 {[ "container_name" := containerDisplayName (ct_Names c) (ct_ID c) ]}) <$>
    [("docker.container.cpu_percent", cpu_percent s); ("docker.container.mem_used_bytes", mem_used s);
     ("docker.container.restart_count", f64_zero);
     ("docker.container.network_rx_bytes", f_of_Z (sum_u64 (fst <$> nets)));
     ("docker.container.network_tx_bytes", f_of_Z (sum_u64 (snd <$> nets)))].
Definition collectContainerStats (d : dockerHost) (now : Z) (c : container) : list Metric :=
  match stats (ct_ID c) ≫= decode with Some s => stats_metrics d now c s | None => [] end.

Definition running (c : container) : bool := String.eqb (State c) "running".

(** [client]: whether the client is there; [listed]: what it lists; [finished]: the running containers
    that were asked before the run was given up, in the order of their answers. *)
Definition Run (client : bool) (listed : option (list container)) (finished : list container -> list container) (now : Z)
    (d : dockerHost) : res (list Metric) :=
  if negb client then Err "client closed"
  else
    match listed with
    | None => Err "ContainerList"
    | Some containers =>
        let up := List.filter running containers in
        let n l := f_of_Z (Z.of_nat (length l)) in
        Ok ([metric d now "docker.containers_running" (n up) ∅;
             metric d now "docker.containers_stopped" (n (List.filter (fun c => negb (running c)) containers)) ∅]
            ++ (finished up ≫= collectContainerStats d now))
    end.
End run.
End DockerHost.
