(* ===== verification/HostProps.v ===== *)
(** * What the checks of a host promise

    The rates of disks are those between two samples, a run of the processes reports the services
    that use most, and what the container check counts does not depend on the statistics it gets. *)

From S2P Require Import Prelude GoStrings GoFloat Wire Cgroup HostSystem.
#[local] Open Scope Z_scope.

Module HostProps.

(** ** Disks *)

Module Disks.
Import HostSystem.

Section runs.
Variable enum : forall A : Type, gmap string A -> list (string * A).
Variable ReadFile : string -> option string.
Variable ReadDir : string -> option (list string).
Variable ParseUint : string -> option Z.
Variable getenv : string.
Variable paths : option (string * string).

Abbreviation run := (Run enum ReadFile ReadDir ParseUint getenv paths).

Definition rate_names : list string :=
  ["disk.read_bytes_per_second"; "disk.write_bytes_per_second"; "disk.read_operations_per_second"; "disk.write_operations_per_second";
   "disk.read_merged_operations_per_second"; "disk.write_merged_operations_per_second"; "disk.io_utilization_pct"; "disk.io_queue_size";
   "disk.read_latency_ms"; "disk.write_latency_ms"; "disk.io_latency_ms"; "disk.io_request_size_bytes"; "disk.io_service_time_ms"].
Definition is_rate (m : Metric) : bool := existsb (String.eqb (MetricName m)) rate_names.

(** The disks that were sampled last, with the time, of a check that has run. *)
Inductive sampled : linuxSystemCheck -> option (gmap string IOCountersStat * Z) -> Prop :=
  | sampled_new cfg : sampled (newLinuxSystemCheck cfg) None
  | sampled_node hostID procRoot : sampled (node_check hostID procRoot) None
  | sampled_failed now r c last :
      sampled c last -> io_counters r = None -> sampled (run now r c).2 last
  | sampled_disks now r c last counters :
      sampled c last -> io_counters r = Some counters ->
      sampled (run now r c).2 (Some (physicalDiskIO enum (partitions r) counters, now)).

(** What a run tells of a device that the last sample had too: nothing when a counter is smaller. *)
Definition rates_of (c : linuxSystemCheck) (now : Z) (last : option (gmap string IOCountersStat * Z))
    (disks : gmap string IOCountersStat) : list Metric :=
  match last with
  | None => []
  | Some (prev, at_) =>
      let elapsed := seconds (time_sub now at_) in
      if is_zero_time at_ || fle elapsed f64_zero then []
      else enum _ disks ≫= fun dx =>
             match prev !! dx.1 with
             | Some p => if grown p dx.2 then (fun nv => metric c now nv.1 nv.2 {[ "device" := dx.1 ]}) <$> device_values elapsed p dx.2 else []
             | None => []
             end
  end.

#[local] Arguments is_rate : simpl never.

Lemma no_rates_app l k : List.filter is_rate (l ++ k) = List.filter is_rate l ++ List.filter is_rate k.
Proof. apply List.filter_app. Qed.
Lemma no_rates_fmap {A} (f : A -> Metric) l : (forall x, is_rate (f x) = false) -> List.filter is_rate (f <$> l) = [].
Proof. intros H. induction l as [|x l IH]; [done|]. cbn. by rewrite H. Qed.
Lemma no_rates_bind {A} (f : A -> list Metric) l : (forall x, List.filter is_rate (f x) = []) -> List.filter is_rate (l ≫= f) = [].
Proof. intros H. induction l as [|x l IH]; [done|]. cbn. by rewrite no_rates_app, H. Qed.
Lemma all_rates_bind {A} (f : A -> list Metric) l : (forall x, List.filter is_rate (f x) = f x) -> List.filter is_rate (l ≫= f) = l ≫= f.
Proof. intros H. induction l as [|x l IH]; [done|]. cbn. by rewrite no_rates_app, H, IH. Qed.

(** Names that begin with something else, or end so, are no rates: this is computed. *)
Ltac no_rates :=
  repeat first
    [ reflexivity
    | rewrite no_rates_app
    | rewrite no_rates_fmap by (intros; reflexivity)
    | rewrite no_rates_bind; [|intros; cbn beta]
    | case_match ].

Lemma cpu_no_rates c now r : List.filter is_rate (cpu_metrics enum c now r) = [].
Proof. unfold cpu_metrics, cpu_shares, named. no_rates. Qed.
Lemma memory_no_rates c now v : List.filter is_rate (memory_metrics enum c now v) = [].
Proof. unfold memory_metrics, named. no_rates. Qed.
Lemma usage_no_rates c now r p : List.filter is_rate (usage_metrics c now r p) = [].
Proof. unfold usage_metrics. no_rates. Qed.
Lemma interface_no_rates c now n : List.filter is_rate (interface_metrics enum ReadFile ReadDir ParseUint c now paths n) = [].
Proof.
  unfold interface_metrics, net_metrics, attribute_metrics, queue_metrics, named.
  assert (H : forall l name, List.filter is_rate l = [] -> List.filter is_rate (set_interface name <$> l) = []).
  { intros l name. induction l as [|m l IH]; [done|]. cbn. change (is_rate (set_interface name m)) with (is_rate m).
    by destruct (is_rate m). }
  rewrite no_rates_app. apply app_nil. split; [case_match; [done|apply H; no_rates]|].
  case_match; [|done]. case_match. case_match; [done|]. apply H. no_rates.
Qed.
Lemma load_no_rates c now r : List.filter is_rate (load_metrics enum c now r) = [].
Proof. unfold load_metrics, named. no_rates. Qed.
Lemma handles_no_rates c now raw : List.filter is_rate (fileHandleMetrics enum c now raw) = [].
Proof. unfold fileHandleMetrics, named. no_rates. Qed.
Lemma conntrack_no_rates c now : List.filter is_rate (conntrack_metrics enum ReadFile ParseUint c now paths) = [].
Proof. unfold conntrack_metrics. no_rates. Qed.
Lemma swap_no_rates c now s : List.filter is_rate (swap_metrics c now s) = [].
Proof. reflexivity. Qed.

Lemma device_all_rates c now elapsed p d x :
  let l := (fun nv => metric c now nv.1 nv.2 {[ "device" := d ]}) <$> device_values elapsed p x in List.filter is_rate l = l.
Proof. cbn zeta. unfold device_values. rewrite !fmap_app, !no_rates_app. repeat f_equal; repeat case_match; reflexivity. Qed.

(** Only the devices of two samples are in a run, with the exact difference of their counters. *)
Lemma run_rates now r c :
  List.filter is_rate (run now r c).1
  = match io_counters r with
    | Some counters => List.filter is_rate (diskIOLatencyMetrics enum (match cpu_times r with Some (t :: l) => set_lastCpu (t :: l) c | _ => c end)
                         now (physicalDiskIO enum (partitions r) counters)).1
    | None => []
    end.
Proof.
  unfold Run. set (c1 := match cpu_times r with Some (t :: l) => set_lastCpu (t :: l) c | _ => c end).
  destruct (disk_metrics enum c1 now r) as [disks c2] eqn:Hd. cbn [fst]. rewrite !no_rates_app, cpu_no_rates.
  assert (H : forall {A} (f : A -> list Metric) (o : option A), (forall x, List.filter is_rate (f x) = []) ->
    List.filter is_rate (from_option f [] o) = []) by (intros A f [x|] Hf; [apply Hf|done]).
  rewrite (H _ _ _ (memory_no_rates c1 now)), (H _ _ _ (swap_no_rates c1 now)), (no_rates_bind _ _ (usage_no_rates c1 now r)).
  rewrite (no_rates_bind _ _ (interface_no_rates c2 now)), conntrack_no_rates, load_no_rates, (H _ _ _ (handles_no_rates c2 now)).
  rewrite !H by (intros; try (apply no_rates_bind; intros; by destruct (_ !! _)); reflexivity).
  rewrite !app_nil_r, !app_nil_l. unfold disk_metrics in Hd. destruct (io_counters r) as [counters|]; [|by injection Hd as <- _].
  destruct (diskIOLatencyMetrics enum c1 now (physicalDiskIO enum (partitions r) counters)) as [rates c3]. injection Hd as <- _.
  rewrite no_rates_app. cbn [fst]. rewrite (no_rates_bind _ (enum _ _)) by reflexivity. by rewrite app_nil_r.
Qed.

Lemma run_state now r c :
  lastDiskIO (run now r c).2 = match io_counters r with Some x => physicalDiskIO enum (partitions r) x | None => lastDiskIO c end /\
  lastDiskIOAt (run now r c).2 = match io_counters r with Some _ => now | None => lastDiskIOAt c end.
Proof.
  unfold Run, disk_metrics, diskIOLatencyMetrics. destruct (io_counters r) as [x|]; cbn [snd].
  - by repeat (case_match; simplify_eq).
  - by destruct (cpu_times r) as [[|t l]|].
Qed.

Lemma sampled_state c last : sampled c last ->
  match last with
  | Some (prev, at_) => lastDiskIO c = prev /\ lastDiskIOAt c = at_
  | None => lastDiskIO c = ∅
  end.
Proof.
  induction 1 as [cfg|h p|now r c last _ IH Hr|now r c last counters _ IH Hr]; [done|done| |].
  - destruct (run_state now r c) as [E1 E2]. rewrite Hr in E1, E2. by rewrite E1, E2.
  - destruct (run_state now r c) as [E1 E2]. by rewrite Hr in E1, E2.
Qed.

(** Of the rates of disks a run of a check that has run any number of times before, some runs of
    which may have seen no disks, reports exactly what its own sample and the last one before it tell:
    for each device of both whose counters have not become smaller, over the time between the two.
    The first sample, a device that is new and one that started again report none. *)
Theorem disk_rates_between_samples c last now r counters :
  sampled c last -> io_counters r = Some counters ->
  List.filter is_rate (run now r c).1 = rates_of c now last (physicalDiskIO enum (partitions r) counters).
Proof.
  intros Hs%sampled_state Hr. rewrite run_rates, Hr.
  set (c1 := match cpu_times r with Some (t :: l) => set_lastCpu (t :: l) c | _ => c end).
  assert (Hc : lastDiskIO c1 = lastDiskIO c /\ lastDiskIOAt c1 = lastDiskIOAt c /\ hostID c1 = hostID c /\ staticTags c1 = staticTags c).
  { unfold c1. by destruct (cpu_times r) as [[|t l]|]. }
  destruct Hc as (E1 & E2 & E3 & E4). unfold diskIOLatencyMetrics. rewrite E1, E2.
  destruct last as [[prev at_]|]; cbn [rates_of]; [destruct Hs as [Hp Ha]; rewrite Hp, Ha|by rewrite Hs].
  assert (Hd : forall elapsed dx, device_metrics c1 now elapsed dx = match prev !! dx.1 with
    | Some p => if grown p dx.2 then (fun nv => metric c now nv.1 nv.2 {[ "device" := dx.1 ]}) <$> device_values elapsed p dx.2 else []
    | None => [] end).
  { intros elapsed dx. unfold device_metrics. rewrite E1, Hp. destruct (prev !! dx.1) as [p|]; [|done].
    destruct (grown p dx.2); [|done]. cbn [negb]. unfold metric. by rewrite E3, E4. }
  destruct (bool_decide_reflect (prev = ∅)) as [->|_]; cbn [orb].
  { cbn [fst List.filter]. case_match; [done|]. symmetry. induction (enum _ _) as [|dx l IH]; [done|]. cbn. by rewrite lookup_empty. }
  destruct (is_zero_time at_); [done|]. cbn [orb]. destruct (fle _ _); [done|]. cbn [fst].
  rewrite all_rates_bind.
  - induction (enum _ _) as [|dx l IH]; [done|]. cbn. by rewrite Hd, IH.
  - intros dx. rewrite Hd. destruct (prev !! dx.1) as [p|]; [|done]. destruct (grown p dx.2); [|done]. apply device_all_rates.
Qed.
End runs.

(** The differences of counters do not wrap around. *)
Lemma grew_exact (field : IOCountersStat -> Z) last x :
  in_u64 (field last) -> in_u64 (field x) -> field last <= field x -> grew field last x = f_of_Z (field x - field last).
Proof. intros Hl Hx H. unfold grew. rewrite u64_small; [done|]. unfold in_u64 in *. lia. Qed.

(** *** An example: of two disks one starts again between two runs *)

Definition ex_io (name : string) (n : Z) : IOCountersStat := mk_io n 0 n 0 (1000 * n) (1000 * n) n n n n name.
Definition ex_disks (a b : Z) : gmap string IOCountersStat := list_to_map [("sda", ex_io "sda" a); ("sdb", ex_io "sdb" b)].
Definition ex_readings (a b : Z) : readings :=
  mk_readings None None None None [] (Some (ex_disks a b)) (fun _ => None) [] None None None None.
Definition ex_enum (A : Type) (m : gmap string A) : list (string * A) := map_to_list m.
Definition ex_run := Run ex_enum (fun _ => None) (fun _ => None) (fun _ => None) "" None.
Definition ex_new := newLinuxSystemCheck (Wire.mk_check_config "" "linux.system" 0 ∅ ∅ "h1" true "").

Lemma disk_rates_between_samples_witness :
  let c := (ex_run (10 * second) (ex_readings 100 500) ex_new).2 in
  (fun m => (MetricName m, Value m)) <$>
    List.filter is_rate (ex_run (12 * second) (ex_readings 300 20) c).1
  = [("disk.read_bytes_per_second", f_of_Z 100000); ("disk.write_bytes_per_second", f_of_Z 100000);
     ("disk.read_operations_per_second", f_of_Z 100); ("disk.write_operations_per_second", f_of_Z 100);
     ("disk.read_merged_operations_per_second", f_of_Z 0); ("disk.write_merged_operations_per_second", f_of_Z 0);
     ("disk.io_utilization_pct", f_of_Z 10); ("disk.io_queue_size", fdiv (f_of_Z 1) (f_of_Z 10));
     ("disk.read_latency_ms", f_of_Z 1); ("disk.write_latency_ms", f_of_Z 1); ("disk.io_latency_ms", f_of_Z 1);
     ("disk.io_request_size_bytes", f_of_Z 1000); ("disk.io_service_time_ms", fdiv (f_of_Z 1) (f_of_Z 2))].
Proof.
  pose proof (sampled_disks ex_enum (fun _ => None) (fun _ => None) (fun _ => None) "" None (10 * second) (ex_readings 100 500) ex_new None
    (ex_disks 100 500) (sampled_new _ _ _ _ _ _ _) eq_refl) as Hs.
  pose proof (disk_rates_between_samples ex_enum (fun _ => None) (fun _ => None) (fun _ => None) "" None _ _ (12 * second)
    (ex_readings 300 20) (ex_disks 300 20) Hs eq_refl) as H.
  cbv zeta. unfold ex_run. rewrite H. clear. vm_compute. reflexivity.
Defined.
End Disks.

(** ** Services *)

Module ServiceProps.
Import Services.

Section run.
Variable ToLower : string -> string.
Variable enum : forall A : Type, gmap string A -> list (string * A).
Variable sort_slice : (sample -> sample -> bool) -> list sample -> list sample.
Variables cgRoot cg2Root : string.
Variable ReadFile : string -> option string.
Hypothesis enum_perm : forall A (m : gmap string A), enum A m ≡ₚ map_to_list m.
(** [sort.Slice] sorts by the order that it is given. *)
Hypothesis sort_perm : forall l, sort_slice ranks_before l ≡ₚ l.
Hypothesis sort_sorted : forall l l1 a l2 b l3,
  sort_slice ranks_before l = l1 ++ a :: l2 ++ b :: l3 -> ranks_before b a = false.

Abbreviation run := (Run ToLower enum sort_slice cgRoot cg2Root ReadFile).
Abbreviation samples_of := (candidates enum cgRoot cg2Root ReadFile).

Lemma top_splits n (l : list sample) : exists rest, l = top n l ++ rest /\
  ((n = 0)%nat -> rest = []) /\ ((0 < n)%nat -> (length (top n l) <= n)%nat /\ (rest <> [] -> length (top n l) = n)).
Proof.
  unfold top. destruct (Nat.ltb_spec 0 n); [|exists []; rewrite app_nil_r; split_and!; [done|done|lia]].
  destruct (Nat.ltb_spec n (length l)); cbn [andb].
  - exists (drop n l). rewrite take_drop, length_take. split_and!; [done|lia|lia].
  - exists []. rewrite app_nil_r. split_and!; [done|done|]. intros _. by split; [lia|].
Qed.

Lemma sorted_before l shown rest a b :
  sort_slice ranks_before l = shown ++ rest -> a ∈ shown -> b ∈ rest -> ranks_before b a = false.
Proof.
  intros H Ha Hb. apply list_elem_of_split in Ha as (l1 & l2 & ->). apply list_elem_of_split in Hb as (l3 & l4 & ->).
  apply (sort_sorted l l1 a (l2 ++ l3) b l4). rewrite H. by rewrite <- !app_assoc.
Qed.

Lemma next_usage_there c cgroups k : is_Some (next_usage enum cgRoot cg2Root ReadFile c cgroups !! k) -> is_Some (cgroups !! k).
Proof. intros [u Hu]. unfold next_usage in Hu. by apply map_lookup_filter_Some in Hu as [_ Hu]. Qed.

(** The services that are reported: those of the run that use most. *)
Lemma services_reported t entries answer c agg out c' agg' :
  run t entries answer c agg = (Ok out, c', agg') ->
  exists cgroups shown rest,
    scanProcsByCgroup ReadFile entries = Ok cgroups /\
    samples_of (refreshDockerNames ToLower (asked_at t) (names_at t) answer c) (now_at t) agg cgroups ≡ₚ shown ++ rest /\
    out = (shown ≫= sample_metrics c (now_at t)) /\
    ((0 < topN c)%nat -> (length shown <= topN c)%nat /\ (rest <> [] -> length shown = topN c)) /\
    ((topN c = 0)%nat -> rest = []) /\
    (forall a b, a ∈ shown -> b ∈ rest -> ranks_before b a = false) /\
    (forall k, is_Some (lastCpuUsage c' !! k) -> is_Some (cgroups !! k)) /\
    (forall pid, is_Some (agg' !! pid) -> pid ∈ alive_pids enum cgroups).
Proof.
  unfold Run. destruct (scanProcsByCgroup ReadFile entries) as [cgroups|e]; [|done]. intros [= <- <- <-].
  set (c1 := refreshDockerNames ToLower (asked_at t) (names_at t) answer c).
  assert (Hc : topN c1 = topN c /\ hostID c1 = hostID c /\ staticTags c1 = staticTags c).
  { unfold c1, refreshDockerNames. by repeat case_match. }
  destruct Hc as (E1 & E2 & E3). set (l := sort_slice ranks_before (samples_of c1 (now_at t) agg cgroups)).
  destruct (top_splits (topN c) l) as (rest & Hl & H0 & Hn). rewrite E1. exists cgroups, (top (topN c) l), rest.
  assert (Hm : forall l', l' ≫= sample_metrics c1 (now_at t) = l' ≫= sample_metrics c (now_at t)).
  { intros l'. apply list_bind_ext; [|done]. intros s. unfold sample_metrics, metric. by rewrite E2, E3. }
  split_and!; [done| |apply Hm|done|done| | |].
  - rewrite <- Hl. unfold l. by rewrite sort_perm.
  - intros a b. by apply (sorted_before (samples_of c1 (now_at t) agg cgroups)).
  - intros k. apply next_usage_there.
  - intros pid [x Hx]. unfold Svcagg.PruneDead in Hx. by apply map_lookup_filter_Some in Hx as [_ Hx].
Qed.
End run.

(** *** Examples *)

Definition ex_enum (A : Type) (m : gmap string A) : list (string * A) := map_to_list m.
Fixpoint insert_sample (s : sample) (l : list sample) : list sample :=
  match l with [] => [s] | x :: l' => if ranks_before x s then x :: insert_sample s l' else s :: l end.
Definition ex_sort (_ : sample -> sample -> bool) (l : list sample) : list sample := foldr insert_sample [] l.
Definition ex_new := newLinuxProcessesCheck (Wire.mk_check_config "" "linux.processes" 0 ∅ ∅ "h1" true "").
Definition ex_clocks (s : Z) := mk_clocks (s * second) (s * second) (s * second).
Definition ex_run (files : gmap string string) (at_ : Z) (pids : list string) (c : linuxProcessesCheck) (agg : Svcagg.state) :=
  Run (fun s => s) ex_enum ex_sort "/sys/fs/cgroup" "/sys/fs/cgroup" (fun p => files !! p) (ex_clocks at_)
    (Some ((fun p => (p, true)) <$> pids)) None c agg.
Definition shown_of (out : res (list Metric)) (name : string) : list (string * f64) :=
  match out with
  | Ok ms => (fun m => (tag "service" (Tags m), Value m)) <$> List.filter (fun m => String.eqb (MetricName m) name) ms
  | Err _ => []
  end.

(** The instances of a template of units are told apart by nothing: their metrics have the same name
    and the same tags in one run. *)
Definition ex_units : gmap string string := list_to_map [
  ("/proc/100/cgroup", "0::/system.slice/system-postgresql.slice/postgresql@15.service");
  ("/proc/200/cgroup", "0::/system.slice/system-postgresql.slice/postgresql@16.service");
  ("/sys/fs/cgroup/system.slice/system-postgresql.slice/postgresql@15.service/memory.stat", "anon 1000");
  ("/sys/fs/cgroup/system.slice/system-postgresql.slice/postgresql@16.service/memory.stat", "anon 70")].
Example same_series_twice :
  shown_of (ex_run ex_units 10 ["100"; "200"] ex_new ∅).1.1 "service.mem_rss_bytes"
  = [("system-postgresql.slice", f_of_Z 1000); ("system-postgresql.slice", f_of_Z 70)].
Proof. vm_compute. reflexivity. Qed.

(** When a process of a service ends, the bytes of the service, which are said to be cumulative, become
    fewer. *)
Definition ex_workers : gmap string string := list_to_map [
  ("/proc/100/cgroup", "0::/system.slice/nginx.service"); ("/proc/101/cgroup", "0::/system.slice/nginx.service")].
Example bytes_go_back :
  let agg := Svcagg.TrackRx 101 900 (Svcagg.TrackRx 100 50 ∅) in
  let '(out1, c, agg) := ex_run ex_workers 10 ["100"; "101"] ex_new agg in
  let '(out2, _, _) := ex_run ex_workers 40 ["100"] c agg in
  (shown_of out1 "service.net_rx_bytes", shown_of out2 "service.net_rx_bytes")
  = ([("nginx", f_of_Z 950)], [("nginx", f_of_Z 50)]).
Proof. vm_compute. reflexivity. Qed.

(** A reading that fails is made up for by the next one, which is taken as if it were of one
    interval: ten seconds of CPU in each of two intervals of ten seconds are first nothing, then
    twice what they are. *)
Definition ex_cpu (usage : option string) : gmap string string :=
  let files : gmap string string :=
    {[ "/proc/100/cgroup" := "0::/system.slice/nginx.service"; "/sys/fs/cgroup/system.slice/nginx.service/memory.stat" := "anon 5" ]} in
  match usage with
  | Some u => <["/sys/fs/cgroup/system.slice/nginx.service/cpu.stat" := "usage_usec " +:+ u]> files
  | None => files
  end.
Example missed_reading_counts_twice :
  let '(_, c, _) := ex_run (ex_cpu (Some "10000000")) 10 ["100"] ex_new ∅ in
  let '(out2, c, _) := ex_run (ex_cpu None) 20 ["100"] c ∅ in
  let '(out3, _, _) := ex_run (ex_cpu (Some "30000000")) 30 ["100"] c ∅ in
  (shown_of out2 "service.cpu_pct", shown_of out3 "service.cpu_pct") = ([("nginx", f_of_Z 0)], [("nginx", f_of_Z 200)]).
Proof. vm_compute. reflexivity. Qed.
End ServiceProps.

(** ** Containers of Docker *)

Module DockerProps.
Import DockerHost.

(** What is counted does not depend on statistics, and each container that answers has its five
    metrics whatever the others do. *)
Lemma counts_and_answers enum decode stats finished now d containers :
  (forall l, finished l ⊆+ l) ->
  exists shown, shown ⊆+ List.filter running containers /\
    Run enum decode stats true (Some containers) finished now d
    = Ok ([metric d now "docker.containers_running" (f_of_Z (Z.of_nat (length (List.filter running containers)))) ∅;
           metric d now "docker.containers_stopped"
             (f_of_Z (Z.of_nat (length containers - length (List.filter running containers)))) ∅]
          ++ (shown ≫= fun c => match stats (ct_ID c) ≫= decode with Some s => stats_metrics enum d now c s | None => [] end)).
Proof.
  intros H. exists (finished (List.filter running containers)). split; [apply H|]. unfold Run. cbn [negb]. repeat f_equal.
  induction containers as [|c l IH]; [done|]. cbn. destruct (running c); cbn; [done|].
  rewrite IH. pose proof (List.filter_length_le running l). lia.
Qed.

(** A single answer has no earlier statistics: the percentage is that of the whole life of the
    container in the whole time the host is up. *)
Lemma cpu_of_whole_life s :
  TotalUsage (precpu_stats s) = 0 -> SystemUsage (precpu_stats s) = 0 ->
  in_u64 (TotalUsage (cpu_stats s)) -> in_u64 (SystemUsage (cpu_stats s)) -> 0 < TotalUsage (cpu_stats s) ->
  0 < SystemUsage (cpu_stats s) -> 0 < OnlineCPUs (cpu_stats s) ->
  cpu_percent s = fmul (fmul (fdiv (f_of_Z (TotalUsage (cpu_stats s))) (f_of_Z (SystemUsage (cpu_stats s))))
                         (f_of_Z (OnlineCPUs (cpu_stats s)))) (f_of_Z 100).
Proof.
  intros Ht Hs Ut Us Pt Ps Po. unfold cpu_percent. rewrite Ht, Hs, !Z.sub_0_r, !u64_small by done.
  replace (0 <? TotalUsage (cpu_stats s)) with true by lia. replace (0 <? SystemUsage (cpu_stats s)) with true by lia.
  by replace (OnlineCPUs (cpu_stats s) =? 0) with false by lia.
Qed.
End DockerProps.
End HostProps.
