(* ===== verification/Jobs.v ===== *)
(** * Commands on devices (internal/tools/ssh.go, internal/jobpull/jobpull.go)

    [SshTool] is the tool, [JobPull] the loop that takes jobs from the server, runs them and posts
    their results, and [JobProps] what they promise.

    What a command must be to be run on a device at all, and how one is run over SSH: arguments
    are a map of values of several types, output is kept up to a limit.

    The SSH client, keys, clocks and case mapping are arguments. *)

From S2P Require Import Prelude GoStrings GoFloat Wire DatabaseMonitor.
#[local] Open Scope Z_scope.

Module SshTool.
Import DatabaseMonitor(JoinHostPort).

Definition sshDialTimeout : Z := 10 * second.
Definition sshDefaultPort : Z := 22.
Definition sshOutputCapBytes : Z := 256 * 1024.

(** ** What may be run *)

(** The bytes of the class of the expression: separators, pipes, redirections, quotes and line ends. *)
Definition unsafe_bytes : list Z := [59; 38; 124; 62; 60; 96; 13; 10].
Definition unsafeSSHCommand (c : string) : bool :=
  existsb (fun b => existsb (Z.eqb b) unsafe_bytes) (bytes_of c) || contains "$(" c.

Section validate.
Variable ToLower : string -> string.

(** Whether the command is one that reads, none for another vendor. *)
Definition vendor_allows (v lower : string) : option bool :=
  let one_of l := existsb (String.eqb v) l in
  if one_of ["cisco"; "ios"; "ios-xe"; "nx-os"; "arista"; "eos"; "juniper"; "junos"; "aruba"]
  then Some (has_prefix "show " lower || String.eqb lower "show")
  else if one_of ["fortinet"; "fortigate"]
  then Some (has_prefix "show " lower || String.eqb lower "show" || has_prefix "get " lower)
  else if one_of ["huawei"; "h3c"; "comware"]
  then Some (has_prefix "display " lower || String.eqb lower "display")
  else if one_of ["mikrotik"; "routeros"]
  then Some (has_suffix " print" lower || String.eqb lower "print" || has_suffix "/print" lower)
  else None.

Definition ValidateReadOnlySSHCommand (vendor command : string) : res unit :=
  let v := ToLower (trim_space vendor) in
  let c := trim_space command in
  if String.eqb c "" then Err "empty command"
  else if unsafeSSHCommand c then Err "shell operators and multiple commands are not allowed"
  else match vendor_allows v (ToLower c) with
       | None => Err "unsupported vendor"
       | Some false => Err "not in the read-only allowlist"
       | Some true => Ok tt
       end.
End validate.

(** ** Arguments *)

Inductive arg := AString (s : string) | AInt (n : Z) | AFloat (x : f64) | AOther.

Definition requireString (args : gmap string arg) (key : string) : res string :=
  match args !! key with
  | None => Err "missing required arg"
  | Some (AString s) => if String.eqb s "" then Err "arg must be a non-empty string" else Ok s
  | Some _ => Err "arg must be a non-empty string"
  end.
Definition optInt (to_int : f64 -> Z) (args : gmap string arg) (key : string) (def : Z) : Z :=
  match args !! key with
  | Some (AInt n) => n
  | Some (AFloat x) => to_int x
  | _ => def
  end.
Definition optString (args : gmap string arg) (key : string) : string := match args !! key with Some (AString s) => s | _ => "" end.

(** ** Output up to a limit *)

Record cappedBuffer := mk_buffer { content : string; cap : Z; truncated : bool }.
Definition Write (p : string) (b : cappedBuffer) : Z * cappedBuffer :=
  if cap b <=? str_len (content b) then (str_len p, mk_buffer (content b) (cap b) true)
  else
    let remain := cap b - str_len (content b) in
    if remain <? str_len p then (str_len p, mk_buffer (content b +:+ str_take (Z.to_nat remain) p) (cap b) true)
    else (str_len p, mk_buffer (content b +:+ p) (cap b) (truncated b)).

(** ** SSH *)

Inductive auth := PublicKeys (private_key : string) | Password (pw : string).

(** What is dialled; the key of the host where one is known. *)
Record target := mk_target { user : string; addr : string; auth_method : auth; fixed_key : option string }.

(** How a command ended: on its own, with a status or another error, or by the time limit or cancellation. *)
Inductive ending := Exited (status : Z) | Broken (msg : string) | TimedOut (msg : string).

Record executed := mk_executed {
  stdout : string;
  stderr : string;
  exit_code : Z;
  duration_ms : Z;
  out_truncated : bool;
  error : string;
  host_key : string;
}.

(** What reaches a device: a connection, and a command on it. *)
Inductive action := Dial (t : target) | RunCommand (t : target) (command : string) (timeout : Z).

Section ssh.
Variable to_int : f64 -> Z.
Variable ParsePrivateKey : string -> bool.
Variable ParseKnownHosts : string -> option string.     (* the key of the line *)
(** The device: whether it can be dialled, with the key it shows; whether it opens a session; the
    chunks that a command writes to both outputs, with its end and duration. *)
Variable dial : target -> option string.
Variable session : target -> bool.
Variable run : target -> string -> Z -> list string * list string * ending * Z.

Definition buildAuthMethods (args : gmap string arg) : res auth :=
  let pk := optString args "private_key" in
  let pw := optString args "password" in
  if negb (String.eqb pk "") && negb (String.eqb pw "") then Err "both private_key and password provided"
  else if negb (String.eqb pk "") then if ParsePrivateKey pk then Ok (PublicKeys pk) else Err "parse private key"
  else if negb (String.eqb pw "") then Ok (Password pw)
  else Err "missing required arg: private_key or password".

Definition target_of (args : gmap string arg) : res (string * target) :=
  host ← requireString args "host";
  user ← requireString args "user";
  a ← buildAuthMethods args;
  let kh := optString args "known_host" in
  key ← (if String.eqb kh "" then Ok None
         else match ParseKnownHosts kh with Some k => Ok (Some k) | None => Err "parse known_host" end);
  Ok (host, mk_target user (JoinHostPort host (itoa (optInt to_int args "port" sshDefaultPort))) a key).

(** The connection, the line of the host's key where none was known, and what reached the device. *)
Definition dialSSH (args : gmap string arg) : res (target * string) * list action :=
  match target_of args with
  | Err e => (Err e, [])
  | Ok (host, t) =>
      match dial t with
      | None => (Err "ssh dial", [Dial t])
      | Some key => (Ok (t, match fixed_key t with Some _ => "" | None => host +:+ " " +:+ key end), [Dial t])
      end
  end.

Definition collect (chunks : list string) : cappedBuffer := foldl (fun b p => (Write p b).2) (mk_buffer "" sshOutputCapBytes false) chunks.

Definition Execute (args : gmap string arg) : res executed * list action :=
  match requireString args "command" with
  | Err e => (Err e, [])
  | Ok command =>
      let timeoutSec := optInt to_int args "timeout" 30 in
      match dialSSH args with
      | (Err e, acts) => (Err e, acts)
      | (Ok (t, key), acts) =>
          if negb (session t) then (Err "new session", acts)
          else
            let '(out, err, e, ms) := run t command (i64 (timeoutSec * second)) in
            let o := collect out in
            let r := collect err in
            let '(code, msg) := match e with Exited n => (n, "") | Broken m | TimedOut m => (-1, m) end in
            (Ok (mk_executed (content o) (content r) code ms (truncated o || truncated r) msg key),
             acts ++ [RunCommand t command (i64 (timeoutSec * second))])
      end
  end.

Definition TestConnection (args : gmap string arg) : res unit * list action :=
  match dialSSH args with
  | (Err e, acts) => (Err e, acts)
  | (Ok (t, _), acts) => if session t then (Ok tt, acts) else (Err "new session", acts)
  end.
End ssh.
End SshTool.

(** * Jobs for devices (internal/jobpull/jobpull.go)

    One job at a time is pulled from the server, run on its device if it only reads, and its
    result is posted until the server acknowledges it.  A round of the loop either posts or
    pulls; the answers of the server and what a device does are arguments. *)

Module JobPull.
Import SshTool.

Record Config := mk_config {
  Endpoint : string;
  TenantID : string;
  CollectorID : string;
  PollInterval : Z;
  LongPollSeconds : Z;
  HTTPClient : bool;       (* whether there is one *)
}.

Record job := mk_job {
  ID : string;
  Attempt : Z;
  Host : string;
  Vendor : string;
  Command : string;
  TimeoutSeconds : Z;
  SSHPort : Z;
  SSHUser : string;
  SecretKind : string;
  Secret : string;
  KnownHost : string;
  TestOnly : bool;
}.

(** The result of a job: what it failed with before it ran, that a connection was tested, or what a
    command gave and whether it succeeded. *)
Inductive result := Failed (error : string) | Tested | Ran (out : executed) (success : bool).

(** A whole configuration, with its defaults. *)
Definition configured (cfg : Config) : res Config :=
  if String.eqb (Endpoint cfg) "" || String.eqb (TenantID cfg) "" || String.eqb (CollectorID cfg) "" || negb (HTTPClient cfg)
  then Err "incomplete config"
  else Ok (mk_config (Endpoint cfg) (TenantID cfg) (CollectorID cfg)
             (if PollInterval cfg <=? 0 then 60 * second else PollInterval cfg)
             (if LongPollSeconds cfg <=? 0 then 25 else LongPollSeconds cfg) true).

Section requests.
Variable query_escape path_escape : string -> string.

(** The query is encoded in the order of its keys. *)
Definition pull_url (cfg : Config) : string :=
  Endpoint cfg +:+ "/api/collector/v1/jobs?collector_id=" +:+ query_escape (CollectorID cfg)
  +:+ "&tenant_id=" +:+ query_escape (TenantID cfg) +:+ "&wait_seconds=" +:+ query_escape (itoa (LongPollSeconds cfg)).
Definition result_url (cfg : Config) (id : string) : string :=
  Endpoint cfg +:+ "/api/collector/v1/jobs/" +:+ path_escape id +:+ "/result?tenant_id=" +:+ query_escape (TenantID cfg)
  +:+ "&collector_id=" +:+ query_escape (CollectorID cfg).
End requests.

Definition limit_body (body : string) : string :=
  if str_len body <=? Z.shiftl 1 20 then body else str_take (Z.to_nat (Z.shiftl 1 20)) body.

(** The job of an answer, and whether the server held the request; [resp] is the status and the body,
    none when the request failed. *)
Definition pullOnce (decode : string -> option (list job)) (resp : option (Z * string)) : res (option job * bool) :=
  match resp with
  | None => Err "do"
  | Some (status, body) =>
      if status =? 204 then Ok (None, true)
      else if 300 <=? status then Err "server returned"
      else match decode (limit_body body) with
           | None => Err "decode"
           | Some [] => Ok (None, false)
           | Some (j :: _) => Ok (Some j, false)
           end
  end.

(** Whether a result is acknowledged. *)
Definition postResult (resp : option (Z * string)) : bool :=
  match resp with Some (status, _) => negb (300 <=? status) | None => false end.

Section loop.
Variable ToLower : string -> string.
Variable to_int : f64 -> Z.
Variable ParsePrivateKey : string -> bool.
Variable ParseKnownHosts : string -> option string.
Variable decode : string -> option (list job).

(** What the devices do in a round. *)
Record devices := mk_devices {
  d_dial : target -> option string;
  d_session : target -> bool;
  d_run : target -> string -> Z -> list string * list string * ending * Z;
}.

Definition job_args (j : job) : gmap string arg :=
  let args : gmap string arg := list_to_map [("host", AString (Host j)); ("port", AInt (SSHPort j)); ("user", AString (SSHUser j));
                                             ("timeout", AInt (TimeoutSeconds j))] in
  let args := if TestOnly j then args else <["command" := AString (Command j)]> args in
  let args := if String.eqb (KnownHost j) "" then args else <["known_host" := AString (KnownHost j)]> args in
  if String.eqb (SecretKind j) "private_key" then <["private_key" := AString (Secret j)]> args
  else <["password" := AString (Secret j)]> args.

Definition execute (d : devices) (j : job) : result * list action :=
  match (if TestOnly j then Ok tt else ValidateReadOnlySSHCommand ToLower (Vendor j) (Command j)) with
  | Err e => (Failed e, [])
  | Ok _ =>
      if TestOnly j then
        match TestConnection to_int ParsePrivateKey ParseKnownHosts (d_dial d) (d_session d) (job_args j) with
        | (Ok _, acts) => (Tested, acts)
        | (Err e, acts) => (Failed e, acts)
        end
      else
        match Execute to_int ParsePrivateKey ParseKnownHosts (d_dial d) (d_session d) (d_run d) (job_args j) with
        | (Ok out, acts) => (Ran out ((exit_code out =? 0) && String.eqb (error out) ""), acts)
        | (Err e, acts) => (Failed e, acts)
        end
  end.

(** ** The loop *)

Record state := mk_state { pending : option (string * result); retryDelay : Z }.
Definition initial : state := mk_state None (2 * second).

(** What a round does: it posts a result, or pulls, and runs the job it gets; then it may wait. *)
Inductive event :=
  | Posted (id : string) (r : result) (acknowledged : bool)
  | PullFailed
  | Pulled (j : job) (r : result) (reached : list action)
  | NoJob.

(** [resp]: the answer to the request of the round. *)
Definition step (cfg : Config) (resp : option (Z * string)) (d : devices) (st : state) : state * event * option Z :=
  match pending st with
  | Some (id, r) =>
      if postResult resp then (mk_state None (2 * second), Posted id r true, None)
      else (st, Posted id r false, Some (retryDelay st))
  | None =>
      match pullOnce decode resp with
      | Err _ =>
          (mk_state None (if retryDelay st <? 30 * second then Z.min (i64 (retryDelay st * 2)) (30 * second) else retryDelay st),
           PullFailed, Some (retryDelay st))
      | Ok (Some j, _) =>
          let '(r, reached) := execute d j in
          (mk_state (Some (ID j, r)) (2 * second), Pulled j r reached, None)
      | Ok (None, held) => (st, NoJob, if held then None else Some (PollInterval cfg))
      end
  end.

(** What is done over any rounds. *)
Fixpoint run (cfg : Config) (rounds : list (option (Z * string) * devices)) (st : state) : state * list event :=
  match rounds with
  | [] => (st, [])
  | (resp, d) :: rounds =>
      let '(st, e, _) := step cfg resp d st in
      let '(st, es) := run cfg rounds st in
      (st, e :: es)
  end.
End loop.
End JobPull.

(** * What the jobs of devices promise

    All that reaches a device for a job is one connection, to its own host with its own secret and
    key, and after it at most its own command, of the allowlist of its vendor; each job that is pulled is run once, and its result is acknowledged before the next is
    pulled. *)

Module JobProps.
Import DatabaseMonitor(JoinHostPort).
Import SshTool JobPull.

(** ** Output *)

Lemma str_take_take n m s : str_take n (str_take m s) = str_take (Nat.min n m) s.
Proof. revert n m. induction s as [|c s IH]; intros [|n] [|m]; cbn; try done. by rewrite IH. Qed.
Lemma str_take_app_le n s t : (n <= String.length s)%nat -> str_take n (s +:+ t) = str_take n s.
Proof. revert n. induction s as [|c s IH]; intros [|n] H; cbn in H; rewrite ?str_app_cons.
  - by destruct ("" +:+ t).
  - lia.
  - done.
  - cbn. f_equal. apply IH. lia.
Qed.
Lemma str_take_app_ge n s t : (String.length s <= n)%nat -> str_take n (s +:+ t) = s +:+ str_take (n - String.length s) t.
Proof. revert n. induction s as [|c s IH]; intros n H; cbn in H; rewrite ?str_app_cons; [cbn; by rewrite Nat.sub_0_r|].
  destruct n as [|n]; [lia|]. cbn [str_take String.length Nat.sub]. f_equal. apply IH. lia.
Qed.

Lemma write_content p b :
  0 <= cap b -> str_len (content b) <= cap b ->
  content (Write p b).2 = str_take (Z.to_nat (cap b)) (content b +:+ p) /\ cap (Write p b).2 = cap b /\
  str_len (content (Write p b).2) <= cap b.
Proof.
  unfold Write, str_len. intros Hc Hb. destruct (Z.leb_spec (cap b) (Z.of_nat (String.length (content b)))) as [H|H].
  - cbn [snd content SshTool.cap]. split_and!; [|done|lia]. rewrite str_take_app_le by lia. by rewrite str_take_ge by lia.
  - destruct (Z.ltb_spec (cap b - Z.of_nat (String.length (content b))) (Z.of_nat (String.length p))) as [H1|H1];
      cbn [snd content SshTool.cap]; (split_and!; [|done|]).
    + rewrite str_take_app_ge by lia. do 2 f_equal. lia.
    + rewrite str_length_app, str_length_take. lia.
    + rewrite str_take_ge; [done|]. rewrite str_length_app. lia.
    + rewrite str_length_app. lia.
Qed.

Lemma str_take_nil n : str_take n "" = "".
Proof. by destruct n. Qed.

Lemma writes_content m chunks b s : 0 <= m -> content b = str_take (Z.to_nat m) s -> SshTool.cap b = m ->
  content (foldl (fun b p => (Write p b).2) b chunks) = str_take (Z.to_nat m) (foldl String.append s chunks).
Proof.
  intros Hm. revert b s. induction chunks as [|p chunks IH]; intros b s Hb Hc; [done|]. cbn [foldl].
  destruct (write_content p b) as (Hw & Hcap & _); rewrite ?Hc; [done|rewrite Hb; unfold str_len; rewrite str_length_take; lia|].
  apply IH; [|by rewrite Hcap]. rewrite Hw, Hc, Hb. destruct (decide (String.length s <= Z.to_nat m)%nat) as [Hs|Hs].
  - by rewrite (str_take_ge _ s) by done.
  - rewrite !str_take_app_le by (rewrite ?str_length_take; lia). rewrite str_take_take. f_equal. lia.
Qed.

(** A buffer holds what was written up to its limit, whatever the writes. *)
Lemma collect_content chunks : content (collect chunks) = str_take (Z.to_nat sshOutputCapBytes) (foldl String.append "" chunks).
Proof.
  unfold collect. apply writes_content; [unfold sshOutputCapBytes; lia| |reflexivity]. cbn [content]. symmetry. apply str_take_nil.
Qed.

(** ** Commands *)

Section jobs.
Variable ToLower : string -> string.
Variable to_int : f64 -> Z.
Variable ParsePrivateKey : string -> bool.
Variable ParseKnownHosts : string -> option string.
Variable decode : string -> option (list job).

Abbreviation run := (run ToLower to_int ParsePrivateKey ParseKnownHosts decode).
Abbreviation step := (step ToLower to_int ParsePrivateKey ParseKnownHosts decode).
Abbreviation execute := (execute ToLower to_int ParsePrivateKey ParseKnownHosts).

(** What a device is asked with, by its vendor: a command whose first word is show, get or display,
    and on RouterOS one whose last word is print. *)
Inductive reads_on : string -> string -> Prop :=
  | reads_show v c : v ∈ ["cisco"; "ios"; "ios-xe"; "nx-os"; "arista"; "eos"; "juniper"; "junos"; "aruba"; "fortinet"; "fortigate"] ->
      (c = "show" \/ exists rest, c = "show " +:+ rest) -> reads_on v c
  | reads_get v rest : v ∈ ["fortinet"; "fortigate"] -> reads_on v ("get " +:+ rest)
  | reads_display v c : v ∈ ["huawei"; "h3c"; "comware"] -> (c = "display" \/ exists rest, c = "display " +:+ rest) -> reads_on v c
  | reads_print v c : v ∈ ["mikrotik"; "routeros"] ->
      (c = "print" \/ has_suffix " print" c = true \/ has_suffix "/print" c = true) -> reads_on v c.

(** And nothing in it that ends a command, starts another or redirects one in a shell. Brackets are
    no such thing here, though RouterOS runs what stands in them ([brackets_pass]). *)
Definition reads (vendor command : string) : Prop :=
  reads_on (ToLower (trim_space vendor)) (ToLower (trim_space command)) /\
  (forall b, b ∈ bytes_of (trim_space command) -> b ∉ unsafe_bytes) /\ contains "$(" (trim_space command) = false.

Lemma one_of_elem v l : existsb (String.eqb v) l = true -> v ∈ l.
Proof. intros H. apply existsb_exists in H as (x & Hx & ->%String.eqb_eq). by apply list_elem_of_In. Qed.

Lemma word_reads w c : has_prefix (w +:+ " ") c || String.eqb c w = true -> c = w \/ exists rest, c = (w +:+ " ") +:+ rest.
Proof. intros [H|H]%orb_prop; [right; by apply prefix_spec|left; by apply String.eqb_eq]. Qed.

Lemma vendor_reads v c : vendor_allows v c = Some true -> reads_on v c.
Proof.
  unfold vendor_allows. cbn zeta.
  destruct (existsb _ ["cisco"; _; _; _; _; _; _; _; _]) eqn:E1.
  { intros [= H]. apply one_of_elem in E1. apply (reads_show v); [revert E1; rewrite !elem_of_cons; tauto|]. by apply (word_reads "show"). }
  destruct (existsb _ ["fortinet"; _]) eqn:E2.
  { intros [= H]. apply one_of_elem in E2. apply orb_prop in H as [H|H]; [apply (reads_show v); [revert E2; rewrite !elem_of_cons; tauto|by apply (word_reads "show")]|].
    apply prefix_spec in H as [rest ->]. by apply reads_get. }
  destruct (existsb _ ["huawei"; _; _]) eqn:E3.
  { intros [= H]. apply one_of_elem in E3. apply (reads_display v); [done|]. by apply (word_reads "display"). }
  destruct (existsb _ ["mikrotik"; _]) eqn:E4; [|done].
  intros [= H]. apply one_of_elem in E4. apply (reads_print v); [done|].
  apply orb_prop in H as [H|H]; [apply orb_prop in H as [H|H]|]; [by right; left|left; by apply String.eqb_eq|by right; right].
Qed.

Lemma validated_reads vendor command : ValidateReadOnlySSHCommand ToLower vendor command = Ok tt -> reads vendor command.
Proof.
  unfold ValidateReadOnlySSHCommand, reads. cbn zeta. destruct (String.eqb (trim_space command) ""); [done|].
  destruct (unsafeSSHCommand (trim_space command)) eqn:Hu; [done|].
  destruct (vendor_allows _ _) as [[]|] eqn:Hv; [|done|done]. intros _. split; [by apply vendor_reads|].
  unfold unsafeSSHCommand in Hu. apply orb_false_iff in Hu as [Hu Hd]. split; [|done]. intros b Hb Hin.
  apply not_true_iff_false in Hu. apply Hu, existsb_exists. exists b. split; [by apply list_elem_of_In|]. apply existsb_exists.
  exists b. split; [by apply list_elem_of_In|]. apply Z.eqb_refl.
Qed.

(** The device that a job is for, with the secret of the job, and the key it must show where the job
    names one. *)
Definition own_target (j : job) (t : target) : Prop :=
  addr t = JoinHostPort (Host j) (itoa (SSHPort j)) /\ user t = SSHUser j /\
  auth_method t = (if String.eqb (SecretKind j) "private_key" then PublicKeys (Secret j) else Password (Secret j)) /\
  (if String.eqb (KnownHost j) "" then fixed_key t = None
   else exists key, ParseKnownHosts (KnownHost j) = Some key /\ fixed_key t = Some key).

(** All that may reach a device for a job, in order. *)
Definition meant (j : job) (reached : list action) : Prop :=
  reached = [] \/
  exists t, own_target j t /\
    (reached = [Dial t] \/
     TestOnly j = false /\ reads (Vendor j) (Command j) /\
     reached = [Dial t; RunCommand t (Command j) (i64 (TimeoutSeconds j * second))]).

Lemma job_arg j k : job_args j !! k
  = if String.eqb k (if String.eqb (SecretKind j) "private_key" then "private_key" else "password") then Some (AString (Secret j))
    else if String.eqb k "known_host" then if String.eqb (KnownHost j) "" then None else Some (AString (KnownHost j))
    else if String.eqb k "command" then if TestOnly j then None else Some (AString (Command j))
    else if String.eqb k "host" then Some (AString (Host j))
    else if String.eqb k "port" then Some (AInt (SSHPort j))
    else if String.eqb k "user" then Some (AString (SSHUser j))
    else if String.eqb k "timeout" then Some (AInt (TimeoutSeconds j)) else None.
Proof.
  unfold job_args. destruct (String.eqb (SecretKind j) "private_key"), (String.eqb (KnownHost j) ""), (TestOnly j);
    cbn [list_to_map foldr fst snd]; repeat first
      [ rewrite lookup_empty
      | match goal with |- context [<[?a := _]> _ !! k] =>
          destruct (String.eqb_spec k a) as [->|]; [rewrite lookup_insert_eq|rewrite lookup_insert_ne by done] end
      | match goal with |- context [String.eqb ?a ?b] => destruct (String.eqb_spec a b); try congruence end ]; try done.
Qed.

Lemma job_auth j a : buildAuthMethods ParsePrivateKey (job_args j) = Ok a ->
  a = (if String.eqb (SecretKind j) "private_key" then PublicKeys (Secret j) else Password (Secret j)).
Proof.
  unfold buildAuthMethods, optString. cbn zeta. rewrite !job_arg.
  destruct (String.eqb (SecretKind j) "private_key"); cbn; destruct (String.eqb (Secret j) ""); cbn; try done.
  - destruct (ParsePrivateKey (Secret j)); [by intros [= <-]|done].
  - by intros [= <-].
Qed.

Lemma own_target_of j host t : target_of to_int ParsePrivateKey ParseKnownHosts (job_args j) = Ok (host, t) -> own_target j t.
Proof.
  assert (Hh : requireString (job_args j) "host" = if String.eqb (Host j) "" then Err "arg must be a non-empty string" else Ok (Host j)).
  { unfold requireString. rewrite job_arg. by destruct (String.eqb (SecretKind j) "private_key"). }
  assert (Hu : requireString (job_args j) "user" = if String.eqb (SSHUser j) "" then Err "arg must be a non-empty string" else Ok (SSHUser j)).
  { unfold requireString. rewrite job_arg. by destruct (String.eqb (SecretKind j) "private_key"). }
  assert (Hp : optInt to_int (job_args j) "port" sshDefaultPort = SSHPort j).
  { unfold optInt. rewrite job_arg. by destruct (String.eqb (SecretKind j) "private_key"). }
  assert (Hk : optString (job_args j) "known_host" = KnownHost j).
  { unfold optString. rewrite job_arg. destruct (String.eqb (SecretKind j) "private_key"); cbn; by destruct (String.eqb_spec (KnownHost j) ""). }
  unfold target_of. rewrite Hh, Hu, Hp, Hk. destruct (String.eqb (Host j) ""); [done|]. cbn. destruct (String.eqb (SSHUser j) ""); [done|].
  cbn. destruct (buildAuthMethods ParsePrivateKey (job_args j)) as [a|] eqn:Ha; [|done]. apply job_auth in Ha. cbn.
  destruct (String.eqb (KnownHost j) "") eqn:E.
  - cbn. intros [= <- <-]. unfold own_target. rewrite E. split_and!; done.
  - destruct (ParseKnownHosts (KnownHost j)) as [key|] eqn:Hpk; [|done]. cbn. intros [= <- <-]. unfold own_target. rewrite E.
    split_and!; [done..|]. by exists key.
Qed.

Lemma dial_meant d j res acts : dialSSH to_int ParsePrivateKey ParseKnownHosts d (job_args j) = (res, acts) ->
  meant j acts /\ forall t k, res = Ok (t, k) -> own_target j t /\ acts = [Dial t].
Proof.
  unfold dialSSH. destruct (target_of _ _ _ (job_args j)) as [[host t]|e] eqn:Ht.
  - apply own_target_of in Ht. destruct (d t) as [key|]; intros [= <- <-]; (split; [right; exists t; split; [done|by left]|]); [|done].
    by intros t' k [= -> _].
  - intros [= <- <-]. by split; [left|].
Qed.

Lemma execute_meant d j r acts : execute d j = (r, acts) -> meant j acts.
Proof.
  unfold JobPull.execute. destruct (TestOnly j) eqn:Ht.
  - cbn. unfold TestConnection. destruct (dialSSH _ _ _ _ (job_args j)) as [[[t k]|e] as_] eqn:Hd; apply dial_meant in Hd as [Hd _];
      [destruct (d_session d t)|]; by intros [= <- <-].
  - destruct (ValidateReadOnlySSHCommand ToLower (Vendor j) (Command j)) as [[]|e] eqn:Hv; [|intros [= <- <-]; by left].
    apply validated_reads in Hv. unfold Execute.
    assert (Hc : requireString (job_args j) "command" = if String.eqb (Command j) "" then Err "arg must be a non-empty string" else Ok (Command j)).
    { unfold requireString. rewrite job_arg, Ht. by destruct (String.eqb (SecretKind j) "private_key"). }
    assert (Hl : optInt to_int (job_args j) "timeout" 30 = TimeoutSeconds j).
    { unfold optInt. rewrite job_arg. by destruct (String.eqb (SecretKind j) "private_key"). }
    rewrite Hc, Hl. destruct (String.eqb (Command j) ""); [intros [= <- <-]; by left|].
    destruct (dialSSH _ _ _ _ (job_args j)) as [[[t k]|e] as_] eqn:Hd; apply dial_meant in Hd as [Hd Ho]; [|by intros [= <- <-]].
    destruct (d_session d t); cbn [negb]; [|by intros [= <- <-]]. destruct (Ho t k eq_refl) as [Hown ->].
    destruct (d_run d t (Command j) _) as [[[out err] e] ms]. destruct e; intros [= <- <-]; right; exists t; (split; [done|right; done]).
Qed.

(** C31: Whatever the server sends and however devices behave, all that reaches a device for a job
    is one connection to the host and port of the job, as its user, with its secret of its kind and
    with the key that the job names, if it names one, and after it at most one command, for no test:
    the job's own, under its time limit, whose first word is show, get or display as its vendor has
    it, or whose last is print on RouterOS, and which has no separator, pipe, redirection, back quote,
    $( or line end. *)
Theorem jobs_reach_own_devices cfg rounds st es j r reached :
  run cfg rounds initial = (st, es) -> Pulled j r reached ∈ es -> meant j reached.
Proof.
  generalize initial. revert es. induction rounds as [|[resp d] rounds IH]; intros es s0; cbn [JobPull.run].
  { intros [= _ <-] H. by apply not_elem_of_nil in H. }
  destruct (step cfg resp d s0) as [[s1 e] w] eqn:Hs. destruct (run cfg rounds s1) as [s2 es'] eqn:Hr. intros [= -> <-] Hin.
  apply elem_of_cons in Hin as [<-|Hin]; [|by eapply IH]. clear IH Hr. unfold JobPull.step in Hs.
  destruct (pending s0) as [[id r0]|]; [by destruct (postResult resp)|].
  destruct (pullOnce decode resp) as [[[j'|] h]|e]; [|done|done]. destruct (execute d j') as [r' acts] eqn:He.
  injection Hs as <- <- <- <- <-. by apply execute_meant in He.
Qed.

(** ** Results *)

Definition executed_of (e : event) : option (string * result) := match e with Pulled j r _ => Some (ID j, r) | _ => None end.
Definition acknowledged_of (e : event) : option (string * result) := match e with Posted id r true => Some (id, r) | _ => None end.

(** Each job that is pulled is run once, and its result is acknowledged before another job is
    pulled: what was acknowledged and the result that waits are, in order, those of the jobs that
    were run. *)
Theorem results_acknowledged_in_order cfg rounds :
  let '(st, es) := run cfg rounds initial in
  omap executed_of es = omap acknowledged_of es ++ option_list (pending st).
Proof.
  cut (forall s0, let '(st, es) := run cfg rounds s0 in
    option_list (pending s0) ++ omap executed_of es = omap acknowledged_of es ++ option_list (pending st)); [by intros H; apply H|].
  induction rounds as [|[resp d] rounds IH]; intros s0; cbn [JobPull.run]; [by rewrite app_nil_r|].
  destruct (step cfg resp d s0) as [[s1 e] w] eqn:Hs. specialize (IH s1). destruct (run cfg rounds s1) as [s2 es].
  unfold JobPull.step in Hs. destruct (pending s0) as [[id r0]|] eqn:Hp.
  - destruct (postResult resp); injection Hs as <- <- <-; cbn in *; [by rewrite IH|by rewrite Hp in IH].
  - destruct (pullOnce decode resp) as [[[j|] h]|err]; [destruct (execute d j) as [r acts]| |]; injection Hs as <- <- <-; cbn in *;
      [done|by rewrite Hp in IH|done].
Qed.

(** ** Observations *)

(** A result that the server refuses is posted again without end: no job is pulled any more. *)
Lemma refused_result_blocks cfg rounds st :
  is_Some (pending st) -> Forall (fun rd => postResult rd.1 = false) rounds ->
  (run cfg rounds st).1 = st /\ omap executed_of (run cfg rounds st).2 = [].
Proof.
  intros [[id r] Hp] H. induction H as [|[resp d] rounds Hr _ IH]; [done|]. cbn [fst] in Hr. cbn [JobPull.run].
  unfold JobPull.step at 1 2. rewrite Hp, Hr. by destruct (run cfg rounds st) as [s2 es].
Qed.
End jobs.

Definition ex_job (vendor command : string) (port timeout : Z) (test : bool) : job :=
  mk_job "j1" 1 "10.0.0.1" vendor command timeout port "admin" "password" "s3cret" "" test.

(** The defaults of the port and of the time limit are never used: the arguments are always there. *)
Example defaults_unused :
  optInt (fun _ => 0) (job_args (ex_job "cisco" "show version" 0 0 false)) "port" sshDefaultPort = 0 /\
  optInt (fun _ => 0) (job_args (ex_job "cisco" "show version" 0 0 false)) "timeout" 30 = 0.
Proof. split; reflexivity. Qed.

(** Brackets, in which RouterOS runs another command, are no operators of a shell. *)
Example brackets_pass : ValidateReadOnlySSHCommand (fun s => s) "mikrotik" "[/system reboot] /ip address print" = Ok tt.
Proof. vm_compute. reflexivity. Qed.

(** Of several jobs in an answer only the first is run. *)
Example other_jobs_forgotten j k :
  pullOnce (fun _ => Some [j; k]) (Some (200, "")) = Ok (Some j, false).
Proof. reflexivity. Qed.

Definition ex_devices : devices :=
  mk_devices (fun _ => Some "ssh-ed25519 AAAA") (fun _ => true) (fun _ _ _ => (["Cisco IOS"], [], Exited 0, 12)).
Definition ex_decode (jobs : list job) (_ : string) : option (list job) := Some jobs.
Definition ex_cfg : Config := mk_config "https://x" "t1" "c1" (60 * second) 25 true.

Lemma jobs_reach_own_devices_witness :
  let j := ex_job "cisco" "show version" 22 30 false in
  let t := mk_target "admin" "10.0.0.1:22" (Password "s3cret") None in
  meant (fun s => s) (fun _ => None) j [Dial t; RunCommand t "show version" (30 * second)].
Proof.
  intros j t.
  destruct (JobPull.run (fun s => s) (fun _ => 0) (fun _ => true) (fun _ => None) (ex_decode [j]) ex_cfg [(Some (200, "{}"), ex_devices)] initial)
    as [st es] eqn:E.
  refine (jobs_reach_own_devices (fun s => s) (fun _ => 0) (fun _ => true) (fun _ => None) (ex_decode [j]) ex_cfg _ st es j
            (Ran (mk_executed "Cisco IOS" "" 0 12 false "" "10.0.0.1 ssh-ed25519 AAAA") true) _ E _).
  vm_compute in E. injection E as _ <-. apply list_elem_of_here.
Defined.
End JobProps.
