(* ===== verification/Collector.v ===== *)
(** * The process of the collector (cmd/collector: main.go, host_services.go, tagger_budget.go)

    What the environment configures, the identity that an agent of databases keeps on disk and
    its revocation, what the process announces and starts, its registration, and the services of
    a host that it reports.

    The environment, files, randomness, case mapping and the operating system are arguments. *)

From S2P Require Import Prelude GoStrings GoFloat Wire Otlp Cgroup ClusterAgent OtlpProps Prom.
#[local] Open Scope Z_scope.

Module Collector.
Import Cgroup(path_join).

(** ** The environment *)

Section env.
Variable getenv : string -> string.
Variable ToLower : string -> string.
Variable EqualFold : string -> string -> bool.

Definition getenvOr (key def : string) : string := let v := getenv key in if String.eqb v "" then def else v.
Definition setting (key def : string) : string := ToLower (trim_space (getenvOr key def)).

Definition databaseAgentProfile : string := "database".
Definition isDatabaseAgent : bool := EqualFold (trim_space (getenvOr "TELVYN_AGENT_PROFILE" "")) databaseAgentProfile.
Definition databaseInstallationID : string := trim_space (getenvOr "TELVYN_DATABASE_INSTALLATION_ID" "").
Definition databaseEngine : string := setting "TELVYN_DATABASE_ENGINE" "postgres".

Definition without_dashes (s : string) : string := of_bytes (List.filter (fun b => negb (b =? 45)) (bytes_of s)).
Definition databaseCollectorName (hostname installationID : string) : string :=
  let shortID := str_take 8 (without_dashes (trim_space installationID)) in
  if String.eqb shortID "" then hostname +:+ " · PostgreSQL" else hostname +:+ " · banco · " +:+ shortID.

Definition databaseAgentIDPath : string :=
  let path := trim_space (getenvOr "TELVYN_DATABASE_AGENT_ID_PATH" "") in
  if negb (String.eqb path "") then path
  else path_join [trim_space (getenvOr "TELVYN_STATE_DIR" "/var/lib/telvyn-agent"); "agent-id"].
(** [cache]: the directory for caches of the user, none when there is none. *)
Definition databaseRevocationMarkerPath (cache : option string) : string :=
  let marker := trim_space (getenvOr "TELVYN_DATABASE_REVOKED_MARKER_PATH" "") in
  if negb (String.eqb marker "") then marker
  else
    let stateDir := trim_space (getenvOr "TELVYN_STATE_DIR" "") in
    let stateDir := if negb (String.eqb stateDir "") then stateDir
                    else match cache with
                         | Some d => if String.eqb d "" then "/var/lib/telvyn" else path_join [d; "telvyn"]
                         | None => "/var/lib/telvyn"
                         end in
    path_join [stateDir; "database-agent-revoked"].
Definition updateMarkerPath : string :=
  if isDatabaseAgent || negb (EqualFold (getenvOr "TELVYN_AGENT_KIND" "") "linux") then ""
  else getenvOr "TELVYN_UPDATE_MARKER_PATH" "/var/lib/telvyn/update-requested".

Definition envEnabledByDefault (name : string) : bool :=
  negb (existsb (String.eqb (setting name "1")) ["0"; "false"; "no"; "off"]).
Definition envEnabled (name : string) : bool := existsb (String.eqb (setting name "0")) ["1"; "true"; "yes"; "on"].

(** ** What is announced, and what is started *)

Definition agent_kind : string := setting "TELVYN_AGENT_KIND" "".
Definition protocols : list (string * list string) :=
  [("TELVYN_SNMP", ["snmp"]); ("TELVYN_ICMP", ["icmp"]); ("TELVYN_LLDP", ["lldp"]); ("TELVYN_SSH", ["ssh"; "ssh_readonly_v1"])].
Definition collectorCapabilities : list string :=
  let caps := ["metrics"; "checks"] in
  if isDatabaseAgent then caps ++ ["db-postgres"; "host-metrics"]
  else if String.eqb agent_kind "linux" || String.eqb agent_kind "snmp"
  then caps ++ (protocols ≫= fun item => if envEnabledByDefault item.1 then item.2 else [])
  else caps.

Definition collectorInstallMode : string :=
  if isDatabaseAgent && existsb (String.eqb agent_kind) ["docker"; "linux"] then agent_kind
  else
    let mode := setting "TELVYN_INSTALL_MODE" "" in
    if existsb (String.eqb mode) ["docker"; "linux"; "k8s"] then mode
    else if String.eqb agent_kind "docker" then "docker"
    else if String.eqb agent_kind "linux" then "linux"
    else if existsb (String.eqb agent_kind) ["k8s.node"; "k8s.cluster"] then "k8s"
    else "".

(** Whether jobs for devices are pulled once the collector is registered. *)
Definition pulls_jobs : bool := negb isDatabaseAgent && envEnabled "TELVYN_SSH".

Definition on (key def : string) : bool := String.eqb (getenvOr key def) "1".
Definition of_kind (kind : string) : bool := EqualFold (getenvOr "TELVYN_AGENT_KIND" "") kind.

(** The parts that a process starts besides the sender of metrics. *)
Record parts := mk_parts {
  runtime_metrics : bool;     (* the scraper of workloads *)
  node_registration : bool;
  docker_registration : bool;
  linux_registration : bool;
  host_registration : bool;   (* a machine, with its checks *)
  cluster_agent : bool;
  logs_exporter : bool;
  apm_statistics : bool;
  tracer : bool;
  snmp_traps : bool;
  checks : bool;
  receiver : bool;
}.
Definition started : parts :=
  let db := isDatabaseAgent in
  mk_parts (of_kind "k8s.node") (of_kind "k8s.node") (of_kind "docker") (of_kind "linux")
    (negb db && (of_kind "docker" || of_kind "linux")) (of_kind "k8s.cluster")
    (negb db && (on "TELVYN_LOGS_ENABLED" "0" || on "TELVYN_SYSLOG_ENABLED" "0" || negb (on "TELVYN_OTLP_HTTP_DISABLE" "0")))
    (negb db) (negb db && on "TELVYN_EBPF_TRACING" "0") (negb db && on "TELVYN_SNMP_TRAPS_ENABLED" "0")
    (on "TELVYN_CHECKS_ENABLED" "1") (negb db && negb (on "TELVYN_OTLP_HTTP_DISABLE" "0")).

(** ** Settings of parts *)

Definition positive_setting (key : string) (def : Z) : Z :=
  match atoi (trim_space (getenvOr key "")) with Some n => if 0 <? n then n else def | None => def end.

(** None when there is no cluster around. *)
Definition cluster_config (cluster : string) : option ClusterAgent.Config :=
  let apiURL := trim_space (getenvOr "TELVYN_K8S_API_URL" "") in
  let host := trim_space (getenv "KUBERNETES_SERVICE_HOST") in
  let apiURL := if negb (String.eqb apiURL "") then apiURL
                else if String.eqb host "" then "" else "https://" +:+ host +:+ ":" +:+ getenvOr "KUBERNETES_SERVICE_PORT" "443" in
  if String.eqb apiURL "" then None
  else Some (ClusterAgent.mk_config apiURL
    (getenvOr "TELVYN_K8S_TOKEN_FILE" "/var/run/secrets/kubernetes.io/serviceaccount/token")
    (getenvOr "TELVYN_K8S_CA_FILE" "/var/run/secrets/kubernetes.io/serviceaccount/ca.crt")
    (on "TELVYN_K8S_INSECURE" "0") cluster
    (match atoi (trim_space (getenvOr "TELVYN_CLUSTER_INTERVAL_SEC" "")) with
     | Some n => if 0 <? n then i64 (n * second) else 30 * second | None => 30 * second end)
    (on "TELVYN_CLUSTER_EVENTS_INCLUDE_NORMAL" "0") (positive_setting "TELVYN_CLUSTER_EVENT_LIMIT" 0)
    (negb (String.eqb (getenvOr "TELVYN_CLUSTER_KUBESTATE" "1") "0")) (negb (String.eqb (getenvOr "TELVYN_CLUSTER_INVENTORY" "1") "0"))).

(** The namespaces whose logs are left alone: the agent's own and those that are listed. *)
Definition excluded_namespaces : list string :=
  let self := trim_space (getenvOr "POD_NAMESPACE" "") in
  (if String.eqb self "" then [] else [self])
  ++ List.filter (fun ns => negb (String.eqb ns "")) (trim_space <$> split "," (getenvOr "TELVYN_LOGS_EXCLUDE_NAMESPACES" "")).

Definition collector_name (hostID hostname databaseIdentity : string) : string :=
  let name := trim_space hostID in
  let name := if String.eqb name "" then hostname else name in
  if isDatabaseAgent then databaseCollectorName name databaseIdentity else name.
Definition server_base (ingestURL : string) : string :=
  trim_right_slashes (trim_suffix "/api/ingest/v1" (trim_right_slashes (trim_space ingestURL))).
Definition poll_seconds : Z := positive_setting "TELVYN_CHECKS_POLL_SECONDS" 15.

Definition local_check (kind hostID : string) (interval : Z) (params : tagmap) : CheckConfig :=
  mk_check_config (kind +:+ "-" +:+ hostID) kind (interval * second) params ∅ hostID true "".
Definition kubelet_check (hostID : string) : CheckConfig :=
  local_check "k8s.kubelet" hostID 15
    (list_to_map [("kubelet_url", getenvOr "TELVYN_KUBELET_URL" "https://localhost:10250");
                  ("token_file", getenvOr "TELVYN_KUBELET_TOKEN_FILE" "/var/run/secrets/kubernetes.io/serviceaccount/token");
                  ("insecure_skip_verify", if on "TELVYN_KUBELET_INSECURE" "1" then "true" else "false")]).
Definition docker_check (hostID : string) : CheckConfig := local_check "docker.host" hostID 60 ∅.
Definition linux_check (hostID : string) : CheckConfig := local_check "linux.system" hostID 30 ∅.
(** A round of a local check: what it gives is dropped when the channel, of 256 batches, is full. *)
Definition out_size : nat := 256.
Definition local_round (result : res (list Metric)) (out : list (list Metric)) : list (list Metric) :=
  match result with
  | Ok (m :: ms) => if (length out <? out_size)%nat then out ++ [m :: ms] else out
  | _ => out
  end.

Variable ParseFloat : string -> option f64.
Definition parseAPMSampleRate (raw : string) : res f64 :=
  if String.eqb (trim_space raw) "" then Ok (fdiv f64_one (f_of_Z 10))
  else match ParseFloat (trim_space raw) with
       | None => Err "syntax"
       | Some rate => if fle f64_zero rate && fle rate f64_one then Ok rate else Err "outside [0,1]"
       end.
End env.

Definition configuredTaggerBudget (raw : string) : Z :=
  match atoi raw with Some n => if (0 <? n) && (n <=? 100000) then n else 10000 | None => 10000 end.

(** ** The identity of an agent of databases *)

Definition hex_char (b : Z) : bool := is_digit b || ((97 <=? b) && (b <=? 102)) || ((65 <=? b) && (b <=? 70)).
Definition uuid_byte (index : nat) (b : Z) : bool :=
  if existsb (Nat.eqb index) [8; 13; 18; 23]%nat then b =? 45 else hex_char b.
Fixpoint uuid_from (index : nat) (s : string) : bool :=
  match s with "" => true | String c s => uuid_byte index (byte_of c) && uuid_from (S index) s end.
Definition isUUID (value : string) : bool := (String.length value =? 36)%nat && uuid_from 0 value.

Definition slice (i j : nat) (l : list Z) : string := Hex.EncodeToString (of_bytes (take (j - i) (drop i l))).
(** The identity of sixteen random bytes. *)
Definition newUUID (random : list Z) : string :=
  let b := alter (fun b => Z.lor (Z.land b 63) 128) 8%nat (alter (fun b => Z.lor (Z.land b 15) 64) 6%nat random) in
  slice 0 4 b +:+ "-" +:+ slice 4 6 b +:+ "-" +:+ slice 6 8 b +:+ "-" +:+ slice 8 10 b +:+ "-" +:+ slice 10 16 b.

(** Files by their path. *)
Definition disk : Type := gmap string string.

(** How far a change of a file gets: its directory, what a write that fails leaves behind in the
    temporary file, and whether the file is put in its place.  A crash is like a failure. *)
Record attempt := mk_attempt { mkdir_ok : bool; written : bool; partial : option string; renamed : bool }.

Definition replace_file (path content : string) (a : attempt) (d : disk) : bool * disk :=
  if negb (mkdir_ok a) then (false, d)
  else if negb (written a) then (false, match partial a with Some p => <[path +:+ ".tmp" := p]> d | None => d end)
  else if negb (renamed a) then (false, <[path +:+ ".tmp" := content]> d)
  else (true, <[path := content]> (delete (path +:+ ".tmp") d)).

(** [readable]: whether a file that is there can be read; [random]: none when there is no randomness. *)
Definition databaseAgentID (path : string) (readable : bool) (random : option (list Z)) (a : attempt) (d : disk)
    : res string * disk :=
  let kept := if readable then trim_space <$> d !! path else None in
  match (match kept with Some id => if isUUID id then Some id else None | None => None end) with
  | Some id => (Ok id, d)
  | None =>
      match random with
      | None => (Err "rand", d)
      | Some bytes =>
          let id := newUUID bytes in
          let '(ok, d) := replace_file path (id +:+ str1 10) a d in
          (if ok then Ok id else Err "write", d)
      end
  end.

(** [stat_fails]: whether the marker cannot be looked at, for another reason than that it is not there. *)
Definition databaseAgentRevoked (marker : string) (stat_fails : bool) (d : disk) : bool :=
  stat_fails || bool_decide (is_Some (d !! marker)).
(** [now]: the time as it is written. *)
Definition persistDatabaseAgentRevocation (marker now : string) (status : Z) (a : attempt) (d : disk) : bool * disk :=
  replace_file marker ("revoked_at=" +:+ now +:+ str1 10 +:+ "http_status=" +:+ itoa status +:+ str1 10) a d.

(** What a start of an agent of databases needs besides the environment. *)
Record start := mk_start {
  stat_fails : bool;
  id_readable : bool;
  random : option (list Z);
  id_attempt : attempt;
  machine_uuid : bool -> string;      (* whether it is in a container *)
}.

Definition start_database (getenv : string -> string) (ToLower : string -> string) (cache : option string) (s : start) (d : disk)
    : res (string * string) * disk :=
  let kind := setting getenv ToLower "TELVYN_AGENT_KIND" "linux" in
  if negb (String.eqb (databaseEngine getenv ToLower) "postgres") then (Err "engine", d)
  else if negb (String.eqb kind "linux") && negb (String.eqb kind "docker") then (Err "kind", d)
  else if databaseAgentRevoked (databaseRevocationMarkerPath getenv cache) (stat_fails s) d then (Err "revoked", d)
  else
    let '(id, d) := databaseAgentID (databaseAgentIDPath getenv) (id_readable s) (random s) (id_attempt s) d in
    match id with
    | Err e => (Err e, d)
    | Ok id =>
        let machine := machine_uuid s (String.eqb kind "docker") in
        if String.eqb machine "" then (Err "machine", d) else (Ok (id, machine), d)
    end.

(** ** Registration *)

Definition next_backoff (backoff : Z) : Z :=
  if backoff <? 30 * second then Z.min (i64 (backoff * 2)) (30 * second) else backoff.

(** What [onRegistered] gets, and the pauses before; the answers are those of [register], in order,
    up to the end of the process. *)
Fixpoint registration (backoff : Z) (answers : list (res (string * string))) : option (string * string) * list Z :=
  match answers with
  | [] => (None, [])
  | Ok (collectorID, tenantID) :: answers' =>
      if negb (String.eqb collectorID "") then (Some (collectorID, tenantID), [])
      else let '(r, ds) := registration (next_backoff backoff) answers' in (r, backoff :: ds)
  | Err _ :: answers' => let '(r, ds) := registration (next_backoff backoff) answers' in (r, backoff :: ds)
  end.

(** ** Services of a host *)

Record connection := mk_connection { Status : string; Pid : Z; Port : Z }.
(** What the system tells of a process that can be looked at. *)
Record process := mk_process { name : option string; cmdline : option string; percent : option f64; rss : option Z }.
Record host_service := mk_service {
  hs_process : string; hs_pid : Z; hs_cmdline : string; hs_cpu : f64; hs_mem : Z; hs_ports : list Z }.

Definition hostServicesEnabled (getenv : string -> string) (ToLower : string -> string) : bool :=
  negb (existsb (String.eqb (ToLower (trim_space (getenv "TELVYN_HOST_SERVICES")))) ["0"; "false"; "no"; "off"]).

(** Of a value that is not negative. *)
Definition round1 (v : f64) : f64 := fdiv (f_of_Z (f_to_u64 (fadd (fmul v (f_of_Z 10)) (f_lit 1 (-1))))) (f_of_Z 10).

Definition add_connection (m : gmap Z (gset Z)) (c : connection) : gmap Z (gset Z) :=
  if negb (String.eqb (Status c) "LISTEN") || (Pid c <=? 0) || (Port c =? 0) then m
  else <[Pid c := {[ Port c ]} ∪ default ∅ (m !! Pid c)]> m.

Section services.
Variable enum : gmap Z (gset Z) -> list (Z * gset Z).
Variable sort_ints : gset Z -> list Z.
(** What is told of a process that is kept from the round before, or else is looked up. *)
Variable look : bool -> Z -> option process.

Definition service_of (kept : gset Z) (e : Z * gset Z) : option host_service :=
  p ← look (bool_decide (e.1 ∈ kept)) e.1;
  n ← name p;
  if String.eqb (trim_space n) "" then None
  else Some (mk_service n e.1 (str_take 500 (default "" (cmdline p))) (from_option round1 f64_zero (percent p))
               (default 0 (rss p)) (sort_ints e.2)).

(** The services, and the processes that are kept for the next round; none when connections cannot be
    listed. *)
Definition collect (conns : option (list connection)) (kept : gset Z) : option (list host_service) * gset Z :=
  match conns with
  | None => (None, kept)
  | Some conns =>
      let services := omap (service_of kept) (enum (foldl add_connection ∅ conns)) in
      (Some services, list_to_set (hs_pid <$> services))
  end.
End services.
End Collector.

(** * What the process of the collector promises

    An agent of databases keeps its identity from start to start, whatever goes wrong while it is
    written, and never starts again once its revocation is on disk. *)

Module CollectorProps.
Import Collector.
Import PromProps(trimmed, graphic, chars, graphic_trimmed, trim_left_with_graphic, encodings_first, encodings_last, str_rev_involutive, str_rev_cons).

(** ** Identities *)

Lemma uuid_byte_graphic i b : uuid_byte i b = true -> 33 <= b <= 126.
Proof. unfold uuid_byte, hex_char, is_digit. intros H. destruct (existsb _ _); lia. Qed.

Lemma uuid_graphic s i : uuid_from i s = true -> Forall graphic (chars s).
Proof.
  revert i. induction s as [|c s IH]; intros i H; [constructor|]. cbn in H. apply andb_prop in H as [Hc H].
  constructor; [|by eapply IH]. apply uuid_byte_graphic in Hc. unfold graphic. lia.
Qed.

Lemma isUUID_trimmed s : isUUID s = true -> trimmed s.
Proof.
  unfold isUUID. intros [Hl H]%andb_prop. apply graphic_trimmed; [by intros ->|by eapply uuid_graphic].
Qed.

Lemma str_rev_app_cons s c : str_rev (s +:+ String c "") = String c (str_rev s).
Proof.
  induction s as [|d s IH]; [done|]. rewrite str_app_cons, !str_rev_cons, IH. by rewrite str_app_cons.
Qed.

(** The line end after a text without spaces around it is trimmed. *)
Lemma trim_line s : trimmed s -> trim_space (s +:+ str1 10) = s.
Proof.
  intros (c & r & d & t & E & Hc & E' & Hd).
  assert (Hrev : exists u, str_rev s = String d u) by (rewrite E', str_rev_app_cons; by eexists).
  destruct Hrev as [u Hu].
  assert (Hl : trim_left_space (s +:+ str1 10) = s +:+ str1 10).
  { unfold trim_left_space. rewrite E, str_app_cons. apply trim_left_with_graphic; [apply encodings_first|done]. }
  unfold trim_space, trim_right_space. rewrite Hl. unfold str1. rewrite str_rev_app_cons, str_length_app. cbn [String.length].
  rewrite Nat.add_1_r. cbn [trim_left_with].
  assert (H1 : space_len (str_rev <$> space_encodings) (String (chr 10) (str_rev s)) = 1%nat) by (generalize (str_rev s); intros [|y x]; vm_compute; reflexivity).
  rewrite H1. cbn [str_drop]. rewrite Hu, trim_left_with_graphic by (apply encodings_last || done).
  rewrite <- Hu. apply str_rev_involutive.
Qed.

Lemma uuid_from_app s t i : uuid_from i (s +:+ t) = uuid_from i s && uuid_from (i + String.length s) t.
Proof.
  revert i. induction s as [|c s IH]; intros i; [cbn; by rewrite Nat.add_0_r|]. rewrite str_app_cons. cbn [uuid_from String.length].
  rewrite IH. replace (S i + String.length s)%nat with (i + S (String.length s))%nat by lia. by rewrite andb_assoc.
Qed.

Lemma uuid_from_hex s i : Forall (fun z => OtlpProps.hex_digit z = true) (bytes_of s) ->
  (forall j, (i <= j < i + String.length s)%nat -> j ∉ [8; 13; 18; 23]%nat) -> uuid_from i s = true.
Proof.
  revert i. induction s as [|c s IH]; intros i H Hj; [done|]. change (bytes_of (String c s)) with (byte_of c :: bytes_of s) in H.
  apply Forall_cons in H as [Hc H]. cbn [uuid_from String.length] in *. apply andb_true_intro. split.
  - unfold uuid_byte. destruct (existsb (Nat.eqb i) _) eqn:E.
    + exfalso. apply existsb_exists in E as (x & Hx & ->%Nat.eqb_eq). apply (Hj x); [lia|]. by apply list_elem_of_In.
    + unfold OtlpProps.hex_digit in Hc. unfold hex_char, is_digit. lia.
  - apply IH; [done|]. intros j Hin. apply Hj. lia.
Qed.

Lemma slice_length i j l : (i <= j)%nat -> (j <= length l)%nat -> String.length (slice i j l) = (2 * (j - i))%nat.
Proof.
  intros Hi Hj. unfold slice. rewrite OtlpProps.hex_length. f_equal.
  assert (H : forall k, String.length (of_bytes k) = length k).
  { intros k. unfold of_bytes. induction k as [|x k IH]; [done|]. cbn. by rewrite IH. }
  rewrite H, length_take, length_drop. lia.
Qed.
Lemma slice_hex i j l k n : (i <= j)%nat -> (j <= length l)%nat -> n = (2 * (j - i))%nat ->
  (forall x, (k <= x < k + n)%nat -> x ∉ [8; 13; 18; 23]%nat) -> uuid_from k (slice i j l) = true.
Proof. intros Hi Hj -> Hx. apply uuid_from_hex; [apply OtlpProps.hex_digits|]. by rewrite slice_length. Qed.

Ltac no_dash := let x := fresh in let H := fresh in intros x H; rewrite !elem_of_cons, elem_of_nil; lia.

(** Sixteen random bytes give an identity that is accepted when it is read again. *)
Lemma newUUID_is_uuid random : length random = 16%nat -> isUUID (newUUID random) = true.
Proof.
  intros H. unfold newUUID. set (b := alter _ 8%nat _). assert (Hb : length b = 16%nat) by (unfold b; by rewrite !length_alter).
  unfold isUUID. rewrite !str_length_app, !slice_length by lia. cbn [String.length Nat.sub Nat.mul Nat.add Nat.eqb andb].
  rewrite !uuid_from_app, !slice_length by lia. cbn [String.length Nat.sub Nat.mul Nat.add].
  repeat (apply andb_true_intro; split); try reflexivity; (eapply slice_hex; [lia|lia|reflexivity|no_dash]).
Qed.

(** ** The life of an agent of databases *)

Section life.
Variable getenv : string -> string.
Variable ToLower : string -> string.
Variable cache : option string.
Let id_path := databaseAgentIDPath getenv.
Let marker := databaseRevocationMarkerPath getenv cache.

(** The process starts, which may end at any step, or it is told that it was removed. *)
Inductive event := Start (s : start) | Removed (now : string) (status : Z) (a : attempt).

Definition next_disk (e : event) (d : disk) : disk :=
  match e with
  | Start s => (start_database getenv ToLower cache s d).2
  | Removed now status a => (persistDatabaseAgentRevocation marker now status a d).2
  end.
(** What the starts gave, with the identity of the machine where they began to collect. *)
Fixpoint life (events : list event) (d : disk) : list (res (string * string)) :=
  match events with
  | [] => []
  | e :: events => (match e with Start s => [(start_database getenv ToLower cache s d).1] | Removed _ _ _ => [] end)
                   ++ life events (next_disk e d)
  end.

(** The files are different ones, what is there can be read, and randomness is of sixteen bytes. *)
Definition distinct_files : Prop := NoDup [id_path; id_path +:+ ".tmp"; marker; marker +:+ ".tmp"].
Definition sound (e : event) : Prop :=
  match e with
  | Start s => id_readable s = true /\ (forall bytes, random s = Some bytes -> length bytes = 16%nat)
  | Removed _ _ _ => True
  end.
Definition complete (a : attempt) : Prop := mkdir_ok a = true /\ written a = true /\ renamed a = true.

(** The identity [id] is on disk. *)
Definition stored (id : string) (d : disk) : Prop := exists content, d !! id_path = Some content /\ trim_space content = id /\ isUUID id = true.

Lemma replace_file_keeps path content a d k :
  k <> path -> k <> path +:+ ".tmp" -> (replace_file path content a d).2 !! k = d !! k.
Proof.
  intros H1%not_eq_sym H2%not_eq_sym. unfold replace_file, disk in *.
  destruct (mkdir_ok a), (written a), (renamed a); cbn [negb snd]; try (destruct (partial a); cbn [snd]);
    rewrite ?lookup_insert_ne, ?lookup_delete_ne by done; done.
Qed.
Lemma replace_file_done path content a d : complete a -> (replace_file path content a d).2 !! path = Some content.
Proof. intros (H1 & H2 & H3). unfold replace_file. rewrite H1, H2, H3. apply lookup_insert_eq. Qed.
Lemma replace_file_ok path content a d d' : replace_file path content a d = (true, d') -> d' !! path = Some content.
Proof.
  unfold replace_file. destruct (mkdir_ok a), (written a), (renamed a); cbn [negb]; intros [= <-]; apply lookup_insert_eq.
Qed.

Hypothesis files : distinct_files.

Lemma file_names : id_path <> marker /\ id_path <> marker +:+ ".tmp" /\ marker <> id_path +:+ ".tmp" /\ id_path <> id_path +:+ ".tmp"
  /\ marker <> marker +:+ ".tmp".
Proof.
  pose proof files as H. unfold distinct_files in H. rewrite !NoDup_cons, !elem_of_cons in H. split_and!; intros E; pose proof (eq_sym E); tauto.
Qed.

Lemma stored_kept id s d : id_readable s = true -> stored id d ->
  databaseAgentID id_path (id_readable s) (random s) (id_attempt s) d = (Ok id, d).
Proof. intros Hr (content & Hc & Ht & Hu). unfold databaseAgentID. rewrite Hr, Hc. cbn [fmap option_fmap option_map]. by rewrite Ht, Hu. Qed.

Lemma id_stored s d id d' : sound (Start s) ->
  databaseAgentID id_path (id_readable s) (random s) (id_attempt s) d = (Ok id, d') -> stored id d'.
Proof.
  intros [Hr Hb]. unfold databaseAgentID. rewrite Hr.
  assert (Hnew : match random s with
    | Some bytes => let '(ok, d) := replace_file id_path (newUUID bytes +:+ str1 10) (id_attempt s) d in
                    (if ok then Ok (newUUID bytes) else Err "write", d)
    | None => (Err "rand", d) end = (Ok id, d') -> stored id d').
  { destruct (random s) as [bytes|]; [|done]. specialize (Hb bytes eq_refl).
    destruct (replace_file _ _ _ d) as [ok d2] eqn:Hf. destruct ok; [|done]. intros [= <- <-].
    apply replace_file_ok in Hf. exists (newUUID bytes +:+ str1 10). split_and!; [done| |by apply newUUID_is_uuid].
    by apply trim_line, isUUID_trimmed, newUUID_is_uuid. }
  destruct (d !! id_path) as [content|] eqn:Hc; cbn [fmap option_fmap option_map]; [|done].
  destruct (isUUID (trim_space content)) eqn:Hu; [|done]. intros [= <- <-]. by exists content.
Qed.

Lemma start_id s d id machine : (start_database getenv ToLower cache s d).1 = Ok (id, machine) ->
  exists d', databaseAgentID id_path (id_readable s) (random s) (id_attempt s) d = (Ok id, d') /\
             (start_database getenv ToLower cache s d).2 = d'.
Proof.
  unfold start_database. repeat (case_match; [done|]). fold id_path.
  destruct (databaseAgentID id_path _ _ _ d) as [[id'|e] d']; [|done]. case_match; [done|]. intros [= -> _]. by exists d'.
Qed.

Lemma next_stored id e d : sound e -> stored id d -> stored id (next_disk e d).
Proof.
  pose proof file_names as (N1 & N2 & _). intros Hs Hd. destruct e as [s|now status a]; cbn [next_disk].
  - unfold start_database. repeat (case_match; [done|]). fold id_path. destruct Hs as [Hr _]. rewrite (stored_kept id) by done. by case_match.
  - destruct Hd as (content & Hc & H). exists content. split; [|done]. unfold persistDatabaseAgentRevocation. by rewrite replace_file_keeps.
Qed.

Lemma life_stored id events d : Forall sound events -> stored id d ->
  Forall (fun r => forall id' m, r = Ok (id', m) -> id' = id) (life events d).
Proof.
  intros Hs. revert d. induction Hs as [|e events He _ IH]; intros d Hd; [constructor|]. cbn [life]. apply Forall_app. split.
  - destruct e as [s|]; [|constructor]. constructor; [|constructor]. intros id' m (d' & H & _)%start_id.
    rewrite (stored_kept id) in H by (done || apply He). by injection H.
  - apply IH. by apply next_stored.
Qed.

Lemma life_same_id events d i j id m id' m' : Forall sound events -> (i <= j)%nat ->
  life events d !! i = Some (Ok (id, m)) -> life events d !! j = Some (Ok (id', m')) -> id = id'.
Proof.
  intros Hs. revert d i j. induction Hs as [|e events He Hs IH]; intros d i j Hij Hi Hj; [done|].
  destruct e as [s|now status a]; cbn [life app] in Hi, Hj; [|by eapply IH].
  destruct i as [|i], j as [|j]; [by rewrite Hi in Hj; injection Hj| |lia|].
  - injection Hi as Hi. apply start_id in Hi as (d' & Hid & Hd'). apply id_stored in Hid; [|done].
    pose proof (life_stored id events (next_disk (Start s) d) Hs) as Hl. cbn [next_disk] in Hl. rewrite Hd' in Hl. specialize (Hl Hid).
    cbn in Hj. rewrite Hd' in Hj. rewrite Forall_lookup in Hl. symmetry. by eapply Hl.
  - cbn in Hi, Hj. eapply IH; [|exact Hi|exact Hj]. lia.
Qed.

Lemma life_revoked events d : is_Some (d !! marker) -> Forall (fun r => is_ok r = false) (life events d).
Proof.
  pose proof file_names as (N1 & N2 & N3 & N4 & N5). revert d. induction events as [|e events IH]; intros d Hd; [constructor|].
  assert (Hstart : forall s, exists e, start_database getenv ToLower cache s d = (Err e, d)).
  { intros s. unfold start_database. repeat (case_match; [by eexists|]). exfalso.
    match goal with H : databaseAgentRevoked _ _ _ = false |- _ => revert H end. fold marker. unfold databaseAgentRevoked.
    by rewrite bool_decide_true, orb_true_r by done. }
  cbn [life]. apply Forall_app. destruct e as [s|now status a].
  - destruct (Hstart s) as [e He]. cbn [next_disk]. rewrite He. split; [by repeat constructor|]. by apply IH.
  - split; [constructor|]. apply IH. apply not_eq_sym in N5. cbn [next_disk]. unfold persistDatabaseAgentRevocation, replace_file, disk in *.
    destruct (mkdir_ok a), (written a), (renamed a); cbn [negb snd]; try (destruct (partial a); cbn [snd]); try done;
      try (rewrite lookup_insert_ne by done; done); rewrite ?lookup_insert_eq; try (by eexists).
Qed.

Lemma life_app events events' d : exists d', life (events ++ events') d = life events d ++ life events' d'
  /\ d' = foldl (fun d e => next_disk e d) d events.
Proof.
  revert d. induction events as [|e events IH]; intros d; [by exists d|]. cbn [life app foldl].
  destruct (IH (next_disk e d)) as (d' & -> & ->). eexists. split; [|done]. by rewrite app_assoc.
Qed.

(** C32: Whatever starts fail or end on the way, every start that begins to collect does so under the
    same identity, as long as the file of the identity can be read; and once the removal of the agent
    is written to disk, no start begins to collect any more. *)
Theorem database_agent_life events d :
  Forall sound events ->
  (forall i j id m id' m', life events d !! i = Some (Ok (id, m)) -> life events d !! j = Some (Ok (id', m')) -> id = id') /\
  (forall before now status a after, events = before ++ Removed now status a :: after -> complete a ->
     exists rest, life events d = life before d ++ rest /\ Forall (fun r => is_ok r = false) rest).
Proof.
  intros Hs. split.
  - intros i j id m id' m' Hi Hj. destruct (decide (i <= j)%nat) as [H|H].
    + by eapply life_same_id.
    + symmetry. eapply (life_same_id _ _ j i); [done|lia|done|done].
  - intros before now status a after -> Ha. destruct (life_app before (Removed now status a :: after) d) as (d' & -> & _).
    eexists. split; [done|]. cbn [life app]. apply life_revoked. cbn [next_disk]. unfold persistDatabaseAgentRevocation.
    rewrite replace_file_done; [by eexists|done].
Qed.
End life.

(** ** Registration and settings *)

(** The collector begins with an identity that is not empty, once there is one, and never waits more
    than half a minute for it. *)
Lemma registration_gets backoff answers : 0 <= backoff <= 30 * second ->
  Forall (fun d => d <= 30 * second) (registration backoff answers).2 /\
  (forall c t, (registration backoff answers).1 = Some (c, t) -> c <> "" /\ Ok (c, t) ∈ answers) /\
  (forall c t, Ok (c, t) ∈ answers -> c <> "" -> is_Some (registration backoff answers).1).
Proof.
  revert backoff. induction answers as [|r answers IH]; intros backoff Hb.
  { split_and!; [constructor|done|]. intros c t H. by apply not_elem_of_nil in H. }
  assert (Hn : 0 <= next_backoff backoff <= 30 * second).
  { unfold next_backoff, second in *. destruct (Z.ltb_spec backoff (30 * 1000000000)); [|lia]. rewrite i64_small by (unfold in_i64; lia). lia. }
  destruct (IH _ Hn) as (H1 & H2 & H3). cbn [registration].
  assert (Hrest : forall r', (forall c t, r' = Ok (c, t) -> c = "") ->
    let p := (let '(x, ds) := registration (next_backoff backoff) answers in (x, backoff :: ds)) in
    Forall (fun d => d <= 30 * second) p.2 /\ (forall c t, p.1 = Some (c, t) -> c <> "" /\ Ok (c, t) ∈ r' :: answers) /\
    (forall c t, Ok (c, t) ∈ r' :: answers -> c <> "" -> is_Some p.1)).
  { intros r' Hr'. destruct (registration (next_backoff backoff) answers) as [x ds]. cbn [fst snd] in *. split_and!.
    - constructor; [lia|done].
    - intros c t Hx. apply H2 in Hx as [? ?]. by split; [|apply list_elem_of_further].
    - intros c t [E|Hin]%elem_of_cons Hc; [by apply eq_sym, Hr' in E|by eapply H3]. }
  destruct r as [[c0 t0]|e]; [|by apply (Hrest (Err e))].
  destruct (String.eqb_spec c0 "") as [->|Hc0]; cbn [negb]; [apply (Hrest (Ok ("", t0))); by intros c t [= <- _]|].
  split_and!; [constructor| |by eexists]. intros c t [= <- <-]. by split; [|apply list_elem_of_here].
Qed.

Lemma sample_rate_range ParseFloat raw r :
  parseAPMSampleRate ParseFloat raw = Ok r -> fle f64_zero r = true /\ fle r f64_one = true.
Proof.
  unfold parseAPMSampleRate. destruct (String.eqb _ _); [intros [= <-]; by vm_compute|]. destruct (ParseFloat _) as [v|]; [|done].
  destruct (fle f64_zero v) eqn:E1, (fle v f64_one) eqn:E2; cbn [andb]; intros [= <-]; by split.
Qed.
Lemma budget_range raw : 0 < configuredTaggerBudget raw <= 100000.
Proof. unfold configuredTaggerBudget. destruct (atoi raw); [case_match; lia|lia]. Qed.

(** An agent of databases starts nothing that receives or traces. *)
Lemma database_agent_receives_nothing getenv EqualFold : isDatabaseAgent getenv EqualFold = true ->
  let p := started getenv EqualFold in
  tracer p = false /\ receiver p = false /\ snmp_traps p = false /\ logs_exporter p = false /\ apm_statistics p = false /\
  host_registration p = false.
Proof. intros H p. unfold p, started. by rewrite H. Qed.

(** ** Examples *)

(** Jobs over SSH are announced when nothing is set, but they are only pulled when they are enabled. *)
Definition ex_env (key : string) : string := if String.eqb key "TELVYN_AGENT_KIND" then "linux" else "".
Example announced_and_not_pulled :
  "ssh" ∈ collectorCapabilities ex_env (fun s => s) String.eqb /\ pulls_jobs ex_env (fun s => s) String.eqb = false.
Proof. split; [apply (bool_decide_unpack _); by vm_compute|by vm_compute]. Qed.

(** An identity that cannot be read for a moment is replaced for good. *)
Definition ex_id : string := "00000000-0000-4000-8000-000000000000".
Definition ex_attempt : attempt := mk_attempt true true None true.
Example unreadable_identity_replaced :
  let '(id, d) := databaseAgentID "/s/agent-id" false (Some (replicate 16 255)) ex_attempt {[ "/s/agent-id" := ex_id ]} in
  id = Ok "ffffffff-ffff-4fff-bfff-ffffffffffff" /\ d !! "/s/agent-id" = Some ("ffffffff-ffff-4fff-bfff-ffffffffffff" +:+ str1 10).
Proof. vm_compute. by split. Qed.

Definition ex_start (random : Z) : start := mk_start false true (Some (replicate 16 random)) ex_attempt (fun _ => "m").
Definition ex_crash : start := mk_start false true (Some (replicate 16 7)) (mk_attempt true false (Some "070") true) (fun _ => "m").
Definition ex_events : list event :=
  [Start ex_crash; Start (ex_start 0); Start (ex_start 255); Removed "now" 410 ex_attempt; Start (ex_start 1)].

Lemma database_agent_life_witness :
  life ex_env (fun s => s) None ex_events ∅ = [Err "write"; Ok (ex_id, "m"); Ok (ex_id, "m"); Err "revoked"] /\
  Forall (fun r => is_ok r = false) (drop 3 (life ex_env (fun s => s) None ex_events ∅)).
Proof.
  assert (Hs : Forall sound ex_events).
  { repeat constructor; cbn; intros bytes [= <-]; reflexivity. }
  destruct (database_agent_life ex_env (fun s => s) None ltac:(unfold distinct_files; apply (bool_decide_unpack _); by vm_compute) ex_events ∅ Hs)
    as [_ Hr].
  destruct (Hr [Start ex_crash; Start (ex_start 0); Start (ex_start 255)] "now" 410 ex_attempt [Start (ex_start 1)] eq_refl) as (rest & E & Hrest).
  { by split_and!. }
  split; [vm_compute; reflexivity|]. rewrite E. exact Hrest.
Defined.
End CollectorProps.
