(* ===== verification/Catalog.v ===== *)
(** * Catalogs of databases (internal/checks: postgres_catalog.go, mysql_catalog.go,
    mssql_catalog.go, oracle_catalog.go, database_identity.go, sql_server.go, postgres_pool.go
    and the opening of pools in postgres_server.go)

    The structure of a database is read, without a row of its tables, and sent with a fingerprint
    by which the server sees that it did not change.  The checks of one database share a pool.

    The answers of databases, JSON and the hash are arguments. *)

From S2P Require Import Prelude GoStrings GoFloat Wire.
#[local] Open Scope Z_scope.

(** ** What is sent *)

Module Catalog.

Record DatabaseCatalogSchema := mk_schema { sc_Name : string; sc_OwnerName : string }.
Record DatabaseCatalogSequence := mk_sequence { sq_SchemaName : string; sq_SequenceName : string; sq_OwnerName : string }.
Record DatabaseCatalogTrigger := mk_trigger {
  tg_SchemaName : string; tg_TableName : string; tg_TriggerName : string; tg_FunctionName : string; tg_Enabled : string;
  tg_Definition : string }.
Record DatabaseCatalogPartition := mk_partition {
  pt_ParentSchema : string; pt_ParentTable : string; pt_ChildSchema : string; pt_ChildTable : string }.
Record DatabaseCatalogPolicy := mk_policy {
  pl_SchemaName : string; pl_TableName : string; pl_PolicyName : string; pl_Command : string; pl_Roles : list string;
  pl_UsingExpression : string; pl_CheckExpression : string }.
Record DatabaseCatalogEnum := mk_enum { en_SchemaName : string; en_TypeName : string; en_Values : list string }.
Record DatabaseCatalogFunction := mk_function {
  fn_SchemaName : string; fn_FunctionName : string; fn_OwnerName : string; fn_Language : string; fn_Arguments : string;
  fn_ResultType : string }.
Record DatabaseCatalogSetting := mk_setting {
  st_Name : string; st_Setting : string; st_Unit : string; st_Context : string; st_Source : string; st_Description : string }.
Record DatabaseCatalogExtension := mk_extension { ex_Name : string; ex_Version : string }.
Record DatabaseCatalogColumn := mk_column {
  cl_Name : string; cl_Ordinal : Z; cl_DataType : string; cl_Nullable : bool; cl_HasDefault : bool }.
Record DatabaseCatalogIndex := mk_index {
  ix_Name : string; ix_Definition : string; ix_Unique : bool; ix_Primary : bool;
  ix_Scans : Z; ix_TuplesRead : Z; ix_TuplesFetched : Z; ix_SizeBytes : Z }.
Record DatabaseCatalogConstraint := mk_constraint { co_Name : string; co_Type : string; co_Definition : string }.

(** What of a table changes as it is used. *)
Record table_usage := mk_usage {
  CacheHitRatio : option f64;
  TotalSizeBytes : Z; TableSizeBytes : Z; IndexSizeBytes : Z;
  EstimatedRows : Z; SeqScans : Z; IndexScans : Z; DeadRows : Z;
  LastVacuum : string; LastAutoVacuum : string; LastAnalyze : string; LastAutoAnalyze : string }.
Record DatabaseCatalogTable := mk_table {
  tb_SchemaName : string;
  tb_TableName : string;
  tb_TableKind : string;
  tb_OwnerName : string;
  tb_usage : table_usage;
  tb_Columns : list DatabaseCatalogColumn;
  tb_Indexes : list DatabaseCatalogIndex;
  tb_Constraints : list DatabaseCatalogConstraint }.

Record DatabaseCatalog := mk_catalog {
  Engine : string;
  InstallationID : string;
  DatabaseID : string;
  DBServer : string;
  DBName : string;
  ServerVersion : string;
  DatabaseSizeBytes : Z;
  Fingerprint : string;
  Truncated : bool;
  FunctionsTruncated : bool;
  Tables : list DatabaseCatalogTable;
  Functions : list DatabaseCatalogFunction;
  Settings : list DatabaseCatalogSetting;
  Extensions : list DatabaseCatalogExtension;
  Schemas : list DatabaseCatalogSchema;
  Sequences : list DatabaseCatalogSequence;
  Triggers : list DatabaseCatalogTrigger;
  Partitions : list DatabaseCatalogPartition;
  Policies : list DatabaseCatalogPolicy;
  Enums : list DatabaseCatalogEnum }.

(** ** The fingerprint *)

(** The text that is written for a value: numbers, truth values and lists of strings as [Fprint] has them. *)
Definition fmt_bool (b : bool) : string := if b then "true" else "false".
Definition fmt_strings (l : list string) : string := "[" +:+ join " " l +:+ "]".
Definition field_end : string := str1 31.
Definition row_end : string := str1 30.
Definition write (values : list string) : string := foldr (fun v s => v +:+ field_end +:+ s) row_end values.

Definition column_row (c : DatabaseCatalogColumn) : list string :=
  ["column"; cl_Name c; itoa (cl_Ordinal c); cl_DataType c; fmt_bool (cl_Nullable c); fmt_bool (cl_HasDefault c)].
Definition index_row (i : DatabaseCatalogIndex) : list string :=
  ["index"; ix_Name i; ix_Definition i; fmt_bool (ix_Unique i); fmt_bool (ix_Primary i)].
Definition constraint_row (c : DatabaseCatalogConstraint) : list string := ["constraint"; co_Name c; co_Type c; co_Definition c].
Definition table_row (t : DatabaseCatalogTable) : list string :=
  ["table"; tb_SchemaName t; tb_TableName t; tb_TableKind t; tb_OwnerName t].
Definition table_rows (t : DatabaseCatalogTable) : list (list string) :=
  table_row t :: (column_row <$> tb_Columns t) ++ (index_row <$> tb_Indexes t) ++ (constraint_row <$> tb_Constraints t).
Definition function_row (f : DatabaseCatalogFunction) : list string :=
  ["function"; fn_SchemaName f; fn_FunctionName f; fn_OwnerName f; fn_Language f; fn_Arguments f; fn_ResultType f].
Definition setting_row (s : DatabaseCatalogSetting) : list string :=
  ["setting"; st_Name s; st_Setting s; st_Unit s; st_Context s; st_Source s].
Definition extension_row (e : DatabaseCatalogExtension) : list string := ["extension"; ex_Name e; ex_Version e].
Definition schema_row (s : DatabaseCatalogSchema) : list string := ["schema"; sc_Name s; sc_OwnerName s].
Definition sequence_row (s : DatabaseCatalogSequence) : list string := ["sequence"; sq_SchemaName s; sq_SequenceName s; sq_OwnerName s].
Definition trigger_row (t : DatabaseCatalogTrigger) : list string :=
  ["trigger"; tg_SchemaName t; tg_TableName t; tg_TriggerName t; tg_FunctionName t; tg_Enabled t; tg_Definition t].
Definition partition_row (p : DatabaseCatalogPartition) : list string :=
  ["partition"; pt_ParentSchema p; pt_ParentTable p; pt_ChildSchema p; pt_ChildTable p].
Definition policy_row (p : DatabaseCatalogPolicy) : list string :=
  ["policy"; pl_SchemaName p; pl_TableName p; pl_PolicyName p; pl_Command p; fmt_strings (pl_Roles p); pl_UsingExpression p;
   pl_CheckExpression p].
Definition enum_row (e : DatabaseCatalogEnum) : list string := ["enum"; en_SchemaName e; en_TypeName e; fmt_strings (en_Values e)].

Definition rows_of (c : DatabaseCatalog) : list (list string) :=
  (Tables c ≫= table_rows) ++ (function_row <$> Functions c) ++ (setting_row <$> Settings c) ++ (extension_row <$> Extensions c)
  ++ (schema_row <$> Schemas c) ++ (sequence_row <$> Sequences c) ++ (trigger_row <$> Triggers c)
  ++ (partition_row <$> Partitions c) ++ (policy_row <$> Policies c) ++ (enum_row <$> Enums c).
Definition hashed (c : DatabaseCatalog) : string := foldr (fun r s => write r +:+ s) "" (rows_of c).
(** [sum]: the hexadecimal hash. *)
Definition structuralCatalogFingerprint (sum : string -> string) (c : DatabaseCatalog) : string := sum (hashed c).

(** ** Identities *)

Definition firstDatabaseIdentity (values : tagmap) (keys : list string) : string :=
  default "" (head (List.filter (fun v => negb (String.eqb v "")) ((fun key => trim_space (tag key values)) <$> keys))).
Definition databaseIdentity (params tags : tagmap) : string * string :=
  let installationID := firstDatabaseIdentity tags ["installation_id"] in
  let databaseID := firstDatabaseIdentity tags ["database_id"; "db_monitor_id"] in
  (if String.eqb installationID "" then firstDatabaseIdentity params ["installation_id"] else installationID,
   if String.eqb databaseID "" then firstDatabaseIdentity params ["database_id"; "db_monitor_id"] else databaseID).
Definition normalizeDatabaseMetricTags (params tags : tagmap) : tagmap :=
  let '(installationID, databaseID) := databaseIdentity params tags in
  let tags := if String.eqb installationID "" then tags else <["installation_id" := installationID]> tags in
  if String.eqb databaseID "" then tags else <["database_id" := databaseID]> tags.

(** ** Construction of the checks *)

(** What is done with pools: one is opened for an address, and is closed. *)
Inductive pool_op := Opened (dsn : string) | Closed (dsn : string).
#[export] Instance pool_op_eq_dec : EqDecision pool_op.
Proof. solve_decision. Defined.

(** [openPostgresPool] and [openSQLDatabasePool]: whether a pool can be opened, and answers. *)
Definition open_pool (factory ping : string -> bool) (cfg : CheckConfig) : res unit * list pool_op :=
  let dsn := tag "dsn" (Params cfg) in
  if String.eqb dsn "" then (Err "param 'dsn' obrigatório", [])
  else if negb (factory dsn) then (Err "factory", [])
  else if negb (ping dsn) then (Err "unreachable", [Opened dsn; Closed dsn])
  else (Ok tt, [Opened dsn]).

Record database_check := mk_database_check {
  dc_id : string;
  dc_interval : Z;
  dc_hostID : string;
  dc_server : string;
  dc_database : string;
  dc_installationID : string;
  dc_databaseID : string;
  dc_tags : tagmap }.

Section construction.
Variable factory ping : string -> bool.

Definition newPostgresServerCheck (cfg : CheckConfig) : res database_check * list pool_op :=
  match open_pool factory ping cfg with
  | (Err e, ops) => (Err e, ops)
  | (Ok _, ops) =>
      (Ok (mk_database_check (if String.eqb (CheckId cfg) "" then "postgres.server-" +:+ CheckHostId cfg else CheckId cfg)
             (if Interval cfg <=? 0 then 60 * second else Interval cfg) (CheckHostId cfg) "" "" "" ""
             (normalizeDatabaseMetricTags (Params cfg) (StaticTags cfg))), ops)
  end.

Definition newPostgresCatalogCheck (cfg : CheckConfig) : res database_check * list pool_op :=
  match open_pool factory ping cfg with
  | (Err e, ops) => (Err e, ops)
  | (Ok _, ops) =>
      let tags := normalizeDatabaseMetricTags (Params cfg) (StaticTags cfg) in
      let '(installationID, databaseID) := databaseIdentity (Params cfg) tags in
      let server := trim_space (tag "db_server" tags) in
      if String.eqb server "" then (Err "db_server obrigatório", ops ++ [Closed (tag "dsn" (Params cfg))])
      else (Ok (mk_database_check (if String.eqb (CheckId cfg) "" then "postgres.catalog-" +:+ CheckHostId cfg else CheckId cfg)
                  (if Interval cfg <=? 0 then 5 * minute else Interval cfg) (CheckHostId cfg) server "" installationID databaseID tags), ops)
  end.

(** The catalogs of MySQL, SQL Server and Oracle. *)
Definition new_sql_catalog (cfg : CheckConfig) : res database_check * list pool_op :=
  let '(installationID, databaseID) := databaseIdentity (Params cfg) (StaticTags cfg) in
  if String.eqb installationID "" || String.eqb databaseID "" then (Err "installation_id e database_id obrigatórios", [])
  else match open_pool factory ping cfg with
       | (Err e, ops) => (Err e, ops)
       | (Ok _, ops) =>
           (Ok (mk_database_check (CheckId cfg) (if Interval cfg <=? 0 then 10 * minute else Interval cfg) (CheckHostId cfg)
                  (trim_space (tag "db_server" (StaticTags cfg))) (trim_space (tag "db_name" (StaticTags cfg)))
                  installationID databaseID (StaticTags cfg)), ops)
       end.
End construction.

(** ** Changes of a catalog *)

Definition set_identity (installationID databaseID server name : string) (c : DatabaseCatalog) : DatabaseCatalog :=
  mk_catalog (Engine c) installationID databaseID server name (ServerVersion c) (DatabaseSizeBytes c) (Fingerprint c) (Truncated c)
    (FunctionsTruncated c) (Tables c) (Functions c) (Settings c) (Extensions c) (Schemas c) (Sequences c) (Triggers c) (Partitions c)
    (Policies c) (Enums c).
Definition set_lists (truncated functions_truncated : bool) (tables : list DatabaseCatalogTable)
    (functions : list DatabaseCatalogFunction) (c : DatabaseCatalog) : DatabaseCatalog :=
  mk_catalog (Engine c) (InstallationID c) (DatabaseID c) (DBServer c) (DBName c) (ServerVersion c) (DatabaseSizeBytes c) (Fingerprint c)
    truncated functions_truncated tables functions (Settings c) (Extensions c) (Schemas c) (Sequences c) (Triggers c) (Partitions c)
    (Policies c) (Enums c).
Definition set_tables (tables : list DatabaseCatalogTable) (c : DatabaseCatalog) : DatabaseCatalog :=
  set_lists (Truncated c) (FunctionsTruncated c) tables (Functions c) c.
Definition truncate (c : DatabaseCatalog) : DatabaseCatalog := set_lists true (FunctionsTruncated c) (Tables c) (Functions c) c.
Definition set_schemas (size : Z) (schemas : list DatabaseCatalogSchema) (c : DatabaseCatalog) : DatabaseCatalog :=
  mk_catalog (Engine c) (InstallationID c) (DatabaseID c) (DBServer c) (DBName c) (ServerVersion c) size (Fingerprint c) (Truncated c)
    (FunctionsTruncated c) (Tables c) (Functions c) (Settings c) (Extensions c) schemas (Sequences c) (Triggers c) (Partitions c)
    (Policies c) (Enums c).
Definition set_fingerprint (sum : string -> string) (c : DatabaseCatalog) : DatabaseCatalog :=
  mk_catalog (Engine c) (InstallationID c) (DatabaseID c) (DBServer c) (DBName c) (ServerVersion c) (DatabaseSizeBytes c)
    (structuralCatalogFingerprint sum c) (Truncated c) (FunctionsTruncated c) (Tables c) (Functions c) (Settings c) (Extensions c)
    (Schemas c) (Sequences c) (Triggers c) (Partitions c) (Policies c) (Enums c).
Definition empty_catalog (engine : string) (c : database_check) (version : string) (schemas : list DatabaseCatalogSchema) : DatabaseCatalog :=
  mk_catalog engine (dc_installationID c) (dc_databaseID c) (dc_server c) (dc_database c) version 0 "" false false
    [] [] [] [] schemas [] [] [] [] [].

(** ** PostgreSQL *)

Definition postgresCatalogTableLimit : nat := Z.to_nat 10000.

(** [body]: the answer, none when the query failed; [cancelled]: whether the run was, meanwhile. *)
Definition postgres_RunCatalog (sum : string -> string) (Unmarshal : string -> option DatabaseCatalog)
    (body : option string) (cancelled : bool) (c : database_check) : res DatabaseCatalog :=
  match body with
  | None => Err "query"
  | Some body =>
      match Unmarshal body with
      | None => Err "resposta inválida"
      | Some catalog =>
          if cancelled then Err "cancelled"
          else
            let many {A} (l : list A) := (postgresCatalogTableLimit <? length l)%nat in
            let catalog := set_lists (Truncated catalog || many (Tables catalog)) (FunctionsTruncated catalog || many (Functions catalog))
                             (take postgresCatalogTableLimit (Tables catalog)) (take postgresCatalogTableLimit (Functions catalog)) catalog in
            let name := if String.eqb (DBName catalog) "" then trim_space (tag "db_name" (dc_tags c)) else DBName catalog in
            Ok (set_fingerprint sum (set_identity (dc_installationID c) (dc_databaseID c) (dc_server c) name catalog))
      end
  end.

(** ** MySQL, SQL Server and Oracle *)

(** What a query gives: rows, each none where it cannot be scanned, and whether the rest could be read;
    none when it fails. *)
Definition answer (A : Type) : Type := option (list (option A) * bool).

(** The loop over rows: a step says whether it goes on. *)
Fixpoint each {S A} (step : S -> A -> S * bool) (rows : list (option A)) (complete : bool) (s : S) : res S :=
  match rows with
  | [] => if complete then Ok s else Err "rows"
  | None :: _ => Err "scan"
  | Some r :: rows => match step s r with (s, true) => each step rows complete s | (s, false) => Ok s end
  end.
Definition query {S A} (step : S -> A -> S * bool) (a : answer A) (s : S) : res S :=
  match a with None => Err "query" | Some (rows, complete) => each step rows complete s end.

Record column_of := mk_column_of { of_table : string; column : DatabaseCatalogColumn }.
Record index_of := mk_index_of { on_table : string; index_name : string; index_unique : bool; index_primary : bool; index_column : string }.

Definition max_tables : nat := Z.to_nat 10000.
Definition max_rows : Z := 200000.
Definition max_per_table : nat := Z.to_nat 2000.
Definition no_usage (total table index rows : Z) : table_usage := mk_usage None total table index rows 0 0 0 "" "" "" "".

(** A table is added under its key. *)
Definition add_table (key : string) (t : DatabaseCatalogTable) (s : DatabaseCatalog * gmap string nat)
    : DatabaseCatalog * gmap string nat :=
  let '(c, byName) := s in (set_tables (Tables c ++ [t]) c, <[key := length (Tables c)]> byName).

Definition set_columns (columns : list DatabaseCatalogColumn) (t : DatabaseCatalogTable) : DatabaseCatalogTable :=
  mk_table (tb_SchemaName t) (tb_TableName t) (tb_TableKind t) (tb_OwnerName t) (tb_usage t) columns (tb_Indexes t) (tb_Constraints t).
Definition set_indexes (indexes : list DatabaseCatalogIndex) (t : DatabaseCatalogTable) : DatabaseCatalogTable :=
  mk_table (tb_SchemaName t) (tb_TableName t) (tb_TableKind t) (tb_OwnerName t) (tb_usage t) (tb_Columns t) indexes (tb_Constraints t).

(** The rows of columns, with their number. *)
Definition add_column (byName : gmap string nat) (s : DatabaseCatalog * Z) (r : column_of) : (DatabaseCatalog * Z) * bool :=
  let '(c, count) := s in
  let count := count + 1 in
  if max_rows <? count then ((truncate c, count), false)
  else match byName !! of_table r with
       | None => ((c, count), true)
       | Some i =>
           match Tables c !! i with
           | None => ((c, count), true)     (* never: names are those of tables *)
           | Some t =>
               if (length (tb_Columns t) <? max_per_table)%nat
               then ((set_tables (<[i := set_columns (tb_Columns t ++ [column r]) t]> (Tables c)) c, count), true)
               else ((truncate c, count), true)
           end
       end.

(** A row of an index is another column of the last index, when it has its name. *)
Definition add_index_column (r : index_of) (indexes : list DatabaseCatalogIndex) : option (list DatabaseCatalogIndex) :=
  let new := if (length indexes <? max_per_table)%nat
             then Some (indexes ++ [mk_index (index_name r) (index_column r) (index_unique r) (index_primary r) 0 0 0 0]) else None in
  match last indexes with
  | Some l =>
      if String.eqb (ix_Name l) (index_name r)
      then Some (take (pred (length indexes)) indexes ++
                 [mk_index (ix_Name l) (ix_Definition l +:+ ", " +:+ index_column r) (ix_Unique l) (ix_Primary l)
                    (ix_Scans l) (ix_TuplesRead l) (ix_TuplesFetched l) (ix_SizeBytes l)])
      else new
  | None => new
  end.
Definition add_index (byName : gmap string nat) (s : DatabaseCatalog * Z) (r : index_of) : (DatabaseCatalog * Z) * bool :=
  let '(c, count) := s in
  let count := count + 1 in
  if max_rows <? count then ((truncate c, count), false)
  else match byName !! on_table r with
       | None => ((c, count), true)
       | Some i =>
           match Tables c !! i with
           | None => ((c, count), true)     (* never *)
           | Some t =>
               match add_index_column r (tb_Indexes t) with
               | Some indexes => ((set_tables (<[i := set_indexes indexes t]> (Tables c)) c, count), true)
               | None => ((truncate c, count), true)
               end
           end
       end.

(** Columns and indexes of the tables that were read. *)
Definition rest_of_catalog (sum : string -> string) (columns : answer column_of) (indexes : answer index_of)
    (s : DatabaseCatalog * gmap string nat) : res DatabaseCatalog :=
  let '(c, byName) := s in
  s ← query (add_column byName) columns (c, 0);
  s ← query (add_index byName) indexes (s.1, 0);
  Ok (set_fingerprint sum s.1).

Record mysql_table := mk_mysql_table { my_schema : string; my_name : string; my_kind : string; my_data : Z; my_index : Z; my_rows : Z }.
Definition mysql_table_step (s : DatabaseCatalog * gmap string nat) (r : mysql_table) : (DatabaseCatalog * gmap string nat) * bool :=
  if (length (Tables s.1) =? max_tables)%nat then ((truncate s.1, s.2), false)
  else
    let '(c, byName) := add_table (my_name r)
      (mk_table (my_schema r) (my_name r) (my_kind r) "" (no_usage (i64 (my_data r + my_index r)) (my_data r) (my_index r) (my_rows r)) [] [] []) s in
    ((set_schemas (i64 (DatabaseSizeBytes c + i64 (my_data r + my_index r))) (Schemas c) c, byName), true).
Record mysql_column := mk_mysql_column {
  myc_table : string; myc_name : string; myc_ordinal : Z; myc_type : string; myc_nullable : string; myc_default : bool }.
Definition mysql_column_of (r : mysql_column) : column_of :=
  mk_column_of (myc_table r) (mk_column (myc_name r) (myc_ordinal r) (myc_type r) (String.eqb (myc_nullable r) "YES") (myc_default r)).
Record mysql_index := mk_mysql_index { myi_table : string; myi_name : string; myi_nonUnique : Z; myi_column : string }.
Definition mysql_index_of (r : mysql_index) : index_of :=
  mk_index_of (myi_table r) (myi_name r) (myi_nonUnique r =? 0) (String.eqb (myi_name r) "PRIMARY") (myi_column r).
(** The rows of an answer, converted. *)
Definition mapped {A B} (f : A -> B) (a : answer A) : answer B := match a with Some (rows, complete) => Some (option_map f <$> rows, complete) | None => None end.

Definition mysql_RunCatalog (sum : string -> string) (version : option string) (tables : answer mysql_table)
    (columns : answer mysql_column) (indexes : answer mysql_index) (c : database_check) : res DatabaseCatalog :=
  match version with
  | None => Err "version"
  | Some version =>
      s ← query mysql_table_step tables (empty_catalog "mysql" c version [mk_schema (dc_database c) ""], ∅);
      rest_of_catalog sum (mapped mysql_column_of columns) (mapped mysql_index_of indexes) s
  end.

(** A schema that is new is listed. *)
Definition add_schema (name : string) (c : DatabaseCatalog) : DatabaseCatalog :=
  if bool_decide (name ∈ sc_Name <$> Schemas c) then c else set_schemas (DatabaseSizeBytes c) (Schemas c ++ [mk_schema name ""]) c.

Record mssql_table := mk_mssql_table { ms_schema : string; ms_name : string; ms_kind : string; ms_rows : Z; ms_total : Z; ms_table : Z }.
Definition mssql_table_step (s : DatabaseCatalog * gmap string nat) (r : mssql_table) : (DatabaseCatalog * gmap string nat) * bool :=
  if (length (Tables s.1) =? max_tables)%nat then ((truncate s.1, s.2), false)
  else
    let '(c, byName) := add_table (ms_schema r +:+ "." +:+ ms_name r)
      (mk_table (ms_schema r) (ms_name r) (ms_kind r) ""
         (no_usage (ms_total r) (ms_table r) (i64 (ms_total r - ms_table r)) (ms_rows r)) [] [] []) (add_schema (ms_schema r) s.1, s.2) in
    ((set_schemas (i64 (DatabaseSizeBytes c + ms_total r)) (Schemas c) c, byName), true).
Record mssql_column := mk_mssql_column { msc_schema : string; msc_table : string; msc_column : DatabaseCatalogColumn }.
Definition mssql_column_of (r : mssql_column) : column_of := mk_column_of (msc_schema r +:+ "." +:+ msc_table r) (msc_column r).
Record mssql_index := mk_mssql_index {
  msi_schema : string; msi_table : string; msi_name : string; msi_unique : bool; msi_primary : bool; msi_column : string }.
Definition mssql_index_of (r : mssql_index) : index_of :=
  mk_index_of (msi_schema r +:+ "." +:+ msi_table r) (msi_name r) (msi_unique r) (msi_primary r) (msi_column r).
Definition mssql_RunCatalog (sum : string -> string) (version : option string) (tables : answer mssql_table)
    (columns : answer mssql_column) (indexes : answer mssql_index) (c : database_check) : res DatabaseCatalog :=
  match version with
  | None => Err "version"
  | Some version =>
      s ← query mssql_table_step tables (empty_catalog "mssql" c version [], ∅);
      rest_of_catalog sum (mapped mssql_column_of columns) (mapped mssql_index_of indexes) s
  end.

Definition nul : string := str1 0.
Record oracle_table := mk_oracle_table { or_owner : string; or_name : string; or_estimated : Z }.
Definition oracle_table_step (s : DatabaseCatalog * gmap string nat) (r : oracle_table) : (DatabaseCatalog * gmap string nat) * bool :=
  if (length (Tables s.1) =? max_tables)%nat then ((truncate s.1, s.2), false)
  else
    let '(c, byName) := add_table (or_owner r +:+ nul +:+ or_name r)
      (mk_table (or_owner r) (or_name r) "TABLE" "" (no_usage 0 0 0 (or_estimated r)) [] [] []) s in
    ((add_schema (or_owner r) c, byName), true).
Record oracle_column := mk_oracle_column {
  orc_owner : string; orc_table : string; orc_name : string; orc_ordinal : Z; orc_type : string; orc_nullable : string; orc_default : Z }.
Definition oracle_column_of (r : oracle_column) : column_of :=
  mk_column_of (orc_owner r +:+ nul +:+ orc_table r)
    (mk_column (orc_name r) (orc_ordinal r) (orc_type r) (String.eqb (orc_nullable r) "Y") (orc_default r =? 1)).
Record oracle_index := mk_oracle_index {
  ori_owner : string; ori_table : string; ori_name : string; ori_uniqueness : string; ori_column : string }.
Definition oracle_index_of (r : oracle_index) : index_of :=
  mk_index_of (ori_owner r +:+ nul +:+ ori_table r) (ori_name r) (String.eqb (ori_uniqueness r) "UNIQUE") false (ori_column r).
Definition oracle_RunCatalog (sum : string -> string) (version : option string) (tables : answer oracle_table)
    (columns : answer oracle_column) (indexes : answer oracle_index) (c : database_check) : res DatabaseCatalog :=
  match version with
  | None => Err "version"
  | Some version =>
      s ← query oracle_table_step tables (empty_catalog "oracle" c version [], ∅);
      rest_of_catalog sum (mapped oracle_column_of columns) (mapped oracle_index_of indexes) s
  end.
End Catalog.

(** ** Pools that checks share *)

Module SharedPools.

(** A part of a pool: the pool, its address, and whether it was given back. *)
Record pgxPoolShare := mk_share { share_pool : nat; share_dsn : string; done : bool }.

(** The pools that are open by address, the number of parts of each pool, the parts that were given out,
    and the pools that were closed, in order. *)
Record pools := mk_pools {
  byDSN : gmap string nat;
  refs : gmap nat Z;
  shares : list pgxPoolShare;
  closed : list nat;
  next : nat }.
Definition no_pools : pools := mk_pools ∅ ∅ [] [] 0.

(** [opens]: whether a new pool can be made. *)
Definition sharedPgxPool (dsn : string) (opens : bool) (p : pools) : res nat * pools :=
  let give pool p := (Ok (length (shares p)),
    mk_pools (byDSN p) (<[pool := default 0 (refs p !! pool) + 1]> (refs p)) (shares p ++ [mk_share pool dsn false]) (closed p) (next p)) in
  match byDSN p !! dsn with
  | Some pool => give pool p
  | None =>
      if opens then give (next p) (mk_pools (<[dsn := next p]> (byDSN p)) (<[next p := 0]> (refs p)) (shares p) (closed p) (S (next p)))
      else (Err "pool", p)
  end.

Definition Close (share : nat) (p : pools) : pools :=
  match shares p !! share with
  | None => p
  | Some s =>
      if done s then p
      else
        let shares' := <[share := mk_share (share_pool s) (share_dsn s) true]> (shares p) in
        let n := default 0 (refs p !! share_pool s) - 1 in
        if n =? 0
        then mk_pools (delete (share_dsn s) (byDSN p)) (<[share_pool s := n]> (refs p)) shares' (closed p ++ [share_pool s]) (next p)
        else mk_pools (byDSN p) (<[share_pool s := n]> (refs p)) shares' (closed p) (next p)
  end.
End SharedPools.

(** ** What catalogs promise *)

Module CatalogProps.
Import Catalog.

(** The parts of a catalog that are its structure as the fingerprint sees it: sizes, statistics,
    identities and the descriptions of settings are left out, and the labels of an enum and the roles
    of a policy stand as one text, with spaces between them. *)
Definition index_shape (i : DatabaseCatalogIndex) := (ix_Name i, ix_Definition i, ix_Unique i, ix_Primary i).
Definition table_shape (t : DatabaseCatalogTable) :=
  (tb_SchemaName t, tb_TableName t, tb_TableKind t, tb_OwnerName t, tb_Columns t, index_shape <$> tb_Indexes t, tb_Constraints t).
Definition setting_shape (s : DatabaseCatalogSetting) := (st_Name s, st_Setting s, st_Unit s, st_Context s, st_Source s).
Definition policy_shape (p : DatabaseCatalogPolicy) :=
  (pl_SchemaName p, pl_TableName p, pl_PolicyName p, pl_Command p, join " " (pl_Roles p), pl_UsingExpression p, pl_CheckExpression p).
Definition enum_shape (e : DatabaseCatalogEnum) := (en_SchemaName e, en_TypeName e, join " " (en_Values e)).
Definition structure (c : DatabaseCatalog) :=
  (table_shape <$> Tables c, (Functions c, setting_shape <$> Settings c, Extensions c), (Schemas c, Sequences c, Triggers c),
   (Partitions c, policy_shape <$> Policies c, enum_shape <$> Enums c)).

(** The texts that are written have none of the two bytes that end fields and rows. *)
Definition clean (v : string) : Prop := contains field_end v = false /\ contains row_end v = false.
Definition separable (c : DatabaseCatalog) : Prop := Forall (Forall clean) (rows_of c).
(** The labels and roles of a catalog are words: not empty, and without spaces. *)
Definition words (l : list string) : Prop := Forall (fun v => v <> "" /\ contains " " v = false) l.
Definition in_words (c : DatabaseCatalog) : Prop :=
  Forall (fun p => words (pl_Roles p)) (Policies c) /\ Forall (fun e => words (en_Values e)) (Enums c).

(** *** Texts *)

Lemma sep_inj c a b s t : contains (String c "") a = false -> contains (String c "") b = false ->
  a +:+ String c s = b +:+ String c t -> a = b /\ s = t.
Proof.
  intros Ha Hb E. apply (f_equal (cut_at (String c ""))) in E. rewrite !cut_at_app_char in E by done. by injection E.
Qed.

Lemma write_cons v r s : write (v :: r) +:+ s = v +:+ String (chr 31) (write r +:+ s).
Proof. cbn [write foldr]. fold (write r). rewrite !str_app_assoc. reflexivity. Qed.

Lemma field_not_row_end v s t : clean v -> v +:+ String (chr 31) s <> row_end +:+ t.
Proof. intros [_ H] E. destruct v as [|d v]; [discriminate E|]. injection E as -> _. destruct v; by vm_compute in H. Qed.

Lemma write_inj r r' s t : Forall clean r -> Forall clean r' -> write r +:+ s = write r' +:+ t -> r = r' /\ s = t.
Proof.
  intros H. revert r'. induction H as [|v r Hv Hr IH]; intros r' H' E; destruct H' as [|v' r' Hv' Hr'].
  - split; [done|]. by injection E.
  - exfalso. rewrite write_cons in E. symmetry in E. by eapply field_not_row_end.
  - exfalso. rewrite write_cons in E. by eapply field_not_row_end.
  - rewrite !write_cons in E. apply sep_inj in E as [-> E]; [|apply Hv|apply Hv']. apply IH in E as [-> ->]; done.
Qed.

Lemma write_nonempty r s : write r +:+ s <> "".
Proof. destruct r as [|v r]; [done|]. rewrite write_cons. by destruct v. Qed.

Lemma rows_text_inj rows rows' : Forall (Forall clean) rows -> Forall (Forall clean) rows' ->
  foldr (fun r s => write r +:+ s) "" rows = foldr (fun r s => write r +:+ s) "" rows' -> rows = rows'.
Proof.
  intros H. revert rows'. induction H as [|r rows Hr _ IH]; intros rows' H' E; destruct H' as [|r' rows' Hr' H']; cbn [foldr] in E.
  - done.
  - by apply eq_sym, write_nonempty in E.
  - by apply write_nonempty in E.
  - apply write_inj in E as [-> E]; [|done..]. by rewrite (IH rows').
Qed.

Lemma fmt_bool_inj a b : fmt_bool a = fmt_bool b -> a = b.
Proof. by destruct a, b. Qed.

Lemma contains_app_char c a b : contains (String c "") (a +:+ b) = contains (String c "") a || contains (String c "") b.
Proof.
  unfold contains. induction a as [|d a IH]; [by rewrite str_app_nil_l|]. rewrite str_app_cons, !cut_at_char_cons.
  destruct (Ascii.ascii_dec c d); [done|]. destruct (cut_at _ (a +:+ b)) as [[]|], (cut_at _ a) as [[]|]; exact IH.
Qed.

Lemma contains_head c s : contains (String c "") (String c s) = true.
Proof. unfold contains. rewrite cut_at_char_cons. by destruct (Ascii.ascii_dec c c). Qed.

Lemma app_end_inj c a b : a +:+ String c "" = b +:+ String c "" -> a = b.
Proof.
  revert b. induction a as [|x a IH]; intros [|y b] E; [done| | |].
  - injection E as _ E. by destruct b.
  - injection E as _ E. by destruct a.
  - injection E as -> E. f_equal. by apply IH.
Qed.

Lemma join_words_inj l l' : words l -> words l' -> join " " l = join " " l' -> l = l'.
Proof.
  intros H. revert l'. induction H as [|v l [Hv Hs] _ IH]; intros l' H' E; destruct H' as [|v' l' [Hv' Hs'] H'].
  - done.
  - exfalso. cbn [join] in E. destruct l'; [by subst v'|]. by destruct v'.
  - exfalso. cbn [join] in E. destruct l; [by subst v|]. by destruct v.
  - cbn [join] in E. destruct l as [|w l], l' as [|w' l'].
    + by subst.
    + exfalso. subst v. change (" " +:+ join " " (w' :: l')) with (String (chr 32) (join " " (w' :: l'))) in Hs.
      rewrite contains_app_char in Hs. apply orb_false_iff in Hs as [_ Hs]. by rewrite (contains_head (chr 32)) in Hs.
    + exfalso. subst v'. change (" " +:+ join " " (w :: l)) with (String (chr 32) (join " " (w :: l))) in Hs'.
      rewrite contains_app_char in Hs'. apply orb_false_iff in Hs' as [_ Hs']. by rewrite (contains_head (chr 32)) in Hs'.
    + apply sep_inj in E as [-> E]; [|done..]. by rewrite (IH (w' :: l')).
Qed.
Lemma fmt_strings_inj l l' : join " " l +:+ "]" = join " " l' +:+ "]" -> join " " l = join " " l'.
Proof. apply app_end_inj. Qed.

(** *** Rows *)

(** Whether rows begin with one of a kind. *)
Definition starts (kind : string) (rows : list (list string)) : Prop := exists r rows', rows = (kind :: r) :: rows'.

Lemma starts_rows {A} (row : A -> list string) kind kind' l rest : (forall x, head (row x) = Some kind') ->
  starts kind ((row <$> l) ++ rest) -> kind = kind' \/ starts kind rest.
Proof.
  intros Hrow (r & rows' & E). destruct l as [|x l]; [right; by exists r, rows'|]. left. injection E as E _.
  specialize (Hrow x). rewrite E in Hrow. by injection Hrow.
Qed.

(** A group of rows of one kind, before rows of others, is told by the rows. *)
Lemma group_inj {A B} (row : A -> list string) (shape : A -> B) kind l l' rest rest' :
  (forall x, head (row x) = Some kind) -> (forall x y, x ∈ l -> y ∈ l' -> row x = row y -> shape x = shape y) ->
  ~ starts kind rest -> ~ starts kind rest' -> (row <$> l) ++ rest = (row <$> l') ++ rest' ->
  shape <$> l = shape <$> l' /\ rest = rest'.
Proof.
  intros Hk. assert (Hstart : forall x rows, starts kind (row x :: rows)).
  { intros x rows. specialize (Hk x). destruct (row x) as [|k r]; [done|]. injection Hk as ->. by exists r, rows. }
  revert l'. induction l as [|x l IH]; intros [|y l'] Hrow H H' E.
  - by split.
  - destruct H. cbn in E. rewrite E. apply Hstart.
  - destruct H'. cbn in E. rewrite <-E. apply Hstart.
  - cbn in E. injection E as Exy E.
    destruct (IH l') as [El Er]; [intros a b Ha Hb; apply Hrow; by apply list_elem_of_further|done..|].
    split; [|done]. cbn. rewrite El, (Hrow x y); [done|apply list_elem_of_here..|done].
Qed.

Lemma starts_tables kind l rest : starts kind ((l ≫= table_rows) ++ rest) -> kind = "table" \/ starts kind rest.
Proof. intros (r & rows' & E). destruct l as [|t l]; [right; by exists r, rows'|]. left. by injection E. Qed.

(** Goes over the groups of which the first is not of the kind. *)
Ltac no_start :=
  let H := fresh in intros H;
  repeat first [ apply starts_tables in H as [H|H]; [discriminate H|]
               | eapply starts_rows in H; [|intros; reflexivity]; destruct H as [H|H]; [discriminate H|] ];
  try (by destruct H as (? & ? & H); discriminate H).

Lemma tables_inj l l' rest rest' : Forall (fun kind => ~ starts kind rest /\ ~ starts kind rest') ["table"; "column"; "index"; "constraint"] ->
  (l ≫= table_rows) ++ rest = (l' ≫= table_rows) ++ rest' -> table_shape <$> l = table_shape <$> l' /\ rest = rest'.
Proof.
  rewrite !Forall_cons. intros ((Ht & Ht') & (Hc & Hc') & (Hi & Hi') & (Hk & Hk') & _). revert l'.
  induction l as [|t l IH]; intros [|t' l'] E.
  - by split.
  - destruct Ht. cbn in E. rewrite E. by eexists _, _.
  - destruct Ht'. cbn in E. rewrite <-E. by eexists _, _.
  - cbn [mbind list_bind table_rows] in E. rewrite <-!app_assoc in E. cbn [app] in E.
    injection E as E1 E2 E3 E4 E. rewrite <-!app_assoc in E.
    eapply (group_inj _ id "column") in E as [Ec E]; [|done| |by no_start|by no_start].
    2:{ intros [] [] _ _ [= -> ->%(inj _) -> ->%fmt_bool_inj ->%fmt_bool_inj]. done. }
    eapply (group_inj _ index_shape "index") in E as [Ei E]; [|done| |by no_start|by no_start].
    2:{ intros [] [] _ _ [= -> -> Eu%fmt_bool_inj Ep%fmt_bool_inj]. unfold index_shape. cbn in *. by subst. }
    eapply (group_inj _ id "constraint") in E as [Ek E]; [|done| |by no_start|by no_start].
    2:{ by intros [] [] _ _ [= -> -> ->]. }
    apply IH in E as [El Er]. split; [|done]. rewrite !list_fmap_id in Ec. rewrite !list_fmap_id in Ek. cbn [fmap list_fmap]. rewrite El. f_equal.
    unfold table_shape. by rewrite E1, E2, E3, E4, Ec, Ei, Ek.
Qed.

Lemma rows_inj c c' : rows_of c = rows_of c' -> structure c = structure c'.
Proof.
  intros E. unfold rows_of in E.
  rewrite <-(app_nil_r (enum_row <$> Enums c)), <-(app_nil_r (enum_row <$> Enums c')) in E.
  apply tables_inj in E as [E1 E]; [|rewrite !Forall_cons; split_and!; try apply Forall_nil_2; by no_start].
  eapply (group_inj _ id "function") in E as [E2 E]; [|done|by intros [] [] _ _ [= -> -> -> -> -> ->]|by no_start..].
  eapply (group_inj _ setting_shape "setting") in E as [E3 E];
    [|done|by intros [] [] _ _ [= -> -> -> -> ->]|by no_start..].
  eapply (group_inj _ id "extension") in E as [E4 E]; [|done|by intros [] [] _ _ [= -> ->]|by no_start..].
  eapply (group_inj _ id "schema") in E as [E5 E]; [|done|by intros [] [] _ _ [= -> ->]|by no_start..].
  eapply (group_inj _ id "sequence") in E as [E6 E]; [|done|by intros [] [] _ _ [= -> -> ->]|by no_start..].
  eapply (group_inj _ id "trigger") in E as [E7 E]; [|done|by intros [] [] _ _ [= -> -> -> -> -> ->]|by no_start..].
  eapply (group_inj _ id "partition") in E as [E8 E]; [|done|by intros [] [] _ _ [= -> -> -> ->]|by no_start..].
  eapply (group_inj _ policy_shape "policy") in E as [E9 E]; [|done| |by no_start..].
  2:{ intros [] [] _ _ [= -> -> -> -> Er%fmt_strings_inj -> ->]. unfold policy_shape. cbn. by rewrite Er. }
  eapply (group_inj _ enum_shape "enum") in E as [E10 _]; [|done| |by no_start..].
  2:{ intros [] [] _ _ [= -> -> Er%fmt_strings_inj]. unfold enum_shape. cbn. by rewrite Er. }
  rewrite !list_fmap_id in E2. rewrite !list_fmap_id in E4. rewrite !list_fmap_id in E5. rewrite !list_fmap_id in E6. rewrite !list_fmap_id in E7.
  rewrite !list_fmap_id in E8. unfold structure. by rewrite E1, E2, E3, E4, E5, E6, E7, E8, E9, E10.
Qed.

Lemma structure_rows c c' : structure c = structure c' -> rows_of c = rows_of c'.
Proof.
  assert (Hmap : forall {A B} (shape : A -> B) (row : B -> list string) (l l' : list A),
    shape <$> l = shape <$> l' -> (fun x => row (shape x)) <$> l = (fun x => row (shape x)) <$> l').
  { intros A B shape row l l' E. change ((row ∘ shape) <$> l = (row ∘ shape) <$> l'). by rewrite !list_fmap_compose, E. }
  unfold structure. intros [= Et Ef Es Ex Esc Esq Etr Ept Epl Een]. unfold rows_of. rewrite Ef, Ex, Esc, Esq, Etr, Ept.
  assert (Hcat : forall {A} (l l' k k' : list A), l = l' -> k = k' -> l ++ k = l' ++ k') by (by intros A l l' k k' -> ->).
  repeat apply Hcat; try reflexivity.
  - clear - Et Hmap. revert Et. generalize (Tables c'). induction (Tables c) as [|t l IH]; intros [|t' l']; try done.
    cbn [fmap list_fmap]. intros [= E1 E2 E3 E4 E5 E6 E7 E%IH]. cbn [mbind list_bind]. rewrite E. f_equal. unfold table_rows, table_row.
    rewrite E1, E2, E3, E4, E5, E7. do 2 f_equal.
    f_equal. exact (Hmap _ _ index_shape (fun p => let '(n, d, u, p) := p in ["index"; n; d; fmt_bool u; fmt_bool p]) _ _ E6).
  - exact (Hmap _ _ setting_shape (fun p => let '(n, s, u, x, o) := p in ["setting"; n; s; u; x; o]) _ _ Es).
  - exact (Hmap _ _ policy_shape (fun p => let '(s, t, n, c, r, u, k) := p in ["policy"; s; t; n; c; "[" +:+ r +:+ "]"; u; k]) _ _ Epl).
  - exact (Hmap _ _ enum_shape (fun p => let '(s, t, v) := p in ["enum"; s; t; "[" +:+ v +:+ "]"]) _ _ Een).
Qed.

(** Labels and roles that are words are told by the text they stand as. *)
Lemma shapes_told {A B} (shape : A -> B) (ok : A -> Prop) l l' : (forall x y, ok x -> ok y -> shape x = shape y -> x = y) ->
  Forall ok l -> Forall ok l' -> shape <$> l = shape <$> l' -> l = l'.
Proof.
  intros Hinj H. revert l'. induction H as [|x l Hx _ IH]; intros l' H' E; destruct H' as [|y l' Hy H']; try done.
  cbn in E. injection E as E El. by rewrite (Hinj x y Hx Hy E), (IH l' H' El).
Qed.

(** C33: The fingerprint sees the structure, in which the labels of an enum and the roles of a policy
    stand as one text with spaces between them. Catalogs of the same structure have the same
    fingerprint, whatever their sizes, statistics and identities are. Catalogs of which no text has
    one of the two bytes (30 and 31) that end fields and rows have the same structure when their
    fingerprints are the same, unless the hash gives two texts the same sum. And where labels and
    roles are not empty and have no spaces, the structure has each of them. *)
Theorem fingerprint_is_structure sum c c' :
  (structure c = structure c' -> structuralCatalogFingerprint sum c = structuralCatalogFingerprint sum c') /\
  (separable c -> separable c' -> structuralCatalogFingerprint sum c = structuralCatalogFingerprint sum c' ->
   structure c = structure c' \/ (hashed c <> hashed c' /\ sum (hashed c) = sum (hashed c'))) /\
  (in_words c -> in_words c' -> structure c = structure c' -> Policies c = Policies c' /\ Enums c = Enums c').
Proof.
  split_and!.
  - intros E. unfold structuralCatalogFingerprint, hashed. f_equal. f_equal. by apply structure_rows.
  - intros Hc Hc' E. destruct (decide (hashed c = hashed c')) as [Eh|Hne]; [left|by right].
    by apply rows_inj, rows_text_inj.
  - intros [Hp He] [Hp' He'] [= _ _ _ _ _ _ _ _ Ep Ee]. split.
    + eapply (shapes_told policy_shape (fun p => words (pl_Roles p))); [|done..].
      intros [] [] H H' [= -> -> -> -> ->%join_words_inj -> ->]; done.
    + eapply (shapes_told enum_shape (fun e => words (en_Values e))); [|done..].
      intros [] [] H H' [= -> -> ->%join_words_inj]; done.
Qed.

(** *** The columns of tables *)

Lemma set_columns_same t : set_columns (tb_Columns t) t = t.
Proof. by destruct t. Qed.
Lemma take_full {A} n (l k k' : list A) : (n <= length l)%nat -> take n (l ++ k) = take n (l ++ k').
Proof. intros H. by rewrite !take_app_le. Qed.

(** The columns that table [i] gets of rows, when [n] rows were read before. *)
Definition columns_for (byName : gmap string nat) (i : nat) (n : Z) (rows : list column_of) : list DatabaseCatalogColumn :=
  column <$> filter (fun r => byName !! of_table r = Some i) (take (Z.to_nat (max_rows - n)) rows).

Lemma columns_for_cons byName i n r rows : n < max_rows ->
  columns_for byName i n (r :: rows) =
  (if decide (byName !! of_table r = Some i) then [column r] else []) ++ columns_for byName i (n + 1) rows.
Proof.
  intros H. unfold columns_for. replace (Z.to_nat (max_rows - n)) with (S (Z.to_nat (max_rows - (n + 1)))) by lia.
  cbn [take]. rewrite filter_cons. by destruct (decide _).
Qed.
Lemma columns_for_full byName i n rows : max_rows <= n -> columns_for byName i n rows = [].
Proof. intros H. unfold columns_for. by replace (Z.to_nat (max_rows - n)) with 0%nat by lia. Qed.

(** Each table gets, in their order, its columns among the first 200000 of all, up to 2000. *)
Lemma columns_of_tables byName rows c n c' n' : 0 <= n ->
  each (add_column byName) (Some <$> rows) true (c, n) = Ok (c', n') ->
  forall i t, Tables c !! i = Some t -> (length (tb_Columns t) <= max_per_table)%nat ->
  Tables c' !! i = Some (set_columns (take max_per_table (tb_Columns t ++ columns_for byName i n rows)) t).
Proof.
  revert c n. induction rows as [|r rows IH]; intros c n Hn E i t Ht Hl.
  { injection E as <- _. unfold columns_for. rewrite take_nil, filter_nil, app_nil_r, take_ge by done. by rewrite set_columns_same. }
  cbn [fmap list_fmap each add_column] in E.
  destruct (Z.ltb_spec max_rows (n + 1)) as [Hm|Hm].
  { injection E as <- _. rewrite columns_for_full, app_nil_r, take_ge by (done || lia). by rewrite set_columns_same. }
  rewrite columns_for_cons by lia.
  destruct (byName !! of_table r) as [j|] eqn:Ej; [|rewrite decide_False by done; by apply (IH c (n + 1)); [lia|..]].
  destruct (Tables c !! j) as [tj|] eqn:Etj.
  2:{ rewrite decide_False by (intros [= ->]; congruence). by apply (IH c (n + 1)); [lia|..]. }
  destruct (Nat.ltb_spec (length (tb_Columns tj)) max_per_table) as [Hlt|Hge].
  - destruct (decide (Some j = Some i)) as [[= ->]|Hne].
    + rewrite Ht in Etj. injection Etj as <-. rewrite app_assoc.
      rewrite (IH _ (n + 1) ltac:(lia) E i (set_columns (tb_Columns t ++ [column r]) t)); [by destruct t| |].
      * cbn. apply list_lookup_insert_eq. by eapply lookup_lt_Some.
      * cbn. rewrite length_app. cbn. lia.
    + apply (IH _ (n + 1) ltac:(lia) E i t); [|done]. cbn. rewrite list_lookup_insert_ne by congruence. done.
  - rewrite (IH _ (n + 1) ltac:(lia) E i t) by done.
    destruct (decide (Some j = Some i)) as [[= ->]|Hne]; [|done]. rewrite Ht in Etj. injection Etj as <-.
    do 2 f_equal. by apply take_full.
Qed.

(** *** Pools *)

(** The pools that are open after a construction. *)
Fixpoint still_open (ops : list pool_op) : list string :=
  match ops with
  | [] => []
  | Opened d :: ops => if bool_decide (Closed d ∈ ops) then still_open ops else d :: still_open ops
  | Closed _ :: ops => still_open ops
  end.

(** A check that is not constructed leaves no pool open; one that is has one. *)
Lemma construction_leaks_nothing factory ping cfg new :
  new ∈ [newPostgresServerCheck factory ping cfg; newPostgresCatalogCheck factory ping cfg; new_sql_catalog factory ping cfg] ->
  still_open new.2 = match new.1 with Ok _ => [tag "dsn" (Params cfg)] | Err _ => [] end.
Proof.
  set (d := tag "dsn" (Params cfg)).
  assert (Hopen : still_open [Opened d; Closed d] = []).
  { cbn [still_open]. by rewrite bool_decide_true by apply list_elem_of_here. }
  assert (Hpool : (exists e, open_pool factory ping cfg = (Err e, [])) \/ (exists e, open_pool factory ping cfg = (Err e, [Opened d; Closed d]))
                  \/ open_pool factory ping cfg = (Ok tt, [Opened d])).
  { unfold open_pool. fold d. destruct (String.eqb d ""); [left; by eexists|]. destruct (factory d); [|left; by eexists].
    destruct (ping d); [by right; right|right; left; by eexists]. }
  rewrite !elem_of_cons, elem_of_nil. intros [->|[->|[->|[]]]].
  - unfold newPostgresServerCheck. by destruct Hpool as [[e ->]|[[e ->]|H]]; [..|rewrite H].
  - unfold newPostgresCatalogCheck. destruct Hpool as [[e ->]|[[e ->]|H]]; [done..|rewrite H]. destruct (databaseIdentity _ _).
    by destruct (String.eqb _ "").
  - unfold new_sql_catalog. destruct (databaseIdentity _ _) as [a b]. destruct (String.eqb a "" || String.eqb b ""); [done|].
    by destruct Hpool as [[e ->]|[[e ->]|H]]; [..|rewrite H].
Qed.
End CatalogProps.

Module PoolProps.
Import SharedPools.

Inductive op := Get (dsn : string) (opens : bool) | GiveBack (share : nat).
Definition step (p : pools) (o : op) : pools :=
  match o with Get dsn opens => (sharedPgxPool dsn opens p).2 | GiveBack share => Close share p end.

(** Whether a part counts for a pool. *)
Definition used (pool : nat) (s : pgxPoolShare) : Z := if done s then 0 else if (share_pool s =? pool)%nat then 1 else 0.

Lemma sumZ_insert {A} (f : A -> Z) l i x y : l !! i = Some x -> sumZ f (<[i := y]> l) = sumZ f l - f x + f y.
Proof.
  revert i. induction l as [|a l IH]; intros i; [done|]. destruct i as [|i].
  - intros [= ->]. cbn. lia.
  - intros H. change (<[S i := y]> (a :: l)) with (a :: <[i := y]> l). cbn [sumZ foldr]. fold (sumZ f l).
    fold (sumZ f (<[i := y]> l)). rewrite (IH i H). lia.
Qed.

Lemma used_nonneg pool s : 0 <= used pool s.
Proof. unfold used. destruct (done s); [lia|]. destruct (_ =? _)%nat; lia. Qed.

Record sound (p : pools) : Prop := {
  counted : forall pool, default 0 (refs p !! pool) = sumZ (used pool) (shares p);
  current : forall s, s ∈ shares p -> done s = false -> byDSN p !! share_dsn s = Some (share_pool s);
  held : forall dsn pool, byDSN p !! dsn = Some pool ->
    (pool < next p)%nat /\ (pool ∉ closed p) /\ (exists s, s ∈ shares p /\ done s = false /\ share_pool s = pool);
  single : forall d d' pool, byDSN p !! d = Some pool -> byDSN p !! d' = Some pool -> d = d';
  old : forall pool, pool ∈ closed p -> (pool < next p)%nat;
  older : forall s, s ∈ shares p -> (share_pool s < next p)%nat;
  once : NoDup (closed p);
  open_held : forall pool, (pool < next p)%nat -> pool ∉ closed p -> exists dsn, byDSN p !! dsn = Some pool }.

Lemma sum_zero pool l : sumZ (used pool) l = 0 -> forall s, s ∈ l -> done s = false -> share_pool s <> pool.
Proof.
  induction l as [|x l IH]; intros H s Hs Hd E; [by apply not_elem_of_nil in Hs|]. cbn [sumZ foldr] in H. fold (sumZ (used pool) l) in H.
  pose proof (used_nonneg pool x). pose proof (sumZ_nonneg (used pool) l (used_nonneg pool)).
  apply elem_of_cons in Hs as [->|Hs]; [|by apply (IH ltac:(lia) s)].
  unfold used at 1 in H. rewrite Hd, E, Nat.eqb_refl in H. lia.
Qed.
Lemma sum_pos pool l : 0 < sumZ (used pool) l -> exists s, s ∈ l /\ done s = false /\ share_pool s = pool.
Proof.
  induction l as [|x l IH]; [cbn; lia|]. cbn [sumZ foldr]. fold (sumZ (used pool) l). intros H.
  unfold used at 1 in H. destruct (done x) eqn:Hd; [|destruct (Nat.eqb_spec (share_pool x) pool)].
  2:{ exists x. split; [apply list_elem_of_here|done]. }
  all: destruct (IH ltac:(lia)) as (s & Hs & H'); exists s; split; [by apply list_elem_of_further|done].
Qed.

Lemma sound_none : sound no_pools.
Proof.
  split; cbn; try done.
  - intros s H. by apply not_elem_of_nil in H.
  - intros pool H. by apply not_elem_of_nil in H.
  - intros s H. by apply not_elem_of_nil in H.
  - apply NoDup_nil_2.
  - lia.
Qed.

Lemma give_sound p dsn pool : sound p -> byDSN p !! dsn = Some pool ->
  sound (mk_pools (byDSN p) (<[pool := default 0 (refs p !! pool) + 1]> (refs p)) (shares p ++ [mk_share pool dsn false]) (closed p) (next p)).
Proof.
  intros [] Hd. destruct (held0 _ _ Hd) as (Hp & Hc & Hs). split; cbn [byDSN refs shares closed next]; try done.
  - intros q. rewrite sumZ_app. cbn [sumZ foldr]. unfold used at 2. cbn [done share_pool]. rewrite Z.add_0_r. destruct (Nat.eqb_spec pool q) as [->|Hq].
    + rewrite lookup_insert_eq. cbn. rewrite counted0. lia.
    + rewrite lookup_insert_ne by done. rewrite counted0. lia.
  - intros s [H|H%list_elem_of_singleton]%elem_of_app Hs'; [by apply current0|by subst s].
  - intros d q Hq. destruct (held0 _ _ Hq) as (? & ? & s & ? & ?). split_and!; [done..|]. exists s. split; [|done].
    apply elem_of_app. by left.
  - intros s [H|H%list_elem_of_singleton]%elem_of_app; [by apply older0|by subst s].
Qed.

Lemma get_sound p dsn opens : sound p -> sound (sharedPgxPool dsn opens p).2.
Proof.
  intros H. unfold sharedPgxPool. destruct (byDSN p !! dsn) as [pool|] eqn:Hd; [by apply (give_sound p dsn pool)|].
  destruct opens; [|done]. cbn [snd]. destruct H.
  assert (Hnew : sumZ (used (next p)) (shares p) = 0).
  { destruct (Z.eq_dec (sumZ (used (next p)) (shares p)) 0) as [E|E]; [done|].
    destruct (sum_pos (next p) (shares p)) as (s & Hs & _ & Es).
    - pose proof (sumZ_nonneg (used (next p)) (shares p) (used_nonneg _)). lia.
    - apply older0 in Hs. lia. }
  split; cbn [byDSN refs shares closed next].
  - intros q. rewrite lookup_insert_eq, insert_insert_eq, sumZ_app. cbn [sumZ foldr]. unfold used at 2. cbn [done share_pool]. rewrite Z.add_0_r. destruct (Nat.eqb_spec (next p) q) as [<-|Hq].
    + rewrite lookup_insert_eq, Hnew. cbn. lia.
    + rewrite lookup_insert_ne by done. rewrite counted0. lia.
  - intros s [H|H%list_elem_of_singleton]%elem_of_app Hs'; [|subst s; by rewrite lookup_insert_eq].
    rewrite lookup_insert_ne; [by apply current0|]. intros E. rewrite E, current0 in Hd by done. done.
  - intros d q. destruct (decide (d = dsn)) as [->|Hne].
    + rewrite lookup_insert_eq. intros [= <-]. split_and!; [lia|by intros H%old0; lia|]. 
      exists (mk_share (next p) dsn false). split; [|done]. apply elem_of_app. right. apply list_elem_of_here.
    + rewrite lookup_insert_ne by done. intros Hq. destruct (held0 _ _ Hq) as (? & ? & s & ? & ?). split_and!; [lia|done|].
      exists s. split; [|done]. apply elem_of_app. by left.
  - intros d d' q. destruct (decide (d = dsn)) as [->|H1], (decide (d' = dsn)) as [->|H2]; rewrite ?lookup_insert_eq, ?lookup_insert_ne by done.
    + done.
    + intros [= <-] Hq. apply held0 in Hq as [Hq _]. lia.
    + intros Hq [= <-]. apply held0 in Hq as [Hq _]. lia.
    + apply single0.
  - intros q Hq%old0. lia.
  - intros s [H%older0|H%list_elem_of_singleton]%elem_of_app; [lia|subst s; cbn; lia].
  - done.
  - intros q Hq Hc. destruct (decide (q = next p)) as [->|Hne]; [exists dsn; by rewrite lookup_insert_eq|].
    destruct (open_held0 q ltac:(lia) Hc) as [d Hd']. exists d. rewrite lookup_insert_ne; [done|]. intros ->. by rewrite Hd' in Hd.
Qed.

(** What giving a part back changes in the parts. *)
Section giving_back.
Variable p : pools.
Variable share : nat.
Variable s : pgxPoolShare.
Hypothesis H : sound p.
Hypothesis Hs : shares p !! share = Some s.
Hypothesis Hd : done s = false.
Let parts := <[share := mk_share (share_pool s) (share_dsn s) true]> (shares p).

Lemma part_current : byDSN p !! share_dsn s = Some (share_pool s).
Proof. apply (current p H); [|done]. by eapply list_elem_of_lookup_2. Qed.
Lemma part_kept t : t ∈ parts -> done t = false -> t ∈ shares p.
Proof.
  intros Ht Hdt. apply list_elem_of_lookup in Ht as [i Hi]. apply list_lookup_insert_Some in Hi as [(_ & <- & _)|(_ & Hi)]; [done|].
  by eapply list_elem_of_lookup_2.
Qed.
Lemma part_moved t : t ∈ shares p -> share_pool t <> share_pool s -> t ∈ parts.
Proof.
  intros [i Hi]%list_elem_of_lookup Hne. apply list_elem_of_lookup. exists i. unfold parts. rewrite list_lookup_insert_ne; [done|].
  intros ->. rewrite Hs in Hi. by injection Hi as ->.
Qed.
Lemma part_older t : t ∈ parts -> (share_pool t < next p)%nat.
Proof.
  intros Ht. apply list_elem_of_lookup in Ht as [i Hi]. apply list_lookup_insert_Some in Hi as [(_ & <- & _)|(_ & Hi)].
  - apply (older p H s). by eapply list_elem_of_lookup_2.
  - apply (older p H t). by eapply list_elem_of_lookup_2.
Qed.
Lemma part_count q : sumZ (used q) parts = default 0 (refs p !! q) - (if (share_pool s =? q)%nat then 1 else 0).
Proof. unfold parts. rewrite (sumZ_insert _ _ _ s), (counted p H) by done. unfold used at 2. rewrite Hd. cbn. lia. Qed.
Lemma part_refs q : default 0 (<[share_pool s := default 0 (refs p !! share_pool s) - 1]> (refs p) !! q) = sumZ (used q) parts.
Proof.
  rewrite part_count. destruct (Nat.eqb_spec (share_pool s) q) as [<-|Hne]; [rewrite lookup_insert_eq; cbn; lia|].
  rewrite lookup_insert_ne by done. lia.
Qed.

Lemma last_part_sound n : n = default 0 (refs p !! share_pool s) - 1 -> n = 0 ->
  sound (mk_pools (delete (share_dsn s) (byDSN p)) (<[share_pool s := n]> (refs p)) parts (closed p ++ [share_pool s]) (next p)).
Proof.
  intros -> Hz. pose proof part_current as Hcur. destruct (held p H _ _ Hcur) as (Hlt & Hnc & _).
  assert (Hnone : forall t, t ∈ parts -> done t = false -> share_pool t <> share_pool s).
  { apply sum_zero. rewrite part_count, Nat.eqb_refl. lia. }
  split; cbn [byDSN refs shares closed next].
  - apply part_refs.
  - intros t Ht Hdt. pose proof (current p H t (part_kept t Ht Hdt) Hdt) as Hc. rewrite lookup_delete_ne; [done|].
    intros E. rewrite <-E, Hcur in Hc. injection Hc as Hc. by apply (Hnone t).
  - intros d q [Hne Hq]%lookup_delete_Some. destruct (held p H _ _ Hq) as (Hlq & Hcq & t & Ht & Hdt & Htq).
    assert (Hqs : q <> share_pool s) by (intros ->; by apply Hne, (single p H _ _ (share_pool s))).
    split_and!; [done|by intros [?|?%list_elem_of_singleton]%elem_of_app|]. exists t. split; [|done]. apply part_moved; [done|by rewrite Htq].
  - intros d d' q [_ Hq]%lookup_delete_Some [_ Hq']%lookup_delete_Some. by eapply (single p H).
  - intros q [Hq|Hq%list_elem_of_singleton]%elem_of_app; [by apply (old p H)|by subst q].
  - apply part_older.
  - apply NoDup_app. split_and!; [apply (once p H)|intros q Hq Hq'%list_elem_of_singleton; by subst q|apply NoDup_singleton].
  - intros q Hlq Hnq. rewrite elem_of_app, list_elem_of_singleton in Hnq.
    destruct (open_held p H q Hlq) as [d Hq]; [tauto|]. exists d. rewrite lookup_delete_ne; [done|].
    intros <-. rewrite Hcur in Hq. injection Hq as Hq. apply Hnq. by right.
Qed.

Lemma part_sound n : n = default 0 (refs p !! share_pool s) - 1 -> n <> 0 ->
  sound (mk_pools (byDSN p) (<[share_pool s := n]> (refs p)) parts (closed p) (next p)).
Proof.
  intros -> Hz. split; cbn [byDSN refs shares closed next].
  - apply part_refs.
  - intros t Ht Hdt. apply (current p H t (part_kept t Ht Hdt) Hdt).
  - intros d q Hq. destruct (held p H _ _ Hq) as (Hlq & Hcq & t & Ht & Hdt & Htq). split_and!; [done..|].
    destruct (decide (q = share_pool s)) as [->|Hne].
    + apply sum_pos. pose proof (sumZ_nonneg (used (share_pool s)) parts (used_nonneg _)).
      rewrite part_count, Nat.eqb_refl in *. lia.
    + exists t. split; [|done]. apply part_moved; [done|by rewrite Htq].
  - apply (single p H).
  - apply (old p H).
  - apply part_older.
  - apply (once p H).
  - apply (open_held p H).
Qed.
End giving_back.

Lemma close_sound p share : sound p -> sound (Close share p).
Proof.
  intros H. unfold Close. destruct (shares p !! share) as [s|] eqn:Hs; [|done]. destruct (done s) eqn:Hd; [done|]. cbn zeta.
  destruct (Z.eqb_spec (default 0 (refs p !! share_pool s) - 1) 0) as [Hz|Hnz].
  - rewrite Hz. apply last_part_sound; done.
  - by apply part_sound.
Qed.

(** Whatever parts of pools checks get and give back, and however often: a part that was not given
    back is of a pool that is open, the parts of one database are of one pool, every pool that is open
    is of some part, and no pool is closed twice. *)
Theorem pools_shared ops :
  let p := foldl step no_pools ops in
  (forall s, s ∈ shares p -> done s = false -> share_pool s ∉ closed p) /\
  (forall s t, s ∈ shares p -> t ∈ shares p -> done s = false -> done t = false -> share_dsn s = share_dsn t -> share_pool s = share_pool t) /\
  (forall pool, (pool < next p)%nat -> pool ∉ closed p -> exists s, s ∈ shares p /\ done s = false /\ share_pool s = pool) /\
  NoDup (closed p).
Proof.
  intros p. assert (H : sound p).
  { unfold p. generalize sound_none. generalize no_pools. induction ops as [|o ops IH]; intros q Hq; [done|].
    apply IH. destruct o; [by apply get_sound|by apply close_sound]. }
  split_and!.
  - intros s Hs Hd. by apply (held p H (share_dsn s)), (current p H).
  - intros s t Hs Ht Hds Hdt E. apply (current p H s Hs) in Hds. apply (current p H t Ht) in Hdt. rewrite E, Hdt in Hds. by injection Hds.
  - intros pool Hp Hc. destruct (open_held p H pool Hp Hc) as [d Hpd]. by apply (held p H d).
  - apply (once p H).
Qed.
End PoolProps.

(** ** Examples *)

Module CatalogExamples.
Import Catalog CatalogProps.

Definition ex_check : database_check := mk_database_check "c" minute "h" "s" "d" "i" "1" ∅.
Definition ex_catalog (size rows : Z) (nullable : bool) (labels : list string) : DatabaseCatalog :=
  mk_catalog "" "i" "1" "s" "d" "16.2" size "" false false
    [mk_table "public" "orders" "table" "app" (no_usage size size 0 rows) [mk_column "id" 1 "bigint" nullable true]
       [mk_index "orders_pkey" "CREATE UNIQUE INDEX orders_pkey ON public.orders (id)" true true rows 0 0 0] []]
    [] [] [] [mk_schema "public" "app"] [] [] [] [] [mk_enum "public" "state" labels].

(** Labels with spaces are not told from several labels: the enum changes, the fingerprint does not. *)
Example labels_collide sum :
  structuralCatalogFingerprint sum (ex_catalog 0 0 false ["on hold"]) = structuralCatalogFingerprint sum (ex_catalog 0 0 false ["on"; "hold"]) /\
  Enums (ex_catalog 0 0 false ["on hold"]) <> Enums (ex_catalog 0 0 false ["on"; "hold"]).
Proof. by split; [reflexivity|]. Qed.

(** Only tables and functions say that a catalog was cut. *)
Lemma cut_by_tables_and_functions sum Unmarshal body c d d' :
  Unmarshal body = Some d -> postgres_RunCatalog sum Unmarshal (Some body) false c = Ok d' ->
  (length (Tables d) <= postgresCatalogTableLimit)%nat -> (length (Functions d) <= postgresCatalogTableLimit)%nat ->
  Truncated d' = Truncated d /\ FunctionsTruncated d' = FunctionsTruncated d /\ Sequences d' = Sequences d.
Proof.
  intros Hu H Ht Hf. unfold postgres_RunCatalog in H. rewrite Hu in H. cbn zeta beta iota in H.
  assert (E : forall n, (n <= postgresCatalogTableLimit)%nat -> (postgresCatalogTableLimit <? n)%nat = false).
  { intros n Hn. by apply Nat.ltb_ge. }
  rewrite (E _ Ht), (E _ Hf), !orb_false_r in H. by injection H as <-.
Qed.

(** A table and its schema are one key: columns reach a table of another schema. *)
Example columns_of_another_schema :
  (fun c => (fun t => (tb_SchemaName t, tb_TableName t, cl_Name <$> tb_Columns t)) <$> Tables c) <$>
    match mssql_RunCatalog (fun s => s) (Some "16")
      (Some ([Some (mk_mssql_table "a" "b.c" "USER_TABLE" 0 0 0); Some (mk_mssql_table "a.b" "c" "USER_TABLE" 0 0 0)], true))
      (Some ([Some (mk_mssql_column "a" "b.c" (mk_column "x" 1 "int" false false))], true)) (Some ([], true)) ex_check
    with Ok c => Some c | Err _ => None end = Some [("a", "b.c", []); ("a.b", "c", ["x"])].
Proof. vm_compute. reflexivity. Qed.

(** The row of an index that goes on is another column of it. *)
Example index_columns :
  (fun c => (fun t => (fun i => (ix_Name i, ix_Definition i)) <$> tb_Indexes t) <$> Tables c) <$>
    match mysql_RunCatalog (fun s => s) (Some "8.0") (Some ([Some (mk_mysql_table "shop" "orders" "BASE TABLE" 16384 0 3)], true))
      (Some ([], true))
      (Some ([Some (mk_mysql_index "orders" "PRIMARY" 0 "id"); Some (mk_mysql_index "orders" "by_day" 1 "day");
              Some (mk_mysql_index "orders" "by_day" 1 "state")], true)) ex_check
    with Ok c => Some c | Err _ => None end = Some [[("PRIMARY", "id"); ("by_day", "day, state")]].
Proof. vm_compute. reflexivity. Qed.

Lemma separable_example size rows nullable : separable (ex_catalog size rows nullable ["on"; "off"]).
Proof. unfold separable, rows_of, ex_catalog. cbn. destruct nullable; repeat constructor. Qed.
Lemma in_words_example size rows nullable : in_words (ex_catalog size rows nullable ["on"; "off"]).
Proof. split; repeat constructor; done. Qed.

Lemma fingerprint_is_structure_witness :
  structuralCatalogFingerprint (fun s => s) (ex_catalog 8192 5 false ["on"; "off"])
    = structuralCatalogFingerprint (fun s => s) (ex_catalog 16384 900 false ["on"; "off"]) /\
  structuralCatalogFingerprint (fun s => s) (ex_catalog 8192 5 false ["on"; "off"])
    <> structuralCatalogFingerprint (fun s => s) (ex_catalog 8192 5 true ["on"; "off"]) /\
  Enums (ex_catalog 8192 5 false ["on"; "off"]) = Enums (ex_catalog 16384 900 false ["on"; "off"]).
Proof.
  split_and!.
  - apply (fingerprint_is_structure (fun s => s) (ex_catalog 8192 5 false ["on"; "off"]) (ex_catalog 16384 900 false ["on"; "off"])). reflexivity.
  - intros E. apply (fingerprint_is_structure (fun s => s) _ _) in E; [|apply separable_example..].
    destruct E as [E|[Hne E]]; [discriminate E|by apply Hne].
  - apply (fingerprint_is_structure (fun s => s) (ex_catalog 8192 5 false ["on"; "off"]) (ex_catalog 16384 900 false ["on"; "off"]));
      [apply in_words_example..|reflexivity].
Defined.
End CatalogExamples.
