(* ===== verification/DatabaseChecks.v ===== *)
(** * Checks of PostgreSQL and Redis (internal/checks: postgres_capabilities.go,
    postgres_diagnostics.go, postgres_server.go, postgres_extended.go, postgres_objects.go,
    redis_server.go)

    What a server offers is read from its catalogs, and queries are built of the columns that are
    there, so that one agent reads servers of all versions.  Diagnostics are a picture of the
    activity of a database, part by part; the checks of servers give metrics.

    The answers of servers, JSON, number parsing, the file system and the order of maps are arguments. *)

From S2P Require Import Prelude GoStrings GoFloat Wire Catalog.
#[local] Open Scope Z_scope.

(** ** What a server offers *)

Module Capabilities.

(** The quote of identifiers. *)
Definition dq : string := str1 34.

Record postgresRelationCapabilities := mk_caps { qualifiedName : string; columns : gset string }.
Definition no_caps : postgresRelationCapabilities := mk_caps "" ∅.
Definition available (c : postgresRelationCapabilities) : bool := negb (String.eqb (qualifiedName c) "").
Definition hasColumn (c : postgresRelationCapabilities) (name : string) : bool := bool_decide (name ∈ columns c).
Definition postgresCapabilityColumnSeparator : string := str1 31.

Definition sqlPostgresExtensionRelationCapabilities : string :=
  "WITH extension_relation AS (
  SELECT c.oid,
         quote_ident(n.nspname) || '.' || quote_ident(c.relname) AS qualified_name
    FROM pg_extension e
    JOIN pg_namespace n ON n.oid = e.extnamespace
    JOIN pg_class c ON c.relnamespace = n.oid
    JOIN pg_depend dep ON dep.refclassid = 'pg_extension'::regclass
                      AND dep.refobjid = e.oid
                      AND dep.classid = 'pg_class'::regclass
                      AND dep.objid = c.oid
                      AND dep.deptype = 'e'
   WHERE e.extname = $1
     AND c.relname = $2
   LIMIT 1
)
SELECT COALESCE(max(r.qualified_name), ''),
       COALESCE(string_agg(
         CASE WHEN a.attnum > 0 AND NOT a.attisdropped THEN a.attname END,
         E'\x1f' ORDER BY a.attnum
       ), '')
  FROM extension_relation r
  LEFT JOIN pg_attribute a ON a.attrelid = r.oid".
Definition sqlPostgresRelationCapabilities : string :=
  "WITH relation AS (
  SELECT c.oid,
         quote_ident(n.nspname) || '.' || quote_ident(c.relname) AS qualified_name
    FROM pg_class c
    JOIN pg_namespace n ON n.oid = c.relnamespace
   WHERE n.nspname = $1 AND c.relname = $2
   LIMIT 1
)
SELECT COALESCE(max(r.qualified_name), ''),
       COALESCE(string_agg(
         CASE WHEN a.attnum > 0 AND NOT a.attisdropped THEN a.attname END,
         E'\x1f' ORDER BY a.attnum
       ), '')
  FROM relation r
  LEFT JOIN pg_attribute a ON a.attrelid = r.oid".
Definition sqlPostgresWALFunctions : string :=
  "SELECT
  COALESCE(max(CASE WHEN p.proname = 'pg_wal_lsn_diff' THEN p.proname END),
           max(CASE WHEN p.proname = 'pg_xlog_location_diff' THEN p.proname END), ''),
  COALESCE(max(CASE WHEN p.proname = 'pg_current_wal_lsn' THEN p.proname END),
           max(CASE WHEN p.proname = 'pg_current_xlog_location' THEN p.proname END), '')
 FROM pg_proc p
 JOIN pg_namespace n ON n.oid = p.pronamespace
 WHERE n.nspname = 'pg_catalog'
   AND p.proname IN ('pg_wal_lsn_diff', 'pg_xlog_location_diff',
                     'pg_current_wal_lsn', 'pg_current_xlog_location')".

Record postgresWALFunctions := mk_wal { difference : string; current : string }.
Definition no_functions : postgresWALFunctions := mk_wal "" "".

(** The answers to the three queries: an error, or the columns of the row. *)
Definition discoverPostgresWALFunctions (row : res (string * string)) : res postgresWALFunctions :=
  match row with Ok (d, c) => Ok (mk_wal d c) | Err e => Err ("descoberta de funções WAL: " +:+ e) end.
Definition columns_of_row (rawColumns : string) : gset string :=
  list_to_set (List.filter (fun c => negb (String.eqb c "")) (trim_space <$> split postgresCapabilityColumnSeparator rawColumns)).
Definition discoverPostgresRelationCapabilities (schemaName relationName : string) (row : res (string * string))
    : res postgresRelationCapabilities :=
  match row with
  | Ok (q, raw) => Ok (mk_caps (trim_space q) (columns_of_row raw))
  | Err e => Err ("descoberta de capacidades de " +:+ schemaName +:+ "." +:+ relationName +:+ ": " +:+ e)
  end.
Definition discoverPostgresExtensionRelationCapabilities (relationName : string) (row : res (string * string))
    : res postgresRelationCapabilities :=
  match row with
  | Ok (q, raw) => Ok (mk_caps (trim_space q) (columns_of_row raw))
  | Err e => Err ("descoberta de capacidades de " +:+ relationName +:+ ": " +:+ e)
  end.
End Capabilities.

(** ** Queries of diagnostics *)

Module Diagnostics.
Import Capabilities.

Definition sqlPostgresDiagnosticSessions : string :=
  "SELECT COALESCE(json_agg(s ORDER BY s.duration_seconds DESC), '[]'::json)::text
  FROM (
    SELECT pid::bigint AS pid,
           COALESCE(usename, '') AS " +:+ dq +:+ "user" +:+ dq +:+ ",
           COALESCE(application_name, '') AS application,
           COALESCE(client_addr::text, '') AS client,
           COALESCE(state, '') AS state,
           COALESCE(wait_event_type, '') AS wait_type,
           COALESCE(wait_event, '') AS wait_event,
           COALESCE(query_start::text, '') AS query_start,
           COALESCE(EXTRACT(EPOCH FROM now() - query_start), 0)::float8 AS duration_seconds
      FROM pg_stat_activity
     WHERE datname = current_database() AND pid <> pg_backend_pid()
     ORDER BY query_start NULLS LAST
     LIMIT 200
  ) s".
Definition sqlPostgresDiagnosticBlocking : string :=
  "SELECT COALESCE(json_agg(b), '[]'::json)::text
  FROM (
    SELECT blocked.pid::bigint AS blocked_pid,
           blocker.pid::bigint AS blocking_pid,
           COALESCE(blocked.usename, '') AS blocked_user,
           COALESCE(blocker.usename, '') AS blocking_user
      FROM pg_stat_activity blocked
      CROSS JOIN LATERAL unnest(pg_blocking_pids(blocked.pid)) AS lock_owner(blocking_pid)
      JOIN pg_stat_activity blocker ON blocker.pid = lock_owner.blocking_pid
     WHERE blocked.datname = current_database()
     ORDER BY blocked.query_start NULLS LAST
     LIMIT 200
  ) b".
Definition sqlPostgresDiagnosticWaits : string :=
  "SELECT COALESCE(json_agg(w ORDER BY w.count DESC), '[]'::json)::text
  FROM (
    SELECT COALESCE(wait_event_type, '') AS wait_type,
           COALESCE(wait_event, '') AS wait_event,
           COUNT(" +:+ "*)::bigint AS count
      FROM pg_stat_activity
     WHERE datname = current_database() AND wait_event_type IS NOT NULL
     GROUP BY wait_event_type, wait_event
     ORDER BY count DESC
     LIMIT 200
  ) w".
Definition sqlPostgresDiagnosticWraparound : string :=
  "SELECT json_build_object(
    'database_age', age(d.datfrozenxid)::bigint,
    'freeze_max_age', current_setting('autovacuum_freeze_max_age')::bigint,
    'oldest_table_age', COALESCE((SELECT max(age(c.relfrozenxid))::bigint FROM pg_class c WHERE c.relkind IN ('r','m')), 0),
    'oldest_table', COALESCE((SELECT quote_ident(n.nspname) || '.' || quote_ident(c.relname)
      FROM pg_class c JOIN pg_namespace n ON n.oid=c.relnamespace
     WHERE c.relkind IN ('r','m') AND n.nspname NOT IN ('pg_catalog','information_schema')
     ORDER BY age(c.relfrozenxid) DESC LIMIT 1), '')
  )::text
  FROM pg_database d WHERE d.datname=current_database()".
Definition sqlPostgresDiagnosticBloat : string :=
  "WITH largest AS (
  SELECT c.oid, n.nspname AS schema_name, c.relname AS table_name,
         pg_total_relation_size(c.oid)::bigint AS total_size_bytes
    FROM pg_class c
    JOIN pg_namespace n ON n.oid = c.relnamespace
   WHERE c.relkind IN ('r', 'm')
     AND n.nspname NOT IN ('pg_catalog', 'information_schema')
     AND n.nspname NOT LIKE 'pg_toast%'
   ORDER BY pg_total_relation_size(c.oid) DESC
   LIMIT 50
)
SELECT COALESCE(json_agg(b ORDER BY b.total_size_bytes DESC), '[]'::json)::text
  FROM (
    SELECT l.schema_name, l.table_name, l.total_size_bytes,
           stats.dead_tuple_len::bigint AS dead_bytes,
           stats.dead_tuple_percent::float8 AS dead_percent,
           stats.approx_free_space::bigint AS free_bytes,
           stats.approx_free_percent::float8 AS free_percent
      FROM largest l
      CROSS JOIN LATERAL pgstattuple_approx(l.oid) stats
  ) b".

Definition diagnosticColumn (caps : postgresRelationCapabilities) (column fallback : string) : string :=
  if hasColumn caps column then "r." +:+ column else fallback.
Definition diagnosticTextColumn (caps : postgresRelationCapabilities) (column : string) : string :=
  "COALESCE((" +:+ diagnosticColumn caps column "NULL" +:+ ")::text, '')".
Definition diagnosticLagColumn (caps : postgresRelationCapabilities) (column : string) : string :=
  if hasColumn caps column then "EXTRACT(EPOCH FROM r." +:+ column +:+ ")::float8" else "NULL::float8".

Definition postgresReplicationQuery (caps : postgresRelationCapabilities) : string :=
  let '(sent, write, flush, replay) :=
    if hasColumn caps "sent_lsn" then ("sent_lsn", "write_lsn", "flush_lsn", "replay_lsn")
    else ("sent_location", "write_location", "flush_location", "replay_location") in
  "SELECT COALESCE(json_agg(x ORDER BY x.identity), '[]'::json)::text FROM ("
  +:+ "SELECT COALESCE(r.application_name, '') AS identity, COALESCE(r.usename, '') AS " +:+ dq +:+ "user" +:+ dq +:+ ", "
  +:+ "COALESCE(r.client_addr::text, '') AS client, COALESCE(r.state, '') AS state, " +:+ "COALESCE(r.sync_state, '') AS mode, "
  +:+ diagnosticLagColumn caps "write_lag" +:+ " AS write_lag_seconds, " +:+ diagnosticLagColumn caps "flush_lag"
  +:+ " AS flush_lag_seconds, " +:+ diagnosticLagColumn caps "replay_lag" +:+ " AS replay_lag_seconds, "
  +:+ diagnosticTextColumn caps sent +:+ " AS sent_lsn, " +:+ diagnosticTextColumn caps write +:+ " AS write_lsn, "
  +:+ diagnosticTextColumn caps flush +:+ " AS flush_lsn, " +:+ diagnosticTextColumn caps replay +:+ " AS replay_lsn "
  +:+ "FROM " +:+ qualifiedName caps +:+ " r LIMIT 200) x".

Definition postgresReplicationSlotsQuery (caps : postgresRelationCapabilities) (walFunctions : postgresWALFunctions) : string :=
  let confirmed := diagnosticTextColumn caps "confirmed_flush_lsn" in
  let retained :=
    if hasColumn caps "restart_lsn" && negb (String.eqb (difference walFunctions) "") && negb (String.eqb (current walFunctions) "")
    then "GREATEST(pg_catalog." +:+ difference walFunctions +:+ "(pg_catalog." +:+ current walFunctions +:+ "(), r.restart_lsn), 0)::bigint"
    else "0" in
  "SELECT COALESCE(json_agg(x ORDER BY x.slot_name), '[]'::json)::text FROM ("
  +:+ "SELECT COALESCE(r.slot_name, '') AS slot_name, COALESCE(r.plugin, '') AS plugin, "
  +:+ "COALESCE(r.slot_type, '') AS slot_type, COALESCE(r.database, '') AS database, "
  +:+ "COALESCE(r.active, false) AS active, " +:+ diagnosticTextColumn caps "restart_lsn" +:+ " AS restart_lsn, " +:+ confirmed
  +:+ " AS confirmed_lsn, " +:+ retained +:+ " AS retained_bytes FROM " +:+ qualifiedName caps +:+ " r LIMIT 200) x".

Definition checkpoint_field (caps : postgresRelationCapabilities) (preferred legacy fallback : string) : string :=
  if hasColumn caps preferred then "COALESCE(r." +:+ preferred +:+ ", 0)"
  else if negb (String.eqb legacy "") && hasColumn caps legacy then "COALESCE(r." +:+ legacy +:+ ", 0)"
  else fallback.
Definition postgresCheckpointQuery (caps : postgresRelationCapabilities) : string :=
  let field := checkpoint_field caps in
  "SELECT json_build_object(" +:+ "'timed', " +:+ field "num_timed" "checkpoints_timed" "0" +:+ "::bigint, " +:+ "'requested', "
  +:+ field "num_requested" "checkpoints_req" "0" +:+ "::bigint, " +:+ "'write_time_ms', "
  +:+ field "write_time" "checkpoint_write_time" "0" +:+ "::float8, " +:+ "'sync_time_ms', "
  +:+ field "sync_time" "checkpoint_sync_time" "0" +:+ "::float8, " +:+ "'buffers_written', "
  +:+ field "buffers_written" "buffers_checkpoint" "0" +:+ "::bigint, " +:+ "'stats_reset', "
  +:+ diagnosticTextColumn caps "stats_reset" +:+ ")::text FROM " +:+ qualifiedName caps +:+ " r".

Definition postgresWALQuery (caps : postgresRelationCapabilities) : string :=
  "SELECT json_build_object(" +:+ "'records', " +:+ diagnosticColumn caps "wal_records" "0" +:+ "::bigint, "
  +:+ "'full_page_images', " +:+ diagnosticColumn caps "wal_fpi" "0" +:+ "::bigint, " +:+ "'bytes', "
  +:+ diagnosticColumn caps "wal_bytes" "0" +:+ "::numeric::bigint, " +:+ "'stats_reset', "
  +:+ diagnosticTextColumn caps "stats_reset" +:+ ")::text FROM " +:+ qualifiedName caps +:+ " r".

Definition postgresWALPositionQuery (functions : postgresWALFunctions) : string :=
  if String.eqb (difference functions) "" || String.eqb (current functions) "" then ""
  else
  "SELECT json_build_object(" +:+ "'bytes', GREATEST(pg_catalog." +:+ difference functions +:+ "(pg_catalog."
  +:+ current functions +:+ "(), '0/0'), 0)::numeric::bigint)::text".

Definition postgresArchiverQuery (caps : postgresRelationCapabilities) : string :=
  "SELECT json_build_object(" +:+ "'archived_count', " +:+ diagnosticColumn caps "archived_count" "0" +:+ "::bigint, "
  +:+ "'failed_count', " +:+ diagnosticColumn caps "failed_count" "0" +:+ "::bigint, " +:+ "'last_archived_wal', "
  +:+ diagnosticTextColumn caps "last_archived_wal" +:+ ", " +:+ "'last_archived_time', "
  +:+ diagnosticTextColumn caps "last_archived_time" +:+ ", " +:+ "'last_failed_wal', "
  +:+ diagnosticTextColumn caps "last_failed_wal" +:+ ", " +:+ "'last_failed_time', "
  +:+ diagnosticTextColumn caps "last_failed_time" +:+ ", " +:+ "'stats_reset', " +:+ diagnosticTextColumn caps "stats_reset"
  +:+ ")::text FROM " +:+ qualifiedName caps +:+ " r".

(** The columns of the progress: the first pair of which both are there. *)
Definition progress_pairs : list (string * string) :=
  [("heap_blks_scanned", "heap_blks_total"); ("blocks_done", "blocks_total"); ("sample_blks_scanned", "sample_blks_total")].
Definition progress_pair (caps : postgresRelationCapabilities) : option (string * string) :=
  head (List.filter (fun p => hasColumn caps p.1 && hasColumn caps p.2) progress_pairs).
Definition postgresProgressQuery (caps : postgresRelationCapabilities) (operation : string) : string :=
  let '(processed, total) :=
    match progress_pair caps with
    | Some (p, t) => ("COALESCE(r." +:+ p +:+ ",0)", "COALESCE(r." +:+ t +:+ ",0)")
    | None => ("0", "0")
    end in
  let phase := diagnosticTextColumn caps "phase" in
  let operationExpression :=
    if hasColumn caps "command" then "lower(replace(COALESCE(r.command, ''), ' ', '_'))" else "'" +:+ operation +:+ "'" in
  "SELECT COALESCE(json_agg(x), '[]'::json)::text FROM (" +:+ "SELECT " +:+ operationExpression
  +:+ " AS operation, COALESCE(n.nspname, '') AS schema_name, " +:+ "COALESCE(c.relname, '') AS table_name, " +:+ phase
  +:+ " AS phase, " +:+ processed +:+ "::bigint AS processed_blocks, " +:+ total +:+ "::bigint AS total_blocks, "
  +:+ "CASE WHEN " +:+ total +:+ " > 0 THEN (" +:+ processed +:+ "::float8 / " +:+ total
  +:+ "::float8) * 100 ELSE 0 END AS progress_percent " +:+ "FROM " +:+ qualifiedName caps
  +:+ " r LEFT JOIN pg_class c ON c.oid=r.relid LEFT JOIN pg_namespace n ON n.oid=c.relnamespace LIMIT 200) x".

(** ** A run of diagnostics *)

Record DatabaseSession := mk_session {
  se_Identity : string; se_PID : Z; se_User : string; se_Application : string; se_Client : string; se_State : string;
  se_WaitType : string; se_WaitEvent : string; se_QueryStart : string; se_DurationSeconds : f64 }.
Record DatabaseBlocking := mk_blocking { bl_BlockedPID : Z; bl_BlockingPID : Z; bl_BlockedUser : string; bl_BlockingUser : string }.
Record DatabaseWait := mk_wait { wt_WaitType : string; wt_WaitEvent : string; wt_Count : Z }.
Record DatabaseBloat := mk_bloat {
  bt_SchemaName : string; bt_TableName : string; bt_TotalSizeBytes : Z; bt_DeadBytes : Z; bt_DeadPercent : f64; bt_FreeBytes : Z;
  bt_FreePercent : f64 }.
Record DatabaseReplica := mk_replica {
  rp_Identity : string; rp_User : string; rp_Client : string; rp_State : string; rp_Mode : string;
  rp_WriteLagSeconds : option f64; rp_FlushLagSeconds : option f64; rp_ReplayLagSeconds : option f64;
  rp_SentLSN : string; rp_WriteLSN : string; rp_FlushLSN : string; rp_ReplayLSN : string }.
Record DatabaseReplicationSlot := mk_slot {
  sl_SlotName : string; sl_Plugin : string; sl_SlotType : string; sl_Database : string; sl_Active : bool; sl_RestartLSN : string;
  sl_ConfirmedLSN : string; sl_RetainedBytes : Z }.
Record DatabaseMaintenanceOperation := mk_operation {
  mo_Operation : string; mo_SchemaName : string; mo_TableName : string; mo_Phase : string; mo_ProcessedBlocks : Z;
  mo_TotalBlocks : Z; mo_ProgressPercent : f64 }.
Record DatabaseCheckpoints := mk_checkpoints {
  cp_Timed : Z; cp_Requested : Z; cp_WriteTimeMS : f64; cp_SyncTimeMS : f64; cp_BuffersWritten : Z; cp_StatsReset : string }.
Record DatabaseWraparound := mk_wraparound { wr_DatabaseAge : Z; wr_FreezeMaxAge : Z; wr_OldestTableAge : Z; wr_OldestTable : string }.

(** The counters of the write-ahead log, those of a sample of them, and those of the archiver. *)
Record wal_sample := mk_wal_sample { GeneratedBytes : Z; BytesPerSecond : f64; SampleSeconds : f64 }.
Record wal_archiver := mk_archiver {
  ArchivedCount : Z; FailedCount : Z; LastArchivedWAL : string; LastArchivedTime : string; LastFailedWAL : string; LastFailedTime : string }.
Record DatabaseWAL := mk_database_wal {
  Records : Z; FullPageImages : Z; Bytes : Z; sample : wal_sample; archiver : wal_archiver; StatsReset : string }.
Definition no_sample : wal_sample := mk_wal_sample 0 f64_zero f64_zero.
Definition no_archiver : wal_archiver := mk_archiver 0 0 "" "" "" "".
Definition no_wal : DatabaseWAL := mk_database_wal 0 0 0 no_sample no_archiver "".
Definition set_sample (s : wal_sample) (w : DatabaseWAL) : DatabaseWAL :=
  mk_database_wal (Records w) (FullPageImages w) (Bytes w) s (archiver w) (StatsReset w).

Record DatabaseDiagnostics := mk_diagnostics {
  ServerVersion : string;
  Capabilities_ : gmap string string;
  Sessions : list DatabaseSession;
  Blocking : list DatabaseBlocking;
  Waits : list DatabaseWait;
  Bloat : list DatabaseBloat;
  Replicas : list DatabaseReplica;
  ReplicationSlots : list DatabaseReplicationSlot;
  MaintenanceOperations : list DatabaseMaintenanceOperation;
  Checkpoints : option DatabaseCheckpoints;
  Wraparound : option DatabaseWraparound;
  WAL : option DatabaseWAL;
  Errors : list string }.

(** The check: whether bloat is looked for, and the last counter of the write-ahead log. *)
Record postgresDiagnostics := mk_check { bloatEnabled : bool; lastWalBytes : Z; lastWalAt : Z }.

Definition truncateDiagnosticsError (value : string) : string := str_take 1024 value.

Definition mergeDatabaseWAL (metrics archiver_ : option DatabaseWAL) : DatabaseWAL :=
  let m := default no_wal metrics in
  match archiver_ with
  | None => m
  | Some a => mk_database_wal (Records m) (FullPageImages m) (Bytes m) (sample m) (archiver a)
                (if String.eqb (StatsReset m) "" then StatsReset a else StatsReset m)
  end.

(** JSON into a value of a type that may have parts already; what is decoded before an error is kept. *)
Definition decoder (A : Type) : Type := string -> A -> A * bool.

(** What the server answers in a run: to the version, to what a relation has (its qualified name and its
    columns), to the functions of the write-ahead log when they are asked for the slots or for the log, and
    to the query of a part. *)
Record answers := mk_answers {
  version : res string;
  relation : string -> res (string * string);
  wal_functions : string -> res (string * string);
  part : string -> string -> res string }.

(** What a run has gathered of statuses and errors. *)
Record notes := mk_notes { statuses : gmap string string; errors : list string }.
Definition note (name status : string) (n : notes) : notes := mk_notes (<[name := status]> (statuses n)) (errors n).
Definition complain (message : string) (n : notes) : notes := mk_notes (statuses n) (errors n ++ [truncateDiagnosticsError message]).

Section run.
Variable a : answers.

Definition read {A} (decode : decoder A) (name query : string) (target : A) (n : notes) : A * bool * notes :=
  match part a name query with
  | Err e => (target, false, complain (name +:+ ": " +:+ e) (note name "unavailable" n))
  | Ok raw =>
      match decode raw target with
      | (target, true) => (target, true, note name "available" n)
      | (target, false) => (target, false, complain (name +:+ ": resposta inválida") (note name "unavailable" n))
      end
  end.
Definition discover (name : string) (n : notes) : postgresRelationCapabilities * notes :=
  match discoverPostgresRelationCapabilities "pg_catalog" name (relation a name) with
  | Ok caps => (caps, n)
  | Err e => (no_caps, complain (name +:+ ": " +:+ e) (note name "unavailable" n))
  end.

Variable d_sessions : decoder (list DatabaseSession).
Variable d_blocking : decoder (list DatabaseBlocking).
Variable d_waits : decoder (list DatabaseWait).
Variable d_bloat : decoder (list DatabaseBloat).
Variable d_replicas : decoder (list DatabaseReplica).
Variable d_slots : decoder (list DatabaseReplicationSlot).
Variable d_operations : decoder (list DatabaseMaintenanceOperation).
Variable d_checkpoints : decoder (option DatabaseCheckpoints).
Variable d_wraparound : decoder (option DatabaseWraparound).
Variable d_wal : decoder (option DatabaseWAL).

Definition replication (n : notes) : list DatabaseReplica * notes :=
  let '(caps, n) := discover "pg_stat_replication" n in
  if available caps then let '(r, _, n) := read d_replicas "replication" (postgresReplicationQuery caps) [] n in (r, n)
  else ([], note "replication" "unavailable" n).

Definition slots (n : notes) : list DatabaseReplicationSlot * notes :=
  let '(caps, n) := discover "pg_replication_slots" n in
  if available caps then
    let retention := "replication_slot_retention" in
    let '(functions, n) :=
      match discoverPostgresWALFunctions (wal_functions a retention) with
      | Err e => (no_functions, complain (retention +:+ ": " +:+ e) (note retention "unavailable" n))
      | Ok f => (f, note retention (if String.eqb (difference f) "" || String.eqb (current f) "" then "unavailable" else "available") n)
      end in
    let '(r, _, n) := read d_slots "replication_slots" (postgresReplicationSlotsQuery caps functions) [] n in (r, n)
  else ([], note "replication_slots" "unavailable" n).

Definition checkpoints (n : notes) : option DatabaseCheckpoints * notes :=
  let '(caps, n) := discover "pg_stat_checkpointer" n in
  let '(caps, n) := if available caps then (caps, n) else discover "pg_stat_bgwriter" n in
  if available caps then let '(r, _, n) := read d_checkpoints "checkpoints" (postgresCheckpointQuery caps) None n in (r, n)
  else (None, note "checkpoints" "unavailable" n).

(** The counters, or where the server does not have them, the position of the log. *)
Definition wal_counters (n : notes) : option DatabaseWAL * notes :=
  let keep (r : option DatabaseWAL * bool * notes) := let '(w, ok, n) := r in (if ok then w else None, n) in
  let '(caps, n) := discover "pg_stat_wal" n in
  if available caps then keep (read d_wal "wal" (postgresWALQuery caps) None n)
  else match discoverPostgresWALFunctions (wal_functions a "wal") with
       | Err e => (None, complain ("wal: " +:+ e) (note "wal" "unavailable" n))
       | Ok f =>
           let query := postgresWALPositionQuery f in
           if String.eqb query "" then (None, note "wal" "unavailable" n) else keep (read d_wal "wal" query None n)
       end.

(** The bytes since the last counter, when it was not reset. *)
Definition sample_wal (now : Z) (c : postgresDiagnostics) (w : DatabaseWAL) : DatabaseWAL * postgresDiagnostics :=
  let w := if negb (is_zero_time (lastWalAt c)) && (lastWalBytes c <=? Bytes w) then
             let secs := seconds (time_sub now (lastWalAt c)) in
             let generated := i64 (Bytes w - lastWalBytes c) in
             set_sample (mk_wal_sample generated
               (if flt f64_zero secs then fdiv (f_of_Z generated) secs else BytesPerSecond (sample w)) secs) w
           else w in
  (w, mk_check (bloatEnabled c) (Bytes w) now).

Definition archiving (wal : option DatabaseWAL) (n : notes) : option DatabaseWAL * notes :=
  let '(caps, n) := discover "pg_stat_archiver" n in
  if available caps then
    let '(r, ok, n) := read d_wal "archiver" (postgresArchiverQuery caps) None n in
    (if ok then Some (mergeDatabaseWAL wal r) else wal, n)
  else (wal, note "archiver" "unavailable" n).

(** [order]: the relations of the progress, in the order in which they are enumerated. *)
Definition progress_relations : list (string * string) :=
  [("pg_stat_progress_vacuum", "vacuum"); ("pg_stat_progress_analyze", "analyze"); ("pg_stat_progress_create_index", "create_index")].
Definition progress_step (s : list DatabaseMaintenanceOperation * notes) (p : string * string)
    : list DatabaseMaintenanceOperation * notes :=
  let '(acc, n) := s in
  let '(caps, n) := discover p.1 n in
  if available caps then
    let '(r, ok, n) := read d_operations ("progress_" +:+ p.2) (postgresProgressQuery caps p.2) [] n in (if ok then acc ++ r else acc, n)
  else (acc, n).
Definition progress (order : list (string * string)) (n : notes) : list DatabaseMaintenanceOperation * notes :=
  foldl progress_step ([], n) order.

(** [cancelled]: whether the run was; [now]: the time when the log is sampled. *)
Definition RunDiagnostics (order : list (string * string)) (now : Z) (cancelled : bool) (c : postgresDiagnostics)
    : res DatabaseDiagnostics * postgresDiagnostics :=
  let n := mk_notes ∅ [] in
  let '(v, n) := match version a with Ok v => (v, n) | Err e => ("", complain ("server_version: " +:+ e) n) end in
  let '(sessions, _, n) := read d_sessions "sessions" sqlPostgresDiagnosticSessions [] n in
  let '(blocking, _, n) := read d_blocking "blocking" sqlPostgresDiagnosticBlocking [] n in
  let '(waits, _, n) := read d_waits "waits" sqlPostgresDiagnosticWaits [] n in
  let '(wraparound, _, n) := read d_wraparound "wraparound" sqlPostgresDiagnosticWraparound None n in
  let '(replicas, n) := replication n in
  let '(slots, n) := slots n in
  let '(checkpoints, n) := checkpoints n in
  let '(wal, n) := wal_counters n in
  let '(wal, c) := match wal with Some w => let '(w, c) := sample_wal now c w in (Some w, c) | None => (None, c) end in
  let '(wal, n) := archiving wal n in
  let '(operations, n) := progress order n in
  let '(bloat, n) := if bloatEnabled c then let '(b, _, n) := read d_bloat "bloat" sqlPostgresDiagnosticBloat [] n in (b, n)
                     else ([], note "bloat" "disabled" n) in
  (if cancelled then Err "cancelled"
   else Ok (mk_diagnostics v (statuses n) sessions blocking waits bloat replicas slots operations checkpoints wraparound wal (errors n)), c).
End run.
End Diagnostics.

(** ** The check of a PostgreSQL server *)

Module PostgresServer.
Import Capabilities.
Import Catalog(database_check, dc_id, dc_interval, dc_hostID, dc_tags).

Definition sqlActiveConnections : string :=
  "SELECT count(" +:+ "*)::BIGINT FROM pg_stat_activity WHERE datname = current_database() AND state = 'active'".
Definition sqlIdleInTransaction : string :=
  "SELECT count(" +:+ "*)::BIGINT FROM pg_stat_activity WHERE state = 'idle in transaction' AND datname = current_database()".
Definition sqlSlowQueries : string :=
  "SELECT count(" +:+ "*)::BIGINT FROM pg_stat_activity WHERE state = 'active' AND query_start < NOW() - INTERVAL '1 second' AND datname = current_database()".
Definition sqlReplicationLagSeconds : string :=
  "SELECT COALESCE(EXTRACT(EPOCH FROM (NOW() - pg_last_xact_replay_timestamp())), 0)::FLOAT8".
Definition sqlWalLagBytes : string :=
  "SELECT COALESCE(pg_wal_lsn_diff(pg_last_wal_receive_lsn(), pg_last_wal_replay_lsn()), 0)::BIGINT".
Definition sqlVacuumStaleTables : string :=
  "SELECT count(" +:+ "*)::BIGINT FROM pg_stat_user_tables WHERE n_dead_tup > current_setting('autovacuum_vacuum_threshold')::BIGINT + current_setting('autovacuum_vacuum_scale_factor')::FLOAT8 * n_live_tup AND (GREATEST(last_vacuum, last_autovacuum) IS NULL OR GREATEST(last_vacuum, last_autovacuum) < NOW() - INTERVAL '24 hours')".
Definition sqlTotalConnections : string :=
  "SELECT count(" +:+ "*)::BIGINT FROM pg_stat_activity WHERE datname = current_database()".
Definition sqlMaxConnections : string :=
  "SELECT setting::BIGINT FROM pg_settings WHERE name = 'max_connections'".
Definition sqlCacheHitRatio : string :=
  "SELECT COALESCE(sum(blks_hit)::FLOAT8 / NULLIF(sum(blks_hit) + sum(blks_read), 0), 1)::FLOAT8 FROM pg_stat_database WHERE datname = current_database()".
Definition sqlDeadlocks : string :=
  "SELECT COALESCE(deadlocks, 0)::BIGINT FROM pg_stat_database WHERE datname = current_database()".
Definition sqlCommits : string :=
  "SELECT COALESCE(xact_commit, 0)::BIGINT FROM pg_stat_database WHERE datname = current_database()".
Definition sqlRollbacks : string :=
  "SELECT COALESCE(xact_rollback, 0)::BIGINT FROM pg_stat_database WHERE datname = current_database()".
Definition sqlLocksWaiting : string :=
  "SELECT count(" +:+ "*)::BIGINT FROM pg_locks WHERE NOT granted".
Definition sqlDatabaseSize : string :=
  "SELECT pg_database_size(current_database())::BIGINT".
Definition sqlWalDirectorySize : string :=
  "SELECT COALESCE(sum(size), 0)::BIGINT FROM pg_ls_waldir()".
Definition sqlTempBytes : string :=
  "SELECT COALESCE(temp_bytes, 0)::BIGINT FROM pg_stat_database WHERE datname = current_database()".
Definition sqlTempFiles : string :=
  "SELECT COALESCE(temp_files, 0)::BIGINT FROM pg_stat_database WHERE datname = current_database()".
Definition sqlDataDirectory : string :=
  "SHOW data_directory".
Definition sqlUptimeSeconds : string :=
  "SELECT EXTRACT(EPOCH FROM (now() - pg_postmaster_start_time()))::FLOAT8".
Definition sqlPostgresExtendedStats : string :=
  "WITH db AS (
 SELECT to_jsonb(s) AS s FROM pg_stat_database s WHERE datname=current_database()
), writer AS (SELECT to_jsonb(s) AS s FROM pg_stat_bgwriter s),
 tables AS (SELECT sum(seq_scan) seq_scans, sum(idx_scan) index_scans,
 sum(n_live_tup) live_rows, sum(n_dead_tup) dead_rows FROM pg_stat_user_tables),
 indexes AS (SELECT sum(idx_blks_hit) hits, sum(idx_blks_read) reads FROM pg_statio_user_indexes),
 functions AS (SELECT sum(calls) calls, sum(self_time) self_ms, sum(total_time) total_ms FROM pg_stat_user_functions)
SELECT json_build_object(
 'rows_returned',db.s->'tup_returned','rows_fetched',db.s->'tup_fetched',
 'rows_inserted',db.s->'tup_inserted','rows_updated',db.s->'tup_updated','rows_deleted',db.s->'tup_deleted',
 'blocks_hit',db.s->'blks_hit','blocks_read',db.s->'blks_read',
 'block_read_time_ms',db.s->'blk_read_time','block_write_time_ms',db.s->'blk_write_time',
 'seq_scans',tables.seq_scans,'index_scans',tables.index_scans,
 'live_rows',tables.live_rows,'dead_rows',tables.dead_rows,
 'index_blocks_hit',indexes.hits,'index_blocks_read',indexes.reads,
 'function_calls',functions.calls,'function_self_time_ms',functions.self_ms,'function_total_time_ms',functions.total_ms,
 'checkpoints_scheduled',writer.s->'checkpoints_timed','checkpoints_requested',writer.s->'checkpoints_req',
 'checkpoint_write_time_ms',writer.s->'checkpoint_write_time','checkpoint_sync_time_ms',writer.s->'checkpoint_sync_time',
 'buffers_checkpoint',writer.s->'buffers_checkpoint','buffers_allocated',writer.s->'buffers_alloc',
 'buffers_bgwriter',writer.s->'buffers_clean','buffers_backend',writer.s->'buffers_backend'
)::text FROM db CROSS JOIN writer CROSS JOIN tables CROSS JOIN indexes CROSS JOIN functions".
Definition sqlPostgresObjectStats : string :=
  "SELECT json_build_object(
'table', COALESCE((SELECT json_agg(json_build_object('schema',s.schemaname,'name',s.relname,'metrics',json_build_object(
'seq_scan',s.seq_scan,'seq_rows_read',s.seq_tup_read,'index_scan',s.idx_scan,'index_rows_fetched',s.idx_tup_fetch,
'rows_inserted',s.n_tup_ins,'rows_updated',s.n_tup_upd,'rows_deleted',s.n_tup_del,
'live_rows',s.n_live_tup,'dead_rows',s.n_dead_tup,'heap_blocks_read',i.heap_blks_read,'heap_blocks_hit',i.heap_blks_hit,
'last_autovacuum_age_seconds',extract(epoch from(now()-s.last_autovacuum)),
'last_autoanalyze_age_seconds',extract(epoch from(now()-s.last_autoanalyze)))))
FROM pg_stat_user_tables s JOIN pg_statio_user_tables i ON i.relid=s.relid),'[]'::json),
'index', COALESCE((SELECT json_agg(json_build_object('schema',s.schemaname,'name',s.indexrelname,'parent',s.relname,'metrics',json_build_object(
'scan',s.idx_scan,'rows_read',s.idx_tup_read,'rows_fetched',s.idx_tup_fetch,'blocks_read',i.idx_blks_read,'blocks_hit',i.idx_blks_hit,
'size_bytes',pg_relation_size(s.indexrelid))))
FROM pg_stat_user_indexes s JOIN pg_statio_user_indexes i ON i.indexrelid=s.indexrelid),'[]'::json),
'function', COALESCE((SELECT json_agg(json_build_object('schema',s.schemaname,'name',s.funcname,'identity',s.funcid::text,'metrics',json_build_object(
'calls',s.calls,'self_time_ms',s.self_time,'total_time_ms',s.total_time))) FROM pg_stat_user_functions s),'[]'::json),
'lock', COALESCE((SELECT json_agg(json_build_object('schema',x.schema,'name',x.name,'identity',x.mode||':'||x.granted::text,'metrics',json_build_object('count',x.count))) FROM (
SELECT COALESCE(n.nspname,'') AS schema,COALESCE(c.relname,l.locktype) AS name,l.mode,l.granted,count(" +:+ "*) AS count FROM pg_locks l LEFT JOIN pg_class c ON c.oid=l.relation LEFT JOIN pg_namespace n ON n.oid=c.relnamespace WHERE l.database IS NULL OR l.database=(SELECT oid FROM pg_database WHERE datname=current_database()) GROUP BY n.nspname,c.relname,l.locktype,l.mode,l.granted) x),'[]'::json),
'wait', COALESCE((SELECT json_agg(json_build_object('schema','','name',x.event_type,'identity',x.event,'metrics',json_build_object('active_connections',x.count))) FROM (
SELECT COALESCE(wait_event_type,'CPU') AS event_type,COALESCE(wait_event,'CPU') AS event,count(" +:+ "*) AS count FROM pg_stat_activity WHERE datname=current_database() AND state='active' GROUP BY wait_event_type,wait_event) x),'[]'::json)
)::text".

(** The queries of single numbers, in their order, with the metrics that they give. *)
Inductive number := Int64 | Float64.
Definition numbers : list (number * string * string) :=
  [(Int64, sqlActiveConnections, "postgres.active_connections");
   (Int64, sqlIdleInTransaction, "postgres.idle_in_transaction");
   (Int64, sqlSlowQueries, "postgres.slow_queries");
   (Float64, sqlReplicationLagSeconds, "postgres.replication_lag_seconds");
   (Int64, sqlWalLagBytes, "postgres.wal_lag_bytes");
   (Int64, sqlVacuumStaleTables, "postgres.vacuum_stale_tables");
   (Int64, sqlTotalConnections, "postgres.total_connections");
   (Int64, sqlMaxConnections, "postgres.max_connections");
   (Float64, sqlCacheHitRatio, "postgres.cache_hit_ratio");
   (Int64, sqlDeadlocks, "postgres.deadlocks");
   (Int64, sqlCommits, "postgres.commits");
   (Int64, sqlRollbacks, "postgres.rollbacks");
   (Int64, sqlLocksWaiting, "postgres.locks_waiting");
   (Int64, sqlDatabaseSize, "postgres.database_size_bytes");
   (Int64, sqlWalDirectorySize, "postgres.wal_size_bytes");
   (Int64, sqlTempBytes, "postgres.temp_bytes");
   (Int64, sqlTempFiles, "postgres.temp_files")].

Definition required_columns : list string := ["dbid"; "queryid"; "calls"; "shared_blks_hit"; "shared_blks_read"; "shared_blks_dirtied"].
Definition buildPostgresObjectQuerySQL (caps : postgresRelationCapabilities) : string :=
  if forallb (hasColumn caps) required_columns then
    "SELECT COALESCE(json_agg(json_build_object('schema','','name',s.queryid::text,'identity',s.queryid::text,'metrics',json_build_object(
'calls',s.calls,'shared_blocks_hit',s.shared_blks_hit,'shared_blocks_read',s.shared_blks_read,'shared_blocks_dirtied',s.shared_blks_dirtied))), '[]'::json)::text FROM (SELECT * FROM " +:+ qualifiedName caps +:+ " WHERE dbid=(SELECT oid FROM pg_database WHERE datname=current_database()) AND calls>0 ORDER BY calls DESC LIMIT 200) s"
  else "".

Definition metric (c : database_check) (t : Z) (name : string) (val : f64) : Metric :=
  mk_metric (Some t) (dc_hostID c) name val "" "" (dc_tags c) "postgres.server".

(** A number that a metric can have: it is there and finite. *)
Definition finite (v : option f64) : option f64 :=
  match v with Some x => if is_nan x || is_inf x then None else Some x | None => None end.

Record postgresObjectStat := mk_object {
  ob_Schema : string; ob_Name : string; ob_Parent : string; ob_Identity : string; ob_Metrics : gmap string (option f64) }.
Record UsageStat := mk_disk { Total : Z; Used : Z; UsedPercent : f64 }.

Section run.
Variable int64 : string -> option Z.              (* the answers to queries of numbers and of texts *)
Variable float64 : string -> option f64.
Variable text : string -> option string.
Variable disk_usage : string -> option UsageStat.
Variable extension : res (string * string).       (* what the server has of pg_stat_statements *)
Variable decode_values : string -> option (gmap string (option f64)).
Variable decode_objects : string -> option (gmap string (list postgresObjectStat)).
Variable decode_rows : string -> option (list postgresObjectStat).
Variable enum : forall A, gmap string A -> list (string * A).

Definition number_metric (c : database_check) (now : Z) (r : number * string * string) : list Metric :=
  let '(kind, sql, name) := r in
  match kind with
  | Int64 => match int64 sql with Some v => [metric c now name (f_of_Z v)] | None => [] end
  | Float64 => match float64 sql with Some v => [metric c now name v] | None => [] end
  end.
Definition queryString (sql : string) : option string :=
  match text sql with Some v => if String.eqb (trim_space v) "" then None else Some v | None => None end.
Definition storage_metrics (c : database_check) (now : Z) : list Metric :=
  match queryString sqlDataDirectory with
  | None => []
  | Some dir =>
      match disk_usage (trim_space dir) with
      | Some u =>
          if 0 <? Total u then
            [metric c now "postgres.storage_used_bytes" (f_of_Z (Used u)); metric c now "postgres.storage_total_bytes" (f_of_Z (Total u));
             metric c now "postgres.storage_used_percent" (UsedPercent u)]
          else []
      | None => []
      end
  end.

Definition extendedMetrics (c : database_check) (now : Z) : list Metric :=
  match text sqlPostgresExtendedStats ≫= decode_values with
  | None => []
  | Some values => omap (fun e => metric c now ("postgres." +:+ e.1) <$> finite e.2) (enum _ values)
  end.

Definition object_metric (c : database_check) (now : Z) (kind : string) (row : postgresObjectStat) (name : string) (val : f64) : Metric :=
  let m := metric c now ("postgres.object." +:+ kind +:+ "." +:+ name) val in
  let tags := <[kind +:+ "_name" := ob_Name row]> (<["schema_name" := ob_Schema row]> (Tags m)) in
  let tags := if String.eqb (ob_Parent row) "" then tags else <["table_name" := ob_Parent row]> tags in
  let tags := if String.eqb (ob_Identity row) "" then tags
              else let tags := <["object_identity" := ob_Identity row]> tags in
                   if String.eqb kind "function" then <["function_oid" := ob_Identity row]> tags else tags in
  mk_metric (Metric_Time m) (HostId m) (MetricName m) (Value m) (InterfaceName m) (PeerId m) tags (Source m).
Definition statement_objects : option (list postgresObjectStat) :=
  match discoverPostgresExtensionRelationCapabilities "pg_stat_statements" extension with
  | Ok caps =>
      let query := buildPostgresObjectQuerySQL caps in
      if available caps && negb (String.eqb query "") then text query ≫= decode_rows else None
  | Err _ => None
  end.
Definition objectMetrics (c : database_check) (now : Z) : list Metric :=
  match text sqlPostgresObjectStats ≫= decode_objects with
  | None => []
  | Some objects =>
      let objects := match statement_objects with Some rows => <["query" := rows]> objects | None => objects end in
      enum _ objects ≫= fun o => o.2 ≫= fun row =>
        omap (fun e => object_metric c now o.1 row e.1 <$> finite e.2) (enum _ (ob_Metrics row))
  end.

(** The metrics of a run, and whether it was cancelled. *)
Definition Run (now : Z) (cancelled : bool) (c : database_check) : list Metric * bool :=
  ((numbers ≫= number_metric c now) ++ storage_metrics c now
   ++ number_metric c now (Float64, sqlUptimeSeconds, "postgres.uptime_seconds")
   ++ extendedMetrics c now ++ objectMetrics c now, cancelled).
End run.
End PostgresServer.

(** ** The check of a Redis server *)

Module RedisServer.

Record redisServer := mk_redis { r_id : string; r_hostID : string; r_addr : string; r_auth : string; r_interval : Z; r_staticTags : tagmap }.
Definition defaultRedisInterval : Z := 30 * second.
Definition newRedisServerCheck (cfg : CheckConfig) : res redisServer :=
  let addr := trim_space (tag "addr" (Params cfg)) in
  if String.eqb addr "" then Err "missing param 'addr'"
  else Ok (mk_redis (if String.eqb (CheckId cfg) "" then "redis.server-" +:+ CheckHostId cfg else CheckId cfg) (CheckHostId cfg) addr
             (tag "auth" (Params cfg)) (if Interval cfg <=? 0 then defaultRedisInterval else Interval cfg) (StaticTags cfg)).

Definition parse_line (out : tagmap) (line : string) : tagmap :=
  let line := trim_space line in
  if String.eqb line "" || has_prefix "#" line then out
  else match cut_at ":" line with Some (k, v) => <[k := v]> out | None => out end.
Definition parseRedisInfo (info : string) : tagmap := foldl parse_line ∅ (split (str1 10) info).

Section run.
Variable ParseFloat : string -> option f64.

Definition parseFloat (s : string) : option f64 :=
  let s := trim_space s in if String.eqb s "" then None else ParseFloat s.
Definition metric (r : redisServer) (t : Z) (name : string) (val : f64) (extraTags : tagmap) : Metric :=
  mk_metric (Some t) (r_hostID r) name val "" "" (extraTags ∪ r_staticTags r) "redis.server".
Definition redis_numbers : list (string * string) :=
  [("redis.used_memory", "used_memory"); ("redis.used_memory_peak", "used_memory_peak");
   ("redis.ops_per_sec", "instantaneous_ops_per_sec"); ("redis.keyspace_hits", "keyspace_hits");
   ("redis.keyspace_misses", "keyspace_misses"); ("redis.connected_clients", "connected_clients")].
Definition lag (role : string) (parsed : tagmap) : f64 :=
  if String.eqb role "slave" then
    match parseFloat (tag "master_repl_offset" parsed), parseFloat (tag "slave_repl_offset" parsed) with
    | Some m, Some s => if fle s m then fsub m s else f64_zero
    | _, _ => f64_zero
    end
  else f64_zero.

(** [info]: the answer, none when there is none. *)
Definition Run (info : option string) (now : Z) (r : redisServer) : res (list Metric) :=
  match info with
  | None => Err "INFO"
  | Some info =>
      let parsed := parseRedisInfo info in
      let role := if String.eqb (tag "role" parsed) "" then "unknown" else tag "role" parsed in
      let extra : tagmap := {[ "redis_role" := role ]} in
      Ok (omap (fun p => (fun v => metric r now p.1 v extra) <$> parseFloat (tag p.2 parsed)) redis_numbers
          ++ [metric r now "redis.replication_lag_bytes" (lag role parsed) extra])
  end.
End run.
End RedisServer.

(** ** What the checks promise *)

Module DatabaseChecksProps.
Import Capabilities Diagnostics.

(** *** Columns *)

Definition ident (c : Ascii.ascii) : bool :=
  let b := byte_of c in is_digit b || ((97 <=? b) && (b <=? 122)) || ((65 <=? b) && (b <=? 90)) || (b =? 95).
Definition name_part (c : Ascii.ascii) : bool := ident c || (byte_of c =? 46).
Fixpoint take_ident (s : string) : string :=
  match s with String c s => if ident c then String c (take_ident s) else "" | "" => "" end.
(** The columns of the relation, which queries call r, that a text reads; [inside]: whether a name is going on. *)
Fixpoint columns_read_from (inside : bool) (s : string) : list string :=
  match s with
  | "" => []
  | String c rest =>
      (if negb inside && has_prefix "r." s then [take_ident (str_drop 2 s)] else []) ++ columns_read_from (name_part c) rest
  end.
Definition columns_read (query : string) : list string := columns_read_from false query.

(** Names do not go on from one text to the next. *)
Definition ends_name (s : string) : bool := match s with String c _ => negb (name_part c) | "" => false end.
Fixpoint name_ended (s : string) : bool :=
  match s with "" => false | String c "" => negb (name_part c) | String _ s => name_ended s end.

Lemma take_ident_app s t : ends_name t = true -> take_ident (s +:+ t) = take_ident s.
Proof.
  intros H. induction s as [|c s IH].
  - destruct t as [|d t]; [done|]. rewrite str_app_nil_l. cbn [ends_name take_ident] in *. unfold name_part in H.
    by destruct (ident d).
  - rewrite str_app_cons. cbn [take_ident]. destruct (ident c); [|done]. by rewrite IH.
Qed.
Lemma take_ident_app_ended s t : name_ended s = true -> take_ident (s +:+ t) = take_ident s.
Proof.
  induction s as [|c s IH]; [done|]. intros H. rewrite str_app_cons. cbn [take_ident]. destruct (ident c) eqn:E; [|done]. f_equal. apply IH.
  destruct s; [|exact H]. cbn in H. unfold name_part in H. by rewrite E in H.
Qed.

Lemma has_prefix_r c s : has_prefix "r." (String c s) = (byte_of c =? 114) && has_prefix "." s.
Proof.
  unfold has_prefix. cbn [String.prefix]. destruct (Ascii.ascii_dec _ c) as [<-|Hc]; [done|].
  destruct (Z.eqb_spec (byte_of c) 114) as [E|E]; [|done]. destruct Hc. rewrite <-(chr_byte_of c), E. reflexivity.
Qed.
Lemma has_prefix_dot c s : has_prefix "." (String c s) = (byte_of c =? 46).
Proof.
  unfold has_prefix. cbn [String.prefix]. destruct (Ascii.ascii_dec _ c) as [<-|Hc]; [by destruct s|].
  destruct (Z.eqb_spec (byte_of c) 46) as [E|E]; [|done]. destruct Hc. rewrite <-(chr_byte_of c), E. reflexivity.
Qed.
Lemma name_part_r c : byte_of c = 114 -> name_part c = true.
Proof. unfold name_part, ident. by intros ->. Qed.
Lemma name_part_dot c : byte_of c = 46 -> name_part c = true.
Proof. unfold name_part, ident. by intros ->. Qed.

Lemma columns_from_ended inside t : ends_name t = true -> columns_read_from inside t = columns_read_from false t.
Proof.
  destruct t as [|c t]; [done|]. intros H. cbn [columns_read_from]. destruct inside; [|done]. cbn [negb andb]. rewrite has_prefix_r.
  destruct (Z.eqb_spec (byte_of c) 114) as [E%name_part_r|]; [|done]. cbn in H. by rewrite E in H.
Qed.

(** What is read first of two texts. *)
Lemma first_column_app c a b : ends_name b = true \/ name_ended (String c a) = true ->
  (if has_prefix "r." (String c (a +:+ b)) then [take_ident (str_drop 2 (String c (a +:+ b)))] else [])
  = (if has_prefix "r." (String c a) then [take_ident (str_drop 2 (String c a))] else []).
Proof.
  intros H. rewrite !has_prefix_r. destruct (Z.eqb_spec (byte_of c) 114) as [E%name_part_r|]; [|done]. cbn [andb].
  destruct a as [|d a].
  - rewrite str_app_nil_l. destruct H as [H|H]; [|cbn in H; by rewrite E in H]. destruct b as [|d b]; [done|]. rewrite has_prefix_dot.
    destruct (Z.eqb_spec (byte_of d) 46) as [Ed%name_part_dot|]; [|done]. cbn in H. by rewrite Ed in H.
  - rewrite str_app_cons, !has_prefix_dot. destruct (Z.eqb_spec (byte_of d) 46) as [Ed%name_part_dot|]; [|done].
    cbn [str_drop]. f_equal. destruct H as [H|H]; [by apply take_ident_app|]. apply take_ident_app_ended.
    destruct a as [|e a]; [|exact H]. cbn in H. by rewrite Ed in H.
Qed.

Lemma columns_read_app a b inside : a <> "" -> ends_name b = true \/ name_ended a = true ->
  columns_read_from inside (a +:+ b) = columns_read_from inside a ++ columns_read_from false b.
Proof.
  revert inside. induction a as [|c a IH]; intros inside Ha H; [done|]. rewrite str_app_cons. cbn [columns_read_from].
  rewrite <-app_assoc. f_equal.
  - destruct inside; [done|]. cbn [negb andb]. by apply first_column_app.
  - destruct a as [|d a].
    + rewrite str_app_nil_l. cbn [columns_read_from app]. destruct H as [H|H]; [by apply columns_from_ended|].
      cbn in H. by destruct (name_part c).
    + apply IH; [done|]. destruct H as [H|H]; [by left|by right].
Qed.

(** The queries on a relation, with the columns that they read whatever the version is. *)
Definition queries (caps : postgresRelationCapabilities) (functions : postgresWALFunctions) : list (string * string * list string) :=
  [("pg_stat_replication", postgresReplicationQuery caps, ["application_name"; "usename"; "client_addr"; "state"; "sync_state"]);
   ("pg_replication_slots", postgresReplicationSlotsQuery caps functions, ["slot_name"; "plugin"; "slot_type"; "database"; "active"]);
   ("pg_stat_checkpointer", postgresCheckpointQuery caps, []);
   ("pg_stat_bgwriter", postgresCheckpointQuery caps, []);
   ("pg_stat_wal", postgresWALQuery caps, []);
   ("pg_stat_archiver", postgresArchiverQuery caps, []);
   ("pg_stat_progress_vacuum", postgresProgressQuery caps "vacuum", ["relid"]);
   ("pg_stat_progress_analyze", postgresProgressQuery caps "analyze", ["relid"]);
   ("pg_stat_progress_create_index", postgresProgressQuery caps "create_index", ["relid"])].

(** The functions are those that the query for them can give. *)
Definition known_functions (f : postgresWALFunctions) : Prop :=
  difference f ∈ [""; "pg_wal_lsn_diff"; "pg_xlog_location_diff"] /\ current f ∈ [""; "pg_current_wal_lsn"; "pg_current_xlog_location"].

(** Whether each column that a text reads is there, or is one of those that always are. *)
Definition covered (caps : postgresRelationCapabilities) (fixed : list string) (text : string) : bool :=
  forallb (fun col => existsb (String.eqb col) fixed || hasColumn caps col) (columns_read text).

Lemma covered_app caps fixed a b : ends_name b = true \/ name_ended a = true ->
  covered caps fixed a = true -> covered caps fixed b = true -> covered caps fixed (a +:+ b) = true.
Proof.
  intros H Ca Cb. destruct (decide (a = "")) as [->|Ha]; [by rewrite str_app_nil_l|].
  unfold covered, columns_read in *. rewrite columns_read_app by done. by rewrite forallb_app, Ca, Cb.
Qed.
Lemma covered_ended caps fixed a b : name_ended a = true ->
  covered caps fixed a = true -> covered caps fixed b = true -> covered caps fixed (a +:+ b) = true.
Proof. intros H. apply covered_app. by right. Qed.
Lemma covered_before caps fixed a b c : ends_name b = true ->
  covered caps fixed a = true -> covered caps fixed (b +:+ c) = true -> covered caps fixed (a +:+ b +:+ c) = true.
Proof. intros H. apply covered_app. left. by destruct b. Qed.
Lemma covered_last caps fixed a b : ends_name b = true ->
  covered caps fixed a = true -> covered caps fixed b = true -> covered caps fixed (a +:+ b) = true.
Proof. intros H. apply covered_app. by left. Qed.

(** Computes, but not whether a column is there. *)
Ltac compute_names := cbv -[hasColumn]; lazymatch goal with |- true = true => reflexivity end.
(** Goes over the parts of a query, which are literals but for the columns. *)
Ltac parts :=
  cbv beta iota zeta;
  repeat lazymatch goal with
  | |- covered ?caps ?fixed (?a +:+ ?b +:+ ?c) = true =>
      first [ lazymatch a with String _ _ => idtac | dq => idtac end; apply (covered_ended caps fixed a (b +:+ c)); [compute_names| | ]
            | apply (covered_before caps fixed a b c); [compute_names| | ] ]
  | |- covered ?caps ?fixed (?a +:+ ?b) = true =>
      first [ lazymatch a with String _ _ => idtac | dq => idtac end; apply (covered_ended caps fixed a b); [compute_names| | ]
            | apply (covered_last caps fixed a b); [compute_names| | ] ]
  end.

(** A part: its columns are computed. *)
Ltac part_columns :=
  unfold covered;
  match goal with |- context [columns_read ?q] => let l := eval vm_compute in (columns_read q) in change (columns_read q) with l end;
  cbn [forallb existsb]; repeat match goal with H : hasColumn _ _ = _ |- _ => rewrite ?H; clear H end; compute_names.
(** A part with a column that may be there. *)
Ltac part :=
  cbn beta iota; unfold diagnosticLagColumn, diagnosticTextColumn, diagnosticColumn, checkpoint_field;
  repeat match goal with |- context [if hasColumn ?caps ?x then _ else _] => let E := fresh in destruct (hasColumn caps x) eqn:E end;
  repeat match goal with |- context [negb ?b && hasColumn ?caps ?x] => let E := fresh in destruct (hasColumn caps x) eqn:E end;
  part_columns.

Lemma replication_columns caps : qualifiedName caps = "pg_catalog.pg_stat_replication" ->
  covered caps ["application_name"; "usename"; "client_addr"; "state"; "sync_state"] (postgresReplicationQuery caps) = true.
Proof. intros Hq. unfold postgresReplicationQuery. destruct (hasColumn caps "sent_lsn"); rewrite Hq; parts; part. Qed.
Lemma slot_columns caps functions : qualifiedName caps = "pg_catalog.pg_replication_slots" -> known_functions functions ->
  covered caps ["slot_name"; "plugin"; "slot_type"; "database"; "active"] (postgresReplicationSlotsQuery caps functions) = true.
Proof.
  intros Hq [Hd Hc]. unfold postgresReplicationSlotsQuery. rewrite Hq. parts; try part.
  destruct (hasColumn caps "restart_lsn") eqn:E; [|part_columns]. rewrite !elem_of_cons, elem_of_nil in Hd, Hc.
  destruct Hd as [->|[->|[->|[]]]], Hc as [->|[->|[->|[]]]]; cbn [String.eqb negb andb]; part_columns.
Qed.
Lemma checkpoint_columns caps : qualifiedName caps ∈ ["pg_catalog.pg_stat_checkpointer"; "pg_catalog.pg_stat_bgwriter"] ->
  covered caps [] (postgresCheckpointQuery caps) = true.
Proof.
  rewrite !elem_of_cons, elem_of_nil. intros Hq. unfold postgresCheckpointQuery. destruct Hq as [Hq|[Hq|[]]]; rewrite Hq; parts; part.
Qed.
Lemma wal_columns caps : qualifiedName caps = "pg_catalog.pg_stat_wal" -> covered caps [] (postgresWALQuery caps) = true.
Proof. intros Hq. unfold postgresWALQuery. rewrite Hq. parts; part. Qed.
Lemma archiver_columns caps : qualifiedName caps = "pg_catalog.pg_stat_archiver" -> covered caps [] (postgresArchiverQuery caps) = true.
Proof. intros Hq. unfold postgresArchiverQuery. rewrite Hq. parts; part. Qed.
Lemma progress_columns caps operation :
  (qualifiedName caps, operation) ∈ [("pg_catalog.pg_stat_progress_vacuum", "vacuum"); ("pg_catalog.pg_stat_progress_analyze", "analyze");
                                     ("pg_catalog.pg_stat_progress_create_index", "create_index")] ->
  covered caps ["relid"] (postgresProgressQuery caps operation) = true.
Proof.
  intros Hq. assert (Hpair : match progress_pair caps with
    | Some p => p ∈ progress_pairs /\ hasColumn caps p.1 = true /\ hasColumn caps p.2 = true | None => True end).
  { unfold progress_pair. destruct (head _) as [p|] eqn:E; [|done]. apply head_Some_elem_of, list_elem_of_In, filter_In in E as [Hp E].
    apply andb_prop in E as [E1 E2]. split_and!; [by apply list_elem_of_In|done..]. }
  unfold postgresProgressQuery. destruct (progress_pair caps) as [[p t]|].
  - destruct Hpair as (Hp & E1 & E2). cbn [fst snd] in *. unfold progress_pairs in Hp. rewrite !elem_of_cons, elem_of_nil in Hp.
    rewrite !elem_of_cons, elem_of_nil in Hq.
    destruct Hp as [[= -> ->]|[[= -> ->]|[[= -> ->]|[]]]], Hq as [[= Hq ->]|[[= Hq ->]|[[= Hq ->]|[]]]]; rewrite Hq; parts; part.
  - clear Hpair. rewrite !elem_of_cons, elem_of_nil in Hq. destruct Hq as [[= Hq ->]|[[= Hq ->]|[[= Hq ->]|[]]]]; rewrite Hq; parts; part.
Qed.

(** C34: Whatever version a server has, the queries of diagnostics that are built for what a relation
    offers read no column of it that it does not have, but for the few that every version has. *)
Theorem queries_read_what_is_there caps functions relation query fixed :
  (relation, query, fixed) ∈ queries caps functions -> qualifiedName caps = "pg_catalog." +:+ relation -> known_functions functions ->
  Forall (fun col => col ∈ fixed \/ hasColumn caps col = true) (columns_read query).
Proof.
  intros Hin Hq Hf. assert (Hc : covered caps fixed query = true).
  { unfold queries in Hin. rewrite !elem_of_cons, elem_of_nil in Hin.
    destruct Hin as [[= -> -> ->]|[[= -> -> ->]|[[= -> -> ->]|[[= -> -> ->]|[[= -> -> ->]|[[= -> -> ->]|[[= -> -> ->]|[[= -> -> ->]|[[= -> -> ->]|[]]]]]]]]]].
    - by apply replication_columns.
    - by apply slot_columns.
    - apply checkpoint_columns. rewrite Hq. apply list_elem_of_here.
    - apply checkpoint_columns. rewrite Hq. apply list_elem_of_further, list_elem_of_here.
    - by apply wal_columns.
    - by apply archiver_columns.
    - apply progress_columns. rewrite Hq. apply list_elem_of_here.
    - apply progress_columns. rewrite Hq. apply list_elem_of_further, list_elem_of_here.
    - apply progress_columns. rewrite Hq. apply list_elem_of_further, list_elem_of_further, list_elem_of_here. }
  apply Forall_forall. intros col Hcol. unfold covered in Hc. rewrite forallb_forall in Hc.
  apply list_elem_of_In, Hc in Hcol as Hcol'. apply orb_prop in Hcol' as [H|H]; [left|by right].
  apply existsb_exists in H as (x & Hx & ->%String.eqb_eq). by apply list_elem_of_In.
Qed.

(** *** Statuses and errors *)

Definition status_values : list string := ["available"; "unavailable"; "disabled"].
Definition valid (n : notes) : Prop :=
  map_Forall (fun _ s => s ∈ status_values) (statuses n) /\ Forall (fun e => str_len e <= 1024) (errors n).
(** Later notes are valid again and have every status of the earlier ones. *)
Definition follows (n n' : notes) : Prop := valid n -> valid n' /\ dom (statuses n) ⊆ dom (statuses n').

Lemma follows_refl n : follows n n.
Proof. intros H. by split. Qed.
Lemma follows_trans n n' n'' : follows n n' -> follows n' n'' -> follows n n''.
Proof. intros H H' Hn. destruct (H Hn) as [Hn' ?]. destruct (H' Hn') as [? ?]. split; [done|set_solver]. Qed.
Lemma follows_note n name s : s ∈ status_values -> follows n (note name s n).
Proof.
  intros Hs [H He]. split; [|cbn; rewrite dom_insert; apply union_subseteq_r]. split; [|done]. cbn. by apply map_Forall_insert_2.
Qed.
Lemma follows_complain n m : follows n (complain m n).
Proof.
  intros [H He]. split; [|done]. split; [done|]. cbn [complain errors]. apply Forall_app. split; [done|]. constructor; [|constructor].
  unfold truncateDiagnosticsError, str_len. rewrite str_length_take. lia.
Qed.
Lemma available_status : "available" ∈ status_values.
Proof. apply list_elem_of_here. Qed.
Lemma unavailable_status : "unavailable" ∈ status_values.
Proof. apply list_elem_of_further, list_elem_of_here. Qed.
Lemma disabled_status : "disabled" ∈ status_values.
Proof. apply list_elem_of_further, list_elem_of_further, list_elem_of_here. Qed.
#[local] Hint Resolve follows_refl follows_note follows_complain available_status unavailable_status disabled_status : core.

Section run.
Variable a : answers.

(** Notes of [f] follow, and have the status of [name]. *)
Definition settles {A} (name : string) (f : notes -> A * notes) : Prop :=
  forall n, follows n (f n).2 /\ name ∈ dom (statuses (f n).2).

Lemma read_notes {A} (decode : decoder A) name query target n :
  follows n (read a decode name query target n).2 /\ name ∈ dom (statuses (read a decode name query target n).2).
Proof.
  unfold read. destruct (part a name query) as [raw|e]; [destruct (decode raw target) as [t []]|]; cbn;
    (split; [|rewrite dom_insert; set_solver]); eauto using follows_trans.
Qed.
Lemma discover_notes name n : follows n (discover a name n).2.
Proof. unfold discover. destruct (discoverPostgresRelationCapabilities _ _ _); cbn; eauto using follows_trans. Qed.
Lemma note_dom name s n : name ∈ dom (statuses (note name s n)).
Proof. cbn. rewrite dom_insert. set_solver. Qed.

(** A part that is read when a relation offers it. *)
Ltac read_part :=
  match goal with |- context [read a ?d ?name ?q ?t ?n] =>
    let H := fresh in pose proof (read_notes d name q t n) as H; destruct (read a d name q t n) as [[? ?] ?]; cbn [fst snd] in H |- * end.

Lemma replication_settles d : settles "replication" (replication a d).
Proof.
  intros n. unfold replication. pose proof (discover_notes "pg_stat_replication" n) as Hd.
  destruct (discover a _ n) as [caps n1]. cbn [snd] in Hd. destruct (available caps).
  - read_part. split; [eapply follows_trans; [exact Hd|]; tauto|tauto].
  - cbn [snd]; split; [eapply follows_trans; [exact Hd|]; by auto|apply note_dom].
Qed.
Lemma slots_settle d : settles "replication_slots" (slots a d).
Proof.
  intros n. unfold slots. pose proof (discover_notes "pg_replication_slots" n) as Hd. destruct (discover a _ n) as [caps n1]. cbn [snd] in Hd.
  destruct (available caps); [|cbn [snd]; split; [eapply follows_trans; [exact Hd|]; by auto|apply note_dom]].
  assert (Hf : exists f n2, match discoverPostgresWALFunctions (wal_functions a "replication_slot_retention") with
    | Err e => (no_functions, complain ("replication_slot_retention" +:+ ": " +:+ e) (note "replication_slot_retention" "unavailable" n1))
    | Ok f => (f, note "replication_slot_retention" (if String.eqb (difference f) "" || String.eqb (current f) "" then "unavailable" else "available") n1)
    end = (f, n2) /\ follows n1 n2).
  { destruct (discoverPostgresWALFunctions _) as [f|e]; eexists _, _; (split; [reflexivity|]).
    - destruct (_ || _); auto.
    - eauto using follows_trans. }
  destruct Hf as (f & n2 & -> & Hf). read_part. split; [|tauto]. eapply follows_trans; [exact Hd|]. eapply follows_trans; [exact Hf|]. tauto.
Qed.
Lemma checkpoints_settle d : settles "checkpoints" (checkpoints a d).
Proof.
  intros n. unfold checkpoints. pose proof (discover_notes "pg_stat_checkpointer" n) as Hd.
  destruct (discover a "pg_stat_checkpointer" n) as [caps n1]. cbn [snd] in Hd.
  assert (Hb : exists caps' n2, (if available caps then (caps, n1) else discover a "pg_stat_bgwriter" n1) = (caps', n2) /\ follows n1 n2).
  { destruct (available caps); [by eexists _, _|]. pose proof (discover_notes "pg_stat_bgwriter" n1).
    destruct (discover a "pg_stat_bgwriter" n1); by eexists _, _. }
  destruct Hb as (caps' & n2 & -> & Hb). pose proof (follows_trans _ _ _ Hd Hb) as H2. destruct (available caps').
  - read_part. split; [eapply follows_trans; [exact H2|]; tauto|tauto].
  - cbn [snd]; split; [eapply follows_trans; [exact H2|]; by auto|apply note_dom].
Qed.
Lemma wal_settles d : settles "wal" (wal_counters a d).
Proof.
  intros n. unfold wal_counters. pose proof (discover_notes "pg_stat_wal" n) as Hd. destruct (discover a _ n) as [caps n1]. cbn [snd] in Hd.
  destruct (available caps); [read_part; split; [eapply follows_trans; [exact Hd|]; tauto|tauto]|].
  destruct (discoverPostgresWALFunctions _) as [f|e].
  - destruct (String.eqb _ ""); [cbn [snd]; split; [eapply follows_trans; [exact Hd|]; by auto|apply note_dom]|].
    read_part. split; [eapply follows_trans; [exact Hd|]; tauto|tauto].
  - cbn [snd]. split; [eapply follows_trans; [exact Hd|]; by eauto using follows_trans|apply note_dom].
Qed.
Lemma archiving_settles d wal : settles "archiver" (archiving a d wal).
Proof.
  intros n. unfold archiving. pose proof (discover_notes "pg_stat_archiver" n) as Hd. destruct (discover a _ n) as [caps n1]. cbn [snd] in Hd.
  destruct (available caps).
  - read_part. split; [eapply follows_trans; [exact Hd|]; tauto|tauto].
  - cbn [snd]; split; [eapply follows_trans; [exact Hd|]; by auto|apply note_dom].
Qed.
Lemma progress_step_follows d acc n p : follows n (progress_step a d (acc, n) p).2.
Proof.
  unfold progress_step. pose proof (discover_notes p.1 n) as Hd. destruct (discover a p.1 n) as [caps n1]. cbn [snd] in Hd.
  destruct (available caps); [|done]. read_part. eapply follows_trans; [exact Hd|]. tauto.
Qed.
Lemma progress_follows d order n : follows n (progress a d order n).2.
Proof.
  unfold progress. assert (H : forall acc n, follows n (foldl (progress_step a d) (acc, n) order).2); [|apply H].
  induction order as [|p order IH]; intros acc m; [by auto|]. cbn [foldl]. pose proof (progress_step_follows d acc m p) as Hp.
  destruct (progress_step a d (acc, m) p) as [acc' m']. eapply follows_trans; [exact Hp|]. apply IH.
Qed.

Variable d_sessions : decoder (list DatabaseSession).
Variable d_blocking : decoder (list DatabaseBlocking).
Variable d_waits : decoder (list DatabaseWait).
Variable d_bloat : decoder (list DatabaseBloat).
Variable d_replicas : decoder (list DatabaseReplica).
Variable d_slots : decoder (list DatabaseReplicationSlot).
Variable d_operations : decoder (list DatabaseMaintenanceOperation).
Variable d_checkpoints : decoder (option DatabaseCheckpoints).
Variable d_wraparound : decoder (option DatabaseWraparound).
Variable d_wal : decoder (option DatabaseWAL).

Definition areas : list string :=
  ["sessions"; "blocking"; "waits"; "wraparound"; "replication"; "replication_slots"; "checkpoints"; "wal"; "archiver"; "bloat"].

(** Notes that have the statuses of some parts. *)
Definition has (l : list string) (n : notes) : Prop := valid n /\ Forall (fun name => name ∈ dom (statuses n)) l.
Lemma has_follows l n n' : has l n -> follows n n' -> has l n'.
Proof. intros [Hv Hl] H. destruct (H Hv) as [Hv' Hd]. split; [done|]. eapply Forall_impl; [exact Hl|]. cbn. intros x Hx. by apply Hd. Qed.
Lemma has_more l name n n' : has l n -> follows n n' /\ name ∈ dom (statuses n') -> has (name :: l) n'.
Proof. intros Hn [H Hd]. destruct (has_follows _ _ _ Hn H) as [Hv Hl]. split; [done|]. by constructor. Qed.

(** Goes on in a run: a query is read, or a part is. *)
Ltac next_read H Hread := let H' := fresh H in
  match goal with |- context [read a ?d ?name ?q ?t ?m] =>
    pose proof (Hread _ d _ name q t m H) as H'; destruct (read a d name q t m) as [[? ?] ?]; cbn [snd] in H'; clear H; rename H' into H end.
Ltac next_part H Hsettle L f := let H' := fresh H in
  pose proof (Hsettle _ _ _ f _ L H) as H'; match type of H' with has _ (snd ?p) => destruct p as [? ?] end; cbn [snd] in H'; clear H; rename H' into H.

(** Whatever the server answers, each part of a run has a status, of the three that there are, and no
    error is longer than it may be. *)
Lemma diagnostics_accounted order now c out c' :
  RunDiagnostics a d_sessions d_blocking d_waits d_bloat d_replicas d_slots d_operations d_checkpoints d_wraparound d_wal order now false c
    = (Ok out, c') ->
  Forall (fun area => exists s, Capabilities_ out !! area = Some s /\ s ∈ status_values) areas /\
  Forall (fun e => str_len e <= 1024) (Errors out).
Proof.
  assert (H0 : has [] (mk_notes ∅ [])) by (repeat split; [apply map_Forall_empty|constructor..]).
  assert (Hv : exists v n, match version a with Ok v => (v, mk_notes ∅ []) | Err e => ("", complain ("server_version: " +:+ e) (mk_notes ∅ [])) end
                           = (v, n) /\ has [] n).
  { destruct (version a) as [v|e]; eexists _, _; (split; [reflexivity|]); [done|]. eapply has_follows; [exact H0|auto]. }
  destruct Hv as (v & n & Hv & Hn). unfold RunDiagnostics. cbv zeta. rewrite Hv.
  assert (Hread : forall A (d : decoder A) l name q t m, has l m -> has (name :: l) (read a d name q t m).2).
  { intros. eapply has_more; [done|]. apply read_notes. }
  assert (Hsettle : forall A l name (f : notes -> A * notes) m, settles name f -> has l m -> has (name :: l) (f m).2).
  { intros A l name f m Hf Hm. eapply has_more; [exact Hm|]. apply Hf. }
  do 4 next_read Hn Hread.
  next_part Hn Hsettle (replication_settles d_replicas) (replication a d_replicas).
  next_part Hn Hsettle (slots_settle d_slots) (slots a d_slots).
  next_part Hn Hsettle (checkpoints_settle d_checkpoints) (checkpoints a d_checkpoints).
  next_part Hn Hsettle (wal_settles d_wal) (wal_counters a d_wal).
  destruct (match _ with Some w => _ | None => _ end) as [wal c1].
  next_part Hn Hsettle (archiving_settles d_wal wal) (archiving a d_wal wal).
  pose proof (has_follows _ _ _ Hn (progress_follows d_operations order _)) as Hp. destruct (progress a d_operations order _) as [ops nb].
  cbn [snd] in Hp.
  assert (Hb : exists b nz, (if bloatEnabled c1 then let '(b, _, n) := read a d_bloat "bloat" sqlPostgresDiagnosticBloat [] nb in (b, n)
                             else ([], note "bloat" "disabled" nb)) = (b, nz) /\ has ("bloat" :: ["archiver"; "wal"; "checkpoints"; "replication_slots"; "replication"; "wraparound"; "waits"; "blocking"; "sessions"]) nz).
  { destruct (bloatEnabled c1).
    - next_read Hp Hread. by eexists _, _.
    - eexists _, _. split; [reflexivity|]. eapply has_more; [exact Hp|]. split; [by auto|apply note_dom]. }
  destruct Hb as (bl & nz & -> & [[Hs He] Hl]). intros [= <- _]. cbn [Capabilities_ Errors]. split; [|done].
  rewrite Forall_forall in Hl |- *. intros area Ha. assert (Hd : area ∈ dom (statuses nz)).
  { apply Hl. unfold areas in Ha. revert Ha. rewrite !elem_of_cons. tauto. }
  apply elem_of_dom in Hd as [s Hd]. exists s. split; [done|]. by apply (Hs area).
Qed.
End run.

(** *** Observations *)

(** The known columns of PostgreSQL 16, and of 9.6, where positions are locations. *)
Definition ex_caps (relation : string) (cols : list string) : postgresRelationCapabilities :=
  mk_caps ("pg_catalog." +:+ relation) (list_to_set cols).
Example columns_by_version :
  columns_read (postgresReplicationQuery (ex_caps "pg_stat_replication" ["sent_location"; "write_location"])) =
    ["application_name"; "usename"; "client_addr"; "state"; "sync_state"; "sent_location"; "write_location"] /\
  columns_read (postgresCheckpointQuery (ex_caps "pg_stat_checkpointer" ["num_timed"; "num_requested"; "write_time"])) =
    ["num_timed"; "num_requested"; "write_time"].
Proof. split; vm_compute; reflexivity. Qed.

(** When the view of the log cannot be looked up in one run, the position of the log is compared with its
    counter, which counts something else. *)
Definition ex_answers (relation_ : string -> res (string * string)) : answers :=
  mk_answers (Ok "16.2") relation_ (fun _ => Ok ("pg_wal_lsn_diff", "pg_current_wal_lsn")) (fun _ q => Ok q).
Definition ex_decode_wal (query : string) (_ : option DatabaseWAL) : option DatabaseWAL * bool :=
  (Some (mk_database_wal 0 0 (if contains "GREATEST" query then 50000000000 else 1000) no_sample no_archiver ""), true).
Example position_taken_for_counter :
  let with_view := ex_answers (fun name => Ok ("pg_catalog." +:+ name, "wal_records" +:+ str1 31 +:+ "wal_bytes")) in
  let without := ex_answers (fun _ => Err "timeout") in
  let run a now c := match (wal_counters a ex_decode_wal (mk_notes ∅ [])).1 with Some w => sample_wal now c w | None => (no_wal, c) end in
  let '(_, c) := run with_view second (mk_check false 0 zero_time) in
  GeneratedBytes (sample (run without (16 * second) c).1) = 49999999000.
Proof. vm_compute. reflexivity. Qed.

(** The archiver alone makes counters of the log, of nothing. *)
Example counters_of_nothing :
  let a := mk_answers (Ok "9.5") (fun name => if String.eqb name "pg_stat_archiver" then Ok ("pg_catalog." +:+ name, "archived_count") else Ok ("", ""))
             (fun _ => Ok ("", "")) (fun _ q => Ok q) in
  let '(wal, n) := wal_counters a ex_decode_wal (mk_notes ∅ []) in
  (wal, statuses n !! "wal") = (None, Some "unavailable") /\ Bytes <$> (archiving a ex_decode_wal wal n).1 = Some 0.
Proof. vm_compute. by split. Qed.

(** Every statistic that is sent is a number. *)
Lemma extended_finite text decode_values enum c now m :
  m ∈ PostgresServer.extendedMetrics text decode_values enum c now -> is_nan (Value m) = false /\ is_inf (Value m) = false.
Proof.
  unfold PostgresServer.extendedMetrics. destruct (text _ ≫= decode_values) as [values|]; [|by intros H%not_elem_of_nil].
  intros ([k v] & _ & Hm)%list_elem_of_omap. unfold PostgresServer.finite in Hm. cbn [fst snd] in Hm. destruct v as [x|]; [|done].
  destruct (is_nan x) eqn:E1; [done|]. destruct (is_inf x) eqn:E2; [done|]. injection Hm as <-. by split.
Qed.

Lemma queries_read_what_is_there_witness :
  let caps := ex_caps "pg_stat_replication" ["sent_lsn"; "write_lag"; "flush_lsn"] in
  columns_read (postgresReplicationQuery caps) =
    ["application_name"; "usename"; "client_addr"; "state"; "sync_state"; "write_lag"; "sent_lsn"; "flush_lsn"] /\
  Forall (fun col => col ∈ ["application_name"; "usename"; "client_addr"; "state"; "sync_state"] \/ hasColumn caps col = true)
    (columns_read (postgresReplicationQuery caps)).
Proof.
  intros caps. split; [vm_compute; reflexivity|].
  apply (queries_read_what_is_there caps no_functions "pg_stat_replication" (postgresReplicationQuery caps)
           ["application_name"; "usename"; "client_addr"; "state"; "sync_state"]).
  - apply list_elem_of_here.
  - reflexivity.
  - split; apply list_elem_of_here.
Defined.
End DatabaseChecksProps.
