(* ===== verification/LangDetect.v ===== *)
(** * Languages of pods (internal/langdetect/detector.go)

    The processes of a node are looked at by the name of their program, their command and what they
    have loaded, and the language of each pod and of each container is reported.

    What a process shows, the resolver of pods, case mapping, the architecture and the order of maps
    are arguments. *)

From S2P Require Import Prelude GoStrings.
#[local] Open Scope Z_scope.

Module LangDetect.

(** [filepath.Base]. *)
Definition path_base (s : string) : string :=
  if String.eqb s "" then "."
  else let b := List.last (split "/" (trim_right_slashes s)) "" in if String.eqb b "" then "/" else b.

Record podLang := mk_lang { Namespace : string; Pod : string; Language : string }.
(** What is told of a container. *)
Record container := mk_container { c_namespace : string; c_pod : string; c_name : string; c_image : string; c_language : string }.

(** What a process shows: the target of its exe link, its command, and the lines of its maps, each none
    where it cannot be read. *)
Record process := mk_process { exe : option string; cmdline : option string; maps : option (list string) }.

Definition hasLib (lines : option (list string)) (needle : string) : bool :=
  match lines with Some lines => existsb (contains needle) lines | None => false end.

Definition rank (lang : string) : Z :=
  if String.eqb lang "java" then 5
  else if String.eqb lang "node" then 4
  else if String.eqb lang "python" then 3
  else if String.eqb lang "dotnet" then 2
  else if String.eqb lang "ruby" then 1
  else 0.

Section detect.
Variable ToLower : string -> string.
Variable amd64 : bool.

Definition langFromName (name : string) : string :=
  let n := ToLower name in
  if String.eqb n "java" || has_prefix "java" n then "java"
  else if String.eqb n "node" || String.eqb n "nodejs" then "node"
  else if has_prefix "python" n then "python"
  else if String.eqb n "ruby" then "ruby"
  else if String.eqb n "dotnet" then "dotnet"
  else if String.eqb n "php" || has_prefix "php-fpm" n then "php"
  else "".

Definition detectLang (p : process) : string :=
  let by_exe := match exe p with Some e => langFromName (path_base e) | None => "" end in
  if negb (String.eqb by_exe "") then by_exe
  else match cmdline p with
       | None => ""
       | Some raw =>
           if String.eqb raw "" then ""
           else
             let first := (cut (str1 0) raw).1.1 in
             let by_cmd := langFromName (path_base first) in
             if negb (String.eqb by_cmd "") then by_cmd
             else if hasLib (maps p) "libjvm.so" then "java"
             else if hasLib (maps p) "libcoreclr.so" then "dotnet"
             else ""
       end.

(** What is bundled is for some runtimes only. *)
Definition containerLanguage (p : process) (language : string) : string :=
  if String.eqb language "dotnet" then
    if negb amd64 || negb (hasLib (maps p) "/Microsoft.NETCore.App/8.") then "dotnet-unsupported" else language
  else if String.eqb language "python" then
    if negb amd64 || (negb (hasLib (maps p) "libpython3.13") && negb (String.eqb (path_base (default "" (exe p))) "python3.13"))
       || negb (hasLib (maps p) "ld-musl-")
    then "python-unsupported" else language
  else if String.eqb language "ruby" then
    if negb amd64 || negb (hasLib (maps p) "libruby.so.3.3") || negb (hasLib (maps p) "ld-musl-") then "ruby-unsupported" else language
  else language.

(** The process of an entry of /proc, and the pod and the container that it is in. *)
Variable look : Z -> process.
Variable resolve : Z -> option (string * string).
Variable resolve_container : option (Z -> option (string * string)).   (* the container and its image, when the resolver has them *)

Record scan := mk_scan { byPod : gmap string podLang; byContainer : gmap string container; ambiguous : gset string }.
Definition no_scan : scan := mk_scan ∅ ∅ ∅.

Definition add_container (key : string) (pid : Z) (ns pod lang : string) (s : scan) : scan :=
  match resolve_container with
  | None => s
  | Some f =>
      match f pid with
      | None => s
      | Some (name, image) =>
          let containerKey := key +:+ "/" +:+ name in
          let amb := match byContainer s !! containerKey with
                     | Some previous =>
                         if String.eqb (trim_suffix "-unsupported" (c_language previous)) lang then ambiguous s
                         else {[ containerKey ]} ∪ ambiguous s
                     | None => ambiguous s
                     end in
          mk_scan (byPod s) (<[containerKey := mk_container ns pod name image (containerLanguage (look pid) lang)]> (byContainer s)) amb
      end
  end.
Definition add_pod (key ns pod lang : string) (s : scan) : scan :=
  let take := mk_scan (<[key := mk_lang ns pod lang]> (byPod s)) (byContainer s) (ambiguous s) in
  match byPod s !! key with
  | Some cur => if rank (Language cur) <? rank lang then take else s
  | None => take
  end.
(** An entry of /proc: its name, and whether it is a directory. *)
Definition scan_entry (s : scan) (e : string * bool) : scan :=
  if negb e.2 then s
  else match parse_uint 32 e.1 with
       | None => s
       | Some pid =>
           let lang := detectLang (look pid) in
           if String.eqb lang "" then s
           else match resolve pid with
                | None => s
                | Some (ns, pod) =>
                    if String.eqb ns "" || String.eqb pod "" then s
                    else
                      let key := ns +:+ "/" +:+ pod in
                      add_pod key ns pod lang (add_container key pid ns pod lang s)
                end
       end.

(** What is pushed. *)
Inductive push := PodLanguages (pods : list podLang) | RuntimeLanguages (cluster : string) (containers : list container).

Variable enum : forall A : Type, gmap string A -> list (string * A).
Definition as_ambiguous (c : container) : container := mk_container (c_namespace c) (c_pod c) (c_name c) (c_image c) "ambiguous".
Definition containers_of (s : scan) : list container :=
  (fun e => if bool_decide (e.1 ∈ ambiguous s) then as_ambiguous e.2 else e.2) <$> enum _ (byContainer s).

(** [entries]: those of /proc, none when it cannot be read; [pushed]: whether the languages of pods arrive. *)
Definition scanAndPush (cluster : string) (entries : option (list (string * bool))) (pushed : bool) : list push :=
  match entries with
  | None => []
  | Some entries =>
      let s := foldl scan_entry no_scan entries in
      if bool_decide (byPod s = ∅) then []
      else
        PodLanguages (snd <$> enum _ (byPod s))
        :: (if pushed && negb (String.eqb cluster "") && negb (bool_decide (byContainer s = ∅))
            then [RuntimeLanguages cluster (containers_of s)] else [])
  end.
End detect.
End LangDetect.

(** ** What the reports say *)

Module LangDetectProps.
Import LangDetect.

Section scan.
Variable ToLower : string -> string.
Variable amd64 : bool.
Variable look : Z -> process.
Variable resolve : Z -> option (string * string).
Variable resolve_container : option (Z -> option (string * string)).

(** A process that counts: its pod and language. *)
Definition found (e : string * bool) : option (Z * string * string * string) :=
  if negb e.2 then None
  else pid ← parse_uint 32 e.1;
       let lang := detectLang ToLower (look pid) in
       if String.eqb lang "" then None
       else p ← resolve pid;
            if String.eqb p.1 "" || String.eqb p.2 "" then None else Some (pid, p.1, p.2, lang).
Definition pod_key (f : Z * string * string * string) : string := let '(_, ns, pod, _) := f in ns +:+ "/" +:+ pod.
Definition lang_of (f : Z * string * string * string) : string := f.2.
Definition container_key (f : Z * string * string * string) : option string :=
  g ← resolve_container; c ← g f.1.1.1; Some (pod_key f +:+ "/" +:+ c.1).

Abbreviation entry := (scan_entry ToLower amd64 look resolve resolve_container).
Definition add_found (s : scan) (f : Z * string * string * string) : scan :=
  let '(pid, ns, pod, lang) := f in
  add_pod (pod_key f) ns pod lang (add_container amd64 look resolve_container (pod_key f) pid ns pod lang s).

Lemma entry_found s e : entry s e = match found e with Some f => add_found s f | None => s end.
Proof.
  unfold scan_entry, found. destruct (negb e.2); [done|]. destruct (parse_uint 32 e.1) as [pid|]; [|done]. cbn [mbind option_bind].
  cbv zeta. destruct (String.eqb (detectLang ToLower (look pid)) ""); [done|]. destruct (resolve pid) as [[ns pod]|]; [|done].
  cbn [mbind option_bind fst snd]. by destruct (String.eqb ns "" || String.eqb pod "").
Qed.
Lemma scan_found entries s : foldl entry s entries = foldl add_found s (omap found entries).
Proof.
  revert s. induction entries as [|e entries IH]; intros s; [done|]. cbn [foldl omap list_omap]. rewrite entry_found, IH.
  by destruct (found e).
Qed.

Lemma byPod_container key pid ns pod lang s : byPod (add_container amd64 look resolve_container key pid ns pod lang s) = byPod s.
Proof. unfold add_container. destruct resolve_container as [f|]; [|done]. by destruct (f pid) as [[]|]. Qed.

(** The language of a pod: the first of its processes of the highest rank. *)
Definition better (best : option string) (lang : string) : option string :=
  match best with Some b => if rank b <? rank lang then Some lang else best | None => Some lang end.
Definition best_lang (key : string) (fs : list (Z * string * string * string)) : option string :=
  foldl better None (lang_of <$> filter (fun f => pod_key f = key) fs).

Lemma pod_added s f key : Language <$> byPod (add_found s f) !! key =
  if decide (pod_key f = key) then better (Language <$> byPod s !! key) (lang_of f) else Language <$> byPod s !! key.
Proof.
  destruct f as [[[pid ns] pod] lang]. unfold add_found, add_pod. rewrite byPod_container.
  generalize (pod_key (pid, ns, pod, lang)). intros k. unfold lang_of. cbn [snd].
  destruct (decide (k = key)) as [->|Hne]; destruct (byPod s !! _) as [cur|] eqn:Hk; cbn [fmap option_fmap option_map better];
    try destruct (rank (Language cur) <? rank lang); cbn [byPod]; rewrite ?lookup_insert_eq, ?lookup_insert_ne, ?byPod_container, ?Hk by done; done.
Qed.
Lemma pods_by_best fs s key : Language <$> byPod (foldl add_found s fs) !! key =
  foldl better (Language <$> byPod s !! key) (lang_of <$> filter (fun f => pod_key f = key) fs).
Proof.
  revert s. induction fs as [|f fs IH]; intros s; [done|]. cbn [foldl]. rewrite IH, pod_added, filter_cons.
  by destruct (decide (pod_key f = key)).
Qed.

(** *** Containers *)

Lemma detectLang_plain p : trim_suffix "-unsupported" (containerLanguage amd64 p (detectLang ToLower p)) = detectLang ToLower p.
Proof.
  assert (Hn : forall n, langFromName ToLower n ∈ ["java"; "node"; "python"; "ruby"; "dotnet"; "php"; ""]).
  { intros n. unfold langFromName. cbv zeta.
    repeat match goal with |- context [if ?b then _ else _] => destruct b end; rewrite !elem_of_cons; auto 9. }
  assert (Hl : detectLang ToLower p ∈ ["java"; "node"; "python"; "ruby"; "dotnet"; "php"; ""]).
  { unfold detectLang. cbv zeta.
    repeat match goal with |- context [if ?b then _ else _] => destruct b | |- context [match cmdline p with _ => _ end] => destruct (cmdline p) end;
      first [by destruct (exe p); [apply Hn | rewrite !elem_of_cons; auto 9] | apply Hn | rewrite !elem_of_cons; auto 9]. }
  revert Hl. generalize (detectLang ToLower p). intros l Hl. unfold containerLanguage.
  repeat (apply elem_of_cons in Hl as [->|Hl]); [..|by apply elem_of_nil in Hl]; cbn [String.eqb Ascii.eqb Bool.eqb]; try reflexivity;
    by repeat match goal with |- context [if ?b then _ else _] => destruct b end.
Qed.

(** What a container is told to run: what the last of its processes runs. *)
Definition container_lang (f : Z * string * string * string) : string := containerLanguage amd64 (look f.1.1.1) (lang_of f).
Definition plain (f : Z * string * string * string) : Prop := lang_of f = detectLang ToLower (look f.1.1.1).

Lemma found_plain e f : found e = Some f -> plain f.
Proof.
  unfold found. intros H. destruct (negb e.2); [done|]. destruct (parse_uint 32 e.1) as [pid|]; [|done]. cbn [mbind option_bind] in H. cbv zeta in H.
  destruct (String.eqb (detectLang ToLower (look pid)) ""); [done|]. destruct (resolve pid) as [[ns pod]|]; [|done]. cbn [mbind option_bind fst snd] in H.
  destruct (String.eqb ns "" || String.eqb pod ""); [done|]. by injection H as <-.
Qed.

Definition in_container (key : string) (f : Z * string * string * string) : Prop := container_key f = Some key.
#[export] Instance in_container_dec key f : Decision (in_container key f).
Proof. unfold in_container. apply _. Defined.

Lemma container_added s f key :
  (c_language <$> byContainer (add_found s f) !! key =
     if decide (in_container key f) then Some (container_lang f) else c_language <$> byContainer s !! key)
  /\ (key ∈ ambiguous (add_found s f) <-> key ∈ ambiguous s \/ (in_container key f /\
        exists l, c_language <$> byContainer s !! key = Some l /\ trim_suffix "-unsupported" l <> lang_of f)).
Proof.
  assert (Hpod : forall k ns pod lang x, byContainer (add_pod k ns pod lang x) = byContainer x /\ ambiguous (add_pod k ns pod lang x) = ambiguous x)
    by (intros; unfold add_pod; repeat case_match; done).
  destruct f as [[[pid ns] pod] lang]. unfold add_found. destruct (Hpod (pod_key (pid, ns, pod, lang)) ns pod lang
    (add_container amd64 look resolve_container (pod_key (pid, ns, pod, lang)) pid ns pod lang s)) as [-> ->].
  destruct (decide (in_container key (pid, ns, pod, lang))) as [Hin|Hin]; revert Hin;
    unfold add_container, in_container, container_key, container_lang, lang_of; cbn [fst snd];
    generalize (pod_key (pid, ns, pod, lang)); intros k;
    (destruct resolve_container as [g|]; cbn [mbind option_bind]; [|split; [congruence|naive_solver]]);
    (destruct (g pid) as [[name image]|]; cbn [mbind option_bind fst]; [|split; [congruence|naive_solver]]);
    cbv zeta; cbn [byContainer ambiguous]; generalize (k +:+ "/" +:+ name); intros ck.
  - intros [= ->]. rewrite lookup_insert_eq. split; [done|].
    destruct (byContainer s !! key) as [prev|]; cbn [fmap option_fmap option_map]; [|naive_solver].
    destruct (String.eqb_spec (trim_suffix "-unsupported" (c_language prev)) lang) as [He|He]; set_solver.
  - intros Hne. rewrite lookup_insert_ne by congruence. split; [done|]. destruct (byContainer s !! ck); [|naive_solver].
    destruct (String.eqb _ _); set_solver.
Qed.

Lemma containers_by_last fs key : Forall plain fs ->
  (c_language <$> byContainer (foldl add_found no_scan fs) !! key = container_lang <$> last (filter (in_container key) fs))
  /\ (key ∈ ambiguous (foldl add_found no_scan fs) <->
        exists f g, f ∈ filter (in_container key) fs /\ g ∈ filter (in_container key) fs /\ lang_of f <> lang_of g).
Proof.
  induction fs as [|f fs IH] using rev_ind; [intros _; split; [done|set_solver]|].
  intros [Hfs [Hf _]%Forall_cons]%Forall_app. destruct (IH Hfs) as [Hc Ha]. clear IH.
  rewrite foldl_snoc. destruct (container_added (foldl add_found no_scan fs) f key) as [-> Hamb]. rewrite Hamb, Ha, Hc. clear Hamb Ha Hc.
  rewrite filter_app. destruct (decide (in_container key f)) as [Hin|Hin].
  2: { rewrite filter_cons_False, filter_nil, app_nil_r by done. split; [done|]. split; [by intros [?|[? _]]|by left]. }
  rewrite filter_cons_True, filter_nil, last_snoc by done. split; [done|].
  destruct (last (filter (in_container key) fs)) as [f0|] eqn:Hl; cbn [fmap option_fmap option_map].
  - assert (Hf0 : f0 ∈ filter (in_container key) fs) by (apply last_Some in Hl as [l' ->]; set_solver).
    assert (Hp : plain f0) by (rewrite Forall_forall in Hfs; apply Hfs; by apply list_elem_of_filter in Hf0 as [_ ?]).
    assert (Ht : trim_suffix "-unsupported" (container_lang f0) = lang_of f0)
      by (unfold container_lang; rewrite Hp; apply detectLang_plain).
    split.
    + intros [(a & b & ? & ? & ?)|(_ & l & [= <-] & Hne)]; [exists a, b; rewrite !elem_of_app; tauto|].
      rewrite Ht in Hne. exists f0, f. rewrite !elem_of_app. repeat split; [by left|right; by apply list_elem_of_singleton|done].
    + intros (a & b & Hina & Hinb & Hne). destruct (decide (lang_of f0 = lang_of f)) as [He|He]; [|right; rewrite <- Ht in He; eauto].
      left. rewrite elem_of_app, list_elem_of_singleton in Hina, Hinb.
      destruct Hina as [Hina| ->], Hinb as [Hinb| ->]; [by exists a, b|exists a, f0|exists f0, b|done]; repeat split; congruence.
  - apply last_None in Hl as ->. split; [by intros [(? & ? & ?%elem_of_nil & _)|(_ & ? & ? & _)]|].
    by intros (a & b & ->%list_elem_of_singleton & ->%list_elem_of_singleton & Hne).
Qed.

(** What a list of processes says of a pod: the language of the first of those of the highest rank. *)
Lemma better_first ls b : exists l, foldl better (Some b) ls = Some l /\ rank b <= rank l
  /\ (l = b \/ (rank b < rank l /\ exists pre post, ls = pre ++ l :: post /\ Forall (fun x => rank x < rank l) pre))
  /\ Forall (fun x => rank x <= rank l) ls.
Proof.
  revert b. induction ls as [|x ls IH]; intros b; [exists b; eauto with lia|]. cbn [foldl better].
  destruct (Z.ltb_spec (rank b) (rank x)) as [Hlt|Hge].
  - destruct (IH x) as (l & Hl & Hr & Hat & Hall). exists l. split; [done|]. split; [lia|]. split; [|by constructor].
    right. split; [lia|]. destruct Hat as [->|(? & pre & post & -> & Hpre)].
    + by exists [], ls.
    + exists (x :: pre), post. split; [done|]. constructor; [lia|done].
  - destruct (IH b) as (l & Hl & Hr & Hat & Hall). exists l. split; [done|]. split; [done|]. split; [|constructor; [lia|done]].
    destruct Hat as [->|(Hlt & pre & post & -> & Hpre)]; [by left|]. right. split; [done|]. exists (x :: pre), post.
    split; [done|]. constructor; [lia|done].
Qed.

Lemma best_is_first ls : match foldl better None ls with
  | None => ls = []
  | Some l => exists pre post, ls = pre ++ l :: post /\ Forall (fun x => rank x < rank l) pre /\ Forall (fun x => rank x <= rank l) post
  end.
Proof.
  destruct ls as [|b ls]; [done|]. cbn [foldl better]. destruct (better_first ls b) as (l & -> & _ & Hat & Hall).
  destruct Hat as [->|(Hlt & pre & post & -> & Hpre)]; [by exists [], ls|].
  exists (b :: pre), post. split; [done|]. apply Forall_app in Hall as [_ [_ ?]%Forall_cons]. split; [by constructor|done].
Qed.
End scan.

(** The languages that are reported of a node.  A pod has the language of the first of its processes of
    the highest rank, a container that of its last process, bundled or not, and it is ambiguous exactly
    when its processes are not all of one language. *)
Theorem languages_of_node ToLower amd64 look resolve resolve_container entries :
  let s := foldl (scan_entry ToLower amd64 look resolve resolve_container) no_scan entries in
  let fs := omap (found ToLower look resolve) entries in
  (forall key, match byPod s !! key with
     | None => filter (fun f => pod_key f = key) fs = []
     | Some p => exists pre post, lang_of <$> filter (fun f => pod_key f = key) fs = pre ++ Language p :: post
                 /\ Forall (fun l => rank l < rank (Language p)) pre /\ Forall (fun l => rank l <= rank (Language p)) post
     end)
  /\ (forall key, c_language <$> byContainer s !! key =
        container_lang amd64 look <$> last (filter (in_container resolve_container key) fs))
  /\ (forall key, key ∈ ambiguous s <-> exists f g, f ∈ filter (in_container resolve_container key) fs
        /\ g ∈ filter (in_container resolve_container key) fs /\ lang_of f <> lang_of g).
Proof.
  cbv zeta. rewrite scan_found. set (fs := omap (found ToLower look resolve) entries).
  assert (Hp : Forall (plain ToLower look) fs).
  { apply Forall_forall. intros f (e & _ & He)%list_elem_of_omap. by apply (found_plain _ _ resolve e). }
  split; [|split; intros key; by (eapply (containers_by_last _ _ _ resolve); exact Hp)].
  intros key. pose proof (pods_by_best amd64 look resolve_container fs no_scan key) as H. cbn [byPod no_scan] in H.
  rewrite lookup_empty in H. cbn [fmap option_fmap option_map] in H.
  pose proof (best_is_first (lang_of <$> filter (fun f => pod_key f = key) fs)) as Hb. rewrite <- H in Hb.
  destruct (byPod _ !! key); [done|]. by apply fmap_nil_inv in Hb.
Qed.

(** Of two Python processes in a container the later decides whether its runtime is bundled: what the first
    one maps is not reported. *)
Definition two_pythons (pid : Z) : process :=
  mk_process (Some "/usr/bin/python3.13") (Some "python3.13") (Some (if pid =? 7 then [] else ["/lib/ld-musl-x86_64.so.1"])).
Example last_process_decides :
  containers_of (fun A => map_to_list) (foldl (scan_entry (fun s => s) true two_pythons (fun _ => Some ("shop", "web-0"))
    (Some (fun _ => Some ("app", "web:1")))) no_scan [("7", true); ("self", true); ("8", true)])
  = [mk_container "shop" "web-0" "app" "web:1" "python"].
Proof. vm_compute. reflexivity. Qed.
End LangDetectProps.
