(* ===== verification/ExternalChecks.v ===== *)
(** * Checks that packages bring (internal/checkpackages/verify.go, internal/checks/external_python.go,
    external_response.go)

    A package is a directory with a manifest that an administrator's key has signed and that holds the
    digest of every file.  Before each run of a check the package is verified; the check is a program
    that reads a request and answers with metrics and an inventory, which are looked through before
    they are taken for the host and the instance of the check.

    A directory is a tree; what is at the two directories that the administrator names is an argument,
    as are the digest, the verification of a signature, JSON, the parsing of times, case mapping, the
    clock, the order of maps and the program itself. *)

From S2P Require Import Prelude GoStrings GoFloat Wire Otlp Stamp Cgroup.
#[local] Open Scope Z_scope.

Definition ensure (b : bool) (e : string) : res unit := if b then Ok tt else Err e.

(** ** Names *)
Module Names.

Definition is_lower (z : Z) : bool := (97 <=? z) && (z <=? 122).
Definition is_upper (z : Z) : bool := (65 <=? z) && (z <=? 90).
Definition is_hex (z : Z) : bool := is_digit z || ((97 <=? z) && (z <=? 102)) || ((65 <=? z) && (z <=? 70)).
Definition one_of (l : list Z) (z : Z) : bool := existsb (Z.eqb z) l.

(** A byte of the first class, then at most [most] of the second. *)
Definition name_of (first rest : Z -> bool) (most : Z) (s : string) : bool :=
  match bytes_of s with
  | [] => false
  | b :: bs => first b && forallb rest bs && (Z.of_nat (length bs) <=? most)
  end.

Definition slug : string -> bool := name_of is_lower (fun z => is_lower z || is_digit z || one_of [95; 46; 45] z) 63.
Definition versionSlug : string -> bool :=
  name_of is_digit (fun z => is_lower z || is_upper z || is_digit z || one_of [95; 46; 45] z) 63.
Definition externalMetricName : string -> bool := name_of is_lower (fun z => is_lower z || is_digit z || one_of [95; 46] z) 127.
Definition externalResourceID : string -> bool :=
  name_of (fun z => is_upper z || is_lower z || is_digit z)
          (fun z => is_upper z || is_lower z || is_digit z || one_of [46; 95; 58; 47; 45] z) 127.
Definition externalLabel : string -> bool := name_of is_lower (fun z => is_lower z || is_digit z || (z =? 95)) 31.

Definition externalUUID (s : string) : bool :=
  bool_decide (String.length <$> split "-" s = [8; 4; 4; 4; 12]%nat) && forallb (fun p => forallb is_hex (bytes_of p)) (split "-" s).
End Names.

(** ** Base 64 (encoding/base64, StdEncoding) *)
Module Base64.
Import Names(is_lower, is_upper).

Definition sextet (z : Z) : option Z :=
  if is_upper z then Some (z - 65) else if is_lower z then Some (z - 71) else if is_digit z then Some (z + 4)
  else if z =? 43 then Some 62 else if z =? 47 then Some 63 else None.

(** Four characters at a time; the last four may be padded. *)
Fixpoint quanta (l : list Z) : option (list Z) :=
  match l with
  | [] => Some []
  | a :: b :: c :: d :: rest =>
      a ← sextet a;
      b ← sextet b;
      let one := wrap 8 (Z.shiftl a 2 + Z.shiftr b 4) in
      if d =? 61 then
        match rest with
        | [] => if c =? 61 then Some [one] else c ← sextet c; Some [one; wrap 8 (Z.shiftl b 4 + Z.shiftr c 2)]
        | _ => None
        end
      else
        c ← sextet c;
        d ← sextet d;
        more ← quanta rest;
        Some (one :: wrap 8 (Z.shiftl b 4 + Z.shiftr c 2) :: wrap 8 (Z.shiftl c 6 + d) :: more)
  | _ => None
  end.
(** Line ends are passed over. *)
Definition DecodeString (s : string) : option (list Z) := quanta (filter (fun z => z <> 10 /\ z <> 13) (bytes_of s)).
End Base64.

(** ** Packages *)
Module Packages.
Import Names Cgroup(path_clean, path_join).

Definition maxManifestBytes : Z := 16 * 1024.
Definition maxPackageFileBytes : Z := 512 * 1024.
Definition PublicKeySize : nat := 32.

Record Manifest := mk_manifest {
  Name : string; Version : string; KeyID : string; ProtocolVersion : Z; Runtime : string;
  m_GOOS : string; m_GOARCH : string; IsolationMode : string; Checks : list string; Files : tagmap;
}.

(** What a name stands for: a regular file with its data, none when it cannot be read, a directory, whether
    it can be listed, with its entries in the order of their names, a symbolic link, or anything else. *)
#[warnings="-register-all"]
Inductive node :=
  | FileNode (data : option string)
  | DirNode (listable : bool) (entries : list (string * node))
  | LinkNode
  | OtherNode.

Fixpoint entry_of (es : list (string * node)) (name : string) : option node :=
  match es with [] => None | (k, n) :: es => if String.eqb k name then Some n else entry_of es name end.
(** [Lstat] of a name in a directory. *)
Definition child (n : option node) (name : string) : option node :=
  match n with Some (DirNode _ es) => entry_of es name | _ => None end.

Definition regularPath (n : option node) (directory : bool) : res unit :=
  match n with
  | None => Err "no such path"
  | Some (FileNode _) => ensure (negb directory) "package path is not a regular file or directory"
  | Some (DirNode _ _) => ensure directory "package path is not a regular file or directory"
  | Some _ => Err "package path is not a regular file or directory"
  end.

Definition boundedFile (n : option node) (limit : Z) : res string :=
  _ ← regularPath n false;
  match n with
  | Some (FileNode (Some data)) => _ ← ensure (str_len data <=? limit) "package file exceeds size limit"; Ok data
  | _ => Err "read"
  end.

(** [filepath.Rel] of clean absolute paths. *)
Fixpoint uncommon (base targ : list string) : list string * list string :=
  match base, targ with
  | b :: bs, t :: ts => if String.eqb b t then uncommon bs ts else (base, targ)
  | _, _ => (base, targ)
  end.
Definition path_parts (p : string) : list string := filter (fun s => s <> "") (split "/" p).
Definition Rel (base targ : string) : string :=
  let '(b, t) := uncommon (path_parts base) (path_parts targ) in
  match (((fun _ => "..") <$> b) ++ t)%list with [] => "." | l => join "/" l end.
Definition within (parent child : string) : bool :=
  let rel := Rel parent child in negb (String.eqb rel "..") && negb (has_prefix "../" rel).
Definition IsAbs (p : string) : bool := has_prefix "/" p.

Section verify.
Variable GOOS GOARCH : string.
Variable at_ : string -> option node.                             (* what is at an absolute path *)
Variable decode : string -> option (Manifest * bool).             (* a manifest without unknown fields, and whether nothing follows *)
Variable Sum256 : string -> string.                               (* sha256.Sum256 *)
Variable ed25519_Verify : list Z -> string -> list Z -> bool.

(** A file of the package, by its path in it; the names that were seen. *)
Definition visit (m : Manifest) (rel : string) (n : node) (seen : gset string) : res (gset string) :=
  if String.eqb rel "manifest.json" || String.eqb rel "manifest.sig" then Ok seen
  else match Files m !! rel with
       | None => Err "package contains undeclared or invalid file"
       | Some want =>
           _ ← ensure ((str_len want =? 64) && (has_suffix ".py" rel || has_suffix ".txt" rel)) "package contains undeclared or invalid file";
           data ← boundedFile (Some n) maxPackageFileBytes;
           _ ← ensure (String.eqb (Hex.EncodeToString (Sum256 data)) (map_bytes lower_byte want)) "package file digest mismatch";
           Ok ({[ rel ]} ∪ seen)
       end.

(** [filepath.WalkDir] with the function that visits. *)
Fixpoint walk (m : Manifest) (rel : string) (n : node) (seen : gset string) : res (gset string) :=
  match n with
  | LinkNode => Err "package symlink rejected"
  | DirNode listable es =>
      if listable then
        (fix entries es seen :=
           match es with
           | [] => Ok seen
           | (name, c) :: es =>
               seen ← walk m (if String.eqb rel "" then name else rel +:+ "/" +:+ name) c seen;
               entries es seen
           end) es seen
      else Err "cannot be listed"
  | _ => visit m rel n seen
  end.

Definition valid_rel (rel : string) : bool :=
  negb (String.eqb rel "" || contains "\" rel || IsAbs rel || negb (String.eqb (path_clean rel) rel)
        || has_prefix "../" rel || String.eqb rel "..").

Definition compatible (m : Manifest) (name version : string) : bool :=
  String.eqb (Name m) name && String.eqb (Version m) version && slug (KeyID m) && (ProtocolVersion m =? 1)
  && String.eqb (Runtime m) "python3" && String.eqb (m_GOOS m) GOOS && String.eqb (m_GOARCH m) GOARCH
  && String.eqb (IsolationMode m) "approved-unisolated" && (0 <? Z.of_nat (size (Files m))) && (Z.of_nat (size (Files m)) <=? 32).

(** The manifest of a package directory, as it is written and as it is read. *)
Definition read_manifest (dir : option node) : res (string * Manifest) :=
  raw ← boundedFile (child dir "manifest.json") maxManifestBytes;
  match decode raw with
  | None => Err "invalid manifest"
  | Some (_, false) => Err "manifest has trailing data"
  | Some (m, true) => Ok (raw, m)
  end.

(** The signature of the manifest under the administrator's key. *)
Definition check_signature (dir keys : option node) (raw : string) (m : Manifest) : res unit :=
  keyRaw ← boundedFile (child keys (KeyID m +:+ ".pub")) 256;
  match Base64.DecodeString (trim_space keyRaw) with
  | None => Err "invalid trusted public key"
  | Some key =>
      _ ← ensure (length key =? PublicKeySize)%nat "invalid trusted public key";
      signatureRaw ← boundedFile (child dir "manifest.sig") 256;
      match Base64.DecodeString (trim_space signatureRaw) with
      | None => Err "package signature verification failed"
      | Some signature => ensure (ed25519_Verify key raw signature) "package signature verification failed"
      end
  end.

Definition check_files (dir : option node) (m : Manifest) : res unit :=
  _ ← ensure (bool_decide (is_Some (Files m !! "runner.py"))) "runner digest missing";
  match dir with
  | None => Err "no such path"
  | Some d =>
      seen ← walk m "" d ∅;
      _ ← ensure (size seen =? size (Files m))%nat "manifest declares missing package files";
      ensure (bool_decide (map_Forall (fun rel _ => valid_rel rel = true) (Files m))) "invalid package file path"
  end.

Definition Verify (root trustedKeys name version check : string) : res string :=
  _ ← ensure (slug name && versionSlug version && slug check) "invalid package identity";
  _ ← ensure (IsAbs root && IsAbs trustedKeys) "package and trust directories must be absolute";
  let root := path_clean root in
  let trustedKeys := path_clean trustedKeys in
  _ ← ensure (negb (within root trustedKeys)) "trusted keys must be outside package directory";
  let package := child (at_ root) name in
  let dir := child package version in
  let keys := at_ trustedKeys in
  _ ← regularPath (at_ root) true;
  _ ← regularPath package true;
  _ ← regularPath dir true;
  _ ← regularPath keys true;
  '(raw, m) ← read_manifest dir;
  _ ← ensure (compatible m name version) "package manifest incompatible or unsupported";
  _ ← ensure (existsb (String.eqb check) (Checks m)) "check not declared by package";
  _ ← ensure (forallb slug (Checks m)) "invalid check name in manifest";
  _ ← regularPath (child dir "manifest.json") false;
  _ ← regularPath (child dir "manifest.sig") false;
  _ ← regularPath (child dir "runner.py") false;
  _ ← check_signature dir keys raw m;
  _ ← check_files dir m;
  Ok (path_join [path_join [root; name; version]; "runner.py"]).
End verify.
End Packages.

(** ** What a check answers *)
Module ExternalResponse.
Import Names.

Record Resource := mk_resource {
  ResourceID : string; Type_ : string; R_Name : string; State : string; ParentID : string; ObservedAt : string;
}.
Record externalMetric := mk_external_metric {
  e_Name : string; e_Value : option f64; e_Type : string; e_Unit : string; e_Timestamp : string; e_ResourceID : string; e_Tags : tagmap;
}.
Record externalResponse := mk_response {
  ProtocolVersion : Z; Metrics : list externalMetric; Inventory : list Resource; Status : string; Coverage : string; Error : string;
}.

Definition externalOutputLimit : Z := 2 * 1024 * 1024.
Definition externalUnits : list string := ["boolean"; "fraction"; "percent"; "byte"; "byte_per_second"; "second"; "count"].
Definition externalLabels : list string := ["provider"; "resource_type"; "instance_id"; "node"; "cluster"; "datastore"; "power_state"].

(** [utf8.ValidString]. *)
Fixpoint valid_runes (fuel : nat) (l : list Z) : bool :=
  match fuel, l with
  | S fuel, b :: _ => ((b <? 128) || (1 <? rune_width l)%nat) && valid_runes fuel (drop (rune_width l) l)
  | _, _ => true
  end.
Definition validText (value : string) (limit : Z) : bool :=
  negb (String.eqb value "") && (str_len value <=? limit) && valid_runes (String.length value) (bytes_of value)
  && negb (existsb (one_of [0; 13; 10]) (bytes_of value)).

Section map.
Variable decode : string -> option (externalResponse * bool).       (* without unknown fields; whether nothing follows *)
Variable decode_object : string -> option (option tagmap).          (* an object by its raw fields, or null *)
Variable encode_object : tagmap -> string.
Variable parse_time : string -> option Z.                           (* RFC 3339 *)
Variable clock : nat -> Z.                                          (* the readings of the clock, one after another *)
Variable enum : tagmap -> list (string * string).

(** The time of the [k]-th item; an item whose time is read makes two readings. *)
Definition externalTime (k : nat) (value : string) : option Z :=
  at_ ← parse_time value;
  if (at_ <? clock (2 * k) - 24 * hour) || (clock (2 * k + 1) + 5 * minute <? at_) then None else Some at_.

Definition read_coverage (raw : string) : res tagmap :=
  if String.eqb raw "" || String.eqb raw "null" then Ok ∅
  else match decode_object raw with
       | Some (Some m) => _ ← ensure (Z.of_nat (size m) <=? 32) "external.python: invalid coverage"; Ok m
       | _ => Err "external.python: invalid coverage"
       end.

(** The identifiers that were seen, and how many items. *)
Definition check_resource (acc : res (gset string * nat)) (item : Resource) : res (gset string * nat) :=
  '(seen, k) ← acc;
  _ ← ensure (externalResourceID (ResourceID item) && externalLabel (Type_ item) && negb (bool_decide (ResourceID item ∈ seen))
        && negb (String.eqb (ParentID item) (ResourceID item)) && validText (R_Name item) 256 && validText (State item) 64
        && (String.eqb (ParentID item) "" || externalResourceID (ParentID item))) "external.python: invalid inventory";
  match externalTime k (ObservedAt item) with
  | None => Err "external.python: invalid inventory timestamp"
  | Some _ => Ok ({[ ResourceID item ]} ∪ seen, S k)
  end.

Section core.
Variable instanceID hostID check : string.
Variable coreTags : tagmap.

Definition add_label (acc : res tagmap) (kv : string * string) : res tagmap :=
  tags ← acc;
  let '(key, val) := kv in
  _ ← ensure (externalLabel key && validText val 128) "external.python: invalid label";
  match coreTags !! key with
  | Some fixed => _ ← ensure (String.eqb fixed val) "external.python: core label override"; Ok tags
  | None =>
      _ ← ensure (existsb (String.eqb key) externalLabels && negb (String.eqb key "instance_id" && negb (String.eqb val instanceID))
                  && negb (String.eqb key "provider" && negb (String.eqb val check))) "external.python: unapproved label";
      Ok (<[key := val]> tags)
  end.
Definition metric_tags (item : externalMetric) : res tagmap :=
  _ ← ensure (Z.of_nat (size (e_Tags item)) <=? 16) "external.python: too many labels";
  tags ← foldl add_label (Ok coreTags) (enum (e_Tags item));
  Ok (<["unit" := e_Unit item]> (<["external_resource_id" := e_ResourceID item]> (<["instance_id" := instanceID]> tags))).

(** The metrics so far, the counts that were passed over, and the readings made. *)
Definition map_metric (acc : res (list Metric * Z * nat)) (item : externalMetric) : res (list Metric * Z * nat) :=
  '(metrics, skipped, k) ← acc;
  match e_Value item with
  | None => Err "external.python: invalid metric"
  | Some v =>
      _ ← ensure (externalMetricName (e_Name item) && has_prefix ("telvyn." +:+ check +:+ ".") (e_Name item) && negb (is_nan v)
            && negb (is_inf v) && existsb (String.eqb (e_Unit item)) externalUnits && externalResourceID (e_ResourceID item))
            "external.python: invalid metric";
      match externalTime k (e_Timestamp item) with
      | None => Err "external.python: invalid metric timestamp"
      | Some t =>
          if String.eqb (e_Type item) "count" then Ok (metrics, skipped + 1, S k)
          else
            _ ← ensure (String.eqb (e_Type item) "gauge") "external.python: unsupported metric type";
            tags ← metric_tags item;
            Ok (metrics ++ [mk_metric (Some t) hostID (e_Name item) v "" "" tags "external.python"], skipped, S k)
      end
  end.

Record mapped := mk_mapped { metrics : list Metric; inventory : list Resource; coverage : string; status : string }.

Definition mapExternalResponse (raw : string) : res mapped :=
  _ ← ensure (negb (String.eqb raw "") && (str_len raw <=? externalOutputLimit)) "external.python: empty or oversized response";
  match decode raw with
  | None => Err "external.python: invalid response JSON"
  | Some (_, false) => Err "external.python: trailing response data"
  | Some (r, true) =>
      _ ← ensure ((ProtocolVersion r =? 1) && existsb (String.eqb (Status r)) ["ok"; "partial"; "error"]) "external.python: invalid protocol or status";
      _ ← ensure (negb (String.eqb (Status r) "error")) "external.python: check reported failure";
      _ ← ensure ((Z.of_nat (length (Metrics r)) <=? 500) && (Z.of_nat (length (Inventory r)) <=? 1000) && (str_len (Coverage r) <=? 8192))
            "external.python: result limit exceeded";
      cov ← read_coverage (Coverage r);
      '(_, k) ← foldl check_resource (Ok (∅, 0%nat)) (Inventory r);
      '(metrics, skipped, _) ← foldl map_metric (Ok ([], 0, k)) (Metrics r);
      let '(cov, status) := if 0 <? skipped then (<["unsupported_count_metrics" := itoa skipped]> cov, "partial") else (cov, Status r) in
      _ ← ensure (str_len (encode_object cov) <=? 8192) "external.python: coverage limit exceeded";
      Ok (mk_mapped metrics (Inventory r) (encode_object cov) status)
  end.
End core.
End map.
End ExternalResponse.

(** ** The check (checks/external_python.go) *)
Module ExternalPython.
Import Names ExternalResponse.

Definition externalInputLimit : Z := 1024 * 1024.
Definition externalStderrLimit : Z := 4 * 1024.
Definition ConfigVersionParam : string := "_config_version".

Record Snapshot := mk_snapshot {
  s_ProtocolVersion : Z; CheckID : string; ConfigVersion : Z; HostID : string; Provider : string; s_ObservedAt : string;
  Complete : bool; ClusterMode : string; Resources : list Resource; s_Coverage : tagmap;
}.
Record externalPythonCheck := mk_check {
  id : string; hostID : string; packageName : string; packageVersion : string; checkName : string; packageDir : string;
  trustDir : string; python : string; interval : Z; params : tagmap; staticTags : tagmap; configVersion : Z;
  c_inventory : list Resource; c_coverage : string; c_status : string; report : option Snapshot;
}.
Record externalRequest := mk_request { r_ProtocolVersion : Z; InstanceID : string; r_Params : tagmap; r_StaticTags : tagmap }.

Section create.
Variable getenv : string -> string.
Variable EvalSymlinks : string -> option string.
Variable is_regular : string -> bool.                                          (* [Stat] of the resolved path *)
Variable Verify : string -> string -> string -> string -> string -> res string. (* of the package as it is now *)
Variable ToLower : string -> string.

Definition env_or (key def : string) : string := if String.eqb (getenv key) "" then def else getenv key.
Definition own_params : list string := ["package"; "version"; "check"; ConfigVersionParam].
Definition reserved_params : list string :=
  ["package_dir"; "trust_dir"; "trusted_keys"; "python"; "python_exe"; "isolation_mode"; "execution_mode"; "ingest_token";
   "tenant_id"; "host_uuid"; "host_id"; "instance_id"].
Definition param (cfg : CheckConfig) (key : string) : string := default "" (Params cfg !! key).
Definition request_params (cfg : CheckConfig) : tagmap := filter (fun kv => ToLower kv.1 ∉ own_params) (Params cfg).
Definition approved (endpoint : string) : bool :=
  existsb (fun allowed => negb (String.eqb endpoint "") && String.eqb endpoint (trim_space allowed))
          (split "," (getenv "TELVYN_EXTERNAL_APPROVED_ENDPOINTS")).

Variable enum : tagmap -> list (string * string).
(** What is wrong with a static tag. *)
Definition tag_error (checkId : string) (kv : string * string) : option string :=
  let '(key, val) := kv in
  if String.eqb key "host_uuid" && negb (externalUUID val) then Some "external.python: invalid core host_uuid"
  else if String.eqb key "instance_id" && negb (String.eqb val checkId) then Some "external.python: core instance_id mismatch"
  else if contains "secret" (ToLower key) || contains "password" (ToLower key) || contains "token" (ToLower key)
  then Some "external.python: secret in static tags"
  else None.

Definition newExternalPythonCheck (cfg : option CheckConfig) : res externalPythonCheck :=
  match cfg with
  | None => Err "external.python: check_id must be a UUID"
  | Some cfg =>
      _ ← ensure (externalUUID (CheckId cfg)) "external.python: check_id must be a UUID";
      _ ← ensure (negb (String.eqb (trim_space (CheckHostId cfg)) "")) "external.python: core host_id required";
      let root := env_or "TELVYN_EXTERNAL_PACKAGE_DIR" "/opt/telvyn/integrations/packages" in
      let trust := env_or "TELVYN_EXTERNAL_TRUST_DIR" "/opt/telvyn/integrations/trust" in
      let python := env_or "TELVYN_EXTERNAL_PYTHON" "/usr/bin/python3" in
      _ ← ensure (String.eqb (getenv "TELVYN_EXTERNAL_EXECUTION_MODE") "approved-unisolated")
            "external.python: required isolation mode unsupported; local admin opt-in required";
      _ ← ensure (Packages.IsAbs python) "external.python: local Python executable must be absolute";
      match EvalSymlinks python with
      | None => Err "external.python: Python runtime unavailable"
      | Some resolved =>
          _ ← ensure (is_regular resolved) "external.python: Python runtime unavailable";
          match Verify root trust (param cfg "package") (param cfg "version") (param cfg "check") with
          | Err e => Err ("external.python: package rejected: " +:+ e)
          | Ok _ =>
              _ ← ensure (bool_decide (map_Forall (fun key _ => ToLower key ∉ reserved_params) (Params cfg)))
                    "external.python: reserved remote parameter";
              _ ← ensure (approved (default "" (request_params cfg !! "endpoint"))) "external.python: endpoint not locally approved";
              match head (omap (tag_error (CheckId cfg)) (enum (StaticTags cfg))) with
              | Some e => Err e
              | None =>
                  Ok (mk_check (CheckId cfg) (CheckHostId cfg) (param cfg "package") (param cfg "version") (param cfg "check") root trust
                        resolved (if Interval cfg <=? 0 then minute else Interval cfg) (request_params cfg) (StaticTags cfg)
                        (atoi_value (param cfg ConfigVersionParam)) [] "" "" None)
              end
          end
      end
  end.
End create.

(** *** A run *)

(** What is written up to a limit; whether more was written. *)
Record externalLimitedWriter := mk_writer { content : string; limit : Z; exceeded : bool }.
(** Also whether all was taken. *)
Definition Write (p : string) (w : externalLimitedWriter) : bool * externalLimitedWriter :=
  let remaining := limit w - str_len (content w) in
  if remaining <? str_len p then
    (false, mk_writer (if 0 <? remaining then content w +:+ str_take (Z.to_nat remaining) p else content w) (limit w) true)
  else (true, mk_writer (content w +:+ p) (limit w) (exceeded w)).
(** What a program writes is copied until a write fails. *)
Fixpoint copy (chunks : list string) (w : externalLimitedWriter) : bool * externalLimitedWriter :=
  match chunks with
  | [] => (true, w)
  | p :: chunks => let '(ok, w) := Write p w in if ok then copy chunks w else (false, w)
  end.

(** A program that is started, with its arguments, directory, environment and input; what it writes, whether it
    fails, and the error of the context when its time is over. *)
Record command := mk_command { path : string; args : list string; dir : string; env : list string; stdin : string }.
Record outcome := mk_outcome { stdout : list string; stderr : list string; failed : bool; over : option string }.

Section run.
Variable Verify : string -> string -> string -> string -> string -> res string.
Variable marshal : externalRequest -> string.
Variable exec : command -> outcome.
Variable path_dir : string -> string.                                  (* filepath.Dir *)
Variable decode : string -> option (externalResponse * bool).
Variable decode_object : string -> option (option tagmap).
Variable encode_object : tagmap -> string.
Variable decode_coverage : string -> option (bool * bool * string * string).   (* complete, truncated, mode and endpoint *)
Variable parse_time : string -> option Z.
Variable enum : tagmap -> list (string * string).

Definition invokeExternal (python runner check request : string) : res string * command :=
  let cmd := mk_command python ["-I"; "-B"; runner; "--check"; check] (path_dir runner) ["LANG=C.UTF-8"; "TZ=UTC"] request in
  let o := exec cmd in
  let '(out_ok, out) := copy (stdout o) (mk_writer "" externalOutputLimit false) in
  let '(err_ok, err) := copy (stderr o) (mk_writer "" externalStderrLimit false) in
  (if failed o || negb out_ok || negb err_ok then
     match over o with
     | Some e => Err ("external.python: deadline: " +:+ e)
     | None => if exceeded out || exceeded err then Err "external.python: output limit exceeded" else Err "external.python: runner failed"
     end
   else Ok (content out), cmd).

Definition makeInventoryReport (c : externalPythonCheck) (observed : string) : option Snapshot :=
  if negb (String.eqb (checkName c) "proxmox") || (configVersion c <=? 0) then None
  else match atoi (hostID c) with
       | None => None
       | Some host =>
           if host <=? 0 then None
           else match decode_coverage (c_coverage c) with
                | None => None
                | Some (complete, truncated, mode, endpoint) =>
                    let mode := if existsb (String.eqb mode) ["clustered"; "standalone"] then mode else "unknown" in
                    let endpoint := if existsb (String.eqb endpoint) ["available"; "invalid"] then endpoint else "unavailable" in
                    Some (mk_snapshot 1 (id c) (configVersion c) (hostID c) (checkName c) observed
                            (negb (String.eqb (c_status c) "error") && complete && negb truncated && negb (String.eqb mode "unknown"))
                            mode (c_inventory c) {[ "cluster_status_endpoint" := endpoint ]})
                end
       end.

(** What was learned, and its report. *)
Definition learned (c : externalPythonCheck) (inventory : list Resource) (coverage status started : string) : externalPythonCheck :=
  let c := mk_check (id c) (hostID c) (packageName c) (packageVersion c) (checkName c) (packageDir c) (trustDir c) (python c) (interval c)
             (params c) (staticTags c) (configVersion c) inventory coverage status (report c) in
  mk_check (id c) (hostID c) (packageName c) (packageVersion c) (checkName c) (packageDir c) (trustDir c) (python c) (interval c)
    (params c) (staticTags c) (configVersion c) inventory coverage status (makeInventoryReport c started).

(** A run that started at a time, the readings of the clock while it looks at the answer, and the program that was started. *)
Definition Run (started : string) (clock : nat -> Z) (c : externalPythonCheck) : externalPythonCheck * res (list Metric) * option command :=
  let c := learned c [] "{}" "error" started in
  match Verify (packageDir c) (trustDir c) (packageName c) (packageVersion c) (checkName c) with
  | Err _ => (c, Err "external.python: package verification failed", None)
  | Ok runner =>
      let request := marshal (mk_request 1 (id c) (params c) (staticTags c)) in
      if externalInputLimit <? str_len request then (c, Err "external.python: request too large", None)
      else
        match invokeExternal (python c) runner (checkName c) request with
        | (Err e, cmd) => (c, Err e, Some cmd)
        | (Ok output, cmd) =>
            match mapExternalResponse decode decode_object encode_object parse_time clock enum (id c) (hostID c) (checkName c) (staticTags c) output with
            | Err e => (c, Err e, Some cmd)
            | Ok m => (learned c (inventory m) (coverage m) (status m) started, Ok (metrics m), Some cmd)
            end
        end
  end.
End run.

(** What is posted of a report (internal/otlp/external_inventory.go): the body, or why there is none. *)
Definition PostExternalInventory (parse_time : string -> option Z) (marshal_report : Snapshot -> string) (r : Snapshot) : res string :=
  let host := atoi (HostID r) in
  _ ← ensure (match host with Some h => (0 <? h) && String.eqb (HostID r) (itoa h) | None => false end && (s_ProtocolVersion r =? 1)
        && externalUUID (CheckID r) && (0 <? ConfigVersion r) && String.eqb (Provider r) "proxmox" && (Z.of_nat (length (Resources r)) <=? 1000))
        "invalid external inventory envelope";
  _ ← ensure (bool_decide (is_Some (parse_time (s_ObservedAt r)))) "invalid external inventory observation";
  _ ← ensure (existsb (String.eqb (ClusterMode r)) ["clustered"; "standalone"; "unknown"]) "invalid external inventory cluster mode";
  _ ← ensure (str_len (marshal_report r) <=? 512 * 1024) "external inventory exceeds body limit";
  Ok (marshal_report r).

Definition InventorySnapshot (c : externalPythonCheck) : list Resource * string * string := (c_inventory c, c_coverage c, c_status c).
Definition InventoryReport (c : externalPythonCheck) : option Snapshot := report c.
Definition ID : externalPythonCheck -> string := id.
Definition Interval_ : externalPythonCheck -> Z := interval.
Definition Tags_ : externalPythonCheck -> tagmap := staticTags.
End ExternalPython.

(** * What the checks of packages promise *)

Module ExternalProps.

Lemma ensure_ok {A} b e (f : unit -> res A) x : ensure b e ≫= f = Ok x <-> b = true /\ f tt = Ok x.
Proof. destruct b; cbn; naive_solver. Qed.
Ltac inv_res :=
  repeat match goal with
  | H : (ensure _ _ ≫= _) = Ok _ |- _ => apply ensure_ok in H as [? H]
  | H : ensure ?b _ = Ok _ |- _ => destruct b eqn:?; [clear H|discriminate H]
  | H : (_ ≫= _) = Ok _ |- _ => apply res_bind_ok in H as (? & ? & H)
  end.

(** ** Packages *)
Section packages.
Import Packages Cgroup(path_clean, path_join).
Variable GOOS GOARCH : string.
Variable at_ : string -> option node.
Variable decode : string -> option (Manifest * bool).
Variable Sum256 : string -> string.
Variable ed25519_Verify : list Z -> string -> list Z -> bool.

(** What is not a directory in a tree, by its path. *)
Fixpoint files_under (rel : string) (n : node) : list (string * node) :=
  match n with
  | DirNode _ es =>
      (fix go es :=
         match es with
         | [] => []
         | (name, c) :: es => (files_under (if String.eqb rel "" then name else rel +:+ "/" +:+ name) c ++ go es)%list
         end) es
  | _ => [(rel, n)]
  end.

Definition is_own (rel : string) : Prop := rel = "manifest.json" \/ rel = "manifest.sig".
(** A file whose digest is the one that is declared. *)
Definition declared (m : Manifest) (rel : string) (n : node) : Prop :=
  exists want data, Files m !! rel = Some want /\ n = FileNode (Some data) /\ str_len data <= maxPackageFileBytes
    /\ Hex.EncodeToString (Sum256 data) = map_bytes lower_byte want.

Lemma boundedFile_ok n limit data : boundedFile n limit = Ok data <-> n = Some (FileNode (Some data)) /\ str_len data <= limit.
Proof.
  unfold boundedFile. destruct n as [[[d|]|? ?| |]|]; cbn; try naive_solver.
  destruct (Z.leb_spec (str_len d) limit); cbn; naive_solver lia.
Qed.

Lemma visit_ok m rel n seen seen' : n <> LinkNode -> visit Sum256 m rel n seen = Ok seen' ->
  (is_own rel /\ seen' = seen) \/ (~ is_own rel /\ declared m rel n /\ seen' = {[ rel ]} ∪ seen).
Proof.
  intros _. unfold visit, is_own. destruct (String.eqb_spec rel "manifest.json"); [intros [= <-]; auto|].
  destruct (String.eqb_spec rel "manifest.sig"); [intros [= <-]; auto|]. cbn [orb]. intros H. right. split; [tauto|].
  destruct (Files m !! rel) as [want|] eqn:Hw; [|done]. inv_res. injection H as <-. split; [|done].
  match goal with H : boundedFile _ _ = Ok ?d |- _ => apply boundedFile_ok in H as [[= ->] ?]; exists want, d end.
  repeat split; try done. by apply String.eqb_eq.
Qed.

Lemma node_tree_ind (P : node -> Prop) : (forall data, P (FileNode data)) ->
  (forall l es, Forall (fun e => P e.2) es -> P (DirNode l es)) -> P LinkNode -> P OtherNode -> forall n, P n.
Proof.
  intros Hf Hd Hl Ho. fix IH 1. intros [data|l es| |]; [apply Hf| |exact Hl|exact Ho].
  apply Hd. induction es as [|e es IHes]; [constructor|]. constructor; [apply IH|exact IHes].
Qed.

Lemma tree_walked m : forall n rel seen seen', walk Sum256 m rel n seen = Ok seen' ->
  Forall (fun f => is_own f.1 \/ declared m f.1 f.2) (files_under rel n)
  /\ (forall p, p ∈ seen' <-> p ∈ seen \/ (~ is_own p /\ exists x, (p, x) ∈ files_under rel n)).
Proof.
  assert (Hone : forall rel n seen seen', n <> LinkNode -> visit Sum256 m rel n seen = Ok seen' ->
    Forall (fun f => is_own f.1 \/ declared m f.1 f.2) [(rel, n)]
    /\ (forall p, p ∈ seen' <-> p ∈ seen \/ (~ is_own p /\ exists x, (p, x) ∈ [(rel, n)]))).
  { intros rel n seen seen' Hn [[Ho ->]|(Ho & Hd & ->)]%visit_ok; [..|done]; (split; [constructor; [cbn; tauto|constructor]|]); intros p;
      setoid_rewrite list_elem_of_singleton; set_solver. }
  intros n. induction n as [data|listable es Hes| |] using node_tree_ind; intros rel seen seen'; cbn [walk files_under]; [by apply Hone| |done|by apply Hone].
  destruct listable; [|done]. revert seen. induction Hes as [|[name c] es IH Hes IHes]; intros seen H.
  - injection H as <-. split; [constructor|]. set_solver.
  - apply res_bind_ok in H as (mid & Hc & H). apply IH in Hc as [Hf Hs]. apply IHes in H as [Hf' Hs'].
    split; [by apply Forall_app|]. intros p. rewrite Hs', Hs. setoid_rewrite elem_of_app. naive_solver.
Qed.

Definition package_dir (root name version : string) : option node := child (child (at_ (path_clean root)) name) version.

(** What is run comes with a manifest under a trusted key, and is what the manifest says. *)
Definition trusted (root trust name version check : string) : Prop :=
  exists d raw m keyRaw key sigRaw sig,
    package_dir root name version = Some d
    /\ within (path_clean root) (path_clean trust) = false
    /\ child (Some d) "manifest.json" = Some (FileNode (Some raw)) /\ decode raw = Some (m, true)
    /\ Name m = name /\ Version m = version /\ check ∈ Checks m
    /\ child (at_ (path_clean trust)) (KeyID m +:+ ".pub") = Some (FileNode (Some keyRaw))
    /\ Base64.DecodeString (trim_space keyRaw) = Some key /\ length key = 32%nat
    /\ child (Some d) "manifest.sig" = Some (FileNode (Some sigRaw))
    /\ Base64.DecodeString (trim_space sigRaw) = Some sig /\ ed25519_Verify key raw sig = true
    /\ (forall rel n, (rel, n) ∈ files_under "" d -> is_own rel \/ declared m rel n)
    /\ (forall rel, is_Some (Files m !! rel) <-> ~ is_own rel /\ exists n, (rel, n) ∈ files_under "" d)
    /\ is_Some (Files m !! "runner.py").

Lemma check_files_ok d m : check_files Sum256 (Some d) m = Ok tt ->
  (forall rel n, (rel, n) ∈ files_under "" d -> is_own rel \/ declared m rel n)
  /\ (forall rel, is_Some (Files m !! rel) <-> ~ is_own rel /\ exists n, (rel, n) ∈ files_under "" d)
  /\ is_Some (Files m !! "runner.py").
Proof.
  unfold check_files. intros H. inv_res. to_prop.
  match goal with H : walk _ _ _ _ _ = Ok ?s |- _ => rename s into seen; apply tree_walked in H as [Hf Hs] end.
  rewrite Forall_forall in Hf. split; [|split; [|done]].
  { intros rel n Hin. by apply (Hf (rel, n)). }
  assert (Hsub : seen ⊆ dom (Files m)).
  { intros p [Hp|(Ho & x & Hx)]%Hs; [set_solver|]. destruct (Hf _ Hx) as [?|(want & ? & Hw & _)]; [done|]. by apply elem_of_dom. }
  assert (Heq : seen = dom (Files m)).
  { apply leibniz_equiv, set_subseteq_size_equiv; [done|]. rewrite size_dom.
    match goal with H : (_ =? _)%nat = true |- _ => apply Nat.eqb_eq in H; lia end. }
  intros rel. rewrite <- elem_of_dom, <- Heq, Hs. set_solver.
Qed.

Lemma read_manifest_ok dir raw m : read_manifest decode dir = Ok (raw, m) ->
  child dir "manifest.json" = Some (FileNode (Some raw)) /\ decode raw = Some (m, true).
Proof.
  unfold read_manifest. intros (x & [Hc _]%boundedFile_ok & H)%res_bind_ok.
  by destruct (decode x) as [[m' []]|] eqn:Hd; simplify_eq.
Qed.

Lemma check_signature_ok dir keys raw m : check_signature ed25519_Verify dir keys raw m = Ok tt ->
  exists keyRaw key sigRaw sig,
    child keys (KeyID m +:+ ".pub") = Some (FileNode (Some keyRaw)) /\ Base64.DecodeString (trim_space keyRaw) = Some key
    /\ length key = 32%nat /\ child dir "manifest.sig" = Some (FileNode (Some sigRaw))
    /\ Base64.DecodeString (trim_space sigRaw) = Some sig /\ ed25519_Verify key raw sig = true.
Proof.
  unfold check_signature. intros (kr & [Hk _]%boundedFile_ok & H)%res_bind_ok.
  destruct (Base64.DecodeString (trim_space kr)) as [key|] eqn:Hkey; [|done]. apply ensure_ok in H as [Hl H].
  apply res_bind_ok in H as (sr & [Hs _]%boundedFile_ok & H). destruct (Base64.DecodeString (trim_space sr)) as [sig|] eqn:Hsig; [|done].
  exists kr, key, sr, sig. apply Nat.eqb_eq in Hl. inv_res. done.
Qed.

Lemma Verify_ok root trust name version check runner :
  Verify GOOS GOARCH at_ decode Sum256 ed25519_Verify root trust name version check = Ok runner ->
  trusted root trust name version check /\ runner = path_join [path_join [path_clean root; name; version]; "runner.py"].
Proof.
  unfold Verify. cbv zeta. intros H. inv_res.
  repeat match goal with x : () |- _ => destruct x end.
  match goal with H : read_manifest _ _ = Ok ?p |- _ => destruct p as [raw m]; apply read_manifest_ok in H as [Hraw Hm] end.
  inv_res. repeat match goal with x : () |- _ => destruct x end.
  injection H as <-. split; [|done]. unfold trusted, package_dir. set (dir := child (child (at_ (path_clean root)) name) version) in *.
  match goal with H : check_signature _ _ _ _ _ = _ |- _ => apply check_signature_ok in H as (kr & key & sr & sig & ? & ? & ? & ? & ? & ?) end.
  destruct dir as [d|] eqn:Hd; [|done].
  match goal with H : check_files _ _ _ = _ |- _ => apply check_files_ok in H as (? & ? & ?) end.
  match goal with H : compatible _ _ _ _ _ = true |- _ => unfold compatible in H end. to_prop.
  match goal with H : existsb _ _ = true |- _ => apply existsb_exists in H as (c & ?%list_elem_of_In & ?%String.eqb_eq); subst c end.
  exists d, raw, m, kr, key, sr, sig. repeat split; try done; naive_solver.
Qed.
End packages.

(** ** What is taken from an answer *)
Section response.
Import Names ExternalResponse.
Variable decode : string -> option (externalResponse * bool).
Variable decode_object : string -> option (option tagmap).
Variable encode_object : tagmap -> string.
Variable parse_time : string -> option Z.
Variable clock : nat -> Z.
Variable enum : tagmap -> list (string * string).
Variable instanceID hostID check : string.
Variable coreTags : tagmap.

Definition own_tags : list string := ["instance_id"; "external_resource_id"; "unit"].
(** A metric that is of the host and the instance, with the tags of the check. *)
Definition owned (m : Metric) : Prop :=
  HostId m = hostID /\ Source m = "external.python" /\ has_prefix ("telvyn." +:+ check +:+ ".") (MetricName m) = true
  /\ is_nan (Value m) = false /\ is_inf (Value m) = false /\ Tags m !! "instance_id" = Some instanceID
  /\ (forall k v, coreTags !! k = Some v -> k ∉ own_tags -> Tags m !! k = Some v)
  /\ (forall k, is_Some (Tags m !! k) -> is_Some (coreTags !! k) \/ k ∈ externalLabels \/ k ∈ own_tags).

Definition keeps (tags : tagmap) : Prop :=
  coreTags ⊆ tags /\ (forall k, is_Some (tags !! k) -> is_Some (coreTags !! k) \/ k ∈ externalLabels).

Lemma add_label_keeps tags kv tags' : keeps tags -> add_label instanceID check coreTags (Ok tags) kv = Ok tags' -> keeps tags'.
Proof.
  intros [Hsub Hk]. destruct kv as [key val]. cbn [add_label mbind res_bind]. intros H. inv_res.
  destruct (coreTags !! key) as [fixed|] eqn:Hc; inv_res; injection H as <-; [done|]. to_prop. split.
  - by apply insert_subseteq_r.
  - intros k [v [[<- _]|[_ ?]]%lookup_insert_Some]; [right|by apply Hk; exists v].
    match goal with H : existsb _ _ = true |- _ => apply existsb_exists in H as (c & ?%list_elem_of_In & ?%String.eqb_eq) end. by subst c.
Qed.

Lemma labels_keep l tags tags' : keeps tags -> foldl (add_label instanceID check coreTags) (Ok tags) l = Ok tags' -> keeps tags'.
Proof.
  assert (Herr : forall l e, foldl (add_label instanceID check coreTags) (Err e) l = Err e) by (induction l0; [done|]; intros; apply IHl0).
  revert tags. induction l as [|kv l IH]; intros tags Ht H; [by injection H as <-|]. cbn [foldl] in H.
  destruct (add_label _ _ _ (Ok tags) kv) as [mid|e] eqn:Hm; [|by rewrite Herr in H]. eapply IH; [|done]. by eapply add_label_keeps.
Qed.

Lemma metric_tags_owned item tags : metric_tags enum instanceID check coreTags item = Ok tags ->
  tags !! "instance_id" = Some instanceID
  /\ (forall k v, coreTags !! k = Some v -> k ∉ own_tags -> tags !! k = Some v)
  /\ (forall k, is_Some (tags !! k) -> is_Some (coreTags !! k) \/ k ∈ externalLabels \/ k ∈ own_tags).
Proof.
  unfold metric_tags. intros H. inv_res. injection H as <-.
  match goal with H : foldl _ _ _ = Ok ?t |- _ => rename t into tags; apply labels_keep in H as [Hsub Hk]; [|split; [done|by left]] end.
  split; [|split].
  - rewrite !lookup_insert_ne by done. apply lookup_insert_eq.
  - intros k v Hc Hn. unfold own_tags in Hn. rewrite !not_elem_of_cons in Hn. rewrite !lookup_insert_ne by naive_solver.
    by eapply lookup_weaken.
  - intros k [v [[<- _]|[_ [[<- _]|[_ [[<- _]|[_ Hv]]%lookup_insert_Some]]%lookup_insert_Some]]%lookup_insert_Some];
      [right; right; set_solver..|]. destruct (Hk k (mk_is_Some _ _ Hv)); auto.
Qed.

Abbreviation map1 := (map_metric parse_time clock enum instanceID hostID check coreTags).
Lemma map_metric_owned ms sk k item ms' sk' k' : Forall owned ms -> map1 (Ok (ms, sk, k)) item = Ok (ms', sk', k') ->
  Forall owned ms' /\ (length ms' <= S (length ms))%nat.
Proof.
  intros Hms. cbn [map_metric mbind res_bind]. destruct (e_Value item) as [v|]; [|done]. intros H. inv_res. to_prop.
  destruct (externalTime _ _ _ _) as [t|]; [|done]. destruct (String.eqb (e_Type item) "count"); [injection H as <- <- <-; split; [done|lia]|].
  inv_res. injection H as <- <- <-. rewrite length_app. split; [|cbn; lia].
  apply Forall_app. split; [done|]. constructor; [|constructor].
  match goal with H : metric_tags _ _ _ _ _ = _ |- _ => apply metric_tags_owned in H as (? & ? & ?) end. by repeat split.
Qed.

Lemma map_metrics_owned items ms sk k ms' sk' k' : Forall owned ms -> foldl map1 (Ok (ms, sk, k)) items = Ok (ms', sk', k') ->
  Forall owned ms' /\ (length ms' <= length items + length ms)%nat.
Proof.
  assert (Herr : forall l e, foldl map1 (Err e) l = Err e) by (induction l; [done|]; intros; apply IHl).
  revert ms sk k. induction items as [|item items IH]; intros ms sk k Hms H; [injection H as <- <- <-; split; [done|cbn; lia]|].
  cbn [foldl] in H. destruct (map1 (Ok (ms, sk, k)) item) as [[[ms1 sk1] k1]|e] eqn:H1; [|by rewrite Herr in H].
  apply map_metric_owned in H1 as [Ho Hl]; [|done]. apply IH in H as [Ho' Hl']; [|done]. split; [done|cbn; lia].
Qed.

(** The resources of an inventory are named once. *)
Lemma resources_once items seen k seen' k' : foldl (check_resource parse_time clock) (Ok (seen, k)) items = Ok (seen', k') ->
  NoDup (ResourceID <$> items) /\ (forall r, r ∈ items -> ResourceID r ∉ seen).
Proof.
  assert (Herr : forall l e, foldl (check_resource parse_time clock) (Err e) l = Err e) by (induction l; [done|]; intros; apply IHl).
  revert seen k. induction items as [|item items IH]; intros seen k H; [split; [constructor|set_solver]|].
  cbn [foldl] in H. destruct (check_resource parse_time clock (Ok (seen, k)) item) as [[s1 k1]|e] eqn:H1; [|by rewrite Herr in H].
  cbn [check_resource mbind res_bind] in H1. inv_res. to_prop. destruct (externalTime _ _ _ _); [|done]. injection H1 as <- <-.
  apply IH in H as [Hnd Hni]. split.
  - cbn. constructor; [|done]. intros (r & Hr & Hin)%list_elem_of_fmap. apply (Hni r Hin). set_solver.
  - intros r [->|Hin]%elem_of_cons; [done|]. specialize (Hni r Hin). set_solver.
Qed.

Lemma mapExternalResponse_ok raw m :
  mapExternalResponse decode decode_object encode_object parse_time clock enum instanceID hostID check coreTags raw = Ok m ->
  Forall owned (metrics m) /\ Z.of_nat (length (metrics m)) <= 500
  /\ NoDup (ResourceID <$> inventory m) /\ Z.of_nat (length (inventory m)) <= 1000 /\ str_len (coverage m) <= 8192.
Proof.
  unfold mapExternalResponse. intros H. inv_res. destruct (decode raw) as [[r []]|]; [|done..]. inv_res.
  match goal with H : foldl (check_resource _ _) _ _ = Ok ?p |- _ => destruct p as [s k]; apply resources_once in H as [Hnd _] end.
  inv_res. match goal with H : foldl map1 _ _ = Ok ?p |- _ => destruct p as [[ms sk] k']; apply map_metrics_owned in H as [Ho Hl]; [|done] end.
  cbv zeta in H. to_prop. cbn [length] in Hl.
  destruct (0 <? sk); inv_res; to_prop; injection H as <-; cbn [metrics inventory coverage];
    repeat match goal with H : (_ <=? _) = true |- _ => apply Z.leb_le in H end; (split; [done|split; [lia|done]]).
Qed.
End response.

(** ** Runs *)
Import ExternalPython.

(** What one run has around it: the package as it is now, the program and the times. *)
Record run_env := mk_env {
  en_Verify : string -> string -> string -> string -> string -> res string;
  en_exec : command -> outcome;
  en_started : string;
  en_clock : nat -> Z;
}.

Section runs.
Variable marshal : externalRequest -> string.
Variable path_dir : string -> string.
Variable decode : string -> option (ExternalResponse.externalResponse * bool).
Variable decode_object : string -> option (option tagmap).
Variable encode_object : tagmap -> string.
Variable decode_coverage : string -> option (bool * bool * string * string).
Variable parse_time : string -> option Z.
Variable enum : tagmap -> list (string * string).

Definition run1 (e : run_env) (c : externalPythonCheck) : externalPythonCheck * res (list Metric) * option command :=
  Run (en_Verify e) marshal (en_exec e) path_dir decode decode_object encode_object decode_coverage parse_time enum (en_started e) (en_clock e) c.
Definition runs (es : list run_env) (c : externalPythonCheck) : externalPythonCheck := foldl (fun c e => (run1 e c).1.1) c es.

(** What a run leaves as it was. *)
Definition same_config (c c' : externalPythonCheck) : Prop :=
  id c' = id c /\ hostID c' = hostID c /\ packageName c' = packageName c /\ packageVersion c' = packageVersion c /\ checkName c' = checkName c
  /\ packageDir c' = packageDir c /\ trustDir c' = trustDir c /\ python c' = python c /\ params c' = params c /\ staticTags c' = staticTags c.

Lemma run1_same e c : same_config c (run1 e c).1.1.
Proof.
  unfold run1, Run. cbv zeta. destruct (en_Verify e _ _ _ _ _); [|done]. destruct (_ <? _); [done|].
  destruct (invokeExternal _ _ _ _ _ _) as [[o|] cmd]; [|done]. by destruct (ExternalResponse.mapExternalResponse _ _ _ _ _ _ _ _ _ _ _).
Qed.
Lemma runs_same es c : same_config c (runs es c).
Proof.
  unfold runs. induction es as [|e es IH] using rev_ind; [done|]. rewrite foldl_snoc. destruct (run1_same e (foldl (fun c e => (run1 e c).1.1) c es)) as
    (? & ? & ? & ? & ? & ? & ? & ? & ? & ?), IH as (? & ? & ? & ? & ? & ? & ? & ? & ? & ?). repeat split; congruence.
Qed.

(** The command of a run. *)
Lemma run1_command e c cmd : (run1 e c).2 = Some cmd -> exists runner,
  en_Verify e (packageDir c) (trustDir c) (packageName c) (packageVersion c) (checkName c) = Ok runner
  /\ cmd = mk_command (python c) ["-I"; "-B"; runner; "--check"; checkName c] (path_dir runner) ["LANG=C.UTF-8"; "TZ=UTC"]
             (marshal (mk_request 1 (id c) (params c) (staticTags c))).
Proof.
  unfold run1, Run. cbv zeta. cbn [learned packageDir trustDir packageName packageVersion checkName python id params staticTags].
  destruct (en_Verify e _ _ _ _ _) as [runner|]; [|done]. destruct (_ <? _); [done|].
  unfold invokeExternal. cbv zeta. destruct (copy _ _) as [ok out], (copy _ _) as [ok' err].
  intros H. exists runner. split; [done|]. revert H. destruct (_ || _).
  - by destruct (over _); [|destruct (_ || _)]; intros [= <-].
  - by destruct (ExternalResponse.mapExternalResponse _ _ _ _ _ _ _ _ _ _ _); intros [= <-].
Qed.

(** A run that fails leaves no inventory; one that succeeds gives what its answer says. *)
Lemma run1_result e c : match (run1 e c).1.2 with
  | Err _ => forall s, report (run1 e c).1.1 = Some s -> Complete s = false /\ Resources s = []
  | Ok ms => Forall (owned (id c) (hostID c) (checkName c) (staticTags c)) ms /\ Z.of_nat (length ms) <= 500
  end.
Proof.
  assert (Hr : forall s, report (learned decode_coverage c [] "{}" "error" (en_started e)) = Some s -> Complete s = false /\ Resources s = []).
  { intros s. unfold learned, makeInventoryReport. cbn. destruct (negb _ || _); [done|]. destruct (atoi _) as [h|]; [|done].
    destruct (h <=? 0); [done|]. destruct (decode_coverage _) as [[[[? ?] ?] ?]|]; [|done]. by intros [= <-]. }
  unfold run1, Run. cbv zeta. destruct (en_Verify e _ _ _ _ _) as [runner|]; [|exact Hr]. destruct (_ <? _); [exact Hr|].
  destruct (invokeExternal _ _ _ _ _ _) as [[o|] cmd]; [|exact Hr].
  destruct (ExternalResponse.mapExternalResponse _ _ _ _ _ _ _ _ _ _ _) as [m|] eqn:Hm; [|exact Hr].
  apply mapExternalResponse_ok in Hm as (? & ? & _). done.
Qed.
End runs.

Section create.
Variable getenv : string -> string.
Variable EvalSymlinks : string -> option string.
Variable is_regular : string -> bool.
Variable Verify0 : string -> string -> string -> string -> string -> res string.
Variable ToLower : string -> string.
Variable enum : tagmap -> list (string * string).
Hypothesis enum_all : forall m kv, kv ∈ enum m <-> m !! kv.1 = Some kv.2.

(** The endpoints that the administrator of the host allows. *)
Definition allowed_endpoint (endpoint : string) : Prop :=
  endpoint <> "" /\ exists a, a ∈ split "," (getenv "TELVYN_EXTERNAL_APPROVED_ENDPOINTS") /\ endpoint = trim_space a.

Lemma created cfg c : newExternalPythonCheck getenv EvalSymlinks is_regular Verify0 ToLower enum (Some cfg) = Ok c ->
  getenv "TELVYN_EXTERNAL_EXECUTION_MODE" = "approved-unisolated"
  /\ id c = CheckId cfg /\ hostID c = CheckHostId cfg /\ checkName c = param cfg "check"
  /\ packageName c = param cfg "package" /\ packageVersion c = param cfg "version"
  /\ packageDir c = env_or getenv "TELVYN_EXTERNAL_PACKAGE_DIR" "/opt/telvyn/integrations/packages"
  /\ trustDir c = env_or getenv "TELVYN_EXTERNAL_TRUST_DIR" "/opt/telvyn/integrations/trust"
  /\ EvalSymlinks (env_or getenv "TELVYN_EXTERNAL_PYTHON" "/usr/bin/python3") = Some (python c)
  /\ staticTags c = StaticTags cfg /\ allowed_endpoint (default "" (params c !! "endpoint"))
  /\ (forall k, is_Some (params c !! k) -> (ToLower k ∉ own_params) /\ ToLower k ∉ reserved_params)
  /\ (forall v, StaticTags cfg !! "instance_id" = Some v -> v = CheckId cfg).
Proof.
  unfold newExternalPythonCheck. cbv zeta. intros H. inv_res.
  destruct (EvalSymlinks _) as [py|] eqn:Hpy; [|done]. inv_res. destruct (Verify0 _ _ _ _ _); [|done]. inv_res.
  destruct (head _) eqn:Hh; [done|]. injection H as <-. to_prop. cbn.
  split; [done|]. do 6 (split; [done|]). split; [done|]. do 2 (split; [done|]). split; [|split].
  - match goal with H : approved _ _ = true |- _ => unfold approved in H; apply existsb_exists in H as (al & ?%list_elem_of_In & Ha) end. to_prop.
    split; [done|]. by exists al.
  - intros k [v [Hv Hk]%map_lookup_filter_Some]. split; [done|].
    match goal with H : map_Forall _ _ |- _ => exact (H k v Hv) end.
  - intros v Hv. destruct (omap (tag_error ToLower (CheckId cfg)) (enum (StaticTags cfg))) eqn:Ho; [|done].
    assert (Hin : ("instance_id", v) ∈ enum (StaticTags cfg)) by (by apply enum_all).
    destruct (decide (v = CheckId cfg)) as [|Hne]; [done|]. exfalso.
    apply (not_elem_of_nil (A := string) "external.python: core instance_id mismatch"). rewrite <- Ho. apply list_elem_of_omap.
    exists ("instance_id", v). split; [done|]. unfold tag_error. cbn. by apply String.eqb_neq in Hne as ->.
Qed.
End create.

(** C35: Whatever is in the directories, a program of a check is started only when the package is signed by a key of the
    administrator that is not in the packages, each file of it has the digest that the signed manifest gives, none
    is missing or added, and the program is the one of the package, started without a shell. *)
Theorem signed_package_only GOOS GOARCH at_ decode_manifest Sum256 ed25519_Verify marshal exec path_dir decode decode_object encode_object
    decode_coverage parse_time enum started clock c cmd :
  (Run (Packages.Verify GOOS GOARCH at_ decode_manifest Sum256 ed25519_Verify) marshal exec path_dir decode decode_object encode_object
     decode_coverage parse_time enum started clock c).2 = Some cmd ->
  trusted at_ decode_manifest Sum256 ed25519_Verify (packageDir c) (trustDir c) (packageName c) (packageVersion c) (checkName c)
  /\ path cmd = python c /\ env cmd = ["LANG=C.UTF-8"; "TZ=UTC"]
  /\ args cmd = ["-I"; "-B"; Cgroup.path_join [Cgroup.path_join [Cgroup.path_clean (packageDir c); packageName c; packageVersion c]; "runner.py"];
                 "--check"; checkName c].
Proof.
  intros H. apply (run1_command marshal path_dir decode decode_object encode_object decode_coverage parse_time enum
    (mk_env (Packages.Verify GOOS GOARCH at_ decode_manifest Sum256 ed25519_Verify) exec started clock)) in H as (runner & Hv & ->).
  apply Verify_ok in Hv as [Ht ->]. done.
Qed.

(** C36: A check is made only for an endpoint that the administrator allows, and whatever its program answers, over any
    runs: the request carries the identity of the check and no parameter of the agent's own; the metrics that are taken are
    of its host and instance, are named after it, have numbers, keep its tags but the three that the agent
    sets itself (instance_id, external_resource_id, unit) and have no others but those that are approved, at most 500; and a run that fails reports an inventory that is incomplete and empty. *)
Theorem external_results_owned getenv EvalSymlinks is_regular Verify0 ToLower enum marshal path_dir decode decode_object encode_object
    decode_coverage parse_time cfg c0 es e
    (enum_all : forall m kv, kv ∈ enum m <-> m !! kv.1 = Some kv.2)
    (Hnew : newExternalPythonCheck getenv EvalSymlinks is_regular Verify0 ToLower enum (Some cfg) = Ok c0) :
  let run1 := run1 marshal path_dir decode decode_object encode_object decode_coverage parse_time enum in
  let c := runs marshal path_dir decode decode_object encode_object decode_coverage parse_time enum es c0 in
  let '(c', r, cmd) := run1 e c in
  match r with
  | Ok ms => Forall (owned (CheckId cfg) (CheckHostId cfg) (param cfg "check") (StaticTags cfg)) ms /\ Z.of_nat (length ms) <= 500
  | Err _ => forall s, InventoryReport c' = Some s -> Complete s = false /\ Resources s = []
  end
  /\ (forall cmd', cmd = Some cmd' -> exists ps, stdin cmd' = marshal (mk_request 1 (CheckId cfg) ps (StaticTags cfg))
        /\ allowed_endpoint getenv (default "" (ps !! "endpoint"))
        /\ forall k, is_Some (ps !! k) -> (ToLower k ∉ own_params) /\ ToLower k ∉ reserved_params).
Proof.
  intros run c. destruct (run e c) as [[c' r] cmd] eqn:Hrun.
  apply created in Hnew as (_ & Hid & Hh & Hn & _ & _ & _ & _ & _ & Ht & Hend & Hps & _); [|done].
  destruct (runs_same marshal path_dir decode decode_object encode_object decode_coverage parse_time enum es c0)
    as (Hid' & Hh' & _ & _ & Hn' & _ & _ & _ & Hp' & Ht').
  pose proof (run1_result marshal path_dir decode decode_object encode_object decode_coverage parse_time enum e c) as Hr.
  unfold run in Hrun. rewrite Hrun in Hr. cbn [fst snd] in Hr. split.
  - unfold c in Hr. by rewrite Hid', Hh', Hn', Ht', Hid, Hh, Hn, Ht in Hr.
  - intros cmd' ->. pose proof (run1_command marshal path_dir decode decode_object encode_object decode_coverage parse_time enum e c cmd') as Hc.
    rewrite Hrun in Hc. destruct (Hc eq_refl) as (runner & _ & ->). exists (params c). unfold c. by rewrite Hid', Hp', Ht', Hid, Ht.
Qed.

(** The report of a check whose host is written as a number is posted, unless it is too long. *)
Lemma reports_posted decode_coverage c observed r parse_time marshal_report h :
  makeInventoryReport decode_coverage c observed = Some r -> Names.externalUUID (id c) = true -> hostID c = itoa h -> atoi (hostID c) = Some h ->
  Z.of_nat (length (c_inventory c)) <= 1000 -> is_Some (parse_time observed) ->
  PostExternalInventory parse_time marshal_report r =
    (if str_len (marshal_report r) <=? 512 * 1024 then Ok (marshal_report r) else Err "external inventory exceeds body limit").
Proof.
  unfold makeInventoryReport. intros H Hid Hh Ha Hl Ht. destruct (String.eqb_spec (checkName c) "proxmox") as [Hc|]; [|done].
  destruct (Z.leb_spec (configVersion c) 0) as [|Hv]; [done|]. cbn [negb orb] in H. rewrite Ha in H.
  destruct (Z.leb_spec h 0) as [|Hpos]; [done|]. destruct (decode_coverage _) as [[[[cpl tr] mode] ep]|]; [|done]. cbv zeta in H.
  assert (Hm : existsb (String.eqb (if existsb (String.eqb mode) ["clustered"; "standalone"] then mode else "unknown")) ["clustered"; "standalone"; "unknown"] = true).
  { destruct (existsb (String.eqb mode) ["clustered"; "standalone"]) eqn:He; [|done]. cbn in He |- *.
    destruct (String.eqb mode "clustered"); [done|]. by destruct (String.eqb mode "standalone"). }
  revert H Hm. generalize (if existsb (String.eqb mode) ["clustered"; "standalone"] then mode else "unknown"). intros md [= <-] Hm.
  unfold PostExternalInventory. cbn [HostID s_ProtocolVersion CheckID ConfigVersion Provider Resources s_ObservedAt ClusterMode]. cbv zeta.
  apply Z.ltb_lt in Hpos, Hv. apply Z.leb_le in Hl. rewrite Ha, Hid, Hc, Hh, Hpos, Hv, Hl, Hm, String.eqb_refl, bool_decide_true by done. cbn.
  destruct (str_len (marshal_report _) <=? _); reflexivity.
Qed.

(** *** A package *)
Section example.
Import Packages.

Definition ex_digest (data : string) : string := if String.eqb data "print" then "0123456789abcdef0123456789abcdef" else data.
Definition ex_manifest : Manifest :=
  mk_manifest "virtualization" "1.0.0" "release" 1 "python3" "linux" "amd64" "approved-unisolated" ["proxmox"]
    {[ "runner.py" := Hex.EncodeToString (ex_digest "print") ]}.
Definition ex_key : string := "AAAAAAAAAAAAAAAAAAAAAAAAAAAAAAAAAAAAAAAAAAA=".
Definition ex_signature : string := "AAEC".
Definition ex_tree : node :=
  DirNode true [("virtualization", DirNode true [("1.0.0", DirNode true
    [("manifest.json", FileNode (Some "{}")); ("manifest.sig", FileNode (Some ex_signature)); ("runner.py", FileNode (Some "print"))])])].
Definition ex_at (p : string) : option node :=
  if String.eqb p "/opt/packages" then Some ex_tree
  else if String.eqb p "/opt/trust" then Some (DirNode true [("release.pub", FileNode (Some ex_key))])
  else None.
Definition ex_decode (raw : string) : option (Manifest * bool) := if String.eqb raw "{}" then Some (ex_manifest, true) else None.
Definition ex_ed (key : list Z) (message : string) (sig : list Z) : bool := bool_decide (sig = [0; 1; 2]).
Definition ex_Verify := Verify "linux" "amd64" ex_at ex_decode ex_digest ex_ed.

Definition ex_getenv (k : string) : string :=
  if String.eqb k "TELVYN_EXTERNAL_EXECUTION_MODE" then "approved-unisolated"
  else if String.eqb k "TELVYN_EXTERNAL_APPROVED_ENDPOINTS" then "https://pve:8006, https://other:8006"
  else if String.eqb k "TELVYN_EXTERNAL_PACKAGE_DIR" then "/opt/packages"
  else if String.eqb k "TELVYN_EXTERNAL_TRUST_DIR" then "/opt/trust"
  else "".
Definition ex_uuid : string := "01234567-89ab-cdef-0123-456789abcdef".
Definition ex_cfg : CheckConfig :=
  mk_check_config ex_uuid "external.python" minute
    (list_to_map [("package", "virtualization"); ("version", "1.0.0"); ("check", "proxmox"); ("endpoint", "https://pve:8006"); ("_config_version", "3")])
    {[ "site" := "a" ]} "42" true "".
Definition ex_enum (m : tagmap) : list (string * string) := map_to_list m.
Definition ex_new : res externalPythonCheck :=
  newExternalPythonCheck ex_getenv Some (fun _ => true) ex_Verify (map_bytes lower_byte) ex_enum (Some ex_cfg).
Definition ex_check : externalPythonCheck :=
  match ex_new with Ok c => c | Err _ => mk_check "" "" "" "" "" "" "" "" 0 ∅ ∅ 0 [] "" "" None end.
Definition ex_response : ExternalResponse.externalResponse :=
  ExternalResponse.mk_response 1 [ExternalResponse.mk_external_metric "telvyn.proxmox.up" (Some (f_of_Z 1)) "gauge" "boolean" "now" "node/pve" {[ "node" := "pve" ]}]
    [ExternalResponse.mk_resource "node/pve" "node" "pve" "online" "" "now"] "ok" "" "".
Definition ex_run (Verify : string -> string -> string -> string -> string -> res string) (exec : command -> outcome) :=
  Run Verify (fun _ => "{}") exec (fun p => p) (fun raw => if String.eqb raw "answer" then Some (ex_response, true) else None)
    (fun _ => None) (fun _ => "{}") (fun _ => Some (true, false, "standalone", "available")) (fun _ => Some 0) ex_enum "start" (fun _ => 0).
Definition ex_exec (_ : command) : outcome := mk_outcome ["ans"; "wer"] [] false None.

Lemma ex_enum_all (m : tagmap) kv : kv ∈ ex_enum m <-> m !! kv.1 = Some kv.2.
Proof. destruct kv. apply elem_of_map_to_list. Qed.

(** A run that succeeds gives one metric and a complete inventory. *)
Example external_run :
  let '(c, r, _) := ex_run ex_Verify ex_exec ex_check in
  r = Ok [mk_metric (Some 0) "42" "telvyn.proxmox.up" (f_of_Z 1) "" ""
            {[ "site" := "a"; "node" := "pve"; "instance_id" := ex_uuid; "external_resource_id" := "node/pve"; "unit" := "boolean" ]} "external.python"]
  /\ (Complete <$> InventoryReport c) = Some true.
Proof. vm_compute. split; reflexivity. Qed.
(** A file that the manifest does not name is found. *)
Example added_file : check_files ex_digest
  (Some (DirNode true [("lib", DirNode true [("x.py", FileNode (Some ""))]); ("runner.py", FileNode (Some "print"))])) ex_manifest
  = Err "package contains undeclared or invalid file".
Proof. vm_compute. reflexivity. Qed.
End example.

Lemma ex_check_of : packageDir ex_check = "/opt/packages" /\ trustDir ex_check = "/opt/trust" /\ packageName ex_check = "virtualization"
  /\ packageVersion ex_check = "1.0.0" /\ checkName ex_check = "proxmox".
Proof. vm_compute. repeat split. Qed.
Lemma ex_new_ok : ex_new = Ok ex_check.
Proof. vm_compute. reflexivity. Qed.
Definition ex_json (raw : string) : option (ExternalResponse.externalResponse * bool) :=
  if String.eqb raw "answer" then Some (ex_response, true) else None.
Definition ex_coverage (_ : string) : option (bool * bool * string * string) := Some (true, false, "standalone", "available").

Lemma signed_package_only_witness :
  trusted ex_at ex_decode ex_digest ex_ed "/opt/packages" "/opt/trust" "virtualization" "1.0.0" "proxmox".
Proof.
  pose proof (signed_package_only "linux" "amd64" ex_at ex_decode ex_digest ex_ed (fun _ => "{}") ex_exec (fun p => p) ex_json (fun _ => None)
    (fun _ => "{}") ex_coverage (fun _ => Some 0) ex_enum "start" (fun _ => 0) ex_check) as H.
  destruct (Run _ _ _ _ _ _ _ _ _ _ _ _ _).2 as [cmd|] eqn:Hcmd; [|exfalso; by vm_compute in Hcmd].
  destruct (H cmd eq_refl) as [Ht _]. destruct ex_check_of as (Hd & Htr & Hn & Hv & Hc). by rewrite Hd, Htr, Hn, Hv, Hc in Ht.
Defined.
Lemma external_results_owned_witness :
  exists ms, (run1 (fun _ => "{}") (fun p => p) ex_json (fun _ => None) (fun _ => "{}") ex_coverage (fun _ => Some 0) ex_enum
    (mk_env ex_Verify ex_exec "start" (fun _ => 0)) ex_check).1.2 = Ok ms /\ Forall (owned ex_uuid "42" "proxmox" {[ "site" := "a" ]}) ms.
Proof.
  pose proof (external_results_owned ex_getenv Some (fun _ => true) ex_Verify (map_bytes lower_byte) ex_enum (fun _ => "{}") (fun p => p)
    ex_json (fun _ => None) (fun _ => "{}") ex_coverage (fun _ => Some 0) ex_cfg ex_check []
    (mk_env ex_Verify ex_exec "start" (fun _ => 0)) ex_enum_all ex_new_ok) as H.
  cbv zeta in H. cbn [runs foldl] in H.
  destruct (run1 _ _ _ _ _ _ _ _ _ _) as [[c' r] cmd] eqn:Hr. destruct r as [ms|err]; [|exfalso; by vm_compute in Hr].
  exists ms. split; [done|]. exact (proj1 (proj1 H)).
Defined.
End ExternalProps.
