(* ===== verification/Probes.v ===== *)
(** * Probes of links (internal/checks: http_get.go, http_throughput.go, ssl_cert.go, dns_lookup.go, tcp_connect.go, mtr.go,
    icmp_ping.go, icmp_rtt.go, source_binding.go)

    Each probe is made from the configuration of a check and asks one question of the network; a run gives
    metrics that say whether it was answered, and how fast.  What the network does is an argument of the run:
    an answer with the times at which things happened, or the step that failed.  Times are readings of the
    monotonic clock where durations are measured.

    Parsing of addresses and of times, case mapping, the verification of certificates, JSON, the resolver and
    the library of ICMP are arguments. *)

From S2P Require Import Prelude GoStrings GoFloat Wire DatabaseMonitor OtlpHttp.
#[local] Open Scope Z_scope.

Module Probes.
Import DatabaseMonitor(JoinHostPort) OtlpHttp(SplitHostPort).

(** ** What probes share (source_binding.go) *)

Definition parseIntParam (params : tagmap) (key : string) (def : Z) : Z :=
  match params !! key with
  | None => def
  | Some raw => if String.eqb raw "" then def else default def (atoi raw)
  end.
Definition parseTimeoutMs (params : tagmap) (defaultMs : Z) : Z :=
  let v := parseIntParam params "timeout_ms" defaultMs in
  i64 ((if v <=? 0 then defaultMs else v) * millisecond).

(** How a socket is bound: the address is one of TCP. *)
Record Dialer := mk_dialer { d_Timeout : Z; LocalAddr : option string; bind_device : option string }.
Definition newBindingDialer (ParseIP : string -> option string) (sourceIface sourceIP : string) (timeout : Z) : Dialer :=
  mk_dialer timeout (if String.eqb sourceIP "" then None else ParseIP sourceIP) (if String.eqb sourceIface "" then None else Some sourceIface).
(** A local address of another kind than the network is refused before anything is sent (package net). *)
Definition may_dial (d : Dialer) (network : string) : bool :=
  match LocalAddr d with Some _ => has_prefix "tcp" network | None => true end.

(** What every probe keeps of its configuration. *)
Record probe := mk_probe {
  id : string; interval : Z; hostID : string; target : string; timeout : Z; sourceIface : string; sourceIP : string; staticTags : tagmap;
}.
Definition param (cfg : CheckConfig) (key : string) : string := default "" (Params cfg !! key).
Definition new_probe (kind : string) (cfg : CheckConfig) (target : string) (timeout default_interval : Z) : probe :=
  mk_probe (if String.eqb (CheckId cfg) "" then kind +:+ "-" +:+ CheckHostId cfg else CheckId cfg)
    (if Interval cfg <=? 0 then default_interval else Interval cfg) (CheckHostId cfg) target timeout
    (param cfg "source_iface") (param cfg "source_ip") (StaticTags cfg).
Definition dialer_of (ParseIP : string -> option string) (p : probe) : Dialer := newBindingDialer ParseIP (sourceIface p) (sourceIP p) (timeout p).

Definition metric (p : probe) (source : string) (extra : tagmap) (t : Z) (name : string) (val : f64) : Metric :=
  mk_metric (Some t) (hostID p) name val "" "" (extra ∪ (<["target" := target p]> (staticTags p))) source.
Definition zero : f64 := f_of_Z 0.
Definition one : f64 := f_of_Z 1.
Definition flag (b : bool) : f64 := if b then one else zero.
(** A duration in milliseconds. *)
Definition ms (d : Z) : f64 := fdiv (f_of_Z d) (f_of_Z millisecond).
Definition is_url (target : string) : bool := has_prefix "http://" target || has_prefix "https://" target.

(** ** http.get *)

Record httpGetCheck := mk_http_get {
  h_probe : probe; method : string; expectedStatus : Z; bodyContains : string; headerName : string; headerValue : string; maxResponseMs : Z;
}.
Definition optionalHTTPInt (val : string) (min max : Z) : res Z :=
  if String.eqb (trim_space val) "" then Ok 0
  else match atoi val with
       | Some n => if (n <? min) || (max <? n) then Err "http.get: invalid numeric assertion" else Ok n
       | None => Err "http.get: invalid numeric assertion"
       end.
Definition contains_any (l : list Z) (s : string) : bool := existsb (fun z => existsb (Z.eqb z) l) (bytes_of s).

Definition newHTTPGetCheck (ToUpper : string -> string) (cfg : CheckConfig) : res httpGetCheck :=
  let target := trim_space (param cfg "target") in
  if String.eqb target "" then Err "http.get: missing param 'target'"
  else if negb (is_url target) then Err "http.get: target must begin with http:// or https://"
  else
    let method := ToUpper (trim_space (param cfg "method")) in
    let method := if String.eqb method "" then "GET" else method in
    expectedStatus ← optionalHTTPInt (param cfg "expected_status") 100 599;
    maxResponseMs ← optionalHTTPInt (param cfg "max_response_ms") 1 300000;
    if (4096 <? str_len (param cfg "body_contains")) || (4096 <? str_len (param cfg "expected_header_value"))
    then Err "http.get: assertion exceeds 4096 bytes"
    else
      let headerName := trim_space (param cfg "expected_header_name") in
      if contains_any [13; 10; 58] headerName || (256 <? str_len headerName)
         || (String.eqb headerName "" && negb (String.eqb (param cfg "expected_header_value") ""))
      then Err "http.get: invalid assertion header"
      else Ok (mk_http_get (new_probe "http.get" cfg target (parseTimeoutMs (Params cfg) 5000) (60 * second)) method expectedStatus
                 (param cfg "body_contains") headerName (param cfg "expected_header_value") maxResponseMs).

(** What happened on the way, with the time. *)
Inductive traced := DNSStart | DNSDone | ConnectStart | ConnectDone | TLSHandshakeStart | TLSHandshakeDone | GotFirstResponseByte.
Record timings := mk_timings {
  dnsStart : Z; connectStart : Z; tlsStart : Z; gotFirstByte : Z; dnsMs : f64; connectMs : f64; tlsMs : f64;
}.
Definition no_timings : timings := mk_timings zero_time zero_time zero_time zero_time zero zero zero.
Definition sinceMs (start now : Z) : f64 := if is_zero_time start then zero else ms (time_sub now start).
Definition trace (s : timings) (e : traced * Z) : timings :=
  let t := e.2 in
  match e.1 with
  | DNSStart => mk_timings t (connectStart s) (tlsStart s) (gotFirstByte s) (dnsMs s) (connectMs s) (tlsMs s)
  | DNSDone => mk_timings (dnsStart s) (connectStart s) (tlsStart s) (gotFirstByte s) (sinceMs (dnsStart s) t) (connectMs s) (tlsMs s)
  | ConnectStart => mk_timings (dnsStart s) t (tlsStart s) (gotFirstByte s) (dnsMs s) (connectMs s) (tlsMs s)
  | ConnectDone => mk_timings (dnsStart s) (connectStart s) (tlsStart s) (gotFirstByte s) (dnsMs s) (sinceMs (connectStart s) t) (tlsMs s)
  | TLSHandshakeStart => mk_timings (dnsStart s) (connectStart s) t (gotFirstByte s) (dnsMs s) (connectMs s) (tlsMs s)
  | TLSHandshakeDone => mk_timings (dnsStart s) (connectStart s) (tlsStart s) (gotFirstByte s) (dnsMs s) (connectMs s) (sinceMs (tlsStart s) t)
  | GotFirstResponseByte => mk_timings (dnsStart s) (connectStart s) (tlsStart s) t (dnsMs s) (connectMs s) (tlsMs s)
  end.

(** An answer: its status, the values of a header, what reading at most so many bytes of the body gives, and whether that
    failed. *)
Record response := mk_response { StatusCode : Z; Values : string -> list string; read : Z -> string * bool }.
Inductive http_end := BadRequest | Failed | Answered (r : response).
Definition maxBody : Z := 2 ^ 20.

(** What a client learns of the answer: bytes and the failure of the body. *)
Definition fulfilled (c : httpGetCheck) (r : response) (body : string) (body_failed : bool) (totalMs : f64) : bool :=
  let n := str_len body in
  let ok := if expectedStatus c =? 0 then (200 <=? StatusCode r) && (StatusCode r <? 400) else StatusCode r =? expectedStatus c in
  ok && negb (body_failed
              || (negb (String.eqb (bodyContains c) "") && ((maxBody <? n) || negb (contains (bodyContains c) body)))
              || (negb (String.eqb (headerName c) "")
                  && match Values r (headerName c) with [] => true | v :: _ => negb (String.eqb v (headerValue c)) end)
              || (negb (maxResponseMs c =? 0) && flt (f_of_Z (maxResponseMs c)) totalMs)).

(** [start], when the request is made; [read_at], when the body was read; [now], the time of the metrics. *)
Definition http_run (c : httpGetCheck) (events : list (traced * Z)) (e : http_end) (start read_at now : Z) : list Metric :=
  let p := h_probe c in
  let m := metric p "http" {[ "method" := method c ]} now in
  let s := foldl trace no_timings events in
  match e with
  | BadRequest => [m "http.status" (f_of_Z (-1)); m "http.success" zero]
  | Failed =>
      [m "http.status" (f_of_Z (-1)); m "http.success" zero; m "http.dns_ms" (dnsMs s); m "http.connect_ms" (connectMs s); m "http.tls_ms" (tlsMs s)]
  | Answered r =>
      let ttfb := if is_zero_time (gotFirstByte s) then zero else ms (time_sub (gotFirstByte s) start) in
      let '(body, body_failed) := read r (maxBody + 1) in
      let total := ms (time_sub read_at start) in
      [m "http.status" (f_of_Z (StatusCode r)); m "http.success" (flag (fulfilled c r body body_failed total));
       m "http.dns_ms" (dnsMs s); m "http.connect_ms" (connectMs s); m "http.tls_ms" (tlsMs s); m "http.ttfb_ms" ttfb;
       m "http.total_ms" total; m "http.size_bytes" (f_of_Z (str_len body))]
  end.

(** ** http.throughput *)

Record httpThroughputCheck := mk_throughput { t_probe : probe; maxBytes : Z }.
Definition newHTTPThroughputCheck (cfg : CheckConfig) : res httpThroughputCheck :=
  let target := trim_space (param cfg "target") in
  if String.eqb target "" then Err "http.throughput: missing param 'target'"
  else if negb (is_url target) then Err "http.throughput: target must begin with http:// or https://"
  else Ok (mk_throughput (new_probe "http.throughput" cfg target (parseTimeoutMs (Params cfg) 15000) (5 * minute))
             (Z.max 0 (parseIntParam (Params cfg) "max_bytes" (10 * 1024 * 1024)))).
(** An answer: its status, and how many bytes of its body arrive when at most so many are read, or all. *)
Inductive download := NoDownload | Downloaded (status : Z) (arrives : option Z -> Z).
Definition throughput_run (c : httpThroughputCheck) (e : download) (start read_at now : Z) : list Metric :=
  let m := metric (t_probe c) "http" ∅ now in
  match e with
  | NoDownload => [m "http.throughput_success" zero]
  | Downloaded status arrives =>
      let n := arrives (if 0 <? maxBytes c then Some (maxBytes c) else None) in
      let elapsed := time_sub read_at start in
      let mbps := if (0 <? elapsed) && (0 <? n) then fdiv (fdiv (fmul (f_of_Z n) (f_of_Z 8)) (f_of_Z 1000000)) (seconds elapsed) else zero in
      [m "http.throughput_mbps" mbps; m "http.throughput_bytes" (f_of_Z n); m "http.throughput_ms" (ms elapsed);
       m "http.throughput_success" (flag ((200 <=? status) && (status <? 400) && (0 <? n)))]
  end.

(** ** ssl.cert *)

Record sslCertCheck := mk_ssl { s_probe : probe; serverName : string }.
Definition newSSLCertCheck (cfg : CheckConfig) : res sslCertCheck :=
  let target := trim_space (param cfg "target") in
  if String.eqb target "" then Err "ssl.cert: missing param 'target'"
  else
    let port := trim_space (param cfg "port") in
    let target := match SplitHostPort target with
                  | Some _ => target
                  | None => JoinHostPort target (if String.eqb port "" then "443" else port)
                  end in
    match SplitHostPort target with
    | None => Err "ssl.cert: target"
    | Some (host, _) =>
        let name := trim_space (param cfg "server_name") in
        Ok (mk_ssl (new_probe "ssl.cert" cfg target (parseTimeoutMs (Params cfg) 5000) hour) (if String.eqb name "" then host else name))
    end.

Section ssl.
Context {cert : Type}.
Variable NotAfter : cert -> Z.
Variable Verify : cert -> string -> list cert -> bool.        (* for a name, with intermediate certificates and the roots of the system *)

(** [Duration.Hours]. *)
Definition hours (d : Z) : f64 := fadd (f_of_Z (d ÷ hour)) (fdiv (f_of_Z (Z.rem d hour)) (f_of_Z hour)).
Definition daysUntil (deadline from : Z) : f64 := fdiv (hours (time_sub deadline from)) (f_of_Z 24).
Definition certTrusted (chain : list cert) (serverName : string) : bool :=
  match chain with [] => false | leaf :: rest => Verify leaf serverName rest end.

(** No connection or no handshake, or the certificates of the server, how long the handshake took, and the time after. *)
Inductive handshake := NoHandshake | Shaken (chain : list cert) (elapsed after : Z).
Definition ssl_run (c : sslCertCheck) (e : handshake) (now : Z) : list Metric :=
  let m := metric (s_probe c) "ssl" (if String.eqb (serverName c) "" then ∅ else {[ "server_name" := serverName c ]}) now in
  match e with
  | NoHandshake | Shaken [] _ _ => [m "ssl.error" one]
  | Shaken (leaf :: rest) elapsed after =>
      [m "ssl.days_to_expiry" (daysUntil (NotAfter leaf) after); m "ssl.verified" (flag (certTrusted (leaf :: rest) (serverName c)));
       m "ssl.handshake_ms" (ms elapsed); m "ssl.error" zero]
  end.
End ssl.

(** ** dns.lookup *)

Record dnsLookupCheck := mk_dns { d_probe : probe; server : string; expectedIPs : list string }.
Definition parseExpectedIPs (raw : string) : list string := filter (fun v => v <> "") (trim_space <$> split "," raw).
Definition newDNSLookupCheck (cfg : CheckConfig) : res dnsLookupCheck :=
  let target := trim_space (param cfg "target") in
  if String.eqb target "" then Err "dns.lookup: missing param 'target'"
  else
    let server := trim_space (param cfg "server") in
    Ok (mk_dns (new_probe "dns.lookup" cfg target (parseTimeoutMs (Params cfg) 3000) (30 * second))
          (if negb (String.eqb server "") && negb (contains ":" server) then server +:+ ":53" else server) (parseExpectedIPs (param cfg "expected_ips"))).

Section dns.
Variable ParseIP : string -> option string.                             (* addresses as [IP.Equal] compares them *)
(** The resolver, given how a network and an address are dialled, for a name. *)
Variable LookupIPAddr : (string -> string -> bool) -> string -> option (list string).

Definition ipsAllExpected (got expected : list string) : bool :=
  match got, omap ParseIP expected with
  | [], _ | _, [] => false
  | _, allowed => forallb (fun g => existsb (String.eqb g) allowed) got
  end.
(** [reach]: whether a datagram or a connection gets to an address. *)
Definition dial (c : dnsLookupCheck) (reach : string -> string -> bool) (network address : string) : bool :=
  may_dial (dialer_of ParseIP (d_probe c)) network && reach network (if String.eqb (server c) "" then address else server c).
Definition dns_run (c : dnsLookupCheck) (reach : string -> string -> bool) (elapsed now : Z) : list Metric :=
  let m := metric (d_probe c) "dns" (if String.eqb (server c) "" then ∅ else {[ "server" := server c ]}) now in
  let lookup := LookupIPAddr (dial c reach) (target (d_probe c)) in
  let match_ ok := if bool_decide (expectedIPs c = []) then [] else [m "dns.match" (flag ok)] in
  match lookup with
  | None => [m "dns.rtt_ms" (ms elapsed); m "dns.answers" zero; m "dns.error" one] ++ match_ false
  | Some ips =>
      [m "dns.rtt_ms" (ms elapsed); m "dns.answers" (f_of_Z (Z.of_nat (length ips))); m "dns.error" zero] ++ match_ (ipsAllExpected ips (expectedIPs c))
  end%list.
End dns.

(** ** tcp.connect *)

Definition newTCPConnectCheck (cfg : CheckConfig) : res probe :=
  let target := trim_space (param cfg "target") in
  if String.eqb target "" then Err "tcp.connect: missing param 'target'"
  else if negb (contains ":" target) then Err "tcp.connect: target must be host:port"
  else Ok (new_probe "tcp.connect" cfg target (parseTimeoutMs (Params cfg) 3000) (30 * second)).
Definition tcp_run (p : probe) (connected : bool) (elapsed now : Z) : list Metric :=
  let m := metric p "tcp" ∅ now in
  if connected then [m "tcp.connect_ms" (ms elapsed); m "tcp.success" one] else [m "tcp.success" zero].

(** ** mtr *)

Record mtrCheck := mk_mtr { m_probe : probe; cycles : Z }.
Definition newMTRCheck (cfg : CheckConfig) : res mtrCheck :=
  let target := trim_space (param cfg "target") in
  if String.eqb target "" then Err "mtr: missing param 'target'"
  else Ok (mk_mtr (new_probe "mtr" cfg target (parseTimeoutMs (Params cfg) 15000) (5 * minute)) (Z.max 1 (parseIntParam (Params cfg) "cycles" 3))).
Record hub := mk_hub { Host : string; Loss : f64; Avg : f64 }.
Definition mtr_args (c : mtrCheck) : list string :=
  let p := m_probe c in
  (["--report"; "--report-json"; "--no-dns"; "-c" +:+ itoa (cycles c)]
   ++ (if String.eqb (sourceIface p) "" then [] else ["-I"; sourceIface p])
   ++ (if String.eqb (sourceIP p) "" then [] else ["-a"; sourceIP p]) ++ [target p])%list.
(** How the program ends: it is not there; it exits with a code or is killed, which is the same error; it cannot be run; or
    it writes a report. *)
Inductive mtr_end := NotFound | ExitError | NotRun | Reported (hubs : option (list hub)).
(** The loss of the worst hop before the last, or of the only one. *)
Definition worst_loss (hubs : list hub) : f64 :=
  foldl (fun worst h => if flt worst (Loss h) then Loss h else worst) zero (take (Nat.max 1 (length hubs - 1)) hubs).
Definition mtr_run (c : mtrCheck) (e : mtr_end) (now : Z) : list Metric :=
  let m := metric (m_probe c) "mtr" ∅ now in
  match e with
  | NotFound | NotRun | Reported None => [m "mtr.available" zero]
  | ExitError =>
      [m "mtr.available" one; m "mtr.hops" zero; m "mtr.last_hop_loss_pct" (f_of_Z 100); m "mtr.last_hop_avg_ms" zero;
       m "mtr.worst_hop_loss_pct" (f_of_Z 100)]
  | Reported (Some hubs) =>
      match last hubs with
      | None => [m "mtr.available" one; m "mtr.hops" zero]
      | Some l =>
          [m "mtr.available" one; m "mtr.hops" (f_of_Z (Z.of_nat (length hubs))); m "mtr.last_hop_loss_pct" (Loss l); m "mtr.last_hop_avg_ms" (Avg l);
           m "mtr.worst_hop_loss_pct" (worst_loss hubs)]
      end
  end.

(** ** icmp.ping *)

Record icmpPingCheck := mk_ping { i_probe : probe; count : Z; packetInterval : Z }.
Definition newIcmpPingCheck (cfg : CheckConfig) : res icmpPingCheck :=
  let target := param cfg "target" in
  if String.eqb target "" then Err "icmp.ping: missing param 'target'"
  else
    let positive v def := if v <=? 0 then def else v in
    let count := positive (parseIntParam (Params cfg) "count" 10) 10 in
    let gap := positive (parseIntParam (Params cfg) "packet_interval_ms" 200) 200 in
    let def := i64 (i64 (count * gap) ÷ 1000 + 2) in
    let timeout := positive (parseIntParam (Params cfg) "timeout_seconds" def) def in
    Ok (mk_ping (new_probe "icmp.ping" cfg target (i64 (timeout * second)) (30 * second)) count (i64 (gap * millisecond))).

(** *** Round trips (icmp_rtt.go) *)

Record rttTracker := mk_tracker { sent : gmap Z Z; rtts : list Z }.
Definition newRTTTracker : rttTracker := mk_tracker ∅ [].
Definition onSend (seq now : Z) (t : rttTracker) : rttTracker := mk_tracker (<[seq := now]> (sent t)) (rtts t).
Definition onRecv (seq now : Z) (t : rttTracker) : rttTracker :=
  match sent t !! seq with
  | None => t
  | Some sentAt =>
      let rtt := time_sub now sentAt in
      mk_tracker (delete seq (sent t)) (if rtt <? 0 then rtts t else rtts t ++ [rtt])%list
  end.
(** A packet that is sent, or whose answer arrives, with the time. *)
Inductive packet := Sent (seq now : Z) | Received (seq now : Z).
Definition track (t : rttTracker) (p : packet) : rttTracker :=
  match p with Sent seq now => onSend seq now t | Received seq now => onRecv seq now t end.

Record rttSummary := mk_summary { min : Z; max : Z; avg : Z; stdDev : Z; s_count : Z }.
Definition sum_rtts (l : list Z) : f64 := foldl (fun s r => fadd s (f_of_Z r)) zero l.
Definition sum_squares (mean : f64) (l : list Z) : f64 := foldl (fun s r => let d := fsub (f_of_Z r) mean in fadd s (fmul d d)) zero l.
(** Durations are not negative, so that [Duration(x)] rounds down. *)
Definition summarizeRTTs (l : list Z) : rttSummary :=
  match l with
  | [] => mk_summary 0 0 0 0 0
  | r :: _ =>
      let n := f_of_Z (Z.of_nat (length l)) in
      let mean := fdiv (sum_rtts l) n in
      mk_summary (foldl Z.min r l) (foldl Z.max r l) (f_to_u64 mean) (f_to_u64 (SFsqrt prec emax (fdiv (sum_squares mean l) n))) (Z.of_nat (length l))
  end.

(** The library refuses the target, the run is cancelled or fails, or packets went and came and some were lost. *)
Inductive ping_end := NoPinger (e : string) | Cancelled (e : string) | Broken (e : string) | Pinged (packets : list packet) (loss : f64).
Definition icmp_run (c : icmpPingCheck) (e : ping_end) (now : Z) : res (list Metric) :=
  let m := metric (i_probe c) "icmp" ∅ now in
  match e with
  | NoPinger e => Err ("icmp.ping: NewPinger: " +:+ e)
  | Cancelled e => Err e
  | Broken e => Err ("icmp.ping: run: " +:+ e)
  | Pinged packets loss =>
      let s := summarizeRTTs (rtts (foldl track newRTTTracker packets)) in
      Ok [m "icmp.rtt_avg_ms" (ms (avg s)); m "icmp.rtt_min_ms" (ms (min s)); m "icmp.rtt_max_ms" (ms (max s)); m "icmp.rtt_stddev_ms" (ms (stdDev s));
          m "icmp.loss_pct" loss; m "icmp.jitter_ms" (ms (stdDev s))]
  end.
End Probes.

(** * What probes report *)

Module ProbesProps.
Import Probes.

(** What a check of a page asks for. *)
Record meets (c : httpGetCheck) (r : response) (totalMs : f64) : Prop := {
  meets_status : if decide (expectedStatus c = 0) then 200 <= StatusCode r < 400 else StatusCode r = expectedStatus c;
  meets_read : (read r (maxBody + 1)).2 = false;
  meets_body : bodyContains c <> "" -> str_len (read r (maxBody + 1)).1 <= maxBody /\ contains (bodyContains c) (read r (maxBody + 1)).1 = true;
  meets_header : headerName c <> "" -> head (Values r (headerName c)) = Some (headerValue c);
  meets_time : maxResponseMs c <> 0 -> flt (f_of_Z (maxResponseMs c)) totalMs = false;
}.

Lemma fulfilled_meets c r t : fulfilled c r (read r (maxBody + 1)).1 (read r (maxBody + 1)).2 t = true <-> meets c r t.
Proof.
  unfold fulfilled. cbv zeta. destruct (read r (maxBody + 1)) as [body failed] eqn:Hr. cbn [fst snd].
  rewrite andb_true_iff, negb_true_iff, !orb_false_iff, !andb_false_iff, !negb_false_iff, !String.eqb_eq, Z.eqb_eq, orb_false_iff, Z.ltb_ge, negb_false_iff.
  split.
  - intros (Hs & (((Hf & Hb) & Hh) & Ht)). split; rewrite ?Hr; cbn [fst snd].
    + case_decide as He; [rewrite (proj2 (Z.eqb_eq _ _) He) in Hs|rewrite (proj2 (Z.eqb_neq _ _) He) in Hs]; to_prop; lia.
    + done.
    + intros Hn. by destruct Hb.
    + intros Hn. destruct Hh as [|Hh]; [done|]. destruct (Values r (headerName c)) as [|v vs]; [done|]. to_prop. by subst v.
    + intros Hn. by destruct Ht.
  - intros [Hs Hf Hb Hh Ht]. rewrite Hr in Hf, Hb. cbn [fst snd] in Hf, Hb. split; [|split; [split; [split|]|]].
    + case_decide as He; [rewrite (proj2 (Z.eqb_eq _ _) He)|rewrite (proj2 (Z.eqb_neq _ _) He)]; [|by apply Z.eqb_eq].
      apply andb_true_iff. rewrite Z.leb_le, Z.ltb_lt. lia.
    + done.
    + destruct (decide (bodyContains c = "")); [by left|right; auto].
    + destruct (decide (headerName c = "")) as [|Hn]; [by left|right]. specialize (Hh Hn).
      destruct (Values r (headerName c)); [done|]. injection Hh as ->. by rewrite String.eqb_refl.
    + destruct (decide (maxResponseMs c = 0)); [by left|right; auto].
Qed.

Lemma flag_one b : flag b = one <-> b = true.
Proof. by destruct b. Qed.

(** A page is reported well exactly when it was answered as the check asks; every run says which. *)
Theorem page_verdict c events e start read_at now :
  let success := filter (fun m => MetricName m = "http.success") (http_run c events e start read_at now) in
  exists m, success = [m] /\ (Value m = one <-> exists r, e = Answered r /\ meets c r (ms (time_sub read_at start))) /\ (Value m = one \/ Value m = zero).
Proof.
  cbv zeta. destruct e as [| |r]; cbn [http_run].
  - eexists. split; [reflexivity|]. split; [split; [done|by intros (r & ? & _)]|by right].
  - eexists. split; [reflexivity|]. split; [split; [done|by intros (r & ? & _)]|by right].
  - destruct (read r (maxBody + 1)) as [body failed] eqn:Hr. pose proof (fulfilled_meets c r (ms (time_sub read_at start))) as Hm.
    rewrite Hr in Hm. cbn [fst snd] in Hm. eexists. split; [reflexivity|]. cbn [metric Value]. split.
    + rewrite flag_one, Hm. split; [by exists r|by intros (r' & [= <-] & ?)].
    + unfold flag. destruct (fulfilled _ _ _ _ _); [left|right]; reflexivity.
Qed.

Section dns.
Variable ParseIP : string -> option string.
Variable LookupIPAddr : (string -> string -> bool) -> string -> option (list string).

Lemma ipsAllExpected_spec got expected : ipsAllExpected ParseIP got expected = true <->
  got <> [] /\ forall ip, ip ∈ got -> exists x, x ∈ expected /\ ParseIP x = Some ip.
Proof.
  unfold ipsAllExpected. destruct got as [|g got]; [naive_solver|].
  assert (Hall : forall ip, ip ∈ omap ParseIP expected <-> exists x, x ∈ expected /\ ParseIP x = Some ip) by (intros; apply list_elem_of_omap).
  destruct (omap ParseIP expected) as [|a allowed].
  - split; [done|]. intros [_ H]. exfalso. apply (not_elem_of_nil g), Hall, H. by left.
  - rewrite forallb_forall. split.
    + intros H. split; [done|]. intros ip Hip%list_elem_of_In. apply H, existsb_exists in Hip as (x & Hx%list_elem_of_In & ->%String.eqb_eq). by apply Hall.
    + intros [_ H] ip Hip%list_elem_of_In. apply existsb_exists. exists ip. split; [|apply String.eqb_refl]. by apply list_elem_of_In, Hall, H.
Qed.

(** An address of a source binds a connection, and a question is a datagram: with one, a resolver that has to ask
    never gets an answer. *)
Lemma source_address_fails c reach elapsed now : 
  (forall d name, (forall a, d "udp" a = false) -> LookupIPAddr d name = None) ->
  sourceIP (d_probe c) <> "" -> is_Some (ParseIP (sourceIP (d_probe c))) ->
  exists m, m ∈ dns_run ParseIP LookupIPAddr c reach elapsed now /\ MetricName m = "dns.error" /\ Value m = one.
Proof.
  intros Hl Hs [ip Hip]. unfold dns_run. rewrite Hl.
  - eexists. split; [right; right; left|done].
  - intros a. unfold dial, may_dial, dialer_of, newBindingDialer. apply String.eqb_neq in Hs. by rewrite Hs, Hip.
Qed.
End dns.

(** ** Round trips *)

Definition seq_of (p : packet) : Z := match p with Sent q _ | Received q _ => q end.
(** When the number was sent, if that is the last that was heard of it. *)
Fixpoint outstanding (seq : Z) (past : list packet) : option Z :=
  match past with
  | [] => None
  | p :: past => if decide (seq_of p = seq) then match p with Sent _ t => Some t | Received _ _ => None end else outstanding seq past
  end.
(** What the packets say, the last first: each answer to what is outstanding, with the time since, if any passed. *)
Fixpoint round_trips (past : list packet) : list Z :=
  match past with
  | [] => []
  | Sent _ _ :: past => round_trips past
  | Received q now :: past =>
      match outstanding q past with
      | Some t => if time_sub now t <? 0 then round_trips past else round_trips past ++ [time_sub now t]
      | None => round_trips past
      end
  end%list.

Lemma tracked packets :
  rtts (foldl track newRTTTracker packets) = round_trips (reverse packets)
  /\ forall q, sent (foldl track newRTTTracker packets) !! q = outstanding q (reverse packets).
Proof.
  induction packets as [|p packets [IHr IHs]] using rev_ind; [done|]. rewrite foldl_snoc, reverse_snoc.
  set (t := foldl track newRTTTracker packets) in *. destruct p as [q now|q now]; cbn [track onSend round_trips outstanding seq_of].
  - split; [done|]. intros q'. unfold onSend. cbn [sent]. rewrite <- IHs. case_decide; [subst; apply lookup_insert_eq|]. by apply lookup_insert_ne.
  - unfold onRecv. rewrite IHs. destruct (outstanding q (reverse packets)) as [at_|] eqn:Ho.
    + cbn [rtts sent]. rewrite IHr. split; [done|]. intros q'. case_decide; [subst; apply lookup_delete_eq|]. rewrite <- IHs. by apply lookup_delete_ne.
    + split; [done|]. intros q'. case_decide; [subst; by rewrite IHs|done].
Qed.

Lemma round_trips_nonneg past : Forall (Z.le 0) (round_trips past).
Proof.
  induction past as [|[q t|q t] past IH]; cbn; [constructor|done|]. destruct (outstanding q past); [|done].
  destruct (Z.ltb_spec (time_sub t z) 0); [done|]. apply Forall_app. by repeat constructor.
Qed.

Lemma foldl_min_spec l r : let m := foldl Z.min r l in (m = r \/ m ∈ l) /\ m <= r /\ Forall (Z.le m) l.
Proof.
  cbv zeta. revert r. induction l as [|x l IH]; intros r; cbn; [split; [by left|split; [lia|constructor]]|].
  destruct (IH (Z.min r x)) as (Hin & Hle & Hall). split; [|split; [lia|constructor; [lia|done]]].
  destruct Hin as [Hin|]; [|right; by right]. destruct (Z.min_spec r x) as [[_ He]|[_ He]]; rewrite He in Hin |- *; [by left|right; rewrite Hin; left].
Qed.
Lemma foldl_max_spec l r : let m := foldl Z.max r l in (m = r \/ m ∈ l) /\ r <= m /\ Forall (Z.ge m) l.
Proof.
  cbv zeta. revert r. induction l as [|x l IH]; intros r; cbn; [split; [by left|split; [lia|constructor]]|].
  destruct (IH (Z.max r x)) as (Hin & Hle & Hall). split; [|split; [lia|constructor; [lia|done]]].
  destruct Hin as [Hin|]; [|right; by right]. destruct (Z.max_spec r x) as [[_ He]|[_ He]]; rewrite He in Hin |- *; [right; rewrite Hin; left|by left].
Qed.

(** However answers come, late, twice or to nothing that was sent, each round trip that is measured is the time since its
    number was last sent and not answered, none is negative, and the least and the greatest are two of them. *)
Theorem round_trips_measured packets :
  let l := rtts (foldl track newRTTTracker packets) in
  let s := summarizeRTTs l in
  l = round_trips (reverse packets) /\ Forall (fun r => min s <= r <= max s) l /\ (l <> [] -> min s ∈ l /\ max s ∈ l) /\ 0 <= min s
  /\ s_count s = Z.of_nat (length l).
Proof.
  cbv zeta. destruct (tracked packets) as [Ht _]. set (l := rtts _) in *. split; [done|].
  assert (Hn : Forall (Z.le 0) l) by (rewrite Ht; apply round_trips_nonneg).
  destruct l as [|r l]; [split; [constructor|split; [done|split; [cbn; lia|done]]]|].
  cbn [summarizeRTTs min max s_count]. pose proof (foldl_min_spec (r :: l) r) as (Hin & Hle & Hall).
  pose proof (foldl_max_spec (r :: l) r) as (Hin' & Hle' & Hall'). cbv zeta in *.
  rewrite Forall_forall in Hall, Hall', Hn. split; [|split; [|split; [|done]]].
  - apply Forall_forall. intros x Hx. specialize (Hall x Hx). specialize (Hall' x Hx). lia.
  - intros _. split; [destruct Hin as [->|]|destruct Hin' as [->|]]; [by left|done|by left|done].
  - apply Hn. destruct Hin as [->|]; [by left|done].
Qed.

(** The packet that is answered late counts once. *)
Example late_answer : rtts (foldl track newRTTTracker [Sent 1 10; Sent 2 20; Received 2 25; Received 2 30; Received 1 50; Received 3 60]) = [5; 40].
Proof. vm_compute. reflexivity. Qed.
End ProbesProps.
