(* ===== verification/Discovery.v ===== *)
(** * Discovery of hosts (internal/discovery/snmp_scan.go; internal/checks: snmp_autodiscover.go, icmp_scan.go, events.go)

    The addresses of networks are written out, asked one after another with a limit on how many are asked at
    a time, and the hosts that answer become events.  The two scans write a network out differently.

    The parsing of a network, the text of an address, the clients of SNMP and ICMP, the order in which answers come,
    case folding and the test of a structure are arguments. *)

From S2P Require Import Prelude GoStrings GoFloat Wire Snmp Probes.
#[local] Open Scope Z_scope.

Module Discovery.

(** ** Networks *)

(** The address of a network, four or sixteen bytes, and the length of its prefix. *)
Record IPNet := mk_net { IP : list Z; ones : Z }.
Definition bits (n : IPNet) : Z := 8 * Z.of_nat (length (IP n)).
(** How many addresses it has. *)
Definition net_size (n : IPNet) : Z := Z.shiftl 1 (bits n - ones n).
(** [To4] gives an address. *)
Definition is4 (ip : list Z) : bool :=
  (length ip =? 4)%nat || ((length ip =? 16)%nat && bool_decide (take 12 ip = replicate 10 0 ++ [255; 255])).
(** [Contains], for an address of as many bytes: the bits of the prefix are those of the network. *)
Definition Contains (n : IPNet) (ip : list Z) : bool := be_value 0 ip / net_size n =? be_value 0 (IP n) / net_size n.

(** The last byte is raised first. *)
Fixpoint inc_rev (l : list Z) : list Z :=
  match l with
  | [] => []
  | b :: l => let b' := wrap 8 (b + 1) in if b' =? 0 then b' :: inc_rev l else b' :: l
  end.
Definition ipInc (ip : list Z) : list Z := reverse (inc_rev (reverse ip)).
Definition incIP (ip : list Z) : list Z := reverse (inc_rev (reverse ip)).

Section scan.
Variable ParseCIDR : string -> option IPNet.
Variable String_ : list Z -> string.

Fixpoint count_up (size : nat) (ip : list Z) : list string :=
  match size with O => [] | S size => String_ ip :: count_up size (ipInc ip) end.
Definition hostsInCIDR (cidr : string) : res (list string) :=
  match ParseCIDR (trim_space cidr) with
  | None => Err "invalid CIDR"
  | Some n =>
      if negb (is4 (IP n)) then Err "ipv6 not supported"
      else
        let size := net_size n in
        let out := count_up (Z.to_nat size) (IP n) in
        Ok (if 2 <? size then take (length out - 2) (drop 1 out) else out)
  end.

(** The addresses of all networks, each once. *)
Definition add_host (acc : gset string * list string) (h : string) : gset string * list string :=
  if bool_decide (h ∈ acc.1) then acc else ({[ h ]} ∪ acc.1, acc.2 ++ [h])%list.
Fixpoint gather (cidrs : list string) (acc : gset string * list string) : res (list string) :=
  match cidrs with
  | [] => Ok acc.2
  | cidr :: cidrs =>
      match hostsInCIDR cidr with
      | Err e => Err ("discovery: cidr: " +:+ e)
      | Ok hs => gather cidrs (foldl add_host acc hs)
      end
  end.

(** ** The scan over SNMP *)

Record ScanParams := mk_scan_params {
  Version : string; Community : string; V3User : string; V3AuthProto : string; V3AuthPass : string; V3PrivProto : string; V3PrivPass : string;
  V3ContextName : string; PerHostTimeout : Z; Concurrency : Z; BatchSleep : Z;
}.
Record Candidate := mk_candidate { c_IP : string; c_SysObjectID : string; ProfileSuggestion : string; Port : Z; DiscoveredAt : Z }.
Definition with_defaults (p : ScanParams) : ScanParams :=
  mk_scan_params (Version p) (Community p) (V3User p) (V3AuthProto p) (V3AuthPass p) (V3PrivProto p) (V3PrivPass p) (V3ContextName p)
    (if PerHostTimeout p <=? 0 then second else PerHostTimeout p) (if Concurrency p <=? 0 then 50 else Concurrency p)
    (if BatchSleep p <? 0 then 0 else BatchSleep p).
Definition firstNonEmpty (a b : string) : string := if String.eqb (trim_space a) "" then b else a.
Definition params_of (p : ScanParams) (ip : string) : Snmp.Params :=
  Snmp.mk_params (ip +:+ ":161") (firstNonEmpty (Version p) "v2c") (PerHostTimeout p) (Community p) (V3User p) (V3AuthProto p) (V3AuthPass p)
    (V3PrivProto p) (V3PrivPass p) (V3ContextName p).

(** The sysObjectID of a device, none when there is no client or no answer in time; and the time then. *)
Variable GetSysObjectID : Snmp.Params -> option (string * Z).

Definition scanOne (p : ScanParams) (profiles : option (list Snmp.Profile)) (ip : string) : option Candidate :=
  answer ← GetSysObjectID (params_of p ip);
  let sysOid := trim_space answer.1 in
  if String.eqb sysOid "" then None
  else Some (mk_candidate ip sysOid
         (match profiles with
          | Some ps => match Snmp.MatchSysObjectID (Some <$> ps) sysOid with Some q => Snmp.Name q | None => "" end
          | None => ""
          end) 161 (answer.2)).
(** [started]: how many are asked before the context ends; [order]: in which order they answer.  The pauses between hosts and the
    limit on how many are asked at a time only take time. *)
Definition ScanSNMP (cidrs : list string) (p : ScanParams) (profiles : option (list Snmp.Profile)) (started : nat)
    (order : list Candidate -> list Candidate) : res (list Candidate) :=
  let p := with_defaults p in
  hosts ← gather cidrs (∅, []);
  Ok (order (omap (scanOne p profiles) (take started hosts))).

(** ** Events *)

Inductive details := OfSNMP (sysobjectid profile_suggestion : string) (port : f64) | OfICMP (source : string) (rtt_ms : f64).
Record Event := mk_event { e_Time : Z; e_HostId : string; EventType : string; Severity : string; Details : details }.
(** What is handed over: without a channel nothing, nor to one that is full. *)
Inductive channel := NoChannel | Full | Room.
Definition emit (ch : channel) (events : list Event) : list Event := match ch with Room => events | _ => [] end.
Variable NewStruct : details -> bool.
Definition event_of (now : Z) (ip : string) (d : details) : option Event :=
  if NewStruct d then Some (mk_event now ip "host.discovered" "info" d) else None.

Definition atoiDefault (raw : string) (def : Z) : Z :=
  let s := trim_space raw in
  if String.eqb s "" then def
  else match atoi s with Some n => if n <=? 0 then def else n | None => def end.
Definition param (cfg : CheckConfig) (key : string) : string := default "" (Params cfg !! key).
Definition list_of (raw : string) : list string := filter (fun p => p <> "") (trim_space <$> split "," raw).
Variable EqualFold : string -> string -> bool.
Definition once (cfg : CheckConfig) : bool := EqualFold (trim_space (param cfg "run_once")) "true".
Definition check_id (kind : string) (cfg : CheckConfig) : string :=
  if String.eqb (CheckId cfg) "" then kind +:+ "-" +:+ CheckHostId cfg else CheckId cfg.

(** *** snmp.autodiscover *)

Record snmpAutodiscoverCheck := mk_autodiscover {
  s_id : string; s_interval : Z; s_hostID : string; s_staticTags : tagmap; s_cidrs : list string; scanParams : ScanParams; s_runOnce : bool; s_done : bool;
}.
Definition newSnmpAutodiscoverCheck (cfg : CheckConfig) : res snmpAutodiscoverCheck :=
  let rawCidrs := trim_space (param cfg "cidrs") in
  if String.eqb rawCidrs "" then Err "snmp.autodiscover: param 'cidrs'"
  else match list_of rawCidrs with
       | [] => Err "snmp.autodiscover: param 'cidrs'"
       | cidrs =>
           let version := trim_space (param cfg "version") in
           Ok (mk_autodiscover (check_id "snmp.autodiscover" cfg) (if Interval cfg <=? 0 then hour else Interval cfg) (CheckHostId cfg) (StaticTags cfg) cidrs
                 (mk_scan_params (if String.eqb version "" then "v2c" else version) (param cfg "community") (param cfg "v3_user") (param cfg "v3_auth_proto")
                    (param cfg "v3_auth_pass") (param cfg "v3_priv_proto") (param cfg "v3_priv_pass") (param cfg "v3_context")
                    (i64 (atoiDefault (param cfg "per_host_timeout_ms") 1000 * millisecond)) (atoiDefault (param cfg "concurrency") 50)
                    (i64 (atoiDefault (param cfg "batch_sleep_ms") 50 * millisecond))) (once cfg) false)
       end.
Definition s_mark (c : snmpAutodiscoverCheck) : snmpAutodiscoverCheck :=
  if s_runOnce c then mk_autodiscover (s_id c) (s_interval c) (s_hostID c) (s_staticTags c) (s_cidrs c) (scanParams c) (s_runOnce c) true else c.
(** [scan]: what the scan of networks with parameters gives. *)
Definition autodiscover_run (scan : list string -> ScanParams -> res (list Candidate)) (ch : channel) (now : Z) (c : snmpAutodiscoverCheck) :
    snmpAutodiscoverCheck * res unit * list Event :=
  if s_runOnce c && s_done c then (c, Ok tt, [])
  else match scan (s_cidrs c) (scanParams c) with
       | Err e => (c, Err ("snmp.autodiscover scan: " +:+ e), [])
       | Ok cands =>
           (s_mark c, Ok tt,
            emit ch (omap (fun x => event_of now (c_IP x) (OfSNMP (c_SysObjectID x) (ProfileSuggestion x) (f_of_Z (Port x)))) cands))
       end.

(** ** The scan over ICMP *)

Definition maxIPs : nat := 4096.
Definition kept (n : IPNet) (last : Z) : bool := negb ((bits n =? 32) && (ones n <? 31) && ((last =? 0) || (last =? 255))).
(** From an address on, while it is in the network. *)
Fixpoint expand_net (fuel : nat) (n : IPNet) (ip : list Z) (out : list string) : option (res (list string)) :=
  match fuel with
  | O => None
  | S fuel =>
      if negb (Contains n ip) then Some (Ok out)
      else if negb (kept n (List.last ip 0)) then expand_net fuel n (incIP ip) out
      else
        let out := (out ++ [String_ ip])%list in
        if (maxIPs <? length out)%nat then Some (Err "icmp.scan: too many addresses") else expand_net fuel n (incIP ip) out
  end.
Fixpoint expandCIDRs (fuel : nat) (cidrs : list string) (out : list string) : option (res (list string)) :=
  match cidrs with
  | [] => Some (Ok out)
  | c :: cidrs =>
      match ParseCIDR c with
      | None => Some (Err "parse")
      | Some n =>
          match expand_net fuel n (IP n) out with
          | Some (Ok out) => expandCIDRs fuel cidrs out
          | other => other
          end
      end
  end.
(** Three steps for each address that is kept, and those after the last. *)
Definition enough : nat := (3 * maxIPs + 6)%nat.

Record icmpScanCheck := mk_icmp_scan {
  i_id : string; i_interval : Z; i_hostID : string; i_staticTags : tagmap; i_cidrs : list string; concurrency : Z; perHost : Z; i_count : Z;
  i_runOnce : bool; i_done : bool;
}.
Definition newIcmpScanCheck (cfg : CheckConfig) : res icmpScanCheck :=
  let rawCidrs := trim_space (param cfg "cidrs") in
  if String.eqb rawCidrs "" then Err "icmp.scan: param 'cidrs'"
  else
    let cidrs := list_of rawCidrs in
    if negb (forallb (fun p => bool_decide (is_Some (ParseCIDR p))) cidrs) then Err "icmp.scan: CIDR"
    else if bool_decide (cidrs = []) then Err "icmp.scan: param 'cidrs'"
    else Ok (mk_icmp_scan (check_id "icmp.scan" cfg) (if Interval cfg <=? 0 then 5 * minute else Interval cfg) (CheckHostId cfg) (StaticTags cfg) cidrs
               (atoiDefault (param cfg "concurrency") 50) (i64 (atoiDefault (param cfg "per_host_timeout_ms") 500 * millisecond))
               (atoiDefault (param cfg "count") 1) (once cfg) false).
Definition i_mark (c : icmpScanCheck) : icmpScanCheck :=
  if i_runOnce c then
    mk_icmp_scan (i_id c) (i_interval c) (i_hostID c) (i_staticTags c) (i_cidrs c) (concurrency c) (perHost c) (i_count c) (i_runOnce c) true
  else c.
(** What a ping of an address gives: its packets and how many were answered, none when it fails. *)
Definition alive (ping : string -> option (list Probes.packet * Z)) (ip : string) : option (string * f64) :=
  '(packets, received) ← ping ip;
  if 0 <? received then
    let avg := Probes.avg (Probes.summarizeRTTs (Probes.rtts (foldl Probes.track Probes.newRTTTracker packets))) in
    Some (ip, fdiv (f_of_Z (avg ÷ 1000)) (f_of_Z 1000))
  else None.
Definition icmp_scan_run (ping : string -> option (list Probes.packet * Z)) (order : list (string * f64) -> list (string * f64))
    (ch : channel) (now : Z) (c : icmpScanCheck) : option (icmpScanCheck * res unit * list Event) :=
  if i_runOnce c && i_done c then Some (c, Ok tt, [])
  else
    ips ← expandCIDRs enough (i_cidrs c) [];
    match ips with
    | Err e => Some (c, Err ("icmp.scan expand cidrs: " +:+ e), [])
    | Ok ips => Some (i_mark c, Ok tt, emit ch (omap (fun r => event_of now r.1 (OfICMP "icmp" r.2)) (order (omap (alive ping) ips))))
    end.
End scan.
End Discovery.

(** * What is scanned *)

Module DiscoveryProps.
Import Discovery.

(** ** Addresses as numbers *)

(** The low bytes, the lowest first. *)
Fixpoint le_bytes (n : nat) (z : Z) : list Z :=
  match n with O => [] | S n => z mod 256 :: le_bytes n (z / 256) end.

Lemma le_bytes_snoc n z : le_bytes (S n) z = le_bytes n z ++ [(z / 256 ^ Z.of_nat n) mod 256].
Proof.
  revert z. induction n as [|n IH]; intros z; [cbn; by rewrite Z.div_1_r|].
  change (le_bytes (S (S n)) z) with (z mod 256 :: le_bytes (S n) (z / 256)).
  change (le_bytes (S n) z) with (z mod 256 :: le_bytes n (z / 256)). rewrite IH. cbn [app]. do 3 f_equal.
  rewrite Z.div_div by (try apply Z.pow_pos_nonneg; lia). rewrite Nat2Z.inj_succ, Z.pow_succ_r by lia. done.
Qed.
Lemma reverse_be n z : reverse (be_bytes n z) = le_bytes n z.
Proof.
  induction n as [|n IH]; [done|]. rewrite le_bytes_snoc, <- IH.
  change (be_bytes (S n) z) with ((z / 256 ^ Z.of_nat n) mod 256 :: be_bytes n z). apply reverse_cons.
Qed.
Lemma inc_le n z : inc_rev (le_bytes n z) = le_bytes n (z + 1).
Proof.
  revert z. induction n as [|n IH]; intros z; [done|]. cbn [le_bytes inc_rev].
  assert (Hb : wrap 8 (z mod 256 + 1) = (z + 1) mod 256) by (unfold wrap; change (2 ^ 8) with 256; by rewrite Zplus_mod_idemp_l).
  rewrite Hb. pose proof (Z.div_mod z 256 ltac:(lia)). pose proof (Z.mod_pos_bound z 256 ltac:(lia)).
  destruct (Z.eqb_spec ((z + 1) mod 256) 0) as [Hz|Hz].
  - rewrite IH. do 2 f_equal. pose proof (Z.div_mod (z + 1) 256 ltac:(lia)). lia.
  - do 2 f_equal. pose proof (Z.div_mod (z + 1) 256 ltac:(lia)). pose proof (Z.mod_pos_bound (z + 1) 256 ltac:(lia)). lia.
Qed.
(** Raising an address is adding one. *)
Lemma inc_be n z : ipInc (be_bytes n z) = be_bytes n (z + 1).
Proof. unfold ipInc. rewrite reverse_be, inc_le, <- reverse_be. apply reverse_involutive. Qed.
Lemma last_be n z : n <> 0%nat -> List.last (be_bytes n z) 0 = z mod 256.
Proof.
  intros Hn. pose proof (reverse_be n z) as H. rewrite <- (reverse_involutive (be_bytes n z)), H.
  destruct n as [|n]; [done|]. cbn [le_bytes]. rewrite reverse_cons. by rewrite List.last_last.
Qed.

(** A network as it is parsed: the lowest of its addresses, and as many as its prefix leaves. *)
Record net_at (n : IPNet) (len : nat) (base : Z) : Prop := {
  at_bytes : IP n = be_bytes len base;
  at_len : len = 4%nat \/ len = 16%nat;
  at_ones : 0 <= ones n <= 8 * Z.of_nat len;
  at_base : 0 <= base < 2 ^ (8 * Z.of_nat len);
  at_aligned : base mod net_size n = 0;
}.

Section net.
Variable n : IPNet.
Variable len : nat.
Variable base : Z.
Hypothesis Hn : net_at n len base.

Lemma net_bits : bits n = 8 * Z.of_nat len.
Proof. unfold bits. rewrite (at_bytes _ _ _ Hn), be_bytes_length. done. Qed.
Lemma net_size_pow : net_size n = 2 ^ (8 * Z.of_nat len - ones n).
Proof. unfold net_size. rewrite net_bits, Z.shiftl_1_l. done. Qed.
Lemma net_size_pos : 0 < net_size n.
Proof. rewrite net_size_pow. apply Z.pow_pos_nonneg; [lia|]. pose proof (at_ones _ _ _ Hn). lia. Qed.
Lemma net_all : 2 ^ (8 * Z.of_nat len) = net_size n * 2 ^ ones n.
Proof.
  rewrite net_size_pow, <- Z.pow_add_r by (pose proof (at_ones _ _ _ Hn); lia). f_equal. lia.
Qed.
Lemma net_end : base + net_size n <= 2 ^ (8 * Z.of_nat len).
Proof.
  pose proof (at_base _ _ _ Hn) as Hb. pose proof (at_aligned _ _ _ Hn) as Ha. pose proof net_size_pos. rewrite net_all in *.
  apply Z.mod_divide in Ha as [q ->]; [|lia]. assert (q < 2 ^ ones n) by nia. nia.
Qed.
Lemma pow_256 : 256 ^ Z.of_nat len = 2 ^ (8 * Z.of_nat len).
Proof. change 256 with (2 ^ 8). rewrite <- Z.pow_mul_r by lia. done. Qed.
Lemma value_at v : 0 <= v < 2 ^ (8 * Z.of_nat len) -> be_value 0 (be_bytes len v) = v.
Proof. intros Hv. rewrite be_value_bytes, pow_256, Z.mod_small by done. lia. Qed.

Lemma contains_inside k : 0 <= k < net_size n -> Contains n (be_bytes len (base + k)) = true.
Proof.
  intros Hk. pose proof net_end. pose proof (at_base _ _ _ Hn). unfold Contains. rewrite (at_bytes _ _ _ Hn), !value_at by lia.
  pose proof (at_aligned _ _ _ Hn) as Ha. pose proof net_size_pos. apply Z.mod_divide in Ha as [q ->]; [|lia].
  rewrite Z.div_add_l, Z.div_mul, Z.div_small by lia. apply Z.eqb_eq. lia.
Qed.
Lemma contains_after : ones n <> 0 -> Contains n (be_bytes len (base + net_size n)) = false.
Proof.
  intros Ho. pose proof net_end as He. pose proof (at_base _ _ _ Hn) as Hb. pose proof (at_ones _ _ _ Hn). pose proof net_size_pos as Hp.
  pose proof (at_aligned _ _ _ Hn) as Ha. unfold Contains. rewrite (at_bytes _ _ _ Hn), (value_at base) by lia.
  assert (2 <= 2 ^ ones n) by (change 2 with (2 ^ 1) at 1; apply Z.pow_le_mono_r; lia).
  apply Z.mod_divide in Ha as [q Hq]; [|lia]. rewrite Hq, Z.div_mul by lia.
  destruct (Z.eq_dec (base + net_size n) (2 ^ (8 * Z.of_nat len))) as [Heq|Hlt].
  - rewrite <- Hq, Heq, be_value_bytes, pow_256, Z.mod_same by (apply Z.pow_nonzero; lia). rewrite Z.add_0_r, Z.mul_0_l, Z.div_0_l by lia.
    apply Z.eqb_neq. rewrite net_all in Heq. nia.
  - rewrite <- Hq, value_at by lia. rewrite Hq. replace (q * net_size n + net_size n) with ((q + 1) * net_size n) by lia.
    rewrite Z.div_mul by lia. apply Z.eqb_neq. lia.
Qed.

(** *** Writing a network out *)
Section text.
Variable ParseCIDR : string -> option IPNet.
Variable String_ : list Z -> string.
Definition text (v : Z) : string := String_ (be_bytes len v).

Lemma counted m v : count_up String_ m (be_bytes len v) = text <$> seqZ v (Z.of_nat m).
Proof.
  revert v. induction m as [|m IH]; intros v; [done|]. cbn [count_up]. rewrite inc_be, IH.
  rewrite (seqZ_cons v (Z.of_nat (S m))) by lia. cbn. do 3 f_equal; lia.
Qed.

(** The first and the last address are left out when there are more than two. *)
Definition host_values : list Z := if 2 <? net_size n then seqZ (base + 1) (net_size n - 2) else seqZ base (net_size n).
Lemma hosts_written cidr : ParseCIDR (trim_space cidr) = Some n -> is4 (IP n) = true ->
  hostsInCIDR ParseCIDR String_ cidr = Ok (text <$> host_values).
Proof.
  intros Hp H4. unfold hostsInCIDR. rewrite Hp, H4. cbn [negb]. cbv zeta. f_equal. pose proof net_size_pos.
  rewrite (at_bytes _ _ _ Hn), counted, Z2Nat.id by lia. unfold host_values. destruct (Z.ltb_spec 2 (net_size n)) as [Hs|]; [|done].
  rewrite (seqZ_cons base) by lia. rewrite fmap_cons. cbn [length drop skipn]. rewrite length_fmap, length_seqZ.
  rewrite drop_0, <- fmap_take. f_equal. replace (Z.succ base) with (base + 1) by lia.
  replace (Z.pred (net_size n)) with ((net_size n - 2) + 1) by lia. rewrite seqZ_app by lia.
  rewrite take_app_le, take_ge by (rewrite length_seqZ; lia). done.
Qed.

(** What the other scan keeps. *)
Definition kept_values (k : Z) : list Z := filter (fun v => kept n (v mod 256) = true) (seqZ (base + k) (net_size n - k)).
(** How many may have been passed over since the last that was kept. *)
Definition passed (v : Z) : Z := if v mod 256 =? 0 then 1 else if v mod 256 =? 1 then 2 else 0.

Lemma passed_kept v : kept n (v mod 256) = true -> 0 <= passed v <= 2 /\ 0 <= passed (v + 1).
Proof. intros _. unfold passed. repeat case_match; lia. Qed.
Lemma passed_dropped v : kept n (v mod 256) = false -> passed (v + 1) = passed v + 1.
Proof.
  unfold kept. rewrite negb_false_iff, !andb_true_iff, orb_true_iff. intros [_ Hv].
  pose proof (Z.div_mod v 256 ltac:(lia)). pose proof (Z.div_mod (v + 1) 256 ltac:(lia)).
  pose proof (Z.mod_pos_bound (v + 1) 256 ltac:(lia)). unfold passed.
  destruct Hv as [Hv|Hv]; apply Z.eqb_eq in Hv; rewrite Hv.
  - assert ((v + 1) mod 256 = 1) as -> by lia. done.
  - assert ((v + 1) mod 256 = 0) as -> by lia. done.
Qed.

Definition limited (all : list string) : res (list string) :=
  if (maxIPs <? length all)%nat then Err "icmp.scan: too many addresses" else Ok all.

(** The loop ends, and gives all that is kept or an error when that is too much. *)
Lemma expanded fuel k a out : 0 <= k <= net_size n -> (a <= length out)%nat -> (length out <= maxIPs)%nat ->
  k <= 3 * Z.of_nat a + passed (base + k) -> Z.of_nat enough <= Z.of_nat fuel + k ->
  expand_net String_ fuel n (be_bytes len (base + k)) out = Some (limited (out ++ (text <$> kept_values k))).
Proof.
  revert k a out. induction fuel as [|fuel IH]; intros k a out Hk Ha Hl Hs Hf.
  { exfalso. assert (passed (base + k) <= 2) by (unfold passed; repeat case_match; lia). unfold enough, maxIPs in *. lia. }
  cbn [expand_net]. destruct (Z.eq_dec k (net_size n)) as [->|Hne].
  - assert (Ho : ones n <> 0).
    { intros Ho. assert (passed (base + net_size n) <= 2) by (unfold passed; repeat case_match; lia).
      assert (2 ^ 32 <= net_size n).
      { rewrite net_size_pow, Ho. apply Z.pow_le_mono_r; [lia|]. destruct (at_len _ _ _ Hn) as [->| ->]; lia. }
      unfold maxIPs in *. lia. }
    rewrite contains_after by done. cbn [negb]. unfold kept_values. rewrite Z.sub_diag. cbn. rewrite app_nil_r. unfold limited.
    destruct (Nat.ltb_spec maxIPs (length out)); [lia|done].
  - rewrite contains_inside by lia. cbn [negb]. assert (Hlen : len <> 0%nat) by (destruct (at_len _ _ _ Hn) as [->| ->]; lia).
    rewrite last_be by done. unfold incIP. fold (ipInc (be_bytes len (base + k))). rewrite inc_be.
    replace (base + k + 1) with (base + (k + 1)) by lia.
    assert (Hseq : kept_values k = filter (fun v => kept n (v mod 256) = true) [base + k] ++ kept_values (k + 1)).
    { unfold kept_values. rewrite (seqZ_cons (base + k)) by lia. rewrite filter_cons, filter_cons, filter_nil.
      replace (Z.succ (base + k)) with (base + (k + 1)) by lia. replace (Z.pred (net_size n - k)) with (net_size n - (k + 1)) by lia.
      by case_decide. }
    rewrite Hseq, filter_cons, filter_nil. destruct (kept n ((base + k) mod 256)) eqn:Hkept; cbn [negb].
    + rewrite decide_True by done. rewrite fmap_app, app_assoc. cbn [fmap list_fmap]. fold (text (base + k)).
      change (String_ (be_bytes len (base + k))) with (text (base + k)).
      destruct (Nat.ltb_spec maxIPs (length (out ++ [text (base + k)]))) as [Hbig|Hsmall].
      * unfold limited. destruct (Nat.ltb_spec maxIPs (length ((out ++ [text (base + k)]) ++ (text <$> kept_values (k + 1))))) as [|Hx]; [done|].
        rewrite length_app in Hx. lia.
      * rewrite length_app in Hsmall. cbn [length] in Hsmall. destruct (passed_kept _ Hkept) as [Hp Hp'].
        replace (base + k + 1) with (base + (k + 1)) in Hp' by lia.
        apply (IH (k + 1) (S a)); rewrite ?length_app; cbn [length]; lia.
    + rewrite decide_False by congruence. cbn [app].
      pose proof (passed_dropped _ Hkept) as Hp. replace (base + k + 1) with (base + (k + 1)) in Hp by lia.
      apply (IH (k + 1) a); lia.
Qed.
End text.
End net.

(** ** Scans *)

(** A network as it is written and parsed. *)
Definition parsed (ParseCIDR : string -> option IPNet) (cidr : string) (x : IPNet * nat * Z) : Prop :=
  ParseCIDR (trim_space cidr) = Some x.1.1 /\ ParseCIDR cidr = Some x.1.1 /\ net_at x.1.1 x.1.2 x.2 /\ is4 (IP x.1.1) = true.
Definition host_texts (String_ : list Z -> string) (x : IPNet * nat * Z) : list string := text x.1.2 String_ <$> host_values x.1.1 x.2.
Definition kept_texts (String_ : list Z -> string) (x : IPNet * nat * Z) : list string := text x.1.2 String_ <$> kept_values x.1.1 x.2 0.

Lemma hosts_added hs seen out : NoDup out -> (forall h, h ∈ seen <-> h ∈ out) ->
  let r := foldl add_host (seen, out) hs in
  NoDup r.2 /\ (forall h, h ∈ r.1 <-> h ∈ r.2) /\ (forall h, h ∈ r.2 <-> h ∈ out \/ h ∈ hs).
Proof.
  cbv zeta. revert seen out. induction hs as [|x hs IH]; intros seen out Hnd Hs; [split; [done|split; [done|set_solver]]|].
  cbn [foldl]. unfold add_host at 2 4 6 8. cbn [fst snd]. case_bool_decide as Hx.
  - destruct (IH seen out Hnd Hs) as (? & ? & Hin). split; [done|split; [done|]]. intros h. rewrite Hin. apply Hs in Hx. set_solver.
  - destruct (IH ({[x]} ∪ seen) (out ++ [x])) as (? & ? & Hin).
    + apply NoDup_app. split; [done|split; [|apply NoDup_singleton]]. intros y Hy ->%list_elem_of_singleton. by apply Hx, Hs.
    + intros h. rewrite elem_of_union, elem_of_singleton, elem_of_app, list_elem_of_singleton, Hs. tauto.
    + split; [done|split; [done|]]. intros h. rewrite Hin, elem_of_app, list_elem_of_singleton, elem_of_cons. tauto.
Qed.

Lemma gathered ParseCIDR String_ cidrs nets seen out : Forall2 (parsed ParseCIDR) cidrs nets -> NoDup out -> (forall h, h ∈ seen <-> h ∈ out) ->
  exists hosts, gather ParseCIDR String_ cidrs (seen, out) = Ok hosts /\ NoDup hosts
    /\ (forall h, h ∈ hosts <-> h ∈ out \/ exists x, x ∈ nets /\ h ∈ host_texts String_ x).
Proof.
  intros H. revert seen out. induction H as [|cidr x cidrs nets (Hp & _ & Hn & H4) _ IH]; intros seen out Hnd Hs.
  { exists out. split; [done|split; [done|set_solver]]. }
  cbn [gather]. rewrite (hosts_written _ _ _ Hn _ _ _ Hp H4). fold (host_texts String_ x).
  destruct (hosts_added (host_texts String_ x) seen out Hnd Hs) as (Hnd' & Hs' & Hin').
  destruct (foldl add_host (seen, out) (host_texts String_ x)) as [seen' out']. cbn [fst snd] in *.
  destruct (IH seen' out' Hnd' Hs') as (hosts & -> & Hnd'' & Hin). exists hosts. split; [done|split; [done|]].
  intros h. rewrite Hin, Hin'. setoid_rewrite elem_of_cons. naive_solver.
Qed.

Lemma scanOne_ip GetSysObjectID p profiles ip c : scanOne GetSysObjectID p profiles ip = Some c -> c_IP c = ip.
Proof.
  unfold scanOne. destruct (GetSysObjectID _) as [[oid t]|]; [|done]. cbn. destruct (String.eqb _ ""); [done|]. by intros [= <-].
Qed.
Lemma candidates_once GetSysObjectID p profiles hosts : NoDup hosts -> NoDup (c_IP <$> omap (scanOne GetSysObjectID p profiles) hosts).
Proof.
  induction 1 as [|h hosts Hh _ IH]; [constructor|]. cbn [omap list_omap]. destruct (scanOne _ _ _ h) as [c|] eqn:Hc; [|done].
  rewrite fmap_cons. constructor; [|done]. apply scanOne_ip in Hc.
  intros (c' & Heq & (h' & Hh' & Hc')%list_elem_of_omap)%list_elem_of_fmap. apply scanOne_ip in Hc'. apply Hh. congruence.
Qed.

Lemma expanded_all ParseCIDR String_ cidrs nets out : Forall2 (parsed ParseCIDR) cidrs nets -> (length out <= maxIPs)%nat ->
  expandCIDRs ParseCIDR String_ enough cidrs out = Some (limited (out ++ concat (kept_texts String_ <$> nets))).
Proof.
  assert (Hlim : forall l, (length l <= maxIPs)%nat -> limited l = Ok l) by (intros l Hl; unfold limited; destruct (Nat.ltb_spec maxIPs (length l)); [lia|done]).
  assert (Hover : forall l k, (maxIPs < length l)%nat -> limited l = limited (l ++ k)).
  { intros l k Hl. unfold limited. rewrite length_app. destruct (Nat.ltb_spec maxIPs (length l)); [|lia].
    destruct (Nat.ltb_spec maxIPs (length l + length k)); [done|lia]. }
  intros H. revert out. induction H as [|cidr x cidrs nets (_ & Hp & Hn & _) _ IH]; intros out Hl.
  { cbn. by rewrite app_nil_r, Hlim. }
  cbn [expandCIDRs]. rewrite Hp, (at_bytes _ _ _ Hn). pose proof (net_size_pos _ _ _ Hn).
  pose proof (expanded _ _ _ Hn String_ enough 0 0 out) as He. rewrite Z.add_0_r in He. rewrite He; [|lia|lia|done| |lia].
  2: { unfold passed. repeat case_match; lia. }
  fold (kept_texts String_ x). rewrite fmap_cons. cbn [concat]. rewrite app_assoc.
  destruct (le_lt_dec (length (out ++ kept_texts String_ x)) maxIPs) as [Hle|Hlt].
  - rewrite Hlim by done. by apply IH.
  - rewrite <- (Hover _ _ Hlt). unfold limited. by destruct (Nat.ltb_spec maxIPs (length (out ++ kept_texts String_ x))); [|lia].
Qed.

(** C37: Whatever IPv4 networks are scanned, however they overlap and in whatever order devices answer: the scan over SNMP asks each host
    at most once, what it finds are hosts of the networks without the first and last address of each, and every host that
    is reached and answers is found; the scan over ICMP always ends writing them out, with exactly the addresses that
    it keeps, or with an error when there are more than 4096. *)
Theorem networks_scanned ParseCIDR String_ GetSysObjectID cidrs nets p profiles started order
    (Hnets : Forall2 (parsed ParseCIDR) cidrs nets) (Horder : forall l, order l ≡ₚ l) :
  (exists hosts cs, ScanSNMP ParseCIDR String_ GetSysObjectID cidrs p profiles started order = Ok cs
    /\ NoDup hosts /\ (forall h, h ∈ hosts <-> exists x, x ∈ nets /\ h ∈ host_texts String_ x)
    /\ NoDup (c_IP <$> cs)
    /\ (forall c, c ∈ cs <-> exists h, h ∈ take started hosts /\ scanOne GetSysObjectID (with_defaults p) profiles h = Some c /\ c_IP c = h))
  /\ expandCIDRs ParseCIDR String_ enough cidrs [] = Some (limited (concat (kept_texts String_ <$> nets))).
Proof.
  split; [|apply (expanded_all _ _ _ _ [] Hnets); cbn; unfold maxIPs; lia].
  destruct (gathered ParseCIDR String_ cidrs nets ∅ [] Hnets) as (hosts & Hg & Hnd & Hin); [constructor|set_solver|].
  exists hosts, (order (omap (scanOne GetSysObjectID (with_defaults p) profiles) (take started hosts))). unfold ScanSNMP. cbv zeta. rewrite Hg.
  split; [done|]. split; [done|]. split; [intros h; rewrite Hin; set_solver|]. split.
  - rewrite Horder. apply candidates_once. eapply sublist_NoDup; [exact Hnd|apply sublist_take].
  - intros c. rewrite Horder, list_elem_of_omap. split; [intros (h & ? & Hc)|intros (h & ? & Hc & _)]; exists h; eauto using scanOne_ip.
Qed.

(** *** Examples *)
Definition dotted (ip : list Z) : string := join "." (itoa <$> ip).
Definition ex_parse (cidr : string) : option IPNet :=
  if String.eqb cidr "10.0.0.0/30" then Some (mk_net [10; 0; 0; 0] 30)
  else if String.eqb cidr "10.0.0.64/30" then Some (mk_net [10; 0; 0; 64] 30) else None.
Definition ex_ask (q : Snmp.Params) : option (string * Z) := if String.eqb (Snmp.Target q) "10.0.0.2:161" then Some (".1.3.6.1.4.1.9", 0) else None.
Definition ex_params : ScanParams := mk_scan_params "" "public" "" "" "" "" "" "" 0 0 (-1).

(** The address of a network and that of its broadcast are asked when their last byte is another, and hosts whose last byte is 0 or
    255 are not asked. *)
Example network_address_asked : expandCIDRs ex_parse dotted enough ["10.0.0.64/30"] [] = Some (Ok ["10.0.0.64"; "10.0.0.65"; "10.0.0.66"; "10.0.0.67"]).
Proof. vm_compute. reflexivity. Qed.
Example host_passed_over : kept (mk_net [10; 0; 0; 0] 23) 255 = false /\ Contains (mk_net [10; 0; 0; 0] 23) [10; 0; 0; 255] = true.
Proof. vm_compute. split; reflexivity. Qed.

Lemma ex_parsed : Forall2 (parsed ex_parse) ["10.0.0.0/30"; "10.0.0.64/30"]
  [(mk_net [10; 0; 0; 0] 30, 4%nat, 167772160); (mk_net [10; 0; 0; 64] 30, 4%nat, 167772224)].
Proof.
  repeat constructor; try (vm_compute; done); cbn; try lia; by vm_compute.
Qed.
Lemma networks_scanned_witness : exists (hosts : list string) (cs : list Candidate),
  ScanSNMP ex_parse dotted ex_ask ["10.0.0.0/30"; "10.0.0.64/30"] ex_params None 4 (fun l => l) = Ok cs /\ NoDup hosts /\ NoDup (c_IP <$> cs).
Proof.
  destruct (proj1 (networks_scanned ex_parse dotted ex_ask _ _ ex_params None 4 (fun l => l) ex_parsed (fun l => reflexivity l)))
    as (hosts & cs & H & Hnd & _ & Hnd' & _). by exists hosts, cs.
Defined.

(** ** Checks *)

(** A check that is to run once does nothing after the first scan that ends. *)
Lemma scanned_once NewStruct scan ch now c : s_runOnce c = true ->
  (autodiscover_run NewStruct scan ch now c).1.2 = Ok tt ->
  forall scan' ch' now', autodiscover_run NewStruct scan' ch' now' (autodiscover_run NewStruct scan ch now c).1.1
    = ((autodiscover_run NewStruct scan ch now c).1.1, Ok tt, []).
Proof.
  intros Ho. unfold autodiscover_run at 1 3 4. rewrite Ho. destruct (s_done c) eqn:Hd; cbn [andb fst snd].
  - intros _ scan' ch' now'. unfold autodiscover_run. by rewrite Ho, Hd.
  - destruct (scan _ _) as [cands|]; [|done]. intros _ scan' ch' now'. cbn [fst snd]. unfold autodiscover_run, s_mark. by rewrite Ho.
Qed.
End DiscoveryProps.
